(* ===== verification/_CoqProject ===== *)
-Q . S2P
Prelude.v
Zcl.v
ChipError.v
EndpointTable.v
ClusterQueries.v
Persistence.v
AttributeStorage.v
AttributeTable.v
StoreInterface.v
OnOffServer.v
IdentifyServer.v
RelayDevice.v
OnOffScene.v
Led.v
ZclCallbacks.v
RelayStore.v
AppTask.v
Identity.v
Base38.v
Verhoeff.v
ManualCode.v
QRCode.v
PeerCounter.v
GroupCounters.v
NodeId.v
GroupPeers.v
MessageHeader.v
AccessControl.v
AclStorage.v
TimeUtils.v
PacketBuffer.v
BtpEngine.v
BtpSession.v
StateError.v
Tlv.v
TlvReader.v
TlvWriter.v
TlvUtilities.v
TlvReading.v
TlvReaderSafe.v
TlvEncoding.v
TlvTree.v
TlvIterate.v
TlvWriting.v
TlvRoundtrip.v
TlvWriterSafe.v
TlvChain.v
TlvDemo.v
ReliableMessage.v
ReliableMessageSafe.v
ReliableMessageSteps.v
ReliableMessageTimer.v
ExchangeMgr.v
ExchangeMgrSafe.v
ExchangeMgrTheorems.v
ReliableMessageTheorems.v
ReliableMessageDemo.v
