(* ===== verification/Prelude.v ===== *)
(** * relay_mt: verification library (root file)

    The program is the firmware of a Wi-Fi relay with two channels, built on the
    Matter stack (connectedhomeip): [src/examples/lighting-app/thirdreality] is the
    product, [src/src] the stack.  A command reaches a cluster server, the server
    writes attributes, the write runs the product's callback, and the callback
    drives a pin.  Around that path the device keeps its values in flash, shows its
    state on a lamp, resets after power cycles or a held input, is paired with a
    code, and accepts each message of a peer once.

    ** Files, from the bottom up

    - [Prelude]: record update, machine integers ([wrap], [in_u]), bytes and
      buffers, list lemmas, the hint databases [dev] and [dev_len], tactics.
    - [Zcl], [ChipError]: data types of [app/util] and the error codes.
    - [EndpointTable], [ClusterQueries] ([app/util/attribute-storage.cpp]): the
      defined endpoints as a [Record], enabling and disabling with the reports to
      the parents, dynamic endpoints, access overrides; the queries over them.
    - [Persistence] ([platform/bouffalolab/common/BLConfig.cpp],
      [KeyValueStoreManagerImpl.cpp], [app/DefaultAttributePersistenceProvider.cpp]):
      the storage stack over the class [EasyFlash].
    - [AttributeStorage] ([app/util/attribute-storage.cpp]): the flat memory of the
      attributes.  [AttributeTable] ([attribute-table.cpp], [util.cpp]): writes with
      their checks, the callbacks they run and what they save.
    - [StoreInterface]: the class [AttributeStore] with its laws, the contract
      between the table and the clusters, with the typed accessors of the clusters;
      the table is an instance, and so is a plain map ([MapStore]).
    - [OnOffServer] ([app/clusters/on-off-server]): the cluster's commands, timers
      and effects, proved against [AttributeStore]; [OnOffScene]: its scene buffer.
      [IdentifyServer] ([app/clusters/identify-server]): the Identify cluster, whose
      attribute callback writes the attribute again, on the same class.
    - [RelayDevice]: the relay's endpoints as a concrete table, for the witnesses.
    - [Led], [ZclCallbacks], [RelayStore], [AppTask], [Identity] (the product): lamp,
      callback, the table with the callback as one device (again an
      [AttributeStore]), the application task, and the identity from the MAC
      address.
    - [Base38], [Verhoeff], [ManualCode], [QRCode] ([setup_payload],
      [lib/support/verhoeff]): the onboarding codes.
    - [NodeId] ([lib/core]): ranges of node identifiers and authentication tags.
      [AccessControl] ([access/AccessControl.cpp]): the check of a request, the
      validation and the operations of the access list, over the class
      [AclDelegate] with the laws [AclDelegateLaws]; [AclStorage]
      ([access/examples]): the delegate of the device, with its pools of storages
      and delegate objects, as an instance of both.
    - [PeerCounter], [GroupCounters], [GroupPeers], [MessageHeader] ([transport]):
      replay windows, the counters of group messages with their storage, the table
      of group peers, and the headers on the wire.
    - [PacketBuffer] ([system/SystemPacketBuffer.cpp], [lib/support/BufferWriter.cpp]):
      chains of buffers and the writer over one.  [BtpEngine] ([ble/BtpEngine.cpp]):
      the engine of the Bluetooth transport protocol; [BtpSession]: two of them on a
      link, as a step relation.
    - [TimeUtils] ([lib/support/TimeUtils.cpp]): dates, days and seconds since the
      epochs.
    - [StateError]: the monad of methods that change their object and return an
      error, with [wp].  [Tlv], [TlvReader], [TlvWriter], [TlvUtilities] ([lib/core]):
      the encoding, its reader, writer and utilities over the class
      [TLVBackingStore]; [TlvReading], [TlvReaderSafe], [TlvEncoding], [TlvTree],
      [TlvIterate], [TlvWriting], [TlvRoundtrip], [TlvWriterSafe]: its theorems;
      [TlvChain] ([system/TLVPacketBufferBackingStore.cpp]): the store over a chain of
      buffers; [TlvDemo]: witnesses and limits.
    - [ReliableMessage], [ExchangeMgr] ([messaging]): exchanges, acknowledgements,
      retransmissions, and the manager that gives messages to exchanges, over the
      class [SessionLayer]; [ReliableMessageSafe], [ReliableMessageSteps],
      [ReliableMessageTimer], [ReliableMessageTheorems], [ExchangeMgrSafe],
      [ExchangeMgrTheorems]: the invariant, operation by operation, the timer, and
      histories; [ReliableMessageDemo]: witnesses and a finding.

    An operation is a function on the component's state with the name it has in the
    source.  Fallible code returns an [option] where the source would leave a
    buffer, an array or fail an assertion, and an error code where it returns one.
    A mutable argument is an extra result.  Callbacks into other components are a
    log, in order, or an argument.

    ** The theorems

    - The relay: commands of the On/Off server refine an abstract light
      ([OnOffServer.onoff_simulation]); on the whole device they move the pins
      ([RelayStore.relays_follow_commands]); the event loop, its timer, the boot
      options, the reset by power cycles ([AppTask]); the timed off ends in off, its
      timer armed until then.
    - Identify: every command, write and tick ends at the next state of an abstract
      machine ([IdentifyServer.identify_refines]), an identification of t seconds
      lasts t ticks, and an effect that is not handled cancels the next
      identification (a finding).
    - Attributes: the flat memory refines a map from paths to values
      ([AttributeStorage.attribute_write_read]), a rejected write changes nothing and an
      accepted one is saved before it is reported ([AttributeTable.write_all_or_nothing],
      whose log holds with each call the store it finds), what is saved is what is loaded
      ([Persistence.attribute_persistence_roundtrip]).
    - Endpoints: enabling and disabling return with the whole table and the log of
      calls given ([EndpointTable.enable_disable_correct]), when the parents have no
      cycle; a table on which the walk over the parents does not end.
    - Codes: round trips of the manual code, the QR code and base 38; every change
      of one digit and every swap of neighbours is detected.
    - Access: a request is allowed exactly by the entries of its fabric that grant it
      by a policy written apart from the code
      ([AccessControl.access_check_correct]); creating, updating and deleting
      entries are list operations ([AccessControl.acl_operations_refine]); each of the
      nine setters of an entry object is a list operation on that object alone
      ([AclStorage.editing_is_private]), and a fabric removed loses its access; the
      clean-up after a deletion looks at the wrong entry (a finding).
    - Messages: the window refines the set of counters seen, no counter is accepted
      twice, counters of group messages are not reused across reboots unless a
      write of the storage fails (a finding), groups of different fabrics do not
      interfere; headers round trip and stay well formed.
    - Buffers and Bluetooth: a chain of buffers refines the list of its bytes
      ([PacketBuffer.chain_operations_refine]); two engines on an ordered link deliver
      every message whole and in order, whatever the interleaving of fragments and
      acknowledgements ([BtpSession.btp_delivers_in_order], by rule induction with an
      invariant that relates the one-byte numbers to unbounded counters), and no
      operation of either engine fails; sending a message ends after a known number of
      fragments.
    - TLV: what the writer writes the reader reads back
      ([TlvRoundtrip.tlv_roundtrip]); on any input every sequence of calls of the reader
      returns inside its buffers, [GetString] after a successful move
      ([TlvReaderSafe.reader_calls_return]; a finding shows the need); the writer stays
      in its buffer ([TlvWriterSafe.writer_stays_in_buffer]); searches and typed reads are those of
      the tree; a chain of buffers reads like one, but for pointers into a value that is
      split ([TlvChain.chain_read_as_joined]).
    - Exchanges: no history of calls, messages, lost sessions and timers makes an
      assertion fail, and exchanges, references, retransmissions and timers stay in
      agreement ([ExchangeMgrTheorems.exchanges_stay_sound]); retransmission ends
      ([ExchangeMgrTheorems.retransmissions_end]), except after a session is lost
      while a send is expected (a finding); duplicates are acknowledged again; the
      exact backoff; the table of handlers refines a map.
    - Dates: the closed formulas agree with a calendar counted one day at a time
      ([TimeUtils.calendar_days_correct]), seconds since either epoch round trip,
      and the year wraps for days beyond its 16 bits (a finding).

    ** Fuel and bounds

    Loops whose bound the source computes take it as fuel: walks over endpoints and
    clusters the size of the table, the parent walk any number above the rank of the
    endpoint, where a parent has a lower rank than its child
    ([EndpointTable.enable_disable_correct] shows that this is enough, [EndpointTable.self_parent_diverges] that none is enough
    on a cycle, which has no ranks).  The event loop is a list of events.  The loop over the
    entries of a fabric has the length of the list and one as fuel
    ([AccessControl.access_check_correct] ends for every larger one).  The callbacks of
    the Identify cluster nest at most two writes, which is their fuel.  Loops over TLV
    take the length of the input and two, since every element takes a byte.  The timer of
    the reliability manager is fired 49 times: one firing, and one for each of the 8
    pending acknowledgements and the 5 transmissions of 8 entries.  Integers are
    [Z] with the wrap of their C++ type written out at the operations that can leave it.

    ** Parameters

    Outside the repository, and arguments or classes of the model: EasyFlash, the
    GPIO and PWM drivers, the RTOS, [itoa], random numbers and the clock.  The session
    layer below the exchanges and the backing store of TLV are classes; so are the
    handlers of unsolicited messages, which promise that their delegates allow
    standalone acknowledgements.  Locks and logging have no effect on the state and are
    left out.

    ** Not modelled

    - The effect of level control on the On/Off server (an argument), the
      serialization of scenes, the TLV data of a setup payload,
      [EncodeBeforeData], [CopyViaInterface] (compiled out), reference counts of
      packet buffers above one, their fixed pool and LwIP's.
    - Of TLV the updater, the circular buffer, the formatting of [PutStringF] and the
      reader of localized strings; of the exchange layer
      [AbortAllOtherCommunicationOnFabric] and [CloseAllContextsForDelegate].
    - The groups server, level and color control, the other clusters, the interaction
      model, fail-safe, the end points over the Bluetooth engine, BDX: components of
      their own above or beside what is modelled here.
    - Crypto, certificates, session establishment, discovery, sockets and platform
      layers: they wrap libraries that are not in the repository.
    - Generated code (but for the accessors used), bindings, the controller, other
      products and tools. *)

From Stdlib Require Export ZArith Lia.
From stdpp Require Export base tactics gmap strings option.
From stdpp Require Export list.
#[global] Open Scope Z_scope.

(** ** Functional record update

    [r <| f := v |>] is [r] with field [f] replaced.  A record declares one
    [Eta] instance (its constructor applied to its projections); the setter of
    every field is derived from it. *)
Class Eta (R : Type) : Type := eta_expand : R → R.
Class Update {R E : Type} (field : R → E) : Type := update : (E → E) → R → R.
#[global] Arguments update {R E} field {_} _ _ /.

Ltac derive_update :=
  lazymatch goal with
  | |- @Update ?R _ ?fld =>
      let inst := constr:(ltac:(typeclasses eauto) : Eta R) in
      let body := eval hnf in inst in
      refine (fun g r =>
        ltac:(let full := eval cbv beta in (body r) in
              lazymatch eval pattern (fld r) in full with
              | ?ctx _ => let t := eval cbv beta in (ctx (g (fld r))) in exact t
              end))
  end.
#[global] Hint Extern 1 (Update _) => derive_update : typeclass_instances.

Declare Scope dev_scope.
Notation "r <| f := v |>" := (update f (fun _ => v) r)
  (at level 1, f at next level, left associativity, format "r  <| f  :=  v |>")
  : dev_scope.
Notation "r <| f ::= g |>" := (update f g r)
  (at level 1, f at next level, left associativity) : dev_scope.
#[global] Open Scope dev_scope.

(** ** Machine integers

    A [w]-bit unsigned value is a [Z] in [0 .. 2^w - 1]; arithmetic that can
    leave the range is followed by the wrap of its C++ type. *)
Definition wrap (w x : Z) : Z := x mod 2 ^ w.
Abbreviation u8 := (wrap 8).
Abbreviation u16 := (wrap 16).
Abbreviation u32 := (wrap 32).
Abbreviation u64 := (wrap 64).

Definition in_u (w x : Z) : Prop := 0 ≤ x < 2 ^ w.

Lemma wrap_range w x : 0 ≤ w → in_u w (wrap w x).
Proof. intros. apply Z.mod_pos_bound, Z.pow_pos_nonneg; lia. Qed.

Lemma wrap_small w x : in_u w x → wrap w x = x.
Proof. apply Z.mod_small. Qed.

Lemma wrap_idemp w x : 0 ≤ w → wrap w (wrap w x) = wrap w x.
Proof. intros. apply wrap_small, wrap_range; done. Qed.

#[export] Instance in_u_dec w x : Decision (in_u w x).
Proof. unfold in_u. apply _. Defined.

(** The [or] of a multiple of [2^m] and a value below it is their sum. *)
Lemma lor_disjoint q m x : 0 ≤ m → 0 ≤ x < 2 ^ m → Z.lor (q * 2 ^ m) x = q * 2 ^ m + x.
Proof.
  intros Hm Hx. symmetry. apply Z.add_nocarry_lor. apply Z.bits_inj'. intros i Hi.
  rewrite Z.land_spec, Z.bits_0. destruct (Z.ltb_spec i m).
  - by rewrite Z.mul_pow2_bits_low.
  - rewrite <- (Z.mod_small x (2 ^ m)) by done. rewrite Z.mod_pow2_bits_high by lia. by rewrite andb_false_r.
Qed.

(** [has_bits m b] is the C test [(m & b) != 0]. *)
Definition has_bits (m b : Z) : bool := negb (Z.land m b =? 0).
Lemma has_bits_comm m b : has_bits m b = has_bits b m.
Proof. unfold has_bits. by rewrite Z.land_comm. Qed.

Lemma has_bits_pow2 m k : 0 ≤ k → has_bits m (2 ^ k) = Z.testbit m k.
Proof.
  intros Hk. unfold has_bits. destruct (Z.testbit m k) eqn:E.
  - apply negb_true_iff, Z.eqb_neq. intros H0.
    apply (f_equal (fun z => Z.testbit z k)) in H0.
    rewrite Z.land_spec, E, Z.pow2_bits_true, Z.bits_0 in H0 by done. done.
  - apply negb_false_iff, Z.eqb_eq. apply Z.bits_inj'. intros i Hi.
    rewrite Z.land_spec, Z.bits_0. destruct (decide (i = k)) as [->|].
    + by rewrite E.
    + rewrite (Z.pow2_bits_false k i) by lia. by rewrite andb_false_r.
Qed.

(** Evaluates every closed wrap and unfolds the range predicate. *)
Ltac ulia := unfold in_u, wrap in *; lia.

(** ** A small monad for C code: [None] is undefined behaviour

    [option] results mark an access the language leaves undefined (a read or a
    write outside its buffer); theorems show it is not reached. *)
Notation "'let!' x := e1 'in' e2" :=
  (match e1 with Some x => e2 | None => None end)
  (at level 10, x pattern, e1 at level 200, e2 at level 200) : dev_scope.

(** With an error or an early exit on the left. *)
Notation "'try!' x := e1 'in' e2" :=
  (match e1 with None => None | Some (inl err) => Some (inl err) | Some (inr x) => e2 end)
  (at level 200, x pattern, e2 at level 200) : dev_scope.

(** Steps through the first [let!] of a hypothesis-to-be [e = Some r → P]. *)
Tactic Notation "let_step" simple_intropattern(x) ident(E) :=
  match goal with
  | |- match ?t with Some _ => _ | None => None end = Some _ → _ =>
      destruct t as [x|] eqn:E; [|discriminate]
  end.

(** ** Lists *)
Lemma alter_insert_lookup {A} (l : list A) k f (x : A) : l !! k = Some x → alter f k l = <[k := f x]> l.
Proof.
  intros Hk. pose proof (lookup_lt_Some _ _ _ Hk). apply list_eq. intros i.
  destruct (decide (k = i)) as [<-|].
  - rewrite list_lookup_alter_eq, Hk, list_lookup_insert_eq by done. done.
  - by rewrite list_lookup_alter_ne, list_lookup_insert_ne by done.
Qed.

(** Sums of integers over a list. *)
Definition sum_by {A} (f : A → Z) (l : list A) : Z := foldr (fun x acc => f x + acc) 0 l.

Section sum_by.
Context {A : Type} (f : A → Z).

Lemma sum_by_app l1 l2 : sum_by f (l1 ++ l2) = sum_by f l1 + sum_by f l2.
Proof. induction l1 as [|x l1 IH]; simpl; [done|]. rewrite IH. lia. Qed.

Lemma sum_by_nonneg l : Forall (fun x => 0 ≤ f x) l → 0 ≤ sum_by f l.
Proof. induction 1; simpl; lia. Qed.

(** The ranges that consecutive elements take are disjoint. *)
Lemma sum_by_take_lt l i j x : Forall (fun x => 0 ≤ f x) l → (i < j)%nat → l !! i = Some x →
  sum_by f (take i l) + f x ≤ sum_by f (take j l).
Proof.
  intros Hl Hij Hx. replace j with (i + S (j - i - 1))%nat by lia. rewrite <- take_take_drop, sum_by_app.
  rewrite (drop_S _ _ _ Hx). simpl. assert (0 ≤ sum_by f (take (j - i - 1) (drop (S i) l))); [|lia].
  by apply sum_by_nonneg, Forall_take, Forall_drop.
Qed.

Lemma sum_by_take_le l i x : Forall (fun x => 0 ≤ f x) l → l !! i = Some x →
  sum_by f (take i l) + f x ≤ sum_by f l.
Proof.
  intros Hl Hx. pose proof (sum_by_take_lt l i (length l) x Hl (lookup_lt_Some _ _ _ Hx) Hx) as H.
  by rewrite firstn_all in H.
Qed.
End sum_by.

Lemma sum_by_bind {A B} (f : B → Z) (g : A → list B) (h : A → Z) l :
  Forall (fun x => sum_by f (g x) = h x) l → sum_by f (l ≫= g) = sum_by h l.
Proof. induction 1 as [|x l Hx _ IH]; [done|]. cbn [mbind list_bind]. rewrite sum_by_app, Hx, IH. done. Qed.

Lemma wrap_add_l w a b : 0 < w → wrap w (wrap w a + b) = wrap w (a + b).
Proof. intros. unfold wrap. apply Z.add_mod_idemp_l. apply Z.pow_nonzero; lia. Qed.

(** ** Byte memory *)
Abbreviation bytes := (list Z).

Definition mread (m : bytes) (off n : nat) : option bytes :=
  if (off + n <=? length m)%nat then Some (take n (drop off m)) else None.

Definition mwrite (m : bytes) (off : nat) (bs : bytes) : option bytes :=
  if (off + length bs <=? length m)%nat
  then Some (take off m ++ bs ++ drop (off + length bs) m)
  else None.

Section memory.
Implicit Types m bs : bytes.
Implicit Types off n : nat.

Lemma mread_Some m off n l :
  mread m off n = Some l ↔ (off + n ≤ length m)%nat ∧ l = take n (drop off m).
Proof. unfold mread. case_match eqn:E; [apply Nat.leb_le in E|apply Nat.leb_gt in E]; naive_solver lia. Qed.

Lemma mread_is_Some m off n : (off + n ≤ length m)%nat → is_Some (mread m off n).
Proof. intros. exists (take n (drop off m)). by apply mread_Some. Qed.

Lemma mread_length m off n l : mread m off n = Some l → length l = n.
Proof. intros [? ->]%mread_Some. rewrite length_take, length_drop. lia. Qed.

Lemma mwrite_Some m off bs m' :
  mwrite m off bs = Some m' ↔
  (off + length bs ≤ length m)%nat ∧ m' = take off m ++ bs ++ drop (off + length bs) m.
Proof. unfold mwrite. case_match eqn:E; [apply Nat.leb_le in E|apply Nat.leb_gt in E]; naive_solver lia. Qed.

Lemma mwrite_is_Some m off bs : (off + length bs ≤ length m)%nat → is_Some (mwrite m off bs).
Proof. intros. eexists. by apply mwrite_Some. Qed.

Lemma mwrite_length m off bs m' : mwrite m off bs = Some m' → length m' = length m.
Proof.
  intros [? ->]%mwrite_Some.
  rewrite !length_app, length_take, length_drop. lia.
Qed.

Lemma mwrite_lookup m off bs m' i :
  mwrite m off bs = Some m' →
  m' !! i = if decide (off ≤ i < off + length bs)%nat then bs !! (i - off)%nat else m !! i.
Proof.
  intros [Hle ->]%mwrite_Some. assert (length (take off m) = off) as Hl
    by (rewrite length_take; lia).
  case_decide as Hd.
  - rewrite lookup_app_r by lia. rewrite lookup_app_l by lia. f_equal; lia.
  - destruct (decide (i < off)%nat).
    + rewrite lookup_app_l by lia. by rewrite lookup_take_lt by lia.
    + rewrite lookup_app_r by lia. rewrite lookup_app_r by lia.
      rewrite lookup_drop. f_equal; lia.
Qed.

Lemma mread_ext m m' off n :
  length m = length m' →
  (∀ i, (off ≤ i < off + n)%nat → m !! i = m' !! i) →
  mread m off n = mread m' off n.
Proof.
  intros Hlen Hi. unfold mread. rewrite Hlen. case_match; [|done]. f_equal.
  apply list_eq. intros i. destruct (decide (i < n)%nat).
  - rewrite !lookup_take_lt, !lookup_drop by lia. apply Hi. lia.
  - rewrite !lookup_take_ge by lia. done.
Qed.

Lemma mread_mwrite_same m off bs m' :
  mwrite m off bs = Some m' → mread m' off (length bs) = Some bs.
Proof.
  intros Hw. apply mread_Some. split.
  - pose proof (mwrite_length _ _ _ _ Hw). apply mwrite_Some in Hw as [? _]. lia.
  - apply mwrite_Some in Hw as [? ->]. rewrite drop_app_length', take_app_length'; [done|done|].
    rewrite length_take. lia.
Qed.

Lemma mread_mwrite_disjoint m off bs m' off2 n2 :
  mwrite m off bs = Some m' →
  (off2 + n2 ≤ off ∨ off + length bs ≤ off2)%nat →
  mread m' off2 n2 = mread m off2 n2.
Proof.
  intros Hw Hd. apply mread_ext; [by eapply mwrite_length|].
  intros i Hi. erewrite mwrite_lookup by done. by rewrite decide_False by lia.
Qed.
Lemma mwrite_app m off b1 b2 :
  mwrite m off (b1 ++ b2) = (let! x := mwrite m off b1 in mwrite x (off + length b1) b2).
Proof.
  destruct (decide (off + length (b1 ++ b2) ≤ length m)%nat) as [Hl|Hl].
  - destruct (mwrite_is_Some m off (b1 ++ b2) Hl) as [x Hx]. rewrite length_app in Hl.
    destruct (mwrite_is_Some m off b1) as [m1 H1]; [lia|]. rewrite H1, Hx.
    destruct (mwrite_is_Some m1 (off + length b1) b2) as [m2 H2]; [rewrite (mwrite_length _ _ _ _ H1); lia|]. rewrite H2. f_equal.
    apply list_eq. intros i. rewrite (mwrite_lookup _ _ _ _ i Hx), (mwrite_lookup _ _ _ _ i H2), (mwrite_lookup _ _ _ _ i H1).
    rewrite length_app. repeat case_decide; try lia; try done.
    + rewrite lookup_app_r by lia. f_equal; lia.
    + by rewrite lookup_app_l by lia.
  - rewrite length_app in Hl. unfold mwrite at 1. rewrite (proj2 (Nat.leb_gt _ _)) by (rewrite length_app; lia).
    destruct (mwrite m off b1) as [m1|] eqn:H1; [|done]. unfold mwrite. rewrite (mwrite_length _ _ _ _ H1).
    by rewrite (proj2 (Nat.leb_gt _ _)) by lia.
Qed.

(** A later write hides an earlier one it covers. *)
Lemma mwrite_over m off b x c : mwrite m off b = Some x → (length b ≤ length c)%nat → mwrite x off c = mwrite m off c.
Proof.
  intros Hx Hl. pose proof (mwrite_length _ _ _ _ Hx) as Hlen. destruct (decide (off + length c ≤ length m)%nat) as [Hle|Hgt].
  - destruct (mwrite_is_Some m off c Hle) as [y Hy]. destruct (mwrite_is_Some x off c) as [z Hz]; [by rewrite Hlen|].
    rewrite Hy, Hz. f_equal. apply list_eq. intros i.
    rewrite (mwrite_lookup _ _ _ _ i Hy), (mwrite_lookup _ _ _ _ i Hz), (mwrite_lookup _ _ _ _ i Hx). repeat case_decide; done || lia.
  - unfold mwrite. rewrite Hlen. by rewrite (proj2 (Nat.leb_gt _ _)) by lia.
Qed.

Lemma mwrite_extend m off a b x c : mwrite m off (a ++ b) = Some x → (length b ≤ length c)%nat →
  mwrite x (off + length a) c = mwrite m off (a ++ c).
Proof.
  rewrite !mwrite_app. destruct (mwrite m off a) as [y|]; [|done]. apply mwrite_over.
Qed.
End memory.

(** ** Little-endian integers in memory *)
Fixpoint le_val (bs : bytes) : Z :=
  match bs with
  | [] => 0
  | b :: bs => b + 256 * le_val bs
  end.

Fixpoint le_bytes (n : nat) (x : Z) : bytes :=
  match n with
  | O => []
  | S n => x mod 256 :: le_bytes n (x / 256)
  end.

Definition bytes_ok (bs : bytes) : Prop := Forall (in_u 8) bs.

Section little_endian.
Lemma length_le_bytes n x : length (le_bytes n x) = n.
Proof. revert x; induction n; simpl; auto. Qed.

Lemma le_val_range bs : bytes_ok bs → 0 ≤ le_val bs < 256 ^ Z.of_nat (length bs).
Proof.
  induction 1 as [|b bs Hb _ IH]; [simpl; lia|].
  cbn [le_val length]. rewrite Nat2Z.inj_succ, Z.pow_succ_r by lia.
  unfold in_u in Hb. change (2 ^ 8) with 256 in Hb. nia.
Qed.

Lemma le_bytes_ok n x : bytes_ok (le_bytes n x).
Proof.
  revert x; induction n; intros; constructor; [|apply IHn].
  unfold in_u. change (2 ^ 8) with 256. apply Z.mod_pos_bound. lia.
Qed.

Lemma le_val_bytes n x : 0 ≤ x < 256 ^ Z.of_nat n → le_val (le_bytes n x) = x.
Proof.
  revert x; induction n as [|n IH]; intros x Hx; [simpl in *; lia|].
  cbn [le_bytes le_val]. rewrite Nat2Z.inj_succ, Z.pow_succ_r in Hx by lia.
  rewrite IH; [pose proof (Z.div_mod x 256); lia|].
  split; [apply Z.div_pos; lia|apply Z.div_lt_upper_bound; lia].
Qed.

Lemma le_bytes_val bs : bytes_ok bs → le_bytes (length bs) (le_val bs) = bs.
Proof.
  induction 1 as [|b bs Hb Hbs IH]; [done|].
  unfold in_u in Hb. change (2 ^ 8) with 256 in Hb.
  cbn [le_bytes length le_val].
  replace ((b + 256 * le_val bs) mod 256) with b
    by (rewrite Z.mul_comm, Z.mod_add by lia; rewrite Z.mod_small; lia).
  replace ((b + 256 * le_val bs) / 256) with (le_val bs); [by rewrite IH|].
  rewrite Z.mul_comm, Z.div_add by lia. rewrite Z.div_small by lia. lia.
Qed.

Lemma le_val_inj bs1 bs2 :
  bytes_ok bs1 → bytes_ok bs2 → length bs1 = length bs2 →
  le_val bs1 = le_val bs2 → bs1 = bs2.
Proof. intros H1 H2 Hl Hv. by rewrite <- (le_bytes_val bs1), <- (le_bytes_val bs2), Hl, Hv. Qed.
End little_endian.

(** ** Text

    A string in memory is the list of its character codes; a C string ends at the
    first 0. *)
(** The text before the first terminator. *)
Fixpoint c_str (m : bytes) : bytes :=
  match m with
  | [] => []
  | b :: m => if b =? 0 then [] else b :: c_str m
  end.
Definition text (s : string) : bytes := (fun c => Z.of_N (Ascii.N_of_ascii c)) <$> String.list_ascii_of_string s.

Lemma c_str_app (s m : bytes) : Forall (fun c => c ≠ 0) s → c_str (s ++ 0 :: m) = s.
Proof. induction 1 as [|c s Hc _ IH]; [done|]. cbn [app c_str]. by rewrite (proj2 (Z.eqb_neq _ _) Hc), IH. Qed.

Lemma list_alter_insert_eq {A} (l : list A) k f (x : A) : <[k := x]> (alter f k l) = <[k := x]> l.
Proof.
  revert k; induction l as [|y l IH]; intros [|k]; [done..|]. cbn. f_equal. apply IH.
Qed.

(** ** Filters that keep all or nothing *)
Lemma filter_all {A} (P : A → Prop) `{Hdec : ∀ x, Decision (P x)} (l : list A) : (∀ x, x ∈ l → P x) → filter P l = l.
Proof.
  induction l as [|x l IH]; intros H; [done|]. rewrite filter_cons_True by (apply H; left). f_equal. apply IH. intros y Hy. apply H. by right.
Qed.

Lemma filter_none {A} (P : A → Prop) `{Hdec : ∀ x, Decision (P x)} (l : list A) : (∀ x, x ∈ l → ¬ P x) → filter P l = [].
Proof.
  induction l as [|x l IH]; intros H; [done|]. rewrite filter_cons_False by (apply H; left). apply IH. intros y Hy. apply H. by right.
Qed.

(** ** Hints

    [dev]: [eauto with dev] proves the range of a machine integer and of a byte, and
    that an access inside a buffer succeeds.  [dev_len]: [autorewrite with dev_len]
    normalises the length of a buffer. *)
Lemma in_u_le w v x : w ≤ v → in_u w x → in_u v x.
Proof. unfold in_u. intros Hw [H0 H1]. pose proof (Z.pow_le_mono_r 2 w v eq_refl Hw). lia. Qed.

Lemma in_u_0 w : 0 ≤ w → in_u w 0.
Proof. unfold in_u. intros. pose proof (Z.pow_pos_nonneg 2 w). lia. Qed.

Lemma bytes_ok_nil : bytes_ok [].
Proof. apply Forall_nil_2. Qed.

Lemma bytes_ok_app a b : bytes_ok a → bytes_ok b → bytes_ok (a ++ b).
Proof. apply Forall_app_2. Qed.

Create HintDb dev.
#[export] Hint Extern 1 (_ ≤ _)%Z => lia : dev.
#[export] Hint Extern 1 (_ ≤ _)%nat => lia : dev.
#[export] Hint Resolve wrap_range in_u_0 le_bytes_ok bytes_ok_nil bytes_ok_app mread_is_Some mwrite_is_Some : dev.

Create HintDb dev_len.
#[export] Hint Rewrite @length_app @length_take @length_drop @length_insert @length_cons @length_fmap @length_replicate length_le_bytes : dev_len.
