(* ===== verification/Zcl.v ===== *)
(** * Zcl: the data types of the attribute store

    The enumerations and structs of [src/src/app/util/af-enums.h],
    [attribute-metadata.h], [af-types.h] and [src/src/app/att-storage.h].
    Pointers to arrays are lists; a pointer that may be null is an [option]. *)
From S2P Require Import Prelude.

(** ** Status codes ([af-enums.h]) *)
Inductive EmberAfStatus : Set :=
| EMBER_ZCL_STATUS_SUCCESS
| EMBER_ZCL_STATUS_FAILURE
| EMBER_ZCL_STATUS_INVALID_SUBSCRIPTION
| EMBER_ZCL_STATUS_UNSUPPORTED_ACCESS
| EMBER_ZCL_STATUS_UNSUPPORTED_ENDPOINT
| EMBER_ZCL_STATUS_MALFORMED_COMMAND
| EMBER_ZCL_STATUS_UNSUPPORTED_COMMAND
| EMBER_ZCL_STATUS_DEPRECATED82
| EMBER_ZCL_STATUS_DEPRECATED83
| EMBER_ZCL_STATUS_DEPRECATED84
| EMBER_ZCL_STATUS_INVALID_COMMAND
| EMBER_ZCL_STATUS_UNSUPPORTED_ATTRIBUTE
| EMBER_ZCL_STATUS_CONSTRAINT_ERROR
| EMBER_ZCL_STATUS_UNSUPPORTED_WRITE
| EMBER_ZCL_STATUS_RESOURCE_EXHAUSTED
| EMBER_ZCL_STATUS_DUPLICATE_EXISTS
| EMBER_ZCL_STATUS_NOT_FOUND
| EMBER_ZCL_STATUS_UNREPORTABLE_ATTRIBUTE
| EMBER_ZCL_STATUS_INVALID_DATA_TYPE
| EMBER_ZCL_STATUS_DEPRECATED8E
| EMBER_ZCL_STATUS_UNSUPPORTED_READ
| EMBER_ZCL_STATUS_DEPRECATED90
| EMBER_ZCL_STATUS_DEPRECATED91
| EMBER_ZCL_STATUS_DATA_VERSION_MISMATCH
| EMBER_ZCL_STATUS_DEPRECATED93
| EMBER_ZCL_STATUS_TIMEOUT
| EMBER_ZCL_STATUS_RESERVED95
| EMBER_ZCL_STATUS_RESERVED96
| EMBER_ZCL_STATUS_RESERVED97
| EMBER_ZCL_STATUS_RESERVED98
| EMBER_ZCL_STATUS_RESERVED99
| EMBER_ZCL_STATUS_RESERVED9A
| EMBER_ZCL_STATUS_BUSY
| EMBER_ZCL_STATUS_DEPRECATEDC0
| EMBER_ZCL_STATUS_DEPRECATEDC1
| EMBER_ZCL_STATUS_UNSUPPORTED_CLUSTER
| EMBER_ZCL_STATUS_DEPRECATEDC4
| EMBER_ZCL_STATUS_NO_UPSTREAM_SUBSCRIPTION
| EMBER_ZCL_STATUS_NEEDS_TIMED_INTERACTION
| EMBER_ZCL_STATUS_UNSUPPORTED_EVENT
| EMBER_ZCL_STATUS_PATHS_EXHAUSTED
| EMBER_ZCL_STATUS_TIMED_REQUEST_MISMATCH
| EMBER_ZCL_STATUS_FAILSAFE_REQUIRED
| EMBER_ZCL_STATUS_WRITE_IGNORED.

Definition status_code (s : EmberAfStatus) : Z :=
  match s with
  | EMBER_ZCL_STATUS_SUCCESS => 0
  | EMBER_ZCL_STATUS_FAILURE => 1
  | EMBER_ZCL_STATUS_INVALID_SUBSCRIPTION => 125
  | EMBER_ZCL_STATUS_UNSUPPORTED_ACCESS => 126
  | EMBER_ZCL_STATUS_UNSUPPORTED_ENDPOINT => 127
  | EMBER_ZCL_STATUS_MALFORMED_COMMAND => 128
  | EMBER_ZCL_STATUS_UNSUPPORTED_COMMAND => 129
  | EMBER_ZCL_STATUS_DEPRECATED82 => 130
  | EMBER_ZCL_STATUS_DEPRECATED83 => 131
  | EMBER_ZCL_STATUS_DEPRECATED84 => 132
  | EMBER_ZCL_STATUS_INVALID_COMMAND => 133
  | EMBER_ZCL_STATUS_UNSUPPORTED_ATTRIBUTE => 134
  | EMBER_ZCL_STATUS_CONSTRAINT_ERROR => 135
  | EMBER_ZCL_STATUS_UNSUPPORTED_WRITE => 136
  | EMBER_ZCL_STATUS_RESOURCE_EXHAUSTED => 137
  | EMBER_ZCL_STATUS_DUPLICATE_EXISTS => 138
  | EMBER_ZCL_STATUS_NOT_FOUND => 139
  | EMBER_ZCL_STATUS_UNREPORTABLE_ATTRIBUTE => 140
  | EMBER_ZCL_STATUS_INVALID_DATA_TYPE => 141
  | EMBER_ZCL_STATUS_DEPRECATED8E => 142
  | EMBER_ZCL_STATUS_UNSUPPORTED_READ => 143
  | EMBER_ZCL_STATUS_DEPRECATED90 => 144
  | EMBER_ZCL_STATUS_DEPRECATED91 => 145
  | EMBER_ZCL_STATUS_DATA_VERSION_MISMATCH => 146
  | EMBER_ZCL_STATUS_DEPRECATED93 => 147
  | EMBER_ZCL_STATUS_TIMEOUT => 148
  | EMBER_ZCL_STATUS_RESERVED95 => 149
  | EMBER_ZCL_STATUS_RESERVED96 => 150
  | EMBER_ZCL_STATUS_RESERVED97 => 151
  | EMBER_ZCL_STATUS_RESERVED98 => 152
  | EMBER_ZCL_STATUS_RESERVED99 => 153
  | EMBER_ZCL_STATUS_RESERVED9A => 154
  | EMBER_ZCL_STATUS_BUSY => 156
  | EMBER_ZCL_STATUS_DEPRECATEDC0 => 192
  | EMBER_ZCL_STATUS_DEPRECATEDC1 => 193
  | EMBER_ZCL_STATUS_UNSUPPORTED_CLUSTER => 195
  | EMBER_ZCL_STATUS_DEPRECATEDC4 => 196
  | EMBER_ZCL_STATUS_NO_UPSTREAM_SUBSCRIPTION => 197
  | EMBER_ZCL_STATUS_NEEDS_TIMED_INTERACTION => 198
  | EMBER_ZCL_STATUS_UNSUPPORTED_EVENT => 199
  | EMBER_ZCL_STATUS_PATHS_EXHAUSTED => 200
  | EMBER_ZCL_STATUS_TIMED_REQUEST_MISMATCH => 201
  | EMBER_ZCL_STATUS_FAILSAFE_REQUIRED => 202
  | EMBER_ZCL_STATUS_WRITE_IGNORED => 240
  end.

(** The C cast from a code to the enumeration, for the codes it names. *)
Definition status_of_code (c : Z) : option EmberAfStatus :=
  match c with
  | 0 => Some EMBER_ZCL_STATUS_SUCCESS
  | 1 => Some EMBER_ZCL_STATUS_FAILURE
  | 125 => Some EMBER_ZCL_STATUS_INVALID_SUBSCRIPTION
  | 126 => Some EMBER_ZCL_STATUS_UNSUPPORTED_ACCESS
  | 127 => Some EMBER_ZCL_STATUS_UNSUPPORTED_ENDPOINT
  | 128 => Some EMBER_ZCL_STATUS_MALFORMED_COMMAND
  | 129 => Some EMBER_ZCL_STATUS_UNSUPPORTED_COMMAND
  | 130 => Some EMBER_ZCL_STATUS_DEPRECATED82
  | 131 => Some EMBER_ZCL_STATUS_DEPRECATED83
  | 132 => Some EMBER_ZCL_STATUS_DEPRECATED84
  | 133 => Some EMBER_ZCL_STATUS_INVALID_COMMAND
  | 134 => Some EMBER_ZCL_STATUS_UNSUPPORTED_ATTRIBUTE
  | 135 => Some EMBER_ZCL_STATUS_CONSTRAINT_ERROR
  | 136 => Some EMBER_ZCL_STATUS_UNSUPPORTED_WRITE
  | 137 => Some EMBER_ZCL_STATUS_RESOURCE_EXHAUSTED
  | 138 => Some EMBER_ZCL_STATUS_DUPLICATE_EXISTS
  | 139 => Some EMBER_ZCL_STATUS_NOT_FOUND
  | 140 => Some EMBER_ZCL_STATUS_UNREPORTABLE_ATTRIBUTE
  | 141 => Some EMBER_ZCL_STATUS_INVALID_DATA_TYPE
  | 142 => Some EMBER_ZCL_STATUS_DEPRECATED8E
  | 143 => Some EMBER_ZCL_STATUS_UNSUPPORTED_READ
  | 144 => Some EMBER_ZCL_STATUS_DEPRECATED90
  | 145 => Some EMBER_ZCL_STATUS_DEPRECATED91
  | 146 => Some EMBER_ZCL_STATUS_DATA_VERSION_MISMATCH
  | 147 => Some EMBER_ZCL_STATUS_DEPRECATED93
  | 148 => Some EMBER_ZCL_STATUS_TIMEOUT
  | 149 => Some EMBER_ZCL_STATUS_RESERVED95
  | 150 => Some EMBER_ZCL_STATUS_RESERVED96
  | 151 => Some EMBER_ZCL_STATUS_RESERVED97
  | 152 => Some EMBER_ZCL_STATUS_RESERVED98
  | 153 => Some EMBER_ZCL_STATUS_RESERVED99
  | 154 => Some EMBER_ZCL_STATUS_RESERVED9A
  | 156 => Some EMBER_ZCL_STATUS_BUSY
  | 192 => Some EMBER_ZCL_STATUS_DEPRECATEDC0
  | 193 => Some EMBER_ZCL_STATUS_DEPRECATEDC1
  | 195 => Some EMBER_ZCL_STATUS_UNSUPPORTED_CLUSTER
  | 196 => Some EMBER_ZCL_STATUS_DEPRECATEDC4
  | 197 => Some EMBER_ZCL_STATUS_NO_UPSTREAM_SUBSCRIPTION
  | 198 => Some EMBER_ZCL_STATUS_NEEDS_TIMED_INTERACTION
  | 199 => Some EMBER_ZCL_STATUS_UNSUPPORTED_EVENT
  | 200 => Some EMBER_ZCL_STATUS_PATHS_EXHAUSTED
  | 201 => Some EMBER_ZCL_STATUS_TIMED_REQUEST_MISMATCH
  | 202 => Some EMBER_ZCL_STATUS_FAILSAFE_REQUIRED
  | 240 => Some EMBER_ZCL_STATUS_WRITE_IGNORED
  | _ => None
  end.

Lemma status_of_code_code s : status_of_code (status_code s) = Some s.
Proof. by destruct s. Qed.

#[export] Instance EmberAfStatus_eq_dec : EqDecision EmberAfStatus.
Proof.
  intros s t. destruct (decide (status_code s = status_code t)) as [E|E]; [left|right; congruence].
  apply (inj Some). by rewrite <- !status_of_code_code, E.
Defined.

Definition is_success (s : EmberAfStatus) : bool :=
  match s with EMBER_ZCL_STATUS_SUCCESS => true | _ => false end.

(** ** Identifiers and constants *)
Abbreviation EndpointId := Z (only parsing).
Abbreviation ClusterId := Z (only parsing).
Abbreviation AttributeId := Z (only parsing).

Definition kInvalidEndpointId : Z := 0xFFFF.
Definition kEmberInvalidEndpointIndex : Z := 0xFFFF.
Definition EMBER_BROADCAST_ENDPOINT : Z := kInvalidEndpointId.

Definition ATTRIBUTE_MASK_WRITABLE : Z := 0x01.
Definition ATTRIBUTE_MASK_NONVOLATILE : Z := 0x02.
Definition ATTRIBUTE_MASK_MIN_MAX : Z := 0x04.
Definition ATTRIBUTE_MASK_EXTERNAL_STORAGE : Z := 0x10.
Definition ATTRIBUTE_MASK_SINGLETON : Z := 0x20.
Definition ATTRIBUTE_MASK_NULLABLE : Z := 0x40.

Definition CLUSTER_MASK_INIT_FUNCTION : Z := 0x01.
Definition CLUSTER_MASK_ATTRIBUTE_CHANGED_FUNCTION : Z := 0x02.
Definition CLUSTER_MASK_SHUTDOWN_FUNCTION : Z := 0x10.
Definition CLUSTER_MASK_PRE_ATTRIBUTE_CHANGED_FUNCTION : Z := 0x20.
Definition CLUSTER_MASK_SERVER : Z := 0x40.
Definition CLUSTER_MASK_CLIENT : Z := 0x80.

(** Attribute types used by the modelled code ([attribute-type.h]). *)
Definition ZCL_BOOLEAN_ATTRIBUTE_TYPE : Z := 0x10.
Definition ZCL_INT8U_ATTRIBUTE_TYPE : Z := 0x20.
Definition ZCL_INT16U_ATTRIBUTE_TYPE : Z := 0x21.
Definition ZCL_INT8S_ATTRIBUTE_TYPE : Z := 0x28.
Definition ZCL_INT64S_ATTRIBUTE_TYPE : Z := 0x2F.
Definition ZCL_ENUM8_ATTRIBUTE_TYPE : Z := 0x30.
Definition ZCL_OCTET_STRING_ATTRIBUTE_TYPE : Z := 0x41.
Definition ZCL_CHAR_STRING_ATTRIBUTE_TYPE : Z := 0x42.
Definition ZCL_LONG_OCTET_STRING_ATTRIBUTE_TYPE : Z := 0x43.
Definition ZCL_LONG_CHAR_STRING_ATTRIBUTE_TYPE : Z := 0x44.
Definition ZCL_ARRAY_ATTRIBUTE_TYPE : Z := 0x48.

(** ** Attribute metadata ([attribute-metadata.h]) *)

(** [EmberAfDefaultAttributeValue]: a pointer to the bytes, or the value. *)
Inductive EmberAfDefaultAttributeValue : Type :=
| DefPtr (ptrToDefaultValue : option bytes)
| DefValue (defaultValue : Z).

Record EmberAfAttributeMinMaxValue := {
  mm_default : EmberAfDefaultAttributeValue;
  mm_min : EmberAfDefaultAttributeValue;
  mm_max : EmberAfDefaultAttributeValue }.

(** [EmberAfDefaultOrMinMaxAttributeValue]: the union, by its live member. *)
Inductive EmberAfDefaultOrMinMaxAttributeValue : Type :=
| DMPtr (ptrToDefaultValue : option bytes)
| DMValue (defaultValue : Z)
| DMMinMax (ptrToMinMaxValue : EmberAfAttributeMinMaxValue).

(** [am_addr] is the address of the entry, as its index in
    [generatedAttributes]; [singletonAttributeLocation] compares addresses. *)
Record EmberAfAttributeMetadata := {
  am_default : EmberAfDefaultOrMinMaxAttributeValue;
  attributeId : AttributeId;
  am_size : Z;
  attributeType : Z;
  am_mask : Z;
  am_addr : nat }.

Definition IsNullable (am : EmberAfAttributeMetadata) : bool := has_bits (am_mask am) ATTRIBUTE_MASK_NULLABLE.
Definition IsReadOnly (am : EmberAfAttributeMetadata) : bool := negb (has_bits (am_mask am) ATTRIBUTE_MASK_WRITABLE).
Definition IsExternal (am : EmberAfAttributeMetadata) : bool := has_bits (am_mask am) ATTRIBUTE_MASK_EXTERNAL_STORAGE.
Definition IsSingleton (am : EmberAfAttributeMetadata) : bool := has_bits (am_mask am) ATTRIBUTE_MASK_SINGLETON.
Definition IsAutomaticallyPersisted (am : EmberAfAttributeMetadata) : bool :=
  has_bits (am_mask am) ATTRIBUTE_MASK_NONVOLATILE && negb (IsExternal am).

(** ** Clusters and endpoints ([af-types.h])

    A cluster function is identified by the number the data model gives it. *)
Record EmberAfCluster := {
  clusterId : ClusterId;
  attributes : list EmberAfAttributeMetadata;
  clusterSize : Z;
  cl_mask : Z;
  functions : list nat }.

Record EmberAfEndpointType := {
  cluster : list EmberAfCluster;
  endpointSize : Z }.

Definition isEnabled : Z := 0x1.
Definition isFlatComposition : Z := 0x2.
Definition isTreeComposition : Z := 0x3.

Record EmberAfDefinedEndpoint := {
  endpoint : EndpointId;
  deviceTypeList : list (Z * Z);
  bitmask : Z;
  endpointType : option EmberAfEndpointType;
  dataVersions : option nat;
  parentEndpointId : EndpointId }.

#[export] Instance eta_EmberAfDefinedEndpoint : Eta EmberAfDefinedEndpoint := fun e =>
  {| endpoint := endpoint e; deviceTypeList := deviceTypeList e; bitmask := bitmask e;
     endpointType := endpointType e; dataVersions := dataVersions e;
     parentEndpointId := parentEndpointId e |}.

(** [EmberAfDefinedEndpoint()] *)
Definition default_endpoint : EmberAfDefinedEndpoint :=
  {| endpoint := kInvalidEndpointId; deviceTypeList := []; bitmask := 0;
     endpointType := None; dataVersions := None; parentEndpointId := kInvalidEndpointId |}.

(** [BitMask<EmberAfEndpointOptions>::Set/Clear/Has] ([BitFlags.h]) *)
Definition flag_Set (v flag : Z) : Z := Z.lor v flag.
Definition flag_Clear (v flag : Z) : Z := Z.land v (u8 (Z.lnot flag)).
Definition flag_Has (v flag : Z) : bool := has_bits v flag.

Definition emberAfClusterIsClient (c : EmberAfCluster) : bool := has_bits (cl_mask c) CLUSTER_MASK_CLIENT.
Definition emberAfClusterIsServer (c : EmberAfCluster) : bool := has_bits (cl_mask c) CLUSTER_MASK_SERVER.

Definition emberAfIsStringAttributeType (t : Z) : bool :=
  (t =? ZCL_OCTET_STRING_ATTRIBUTE_TYPE) || (t =? ZCL_CHAR_STRING_ATTRIBUTE_TYPE).
Definition emberAfIsLongStringAttributeType (t : Z) : bool :=
  (t =? ZCL_LONG_OCTET_STRING_ATTRIBUTE_TYPE) || (t =? ZCL_LONG_CHAR_STRING_ATTRIBUTE_TYPE).
Definition emberAfIsThisDataTypeAListType (t : Z) : bool := t =? ZCL_ARRAY_ATTRIBUTE_TYPE.
