(* ===== verification/ChipError.v ===== *)
(** * ChipError: the error codes of the stack

    The codes of [src/src/lib/core/CHIPError.h] (and
    [CHIP_DEVICE_ERROR_CONFIG_NOT_FOUND] of the device layer, [BLE_ERROR_...] of
    [src/src/ble/BleError.h], [LWIP_ERR_...] for [MapErrorLwIP] of the two codes) that the modelled
    components return. *)
From S2P Require Import Prelude.

Inductive CHIP_ERROR : Set :=
| CHIP_NO_ERROR
| CHIP_ERROR_INCORRECT_STATE
| CHIP_ERROR_INVALID_ARGUMENT
| CHIP_ERROR_BUFFER_TOO_SMALL
| CHIP_ERROR_PERSISTED_STORAGE_FAILED
| CHIP_ERROR_PERSISTED_STORAGE_VALUE_NOT_FOUND
| CHIP_DEVICE_ERROR_CONFIG_NOT_FOUND
| CHIP_ERROR_NOT_FOUND
| CHIP_ERROR_NO_MEMORY
| CHIP_ERROR_INVALID_STRING_LENGTH
| CHIP_ERROR_INVALID_INTEGER_VALUE
| CHIP_ERROR_INTEGRITY_CHECK_FAILED
| CHIP_ERROR_UNSUPPORTED_ENCODING
| CHIP_ERROR_INVALID_MESSAGE_LENGTH
| CHIP_ERROR_DUPLICATE_MESSAGE_RECEIVED
| CHIP_ERROR_MESSAGE_COUNTER_EXHAUSTED
| CHIP_ERROR_INTERNAL
| CHIP_ERROR_TOO_MANY_PEER_NODES
| CHIP_ERROR_VERSION_MISMATCH
| CHIP_ERROR_WRONG_ENCRYPTION_TYPE
| CHIP_ERROR_WRONG_ENCRYPTION_TYPE_FROM_PEER
| CHIP_ERROR_INVALID_FABRIC_INDEX
| CHIP_ERROR_KEY_NOT_FOUND
| CHIP_ERROR_NOT_IMPLEMENTED
| CHIP_ERROR_SENTINEL
| CHIP_ERROR_ACCESS_DENIED
| CHIP_ERROR_INBOUND_MESSAGE_TOO_BIG
| CHIP_END_OF_TLV
| CHIP_ERROR_TLV_UNDERRUN
| CHIP_ERROR_INVALID_TLV_ELEMENT
| CHIP_ERROR_INVALID_TLV_TAG
| CHIP_ERROR_UNKNOWN_IMPLICIT_TLV_TAG
| CHIP_ERROR_WRONG_TLV_TYPE
| CHIP_ERROR_TLV_CONTAINER_OPEN
| CHIP_ERROR_UNEXPECTED_TLV_ELEMENT
| CHIP_ERROR_TLV_TAG_NOT_FOUND
| CHIP_ERROR_MESSAGE_TOO_LONG
| CHIP_ERROR_RECURSION_DEPTH_LIMIT
| CHIP_ERROR_CONNECTION_ABORTED
| CHIP_ERROR_MISSING_SECURE_SESSION
| CHIP_ERROR_RETRANS_TABLE_FULL
| CHIP_ERROR_OUTBOUND_MESSAGE_TOO_BIG
| CHIP_ERROR_TOO_MANY_UNSOLICITED_MESSAGE_HANDLERS
| CHIP_ERROR_NO_UNSOLICITED_MESSAGE_HANDLER
| LWIP_ERR_MEM
| LWIP_ERR_RTE
| BLE_ERROR_INVALID_ACK
| BLE_ERROR_REASSEMBLER_MISSING_DATA
| BLE_ERROR_INVALID_BTP_HEADER_FLAGS
| BLE_ERROR_INVALID_BTP_SEQUENCE_NUMBER
| BLE_ERROR_REASSEMBLER_INCORRECT_STATE.

#[export] Instance CHIP_ERROR_eq_dec : EqDecision CHIP_ERROR.
Proof. solve_decision. Defined.

Definition is_no_error (e : CHIP_ERROR) : bool := match e with CHIP_NO_ERROR => true | _ => false end.

Lemma is_no_error_false e : e ≠ CHIP_NO_ERROR → is_no_error e = false.
Proof. by destruct e. Qed.
