(* ===== verification/EndpointTable.v ===== *)
(** * EndpointTable: the table of defined endpoints

    The part of [src/src/app/util/attribute-storage.cpp] that keeps
    [emAfEndpoints], [emberEndpointCount] and the list of attribute access
    overrides: lookup of endpoints and clusters, the fixed and dynamic
    endpoints, enabling and disabling, the parent links.  Callbacks into the
    clusters are recorded, in order, in [ep_log]. *)
From S2P Require Import Prelude Zcl ChipError.

(** An [AttributeAccessInterface] registered as an override: its address, its
    endpoint ([None] is the wildcard) and its cluster. *)
Record AttributeAccessInterface := {
  aai_addr : nat;
  aai_endpoint : option EndpointId;
  aai_cluster : ClusterId }.

Definition Matches (a : AttributeAccessInterface) (aEndpointId : EndpointId) (aClusterId : ClusterId) : bool :=
  match aai_endpoint a with None => true | Some e => e =? aEndpointId end
  && (aai_cluster a =? aClusterId).
Definition MatchesEndpoint (a : AttributeAccessInterface) (aEndpointId : EndpointId) : bool :=
  match aai_endpoint a with None => false | Some e => e =? aEndpointId end.
Definition MatchesOther (a b : AttributeAccessInterface) : bool :=
  (aai_cluster a =? aai_cluster b)
  && match aai_endpoint a, aai_endpoint b with
     | Some e, Some e' => e =? e'
     | _, _ => true
     end.

(** The calls the endpoint table makes into the rest of the program. *)
Inductive ep_event : Set :=
| ClusterInitCallback (ep : EndpointId) (cl : ClusterId)
| InitFunction (f : nat) (ep : EndpointId)
| ShutdownFunction (f : nat) (ep : EndpointId)
| UnregisterCommandHandlers (ep : EndpointId)
| ReportEndpoint (ep : EndpointId)
| ReportPartsList (ep : EndpointId).

Record endpoint_table := {
  emAfEndpoints : list EmberAfDefinedEndpoint;
  emberEndpointCount : Z;
  gAttributeAccessOverrides : list AttributeAccessInterface;
  ep_log : list ep_event }.

#[export] Instance eta_endpoint_table : Eta endpoint_table := fun s =>
  {| emAfEndpoints := emAfEndpoints s; emberEndpointCount := emberEndpointCount s;
     gAttributeAccessOverrides := gAttributeAccessOverrides s; ep_log := ep_log s |}.

Definition log_ev (e : ep_event) (s : endpoint_table) : endpoint_table :=
  s <| ep_log ::= (fun l => l ++ [e]) |>.

Definition set_ep (i : nat) (f : EmberAfDefinedEndpoint → EmberAfDefinedEndpoint)
    (s : endpoint_table) : endpoint_table :=
  s <| emAfEndpoints ::= alter f i |>.

(** ** Clusters *)

(** [emberAfFindClusterFunction]: the function pointer of a mask bit is at the
    index that counts the lower bits of the cluster's mask that are set; the
    loop shifts the uint8_t mask until it reaches the bit.  [None] as the outer
    result is a read outside the function array; [fuel] bounds the shifts. *)
Fixpoint functionIndex (fuel : nat) (cmask functionMask mask : Z) (index : nat) : option nat :=
  match fuel with
  | O => None
  | S fuel =>
      if mask <? functionMask
      then functionIndex fuel cmask functionMask (u8 (mask * 2))
             (if has_bits cmask mask then S index else index)
      else Some index
  end.

Definition emberAfFindClusterFunction (c : EmberAfCluster) (functionMask : Z) : option (option nat) :=
  if Z.land (cl_mask c) functionMask =? 0 then Some None
  else let! i := functionIndex 9 (cl_mask c) functionMask 1 0 in
       let! f := functions c !! i in Some (Some f).

(** [emberAfFindClusterInType]: the cluster and its index among the clusters
    that match the mask. *)
Definition mask_selects (mask : Z) (c : EmberAfCluster) : bool :=
  (mask =? 0) || ((mask =? CLUSTER_MASK_CLIENT) && emberAfClusterIsClient c)
  || ((mask =? CLUSTER_MASK_SERVER) && emberAfClusterIsServer c).

Fixpoint find_cluster (cs : list EmberAfCluster) (id : ClusterId) (mask : Z) (scopedIndex : Z)
    : option (EmberAfCluster * Z) :=
  match cs with
  | [] => None
  | c :: cs =>
      if mask_selects mask c
      then if clusterId c =? id then Some (c, scopedIndex)
           else find_cluster cs id mask (u8 (scopedIndex + 1))
      else find_cluster cs id mask scopedIndex
  end.

Definition emberAfFindClusterInType (t : EmberAfEndpointType) (id : ClusterId) (mask : Z)
    : option (EmberAfCluster * Z) := find_cluster (cluster t) id mask 0.

Definition emberAfClusterCountForEndpointType (t : EmberAfEndpointType) (server : bool) : Z :=
  u8 (Z.of_nat (length (filter (fun c => is_true (if server then emberAfClusterIsServer c
                                                  else emberAfClusterIsClient c)) (cluster t)))).

(** ** Looking endpoints up *)
Fixpoint find_index_from (p : EmberAfDefinedEndpoint → bool) (eps : list EmberAfDefinedEndpoint) (i : Z) : Z :=
  match eps with
  | [] => kEmberInvalidEndpointIndex
  | e :: eps => if p e then i else find_index_from p eps (i + 1)
  end.

Definition live_endpoints (s : endpoint_table) : list EmberAfDefinedEndpoint :=
  take (Z.to_nat (emberEndpointCount s)) (emAfEndpoints s).

Definition findIndexFromEndpoint (s : endpoint_table) (ep : EndpointId) (ignoreDisabledEndpoints : bool) : Z :=
  if ep =? kInvalidEndpointId then kEmberInvalidEndpointIndex
  else find_index_from (fun e => (endpoint e =? ep)
         && (negb ignoreDisabledEndpoints || flag_Has (bitmask e) isEnabled)) (live_endpoints s) 0.

Definition emberAfIndexFromEndpoint (s : endpoint_table) (ep : EndpointId) : Z :=
  findIndexFromEndpoint s ep true.
Definition emberAfIndexFromEndpointIncludingDisabledEndpoints (s : endpoint_table) (ep : EndpointId) : Z :=
  findIndexFromEndpoint s ep false.

Definition ep_at (s : endpoint_table) (index : Z) : option EmberAfDefinedEndpoint :=
  emAfEndpoints s !! Z.to_nat index.

Definition emberAfEndpointIndexIsEnabled (s : endpoint_table) (index : Z) : option bool :=
  let! e := ep_at s index in Some (flag_Has (bitmask e) isEnabled).

Definition emberAfEndpointIsEnabled (s : endpoint_table) (ep : EndpointId) : option bool :=
  let index := findIndexFromEndpoint s ep false in
  if kEmberInvalidEndpointIndex =? index then Some false
  else emberAfEndpointIndexIsEnabled s index.

Definition emberAfFindServerCluster (s : endpoint_table) (ep : EndpointId) (id : ClusterId)
    : option (option EmberAfCluster) :=
  let index := emberAfIndexFromEndpoint s ep in
  if index =? kEmberInvalidEndpointIndex then Some None
  else let! e := ep_at s index in
       let! t := endpointType e in
       Some (fst <$> emberAfFindClusterInType t id CLUSTER_MASK_SERVER).

Definition emberAfContainsServer (s : endpoint_table) (ep : EndpointId) (id : ClusterId) : option bool :=
  let! c := emberAfFindServerCluster s ep id in
  Some (match c with Some _ => true | None => false end).

Definition emberAfContainsServerFromIndex (s : endpoint_table) (index : Z) (id : ClusterId) : option bool :=
  if index =? kEmberInvalidEndpointIndex then Some false
  else let! e := ep_at s index in
       let! t := endpointType e in
       Some (match emberAfFindClusterInType t id CLUSTER_MASK_SERVER with Some _ => true | None => false end).

(** [emberAfClusterIndex]: scans every live endpoint with the id, 0xFF when the
    cluster is on none. *)
Fixpoint cluster_index (eps : list EmberAfDefinedEndpoint) (ep : EndpointId) (id : ClusterId) (mask : Z) : option Z :=
  match eps with
  | [] => Some 0xFF
  | e :: eps =>
      if endpoint e =? ep then
        let! t := endpointType e in
        match emberAfFindClusterInType t id mask with
        | Some (_, index) => Some index
        | None => cluster_index eps ep id mask
        end
      else cluster_index eps ep id mask
  end.
Definition emberAfClusterIndex (s : endpoint_table) (ep : EndpointId) (id : ClusterId) (mask : Z) : option Z :=
  cluster_index (live_endpoints s) ep id mask.

Definition emberAfGetServerAttributeIndexByAttributeId (s : endpoint_table) (ep : EndpointId)
    (id : ClusterId) (attr : AttributeId) : option Z :=
  let! c := emberAfFindServerCluster s ep id in
  Some (match c with
        | None => 0xFFFF
        | Some c =>
            match list_find (fun a => attributeId a = attr) (attributes c) with
            | Some (i, _) => Z.of_nat i
            | None => 0xFFFF
            end
        end).

Definition emberAfGetServerAttributeIdByIndex (s : endpoint_table) (ep : EndpointId)
    (id : ClusterId) (attributeIndex : Z) : option (option AttributeId) :=
  let! c := emberAfFindServerCluster s ep id in
  Some (match c with
        | None => None
        | Some c => attributeId <$> attributes c !! Z.to_nat attributeIndex
        end).

Definition emberAfContainsAttribute (s : endpoint_table) (ep : EndpointId) (id : ClusterId)
    (attr : AttributeId) : option bool :=
  let! i := emberAfGetServerAttributeIndexByAttributeId s ep id attr in
  Some (negb (i =? 0xFFFF)).

(** [emberAfDataVersionStorage]: the address of the cluster's data version. *)
Definition emberAfDataVersionStorage (s : endpoint_table) (ep : EndpointId) (id : ClusterId)
    : option (option nat) :=
  let index := emberAfIndexFromEndpoint s ep in
  if index =? kEmberInvalidEndpointIndex then Some None
  else let! e := ep_at s index in
       match dataVersions e with
       | None => Some None
       | Some v =>
           let! clusterIndex := emberAfClusterIndex s ep id CLUSTER_MASK_SERVER in
           Some (if clusterIndex =? 0xFF then None else Some (v + Z.to_nat clusterIndex)%nat)
       end.

(** ** Composition flags and parents *)
Definition SetParentEndpointForEndpoint (s : endpoint_table) (childEndpoint parentEndpoint : EndpointId)
    : CHIP_ERROR * endpoint_table :=
  let childIndex := emberAfIndexFromEndpoint s childEndpoint in
  let parentIndex := emberAfIndexFromEndpoint s parentEndpoint in
  if (childIndex =? kEmberInvalidEndpointIndex) || (parentIndex =? kEmberInvalidEndpointIndex)
  then (CHIP_ERROR_INVALID_ARGUMENT, s)
  else (CHIP_NO_ERROR, set_ep (Z.to_nat childIndex) (fun e => e <| parentEndpointId := parentEndpoint |>) s).

Definition SetFlatCompositionForEndpoint (s : endpoint_table) (ep : EndpointId) : CHIP_ERROR * endpoint_table :=
  let index := emberAfIndexFromEndpoint s ep in
  if index =? kEmberInvalidEndpointIndex then (CHIP_ERROR_INVALID_ARGUMENT, s)
  else (CHIP_NO_ERROR, set_ep (Z.to_nat index) (fun e => e <| bitmask ::= (fun b =>
          flag_Set (flag_Clear b isTreeComposition) isFlatComposition) |>) s).

Definition SetTreeCompositionForEndpoint (s : endpoint_table) (ep : EndpointId) : CHIP_ERROR * endpoint_table :=
  let index := emberAfIndexFromEndpoint s ep in
  if index =? kEmberInvalidEndpointIndex then (CHIP_ERROR_INVALID_ARGUMENT, s)
  else (CHIP_NO_ERROR, set_ep (Z.to_nat index) (fun e => e <| bitmask ::= (fun b =>
          flag_Set (flag_Clear b isFlatComposition) isTreeComposition) |>) s).

Definition IsFlatCompositionForEndpoint (s : endpoint_table) (ep : EndpointId) : option bool :=
  let index := emberAfIndexFromEndpoint s ep in
  if index =? kEmberInvalidEndpointIndex then Some false
  else let! e := ep_at s index in Some (flag_Has (bitmask e) isFlatComposition).

Definition IsTreeCompositionForEndpoint (s : endpoint_table) (ep : EndpointId) : option bool :=
  let index := emberAfIndexFromEndpoint s ep in
  if index =? kEmberInvalidEndpointIndex then Some false
  else let! e := ep_at s index in Some (flag_Has (bitmask e) isTreeComposition).

(** ** Attribute access overrides *)
Definition UnregisterMatchingAttributeAccessInterfaces (shouldUnregister : AttributeAccessInterface → bool)
    (s : endpoint_table) : endpoint_table :=
  s <| gAttributeAccessOverrides ::= filter (fun a => shouldUnregister a = false) |>.

Definition registerAttributeAccessOverride (s : endpoint_table) (attrOverride : AttributeAccessInterface)
    : bool * endpoint_table :=
  if existsb (fun cur => MatchesOther cur attrOverride) (gAttributeAccessOverrides s) then (false, s)
  else (true, s <| gAttributeAccessOverrides ::= cons attrOverride |>).

Definition unregisterAttributeAccessOverride (s : endpoint_table) (attrOverride : AttributeAccessInterface)
    : endpoint_table :=
  UnregisterMatchingAttributeAccessInterfaces (fun e => (aai_addr e =? aai_addr attrOverride)%nat) s.

Definition GetAttributeAccessOverride (s : endpoint_table) (ep : EndpointId) (id : ClusterId)
    : option AttributeAccessInterface :=
  snd <$> list_find (fun a => Matches a ep id = true) (gAttributeAccessOverrides s).

(** ** Enabling and disabling *)
Fixpoint init_clusters (cs : list EmberAfCluster) (ep : EndpointId) (s : endpoint_table) : option endpoint_table :=
  match cs with
  | [] => Some s
  | c :: cs =>
      let s := log_ev (ClusterInitCallback ep (clusterId c)) s in
      let! f := emberAfFindClusterFunction c CLUSTER_MASK_INIT_FUNCTION in
      init_clusters cs ep (match f with Some f => log_ev (InitFunction f ep) s | None => s end)
  end.

Definition initializeEndpoint (e : EmberAfDefinedEndpoint) (s : endpoint_table) : option endpoint_table :=
  let! t := endpointType e in init_clusters (cluster t) (endpoint e) s.

Fixpoint shutdown_clusters (cs : list EmberAfCluster) (ep : EndpointId) (s : endpoint_table) : option endpoint_table :=
  match cs with
  | [] => Some s
  | c :: cs =>
      let! f := emberAfFindClusterFunction c CLUSTER_MASK_SHUTDOWN_FUNCTION in
      shutdown_clusters cs ep (match f with Some f => log_ev (ShutdownFunction f ep) s | None => s end)
  end.

Definition shutdownEndpoint (e : EmberAfDefinedEndpoint) (s : endpoint_table) : option endpoint_table :=
  let! t := endpointType e in
  let! s := shutdown_clusters (cluster t) (endpoint e) s in
  let s := log_ev (UnregisterCommandHandlers (endpoint e)) s in
  Some (UnregisterMatchingAttributeAccessInterfaces (fun a => MatchesEndpoint a (endpoint e)) s).

(** The parts lists of the ancestors are reported, from the parent up; [fuel]
    bounds the walk along the parent links. *)
Fixpoint report_parents (fuel : nat) (parent : EndpointId) (s : endpoint_table) : option endpoint_table :=
  if parent =? kInvalidEndpointId then Some s
  else match fuel with
       | O => None
       | S fuel =>
           let s := log_ev (ReportPartsList parent) s in
           let parentIndex := emberAfIndexFromEndpoint s parent in
           if parentIndex =? kEmberInvalidEndpointIndex then Some s
           else let! p := ep_at s parentIndex in
                report_parents fuel (parentEndpointId p) s
       end.

Definition emberAfEndpointEnableDisable (fuel : nat) (s : endpoint_table) (ep : EndpointId) (enable : bool)
    : option (bool * endpoint_table) :=
  let index := findIndexFromEndpoint s ep false in
  if kEmberInvalidEndpointIndex =? index then Some (false, s)
  else
    let! e := ep_at s index in
    let currentlyEnabled := flag_Has (bitmask e) isEnabled in
    let s := if enable
             then set_ep (Z.to_nat index) (fun e => e <| bitmask ::= (fun b => flag_Set b isEnabled) |>) s
             else s in
    let! s :=
      (if eqb currentlyEnabled enable then Some s
       else
         let! e := ep_at s index in
         let! s := (if enable
                    then let! s := initializeEndpoint e s in Some (log_ev (ReportEndpoint ep) s)
                    else shutdownEndpoint e s) in
         let! e := ep_at s index in
         let! s := report_parents fuel (parentEndpointId e) s in
         Some (log_ev (ReportPartsList 0) s)) in
    Some (true,
      if enable then s
      else set_ep (Z.to_nat index) (fun e => e <| bitmask ::= (fun b => flag_Clear b isEnabled) |>) s).

Fixpoint call_inits (eps : list EmberAfDefinedEndpoint) (s : endpoint_table) : option endpoint_table :=
  match eps with
  | [] => Some s
  | e :: eps =>
      if flag_Has (bitmask e) isEnabled
      then let! s := initializeEndpoint e s in call_inits eps s
      else call_inits eps s
  end.
Definition emAfCallInits (s : endpoint_table) : option endpoint_table := call_inits (live_endpoints s) s.

(** ** Fixed and dynamic endpoints *)
Section counts.
Context (FIXED_ENDPOINT_COUNT MAX_ENDPOINT_COUNT : Z).

(** [emberAfEndpointConfigure]: the generated arrays give the id, the device
    types and the type of each fixed endpoint; the data versions of the
    endpoints follow each other.  The entries of the dynamic endpoints become
    [EmberAfDefinedEndpoint()]. *)
Fixpoint configure_fixed (cfg : list (EndpointId * list (Z * Z) * EmberAfEndpointType))
    (eps : list EmberAfDefinedEndpoint) (currentDataVersions : nat) : list EmberAfDefinedEndpoint :=
  match cfg, eps with
  | (id, dts, t) :: cfg, e :: eps =>
      e <| endpoint := id |> <| deviceTypeList := dts |> <| endpointType := Some t |>
        <| dataVersions := Some currentDataVersions |>
        <| bitmask ::= (fun b => flag_Set (flag_Set b isEnabled) isFlatComposition) |>
      :: configure_fixed cfg eps (currentDataVersions + Z.to_nat (emberAfClusterCountForEndpointType t true))
  | _, eps => eps
  end.

Definition emberAfEndpointConfigure (cfg : list (EndpointId * list (Z * Z) * EmberAfEndpointType))
    (s : endpoint_table) : endpoint_table :=
  let fixed := configure_fixed cfg (take (Z.to_nat FIXED_ENDPOINT_COUNT) (emAfEndpoints s)) 0 in
  let dynamic := drop (Z.to_nat FIXED_ENDPOINT_COUNT) (emAfEndpoints s) in
  s <| emberEndpointCount := FIXED_ENDPOINT_COUNT |>
    <| emAfEndpoints := fixed ++ ((fun _ => default_endpoint) <$> dynamic) |>.

Definition emberAfSetDynamicEndpointCount (dynamicEndpointCount : Z) (s : endpoint_table) : endpoint_table :=
  s <| emberEndpointCount := u16 (FIXED_ENDPOINT_COUNT + dynamicEndpointCount) |>.

Definition dynamic_endpoints (s : endpoint_table) : list EmberAfDefinedEndpoint :=
  drop (Z.to_nat FIXED_ENDPOINT_COUNT) (take (Z.to_nat MAX_ENDPOINT_COUNT) (emAfEndpoints s)).

Definition emberAfGetDynamicIndexFromEndpoint (s : endpoint_table) (id : EndpointId) : Z :=
  if id =? kInvalidEndpointId then kEmberInvalidEndpointIndex
  else match list_find (fun e => endpoint e = id) (dynamic_endpoints s) with
       | Some (i, _) => u8 (Z.of_nat i)
       | None => kEmberInvalidEndpointIndex
       end.

Definition emberAfSetDynamicEndpoint (fuel : nat) (s : endpoint_table) (index : Z) (id : EndpointId)
    (ep : EmberAfEndpointType) (dataVersionStorage : nat * Z) (dts : list (Z * Z))
    (parent : EndpointId) : option (EmberAfStatus * endpoint_table) :=
  let realIndex := index + FIXED_ENDPOINT_COUNT in
  if MAX_ENDPOINT_COUNT <=? realIndex then Some (EMBER_ZCL_STATUS_RESOURCE_EXHAUSTED, s)
  else if id =? kInvalidEndpointId then Some (EMBER_ZCL_STATUS_CONSTRAINT_ERROR, s)
  else if snd dataVersionStorage <? emberAfClusterCountForEndpointType ep true
  then Some (EMBER_ZCL_STATUS_RESOURCE_EXHAUSTED, s)
  else
    let index := u16 realIndex in
    if existsb (fun e => endpoint e =? id) (dynamic_endpoints s)
    then Some (EMBER_ZCL_STATUS_DUPLICATE_EXISTS, s)
    else
      let s := set_ep (Z.to_nat index) (fun e =>
                 e <| endpoint := id |> <| deviceTypeList := dts |> <| endpointType := Some ep |>
                   <| dataVersions := Some (fst dataVersionStorage) |>
                   <| bitmask ::= (fun b => flag_Clear b isEnabled) |>
                   <| parentEndpointId := parent |>) s in
      let s := emberAfSetDynamicEndpointCount (MAX_ENDPOINT_COUNT - FIXED_ENDPOINT_COUNT) s in
      let! r := emberAfEndpointEnableDisable fuel s id true in
      Some (EMBER_ZCL_STATUS_SUCCESS, snd r).

(** The index is narrowed to eight bits before it is tested. *)
Definition emberAfClearDynamicEndpoint (fuel : nat) (s : endpoint_table) (index : Z)
    : option (EndpointId * endpoint_table) :=
  let index := u8 (index + FIXED_ENDPOINT_COUNT) in
  if index <? MAX_ENDPOINT_COUNT then
    let! e := ep_at s index in
    if negb (endpoint e =? kInvalidEndpointId) && flag_Has (bitmask e) isEnabled then
      let ep := endpoint e in
      let! r := emberAfEndpointEnableDisable fuel s ep false in
      Some (ep, set_ep (Z.to_nat index) (fun e => e <| endpoint := kInvalidEndpointId |>) (snd r))
    else Some (0, s)
  else Some (0, s).

(** [emberAfGetClusterServerEndpointIndex]; [None] is a failed [VerifyOrDie]
    or a read outside the table. *)
Definition has_server (id : ClusterId) (e : EmberAfDefinedEndpoint) : bool :=
  match endpointType e with
  | Some t => match emberAfFindClusterInType t id CLUSTER_MASK_SERVER with Some _ => true | None => false end
  | None => false
  end.

Definition emberAfGetClusterServerEndpointIndex (s : endpoint_table) (ep : EndpointId) (id : ClusterId)
    (fixedClusterServerEndpointCount : Z) : option Z :=
  if FIXED_ENDPOINT_COUNT <? fixedClusterServerEndpointCount then None
  else
    let epIndex := findIndexFromEndpoint s ep true in
    if epIndex =? kEmberInvalidEndpointIndex then Some kEmberInvalidEndpointIndex
    else
      let! e := ep_at s epIndex in
      let! _ := endpointType e in
      if negb (has_server id e) then Some kEmberInvalidEndpointIndex
      else if epIndex <? FIXED_ENDPOINT_COUNT then
        let adjustedEndpointIndex :=
          Z.of_nat (length (filter (fun e => endpoint e ≠ kInvalidEndpointId ∧ has_server id e = true)
                              (take (Z.to_nat epIndex) (emAfEndpoints s)))) in
        if adjustedEndpointIndex <? fixedClusterServerEndpointCount
        then Some adjustedEndpointIndex else None
      else Some (u16 (fixedClusterServerEndpointCount + (epIndex - FIXED_ENDPOINT_COUNT))).
End counts.

(** ** Well-formed tables

    The functions of a cluster are as many as the function bits of its mask;
    every live endpoint with a valid id has a type; the live entries are in the
    array, whose length is a valid index. *)
Definition function_count (m : Z) (k : nat) : nat :=
  length (filter (fun j => Z.testbit m (Z.of_nat j) = true) (seq 0 k)).

Definition cluster_functions_ok (c : EmberAfCluster) : Prop :=
  (function_count (cl_mask c) 6 ≤ length (functions c))%nat.

Definition endpoint_ok (e : EmberAfDefinedEndpoint) : Prop :=
  endpoint e ≠ kInvalidEndpointId →
  match endpointType e with Some t => Forall cluster_functions_ok (cluster t) | None => False end.

Record table_ok (s : endpoint_table) : Prop := {
  ok_count : 0 ≤ emberEndpointCount s ≤ Z.of_nat (length (emAfEndpoints s));
  ok_max : Z.of_nat (length (emAfEndpoints s)) < kEmberInvalidEndpointIndex;
  ok_types : Forall endpoint_ok (live_endpoints s) }.

(** ** Lookup lemmas *)
Section lookup.
Implicit Types (p : EmberAfDefinedEndpoint → bool) (eps : list EmberAfDefinedEndpoint).

Lemma find_index_from_ge p eps i :
  find_index_from p eps i = kEmberInvalidEndpointIndex ∨ i ≤ find_index_from p eps i.
Proof.
  revert i; induction eps as [|e eps IH]; intros i; simpl; [by left|].
  destruct (p e); [right; lia|]. destruct (IH (i + 1)); [by left|right; lia].
Qed.

Lemma find_index_from_found p eps i k e :
  eps !! k = Some e → p e = true →
  (∀ j e', (j < k)%nat → eps !! j = Some e' → p e' = false) →
  find_index_from p eps i = i + Z.of_nat k.
Proof.
  revert i k; induction eps as [|x eps IH]; intros i k Hk Hp Hj; [done|].
  destruct k as [|k]; simpl in *.
  - injection Hk as ->. rewrite Hp. lia.
  - rewrite (Hj 0%nat x); [|lia|done].
    rewrite (IH (i + 1) k) by first [done | intros j e' ??; apply (Hj (S j)); [lia|done]]. lia.
Qed.

Lemma find_index_from_none p eps i :
  (∀ e, e ∈ eps → p e = false) → find_index_from p eps i = kEmberInvalidEndpointIndex.
Proof.
  revert i; induction eps as [|x eps IH]; intros i H; simpl; [done|].
  rewrite (H x) by left. apply IH. intros; apply H; by right.
Qed.

Lemma find_index_from_inv p eps i :
  0 ≤ i → i + Z.of_nat (length eps) < kEmberInvalidEndpointIndex →
  find_index_from p eps i ≠ kEmberInvalidEndpointIndex →
  ∃ k e, eps !! k = Some e ∧ p e = true ∧
    (∀ j e', (j < k)%nat → eps !! j = Some e' → p e' = false) ∧
    find_index_from p eps i = i + Z.of_nat k.
Proof.
  revert i; induction eps as [|x eps IH]; intros i Hi Hlen Hne; simpl in *; [done|].
  destruct (p x) eqn:Hx.
  - exists 0%nat, x. repeat split; try done; lia.
  - destruct (IH (i + 1)) as (k & e & Hk & Hp & Hj & Hf); [lia|lia|done|].
    exists (S k), e. repeat split; [done|done| |lia].
    intros [|j] e' ? Hl; [by simplify_eq/=|]. apply (Hj j); [lia|done].
Qed.
End lookup.

Lemma live_lookup s k e :
  live_endpoints s !! k = Some e ↔
  emAfEndpoints s !! k = Some e ∧ (k < Z.to_nat (emberEndpointCount s))%nat.
Proof. unfold live_endpoints. rewrite lookup_take_Some. done. Qed.

Lemma findIndex_inv s ep b :
  table_ok s → findIndexFromEndpoint s ep b ≠ kEmberInvalidEndpointIndex →
  ∃ k e, live_endpoints s !! k = Some e ∧ endpoint e = ep ∧ ep ≠ kInvalidEndpointId ∧
    (b = true → flag_Has (bitmask e) isEnabled = true) ∧
    findIndexFromEndpoint s ep b = Z.of_nat k.
Proof.
  intros [Hc Hm _]. unfold findIndexFromEndpoint.
  destruct (Z.eqb_spec ep kInvalidEndpointId) as [|Hep]; [done|]. intros Hne.
  assert (0 + Z.of_nat (length (live_endpoints s)) < kEmberInvalidEndpointIndex) as Hl
    by (unfold live_endpoints; rewrite length_take; lia).
  destruct (find_index_from_inv _ _ 0 (Z.le_refl 0) Hl Hne) as (k & e & Hk & Hp & _ & Hf).
  apply andb_true_iff in Hp as [He%Z.eqb_eq Hb]. exists k, e. split_and!; try done.
  intros ->. done.
Qed.

Lemma ep_at_live s k e : live_endpoints s !! k = Some e → ep_at s (Z.of_nat k) = Some e.
Proof. intros [? _]%live_lookup. unfold ep_at. by rewrite Nat2Z.id. Qed.

Lemma live_index_valid s k e :
  table_ok s → live_endpoints s !! k = Some e → (kEmberInvalidEndpointIndex =? Z.of_nat k) = false.
Proof.
  intros Hok [Hk _]%live_lookup. apply Z.eqb_neq. pose proof (lookup_lt_Some _ _ _ Hk).
  pose proof (ok_max s Hok). lia.
Qed.

Lemma find_index_found_valid s p k e : table_ok s → live_endpoints s !! k = Some e → p e = true →
  find_index_from p (live_endpoints s) 0 ≠ kEmberInvalidEndpointIndex.
Proof.
  intros [Hc Hm _] Hk Hp. assert (Z.of_nat (length (live_endpoints s)) < kEmberInvalidEndpointIndex) as Hl
    by (unfold live_endpoints; rewrite length_take; lia).
  revert Hk Hl. generalize (live_endpoints s) as eps. intros eps. enough (∀ i, 0 ≤ i → eps !! k = Some e →
    i + Z.of_nat (length eps) < kEmberInvalidEndpointIndex → find_index_from p eps i ≠ kEmberInvalidEndpointIndex) as H by (intros; by apply H).
  revert k. induction eps as [|x eps IH]; intros k i Hi Hk Hl; [done|]. cbn [find_index_from length] in *.
  destruct (p x) eqn:Hx; [lia|]. destruct k as [|k]; [injection Hk as ->; congruence|]. apply (IH k); [lia|done|lia].
Qed.

(** The endpoint at [k] is the first entry with its id. *)
Definition first_at (s : endpoint_table) (k : nat) (e : EmberAfDefinedEndpoint) : Prop :=
  live_endpoints s !! k = Some e ∧ endpoint e ≠ kInvalidEndpointId ∧
  ∀ j e', (j < k)%nat → live_endpoints s !! j = Some e' → endpoint e' ≠ endpoint e.

Lemma findIndex_first s k e b :
  first_at s k e → (b = true → flag_Has (bitmask e) isEnabled = true) →
  findIndexFromEndpoint s (endpoint e) b = Z.of_nat k.
Proof.
  intros (Hk & Hep & Hj) Hb. unfold findIndexFromEndpoint.
  destruct (Z.eqb_spec (endpoint e) kInvalidEndpointId) as [|_]; [done|].
  rewrite (find_index_from_found _ _ 0 k e); [lia|done| |].
  - rewrite Z.eqb_refl. destruct b; simpl; auto.
  - intros j e' Hlt He'. apply andb_false_iff. left. apply Z.eqb_neq. eauto.
Qed.

(** ** Cluster functions *)
Lemma function_count_S m k :
  function_count m (S k) = (function_count m k + if Z.testbit m (Z.of_nat k) then 1 else 0)%nat.
Proof.
  unfold function_count. rewrite seq_S, list.filter_app, length_app, Nat.add_0_l. f_equal.
  rewrite list.filter_cons. case_decide as Hd.
  - by rewrite Hd.
  - apply not_true_is_false in Hd. by rewrite Hd.
Qed.

Lemma function_count_mono m j k : (j ≤ k)%nat → (function_count m j ≤ function_count m k)%nat.
Proof. induction 1; [lia|]. rewrite function_count_S. lia. Qed.

Lemma functionIndex_S f m fm mask i :
  functionIndex (S f) m fm mask i =
  if mask <? fm then functionIndex f m fm (u8 (mask * 2)) (if has_bits m mask then S i else i)
  else Some i.
Proof. done. Qed.

(** The loop of [emberAfFindClusterFunction] counts the set bits below the
    function's bit; nine steps are enough for an eight-bit mask. *)
Lemma functionIndex_count m k :
  (k < 8)%nat → functionIndex 9 m (2 ^ Z.of_nat k) 1 0 = Some (function_count m k).
Proof.
  intros Hk.
  assert (Hstep : ∀ d j, (j + d = k)%nat →
    functionIndex (S d) m (2 ^ Z.of_nat k) (2 ^ Z.of_nat j) (function_count m j)
    = Some (function_count m k)).
  { induction d as [|d IH]; intros j Hj.
    - replace j with k by lia. simpl. by rewrite Z.ltb_irrefl.
    - rewrite functionIndex_S, (proj2 (Z.ltb_lt _ _)) by (apply Z.pow_lt_mono_r; lia).
      rewrite has_bits_pow2 by lia.
      replace (u8 (2 ^ Z.of_nat j * 2)) with (2 ^ Z.of_nat (S j)).
      + rewrite <- (IH (S j)) by lia. f_equal. rewrite function_count_S.
        destruct (Z.testbit m (Z.of_nat j)); [by rewrite Nat.add_1_r|by rewrite Nat.add_0_r].
      + assert (2 ^ Z.of_nat j * 2 = 2 ^ Z.of_nat (S j)) as -> by (rewrite Nat2Z.inj_succ, Z.pow_succ_r; lia).
        symmetry. apply wrap_small. split; [apply Z.pow_nonneg; lia|apply Z.pow_lt_mono_r; lia]. }
  assert (Hfuel : ∀ f f' mask i r, (f ≤ f')%nat → functionIndex f m (2 ^ Z.of_nat k) mask i = Some r →
    functionIndex f' m (2 ^ Z.of_nat k) mask i = Some r).
  { induction f as [|f IH]; intros [|f'] mask i r ? Hf; try done; [lia|].
    rewrite functionIndex_S in *. case_match; [|done]. apply IH; [lia|done]. }
  apply (Hfuel (S k)); [lia|]. by apply (Hstep k 0%nat).
Qed.

Lemma find_function_spec c k :
  cluster_functions_ok c → (k < 6)%nat →
  emberAfFindClusterFunction c (2 ^ Z.of_nat k)
  = Some (if Z.testbit (cl_mask c) (Z.of_nat k)
          then functions c !! function_count (cl_mask c) k else None).
Proof.
  intros Hok Hk. unfold emberAfFindClusterFunction.
  pose proof (has_bits_pow2 (cl_mask c) (Z.of_nat k) ltac:(lia)) as Hb. unfold has_bits in Hb.
  destruct (Z.testbit (cl_mask c) (Z.of_nat k)) eqn:E.
  - apply negb_true_iff in Hb as ->. rewrite functionIndex_count by lia.
    destruct (lookup_lt_is_Some_2 (functions c) (function_count (cl_mask c) k)) as [f Hf]; [|by rewrite Hf].
    red in Hok. pose proof (function_count_mono (cl_mask c) (S k) 6 ltac:(lia)) as Hm.
    rewrite function_count_S, E in Hm. lia.
  - apply negb_false_iff in Hb as ->. done.
Qed.

(** ** Enabling and disabling: frame lemmas *)
Lemma init_clusters_table cs ep s s' :
  init_clusters cs ep s = Some s' → ∃ l, s' = s <| ep_log ::= (fun x => x ++ l) |>.
Proof.
  revert s; induction cs as [|c cs IH]; intros s; cbn [init_clusters].
  - intros [= <-]. exists []. destruct s; simpl. by rewrite app_nil_r.
  - destruct (emberAfFindClusterFunction c _) as [[f|]|]; [| |done];
      intros (l & ->)%IH; destruct s; simpl; unfold log_ev; simpl; rewrite <- !app_assoc; eauto.
Qed.

Lemma shutdown_clusters_table cs ep s s' :
  shutdown_clusters cs ep s = Some s' → ∃ l, s' = s <| ep_log ::= (fun x => x ++ l) |>.
Proof.
  revert s; induction cs as [|c cs IH]; intros s; cbn [shutdown_clusters].
  - intros [= <-]. exists []. destruct s; simpl. by rewrite app_nil_r.
  - destruct (emberAfFindClusterFunction c _) as [[f|]|]; [| |done];
      intros (l & ->)%IH; destruct s; simpl; unfold log_ev; simpl; rewrite <- ?app_assoc; eauto.
Qed.

Lemma report_parents_table fuel p s s' :
  report_parents fuel p s = Some s' → ∃ l, s' = s <| ep_log ::= (fun x => x ++ l) |>.
Proof.
  revert p s; induction fuel as [|fuel IH]; intros p s; cbn [report_parents]; case_match;
    try done; try (intros [= <-]; exists []; destruct s; simpl; by rewrite app_nil_r).
  case_match; [intros [= <-]; destruct s; simpl; unfold log_ev; simpl; by eauto|].
  case_match; [|done]. intros (l & ->)%IH. destruct s; simpl; unfold log_ev; simpl.
  rewrite <- app_assoc. eauto.
Qed.

Definition enabled_bitmask (b : Z) (enable : bool) : Z :=
  if enable then flag_Set b isEnabled else flag_Clear b isEnabled.

Lemma flag_Has_Set b f : f ≠ 0 → flag_Has (flag_Set b f) f = true.
Proof.
  intros Hf. unfold flag_Has, has_bits, flag_Set. apply negb_true_iff, Z.eqb_neq.
  rewrite Z.land_lor_distr_l, Z.land_diag. intros [_ ?]%Z.lor_eq_0_iff. done.
Qed.

Lemma flag_Has_Clear b f : in_u 8 f → flag_Has (flag_Clear b f) f = false.
Proof.
  intros Hf. unfold flag_Has, has_bits, flag_Clear. apply negb_false_iff, Z.eqb_eq.
  apply Z.bits_inj'. intros i Hi. rewrite Z.bits_0, !Z.land_spec. unfold wrap.
  destruct (decide (i < 8)).
  - rewrite Z.mod_pow2_bits_low, Z.lnot_spec by lia. destruct (Z.testbit f i), (Z.testbit b i); done.
  - rewrite (Z.mod_pow2_bits_high (Z.lnot f) 8 i) by lia. rewrite andb_false_r. done.
Qed.

Lemma flag_enabled_testbit b : flag_Has b isEnabled = Z.testbit b 0.
Proof. exact (has_bits_pow2 b 0 (Z.le_refl 0)). Qed.

(** Setting an enabled bit that is set, or clearing one that is not, changes
    nothing. *)
Lemma flag_Set_id b : flag_Has b isEnabled = true → flag_Set b isEnabled = b.
Proof.
  rewrite flag_enabled_testbit. unfold flag_Set, isEnabled. intros Hb.
  apply Z.bits_inj'. intros i Hi. rewrite Z.lor_spec.
  destruct (decide (i = 0)) as [->|]; [by rewrite Hb|].
  change 1 with (2 ^ 0). rewrite (Z.pow2_bits_false 0 i) by lia. apply orb_false_r.
Qed.

Lemma clear_enabled_testbit b i :
  in_u 8 b → 0 ≤ i → Z.testbit (flag_Clear b isEnabled) i = Z.testbit b i && negb (i =? 0).
Proof.
  intros Hb Hi. unfold flag_Clear, isEnabled, wrap. rewrite Z.land_spec.
  destruct (decide (i < 8)).
  - rewrite Z.mod_pow2_bits_low, Z.lnot_spec by lia. change 1 with (2 ^ 0).
    destruct (Z.eqb_spec i 0) as [->|]; [by rewrite Z.pow2_bits_true|].
    by rewrite (Z.pow2_bits_false 0 i) by lia.
  - rewrite <- (wrap_small 8 b Hb). unfold wrap. by rewrite !Z.mod_pow2_bits_high by lia.
Qed.

Lemma flag_Clear_id b : in_u 8 b → flag_Has b isEnabled = false → flag_Clear b isEnabled = b.
Proof.
  intros Hb. rewrite flag_enabled_testbit. intros H0.
  apply Z.bits_inj'. intros i Hi. rewrite clear_enabled_testbit by done.
  destruct (Z.eqb_spec i 0) as [->|]; [by rewrite H0|apply andb_true_r].
Qed.

Lemma log_ev_eq ev s : log_ev ev s = s <| ep_log ::= (fun x => x ++ [ev]) |>.
Proof. done. Qed.

(** Enabling or disabling the endpoint at [k] changes that entry's enabled bit
    and nothing else in the table; the callbacks run only on a change. *)
Lemma enable_disable_table fuel s k e enable r s' :
  table_ok s → first_at s k e →
  emberAfEndpointEnableDisable fuel s (endpoint e) enable = Some (r, s') →
  r = true ∧ emberEndpointCount s' = emberEndpointCount s ∧
  emAfEndpoints s' = <[k := e <| bitmask := enabled_bitmask (bitmask e) enable |>]> (emAfEndpoints s) ∧
  (flag_Has (bitmask e) isEnabled = enable → ep_log s' = ep_log s).
Proof.
  intros Hok Hf. pose proof Hf as (Hlk & Hid & _). pose proof (ep_at_live _ _ _ Hlk) as Hat.
  pose proof (proj1 (live_lookup _ _ _) Hlk) as [Hk Hkc]. unfold emberAfEndpointEnableDisable.
  rewrite (findIndex_first s k e false Hf) by done.
  rewrite (live_index_valid s k e Hok Hlk), Hat, Nat2Z.id.
  destruct (eqb_spec (flag_Has (bitmask e) isEnabled) enable) as [Heq|Hne].
  - intros [= <- <-]. destruct enable.
    + unfold set_ep; simpl. rewrite (alter_insert_lookup _ _ _ e Hk). by repeat split.
    + unfold set_ep; simpl. rewrite (alter_insert_lookup _ _ _ e Hk). by repeat split.
  - destruct enable.
    + set (s1 := set_ep k _ s). let_step s4 E1. intros [= <- <-]. revert E1.
      let_step e1 E1. let_step s3 E2. let_step e2 E3. let_step s5 E4.
      apply report_parents_table in E4 as [l3 ->]. intros [= <-]. revert E2.
      let_step s2 E5. intros [= <-]. revert E5. unfold initializeEndpoint. let_step t E6.
      intros [l2 ->]%init_clusters_table. unfold s1, set_ep; simpl.
      rewrite (alter_insert_lookup _ _ _ e Hk). by repeat split.
    + let_step s4 E1. intros [= <- <-]. revert E1.
      let_step e1 E1. let_step s3 E2. let_step e2 E3. let_step s5 E4.
      apply report_parents_table in E4 as [l3 ->]. intros [= <-]. revert E2.
      unfold shutdownEndpoint. let_step t E6. let_step s2 E5.
      apply shutdown_clusters_table in E5 as [l2 ->]. intros [= <-]. unfold set_ep; simpl.
      rewrite (alter_insert_lookup _ _ _ e Hk). by repeat split.
Qed.

(** ** Lookups after a change to one entry *)
Lemma find_index_from_ext p eps eps' i :
  Forall2 (fun e e' => p e = p e') eps eps' → find_index_from p eps i = find_index_from p eps' i.
Proof.
  intros H; revert i; induction H as [|e e' eps eps' He _ IH]; intros i; simpl; [done|].
  rewrite He. by rewrite IH.
Qed.

Lemma Forall2_insert_at {A} (R : A → A → Prop) (l : list A) k x y :
  (∀ z, R z z) → l !! k = Some x → R x y → Forall2 R l (<[k := y]> l).
Proof.
  intros Hr Hk Hxy. apply Forall2_same_length_lookup_2; [by rewrite length_insert|].
  intros i a b Ha Hb. destruct (decide (k = i)) as [<-|Hne].
  - rewrite list_lookup_insert_eq in Hb by (by eapply lookup_lt_Some). congruence.
  - rewrite list_lookup_insert_ne in Hb by done. by simplify_eq.
Qed.

(** [s'] is [s] with the entry at [k] replaced by [e']. *)
Definition entry_update (s s' : endpoint_table) (k : nat) (e' : EmberAfDefinedEndpoint) : Prop :=
  emberEndpointCount s' = emberEndpointCount s ∧ emAfEndpoints s' = <[k := e']> (emAfEndpoints s).

Section entry_update.
Context (s s' : endpoint_table) (k : nat) (e e' : EmberAfDefinedEndpoint).
Context (Hup : entry_update s s' k e') (Hk : live_endpoints s !! k = Some e).

Lemma live_update : live_endpoints s' = <[k := e']> (live_endpoints s).
Proof.
  destruct Hup as [Hc He]. unfold live_endpoints. rewrite Hc, He.
  apply take_insert_lt. by apply live_lookup in Hk as [_ Hk].
Qed.

(** An update that keeps the id and the enabled bit of an entry keeps every
    index; one that keeps the id keeps the indices that ignore the bit. *)
Lemma findIndex_update ep b :
  endpoint e' = endpoint e →
  (b = true → flag_Has (bitmask e') isEnabled = flag_Has (bitmask e) isEnabled ∨ endpoint e ≠ ep) →
  findIndexFromEndpoint s' ep b = findIndexFromEndpoint s ep b.
Proof.
  intros Hid Hb. unfold findIndexFromEndpoint. case_match; [done|]. rewrite live_update.
  symmetry. apply find_index_from_ext.
  eapply Forall2_insert_at; [done|exact Hk|]. simpl. rewrite Hid.
  destruct b; simpl; [|done]. destruct (Hb eq_refl) as [->|Hne]; [done|].
  by rewrite (proj2 (Z.eqb_neq _ _) Hne).
Qed.

Lemma ep_at_update_ne index : 0 ≤ index → index ≠ Z.of_nat k → ep_at s' index = ep_at s index.
Proof. intros ??. destruct Hup as [_ He]. unfold ep_at. rewrite He. apply list_lookup_insert_ne. lia. Qed.

Lemma ep_at_update_eq : ep_at s' (Z.of_nat k) = Some e'.
Proof.
  destruct Hup as [_ He]. unfold ep_at. rewrite He, Nat2Z.id. apply list_lookup_insert_eq.
  apply live_lookup in Hk as [Hk' _]. by eapply lookup_lt_Some.
Qed.

Lemma table_ok_update : table_ok s → (endpoint_ok e → endpoint_ok e') → table_ok s'.
Proof.
  intros [Hc Hm Ht] Hok. pose proof Hup as [Hc' He']. split.
  - by rewrite Hc', He', length_insert.
  - by rewrite He', length_insert.
  - rewrite live_update. apply Forall_insert; [done|]. apply Hok.
    by eapply Forall_lookup_1.
Qed.
End entry_update.

Lemma first_at_unique s k e k' e' :
  first_at s k e → first_at s k' e' → endpoint e = endpoint e' → k = k'.
Proof.
  intros (Hk & _ & Hj) (Hk' & _ & Hj') Heq.
  destruct (Nat.lt_trichotomy k k') as [Hlt|[|Hlt]]; [|done|].
  - by destruct (Hj' k e Hlt Hk).
  - by destruct (Hj k' e' Hlt Hk').
Qed.

Lemma isEnabled_first s k e :
  table_ok s → first_at s k e →
  emberAfEndpointIsEnabled s (endpoint e) = Some (flag_Has (bitmask e) isEnabled).
Proof.
  intros Hok Hf. pose proof Hf as (Hk & _ & _). unfold emberAfEndpointIsEnabled.
  rewrite (findIndex_first s k e false Hf) by done.
  rewrite (live_index_valid s k e Hok Hk). unfold emberAfEndpointIndexIsEnabled.
  by rewrite (ep_at_live s k e Hk).
Qed.

Lemma isEnabled_update_ne s s' k e e' ep :
  table_ok s → first_at s k e → entry_update s s' k e' → endpoint e' = endpoint e →
  ep ≠ endpoint e → emberAfEndpointIsEnabled s' ep = emberAfEndpointIsEnabled s ep.
Proof.
  intros Hok Hf Hup Hid Hne. pose proof Hf as (Hk & _ & _). unfold emberAfEndpointIsEnabled.
  rewrite (findIndex_update s s' k e e' Hup Hk ep false Hid) by done.
  destruct (Z.eqb_spec kEmberInvalidEndpointIndex (findIndexFromEndpoint s ep false)) as [|Hi]; [done|].
  destruct (findIndex_inv s ep false Hok) as (j & x & Hj & Hx & _ & _ & Hij); [done|].
  unfold emberAfEndpointIndexIsEnabled. rewrite Hij.
  rewrite (ep_at_update_ne s s' k e' Hup (Z.of_nat j)); [done|lia|].
  intros ->%Nat2Z.inj. simplify_eq.
Qed.

(** The set of an entry in the update. *)
Lemma enabled_bitmask_has b enable : flag_Has (enabled_bitmask b enable) isEnabled = enable.
Proof. destruct enable; [by apply flag_Has_Set|by apply flag_Has_Clear]. Qed.

Lemma endpoint_ok_bitmask e b : endpoint_ok e → endpoint_ok (e <| bitmask := b |>).
Proof. done. Qed.

Lemma enable_disable_spec fuel s k e enable r s' :
  table_ok s → first_at s k e →
  emberAfEndpointEnableDisable fuel s (endpoint e) enable = Some (r, s') →
  r = true ∧ table_ok s' ∧
  emberAfEndpointIsEnabled s' (endpoint e) = Some enable ∧
  (∀ ep, ep ≠ endpoint e → emberAfEndpointIsEnabled s' ep = emberAfEndpointIsEnabled s ep) ∧
  (emberAfEndpointIsEnabled s (endpoint e) = Some enable → ep_log s' = ep_log s).
Proof.
  intros Hok Hf Hr. pose proof Hf as (Hk & Hid & Hj).
  destruct (enable_disable_table _ _ _ _ _ _ _ Hok Hf Hr) as (-> & Hc & He & Hl).
  set (e' := e <| bitmask := enabled_bitmask (bitmask e) enable |>) in *.
  assert (entry_update s s' k e') as Hup by done.
  assert (table_ok s') as Hok' by (eapply table_ok_update; eauto using endpoint_ok_bitmask).
  split_and!; [done|done| | |].
  - assert (first_at s' k e') as Hf'.
    { split_and!; [|done|].
      - rewrite (live_update s s' k e e' Hup Hk). apply list_lookup_insert_eq. by eapply lookup_lt_Some.
      - intros j x Hlt. rewrite (live_update s s' k e e' Hup Hk), list_lookup_insert_ne by lia. eauto. }
    change (endpoint e) with (endpoint e'). rewrite (isEnabled_first s' k e' Hok' Hf').
    unfold e'; simpl. by rewrite enabled_bitmask_has.
  - intros ep Hne. by eapply isEnabled_update_ne.
  - rewrite (isEnabled_first s k e Hok Hf). intros [= Hen]. auto.
Qed.

(** ** The walk along the parent links *)

(** Every endpoint the walk can visit has a rank above its parent's. *)
Definition parents_ranked (s : endpoint_table) (rank : EndpointId → nat) : Prop :=
  Forall (fun e => parentEndpointId e ≠ kInvalidEndpointId →
                   (rank (parentEndpointId e) < rank (endpoint e))%nat) (live_endpoints s).

Lemma parents_ranked_log s rank ev : parents_ranked s rank → parents_ranked (log_ev ev s) rank.
Proof. done. Qed.

Lemma table_ok_log s ev : table_ok s → table_ok (log_ev ev s).
Proof. intros [? ? ?]. by split. Qed.

(** The endpoints from [p] up: a walk along the parent links over the enabled entries
    of the table, which ends at the entry without a parent, or at a link to an endpoint
    that no enabled entry has. *)
Inductive ancestors (live : list EmberAfDefinedEndpoint) : EndpointId → list EndpointId → Prop :=
| ancestors_none : ancestors live kInvalidEndpointId []
| ancestors_lost p : p ≠ kInvalidEndpointId → (∀ e, e ∈ live → endpoint e = p → Z.testbit (bitmask e) 0 = false) → ancestors live p [p]
| ancestors_up p e l : p ≠ kInvalidEndpointId → e ∈ live → endpoint e = p → Z.testbit (bitmask e) 0 = true →
    ancestors live (parentEndpointId e) l → ancestors live p (p :: l).

Lemma report_parents_terminates fuel s rank p :
  table_ok s → parents_ranked s rank → (p ≠ kInvalidEndpointId → (rank p < fuel)%nat) →
  ∃ l, ancestors (live_endpoints s) p l ∧ report_parents fuel p s = Some (s <| ep_log ::= (fun x => x ++ (ReportPartsList <$> l)) |>).
Proof.
  revert s p; induction fuel as [|fuel IH]; intros s p Hok Hrk Hfuel; cbn [report_parents].
  { destruct (Z.eqb_spec p kInvalidEndpointId) as [->|Hp]; [|specialize (Hfuel Hp); lia].
    exists []. split; [constructor|]. destruct s; simpl. by rewrite app_nil_r. }
  destruct (Z.eqb_spec p kInvalidEndpointId) as [->|Hp].
  { exists []. split; [constructor|]. destruct s; simpl. by rewrite app_nil_r. }
  destruct (Z.eqb_spec (emberAfIndexFromEndpoint (log_ev (ReportPartsList p) s) p) kEmberInvalidEndpointIndex)
    as [Hno|Hne].
  { exists [p]. split; [|done]. constructor; [done|]. intros e [k Hk]%list_elem_of_lookup He. apply not_true_iff_false. intros Hb.
    unfold emberAfIndexFromEndpoint, findIndexFromEndpoint in Hno. rewrite (proj2 (Z.eqb_neq p _)) in Hno by done.
    change (live_endpoints (log_ev (ReportPartsList p) s)) with (live_endpoints s) in Hno.
    rewrite <- flag_enabled_testbit in Hb. by eapply find_index_found_valid; [exact Hok|exact Hk| |exact Hno]; simpl; rewrite He, Z.eqb_refl, Hb. }
  destruct (findIndex_inv _ _ _ (table_ok_log _ (ReportPartsList p) Hok) Hne) as (k & e & Hk & He & _ & Hen & Hi).
  change (live_endpoints (log_ev (ReportPartsList p) s)) with (live_endpoints s) in Hk.
  unfold emberAfIndexFromEndpoint. rewrite Hi, (ep_at_live (log_ev (ReportPartsList p) s) k e Hk).
  destruct (IH (log_ev (ReportPartsList p) s) (parentEndpointId e)) as (l & Hl & ->).
  - by apply table_ok_log.
  - by apply parents_ranked_log.
  - intros Hgo. pose proof (proj1 (Forall_lookup _ _) Hrk k e Hk Hgo). rewrite He in *. specialize (Hfuel Hp). lia.
  - exists (p :: l). split.
    + eapply ancestors_up; [done|by eapply list_elem_of_lookup_2|done|rewrite <- flag_enabled_testbit; auto|done].
    + destruct s; simpl. unfold log_ev; simpl. by rewrite <- app_assoc.
Qed.

(** A change of an entry the walk does not come to leaves it as it was. *)
Lemma ancestors_update live k e e' rank p l :
  live !! k = Some e → endpoint e' = endpoint e → parentEndpointId e' = parentEndpointId e →
  Forall (fun e => parentEndpointId e ≠ kInvalidEndpointId → (rank (parentEndpointId e) < rank (endpoint e))%nat) live →
  ancestors (<[k := e']> live) p l → (p ≠ kInvalidEndpointId → (rank p < rank (endpoint e))%nat) → ancestors live p l.
Proof.
  intros Hk Hid Hpar Hrk Hanc. induction Hanc as [|p Hp Hno|p x l Hp Hin Hx Hb _ IH]; intros Hlt; [constructor| |].
  - constructor; [done|]. intros x [j Hj]%list_elem_of_lookup Hx. apply (Hno x); [|done]. destruct (decide (j = k)) as [->|Hne].
    + simplify_eq. specialize (Hlt Hp). lia.
    + apply list_elem_of_lookup. exists j. by rewrite list_lookup_insert_ne by done.
  - specialize (Hlt Hp). apply list_elem_of_lookup in Hin as [j Hj]. destruct (decide (j = k)) as [->|Hne].
    + rewrite list_lookup_insert_eq in Hj by (by eapply lookup_lt_Some). simplify_eq. rewrite Hid in Hlt. lia.
    + rewrite list_lookup_insert_ne in Hj by done. eapply ancestors_up; [done|by eapply list_elem_of_lookup_2|done|done|].
      apply IH. intros Hgo. pose proof (proj1 (Forall_lookup _ _) Hrk j x Hj Hgo). rewrite Hx in *. lia.
Qed.

Lemma endpoint_functions_ok s k e :
  table_ok s → first_at s k e → ∃ t, endpointType e = Some t ∧ Forall cluster_functions_ok (cluster t).
Proof.
  intros Hok (Hk & Hid & _). pose proof (proj1 (Forall_lookup _ _) (ok_types s Hok) k e Hk Hid) as Ht.
  destruct (endpointType e) as [t|]; [eauto|done].
Qed.

(** The function of a cluster for a bit of its mask, and the calls of an endpoint that
    starts and of one that ends *)
Definition cluster_function (c : EmberAfCluster) (bit : nat) : option nat :=
  if Z.testbit (cl_mask c) (Z.of_nat bit) then functions c !! function_count (cl_mask c) bit else None.
Definition startup_events (ep : EndpointId) (cs : list EmberAfCluster) : list ep_event :=
  cs ≫= fun c => ClusterInitCallback ep (clusterId c) :: match cluster_function c 0 with Some f => [InitFunction f ep] | None => [] end.
Definition shutdown_events (ep : EndpointId) (cs : list EmberAfCluster) : list ep_event :=
  cs ≫= fun c => match cluster_function c 4 with Some f => [ShutdownFunction f ep] | None => [] end.

Lemma init_clusters_ok cs ep s : Forall cluster_functions_ok cs →
  init_clusters cs ep s = Some (s <| ep_log ::= (fun x => x ++ startup_events ep cs) |>).
Proof.
  intros H; revert s; induction H as [|c cs Hc _ IH]; intros s; cbn [init_clusters].
  { destruct s; simpl. by rewrite app_nil_r. }
  change CLUSTER_MASK_INIT_FUNCTION with (2 ^ Z.of_nat 0). rewrite (find_function_spec c 0 Hc) by lia.
  fold (cluster_function c 0). unfold startup_events. cbn [mbind list_bind]. fold (startup_events ep cs).
  destruct (cluster_function c 0); rewrite IH; destruct s; unfold log_ev; simpl; by rewrite <- ?app_assoc.
Qed.

Lemma shutdown_clusters_ok cs ep s : Forall cluster_functions_ok cs →
  shutdown_clusters cs ep s = Some (s <| ep_log ::= (fun x => x ++ shutdown_events ep cs) |>).
Proof.
  intros H; revert s; induction H as [|c cs Hc _ IH]; intros s; cbn [shutdown_clusters].
  { destruct s; simpl. by rewrite app_nil_r. }
  change CLUSTER_MASK_SHUTDOWN_FUNCTION with (2 ^ Z.of_nat 4). rewrite (find_function_spec c 4 Hc) by lia.
  fold (cluster_function c 4). unfold shutdown_events. cbn [mbind list_bind]. fold (shutdown_events ep cs).
  destruct (cluster_function c 4); rewrite IH; destruct s; unfold log_ev; simpl; by rewrite <- ?app_assoc.
Qed.

Lemma bitmask_update s k e b :
  live_endpoints s !! k = Some e →
  entry_update s (set_ep k (fun e => e <| bitmask ::= b |>) s) k (e <| bitmask ::= b |>).
Proof.
  intros [Hk _]%live_lookup. split; [done|]. unfold set_ep; simpl.
  by rewrite (alter_insert_lookup _ _ _ e Hk).
Qed.

Lemma parents_ranked_update s s' k e e' rank :
  entry_update s s' k e' → live_endpoints s !! k = Some e →
  endpoint e' = endpoint e → parentEndpointId e' = parentEndpointId e →
  parents_ranked s rank → parents_ranked s' rank.
Proof.
  intros Hup Hk Hid Hpar Hrk. unfold parents_ranked. rewrite (live_update s s' k e e' Hup Hk).
  apply Forall_insert; [done|]. rewrite Hid, Hpar. by apply (proj1 (Forall_lookup _ _) Hrk k).
Qed.

(** The table after the switch of the endpoint at [k] *)
Definition switched (s : endpoint_table) (k : nat) (e : EmberAfDefinedEndpoint) (t : EmberAfEndpointType) (enable : bool)
    (parents : list EndpointId) : endpoint_table :=
  let ep := endpoint e in
  let changes := negb (eqb (Z.testbit (bitmask e) 0) enable) in
  {| emAfEndpoints := <[k := e <| bitmask := enabled_bitmask (bitmask e) enable |>]> (emAfEndpoints s);
     emberEndpointCount := emberEndpointCount s;
     gAttributeAccessOverrides :=
       if changes && negb enable then filter (fun a => aai_endpoint a ≠ Some ep) (gAttributeAccessOverrides s) else gAttributeAccessOverrides s;
     ep_log := ep_log s ++
       if changes then
         (if enable then startup_events ep (cluster t) ++ [ReportEndpoint ep] else shutdown_events ep (cluster t) ++ [UnregisterCommandHandlers ep])
         ++ (ReportPartsList <$> parents) ++ [ReportPartsList 0]
       else [] |}.

Lemma matches_endpoint_iff a ep : MatchesEndpoint a ep = false ↔ aai_endpoint a ≠ Some ep.
Proof. unfold MatchesEndpoint. destruct (aai_endpoint a) as [x|]; [|done]. rewrite Z.eqb_neq. naive_solver. Qed.

Lemma enable_disable_exact s k e rank fuel enable :
  table_ok s → first_at s k e →
  parents_ranked s rank → (rank (endpoint e) < fuel)%nat →
  ∃ t parents, endpointType e = Some t ∧ ancestors (live_endpoints s) (parentEndpointId e) parents ∧
    emberAfEndpointEnableDisable fuel s (endpoint e) enable = Some (true, switched s k e t enable parents).
Proof.
  intros Hok Hf Hrk Hfuel. pose proof Hf as (Hk & _ & _). pose proof (proj1 (live_lookup _ _ _) Hk) as [Hek _].
  destruct (endpoint_functions_ok s k e Hok Hf) as (t & Ht & Hfn). exists t.
  assert (Hbelow : parentEndpointId e ≠ kInvalidEndpointId → (rank (parentEndpointId e) < rank (endpoint e))%nat)
    by (by apply (proj1 (Forall_lookup _ _) Hrk k)).
  assert (Hlow : parentEndpointId e ≠ kInvalidEndpointId → (rank (parentEndpointId e) < fuel)%nat) by (intros Hp; specialize (Hbelow Hp); lia).
  unfold emberAfEndpointEnableDisable, switched. rewrite (findIndex_first s k e false Hf) by done.
  rewrite (live_index_valid s k e Hok Hk), (ep_at_live _ _ _ Hk), Nat2Z.id, flag_enabled_testbit.
  destruct (eqb_spec (Z.testbit (bitmask e) 0) enable) as [Heq|Hne]; cbn [negb andb].
  { destruct (report_parents_terminates fuel s rank (parentEndpointId e) Hok Hrk Hlow) as (l & Hl & _). exists l. split_and!; [done|done|].
    rewrite app_nil_r. destruct enable; unfold set_ep; simpl; rewrite (alter_insert_lookup _ _ _ e Hek); by destruct s. }
  destruct enable; cbn [negb].
  - pose proof (bitmask_update s k e (fun b => flag_Set b isEnabled) Hk) as Hup. set (s1 := set_ep k _ s) in *.
    rewrite (ep_at_update_eq s s1 k e _ Hup Hk). unfold initializeEndpoint; simpl. rewrite Ht, init_clusters_ok by done.
    change (ep_at _ (Z.of_nat k)) with (ep_at s1 (Z.of_nat k)). rewrite (ep_at_update_eq s s1 k e _ Hup Hk).
    match goal with |- context [report_parents fuel _ ?x] => set (s2 := x) end.
    destruct (report_parents_terminates fuel s2 rank (parentEndpointId e)) as (l & Hl & E); [| |done|].
    { apply table_ok_log. destruct (table_ok_update s s1 k e _ Hup Hk Hok) as [? ? ?]; [done|]. by split. }
    { by eapply (parents_ranked_update s s1). }
    exists l. split_and!; [done| |].
    + eapply (ancestors_update _ k e); [exact Hk| | |exact Hrk| |exact Hbelow].
      3: { change (live_endpoints s2) with (live_endpoints s1) in Hl. rewrite (live_update s s1 k e _ Hup Hk) in Hl. exact Hl. }
      all: done.
    + simpl in E |- *. rewrite E. unfold s2, s1, set_ep, log_ev. simpl. rewrite (alter_insert_lookup _ _ _ e Hek).
      by rewrite <- !app_assoc, Ht.
  - unfold shutdownEndpoint. rewrite (ep_at_live _ _ _ Hk), Ht, shutdown_clusters_ok by done.
    match goal with |- context [ep_at ?x (Z.of_nat k)] => change (ep_at x (Z.of_nat k)) with (ep_at s (Z.of_nat k));
      set (s4 := x) end.
    rewrite (ep_at_live _ _ _ Hk). destruct (report_parents_terminates fuel s4 rank (parentEndpointId e)) as (l & Hl & E); [|done|done|].
    { destruct Hok as [? ? ?]. by split. }
    exists l. split_and!; [done|exact Hl|]. rewrite E. unfold s4, set_ep, log_ev. simpl. rewrite (alter_insert_lookup _ _ _ e Hek).
    unfold UnregisterMatchingAttributeAccessInterfaces. simpl. do 3 f_equal; [|by rewrite <- !app_assoc].
    apply list_filter_iff. intros a. apply matches_endpoint_iff.
Qed.

Lemma enable_disable_ends s k e rank fuel enable :
  table_ok s → first_at s k e →
  parents_ranked s rank → (rank (endpoint e) < fuel)%nat →
  is_Some (emberAfEndpointEnableDisable fuel s (endpoint e) enable).
Proof. intros Hok Hf Hrk Hfuel. destruct (enable_disable_exact s k e rank fuel enable) as (t & l & _ & _ & ->); eauto. Qed.

Lemma enabled_bitmask_testbit b enable i : 0 ≤ i < 8 → Z.testbit (enabled_bitmask b enable) i = if i =? 0 then enable else Z.testbit b i.
Proof.
  intros Hi. destruct enable; cbn [enabled_bitmask].
  - unfold flag_Set, isEnabled. rewrite Z.lor_spec. change 1 with (2 ^ 0).
    destruct (Z.eqb_spec i 0) as [->|]; [by rewrite Z.pow2_bits_true, orb_true_r|]. by rewrite (Z.pow2_bits_false 0 i), orb_false_r by lia.
  - unfold flag_Clear, isEnabled, wrap. rewrite Z.land_spec, Z.mod_pow2_bits_low, Z.lnot_spec by lia. change 1 with (2 ^ 0).
    destruct (Z.eqb_spec i 0) as [->|]; [by rewrite Z.pow2_bits_true, andb_false_r|]. by rewrite (Z.pow2_bits_false 0 i), andb_true_r by lia.
Qed.

(** C25: [emberAfEndpointEnableDisable] on a known endpoint of a table whose parent links
    form a forest (they go down a rank; a cycle makes the walk endless, see
    [self_parent_diverges]) returns true with the whole table as asked.  The entry of the
    endpoint has its enabled bit set to [enable] and its other bits as they were; every
    other entry, the count and the order of the entries are untouched.  If the bit
    changes, the calls are, in this order: for each cluster its init callback and its init
    function and then the report of the endpoint, or for each cluster its shutdown
    function and then the removal of the command handlers; then the parts lists of the
    ancestors, from the parent up, and that of endpoint 0.  Disabling also removes the
    attribute overrides of this endpoint and no others.  If the bit does not change,
    nothing is called and nothing removed. *)
Theorem enable_disable_correct s k e rank fuel enable :
  table_ok s → first_at s k e →
  parents_ranked s rank → (rank (endpoint e) < fuel)%nat →
  ∃ s' t parents b', emberAfEndpointEnableDisable fuel s (endpoint e) enable = Some (true, s') ∧ table_ok s' ∧
    emberAfEndpointIsEnabled s' (endpoint e) = Some enable ∧
    (∀ ep, ep ≠ endpoint e → emberAfEndpointIsEnabled s' ep = emberAfEndpointIsEnabled s ep) ∧
    endpointType e = Some t ∧ ancestors (live_endpoints s) (parentEndpointId e) parents ∧
    (∀ i, 0 ≤ i < 8 → Z.testbit b' i = if i =? 0 then enable else Z.testbit (bitmask e) i) ∧
    emAfEndpoints s' = <[k := e <| bitmask := b' |>]> (emAfEndpoints s) ∧ emberEndpointCount s' = emberEndpointCount s ∧
    gAttributeAccessOverrides s' =
      (if Z.testbit (bitmask e) 0 && negb enable then filter (fun a => aai_endpoint a ≠ Some (endpoint e)) (gAttributeAccessOverrides s)
       else gAttributeAccessOverrides s) ∧
    ep_log s' = ep_log s ++
      (match Z.testbit (bitmask e) 0, enable with
       | false, true => startup_events (endpoint e) (cluster t) ++ [ReportEndpoint (endpoint e)] ++ (ReportPartsList <$> parents) ++ [ReportPartsList 0]
       | true, false => shutdown_events (endpoint e) (cluster t) ++ [UnregisterCommandHandlers (endpoint e)] ++ (ReportPartsList <$> parents) ++ [ReportPartsList 0]
       | _, _ => []
       end).
Proof.
  intros Hok Hf Hrk Hfuel. destruct (enable_disable_exact s k e rank fuel enable Hok Hf Hrk Hfuel) as (t & l & Ht & Hl & Hr).
  destruct (enable_disable_spec _ _ _ _ _ _ _ Hok Hf Hr) as (_ & Hok' & He & Hoth & _).
  exists (switched s k e t enable l), t, l, (enabled_bitmask (bitmask e) enable). split_and!; try done.
  - apply enabled_bitmask_testbit.
  - unfold switched. cbn [gAttributeAccessOverrides]. by destruct (Z.testbit (bitmask e) 0), enable.
  - unfold switched. cbn [ep_log]. f_equal. destruct (Z.testbit (bitmask e) 0), enable; cbn [eqb negb]; by rewrite <- ?app_assoc.
Qed.

Lemma report_parents_loop s p k e fuel :
  emberAfIndexFromEndpoint s p = Z.of_nat k → Z.of_nat k ≠ kEmberInvalidEndpointIndex →
  ep_at s (Z.of_nat k) = Some e → parentEndpointId e = p → p ≠ kInvalidEndpointId →
  report_parents fuel p s = None.
Proof.
  revert s; induction fuel as [|fuel IH]; intros s Hi Hv Ha Hp Hne; cbn [report_parents];
    rewrite (proj2 (Z.eqb_neq _ _) Hne); [done|].
  change (emberAfIndexFromEndpoint (log_ev _ s) p) with (emberAfIndexFromEndpoint s p).
  rewrite Hi, (proj2 (Z.eqb_neq _ _) Hv). change (ep_at (log_ev _ s) _) with (ep_at s (Z.of_nat k)).
  rewrite Ha, Hp. by apply IH.
Qed.

(** [SetParentEndpointForEndpoint] accepts an endpoint as its own parent, and
    the walk over the parents that the next enable or disable runs then never
    ends: the entry it visits is its own parent, and no fuel is enough. *)
Theorem self_parent_diverges s k e :
  table_ok s → first_at s k e → flag_Has (bitmask e) isEnabled = true →
  let r := SetParentEndpointForEndpoint s (endpoint e) (endpoint e) in
  fst r = CHIP_NO_ERROR ∧
  emberAfIndexFromEndpoint (snd r) (endpoint e) = Z.of_nat k ∧
  parentEndpointId <$> ep_at (snd r) (Z.of_nat k) = Some (endpoint e) ∧
  ∀ fuel, report_parents fuel (endpoint e) (snd r) = None.
Proof.
  intros Hok Hf Hen. pose proof Hf as (Hk & Hid & _).
  pose proof (live_index_valid s k e Hok Hk) as Hv. rewrite Z.eqb_sym in Hv.
  unfold SetParentEndpointForEndpoint, emberAfIndexFromEndpoint.
  rewrite (findIndex_first s k e true Hf) by done. rewrite Hv, Nat2Z.id; simpl.
  set (s' := set_ep k _ s). set (e' := e <| parentEndpointId := endpoint e |>).
  assert (entry_update s s' k e') as Hup.
  { split; [done|]. unfold s', set_ep; simpl. apply live_lookup in Hk as [Hk _].
    by rewrite (alter_insert_lookup _ _ _ e Hk). }
  assert (findIndexFromEndpoint s' (endpoint e) true = Z.of_nat k) as Hi.
  { rewrite (findIndex_update s s' k e e' Hup Hk) by (try done; auto). by apply findIndex_first. }
  rewrite (ep_at_update_eq s s' k e e' Hup Hk). split_and!; try done.
  intros fuel. apply (report_parents_loop s' _ k e'); try done.
  - by apply Z.eqb_neq.
  - by apply (ep_at_update_eq s s' k e).
Qed.

(** ** Composition flags *)
Lemma set_flat_bits b : in_u 8 b →
  flag_Has (flag_Set (flag_Clear b isTreeComposition) isFlatComposition) isEnabled = false.
Proof.
  intros Hb. rewrite flag_enabled_testbit. unfold flag_Set, flag_Clear, isTreeComposition, isFlatComposition, wrap.
  rewrite Z.lor_spec, Z.land_spec, Z.mod_pow2_bits_low, Z.lnot_spec by lia.
  change (Z.testbit 3 0) with true. change (Z.testbit 2 0) with false. by rewrite andb_false_r.
Qed.

(** [isTreeComposition] is 0x3, the union of the two other flags, so
    [SetFlatCompositionForEndpoint] clears the enabled bit: an enabled endpoint
    made a flat composition is disabled, without its shutdown callbacks. *)
Theorem set_flat_composition_disables s k e :
  table_ok s → first_at s k e → in_u 8 (bitmask e) → flag_Has (bitmask e) isEnabled = true →
  let r := SetFlatCompositionForEndpoint s (endpoint e) in
  emberAfEndpointIsEnabled s (endpoint e) = Some true ∧
  fst r = CHIP_NO_ERROR ∧ emberAfEndpointIsEnabled (snd r) (endpoint e) = Some false ∧ ep_log (snd r) = ep_log s.
Proof.
  intros Hok Hf Hb Hen. pose proof Hf as (Hk & Hid & Hj).
  pose proof (live_index_valid s k e Hok Hk) as Hv. rewrite Z.eqb_sym in Hv.
  rewrite (isEnabled_first s k e Hok Hf), Hen.
  unfold SetFlatCompositionForEndpoint, emberAfIndexFromEndpoint.
  rewrite (findIndex_first s k e true Hf), Hv, Nat2Z.id by done; simpl.
  set (f := fun b => flag_Set (flag_Clear b isTreeComposition) isFlatComposition).
  pose proof (bitmask_update s k e f Hk) as Hup. set (s' := set_ep k _ s) in *.
  assert (table_ok s') as Hok' by (by eapply table_ok_update).
  assert (first_at s' k (e <| bitmask ::= f |>)) as Hf'.
  { split_and!; [|done|].
    - rewrite (live_update s s' k e _ Hup Hk). apply list_lookup_insert_eq. by eapply lookup_lt_Some.
    - intros j x Hlt. rewrite (live_update s s' k e _ Hup Hk), list_lookup_insert_ne by lia. eauto. }
  split_and!; [done|done| |done].
  change (endpoint e) with (endpoint (e <| bitmask ::= f |>)). rewrite (isEnabled_first s' k _ Hok' Hf').
  unfold f; simpl. by rewrite set_flat_bits.
Qed.

(** ** Attribute access overrides *)
Lemma MatchesOther_sym a b : MatchesOther a b = MatchesOther b a.
Proof.
  unfold MatchesOther. rewrite Z.eqb_sym. f_equal.
  destruct (aai_endpoint a), (aai_endpoint b); try done. apply Z.eqb_sym.
Qed.

(** No two registered overrides want the same attributes. *)
Definition overrides_disjoint (s : endpoint_table) : Prop :=
  ForallOrdPairs (fun a b => MatchesOther a b = false) (gAttributeAccessOverrides s).

Lemma ForallOrdPairs_filter {A} (R : A → A → Prop) (P : A → Prop) `{!∀ x, Decision (P x)} l :
  ForallOrdPairs R l → ForallOrdPairs R (filter P l).
Proof.
  induction 1 as [|x l Hx Hl IH]; [constructor|]. rewrite list.filter_cons. case_decide; [|done].
  constructor; [|done]. apply List.Forall_forall. intros y Hy. apply list_elem_of_In in Hy.
  apply list_elem_of_filter in Hy as [_ Hy]. rewrite List.Forall_forall in Hx. apply Hx. by apply list_elem_of_In.
Qed.

Lemma Matches_both a b ep id : Matches a ep id = true → Matches b ep id = true → MatchesOther a b = true.
Proof.
  unfold Matches, MatchesOther. rewrite !andb_true_iff, !Z.eqb_eq. intros [Ha ->] [Hb ->]. split; [done|].
  destruct (aai_endpoint a), (aai_endpoint b); try done.
  apply Z.eqb_eq in Ha, Hb. apply Z.eqb_eq. congruence.
Qed.

Lemma find_override_unique l a ep id :
  ForallOrdPairs (fun a b => MatchesOther a b = false) l → a ∈ l → Matches a ep id = true →
  snd <$> list_find (fun a => Matches a ep id = true) l = Some a.
Proof.
  induction 1 as [|x l Hx Hl IH]; intros Ha Hm; [by apply not_elem_of_nil in Ha|].
  apply elem_of_cons in Ha as [->|Ha]; simpl.
  - by rewrite decide_True.
  - case_decide as Hd.
    + rewrite List.Forall_forall in Hx. apply list_elem_of_In, Hx in Ha.
      rewrite (Matches_both x a ep id Hd Hm) in Ha. done.
    + rewrite <- IH by done. destruct (list_find _ l) as [[]|]; done.
Qed.

(** The registry of attribute access overrides stays free of overlaps under
    registration, unregistration and the clean-up of a disabled endpoint; and
    without overlaps the override found for a path is the registered one that
    matches it, whatever the order of registration. *)
Theorem override_registry_correct s a f :
  overrides_disjoint s →
  overrides_disjoint (snd (registerAttributeAccessOverride s a)) ∧
  overrides_disjoint (unregisterAttributeAccessOverride s a) ∧
  overrides_disjoint (UnregisterMatchingAttributeAccessInterfaces f s) ∧
  (∀ b ep id, b ∈ gAttributeAccessOverrides s → Matches b ep id = true →
     GetAttributeAccessOverride s ep id = Some b) ∧
  (∀ ep id, fst (registerAttributeAccessOverride s a) = true → Matches a ep id = true →
     GetAttributeAccessOverride s ep id = None ∧
     GetAttributeAccessOverride (snd (registerAttributeAccessOverride s a)) ep id = Some a).
Proof.
  intros Hd. unfold registerAttributeAccessOverride. split_and!.
  - destruct (existsb _ _) eqn:E; [done|]. simpl. constructor; [|done].
    apply List.Forall_forall. intros b Hb. rewrite MatchesOther_sym.
    destruct (MatchesOther b a) eqn:Hm; [|done].
    rewrite <- E. symmetry. apply existsb_exists. eauto.
  - by apply ForallOrdPairs_filter.
  - by apply ForallOrdPairs_filter.
  - intros b ep id. by apply find_override_unique.
  - intros ep id. destruct (existsb _ _) eqn:E; [done|]. intros _ Hm. split.
    + unfold GetAttributeAccessOverride. destruct (list_find _ _) as [[i b]|] eqn:Hf; [|done].
      apply list_find_Some in Hf as (Hi & Hb & _). exfalso.
      assert (existsb (fun cur => MatchesOther cur a) (gAttributeAccessOverrides s) = true) as Ht; [|congruence].
      apply existsb_exists. exists b. split; [by apply list_elem_of_In; eapply list_elem_of_lookup_2|].
      by eapply Matches_both.
    + unfold GetAttributeAccessOverride; simpl. by rewrite decide_True.
Qed.

(** ** The index of a cluster server's endpoint *)
Section server_index.
Context (FIXED_ENDPOINT_COUNT : Z) (s : endpoint_table) (id : ClusterId) (n : Z).
Context (Hok : table_ok s) (Hfix : 0 ≤ FIXED_ENDPOINT_COUNT ≤ n + FIXED_ENDPOINT_COUNT)
        (Hmax : n + Z.of_nat (length (emAfEndpoints s)) < kEmberInvalidEndpointIndex).

Definition counted (e : EmberAfDefinedEndpoint) : Prop := endpoint e ≠ kInvalidEndpointId ∧ has_server id e = true.
Definition servers_before (k : nat) : nat := length (filter counted (take k (emAfEndpoints s))).

Lemma servers_before_lt j k e :
  (j < k)%nat → emAfEndpoints s !! j = Some e → counted e → (servers_before j < servers_before k)%nat.
Proof.
  intros Hjk Hj Hc. unfold servers_before.
  replace k with (j + S (k - j - 1))%nat by lia. rewrite <- take_take_drop.
  rewrite (drop_S _ e j Hj); simpl. rewrite list.filter_app, list.filter_cons, decide_True, length_app by done.
  simpl. lia.
Qed.

(** The result, when valid, is a strictly increasing function of the index. *)
Lemma server_index_inv ep i :
  emberAfGetClusterServerEndpointIndex FIXED_ENDPOINT_COUNT s ep id n = Some i →
  i ≠ kEmberInvalidEndpointIndex →
  ∃ k e, live_endpoints s !! k = Some e ∧ endpoint e = ep ∧ counted e ∧
    (Z.of_nat k < FIXED_ENDPOINT_COUNT ∧ i = Z.of_nat (servers_before k) ∧ i < n ∨
     FIXED_ENDPOINT_COUNT ≤ Z.of_nat k ∧ i = n + (Z.of_nat k - FIXED_ENDPOINT_COUNT)).
Proof.
  unfold emberAfGetClusterServerEndpointIndex. case_match; [done|].
  destruct (Z.eqb_spec (findIndexFromEndpoint s ep true) kEmberInvalidEndpointIndex) as [|Hne]; [by intros [= <-] []|].
  destruct (findIndex_inv s ep true Hok Hne) as (k & e & Hk & He & Hid & _ & Hi). rewrite Hi, (ep_at_live _ _ _ Hk).
  let_step t Ht. destruct (has_server id e) eqn:Hs; [|by intros [= <-] []]. simpl.
  intros Hr Hv. exists k, e. split_and!; [done|done|split; [congruence|done]|].
  revert Hr. rewrite Nat2Z.id. destruct (Z.ltb_spec (Z.of_nat k) FIXED_ENDPOINT_COUNT).
  - change (length (filter _ _)) with (servers_before k). destruct (Z.ltb_spec (Z.of_nat (servers_before k)) n); [|done].
    intros [= <-]. left. lia.
  - intros [= <-]. right. split; [done|]. apply wrap_small.
    apply live_lookup in Hk as [Hk _]. apply lookup_lt_Some in Hk. unfold kEmberInvalidEndpointIndex in *.
    unfold in_u. change (2 ^ 16) with 65536. lia.
Qed.
End server_index.

(** The indices [emberAfGetClusterServerEndpointIndex] gives to two different
    endpoints that serve the cluster are different, and below the number of
    endpoints that can serve it: an array with one slot per server endpoint has
    a slot of its own for each of them. *)
Theorem cluster_server_index_injective FIXED_ENDPOINT_COUNT s id n ep1 ep2 i1 i2 :
  table_ok s → 0 ≤ FIXED_ENDPOINT_COUNT → 0 ≤ n →
  n + Z.of_nat (length (emAfEndpoints s)) < kEmberInvalidEndpointIndex →
  emberAfGetClusterServerEndpointIndex FIXED_ENDPOINT_COUNT s ep1 id n = Some i1 →
  emberAfGetClusterServerEndpointIndex FIXED_ENDPOINT_COUNT s ep2 id n = Some i2 →
  i1 ≠ kEmberInvalidEndpointIndex → i2 ≠ kEmberInvalidEndpointIndex →
  ep1 ≠ ep2 →
  i1 ≠ i2 ∧ 0 ≤ i1 < n + Z.max 0 (emberEndpointCount s - FIXED_ENDPOINT_COUNT).
Proof.
  intros Hok Hfix Hn Hmax H1 H2 Hv1 Hv2 Hne.
  pose proof (server_index_inv FIXED_ENDPOINT_COUNT s id n Hok ltac:(lia) Hmax) as Hinv.
  destruct (Hinv _ _ H1 Hv1) as (k1 & e1 & Hk1 & He1 & Hc1 & Hi1).
  destruct (Hinv _ _ H2 Hv2) as (k2 & e2 & Hk2 & He2 & Hc2 & Hi2).
  pose proof (proj1 (live_lookup _ _ _) Hk1) as [Hl1 Hb1].
  pose proof (proj1 (live_lookup _ _ _) Hk2) as [Hl2 Hb2].
  assert (k1 ≠ k2) by (intros ->; congruence). split; [|lia].
  destruct Hi1 as [(?&->&?)|(?&->)], Hi2 as [(?&->&?)|(?&->)]; try lia.
  destruct (Nat.lt_total k1 k2) as [Hlt|[|Hlt]]; [|done|].
  - pose proof (servers_before_lt s id _ _ _ Hlt Hl1 Hc1). lia.
  - pose proof (servers_before_lt s id _ _ _ Hlt Hl2 Hc2). lia.
Qed.

(** ** A concrete table

    Endpoint 0 and three endpoints with the On/Off server (cluster 6), whose
    functions are an init and a shutdown function; 1 is the parent of 2. *)
Module Demo.
Definition onoff_cluster : EmberAfCluster :=
  {| clusterId := 6; attributes := []; clusterSize := 0; cl_mask := 0x51; functions := [0; 1]%nat |}.
Definition basic_cluster : EmberAfCluster :=
  {| clusterId := 0x28; attributes := []; clusterSize := 0; cl_mask := 0x40; functions := [] |}.
Definition relay_type : EmberAfEndpointType := {| cluster := [basic_cluster; onoff_cluster]; endpointSize := 0 |}.
Definition root_type : EmberAfEndpointType := {| cluster := [basic_cluster]; endpointSize := 0 |}.
Definition entry (id : EndpointId) (t : EmberAfEndpointType) (parent : EndpointId) : EmberAfDefinedEndpoint :=
  {| endpoint := id; deviceTypeList := []; bitmask := 3; endpointType := Some t; dataVersions := Some 0%nat;
     parentEndpointId := parent |}.
Definition table : endpoint_table :=
  {| emAfEndpoints := [entry 0 root_type kInvalidEndpointId; entry 1 relay_type kInvalidEndpointId;
                       entry 2 relay_type 1; entry 3 relay_type kInvalidEndpointId];
     emberEndpointCount := 4;
     gAttributeAccessOverrides := [{| aai_addr := 1%nat; aai_endpoint := Some 2; aai_cluster := 6 |}];
     ep_log := [] |}.

Lemma table_is_ok : table_ok table.
Proof.
  split; [split; vm_compute; congruence|by vm_compute|].
  unfold live_endpoints; simpl.
  repeat (constructor; [intros _; simpl; repeat (constructor; [vm_compute; repeat constructor|]); constructor|]).
  constructor.
Defined.

Lemma first (k : nat) (e : EmberAfDefinedEndpoint) :
  emAfEndpoints table !! k = Some e → first_at table k e.
Proof.
  intros Hk. split_and!; [done| |].
  - do 4 (destruct k as [|k]; [injection Hk as <-; vm_compute; congruence|]). done.
  - intros j e' Hlt Hj. do 4 (destruct k as [|k];
      [do 4 (destruct j as [|j]; [first [lia|injection Hk as <-; injection Hj as <-; vm_compute; congruence]|]); done|]).
    done.
Defined.

Example disable_2 :
  (fun r => (fst r, ep_log (snd r), gAttributeAccessOverrides (snd r))) <$>
    emberAfEndpointEnableDisable 4 table 2 false
  = Some (true, [ShutdownFunction 1 2; UnregisterCommandHandlers 2; ReportPartsList 1; ReportPartsList 0], []).
Proof. by vm_compute. Qed.

Lemma table_ranked : parents_ranked table (fun e => Z.to_nat e).
Proof.
  unfold parents_ranked, live_endpoints; simpl.
  repeat (constructor; [cbn [parentEndpointId endpoint entry]; intros H; first [by destruct H|vm_compute; repeat constructor]|]). constructor.
Defined.

(** The endpoint with a parent is disabled: its entry alone changes, its shutdown
    function runs, its override goes. *)
Lemma enable_disable_correct_witness :
  ∃ s' parents b', emberAfEndpointEnableDisable 3 table 2 false = Some (true, s') ∧
    emberAfEndpointIsEnabled s' 2 = Some false ∧ emberAfEndpointIsEnabled s' 1 = Some true ∧
    emAfEndpoints s' = <[2%nat := (entry 2 relay_type 1) <| bitmask := b' |>]> (emAfEndpoints table) ∧ Z.testbit b' 0 = false ∧
    gAttributeAccessOverrides s' = [] ∧
    ep_log s' = [ShutdownFunction 1 2; UnregisterCommandHandlers 2] ++ (ReportPartsList <$> parents) ++ [ReportPartsList 0].
Proof.
  destruct (enable_disable_correct table 2 (entry 2 relay_type 1) (fun e => Z.to_nat e) 3 false
    table_is_ok (first 2 _ eq_refl) table_ranked) as (s' & t & l & b' & E & _ & He & Hoth & Ht & _ & Hb & Htab & _ & Hov & Hlog);
    [vm_compute; repeat constructor|].
  exists s', l, b'. injection Ht as <-. split; [exact E|]. split; [exact He|].
  split; [rewrite (Hoth 1) by (vm_compute; congruence); reflexivity|]. split; [exact Htab|]. split; [exact (Hb 0 ltac:(lia))|].
  split; [rewrite Hov; reflexivity|]. rewrite Hlog. reflexivity.
Defined.

Lemma self_parent_diverges_witness :
  report_parents 100 3 (snd (SetParentEndpointForEndpoint table 3 3)) = None.
Proof.
  exact (proj2 (proj2 (proj2 (self_parent_diverges table 3 (entry 3 relay_type kInvalidEndpointId)
    table_is_ok (first 3 _ eq_refl) eq_refl))) 100%nat).
Defined.

Lemma set_flat_composition_disables_witness :
  emberAfEndpointIsEnabled (snd (SetFlatCompositionForEndpoint table 1)) 1 = Some false.
Proof.
  refine (proj1 (proj2 (proj2 (set_flat_composition_disables table 1 (entry 1 relay_type kInvalidEndpointId)
    table_is_ok (first 1 _ eq_refl) _ eq_refl)))). vm_compute. split; congruence.
Defined.

Lemma override_registry_correct_witness :
  GetAttributeAccessOverride table 2 6 = Some {| aai_addr := 1%nat; aai_endpoint := Some 2; aai_cluster := 6 |}.
Proof.
  assert (overrides_disjoint table) as Hd by repeat constructor.
  destruct (override_registry_correct table {| aai_addr := 2%nat; aai_endpoint := None; aai_cluster := 8 |}
    (fun _ => false) Hd) as (_ & _ & _ & Hfind & _).
  apply Hfind; [left; reflexivity|reflexivity].
Defined.

Lemma cluster_server_index_injective_witness : (0 ≠ 2) ∧ 0 ≤ 0 < 3 + Z.max 0 (4 - 4).
Proof.
  apply (cluster_server_index_injective 4 table 6 3 1 3 0 2 table_is_ok); try reflexivity; vm_compute; congruence.
Defined.
End Demo.
