(* ===== verification/ClusterQueries.v ===== *)
(** * ClusterQueries: walking the endpoints and their clusters

    The read-only queries of [src/src/app/util/attribute-storage.cpp] over the
    endpoint table (clusters of an endpoint by number, device types, the
    attribute-change callbacks of a cluster) and the iterator
    [EnabledEndpointsWithServerCluster].  The theorems relate them to list
    operations on the table. *)
From S2P Require Import Prelude Zcl EndpointTable.

(** ** Queries by endpoint *)
Definition emberAfContainsClient (s : endpoint_table) (ep : EndpointId) (id : ClusterId) : option bool :=
  let index := emberAfIndexFromEndpoint s ep in
  if index =? kEmberInvalidEndpointIndex then Some false
  else let! e := ep_at s index in
       let! t := endpointType e in
       Some (match emberAfFindClusterInType t id CLUSTER_MASK_CLIENT with Some _ => true | None => false end).

Definition emberAfFindEndpointType (s : endpoint_table) (ep : EndpointId) : option (option EmberAfEndpointType) :=
  let index := emberAfIndexFromEndpoint s ep in
  if index =? kEmberInvalidEndpointIndex then Some None
  else let! e := ep_at s index in Some (endpointType e).

Definition emberAfEndpointFromIndex (s : endpoint_table) (index : Z) : option EndpointId :=
  let! e := ep_at s index in Some (endpoint e).

Definition emberAfParentEndpointFromIndex (s : endpoint_table) (index : Z) : option EndpointId :=
  let! e := ep_at s index in Some (parentEndpointId e).

Definition emberAfClusterCountByIndex (s : endpoint_table) (index : Z) (server : bool) : option Z :=
  let! e := ep_at s index in
  Some (match endpointType e with
        | None => 0
        | Some t => emberAfClusterCountForEndpointType t server
        end).

Definition emberAfClusterCount (s : endpoint_table) (ep : EndpointId) (server : bool) : option Z :=
  let index := emberAfIndexFromEndpoint s ep in
  if index =? kEmberInvalidEndpointIndex then Some 0
  else emberAfClusterCountByIndex s index server.

(** The count of clusters is a [uint8_t]. *)
Definition emberAfGetClusterCountForEndpoint (s : endpoint_table) (ep : EndpointId) : option Z :=
  let index := emberAfIndexFromEndpoint s ep in
  if index =? kEmberInvalidEndpointIndex then Some 0
  else let! e := ep_at s index in
       let! t := endpointType e in Some (u8 (Z.of_nat (length (cluster t)))).

Definition emberAfGetClusterByIndex (s : endpoint_table) (ep : EndpointId) (clusterIndex : Z)
    : option (option EmberAfCluster) :=
  let endpointIndex := emberAfIndexFromEndpoint s ep in
  if endpointIndex =? kEmberInvalidEndpointIndex then Some None
  else let! e := ep_at s endpointIndex in
       let! t := endpointType e in Some (cluster t !! Z.to_nat clusterIndex).

Definition emberAfDeviceTypeListFromEndpoint (s : endpoint_table) (ep : EndpointId)
    : option (option (list (Z * Z))) :=
  let endpointIndex := emberAfIndexFromEndpoint s ep in
  if endpointIndex =? 0xFFFF then Some None
  else let! e := ep_at s endpointIndex in Some (Some (deviceTypeList e)).

Definition emberAfSetDeviceTypeList (s : endpoint_table) (ep : EndpointId) (l : list (Z * Z))
    : bool * endpoint_table :=
  let endpointIndex := emberAfIndexFromEndpoint s ep in
  if endpointIndex =? 0xFFFF then (false, s)
  else (true, set_ep (Z.to_nat endpointIndex) (fun e => e <| deviceTypeList := l |>) s).

(** The Nth server or client cluster; the counter is a [uint8_t]. *)
Definition polarity (server : bool) (c : EmberAfCluster) : bool :=
  (server && emberAfClusterIsServer c) || (negb server && emberAfClusterIsClient c).

Fixpoint nth_cluster (cs : list EmberAfCluster) (n : Z) (server : bool) (count : Z) : option EmberAfCluster :=
  match cs with
  | [] => None
  | c :: cs =>
      if polarity server c
      then if count =? n then Some c else nth_cluster cs n server (u8 (count + 1))
      else nth_cluster cs n server count
  end.

Definition emberAfGetNthCluster (s : endpoint_table) (ep : EndpointId) (n : Z) (server : bool)
    : option (option EmberAfCluster) :=
  let index := emberAfIndexFromEndpoint s ep in
  if index =? kEmberInvalidEndpointIndex then Some None
  else let! e := ep_at s index in
       let! t := endpointType e in Some (nth_cluster (cluster t) n server 0).

Definition emberAfGetNthClusterId (s : endpoint_table) (ep : EndpointId) (n : Z) (server : bool)
    : option (option ClusterId) :=
  let! c := emberAfGetNthCluster s ep n server in Some (clusterId <$> c).

(** Fills [clusterList] from [i] on; a write outside it is undefined. *)
Fixpoint fill_clusters (s : endpoint_table) (ep : EndpointId) (server : bool) (todo : nat) (i : Z)
    (clusterList : list ClusterId) : option (list ClusterId) :=
  match todo with
  | O => Some clusterList
  | S todo =>
      let! c := emberAfGetNthCluster s ep i server in
      if i <? Z.of_nat (length clusterList) then
        fill_clusters s ep server todo (i + 1)
          (<[Z.to_nat i := match c with None => kEmberInvalidEndpointIndex | Some c => clusterId c end]> clusterList)
      else None
  end.

Definition emberAfGetClustersFromEndpoint (s : endpoint_table) (ep : EndpointId)
    (clusterList : list ClusterId) (listLen : Z) (server : bool) : option (Z * list ClusterId) :=
  let! clusterCount := emberAfClusterCount s ep server in
  let clusterCount := if listLen <? clusterCount then listLen else clusterCount in
  let! l := fill_clusters s ep server (Z.to_nat clusterCount) 0 clusterList in
  Some (clusterCount, l).

Definition emberAfGetServerAttributeCount (s : endpoint_table) (ep : EndpointId) (id : ClusterId) : option Z :=
  let! c := emberAfFindServerCluster s ep id in
  Some (match c with None => 0 | Some c => u16 (Z.of_nat (length (attributes c))) end).

(** ** Cluster callbacks around an attribute change

    The changed callback of the cluster is recorded by its number, the
    pre-change callback is a parameter that gives its status. *)
Definition emAfClusterAttributeChangedCallback (s : endpoint_table) (ep : EndpointId) (id : ClusterId)
    : option (option nat) :=
  let! c := emberAfFindServerCluster s ep id in
  match c with
  | None => Some None
  | Some c => emberAfFindClusterFunction c CLUSTER_MASK_ATTRIBUTE_CHANGED_FUNCTION
  end.

Definition emAfClusterPreAttributeChangedCallback (s : endpoint_table) (call : nat → EmberAfStatus)
    (ep : EndpointId) (id : ClusterId) : option EmberAfStatus :=
  let! c := emberAfFindServerCluster s ep id in
  match c with
  | None =>
      let! enabled := emberAfEndpointIsEnabled s ep in
      Some (if negb enabled then EMBER_ZCL_STATUS_UNSUPPORTED_ENDPOINT else EMBER_ZCL_STATUS_UNSUPPORTED_CLUSTER)
  | Some c =>
      let! f := emberAfFindClusterFunction c CLUSTER_MASK_PRE_ATTRIBUTE_CHANGED_FUNCTION in
      Some (match f with Some f => call f | None => EMBER_ZCL_STATUS_SUCCESS end)
  end.

(** ** [EnabledEndpointsWithServerCluster] *)
Record enabled_iter := { mEndpointIndex : Z; mEndpointCount : Z; mClusterId : ClusterId }.

(** [EnsureMatchingEndpoint]; [fuel] bounds the loop. *)
Fixpoint EnsureMatchingEndpoint (fuel : nat) (s : endpoint_table) (it : enabled_iter) : option enabled_iter :=
  if mEndpointIndex it <? mEndpointCount it then
    match fuel with
    | O => None
    | S fuel =>
        let next := {| mEndpointIndex := u16 (mEndpointIndex it + 1); mEndpointCount := mEndpointCount it;
                       mClusterId := mClusterId it |} in
        let! enabled := emberAfEndpointIndexIsEnabled s (mEndpointIndex it) in
        if negb enabled then EnsureMatchingEndpoint fuel s next
        else let! has := emberAfContainsServerFromIndex s (mEndpointIndex it) (mClusterId it) in
             if has then Some it else EnsureMatchingEndpoint fuel s next
    end
  else Some it.

Definition EnabledEndpointsWithServerCluster (fuel : nat) (s : endpoint_table) (id : ClusterId) : option enabled_iter :=
  EnsureMatchingEndpoint fuel s
    {| mEndpointIndex := 0; mEndpointCount := emberEndpointCount s; mClusterId := id |}.

Definition iter_next (fuel : nat) (s : endpoint_table) (it : enabled_iter) : option enabled_iter :=
  EnsureMatchingEndpoint fuel s
    {| mEndpointIndex := u16 (mEndpointIndex it + 1); mEndpointCount := mEndpointCount it; mClusterId := mClusterId it |}.

(** [for (EndpointId ep : EnabledEndpointsWithServerCluster(id))]: the ids the
    range-based loop visits; [operator*] is [emberAfEndpointFromIndex]. *)
Fixpoint iter_collect (fuel : nat) (s : endpoint_table) (it : enabled_iter) : option (list EndpointId) :=
  if mEndpointIndex it =? mEndpointCount it then Some []
  else match fuel with
       | O => None
       | S fuel =>
           let! ep := emberAfEndpointFromIndex s (mEndpointIndex it) in
           let! it := iter_next (S fuel) s it in
           let! rest := iter_collect fuel s it in
           Some (ep :: rest)
       end.

Definition enabled_endpoints (fuel : nat) (s : endpoint_table) (id : ClusterId) : option (list EndpointId) :=
  let! it := EnabledEndpointsWithServerCluster fuel s id in iter_collect fuel s it.

(** ** The iterator visits the enabled endpoints of the cluster *)
Definition is_enabled (e : EmberAfDefinedEndpoint) : bool := flag_Has (bitmask e) isEnabled.
Definition serves (id : ClusterId) (e : EmberAfDefinedEndpoint) : Prop :=
  is_enabled e = true ∧ has_server id e = true.
#[export] Instance serves_dec id e : Decision (serves id e).
Proof. unfold serves. apply _. Defined.

Section iteration.
Context (s : endpoint_table) (id : ClusterId).
Context (Hok : table_ok s).
Context (Hvalid : Forall (fun e => is_enabled e = true → endpointType e ≠ None) (live_endpoints s)).

Definition at_index (i : nat) : enabled_iter :=
  {| mEndpointIndex := Z.of_nat i; mEndpointCount := emberEndpointCount s; mClusterId := id |}.

Lemma live_length : Z.of_nat (length (live_endpoints s)) = emberEndpointCount s.
Proof using Hok. destruct Hok as [Hc _ _]. unfold live_endpoints. rewrite length_take. lia. Qed.

Lemma live_length_u16 i : (i ≤ length (live_endpoints s))%nat → u16 (Z.of_nat i) = Z.of_nat i.
Proof using Hok.
  intros Hi. apply wrap_small. pose proof live_length. destruct Hok as [Hc Hm _].
  unfold kEmberInvalidEndpointIndex in Hm. unfold in_u. change (2 ^ 16) with 65536. lia.
Qed.

Lemma at_index_next i : (S i ≤ length (live_endpoints s))%nat → u16 (Z.of_nat i + 1) = Z.of_nat (S i).
Proof using Hok. intros Hi. rewrite <- (live_length_u16 (S i) Hi). f_equal. lia. Qed.

Lemma iter_next_at fuel i :
  (S i ≤ length (live_endpoints s))%nat →
  iter_next fuel s (at_index i) = EnsureMatchingEndpoint fuel s (at_index (S i)).
Proof using Hok.
  intros Hi. unfold iter_next, at_index. cbn [mEndpointIndex mEndpointCount mClusterId].
  by rewrite at_index_next.
Qed.

Lemma contains_server_at i e t :
  live_endpoints s !! i = Some e → endpointType e = Some t →
  emberAfContainsServerFromIndex s (Z.of_nat i) id = Some (has_server id e).
Proof using Hok.
  intros Hi Ht. unfold emberAfContainsServerFromIndex, has_server.
  pose proof (live_index_valid s i e Hok Hi) as Hv. rewrite Z.eqb_sym in Hv.
  by rewrite Hv, (ep_at_live _ _ _ Hi), Ht.
Qed.

Lemma ensure_spec fuel i :
  (i ≤ length (live_endpoints s) ≤ fuel + i)%nat →
  ∃ j, EnsureMatchingEndpoint fuel s (at_index i) = Some (at_index j) ∧ (i ≤ j ≤ length (live_endpoints s))%nat ∧
    filter (serves id) (drop i (live_endpoints s)) = filter (serves id) (drop j (live_endpoints s)) ∧
    (∀ e, live_endpoints s !! j = Some e → serves id e).
Proof using Hok Hvalid.
  revert i; induction fuel as [|fuel IH]; intros i Hi;
    destruct (decide (i = length (live_endpoints s))) as [->|Hne].
  1,3: exists (length (live_endpoints s)); split_and!; [|lia|lia|done|];
    [simpl; rewrite live_length, Z.ltb_irrefl; done|intros e He%lookup_lt_Some; lia].
  { lia. }
  destruct (lookup_lt_is_Some_2 (live_endpoints s) i) as [e He]; [lia|].
  assert (Hrec : ¬ serves id e →
    ∃ j, EnsureMatchingEndpoint fuel s (at_index (S i)) = Some (at_index j) ∧ (i ≤ j ≤ length (live_endpoints s))%nat ∧
      filter (serves id) (drop i (live_endpoints s)) = filter (serves id) (drop j (live_endpoints s)) ∧
      (∀ e, live_endpoints s !! j = Some e → serves id e)).
  { intros Hns. destruct (IH (S i)) as (j & Hj & Hb & Hf & Hs); [lia|].
    exists j. split_and!; [done|lia|lia| |done].
    rewrite (drop_S _ e i He), list.filter_cons, decide_False by done. done. }
  cbn [EnsureMatchingEndpoint at_index mEndpointIndex mEndpointCount mClusterId].
  destruct (Z.ltb_spec (Z.of_nat i) (emberEndpointCount s)) as [_|]; [|pose proof live_length; lia].
  rewrite at_index_next by lia. unfold emberAfEndpointIndexIsEnabled. rewrite (ep_at_live _ _ _ He).
  fold (is_enabled e). destruct (is_enabled e) eqn:Hen; simpl.
  - rewrite Forall_lookup in Hvalid. pose proof (Hvalid i e He Hen) as Ht.
    destruct (endpointType e) as [t|] eqn:Het; [|done].
    rewrite (contains_server_at i e t He Het). destruct (has_server id e) eqn:Hs.
    + exists i. split_and!; try done; try lia. intros e' He'. simplify_eq. done.
    + apply Hrec. unfold serves. rewrite Hs. naive_solver.
  - apply Hrec. unfold serves. rewrite Hen. naive_solver.
Qed.

Lemma collect_spec fuel i :
  (i ≤ length (live_endpoints s) ≤ fuel + i)%nat →
  (∀ e, live_endpoints s !! i = Some e → serves id e) →
  iter_collect fuel s (at_index i) = Some (endpoint <$> filter (serves id) (drop i (live_endpoints s))).
Proof using Hok Hvalid.
  revert i; induction fuel as [|fuel IH]; intros i Hi Hs;
    destruct (decide (i = length (live_endpoints s))) as [->|Hne].
  1,3: simpl; rewrite live_length, Z.eqb_refl, drop_all; done.
  { lia. }
  destruct (lookup_lt_is_Some_2 (live_endpoints s) i) as [e He]; [lia|].
  destruct (ensure_spec (S fuel) (S i)) as (j & Hj & Hb & Hf & Hsj); [lia|].
  cbn [iter_collect at_index mEndpointIndex mEndpointCount].
  destruct (Z.eqb_spec (Z.of_nat i) (emberEndpointCount s)) as [|_]; [pose proof live_length; lia|].
  unfold emberAfEndpointFromIndex. rewrite (ep_at_live _ _ _ He).
  rewrite iter_next_at, Hj by lia. rewrite IH by (done || lia).
  rewrite (drop_S _ e i He), list.filter_cons, decide_True by auto. by rewrite Hf.
Qed.
End iteration.

(** Ranging over [EnabledEndpointsWithServerCluster(id)] ends and visits
    exactly the enabled endpoints that have the server of the cluster, each once
    and in the order of the table. *)
Theorem enabled_endpoints_correct s id fuel :
  table_ok s →
  Forall (fun e => is_enabled e = true → endpointType e ≠ None) (live_endpoints s) →
  emberEndpointCount s ≤ Z.of_nat fuel →
  enabled_endpoints fuel s id = Some (endpoint <$> filter (serves id) (live_endpoints s)).
Proof.
  intros Hok Hv Hfuel. pose proof (live_length s Hok) as Hlen.
  destruct (ensure_spec s id Hok Hv fuel 0) as (j & Hj & Hb & Hf & Hs); [lia|].
  unfold enabled_endpoints. assert (EnabledEndpointsWithServerCluster fuel s id = Some (at_index s id j)) as -> by exact Hj.
  rewrite (collect_spec s id Hok Hv fuel j) by (done || lia). by rewrite <- Hf, drop_0.
Qed.

(** ** The clusters of an endpoint, by number *)
Definition of_polarity (server : bool) (t : EmberAfEndpointType) : list EmberAfCluster :=
  filter (fun c => is_true (polarity server c)) (cluster t).

Lemma count_polarity t server :
  (length (cluster t) < 256)%nat →
  emberAfClusterCountForEndpointType t server = Z.of_nat (length (of_polarity server t)).
Proof.
  intros Hl. unfold emberAfClusterCountForEndpointType, of_polarity.
  replace (filter (fun c => is_true (if server then _ else _)) (cluster t))
    with (filter (fun c => is_true (polarity server c)) (cluster t)).
  - pose proof (length_filter (fun c => is_true (polarity server c)) (cluster t)).
    apply wrap_small. unfold in_u. change (2 ^ 8) with 256. lia.
  - apply list_filter_iff. intros c. unfold polarity. by destruct server; simpl; rewrite ?orb_false_r.
Qed.

Lemma nth_cluster_spec cs n server k :
  0 ≤ k → k + Z.of_nat (length cs) < 256 → k ≤ n →
  nth_cluster cs n server k = filter (fun c => is_true (polarity server c)) cs !! Z.to_nat (n - k).
Proof.
  revert k; induction cs as [|c cs IH]; intros k Hk Hl Hn; [done|].
  cbn [nth_cluster length] in *. rewrite list.filter_cons.
  destruct (polarity server c).
  - rewrite decide_True by done. destruct (Z.eqb_spec k n) as [->|].
    + by rewrite Z.sub_diag.
    + rewrite wrap_small by (unfold in_u; change (2 ^ 8) with 256; lia).
      rewrite IH by lia. replace (Z.to_nat (n - k)) with (S (Z.to_nat (n - (k + 1)))) by lia. done.
  - rewrite decide_False by done. apply IH; lia.
Qed.

Section nth.
Context (s : endpoint_table) (k : nat) (e : EmberAfDefinedEndpoint) (t : EmberAfEndpointType) (server : bool).
Context (Hok : table_ok s) (Hf : first_at s k e) (Hen : is_enabled e = true)
        (Ht : endpointType e = Some t) (Hlen : (length (cluster t) < 256)%nat).

Lemma index_of_endpoint : emberAfIndexFromEndpoint s (endpoint e) = Z.of_nat k ∧
  (Z.of_nat k =? kEmberInvalidEndpointIndex) = false ∧ ep_at s (Z.of_nat k) = Some e.
Proof using Hok Hf Hen.
  split_and!; [by apply findIndex_first| |apply ep_at_live, Hf].
  rewrite Z.eqb_sym. apply (live_index_valid s k e Hok), Hf.
Qed.

Lemma get_nth i : 0 ≤ i →
  emberAfGetNthCluster s (endpoint e) i server = Some (of_polarity server t !! Z.to_nat i).
Proof using Hok Hf Hen Ht Hlen.
  intros Hi. destruct index_of_endpoint as (H1 & H2 & H3).
  unfold emberAfGetNthCluster. rewrite H1, H2, H3, Ht. f_equal.
  rewrite nth_cluster_spec by lia. by rewrite Z.sub_0_r.
Qed.

Lemma fill_spec todo i l :
  0 ≤ i → (Z.to_nat i + todo ≤ length (of_polarity server t))%nat → (Z.to_nat i + todo ≤ length l)%nat →
  fill_clusters s (endpoint e) server todo i l =
  Some (take (Z.to_nat i) l ++ (clusterId <$> take todo (drop (Z.to_nat i) (of_polarity server t)))
        ++ drop (Z.to_nat i + todo) l).
Proof using Hok Hf Hen Ht Hlen.
  revert i l; induction todo as [|todo IH]; intros i l Hi H1 H2.
  - simpl. rewrite Nat.add_0_r. by rewrite take_drop.
  - cbn [fill_clusters]. rewrite get_nth by done.
    destruct (lookup_lt_is_Some_2 (of_polarity server t) (Z.to_nat i)) as [c Hc]; [lia|].
    rewrite Hc. destruct (Z.ltb_spec i (Z.of_nat (length l))) as [Hlt|]; [|lia].
    rewrite IH by (rewrite ?length_insert; lia).
    replace (Z.to_nat (i + 1)) with (S (Z.to_nat i)) by lia. f_equal.
    rewrite (drop_S _ c (Z.to_nat i) Hc). cbn [take fmap list_fmap].
    rewrite drop_insert_lt by lia. replace (S (Z.to_nat i) + todo)%nat with (Z.to_nat i + S todo)%nat by lia.
    destruct (lookup_lt_is_Some_2 l (Z.to_nat i)) as [x Hx]; [lia|].
    erewrite take_S_r by (apply list_lookup_insert_eq; lia).
    rewrite take_insert_ge by lia. by rewrite <- app_assoc.
Qed.
End nth.

(** [emberAfGetClustersFromEndpoint] puts the ids of the server (or client)
    clusters of an enabled endpoint into the list in the order of the endpoint
    type, at most [listLen] of them, leaves the rest of the list alone, and
    returns how many it put. *)
Theorem clusters_from_endpoint_correct s k e t server l listLen :
  table_ok s → first_at s k e → is_enabled e = true → endpointType e = Some t →
  (length (cluster t) < 256)%nat → 0 ≤ listLen ≤ Z.of_nat (length l) →
  let n := Nat.min (Z.to_nat listLen) (length (of_polarity server t)) in
  emberAfGetClustersFromEndpoint s (endpoint e) l listLen server =
  Some (Z.of_nat n, (clusterId <$> take n (of_polarity server t)) ++ drop n l).
Proof.
  intros Hok Hf Hen Ht Hlen Hl n. unfold emberAfGetClustersFromEndpoint, emberAfClusterCount, emberAfClusterCountByIndex.
  destruct (index_of_endpoint s k e Hok Hf Hen) as (-> & -> & ->).
  rewrite Ht, count_polarity by done.
  replace (if _ <? _ then _ else _) with (Z.of_nat n) by (destruct (Z.ltb_spec listLen (Z.of_nat (length (of_polarity server t)))); lia).
  rewrite Nat2Z.id, (fill_spec s k e t server) by (done || simpl; lia). done.
Qed.

(** ** On the concrete table *)
Module QueriesDemo.
Lemma enabled_endpoints_correct_witness : enabled_endpoints 4 Demo.table 6 = Some [1; 2; 3].
Proof.
  rewrite (enabled_endpoints_correct Demo.table 6 4 Demo.table_is_ok); [reflexivity| |vm_compute; congruence].
  unfold live_endpoints; simpl. repeat (constructor; [intros _; simpl; congruence|]). constructor.
Defined.

Lemma clusters_from_endpoint_correct_witness :
  emberAfGetClustersFromEndpoint Demo.table 1 [7; 7; 7] 3 true = Some (2, [0x28; 6; 7]).
Proof.
  refine (clusters_from_endpoint_correct Demo.table 1 (Demo.entry 1 Demo.relay_type kInvalidEndpointId)
    Demo.relay_type true [7; 7; 7] 3 Demo.table_is_ok (Demo.first 1 _ eq_refl) eq_refl eq_refl _ _).
  - simpl; lia.
  - vm_compute; split; congruence.
Defined.
End QueriesDemo.
