(* ===== verification/Persistence.v ===== *)
(** * Persistence: non-volatile storage, from the flash to the attributes

    The storage stack of the firmware, bottom up: [BLConfig]
    ([src/src/platform/bouffalolab/common/BLConfig.cpp]) over the EasyFlash
    library, the key-value store manager ([KeyValueStoreManagerImpl.cpp]), the
    storage delegate ([KvsPersistentStorageDelegate.h]) and the attribute
    persistence provider ([src/src/app/DefaultAttributePersistenceProvider.cpp])
    with the keys of [DefaultStorageKeyAllocator.h].

    EasyFlash is not part of the repository: it is the class [EasyFlash], with
    its documented behaviour in [EasyFlashLaws].  A [char *] key is a [string];
    a buffer is the list of its bytes, [None] for a null pointer. *)
From Stdlib Require Import Ascii.
From S2P Require Import Prelude Zcl ChipError.

(** ** The flash library *)
Class EasyFlash (F : Type) := {
  ef_get_env : F → string → option bytes;
  ef_set_env_blob : F → string → bytes → bool * F;
  ef_del_env : F → string → bool * F;
  ef_env_set_default : F → F }.

(** [ef_set_env_blob] returns [EF_NO_ERR] when the value is stored; only the key
    it is given changes. *)
Class EasyFlashLaws (F : Type) `{EasyFlash F} := {
  ef_get_set : ∀ f k v f', ef_set_env_blob f k v = (true, f') → ef_get_env f' k = Some v;
  ef_get_set_ne : ∀ f k v b f' k', ef_set_env_blob f k v = (b, f') → k ≠ k' → ef_get_env f' k' = ef_get_env f k';
  ef_get_del : ∀ f k f', ef_del_env f k = (true, f') → ef_get_env f' k = None;
  ef_get_del_ne : ∀ f k b f' k', ef_del_env f k = (b, f') → k ≠ k' → ef_get_env f' k' = ef_get_env f k' }.

(** [ef_port_read]: reads [n] bytes at [off] of a value into a buffer. *)
Definition ef_port_read (v : bytes) (off : Z) (buf : bytes) (n : Z) : option bytes :=
  let! bs := mread v (Z.to_nat off) (Z.to_nat n) in mwrite buf 0 bs.

(** ** [BLConfig] *)
Section BLConfig.
Context {F : Type} `{EasyFlash F}.

(** [ReadConfigValue]: the error, the buffer and [readsize] afterwards. *)
Definition ReadConfigValue (f : F) (key : string) (val : option bytes) (size readsize : Z)
    : option (CHIP_ERROR * option bytes * Z) :=
  match ef_get_env f key with
  | Some v =>
      match val with
      | Some buf =>
          let value_len := Z.of_nat (length v) in
          let readsize := if size =? 0 then 0 else if value_len <? size then value_len else size in
          let! buf := ef_port_read v 0 buf readsize in
          Some (CHIP_NO_ERROR, Some buf, readsize)
      | None => Some (CHIP_NO_ERROR, None, 0)
      end
  | None => Some (CHIP_DEVICE_ERROR_CONFIG_NOT_FOUND, val, readsize)
  end.

(** The overloads for [bool], [uint32_t] and [uint64_t]: the value read over the
    [n] bytes of the old value. *)
Definition ReadConfigValue_int (f : F) (key : string) (n : nat) (val : Z) : option (CHIP_ERROR * Z) :=
  let! r := ReadConfigValue f key (Some (le_bytes n val)) (Z.of_nat n) 0 in
  match r with
  | (err, Some buf, _) => Some (err, le_val buf)
  | (err, None, _) => Some (err, val)
  end.

Definition ReadConfigValueStr (f : F) (key : string) (buf : option bytes) (bufSize outLen : Z)
    : option (CHIP_ERROR * option bytes * Z) :=
  let! r := ReadConfigValue f key buf bufSize 0 in
  match r with
  | (CHIP_NO_ERROR, buf, readlen) =>
      if negb (readlen =? 0) && (readlen <? bufSize)
      then let! b := buf in let! b := mwrite b (Z.to_nat readlen) [0] in
           Some (CHIP_NO_ERROR, Some b, readlen)
      else Some (CHIP_NO_ERROR, buf, readlen)
  | (_, buf, _) => Some (CHIP_DEVICE_ERROR_CONFIG_NOT_FOUND, buf, outLen)
  end.

Definition ReadConfigValueBin (f : F) (key : string) (buf : option bytes) (bufSize outLen : Z)
    : option (CHIP_ERROR * option bytes * Z) :=
  let! r := ReadConfigValue f key buf bufSize 0 in
  match r with
  | (CHIP_NO_ERROR, buf, readlen) => Some (CHIP_NO_ERROR, buf, readlen)
  | (_, buf, _) => Some (CHIP_DEVICE_ERROR_CONFIG_NOT_FOUND, buf, outLen)
  end.

(** [WriteConfigValue] and [WriteKVS]: an empty value is not passed on. *)
Definition write_blob (f : F) (key : string) (val : option bytes) (size : Z) : option (CHIP_ERROR * F) :=
  let! r := match val with
            | Some v => if negb (size =? 0)
                        then let! bs := mread v 0 (Z.to_nat size) in Some (ef_set_env_blob f key bs)
                        else Some (true, f)
            | None => Some (true, f)
            end in
  Some (if fst r then CHIP_NO_ERROR else CHIP_ERROR_PERSISTED_STORAGE_FAILED, snd r).

Definition WriteConfigValue (f : F) (key : string) (val : option bytes) (size : Z) : option (CHIP_ERROR * F) :=
  write_blob f key val size.

Definition WriteConfigValue_int (f : F) (key : string) (n : nat) (val : Z) : option (CHIP_ERROR * F) :=
  WriteConfigValue f key (Some (le_bytes n val)) (Z.of_nat n).

(** [str] is the characters before the terminator. *)
Definition WriteConfigValueStr (f : F) (key : string) (str : bytes) : option (CHIP_ERROR * F) :=
  WriteConfigValue f key (Some (str ++ [0])) (Z.of_nat (length str) + 1).

Definition ClearConfigValue (f : F) (key : string) : CHIP_ERROR * F :=
  let r := ef_del_env f key in
  (if fst r then CHIP_NO_ERROR else CHIP_DEVICE_ERROR_CONFIG_NOT_FOUND, snd r).

Definition FactoryResetConfig (f : F) : CHIP_ERROR * F := (CHIP_NO_ERROR, ef_env_set_default f).

Definition ConfigValueExists (f : F) (key : string) : bool :=
  match ef_get_env f key with Some _ => true | None => false end.

Definition ReadKVS (f : F) (key : string) (value : option bytes) (value_size : Z)
    (read_bytes_size : option Z) (offset_bytes : Z) : option (CHIP_ERROR * option bytes * option Z) :=
  match ef_get_env f key with
  | Some v =>
      let value_len := Z.of_nat (length v) in
      if value_len <? offset_bytes then Some (CHIP_ERROR_INVALID_ARGUMENT, value, read_bytes_size)
      else
        let datalen := value_len - offset_bytes in
        match value with
        | Some buf =>
            if negb (value_size =? 0) then
              let read_len := if datalen <? value_size then datalen else value_size in
              let! buf := ef_port_read v offset_bytes buf read_len in
              Some (CHIP_NO_ERROR, Some buf, (fun _ => read_len) <$> read_bytes_size)
            else Some (CHIP_NO_ERROR, value, (fun _ => 0) <$> read_bytes_size)
        | None => Some (CHIP_NO_ERROR, None, (fun _ => 0) <$> read_bytes_size)
        end
  | None => Some (CHIP_DEVICE_ERROR_CONFIG_NOT_FOUND, value, read_bytes_size)
  end.

Definition WriteKVS (f : F) (key : string) (value : option bytes) (value_size : Z) : option (CHIP_ERROR * F) :=
  write_blob f key value value_size.

Definition ClearKVS (f : F) (key : string) : CHIP_ERROR * F := (CHIP_NO_ERROR, snd (ef_del_env f key)).

(** ** [KeyValueStoreManagerImpl] *)
Definition kvs_Get (f : F) (key : string) (value : option bytes) (value_size : Z)
    (read_bytes_size : option Z) (offset_bytes : Z) : option (CHIP_ERROR * option bytes * option Z) :=
  let! r := ReadKVS f key value value_size read_bytes_size offset_bytes in
  match r with
  | (err, value, n) =>
      Some (match err with
            | CHIP_DEVICE_ERROR_CONFIG_NOT_FOUND => CHIP_ERROR_PERSISTED_STORAGE_VALUE_NOT_FOUND
            | err => err
            end, value, n)
  end.
Definition kvs_Put (f : F) (key : string) (value : option bytes) (value_size : Z) : option (CHIP_ERROR * F) :=
  WriteKVS f key value value_size.
Definition kvs_Delete (f : F) (key : string) : CHIP_ERROR * F := ClearKVS f key.
End BLConfig.

(** ** The storage delegate interface ([CHIPPersistentStorageDelegate.h])

    [SyncGetKeyValue d key buffer size] gives the error, the buffer and the
    size afterwards; [None] is an access outside the buffer. *)
Class PersistentStorageDelegate (D : Type) := {
  SyncGetKeyValue : D → string → option bytes → Z → option (CHIP_ERROR * option bytes * Z);
  SyncSetKeyValue : D → string → option bytes → Z → option (CHIP_ERROR * D);
  SyncDeleteKeyValue : D → string → CHIP_ERROR * D }.

(** What the clients below rely on: a stored value that is not empty is read
    back into a buffer that holds it, the other keys keep their values, and
    storing a whole buffer is always defined. *)
Class PersistentStorageLaws (D : Type) `{PersistentStorageDelegate D} := {
  psd_get_set : ∀ d k v d' buf,
    SyncSetKeyValue d k (Some v) (Z.of_nat (length v)) = Some (CHIP_NO_ERROR, d') → v ≠ [] →
    (length v ≤ length buf)%nat → Z.of_nat (length buf) ≤ 65535 →
    SyncGetKeyValue d' k (Some buf) (Z.of_nat (length buf)) =
    Some (CHIP_NO_ERROR, Some (v ++ drop (length v) buf), Z.of_nat (length v));
  psd_get_set_ne : ∀ d k v n err d' k' buf size,
    SyncSetKeyValue d k v n = Some (err, d') → k ≠ k' →
    SyncGetKeyValue d' k' buf size = SyncGetKeyValue d k' buf size;
  psd_set_total : ∀ d k v, is_Some (SyncSetKeyValue d k (Some v) (Z.of_nat (length v))) }.

(** [SyncDoesKeyExist] *)
Definition SyncDoesKeyExist {D} `{PersistentStorageDelegate D} (d : D) (key : string) : option bool :=
  let! r := SyncGetKeyValue d key None 0 in
  Some (match fst (fst r) with CHIP_ERROR_BUFFER_TOO_SMALL | CHIP_NO_ERROR => true | _ => false end).

(** ** [KvsPersistentStorageDelegate] *)
Record KvsPersistentStorageDelegate (F : Type) := { mKvsManager : option F }.
#[global] Arguments mKvsManager {F} _.

Section kvs_delegate.
Context {F : Type} `{EasyFlash F}.
Implicit Types d : KvsPersistentStorageDelegate F.

Definition kvs_SyncGet d (key : string) (buffer : option bytes) (size : Z)
    : option (CHIP_ERROR * option bytes * Z) :=
  match mKvsManager d with
  | None => Some (CHIP_ERROR_INCORRECT_STATE, buffer, size)
  | Some f =>
      match buffer with
      | None =>
          if negb (size =? 0) then Some (CHIP_ERROR_INVALID_ARGUMENT, buffer, size)
          else
            let! r := kvs_Get f key (Some [0]) size (Some 0) 0 in
            match r with
            | (err, _, n) =>
                Some (err, None, match err with
                  | CHIP_ERROR_BUFFER_TOO_SMALL | CHIP_NO_ERROR => if decide (in_u 16 (default 0 n)) then default 0 n else 0
                  | _ => size
                  end)
            end
      | Some buf =>
          let! r := kvs_Get f key (Some buf) size (Some 0) 0 in
          match r with
          | (err, buf, n) =>
              Some (err, buf, match err with
                | CHIP_ERROR_BUFFER_TOO_SMALL | CHIP_NO_ERROR => if decide (in_u 16 (default 0 n)) then default 0 n else 0
                | _ => size
                end)
          end
      end
  end.

Definition kvs_SyncSet d (key : string) (value : option bytes) (size : Z)
    : option (CHIP_ERROR * KvsPersistentStorageDelegate F) :=
  match mKvsManager d with
  | None => Some (CHIP_ERROR_INCORRECT_STATE, d)
  | Some f =>
      let put value :=
        let! r := kvs_Put f key (Some value) size in Some (fst r, {| mKvsManager := Some (snd r) |}) in
      match value with
      | None => if size =? 0 then put [0] else Some (CHIP_ERROR_INVALID_ARGUMENT, d)
      | Some value => put value
      end
  end.

Definition kvs_SyncDelete d (key : string) : CHIP_ERROR * KvsPersistentStorageDelegate F :=
  match mKvsManager d with
  | None => (CHIP_ERROR_INCORRECT_STATE, d)
  | Some f => let r := kvs_Delete f key in (fst r, {| mKvsManager := Some (snd r) |})
  end.

#[export] Instance kvs_delegate : PersistentStorageDelegate (KvsPersistentStorageDelegate F) := {|
  SyncGetKeyValue := kvs_SyncGet; SyncSetKeyValue := kvs_SyncSet; SyncDeleteKeyValue := kvs_SyncDelete |}.
End kvs_delegate.

(** ** [TestPersistentStorageDelegate] ([lib/support/TestPersistentStorageDelegate.h])

    The delegate of the unit tests: a map, with keys that must not be used. *)
Record TestPersistentStorageDelegate := {
  mStorage : gmap string bytes;
  mPoisonKeys : gset string }.

Definition test_SyncGet (d : TestPersistentStorageDelegate) (key : string) (buffer : option bytes) (size : Z)
    : option (CHIP_ERROR * option bytes * Z) :=
  if match buffer with None => negb (size =? 0) | Some _ => false end
  then Some (CHIP_ERROR_INVALID_ARGUMENT, buffer, size)
  else if decide (key ∈ mPoisonKeys d) then Some (CHIP_ERROR_PERSISTED_STORAGE_FAILED, buffer, size)
  else match mStorage d !! key with
       | None => Some (CHIP_ERROR_PERSISTED_STORAGE_VALUE_NOT_FOUND, buffer, size)
       | Some value =>
           let valueSize := Z.of_nat (length value) in
           if negb (bool_decide (in_u 16 valueSize)) then Some (CHIP_ERROR_PERSISTED_STORAGE_FAILED, buffer, size)
           else if (size =? 0) && (valueSize =? 0) then Some (CHIP_NO_ERROR, buffer, size)
           else match buffer with
                | None => Some (CHIP_ERROR_BUFFER_TOO_SMALL, buffer, size)
                | Some buf =>
                    let size := Z.min size valueSize in
                    let! buf := mwrite buf 0 (take (Z.to_nat size) value) in
                    Some (if size <? valueSize then CHIP_ERROR_BUFFER_TOO_SMALL else CHIP_NO_ERROR, Some buf, size)
                end
       end.

Definition test_SyncSet (d : TestPersistentStorageDelegate) (key : string) (value : option bytes) (size : Z)
    : option (CHIP_ERROR * TestPersistentStorageDelegate) :=
  let put v := Some (CHIP_NO_ERROR, {| mStorage := <[key := v]> (mStorage d); mPoisonKeys := mPoisonKeys d |}) in
  if decide (key ∈ mPoisonKeys d) then Some (CHIP_ERROR_PERSISTED_STORAGE_FAILED, d)
  else match value with
       | None => if size =? 0 then put [] else Some (CHIP_ERROR_INVALID_ARGUMENT, d)
       | Some v => let! bs := mread v 0 (Z.to_nat size) in put bs
       end.

Definition test_SyncDelete (d : TestPersistentStorageDelegate) (key : string)
    : CHIP_ERROR * TestPersistentStorageDelegate :=
  if decide (key ∈ mPoisonKeys d) then (CHIP_ERROR_PERSISTED_STORAGE_FAILED, d)
  else match mStorage d !! key with
       | None => (CHIP_ERROR_PERSISTED_STORAGE_VALUE_NOT_FOUND, d)
       | Some _ => (CHIP_NO_ERROR, {| mStorage := delete key (mStorage d); mPoisonKeys := mPoisonKeys d |})
       end.

#[export] Instance test_delegate : PersistentStorageDelegate TestPersistentStorageDelegate := {|
  SyncGetKeyValue := test_SyncGet; SyncSetKeyValue := test_SyncSet; SyncDeleteKeyValue := test_SyncDelete |}.

(** ** Storage keys ([DefaultStorageKeyAllocator.h]) *)
Definition hex_digit (d : Z) : Ascii.ascii :=
  Ascii.ascii_of_nat (Z.to_nat (if d <? 10 then 48 + d else 87 + d)).

(** printf's [%x]: at most [fuel] digits before [acc]. *)
Fixpoint hex_go (fuel : nat) (n : Z) (acc : string) : string :=
  match fuel with
  | O => acc
  | S fuel =>
      let acc := String (hex_digit (n mod 16)) acc in
      if n / 16 =? 0 then acc else hex_go fuel (n / 16) acc
  end.
Definition to_hex (n : Z) : string := hex_go 16 n "".

Definition kKeyLengthMax : nat := 32.

(** [StorageKeyName::Formatted]: what [vsnprintf] leaves in the buffer. *)
Definition Formatted (s : string) : string := String.substring 0 kKeyLengthMax s.

Definition AttributeValue (ep : EndpointId) (cl : ClusterId) (attr : AttributeId) : string :=
  Formatted ("g/a/" +:+ to_hex ep +:+ "/" +:+ to_hex cl +:+ "/" +:+ to_hex attr).
Definition SafeAttributeValue (ep : EndpointId) (cl : ClusterId) (attr : AttributeId) : string :=
  Formatted ("g/sa/" +:+ to_hex ep +:+ "/" +:+ to_hex cl +:+ "/" +:+ to_hex attr).

(** ** String lengths ([src/src/app/util/message.cpp]) *)
Definition emberAfStringLength (buffer : bytes) : option Z :=
  let! b := buffer !! 0%nat in Some (if b =? 0xFF then 0 else b).
Definition emberAfLongStringLength (buffer : bytes) : option Z :=
  let! bs := mread buffer 0 2 in
  let len := le_val bs in Some (if len =? 0xFFFF then 0 else len).

(** ** The attribute persistence provider ([AttributePersistenceProvider.h])

    [ReadValue p path type size buffer]: the error, the buffer and its reduced
    size. *)
Record attribute_path := { path_ep : EndpointId; path_cl : ClusterId; path_attr : AttributeId }.
#[export] Instance attribute_path_eq_dec : EqDecision attribute_path.
Proof. solve_decision. Defined.

Definition path_ok (p : attribute_path) : Prop :=
  in_u 16 (path_ep p) ∧ in_u 32 (path_cl p) ∧ in_u 32 (path_attr p).

Class AttributePersistenceProvider (P : Type) := {
  WriteValue : P → attribute_path → bytes → option (CHIP_ERROR * P);
  ReadValue : P → attribute_path → Z → Z → bytes → option (CHIP_ERROR * bytes * Z) }.

(** A value as the attribute store writes it: a string is its length and its
    bytes, any other value has the size of the attribute. *)
Definition value_ok (type size : Z) (v : bytes) : Prop :=
  if emberAfIsStringAttributeType type then
    ∃ len, emberAfStringLength v = Some len ∧ len + 1 = Z.of_nat (length v)
  else if emberAfIsLongStringAttributeType type then
    ∃ len, emberAfLongStringLength v = Some len ∧ len + 2 = Z.of_nat (length v)
  else Z.of_nat (length v) = size.

Class AttributePersistenceLaws (P : Type) `{AttributePersistenceProvider P} := {
  app_read_write : ∀ p path type size v p' buf,
    WriteValue p path v = Some (CHIP_NO_ERROR, p') → path_ok path → value_ok type size v → v ≠ [] →
    (length v ≤ length buf)%nat → Z.of_nat (length buf) ≤ 65535 →
    ReadValue p' path type size buf =
    Some (CHIP_NO_ERROR, v ++ drop (length v) buf, Z.of_nat (length v));
  app_read_write_ne : ∀ p path v err p' path' type size buf,
    WriteValue p path v = Some (err, p') → path_ok path → path_ok path' → path ≠ path' →
    ReadValue p' path' type size buf = ReadValue p path' type size buf;
  app_write_total : ∀ p path v, is_Some (WriteValue p path v) }.

(** ** [DefaultAttributePersistenceProvider] *)
Record DefaultAttributePersistenceProvider (D : Type) := { provider_storage : option D }.
#[global] Arguments provider_storage {D} _.

Section provider.
Context {D : Type} `{PersistentStorageDelegate D}.
Implicit Types p : DefaultAttributePersistenceProvider D.

Definition InternalWriteValue p (aKey : string) (aValue : bytes)
    : option (CHIP_ERROR * DefaultAttributePersistenceProvider D) :=
  match provider_storage p with
  | None => Some (CHIP_ERROR_INCORRECT_STATE, p)
  | Some d =>
      if 65535 <? Z.of_nat (length aValue) then Some (CHIP_ERROR_BUFFER_TOO_SMALL, p)
      else let! r := SyncSetKeyValue d aKey (Some aValue) (Z.of_nat (length aValue)) in
           Some (fst r, {| provider_storage := Some (snd r) |})
  end.

Definition InternalReadValue p (aKey : string) (aType aSize : Z) (aValue : bytes)
    : option (CHIP_ERROR * bytes * Z) :=
  let unread := Z.of_nat (length aValue) in
  match provider_storage p with
  | None => Some (CHIP_ERROR_INCORRECT_STATE, aValue, unread)
  | Some d =>
      let! r := SyncGetKeyValue d aKey (Some aValue) (Z.min (Z.of_nat (length aValue)) 65535) in
      match r with
      | (CHIP_NO_ERROR, Some data, size) =>
          if emberAfIsStringAttributeType aType then
            let! len := emberAfStringLength data in
            Some (if len + 1 <=? size then (CHIP_NO_ERROR, data, size)
                  else (CHIP_ERROR_INCORRECT_STATE, data, unread))
          else if emberAfIsLongStringAttributeType aType then
            let! len := emberAfLongStringLength data in
            Some (if len + 2 <=? size then (CHIP_NO_ERROR, data, size)
                  else (CHIP_ERROR_INCORRECT_STATE, data, unread))
          else Some (if size =? aSize then (CHIP_NO_ERROR, data, size)
                     else (CHIP_ERROR_INVALID_ARGUMENT, data, unread))
      | (err, data, _) => Some (err, default aValue data, unread)
      end
  end.

Definition Default_WriteValue p (aPath : attribute_path) (aValue : bytes)
    : option (CHIP_ERROR * DefaultAttributePersistenceProvider D) :=
  InternalWriteValue p (AttributeValue (path_ep aPath) (path_cl aPath) (path_attr aPath)) aValue.
Definition Default_ReadValue p (aPath : attribute_path) (aType aSize : Z) (aValue : bytes)
    : option (CHIP_ERROR * bytes * Z) :=
  InternalReadValue p (AttributeValue (path_ep aPath) (path_cl aPath) (path_attr aPath)) aType aSize aValue.
Definition SafeWriteValue p (aPath : attribute_path) (aValue : bytes)
    : option (CHIP_ERROR * DefaultAttributePersistenceProvider D) :=
  InternalWriteValue p (SafeAttributeValue (path_ep aPath) (path_cl aPath) (path_attr aPath)) aValue.
Definition SafeReadValue p (aPath : attribute_path) (aValue : bytes) : option (CHIP_ERROR * bytes * Z) :=
  InternalReadValue p (SafeAttributeValue (path_ep aPath) (path_cl aPath) (path_attr aPath)) 0x20
    (Z.of_nat (length aValue)) aValue.

#[export] Instance default_provider : AttributePersistenceProvider (DefaultAttributePersistenceProvider D) := {|
  WriteValue := Default_WriteValue; ReadValue := Default_ReadValue |}.
End provider.

(** ** Keys are distinct *)
Definition digit_val (c : Ascii.ascii) : Z :=
  let n := Z.of_nat (Ascii.nat_of_ascii c) in if n <? 58 then n - 48 else n - 87.
Fixpoint of_hex_go (s : string) (v : Z) : Z :=
  match s with
  | EmptyString => v
  | String c s => of_hex_go s (v * 16 + digit_val c)
  end.

Fixpoint no_slash (s : string) : Prop :=
  match s with
  | EmptyString => True
  | String c s => c ≠ "/"%char ∧ no_slash s
  end.

Lemma hex_digit_facts d : 0 ≤ d < 16 → digit_val (hex_digit d) = d ∧ hex_digit d ≠ "/"%char.
Proof.
  intros Hd. assert (d = 0 ∨ d = 1 ∨ d = 2 ∨ d = 3 ∨ d = 4 ∨ d = 5 ∨ d = 6 ∨ d = 7 ∨ d = 8 ∨ d = 9 ∨ d = 10 ∨
    d = 11 ∨ d = 12 ∨ d = 13 ∨ d = 14 ∨ d = 15) as H by lia.
  repeat (destruct H as [->|H]; [by vm_compute|]). subst. by vm_compute.
Qed.

Lemma of_hex_hex fuel n acc : 0 ≤ n < 16 ^ Z.of_nat fuel → of_hex_go (hex_go fuel n acc) 0 = of_hex_go acc n.
Proof.
  revert n acc; induction fuel as [|fuel IH]; intros n acc Hn.
  - simpl in *. f_equal. lia.
  - rewrite Nat2Z.inj_succ, Z.pow_succ_r in Hn by lia. cbn [hex_go].
    pose proof (Z.mod_pos_bound n 16 ltac:(lia)) as Hm. pose proof (Z.div_mod n 16 ltac:(lia)) as Hd.
    destruct (hex_digit_facts _ Hm) as [Hv _].
    destruct (Z.eqb_spec (n / 16) 0) as [E|E].
    + cbn [of_hex_go]. rewrite Hv. f_equal. lia.
    + rewrite IH by (split; [apply Z.div_pos; lia|apply Z.div_lt_upper_bound; lia]).
      cbn [of_hex_go]. rewrite Hv. f_equal. lia.
Qed.

Lemma hex_go_no_slash fuel n acc : 0 ≤ n → no_slash acc → no_slash (hex_go fuel n acc).
Proof.
  revert n acc; induction fuel as [|fuel IH]; intros n acc Hn Ha; [done|]. cbn [hex_go].
  assert (no_slash (String (hex_digit (n mod 16)) acc)) as Hs.
  { split; [|done]. by apply hex_digit_facts, Z.mod_pos_bound. }
  case_match; [done|]. apply IH; [|done]. apply Z.div_pos; lia.
Qed.

Lemma hex_go_length fuel n acc k : 0 ≤ n < 16 ^ Z.of_nat (S k) →
  (String.length (hex_go fuel n acc) ≤ S k + String.length acc)%nat.
Proof.
  revert n acc k; induction fuel as [|fuel IH]; intros n acc k Hn; [simpl; lia|]. cbn [hex_go].
  destruct (Z.eqb_spec (n / 16) 0) as [E|E]; [simpl; lia|].
  rewrite Nat2Z.inj_succ, Z.pow_succ_r in Hn by lia. destruct k as [|k].
  - exfalso. apply E. apply Z.div_small. simpl in Hn. lia.
  - etrans; [apply (IH _ _ k)|simpl; lia].
    split; [apply Z.div_pos; lia|apply Z.div_lt_upper_bound; lia].
Qed.

Lemma to_hex_inj n m : in_u 32 n → in_u 32 m → to_hex n = to_hex m → n = m.
Proof.
  intros Hn Hm E. unfold in_u in *. assert (2 ^ 32 < 16 ^ Z.of_nat 16) by (vm_compute; reflexivity).
  pose proof (of_hex_hex 16 n "" ltac:(lia)) as H1. pose proof (of_hex_hex 16 m "" ltac:(lia)) as H2.
  fold (to_hex n) in H1. fold (to_hex m) in H2. rewrite E, H2 in H1. by simpl in H1.
Qed.

Lemma to_hex_no_slash n : 0 ≤ n → no_slash (to_hex n).
Proof. intros. by apply hex_go_no_slash. Qed.

Lemma to_hex_length n k : 0 ≤ n < 16 ^ Z.of_nat (S k) → (String.length (to_hex n) ≤ S k)%nat.
Proof. intros. unfold to_hex. etrans; [by apply (hex_go_length _ _ _ k)|simpl; lia]. Qed.

Lemma sapp_nil s : "" +:+ s = s.
Proof. done. Qed.
Lemma sapp_cons c s t : String c s +:+ t = String c (s +:+ t).
Proof. done. Qed.

Lemma app_slash_inj a b x y : no_slash a → no_slash b → a +:+ "/" +:+ x = b +:+ "/" +:+ y → a = b ∧ x = y.
Proof.
  revert b; induction a as [|c a IH]; intros b Ha Hb E; destruct b as [|c' b];
    repeat first [rewrite sapp_nil in E | rewrite sapp_cons in E]; cbn [no_slash] in *.
  - by injection E as ->.
  - destruct Hb as [Hc _]. injection E as <- _. done.
  - destruct Ha as [Hc _]. injection E as -> _. done.
  - injection E as -> E. destruct (IH b) as [-> ->]; naive_solver.
Qed.

Lemma substring_all s n : (String.length s ≤ n)%nat → String.substring 0 n s = s.
Proof. revert n; induction s as [|c s IH]; intros [|n] Hn; simpl in *; try done; [lia|]. f_equal. apply IH. lia. Qed.

Lemma length_sapp a b : String.length (a +:+ b) = (String.length a + String.length b)%nat.
Proof. induction a as [|c a IH]; [done|]. rewrite sapp_cons. simpl. by rewrite IH. Qed.

(** No key of a valid path is cut to the buffer. *)
Lemma key_length prefix p : path_ok p → (String.length prefix ≤ 5)%nat →
  Formatted (prefix +:+ to_hex (path_ep p) +:+ "/" +:+ to_hex (path_cl p) +:+ "/" +:+ to_hex (path_attr p)) =
  prefix +:+ to_hex (path_ep p) +:+ "/" +:+ to_hex (path_cl p) +:+ "/" +:+ to_hex (path_attr p).
Proof.
  intros (He & Hc & Ha) Hp. apply substring_all. rewrite !length_sapp. unfold kKeyLengthMax.
  pose proof (to_hex_length (path_ep p) 3 He). pose proof (to_hex_length (path_cl p) 7 Hc).
  pose proof (to_hex_length (path_attr p) 7 Ha). simpl. lia.
Qed.

Lemma path_key_inj prefix p q : path_ok p → path_ok q → (String.length prefix ≤ 5)%nat →
  Formatted (prefix +:+ to_hex (path_ep p) +:+ "/" +:+ to_hex (path_cl p) +:+ "/" +:+ to_hex (path_attr p)) =
  Formatted (prefix +:+ to_hex (path_ep q) +:+ "/" +:+ to_hex (path_cl q) +:+ "/" +:+ to_hex (path_attr q)) →
  p = q.
Proof.
  intros Hp Hq Hl. rewrite !key_length by done. intros E.
  assert (∀ a b c : string, a +:+ b = a +:+ c → b = c) as Hinj
    by (intros a; induction a as [|x a IH]; intros b c Hbc; [done|]; apply IH; by injection Hbc).
  apply Hinj in E. destruct Hp as (He & Hc & Ha), Hq as (He' & Hc' & Ha').
  assert (∀ x, in_u 16 x → in_u 32 x) as Hw by (unfold in_u; change (2 ^ 16) with 65536; change (2 ^ 32) with 4294967296; lia).
  unfold in_u in *.
  apply app_slash_inj in E as [E1 E]; [|apply to_hex_no_slash; lia..].
  apply app_slash_inj in E as [E2 E3]; [|apply to_hex_no_slash; lia..].
  apply to_hex_inj in E1, E2, E3; try done; try (apply Hw; done). destruct p, q; simpl in *; congruence.
Qed.

Definition AttributeKey (p : attribute_path) : string := AttributeValue (path_ep p) (path_cl p) (path_attr p).
Definition SafeAttributeKey (p : attribute_path) : string := SafeAttributeValue (path_ep p) (path_cl p) (path_attr p).

Lemma AttributeKey_inj p q : path_ok p → path_ok q → AttributeKey p = AttributeKey q → p = q.
Proof. intros Hp Hq E. apply (path_key_inj "g/a/"); [done|done|simpl; lia|exact E]. Qed.

(** The storage keys of attributes are a faithful name: two attribute paths
    with the same key are the same path, for the plain and for the safe key
    space, no plain key is a safe key, and no key is cut by the key buffer. *)
Theorem attribute_keys_distinct p q :
  path_ok p → path_ok q →
  (AttributeKey p = AttributeKey q → p = q) ∧
  (SafeAttributeKey p = SafeAttributeKey q → p = q) ∧
  AttributeKey p ≠ SafeAttributeKey q ∧
  (String.length (AttributeKey p) ≤ 26 ∧ String.length (SafeAttributeKey p) ≤ 27)%nat.
Proof.
  intros Hp Hq. split_and!.
  - by apply AttributeKey_inj.
  - intros E. apply (path_key_inj "g/sa/"); [done|done|simpl; lia|exact E].
  - unfold AttributeKey, SafeAttributeKey, AttributeValue, SafeAttributeValue.
    rewrite !key_length by (done || simpl; lia). discriminate.
  - unfold AttributeKey, AttributeValue. rewrite key_length by (done || simpl; lia). rewrite !length_sapp.
    destruct Hp as (He & Hc & Ha). pose proof (to_hex_length (path_ep p) 3 He).
    pose proof (to_hex_length (path_cl p) 7 Hc). pose proof (to_hex_length (path_attr p) 7 Ha). simpl. lia.
  - unfold SafeAttributeKey, SafeAttributeValue. rewrite key_length by (done || simpl; lia). rewrite !length_sapp.
    destruct Hp as (He & Hc & Ha). pose proof (to_hex_length (path_ep p) 3 He).
    pose proof (to_hex_length (path_cl p) 7 Hc). pose proof (to_hex_length (path_attr p) 7 Ha). simpl. lia.
Qed.

(** ** The delegates keep the storage laws *)
Lemma mread_all (v : bytes) n : n = length v → mread v 0 n = Some v.
Proof. intros ->. apply mread_Some. split; [lia|]. by rewrite drop_0, firstn_all. Qed.

Lemma mwrite_front (buf v : bytes) : (length v ≤ length buf)%nat → mwrite buf 0 v = Some (v ++ drop (length v) buf).
Proof. intros Hl. apply mwrite_Some. split; [done|]. by rewrite take_0. Qed.

Lemma port_read_all (v buf : bytes) n : n = Z.of_nat (length v) → (length v ≤ length buf)%nat →
  ef_port_read v 0 buf n = Some (v ++ drop (length v) buf).
Proof.
  intros -> Hl. unfold ef_port_read. change (Z.to_nat 0) with 0%nat.
  rewrite mread_all by lia. by apply mwrite_front.
Qed.

Section delegate_laws.
Context {F : Type} `{EasyFlashLaws F}.

Lemma write_blob_get f k v f' : v ≠ [] →
  write_blob f k (Some v) (Z.of_nat (length v)) = Some (CHIP_NO_ERROR, f') → ef_get_env f' k = Some v.
Proof.
  intros Hv. unfold write_blob. rewrite Nat2Z.id, mread_all by done.
  destruct (Z.eqb_spec (Z.of_nat (length v)) 0) as [E|_]; [destruct v; [done|simpl in E; lia]|]. simpl.
  destruct (ef_set_env_blob f k v) as [[] f''] eqn:E; [|done]. intros [= <-]. by apply ef_get_set in E.
Qed.

Lemma write_blob_ne f k v n err f' k' : write_blob f k v n = Some (err, f') → k ≠ k' → ef_get_env f' k' = ef_get_env f k'.
Proof.
  unfold write_blob. intros Hw Hne. destruct v as [v|]; [|by injection Hw as <- <-].
  destruct (negb (n =? 0)); [|by injection Hw as <- <-].
  destruct (mread v 0 (Z.to_nat n)) as [bs|]; [|done].
  destruct (ef_set_env_blob f k bs) as [b f''] eqn:E. injection Hw as <- <-. by eapply ef_get_set_ne.
Qed.

Lemma kvs_Get_ext f f' k buf size n off : ef_get_env f' k = ef_get_env f k →
  kvs_Get f' k buf size n off = kvs_Get f k buf size n off.
Proof. intros E. unfold kvs_Get, ReadKVS. by rewrite E. Qed.

#[export] Instance kvs_delegate_laws : PersistentStorageLaws (KvsPersistentStorageDelegate F).
Proof.
  split.
  - intros [[f|]] k v d' buf Hs Hv Hl Hb; [|discriminate Hs]. cbn [SyncSetKeyValue kvs_delegate kvs_SyncSet mKvsManager] in Hs.
    revert Hs. let_step [err f'] E. cbn. intros [= -> <-]. apply write_blob_get in E; [|done].
    cbn [SyncGetKeyValue kvs_delegate kvs_SyncGet mKvsManager]. unfold kvs_Get, ReadKVS. rewrite E.
    destruct (Z.ltb_spec (Z.of_nat (length v)) 0); [lia|].
    destruct (Z.eqb_spec (Z.of_nat (length buf)) 0) as [E0|_]; [destruct v; [done|simpl in *; lia]|]. cbn [negb].
    set (n := if _ <? _ then _ else _).
    assert (n = Z.of_nat (length v)) as -> by (unfold n; case_match; lia).
    rewrite port_read_all by done. simpl. rewrite decide_True; [done|].
    unfold in_u. change (2 ^ 16) with 65536. lia.
  - intros [[f|]] k v n err d' k' buf size Hs Hne; [|by injection Hs as <- <-].
    cbn [SyncSetKeyValue kvs_delegate kvs_SyncSet mKvsManager] in Hs.
    assert (Hput : ∀ w, (let! r := kvs_Put f k (Some w) n in Some (r.1, {| mKvsManager := Some r.2 |})) = Some (err, d') →
      SyncGetKeyValue d' k' buf size = SyncGetKeyValue {| mKvsManager := Some f |} k' buf size).
    { intros w. let_step [e f'] E. intros [= <- <-]. apply write_blob_ne with (k' := k') in E; [|done].
      cbn [SyncGetKeyValue kvs_delegate kvs_SyncGet mKvsManager].
      destruct buf; rewrite !(kvs_Get_ext f f') by done; done. }
    destruct v as [v|]; [by eapply Hput|]. destruct (n =? 0); [by eapply Hput|by injection Hs as <- <-].
  - intros [[f|]] k v; [|by eexists]. cbn [SyncSetKeyValue kvs_delegate kvs_SyncSet mKvsManager].
    unfold kvs_Put, WriteKVS, write_blob. rewrite Nat2Z.id, mread_all by done. destruct (negb _); by eexists.
Qed.
End delegate_laws.

#[export] Instance test_delegate_laws : PersistentStorageLaws TestPersistentStorageDelegate.
Proof.
  split.
  - intros d k v d' buf. cbn [SyncSetKeyValue SyncGetKeyValue test_delegate]. unfold test_SyncSet, test_SyncGet.
    case_decide as Hp; [done|]. rewrite Nat2Z.id, mread_all by done. intros [= <-] Hv Hl Hb. simpl.
    rewrite decide_False by done. rewrite lookup_insert_eq.
    rewrite bool_decide_true by (unfold in_u; change (2 ^ 16) with 65536; lia). simpl.
    destruct (Z.eqb_spec (Z.of_nat (length buf)) 0) as [E0|_]; [destruct v; [done|simpl in *; lia]|]. simpl.
    replace (Z.min (Z.of_nat (length buf)) (Z.of_nat (length v))) with (Z.of_nat (length v)) by lia.
    rewrite Nat2Z.id, firstn_all, mwrite_front, Z.ltb_irrefl by done. done.
  - intros d k v n err d' k' buf size. cbn [SyncSetKeyValue SyncGetKeyValue test_delegate]. unfold test_SyncSet.
    case_decide; [by intros [= <- <-]|]. intros Hs Hne.
    assert (Hput : ∀ w, Some (CHIP_NO_ERROR, {| mStorage := <[k:=w]> (mStorage d); mPoisonKeys := mPoisonKeys d |}) =
      Some (err, d') → test_SyncGet d' k' buf size = test_SyncGet d k' buf size).
    { intros w [= <- <-]. unfold test_SyncGet. simpl. by rewrite lookup_insert_ne. }
    destruct v as [v|].
    + destruct (mread v 0 (Z.to_nat n)); [by eapply Hput|done].
    + destruct (n =? 0); [by eapply Hput|by injection Hs as <- <-].
  - intros d k v. cbn [SyncSetKeyValue test_delegate]. unfold test_SyncSet.
    case_decide; [by eexists|]. rewrite Nat2Z.id, mread_all by done. by eexists.
Qed.

(** ** The provider keeps the persistence laws, over any delegate that keeps its own *)
Section provider_laws.
Context {D : Type} `{PersistentStorageLaws D}.

Lemma length_read_ok type size v rest :
  value_ok type size v → v ≠ [] →
  emberAfStringLength (v ++ rest) = emberAfStringLength v ∧
  (emberAfIsStringAttributeType type = false → emberAfIsLongStringAttributeType type = true →
   emberAfLongStringLength (v ++ rest) = emberAfLongStringLength v).
Proof.
  intros Hok Hv. split.
  - unfold emberAfStringLength. destruct v; [done|]. done.
  - intros H1 H2. unfold value_ok in Hok. rewrite H1, H2 in Hok. destruct Hok as (len & Hl & Hlen).
    unfold emberAfLongStringLength in *. revert Hl. let_step bs E. intros _.
    apply mread_Some in E as [E ->].
    assert (mread (v ++ rest) 0 2 = Some (take 2 (drop 0 v))) as ->; [|done].
    apply mread_Some. rewrite length_app. split; [lia|]. rewrite !drop_0, take_app_le by lia. done.
Qed.

#[export] Instance default_provider_laws : AttributePersistenceLaws (DefaultAttributePersistenceProvider D).
Proof.
  split.
  - intros [[d|]] path type size v p' buf Hw Hpath Hok Hv Hl Hb; [|discriminate Hw].
    cbn [WriteValue ReadValue default_provider] in *. unfold Default_WriteValue, InternalWriteValue, Default_ReadValue, InternalReadValue in *.
    cbn [provider_storage] in *. revert Hw. case_match; [done|]. let_step [err d'] E. cbn [fst snd]. intros [= -> <-].
    cbn [provider_storage]. replace (Z.min (Z.of_nat (length buf)) 65535) with (Z.of_nat (length buf)) by lia.
    rewrite (psd_get_set _ _ _ _ buf E) by done.
    destruct (length_read_ok type size v (drop (length v) buf) Hok Hv) as [Hs1 Hs2]. unfold value_ok in Hok.
    destruct (emberAfIsStringAttributeType type) eqn:Ht.
    + rewrite Hs1. destruct Hok as (len & -> & <-). by rewrite Z.leb_refl.
    + destruct (emberAfIsLongStringAttributeType type) eqn:Ht2.
      * rewrite Hs2 by done. destruct Hok as (len & -> & <-). by rewrite Z.leb_refl.
      * by rewrite Hok, Z.eqb_refl.
  - intros [[d|]] path v err p' path' type size buf Hw Hp Hp' Hne; [|by injection Hw as <- <-].
    cbn [WriteValue ReadValue default_provider] in *. unfold Default_WriteValue, InternalWriteValue, Default_ReadValue, InternalReadValue in *.
    cbn [provider_storage] in *. revert Hw. case_match; [by intros [= <- <-]|]. let_step [e d'] E.
    cbn [fst snd]. intros [= <- <-]. cbn [provider_storage].
    rewrite (psd_get_set_ne _ _ _ _ _ _ _ (Some buf) _ E); [done|].
    intros Hk. apply Hne. by apply AttributeKey_inj.
  - intros [[d|]] path v; [|by eexists]. cbn [WriteValue default_provider].
    unfold Default_WriteValue, InternalWriteValue. cbn [provider_storage]. case_match; [by eexists|].
    destruct (psd_set_total d (AttributeValue (path_ep path) (path_cl path) (path_attr path)) v) as [r ->]. by eexists.
Qed.
End provider_laws.

(** ** What the firmware's storage promises *)
Section firmware.
Context {F : Type} `{EasyFlashLaws F}.
Abbreviation firmware_provider := (DefaultAttributePersistenceProvider (KvsPersistentStorageDelegate F)).

(** The flash of an initialised provider. *)
Definition on_flash (f : F) : firmware_provider := {| provider_storage := Some {| mKvsManager := Some f |} |}.

(** Reading a key of an initialised delegate into a buffer. *)
Lemma kvs_SyncGet_flash f k buf :
  Z.of_nat (length buf) ≤ 65535 →
  SyncGetKeyValue {| mKvsManager := Some f |} k (Some buf) (Z.of_nat (length buf)) =
  match ef_get_env f k with
  | None => Some (CHIP_ERROR_PERSISTED_STORAGE_VALUE_NOT_FOUND, Some buf, Z.of_nat (length buf))
  | Some v => Some (CHIP_NO_ERROR, Some (take (length buf) v ++ drop (length v) buf),
                    Z.of_nat (length v `min` length buf))
  end.
Proof.
  intros Hb. cbn [SyncGetKeyValue kvs_delegate kvs_SyncGet mKvsManager]. unfold kvs_Get, ReadKVS.
  destruct (ef_get_env f k) as [v|]; [|done].
  destruct (Z.ltb_spec (Z.of_nat (length v)) 0); [lia|].
  destruct (Z.eqb_spec (Z.of_nat (length buf)) 0) as [E|E]; cbn [negb].
  - destruct buf; [|simpl in E; lia]. simpl. by rewrite ?drop_nil, ?Nat.min_0_r.
  - set (n := if _ <? _ then _ else _).
    assert (n = Z.of_nat (length v `min` length buf)) as -> by (unfold n; case_match; lia).
    unfold ef_port_read. change (Z.to_nat 0) with 0%nat. rewrite Nat2Z.id.
    assert (mread v 0 (length v `min` length buf) = Some (take (length buf) v)) as ->.
    { apply mread_Some. rewrite drop_0. split; [lia|]. rewrite (Nat.min_comm (length v)). rewrite <- take_take.
      by rewrite (take_ge v (length v)). }
    rewrite mwrite_front by (rewrite length_take; lia). cbn.
    rewrite decide_True by (unfold in_u; change (2 ^ 16) with 65536; lia).
    rewrite length_take. f_equal. f_equal. f_equal. f_equal.
    destruct (decide (length v ≤ length buf)%nat); [by rewrite Nat.min_r by lia|].
    rewrite Nat.min_l, !drop_ge by lia. done.
Qed.
End firmware.

(** C28: What the attribute persistence provider writes to the flash is what it
    reads back, whatever the attribute type, and a write changes no other
    attribute, in the plain and in the safe key space; a flash that refuses the
    value gives [CHIP_ERROR_PERSISTED_STORAGE_FAILED]. *)
Theorem attribute_persistence_roundtrip {F} `{EasyFlashLaws F} (f : F) path type size v buf err p' :
  path_ok path → value_ok type size v → v ≠ [] →
  (length v ≤ length buf)%nat → Z.of_nat (length buf) ≤ 65535 →
  WriteValue (on_flash f) path v = Some (err, p') →
  (err = CHIP_NO_ERROR →
     ReadValue p' path type size buf = Some (CHIP_NO_ERROR, v ++ drop (length v) buf, Z.of_nat (length v))) ∧
  (err ≠ CHIP_NO_ERROR → err = CHIP_ERROR_PERSISTED_STORAGE_FAILED) ∧
  (∀ path' type' size' buf', path_ok path' → path ≠ path' →
     ReadValue p' path' type' size' buf' = ReadValue (on_flash f) path' type' size' buf') ∧
  (∀ path' buf', path_ok path' → SafeReadValue p' path' buf' = SafeReadValue (on_flash f) path' buf').
Proof.
  intros Hp Hv Hne Hl Hb Hw. split_and!.
  - intros ->. by eapply app_read_write.
  - revert Hw. cbn [WriteValue default_provider]. unfold Default_WriteValue, InternalWriteValue. simpl.
    destruct (65535 <? _) eqn:E; [apply Z.ltb_lt in E; lia|]. 
    unfold kvs_SyncSet, kvs_Put, WriteKVS, write_blob. simpl.
    destruct (negb _); simpl; [|by intros [= <- <-]].
    destruct (mread v 0 _); simpl; [|done]. destruct (ef_set_env_blob _ _ _) as [[] ?]; simpl; by intros [= <- <-].
  - intros path' type' size' buf' Hp' Hd. by eapply app_read_write_ne.
  - intros path' buf' Hp'. revert Hw. cbn [WriteValue default_provider].
    unfold Default_WriteValue, InternalWriteValue, SafeReadValue, InternalReadValue. cbn [provider_storage on_flash].
    case_match; [by intros [= <- <-]|]. let_step [e d'] E. intros [= <- <-]. cbn [provider_storage snd].
    rewrite (psd_get_set_ne _ _ _ _ _ _ _ (Some buf') _ E); [done|].
    intros Hk. fold (AttributeKey path) in Hk. fold (SafeAttributeKey path') in Hk. revert Hk.
    unfold AttributeKey, SafeAttributeKey, AttributeValue, SafeAttributeValue.
    rewrite !key_length by (done || simpl; lia). discriminate.
Qed.

(** Reading a persisted attribute never leaves the caller's buffer, whatever
    the flash holds: it always ends with an error code, the buffer keeps its
    length, and on success the size is within the buffer and holds a whole
    value: the string with its length bytes, or exactly the attribute's size. *)
Theorem attribute_read_safe {F} `{EasyFlashLaws F} (f : F) path type size buf :
  (2 ≤ length buf)%nat → Z.of_nat (length buf) ≤ 65535 →
  ∃ err buf' n, ReadValue (on_flash f) path type size buf = Some (err, buf', n) ∧
    length buf' = length buf ∧
    (err = CHIP_NO_ERROR → 0 ≤ n ≤ Z.of_nat (length buf) ∧
       match emberAfIsStringAttributeType type, emberAfIsLongStringAttributeType type with
       | true, _ => ∃ len, emberAfStringLength buf' = Some len ∧ len + 1 ≤ n
       | false, true => ∃ len, emberAfLongStringLength buf' = Some len ∧ len + 2 ≤ n
       | false, false => n = size
       end).
Proof.
  intros H2 Hb. cbn [ReadValue default_provider]. unfold Default_ReadValue, InternalReadValue. cbn [provider_storage on_flash].
  rewrite Z.min_l by lia. rewrite kvs_SyncGet_flash by done.
  destruct (ef_get_env f _) as [v|]; [|by eexists _, _, _].
  set (data := take (length buf) v ++ drop (length v) buf).
  assert (length data = length buf) as Hd by (unfold data; rewrite length_app, length_take, length_drop; lia).
  assert (∃ x, emberAfStringLength data = Some x) as [x Hx].
  { unfold emberAfStringLength. destruct (lookup_lt_is_Some_2 data 0) as [y ->]; [lia|]. by eexists. }
  assert (∃ y, emberAfLongStringLength data = Some y) as [y Hy].
  { unfold emberAfLongStringLength. destruct (mread_is_Some data 0 2) as [y ->]; [lia|]. by eexists. }
  rewrite Hx, Hy. destruct (emberAfIsStringAttributeType type), (emberAfIsLongStringAttributeType type);
    case_match eqn:E; eexists _, _, _; (split; [reflexivity|split; [done|]]);
    first [by intros [=]|intros _; split; [lia|]];
    first [apply Z.leb_le in E; eauto|by apply Z.eqb_eq].
Qed.

(** The firmware's delegate departs from the contract of
    [CHIPPersistentStorageDelegate.h], which the test delegate keeps: a buffer
    too small for the value is filled with the front of the value and reported
    as [CHIP_NO_ERROR], storing an empty value is reported as done but leaves
    the old value, and deleting a key that is not there is reported as done. *)
Theorem delegate_contract_divergence {F} `{EasyFlashLaws F} (f : F) (d : TestPersistentStorageDelegate) k v buf :
  ef_get_env f k = Some v → mStorage d !! k = Some v → k ∉ mPoisonKeys d →
  (0 < length buf < length v)%nat → Z.of_nat (length v) ≤ 65535 →
  let kvs := {| mKvsManager := Some f |} in
  let n := Z.of_nat (length buf) in
  SyncGetKeyValue kvs k (Some buf) n = Some (CHIP_NO_ERROR, Some (take (length buf) v), n) ∧
  SyncGetKeyValue d k (Some buf) n = Some (CHIP_ERROR_BUFFER_TOO_SMALL, Some (take (length buf) v), n) ∧
  SyncSetKeyValue kvs k (Some []) 0 = Some (CHIP_NO_ERROR, kvs) ∧
  (∃ d', SyncSetKeyValue d k (Some []) 0 = Some (CHIP_NO_ERROR, d') ∧ mStorage d' !! k = Some []) ∧
  (∀ k' : string, fst (SyncDeleteKeyValue kvs k') = CHIP_NO_ERROR) ∧
  (∀ k', k' ∉ mPoisonKeys d → mStorage d !! k' = None →
     fst (SyncDeleteKeyValue d k') = CHIP_ERROR_PERSISTED_STORAGE_VALUE_NOT_FOUND).
Proof.
  intros Hf Hd Hp Hlen Hmax kvs n. split_and!.
  - unfold kvs, n. rewrite kvs_SyncGet_flash, Hf, Nat.min_r by lia. by rewrite drop_ge, app_nil_r by lia.
  - cbn [SyncGetKeyValue test_delegate]. unfold test_SyncGet. rewrite decide_False, Hd by done.
    rewrite bool_decide_true by (unfold in_u; change (2 ^ 16) with 65536; lia). simpl.
    destruct (Z.eqb_spec n 0); [lia|]. simpl. rewrite Z.min_l by lia. unfold n. rewrite Nat2Z.id.
    rewrite mwrite_front by (rewrite length_take; lia).
    rewrite (proj2 (Z.ltb_lt _ _)) by lia. by rewrite length_take, Nat.min_l, drop_all, app_nil_r by lia.
  - done.
  - cbn [SyncSetKeyValue test_delegate]. unfold test_SyncSet. rewrite decide_False by done. eexists. split; [done|].
    simpl. by rewrite lookup_insert_eq.
  - done.
  - intros k' Hk' Hn. cbn [SyncDeleteKeyValue test_delegate]. unfold test_SyncDelete. by rewrite decide_False, Hn by done.
Qed.

(** A configuration value written as an integer of [n] bytes reads back as
    the same integer, and a C string written with its terminator reads back, with
    its terminator and its length, into any buffer that holds it. *)
Theorem config_value_roundtrip {F} `{EasyFlashLaws F} (f : F) k :
  (∀ n x f' old, (0 < n)%nat → 0 ≤ x < 256 ^ Z.of_nat n →
     WriteConfigValue_int f k n x = Some (CHIP_NO_ERROR, f') →
     ReadConfigValue_int f' k n old = Some (CHIP_NO_ERROR, x)) ∧
  (∀ str f' buf outLen, (length str < length buf)%nat →
     WriteConfigValueStr f k str = Some (CHIP_NO_ERROR, f') →
     ∃ buf', ReadConfigValueStr f' k (Some buf) (Z.of_nat (length buf)) outLen =
       Some (CHIP_NO_ERROR, Some buf', Z.of_nat (length str) + 1) ∧
       take (length str + 1) buf' = str ++ [0]).
Proof.
  split.
  - intros n x f' old Hn Hx Hw. unfold WriteConfigValue_int, WriteConfigValue in Hw.
    assert (write_blob f k (Some (le_bytes n x)) (Z.of_nat (length (le_bytes n x))) = Some (CHIP_NO_ERROR, f')) as Hw'
      by (by rewrite length_le_bytes). clear Hw. apply write_blob_get in Hw' as Hw; [|by destruct n; [lia|]].
    unfold ReadConfigValue_int, ReadConfigValue. rewrite Hw, length_le_bytes, Z.ltb_irrefl.
    destruct (Z.eqb_spec (Z.of_nat n) 0); [lia|]. rewrite port_read_all by (rewrite ?length_le_bytes; lia).
    rewrite length_le_bytes, drop_ge, app_nil_r by (rewrite length_le_bytes; lia). by rewrite le_val_bytes.
  - intros str f' buf outLen Hl Hw. unfold WriteConfigValueStr, WriteConfigValue in Hw.
    replace (Z.of_nat (length str) + 1) with (Z.of_nat (length (str ++ [0]))) in Hw by (rewrite length_app; simpl; lia).
    apply write_blob_get in Hw; [|by destruct str]. unfold ReadConfigValueStr, ReadConfigValue. rewrite Hw.
    rewrite length_app. simpl length. destruct (Z.eqb_spec (Z.of_nat (length buf)) 0); [lia|].
    replace (if Z.of_nat (length str + 1) <? Z.of_nat (length buf) then Z.of_nat (length str + 1) else Z.of_nat (length buf))
      with (Z.of_nat (length str) + 1) by (destruct (Z.ltb_spec (Z.of_nat (length str + 1)) (Z.of_nat (length buf))); lia).
    rewrite port_read_all by (rewrite length_app; simpl; lia). cbn.
    set (b := _ ++ drop _ buf). assert (length b = length buf) as Hb
      by (unfold b; rewrite ?length_app, ?length_drop, ?length_app; simpl; lia).
    assert (take (length str + 1) b = str ++ [0]) as Ht
      by (unfold b; apply take_app_length'; rewrite length_app; done).
    destruct (_ && _) eqn:E; [|by eexists].
    apply andb_true_iff in E as [_ E%Z.ltb_lt].
    destruct (mwrite_is_Some b (Z.to_nat (Z.of_nat (length str) + 1)) [0]) as [b' Hb']; [simpl; lia|].
    rewrite Hb'. eexists. split; [done|]. apply mwrite_Some in Hb' as [_ ->].
    rewrite take_app_le by (rewrite length_take; lia). rewrite take_take. rewrite Nat.min_l by lia. done.
Qed.

(** ** A flash that keeps a map, and concrete runs *)
Module FlashDemo.
#[export] Instance map_flash : EasyFlash (gmap string bytes) := {|
  ef_get_env f k := f !! k;
  ef_set_env_blob f k v := (true, <[k := v]> f);
  ef_del_env f k := (true, delete k f);
  ef_env_set_default _ := ∅ |}.

#[export] Instance map_flash_laws : EasyFlashLaws (gmap string bytes).
Proof.
  split; cbn.
  - intros f k v f' [= <-]. apply lookup_insert_eq.
  - intros f k v b f' k' [= <- <-] Hne. by apply lookup_insert_ne.
  - intros f k f' [= <-]. apply lookup_delete_eq.
  - intros f k b f' k' [= <- <-] Hne. by apply lookup_delete_ne.
Qed.

Definition onoff_path : attribute_path := {| path_ep := 1; path_cl := 6; path_attr := 0x4003 |}.
Definition flash : gmap string bytes := {[ "g/a/1/6/4003" := [1; 2; 3] ]}.

Lemma onoff_path_ok : path_ok onoff_path.
Proof. vm_compute. repeat split; congruence. Defined.

Lemma attribute_keys_distinct_witness : AttributeKey onoff_path ≠ SafeAttributeKey onoff_path.
Proof. exact (proj1 (proj2 (proj2 (attribute_keys_distinct onoff_path onoff_path onoff_path_ok onoff_path_ok)))). Defined.

Lemma attribute_persistence_roundtrip_witness :
  ∃ p' : DefaultAttributePersistenceProvider (KvsPersistentStorageDelegate (gmap string bytes)),
    ReadValue p' onoff_path ZCL_ENUM8_ATTRIBUTE_TYPE 1 [9; 9; 9] = Some (CHIP_NO_ERROR, [2; 9; 9], 1).
Proof.
  eexists.
  refine (proj1 (attribute_persistence_roundtrip (∅ : gmap string bytes) onoff_path ZCL_ENUM8_ATTRIBUTE_TYPE 1
    [2] [9; 9; 9] CHIP_NO_ERROR _ onoff_path_ok _ _ _ _ _) eq_refl).
  - reflexivity.
  - discriminate.
  - simpl; lia.
  - simpl; lia.
  - reflexivity.
Defined.

Lemma attribute_read_safe_witness :
  ∃ err buf' n, ReadValue (on_flash flash) onoff_path ZCL_CHAR_STRING_ATTRIBUTE_TYPE 3 [9; 9; 9; 9] = Some (err, buf', n) ∧
    length buf' = 4%nat.
Proof.
  destruct (attribute_read_safe flash onoff_path ZCL_CHAR_STRING_ATTRIBUTE_TYPE 3 [9; 9; 9; 9])
    as (err & buf' & n & H1 & H2 & _); [simpl; lia|simpl; lia|]. exists err, buf', n. split; [exact H1|exact H2].
Defined.

Lemma delegate_contract_divergence_witness :
  SyncGetKeyValue {| mKvsManager := Some flash |} "g/a/1/6/4003" (Some [0; 0]) 2 = Some (CHIP_NO_ERROR, Some [1; 2], 2).
Proof.
  refine (proj1 (delegate_contract_divergence flash {| mStorage := flash; mPoisonKeys := ∅ |} "g/a/1/6/4003" [1; 2; 3] [0; 0]
    _ _ _ _ _)).
  - reflexivity.
  - reflexivity.
  - apply not_elem_of_empty.
  - simpl; lia.
  - simpl; lia.
Defined.

Lemma config_value_roundtrip_witness :
  ReadConfigValue_int (<["reboots" := le_bytes 4 70000]> flash) "reboots" 4 0 = Some (CHIP_NO_ERROR, 70000).
Proof.
  refine (proj1 (config_value_roundtrip flash "reboots") 4%nat 70000 _ 0 _ _ _).
  - lia.
  - simpl; lia.
  - reflexivity.
Defined.
End FlashDemo.
