(* ===== verification/AttributeStorage.v ===== *)
(** * AttributeStorage: the values of the attributes

    The part of [src/src/app/util/attribute-storage.cpp] that stores values:
    every internal attribute of the fixed endpoints lives in the flat byte array
    [attributeData], at an offset found by summing the sizes of what comes
    before it; singleton attributes live in [singletonAttributeData].  Reading
    and writing go through [emAfReadOrWriteAttribute], which copies with the
    string rules of [src/src/app/util/util.cpp].

    The callbacks a product may define ([generic-callbacks.h]) are the record
    [storage_callbacks], whose defaults are [default_callbacks]. *)
From S2P Require Import Prelude Zcl EndpointTable ClusterQueries ChipError Persistence.

(** ** Copying values ([util.cpp]) *)

(** [memmove(m + off, src, n)]; a null source is undefined. *)
Definition memmove (m : bytes) (off : Z) (src : option bytes) (n : Z) : option bytes :=
  let! s := src in let! bs := mread s 0 (Z.to_nat n) in mwrite m (Z.to_nat off) bs.

(** The destination is [m] from [off] on. *)
Definition emberAfCopyString (m : bytes) (off : Z) (src : option bytes) (size : Z) : option bytes :=
  match src with
  | None => mwrite m (Z.to_nat off) [0]
  | Some s =>
      let! s0 := s !! 0%nat in
      if s0 =? 0xFF then mwrite m (Z.to_nat off) [s0]
      else
        let! length := emberAfStringLength s in
        let length := if size <? length then u8 size else length in
        let! m := memmove m (off + 1) (Some (drop 1 s)) length in
        mwrite m (Z.to_nat off) [length]
  end.

Definition emberAfCopyLongString (m : bytes) (off : Z) (src : option bytes) (size : Z) : option bytes :=
  match src with
  | None => mwrite m (Z.to_nat off) [0; 0]
  | Some s =>
      let! s0 := s !! 0%nat in
      let! s1 := s !! 1%nat in
      if (s0 =? 0xFF) && (s1 =? 0xFF) then mwrite m (Z.to_nat off) [0xFF; 0xFF]
      else
        let! length := emberAfLongStringLength s in
        let length := if size <? length then u16 size else length in
        let! m := memmove m (off + 2) (Some (drop 2 s)) length in
        mwrite m (Z.to_nat off) (le_bytes 2 length)
  end.

(** [typeSensitiveMemCopy]: the status and the destination memory. *)
Definition typeSensitiveMemCopy (m : bytes) (off : Z) (src : option bytes) (am : EmberAfAttributeMetadata)
    (write : bool) (readLength : Z) : option (EmberAfStatus * bytes) :=
  let ignoreReadLength := write || (readLength =? 0) in
  let bufferSize := if ignoreReadLength then am_size am else readLength in
  let ok m := Some (EMBER_ZCL_STATUS_SUCCESS, m) in
  let exhausted := Some (EMBER_ZCL_STATUS_RESOURCE_EXHAUSTED, m) in
  if emberAfIsStringAttributeType (attributeType am) then
    if bufferSize <? 1 then exhausted
    else let! m := emberAfCopyString m off src (bufferSize - 1) in ok m
  else if emberAfIsLongStringAttributeType (attributeType am) then
    if bufferSize <? 2 then exhausted
    else let! m := emberAfCopyLongString m off src (bufferSize - 2) in ok m
  else if emberAfIsThisDataTypeAListType (attributeType am) then
    if bufferSize <? 2 then exhausted
    else let! m := memmove m off src 2 in ok m
  else if negb ignoreReadLength && (readLength <? am_size am) then exhausted
  else match src with
       | None => let! m := mwrite m (Z.to_nat off) (repeat 0 (Z.to_nat (am_size am))) in ok m
       | Some _ => let! m := memmove m off src (am_size am) in ok m
       end.

(** ** Callbacks and state *)
Record storage_callbacks := {
  emberAfAttributeReadAccessCallback : EndpointId → ClusterId → AttributeId → bool;
  emberAfAttributeWriteAccessCallback : EndpointId → ClusterId → AttributeId → bool;
  emberAfExternalAttributeReadCallback :
    EndpointId → ClusterId → EmberAfAttributeMetadata → bytes → Z → EmberAfStatus * bytes;
  emberAfExternalAttributeWriteCallback :
    EndpointId → ClusterId → EmberAfAttributeMetadata → option bytes → EmberAfStatus }.

(** The weak definitions of [generic-callback-stubs.cpp]. *)
Definition default_callbacks : storage_callbacks := {|
  emberAfAttributeReadAccessCallback _ _ _ := true;
  emberAfAttributeWriteAccessCallback _ _ _ := true;
  emberAfExternalAttributeReadCallback _ _ _ buffer _ := (EMBER_ZCL_STATUS_FAILURE, buffer);
  emberAfExternalAttributeWriteCallback _ _ _ _ := EMBER_ZCL_STATUS_FAILURE |}.

(** What the build fixes: the number of fixed endpoints, the generated metadata
    array, the size of the largest attribute, and the callbacks. *)
Record storage_config := {
  FIXED_ENDPOINT_COUNT : Z;
  generatedAttributes : list EmberAfAttributeMetadata;
  ATTRIBUTE_LARGEST : nat;
  callbacks : storage_callbacks }.

Record attribute_store (P : Type) := {
  table : endpoint_table;
  attributeData : bytes;
  singletonAttributeData : bytes;
  gAttributeSaver : option P }.
#[global] Arguments table {P} _.
#[global] Arguments attributeData {P} _.
#[global] Arguments singletonAttributeData {P} _.
#[global] Arguments gAttributeSaver {P} _.

#[export] Instance eta_attribute_store {P} : Eta (attribute_store P) := fun s =>
  {| table := table s; attributeData := attributeData s;
     singletonAttributeData := singletonAttributeData s; gAttributeSaver := gAttributeSaver s |}.

(** ** Locating an attribute *)
Definition emAfMatchCluster (c : EmberAfCluster) (id : ClusterId) : bool :=
  (clusterId c =? id) && has_bits (cl_mask c) CLUSTER_MASK_SERVER.
Definition emAfMatchAttribute (am : EmberAfAttributeMetadata) (id : AttributeId) : bool := attributeId am =? id.

(** The attribute is kept in [attributeData]. *)
Definition stored (am : EmberAfAttributeMetadata) : bool := negb (IsExternal am) && negb (IsSingleton am).

(** The three nested loops of [emAfReadOrWriteAttribute] up to the match: the
    attribute with its [attributeOffsetIndex], or the status returned. *)
Fixpoint locate_attribute (ams : list EmberAfAttributeMetadata) (id : AttributeId) (attributeOffsetIndex : Z)
    : EmberAfStatus + EmberAfAttributeMetadata * Z :=
  match ams with
  | [] => inl EMBER_ZCL_STATUS_UNSUPPORTED_ATTRIBUTE
  | am :: ams =>
      if emAfMatchAttribute am id then inr (am, attributeOffsetIndex)
      else locate_attribute ams id
             (if stored am then u16 (attributeOffsetIndex + am_size am) else attributeOffsetIndex)
  end.

Fixpoint locate_cluster (cs : list EmberAfCluster) (cl : ClusterId) (id : AttributeId) (attributeOffsetIndex : Z)
    : EmberAfStatus + EmberAfAttributeMetadata * Z :=
  match cs with
  | [] => inl EMBER_ZCL_STATUS_UNSUPPORTED_CLUSTER
  | c :: cs =>
      if emAfMatchCluster c cl then locate_attribute (attributes c) id attributeOffsetIndex
      else locate_cluster cs cl id (u16 (attributeOffsetIndex + clusterSize c))
  end.

(** [None]: the type of an endpoint that must have one is null. *)
Fixpoint locate_endpoint (FIXED_ENDPOINT_COUNT : Z) (eps : list EmberAfDefinedEndpoint) (i : Z) (ep : EndpointId)
    (cl : ClusterId) (id : AttributeId) (attributeOffsetIndex : Z)
    : option (EmberAfStatus + EmberAfAttributeMetadata * Z * bool) :=
  match eps with
  | [] => Some (inl EMBER_ZCL_STATUS_UNSUPPORTED_ENDPOINT)
  | e :: eps =>
      let isDynamicEndpoint := FIXED_ENDPOINT_COUNT <=? i in
      if endpoint e =? ep then
        if negb (flag_Has (bitmask e) isEnabled)
        then locate_endpoint FIXED_ENDPOINT_COUNT eps (i + 1) ep cl id attributeOffsetIndex
        else let! t := endpointType e in
             Some (match locate_cluster (cluster t) cl id attributeOffsetIndex with
                   | inl s => inl s
                   | inr (am, off) => inr (am, off, isDynamicEndpoint)
                   end)
      else if isDynamicEndpoint
      then locate_endpoint FIXED_ENDPOINT_COUNT eps (i + 1) ep cl id attributeOffsetIndex
      else let! t := endpointType e in
           locate_endpoint FIXED_ENDPOINT_COUNT eps (i + 1) ep cl id (u16 (attributeOffsetIndex + endpointSize t))
  end.

(** [singletonAttributeLocation]: sums the singletons before the entry. *)
Fixpoint singleton_offset (ams : list EmberAfAttributeMetadata) (addr : nat) (index : Z) : option Z :=
  match addr with
  | O => Some index
  | S addr =>
      match ams with
      | [] => None
      | m :: ams => singleton_offset ams addr (if IsSingleton m && negb (IsExternal m) then u16 (index + am_size m) else index)
      end
  end.

Section storage.
Context {P : Type} `{AttributePersistenceProvider P} (cfg : storage_config).
Implicit Types s : attribute_store P.

Definition locate s (ep : EndpointId) (cl : ClusterId) (id : AttributeId)
    : option (EmberAfStatus + EmberAfAttributeMetadata * Z * bool) :=
  locate_endpoint (FIXED_ENDPOINT_COUNT cfg) (live_endpoints (table s)) 0 ep cl id 0.

Definition emberAfLocateAttributeMetadata s (ep : EndpointId) (cl : ClusterId) (id : AttributeId)
    : option (option EmberAfAttributeMetadata) :=
  let! l := locate s ep cl id in
  Some (match l with inl _ => None | inr (am, _, _) => Some am end).

Definition singletonAttributeLocation (am : EmberAfAttributeMetadata) : option Z :=
  singleton_offset (generatedAttributes cfg) (am_addr am) 0.

(** The memory and the offset of the value. *)
Definition attribute_memory s (am : EmberAfAttributeMetadata) (off : Z) : option (bytes * Z) :=
  if IsSingleton am
  then let! i := singletonAttributeLocation am in Some (singletonAttributeData s, i)
  else Some (attributeData s, off).

(** [emAfReadOrWriteAttribute(..., write = false)] with a buffer. *)
Definition read_attribute s (ep : EndpointId) (cl : ClusterId) (id : AttributeId)
    (buffer : option bytes) (readLength : Z) : option (EmberAfStatus * option bytes) :=
  let! l := locate s ep cl id in
  match l with
  | inl status => Some (status, buffer)
  | inr (am, off, isDynamicEndpoint) =>
      let! loc := attribute_memory s am off in
      match buffer with
      | None => Some (EMBER_ZCL_STATUS_SUCCESS, None)
      | Some dst =>
          if negb (emberAfAttributeReadAccessCallback (callbacks cfg) ep cl (attributeId am))
          then Some (EMBER_ZCL_STATUS_UNSUPPORTED_ACCESS, buffer)
          else if IsExternal am
          then let r := emberAfExternalAttributeReadCallback (callbacks cfg) ep cl am dst (am_size am) in
               Some (fst r, Some (snd r))
          else if negb isDynamicEndpoint
          then let! r := typeSensitiveMemCopy dst 0 (Some (drop (Z.to_nat (snd loc)) (fst loc))) am false readLength in
               Some (fst r, Some (snd r))
          else Some (EMBER_ZCL_STATUS_FAILURE, buffer)
      end
  end.

(** [emAfReadOrWriteAttribute(..., write = true)]. *)
Definition write_attribute s (ep : EndpointId) (cl : ClusterId) (id : AttributeId)
    (buffer : option bytes) : option (EmberAfStatus * attribute_store P) :=
  let! l := locate s ep cl id in
  match l with
  | inl status => Some (status, s)
  | inr (am, off, isDynamicEndpoint) =>
      let! loc := attribute_memory s am off in
      if negb (emberAfAttributeWriteAccessCallback (callbacks cfg) ep cl (attributeId am))
      then Some (EMBER_ZCL_STATUS_UNSUPPORTED_ACCESS, s)
      else if IsExternal am
      then Some (emberAfExternalAttributeWriteCallback (callbacks cfg) ep cl am buffer, s)
      else if negb isDynamicEndpoint
      then let! r := typeSensitiveMemCopy (fst loc) (snd loc) buffer am true 0 in
           Some (fst r, if IsSingleton am then s <| singletonAttributeData := snd r |>
                        else s <| attributeData := snd r |>)
      else Some (EMBER_ZCL_STATUS_FAILURE, s)
  end.

(** ** Persisting and loading *)
Definition emAfSaveAttributeToStorageIfNeeded s (data : option bytes) (ep : EndpointId) (cl : ClusterId)
    (metadata : EmberAfAttributeMetadata) : option (attribute_store P) :=
  if negb (IsAutomaticallyPersisted metadata) then Some s
  else
    let data := default (repeat 0 (ATTRIBUTE_LARGEST cfg)) data in
    let! dataSize :=
      (if emberAfIsStringAttributeType (attributeType metadata)
       then let! l := emberAfStringLength data in Some (l + 1)
       else if emberAfIsLongStringAttributeType (attributeType metadata)
       then let! l := emberAfLongStringLength data in Some (l + 2)
       else Some (am_size metadata)) in
    match gAttributeSaver s with
    | Some p =>
        let! v := mread data 0 (Z.to_nat dataSize) in
        let! r := WriteValue p {| path_ep := ep; path_cl := cl; path_attr := attributeId metadata |} v in
        Some (s <| gAttributeSaver := Some (snd r) |>)
    | None => Some s
    end.

(** The default value: a pointer to bytes, null for zeroes.  A value of at most
    four bytes (two in a min/max entry) is in the metadata itself. *)
Definition default_value (am : EmberAfAttributeMetadata) : option (option bytes) :=
  if negb (Z.land (am_mask am) ATTRIBUTE_MASK_MIN_MAX =? 0) then
    match am_default am with
    | DMMinMax mm =>
        if am_size am <=? 2
        then match mm_default mm with DefValue v => Some (Some (le_bytes 2 v)) | DefPtr _ => None end
        else match mm_default mm with DefPtr p => Some p | DefValue _ => None end
    | _ => None
    end
  else if (am_size am <=? 4) && negb (emberAfIsStringAttributeType (attributeType am))
  then match am_default am with DMValue v => Some (Some (le_bytes 4 v)) | _ => None end
  else match am_default am with DMPtr p => Some p | _ => None end.

(** One attribute of [emAfLoadAttributeDefaults]; [attrData] is the local buffer,
    kept from one attribute to the next.  [None] also stands for a failed
    [VerifyOrDie]. *)
Definition load_attribute s (attrData : bytes) (ep : EndpointId) (cl : ClusterId)
    (am : EmberAfAttributeMetadata) (ignoreStorage : bool) : option (attribute_store P * bytes) :=
  let! r :=
    (if negb ignoreStorage && IsAutomaticallyPersisted am then
       let! attrStorage := gAttributeSaver s in
       let! r := ReadValue attrStorage {| path_ep := ep; path_cl := cl; path_attr := attributeId am |}
                   (attributeType am) (am_size am) attrData in
       match r with
       | (err, attrData, _) => Some (if is_no_error err then Some attrData else None, attrData)
       end
     else Some (None, attrData)) in
  match r with
  | (persisted, attrData) =>
      if negb (IsExternal am) then
        let! ptr := match persisted with Some v => Some (Some v) | None => default_value am end in
        let! w := write_attribute s ep cl (attributeId am) ptr in
        let! st := (if ignoreStorage then emAfSaveAttributeToStorageIfNeeded (snd w) ptr ep cl am else Some (snd w)) in
        Some (st, attrData)
      else Some (s, attrData)
  end.

Fixpoint load_attributes s (attrData : bytes) (ep : EndpointId) (cl : ClusterId)
    (ams : list EmberAfAttributeMetadata) (ignoreStorage : bool) : option (attribute_store P * bytes) :=
  match ams with
  | [] => Some (s, attrData)
  | am :: ams =>
      let! r := load_attribute s attrData ep cl am ignoreStorage in
      load_attributes (fst r) (snd r) ep cl ams ignoreStorage
  end.

Fixpoint load_clusters s (attrData : bytes) (ep : EndpointId) (cs : list EmberAfCluster)
    (ignoreStorage : bool) (only : option ClusterId) : option (attribute_store P * bytes) :=
  match cs with
  | [] => Some (s, attrData)
  | c :: cs =>
      if match only with Some id => negb (id =? clusterId c) | None => false end
      then load_clusters s attrData ep cs ignoreStorage only
      else let! r := load_attributes s attrData ep (clusterId c) (attributes c) ignoreStorage in
           load_clusters (fst r) (snd r) ep cs ignoreStorage only
  end.

Fixpoint load_endpoints s (attrData : bytes) (eps : list EmberAfDefinedEndpoint)
    (ignoreStorage : bool) (only : option ClusterId) : option (attribute_store P * bytes) :=
  match eps with
  | [] => Some (s, attrData)
  | e :: eps =>
      let! t := endpointType e in
      let! r := load_clusters s attrData (endpoint e) (cluster t) ignoreStorage only in
      load_endpoints (fst r) (snd r) eps ignoreStorage only
  end.

(** [attrData] is the uninitialised local array. *)
Definition emAfLoadAttributeDefaults s (attrData : bytes) (ep : EndpointId) (ignoreStorage : bool)
    (only : option ClusterId) : option (attribute_store P) :=
  if negb (ep =? EMBER_BROADCAST_ENDPOINT) then
    if emberEndpointCount (table s) =? 0 then Some s
    else
      let index := emberAfIndexFromEndpoint (table s) ep in
      if index =? kEmberInvalidEndpointIndex then Some s
      else let! e := ep_at (table s) index in
           let! r := load_endpoints s attrData [e] ignoreStorage only in Some (fst r)
  else let! r := load_endpoints s attrData (live_endpoints (table s)) ignoreStorage only in Some (fst r).

Definition emberAfInitializeAttributes s (attrData : bytes) (ep : EndpointId) : option (attribute_store P) :=
  emAfLoadAttributeDefaults s attrData ep false None.
Definition emberAfResetAttributes s (attrData : bytes) (ep : EndpointId) : option (attribute_store P) :=
  emAfLoadAttributeDefaults s attrData ep true None.
End storage.

(** ** What a copy writes

    [copied am n src] is the value a copy with room for [n] bytes writes: strings
    are cut to the room, and the length bytes say so. *)
Definition copied_string (n : Z) (src : option bytes) : option bytes :=
  match src with
  | None => Some [0]
  | Some s =>
      let! s0 := s !! 0%nat in
      if s0 =? 0xFF then Some [0xFF]
      else let len := Z.min s0 (n - 1) in
           let! bs := mread (drop 1 s) 0 (Z.to_nat len) in Some (len :: bs)
  end.

Definition copied_long_string (n : Z) (src : option bytes) : option bytes :=
  match src with
  | None => Some [0; 0]
  | Some s =>
      let! s01 := mread s 0 2 in
      if le_val s01 =? 0xFFFF then Some [0xFF; 0xFF]
      else let len := Z.min (le_val s01) (n - 2) in
           let! bs := mread (drop 2 s) 0 (Z.to_nat len) in Some (le_bytes 2 len ++ bs)
  end.

Definition copied (am : EmberAfAttributeMetadata) (n : Z) (src : option bytes) : option bytes :=
  if emberAfIsStringAttributeType (attributeType am) then copied_string n src
  else if emberAfIsLongStringAttributeType (attributeType am) then copied_long_string n src
  else if emberAfIsThisDataTypeAListType (attributeType am)
  then let! s := src in mread s 0 2
  else match src with
       | None => Some (repeat 0 (Z.to_nat (am_size am)))
       | Some s => mread s 0 (Z.to_nat (am_size am))
       end.

(** The least room a copy of the attribute accepts. *)
Definition min_room (am : EmberAfAttributeMetadata) : Z :=
  if emberAfIsStringAttributeType (attributeType am) then 1
  else if emberAfIsLongStringAttributeType (attributeType am) then 2
  else if emberAfIsThisDataTypeAListType (attributeType am) then 2
  else am_size am.

Lemma mwrite_app_back m off a b :
  mwrite m off (a ++ b) =
  (let! m' := mwrite m (off + length a) b in mwrite m' off a).
Proof.
  unfold mwrite. rewrite length_app.
  destruct (Nat.leb_spec (off + (length a + length b)) (length m)) as [H|H].
  - rewrite (proj2 (Nat.leb_le _ _)) by lia.
    rewrite (proj2 (Nat.leb_le _ _)) by (rewrite !length_app, length_take, length_drop; lia). f_equal.
    rewrite take_app_le by (rewrite length_take; lia). rewrite take_take, Nat.min_l by lia. f_equal.
    rewrite <- app_assoc. f_equal. rewrite drop_app_length' by (rewrite length_take; lia). f_equal. f_equal; lia.
  - by rewrite (proj2 (Nat.leb_gt _ _)) by lia.
Qed.

Lemma mwrite_cons m off x b :
  mwrite m off (x :: b) = (let! m' := mwrite m (off + 1) b in mwrite m' off [x]).
Proof. exact (mwrite_app_back m off [x] b). Qed.

Lemma copy_string_write m off s n : 1 ≤ n → 0 ≤ off → bytes_ok s →
  emberAfCopyString m off (Some s) (n - 1) =
  (let! v := copied_string n (Some s) in mwrite m (Z.to_nat off) v).
Proof.
  intros Hn Hoff Hs. unfold emberAfCopyString, copied_string, emberAfStringLength.
  destruct s as [|s0 s]; [done|]. inversion Hs as [|? ? H0 _]; subst. simpl.
  destruct (Z.eqb_spec s0 0xFF) as [->|Hff]; [done|].
  unfold in_u in H0. change (2 ^ 8) with 256 in H0.
  replace (if n - 1 <? s0 then _ else _) with (Z.min s0 (n - 1)).
  2: { destruct (Z.ltb_spec (n - 1) s0); [|lia]. rewrite wrap_small by (unfold in_u; change (2 ^ 8) with 256; lia). lia. }
  unfold memmove. rewrite ?drop_0. destruct (mread s 0 _) as [bs|]; [|done].
  rewrite mwrite_cons. by replace (Z.to_nat (off + 1)) with (Z.to_nat off + 1)%nat by lia.
Qed.

Lemma copy_long_string_write m off s n : 2 ≤ n → 0 ≤ off → bytes_ok s →
  emberAfCopyLongString m off (Some s) (n - 2) =
  (let! v := copied_long_string n (Some s) in mwrite m (Z.to_nat off) v).
Proof.
  intros Hn Hoff Hs. unfold emberAfCopyLongString, copied_long_string, emberAfLongStringLength.
  destruct s as [|s0 [|s1 s]]; [done..|].
  inversion Hs as [|? ? H0 Hs']; subst. inversion Hs' as [|? ? H1 _]; subst.
  unfold in_u in H0, H1. change (2 ^ 8) with 256 in H0, H1.
  change (mread (s0 :: s1 :: s) 0 2) with (Some [s0; s1]). cbn [lookup list_lookup drop le_val].
  replace ((s0 =? 0xFF) && (s1 =? 0xFF)) with (s0 + 256 * (s1 + 256 * 0) =? 0xFFFF).
  2: { destruct (Z.eqb_spec s0 0xFF), (Z.eqb_spec s1 0xFF); simpl; first [apply Z.eqb_eq; lia|apply Z.eqb_neq; lia]. }
  set (x := s0 + _). assert (0 ≤ x < 65536) by (unfold x; lia). destruct (Z.eqb_spec x 0xFFFF); [done|].
  replace (if n - 2 <? x then _ else _) with (Z.min x (n - 2)).
  2: { destruct (Z.ltb_spec (n - 2) x); [|lia]. rewrite wrap_small by (unfold in_u; change (2 ^ 16) with 65536; lia). lia. }
  unfold memmove. rewrite ?drop_0. destruct (mread s 0 _) as [bs|]; [|done].
  rewrite (mwrite_app_back m (Z.to_nat off) (le_bytes 2 _) bs), length_le_bytes.
  by replace (Z.to_nat (off + 2)) with (Z.to_nat off + 2)%nat by lia.
Qed.

(** A copy with enough room writes the copied value and nothing else. *)
Definition room (am : EmberAfAttributeMetadata) (write : bool) (readLength : Z) : Z :=
  if write || (readLength =? 0) then am_size am else readLength.

Lemma typeSensitiveMemCopy_write m off src am write readLength :
  0 ≤ off → match src with Some s => bytes_ok s | None => True end →
  min_room am ≤ room am write readLength →
  typeSensitiveMemCopy m off src am write readLength =
  (let! v := copied am (room am write readLength) src in
   let! m := mwrite m (Z.to_nat off) v in Some (EMBER_ZCL_STATUS_SUCCESS, m)).
Proof.
  intros Hoff Hs. unfold typeSensitiveMemCopy, min_room, copied. fold (room am write readLength).
  set (n := room am write readLength).
  destruct (emberAfIsStringAttributeType _); [|destruct (emberAfIsLongStringAttributeType _);
    [|destruct (emberAfIsThisDataTypeAListType _)]]; intros Hn.
  - destruct (Z.ltb_spec n 1); [lia|]. destruct src; [|done].
    rewrite copy_string_write by done. by destruct (copied_string _ _).
  - destruct (Z.ltb_spec n 2); [lia|]. destruct src; [|done].
    rewrite copy_long_string_write by done. by destruct (copied_long_string _ _).
  - destruct (Z.ltb_spec n 2); [lia|]. unfold memmove. destruct src as [s|]; [|done].
    change (Z.to_nat 2) with 2%nat. by destruct (mread s 0 2).
  - replace (negb (write || (readLength =? 0)) && (readLength <? am_size am)) with false.
    2: { symmetry. apply andb_false_iff. unfold n, room in Hn. destruct (write || _); [by left|right]. apply Z.ltb_ge. lia. }
    destruct src as [s|]; [|done]. unfold memmove. by destruct (mread s 0 _).
Qed.

Lemma copied_length am n src v : 0 ≤ am_size am → min_room am ≤ n →
  match src with Some s => bytes_ok s | None => True end →
  copied am n src = Some v → (length v ≤ Z.to_nat (Z.max n (am_size am)))%nat.
Proof.
  intros Hsz Hn Hs. unfold copied, min_room, copied_string, copied_long_string in *.
  destruct (emberAfIsStringAttributeType _); [|destruct (emberAfIsLongStringAttributeType _);
    [|destruct (emberAfIsThisDataTypeAListType _)]].
  - destruct src as [s|]; [|intros [= <-]; simpl; lia]. let_step s0 E0. case_match; [intros [= <-]; simpl; lia|].
    let_step bs E1. intros [= <-]. apply mread_length in E1. simpl. lia.
  - destruct src as [s|]; [|intros [= <-]; simpl; lia]. let_step s0 E0. case_match; [intros [= <-]; simpl; lia|].
    let_step bs E1. intros [= <-]. apply mread_length in E1. rewrite ?length_app, ?length_le_bytes; simpl; lia.
  - let_step s E. intros H%mread_length. lia.
  - destruct src as [s|]; [intros H%mread_length; lia|]. intros [= <-]. rewrite repeat_length. lia.
Qed.

Lemma mread_take s n k l : mread s 0 n = Some l → (k ≤ n)%nat → mread s 0 k = Some (take k l).
Proof.
  intros [Hl ->]%mread_Some Hk. apply mread_Some. split; [lia|]. rewrite drop_0, take_take. f_equal; lia.
Qed.

Lemma mread_app_front l rest k : (k ≤ length l)%nat → mread (l ++ rest) 0 k = Some (take k l).
Proof. intros Hk. apply mread_Some. rewrite length_app. split; [lia|]. by rewrite drop_0, take_app_le. Qed.

(** Copying a copied value again cuts it to the smaller room. *)
Lemma copied_again am n n' src v rest :
  0 ≤ am_size am → min_room am ≤ n → min_room am ≤ n' →
  match src with Some s => bytes_ok s | None => True end →
  copied am n src = Some v →
  copied am n' (Some (v ++ rest)) = copied am (Z.min n n') src.
Proof.
  intros Hsz Hn Hn' Hs. unfold copied, min_room, copied_string, copied_long_string in *.
  destruct (emberAfIsStringAttributeType _); [|destruct (emberAfIsLongStringAttributeType _);
    [|destruct (emberAfIsThisDataTypeAListType _)]].
  - destruct src as [s|].
    + destruct s as [|s0 s]; [done|]. inversion Hs as [|? ? H0 _]; subst. cbn [lookup list_lookup drop].
      unfold in_u in H0. change (2 ^ 8) with 256 in H0. destruct (Z.eqb_spec s0 0xFF) as [->|H]; [by intros [= <-]|].
      let_step bs E. intros [= <-]. cbn [app lookup list_lookup drop]. pose proof (mread_length _ _ _ _ E) as Hb.
      destruct (Z.eqb_spec (Z.min s0 (n - 1)) 0xFF); [lia|].
      rewrite drop_0 in E |- *. rewrite drop_0, mread_app_front by lia. rewrite (mread_take _ _ (Z.to_nat (Z.min s0 (Z.min n n' - 1))) _ E) by lia.
      replace (Z.min (Z.min s0 (n - 1)) (n' - 1)) with (Z.min s0 (Z.min n n' - 1)) by lia. done.
    + intros [= <-]. cbn [app lookup list_lookup drop]. change (0 =? 0xFF) with false. cbn.
      rewrite Z.min_l by lia. change (Z.to_nat 0) with 0%nat. rewrite ?drop_0.
      rewrite (mread_app_front [] rest) by done. done.
  - destruct src as [s|].
    + destruct s as [|s0 [|s1 s]]; [done..|].
      inversion Hs as [|? ? H0 Hs']; subst. inversion Hs' as [|? ? H1 _]; subst.
      unfold in_u in H0, H1. change (2 ^ 8) with 256 in H0, H1.
      change (mread (s0 :: s1 :: s) 0 2) with (Some [s0; s1]). cbn [drop].
      assert (0 ≤ le_val [s0; s1] < 65536) as Hx by (simpl; lia). set (x := le_val [s0; s1]) in *.
      destruct (Z.eqb_spec x 0xFFFF) as [E|E]; [by intros [= <-]|].
      let_step bs Eb. intros Ev. apply (inj Some) in Ev as <-. rewrite drop_0 in Eb |- *. pose proof (mread_length _ _ _ _ Eb) as Hb.
      rewrite <- app_assoc. rewrite mread_app_front by (by rewrite length_le_bytes).
      rewrite take_ge by (by rewrite length_le_bytes). rewrite le_val_bytes by (simpl; lia).
      destruct (Z.eqb_spec (Z.min x (n - 2)) 0xFFFF); [lia|].
      rewrite drop_app_length' by (by rewrite length_le_bytes). rewrite mread_app_front by lia.
      rewrite (mread_take _ _ (Z.to_nat (Z.min x (Z.min n n' - 2))) _ Eb) by lia.
      replace (Z.min (Z.min x (n - 2)) (n' - 2)) with (Z.min x (Z.min n n' - 2)) by lia. done.
    + intros [= <-]. rewrite (mread_app_front [0; 0] rest) by (simpl; lia). cbn.
      rewrite Z.min_l by lia. change (Z.to_nat 0) with 0%nat. rewrite drop_0.
      rewrite (mread_app_front [] rest) by done. done.
  - let_step s E. intros Hv. rewrite mread_app_front by (apply mread_length in Hv; lia).
    rewrite take_ge by (apply mread_length in Hv; lia). done.
  - destruct src as [s|].
    + intros Hv. pose proof (mread_length _ _ _ _ Hv). rewrite mread_app_front, take_ge by lia. done.
    + intros [= <-]. rewrite mread_app_front, take_ge by (rewrite repeat_length; lia). done.
Qed.

Lemma bytes_ok_take n s : bytes_ok s → bytes_ok (take n s).
Proof. apply Forall_take. Qed.
Lemma bytes_ok_drop n s : bytes_ok s → bytes_ok (drop n s).
Proof. apply Forall_drop. Qed.

Lemma mread_bytes_ok s off n l : bytes_ok s → mread s off n = Some l → bytes_ok l.
Proof. intros Hs [_ ->]%mread_Some. by apply bytes_ok_take, bytes_ok_drop. Qed.

Lemma mwrite_bytes_ok m off b m' : bytes_ok m → bytes_ok b → mwrite m off b = Some m' → bytes_ok m'.
Proof.
  intros Hm Hb [_ ->]%mwrite_Some. apply Forall_app. split; [by apply bytes_ok_take|].
  apply Forall_app. split; [done|by apply bytes_ok_drop].
Qed.

Lemma copied_bytes_ok am n src v :
  min_room am ≤ n → match src with Some s => bytes_ok s | None => True end →
  copied am n src = Some v → bytes_ok v.
Proof.
  intros Hn Hs. unfold copied, copied_string, copied_long_string, min_room in *.
  assert (bytes_ok [0]) by (repeat constructor; done).
  destruct (emberAfIsStringAttributeType _); [|destruct (emberAfIsLongStringAttributeType _);
    [|destruct (emberAfIsThisDataTypeAListType _)]].
  - destruct src as [[|s0 s]|]; [done| |by intros [= <-]]. inversion Hs as [|? ? H0 Hs']; subst. cbn [lookup list_lookup drop].
    case_match; [intros [= <-]; repeat constructor; done|]. let_step bs E. intros [= <-].
    constructor; [|by eapply mread_bytes_ok]. unfold in_u in *. lia.
  - destruct src as [s|]; [|intros [= <-]; repeat constructor; done]. let_step s01 E0.
    case_match; [intros [= <-]; repeat constructor; done|]. let_step bs E. intros Ev. apply (inj Some) in Ev as <-.
    apply Forall_app. split; [apply le_bytes_ok|]. eapply mread_bytes_ok; [|exact E].
    by apply bytes_ok_drop.
  - destruct src as [s|]; [|done]. intros E. exact (mread_bytes_ok _ _ _ _ Hs E).
  - destruct src as [s|]; [intros E; exact (mread_bytes_ok _ _ _ _ Hs E)|]. intros [= <-].
    apply List.Forall_forall. intros x ->%repeat_spec. done.
Qed.

(** ** The layout of the attribute data

    The attributes of the fixed endpoints, in the order of the walk, with the
    endpoint and the cluster they belong to. *)
Abbreviation slot := (EndpointId * EmberAfCluster * EmberAfAttributeMetadata)%type.
Definition flat_cluster (ep : EndpointId) (c : EmberAfCluster) : list slot := (fun am => (ep, c, am)) <$> attributes c.
Definition flat_endpoint (e : EmberAfDefinedEndpoint) : list slot :=
  match endpointType e with
  | Some t => cluster t ≫= flat_cluster (endpoint e)
  | None => []
  end.
Definition flat (eps : list EmberAfDefinedEndpoint) : list slot := eps ≫= flat_endpoint.

Definition am_space (am : EmberAfAttributeMetadata) : Z := if stored am then am_size am else 0.
Definition slot_space (x : slot) : Z := am_space (snd x).
Definition ep_space (e : EmberAfDefinedEndpoint) : Z :=
  match endpointType e with Some t => endpointSize t | None => 0 end.

(** The sizes the generated tables give are the sums of their parts. *)
Definition cluster_layout_ok (c : EmberAfCluster) : Prop :=
  clusterSize c = sum_by am_space (attributes c) ∧ Forall (fun am => in_u 16 (am_size am)) (attributes c).
Definition type_layout_ok (t : EmberAfEndpointType) : Prop :=
  endpointSize t = sum_by clusterSize (cluster t) ∧ Forall cluster_layout_ok (cluster t).
Definition endpoint_layout_ok (e : EmberAfDefinedEndpoint) : Prop :=
  match endpointType e with Some t => type_layout_ok t | None => False end.

Lemma flat_cluster_space ep c : cluster_layout_ok c → sum_by slot_space (flat_cluster ep c) = clusterSize c.
Proof.
  intros [-> _]. unfold flat_cluster. induction (attributes c) as [|am l IH]; [done|].
  cbn [fmap list_fmap sum_by foldr]. fold (sum_by slot_space ((fun am => (ep, c, am)) <$> l)). rewrite IH. done.
Qed.

Lemma flat_endpoint_space e : endpoint_layout_ok e → sum_by slot_space (flat_endpoint e) = ep_space e.
Proof.
  unfold endpoint_layout_ok, flat_endpoint, ep_space. destruct (endpointType e) as [t|]; [|done]. intros [-> Ht].
  apply sum_by_bind. eapply List.Forall_impl; [|exact Ht]. intros c Hc. by apply flat_cluster_space.
Qed.

Lemma flat_space eps : Forall endpoint_layout_ok eps → sum_by slot_space (flat eps) = sum_by ep_space eps.
Proof. intros H. apply sum_by_bind. eapply List.Forall_impl; [|exact H]. apply flat_endpoint_space. Qed.

Lemma flat_nonneg eps : Forall endpoint_layout_ok eps → Forall (fun x => 0 ≤ slot_space x) (flat eps).
Proof.
  intros H. apply List.Forall_forall. intros [[ep c] am] Hin%list_elem_of_In.
  apply list_elem_of_bind in Hin as (e & Hin & He). rewrite list.Forall_forall in H. specialize (H _ He).
  unfold endpoint_layout_ok, flat_endpoint in *. destruct (endpointType e) as [t|]; [|done]. destruct H as [_ Ht].
  apply list_elem_of_bind in Hin as (c' & Hin & Hc). rewrite list.Forall_forall in Ht. destruct (Ht _ Hc) as [_ Ha].
  apply list_elem_of_fmap in Hin as (am' & [= -> -> ->] & Ham). rewrite list.Forall_forall in Ha. specialize (Ha _ Ham).
  unfold slot_space, am_space, in_u in *. simpl. case_match; lia.
Qed.

(** ** What the walk finds *)
Lemma locate_attribute_spec ams id off am off' :
  in_u 16 off → locate_attribute ams id off = inr (am, off') →
  ∃ pre post, ams = pre ++ am :: post ∧ attributeId am = id ∧ off' = u16 (off + sum_by am_space pre).
Proof.
  revert off; induction ams as [|a ams IH]; intros off Hoff; [done|]. cbn [locate_attribute].
  unfold emAfMatchAttribute. destruct (Z.eqb_spec (attributeId a) id) as [Ha|Ha].
  - intros [= <- <-]. exists [], ams. split_and!; [done|done|]. simpl. rewrite Z.add_0_r. by rewrite wrap_small.
  - set (off1 := if stored a then _ else _). intros Hl.
    assert (off1 = u16 (off + am_space a)) as E.
    { unfold off1, am_space. destruct (stored a); [done|]. by rewrite Z.add_0_r, wrap_small. }
    destruct (IH off1) as (pre & post & -> & Hid & ->); [rewrite E; by apply wrap_range|done|].
    exists (a :: pre), post. split_and!; [done|done|]. rewrite E, wrap_add_l by done. simpl. f_equal. lia.
Qed.

Lemma locate_cluster_spec cs cl id off am off' :
  in_u 16 off → locate_cluster cs cl id off = inr (am, off') →
  ∃ preC c postC pre post, cs = preC ++ c :: postC ∧ emAfMatchCluster c cl = true ∧
    attributes c = pre ++ am :: post ∧ attributeId am = id ∧
    off' = u16 (off + (sum_by clusterSize preC + sum_by am_space pre)).
Proof.
  revert off; induction cs as [|c cs IH]; intros off Hoff; [done|]. cbn [locate_cluster].
  destruct (emAfMatchCluster c cl) eqn:Hc.
  - intros (pre & post & Hl & Hid & ->)%locate_attribute_spec; [|done]. exists [], c, cs, pre, post. done.
  - intros Hl. destruct (IH (u16 (off + clusterSize c))) as (preC & c' & postC & pre & post & -> & Hm & Ha & Hid & ->);
      [by apply wrap_range|done|].
    exists (c :: preC), c', postC, pre, post. split_and!; try done. rewrite wrap_add_l by done. simpl. f_equal. lia.
Qed.

Lemma locate_endpoint_dynamic F eps i ep cl id off am off' :
  F ≤ i → locate_endpoint F eps i ep cl id off ≠ Some (inr (am, off', false)).
Proof.
  revert i off; induction eps as [|e eps IH]; intros i off Hi; [done|]. cbn [locate_endpoint].
  rewrite (proj2 (Z.leb_le F i)) by done. destruct (endpoint e =? ep); [|apply IH; lia].
  destruct (negb _); [apply IH; lia|]. destruct (endpointType e) as [t|]; [|done].
  by destruct (locate_cluster (cluster t) cl id off) as [|[]].
Qed.

Lemma locate_endpoint_spec F eps i ep cl id off am off' :
  in_u 16 off → 0 ≤ i → NoDup (endpoint <$> take (Z.to_nat (F - i)) eps) →
  locate_endpoint F eps i ep cl id off = Some (inr (am, off', false)) →
  ∃ preE e postE t, take (Z.to_nat (F - i)) eps = preE ++ e :: postE ∧ endpoint e = ep ∧
    is_enabled e = true ∧ endpointType e = Some t ∧
    locate_cluster (cluster t) cl id (u16 (off + sum_by ep_space preE)) = inr (am, off').
Proof.
  revert i off; induction eps as [|e eps IH]; intros i off Hoff Hi Hnd; [done|].
  destruct (Z.leb_spec F i) as [Hd|Hd]; [by intros ?%locate_endpoint_dynamic|]. cbn [locate_endpoint].
  rewrite (proj2 (Z.leb_gt F i)) by done.
  replace (Z.to_nat (F - i)) with (S (Z.to_nat (F - (i + 1)))) in * by lia. cbn [take fmap list_fmap] in *.
  apply NoDup_cons in Hnd as [Hnin Hnd].
  destruct (Z.eqb_spec (endpoint e) ep) as [He|He].
  - fold (is_enabled e). destruct (is_enabled e) eqn:Hen; cbn [negb].
    + destruct (endpointType e) as [t|] eqn:Ht; [|done].
      destruct (locate_cluster (cluster t) cl id off) as [|[a o]] eqn:Hl; [done|]. intros [= -> ->].
      exists [], e, (take (Z.to_nat (F - (i + 1))) eps), t. split_and!; try done.
      simpl. rewrite Z.add_0_r. by rewrite wrap_small.
    + intros Hl. destruct (IH (i + 1) off Hoff ltac:(lia) Hnd Hl) as (preE & e' & postE & t & Hsp & He' & _).
      exfalso. apply Hnin. rewrite He, <- He', Hsp, fmap_app. apply elem_of_app. right. left.
  - destruct (endpointType e) as [t|] eqn:Ht; [|done]. intros Hl.
    destruct (IH (i + 1) _ ltac:(by apply wrap_range) ltac:(lia) Hnd Hl) as (preE & e' & postE & t' & Hsp & He' & Hen & Ht' & Hc).
    exists (e :: preE), e', postE, t'. split_and!; [by rewrite Hsp|done|done|done|].
    rewrite wrap_add_l in Hc by done. rewrite <- Hc.
    assert (sum_by ep_space (e :: preE) = endpointSize t + sum_by ep_space preE) as ->
      by (simpl; unfold ep_space at 1; by rewrite Ht).
    by rewrite Z.add_assoc.
Qed.

(** ** Arenas

    Both byte arrays hold the values of a list of attributes one after the
    other.  [lives] says which elements of the list have a value there; a string
    that lives there has a length that stays inside its attribute. *)
Definition value_wf (am : EmberAfAttributeMetadata) (l : bytes) : Prop :=
  if emberAfIsStringAttributeType (attributeType am) then
    ∃ s0, l !! 0%nat = Some s0 ∧ (s0 = 0xFF ∨ s0 ≤ am_size am - 1)
  else if emberAfIsLongStringAttributeType (attributeType am) then
    ∃ s01, mread l 0 2 = Some s01 ∧ (le_val s01 = 0xFFFF ∨ le_val s01 ≤ am_size am - 2)
  else True.

Lemma mread_within l k n off : (off + k ≤ n)%nat → (n ≤ length l)%nat → mread (drop off l) 0 k = mread (drop off (take n l)) 0 k.
Proof.
  intros H1 H2. unfold mread. rewrite !length_drop, length_take.
  rewrite !(proj2 (Nat.leb_le _ _)) by lia. f_equal. rewrite !drop_0.
  rewrite skipn_firstn_comm, take_take. f_equal; lia.
Qed.

Lemma copied_within am n l : let sz := Z.to_nat (am_size am) in
  min_room am ≤ am_size am → 0 ≤ n → value_wf am l → (sz ≤ length l)%nat →
  copied am n (Some l) = copied am n (Some (take sz l)).
Proof.
  intros sz Hmin Hn Hwf Hl. unfold copied, value_wf, min_room, copied_string, copied_long_string in *.
  destruct (emberAfIsStringAttributeType _); [|destruct (emberAfIsLongStringAttributeType _);
    [|destruct (emberAfIsThisDataTypeAListType _)]].
  - destruct Hwf as (s0 & H0 & Hs). rewrite lookup_take_lt by lia. rewrite H0.
    destruct (Z.eqb_spec s0 0xFF); [done|]. by rewrite (mread_within l _ sz 1) by lia.
  - destruct Hwf as (s01 & H0 & Hs). rewrite <- (drop_0 l) in H0. rewrite (mread_within l 2 sz 0) in H0 by lia.
    assert (mread l 0 2 = Some s01) as -> by (rewrite <- (drop_0 l), (mread_within l 2 sz 0) by lia; done).
    rewrite drop_0 in H0. rewrite H0. destruct (Z.eqb_spec (le_val s01) 0xFFFF); [done|].
    by rewrite (mread_within l _ sz 2) by lia.
  - rewrite <- (drop_0 l), (mread_within l 2 sz 0) by lia. by rewrite !drop_0.
  - rewrite <- (drop_0 l), (mread_within l _ sz 0) by lia. by rewrite !drop_0.
Qed.

Lemma value_wf_ext am l l' : let sz := Z.to_nat (am_size am) in
  min_room am ≤ am_size am → (sz ≤ length l)%nat → (sz ≤ length l')%nat → take sz l = take sz l' →
  value_wf am l → value_wf am l'.
Proof.
  intros sz Hmin Hl Hl' Ht. unfold value_wf, min_room in *.
  destruct (emberAfIsStringAttributeType _); [|destruct (emberAfIsLongStringAttributeType _); [|done]].
  - intros (s0 & H0 & Hs). exists s0. split; [|done].
    rewrite <- (lookup_take_lt l' sz), <- Ht, lookup_take_lt by lia. done.
  - intros (s01 & H0 & Hs). exists s01. split; [|done].
    rewrite <- (drop_0 l'), (mread_within l' 2 sz 0), <- Ht, <- (mread_within l 2 sz 0), drop_0 by lia. done.
Qed.

Lemma copied_wf am src v rest : min_room am ≤ am_size am →
  match src with Some s => bytes_ok s | None => True end →
  copied am (am_size am) src = Some v → value_wf am (v ++ rest).
Proof.
  intros Hmin Hs. unfold copied, value_wf, min_room, copied_string, copied_long_string in *.
  destruct (emberAfIsStringAttributeType _); [|destruct (emberAfIsLongStringAttributeType _); [|done]].
  - destruct src as [s|].
    + let_step s0 E0. case_match; [intros [= <-]; eexists; split; [done|by left]|].
      let_step bs E. intros [= <-]. eexists. split; [done|]. right. lia.
    + intros [= <-]. eexists. split; [done|]. right. lia.
  - destruct src as [s|].
    + let_step s01 E0. case_match eqn:E1; [intros [= <-]; eexists; split; [apply (mread_app_front [255; 255]); simpl; lia|by left]|].
      let_step bs E. intros Ev. apply (inj Some) in Ev as <-. eexists.
      rewrite <- app_assoc. split; [apply mread_app_front; by rewrite length_le_bytes|]. right.
      rewrite take_ge by (by rewrite length_le_bytes). apply Z.eqb_neq in E1.
      assert (bytes_ok s01) as Hb by (exact (mread_bytes_ok _ _ _ _ Hs E0)).
      pose proof (le_val_range s01 Hb) as Hr. rewrite (mread_length _ _ _ _ E0) in Hr. change (256 ^ Z.of_nat 2) with 65536 in Hr.
      rewrite le_val_bytes by (change (256 ^ Z.of_nat 2) with 65536; lia). lia.
    + intros [= <-]. eexists. split; [apply (mread_app_front [0; 0]); simpl; lia|]. right. simpl. lia.
Qed.

Section arena.
Context {A : Type} (am_of : A → EmberAfAttributeMetadata) (space : A → Z) (lives : A → Prop).
Implicit Types (l : list A) (mem : bytes).

Definition arena_offset l (i : nat) : nat := Z.to_nat (sum_by space (take i l)).

Record arena_ok l mem : Prop := {
  ar_nonneg : Forall (fun x => 0 ≤ space x) l;
  ar_total : sum_by space l ≤ Z.of_nat (length mem) < 65536;
  ar_bytes : bytes_ok mem;
  ar_values : ∀ i x, l !! i = Some x → lives x →
    space x = am_size (am_of x) ∧ min_room (am_of x) ≤ am_size (am_of x) ∧
    value_wf (am_of x) (drop (arena_offset l i) mem) }.

Lemma arena_offset_Z l mem i : arena_ok l mem → Z.of_nat (arena_offset l i) = sum_by space (take i l).
Proof.
  intros [Hn _ _ _]. unfold arena_offset. rewrite Z2Nat.id; [done|]. by apply sum_by_nonneg, Forall_take.
Qed.

Lemma arena_bound l mem i x : arena_ok l mem → l !! i = Some x →
  (arena_offset l i + Z.to_nat (space x) ≤ length mem)%nat.
Proof.
  intros Hok Hx. pose proof (arena_offset_Z l mem i Hok). destruct Hok as [Hn Ht _ _].
  pose proof (sum_by_take_le space l i x Hn Hx). pose proof (Forall_lookup_1 _ _ _ _ Hn Hx). simpl in *. lia.
Qed.

Lemma arena_disjoint l mem i j x y : arena_ok l mem → l !! i = Some x → l !! j = Some y → i ≠ j →
  (arena_offset l i + Z.to_nat (space x) ≤ arena_offset l j ∨
   arena_offset l j + Z.to_nat (space y) ≤ arena_offset l i)%nat.
Proof.
  intros Hok Hx Hy Hne. pose proof (arena_offset_Z l mem i Hok). pose proof (arena_offset_Z l mem j Hok).
  destruct Hok as [Hn Ht _ _]. pose proof (Forall_lookup_1 _ _ _ _ Hn Hx). pose proof (Forall_lookup_1 _ _ _ _ Hn Hy).
  destruct (Nat.lt_total i j) as [Hlt|[|Hlt]]; [|done|].
  - pose proof (sum_by_take_lt space l i j x Hn Hlt Hx). left. simpl in *. lia.
  - pose proof (sum_by_take_lt space l j i y Hn Hlt Hy). right. simpl in *. lia.
Qed.

(** Writing the value of one element keeps the arena, shows the value at its
    place and is not seen by any other element. *)
Lemma arena_write l mem i x src v :
  arena_ok l mem → l !! i = Some x → lives x →
  match src with Some s => bytes_ok s | None => True end →
  copied (am_of x) (am_size (am_of x)) src = Some v →
  ∃ mem', mwrite mem (arena_offset l i) v = Some mem' ∧ arena_ok l mem' ∧
    (∃ rest, drop (arena_offset l i) mem' = v ++ rest) ∧
    (∀ j y n, j ≠ i → l !! j = Some y → lives y → 0 ≤ n →
       copied (am_of y) n (Some (drop (arena_offset l j) mem')) = copied (am_of y) n (Some (drop (arena_offset l j) mem))).
Proof.
  intros Hok Hx Hlx Hs Hv. destruct (ar_values _ _ Hok _ _ Hx Hlx) as (Hsp & Hmin & _).
  pose proof (arena_bound _ _ _ _ Hok Hx) as Hb.
  assert (0 ≤ am_size (am_of x)) as Hsz by (rewrite <- Hsp; exact (Forall_lookup_1 _ _ _ _ (ar_nonneg _ _ Hok) Hx)).
  pose proof (copied_length _ _ _ _ Hsz Hmin Hs Hv) as Hlv.
  destruct (mwrite_is_Some mem (arena_offset l i) v) as [mem' Hw]; [lia|]. exists mem'.
  pose proof (mwrite_length _ _ _ _ Hw) as Hlen. split; [done|].
  assert (Hrest : ∃ rest, drop (arena_offset l i) mem' = v ++ rest).
  { exists (drop (arena_offset l i + length v) mem). apply mwrite_Some in Hw as [? ->].
    rewrite drop_app_length'; [done|]. rewrite length_take. lia. }
  assert (Hother : ∀ j y, j ≠ i → l !! j = Some y → lives y →
    take (Z.to_nat (am_size (am_of y))) (drop (arena_offset l j) mem') =
    take (Z.to_nat (am_size (am_of y))) (drop (arena_offset l j) mem)).
  { intros j y Hne Hy Hly. destruct (ar_values _ _ Hok _ _ Hy Hly) as (Hspy & _ & _).
    pose proof (arena_bound _ _ _ _ Hok Hy). pose proof (arena_disjoint _ _ _ _ _ _ Hok Hx Hy (not_eq_sym Hne)) as Hd.
    rewrite Hspy in *. rewrite Hsp in *.
    assert (mread mem' (arena_offset l j) (Z.to_nat (am_size (am_of y))) = mread mem (arena_offset l j) (Z.to_nat (am_size (am_of y)))) as E.
    { apply (mread_mwrite_disjoint _ _ _ _ _ _ Hw). lia. }
    unfold mread in E. rewrite !(proj2 (Nat.leb_le _ _)) in E by lia. by injection E. }
  split; [|split; [done|]].
  - split; [apply Hok|rewrite Hlen; apply Hok| |].
    + eapply mwrite_bytes_ok; [exact (ar_bytes _ _ Hok)| |exact Hw]. eapply copied_bytes_ok; [exact Hmin|exact Hs|exact Hv].
    + intros j y Hy Hly. destruct (ar_values _ _ Hok _ _ Hy Hly) as (Hspy & Hminy & Hwf). split_and!; [done|done|].
      destruct (decide (j = i)) as [->|Hne].
      * simplify_eq. destruct Hrest as [rest ->]. by eapply copied_wf.
      * pose proof (arena_bound _ _ _ _ Hok Hy). rewrite Hspy in *.
        eapply value_wf_ext; [done|..|exact Hwf]; [rewrite length_drop; lia..|]. symmetry. by apply Hother.
  - intros j y n Hne Hy Hly Hn. destruct (ar_values _ _ Hok _ _ Hy Hly) as (Hspy & Hminy & Hwf).
    pose proof (arena_bound _ _ _ _ Hok Hy). rewrite Hspy in *.
    rewrite (copied_within (am_of y) n (drop (arena_offset l j) mem)) by (done || rewrite length_drop; lia).
    rewrite copied_within; [by rewrite Hother|done|done| |rewrite length_drop; lia].
    eapply value_wf_ext; [done|..|exact Hwf]; [rewrite length_drop; lia..|]. symmetry. by apply Hother.
Qed.
End arena.

(** ** The storage layout *)
Definition singleton_lives (am : EmberAfAttributeMetadata) : Prop := IsSingleton am = true ∧ IsExternal am = false.
Definition singleton_space (am : EmberAfAttributeMetadata) : Z :=
  if IsSingleton am && negb (IsExternal am) then am_size am else 0.
Definition slot_lives (x : slot) : Prop := stored (snd x) = true.

Section layout.
Context {P : Type} `{AttributePersistenceProvider P} (cfg : storage_config).
Implicit Types s : attribute_store P.

Definition fixed s : list EmberAfDefinedEndpoint :=
  take (Z.to_nat (FIXED_ENDPOINT_COUNT cfg)) (live_endpoints (table s)).
Abbreviation main_arena := (arena_ok snd slot_space slot_lives).
Abbreviation singleton_arena := (arena_ok id singleton_space singleton_lives).

(** What the generated tables satisfy, and what every write keeps. *)
Record layout_ok s : Prop := {
  lo_nodup : NoDup (endpoint <$> fixed s);
  lo_types : Forall endpoint_layout_ok (fixed s);
  lo_main : main_arena (flat (fixed s)) (attributeData s);
  lo_singletons : singleton_arena (generatedAttributes cfg) (singletonAttributeData s);
  lo_addr : ∀ x, x ∈ flat (fixed s) → IsSingleton (snd x) = true →
    generatedAttributes cfg !! am_addr (snd x) = Some (snd x) }.

(** A located attribute of a fixed endpoint is a slot, at the slot's offset. *)
Lemma located s ep cl id am off :
  layout_ok s → locate cfg s ep cl id = Some (inr (am, off, false)) →
  ∃ i c, flat (fixed s) !! i = Some (ep, c, am) ∧ clusterId c = cl ∧ attributeId am = id ∧
    0 ≤ off ∧ Z.to_nat off = arena_offset slot_space (flat (fixed s)) i.
Proof.
  intros Hok Hl. unfold locate in Hl.
  assert (in_u 16 0) as H0 by done.
  apply locate_endpoint_spec in Hl as (preE & e & postE & t & Hsp & <- & _ & Ht & Hc); [|done|lia|].
  2: { rewrite Z.sub_0_r. apply Hok. }
  rewrite Z.sub_0_r in Hsp. fold (fixed s) in Hsp.
  apply locate_cluster_spec in Hc as (preC & c & postC & pre & post & Hcs & Hm & Ham & Hid & ->); [|by apply wrap_range].
  pose proof (lo_types _ Hok) as Hty. rewrite Hsp in Hty. apply Forall_app in Hty as [HtyE Hty].
  apply Forall_cons in Hty as [Htye _]. unfold endpoint_layout_ok in Htye. rewrite Ht in Htye. destruct Htye as [_ Htc].
  rewrite Hcs in Htc. apply Forall_app in Htc as [HtcC _].
  set (front := flat preE ++ (preC ≫= flat_cluster (endpoint e)) ++ ((fun am => (endpoint e, c, am)) <$> pre)).
  assert (Hflat : ∃ rest, flat (fixed s) = front ++ (endpoint e, c, am) :: rest).
  { rewrite Hsp. unfold flat, front. rewrite bind_app. cbn [mbind list_bind]. unfold flat_endpoint at 2. rewrite Ht, Hcs.
    assert (flat_cluster (endpoint e) c = ((fun am => (endpoint e, c, am)) <$> pre) ++
      (endpoint e, c, am) :: ((fun am => (endpoint e, c, am)) <$> post)) as Hfc
      by (unfold flat_cluster; by rewrite Ham, fmap_app).
    rewrite bind_app. cbn [mbind list_bind]. rewrite Hfc. eexists. rewrite <- !app_assoc. cbn [app]. reflexivity. }
  assert (Hsum : sum_by slot_space front = sum_by ep_space preE + (sum_by clusterSize preC + sum_by am_space pre)).
  { unfold front. rewrite !sum_by_app. f_equal; [by apply flat_space|]. f_equal.
    - apply sum_by_bind. eapply List.Forall_impl; [|exact HtcC]. intros c'. apply flat_cluster_space.
    - clear. induction pre as [|a pre IH]; [done|]. cbn [fmap list_fmap sum_by foldr].
      fold (sum_by slot_space ((fun am => (endpoint e, c, am)) <$> pre)). rewrite IH. done. }
  destruct Hflat as [rest Hflat].
  assert (Hi : flat (fixed s) !! length front = Some (endpoint e, c, am)) by (rewrite Hflat; by apply list_lookup_middle).
  exists (length front), c. split_and!; [done| |done|by apply wrap_range|].
  - unfold emAfMatchCluster in Hm. apply andb_true_iff in Hm as [Hm _]. by apply Z.eqb_eq.
  - pose proof (lo_main _ Hok) as Har. pose proof (arena_offset_Z _ _ _ _ _ (length front) Har) as Ho.
    pose proof (arena_bound _ _ _ _ _ _ _ Har Hi) as Hb. pose proof (ar_total _ _ _ _ _ Har) as Htot.
    rewrite wrap_add_l by done. rewrite Z.add_0_l, <- Hsum.
    assert (take (length front) (flat (fixed s)) = front) as Htk by (rewrite Hflat; by apply take_app_length).
    rewrite Htk in Ho. rewrite wrap_small; [lia|]. unfold in_u. change (2 ^ 16) with 65536. lia.
Qed.

Lemma singleton_offset_spec ams addr am o : in_u 16 o → ams !! addr = Some am →
  singleton_offset ams addr o = Some (u16 (o + sum_by singleton_space (take addr ams))).
Proof.
  revert ams o; induction addr as [|addr IH]; intros ams o Ho Ha; destruct ams as [|m ams]; [done| |done|].
  - simpl. rewrite Z.add_0_r, wrap_small by done. done.
  - cbn [singleton_offset lookup list_lookup take] in *.
    assert ((if IsSingleton m && negb (IsExternal m) then u16 (o + am_size m) else o) = u16 (o + singleton_space m)) as ->.
    { unfold singleton_space. destruct (_ && _); [done|]. by rewrite Z.add_0_r, wrap_small. }
    rewrite IH by (done || by apply wrap_range). rewrite wrap_add_l by done. simpl. do 2 f_equal. lia.
Qed.

Lemma singleton_location s am : layout_ok s → generatedAttributes cfg !! am_addr am = Some am →
  ∃ o, singletonAttributeLocation cfg am = Some o ∧ 0 ≤ o ∧
    Z.to_nat o = arena_offset singleton_space (generatedAttributes cfg) (am_addr am).
Proof.
  intros Hok Ha. pose proof (lo_singletons _ Hok) as Har.
  unfold singletonAttributeLocation. erewrite singleton_offset_spec by done. eexists. split; [done|].
  pose proof (arena_offset_Z _ _ _ _ _ (am_addr am) Har) as Ho. pose proof (arena_bound _ _ _ _ _ _ _ Har Ha).
  pose proof (ar_total _ _ _ _ _ Har). rewrite Z.add_0_l, wrap_small; [lia|]. unfold in_u. change (2 ^ 16) with 65536. lia.
Qed.
End layout.

(** ** Reading and writing a located attribute *)
Lemma typeSensitiveMemCopy_small m off src am write readLength :
  room am write readLength < min_room am →
  typeSensitiveMemCopy m off src am write readLength = Some (EMBER_ZCL_STATUS_RESOURCE_EXHAUSTED, m).
Proof.
  unfold typeSensitiveMemCopy, min_room. fold (room am write readLength). intros Hn.
  destruct (emberAfIsStringAttributeType _); [by rewrite (proj2 (Z.ltb_lt _ _))|].
  destruct (emberAfIsLongStringAttributeType _); [by rewrite (proj2 (Z.ltb_lt _ _))|].
  destruct (emberAfIsThisDataTypeAListType _); [by rewrite (proj2 (Z.ltb_lt _ _))|].
  unfold room in Hn. destruct (write || _); [lia|]. by rewrite (proj2 (Z.ltb_lt _ _)).
Qed.

Section access.
Context {P : Type} `{AttributePersistenceProvider P} (cfg : storage_config).
Implicit Types s : attribute_store P.

(** What a read of the value at [v] gives. *)
Definition read_value (am : EmberAfAttributeMetadata) (v : bytes) (dst : bytes) (readLength : Z)
    : option (EmberAfStatus * option bytes) :=
  if room am false readLength <? min_room am then Some (EMBER_ZCL_STATUS_RESOURCE_EXHAUSTED, Some dst)
  else let! w := copied am (room am false readLength) (Some v) in
       let! d := mwrite dst 0 w in Some (EMBER_ZCL_STATUS_SUCCESS, Some d).

Definition is_internal (am : EmberAfAttributeMetadata) : Prop := IsExternal am = false.

Lemma read_internal s ep cl id am off mem o dst rl :
  locate cfg s ep cl id = Some (inr (am, off, false)) → is_internal am →
  attribute_memory cfg s am off = Some (mem, o) → bytes_ok mem →
  read_attribute cfg s ep cl id (Some dst) rl =
  if negb (emberAfAttributeReadAccessCallback (callbacks cfg) ep cl (attributeId am))
  then Some (EMBER_ZCL_STATUS_UNSUPPORTED_ACCESS, Some dst)
  else read_value am (drop (Z.to_nat o) mem) dst rl.
Proof.
  intros Hl Hi Hm Hb. unfold read_attribute, read_value. rewrite Hl, Hm, Hi. cbn [fst snd negb].
  destruct (negb _); [done|]. destruct (Z.ltb_spec (room am false rl) (min_room am)).
  - by rewrite typeSensitiveMemCopy_small.
  - rewrite typeSensitiveMemCopy_write by (done || by apply bytes_ok_drop). change (Z.to_nat 0) with 0%nat.
    destruct (copied am _ _) as [w|]; [|done]. by destruct (mwrite dst 0 w).
Qed.

(** Where an internal attribute is, in one of the two arenas. *)
Inductive place s (ep : EndpointId) (cl : ClusterId) (id : AttributeId) (am : EmberAfAttributeMetadata) (off : Z) : Prop :=
| in_main i c : IsSingleton am = false → flat (fixed cfg s) !! i = Some (ep, c, am) → clusterId c = cl →
    attribute_memory cfg s am off = Some (attributeData s, off) → 0 ≤ off →
    Z.to_nat off = arena_offset slot_space (flat (fixed cfg s)) i → place s ep cl id am off
| in_singletons o : IsSingleton am = true → generatedAttributes cfg !! am_addr am = Some am →
    attribute_memory cfg s am off = Some (singletonAttributeData s, o) → 0 ≤ o →
    Z.to_nat o = arena_offset singleton_space (generatedAttributes cfg) (am_addr am) → place s ep cl id am off.

Lemma placed s ep cl id am off :
  layout_ok cfg s → locate cfg s ep cl id = Some (inr (am, off, false)) →
  attributeId am = id ∧ place s ep cl id am off.
Proof.
  intros Hok Hl. destruct (located cfg s _ _ _ _ _ Hok Hl) as (i & c & Hi & Hc & Hid & Hoff & Ho).
  split; [done|]. destruct (IsSingleton am) eqn:Hs.
  - pose proof (lo_addr _ _ Hok _ (list_elem_of_lookup_2 _ _ _ Hi) Hs) as Ha. simpl in Ha.
    destruct (singleton_location cfg s am Hok Ha) as (o & Hsl & Hpos & Heq).
    apply (in_singletons _ _ _ _ _ _ o); try done. unfold attribute_memory. by rewrite Hs, Hsl.
  - apply (in_main _ _ _ _ _ _ i c); try done. unfold attribute_memory. by rewrite Hs.
Qed.

Lemma place_bytes s ep cl id am off mem o :
  layout_ok cfg s → place s ep cl id am off → attribute_memory cfg s am off = Some (mem, o) → bytes_ok mem.
Proof.
  intros Hok Hp Hm. destruct Hp as [i c Hs _ _ Hm' _ _|o' Hs _ Hm' _ _]; rewrite Hm' in Hm; injection Hm as <- _.
  - apply (ar_bytes _ _ _ _ _ (lo_main _ _ Hok)).
  - apply (ar_bytes _ _ _ _ _ (lo_singletons _ _ Hok)).
Qed.

(** Two paths name the same stored value. *)
Definition same_value (p q : EndpointId * ClusterId * AttributeId) (am am' : EmberAfAttributeMetadata) : Prop :=
  p = q ∨ IsSingleton am = true ∧ IsSingleton am' = true ∧ am_addr am = am_addr am'.

Lemma write_internal s ep cl id am off src v :
  layout_ok cfg s → locate cfg s ep cl id = Some (inr (am, off, false)) → is_internal am →
  emberAfAttributeWriteAccessCallback (callbacks cfg) ep cl id = true →
  match src with Some b => bytes_ok b | None => True end →
  copied am (am_size am) src = Some v →
  ∃ s', write_attribute cfg s ep cl id src = Some (EMBER_ZCL_STATUS_SUCCESS, s') ∧ layout_ok cfg s' ∧
    table s' = table s ∧ gAttributeSaver s' = gAttributeSaver s ∧
    (∀ ep' cl' id' am' off', locate cfg s ep' cl' id' = Some (inr (am', off', false)) → is_internal am' →
       ∃ mem o mem' , attribute_memory cfg s am' off' = Some (mem, o) ∧ attribute_memory cfg s' am' off' = Some (mem', o) ∧
         bytes_ok mem ∧ bytes_ok mem' ∧
         (same_value (ep, cl, id) (ep', cl', id') am am' → am' = am ∧ ∃ rest, drop (Z.to_nat o) mem' = v ++ rest) ∧
         (¬ same_value (ep, cl, id) (ep', cl', id') am am' → ∀ n, 0 ≤ n →
            copied am' n (Some (drop (Z.to_nat o) mem')) = copied am' n (Some (drop (Z.to_nat o) mem)))).
Proof.
  intros Hok Hl Hi Hacc Hsrc Hv. destruct (placed _ _ _ _ _ _ Hok Hl) as [Hid Hp].
  unfold write_attribute. rewrite Hl. rewrite Hid, Hacc, Hi. cbn [negb].
  assert (Hwrite : ∀ m o, 0 ≤ o → min_room am ≤ am_size am →
    typeSensitiveMemCopy m o src am true 0 = let! m' := mwrite m (Z.to_nat o) v in Some (EMBER_ZCL_STATUS_SUCCESS, m')).
  { intros m o Ho Hmin. rewrite typeSensitiveMemCopy_write by done. cbn [room orb]. by rewrite Hv. }
  destruct Hp as [i c Hs Hf Hc Hm Hoff Ho|o Hs Ha Hm Hoff Ho]; rewrite Hm, Hs; cbn [fst snd].
  - assert (slot_lives (ep, c, am)) as Hlive by (unfold slot_lives, stored; simpl; by rewrite Hi, Hs).
    pose proof (lo_main _ _ Hok) as Har. destruct (ar_values _ _ _ _ _ Har _ _ Hf Hlive) as (_ & Hmin & _).
    destruct (arena_write _ _ _ _ _ _ _ _ _ Har Hf Hlive Hsrc Hv) as (mem' & Hw & Har' & Hrest & Hfr).
    rewrite Hwrite, Ho, Hw by done. eexists. split; [done|].
    split; [by split; apply Hok || exact Har'|]. split; [done|]. split; [done|].
    intros ep' cl' id' am' off' Hl' Hi'. destruct (placed _ _ _ _ _ _ Hok Hl') as [Hid' Hp'].
    destruct Hp' as [j c' Hs' Hf' Hc' Hm' Hoff' Ho'|o' Hs' Ha' Hm' Hoff' Ho'].
    + exists (attributeData s), off', mem'. split_and!; [done|by unfold attribute_memory; rewrite Hs'|apply Har|apply Har'| |].
      * intros [[= <- <- <-]|(?&?&?)]; [|congruence]. rewrite Hl in Hl'. injection Hl' as -> ->. rewrite Ho. done.
      * intros Hns n Hn. rewrite Ho'. eapply (Hfr j (ep', c', am')); [|done| |done].
        -- intros ->. apply Hns. left. rewrite Hf in Hf'. injection Hf' as <- <- <-. by rewrite <- Hid, Hid', <- Hc, Hc'.
        -- unfold slot_lives, stored; simpl. by rewrite Hi', Hs'.
    + exists (singletonAttributeData s), o', (singletonAttributeData s).
      split_and!; [done|unfold attribute_memory in *; by rewrite Hs' in *|apply (lo_singletons _ _ Hok)..| |done].
      intros [[= <- <- <-]|(?&?&?)]; [|congruence]. rewrite Hl in Hl'. congruence.
  - assert (singleton_lives am) as Hlive by done.
    pose proof (lo_singletons _ _ Hok) as Har. destruct (ar_values _ _ _ _ _ Har _ _ Ha Hlive) as (_ & Hmin & _).
    destruct (arena_write _ _ _ _ _ _ _ _ _ Har Ha Hlive Hsrc Hv) as (mem' & Hw & Har' & Hrest & Hfr).
    rewrite Hwrite, Ho, Hw by done. eexists. split; [done|].
    split; [by split; apply Hok || exact Har'|]. split; [done|]. split; [done|].
    intros ep' cl' id' am' off' Hl' Hi'. destruct (placed _ _ _ _ _ _ Hok Hl') as [Hid' Hp'].
    destruct Hp' as [j c' Hs' Hf' Hc' Hm' Hoff' Ho'|o' Hs' Ha' Hm' Hoff' Ho'].
    + exists (attributeData s), off', (attributeData s).
      split_and!; [done|by unfold attribute_memory; rewrite Hs'|apply (lo_main _ _ Hok)..| |done].
      intros [[= <- <- <-]|(?&?&?)]; [|congruence]. rewrite Hl in Hl'. congruence.
    + exists (singletonAttributeData s), o', mem'.
      split_and!; [done| |apply Har|apply Har'| |].
      * unfold attribute_memory in *. rewrite Hs' in *. destruct (singletonAttributeLocation cfg am'); [|done]. by injection Hm' as ->.
      * intros Hsame. assert (am' = am) as ->.
        { destruct Hsame as [[= <- <- <-]|(_ & _ & E)]; [rewrite Hl in Hl'; congruence|]. rewrite E in Ha. congruence. }
        split; [done|]. rewrite Ho'. done.
      * intros Hns n Hn. rewrite Ho'. eapply (Hfr (am_addr am') am'); [|done|done|done].
        intros E. apply Hns. right. done.
Qed.
End access.

Section store_theorems.
Context {P : Type} `{AttributePersistenceProvider P} (cfg : storage_config).
Implicit Types s : attribute_store P.

Lemma read_value_copied am src v rest dst rl :
  0 ≤ am_size am → min_room am ≤ am_size am → match src with Some b => bytes_ok b | None => True end →
  copied am (am_size am) src = Some v →
  read_value am (v ++ rest) dst rl =
  if room am false rl <? min_room am then Some (EMBER_ZCL_STATUS_RESOURCE_EXHAUSTED, Some dst)
  else let! w := copied am (Z.min (am_size am) (room am false rl)) src in
       let! d := mwrite dst 0 w in Some (EMBER_ZCL_STATUS_SUCCESS, Some d).
Proof.
  intros Hsz Hmin Hs Hv. unfold read_value. destruct (Z.ltb_spec (room am false rl) (min_room am)); [done|].
  by rewrite (copied_again am (am_size am) _ src v rest).
Qed.

Lemma place_min s ep cl id am off : layout_ok cfg s → is_internal am → place cfg s ep cl id am off →
  0 ≤ am_size am ∧ min_room am ≤ am_size am.
Proof.
  intros Hok Hi [i c Hs Hf _ _ _ _|o Hs Ha _ _ _].
  - pose proof (lo_main _ _ Hok) as Har.
    assert (slot_lives (ep, c, am)) as Hl by (unfold slot_lives, stored; simpl; by rewrite Hi, Hs).
    destruct (ar_values _ _ _ _ _ Har _ _ Hf Hl) as (Hsp & Hmin & _). split; [|done].
    simpl in Hsp. rewrite <- Hsp. exact (Forall_lookup_1 _ _ _ _ (ar_nonneg _ _ _ _ _ Har) Hf).
  - pose proof (lo_singletons _ _ Hok) as Har.
    destruct (ar_values _ _ _ _ _ Har _ _ Ha (conj Hs Hi)) as (Hsp & Hmin & _). split; [|done].
    simpl in Hsp. rewrite <- Hsp. exact (Forall_lookup_1 _ _ _ _ (ar_nonneg _ _ _ _ _ Har) Ha).
Qed.
End store_theorems.

Lemma write_read_spec {P} `{AttributePersistenceProvider P} cfg (s : attribute_store P) ep cl id am off src v :
  layout_ok cfg s → locate cfg s ep cl id = Some (inr (am, off, false)) → is_internal am →
  emberAfAttributeWriteAccessCallback (callbacks cfg) ep cl id = true →
  match src with Some b => bytes_ok b | None => True end → copied am (am_size am) src = Some v →
  ∃ s', write_attribute cfg s ep cl id src = Some (EMBER_ZCL_STATUS_SUCCESS, s') ∧ layout_ok cfg s' ∧
    table s' = table s ∧ gAttributeSaver s' = gAttributeSaver s ∧
    (∀ ep' cl' id' am' off' dst rl, locate cfg s ep' cl' id' = Some (inr (am', off', false)) → is_internal am' →
       same_value (ep, cl, id) (ep', cl', id') am am' →
       emberAfAttributeReadAccessCallback (callbacks cfg) ep' cl' id' = true →
       min_room am ≤ room am false rl →
       read_attribute cfg s' ep' cl' id' (Some dst) rl =
       let! w := copied am (Z.min (am_size am) (room am false rl)) src in
       let! d := mwrite dst 0 w in Some (EMBER_ZCL_STATUS_SUCCESS, Some d)) ∧
    (∀ ep' cl' id' buf rl, 0 ≤ rl →
       (∀ am' off', locate cfg s ep' cl' id' = Some (inr (am', off', false)) →
          ¬ same_value (ep, cl, id) (ep', cl', id') am am') →
       read_attribute cfg s' ep' cl' id' buf rl = read_attribute cfg s ep' cl' id' buf rl).
Proof.
  intros Hok Hl Hi Hacc Hs Hv.
  destruct (write_internal cfg s _ _ _ _ _ _ _ Hok Hl Hi Hacc Hs Hv) as (s' & Hw & Hok' & Ht & Hg & Hsee).
  assert (Hloc : ∀ ep' cl' id', locate cfg s' ep' cl' id' = locate cfg s ep' cl' id') by (unfold locate; by rewrite Ht).
  exists s'. split_and!; try done.
  - intros ep' cl' id' am' off' dst rl Hl' Hi' Hsame Hra Hroom.
    destruct (Hsee _ _ _ _ _ Hl' Hi') as (mem & o & mem' & Hm & Hm' & Hb & Hb' & Hsee1 & _).
    destruct (Hsee1 Hsame) as (-> & rest & Hrest). destruct (placed _ _ _ _ _ _ _ Hok Hl') as [Hid Hp].
    destruct (place_min _ _ _ _ _ _ _ Hok Hi Hp) as [Hsz Hmin].
    rewrite (read_internal cfg s' _ _ _ am off' mem' o) by (rewrite ?Hloc; done). rewrite Hid, Hra, Hrest. cbn [negb].
    rewrite (read_value_copied am src) by done. by rewrite (proj2 (Z.ltb_ge _ _)).
  - intros ep' cl' id' buf rl Hrl Hother. destruct (locate cfg s ep' cl' id') as [[status|[[am' off'] dyn]]|] eqn:Hl'.
    1,3: unfold read_attribute; by rewrite Hloc, Hl'.
    destruct dyn; [|destruct (IsExternal am') eqn:Hi'].
    + unfold read_attribute, attribute_memory. rewrite Hloc, Hl'. destruct (IsSingleton am'); [|done].
      by destruct (singletonAttributeLocation cfg am').
    + unfold read_attribute, attribute_memory. rewrite Hloc, Hl', Hi'. destruct (IsSingleton am'); [|done].
      by destruct (singletonAttributeLocation cfg am').
    + destruct (Hsee _ _ _ _ _ Hl' Hi') as (mem & o & mem' & Hm & Hm' & Hb & Hb' & _ & Hsee2).
      destruct buf as [dst|]; [|unfold read_attribute; rewrite Hloc, Hl', Hm, Hm'; done].
      rewrite (read_internal cfg s' _ _ _ am' off' mem' o) by (rewrite ?Hloc; done).
      rewrite (read_internal cfg s _ _ _ am' off' mem o) by done. destruct (negb _); [done|].
      unfold read_value. destruct (Z.ltb_spec (room am' false rl) (min_room am')); [done|].
      rewrite (Hsee2 (Hother _ _ eq_refl)); [done|]. unfold room. destruct (placed _ _ _ _ _ _ _ Hok Hl') as [_ Hp'].
      destruct (place_min _ _ _ _ _ _ _ Hok Hi' Hp'). cbn [orb]. destruct (rl =? 0); lia.
Qed.

(** C10: The flat attribute memory implements a store of separate values.  Writing
    an internal attribute of an enabled fixed endpoint succeeds inside the array
    and keeps the layout; afterwards every path that names the written value (the
    same path, or any path of the same singleton) reads what was written, cut to
    the attribute and to the reader's room when it is a string; and every other
    path reads exactly what it read before. *)
Theorem attribute_write_read {P} `{AttributePersistenceProvider P} cfg (s : attribute_store P) ep cl id am off src v :
  layout_ok cfg s → locate cfg s ep cl id = Some (inr (am, off, false)) → is_internal am →
  emberAfAttributeWriteAccessCallback (callbacks cfg) ep cl id = true →
  match src with Some b => bytes_ok b | None => True end → copied am (am_size am) src = Some v →
  ∃ s', write_attribute cfg s ep cl id src = Some (EMBER_ZCL_STATUS_SUCCESS, s') ∧ layout_ok cfg s' ∧
    table s' = table s ∧ gAttributeSaver s' = gAttributeSaver s ∧
    (∀ ep' cl' id' am' off' dst rl, locate cfg s ep' cl' id' = Some (inr (am', off', false)) → is_internal am' →
       same_value (ep, cl, id) (ep', cl', id') am am' →
       emberAfAttributeReadAccessCallback (callbacks cfg) ep' cl' id' = true →
       min_room am ≤ room am false rl →
       read_attribute cfg s' ep' cl' id' (Some dst) rl =
       let! w := copied am (Z.min (am_size am) (room am false rl)) src in
       let! d := mwrite dst 0 w in Some (EMBER_ZCL_STATUS_SUCCESS, Some d)) ∧
    (∀ ep' cl' id' buf rl, 0 ≤ rl →
       (∀ am' off', locate cfg s ep' cl' id' = Some (inr (am', off', false)) →
          ¬ same_value (ep, cl, id) (ep', cl', id') am am') →
       read_attribute cfg s' ep' cl' id' buf rl = read_attribute cfg s ep' cl' id' buf rl).
Proof. apply write_read_spec. Qed.

(** ** The walk as three lookups *)
Definition find_enabled (eps : list EmberAfDefinedEndpoint) (ep : EndpointId) : option EmberAfDefinedEndpoint :=
  snd <$> list_find (fun e => endpoint e = ep ∧ is_enabled e = true) eps.
Definition find_server (t : EmberAfEndpointType) (cl : ClusterId) : option EmberAfCluster :=
  snd <$> list_find (fun c => emAfMatchCluster c cl = true) (cluster t).
Definition find_attr (c : EmberAfCluster) (id : AttributeId) : option EmberAfAttributeMetadata :=
  snd <$> list_find (fun a => attributeId a = id) (attributes c).

Definition lookup_attribute (eps : list EmberAfDefinedEndpoint) (ep : EndpointId) (cl : ClusterId) (id : AttributeId)
    : EmberAfStatus + EmberAfAttributeMetadata :=
  match find_enabled eps ep with
  | None => inl EMBER_ZCL_STATUS_UNSUPPORTED_ENDPOINT
  | Some e =>
      match endpointType e ≫= (fun t => find_server t cl) with
      | None => inl EMBER_ZCL_STATUS_UNSUPPORTED_CLUSTER
      | Some c => match find_attr c id with
                  | None => inl EMBER_ZCL_STATUS_UNSUPPORTED_ATTRIBUTE
                  | Some am => inr am
                  end
      end
  end.

Lemma list_find_cons {A} (Q : A → Prop) `{!∀ x, Decision (Q x)} x l :
  snd <$> list_find Q (x :: l) = if decide (Q x) then Some x else snd <$> list_find Q l.
Proof. simpl. case_decide; [done|]. by destruct (list_find Q l) as [[]|]. Qed.

Definition found (r : EmberAfStatus + EmberAfAttributeMetadata * Z) : EmberAfStatus + EmberAfAttributeMetadata :=
  match r with inl st => inl st | inr (am, _) => inr am end.

Lemma locate_attribute_find c id off :
  found (locate_attribute (attributes c) id off) =
  match find_attr c id with None => inl EMBER_ZCL_STATUS_UNSUPPORTED_ATTRIBUTE | Some am => inr am end.
Proof.
  unfold find_attr. revert off. induction (attributes c) as [|a l IH]; intros off; [done|].
  rewrite list_find_cons. cbn [locate_attribute]. unfold emAfMatchAttribute.
  destruct (Z.eqb_spec (attributeId a) id); [by rewrite decide_True|]. rewrite decide_False by done. apply IH.
Qed.

Lemma locate_cluster_find t cl id off :
  found (locate_cluster (cluster t) cl id off) =
  match find_server t cl with
  | None => inl EMBER_ZCL_STATUS_UNSUPPORTED_CLUSTER
  | Some c => match find_attr c id with None => inl EMBER_ZCL_STATUS_UNSUPPORTED_ATTRIBUTE | Some am => inr am end
  end.
Proof.
  unfold find_server. revert off. induction (cluster t) as [|c l IH]; intros off; [done|].
  rewrite list_find_cons. cbn [locate_cluster]. destruct (emAfMatchCluster c cl).
  - rewrite decide_True by done. apply locate_attribute_find.
  - rewrite decide_False by done. apply IH.
Qed.

Lemma locate_endpoint_find F eps i ep cl id off :
  Forall (fun e => endpointType e ≠ None) (take (Z.to_nat (F - i)) eps) →
  Forall (fun e => is_enabled e = true → endpointType e ≠ None) eps →
  ∃ r, locate_endpoint F eps i ep cl id off = Some r ∧
    match r with inl st => inl st | inr (am, _, _) => inr am end = lookup_attribute eps ep cl id ∧
    match r with
    | inr (am, _, true) => ∃ e, e ∈ drop (Z.to_nat (F - i)) eps ∧ endpoint e = ep
    | _ => True
    end.
Proof.
  unfold lookup_attribute, find_enabled. revert i off.
  induction eps as [|e eps IH]; intros i off Hf Hl; [by eexists|].
  rewrite list_find_cons. cbn [locate_endpoint]. apply Forall_cons in Hl as [He Hl].
  assert (Hrec : ∀ off', ∃ r, locate_endpoint F eps (i + 1) ep cl id off' = Some r ∧
    match r with inl st => inl st | inr (am, _, _) => inr am end =
    match snd <$> list_find (fun e => endpoint e = ep ∧ is_enabled e = true) eps with
    | None => inl EMBER_ZCL_STATUS_UNSUPPORTED_ENDPOINT
    | Some e => match endpointType e ≫= (fun t => find_server t cl) with
        | None => inl EMBER_ZCL_STATUS_UNSUPPORTED_CLUSTER
        | Some c => match find_attr c id with None => inl EMBER_ZCL_STATUS_UNSUPPORTED_ATTRIBUTE | Some am => inr am end
        end
    end ∧
    match r with inr (am, _, true) => ∃ e0, e0 ∈ drop (Z.to_nat (F - i)) (e :: eps) ∧ endpoint e0 = ep | _ => True end).
  { intros off'. destruct (IH (i + 1) off') as (r & Hr & Hm & Hd); [|done|].
    - destruct (Z.to_nat (F - i)) as [|k] eqn:Hk.
      + replace (Z.to_nat (F - (i + 1))) with 0%nat by lia. apply Forall_nil_2.
      + replace (Z.to_nat (F - (i + 1))) with k by lia. simpl in Hf. by apply Forall_cons in Hf as [_ Hf].
    - exists r. split_and!; [done|done|]. destruct r as [|[[am o] []]]; try done. destruct Hd as (e0 & Hin & He0).
      exists e0. split; [|done]. destruct (Z.to_nat (F - i)) as [|k] eqn:Hk.
      + replace (Z.to_nat (F - (i + 1))) with 0%nat in Hin by lia. by right.
      + by replace (Z.to_nat (F - (i + 1))) with k in Hin by lia. }
  fold (is_enabled e). destruct (Z.eqb_spec (endpoint e) ep) as [Hep|Hep].
  - destruct (is_enabled e) eqn:Hen; cbn [negb].
    + rewrite decide_True by done. destruct (endpointType e) as [t|]; [|by destruct He]. cbn [mbind option_bind].
      rewrite <- (locate_cluster_find t cl id off). eexists. split; [done|].
      destruct (locate_cluster (cluster t) cl id off) as [st|[am o]]; [done|]. split; [done|].
      destruct (Z.leb_spec F i); [|done]. exists e. split; [|done].
      replace (Z.to_nat (F - i)) with 0%nat by lia. by left.
    + rewrite decide_False by naive_solver. apply Hrec.
  - rewrite decide_False by naive_solver. destruct (Z.leb_spec F i); [apply Hrec|].
    destruct (endpointType e) as [t|] eqn:Ht; [apply Hrec|].
    replace (Z.to_nat (F - i)) with (S (Z.to_nat (F - i - 1))) in Hf by lia. simpl in Hf.
    by apply Forall_cons in Hf as [? _].
Qed.

(** Locating an attribute is three lookups: the first enabled endpoint with
    the id, its server cluster, the attribute of the cluster.  The status says
    which of the three failed, it is never undefined on a table whose endpoints
    have their types, and an attribute found on a dynamic endpoint is flagged. *)
Theorem locate_is_lookup {P} (cfg : storage_config) (s : attribute_store P) ep cl id :
  Forall (fun e => endpointType e ≠ None) (fixed cfg s) →
  Forall (fun e => is_enabled e = true → endpointType e ≠ None) (live_endpoints (table s)) →
  ∃ r, locate cfg s ep cl id = Some r ∧
    match r with inl st => inl st | inr (am, _, _) => inr am end =
    lookup_attribute (live_endpoints (table s)) ep cl id ∧
    match r with
    | inr (am, _, true) => ∃ e, e ∈ drop (Z.to_nat (FIXED_ENDPOINT_COUNT cfg)) (live_endpoints (table s)) ∧ endpoint e = ep
    | _ => True
    end.
Proof.
  intros Hf Hl. destruct (locate_endpoint_find (FIXED_ENDPOINT_COUNT cfg) (live_endpoints (table s)) 0 ep cl id 0)
    as (r & Hr); [by rewrite Z.sub_0_r|done|]. rewrite Z.sub_0_r in Hr. by exists r.
Qed.

(** ** A concrete store

    Endpoint 0 has a node label (a persisted string of four characters) and a
    singleton revision; endpoints 1 and 2 have the same On/Off server, with
    [OnOff] and [StartUpOnOff], and the singleton. *)
Module StorageDemo.
Import FlashDemo.
Definition attr (d : EmberAfDefaultOrMinMaxAttributeValue) (id sz ty mask : Z) (addr : nat) : EmberAfAttributeMetadata :=
  {| am_default := d; attributeId := id; am_size := sz; attributeType := ty; am_mask := mask; am_addr := addr |}.
Definition am_label := attr (DMPtr None) 5 5 ZCL_CHAR_STRING_ATTRIBUTE_TYPE 0x03 0.
Definition am_rev := attr (DMValue 1) 0xFFFD 2 ZCL_INT16U_ATTRIBUTE_TYPE 0x20 1.
Definition am_onoff := attr (DMValue 0) 0 1 ZCL_BOOLEAN_ATTRIBUTE_TYPE 0x02 2.
Definition am_startup := attr (DMValue 0xFF) 0x4003 1 ZCL_ENUM8_ATTRIBUTE_TYPE 0x43 3.
Definition c_basic : EmberAfCluster :=
  {| clusterId := 0x28; attributes := [am_label; am_rev]; clusterSize := 5; cl_mask := 0x40; functions := [] |}.
Definition c_onoff : EmberAfCluster :=
  {| clusterId := 6; attributes := [am_onoff; am_startup; am_rev]; clusterSize := 2; cl_mask := 0x51; functions := [0; 1]%nat |}.
Definition entry (id : EndpointId) (t : EmberAfEndpointType) : EmberAfDefinedEndpoint :=
  {| endpoint := id; deviceTypeList := []; bitmask := 3; endpointType := Some t; dataVersions := Some 0%nat;
     parentEndpointId := kInvalidEndpointId |}.
Definition eps : list EmberAfDefinedEndpoint :=
  [entry 0 {| cluster := [c_basic]; endpointSize := 5 |};
   entry 1 {| cluster := [c_onoff]; endpointSize := 2 |};
   entry 2 {| cluster := [c_onoff]; endpointSize := 2 |}].
Definition config : storage_config :=
  {| FIXED_ENDPOINT_COUNT := 3; generatedAttributes := [am_label; am_rev; am_onoff; am_startup]; ATTRIBUTE_LARGEST := 5;
     callbacks := default_callbacks |}.
Abbreviation provider := (DefaultAttributePersistenceProvider (KvsPersistentStorageDelegate (gmap string bytes))).
Definition store : attribute_store provider :=
  {| table := {| emAfEndpoints := eps; emberEndpointCount := 3; gAttributeAccessOverrides := []; ep_log := [] |};
     attributeData := [2; 104; 105; 0; 0; 1; 255; 0; 255]; singletonAttributeData := [1; 0];
     gAttributeSaver := Some (on_flash ∅) |}.

Lemma clusters_ok : cluster_layout_ok c_basic ∧ cluster_layout_ok c_onoff.
Proof.
  split; (split; [reflexivity|]); repeat (apply Forall_cons; split; [vm_compute; split; congruence|]); apply Forall_nil_2.
Qed.

Lemma store_layout : layout_ok config store.
Proof.
  split.
  - vm_compute. repeat (constructor; [by intros ?%list_elem_of_In; vm_compute in *; intuition congruence|]). constructor.
  - destruct clusters_ok. change (Forall endpoint_layout_ok eps).
    repeat (apply Forall_cons; split; [split; [reflexivity|by apply Forall_singleton]|]). apply Forall_nil_2.
  - split; [|vm_compute; split; congruence|repeat constructor; done|].
    + vm_compute. repeat constructor; discriminate.
    + intros i x Hx Hl. do 8 (destruct i as [|i]; [apply (inj Some) in Hx as <-; first [discriminate Hl|
        split; [reflexivity|split; [vm_compute; congruence|]];
        first [exact I|exists 2; split; [reflexivity|right; vm_compute; congruence]]]|]). discriminate Hx.
  - split; [|vm_compute; split; congruence|repeat constructor; done|].
    + vm_compute. repeat constructor; discriminate.
    + intros i x Hx [H1 H2]. do 4 (destruct i as [|i]; [apply (inj Some) in Hx as <-; first [discriminate H1|
        split; [reflexivity|split; [vm_compute; congruence|exact I]]]|]). discriminate Hx.
  - intros x Hx Hs. apply list_elem_of_In in Hx. vm_compute in Hx.
    repeat (destruct Hx as [<-|Hx]; [first [discriminate Hs|reflexivity]|]). destruct Hx.
Qed.

Lemma attribute_write_read_witness :
  ∃ s', write_attribute config store 0 0x28 5 (Some [6; 97; 98; 99; 100; 101; 102]) = Some (EMBER_ZCL_STATUS_SUCCESS, s') ∧
    read_attribute config s' 0 0x28 5 (Some [0; 0; 0; 0; 0]) 0 = Some (EMBER_ZCL_STATUS_SUCCESS, Some [4; 97; 98; 99; 100]) ∧
    read_attribute config s' 1 6 0 (Some [7]) 0 = Some (EMBER_ZCL_STATUS_SUCCESS, Some [1]).
Proof.
  destruct (attribute_write_read config store 0 0x28 5 am_label 0 (Some [6; 97; 98; 99; 100; 101; 102]) [4; 97; 98; 99; 100]
    store_layout) as (s' & Hw & _ & _ & _ & Hsame & Hother).
  - reflexivity.
  - reflexivity.
  - reflexivity.
  - repeat constructor; vm_compute; congruence.
  - reflexivity.
  - exists s'. split; [exact Hw|]. split.
    + rewrite (Hsame 0 0x28 5 am_label 0); [reflexivity|reflexivity|reflexivity|left; reflexivity|reflexivity|].
      vm_compute; congruence.
    + rewrite Hother; [reflexivity|lia|]. intros am' off' _ [E|[E _]]; discriminate E.
Defined.

Lemma locate_is_lookup_witness :
  ∃ r, locate config store 3 6 0 = Some r ∧
    match r with inl st => st | _ => EMBER_ZCL_STATUS_SUCCESS end = EMBER_ZCL_STATUS_UNSUPPORTED_ENDPOINT.
Proof.
  destruct (locate_is_lookup config store 3 6 0) as (r & Hr & Hm & _).
  - repeat constructor; discriminate.
  - repeat constructor; discriminate.
  - exists r. split; [exact Hr|]. destruct r as [st|[[am o] d]]; [|discriminate Hm]. injection Hm as ->. reflexivity.
Defined.
End StorageDemo.
