(* ===== verification/AttributeTable.v ===== *)
(** * AttributeTable: writing an attribute with its checks and callbacks

    [src/src/app/util/attribute-table.cpp]: the type, access, range and null
    checks of a write, the product's and the cluster's callbacks before and
    after it, and the persistence of the new value; with the comparison of
    values from [src/src/app/util/util.cpp].

    The state is the attribute store with a log of the calls made after a
    write, in order, each with the store it finds. *)
From S2P Require Import Prelude Zcl EndpointTable ClusterQueries ChipError Persistence AttributeStorage.

(** ** Comparing values *)
Definition s32 (x : Z) : Z := let u := u32 x in if u <? 2 ^ 31 then u else u - 2 ^ 32.

(** [val1] may be null, which stands for zeroes. *)
Definition val1_byte (val1 : option bytes) (k : nat) : option Z :=
  match val1 with None => Some 0 | Some b => b !! k end.

(** The signed branch: bytes from the top, [k] of them left. *)
Fixpoint accumulate (byte : nat → option Z) (k : nat) (accum : Z) : option Z :=
  match k with
  | O => Some accum
  | S k =>
      let! j := byte k in
      accumulate byte k (s32 (Z.lor accum (s32 (Z.shiftl j (8 * Z.of_nat k)))))
  end.

Definition sign_extend (len accum : Z) : Z :=
  if (len <? 4) && has_bits accum (Z.shiftl 1 (8 * len - 1))
  then Z.lor accum (-1 - (Z.shiftl 1 (len * 8) - 1))
  else accum.

Fixpoint compare_unsigned (byte1 byte2 : nat → option Z) (k : nat) : option Z :=
  match k with
  | O => Some 0
  | S k =>
      let! j := byte1 k in
      let! b := byte2 k in
      if b <? j then Some 1 else if j <? b then Some (-1) else compare_unsigned byte1 byte2 k
  end.

Definition emberAfCompareValues (val1 : option bytes) (val2 : bytes) (len : Z) (signedNumber : bool) : option Z :=
  if len =? 0 then Some 0
  else if signedNumber then
    if len <=? 4 then
      let! accum1 := accumulate (val1_byte val1) (Z.to_nat len) 0 in
      let! accum2 := accumulate (fun k => val2 !! k) (Z.to_nat len) 0 in
      let accum1 := sign_extend len accum1 in
      let accum2 := sign_extend len accum2 in
      Some (if accum2 <? accum1 then 1 else if accum1 <? accum2 then -1 else 0)
    else Some 0
  else compare_unsigned (val1_byte val1) (fun k => val2 !! k) (Z.to_nat len).

Definition emberAfIsTypeSigned (dataType : Z) : bool :=
  (ZCL_INT8S_ATTRIBUTE_TYPE <=? dataType) && (dataType <=? ZCL_INT64S_ATTRIBUTE_TYPE).

(** [IsNullValue]: the null value of an integer of [dataLen] bytes is its most
    negative value when it is signed and its largest one otherwise. *)
Definition null_value (dataLen : Z) (isAttributeSigned : bool) : Z :=
  if isAttributeSigned then 2 ^ (8 * dataLen - 1) else 2 ^ (8 * dataLen) - 1.

Definition IsNullValue (data : bytes) (dataLen : Z) (isAttributeSigned : bool) : option bool :=
  if 4 <? dataLen then Some false
  else if dataLen =? 0 then Some false
  else let! val := mread data 0 (Z.to_nat dataLen) in
       Some (le_val val =? null_value dataLen isAttributeSigned).

(** ** State, callbacks and the log *)
Inductive at_event : Type :=
| MatterReportingAttributeChange (path : attribute_path)
| MatterPostAttributeChange (path : attribute_path) (type size : Z) (value : option bytes)
| ClusterAttributeChanged (f : nat) (path : attribute_path).

Record at_state (P : Type) := { store : attribute_store P; at_log : list (at_event * attribute_store P) }.
#[global] Arguments store {P} _.
#[global] Arguments at_log {P} _.
#[export] Instance eta_at_state {P} : Eta (at_state P) := fun s => {| store := store s; at_log := at_log s |}.

Inductive EmberAfAttributeWritePermission : Set :=
| DenyWrite | AllowWriteNormal | AllowWriteOfReadOnly
| Perm_UnsupportedAttribute | Perm_InvalidValue | Perm_ReadOnly | Perm_InvalidDataType.

(** The callbacks around a change that a product or a cluster defines; the
    status of [MatterPreAttributeChangeCallback] is an interaction model code. *)
Record change_hooks := {
  emberAfAllowNetworkWriteAttributeCallback :
    EndpointId → ClusterId → AttributeId → option bytes → Z → EmberAfAttributeWritePermission;
  MatterPreAttributeChangeCallback : attribute_path → Z → Z → option bytes → Z;
  ClusterPreAttributeChanged : nat → attribute_path → Z → Z → option bytes → EmberAfStatus }.

(** [generic-callback-stubs.cpp]; the clusters of the relay have no pre-change
    function. *)
Definition default_hooks : change_hooks := {|
  emberAfAllowNetworkWriteAttributeCallback _ _ _ _ _ := AllowWriteNormal;
  MatterPreAttributeChangeCallback _ _ _ _ := 0;
  ClusterPreAttributeChanged _ _ _ _ _ := EMBER_ZCL_STATUS_SUCCESS |}.

Definition ToEmberAfStatus (code : Z) : option EmberAfStatus := status_of_code code.

(** ** Writing *)
Section table.
Context {P : Type} `{AttributePersistenceProvider P} (cfg : storage_config) (hooks : change_hooks).
Implicit Types s : at_state P.

(** The bounds of a min/max attribute, as pointers to their bytes. *)
Definition bound_bytes (v : EmberAfDefaultAttributeValue) (dataLen : Z) : option (option bytes) :=
  if dataLen <=? 2
  then match v with DefValue x => Some (Some (le_bytes 2 x)) | DefPtr _ => None end
  else match v with DefPtr p => Some p | DefValue _ => None end.

(** The range check of a write: the value is outside the bounds and is not the
    null of a nullable attribute. *)
Definition out_of_bounds (metadata : EmberAfAttributeMetadata) (data : option bytes) : option bool :=
  if negb (Z.land (am_mask metadata) ATTRIBUTE_MASK_MIN_MAX =? 0) then
    match am_default metadata with
    | DMMinMax mm =>
        let dataLen := am_size metadata in
        let! minBytes := bound_bytes (mm_min mm) dataLen in
        let! maxBytes := bound_bytes (mm_max mm) dataLen in
        let! d := data in
        let isAttributeSigned := emberAfIsTypeSigned (attributeType metadata) in
        let! cmin := emberAfCompareValues minBytes d dataLen isAttributeSigned in
        let! isOutOfRange := (if cmin =? 1 then Some true
          else let! cmax := emberAfCompareValues maxBytes d dataLen isAttributeSigned in Some (cmax =? -1)) in
        if isOutOfRange then
          if negb (IsNullable metadata) then Some true
          else let! isNull := IsNullValue d dataLen isAttributeSigned in Some (negb isNull)
        else Some false
    | _ => None
    end
  else Some false.

(** A call, made while the store is as it is now. *)
Definition log_at (e : at_event) s : at_state P := s <| at_log ::= (fun l => l ++ [(e, store s)]) |>.

(** The part of [emAfWriteAttribute] after the checks: callbacks, the write,
    persistence, reports. *)
Definition commit_attribute s (ep : EndpointId) (cl : ClusterId) (id : AttributeId) (data : option bytes)
    (dataType : Z) (metadata : EmberAfAttributeMetadata) : option (EmberAfStatus * at_state P) :=
  let attributePath := {| path_ep := ep; path_cl := cl; path_attr := id |} in
  let imStatus := MatterPreAttributeChangeCallback hooks attributePath dataType (am_size metadata) data in
  if negb (imStatus =? 0) then let! st := ToEmberAfStatus imStatus in Some (st, s)
  else
    let! status := emAfClusterPreAttributeChangedCallback (table (store s))
      (fun f => ClusterPreAttributeChanged hooks f attributePath dataType (am_size metadata) data) ep cl in
    match status with
    | EMBER_ZCL_STATUS_WRITE_IGNORED => Some (EMBER_ZCL_STATUS_SUCCESS, s)
    | EMBER_ZCL_STATUS_SUCCESS =>
        let! w := write_attribute cfg (store s) ep cl id data in
        if negb (is_success (fst w)) then Some (fst w, s <| store := snd w |>)
        else
          let! st := emAfSaveAttributeToStorageIfNeeded cfg (snd w) data ep cl metadata in
          let s := s <| store := st |> in
          let s := log_at (MatterReportingAttributeChange attributePath) s in
          let s := log_at (MatterPostAttributeChange attributePath dataType (am_size metadata) data) s in
          let! f := emAfClusterAttributeChangedCallback (table st) ep cl in
          Some (EMBER_ZCL_STATUS_SUCCESS,
                match f with Some f => log_at (ClusterAttributeChanged f attributePath) s | None => s end)
    | status => Some (status, s)
    end.

Definition emAfWriteAttribute s (ep : EndpointId) (cl : ClusterId) (id : AttributeId) (data : option bytes)
    (dataType : Z) (overrideReadOnlyAndDataType justTest : bool) : option (EmberAfStatus * at_state P) :=
  let! l := locate cfg (store s) ep cl id in
  let! r := read_attribute cfg (store s) ep cl id None 0 in
  match l with
  | inl _ => Some (fst r, s)
  | inr (metadata, _, _) =>
      if negb overrideReadOnlyAndDataType && negb (dataType =? attributeType metadata)
      then Some (EMBER_ZCL_STATUS_INVALID_DATA_TYPE, s)
      else if negb overrideReadOnlyAndDataType && IsReadOnly metadata
      then Some (EMBER_ZCL_STATUS_UNSUPPORTED_WRITE, s)
      else
        let! bad := out_of_bounds metadata data in
        if bad then Some (EMBER_ZCL_STATUS_CONSTRAINT_ERROR, s)
        else if negb justTest then commit_attribute s ep cl id data dataType metadata
        else Some (EMBER_ZCL_STATUS_SUCCESS, s)
  end.

Definition emberAfWriteAttribute s (ep : EndpointId) (cl : ClusterId) (id : AttributeId) (data : option bytes)
    (dataType : Z) : option (EmberAfStatus * at_state P) :=
  emAfWriteAttribute s ep cl id data dataType true false.

Definition emberAfWriteAttributeExternal s (ep : EndpointId) (cl : ClusterId) (id : AttributeId)
    (data : option bytes) (dataType : Z) : option (EmberAfStatus * at_state P) :=
  match emberAfAllowNetworkWriteAttributeCallback hooks ep cl id data dataType with
  | DenyWrite => Some (EMBER_ZCL_STATUS_FAILURE, s)
  | AllowWriteNormal => emAfWriteAttribute s ep cl id data dataType false false
  | AllowWriteOfReadOnly => emAfWriteAttribute s ep cl id data dataType true false
  | Perm_UnsupportedAttribute => Some (EMBER_ZCL_STATUS_UNSUPPORTED_ATTRIBUTE, s)
  | Perm_InvalidValue => Some (EMBER_ZCL_STATUS_CONSTRAINT_ERROR, s)
  | Perm_ReadOnly => Some (EMBER_ZCL_STATUS_UNSUPPORTED_WRITE, s)
  | Perm_InvalidDataType => Some (EMBER_ZCL_STATUS_INVALID_DATA_TYPE, s)
  end.

(** ** Reading: the status, the buffer, and the type of the attribute *)
Definition emAfReadAttribute s (ep : EndpointId) (cl : ClusterId) (id : AttributeId) (buffer : option bytes)
    (readLength : Z) (dataType : option Z) : option (EmberAfStatus * option bytes * option Z) :=
  let! l := locate cfg (store s) ep cl id in
  let! r := read_attribute cfg (store s) ep cl id buffer readLength in
  Some (fst r, snd r,
        match l with
        | inr (am, _, _) => if is_success (fst r) then (fun _ => attributeType am) <$> dataType else dataType
        | inl _ => dataType
        end).

Definition emberAfReadAttribute s (ep : EndpointId) (cl : ClusterId) (id : AttributeId) (buffer : option bytes)
    (readLength : Z) : option (EmberAfStatus * option bytes) :=
  let! r := emAfReadAttribute s ep cl id buffer readLength None in Some (fst r).

(** [emberAfIsKnownVolatileAttribute] ([util.cpp]) *)
Definition emberAfIsKnownVolatileAttribute s (ep : EndpointId) (cl : ClusterId) (id : AttributeId) : option bool :=
  let! metadata := emberAfLocateAttributeMetadata cfg (store s) ep cl id in
  Some (match metadata with
        | None => false
        | Some am => negb (IsAutomaticallyPersisted am) && negb (IsExternal am)
        end).
End table.

(** ** Comparison compares the values *)
Lemma le_val_take_S l k b : l !! k = Some b → le_val (take (S k) l) = le_val (take k l) + 256 ^ Z.of_nat k * b.
Proof.
  revert k; induction l as [|x l IH]; intros k Hk; [done|]. destruct k as [|k].
  - simpl in *. injection Hk as ->. simpl. lia.
  - cbn [take le_val]. change (take (S (S k)) (x :: l)) with (x :: take (S k) l). cbn [le_val].
    rewrite (IH k) by done. rewrite Nat2Z.inj_succ, Z.pow_succ_r by lia. lia.
Qed.

Lemma take_range l k : bytes_ok l → (k ≤ length l)%nat → 0 ≤ le_val (take k l) < 256 ^ Z.of_nat k.
Proof.
  intros Hl Hk. pose proof (le_val_range (take k l) ltac:(by apply Forall_take)) as H. by rewrite length_take, Nat.min_l in H.
Qed.

Lemma byte_range l k b : bytes_ok l → l !! k = Some b → 0 ≤ b < 256.
Proof. intros Hl Hk. exact (Forall_lookup_1 _ _ _ _ Hl Hk). Qed.

Definition three_way (x y : Z) : Z := if y <? x then 1 else if x <? y then -1 else 0.

Lemma compare_unsigned_spec f g l1 l2 k :
  bytes_ok l1 → bytes_ok l2 → (k ≤ length l1)%nat → (k ≤ length l2)%nat →
  (∀ i, (i < k)%nat → f i = l1 !! i) → (∀ i, (i < k)%nat → g i = l2 !! i) →
  compare_unsigned f g k = Some (three_way (le_val (take k l1)) (le_val (take k l2))).
Proof.
  intros H1 H2. induction k as [|k IH]; intros Hk1 Hk2 Hf Hg; [done|]. cbn [compare_unsigned].
  rewrite Hf, Hg by lia.
  destruct (lookup_lt_is_Some_2 l1 k) as [j Hj]; [lia|]. destruct (lookup_lt_is_Some_2 l2 k) as [b Hb]; [lia|].
  rewrite Hj, Hb, (le_val_take_S l1 k j), (le_val_take_S l2 k b) by done.
  pose proof (take_range l1 k H1 ltac:(lia)). pose proof (take_range l2 k H2 ltac:(lia)).
  pose proof (byte_range _ _ _ H1 Hj). pose proof (byte_range _ _ _ H2 Hb).
  rewrite IH by (try lia; intros; (apply Hf || apply Hg); lia).
  unfold three_way. set (P := 256 ^ Z.of_nat k) in *.
  destruct (Z.ltb_spec b j); [|destruct (Z.ltb_spec j b)].
  - rewrite (proj2 (Z.ltb_lt _ _)); [done|]. nia.
  - rewrite (proj2 (Z.ltb_ge _ _)) by nia. rewrite (proj2 (Z.ltb_lt _ _)); [done|]. nia.
  - assert (j = b) as -> by lia. set (v1 := le_val (take k l1)). set (v2 := le_val (take k l2)).
    replace (v2 + P * b <? v1 + P * b) with (v2 <? v1) by (destruct (Z.ltb_spec v2 v1), (Z.ltb_spec (v2 + P * b) (v1 + P * b)); lia).
    by replace (v1 + P * b <? v2 + P * b) with (v1 <? v2) by (destruct (Z.ltb_spec v1 v2), (Z.ltb_spec (v1 + P * b) (v2 + P * b)); lia).
Qed.

Lemma s32_mod x : ∃ q, s32 x = x + q * 2 ^ 32.
Proof.
  unfold s32, wrap. pose proof (Z.div_mod x (2 ^ 32) ltac:(lia)) as H.
  destruct (_ <? _); [exists (- (x / 2 ^ 32))|exists (- (x / 2 ^ 32) - 1)]; lia.
Qed.

Lemma s32_range x : - 2 ^ 31 ≤ s32 x < 2 ^ 31.
Proof.
  unfold s32, wrap. pose proof (Z.mod_pos_bound x (2 ^ 32) ltac:(lia)). destruct (Z.ltb_spec (x mod 2 ^ 32) (2 ^ 31)); lia.
Qed.

Lemma s32_small x : - 2 ^ 31 ≤ x < 2 ^ 31 → s32 x = x.
Proof. destruct (s32_mod x) as [q Hq]. pose proof (s32_range x). lia. Qed.

Lemma s32_add_l x y : s32 (s32 x + y) = s32 (x + y).
Proof.
  destruct (s32_mod x) as [q ->]. unfold s32, wrap. rewrite <- Z.add_assoc, (Z.add_comm (q * 2 ^ 32)), Z.add_assoc.
  by rewrite Z.mod_add by lia.
Qed.

(** The accumulator holds the bytes read so far, at their place. *)
Lemma accumulate_spec f l k q acc :
  bytes_ok l → (k ≤ length l)%nat → (k ≤ 4)%nat → (∀ i, (i < k)%nat → f i = l !! i) →
  acc = q * 256 ^ Z.of_nat k → - 2 ^ 31 ≤ acc < 2 ^ 31 →
  accumulate f k acc = Some (s32 (acc + le_val (take k l))).
Proof.
  intros Hl. revert q acc; induction k as [|k IH]; intros q acc Hk H4 Hf Hq Hacc.
  { simpl. rewrite Z.add_0_r. by rewrite s32_small. }
  cbn [accumulate]. rewrite Hf by lia. destruct (lookup_lt_is_Some_2 l k) as [j Hj]; [lia|].
  rewrite Hj. pose proof (byte_range _ _ _ Hl Hj) as Hb.
  rewrite (le_val_take_S l k j Hj).
  set (x := Z.shiftl j (8 * Z.of_nat k)).
  assert (x = 256 ^ Z.of_nat k * j) as Hx.
  { unfold x. rewrite Z.shiftl_mul_pow2 by lia. change 256 with (2 ^ 8). rewrite <- Z.pow_mul_r by lia. lia. }
  assert (Z.lor acc (s32 x) = acc + s32 x) as ->.
  { destruct (decide (k = 3)%nat) as [->|Hne].
    - assert (acc = 0) as -> by (change (256 ^ Z.of_nat 4) with (2 ^ 32) in Hq; lia). done.
    - assert (0 ≤ x < 2 ^ (8 * Z.of_nat (S k))) as Hr.
      { rewrite Hx. replace (8 * Z.of_nat (S k)) with (8 + 8 * Z.of_nat k) by lia. rewrite Z.pow_add_r by lia.
        rewrite (Z.pow_mul_r 2 8) by lia. change (2 ^ 8) with 256. assert (0 < 256 ^ Z.of_nat k) by lia. nia. }
      assert (2 ^ (8 * Z.of_nat (S k)) ≤ 2 ^ 24) by (apply Z.pow_le_mono_r; lia).
      rewrite s32_small by lia. rewrite Hq. change 256 with (2 ^ 8). rewrite <- Z.pow_mul_r by lia.
      apply lor_disjoint; [lia|done]. }
  rewrite (IH (q * 256 + j + (s32 (acc + s32 x) - (acc + x)) / 256 ^ Z.of_nat k)); [|lia|lia|intros; apply Hf; lia| |apply s32_range].
  - rewrite s32_add_l. rewrite (Z.add_comm acc), <- Z.add_assoc, s32_add_l. f_equal. f_equal. lia.
  - rewrite (Z.add_comm acc), s32_add_l, (Z.add_comm x). destruct (s32_mod (acc + x)) as [r Hr].
    assert (2 ^ 32 = 2 ^ (32 - 8 * Z.of_nat k) * 256 ^ Z.of_nat k) as Hp.
    { change 256 with (2 ^ 8). rewrite <- Z.pow_mul_r, <- Z.pow_add_r by lia. f_equal. lia. }
    assert (256 ^ Z.of_nat k ≠ 0) by lia.
    replace (s32 (acc + x) - (acc + x)) with (r * 2 ^ (32 - 8 * Z.of_nat k) * 256 ^ Z.of_nat k) by (rewrite Hr, Hp; lia).
    rewrite Z.div_mul by done. rewrite Hr, Hp, Hx, Hq. rewrite Nat2Z.inj_succ, Z.pow_succ_r by lia. lia.
Qed.

Lemma lookup_repeat {A} (x : A) n i : (i < n)%nat → repeat x n !! i = Some x.
Proof. revert i; induction n as [|n IH]; intros [|i] Hi; simpl; try lia; [done|]. apply IH. lia. Qed.

(** The integer a value stands for: its little-endian bytes, in two's
    complement when it is signed; a null pointer is zero. *)
Definition int_value (v : option bytes) (len : Z) (signedNumber : bool) : Z :=
  let x := match v with None => 0 | Some b => le_val (take (Z.to_nat len) b) end in
  if signedNumber && (2 ^ (8 * len - 1) <=? x) then x - 2 ^ (8 * len) else x.

Lemma sign_extend_spec len x : 0 < len ≤ 4 → 0 ≤ x < 256 ^ len →
  sign_extend len (s32 x) = if 2 ^ (8 * len - 1) <=? x then x - 2 ^ (8 * len) else x.
Proof.
  intros Hlen Hx. change 256 with (2 ^ 8) in Hx. rewrite <- Z.pow_mul_r in Hx by lia. unfold sign_extend.
  destruct (Z.ltb_spec len 4).
  - assert (2 ^ (8 * len) ≤ 2 ^ 24) by (apply Z.pow_le_mono_r; lia). rewrite s32_small by lia.
    rewrite !Z.shiftl_mul_pow2, !Z.mul_1_l by lia. rewrite has_bits_pow2 by lia.
    assert (2 ^ (8 * len) = 2 * 2 ^ (8 * len - 1)) as Hp by (rewrite <- Z.pow_succ_r by lia; f_equal; lia).
    assert (Z.testbit x (8 * len - 1) = (2 ^ (8 * len - 1) <=? x)) as ->.
    { destruct (Z.leb_spec (2 ^ (8 * len - 1)) x).
      - apply Z.testbit_true; [lia|]. replace (x / 2 ^ (8 * len - 1)) with 1; [done|].
        apply (Z.div_unique x _ 1 (x - 2 ^ (8 * len - 1))); lia.
      - apply Z.testbit_false; [lia|]. by rewrite Z.div_small by lia. }
    cbn [andb]. destruct (_ <=? _); [|done].
    rewrite Z.lor_comm, (Z.mul_comm len 8). replace (-1 - (2 ^ (8 * len) - 1)) with (-1 * 2 ^ (8 * len)) by lia.
    rewrite lor_disjoint by lia. lia.
  - assert (len = 4) as -> by lia. simpl andb. unfold s32. rewrite wrap_small by (unfold in_u; lia).
    change (8 * 4 - 1) with 31. change (8 * 4) with 32 in *. cbn iota beta.
    destruct (Z.ltb_spec x (2 ^ 31)), (Z.leb_spec (2 ^ 31) x); lia.
Qed.

Lemma compare_values_spec val1 val2 len signedNumber :
  bytes_ok val2 → 0 ≤ len ≤ Z.of_nat (length val2) →
  match val1 with Some b => bytes_ok b ∧ len ≤ Z.of_nat (length b) | None => True end →
  emberAfCompareValues val1 val2 len signedNumber =
  Some (if signedNumber && (4 <? len) then 0
        else three_way (int_value val1 len signedNumber) (int_value (Some val2) len signedNumber)).
Proof.
  intros H2 Hlen H1. set (l1 := match val1 with None => repeat 0 (Z.to_nat len) | Some b => b end).
  assert (bytes_ok l1 ∧ (Z.to_nat len ≤ length l1)%nat ∧ (∀ i, (i < Z.to_nat len)%nat → val1_byte val1 i = l1 !! i) ∧
    le_val (take (Z.to_nat len) l1) = match val1 with None => 0 | Some b => le_val (take (Z.to_nat len) b) end) as (Hb1 & Hl1 & Hf1 & Hv1).
  { unfold l1. destruct val1 as [b|]; [split_and!; [apply H1|destruct H1; lia|done|done]|]. split_and!.
    - apply List.Forall_forall. intros x ->%repeat_spec. done.
    - rewrite repeat_length. lia.
    - intros i Hi. symmetry. by apply lookup_repeat.
    - rewrite take_ge by (rewrite repeat_length; lia). clear. induction (Z.to_nat len) as [|n IH]; simpl; lia. }
  unfold emberAfCompareValues. destruct (Z.eqb_spec len 0) as [->|Hne].
  { destruct signedNumber, val1; done. }
  destruct signedNumber; cbn [andb].
  - destruct (Z.leb_spec len 4); [|by rewrite (proj2 (Z.ltb_lt _ _))]. rewrite (proj2 (Z.ltb_ge 4 len)) by lia.
    rewrite (accumulate_spec _ l1 _ 0) by (done || lia).
    rewrite (accumulate_spec _ val2 _ 0) by (done || lia). rewrite !Z.add_0_l.
    pose proof (take_range l1 (Z.to_nat len) Hb1 Hl1) as Hr1. pose proof (take_range val2 (Z.to_nat len) H2 ltac:(lia)) as Hr2.
    rewrite Z2Nat.id in Hr1, Hr2 by lia.
    rewrite !sign_extend_spec by (done || lia). rewrite Hv1. done.
  - rewrite (compare_unsigned_spec _ _ l1 val2) by (done || lia). by rewrite Hv1.
Qed.

(** [emberAfCompareValues] compares the integers the two byte strings stand
    for, unsigned of any length or signed of at most four bytes (a null first
    value is zero); signed values of more than four bytes compare as equal. *)
Theorem compare_values_correct val1 val2 len signedNumber :
  bytes_ok val2 → 0 ≤ len ≤ Z.of_nat (length val2) →
  match val1 with Some b => bytes_ok b ∧ len ≤ Z.of_nat (length b) | None => True end →
  emberAfCompareValues val1 val2 len signedNumber =
  Some (if signedNumber && (4 <? len) then 0
        else three_way (int_value val1 len signedNumber) (int_value (Some val2) len signedNumber)).
Proof. apply compare_values_spec. Qed.

(** ** The range check *)
Definition null_int (len : Z) (signedNumber : bool) : Z :=
  if signedNumber then - 2 ^ (8 * len - 1) else 2 ^ (8 * len) - 1.

Lemma is_null_spec d len sg : 0 < len ≤ 4 → bytes_ok d → len ≤ Z.of_nat (length d) →
  IsNullValue d len sg = Some (int_value (Some d) len sg =? null_int len sg).
Proof.
  intros Hlen Hd Hl. unfold IsNullValue. rewrite (proj2 (Z.ltb_ge 4 len)) by lia.
  destruct (Z.eqb_spec len 0); [lia|].
  assert (mread d 0 (Z.to_nat len) = Some (take (Z.to_nat len) d)) as -> by (apply mread_Some; rewrite drop_0; split; [lia|done]).
  pose proof (take_range d (Z.to_nat len) Hd ltac:(lia)) as Hr. rewrite Z2Nat.id in Hr by lia.
  change 256 with (2 ^ 8) in Hr. rewrite <- Z.pow_mul_r in Hr by lia.
  assert (2 ^ (8 * len) = 2 * 2 ^ (8 * len - 1)) by (rewrite <- Z.pow_succ_r by lia; f_equal; lia).
  unfold int_value, null_int, null_value. set (x := le_val _) in *. f_equal.
  destruct sg; cbn [andb]; [|done]. destruct (Z.leb_spec (2 ^ (8 * len - 1)) x);
    [destruct (Z.eqb_spec x (2 ^ (8 * len - 1))), (Z.eqb_spec (x - 2 ^ (8 * len)) (- 2 ^ (8 * len - 1)))
    |destruct (Z.eqb_spec x (2 ^ (8 * len - 1))), (Z.eqb_spec x (- 2 ^ (8 * len - 1)))]; lia.
Qed.

(** A bound is a null pointer or at least as many bytes as the attribute. *)
Definition bound_ok (b : option bytes) (len : Z) : Prop :=
  match b with Some x => bytes_ok x ∧ len ≤ Z.of_nat (length x) | None => True end.

(** The range check of a write rejects exactly the integers outside the
    attribute's [min, max], in its own signedness, except the null value of a
    nullable attribute. *)
Theorem range_check_correct am mm d minBytes maxBytes :
  has_bits (am_mask am) ATTRIBUTE_MASK_MIN_MAX = true → am_default am = DMMinMax mm →
  0 < am_size am ≤ 4 → bytes_ok d → am_size am ≤ Z.of_nat (length d) →
  bound_bytes (mm_min mm) (am_size am) = Some minBytes → bound_bytes (mm_max mm) (am_size am) = Some maxBytes →
  bound_ok minBytes (am_size am) → bound_ok maxBytes (am_size am) →
  let sg := emberAfIsTypeSigned (attributeType am) in
  let value := int_value (Some d) (am_size am) sg in
  out_of_bounds am (Some d) =
  Some (negb ((int_value minBytes (am_size am) sg <=? value) && (value <=? int_value maxBytes (am_size am) sg))
        && negb (IsNullable am && (value =? null_int (am_size am) sg))).
Proof.
  intros Hmask Hdef Hlen Hd Hl Hmin Hmax Hbmin Hbmax sg value. unfold out_of_bounds.
  unfold has_bits in Hmask. rewrite Hmask, Hdef, Hmin, Hmax. fold sg.
  rewrite !compare_values_spec by (done || lia). rewrite is_null_spec by done.
  rewrite (proj2 (Z.ltb_ge 4 (am_size am))) by lia. rewrite andb_false_r. fold value.
  set (lo := int_value minBytes _ _). set (hi := int_value maxBytes _ _). unfold three_way.
  destruct (Z.ltb_spec value lo).
  - simpl. rewrite (proj2 (Z.leb_gt lo value)) by lia. simpl. by destruct (IsNullable am).
  - rewrite (proj2 (Z.leb_le lo value)) by lia. destruct (Z.ltb_spec lo value); simpl.
    all: destruct (Z.ltb_spec value hi); simpl; [rewrite (proj2 (Z.leb_le value hi)) by lia; done|].
    all: destruct (Z.ltb_spec hi value); simpl; [rewrite (proj2 (Z.leb_gt value hi)) by lia; simpl; by destruct (IsNullable am)|].
    all: rewrite (proj2 (Z.leb_le value hi)) by lia; done.
Qed.

(** ** A write happens whole or not at all *)
Lemma memcopy_fail m off src am w n st m' :
  typeSensitiveMemCopy m off src am w n = Some (st, m') → st ≠ EMBER_ZCL_STATUS_SUCCESS → m' = m.
Proof.
  unfold typeSensitiveMemCopy. intros Hc Hst.
  repeat (match type of Hc with
          | (if ?b then _ else _) = _ => destruct b
          | match ?o with Some _ => _ | None => _ end = _ => destruct o
          end); naive_solver.
Qed.

Section atomicity.
Context {P : Type} `{AttributePersistenceProvider P} (cfg : storage_config) (hooks : change_hooks).

Lemma write_attribute_fail (s : attribute_store P) ep cl id data st s' :
  write_attribute cfg s ep cl id data = Some (st, s') → st ≠ EMBER_ZCL_STATUS_SUCCESS → s' = s.
Proof.
  unfold write_attribute. let_step l Hl. destruct l as [st0|[[am off] dyn]]; [by intros [= <- <-]|].
  let_step loc Hm. destruct (negb _); [by intros [= <- <-]|]. destruct (IsExternal am); [by intros [= <- <-]|].
  destruct (negb dyn); [|by intros [= <- <-]]. let_step r Hr. destruct r as [st1 m']. intros [= <- <-] Hst.
  apply memcopy_fail in Hr; [|done]. simpl in *. subst m'. unfold attribute_memory in Hm. destruct s; simpl in *.
  destruct (IsSingleton am); [|by injection Hm as <-]. destruct (singletonAttributeLocation cfg am); [|done].
  by injection Hm as <-.
Qed.

Lemma write_attribute_table (s : attribute_store P) ep cl id data st s' :
  write_attribute cfg s ep cl id data = Some (st, s') → table s' = table s.
Proof.
  unfold write_attribute. let_step l Hl. destruct l as [st0|[[am off] dyn]]; [by intros [= <- <-]|].
  let_step loc Hm. destruct (negb _); [by intros [= <- <-]|]. destruct (IsExternal am); [by intros [= <- <-]|].
  destruct (negb dyn); [|by intros [= <- <-]]. let_step r Hr. destruct r as [st1 m']. intros [= <- <-].
  by destruct (IsSingleton am).
Qed.

Lemma save_table (s : attribute_store P) data ep cl am s' :
  emAfSaveAttributeToStorageIfNeeded cfg s data ep cl am = Some s' →
  table s' = table s ∧ attributeData s' = attributeData s ∧ singletonAttributeData s' = singletonAttributeData s.
Proof.
  unfold emAfSaveAttributeToStorageIfNeeded. destruct (negb _); [by intros [= <-]|]. let_step n Hn.
  destruct (gAttributeSaver s); [|by intros [= <-]]. let_step v Hv. let_step r Hr. by intros [= <-].
Qed.

(** The calls that report a change made through the table, each with the store it
    finds. *)
Definition change_calls (m : attribute_store P) (path : attribute_path) (ty size : Z) (data : option bytes) (f : option nat)
    : list (at_event * attribute_store P) :=
  [(MatterReportingAttributeChange path, m); (MatterPostAttributeChange path ty size data, m)]
  ++ match f with Some f => [(ClusterAttributeChanged f path, m)] | None => [] end.

(** The cluster's own check lets the product's pass and asks for the write to be
    ignored. *)
Definition write_ignored (m : attribute_store P) ep cl id data ty am : Prop :=
  let path := {| path_ep := ep; path_cl := cl; path_attr := id |} in
  MatterPreAttributeChangeCallback hooks path ty (am_size am) data = 0 ∧
  emAfClusterPreAttributeChangedCallback (table m)
    (λ f, ClusterPreAttributeChanged hooks f path ty (am_size am) data) ep cl = Some EMBER_ZCL_STATUS_WRITE_IGNORED.

Lemma locate_attribute_status ams id off : locate_attribute ams id off ≠ inl EMBER_ZCL_STATUS_SUCCESS.
Proof. revert off. induction ams as [|am ams IH]; intros off; cbn; [done|]. by case_match. Qed.

Lemma locate_cluster_status cs cl id off : locate_cluster cs cl id off ≠ inl EMBER_ZCL_STATUS_SUCCESS.
Proof. revert off. induction cs as [|c cs IH]; intros off; cbn; [done|]. case_match; [apply locate_attribute_status|done]. Qed.

Lemma locate_status (m : attribute_store P) ep cl id : locate cfg m ep cl id ≠ Some (inl EMBER_ZCL_STATUS_SUCCESS).
Proof.
  unfold locate. enough (∀ eps i off, locate_endpoint (FIXED_ENDPOINT_COUNT cfg) eps i ep cl id off ≠ Some (inl EMBER_ZCL_STATUS_SUCCESS))
    by auto.
  induction eps as [|e eps IH]; intros i off; cbn; [done|].
  case_match; [case_match; [done|]|case_match; [done|]]; (destruct (endpointType e) as [t|]; cbn; [|done]); [|done].
  destruct (locate_cluster _ _ _ _) as [x|[]] eqn:E; [|done]. intros [= ->]. by apply locate_cluster_status in E.
Qed.

Lemma refusal_status code st : code ≠ 0 → ToEmberAfStatus code = Some st → st ≠ EMBER_ZCL_STATUS_SUCCESS.
Proof. intros Hc Hs ->. unfold ToEmberAfStatus, status_of_code in Hs. repeat case_match; congruence. Qed.

Lemma commit_outcome (s : at_state P) ep cl id data ty am st s' :
  commit_attribute cfg hooks s ep cl id data ty am = Some (st, s') →
  s' = s ∧ (st ≠ EMBER_ZCL_STATUS_SUCCESS ∨ write_ignored (store s) ep cl id data ty am) ∨
  st = EMBER_ZCL_STATUS_SUCCESS ∧
  (∃ w, write_attribute cfg (store s) ep cl id data = Some (EMBER_ZCL_STATUS_SUCCESS, w) ∧
        emAfSaveAttributeToStorageIfNeeded cfg w data ep cl am = Some (store s')) ∧
  ∃ f, emAfClusterAttributeChangedCallback (table (store s)) ep cl = Some f ∧
    at_log s' = at_log s ++
      change_calls (store s') {| path_ep := ep; path_cl := cl; path_attr := id |} ty (am_size am) data f.
Proof.
  unfold commit_attribute. set (path := {| path_ep := ep |}). destruct (Z.eqb_spec (MatterPreAttributeChangeCallback hooks path ty (am_size am) data) 0)
    as [Hpre|Hpre]; cbn [negb].
  2: { let_step code Hc. intros [= <- <-]. left. split; [done|]. left. by eapply refusal_status. }
  let_step status Hs. destruct status; try (intros [= <- <-]; left; split; [done|by left]).
  2: { intros [= <- <-]. left. split; [done|]. by right. }
  let_step w Hw. destruct w as [st1 w]. cbn [fst snd]. destruct (is_success st1) eqn:Hst; cbn [negb].
  - destruct st1; try done. let_step s1 Hs1. cbn [store at_log].
    pose proof (save_table _ _ _ _ _ _ Hs1) as (Ht & _). pose proof (write_attribute_table _ _ _ _ _ _ _ Hw) as Ht'.
    let_step f Hf. intros [= <- <-]. right. split; [done|]. split.
    + exists w. split; [done|]. rewrite Hs1. by destruct f.
    + exists f. rewrite <- Ht', <- Ht. split; [done|]. destruct f; simpl; by rewrite <- ?app_assoc.
  - intros [= <- <-]. left. assert (st1 ≠ EMBER_ZCL_STATUS_SUCCESS) as Hne by (by intros ->).
    apply write_attribute_fail in Hw; [|done]. subst. split; [by destruct s|by left].
Qed.
End atomicity.

(** C13: A write of an attribute happens whole or not at all.  Either memory,
    storage and log are as before, and then the status is not success or the call
    was a mere test or the cluster asked for the write to be ignored; or the status
    is success, the value was written and then saved, and then the report, the
    product's callback with the very value and type, and the cluster's callback
    followed, once each and in this order, each of them finding the store with the
    value written and saved. *)
Theorem write_all_or_nothing {P} `{AttributePersistenceProvider P} cfg hooks (s : at_state P) ep cl id data ty ov test st s' :
  emAfWriteAttribute cfg hooks s ep cl id data ty ov test = Some (st, s') →
  s' = s ∧
  (st ≠ EMBER_ZCL_STATUS_SUCCESS ∨ test = true ∨
   ∃ am off dyn, locate cfg (store s) ep cl id = Some (inr (am, off, dyn)) ∧ write_ignored hooks (store s) ep cl id data ty am) ∨
  st = EMBER_ZCL_STATUS_SUCCESS ∧ test = false ∧
  ∃ am off dyn w f,
    locate cfg (store s) ep cl id = Some (inr (am, off, dyn)) ∧ out_of_bounds am data = Some false ∧
    (ov = true ∨ ty = attributeType am ∧ IsReadOnly am = false) ∧
    write_attribute cfg (store s) ep cl id data = Some (EMBER_ZCL_STATUS_SUCCESS, w) ∧
    emAfSaveAttributeToStorageIfNeeded cfg w data ep cl am = Some (store s') ∧
    emAfClusterAttributeChangedCallback (table (store s)) ep cl = Some f ∧
    at_log s' = at_log s ++
      change_calls (store s') {| path_ep := ep; path_cl := cl; path_attr := id |} ty (am_size am) data f.
Proof.
  unfold emAfWriteAttribute. let_step l Hl. let_step r Hr. destruct l as [st0|[[am off] dyn]].
  { unfold read_attribute in Hr. rewrite Hl in Hr. injection Hr as <-. intros [= <- <-]. left. split; [done|]. left.
    intros ->. by apply locate_status in Hl. }
  destruct (negb ov && negb (ty =? attributeType am)) eqn:H1; [intros [= <- <-]; left; split; [done|by left]|].
  destruct (negb ov && IsReadOnly am) eqn:H2; [intros [= <- <-]; left; split; [done|by left]|].
  let_step bad Hbad. destruct bad; [intros [= <- <-]; left; split; [done|by left]|].
  destruct test; cbn [negb]; [intros [= <- <-]; left; split; [done|by right; left]|]. intros Hc.
  apply commit_outcome in Hc as [(-> & [Hst|Hig])|(-> & (w & Hw & Hsave) & f & Hf & Hlog)].
  { left. split; [done|by left]. }
  { left. split; [done|]. right; right. by exists am, off, dyn. }
  right. split_and!; [done|done|]. exists am, off, dyn, w, f. split_and!; try done.
  destruct ov; [by left|]. right. cbn [negb andb] in *. split; [|done].
  apply negb_false_iff in H1. by apply Z.eqb_eq.
Qed.
