(* ===== verification/StoreInterface.v ===== *)
(** * StoreInterface: what the attribute store promises to the clusters

    The cluster servers read and write their attributes through the generated
    accessors ([src/zzz_generated/app-common/app-common/zap-generated/attributes/Accessors.cpp]),
    which call [emberAfReadAttribute] and [emberAfWriteAttribute].  [AttributeStore]
    is that interface; [AttributeStoreLaws] is what the servers rely on, and the
    attribute table discharges it. *)
From S2P Require Import Prelude Zcl EndpointTable ClusterQueries ChipError Persistence AttributeStorage AttributeTable.

Class AttributeStore (S : Type) := {
  (** Reads into a buffer of the given size. *)
  store_read : S → EndpointId → ClusterId → AttributeId → nat → option (EmberAfStatus * bytes);
  (** Writes a value of the given type. *)
  store_write : S → EndpointId → ClusterId → AttributeId → bytes → Z → option (EmberAfStatus * S);
  store_contains_server : S → EndpointId → ClusterId → option bool;
  store_server_index : S → EndpointId → ClusterId → Z → option Z;
  store_known_volatile : S → EndpointId → ClusterId → AttributeId → option bool }.

(** [store_readable s ep cl id n]: the path is a number of [n] bytes that can be
    read; [store_attr]: that can also be written, whatever the value. *)
Class AttributeStoreLaws (S : Type) `{AttributeStore S} := {
  store_readable : S → EndpointId → ClusterId → AttributeId → nat → Prop;
  store_attr : S → EndpointId → ClusterId → AttributeId → nat → Prop;
  store_attr_readable : ∀ s ep cl id n, store_attr s ep cl id n → store_readable s ep cl id n;
  store_read_attr : ∀ s ep cl id n, store_readable s ep cl id n →
    ∃ v, store_read s ep cl id n = Some (EMBER_ZCL_STATUS_SUCCESS, v) ∧ length v = n ∧ bytes_ok v;
  store_write_attr : ∀ s ep cl id n v ty, store_attr s ep cl id n → length v = n → bytes_ok v →
    ∃ s', store_write s ep cl id v ty = Some (EMBER_ZCL_STATUS_SUCCESS, s') ∧
      store_read s' ep cl id n = Some (EMBER_ZCL_STATUS_SUCCESS, v) ∧
      (∀ ep' cl' id' m, store_attr s ep' cl' id' m → store_attr s' ep' cl' id' m) ∧
      (∀ ep' cl' id' m, store_readable s ep' cl' id' m → store_readable s' ep' cl' id' m) ∧
      (∀ ep' cl' id' m, (ep', cl', id') ≠ (ep, cl, id) → store_readable s ep' cl' id' m →
         store_read s' ep' cl' id' m = store_read s ep' cl' id' m) ∧
      (∀ ep' cl', store_contains_server s' ep' cl' = store_contains_server s ep' cl') ∧
      (∀ ep' cl' n', store_server_index s' ep' cl' n' = store_server_index s ep' cl' n') ∧
      (∀ ep' cl' id', store_known_volatile s' ep' cl' id' = store_known_volatile s ep' cl' id') }.

(** ** Attribute accessors ([Accessors.cpp], [attribute-storage-null-handling.h])

    [value] is the content of the caller's variable, kept when the status is not
    success. *)
Section accessors.
Context {S : Type} `{AttributeStore S}.

(** [NumericAttributeTraits<bool>]: the stored byte 0xFF is null. *)
Definition get_bool (s : S) (ep : EndpointId) (cl : ClusterId) (id : AttributeId) (value : bool)
    : option (EmberAfStatus * bool) :=
  let! (status, temp) := store_read s ep cl id 1 in
  if negb (is_success status) then Some (status, value)
  else if le_val temp =? 0xFF then Some (EMBER_ZCL_STATUS_CONSTRAINT_ERROR, value)
  else Some (status, negb (le_val temp =? 0)).

Definition set_bool (s : S) (ep : EndpointId) (cl : ClusterId) (id : AttributeId) (value : bool)
    : option (EmberAfStatus * S) :=
  store_write s ep cl id [if value then 1 else 0] ZCL_BOOLEAN_ATTRIBUTE_TYPE.

(** Unsigned integers of [n] bytes, not nullable. *)
Definition get_uint (n : nat) (s : S) (ep : EndpointId) (cl : ClusterId) (id : AttributeId) (value : Z)
    : option (EmberAfStatus * Z) :=
  let! (status, temp) := store_read s ep cl id n in
  Some (status, if is_success status then le_val temp else value).

Definition set_u16 (s : S) (ep : EndpointId) (cl : ClusterId) (id : AttributeId) (value : Z)
    : option (EmberAfStatus * S) :=
  store_write s ep cl id (le_bytes 2 value) ZCL_INT16U_ATTRIBUTE_TYPE.

(** [StartUpOnOff]: a nullable [enum8]. *)
Definition get_nullable_enum8 (s : S) (ep : EndpointId) (cl : ClusterId) (id : AttributeId) (value : option Z)
    : option (EmberAfStatus * option Z) :=
  let! (status, temp) := store_read s ep cl id 1 in
  Some (status, if is_success status then (if le_val temp =? 0xFF then None else Some (le_val temp)) else value).
End accessors.

(** ** The attribute table keeps it *)
Section table_store.
Context {P : Type} `{AttributePersistenceProvider P} (cfg : storage_config) (hooks : change_hooks).

Definition table_store : AttributeStore (at_state P) := {|
  store_read s ep cl id n :=
    let! r := emberAfReadAttribute cfg s ep cl id (Some (repeat 0 n)) (Z.of_nat n) in
    Some (fst r, default [] (snd r));
  store_write s ep cl id v ty := emberAfWriteAttribute cfg hooks s ep cl id (Some v) ty;
  store_contains_server s ep cl := emberAfContainsServer (table (store s)) ep cl;
  store_server_index s ep cl n :=
    emberAfGetClusterServerEndpointIndex (FIXED_ENDPOINT_COUNT cfg) (table (store s)) ep cl n;
  store_known_volatile s ep cl id := emberAfIsKnownVolatileAttribute cfg s ep cl id |}.
End table_store.

(** The server cluster found by the callbacks is the one the walk locates. *)
Lemma find_index_find (Q : EmberAfDefinedEndpoint → bool) eps i :
  find_index_from Q eps i =
  match list_find (fun e => Q e = true) eps with Some (k, _) => i + Z.of_nat k | None => kEmberInvalidEndpointIndex end.
Proof.
  revert i; induction eps as [|e eps IH]; intros i; [done|]. cbn [find_index_from list_find]. destruct (Q e) eqn:Hq.
  - rewrite decide_True by done. lia.
  - rewrite decide_False, IH by done. destruct (list_find _ eps) as [[k x]|]; [simpl; lia|done].
Qed.

Lemma find_cluster_server cs cl k :
  fst <$> find_cluster cs cl CLUSTER_MASK_SERVER k = snd <$> list_find (fun c => emAfMatchCluster c cl = true) cs.
Proof.
  revert k; induction cs as [|c cs IH]; intros k; [done|]. rewrite list_find_cons. cbn [find_cluster].
  assert (mask_selects CLUSTER_MASK_SERVER c = emberAfClusterIsServer c) as -> by done.
  unfold emAfMatchCluster, emberAfClusterIsServer. destruct (has_bits _ _); [|rewrite andb_false_r, decide_False by done; apply IH].
  rewrite andb_true_r. destruct (clusterId c =? cl); [by rewrite decide_True|rewrite decide_False by done; apply IH].
Qed.

Lemma find_server_cluster s ep cl :
  table_ok s → ep ≠ kInvalidEndpointId →
  emberAfFindServerCluster s ep cl =
  Some (match find_enabled (live_endpoints s) ep with
        | None => None
        | Some e => endpointType e ≫= (fun t => find_server t cl)
        end).
Proof.
  intros Hok Hep. unfold emberAfFindServerCluster, emberAfIndexFromEndpoint, findIndexFromEndpoint.
  rewrite (proj2 (Z.eqb_neq _ _) Hep), find_index_find. unfold find_enabled.
  assert (list_find (fun e => (endpoint e =? ep) && (negb true || flag_Has (bitmask e) isEnabled) = true) (live_endpoints s)
    = list_find (fun e => endpoint e = ep ∧ is_enabled e = true) (live_endpoints s)) as ->.
  { apply list_find_ext. intros e. unfold is_enabled. rewrite andb_true_iff, Z.eqb_eq. done. }
  destruct (list_find _ _) as [[k e]|] eqn:Hf; simpl; [|done].
  apply list_find_Some in Hf as (Hk & (He & Hen) & _).
  pose proof (live_index_valid s k e Hok Hk) as Hv. rewrite Z.eqb_sym in Hv. rewrite Z.add_0_l, Hv, (ep_at_live _ _ _ Hk).
  pose proof (Forall_lookup_1 _ _ _ _ (ok_types s Hok) Hk) as Ht. unfold endpoint_ok in Ht. specialize (Ht ltac:(congruence)).
  destruct (endpointType e) as [t|]; [|done]. cbn [mbind option_bind]. unfold emberAfFindClusterInType, find_server.
  by rewrite find_cluster_server.
Qed.

(** A number of [n] bytes kept in the store. *)
Definition plain_type (t : Z) : Prop :=
  emberAfIsStringAttributeType t = false ∧ emberAfIsLongStringAttributeType t = false ∧ emberAfIsThisDataTypeAListType t = false.

Definition hooks_accept (hooks : change_hooks) : Prop :=
  (∀ p t n v, MatterPreAttributeChangeCallback hooks p t n v = 0) ∧
  (∀ f p t n v, ClusterPreAttributeChanged hooks f p t n v = EMBER_ZCL_STATUS_SUCCESS).

Section laws.
Context {P : Type} `{AttributePersistenceLaws P} (cfg : storage_config) (hooks : change_hooks).
Context (Hhooks : hooks_accept hooks).
Implicit Types s : attribute_store P.

Definition readable_attr s (ep : EndpointId) (cl : ClusterId) (id : AttributeId) (n : nat) : Prop :=
  layout_ok cfg s ∧ table_ok (table s) ∧ ep ≠ kInvalidEndpointId ∧
  Forall (fun e => is_enabled e = true → endpointType e ≠ None) (live_endpoints (table s)) ∧
  emberAfAttributeReadAccessCallback (callbacks cfg) ep cl id = true ∧
  ∃ am off, locate cfg s ep cl id = Some (inr (am, off, false)) ∧ is_internal am ∧ IsSingleton am = false ∧
    am_size am = Z.of_nat n ∧ plain_type (attributeType am).

(** It can be written, and has no range to check. *)
Definition plain_attr s (ep : EndpointId) (cl : ClusterId) (id : AttributeId) (n : nat) : Prop :=
  readable_attr s ep cl id n ∧ emberAfAttributeWriteAccessCallback (callbacks cfg) ep cl id = true ∧
  ∀ am off, locate cfg s ep cl id = Some (inr (am, off, false)) → Z.land (am_mask am) ATTRIBUTE_MASK_MIN_MAX = 0.

Lemma plain_copied am n k v : plain_type (attributeType am) → am_size am = Z.of_nat n → length v = n →
  copied am k (Some v) = Some v.
Proof.
  intros (H1 & H2 & H3) Hsz Hv. unfold copied. rewrite H1, H2, H3, Hsz, Nat2Z.id. by apply mread_all.
Qed.

Lemma plain_min_room am : plain_type (attributeType am) → min_room am = am_size am.
Proof. intros (H1 & H2 & H3). unfold min_room. by rewrite H1, H2, H3. Qed.

Lemma plain_room am n : am_size am = Z.of_nat n → room am false (Z.of_nat n) = am_size am.
Proof. intros Hsz. unfold room. cbn [orb]. destruct (Z.eqb_spec (Z.of_nat n) 0); lia. Qed.

(** The callbacks of the cluster are defined. *)
Lemma plain_cluster s ep cl id n : readable_attr s ep cl id n →
  ∃ c, emberAfFindServerCluster (table s) ep cl = Some (Some c) ∧ cluster_functions_ok c.
Proof.
  intros (Hlay & Hok & Hep & Hty & _ & am & off & Hl & _).
  assert (Forall (fun e => endpointType e ≠ None) (take (Z.to_nat (FIXED_ENDPOINT_COUNT cfg - 0)) (live_endpoints (table s)))) as Hfix.
  { rewrite Z.sub_0_r. eapply List.Forall_impl; [|exact (lo_types _ _ Hlay)]. intros e He. unfold endpoint_layout_ok in He.
    by destruct (endpointType e). }
  destruct (locate_endpoint_find _ _ 0 ep cl id 0 Hfix Hty) as (r & Hr & Hm & _).
  unfold locate in Hl. rewrite Hr in Hl. injection Hl as ->. unfold lookup_attribute in Hm.
  rewrite find_server_cluster by done. destruct (find_enabled _ _) as [e|] eqn:He; [|done].
  destruct (endpointType e) as [t|] eqn:Ht; cbn [mbind option_bind] in *; [|done].
  destruct (find_server t cl) as [c|] eqn:Hc; [|done]. exists c. split; [done|].
  unfold find_enabled in He. destruct (list_find _ (live_endpoints _)) as [[k e']|] eqn:Hf; [|done]. injection He as ->.
  apply list_find_Some in Hf as (Hk & (Hid & _) & _). pose proof (Forall_lookup_1 _ _ _ _ (ok_types _ Hok) Hk) as Hcs.
  unfold endpoint_ok in Hcs. rewrite Ht in Hcs. specialize (Hcs ltac:(congruence)).
  unfold find_server in Hc. destruct (list_find _ (cluster t)) as [[j c']|] eqn:Hj; [|done]. injection Hc as ->.
  apply list_find_Some in Hj as (Hj & _). exact (Forall_lookup_1 _ _ _ _ Hcs Hj).
Qed.

Lemma plain_save s v ep cl am n : plain_type (attributeType am) → am_size am = Z.of_nat n → length v = n →
  ∃ p, emAfSaveAttributeToStorageIfNeeded cfg s (Some v) ep cl am = Some (s <| gAttributeSaver := p |>).
Proof.
  intros (H1 & H2 & _) Hsz Hv. unfold emAfSaveAttributeToStorageIfNeeded.
  assert (∀ s, s = s <| gAttributeSaver := gAttributeSaver s |>) as Hid by (by intros []).
  destruct (negb _); [exists (gAttributeSaver s); by rewrite <- Hid|]. rewrite H1, H2. cbn [default].
  destruct (gAttributeSaver s) as [p|] eqn:Hg; [|exists (gAttributeSaver s); by rewrite <- Hid].
  change (id v) with v. rewrite mread_all by lia.
  match goal with |- context [WriteValue p ?path ?x] => destruct (app_write_total p path x) as [r ->] end.
  by eexists.
Qed.

(** Writing a plain attribute through the table. *)
Lemma plain_write (s : at_state P) ep cl id n v ty :
  plain_attr (store s) ep cl id n → length v = n → bytes_ok v →
  ∃ (s' : at_state P) am, emberAfWriteAttribute cfg hooks s ep cl id (Some v) ty = Some (EMBER_ZCL_STATUS_SUCCESS, s') ∧
    am_size am = Z.of_nat n ∧
    table (store s') = table (store s) ∧ layout_ok cfg (store s') ∧
    read_attribute cfg (store s') ep cl id (Some (repeat 0 n)) (Z.of_nat n) = Some (EMBER_ZCL_STATUS_SUCCESS, Some v) ∧
    (∀ ep' cl' id' m, (ep', cl', id') ≠ (ep, cl, id) → readable_attr (store s) ep' cl' id' m →
       read_attribute cfg (store s') ep' cl' id' (Some (repeat 0 m)) (Z.of_nat m) =
       read_attribute cfg (store s) ep' cl' id' (Some (repeat 0 m)) (Z.of_nat m)) ∧
    ∃ f, at_log s' = at_log s ++
      change_calls (store s') {| path_ep := ep; path_cl := cl; path_attr := id |} ty (am_size am) (Some v) f.
Proof.
  intros (Hp & Hwa & Hmm) Hlen Hv. destruct (plain_cluster _ _ _ _ _ Hp) as (c & Hc & Hcf).
  destruct Hp as (Hlay & Hok & Hep & Hty & Hra & am & off & Hl & Hint & Hsing & Hsz & Hpl). specialize (Hmm _ _ Hl).
  destruct (write_read_spec cfg (store s) ep cl id am off (Some v) v Hlay Hl Hint Hwa Hv (plain_copied _ n _ _ Hpl Hsz Hlen))
    as (st & Hw & Hlay' & Ht & Hg & Hsame & Hother).
  destruct (plain_save st v ep cl am n Hpl Hsz Hlen) as [p Hsave].
  unfold emberAfWriteAttribute, emAfWriteAttribute. unfold read_attribute at 1. rewrite Hl.
  unfold attribute_memory at 1. rewrite Hsing. cbn [fst snd negb andb].
  unfold out_of_bounds. rewrite Hmm. cbn [Z.eqb negb]. unfold commit_attribute.
  rewrite (proj1 Hhooks). change (negb (0 =? 0)) with false. cbn iota.
  unfold emAfClusterPreAttributeChangedCallback. rewrite Hc.
  change CLUSTER_MASK_PRE_ATTRIBUTE_CHANGED_FUNCTION with (2 ^ Z.of_nat 5). rewrite (find_function_spec c 5 Hcf) by lia.
  assert (∀ o : option nat, match o with
    | Some f => ClusterPreAttributeChanged hooks f {| path_ep := ep; path_cl := cl; path_attr := id |} ty (am_size am) (Some v)
    | None => EMBER_ZCL_STATUS_SUCCESS end = EMBER_ZCL_STATUS_SUCCESS) as -> by (intros []; [apply Hhooks|done]).
  rewrite Hw. cbn [fst snd is_success negb]. rewrite Hsave.
  unfold emAfClusterAttributeChangedCallback. change (table (st <| gAttributeSaver := p |>)) with (table st). rewrite Ht, Hc.
  change CLUSTER_MASK_ATTRIBUTE_CHANGED_FUNCTION with (2 ^ Z.of_nat 1). rewrite (find_function_spec c 1 Hcf) by lia.
  set (f := if Z.testbit (cl_mask c) (Z.of_nat 1) then _ else _). eexists _, am. split; [reflexivity|].
  set (s' := match f with Some _ => _ | None => _ end).
  assert (store s' = st <| gAttributeSaver := p |>) as Hst by (unfold s'; by destruct f).
  split; [done|]. rewrite Hst. split; [done|]. split; [by destruct Hlay'|]. split; [|split].
  - etrans; [apply (Hsame ep cl id am off)|]; [done|done|by left|done| |].
    + rewrite plain_min_room, (plain_room _ n) by done. lia.
    + rewrite (plain_copied _ n) by done. rewrite mwrite_front by (rewrite repeat_length; lia).
      rewrite drop_ge, app_nil_r by (rewrite repeat_length; lia). done.
  - intros ep' cl' id' m Hne (_ & _ & _ & _ & _ & am' & off' & Hl' & _ & Hs' & _). apply (Hother ep' cl' id'); [lia|].
    intros am2 off2 Hl2 [E|(? & ? & _)]; [congruence|]. congruence.
  - exists f. unfold s'. destruct f; simpl; by rewrite <- ?app_assoc.
Qed.
End laws.

Section instance.
Context {P : Type} `{AttributePersistenceLaws P} (cfg : storage_config) (hooks : change_hooks).
Context (Hhooks : hooks_accept hooks).

Lemma readable_attr_table (s s' : attribute_store P) ep cl id n :
  table s' = table s → layout_ok cfg s' → readable_attr cfg s ep cl id n → readable_attr cfg s' ep cl id n.
Proof. intros Ht Hlay (_ & Hrest). unfold readable_attr, locate in *. by rewrite Ht. Qed.

Lemma plain_attr_table (s s' : attribute_store P) ep cl id n :
  table s' = table s → layout_ok cfg s' → plain_attr cfg s ep cl id n → plain_attr cfg s' ep cl id n.
Proof.
  intros Ht Hlay (Hr & Hrest). split; [by eapply readable_attr_table|]. unfold locate in *. by rewrite Ht.
Qed.

Lemma store_read_table (s : at_state P) ep cl id n :
  readable_attr cfg (store s) ep cl id n →
  @store_read _ (table_store cfg hooks) s ep cl id n =
  let! r := read_attribute cfg (store s) ep cl id (Some (repeat 0 n)) (Z.of_nat n) in Some (fst r, default [] (snd r)).
Proof.
  intros (_ & _ & _ & _ & _ & am & off & Hl & _). cbn [store_read table_store].
  unfold emberAfReadAttribute, emAfReadAttribute. rewrite Hl. by destruct (read_attribute _ _ _ _ _ _ _).
Qed.

Definition table_store_laws : @AttributeStoreLaws (at_state P) (table_store cfg hooks).
Proof.
  unshelve refine {| store_readable s ep cl id n := readable_attr cfg (store s) ep cl id n;
                     store_attr s ep cl id n := plain_attr cfg (store s) ep cl id n |}.
  - by intros s ep cl id n [].
  - intros s ep cl id n Hp. rewrite store_read_table by done.
    destruct Hp as (Hlay & Hok & Hep & Hty & Hra & am & off & Hl & Hint & Hsing & Hsz & Hpl).
    destruct (placed cfg _ _ _ _ _ _ Hlay Hl) as [Hid Hpla].
    destruct Hpla as [i c Hs Hf Hc Hm Hoff Ho|]; [|congruence].
    pose proof (place_bytes cfg _ ep cl id am off _ _ Hlay (in_main _ _ _ _ _ _ _ i c Hs Hf Hc Hm Hoff Ho) Hm) as Hb.
    rewrite (read_internal cfg _ _ _ _ am off _ off) by done. rewrite Hid, Hra. cbn [negb].
    unfold read_value. rewrite (plain_room am n), plain_min_room, Z.ltb_irrefl by done.
    unfold copied. destruct Hpl as (H1 & H2 & H3). rewrite H1, H2, H3, Hsz, Nat2Z.id.
    pose proof (arena_bound _ _ _ _ _ _ _ (lo_main _ _ Hlay) Hf) as Hbd.
    assert (slot_lives (ep, c, am)) as Hlv by (unfold slot_lives, stored; simpl; by rewrite Hint, Hs).
    destruct (ar_values _ _ _ _ _ (lo_main _ _ Hlay) _ _ Hf Hlv) as (Hspc & _). rewrite Hspc in Hbd. simpl in Hbd.
    destruct (mread_is_Some (drop (Z.to_nat off) (attributeData (store s))) 0 n) as [v Hv]; [rewrite length_drop; lia|].
    rewrite Hv. pose proof (mread_length _ _ _ _ Hv) as Hlv'.
    rewrite mwrite_front by (rewrite repeat_length; lia). rewrite drop_ge, app_nil_r by (rewrite repeat_length; lia).
    exists v. split_and!; [done|done|]. eapply mread_bytes_ok; [|exact Hv]. by apply bytes_ok_drop.
  - intros s ep cl id n v ty Hp Hlen Hv.
    destruct (plain_write cfg hooks Hhooks s ep cl id n v ty Hp Hlen Hv) as (s' & am & Hw & _ & Ht & Hlay & Hr & Hoth & _).
    exists s'. split; [done|]. split; [|split; [|split; [|split]]].
    + rewrite store_read_table by (by eapply readable_attr_table; [| |apply Hp]). by rewrite Hr.
    + intros ep' cl' id' m Hp'. by eapply plain_attr_table.
    + intros ep' cl' id' m Hp'. by eapply readable_attr_table.
    + intros ep' cl' id' m Hne Hp'. rewrite !store_read_table by (done || by eapply readable_attr_table). by rewrite Hoth.
    + cbn [store_contains_server store_server_index store_known_volatile table_store]. rewrite Ht. split_and!; [done|done|].
      intros. unfold emberAfIsKnownVolatileAttribute, emberAfLocateAttributeMetadata, locate. by rewrite Ht.
Defined.
End instance.

(** ** A map keeps it

    The simplest store: every path is a value of a fixed length. *)
Module MapStore.
Abbreviation map_store := (gmap (Z * Z * Z) bytes).

Definition map_read (s : map_store) (ep : EndpointId) (cl : ClusterId) (id : AttributeId) (n : nat) : option (EmberAfStatus * bytes) :=
  Some (match s !! (ep, cl, id) with
        | Some v => if (length v =? n)%nat then (EMBER_ZCL_STATUS_SUCCESS, v) else (EMBER_ZCL_STATUS_RESOURCE_EXHAUSTED, [])
        | None => (EMBER_ZCL_STATUS_UNSUPPORTED_ATTRIBUTE, [])
        end).
Definition map_write (s : map_store) (ep : EndpointId) (cl : ClusterId) (id : AttributeId) (v : bytes) : option (EmberAfStatus * map_store) :=
  Some (match s !! (ep, cl, id) with
        | Some v' => if (length v' =? length v)%nat then (EMBER_ZCL_STATUS_SUCCESS, <[(ep, cl, id) := v]> s)
                     else (EMBER_ZCL_STATUS_RESOURCE_EXHAUSTED, s)
        | None => (EMBER_ZCL_STATUS_UNSUPPORTED_ATTRIBUTE, s)
        end).
#[export] Instance map_attribute_store : AttributeStore map_store := {|
  store_read := map_read;
  store_write s ep cl id v _ := map_write s ep cl id v;
  store_contains_server s _ _ := Some true;
  store_server_index s _ _ _ := Some 0;
  store_known_volatile s _ _ _ := Some false |}.

Definition map_has (s : map_store) (ep : EndpointId) (cl : ClusterId) (id : AttributeId) (n : nat) : Prop :=
  ∃ v, s !! (ep, cl, id) = Some v ∧ length v = n ∧ bytes_ok v.

#[export, refine] Instance map_store_laws : AttributeStoreLaws map_store := {| store_readable := map_has; store_attr := map_has |}.
Proof.
  - done.
  - intros s ep cl id n (v & Hv & Hn & Hb). exists v. cbn. unfold map_read. by rewrite Hv, Hn, Nat.eqb_refl.
  - intros s ep cl id n v ty (v' & Hv' & Hn' & _) Hn Hb. exists (<[(ep, cl, id) := v]> s). cbn. unfold map_write.
    rewrite Hv', Hn', <- Hn, Nat.eqb_refl.
    assert (∀ ep' cl' id' m, map_has s ep' cl' id' m → map_has (<[(ep, cl, id):=v]> s) ep' cl' id' m) as Hhas.
    { intros ep' cl' id' m (w & Hw & Hm & Hbw). destruct (decide ((ep', cl', id') = (ep, cl, id))) as [E|Hne].
      - exists v. rewrite E in Hw |- *. rewrite lookup_insert_eq. split_and!; [done|congruence|done].
      - exists w. by rewrite lookup_insert_ne by congruence. }
    split_and!; [done|unfold map_read; by rewrite lookup_insert_eq, Nat.eqb_refl|exact Hhas|exact Hhas| |done|done|done].
    intros ep' cl' id' m Hne _. unfold map_read. by rewrite lookup_insert_ne by congruence.
Defined.
End MapStore.
