(* ===== verification/OnOffServer.v ===== *)
(** * OnOffServer: the On/Off cluster

    [src/src/app/clusters/on-off-server/on-off-server.cpp] in the build without
    the scenes and mode plugins: the commands, the startup value, the timed off
    state machine with its timers, the off effects.  The attributes are behind
    the interface [AttributeStore], with the accessors of [StoreInterface].

    The level control plugin is a flag of the build; its effect on a change of
    the value is an argument.  The clock is an argument of the steps that read
    it.  The system timers are a map from the event control that is their context
    to the delay asked for: starting a timer replaces the one with the same
    control. *)
From S2P Require Import Prelude Zcl StoreInterface.

(** ** Identifiers *)
Definition OnOff_Id : ClusterId := 6.
Definition LevelControl_Id : ClusterId := 8.
Definition OnOff_OnOff : AttributeId := 0.
Definition OnOff_GlobalSceneControl : AttributeId := 0x4000.
Definition OnOff_OnTime : AttributeId := 0x4001.
Definition OnOff_OffWaitTime : AttributeId := 0x4002.
Definition OnOff_StartUpOnOff : AttributeId := 0x4003.
Definition FeatureMap_Id : AttributeId := 0xFFFC.

(** ** State *)
Inductive ec_callback : Set := NoCallback | OnOffWaitTimeOffEventHandler.

Record EmberEventControl := { ec_endpoint : EndpointId; ec_handler : ec_callback }.

Record OnOffEffect := {
  effect_addr : nat;
  mEndpoint : EndpointId;
  mOffWithEffectTrigger : option nat;
  mEffectIdentifier : Z;
  mEffectVariant : Z }.

(** The calls to an effect trigger, with the fields it sees. *)
Inductive onoff_event : Set :=
| EffectTrigger (trigger : nat) (addr : nat) (identifier variant : Z)
| PostInitCallback (ep : EndpointId).

Record onoff_state (S : Type) := {
  attrs : S;
  gEventControls : list EmberEventControl;
  timers : gmap (option nat) Z;
  nextDesiredOnWithTimedOffTimestamp : Z;
  firstEffect : list OnOffEffect;
  onoff_log : list onoff_event }.
#[global] Arguments attrs {S} _.
#[global] Arguments gEventControls {S} _.
#[global] Arguments timers {S} _.
#[global] Arguments nextDesiredOnWithTimedOffTimestamp {S} _.
#[global] Arguments firstEffect {S} _.
#[global] Arguments onoff_log {S} _.
#[export] Instance eta_onoff_state {S} : Eta (onoff_state S) := fun s =>
  {| attrs := attrs s; gEventControls := gEventControls s; timers := timers s;
     nextDesiredOnWithTimedOffTimestamp := nextDesiredOnWithTimedOffTimestamp s;
     firstEffect := firstEffect s; onoff_log := onoff_log s |}.

(** Commands and constants. *)
Definition Off_Id : Z := 0.
Definition On_Id : Z := 1.
Definition Toggle_Id : Z := 2.
Definition ON_OFF_UPDATE_TIME_MS : Z := 100.
Definition MIN_ON_OFF_TIME_VALUE : Z := 1.
Definition MAX_ON_OFF_TIME_VALUE : Z := 0xFFFF.
Definition Feature_kLighting : Z := 1.
Definition LevelControl_Feature_kOnOff : Z := 1.
Definition OnOffControl_kAcceptOnlyWhenOn : Z := 1.

(** What the build fixes. *)
Record onoff_build := {
  EMBER_AF_PLUGIN_LEVEL_CONTROL : bool;
  IGNORE_ON_OFF_CLUSTER_START_UP_ON_OFF : bool;
  ON_OFF_CLUSTER_SERVER_ENDPOINT_COUNT : Z }.

Section server.
Context {S : Type} `{AttributeStore S} (build : onoff_build).
Context (emberAfOnOffClusterLevelControlEffectCallback : EndpointId → bool → onoff_state S → option (onoff_state S)).

Definition log_onoff (e : onoff_event) (st : onoff_state S) : onoff_state S := st <| onoff_log ::= (fun l => l ++ [e]) |>.

(** ** Timers *)
Definition scheduleTimerCallbackMs (control : option nat) (delayMs : Z) (st : onoff_state S) : onoff_state S :=
  st <| timers ::= <[control := delayMs]> |>.
Definition cancelTimer (control : option nat) (st : onoff_state S) : onoff_state S := st <| timers ::= delete control |>.

(** [getEventControl]: the index of the control of an endpoint. *)
Definition getEventControl (st : onoff_state S) (ep : EndpointId) : option (option nat) :=
  let! index := store_server_index (attrs st) ep OnOff_Id (ON_OFF_CLUSTER_SERVER_ENDPOINT_COUNT build) in
  Some (if Z.of_nat (length (gEventControls st)) <=? index then None else Some (Z.to_nat index)).

Definition configureEventControl (st : onoff_state S) (ep : EndpointId) : option (option nat * onoff_state S) :=
  let! controller := getEventControl st ep in
  Some (match controller with
        | None => (None, st)
        | Some i => (Some i, st <| gEventControls ::=
                       <[i := {| ec_endpoint := ep; ec_handler := OnOffWaitTimeOffEventHandler |}]> |>)
        end).

Definition cancelEndpointTimerCallback (st : onoff_state S) (ep : EndpointId) : option (onoff_state S) :=
  let! control := getEventControl st ep in
  Some (match control with Some i => cancelTimer (Some i) st | None => st end).

Definition MatterOnOffClusterServerShutdownCallback (st : onoff_state S) (ep : EndpointId) : option (onoff_state S) :=
  cancelEndpointTimerCallback st ep.

(** ** Features *)
Definition HasFeature (st : onoff_state S) (ep : EndpointId) (feature : Z) : option bool :=
  let! (status, featureMap) := get_uint 4 (attrs st) ep OnOff_Id FeatureMap_Id 0 in
  Some (is_success status && has_bits featureMap feature).
Definition SupportsLightingApplications (st : onoff_state S) (ep : EndpointId) : option bool := HasFeature st ep Feature_kLighting.

Definition LevelControlHasFeature (st : onoff_state S) (ep : EndpointId) (feature : Z) : option bool :=
  let! (status, featureMap) := get_uint 4 (attrs st) ep LevelControl_Id FeatureMap_Id 0 in
  Some (is_success status && has_bits featureMap feature).

Definition LevelControlWithOnOffFeaturePresent (st : onoff_state S) (ep : EndpointId) : option bool :=
  let! has := store_contains_server (attrs st) ep LevelControl_Id in
  if negb has then Some false else LevelControlHasFeature st ep LevelControl_Feature_kOnOff.

(** ** The value *)
Definition getOnOffValue (st : onoff_state S) (ep : EndpointId) (currentOnOffValue : bool) : option (EmberAfStatus * bool) :=
  get_bool (attrs st) ep OnOff_Id OnOff_OnOff currentOnOffValue.

Definition set_bool_attr (id : AttributeId) (st : onoff_state S) (ep : EndpointId) (value : bool) : option (EmberAfStatus * onoff_state S) :=
  let! (status, a) := set_bool (attrs st) ep OnOff_Id id value in Some (status, st <| attrs := a |>).
Definition set_u16_attr (id : AttributeId) (st : onoff_state S) (ep : EndpointId) (value : Z) : option (EmberAfStatus * onoff_state S) :=
  let! (status, a) := set_u16 (attrs st) ep OnOff_Id id value in Some (status, st <| attrs := a |>).

(** The level control effect, when the plugin is built and the change does not
    come from it: [None] when the branch is not taken. *)
Definition level_effect (st : onoff_state S) (ep : EndpointId) (newValue initiatedByLevelChange : bool)
    : option (option (onoff_state S)) :=
  if EMBER_AF_PLUGIN_LEVEL_CONTROL build && negb initiatedByLevelChange then
    let! present := LevelControlWithOnOffFeaturePresent st ep in
    if present then let! st' := emberAfOnOffClusterLevelControlEffectCallback ep newValue st in Some (Some st')
    else Some None
  else Some None.

(** The attributes a lighting device resets when it is set on. *)
Definition lighting_on (st : onoff_state S) (ep : EndpointId) : option (onoff_state S) :=
  let! lighting := SupportsLightingApplications st ep in
  if lighting then
    let! (_, onTime) := get_uint 2 (attrs st) ep OnOff_Id OnOff_OnTime 0 in
    let! st1 :=
      (if onTime =? 0 then
         let! (_, st1) := set_u16_attr OnOff_OffWaitTime st ep 0 in
         let! event := getEventControl st1 ep in
         Some (match event with Some i => cancelTimer (Some i) st1 | None => st1 end)
       else Some st) in
    let! (_, st1) := set_bool_attr OnOff_GlobalSceneControl st1 ep true in Some st1
  else Some st.

Definition setOnOffValue (st : onoff_state S) (ep : EndpointId) (command : Z) (initiatedByLevelChange : bool)
    : option (EmberAfStatus * onoff_state S) :=
  let! (status, currentValue) := get_bool (attrs st) ep OnOff_Id OnOff_OnOff false in
  if negb (is_success status) then Some (status, st)
  else if (negb currentValue && (command =? Off_Id)) || (currentValue && (command =? On_Id))
  then Some (EMBER_ZCL_STATUS_SUCCESS, st)
  else
    let newValue := negb currentValue in
    if newValue then
      let! st1 := lighting_on st ep in
      let! (status, st2) := set_bool_attr OnOff_OnOff st1 ep newValue in
      if negb (is_success status) then Some (status, st2)
      else
        let! effect := level_effect st2 ep newValue initiatedByLevelChange in
        Some (EMBER_ZCL_STATUS_SUCCESS, match effect with Some st3 => st3 | None => st2 end)
    else
      let! effect := level_effect st ep newValue initiatedByLevelChange in
      match effect with
      | Some st1 => Some (EMBER_ZCL_STATUS_SUCCESS, st1)
      | None =>
          let! (status, st1) := set_bool_attr OnOff_OnOff st ep newValue in
          if negb (is_success status) then Some (status, st1)
          else
            let! lighting := SupportsLightingApplications st1 ep in
            if lighting then let! (_, st2) := set_u16_attr OnOff_OnTime st1 ep 0 in Some (EMBER_ZCL_STATUS_SUCCESS, st2)
            else Some (EMBER_ZCL_STATUS_SUCCESS, st1)
      end.

(** ** Startup *)
Definition StartUp_kOff : Z := 0.
Definition StartUp_kOn : Z := 1.
Definition StartUp_kTogglePreviousOnOff : Z := 2.

Definition getOnOffValueForStartUp (st : onoff_state S) (ep : EndpointId) (onOffValueForStartUp : bool) : option (EmberAfStatus * bool) :=
  let! (status, startUpOnOff) := get_nullable_enum8 (attrs st) ep OnOff_Id OnOff_StartUpOnOff None in
  if negb (is_success status) then Some (status, onOffValueForStartUp)
  else
    let! (status, updatedOnOff) := get_bool (attrs st) ep OnOff_Id OnOff_OnOff false in
    if negb (is_success status) then Some (status, onOffValueForStartUp)
    else Some (status,
           match startUpOnOff with
           | None => updatedOnOff
           | Some v => if v =? StartUp_kOff then false
                       else if v =? StartUp_kOn then true
                       else if v =? StartUp_kTogglePreviousOnOff then negb updatedOnOff
                       else updatedOnOff
           end).

Definition areStartUpOnOffServerAttributesNonVolatile (st : onoff_state S) (ep : EndpointId) : option bool :=
  let! v1 := store_known_volatile (attrs st) ep OnOff_Id OnOff_OnOff in
  if v1 then Some false
  else let! v2 := store_known_volatile (attrs st) ep OnOff_Id OnOff_StartUpOnOff in Some (negb v2).

(** The boolean is passed as a command id: [false] is [Off], [true] is [On]. *)
Definition initOnOffServer (st : onoff_state S) (ep : EndpointId) : option (onoff_state S) :=
  let! st1 :=
    (if IGNORE_ON_OFF_CLUSTER_START_UP_ON_OFF build then Some st
     else
       let! lighting := SupportsLightingApplications st ep in
       if negb lighting then Some st
       else
         let! nonVolatile := areStartUpOnOffServerAttributesNonVolatile st ep in
         if negb nonVolatile then Some st
         else
           let! (status, onOffValueForStartUp) := getOnOffValueForStartUp st ep false in
           if is_success status
           then let! (_, st1) := setOnOffValue st ep (if onOffValueForStartUp then 1 else 0) true in Some st1
           else Some st) in
  Some (log_onoff (PostInitCallback ep) st1).

(** ** Effects *)
Fixpoint inst (effects : list OnOffEffect) (ep : EndpointId) : option OnOffEffect :=
  match effects with
  | [] => None
  | current :: rest => if mEndpoint current =? ep then Some current else inst rest ep
  end.

Definition reg (e : OnOffEffect) (effects : list OnOffEffect) : list OnOffEffect := e :: effects.

(** [unreg]: [None] is the read through the null head of an empty list. *)
Fixpoint unlink (addr : nat) (effects : list OnOffEffect) : list OnOffEffect :=
  match effects with
  | [] => []
  | current :: rest => if (effect_addr current =? addr)%nat then rest else current :: unlink addr rest
  end.
Definition unreg (addr : nat) (effects : list OnOffEffect) : option (list OnOffEffect) :=
  match effects with
  | [] => None
  | first :: rest => Some (if (effect_addr first =? addr)%nat then rest else first :: unlink addr rest)
  end.

(** The fields of the effect found for the endpoint are overwritten. *)
Fixpoint configure_effect (effects : list OnOffEffect) (ep : EndpointId) (effectId effectVariant : Z) : list OnOffEffect :=
  match effects with
  | [] => []
  | e :: rest =>
      if mEndpoint e =? ep
      then {| effect_addr := effect_addr e; mEndpoint := mEndpoint e; mOffWithEffectTrigger := mOffWithEffectTrigger e;
              mEffectIdentifier := effectId; mEffectVariant := effectVariant |} :: rest
      else e :: configure_effect rest ep effectId effectVariant
  end.

(** ** Commands: the status added to the response, and the state *)
Definition offCommand (st : onoff_state S) (ep : EndpointId) := setOnOffValue st ep Off_Id false.
Definition onCommand (st : onoff_state S) (ep : EndpointId) := setOnOffValue st ep On_Id false.
Definition toggleCommand (st : onoff_state S) (ep : EndpointId) := setOnOffValue st ep Toggle_Id false.

Definition offWithEffectCommand (st : onoff_state S) (ep : EndpointId) (effectId effectVariant : Z)
    : option (EmberAfStatus * onoff_state S) :=
  let! lighting := SupportsLightingApplications st ep in
  if negb lighting then Some (EMBER_ZCL_STATUS_UNSUPPORTED_COMMAND, st)
  else
    let! (_, globalSceneControl) := get_bool (attrs st) ep OnOff_Id OnOff_GlobalSceneControl false in
    let! (_, isOnBeforeCommand) := get_bool (attrs st) ep OnOff_Id OnOff_OnOff false in
    let! st1 := (if globalSceneControl
                 then let! (_, st1) := set_bool_attr OnOff_GlobalSceneControl st ep false in Some st1
                 else Some st) in
    let st2 :=
      if isOnBeforeCommand then
        match inst (firstEffect st1) ep with
        | Some e =>
            match mOffWithEffectTrigger e with
            | Some trigger =>
                log_onoff (EffectTrigger trigger (effect_addr e) effectId effectVariant)
                  (st1 <| firstEffect ::= (fun l => configure_effect l ep effectId effectVariant) |>)
            | None => st1
            end
        | None => st1
        end
      else st1 in
    setOnOffValue st2 ep Off_Id false.

Definition OnWithRecallGlobalSceneCommand (st : onoff_state S) (ep : EndpointId) : option (EmberAfStatus * onoff_state S) :=
  let! lighting := SupportsLightingApplications st ep in
  if negb lighting then Some (EMBER_ZCL_STATUS_UNSUPPORTED_COMMAND, st)
  else
    let! (_, globalSceneControl) := get_bool (attrs st) ep OnOff_Id OnOff_GlobalSceneControl false in
    if globalSceneControl then Some (EMBER_ZCL_STATUS_SUCCESS, st)
    else
      let! (_, st1) := set_bool_attr OnOff_GlobalSceneControl st ep true in
      let! (_, st2) := setOnOffValue st1 ep On_Id false in
      Some (EMBER_ZCL_STATUS_SUCCESS, st2).

(** ** Timed off *)
Definition calculateNextWaitTimeMS (currentTime : Z) (st : onoff_state S) : Z * onoff_state S :=
  let waitTime := ON_OFF_UPDATE_TIME_MS in
  let waitTime :=
    if nextDesiredOnWithTimedOffTimestamp st <? currentTime then
      let latency := u64 (currentTime - nextDesiredOnWithTimedOffTimestamp st) in
      if ON_OFF_UPDATE_TIME_MS <=? latency then 1 else u64 (waitTime - latency)
    else waitTime in
  (u32 waitTime, st <| nextDesiredOnWithTimedOffTimestamp ::= (fun t => u64 (t + ON_OFF_UPDATE_TIME_MS)) |>).

Definition OnWithTimedOffCommand (now : Z) (st : onoff_state S) (ep : EndpointId) (onOffControl onTime offWaitTime : Z)
    : option (EmberAfStatus * onoff_state S) :=
  let! (event, st) := configureEventControl st ep in
  match event with
  | None => Some (EMBER_ZCL_STATUS_UNSUPPORTED_ENDPOINT, st)
  | Some _ =>
      let! lighting := SupportsLightingApplications st ep in
      if negb lighting then Some (EMBER_ZCL_STATUS_UNSUPPORTED_COMMAND, st)
      else
        let! (_, isOn) := get_bool (attrs st) ep OnOff_Id OnOff_OnOff false in
        if has_bits onOffControl OnOffControl_kAcceptOnlyWhenOn && negb isOn then Some (EMBER_ZCL_STATUS_SUCCESS, st)
        else
          let! (_, currentOffWaitTime) := get_uint 2 (attrs st) ep OnOff_Id OnOff_OffWaitTime MAX_ON_OFF_TIME_VALUE in
          let! (_, currentOnTime) := get_uint 2 (attrs st) ep OnOff_Id OnOff_OnTime 0 in
          let! r :=
            (if (0 <? currentOffWaitTime) && negb isOn then
               let newOffWaitTime := if currentOffWaitTime <? offWaitTime then currentOffWaitTime else offWaitTime in
               let! (_, st1) := set_u16_attr OnOff_OffWaitTime st ep newOffWaitTime in
               Some (currentOnTime, newOffWaitTime, st1)
             else
               let newOnTime := if onTime <? currentOnTime then currentOnTime else onTime in
               let! (_, st1) := set_u16_attr OnOff_OnTime st ep newOnTime in
               let! (_, st2) := set_u16_attr OnOff_OffWaitTime st1 ep offWaitTime in
               let! (_, st3) := setOnOffValue st2 ep On_Id false in
               Some (newOnTime, offWaitTime, st3)) in
          match r with
          | (currentOnTime, currentOffWaitTime, st4) =>
              if (currentOnTime <? MAX_ON_OFF_TIME_VALUE) && (currentOffWaitTime <? MAX_ON_OFF_TIME_VALUE) then
                let st5 := st4 <| nextDesiredOnWithTimedOffTimestamp := u64 (now + ON_OFF_UPDATE_TIME_MS) |> in
                let! (control, st6) := configureEventControl st5 ep in
                Some (EMBER_ZCL_STATUS_SUCCESS, scheduleTimerCallbackMs control ON_OFF_UPDATE_TIME_MS st6)
              else Some (EMBER_ZCL_STATUS_SUCCESS, st4)
          end
  end.

(** Restarting the timer of an endpoint. *)
Definition restart_timer (now : Z) (st : onoff_state S) (ep : EndpointId) : option (onoff_state S) :=
  let! (control, st) := configureEventControl st ep in
  let (waitTime, st) := calculateNextWaitTimeMS now st in
  Some (scheduleTimerCallbackMs control waitTime st).

Definition updateOnOffTimeCommand (now : Z) (st : onoff_state S) (ep : EndpointId) : option (onoff_state S) :=
  let! (_, isOn) := get_bool (attrs st) ep OnOff_Id OnOff_OnOff false in
  if isOn then
    let! st1 := restart_timer now st ep in
    let! (_, onTime) := get_uint 2 (attrs st1) ep OnOff_Id OnOff_OnTime MIN_ON_OFF_TIME_VALUE in
    let! r := (if 0 <? onTime then
                 let! (_, st2) := set_u16_attr OnOff_OnTime st1 ep (onTime - 1) in Some (onTime - 1, st2)
               else Some (onTime, st1)) in
    match r with
    | (onTime, st2) =>
        if onTime =? 0 then
          let! (_, st3) := set_u16_attr OnOff_OffWaitTime st2 ep 0 in
          let! (_, st4) := setOnOffValue st3 ep Off_Id false in Some st4
        else Some st2
    end
  else
    let! (_, offWaitTime) := get_uint 2 (attrs st) ep OnOff_Id OnOff_OffWaitTime 0 in
    let! r := (if 0 <? offWaitTime then
                 let! (_, st1) := set_u16_attr OnOff_OffWaitTime st ep (offWaitTime - 1) in Some (offWaitTime - 1, st1)
               else Some (offWaitTime, st)) in
    match r with
    | (offWaitTime, st1) =>
        if 0 <? offWaitTime then restart_timer now st1 ep
        else let! control := getEventControl st1 ep in Some (cancelTimer control st1)
    end.

(** [timerCallback]: a timer that fires is gone; its control says what to run,
    and a null control is undefined. *)
Definition timerCallback (now : Z) (st : onoff_state S) (control : option nat) : option (onoff_state S) :=
  let st := cancelTimer control st in
  let! i := control in
  let! c := gEventControls st !! i in
  match ec_handler c with
  | OnOffWaitTimeOffEventHandler => updateOnOffTimeCommand now st (ec_endpoint c)
  | NoCallback => None
  end.
End server.

(** ** The cluster as an abstract machine

    One endpoint's On/Off server: its attributes and the delay of its timer. *)
Record onoff_view := {
  v_on : bool; v_gsc : bool; v_onTime : Z; v_offWait : Z; v_startUp : Z; v_features : Z }.
#[export] Instance eta_onoff_view : Eta onoff_view := fun v =>
  {| v_on := v_on v; v_gsc := v_gsc v; v_onTime := v_onTime v; v_offWait := v_offWait v;
     v_startUp := v_startUp v; v_features := v_features v |}.

Definition v_lighting (v : onoff_view) : bool := has_bits (v_features v) Feature_kLighting.

Record onoff_abs := { ab_view : onoff_view; ab_timer : option Z }.

Definition abs_turn_on (s : onoff_abs) : onoff_abs :=
  let v := ab_view s in
  if v_lighting v then
    if v_onTime v =? 0
    then {| ab_view := v <| v_offWait := 0 |> <| v_gsc := true |> <| v_on := true |>; ab_timer := None |}
    else {| ab_view := v <| v_gsc := true |> <| v_on := true |>; ab_timer := ab_timer s |}
  else {| ab_view := v <| v_on := true |>; ab_timer := ab_timer s |}.

Definition abs_turn_off (s : onoff_abs) : onoff_abs :=
  let v := (ab_view s) <| v_on := false |> in
  {| ab_view := if v_lighting v then v <| v_onTime := 0 |> else v; ab_timer := ab_timer s |}.

(** The value a command asks for. *)
Definition commanded (command : Z) (on : bool) : bool :=
  if command =? Off_Id then false else if command =? On_Id then true else negb on.

Definition abs_set (command : Z) (s : onoff_abs) : onoff_abs :=
  let on := v_on (ab_view s) in
  if eqb (commanded command on) on then s
  else if commanded command on then abs_turn_on s else abs_turn_off s.

(** The table of [StartUpOnOff]. *)
Definition startup_value (startUp : Z) (on : bool) : bool :=
  if startUp =? StartUp_kOff then false
  else if startUp =? StartUp_kOn then true
  else if startUp =? StartUp_kTogglePreviousOnOff then negb on
  else on.

Definition abs_startup (s : onoff_abs) : onoff_abs :=
  let v := ab_view s in
  if v_lighting v then abs_set (if startup_value (v_startUp v) (v_on v) then On_Id else Off_Id) s else s.

Definition abs_off_with_effect (s : onoff_abs) : onoff_abs :=
  if v_lighting (ab_view s)
  then abs_set Off_Id {| ab_view := (ab_view s) <| v_gsc := false |>; ab_timer := ab_timer s |}
  else s.

Definition abs_recall (s : onoff_abs) : onoff_abs :=
  if negb (v_lighting (ab_view s)) || v_gsc (ab_view s) then s
  else abs_set On_Id {| ab_view := (ab_view s) <| v_gsc := true |>; ab_timer := ab_timer s |}.

Definition abs_timed_off (control onTime offWaitTime : Z) (s : onoff_abs) : onoff_abs :=
  let v := ab_view s in
  if negb (v_lighting v) || (has_bits control OnOffControl_kAcceptOnlyWhenOn && negb (v_on v)) then s
  else
    let waiting := (0 <? v_offWait v) && negb (v_on v) in
    let t := if waiting then v_onTime v else Z.max (v_onTime v) onTime in
    let w := if waiting then Z.min (v_offWait v) offWaitTime else offWaitTime in
    let s' := {| ab_view := v <| v_onTime := t |> <| v_offWait := w |>; ab_timer := ab_timer s |} in
    let s' := if waiting then s' else abs_set On_Id s' in
    if (t <? MAX_ON_OFF_TIME_VALUE) && (w <? MAX_ON_OFF_TIME_VALUE)
    then {| ab_view := ab_view s'; ab_timer := Some ON_OFF_UPDATE_TIME_MS |} else s'.

(** The timer fires; [wait] is the delay of the timer started for the next time. *)
Definition abs_tick (wait : Z) (s : onoff_abs) : onoff_abs :=
  let v := ab_view s in
  if v_on v then
    let t := Z.max 0 (v_onTime v - 1) in
    let v1 := v <| v_onTime := t |> in
    if t =? 0 then abs_set Off_Id {| ab_view := v1 <| v_offWait := 0 |>; ab_timer := Some wait |}
    else {| ab_view := v1; ab_timer := Some wait |}
  else
    let w := Z.max 0 (v_offWait v - 1) in
    {| ab_view := v <| v_offWait := w |>; ab_timer := if 0 <? w then Some wait else None |}.

Lemma abs_set_off s : v_on (ab_view (abs_set Off_Id s)) = false ∧
  v_offWait (ab_view (abs_set Off_Id s)) = v_offWait (ab_view s) ∧ ab_timer (abs_set Off_Id s) = ab_timer s.
Proof.
  unfold abs_set, abs_turn_off, v_lighting. cbn [commanded Off_Id Z.eqb]. destruct s as [[on ?????] ?], on; simpl; [|done].
  by destruct (has_bits _ _).
Qed.

Lemma abs_set_on s : v_on (ab_view (abs_set On_Id s)) = true ∧
  v_onTime (ab_view (abs_set On_Id s)) = v_onTime (ab_view s).
Proof.
  unfold abs_set, abs_turn_on, v_lighting. destruct s as [[on ?????] ?], on; simpl; [done|].
  destruct (has_bits _ _); [|done]. by destruct (_ =? 0).
Qed.

(** ** What the store holds for an endpoint *)
Section view.
Context {S : Type} `{AttributeStoreLaws S}.
Implicit Types a : S.

Definition holds a (ep : EndpointId) (cl : ClusterId) (id : AttributeId) (n : nat) (l : bytes) : Prop :=
  store_readable a ep cl id n ∧ store_read a ep cl id n = Some (EMBER_ZCL_STATUS_SUCCESS, l).

Definition holds_bool a (ep : EndpointId) (id : AttributeId) (b : bool) : Prop :=
  ∃ x, holds a ep OnOff_Id id 1 x ∧ le_val x ≠ 0xFF ∧ negb (le_val x =? 0) = b.
Definition holds_uint (n : nat) a (ep : EndpointId) (id : AttributeId) (x : Z) : Prop :=
  ∃ l, holds a ep OnOff_Id id n l ∧ le_val l = x.

Record view a (ep : EndpointId) (v : onoff_view) : Prop := {
  vw_writable : store_attr a ep OnOff_Id OnOff_OnOff 1 ∧ store_attr a ep OnOff_Id OnOff_GlobalSceneControl 1 ∧
    store_attr a ep OnOff_Id OnOff_OnTime 2 ∧ store_attr a ep OnOff_Id OnOff_OffWaitTime 2;
  vw_on : holds_bool a ep OnOff_OnOff (v_on v);
  vw_gsc : holds_bool a ep OnOff_GlobalSceneControl (v_gsc v);
  vw_onTime : holds_uint 2 a ep OnOff_OnTime (v_onTime v);
  vw_offWait : holds_uint 2 a ep OnOff_OffWaitTime (v_offWait v);
  vw_startUp : holds_uint 1 a ep OnOff_StartUpOnOff (v_startUp v);
  vw_features : holds_uint 4 a ep FeatureMap_Id (v_features v) }.

(** What a change of one endpoint's cluster leaves alone. *)
Record same_else a a' (ep : EndpointId) : Prop := {
  se_view : ∀ ep' v, ep' ≠ ep → view a ep' v → view a' ep' v;
  se_server : ∀ ep' cl, store_contains_server a' ep' cl = store_contains_server a ep' cl;
  se_index : ∀ ep' cl n, store_server_index a' ep' cl n = store_server_index a ep' cl n;
  se_volatile : ∀ ep' cl id, store_known_volatile a' ep' cl id = store_known_volatile a ep' cl id }.

Lemma same_else_refl a ep : same_else a a ep.
Proof. by split. Qed.
Lemma same_else_trans a b c ep : same_else a b ep → same_else b c ep → same_else a c ep.
Proof. intros H1 H2. split; intros; [by apply H2, H1|rewrite (se_server _ _ _ H2); apply H1|rewrite (se_index _ _ _ H2); apply H1|
  rewrite (se_volatile _ _ _ H2); apply H1]. Qed.

Lemma get_bool_holds a ep id b d : holds_bool a ep id b →
  get_bool a ep OnOff_Id id d = Some (EMBER_ZCL_STATUS_SUCCESS, b).
Proof.
  intros (x & [_ Hr] & Hx & <-). unfold get_bool. rewrite Hr. cbn [is_success negb].
  by rewrite (proj2 (Z.eqb_neq _ _) Hx).
Qed.

Lemma get_uint_holds n a ep id x d : holds_uint n a ep id x →
  get_uint n a ep OnOff_Id id d = Some (EMBER_ZCL_STATUS_SUCCESS, x).
Proof. intros (l & [_ Hr] & <-). unfold get_uint. by rewrite Hr. Qed.

(** One write, seen through [holds]. *)
Lemma write_holds a ep id n v ty : store_attr a ep OnOff_Id id n → length v = n → bytes_ok v →
  ∃ a', store_write a ep OnOff_Id id v ty = Some (EMBER_ZCL_STATUS_SUCCESS, a') ∧ holds a' ep OnOff_Id id n v ∧
    (∀ ep' cl' id' m l, (ep', cl', id') ≠ (ep, OnOff_Id, id) → holds a ep' cl' id' m l → holds a' ep' cl' id' m l) ∧
    (∀ ep' cl' id' m, store_attr a ep' cl' id' m → store_attr a' ep' cl' id' m) ∧
    same_else a a' ep.
Proof.
  intros Ha Hl Hb.
  destruct (store_write_attr a ep OnOff_Id id n v ty Ha Hl Hb) as (a' & Hw & Hr & Hattr & Hread & Hoth & H1 & H2 & H3).
  assert (Hhold : ∀ ep' cl' id' m l, (ep', cl', id') ≠ (ep, OnOff_Id, id) → holds a ep' cl' id' m l → holds a' ep' cl' id' m l).
  { intros ep' cl' id' m l Hne [Hs Hrd]. split; [by apply Hread|]. by rewrite Hoth. }
  exists a'. split_and!; [done|split; [by apply Hread, store_attr_readable|done]|done|done|]. split; [|done|done|done].
  intros ep' w Hne [V0 V1 V2 V3 V4 V5 V6].
  assert (Hbool : ∀ i b, holds_bool a ep' i b → holds_bool a' ep' i b).
  { intros i b (x & Hx & Hrest). exists x. split; [|done]. apply Hhold; [congruence|done]. }
  assert (Huint : ∀ k i x, holds_uint k a ep' i x → holds_uint k a' ep' i x).
  { intros k i x (l & Hx & Hrest). exists l. split; [|done]. apply Hhold; [congruence|done]. }
  split; auto. by destruct V0 as (?&?&?&?); auto.
Qed.

Ltac other_attr Hoth :=
  match goal with
  | H : holds_bool _ _ ?id _ |- holds_bool _ _ ?id _ =>
      destruct H as (? & ? & ?); eexists; split; [apply Hoth; [by intros [=]|eassumption]|done]
  | H : holds_uint _ _ _ ?id _ |- holds_uint _ _ _ ?id _ =>
      destruct H as (? & ? & ?); eexists; split; [apply Hoth; [by intros [=]|eassumption]|done]
  end.

Lemma set_on_view a ep v b : view a ep v →
  ∃ a', set_bool a ep OnOff_Id OnOff_OnOff b = Some (EMBER_ZCL_STATUS_SUCCESS, a') ∧
    view a' ep (v <| v_on := b |>) ∧ same_else a a' ep.
Proof.
  intros [V0 V1 V2 V3 V4 V5 V6]. destruct (V0) as (Ha & _).
  destruct (write_holds a ep _ _ [if b then 1 else 0] ZCL_BOOLEAN_ATTRIBUTE_TYPE Ha eq_refl) as (a' & Hw & Hh & Hoth & Hat & Hse);
    [by destruct b; repeat constructor|].
  exists a'. split_and!; [done| |done]. split; [destruct V0 as (?&?&?&?); auto| |other_attr Hoth..].
  eexists. split; [exact Hh|]. by destruct b.
Qed.

Lemma set_gsc_view a ep v b : view a ep v →
  ∃ a', set_bool a ep OnOff_Id OnOff_GlobalSceneControl b = Some (EMBER_ZCL_STATUS_SUCCESS, a') ∧
    view a' ep (v <| v_gsc := b |>) ∧ same_else a a' ep.
Proof.
  intros [V0 V1 V2 V3 V4 V5 V6]. destruct (V0) as (_ & Ha & _).
  destruct (write_holds a ep _ _ [if b then 1 else 0] ZCL_BOOLEAN_ATTRIBUTE_TYPE Ha eq_refl) as (a' & Hw & Hh & Hoth & Hat & Hse);
    [by destruct b; repeat constructor|].
  exists a'. split_and!; [done| |done]. split; [destruct V0 as (?&?&?&?); auto|other_attr Hoth| |other_attr Hoth..].
  eexists. split; [exact Hh|]. by destruct b.
Qed.

Lemma set_onTime_view a ep v x : in_u 16 x → view a ep v →
  ∃ a', set_u16 a ep OnOff_Id OnOff_OnTime x = Some (EMBER_ZCL_STATUS_SUCCESS, a') ∧
    view a' ep (v <| v_onTime := x |>) ∧ same_else a a' ep.
Proof.
  intros Hx [V0 V1 V2 V3 V4 V5 V6]. destruct (V0) as (_ & _ & Ha & _).
  destruct (write_holds a ep _ _ (le_bytes 2 x) ZCL_INT16U_ATTRIBUTE_TYPE Ha (length_le_bytes _ _) (le_bytes_ok _ _))
    as (a' & Hw & Hh & Hoth & Hat & Hse).
  exists a'. split_and!; [done| |done]. split; [destruct V0 as (?&?&?&?); auto|other_attr Hoth..| |other_attr Hoth|other_attr Hoth|other_attr Hoth].
  eexists. split; [exact Hh|]. by apply le_val_bytes.
Qed.

Lemma set_offWait_view a ep v x : in_u 16 x → view a ep v →
  ∃ a', set_u16 a ep OnOff_Id OnOff_OffWaitTime x = Some (EMBER_ZCL_STATUS_SUCCESS, a') ∧
    view a' ep (v <| v_offWait := x |>) ∧ same_else a a' ep.
Proof.
  intros Hx [V0 V1 V2 V3 V4 V5 V6]. destruct (V0) as (_ & _ & _ & Ha).
  destruct (write_holds a ep _ _ (le_bytes 2 x) ZCL_INT16U_ATTRIBUTE_TYPE Ha (length_le_bytes _ _) (le_bytes_ok _ _))
    as (a' & Hw & Hh & Hoth & Hat & Hse).
  exists a'. split_and!; [done| |done]. split; [destruct V0 as (?&?&?&?); auto|other_attr Hoth..| |other_attr Hoth|other_attr Hoth].
  eexists. split; [exact Hh|]. by apply le_val_bytes.
Qed.
End view.

(** ** The server implements the machine *)
Section refinement.
Context {S : Type} `{AttributeStoreLaws S} (build : onoff_build).
Context (level : EndpointId → bool → onoff_state S → option (onoff_state S)).
Notation state := (onoff_state S).

(** The state of the server shows [s] for the endpoint, whose control is the [i]-th. *)
Record refines (st : state) (ep : EndpointId) (i : nat) (s : onoff_abs) : Prop := {
  rf_view : view (attrs st) ep (ab_view s);
  rf_index : store_server_index (attrs st) ep OnOff_Id (ON_OFF_CLUSTER_SERVER_ENDPOINT_COUNT build) = Some (Z.of_nat i);
  rf_bound : (i < length (gEventControls st))%nat;
  rf_timer : timers st !! Some i = ab_timer s;
  rf_control : ab_timer s ≠ None →
    gEventControls st !! i = Some {| ec_endpoint := ep; ec_handler := OnOffWaitTimeOffEventHandler |} }.

(** What a step on one endpoint leaves alone. *)
Record frame_ep (st st' : state) (ep : EndpointId) (i : nat) : Prop := {
  fr_attrs : same_else (attrs st) (attrs st') ep;
  fr_timers : ∀ k, k ≠ Some i → timers st' !! k = timers st !! k;
  fr_length : length (gEventControls st') = length (gEventControls st);
  fr_controls : ∀ k, k ≠ i → gEventControls st' !! k = gEventControls st !! k }.

Record frame (st st' : state) (ep : EndpointId) (i : nat) : Prop := {
  fr_ep : frame_ep st st' ep i;
  fr_effects : firstEffect st' = firstEffect st;
  fr_log : onoff_log st' = onoff_log st }.

Lemma frame_ep_refl st ep i : frame_ep st st ep i.
Proof. split; [apply same_else_refl|done..]. Qed.
Lemma frame_ep_trans a b c ep i : frame_ep a b ep i → frame_ep b c ep i → frame_ep a c ep i.
Proof.
  intros [A1 A2 A3 A4] [B1 B2 B3 B4]. split; [by eapply same_else_trans|..].
  - intros. by rewrite B2, A2.
  - congruence.
  - intros. by rewrite B4, A4.
Qed.
Lemma frame_refl st ep i : frame st st ep i.
Proof. split; [by apply frame_ep_refl|done..]. Qed.
Lemma frame_trans a b c ep i : frame a b ep i → frame b c ep i → frame a c ep i.
Proof. intros [A1 A2 A3] [B1 B2 B3]. split; [by eapply frame_ep_trans|congruence..]. Qed.

(** Another endpoint shows what it showed. *)
Lemma frame_refines st st' ep i ep' i' s : ep' ≠ ep → i' ≠ i →
  frame_ep st st' ep i → refines st ep' i' s → refines st' ep' i' s.
Proof.
  intros He Hi [A1 A2 A3 A4] [R1 R2 R3 R4 R5]. split.
  - by apply A1.
  - by rewrite (se_index _ _ _ A1).
  - by rewrite A3.
  - rewrite A2 by congruence. done.
  - by rewrite A4.
Qed.

(** The level control effect is not called. *)
Definition no_level_effect (a : S) (ep : EndpointId) (initiatedByLevelChange : bool) : Prop :=
  EMBER_AF_PLUGIN_LEVEL_CONTROL build && negb initiatedByLevelChange = false ∨
  store_contains_server a ep LevelControl_Id = Some false.

Lemma level_effect_none st ep b init : no_level_effect (attrs st) ep init →
  level_effect build level st ep b init = Some None.
Proof.
  intros [Hb|Hc]; unfold level_effect, LevelControlWithOnOffFeaturePresent; [by rewrite Hb|]. rewrite Hc.
  by destruct (_ && _).
Qed.

Lemma no_level_frame st st' ep i ep' init : frame_ep st st' ep i →
  no_level_effect (attrs st) ep' init → no_level_effect (attrs st') ep' init.
Proof. intros [A1 _ _ _] [?|?]; [by left|right]. by rewrite (se_server _ _ _ A1). Qed.

Lemma lighting_view st ep v : view (attrs st) ep v → SupportsLightingApplications st ep = Some (v_lighting v).
Proof.
  intros Hv. unfold SupportsLightingApplications, HasFeature. by rewrite (get_uint_holds _ _ _ _ _ _ (vw_features _ _ _ Hv)).
Qed.

Lemma view_range a ep v : view a ep v → in_u 16 (v_onTime v) ∧ in_u 16 (v_offWait v).
Proof.
  assert (∀ id x, holds_uint 2 a ep id x → in_u 16 x) as Hr.
  { intros id x (l & [Ha Hl] & <-). destruct (store_read_attr _ _ _ _ _ Ha) as (l' & Hl' & Hlen & Hok).
    rewrite Hl in Hl'. injection Hl' as ->. pose proof (le_val_range l' Hok) as Hv. rewrite Hlen in Hv. done. }
  intros Hv. split; eapply Hr; [exact (vw_onTime _ _ _ Hv)|exact (vw_offWait _ _ _ Hv)].
Qed.

(** One setter of the server. *)
Lemma refines_attrs st ep i s a' v' : refines st ep i s → view a' ep v' → same_else (attrs st) a' ep →
  refines (st <| attrs := a' |>) ep i {| ab_view := v'; ab_timer := ab_timer s |} ∧ frame st (st <| attrs := a' |>) ep i.
Proof.
  intros [R1 R2 R3 R4 R5] Hv Hs. split; [|by split; [split|..]]. split; [done| |done..].
  simpl. by rewrite (se_index _ _ _ Hs).
Qed.

Lemma set_on_refines st ep i s b : refines st ep i s →
  ∃ st', set_bool_attr OnOff_OnOff st ep b = Some (EMBER_ZCL_STATUS_SUCCESS, st') ∧
    refines st' ep i {| ab_view := (ab_view s) <| v_on := b |>; ab_timer := ab_timer s |} ∧ frame st st' ep i.
Proof.
  intros Hr. destruct (set_on_view _ _ _ b (rf_view _ _ _ _ Hr)) as (a' & Hw & Hv & Hs). unfold set_bool_attr. rewrite Hw.
  destruct (refines_attrs _ _ _ _ _ _ Hr Hv Hs). eauto.
Qed.

Lemma set_gsc_refines st ep i s b : refines st ep i s →
  ∃ st', set_bool_attr OnOff_GlobalSceneControl st ep b = Some (EMBER_ZCL_STATUS_SUCCESS, st') ∧
    refines st' ep i {| ab_view := (ab_view s) <| v_gsc := b |>; ab_timer := ab_timer s |} ∧ frame st st' ep i.
Proof.
  intros Hr. destruct (set_gsc_view _ _ _ b (rf_view _ _ _ _ Hr)) as (a' & Hw & Hv & Hs). unfold set_bool_attr. rewrite Hw.
  destruct (refines_attrs _ _ _ _ _ _ Hr Hv Hs). eauto.
Qed.

Lemma set_onTime_refines st ep i s x : in_u 16 x → refines st ep i s →
  ∃ st', set_u16_attr OnOff_OnTime st ep x = Some (EMBER_ZCL_STATUS_SUCCESS, st') ∧
    refines st' ep i {| ab_view := (ab_view s) <| v_onTime := x |>; ab_timer := ab_timer s |} ∧ frame st st' ep i.
Proof.
  intros Hx Hr. destruct (set_onTime_view _ _ _ x Hx (rf_view _ _ _ _ Hr)) as (a' & Hw & Hv & Hs). unfold set_u16_attr. rewrite Hw.
  destruct (refines_attrs _ _ _ _ _ _ Hr Hv Hs). eauto.
Qed.

Lemma set_offWait_refines st ep i s x : in_u 16 x → refines st ep i s →
  ∃ st', set_u16_attr OnOff_OffWaitTime st ep x = Some (EMBER_ZCL_STATUS_SUCCESS, st') ∧
    refines st' ep i {| ab_view := (ab_view s) <| v_offWait := x |>; ab_timer := ab_timer s |} ∧ frame st st' ep i.
Proof.
  intros Hx Hr. destruct (set_offWait_view _ _ _ x Hx (rf_view _ _ _ _ Hr)) as (a' & Hw & Hv & Hs). unfold set_u16_attr. rewrite Hw.
  destruct (refines_attrs _ _ _ _ _ _ Hr Hv Hs). eauto.
Qed.

(** Timers. *)
Lemma control_refines st ep i s : refines st ep i s → getEventControl build st ep = Some (Some i).
Proof.
  intros [R1 R2 R3 R4 R5]. unfold getEventControl. rewrite R2.
  rewrite (proj2 (Z.leb_gt _ _)) by lia. by rewrite Nat2Z.id.
Qed.

Lemma cancel_refines st ep i s : refines st ep i s →
  refines (cancelTimer (Some i) st) ep i {| ab_view := ab_view s; ab_timer := None |} ∧ frame st (cancelTimer (Some i) st) ep i.
Proof.
  intros [R1 R2 R3 R4 R5]. split.
  - split; [done|done|done| |done]. apply lookup_delete_eq.
  - split; [split|..]; [apply same_else_refl| |done..]. intros k Hk. by apply lookup_delete_ne.
Qed.

Lemma configure_refines st ep i s : refines st ep i s →
  ∃ st', configureEventControl build st ep = Some (Some i, st') ∧ refines st' ep i s ∧ frame st st' ep i ∧
    gEventControls st' !! i = Some {| ec_endpoint := ep; ec_handler := OnOffWaitTimeOffEventHandler |} ∧
    attrs st' = attrs st ∧ nextDesiredOnWithTimedOffTimestamp st' = nextDesiredOnWithTimedOffTimestamp st.
Proof.
  intros Hr. unfold configureEventControl. rewrite (control_refines _ _ _ _ Hr). destruct Hr as [R1 R2 R3 R4 R5].
  eexists. split; [reflexivity|].
  assert (∀ c, (<[i := c]> (gEventControls st)) !! i = Some c) as Hi by (intros; by apply list_lookup_insert_eq).
  split_and!; [split; simpl; [done|done|by rewrite length_insert|done|done]| |simpl; apply Hi|done|done].
  split; [split|..]; simpl; [apply same_else_refl|done|by rewrite length_insert| |done|done].
  intros k Hk. by rewrite list_lookup_insert_ne.
Qed.

Lemma schedule_refines st ep i s ms :
  gEventControls st !! i = Some {| ec_endpoint := ep; ec_handler := OnOffWaitTimeOffEventHandler |} → refines st ep i s →
  refines (scheduleTimerCallbackMs (Some i) ms st) ep i {| ab_view := ab_view s; ab_timer := Some ms |} ∧
  frame st (scheduleTimerCallbackMs (Some i) ms st) ep i.
Proof.
  intros Hc [R1 R2 R3 R4 R5]. split.
  - split; [done|done|done| |done]. apply lookup_insert_eq.
  - split; [split|..]; [apply same_else_refl| |done..]. intros k Hk. by apply lookup_insert_ne.
Qed.

(** [run_set L]: runs the setter at the head of the goal by lemma [L]. *)
Ltac run_step L st1 R1 F1 := destruct L as (st1 & -> & R1 & F1); [done..|].

Lemma turn_on_refines st ep i s : refines st ep i s →
  ∃ st1 st2,
    lighting_on build st ep = Some st1 ∧
    set_bool_attr OnOff_OnOff st1 ep true = Some (EMBER_ZCL_STATUS_SUCCESS, st2) ∧
    refines st2 ep i (abs_turn_on s) ∧ frame st st2 ep i.
Proof.
  intros Hr. pose proof (rf_view _ _ _ _ Hr) as Hv. unfold lighting_on, abs_turn_on. rewrite (lighting_view _ _ _ Hv).
  destruct (v_lighting (ab_view s)).
  - rewrite (get_uint_holds _ _ _ _ _ _ (vw_onTime _ _ _ Hv)). destruct (v_onTime (ab_view s) =? 0).
    + run_step (set_offWait_refines st ep i s 0) st1 R1 F1. rewrite (control_refines _ _ _ _ R1).
      destruct (cancel_refines _ _ _ _ R1) as [R2 F2].
      run_step (set_gsc_refines _ ep i _ true R2) st3 R3 F3. destruct (set_on_refines _ _ _ _ true R3) as (st4 & Hs & R4 & F4).
      exists st3, st4. split_and!; [done|done|exact R4|]. by repeat (eapply frame_trans; [eassumption|]); apply frame_refl.
    + run_step (set_gsc_refines _ ep i _ true Hr) st3 R3 F3. destruct (set_on_refines _ _ _ _ true R3) as (st4 & Hs & R4 & F4).
      exists st3, st4. split_and!; [done|done|exact R4|]. by eapply frame_trans.
  - destruct (set_on_refines _ _ _ _ true Hr) as (st4 & Hs & R4 & F4). by exists st, st4.
Qed.

Lemma setOnOffValue_refines st ep i s command init : refines st ep i s → no_level_effect (attrs st) ep init →
  ∃ st', setOnOffValue build level st ep command init = Some (EMBER_ZCL_STATUS_SUCCESS, st') ∧
    refines st' ep i (abs_set command s) ∧ frame st st' ep i.
Proof.
  intros Hr Hl. pose proof (rf_view _ _ _ _ Hr) as Hv. unfold setOnOffValue.
  rewrite (get_bool_holds _ _ _ _ _ (vw_on _ _ _ Hv)). cbn [is_success negb].
  unfold abs_set, commanded. set (on := v_on (ab_view s)).
  assert (∀ b, (if command =? Off_Id then false else if command =? On_Id then true else negb on) = b →
    eqb b on = (negb on && (command =? Off_Id)) || (on && (command =? On_Id))) as Heq.
  { intros b <-. unfold Off_Id, On_Id. destruct (Z.eqb_spec command 0), (Z.eqb_spec command 1), on; done || lia. }
  rewrite <- (Heq _ eq_refl). destruct (eqb _ on) eqn:He.
  { exists st. split_and!; [done|done|apply frame_refl]. }
  assert ((if command =? Off_Id then false else if command =? On_Id then true else negb on) = negb on) as ->.
  { revert He. by destruct (command =? Off_Id), (command =? On_Id), on. }
  destruct (negb on).
  - destruct (turn_on_refines _ _ _ _ Hr) as (st1 & st2 & -> & -> & R2 & F2). cbn [is_success negb].
    rewrite (level_effect_none st2) by (eapply no_level_frame; [apply F2|done]). by exists st2.
  - rewrite (level_effect_none st) by done. run_step (set_on_refines _ _ _ _ false Hr) st1 R1 F1. cbn [is_success negb].
    rewrite (lighting_view _ _ _ (rf_view _ _ _ _ R1)). unfold abs_turn_off. cbn [ab_view] in *.
    destruct (v_lighting _); [|by exists st1]. run_step (set_onTime_refines _ _ _ _ 0 ltac:(done) R1) st2 R2 F2.
    exists st2. split_and!; [done|exact R2|by eapply frame_trans].
Qed.

Lemma frame_logged st st' ep i e : frame st st' ep i → frame (log_onoff e st) (log_onoff e st') ep i.
Proof. intros [[A1 A2 A3 A4] B C]. split; [by split|done|]. simpl. by rewrite C. Qed.

(** Starting a server: the attributes it looks at, [StartUpOnOff] among them, have to be kept. *)
Lemma initOnOffServer_refines st ep i s : refines st ep i s → IGNORE_ON_OFF_CLUSTER_START_UP_ON_OFF build = false →
  areStartUpOnOffServerAttributesNonVolatile st ep = Some true →
  ∃ st', initOnOffServer build level st ep = Some st' ∧ refines st' ep i (abs_startup s) ∧
    frame (log_onoff (PostInitCallback ep) st) st' ep i.
Proof.
  intros Hr Hb Hnv. pose proof (rf_view _ _ _ _ Hr) as Hv. unfold initOnOffServer, abs_startup.
  rewrite Hb, (lighting_view _ _ _ Hv). destruct (v_lighting _); cbn [negb].
  2:{ eexists. split_and!; [done|by destruct Hr|apply frame_refl]. }
  rewrite Hnv. cbn [negb].
  assert (getOnOffValueForStartUp st ep false = Some (EMBER_ZCL_STATUS_SUCCESS, startup_value (v_startUp (ab_view s)) (v_on (ab_view s)))) as ->.
  { unfold getOnOffValueForStartUp, get_nullable_enum8. destruct (vw_startUp _ _ _ Hv) as (l & [_ Hl] & <-). rewrite Hl.
    cbn [is_success negb]. rewrite (get_bool_holds _ _ _ _ _ (vw_on _ _ _ Hv)). cbn [is_success negb].
    unfold startup_value. by destruct (Z.eqb_spec (le_val l) 0xFF) as [->|]. }
  cbn [is_success].
  destruct (setOnOffValue_refines st ep i s (if startup_value (v_startUp (ab_view s)) (v_on (ab_view s)) then 1 else 0) true Hr)
    as (st1 & -> & R1 & F1); [left; apply andb_false_r|].
  eexists. split_and!; [done| |by apply frame_logged].
  by destruct R1.
Qed.

(** The effect an [OffWithEffect] on a device that is on triggers. *)
Definition triggered (st : state) (ep : EndpointId) (effectId effectVariant : Z) : state :=
  match inst (firstEffect st) ep with
  | Some e =>
      match mOffWithEffectTrigger e with
      | Some trigger =>
          log_onoff (EffectTrigger trigger (effect_addr e) effectId effectVariant)
            (st <| firstEffect ::= (fun l => configure_effect l ep effectId effectVariant) |>)
      | None => st
      end
  | None => st
  end.

Lemma triggered_frame st ep v x ep' i :
  frame_ep st (triggered st ep v x) ep' i ∧ attrs (triggered st ep v x) = attrs st ∧
  gEventControls (triggered st ep v x) = gEventControls st ∧ timers (triggered st ep v x) = timers st.
Proof.
  unfold triggered. repeat case_match; (split; [|done]); try apply frame_ep_refl. split; [apply same_else_refl|done..].
Qed.

Lemma offWithEffect_refines st ep i s effectId effectVariant : refines st ep i s → no_level_effect (attrs st) ep false →
  ∃ status st', offWithEffectCommand build level st ep effectId effectVariant = Some (status, st') ∧
    refines st' ep i (abs_off_with_effect s) ∧
    (status = if v_lighting (ab_view s) then EMBER_ZCL_STATUS_SUCCESS else EMBER_ZCL_STATUS_UNSUPPORTED_COMMAND) ∧
    frame (if v_lighting (ab_view s) && v_on (ab_view s) then triggered st ep effectId effectVariant else st) st' ep i.
Proof.
  intros Hr Hl. pose proof (rf_view _ _ _ _ Hr) as Hv. unfold offWithEffectCommand, abs_off_with_effect.
  rewrite (lighting_view _ _ _ Hv). destruct (v_lighting _); cbn [negb andb].
  2:{ exists EMBER_ZCL_STATUS_UNSUPPORTED_COMMAND, st. split_and!; [done..|apply frame_refl]. }
  rewrite (get_bool_holds _ _ _ _ _ (vw_gsc _ _ _ Hv)), (get_bool_holds _ _ _ _ _ (vw_on _ _ _ Hv)).
  assert (∃ st1, (if v_gsc (ab_view s) then let! (_, st1) := set_bool_attr OnOff_GlobalSceneControl st ep false in Some st1
                  else Some st) = Some st1 ∧ frame st st1 ep i ∧
    refines st1 ep i {| ab_view := (ab_view s) <| v_gsc := false |>; ab_timer := ab_timer s |}) as (st1 & -> & F1 & R1).
  { destruct (v_gsc (ab_view s)) eqn:Hg.
    - run_step (set_gsc_refines _ ep i _ false Hr) st1 R1 F1. by exists st1.
    - exists st. split_and!; [done|apply frame_refl|]. destruct s as [[] ?]; simpl in *. by subst. }
  set (st2 := if v_on (ab_view s) then triggered st1 ep effectId effectVariant else st1).
  match goal with |- ∃ x y, setOnOffValue _ _ ?t _ _ _ = _ ∧ _ => change t with st2 end.
  assert (refines st2 ep i {| ab_view := (ab_view s) <| v_gsc := false |>; ab_timer := ab_timer s |} ∧
    frame_ep st1 st2 ep i) as [R2 F2].
  { unfold st2. destruct (v_on (ab_view s)); [|by split; [|apply frame_ep_refl]].
    destruct (triggered_frame st1 ep effectId effectVariant ep i) as (F & Ea & Ec & Et). split; [|done].
    destruct R1. by split; rewrite ?Ea, ?Ec, ?Et. }
  destruct (setOnOffValue_refines st2 ep i _ Off_Id false R2) as (st3 & Hs & R3 & F3).
  { eapply no_level_frame; [exact F2|]. eapply no_level_frame; [apply F1|done]. }
  exists EMBER_ZCL_STATUS_SUCCESS, st3. split_and!; [exact Hs|exact R3|done|].
  eapply frame_trans; [|exact F3]. unfold st2. destruct (v_on (ab_view s)); [|done].
  destruct F1 as [[A1 A2 A3 A4] A5 A6]. unfold triggered. rewrite A5. repeat case_match; (split; [by split|simpl; by rewrite ?A5|simpl; by rewrite ?A6]).
Qed.

Lemma recall_refines st ep i s : refines st ep i s → no_level_effect (attrs st) ep false →
  ∃ status st', OnWithRecallGlobalSceneCommand build level st ep = Some (status, st') ∧ refines st' ep i (abs_recall s) ∧
    (status = if v_lighting (ab_view s) then EMBER_ZCL_STATUS_SUCCESS else EMBER_ZCL_STATUS_UNSUPPORTED_COMMAND) ∧
    frame st st' ep i.
Proof.
  intros Hr Hl. pose proof (rf_view _ _ _ _ Hr) as Hv. unfold OnWithRecallGlobalSceneCommand, abs_recall.
  rewrite (lighting_view _ _ _ Hv). destruct (v_lighting _); cbn [negb orb].
  2:{ exists EMBER_ZCL_STATUS_UNSUPPORTED_COMMAND, st. split_and!; [done..|apply frame_refl]. }
  rewrite (get_bool_holds _ _ _ _ _ (vw_gsc _ _ _ Hv)). destruct (v_gsc _).
  { exists EMBER_ZCL_STATUS_SUCCESS, st. split_and!; [done..|apply frame_refl]. }
  run_step (set_gsc_refines _ ep i _ true Hr) st1 R1 F1.
  destruct (setOnOffValue_refines st1 ep i _ On_Id false R1) as (st2 & -> & R2 & F2).
  { eapply no_level_frame; [apply F1|done]. }
  exists EMBER_ZCL_STATUS_SUCCESS, st2. split_and!; [done|exact R2|done|by eapply frame_trans].
Qed.

Lemma frame_desired st ep i t :
  frame st (st <| nextDesiredOnWithTimedOffTimestamp := t |>) ep i.
Proof. split; [split; [apply same_else_refl|done..]|done..]. Qed.

Lemma refines_desired st ep i s t : refines st ep i s → refines (st <| nextDesiredOnWithTimedOffTimestamp := t |>) ep i s.
Proof. by intros []. Qed.

Lemma timedOff_refines now st ep i s control onTime offWaitTime :
  refines st ep i s → no_level_effect (attrs st) ep false → in_u 16 onTime → in_u 16 offWaitTime →
  ∃ status st', OnWithTimedOffCommand build level now st ep control onTime offWaitTime = Some (status, st') ∧
    refines st' ep i (abs_timed_off control onTime offWaitTime s) ∧
    (status = if v_lighting (ab_view s) then EMBER_ZCL_STATUS_SUCCESS else EMBER_ZCL_STATUS_UNSUPPORTED_COMMAND) ∧
    frame st st' ep i.
Proof.
  intros Hr Hl Ht Hw. unfold OnWithTimedOffCommand, abs_timed_off. cbv zeta.
  destruct (configure_refines _ _ _ _ Hr) as (st1 & -> & R1 & F1 & Hc1 & Ha1 & _).
  pose proof (rf_view _ _ _ _ R1) as Hv. rewrite (lighting_view _ _ _ Hv). destruct (v_lighting (ab_view s)); cbn [negb orb].
  2:{ by exists EMBER_ZCL_STATUS_UNSUPPORTED_COMMAND, st1. }
  rewrite (get_bool_holds _ _ _ _ _ (vw_on _ _ _ Hv)).
  destruct (has_bits _ _ && negb _); [by exists EMBER_ZCL_STATUS_SUCCESS, st1|].
  rewrite (get_uint_holds _ _ _ _ _ _ (vw_offWait _ _ _ Hv)), (get_uint_holds _ _ _ _ _ _ (vw_onTime _ _ _ Hv)).
  destruct (view_range _ _ _ Hv) as [Ht0 Hw0]. set (waiting := (0 <? v_offWait (ab_view s)) && negb (v_on (ab_view s))).
  match goal with |- ∃ x y, match ?e with _ => _ end = _ ∧ _ =>
    assert (∃ t w st4 s4, e = Some (t, w, st4) ∧
      t = (if waiting then v_onTime (ab_view s) else Z.max (v_onTime (ab_view s)) onTime) ∧
      w = (if waiting then Z.min (v_offWait (ab_view s)) offWaitTime else offWaitTime) ∧
      s4 = (if waiting then {| ab_view := (ab_view s) <| v_onTime := t |> <| v_offWait := w |>; ab_timer := ab_timer s |}
            else abs_set On_Id {| ab_view := (ab_view s) <| v_onTime := t |> <| v_offWait := w |>; ab_timer := ab_timer s |}) ∧
      refines st4 ep i s4 ∧ frame st1 st4 ep i) as (t & w & st4 & s4 & -> & <- & <- & <- & R4 & F4)
  end.
  { destruct waiting.
    - assert ((if v_offWait (ab_view s) <? offWaitTime then v_offWait (ab_view s) else offWaitTime) =
        Z.min (v_offWait (ab_view s)) offWaitTime) as -> by (destruct (Z.ltb_spec (v_offWait (ab_view s)) offWaitTime); lia).
      run_step (set_offWait_refines st1 ep i s (Z.min (v_offWait (ab_view s)) offWaitTime) ltac:(ulia)) st2 R2 F2.
      eexists _, _, st2, _. split_and!; [done..| |done]. by destruct s as [[] ?].
    - assert ((if onTime <? v_onTime (ab_view s) then v_onTime (ab_view s) else onTime) =
        Z.max (v_onTime (ab_view s)) onTime) as -> by (destruct (Z.ltb_spec onTime (v_onTime (ab_view s))); lia).
      run_step (set_onTime_refines st1 ep i s (Z.max (v_onTime (ab_view s)) onTime) ltac:(ulia)) st2 R2 F2.
      run_step (set_offWait_refines st2 ep i _ offWaitTime Hw R2) st3 R3 F3.
      destruct (setOnOffValue_refines st3 ep i _ On_Id false R3) as (st4 & -> & R4 & F4).
      { eapply no_level_frame; [apply F3|]. eapply no_level_frame; [apply F2|]. by rewrite Ha1. }
      eexists _, _, st4, _. split_and!; [done..|exact R4|]. by repeat (eapply frame_trans; [eassumption|]); apply frame_refl. }
  destruct ((t <? _) && _).
  - destruct (configure_refines _ _ _ _ (refines_desired _ _ _ _ (u64 (now + ON_OFF_UPDATE_TIME_MS)) R4))
      as (st5 & -> & R5 & F5 & Hc5 & _).
    destruct (schedule_refines st5 ep i _ ON_OFF_UPDATE_TIME_MS Hc5 R5) as [R6 F6].
    eexists _, _. split_and!; [done|exact R6|done|].
    do 2 (eapply frame_trans; [eassumption|]). eapply frame_trans; [apply frame_desired|]. by eapply frame_trans.
  - eexists _, st4. split_and!; [done..|]. by eapply frame_trans.
Qed.

(** The next delay makes up for the lateness of the timer, and is between 1 and
    100 ms whatever the clock says. *)
Lemma next_wait_range now (st : state) : 1 ≤ fst (calculateNextWaitTimeMS now st) ≤ ON_OFF_UPDATE_TIME_MS.
Proof.
  unfold calculateNextWaitTimeMS, ON_OFF_UPDATE_TIME_MS. cbn [fst].
  destruct (Z.ltb_spec (nextDesiredOnWithTimedOffTimestamp st) now); [|by rewrite wrap_small].
  set (l := u64 _). assert (in_u 64 l) as Hl by (by apply wrap_range).
  destruct (Z.leb_spec 100 l); [by rewrite wrap_small|].
  rewrite (wrap_small 64) by ulia. rewrite wrap_small by ulia. unfold in_u in Hl. lia.
Qed.

Lemma restart_refines now st ep i s : refines st ep i s →
  ∃ st' wait, restart_timer build now st ep = Some st' ∧ 1 ≤ wait ≤ ON_OFF_UPDATE_TIME_MS ∧
    refines st' ep i {| ab_view := ab_view s; ab_timer := Some wait |} ∧ frame st st' ep i.
Proof.
  intros Hr. unfold restart_timer. destruct (configure_refines _ _ _ _ Hr) as (st1 & -> & R1 & F1 & Hc & _).
  pose proof (next_wait_range now st1) as Hwt. destruct (calculateNextWaitTimeMS now st1) as [wait st2] eqn:Hcalc.
  assert (∃ t, st2 = st1 <| nextDesiredOnWithTimedOffTimestamp := t |>) as [t ->].
  { unfold calculateNextWaitTimeMS in Hcalc. apply (f_equal snd) in Hcalc. simpl in Hcalc. rewrite <- Hcalc. by eexists. }
  destruct (schedule_refines (st1 <| nextDesiredOnWithTimedOffTimestamp := t |>) ep i s wait) as [R2 F2];
    [exact Hc|by apply refines_desired|].
  eexists _, wait. split_and!; [done|apply Hwt|apply Hwt|exact R2|].
  eapply frame_trans; [done|]. eapply frame_trans; [apply frame_desired|done].
Qed.

Lemma timer_refines now st ep i s : refines st ep i s → no_level_effect (attrs st) ep false → ab_timer s ≠ None →
  ∃ st' wait, timerCallback build level now st (Some i) = Some st' ∧ 1 ≤ wait ≤ ON_OFF_UPDATE_TIME_MS ∧
    refines st' ep i (abs_tick wait s) ∧ frame st st' ep i.
Proof.
  intros Hr Hl Htm. unfold timerCallback. destruct (cancel_refines _ _ _ _ Hr) as [R0 F0].
  assert (gEventControls (cancelTimer (Some i) st) !! i = Some {| ec_endpoint := ep; ec_handler := OnOffWaitTimeOffEventHandler |}) as ->
    by (by apply (rf_control _ _ _ _ Hr)).
  cbn [ec_handler ec_endpoint]. set (st0 := cancelTimer (Some i) st) in *.
  assert (no_level_effect (attrs st0) ep false) as Hl0 by done.
  pose proof (rf_view _ _ _ _ R0) as Hv. destruct (view_range _ _ _ Hv) as [Ht0 Hw0].
  unfold updateOnOffTimeCommand, abs_tick. rewrite (get_bool_holds _ _ _ _ _ (vw_on _ _ _ Hv)). cbn [ab_view] in *.
  destruct (v_on (ab_view s)).
  - destruct (restart_refines now st0 ep i _ R0) as (st1 & wait & -> & Hwait & R1 & F1).
    rewrite (get_uint_holds _ _ _ _ _ _ (vw_onTime _ _ _ (rf_view _ _ _ _ R1))). cbn [ab_view] in *.
    set (t := Z.max 0 (v_onTime (ab_view s) - 1)).
    assert (∃ st2, (if 0 <? v_onTime (ab_view s)
                    then let! (_, st2) := set_u16_attr OnOff_OnTime st1 ep (v_onTime (ab_view s) - 1) in
                         Some (v_onTime (ab_view s) - 1, st2)
                    else Some (v_onTime (ab_view s), st1)) = Some (t, st2) ∧
      refines st2 ep i {| ab_view := (ab_view s) <| v_onTime := t |>; ab_timer := Some wait |} ∧ frame st1 st2 ep i)
      as (st2 & -> & R2 & F2).
    { destruct (Z.ltb_spec 0 (v_onTime (ab_view s))).
      - assert (v_onTime (ab_view s) - 1 = t) as -> by lia.
        run_step (set_onTime_refines st1 ep i _ t ltac:(ulia) R1) st2 R2 F2. by exists st2.
      - assert (t = v_onTime (ab_view s)) as -> by ulia. exists st1. split_and!; [done| |apply frame_refl].
        by destruct s as [[] ?]. }
    destruct (t =? 0).
    + run_step (set_offWait_refines st2 ep i _ 0 ltac:(done) R2) st3 R3 F3.
      destruct (setOnOffValue_refines st3 ep i _ Off_Id false R3) as (st4 & -> & R4 & F4).
      { do 3 (eapply no_level_frame; [by eapply fr_ep; eassumption|]). done. }
      exists st4, wait. split_and!; [done|apply Hwait|apply Hwait|exact R4|]. by repeat (eapply frame_trans; [eassumption|]); apply frame_refl.
    + exists st2, wait. split_and!; [done|apply Hwait|apply Hwait|exact R2|]. by repeat (eapply frame_trans; [eassumption|]); apply frame_refl.
  - rewrite (get_uint_holds _ _ _ _ _ _ (vw_offWait _ _ _ Hv)). cbn [ab_view].
    set (w := Z.max 0 (v_offWait (ab_view s) - 1)).
    assert (∃ st1, (if 0 <? v_offWait (ab_view s)
                    then let! (_, st2) := set_u16_attr OnOff_OffWaitTime st0 ep (v_offWait (ab_view s) - 1) in
                         Some (v_offWait (ab_view s) - 1, st2)
                    else Some (v_offWait (ab_view s), st0)) = Some (w, st1) ∧
      refines st1 ep i {| ab_view := (ab_view s) <| v_offWait := w |>; ab_timer := None |} ∧ frame st0 st1 ep i)
      as (st1 & -> & R1 & F1).
    { destruct (Z.ltb_spec 0 (v_offWait (ab_view s))).
      - assert (v_offWait (ab_view s) - 1 = w) as -> by lia.
        run_step (set_offWait_refines st0 ep i _ w ltac:(ulia) R0) st2 R2 F2. by exists st2.
      - assert (w = v_offWait (ab_view s)) as -> by ulia. exists st0. split_and!; [done| |apply frame_refl].
        by destruct s as [[] ?]. }
    destruct (0 <? w).
    + destruct (restart_refines now st1 ep i _ R1) as (st2 & wait & -> & Hwait & R2 & F2).
      exists st2, wait. split_and!; [done|apply Hwait|apply Hwait|exact R2|]. by repeat (eapply frame_trans; [eassumption|]); apply frame_refl.
    + rewrite (control_refines _ _ _ _ R1). destruct (cancel_refines _ _ _ _ R1) as [R2 F2].
      exists (cancelTimer (Some i) st1), 1. split_and!; [done|done|done|exact R2|].
      by repeat (eapply frame_trans; [eassumption|]); apply frame_refl.
Qed.
End refinement.

(** ** Inputs

    What makes a server of the cluster act. *)
Inductive onoff_input : Set :=
| InCommand (command : Z) | InOffWithEffect (effectId effectVariant : Z) | InRecall
| InTimedOff (control onTime offWaitTime : Z) | InStartUp | InTimer.

Definition serve {S} `{AttributeStore S} build level (now : Z) (ep : EndpointId) (i : nat) (input : onoff_input)
    (st : onoff_state S) : option (onoff_state S) :=
  match input with
  | InCommand command => let! (_, st') := setOnOffValue build level st ep command false in Some st'
  | InOffWithEffect effectId effectVariant =>
      let! (_, st') := offWithEffectCommand build level st ep effectId effectVariant in Some st'
  | InRecall => let! (_, st') := OnWithRecallGlobalSceneCommand build level st ep in Some st'
  | InTimedOff control onTime offWaitTime =>
      let! (_, st') := OnWithTimedOffCommand build level now st ep control onTime offWaitTime in Some st'
  | InStartUp => initOnOffServer build level st ep
  | InTimer => timerCallback build level now st (Some i)
  end.

Definition abs_serve (wait : Z) (input : onoff_input) (s : onoff_abs) : onoff_abs :=
  match input with
  | InCommand command => abs_set command s
  | InOffWithEffect _ _ => abs_off_with_effect s
  | InRecall => abs_recall s
  | InTimedOff control onTime offWaitTime => abs_timed_off control onTime offWaitTime s
  | InStartUp => abs_startup s
  | InTimer => abs_tick wait s
  end.

(** Command fields are 16-bit; a timer fires only when it was started; the
    attributes of the startup behaviour are kept in flash. *)
Definition input_ok {S} `{AttributeStore S} (st : onoff_state S) (ep : EndpointId) (s : onoff_abs) (input : onoff_input) : Prop :=
  match input with
  | InTimedOff _ onTime offWaitTime => in_u 16 onTime ∧ in_u 16 offWaitTime
  | InTimer => ab_timer s ≠ None
  | InStartUp => areStartUpOnOffServerAttributesNonVolatile st ep = Some true
  | _ => True
  end.

(** The timer of one control firing again and again, each time at its clock.  The system
    layer runs the callback of a timer that is armed; without one nothing fires, and the
    run is stuck. *)
Fixpoint fire {S} `{AttributeStore S} build level (i : nat) (nows : list Z) (st : onoff_state S) : option (onoff_state S) :=
  match nows with
  | [] => Some st
  | now :: nows =>
      let! _ := timers st !! Some i in
      let! st' := timerCallback build level now st (Some i) in
      fire build level i nows st'
  end.

(** ** What every write keeps, the server keeps

    The server of an endpoint changes the store through its setters only. *)
Section invariance.
Context {S : Type} `{AttributeStore S} (build : onoff_build).
Context (level : EndpointId → bool → onoff_state S → option (onoff_state S)).
Context (ep : EndpointId) (Inv : S → Prop).
Hypothesis Hbool : ∀ a id b st a', Inv a → id = OnOff_OnOff ∨ id = OnOff_GlobalSceneControl →
  set_bool a ep OnOff_Id id b = Some (st, a') → Inv a'.
Hypothesis Hu16 : ∀ a id x st a', Inv a → id = OnOff_OnTime ∨ id = OnOff_OffWaitTime →
  set_u16 a ep OnOff_Id id x = Some (st, a') → Inv a'.
Hypothesis Hlevel : ∀ b st st', Inv (attrs st) → EMBER_AF_PLUGIN_LEVEL_CONTROL build = true →
  LevelControlWithOnOffFeaturePresent st ep = Some true → level ep b st = Some st' → Inv (attrs st').

Lemma set_bool_attr_inv id st b r st' : Inv (attrs st) → id = OnOff_OnOff ∨ id = OnOff_GlobalSceneControl →
  set_bool_attr id st ep b = Some (r, st') → Inv (attrs st').
Proof. intros Hi Hid. unfold set_bool_attr. let_step r0 E. destruct r0 as [st0 a]. intros [= <- <-]. by eapply Hbool. Qed.
Lemma set_u16_attr_inv id st x r st' : Inv (attrs st) → id = OnOff_OnTime ∨ id = OnOff_OffWaitTime →
  set_u16_attr id st ep x = Some (r, st') → Inv (attrs st').
Proof. intros Hi Hid. unfold set_u16_attr. let_step r0 E. destruct r0 as [st0 a]. intros [= <- <-]. by eapply Hu16. Qed.

Lemma lighting_on_inv st st' : Inv (attrs st) → lighting_on build st ep = Some st' → Inv (attrs st').
Proof.
  intros Hi. unfold lighting_on. let_step l E. destruct l; [|by intros [= <-]]. let_step r E1. destruct r as [x onTime].
  let_step st1 E2. let_step r E3. destruct r as [y st2]. intros [= <-]. eapply set_bool_attr_inv; [|by right|exact E3].
  destruct (onTime =? 0); [|by injection E2 as <-]. revert E2. let_step r E4. destruct r as [z st3]. let_step ev E5.
  intros [= <-]. apply set_u16_attr_inv in E4; [by destruct ev|done|by right].
Qed.

Lemma level_effect_inv st b init r : Inv (attrs st) → level_effect build level st ep b init = Some (Some r) → Inv (attrs r).
Proof.
  intros Hi. unfold level_effect. destruct (_ && _) eqn:B; [|done]. apply andb_true_iff in B as [B _].
  let_step p E. destruct p; [|done]. let_step st' E1. intros [= <-]. by eapply Hlevel.
Qed.

Lemma setOnOffValue_inv st command init r st' : Inv (attrs st) →
  setOnOffValue build level st ep command init = Some (r, st') → Inv (attrs st').
Proof.
  intros Hi. unfold setOnOffValue. let_step q E. destruct q as [s0 cur]. destruct (negb (is_success s0)); [by intros [= <- <-]|].
  destruct (_ || _); [by intros [= <- <-]|]. destruct (negb cur).
  - let_step st1 E1. apply lighting_on_inv in E1; [|done]. let_step q E2. destruct q as [s1 st2].
    apply set_bool_attr_inv in E2; [|done|by left]. destruct (negb (is_success s1)); [by intros [= <- <-]|].
    let_step eff E3. intros [= <- <-]. destruct eff; [by eapply level_effect_inv|done].
  - let_step eff E1. destruct eff as [st1|]; [intros [= <- <-]; by eapply level_effect_inv|].
    let_step q E2. destruct q as [s1 st1]. apply set_bool_attr_inv in E2; [|done|by left].
    destruct (negb (is_success s1)); [by intros [= <- <-]|]. let_step l E3. destruct l; [|by intros [= <- <-]].
    let_step q E4. destruct q as [s2 st2]. intros [= <- <-]. eapply set_u16_attr_inv; [|by left|exact E4]. done.
Qed.

Lemma configure_inv st i st' : configureEventControl build st ep = Some (i, st') → attrs st' = attrs st.
Proof. unfold configureEventControl. let_step c E. destruct c; by intros [= <- <-]. Qed.

Lemma restart_inv now st st' : restart_timer build now st ep = Some st' → attrs st' = attrs st.
Proof.
  unfold restart_timer. let_step q E. destruct q as [c st1]. apply configure_inv in E. cbn. by intros [= <-].
Qed.

Lemma update_inv now st st' : Inv (attrs st) → updateOnOffTimeCommand build level now st ep = Some st' → Inv (attrs st').
Proof.
  intros Hi. unfold updateOnOffTimeCommand. let_step q E. destruct q as [s0 on]. destruct on.
  - let_step st1 E1. apply restart_inv in E1. let_step q E2. destruct q as [s1 t]. let_step q E3. destruct q as [t' st2].
    assert (Inv (attrs st2)) as H2.
    { destruct (0 <? t); [|by injection E3 as <- <-; rewrite E1]. revert E3. let_step q E4. destruct q as [s2 st3]. intros [= <- <-].
      eapply set_u16_attr_inv; [|by left|exact E4]. by rewrite E1. }
    destruct (t' =? 0); [|by intros [= <-]]. let_step q E4. destruct q as [s2 st3]. let_step q E5. destruct q as [s4 st4].
    intros [= <-]. eapply setOnOffValue_inv; [|exact E5]. eapply set_u16_attr_inv; [|by right|exact E4]. done.
  - let_step q E2. destruct q as [s1 t]. let_step q E3. destruct q as [t' st2].
    assert (Inv (attrs st2)) as H2.
    { destruct (0 <? t); [|by injection E3 as <- <-]. revert E3. let_step q E4. destruct q as [s2 st3]. intros [= <- <-].
      eapply set_u16_attr_inv; [|by right|exact E4]. done. }
    destruct (0 <? t'); [intros E4; apply restart_inv in E4; by rewrite E4|]. let_step c E4. by intros [= <-].
Qed.

Lemma timed_off_inv now st c t w r st' : Inv (attrs st) →
  OnWithTimedOffCommand build level now st ep c t w = Some (r, st') → Inv (attrs st').
Proof.
  intros Hi. unfold OnWithTimedOffCommand. let_step q E. destruct q as [ev st1]. apply configure_inv in E. rewrite <- E in Hi.
  destruct ev; [|by intros [= <- <-]]. let_step l E1. destruct l; [|by intros [= <- <-]]. cbn [negb].
  let_step q E2. destruct q as [s0 on]. destruct (_ && _); [by intros [= <- <-]|]. let_step q E3. destruct q as [s1 ow].
  let_step q E4. destruct q as [s2 ot]. let_step q E5. destruct q as [[x y] st4].
  assert (Inv (attrs st4)) as H4.
  { destruct (_ && negb on); revert E5.
    - let_step q E6. destruct q as [s3 st5]. intros [= <- <- <-]. eapply set_u16_attr_inv; [|by right|exact E6]. done.
    - let_step q E6. destruct q as [s3 st5]. let_step q E7. destruct q as [s4 st6]. let_step q E8. destruct q as [s5 st7].
      intros [= <- <- <-]. eapply setOnOffValue_inv; [|exact E8]. eapply set_u16_attr_inv; [|by right|exact E7].
      eapply set_u16_attr_inv; [|by left|exact E6]. done. }
  destruct (_ && (y <? _)); [|by intros [= <- <-]]. let_step q E6. destruct q as [ctl st6]. apply configure_inv in E6.
  intros [= <- <-]. cbn. by rewrite E6.
Qed.

(** Whatever acts, what the setters keep is kept. *)
Lemma serve_inv now i input st st' : Inv (attrs st) →
  (input = InTimer → ∀ c, gEventControls st !! i = Some c → ec_endpoint c = ep) → serve build level now ep i input st = Some st' → Inv (attrs st').
Proof.
  intros Hi Hep. destruct input; cbn [serve].
  - let_step q E. destruct q as [s0 st1]. intros [= <-]. by eapply setOnOffValue_inv.
  - let_step q E. destruct q as [s0 st1]. intros [= <-]. revert E. unfold offWithEffectCommand.
    let_step l E1. destruct l; [|by intros [= <- <-]]. cbn [negb]. let_step q E2. destruct q as [s1 g]. let_step q E3.
    destruct q as [s2 on]. let_step st2 E4. assert (Inv (attrs st2)) as H2.
    { destruct g; [|by injection E4 as <-]. revert E4. let_step q E5. destruct q as [s3 st3]. intros [= <-].
      eapply set_bool_attr_inv; [done|by right|exact E5]. }
    intros Hs. eapply setOnOffValue_inv; [|exact Hs]. by repeat case_match.
  - let_step q E. destruct q as [s0 st1]. intros [= <-]. revert E. unfold OnWithRecallGlobalSceneCommand.
    let_step l E1. destruct l; [|by intros [= <- <-]]. cbn [negb]. let_step q E2. destruct q as [s1 g].
    destruct g; [by intros [= <- <-]|]. let_step q E3. destruct q as [s2 st2]. let_step q E4. destruct q as [s3 st3].
    intros [= <- <-]. eapply setOnOffValue_inv; [|exact E4]. eapply set_bool_attr_inv; [done|by right|exact E3].
  - let_step q E. destruct q as [s0 st1]. intros [= <-]. by eapply timed_off_inv.
  - unfold initOnOffServer. let_step st1 E. intros [= <-]. cbn. destruct (IGNORE_ON_OFF_CLUSTER_START_UP_ON_OFF build);
      [by injection E as <-|]. revert E. let_step l E1. destruct l; [|by intros [= <-]]. cbn [negb]. let_step nv E2.
    destruct nv; [|by intros [= <-]]. cbn [negb]. let_step q E3. destruct q as [s0 v]. destruct (is_success s0); [|by intros [= <-]].
    let_step q E4. destruct q as [s1 st2]. intros [= <-]. by eapply setOnOffValue_inv.
  - unfold timerCallback. let_step c E. destruct (ec_handler c); [done|]. rewrite (Hep eq_refl c E). intros Hu. by eapply update_inv; [|exact Hu].
Qed.
End invariance.

(** ** The registry of effects *)
Lemma inst_configure l ep ep' x y :
  inst (configure_effect l ep x y) ep' =
  if ep' =? ep
  then (fun e => {| effect_addr := effect_addr e; mEndpoint := mEndpoint e; mOffWithEffectTrigger := mOffWithEffectTrigger e;
                    mEffectIdentifier := x; mEffectVariant := y |}) <$> inst l ep'
  else inst l ep'.
Proof.
  induction l as [|e l IH]; simpl; [by destruct (ep' =? ep)|].
  destruct (Z.eqb_spec (mEndpoint e) ep) as [<-|]; simpl.
  - rewrite (Z.eqb_sym ep'). by destruct (Z.eqb_spec (mEndpoint e) ep').
  - destruct (Z.eqb_spec (mEndpoint e) ep') as [<-|]; simpl; [|done].
    by rewrite (proj2 (Z.eqb_neq (mEndpoint e) ep)).
Qed.

Lemma NoDup_filter_addr (P : OnOffEffect → Prop) `{∀ x, Decision (P x)} l :
  NoDup (effect_addr <$> l) → NoDup (effect_addr <$> filter P l).
Proof.
  induction l as [|x l IH]; [done|]. intros [Hn Hd]%NoDup_cons. rewrite list.filter_cons. case_decide; [|by apply IH].
  apply NoDup_cons. split; [|by apply IH]. intros (y & E & Hy)%list_elem_of_fmap. apply Hn.
  apply list_elem_of_fmap. exists y. split; [done|]. by apply list_elem_of_filter in Hy as [_ Hy].
Qed.

Lemma unlink_filter addr l : NoDup (effect_addr <$> l) → unlink addr l = filter (fun e => effect_addr e ≠ addr) l.
Proof.
  induction l as [|e l IH]; [done|]. intros [Hn Hd]%NoDup_cons. cbn [unlink]. rewrite list.filter_cons.
  destruct (Nat.eqb_spec (effect_addr e) addr) as [<-|].
  - rewrite decide_False by (intros X; by apply X). clear IH Hd.
    induction l as [|x l IH]; [done|]. apply not_elem_of_cons in Hn as [Hx Hn].
    rewrite list.filter_cons, decide_True by congruence. f_equal. by apply IH.
  - rewrite decide_True by done. by rewrite IH.
Qed.

(** Effects that register when they are made and unregister when they are
    destroyed.  With each object registered once, the registry answers for an
    endpoint with the last effect made for it that is not destroyed; destroying
    one takes exactly it out.  (Only on an empty registry does [unreg] read
    through a null pointer.) *)
Theorem effect_registry_correct e l ep :
  NoDup (effect_addr <$> l) → effect_addr e ∉ effect_addr <$> l →
  inst (reg e l) ep = (if mEndpoint e =? ep then Some e else inst l ep) ∧
  NoDup (effect_addr <$> reg e l) ∧ unreg (effect_addr e) (reg e l) = Some l ∧
  (∀ addr, l ≠ [] → unreg addr l = Some (filter (fun x => effect_addr x ≠ addr) l)) ∧
  (∀ addr, NoDup (effect_addr <$> filter (fun x => effect_addr x ≠ addr) l)) ∧
  (∀ addr, unreg addr [] = None).
Proof.
  intros Hd Hn. split_and!; [done|by constructor|by cbn; rewrite Nat.eqb_refl| |intros; by apply NoDup_filter_addr|done].
  intros addr Hl. rewrite <- (unlink_filter addr l Hd). by destruct l as [|x l].
Qed.

Section claims.
Context {S : Type} `{AttributeStoreLaws S} (build : onoff_build).
Context (level : EndpointId → bool → onoff_state S → option (onoff_state S)).
Notation state := (onoff_state S).
Notation refines := (refines build).
Notation no_level_effect := (no_level_effect build).

Lemma serve_refines now (st : state) ep i s input :
  refines st ep i s → no_level_effect (attrs st) ep false → IGNORE_ON_OFF_CLUSTER_START_UP_ON_OFF build = false →
  input_ok st ep s input →
  ∃ st' wait, serve build level now ep i input st = Some st' ∧ 1 ≤ wait ≤ ON_OFF_UPDATE_TIME_MS ∧
    refines st' ep i (abs_serve wait input s) ∧ frame_ep st st' ep i.
Proof.
  intros Hr Hl Hb Hin. assert (1 ≤ 1 ≤ ON_OFF_UPDATE_TIME_MS) as H1 by done. destruct input; cbn [serve abs_serve input_ok] in *.
  - destruct (setOnOffValue_refines build level st ep i s command false Hr Hl) as (st' & -> & R & F).
    exists st', 1. split_and!; [done|apply H1|apply H1|done|apply F].
  - destruct (offWithEffect_refines build level st ep i s effectId effectVariant Hr Hl) as (x & st' & -> & R & _ & F).
    exists st', 1. split_and!; [done|apply H1|apply H1|done|]. destruct (_ && _); [|apply F].
    eapply frame_ep_trans; [|apply F]. apply triggered_frame.
  - destruct (recall_refines build level st ep i s Hr Hl) as (x & st' & -> & R & _ & F).
    exists st', 1. split_and!; [done|apply H1|apply H1|done|apply F].
  - destruct Hin as [Ht Hw].
    destruct (timedOff_refines build level now st ep i s control onTime offWaitTime Hr Hl Ht Hw) as (x & st' & -> & R & _ & F).
    exists st', 1. split_and!; [done|apply H1|apply H1|done|apply F].
  - destruct (initOnOffServer_refines build level st ep i s Hr Hb Hin) as (st' & -> & R & F).
    exists st', 1. split_and!; [done|apply H1|apply H1|done|]. eapply frame_ep_trans; [|apply F].
    split; [apply same_else_refl|done..].
  - destruct (timer_refines build level now st ep i s Hr Hl Hin) as (st' & wait & -> & Hw & R & F).
    exists st', wait. split_and!; [done|apply Hw|apply Hw|done|apply F].
Qed.

(** The timer is armed, for at most 100 ms. *)
Definition armed (s : onoff_abs) : Prop := ∃ wait, ab_timer s = Some wait ∧ 1 ≤ wait ≤ ON_OFF_UPDATE_TIME_MS.

(** [n] more firings of an armed timer on a device that is on. *)
Lemma fire_refines nows : ∀ (st : state) ep i s,
  refines st ep i s → no_level_effect (attrs st) ep false → v_on (ab_view s) = true → armed s →
  Z.of_nat (length nows) ≤ Z.max 1 (v_onTime (ab_view s)) →
  ∃ st' s', fire build level i nows st = Some st' ∧ refines st' ep i s' ∧ armed s' ∧ frame_ep st st' ep i ∧
    if Z.of_nat (length nows) <? Z.max 1 (v_onTime (ab_view s))
    then v_on (ab_view s') = true ∧ v_onTime (ab_view s') = v_onTime (ab_view s) - Z.of_nat (length nows)
    else v_on (ab_view s') = false ∧ v_offWait (ab_view s') = 0.
Proof.
  induction nows as [|now nows IH]; intros st ep i s Hr Hl Hon Htm Hlen.
  { exists st, s. rewrite (proj2 (Z.ltb_lt _ _)) by (simpl; lia). split_and!; [done|done|done|apply frame_ep_refl|done|simpl; lia]. }
  cbn [fire length]. rewrite (rf_timer _ _ _ _ _ Hr). destruct Htm as (w & Hw & Hwr). rewrite Hw. cbn [mbind option_bind].
  destruct (timer_refines build level now st ep i s Hr Hl ltac:(by rewrite Hw)) as (st1 & wait & -> & Hwait & R1 & F1).
  rewrite Nat2Z.inj_succ in *. cbn [length] in Hlen. unfold abs_tick in R1. rewrite Hon in R1.
  destruct (view_range _ _ _ (rf_view _ _ _ _ _ Hr)) as [Ht _]. unfold in_u in Ht.
  destruct (Z.eqb_spec (Z.max 0 (v_onTime (ab_view s) - 1)) 0) as [Hz|Hz].
  - destruct nows; [|simpl length in Hlen; lia]. simpl.
    match type of R1 with context [abs_set Off_Id ?x] => destruct (abs_set_off x) as (E1 & E2 & E3) end.
    eexists st1, _. split_and!; [done|exact R1|unfold armed; rewrite E3; by exists wait|apply F1|].
    rewrite (proj2 (Z.ltb_ge _ _)) by lia. by rewrite E1, E2.
  - destruct (IH st1 ep i _ R1) as (st2 & s2 & -> & R2 & Ht2 & F2 & Hend); simpl; [|done|by exists wait|lia|].
    { eapply no_level_frame; [apply F1|done]. }
    exists st2, s2. split_and!; [done|done|done|eapply frame_ep_trans; [apply F1|done]|]. revert Hend. simpl.
    assert (Z.max 1 (Z.max 0 (v_onTime (ab_view s) - 1)) = Z.max 1 (v_onTime (ab_view s)) - 1) as -> by lia.
    destruct (Z.ltb_spec (Z.of_nat (length nows)) (Z.max 1 (v_onTime (ab_view s)) - 1));
      [rewrite (proj2 (Z.ltb_lt _ _)) by lia; intros [? ->]; split; [done|lia]|by rewrite (proj2 (Z.ltb_ge _ _)) by lia].
Qed.

(** C1: The On/Off server implements its abstract machine.  From a state that shows
    [s] for an endpoint, every command, the startup and every firing of the timer
    run to the end, leave a state that shows the machine's next state (with a
    next delay of 1 to 100 ms), and leave every other endpoint showing what it
    showed. *)
Theorem onoff_simulation now (st : state) ep i s input :
  refines st ep i s → no_level_effect (attrs st) ep false → IGNORE_ON_OFF_CLUSTER_START_UP_ON_OFF build = false →
  input_ok st ep s input →
  ∃ st' wait, serve build level now ep i input st = Some st' ∧ 1 ≤ wait ≤ ON_OFF_UPDATE_TIME_MS ∧
    refines st' ep i (abs_serve wait input s) ∧
    ∀ ep' i' s', ep' ≠ ep → i' ≠ i → refines st ep' i' s' → refines st' ep' i' s'.
Proof.
  intros Hr Hl Hb Hin. destruct (serve_refines now st ep i s input Hr Hl Hb Hin) as (st' & wait & Hs & Hw & R & F).
  exists st', wait. split_and!; [done|apply Hw|apply Hw|done|]. intros. by eapply frame_refines.
Qed.

(** C34: A timed on ends.  After [OnWithTimedOff] on a lighting device that is not in
    its off-wait, with times below 0xFFFF, the device is on with its timer started
    for 100 ms; it stays on while the timer fires fewer than [max 1 onTime] times
    (the larger of the command's and the attribute's on time) and is off after that
    many firings, whatever the clock does.  Only an armed timer fires: after every
    firing the server has armed it again, for 1 to 100 ms, and so the next one comes;
    the one after the last finds it armed too and stops it. *)
Theorem timed_off_turns_off now (st : state) ep i s control onTime offWaitTime nows now' :
  refines st ep i s → no_level_effect (attrs st) ep false → v_lighting (ab_view s) = true →
  has_bits control OnOffControl_kAcceptOnlyWhenOn && negb (v_on (ab_view s)) = false →
  (v_on (ab_view s) = true ∨ v_offWait (ab_view s) = 0) →
  0 ≤ onTime < 0xFFFF → 0 ≤ offWaitTime < 0xFFFF → v_onTime (ab_view s) < 0xFFFF →
  let N := Z.max 1 (Z.max (v_onTime (ab_view s)) onTime) in
  Z.of_nat (length nows) ≤ N →
  ∃ st1 st2, OnWithTimedOffCommand build level now st ep control onTime offWaitTime = Some (EMBER_ZCL_STATUS_SUCCESS, st1) ∧
    getOnOffValue st1 ep false = Some (EMBER_ZCL_STATUS_SUCCESS, true) ∧ timers st1 !! Some i = Some ON_OFF_UPDATE_TIME_MS ∧
    fire build level i nows st1 = Some st2 ∧
    getOnOffValue st2 ep false = Some (EMBER_ZCL_STATUS_SUCCESS, Z.of_nat (length nows) <? N) ∧
    (∃ wait, timers st2 !! Some i = Some wait ∧ 1 ≤ wait ≤ ON_OFF_UPDATE_TIME_MS) ∧
    (Z.of_nat (length nows) = N → ∃ st3, fire build level i [now'] st2 = Some st3 ∧
       timers st3 !! Some i = None ∧ getOnOffValue st3 ep true = Some (EMBER_ZCL_STATUS_SUCCESS, false)).
Proof.
  intros Hr Hl Hlt Hacc Hw Ht Hwt Hct N Hlen.
  destruct (timedOff_refines build level now st ep i s control onTime offWaitTime Hr Hl ltac:(ulia) ltac:(ulia))
    as (x & st1 & Hcmd & R1 & -> & F1). rewrite Hlt in Hcmd.
  assert ((0 <? v_offWait (ab_view s)) && negb (v_on (ab_view s)) = false) as Hwaiting.
  { destruct Hw as [Hw|Hw]; rewrite Hw; [apply andb_false_r|done]. }
  unfold abs_timed_off in R1. rewrite Hlt, Hacc, Hwaiting in R1. cbn [negb orb] in R1.
  rewrite (proj2 (Z.ltb_lt _ _)) in R1 by (unfold MAX_ON_OFF_TIME_VALUE; lia).
  rewrite (proj2 (Z.ltb_lt _ _)) in R1 by (unfold MAX_ON_OFF_TIME_VALUE; lia). cbn [andb] in R1.
  match type of R1 with OnOffServer.refines _ _ _ _ ?x => set (s1 := x) in R1 end.
  assert (v_on (ab_view s1) = true ∧ v_onTime (ab_view s1) = Z.max (v_onTime (ab_view s)) onTime) as [Hon1 Ht1].
  { unfold s1. apply abs_set_on. }
  assert (no_level_effect (attrs st1) ep false) as Hl1 by (eapply no_level_frame; [apply F1|done]).
  destruct (fire_refines nows st1 ep i s1 R1 Hl1 Hon1 ltac:(by exists ON_OFF_UPDATE_TIME_MS)) as (st2 & s2 & Hfire & R2 & Htm2 & F2 & Hend); [by rewrite Ht1|].
  rewrite Ht1 in Hend. fold N in Hend.
  exists st1, st2. split_and!; [done| |by rewrite (rf_timer _ _ _ _ _ R1)|done| | |].
  - unfold getOnOffValue. rewrite (get_bool_holds _ _ _ _ _ (vw_on _ _ _ (rf_view _ _ _ _ _ R1))). by rewrite Hon1.
  - unfold getOnOffValue. rewrite (get_bool_holds _ _ _ _ _ (vw_on _ _ _ (rf_view _ _ _ _ _ R2))).
    assert (v_on (ab_view s2) = (Z.of_nat (length nows) <? N)) as -> by (by destruct (_ <? N), Hend). done.
  - destruct Htm2 as (w & Hw2 & ?). exists w. by rewrite (rf_timer _ _ _ _ _ R2).
  - intros Hn. rewrite (proj2 (Z.ltb_ge _ _)) in Hend by lia. destruct Hend as [Hoff Hoffw]. destruct Htm2 as (w & Hw2 & _).
    destruct (timer_refines build level now' st2 ep i s2 R2) as (st3 & wait & Hs3 & _ & R3 & _); [|by rewrite Hw2|].
    { eapply no_level_frame; [apply F2|done]. }
    unfold abs_tick in R3. rewrite Hoff, Hoffw in R3. exists st3. split_and!;
      [cbn [fire]; rewrite (rf_timer _ _ _ _ _ R2), Hw2; cbn [mbind option_bind]; by rewrite Hs3|by rewrite (rf_timer _ _ _ _ _ R3)|].
    unfold getOnOffValue. rewrite (get_bool_holds _ _ _ _ _ (vw_on _ _ _ (rf_view _ _ _ _ _ R3))). by simpl; rewrite Hoff.
Qed.

(** [OffWithEffect] triggers the effect registered for the endpoint exactly when
    the device has the lighting feature and is on: one call, of the effect found
    first, which sees the identifier and variant of the command; no other effect
    changes.  The device is then off and has its global scene control cleared. *)
Theorem off_with_effect_correct (st : state) ep i s effectId effectVariant :
  refines st ep i s → no_level_effect (attrs st) ep false →
  ∃ st', offWithEffectCommand build level st ep effectId effectVariant =
      Some (if v_lighting (ab_view s) then EMBER_ZCL_STATUS_SUCCESS else EMBER_ZCL_STATUS_UNSUPPORTED_COMMAND, st') ∧
    (v_lighting (ab_view s) = true → getOnOffValue st' ep true = Some (EMBER_ZCL_STATUS_SUCCESS, false) ∧
       get_bool (attrs st') ep OnOff_Id OnOff_GlobalSceneControl true = Some (EMBER_ZCL_STATUS_SUCCESS, false)) ∧
    (∀ e, inst (firstEffect st') e =
       if v_lighting (ab_view s) && v_on (ab_view s) && (e =? ep)
       then (fun x => match mOffWithEffectTrigger x with
                      | Some _ => {| effect_addr := effect_addr x; mEndpoint := mEndpoint x;
                                     mOffWithEffectTrigger := mOffWithEffectTrigger x;
                                     mEffectIdentifier := effectId; mEffectVariant := effectVariant |}
                      | None => x end) <$> inst (firstEffect st) e
       else inst (firstEffect st) e) ∧
    onoff_log st' = onoff_log st ++
      if v_lighting (ab_view s) && v_on (ab_view s)
      then match inst (firstEffect st) ep ≫= (fun x => (fun t => (effect_addr x, t)) <$> mOffWithEffectTrigger x) with
           | Some (addr, trigger) => [EffectTrigger trigger addr effectId effectVariant]
           | None => []
           end
      else [].
Proof.
  intros Hr Hl. destruct (offWithEffect_refines build level st ep i s effectId effectVariant Hr Hl)
    as (x & st' & -> & R & -> & F). exists st'. split; [done|]. split; [|split].
  - intros Hlt. unfold abs_off_with_effect in R. rewrite Hlt in R.
    match type of R with context [abs_set Off_Id ?x] => destruct (abs_set_off x) as (E & _); set (s0 := x) in * end.
    pose proof (rf_view _ _ _ _ _ R) as Hv. unfold getOnOffValue.
    rewrite (get_bool_holds _ _ _ _ _ (vw_on _ _ _ Hv)), (get_bool_holds _ _ _ _ _ (vw_gsc _ _ _ Hv)), E.
    split; [done|]. unfold abs_set, abs_turn_off, s0. cbn. destruct (v_on (ab_view s)); cbn; [|done]. by destruct (v_lighting _).
  - intros e. rewrite (fr_effects _ _ _ _ F). destruct (v_lighting _ && v_on _); cbn [andb]; [|done].
    unfold triggered. destruct (inst (firstEffect st) ep) as [f|] eqn:Hf.
    + destruct (mOffWithEffectTrigger f) eqn:Ht.
      * cbn. rewrite inst_configure. destruct (Z.eqb_spec e ep) as [->|]; [|done]. by rewrite Hf; simpl; rewrite Ht.
      * destruct (Z.eqb_spec e ep) as [->|]; [|done]. by rewrite Hf; simpl; rewrite Ht.
    + destruct (Z.eqb_spec e ep) as [->|]; [|done]. by rewrite Hf.
  - rewrite (fr_log _ _ _ _ F). destruct (v_lighting _ && v_on _); [|by rewrite app_nil_r].
    unfold triggered. destruct (inst (firstEffect st) ep) as [f|]; simpl; [|by rewrite app_nil_r].
    destruct (mOffWithEffectTrigger f); simpl; [done|by rewrite app_nil_r].
Qed.
End claims.
