(* ===== verification/IdentifyServer.v ===== *)
(** * IdentifyServer: the Identify cluster

    [src/src/app/clusters/identify-server/identify-server.cpp].  The [Identify]
    objects of the application are a list in the order of their registration, the
    last one first, each with its address; the callbacks they carry are names, and
    a call of one is an entry of the log.  The attributes are behind the interface
    [AttributeStore]; a write of [IdentifyTime] that succeeds runs the cluster's
    attribute-changed callback before it returns, and that callback writes the
    attribute again, so that the two are one recursion, with fuel.  The timers are a
    map from the object that is their context to the delay in seconds. *)
From S2P Require Import Prelude Zcl StoreInterface.

Definition Identify_Id : ClusterId := 3.
Definition IdentifyTime_Id : AttributeId := 0.
Definition IdentifyType_Id : AttributeId := 1.

(** [EffectIdentifierEnum] *)
Definition kBlink : Z := 0.
Definition kFinishEffect : Z := 0xFE.
Definition kStopEffect : Z := 0xFF.

Record Identify := {
  id_addr : nat;
  mEndpoint : EndpointId;
  mOnIdentifyStart : option nat;
  mOnIdentifyStop : option nat;
  mIdentifyType : Z;
  mOnEffectIdentifier : option nat;
  mCurrentEffectIdentifier : Z;
  mTargetEffectIdentifier : Z;
  mEffectVariant : Z;
  mActive : bool }.
#[export] Instance eta_identify : Eta Identify := fun i =>
  {| id_addr := id_addr i; mEndpoint := mEndpoint i; mOnIdentifyStart := mOnIdentifyStart i; mOnIdentifyStop := mOnIdentifyStop i;
     mIdentifyType := mIdentifyType i; mOnEffectIdentifier := mOnEffectIdentifier i;
     mCurrentEffectIdentifier := mCurrentEffectIdentifier i; mTargetEffectIdentifier := mTargetEffectIdentifier i;
     mEffectVariant := mEffectVariant i; mActive := mActive i |}.

(** A call of a callback, with the object and the fields of it an effect reads. *)
Inductive identify_event : Set :=
| OnIdentifyStart (callback addr : nat)
| OnIdentifyStop (callback addr : nat)
| OnEffectIdentifier (callback addr : nat) (effect variant : Z).

Record identify_state (A : Type) := {
  id_attrs : A;
  firstIdentify : list Identify;
  id_timers : gmap nat Z;
  id_log : list identify_event }.
#[global] Arguments id_attrs {A} _.
#[global] Arguments firstIdentify {A} _.
#[global] Arguments id_timers {A} _.
#[global] Arguments id_log {A} _.
#[export] Instance eta_identify_state {A} : Eta (identify_state A) := fun s =>
  {| id_attrs := id_attrs s; firstIdentify := firstIdentify s; id_timers := id_timers s; id_log := id_log s |}.

Section server.
Context {A : Type} `{AttributeStore A}.

Definition log_identify (e : identify_event) (st : identify_state A) : identify_state A := st <| id_log ::= (fun l => l ++ [e]) |>.

(** ** The objects *)
Definition identify_inst (st : identify_state A) (endpoint : EndpointId) : option Identify :=
  List.find (fun i => mEndpoint i =? endpoint) (firstIdentify st).
Definition deref (st : identify_state A) (addr : nat) : option Identify :=
  List.find (fun i => (id_addr i =? addr)%nat) (firstIdentify st).
Definition on_identify (addr : nat) (f : Identify → Identify) (st : identify_state A) : identify_state A :=
  st <| firstIdentify ::= map (fun i => if (id_addr i =? addr)%nat then f i else i) |>.

Definition identify_reg (i : Identify) (st : identify_state A) : identify_state A := st <| firstIdentify ::= cons i |>.
Fixpoint unlink_identify (addr : nat) (l : list Identify) : list Identify :=
  match l with
  | [] => []
  | i :: l => if (id_addr i =? addr)%nat then l else i :: unlink_identify addr l
  end.
(** [None]: the list is empty and its first object is dereferenced. *)
Definition identify_unreg (addr : nat) (st : identify_state A) : option (identify_state A) :=
  match firstIdentify st with
  | [] => None
  | _ => Some (st <| firstIdentify ::= unlink_identify addr |>)
  end.
Definition new_Identify (addr : nat) (endpoint : EndpointId) (onIdentifyStart onIdentifyStop : option nat) (identifyType : Z)
    (onEffectIdentifier : option nat) (effectIdentifier effectVariant : Z) (st : identify_state A) : identify_state A :=
  identify_reg {| id_addr := addr; mEndpoint := endpoint; mOnIdentifyStart := onIdentifyStart; mOnIdentifyStop := onIdentifyStop;
         mIdentifyType := identifyType; mOnEffectIdentifier := onEffectIdentifier; mCurrentEffectIdentifier := effectIdentifier;
         mTargetEffectIdentifier := effectIdentifier; mEffectVariant := effectVariant; mActive := false |} st.

Definition identify_activate (addr : nat) (st : identify_state A) : option (identify_state A) :=
  let! i := deref st addr in
  match mOnIdentifyStart i, mOnIdentifyStop i, mActive i with
  | Some start, Some _, false => Some (log_identify (OnIdentifyStart start addr) (on_identify addr (fun i => i <| mActive := true |>) st))
  | _, _, _ => Some st
  end.
Definition identify_deactivate (addr : nat) (st : identify_state A) : option (identify_state A) :=
  let! i := deref st addr in
  match mOnIdentifyStop i with
  | Some stop => Some (log_identify (OnIdentifyStop stop addr) (on_identify addr (fun i => i <| mActive := false |>) st))
  | None => Some st
  end.
Definition run_effect (addr : nat) (st : identify_state A) : option (identify_state A) :=
  let! i := deref st addr in
  match mOnEffectIdentifier i with
  | Some f => Some (log_identify (OnEffectIdentifier f addr (mCurrentEffectIdentifier i) (mEffectVariant i)) st)
  | None => Some st
  end.

Definition identify_StartTimer (addr : nat) (seconds : Z) (st : identify_state A) : identify_state A := st <| id_timers ::= <[addr := seconds]> |>.
Definition identify_CancelTimer (addr : nat) (st : identify_state A) : identify_state A := st <| id_timers ::= delete addr |>.

(** ** The attribute and its callback

    [AttributeChanged] is [MatterIdentifyClusterServerAttributeChangedCallback]. *)
Definition IdentifyTime_Set_with (AttributeChanged : identify_state A → option (identify_state A))
    (st : identify_state A) (endpoint : EndpointId) (value : Z) : option (EmberAfStatus * identify_state A) :=
  let! (status, a) := set_u16 (id_attrs st) endpoint Identify_Id IdentifyTime_Id value in
  let st := st <| id_attrs := a |> in
  if is_success status then let! st := AttributeChanged st in Some (status, st) else Some (status, st).

Fixpoint AttributeChanged (fuel : nat) (endpoint : EndpointId) (attribute : AttributeId) (st : identify_state A)
    : option (identify_state A) :=
  match fuel with
  | O => None
  | S fuel =>
      if negb (attribute =? IdentifyTime_Id) then Some st
      else
        match identify_inst st endpoint with
        | None => Some st
        | Some identify =>
            let addr := id_addr identify in
            let IdentifyTime_Set st value :=
              let! (_, st) := IdentifyTime_Set_with (AttributeChanged fuel endpoint IdentifyTime_Id) st endpoint value in Some st in
            let! (status, identifyTime) := get_uint 2 (id_attrs st) endpoint Identify_Id IdentifyTime_Id 0 in
            if negb (is_success status) then Some (identify_CancelTimer addr st)
            else if negb (mTargetEffectIdentifier identify =? mCurrentEffectIdentifier identify) then
              let st := on_identify addr (fun i => i <| mCurrentEffectIdentifier := mTargetEffectIdentifier i |>) st in
              let! i := deref st addr in
              let! st := (if (mCurrentEffectIdentifier i =? kFinishEffect) && (0 <? identifyTime) then IdentifyTime_Set st 1 else Some st) in
              let! i := deref st addr in
              let! st :=
                (if (mCurrentEffectIdentifier i =? kStopEffect) && (0 <? identifyTime) then
                   let! st := IdentifyTime_Set st 0 in identify_deactivate addr st
                 else
                   let! st := IdentifyTime_Set st 0 in
                   let! st := identify_deactivate addr st in
                   run_effect addr st) in
              Some (identify_CancelTimer addr st)
            else if 0 <? identifyTime then
              let! st := identify_activate addr st in Some (identify_StartTimer addr 1 st)
            else
              let! st := identify_deactivate addr st in Some (identify_CancelTimer addr st)
        end
  end.

Definition IdentifyTime_Set (fuel : nat) (st : identify_state A) (endpoint : EndpointId) (value : Z)
    : option (EmberAfStatus * identify_state A) :=
  IdentifyTime_Set_with (AttributeChanged fuel endpoint IdentifyTime_Id) st endpoint value.

Definition IdentifyType_Set (fuel : nat) (st : identify_state A) (endpoint : EndpointId) (value : Z)
    : option (EmberAfStatus * identify_state A) :=
  let! (status, a) := store_write (id_attrs st) endpoint Identify_Id IdentifyType_Id [value] ZCL_ENUM8_ATTRIBUTE_TYPE in
  let st := st <| id_attrs := a |> in
  if is_success status then let! st := AttributeChanged fuel endpoint IdentifyType_Id st in Some (status, st) else Some (status, st).

Definition emberAfIdentifyClusterServerInitCallback (fuel : nat) (endpoint : EndpointId) (st : identify_state A)
    : option (identify_state A) :=
  match identify_inst st endpoint with
  | None => Some st
  | Some identify => let! (_, st) := IdentifyType_Set fuel st endpoint (mIdentifyType identify) in Some st
  end.

(** The timer of the object fires: it is no longer pending.  [None] without one. *)
Definition onIdentifyClusterTick (fuel : nat) (addr : nat) (st : identify_state A) : option (identify_state A) :=
  let! identify := deref st addr in
  let endpoint := mEndpoint identify in
  let! (status, identifyTime) := get_uint 2 (id_attrs st) endpoint Identify_Id IdentifyTime_Id 0 in
  if is_success status && negb (0 =? identifyTime)
  then let! (_, st) := IdentifyTime_Set fuel st endpoint (u16 (if identifyTime =? 0 then 0 else identifyTime - 1)) in Some st
  else Some st.
Definition timer_fires (fuel : nat) (addr : nat) (st : identify_state A) : option (identify_state A) :=
  match id_timers st !! addr with
  | None => None
  | Some _ => onIdentifyClusterTick fuel addr (identify_CancelTimer addr st)
  end.

(** ** Commands: the status for the peer, or that the command is not handled *)
Definition emberAfIdentifyClusterIdentifyCallback (fuel : nat) (endpoint : EndpointId) (identifyTime : Z) (st : identify_state A)
    : option (bool * option EmberAfStatus * identify_state A) :=
  let! (status, st) := IdentifyTime_Set fuel st endpoint identifyTime in Some (true, Some status, st).

Definition emberAfIdentifyClusterTriggerEffectCallback (endpoint : EndpointId) (effectIdentifier effectVariant : Z) (st : identify_state A)
    : option (bool * option EmberAfStatus * identify_state A) :=
  match identify_inst st endpoint with
  | None => Some (false, None, st)
  | Some identify =>
      let addr := id_addr identify in
      let st := on_identify addr (fun i => i <| mTargetEffectIdentifier := effectIdentifier |> <| mEffectVariant := effectVariant |>) st in
      let! st :=
        (match mOnEffectIdentifier identify with
         | None => Some st
         | Some _ =>
             let! (status, identifyTime) := get_uint 2 (id_attrs st) endpoint Identify_Id IdentifyTime_Id 0 in
             if is_success status && (0 =? identifyTime)
             then run_effect addr (on_identify addr (fun i => i <| mCurrentEffectIdentifier := mTargetEffectIdentifier i |>) st)
             else Some st
         end) in
      Some (true, Some EMBER_ZCL_STATUS_SUCCESS, st)
  end.
End server.

(** ** The abstract machine

    The object of the endpoint, the value of the attribute, whether the timer is
    pending. *)
Record machine := { m_object : Identify; m_time : Z; m_pending : bool }.
#[export] Instance eta_machine : Eta machine := fun m =>
  {| m_object := m_object m; m_time := m_time m; m_pending := m_pending m |}.

Definition started (i : Identify) : Identify * list identify_event :=
  match mOnIdentifyStart i, mOnIdentifyStop i, mActive i with
  | Some start, Some _, false => (i <| mActive := true |>, [OnIdentifyStart start (id_addr i)])
  | _, _, _ => (i, [])
  end.
Definition stopped (i : Identify) : Identify * list identify_event :=
  match mOnIdentifyStop i with
  | Some stop => (i <| mActive := false |>, [OnIdentifyStop stop (id_addr i)])
  | None => (i, [])
  end.
Definition effect_of (i : Identify) : list identify_event :=
  match mOnEffectIdentifier i with
  | Some f => [OnEffectIdentifier f (id_addr i) (mCurrentEffectIdentifier i) (mEffectVariant i)]
  | None => []
  end.
Definition effect_changed (i : Identify) : bool := negb (mTargetEffectIdentifier i =? mCurrentEffectIdentifier i).
Definition take_target (i : Identify) : Identify := i <| mCurrentEffectIdentifier := mTargetEffectIdentifier i |>.

(** [t] is written: without a change of the effect the identification runs for [t]
    seconds, with one it is cancelled. *)
Definition cancelled (t : Z) (i : Identify) : machine * list identify_event :=
  let i := take_target i in
  let (i1, e1) := if (mCurrentEffectIdentifier i =? kFinishEffect) && (0 <? t) then started i else (i, []) in
  let (i2, e2) := stopped i1 in
  let (i3, e3) := stopped i2 in
  ({| m_object := i3; m_time := 0; m_pending := false |},
   e1 ++ e2 ++ e3 ++ if (mCurrentEffectIdentifier i =? kStopEffect) && (0 <? t) then [] else effect_of i3).
Definition counting (t : Z) (i : Identify) : machine * list identify_event :=
  let (i', e) := if 0 <? t then started i else stopped i in
  ({| m_object := i'; m_time := t; m_pending := 0 <? t |}, e).
Definition written (t : Z) (i : Identify) : machine * list identify_event :=
  if effect_changed i then cancelled t i else counting t i.

Inductive identify_input : Set := WriteTime (t : Z) | TriggerEffect (effect variant : Z) | Tick.
Definition abs_identify (what : identify_input) (m : machine) : machine * list identify_event :=
  match what with
  | WriteTime t => written t (m_object m)
  | TriggerEffect e v =>
      let i := (m_object m) <| mTargetEffectIdentifier := e |> <| mEffectVariant := v |> in
      match mOnEffectIdentifier i with
      | Some _ => if m_time m =? 0 then (m <| m_object := take_target i |>, effect_of (take_target i)) else (m <| m_object := i |>, [])
      | None => (m <| m_object := i |>, [])
      end
  | Tick => if m_time m =? 0 then (m <| m_pending := false |>, []) else written (m_time m - 1) (m_object m)
  end.
Fixpoint abs_identifies (whats : list identify_input) (m : machine) : machine * list identify_event :=
  match whats with
  | [] => (m, [])
  | what :: whats =>
      let (m1, e1) := abs_identify what m in
      let (m2, e2) := abs_identifies whats m1 in
      (m2, e1 ++ e2)
  end.

Section refinement.
Context {A : Type} `{AttributeStoreLaws A}.

(** One input of the cluster on the endpoint [ep]. *)
Definition identify_serve (fuel : nat) (ep : EndpointId) (what : identify_input) (st : identify_state A) : option (identify_state A) :=
  match what with
  | WriteTime t => let! (_, _, st) := emberAfIdentifyClusterIdentifyCallback fuel ep t st in Some st
  | TriggerEffect e v => let! (_, _, st) := emberAfIdentifyClusterTriggerEffectCallback ep e v st in Some st
  | Tick => let! i := identify_inst st ep in timer_fires fuel (id_addr i) st
  end.
Fixpoint identify_serves (fuel : nat) (ep : EndpointId) (whats : list identify_input) (st : identify_state A) : option (identify_state A) :=
  match whats with
  | [] => Some st
  | what :: whats => let! st := identify_serve fuel ep what st in identify_serves fuel ep whats st
  end.

Record shows (st : identify_state A) (ep : EndpointId) (m : machine) : Prop := {
  sh_inst : identify_inst st ep = Some (m_object m);
  sh_addrs : NoDup (id_addr <$> firstIdentify st);
  sh_attr : store_attr (id_attrs st) ep Identify_Id IdentifyTime_Id 2;
  sh_time : store_read (id_attrs st) ep Identify_Id IdentifyTime_Id 2 = Some (EMBER_ZCL_STATUS_SUCCESS, le_bytes 2 (m_time m));
  sh_range : in_u 16 (m_time m);
  sh_timer : id_timers st !! id_addr (m_object m) = if m_pending m then Some 1 else None }.

(** What an operation on the endpoint leaves alone. *)
Record untouched (ep : EndpointId) (addr : nat) (st st' : identify_state A) : Prop := {
  un_inst : ∀ ep', ep' ≠ ep → identify_inst st' ep' = identify_inst st ep';
  un_timers : ∀ a, a ≠ addr → id_timers st' !! a = id_timers st !! a;
  un_readable : ∀ ep' cl id n, store_readable (id_attrs st) ep' cl id n → store_readable (id_attrs st') ep' cl id n;
  un_attr : ∀ ep' cl id n, store_attr (id_attrs st) ep' cl id n → store_attr (id_attrs st') ep' cl id n;
  un_read : ∀ ep' cl id n, (ep', cl, id) ≠ (ep, Identify_Id, IdentifyTime_Id) → store_readable (id_attrs st) ep' cl id n →
    store_read (id_attrs st') ep' cl id n = store_read (id_attrs st) ep' cl id n }.
#[export] Instance untouched_preorder ep addr : PreOrder (untouched ep addr).
Proof.
  split; [by split|]. intros s1 s2 s3 [I1 T1 R1 A1 D1] [I2 T2 R2 A2 D2]. split; intros.
  - by rewrite I2, I1.
  - by rewrite T2, T1.
  - by apply R2, R1.
  - by apply A2, A1.
  - rewrite D2, D1; auto.
Qed.

Definition does (st : identify_state A) (ep : EndpointId) (m : machine) (r : option (identify_state A)) (m' : machine) (e : list identify_event) : Prop :=
  ∃ st', r = Some st' ∧ shows st' ep m' ∧ id_log st' = id_log st ++ e ∧ untouched ep (id_addr (m_object m)) st st' ∧
    id_addr (m_object m') = id_addr (m_object m).

Lemma does_ret (st : identify_state A) ep m : shows st ep m → does st ep m (Some st) m [].
Proof. intros Hs. exists st. split_and!; [done|done|by rewrite app_nil_r|reflexivity|done]. Qed.

Lemma does_bind (st : identify_state A) ep m r m1 e1 k m2 e2 : does st ep m r m1 e1 → (∀ st1, shows st1 ep m1 → does st1 ep m1 (k st1) m2 e2) →
  does st ep m (let! x := r in k x) m2 (e1 ++ e2).
Proof.
  intros (st1 & -> & Hs1 & Hl1 & Hu1 & Ha1) Hk. destruct (Hk st1 Hs1) as (st2 & -> & Hs2 & Hl2 & Hu2 & Ha2).
  exists st2. split_and!; [done|done|by rewrite Hl2, Hl1, app_assoc| |congruence]. rewrite <- Ha1 in *. by transitivity st1.
Qed.

(** *** Objects *)
Lemma inst_endpoint (st : identify_state A) ep i : identify_inst st ep = Some i → mEndpoint i = ep ∧ i ∈ firstIdentify st.
Proof. intros [Hin He]%List.find_some. split; [lia|by apply list_elem_of_In]. Qed.

Lemma find_addr l i : NoDup (id_addr <$> l) → i ∈ l → List.find (fun x => (id_addr x =? id_addr i)%nat) l = Some i.
Proof.
  induction l as [|x l IH]; intros Hnd Hi; [by apply elem_of_nil in Hi|]. cbn [fmap list_fmap] in Hnd.
  apply NoDup_cons in Hnd as [Hx Hnd]. simpl. destruct (Nat.eqb_spec (id_addr x) (id_addr i)) as [E|E].
  - apply elem_of_cons in Hi as [->|Hi]; [done|]. destruct Hx. rewrite E. by apply list_elem_of_fmap_2.
  - apply elem_of_cons in Hi as [->|Hi]; [done|]. by apply IH.
Qed.

Lemma shows_deref (st : identify_state A) ep m : shows st ep m → deref st (id_addr (m_object m)) = Some (m_object m).
Proof. intros []. apply find_addr; [done|]. by eapply inst_endpoint. Qed.

Lemma inst_on (st : identify_state A) ep i f : identify_inst st ep = Some i → (∀ x, mEndpoint (f x) = mEndpoint x) → identify_inst (on_identify (id_addr i) f st) ep = Some (f i).
Proof.
  unfold identify_inst, on_identify. cbn [firstIdentify update eta_identify_state]. intros Hf Hep. induction (firstIdentify st) as [|x l IH]; [done|].
  simpl in Hf |- *. destruct (mEndpoint x =? ep) eqn:E.
  - injection Hf as ->. by rewrite Nat.eqb_refl, Hep, E.
  - assert (mEndpoint (if (id_addr x =? id_addr i)%nat then f x else x) = mEndpoint x) as -> by by destruct (_ =? _)%nat. rewrite E. by apply IH.
Qed.

Lemma inst_on_other (st : identify_state A) ep addr f : (∀ i, identify_inst st ep = Some i → id_addr i ≠ addr) → (∀ x, mEndpoint (f x) = mEndpoint x) →
  identify_inst (on_identify addr f st) ep = identify_inst st ep.
Proof.
  unfold identify_inst, on_identify. cbn [firstIdentify update eta_identify_state]. intros Hf Hep. induction (firstIdentify st) as [|x l IH]; [done|].
  simpl in Hf |- *. assert (mEndpoint (if (id_addr x =? addr)%nat then f x else x) = mEndpoint x) as -> by by destruct (_ =? _)%nat.
  destruct (mEndpoint x =? ep); [|by apply IH]. by rewrite (proj2 (Nat.eqb_neq _ _) (Hf x eq_refl)).
Qed.

Lemma addrs_on l addr (f : Identify → Identify) : (∀ x, id_addr (f x) = id_addr x) →
  id_addr <$> map (fun i => if (id_addr i =? addr)%nat then f i else i) l = id_addr <$> l.
Proof. intros Hf. induction l as [|x l IH]; [done|]. cbn. f_equal; [by destruct (_ =? _)%nat|done]. Qed.

Lemma addr_inj l i j : NoDup (id_addr <$> l) → i ∈ l → j ∈ l → id_addr i = id_addr j → i = j.
Proof. intros Hnd Hi Hj E. pose proof (find_addr l i Hnd Hi) as H1. pose proof (find_addr l j Hnd Hj) as H2. rewrite <- E in H2. congruence. Qed.

(** A change of the object. *)
Lemma object_does (st : identify_state A) ep m f : shows st ep m → (∀ x, mEndpoint (f x) = mEndpoint x) → (∀ x, id_addr (f x) = id_addr x) →
  does st ep m (Some (on_identify (id_addr (m_object m)) f st)) (m <| m_object := f (m_object m) |>) [].
Proof.
  intros Hs Hep Ha. pose proof Hs as []. eexists. split; [reflexivity|]. split_and!; [|by rewrite app_nil_r| |apply Ha].
  - split; cbn; [by apply inst_on|by rewrite addrs_on|done|done|done|by rewrite Ha].
  - split; [|done|done|done|done]. intros ep' Hne. apply inst_on_other; [|done]. intros i Hi E.
    destruct (inst_endpoint _ _ _ Hi) as [<- Hi2], (inst_endpoint _ _ _ sh_inst0) as [<- Hi3]. apply Hne. by rewrite (addr_inj _ _ _ sh_addrs0 Hi2 Hi3 E).
Qed.

Lemma log_does (st : identify_state A) ep m e : shows st ep m → does st ep m (Some (log_identify e st)) m [e].
Proof. intros Hs. exists (log_identify e st). split_and!; [done|by destruct Hs|done|by split|done]. Qed.

Lemma timer_does (st : identify_state A) ep m (b : bool) : shows st ep m →
  does st ep m (Some (if b then identify_StartTimer (id_addr (m_object m)) 1 st else identify_CancelTimer (id_addr (m_object m)) st)) (m <| m_pending := b |>) [].
Proof.
  intros []. eexists. split; [reflexivity|]. split_and!; [|destruct b; cbn; by rewrite app_nil_r| |done].
  - destruct b; (split; cbn; [done|done|done|done|done|]); [apply lookup_insert_eq|apply lookup_delete_eq].
  - destruct b; (split; cbn; [done| |done|done|done]); intros a Hne; [by apply lookup_insert_ne|by apply lookup_delete_ne].
Qed.

Lemma activate_does (st : identify_state A) ep m : shows st ep m →
  does st ep m (identify_activate (id_addr (m_object m)) st) (m <| m_object := fst (started (m_object m)) |>) (snd (started (m_object m))).
Proof.
  intros Hs. unfold identify_activate. rewrite (shows_deref st ep m Hs). unfold started.
  destruct (mOnIdentifyStart (m_object m)) as [f|], (mOnIdentifyStop (m_object m)), (mActive (m_object m)); try by (destruct m; apply does_ret).
  eapply (does_bind st ep m (Some (on_identify _ (fun i => i <| mActive := true |>) st)) _ [] (fun x => Some (log_identify _ x)));
    [by apply object_does|]. intros st1 Hs1. by apply log_does.
Qed.

Lemma deactivate_does (st : identify_state A) ep m : shows st ep m →
  does st ep m (identify_deactivate (id_addr (m_object m)) st) (m <| m_object := fst (stopped (m_object m)) |>) (snd (stopped (m_object m))).
Proof.
  intros Hs. unfold identify_deactivate. rewrite (shows_deref st ep m Hs). unfold stopped.
  destruct (mOnIdentifyStop _) as [f|]; [|by destruct m; apply does_ret].
  eapply (does_bind st ep m (Some (on_identify _ (fun i => i <| mActive := false |>) st)) _ [] (fun x => Some (log_identify _ x)));
    [by apply object_does|]. intros st1 Hs1. by apply log_does.
Qed.

Lemma effect_does (st : identify_state A) ep m : shows st ep m → does st ep m (run_effect (id_addr (m_object m)) st) m (effect_of (m_object m)).
Proof.
  intros Hs. unfold run_effect, effect_of. rewrite (shows_deref st ep m Hs). destruct (mOnEffectIdentifier _); [by apply log_does|by apply does_ret].
Qed.

(** *** The attribute *)
Lemma shows_time (st : identify_state A) ep m d : shows st ep m →
  get_uint 2 (id_attrs st) ep Identify_Id IdentifyTime_Id d = Some (EMBER_ZCL_STATUS_SUCCESS, m_time m).
Proof. intros []. unfold get_uint. rewrite sh_time0. cbn beta iota. rewrite le_val_bytes by exact sh_range0. done. Qed.

Lemma set_does (st : identify_state A) ep m v f m' e : shows st ep m → in_u 16 v →
  (∀ st1, shows st1 ep (m <| m_time := v |>) → does st1 ep (m <| m_time := v |>) (f st1) m' e) →
  ∃ st', IdentifyTime_Set_with f st ep v = Some (EMBER_ZCL_STATUS_SUCCESS, st') ∧ does st ep m (Some st') m' e.
Proof.
  intros Hs Hv Hf. pose proof Hs as []. unfold IdentifyTime_Set_with, set_u16.
  destruct (store_write_attr _ _ _ _ 2 (le_bytes 2 v) ZCL_INT16U_ATTRIBUTE_TYPE sh_attr0 (length_le_bytes _ _) (le_bytes_ok _ _))
    as (a & -> & Hr & Hat & Hrd & Hoth & _). cbn [is_success].
  destruct (Hf (st <| id_attrs := a |>)) as (st' & -> & Hs' & Hl & Hu & Ha); [by split; auto|].
  exists st'. split; [done|]. exists st'. split_and!; [done|done|done| |done]. etrans; [|exact Hu]. by split.
Qed.
(** *** The callback *)
Lemma does_eq (st : identify_state A) ep m r m' e m2 e2 : does st ep m r m' e → m' = m2 → e = e2 → does st ep m r m2 e2.
Proof. by intros ? <- <-. Qed.

Lemma started_addr i : id_addr (fst (started i)) = id_addr i.
Proof. unfold started. by destruct (mOnIdentifyStart i), (mOnIdentifyStop i), (mActive i). Qed.
Lemma stopped_addr i : id_addr (fst (stopped i)) = id_addr i.
Proof. unfold stopped. by destruct (mOnIdentifyStop i). Qed.

Lemma counting_does fuel (st : identify_state A) ep m : shows st ep m → effect_changed (m_object m) = false →
  does st ep m (AttributeChanged (S fuel) ep IdentifyTime_Id st) (fst (counting (m_time m) (m_object m))) (snd (counting (m_time m) (m_object m))).
Proof.
  intros Hs He. cbn [AttributeChanged]. change (negb (IdentifyTime_Id =? IdentifyTime_Id)) with false. cbv iota.
  rewrite (sh_inst _ _ _ Hs). cbv zeta. rewrite (shows_time st ep m 0 Hs). cbn [is_success negb].
  fold (effect_changed (m_object m)). rewrite He. unfold counting. destruct (0 <? m_time m).
  - eapply does_eq; [eapply (does_bind st ep m _ _ _ (fun x => Some (identify_StartTimer _ 1 x)) _ []); [by apply activate_does|]| |].
    + intros st1 Hs1. eapply does_eq; [|reflexivity|reflexivity].
      rewrite <- (started_addr (m_object m)). exact (timer_does st1 ep _ true Hs1).
    + by destruct (started _).
    + rewrite app_nil_r. by destruct (started _).
  - eapply does_eq; [eapply (does_bind st ep m _ _ _ (fun x => Some (identify_CancelTimer _ x)) _ []); [by apply deactivate_does|]| |].
    + intros st1 Hs1. eapply does_eq; [|reflexivity|reflexivity].
      rewrite <- (stopped_addr (m_object m)). exact (timer_does st1 ep _ false Hs1).
    + by destruct (stopped _).
    + rewrite app_nil_r. by destruct (stopped _).
Qed.
Lemma inner_set_does fuel (st : identify_state A) ep m v : shows st ep m → in_u 16 v → effect_changed (m_object m) = false →
  does st ep m (let! (_, st) := IdentifyTime_Set_with (AttributeChanged (S fuel) ep IdentifyTime_Id) st ep v in Some st)
    (fst (counting v (m_object m))) (snd (counting v (m_object m))).
Proof.
  intros Hs Hv He. destruct (set_does st ep m v (AttributeChanged (S fuel) ep IdentifyTime_Id) _ _ Hs Hv
    (fun st1 Hs1 => counting_does fuel st1 ep _ Hs1 He)) as (st' & -> & Hd). exact Hd.
Qed.

Lemma started_effect i : mCurrentEffectIdentifier (fst (started i)) = mCurrentEffectIdentifier i ∧
  effect_changed (fst (started i)) = effect_changed i.
Proof. unfold started. by destruct (mOnIdentifyStart i), (mOnIdentifyStop i), (mActive i). Qed.

(** A change of the effect, after the target is taken. *)
Lemma cancel_does fuel (st : identify_state A) ep m t : shows st ep m → effect_changed (m_object m) = false →
  let addr := id_addr (m_object m) in
  let IdentifyTime_Set st value :=
    let! (_, st) := IdentifyTime_Set_with (AttributeChanged (S fuel) ep IdentifyTime_Id) st ep value in Some st in
  let e := mCurrentEffectIdentifier (m_object m) in
  does st ep m
    (let! st := (if (e =? kFinishEffect) && (0 <? t) then IdentifyTime_Set st 1 else Some st) in
     let! i := deref st addr in
     let! st :=
       (if (mCurrentEffectIdentifier i =? kStopEffect) && (0 <? t) then
          let! st := IdentifyTime_Set st 0 in identify_deactivate addr st
        else
          let! st := IdentifyTime_Set st 0 in
          let! st := identify_deactivate addr st in
          run_effect addr st) in
     Some (identify_CancelTimer addr st))
    (fst (cancelled t (m_object m))) (snd (cancelled t (m_object m))).
Proof.
  intros Hs He addr IdentifyTime_Set e. set (i := m_object m) in *.
  assert (take_target i = i) as Htake.
  { unfold effect_changed in He. apply negb_false_iff, Z.eqb_eq in He. unfold take_target. rewrite He. by destruct i. }
  set (started1 := if (e =? kFinishEffect) && (0 <? t) then started i else (i, [])).
  assert (∃ st1, (if (e =? kFinishEffect) && (0 <? t) then IdentifyTime_Set st 1 else Some st) = Some st1 ∧
    ∃ m1, shows st1 ep m1 ∧ m_object m1 = fst started1 ∧ id_log st1 = id_log st ++ snd started1 ∧ untouched ep addr st st1)
    as (st1 & -> & m1 & H1 & O1 & L1 & U1).
  { unfold started1. destruct (_ && _).
    - destruct (inner_set_does fuel st ep m 1 Hs ltac:(done) He) as (st1 & E & Hs1 & Hl & Hu & _).
      exists st1. split; [exact E|]. eexists. split; [exact Hs1|]. unfold counting in *. cbn [Z.ltb Z.compare] in *. fold i in Hl |- *.
      destruct (started i) as [i1 e1]. done.
    - exists st. split; [done|]. exists m. split_and!; [done|done|by rewrite app_nil_r|reflexivity]. }
  assert (id_addr (m_object m1) = addr ∧ mCurrentEffectIdentifier (m_object m1) = e ∧ effect_changed (m_object m1) = false) as (Ha1 & Hc1 & He1).
  { rewrite O1. unfold started1. destruct (_ && _); [|done]. destruct (started_effect i) as [-> ->]. by rewrite started_addr. }
  rewrite <- Ha1, (shows_deref st1 ep m1 H1), Hc1.
  destruct (inner_set_does fuel st1 ep m1 0 H1 ltac:(done) He1) as (st2 & E2 & H2 & L2 & U2 & A2).
  unfold counting in H2, L2, A2. cbn [Z.ltb Z.compare] in H2, L2, A2. destruct (stopped (m_object m1)) as [i2 e2] eqn:S2. simpl in H2, L2, A2.
  destruct (deactivate_does st2 ep _ H2) as (st3 & E3 & H3 & L3 & U3 & A3). simpl in E3, H3, L3, U3, A3.
  destruct (effect_does st3 ep _ H3) as (st4 & E4 & H4 & L4 & U4 & A4). simpl in E4, H4, L4, U4.
  rewrite A2 in E3, U3, A3. rewrite A3 in E4, U4.
  assert (mCurrentEffectIdentifier i = e) as Hie by done.
  assert (cancelled t i = ({| m_object := fst (stopped i2); m_time := 0; m_pending := false |},
    snd started1 ++ e2 ++ snd (stopped i2) ++ if (e =? kStopEffect) && (0 <? t) then [] else effect_of (fst (stopped i2)))) as ->.
  { unfold cancelled. rewrite Htake, Hie. fold started1. clearbody started1. destruct started1 as [i1 e1]. simpl in O1 |- *. rewrite <- O1, S2.
    by destruct (stopped i2). }
  cbn [fst snd].
  set (m3 := {| m_object := fst (stopped i2); m_time := 0; m_pending := false |}) in *. clearbody started1.
  assert (∀ st' l, shows st' ep m3 → id_log st' = id_log st ++ l → untouched ep addr st st' →
    does st ep m (Some (identify_CancelTimer addr st')) m3 l) as Hend.
  { intros st' l Hs' Hl Hu. exists (identify_CancelTimer addr st').
    destruct (timer_does st' ep m3 false Hs') as (st'' & [= <-] & Hs'' & _ & Hu' & _).
    assert (id_addr (fst (stopped i2)) = addr) as Ha' by congruence. cbn in Hs'', Hu'. rewrite Ha' in Hs'', Hu'. split_and!; [done|exact Hs''|done|by etrans|exact Ha']. }
  unfold IdentifyTime_Set. rewrite E2. cbn iota. rewrite E3, Ha1. rewrite Ha1 in U2, U3, U4, E4. destruct (_ && _).
  - apply Hend; [done| |exact (transitivity U1 (transitivity U2 U3))]. by rewrite L3, L2, L1, app_nil_r, <- !app_assoc.
  - rewrite E4. apply Hend; [done| |exact (transitivity U1 (transitivity U2 (transitivity U3 U4)))]. by rewrite L4, L3, L2, L1, <- !app_assoc.
Qed.

Lemma written_does fuel (st : identify_state A) ep m : shows st ep m →
  does st ep m (AttributeChanged (S (S fuel)) ep IdentifyTime_Id st) (fst (written (m_time m) (m_object m))) (snd (written (m_time m) (m_object m))).
Proof.
  intros Hs. unfold written. destruct (effect_changed (m_object m)) eqn:He; [|by apply counting_does].
  cbn [AttributeChanged]. change (negb (IdentifyTime_Id =? IdentifyTime_Id)) with false. cbv iota.
  rewrite (sh_inst _ _ _ Hs). cbv zeta. rewrite (shows_time st ep m 0 Hs). cbn [is_success negb].
  fold (effect_changed (m_object m)). rewrite He.
  destruct (object_does st ep m take_target Hs) as (st1 & [= <-] & H1 & L1 & U1 & A1); [done|done|].
  set (st1 := on_identify _ take_target st) in *. change (on_identify _ _ st) with st1.
  rewrite (shows_deref st1 ep _ H1 : deref st1 (id_addr (m_object m)) = _).
  assert (effect_changed (take_target (m_object m)) = false) as He1.
  { unfold effect_changed, take_target. cbn. by rewrite Z.eqb_refl. }
  destruct (cancel_does fuel st1 ep _ (m_time m) H1 He1) as (st2 & E2 & H2 & L2 & U2 & A2).
  assert (cancelled (m_time m) (m_object (m <| m_object := take_target (m_object m) |>)) = cancelled (m_time m) (m_object m)) as Hc by reflexivity.
  rewrite Hc in *. exists st2. split; [exact E2|]. split_and!; [exact H2| |by etrans|exact A2]. rewrite L2, L1, app_nil_r. done.
Qed.

Lemma set_time_does fuel (st : identify_state A) ep m t : (2 ≤ fuel)%nat → shows st ep m → in_u 16 t →
  ∃ st', IdentifyTime_Set fuel st ep t = Some (EMBER_ZCL_STATUS_SUCCESS, st') ∧
    does st ep m (Some st') (fst (written t (m_object m))) (snd (written t (m_object m))).
Proof.
  intros Hf Hs Ht. destruct fuel as [|[|fuel]]; [lia|lia|]. apply set_does; [done|done|]. intros st1 Hs1. exact (written_does fuel st1 ep _ Hs1).
Qed.
(** ** One input, many inputs *)
Definition identify_ok (m : machine) (what : identify_input) : Prop :=
  match what with WriteTime t => in_u 16 t | TriggerEffect _ _ => True | Tick => m_pending m = true end.

Lemma trigger_does (st : identify_state A) ep m e v : shows st ep m →
  ∃ st', emberAfIdentifyClusterTriggerEffectCallback ep e v st = Some (true, Some EMBER_ZCL_STATUS_SUCCESS, st') ∧
    does st ep m (Some st') (fst (abs_identify (TriggerEffect e v) m)) (snd (abs_identify (TriggerEffect e v) m)).
Proof.
  intros Hs. unfold emberAfIdentifyClusterTriggerEffectCallback, abs_identify. rewrite (sh_inst _ _ _ Hs).
  destruct (object_does st ep m (fun i => i <| mTargetEffectIdentifier := e |> <| mEffectVariant := v |>) Hs) as (st1 & [= <-] & H1 & L1 & U1 & A1);
    [done|done|].
  set (st1 := on_identify _ _ st) in *. cbv zeta.
  change (mOnEffectIdentifier (((m_object m) <| mTargetEffectIdentifier := e |>) <| mEffectVariant := v |>)) with (mOnEffectIdentifier (m_object m)).
  destruct (mOnEffectIdentifier (m_object m)) as [f|] eqn:Hf.
  2: { exists st1. split; [done|]. by exists st1. }
  rewrite (shows_time st1 ep _ 0 H1). cbn [is_success andb m_time update eta_machine]. rewrite Z.eqb_sym.
  destruct (m_time m =? 0); [|by exists st1; split; [done|exists st1]].
  destruct (object_does st1 ep _ take_target H1) as (st2 & [= <-] & H2 & L2 & U2 & A2); [done|done|].
  destruct (effect_does _ ep _ H2) as (st3 & E3 & H3 & L3 & U3 & A3). exists st3. split.
  - exact (f_equal (fun o => let! st := o in Some (true, Some EMBER_ZCL_STATUS_SUCCESS, st)) E3).
  - exists st3. split_and!; [done|exact H3| |by repeat (etrans; [eassumption|])|exact A3]. rewrite L3. cbn [id_log on_identify update eta_identify_state] in *.
    by rewrite L1, app_nil_r.
Qed.

Lemma tick_does fuel (st : identify_state A) ep m : (2 ≤ fuel)%nat → shows st ep m → m_pending m = true →
  does st ep m (timer_fires fuel (id_addr (m_object m)) st) (fst (abs_identify Tick m)) (snd (abs_identify Tick m)).
Proof.
  intros Hf Hs Hp. unfold timer_fires. rewrite (sh_timer _ _ _ Hs), Hp. unfold onIdentifyClusterTick.
  destruct (timer_does st ep m false Hs) as (st1 & [= <-] & H1 & L1 & U1 & A1).
  rewrite (shows_deref _ ep _ H1 : deref (identify_CancelTimer (id_addr (m_object m)) st) (id_addr (m_object m)) = _).
  destruct (inst_endpoint _ _ _ (sh_inst _ _ _ H1)) as [-> _]. rewrite (shows_time _ ep _ 0 H1). cbn [is_success andb m_time update eta_machine].
  pose proof (sh_range _ _ _ Hs) as Hr. unfold in_u in Hr. rewrite Z.eqb_sym. unfold abs_identify. destruct (m_time m =? 0) eqn:E; cbn [negb].
  - eexists. split; [reflexivity|]. split_and!; [exact H1|exact L1|exact U1|done].
  - assert (u16 (m_time m - 1) = m_time m - 1) as -> by (unfold wrap; apply Z.mod_small; lia).
    destruct (set_time_does fuel _ ep _ (m_time m - 1) Hf H1) as (st2 & -> & st2' & [= <-] & H2 & L2 & U2 & A2); [unfold in_u; lia|].
    exists st2. split; [done|]. split_and!; [exact H2| |by etrans|exact A2]. rewrite L2, L1. by rewrite app_nil_r.
Qed.

Lemma serve_does fuel (st : identify_state A) ep m what : (2 ≤ fuel)%nat → shows st ep m → identify_ok m what →
  does st ep m (identify_serve fuel ep what st) (fst (abs_identify what m)) (snd (abs_identify what m)).
Proof.
  intros Hf Hs Hok. destruct what as [t|e v|]; cbn [identify_serve].
  - unfold emberAfIdentifyClusterIdentifyCallback. destruct (set_time_does fuel st ep m t Hf Hs Hok) as (st' & -> & Hd). exact Hd.
  - destruct (trigger_does st ep m e v Hs) as (st' & -> & Hd). exact Hd.
  - rewrite (sh_inst _ _ _ Hs). by apply tick_does.
Qed.

(** The machine in step with itself: identifying, counting and the timer go together. *)
Definition consistent (m : machine) : Prop :=
  is_Some (mOnIdentifyStart (m_object m)) ∧ is_Some (mOnIdentifyStop (m_object m)) ∧
  mActive (m_object m) = (0 <? m_time m) ∧ m_pending m = (0 <? m_time m).

Lemma consistent_step m what : consistent m → in_u 16 (m_time m) → identify_ok m what → consistent (fst (abs_identify what m)).
Proof.
  intros ([s Hs] & [p Hp] & Ha & Ht) Hr Hok.
  assert (∀ t i, mOnIdentifyStart i = Some s → mOnIdentifyStop i = Some p → consistent (fst (written t i))) as Hw.
  { intros t i Hsi Hpi. unfold written, cancelled, counting, consistent, started, stopped. destruct (effect_changed i).
    - unfold take_target. cbn. rewrite Hsi, Hpi.
      destruct (_ && _); [destruct (mActive i)|]; cbn; rewrite ?Hsi, ?Hpi; split_and!; by eexists || done.
    - rewrite Hsi, Hpi. destruct (0 <? t) eqn:Et; [destruct (mActive i) eqn:Eai|]; cbn; rewrite ?Hsi, ?Hpi, ?Et; split_and!; by eexists || done. }
  destruct what as [t|e v|]; cbn [abs_identify]; [by apply Hw| |].
  - cbv zeta. cbn [mOnEffectIdentifier update eta_identify]. unfold consistent. destruct (mOnEffectIdentifier _); [destruct (_ =? _)|]; cbn; rewrite Hs, Hp; (split_and!; [by eexists|by eexists|exact Ha|exact Ht]).
  - cbn in Hok. unfold in_u in Hr. destruct (Z.eqb_spec (m_time m) 0) as [E|E]; [|by apply Hw]. by rewrite E, Hok in Ht.
Qed.

Lemma shows_next fuel (st : identify_state A) ep m what : (2 ≤ fuel)%nat → shows st ep m → identify_ok m what →
  ∃ st', identify_serve fuel ep what st = Some st' ∧ shows st' ep (fst (abs_identify what m)) ∧
    id_log st' = id_log st ++ snd (abs_identify what m) ∧ untouched ep (id_addr (m_object m)) st st'.
Proof. intros Hf Hs Hok. destruct (serve_does fuel st ep m what Hf Hs Hok) as (st' & ? & ? & ? & ? & _). by exists st'. Qed.

(** C14: The server of the Identify cluster implements the abstract machine: every
    command, write of the attribute and timer runs to the end although the callback
    of a write writes again (a nesting of two is enough), answers with success,
    leaves the endpoint at the machine's next state with the callbacks in the order
    the machine gives, and touches no other endpoint, timer or attribute.  With both
    callbacks, identifying, a positive time and the pending timer stay together. *)
Theorem identify_refines fuel (st : identify_state A) ep m what : (2 ≤ fuel)%nat → shows st ep m → identify_ok m what →
  (∃ st', identify_serve fuel ep what st = Some st' ∧ shows st' ep (fst (abs_identify what m)) ∧
     id_log st' = id_log st ++ snd (abs_identify what m) ∧ untouched ep (id_addr (m_object m)) st st') ∧
  (consistent m → consistent (fst (abs_identify what m))) ∧
  (∀ t, what = WriteTime t → ∃ st', emberAfIdentifyClusterIdentifyCallback fuel ep t st = Some (true, Some EMBER_ZCL_STATUS_SUCCESS, st')).
Proof.
  intros Hf Hs Hok. split_and!; [by apply shows_next| |].
  - intros Hc. apply consistent_step; [done|exact (sh_range _ _ _ Hs)|done].
  - intros t ->. unfold emberAfIdentifyClusterIdentifyCallback. destruct (set_time_does fuel st ep m t Hf Hs Hok) as (st' & -> & _). by eexists.
Qed.

Fixpoint inputs_ok (m : machine) (whats : list identify_input) : Prop :=
  match whats with
  | [] => True
  | what :: whats => identify_ok m what ∧ inputs_ok (fst (abs_identify what m)) whats
  end.

Lemma serves_shows fuel (st : identify_state A) ep m whats : (2 ≤ fuel)%nat → shows st ep m → inputs_ok m whats →
  ∃ st', identify_serves fuel ep whats st = Some st' ∧ shows st' ep (fst (abs_identifies whats m)) ∧
    id_log st' = id_log st ++ snd (abs_identifies whats m).
Proof.
  intros Hf. revert st m. induction whats as [|what whats IH]; intros st m Hs Hok.
  - exists st. by rewrite app_nil_r.
  - destruct Hok as [Hw Hok]. destruct (shows_next fuel st ep m what Hf Hs Hw) as (st1 & E1 & H1 & L1 & _).
    destruct (IH st1 _ H1 Hok) as (st2 & E2 & H2 & L2). exists st2. cbn [identify_serves abs_identifies]. rewrite E1. split; [done|].
    destruct (abs_identify what m) as [m1 e1]. simpl in *. destruct (abs_identifies whats m1) as [m2 e2]. simpl in *.
    split; [done|]. by rewrite L2, L1, app_assoc.
Qed.

Lemma abs_ticks i s p : mOnIdentifyStart i = Some s → mOnIdentifyStop i = Some p → effect_changed i = false → mActive i = true →
  ∀ k t, 0 < t < 2 ^ 16 → Z.of_nat k ≤ t →
  let m := {| m_object := i; m_time := t; m_pending := true |} in
  inputs_ok m (replicate k Tick) ∧
  abs_identifies (replicate k Tick) m =
    ({| m_object := i <| mActive := Z.of_nat k <? t |>; m_time := t - Z.of_nat k; m_pending := Z.of_nat k <? t |},
     if Z.of_nat k =? t then [OnIdentifyStop p (id_addr i)] else []).
Proof.
  intros Hs Hp He Ha k. induction k as [|k IH]; intros t Ht Hk m.
  - split; [done|]. cbn [replicate abs_identifies]. rewrite (proj2 (Z.ltb_lt _ _)), (proj2 (Z.eqb_neq _ _)), Z.sub_0_r by lia.
    unfold m. destruct i. simpl in Ha. by subst.
  - cbn [replicate inputs_ok abs_identifies]. unfold abs_identify, m. cbn [m_time m_object m_pending]. rewrite (proj2 (Z.eqb_neq t 0)) by lia.
    unfold written, counting. rewrite He. destruct (Z.ltb_spec 0 (t - 1)) as [Ht1|Ht1].
    + assert (started i = (i, [])) as -> by (unfold started; by rewrite Hs, Hp, Ha). cbn [fst snd].
      destruct (IH (t - 1) ltac:(lia) ltac:(lia)) as [H1 H2]. split; [done|]. rewrite H2.
      assert ((Z.of_nat k <? t - 1) = (Z.of_nat (S k) <? t)) as -> by (apply Bool.eq_iff_eq_true; rewrite !Z.ltb_lt; lia).
      assert ((Z.of_nat k =? t - 1) = (Z.of_nat (S k) =? t)) as -> by (apply Bool.eq_iff_eq_true; rewrite !Z.eqb_eq; lia).
      assert (t - 1 - Z.of_nat k = t - Z.of_nat (S k)) as -> by lia. done.
    + assert (t = 1) as -> by lia. assert (k = O) as -> by lia. unfold stopped. rewrite Hp. cbn. done.
Qed.

(** C38: An identification ends: after [Identify] with a time [t] it runs for exactly
    [t] ticks of a second, shows the remaining time in between, and the application
    is told once to start and once, at the last tick, to stop. *)
Theorem identify_expires fuel (st : identify_state A) ep m s p t k : (2 ≤ fuel)%nat → shows st ep m →
  mOnIdentifyStart (m_object m) = Some s → mOnIdentifyStop (m_object m) = Some p → effect_changed (m_object m) = false →
  mActive (m_object m) = false → 0 < t < 2 ^ 16 → Z.of_nat k ≤ t →
  ∃ st' m', identify_serves fuel ep (WriteTime t :: replicate k Tick) st = Some st' ∧ shows st' ep m' ∧
    m_time m' = t - Z.of_nat k ∧ mActive (m_object m') = (Z.of_nat k <? t) ∧ m_pending m' = (Z.of_nat k <? t) ∧
    id_log st' = id_log st ++ OnIdentifyStart s (id_addr (m_object m)) ::
      if Z.of_nat k =? t then [OnIdentifyStop p (id_addr (m_object m))] else [].
Proof.
  intros Hf Hsh Hs Hp He Ha Ht Hk. set (i := (m_object m) <| mActive := true |>).
  assert (abs_identify (WriteTime t) m = ({| m_object := i; m_time := t; m_pending := true |}, [OnIdentifyStart s (id_addr (m_object m))])) as E.
  { cbn [abs_identify]. unfold written, counting. rewrite He, (proj2 (Z.ltb_lt _ _)) by lia. unfold started. by rewrite Hs, Hp, Ha. }
  destruct (abs_ticks i s p Hs Hp He eq_refl k t Ht Hk) as [Hok Hticks].
  destruct (serves_shows fuel st ep m (WriteTime t :: replicate k Tick) Hf Hsh) as (st' & E' & Hs' & Hl).
  { split; [unfold identify_ok, in_u; lia|]. by rewrite E. }
  cbn [abs_identifies] in Hs', Hl. rewrite E, Hticks in Hs', Hl. exists st'. eexists. split_and!; [exact E'|exact Hs'|done|done|done|exact Hl].
Qed.

Lemma cancelled_silent t i s p : mOnIdentifyStart i = Some s → mOnIdentifyStop i = Some p → mOnEffectIdentifier i = None →
  mActive i = false →
  cancelled t i = ({| m_object := take_target i; m_time := 0; m_pending := false |},
    (if (mTargetEffectIdentifier i =? kFinishEffect) && (0 <? t) then [OnIdentifyStart s (id_addr i)] else []) ++
    [OnIdentifyStop p (id_addr i); OnIdentifyStop p (id_addr i)]).
Proof.
  destruct i. cbn. intros -> -> -> ->. unfold cancelled, started, stopped, effect_of, take_target. cbn.
  destruct (_ && _); cbn; by destruct (_ && _).
Qed.

(** An effect requested while nothing is identified costs the next
    identification: on an object without an effect callback, as the relay's, after
    [TriggerEffect] with another effect the command [Identify] answers with success
    and is cancelled at once, whatever its time, without telling the application to
    start (but for the finish effect, which starts and stops); the command after it
    works again. *)
Theorem effect_cancels_next fuel (st : identify_state A) ep m s p e v t : (2 ≤ fuel)%nat → shows st ep m →
  mOnIdentifyStart (m_object m) = Some s → mOnIdentifyStop (m_object m) = Some p → mOnEffectIdentifier (m_object m) = None →
  mActive (m_object m) = false → e ≠ mCurrentEffectIdentifier (m_object m) → in_u 16 t →
  ∃ st' m', identify_serves fuel ep [TriggerEffect e v; WriteTime t] st = Some st' ∧ shows st' ep m' ∧
    m_time m' = 0 ∧ mActive (m_object m') = false ∧ m_pending m' = false ∧ effect_changed (m_object m') = false ∧
    let start := if (e =? kFinishEffect) && (0 <? t) then [OnIdentifyStart s (id_addr (m_object m))] else [] in
    let stop := OnIdentifyStop p (id_addr (m_object m)) in
    id_log st' = id_log st ++ start ++ [stop; stop].
Proof.
  intros Hf Hsh Hs Hp Hn Ha He Ht.
  set (i := (m_object m) <| mTargetEffectIdentifier := e |> <| mEffectVariant := v |>).
  assert (abs_identify (TriggerEffect e v) m = (m <| m_object := i |>, [])) as E1.
  { cbn [abs_identify]. cbv zeta. fold i. by assert (mOnEffectIdentifier i = None) as -> by exact Hn. }
  destruct (serves_shows fuel st ep m [TriggerEffect e v; WriteTime t] Hf Hsh) as (st' & E' & Hs' & Hl);
    [split; [done|split; [exact Ht|done]]|].
  cbn [abs_identifies] in Hs', Hl. rewrite E1 in Hs', Hl. cbn [abs_identify m_object update eta_machine] in Hs', Hl.
  assert (effect_changed i = true) as Hc by (unfold effect_changed, i; cbn; by rewrite (proj2 (Z.eqb_neq _ _))).
  unfold written in Hs', Hl. rewrite Hc, (cancelled_silent t i s p Hs Hp Hn Ha) in Hs', Hl. exists st'. eexists.
  split_and!; [exact E'|exact Hs'|done|done|done|unfold effect_changed; cbn; by rewrite Z.eqb_refl|]. cbv zeta. cbn [snd app] in Hl. by rewrite app_nil_r in Hl.
Qed.
End refinement.

(** ** The relay's object ([sIdentify] in [AppTask.cpp]) *)
Module IdentifyDemo.
Import MapStore.

Definition kLightOutput : Z := 1.
Definition attributes : map_store := {[(1, Identify_Id, IdentifyTime_Id) := [0; 0]; (1, Identify_Id, IdentifyType_Id) := [0]]}.
Definition sIdentify : identify_state map_store :=
  new_Identify 10 1 (Some 1%nat) (Some 2%nat) kLightOutput None kBlink 0
    {| id_attrs := attributes; firstIdentify := []; id_timers := ∅; id_log := [] |}.
Definition resting : machine :=
  {| m_object := {| id_addr := 10; mEndpoint := 1; mOnIdentifyStart := Some 1%nat; mOnIdentifyStop := Some 2%nat; mIdentifyType := kLightOutput;
                    mOnEffectIdentifier := None; mCurrentEffectIdentifier := kBlink; mTargetEffectIdentifier := kBlink; mEffectVariant := 0;
                    mActive := false |};
     m_time := 0; m_pending := false |}.

Lemma demo_shows : shows sIdentify 1 resting.
Proof.
  split; [done|repeat constructor; by intros ?%elem_of_nil| |done|done|done].
  exists [0; 0]. split_and!; [done|done|repeat constructor; done].
Qed.

Lemma demo_init : ∃ st', emberAfIdentifyClusterServerInitCallback 2 1 sIdentify = Some st' ∧
  store_read (id_attrs st') 1 Identify_Id IdentifyType_Id 1 = Some (EMBER_ZCL_STATUS_SUCCESS, [kLightOutput]).
Proof. eexists. split; reflexivity. Qed.

Lemma identify_refines_witness : ∃ st', identify_serve 2 1 (WriteTime 3) sIdentify = Some st' ∧
  id_log st' = [OnIdentifyStart 1 10] ∧ consistent (fst (abs_identify (WriteTime 3) resting)).
Proof.
  destruct (identify_refines 2 sIdentify 1 resting (WriteTime 3) (le_n 2) demo_shows) as ((st' & E & _ & Hl & _) & Hc & _); [done|].
  exists st'. split; [exact E|]. split; [exact Hl|]. apply Hc. split; [by eexists|]. split; [by eexists|done].
Defined.

Lemma identify_expires_witness : ∃ st' m', identify_serves 2 1 (WriteTime 3 :: replicate 3 Tick) sIdentify = Some st' ∧ shows st' 1 m' ∧
  m_time m' = 0 ∧ id_log st' = [OnIdentifyStart 1 10; OnIdentifyStop 2 10].
Proof.
  destruct (identify_expires 2 sIdentify 1 resting 1 2 3 3 (le_n 2) demo_shows eq_refl eq_refl eq_refl eq_refl) as (st' & m' & E & Hs & Ht & _ & _ & Hl);
    [lia|lia|]. exists st', m'. split; [exact E|]. split; [exact Hs|]. split; [exact Ht|exact Hl].
Defined.

(** Breathe, then a minute of identification: nothing happens. *)
Lemma effect_cancels_next_witness : ∃ st' m', identify_serves 2 1 [TriggerEffect 1 0; WriteTime 60] sIdentify = Some st' ∧ shows st' 1 m' ∧
  m_time m' = 0 ∧ id_log st' = [OnIdentifyStop 2 10; OnIdentifyStop 2 10].
Proof.
  destruct (effect_cancels_next 2 sIdentify 1 resting 1 2 1 0 60 (le_n 2) demo_shows eq_refl eq_refl eq_refl eq_refl) as (st' & m' & E & Hs & Ht & _ & _ & _ & Hl);
    [done|done|]. exists st', m'. split; [exact E|]. split; [exact Hs|]. split; [exact Ht|exact Hl].
Defined.
End IdentifyDemo.
