(* ===== verification/RelayDevice.v ===== *)
(** * RelayDevice: the relay's endpoints on the attribute table

    A concrete device: the three relay endpoints of
    [src/examples/lighting-app/thirdreality/data_model/lighting-app-wifi.zap] with
    their On/Off server clusters (attributes, storage and defaults as in that
    file, the list attributes and the other clusters left out), its attributes in
    memory as they are after a first boot.  It runs the theorems of the servers on
    the attribute table, so they are not vacuous. *)
From S2P Require Import Prelude Zcl EndpointTable ClusterQueries ChipError Persistence AttributeStorage AttributeTable StoreInterface OnOffServer.

Module RelayDemo.
Import FlashDemo.
Import StorageDemo(attr, entry).
Abbreviation provider := (DefaultAttributePersistenceProvider (KvsPersistentStorageDelegate (gmap string bytes))).

(** The attributes of the On/Off cluster, [k] the index of the first of them in
    [generatedAttributes]. *)
Definition relay_attributes (k : nat) : list EmberAfAttributeMetadata :=
  [attr (DMValue 0) 0 1 ZCL_BOOLEAN_ATTRIBUTE_TYPE 0x02 k;
   attr (DMValue 1) 0x4000 1 ZCL_BOOLEAN_ATTRIBUTE_TYPE 0 (k + 1);
   attr (DMValue 0) 0x4001 2 ZCL_INT16U_ATTRIBUTE_TYPE 0x01 (k + 2);
   attr (DMValue 0) 0x4002 2 ZCL_INT16U_ATTRIBUTE_TYPE 0x01 (k + 3);
   attr (DMMinMax {| mm_default := DefValue 0xFF; mm_min := DefValue 0; mm_max := DefValue 2 |})
        0x4003 1 ZCL_ENUM8_ATTRIBUTE_TYPE 0x47 (k + 4);
   attr (DMValue 1) 0xFFFC 4 0x1B 0 (k + 5);
   attr (DMValue 4) 0xFFFD 2 ZCL_INT16U_ATTRIBUTE_TYPE 0 (k + 6)].
Definition relay_cluster (k : nat) : EmberAfCluster :=
  {| clusterId := OnOff_Id; attributes := relay_attributes k; clusterSize := 13; cl_mask := 0x51; functions := [0; 1]%nat |}.
Definition relay_endpoint (id : EndpointId) (k : nat) : EmberAfDefinedEndpoint :=
  entry id {| cluster := [relay_cluster k]; endpointSize := 13 |}.
Definition relay_config : storage_config :=
  {| FIXED_ENDPOINT_COUNT := 3; generatedAttributes := relay_attributes 0 ++ relay_attributes 7 ++ relay_attributes 14;
     ATTRIBUTE_LARGEST := 4; callbacks := default_callbacks |}.
Definition booted : bytes := [0; 1; 0; 0; 0; 0; 255; 1; 0; 0; 0; 4; 0].
Definition relay_store : attribute_store provider :=
  {| table := {| emAfEndpoints := [relay_endpoint 1 0; relay_endpoint 2 7; relay_endpoint 3 14]; emberEndpointCount := 3;
                 gAttributeAccessOverrides := []; ep_log := [] |};
     attributeData := booted ++ booted ++ booted; singletonAttributeData := [];
     gAttributeSaver := Some (on_flash ∅) |}.

Lemma relay_table : table_ok (table relay_store).
Proof.
  split; [vm_compute; split; congruence|done|].
  change (Forall endpoint_ok [relay_endpoint 1 0; relay_endpoint 2 7; relay_endpoint 3 14]).
  repeat (apply Forall_cons; split; [intros _; apply Forall_singleton; vm_compute; lia|]). apply Forall_nil_2.
Qed.

Lemma relay_cluster_ok k : cluster_layout_ok (relay_cluster k).
Proof. split; [reflexivity|]. repeat (apply Forall_cons; split; [vm_compute; split; congruence|]). apply Forall_nil_2. Qed.

Lemma relay_layout : layout_ok relay_config relay_store.
Proof.
  split.
  - vm_compute. repeat (constructor; [by intros ?%list_elem_of_In; vm_compute in *; intuition congruence|]). constructor.
  - change (Forall endpoint_layout_ok [relay_endpoint 1 0; relay_endpoint 2 7; relay_endpoint 3 14]).
    repeat (apply Forall_cons; split; [split; [reflexivity|by apply Forall_singleton, relay_cluster_ok]|]). apply Forall_nil_2.
  - split; [|vm_compute; split; congruence|repeat constructor; done|].
    + vm_compute. repeat constructor; discriminate.
    + intros i x Hx Hl. do 21 (destruct i as [|i]; [apply (inj Some) in Hx as <-;
        (split; [reflexivity|split; [vm_compute; congruence|exact I]])|]). discriminate Hx.
  - split; [|vm_compute; split; congruence|constructor|].
    + vm_compute. repeat constructor; discriminate.
    + intros i x Hx [H1 H2]. do 21 (destruct i as [|i]; [apply (inj Some) in Hx as <-; discriminate H1|]). discriminate Hx.
  - intros x Hx Hs. apply list_elem_of_In in Hx. vm_compute in Hx.
    repeat (destruct Hx as [<-|Hx]; [discriminate Hs|]). destruct Hx.
Qed.

(** ** The server of the relay *)
Lemma accepting : hooks_accept default_hooks.
Proof. by split. Qed.

#[local] Instance relay_iface : AttributeStore (at_state provider) := table_store relay_config default_hooks.
#[local] Instance relay_laws : AttributeStoreLaws (at_state provider) := table_store_laws relay_config default_hooks accepting.

Definition relay_build : onoff_build :=
  {| EMBER_AF_PLUGIN_LEVEL_CONTROL := true; IGNORE_ON_OFF_CLUSTER_START_UP_ON_OFF := false;
     ON_OFF_CLUSTER_SERVER_ENDPOINT_COUNT := 3 |}.
Definition no_level (ep : EndpointId) (on : bool) (st : onoff_state (at_state provider)) : option (onoff_state (at_state provider)) := None.
Definition relay_state : onoff_state (at_state provider) :=
  {| attrs := {| store := relay_store; at_log := [] |};
     gEventControls := replicate 3 {| ec_endpoint := 0; ec_handler := NoCallback |};
     timers := ∅; nextDesiredOnWithTimedOffTimestamp := 0;
     firstEffect := [{| effect_addr := 100; mEndpoint := 1; mOffWithEffectTrigger := Some 7%nat; mEffectIdentifier := 0;
                        mEffectVariant := 0 |}];
     onoff_log := [] |}.
Definition shown : onoff_abs :=
  {| ab_view := {| v_on := false; v_gsc := true; v_onTime := 0; v_offWait := 0; v_startUp := 0xFF; v_features := 1 |};
     ab_timer := None |}.

Lemma relay_readable ep id n am off :
  ep ≠ kInvalidEndpointId → locate relay_config relay_store ep OnOff_Id id = Some (inr (am, off, false)) →
  is_internal am → IsSingleton am = false → am_size am = Z.of_nat n → plain_type (attributeType am) →
  readable_attr relay_config relay_store ep OnOff_Id id n.
Proof.
  intros Hep Hl Hi Hs Hz Hp. split; [apply relay_layout|]. split; [apply relay_table|]. split; [done|].
  split; [repeat constructor; discriminate|]. split; [done|]. by exists am, off.
Qed.

Lemma relay_plain ep id n am off :
  ep ≠ kInvalidEndpointId → locate relay_config relay_store ep OnOff_Id id = Some (inr (am, off, false)) →
  is_internal am → IsSingleton am = false → am_size am = Z.of_nat n → plain_type (attributeType am) →
  Z.land (am_mask am) ATTRIBUTE_MASK_MIN_MAX = 0 →
  plain_attr relay_config relay_store ep OnOff_Id id n.
Proof.
  intros Hep Hl Hi Hs Hz Hp Hm. split; [by eapply relay_readable|]. split; [done|]. intros am' off'. rewrite Hl. congruence.
Qed.

Ltac concrete_attr L := eapply L; [discriminate|reflexivity|..]; repeat split; reflexivity.

Lemma relay_view ep : ep = 1 ∨ ep = 2 ∨ ep = 3 → view (attrs relay_state) ep (ab_view shown).
Proof.
  intros Hep.
  assert (∀ id n l, readable_attr relay_config relay_store ep OnOff_Id id n →
    store_read (attrs relay_state) ep OnOff_Id id n = Some (EMBER_ZCL_STATUS_SUCCESS, l) →
    holds (attrs relay_state) ep OnOff_Id id n l) as Hh by done.
  split; [split_and!| | | | | |];
    try (eexists; split; [apply Hh|]); try (eexists; split; [apply Hh|]).
  all: destruct Hep as [->|[->| ->]].
  all: try concrete_attr relay_plain. all: try concrete_attr relay_readable.
  all: try (vm_compute; reflexivity). all: vm_compute; try done.
Qed.

Lemma relay_refines ep i : (ep, i) ∈ [(1, 0%nat); (2, 1%nat); (3, 2%nat)] → refines relay_build relay_state ep i shown.
Proof.
  intros Hin. assert (ep = 1 ∨ ep = 2 ∨ ep = 3) as Hep by (repeat (apply elem_of_cons in Hin as [[= -> ->]|Hin]; [lia|]); inversion Hin).
  split; [by apply relay_view| | | |done];
    (repeat (apply elem_of_cons in Hin as [[= -> ->]|Hin]; [vm_compute; done || lia|]); inversion Hin).
Qed.

Lemma relay_level ep : ep ∈ [1; 2; 3] → no_level_effect relay_build (attrs relay_state) ep false.
Proof. intros Hin. right. repeat (apply elem_of_cons in Hin as [->|Hin]; [reflexivity|]). inversion Hin. Qed.

(** ** Witnesses *)
Lemma compare_values_correct_witness :
  emberAfCompareValues (Some [0xFE; 0xFF]) [1; 0] 2 true = Some (three_way (-2) 1) ∧
  emberAfCompareValues None [1; 0] 2 false = Some (three_way 0 1).
Proof.
  split.
  - rewrite (compare_values_correct (Some [0xFE; 0xFF]) [1; 0] 2 true).
    + reflexivity.
    + repeat constructor; vm_compute; congruence.
    + simpl. lia.
    + split; [repeat constructor; vm_compute; congruence|simpl; lia].
  - rewrite (compare_values_correct None [1; 0] 2 false).
    + reflexivity.
    + repeat constructor; vm_compute; congruence.
    + simpl. lia.
    + exact I.
Defined.

(** [StartUpOnOff] is 0 to 2, or null. *)
Definition am_StartUpOnOff : EmberAfAttributeMetadata := default (attr (DMValue 0) 0 0 0 0 0) (relay_attributes 0 !! 4%nat).

Lemma range_check_correct_witness :
  out_of_bounds am_StartUpOnOff (Some [3]) = Some true ∧ out_of_bounds am_StartUpOnOff (Some [0xFF]) = Some false.
Proof.
  assert (∀ x, in_u 8 x → out_of_bounds am_StartUpOnOff (Some [x]) =
    Some (negb ((0 <=? x) && (x <=? 2)) && negb (x =? 255))) as H.
  { intros x Hx. rewrite (range_check_correct am_StartUpOnOff {| mm_default := DefValue 0xFF; mm_min := DefValue 0; mm_max := DefValue 2 |}
      [x] (Some [0; 0]) (Some [2; 0])).
    - assert (int_value (Some [x]) 1 false = x) as Hv by (unfold int_value; simpl; lia).
      change (am_size am_StartUpOnOff) with 1. change (emberAfIsTypeSigned (attributeType am_StartUpOnOff)) with false.
      rewrite Hv. reflexivity.
    - reflexivity.
    - reflexivity.
    - cbn. lia.
    - constructor; [exact Hx|constructor].
    - cbn. lia.
    - reflexivity.
    - reflexivity.
    - split; [repeat constructor; vm_compute; congruence|cbn; lia].
    - split; [repeat constructor; vm_compute; congruence|cbn; lia]. }
  split; [apply H; vm_compute; split; congruence|apply H; vm_compute; split; congruence].
Defined.

Definition written : at_state provider :=
  default (attrs relay_state) (snd <$> emAfWriteAttribute relay_config default_hooks (attrs relay_state) 1 OnOff_Id 0 (Some [1])
    ZCL_BOOLEAN_ATTRIBUTE_TYPE true false).

(** Relay 1 is turned on: the two calls find the memory and the storage with the 1. *)
Lemma write_all_or_nothing_witness :
  emAfWriteAttribute relay_config default_hooks (attrs relay_state) 1 OnOff_Id 0 (Some [1]) ZCL_BOOLEAN_ATTRIBUTE_TYPE true false =
    Some (EMBER_ZCL_STATUS_SUCCESS, written) ∧
  ∃ am off dyn w f,
    locate relay_config relay_store 1 OnOff_Id 0 = Some (inr (am, off, dyn)) ∧
    write_attribute relay_config relay_store 1 OnOff_Id 0 (Some [1]) = Some (EMBER_ZCL_STATUS_SUCCESS, w) ∧
    emAfSaveAttributeToStorageIfNeeded relay_config w (Some [1]) 1 OnOff_Id am = Some (store written) ∧
    attributeData (store written) ≠ attributeData relay_store ∧
    at_log written =
      change_calls (store written) {| path_ep := 1; path_cl := OnOff_Id; path_attr := 0 |} ZCL_BOOLEAN_ATTRIBUTE_TYPE
        (am_size am) (Some [1]) f.
Proof.
  assert (E : emAfWriteAttribute relay_config default_hooks (attrs relay_state) 1 OnOff_Id 0 (Some [1]) ZCL_BOOLEAN_ATTRIBUTE_TYPE
    true false = Some (EMBER_ZCL_STATUS_SUCCESS, written)) by (vm_compute; reflexivity).
  split; [exact E|].
  assert (Hne : attributeData (store written) ≠ attributeData relay_store) by (vm_compute; discriminate).
  destruct (write_all_or_nothing relay_config default_hooks _ _ _ _ _ _ _ _ _ _ E)
    as [[H _]|(_ & _ & am & off & dyn & w & f & Hl & _ & _ & Hw & Hs & _ & Hlog)].
  - exfalso. apply Hne. rewrite H. reflexivity.
  - exists am, off, dyn, w, f. split; [exact Hl|]. split; [exact Hw|]. split; [exact Hs|]. split; [exact Hne|exact Hlog].
Defined.

Lemma onoff_simulation_witness :
  ∃ st', serve relay_build no_level 5 1 0 (InCommand Toggle_Id) relay_state = Some st' ∧
    refines relay_build st' 1 0 (abs_turn_on shown) ∧ refines relay_build st' 2 1 shown.
Proof.
  destruct (onoff_simulation relay_build no_level 5 relay_state 1 0 shown (InCommand Toggle_Id)) as (st' & w & Hs & _ & R & Ho).
  - apply relay_refines. by repeat constructor.
  - apply relay_level. by repeat constructor.
  - reflexivity.
  - exact I.
  - exists st'. split; [exact Hs|]. split; [exact R|]. apply Ho; [discriminate|discriminate|]. apply relay_refines. by repeat constructor.
Defined.

Lemma timed_off_turns_off_witness :
  ∃ st1 st2, OnWithTimedOffCommand relay_build no_level 1000 relay_state 2 0 3 10 = Some (EMBER_ZCL_STATUS_SUCCESS, st1) ∧
    getOnOffValue st1 2 false = Some (EMBER_ZCL_STATUS_SUCCESS, true) ∧
    fire relay_build no_level 1 [1100; 1230; 1310] st1 = Some st2 ∧
    getOnOffValue st2 2 false = Some (EMBER_ZCL_STATUS_SUCCESS, false).
Proof.
  destruct (timed_off_turns_off relay_build no_level 1000 relay_state 2 1 shown 0 3 10 [1100; 1230; 1310] 1400)
    as (st1 & st2 & H1 & H2 & _ & H3 & H4 & _).
  - apply relay_refines. by repeat constructor.
  - apply relay_level. by repeat constructor.
  - reflexivity.
  - reflexivity.
  - right. reflexivity.
  - lia.
  - lia.
  - vm_compute. reflexivity.
  - vm_compute. discriminate.
  - exists st1, st2. split; [exact H1|]. split; [exact H2|]. split; [exact H3|exact H4].
Defined.

Lemma off_with_effect_correct_witness :
  ∃ st1 st2, onCommand relay_build no_level relay_state 1 = Some (EMBER_ZCL_STATUS_SUCCESS, st1) ∧
    offWithEffectCommand relay_build no_level st1 1 1 2 = Some (EMBER_ZCL_STATUS_SUCCESS, st2) ∧
    onoff_log st2 = [EffectTrigger 7 100 1 2].
Proof.
  destruct (setOnOffValue_refines relay_build no_level relay_state 1 0 shown On_Id false) as (st1 & Hs & R & F).
  - apply relay_refines. by repeat constructor.
  - apply relay_level. by repeat constructor.
  - destruct (off_with_effect_correct relay_build no_level st1 1 0 _ 1 2 R) as (st2 & Ho & _ & _ & Hlog).
    + eapply no_level_frame; [apply F|]. apply relay_level. by repeat constructor.
    + exists st1, st2. split; [exact Hs|]. split; [exact Ho|]. rewrite Hlog, (fr_effects _ _ _ _ F), (fr_log _ _ _ _ F). reflexivity.
Defined.

Lemma effect_registry_correct_witness :
  let e := {| effect_addr := 200; mEndpoint := 2; mOffWithEffectTrigger := None; mEffectIdentifier := 0; mEffectVariant := 0 |} in
  inst (reg e (firstEffect relay_state)) 2 = Some e ∧ unreg 200 (reg e (firstEffect relay_state)) = Some (firstEffect relay_state).
Proof.
  intros e. destruct (effect_registry_correct e (firstEffect relay_state) 2) as (H1 & _ & H2 & _).
  - apply NoDup_singleton.
  - intros [E|E]%elem_of_cons; [discriminate E|inversion E].
  - split; [exact H1|exact H2].
Defined.
End RelayDemo.
