(* ===== verification/OnOffScene.v ===== *)
(** * OnOffScene: the pending scene states of the On/Off cluster

    [DefaultOnOffSceneHandler::StatePairBuffer] of
    [src/src/app/clusters/on-off-server/on-off-server.cpp] (builds with the scenes
    plugin): an array of endpoint/state pairs with insertion, lookup and removal by
    endpoint.  The array has its own size; the guard of the insertion compares with
    another constant, the argument [MAX_ENDPOINT_COUNT]. *)
From S2P Require Import Prelude Zcl ChipError.

Record EndpointStatePair := { sp_mEndpoint : EndpointId; mState : bool }.
Record StatePairBuffer := { mPairCount : Z; mStatePairBuffer : list EndpointStatePair }.
#[export] Instance eta_pair : Eta EndpointStatePair := fun p => {| sp_mEndpoint := sp_mEndpoint p; mState := mState p |}.

Definition IsEmpty (b : StatePairBuffer) : bool := mPairCount b =? 0.

(** The loop of [FindPair] from index [i] on, [n] entries left. *)
Fixpoint find_pair (ep : EndpointId) (buf : list EndpointStatePair) (i n : nat) : option (CHIP_ERROR * nat) :=
  match n with
  | O => Some (CHIP_ERROR_NOT_FOUND, i)
  | S n =>
      let! p := buf !! i in
      if ep =? sp_mEndpoint p then Some (CHIP_NO_ERROR, i) else find_pair ep buf (S i) n
  end.

(** The index is meaningful when the result is no error. *)
Definition FindPair (b : StatePairBuffer) (ep : EndpointId) : option (CHIP_ERROR * nat) :=
  if IsEmpty b then Some (CHIP_ERROR_NOT_FOUND, O)
  else find_pair ep (mStatePairBuffer b) 0 (Z.to_nat (mPairCount b)).

(** A store into the array; [None] outside it. *)
Definition set_pair (buf : list EndpointStatePair) (i : nat) (p : EndpointStatePair) : option (list EndpointStatePair) :=
  if (i <? length buf)%nat then Some (<[i := p]> buf) else None.

Definition InsertPair (MAX_ENDPOINT_COUNT : Z) (b : StatePairBuffer) (status : EndpointStatePair)
    : option (CHIP_ERROR * StatePairBuffer) :=
  let! (err, idx) := FindPair b (sp_mEndpoint status) in
  if is_no_error err then
    let! buf := set_pair (mStatePairBuffer b) idx status in
    Some (CHIP_NO_ERROR, {| mPairCount := mPairCount b; mStatePairBuffer := buf |})
  else if mPairCount b <? MAX_ENDPOINT_COUNT then
    let! buf := set_pair (mStatePairBuffer b) (Z.to_nat (mPairCount b)) status in
    Some (CHIP_NO_ERROR, {| mPairCount := u16 (mPairCount b + 1); mStatePairBuffer := buf |})
  else Some (CHIP_ERROR_NO_MEMORY, b).

Definition GetPair (b : StatePairBuffer) (ep : EndpointId) (status : EndpointStatePair) : option (CHIP_ERROR * EndpointStatePair) :=
  let! (err, idx) := FindPair b ep in
  if is_no_error err then let! p := mStatePairBuffer b !! idx in Some (CHIP_NO_ERROR, p) else Some (err, status).

(** [memmove] of the entries after the removed one, then the last is cleared. *)
Definition RemovePair (b : StatePairBuffer) (ep : EndpointId) : option (CHIP_ERROR * StatePairBuffer) :=
  let! (err, position) := FindPair b ep in
  if negb (is_no_error err) then Some (CHIP_NO_ERROR, b)
  else
    let nextPos := u16 (Z.of_nat position + 1) in
    let moveNum := u16 (mPairCount b - nextPos) in
    let buf := mStatePairBuffer b in
    let! buf1 :=
      (if moveNum =? 0 then Some buf
       else if (Z.to_nat nextPos + Z.to_nat moveNum <=? length buf)%nat
       then Some (take position buf ++ take (Z.to_nat moveNum) (drop (Z.to_nat nextPos) buf)
                  ++ drop (position + Z.to_nat moveNum) buf)
       else None) in
    let count := u16 (mPairCount b - 1) in
    let! last := buf1 !! Z.to_nat count in
    let! buf2 := set_pair buf1 (Z.to_nat count) (last <| sp_mEndpoint := kInvalidEndpointId |>) in
    Some (CHIP_NO_ERROR, {| mPairCount := count; mStatePairBuffer := buf2 |}).

(** ** What the buffer stands for: the state pending for each endpoint *)
Definition entries (b : StatePairBuffer) : list EndpointStatePair := take (Z.to_nat (mPairCount b)) (mStatePairBuffer b).
Definition pending (b : StatePairBuffer) : gmap EndpointId bool :=
  list_to_map ((fun p => (sp_mEndpoint p, mState p)) <$> entries b).

Record buffer_ok (b : StatePairBuffer) : Prop := {
  bf_count : 0 ≤ mPairCount b ≤ Z.of_nat (length (mStatePairBuffer b));
  bf_size : Z.of_nat (length (mStatePairBuffer b)) < 65536;
  bf_nodup : NoDup (sp_mEndpoint <$> entries b) }.

Definition pending_of (l : list EndpointStatePair) : gmap EndpointId bool :=
  list_to_map ((fun p => (sp_mEndpoint p, mState p)) <$> l).

Lemma pending_lookup l e v : NoDup (sp_mEndpoint <$> l) →
  pending_of l !! e = Some v ↔ {| sp_mEndpoint := e; mState := v |} ∈ l.
Proof.
  intros Hd. unfold pending_of. rewrite <- elem_of_list_to_map.
  - rewrite list_elem_of_fmap. split; [intros ([] & [= -> ->] & H); done|intros H; by exists {| sp_mEndpoint := e; mState := v |}].
  - by rewrite <- list_fmap_compose.
Qed.

Lemma find_pair_spec ep buf i n : (i + n ≤ length buf)%nat →
  find_pair ep buf i n =
  Some (match list_find (fun p => sp_mEndpoint p = ep) (take n (drop i buf)) with
        | Some (k, _) => (CHIP_NO_ERROR, (i + k)%nat)
        | None => (CHIP_ERROR_NOT_FOUND, (i + n)%nat)
        end).
Proof.
  revert i; induction n as [|n IH]; intros i Hle; [simpl; by rewrite Nat.add_0_r|].
  destruct (lookup_lt_is_Some_2 buf i) as [p Hp]; [lia|]. cbn [find_pair]. rewrite Hp.
  rewrite (drop_S _ _ _ Hp). cbn [take]. cbn [list_find].
  destruct (Z.eqb_spec ep (sp_mEndpoint p)) as [<-|].
  - rewrite decide_True by done. by rewrite Nat.add_0_r.
  - rewrite decide_False by congruence. rewrite IH by lia.
    destruct (list_find _ _) as [[k q]|]; simpl; do 2 f_equal; lia.
Qed.

(** A successful search finds the entry of the endpoint; a failed one says the
    endpoint has none. *)
Lemma FindPair_spec b ep : buffer_ok b → ∃ err k, FindPair b ep = Some (err, k) ∧
  ((err = CHIP_NO_ERROR ∧ (∃ v, entries b !! k = Some {| sp_mEndpoint := ep; mState := v |})) ∨
   (err = CHIP_ERROR_NOT_FOUND ∧ ep ∉ sp_mEndpoint <$> entries b)).
Proof.
  intros [Hc Hs Hd]. unfold FindPair, IsEmpty. destruct (Z.eqb_spec (mPairCount b) 0) as [E|].
  - eexists _, _. split; [done|]. right. unfold entries. rewrite E. split; [done|]. simpl. apply not_elem_of_nil.
  - rewrite find_pair_spec by lia. rewrite drop_0. fold (entries b).
    destruct (list_find _ _) as [[k p]|] eqn:Hf; eexists _, _; (split; [done|]).
    + left. split; [done|]. apply list_find_Some in Hf as (Hk & <- & _). exists (mState p). etrans; [exact Hk|]. by destruct p.
    + right. split; [done|]. intros (p & -> & Hp)%list_elem_of_fmap. apply list_find_None in Hf.
      by eapply Forall_forall in Hf.
Qed.

Lemma entries_lookup b k p : entries b !! k = Some p → mStatePairBuffer b !! k = Some p ∧ (k < Z.to_nat (mPairCount b))%nat.
Proof. unfold entries. intros H. apply lookup_take_Some in H as [? ?]. done. Qed.

(** The list of entries with one replaced, added or deleted. *)
Lemma insert_pending l k ep v w : NoDup (sp_mEndpoint <$> l) → l !! k = Some {| sp_mEndpoint := ep; mState := w |} →
  NoDup (sp_mEndpoint <$> <[k := {| sp_mEndpoint := ep; mState := v |}]> l) ∧
  pending_of (<[k := {| sp_mEndpoint := ep; mState := v |}]> l) = <[ep := v]> (pending_of l).
Proof.
  intros Hd Hk. assert (sp_mEndpoint <$> <[k := {| sp_mEndpoint := ep; mState := v |}]> l = sp_mEndpoint <$> l) as E.
  { rewrite list_fmap_insert. apply list_insert_id. rewrite list_lookup_fmap, Hk. done. }
  split; [by rewrite E|]. apply map_eq. intros e. apply option_eq. intros u.
  rewrite pending_lookup by (by rewrite E). rewrite lookup_insert_Some, pending_lookup by done.
  assert (∀ j p, l !! j = Some p → sp_mEndpoint p = ep → j = k) as Huniq.
  { intros j p Hj He. eapply NoDup_lookup; [exact Hd|by rewrite list_lookup_fmap, Hj|]. rewrite list_lookup_fmap, Hk. by simpl; subst. }
  rewrite !list_elem_of_lookup. split.
  - intros (j & Hj). apply list_lookup_insert_Some in Hj as [(<- & [= <- <-] & _)|(Hne & Hj)]; [by left|].
    right. split; [|by exists j]. intros <-. apply Hne. symmetry. by eapply Huniq.
  - intros [(<- & <-)|(Hne & j & Hj)].
    + exists k. apply list_lookup_insert_eq. by eapply lookup_lt_Some.
    + exists j. rewrite list_lookup_insert_ne; [done|]. intros ->. congruence.
Qed.

Lemma append_pending l ep v : NoDup (sp_mEndpoint <$> l) → ep ∉ sp_mEndpoint <$> l →
  NoDup (sp_mEndpoint <$> (l ++ [{| sp_mEndpoint := ep; mState := v |}])) ∧
  pending_of (l ++ [{| sp_mEndpoint := ep; mState := v |}]) = <[ep := v]> (pending_of l).
Proof.
  intros Hd Hn. assert (NoDup (sp_mEndpoint <$> (l ++ [{| sp_mEndpoint := ep; mState := v |}]))) as Hd'.
  { rewrite fmap_app. apply NoDup_app. split; [done|]. split; [|apply NoDup_singleton]. intros x Hx Hy. simpl in Hy.
    apply list_elem_of_singleton in Hy as ->. done. }
  split; [done|]. apply map_eq. intros e. apply option_eq. intros u.
  rewrite pending_lookup, lookup_insert_Some, pending_lookup by done. rewrite elem_of_app, list_elem_of_singleton. split.
  - intros [Hin|[= -> ->]]; [right|by left]. split; [|done]. intros <-. apply Hn. apply list_elem_of_fmap.
    by exists {| sp_mEndpoint := ep; mState := u |}.
  - intros [[<- <-]|[_ ?]]; [by right|by left].
Qed.

Lemma delete_pending l k ep w : NoDup (sp_mEndpoint <$> l) → l !! k = Some {| sp_mEndpoint := ep; mState := w |} →
  NoDup (sp_mEndpoint <$> delete k l) ∧ pending_of (delete k l) = delete ep (pending_of l).
Proof.
  intros Hd Hk. apply list_elem_of_split_length in Hk as (a & c & -> & ->). rewrite delete_middle.
  rewrite fmap_app, fmap_cons in Hd. pose proof Hd as Hfull.
  apply NoDup_app in Hd as (Ha & Hac & [Hc1 Hc2]%NoDup_cons).
  assert (NoDup (sp_mEndpoint <$> (a ++ c))) as Hd'.
  { rewrite fmap_app. apply NoDup_app. split; [done|]. split; [|done]. intros x Hx Hy. eapply Hac; [done|]. by right. }
  split; [done|]. apply map_eq. intros e. apply option_eq. intros u.
  rewrite pending_lookup by done. rewrite lookup_delete_Some, pending_lookup; [|by rewrite fmap_app, fmap_cons].
  rewrite !elem_of_app, elem_of_cons. split.
  - intros Hin. split; [|tauto]. intros <-. destruct Hin as [Hin|Hin]; apply (list_elem_of_fmap_2 sp_mEndpoint) in Hin; simpl in Hin.
    + eapply Hac; [exact Hin|]. by left.
    + by apply Hc1.
  - intros (Hne & [?|[[= -> ->]|?]]); [by left|done|by right].
Qed.

(** ** The operations *)
Lemma InsertPair_spec MAX b ep v : buffer_ok b →
  match InsertPair MAX b {| sp_mEndpoint := ep; mState := v |} with
  | Some (err, b') =>
      buffer_ok b' ∧ length (mStatePairBuffer b') = length (mStatePairBuffer b) ∧
      (err = CHIP_NO_ERROR ∧ pending b' = <[ep := v]> (pending b) ∧
         (pending b !! ep = None → mPairCount b < Z.of_nat (length (mStatePairBuffer b))) ∨
       err = CHIP_ERROR_NO_MEMORY ∧ b' = b ∧ pending b !! ep = None ∧ MAX ≤ mPairCount b)
  | None => pending b !! ep = None ∧ mPairCount b = Z.of_nat (length (mStatePairBuffer b)) ∧ mPairCount b < MAX
  end.
Proof.
  intros Hok. pose proof Hok as [Hc Hs Hd]. unfold InsertPair. cbn [sp_mEndpoint].
  destruct (FindPair_spec b ep Hok) as (err & k & -> & [(-> & w & Hk)|(-> & Hn)]); cbn [is_no_error].
  - pose proof (entries_lookup _ _ _ Hk) as (Hb & Hlt). unfold set_pair.
    rewrite (proj2 (Nat.ltb_lt _ _)) by lia.
    assert (take (Z.to_nat (mPairCount b)) (<[k := {| sp_mEndpoint := ep; mState := v |}]> (mStatePairBuffer b)) =
      <[k := {| sp_mEndpoint := ep; mState := v |}]> (entries b)) as E by (unfold entries; by rewrite take_insert_lt by lia).
    destruct (insert_pending _ k ep v w Hd Hk) as [Hd' Hp].
    split; [split; unfold entries; simpl; rewrite ?length_insert, ?E; done|]. split; [by simpl; rewrite length_insert|].
    left. split; [done|]. split; [unfold pending, entries; simpl; rewrite E; exact Hp|].
    intros Hn. apply list_elem_of_lookup_2, (pending_lookup _ _ _ Hd) in Hk. unfold pending, pending_of in *. congruence.
  - assert (pending b !! ep = None) as Hnone.
    { apply not_elem_of_list_to_map_1. by rewrite <- list_fmap_compose. }
    destruct (Z.ltb_spec (mPairCount b) MAX) as [Hm|Hm].
    2:{ split; [done|]. split; [done|]. right. by split_and!. }
    unfold set_pair. destruct (Nat.ltb_spec (Z.to_nat (mPairCount b)) (length (mStatePairBuffer b))); [|split_and!; [done|lia|done]].
    assert (u16 (mPairCount b + 1) = mPairCount b + 1) as -> by (apply wrap_small; ulia).
    assert (take (Z.to_nat (mPairCount b + 1)) (<[Z.to_nat (mPairCount b) := {| sp_mEndpoint := ep; mState := v |}]> (mStatePairBuffer b)) =
      entries b ++ [{| sp_mEndpoint := ep; mState := v |}]) as E.
    { replace (Z.to_nat (mPairCount b + 1)) with (S (Z.to_nat (mPairCount b))) by lia. erewrite take_S_r.
      2: by apply list_lookup_insert_eq. unfold entries. by rewrite take_insert_ge by lia. }
    destruct (append_pending (entries b) ep v Hd Hn) as [Hd' Hp].
    split; [split; unfold entries; simpl; rewrite ?length_insert, ?E; [lia|done|done]|]. split; [by simpl; rewrite length_insert|].
    left. split; [done|]. split; [unfold pending, entries; simpl; rewrite E; exact Hp|lia].
Qed.

Lemma RemovePair_spec b ep : buffer_ok b →
  ∃ b', RemovePair b ep = Some (CHIP_NO_ERROR, b') ∧ buffer_ok b' ∧
    length (mStatePairBuffer b') = length (mStatePairBuffer b) ∧ pending b' = delete ep (pending b).
Proof.
  intros Hok. pose proof Hok as [Hc Hs Hd]. unfold RemovePair.
  destruct (FindPair_spec b ep Hok) as (err & k & -> & [(-> & w & Hk)|(-> & Hn)]); cbn [is_no_error negb].
  2:{ exists b. split_and!; try done. symmetry. apply delete_id, not_elem_of_list_to_map_1. by rewrite <- list_fmap_compose. }
  pose proof (entries_lookup _ _ _ Hk) as (Hb & Hlt). set (n := Z.to_nat (mPairCount b)) in *.
  rewrite (wrap_small 16 (Z.of_nat k + 1)) by ulia. rewrite !(wrap_small 16) by ulia. set (buf := mStatePairBuffer b) in *.
  assert (∃ buf1, (if mPairCount b - (Z.of_nat k + 1) =? 0 then Some buf
       else if (Z.to_nat (Z.of_nat k + 1) + Z.to_nat (mPairCount b - (Z.of_nat k + 1)) <=? length buf)%nat
       then Some (take k buf ++ take (Z.to_nat (mPairCount b - (Z.of_nat k + 1))) (drop (Z.to_nat (Z.of_nat k + 1)) buf)
                  ++ drop (k + Z.to_nat (mPairCount b - (Z.of_nat k + 1))) buf)
       else None) = Some buf1 ∧ length buf1 = length buf ∧ take (n - 1) buf1 = delete k (entries b)) as (buf1 & -> & Hl1 & Ht1).
  { replace (Z.to_nat (Z.of_nat k + 1)) with (S k) by lia.
    replace (Z.to_nat (mPairCount b - (Z.of_nat k + 1))) with (n - S k)%nat by lia.
    assert (delete k (entries b) = take k buf ++ take (n - S k) (drop (S k) buf)) as ->.
    { unfold entries. fold buf n. rewrite delete_take_drop, take_take, Nat.min_l by lia. by rewrite skipn_firstn_comm. }
    destruct (Z.eqb_spec (mPairCount b - (Z.of_nat k + 1)) 0).
    - exists buf. split; [done|]. split; [done|]. replace (n - 1)%nat with k by lia. replace (n - S k)%nat with 0%nat by lia.
      by rewrite take_0, app_nil_r.
    - rewrite (proj2 (Nat.leb_le _ _)) by lia. eexists. split; [done|]. split.
      + rewrite !length_app, !length_take, !length_drop. lia.
      + rewrite app_assoc. rewrite take_app_length'; [done|]. rewrite length_app, !length_take, length_drop. lia. }
  replace (Z.to_nat (mPairCount b - 1)) with (n - 1)%nat by lia.
  destruct (lookup_lt_is_Some_2 buf1 (n - 1)) as [last Hlast]; [lia|]. rewrite Hlast. unfold set_pair.
  rewrite (proj2 (Nat.ltb_lt _ _)) by lia. eexists. split; [done|].
  destruct (delete_pending (entries b) k ep w Hd Hk) as [Hd' Hp].
  match goal with |- buffer_ok ?x ∧ _ => assert (entries x = delete k (entries b)) as E end.
  { unfold entries at 1. simpl. replace (Z.to_nat (mPairCount b - 1)) with (n - 1)%nat by lia. by rewrite take_insert_ge by lia. }
  split; [split; rewrite ?E; simpl; rewrite ?length_insert; [lia|lia|done]|].
  split; [by simpl; rewrite length_insert|]. unfold pending at 1. by rewrite E.
Qed.

(** The buffer keeps the pending state of each endpoint.  Its operations are
    the operations of a finite map from endpoints to states: a lookup answers with
    the state of the endpoint or that there is none, a removal takes exactly that
    endpoint out, an insertion sets it.  An insertion of a new endpoint into a full
    array is refused with the buffer unchanged when the guard's constant is at
    most the array's size, and writes past the array when it is larger. *)
Theorem pair_buffer_correct MAX_ENDPOINT_COUNT b ep v :
  buffer_ok b →
  (∀ status, GetPair b ep status = Some (match pending b !! ep with
     | Some u => (CHIP_NO_ERROR, {| sp_mEndpoint := ep; mState := u |}) | None => (CHIP_ERROR_NOT_FOUND, status) end)) ∧
  (∃ b', RemovePair b ep = Some (CHIP_NO_ERROR, b') ∧ buffer_ok b' ∧ pending b' = delete ep (pending b)) ∧
  (mPairCount b < Z.of_nat (length (mStatePairBuffer b)) ≤ MAX_ENDPOINT_COUNT ∨ is_Some (pending b !! ep) →
   ∃ b', InsertPair MAX_ENDPOINT_COUNT b {| sp_mEndpoint := ep; mState := v |} = Some (CHIP_NO_ERROR, b') ∧ buffer_ok b' ∧
     pending b' = <[ep := v]> (pending b)) ∧
  (mPairCount b = Z.of_nat (length (mStatePairBuffer b)) → pending b !! ep = None →
   InsertPair MAX_ENDPOINT_COUNT b {| sp_mEndpoint := ep; mState := v |} =
     if MAX_ENDPOINT_COUNT <=? Z.of_nat (length (mStatePairBuffer b)) then Some (CHIP_ERROR_NO_MEMORY, b) else None).
Proof.
  intros Hok. split; [|split; [|split]].
  - intros status. unfold GetPair. destruct (FindPair_spec b ep Hok) as (err & k & -> & [(-> & u & Hk)|(-> & Hn)]); cbn [is_no_error].
    + pose proof (entries_lookup _ _ _ Hk) as (-> & _).
      assert (pending b !! ep = Some u) as ->; [|done]. apply pending_lookup; [apply Hok|]. by eapply list_elem_of_lookup_2.
    + assert (pending b !! ep = None) as ->; [|done]. apply not_elem_of_list_to_map_1. by rewrite <- list_fmap_compose.
  - destruct (RemovePair_spec b ep Hok) as (b' & ? & ? & _ & ?). by exists b'.
  - intros Hroom. pose proof (InsertPair_spec MAX_ENDPOINT_COUNT b ep v Hok) as Hi.
    destruct (InsertPair _ _ _) as [[err b']|].
    + destruct Hi as (Hok' & _ & [(-> & Hp & _)|(-> & _ & Hn & Hm)]); [by exists b'|].
      destruct Hroom as [Hr|[u Hu]]; [lia|congruence].
    + destruct Hi as (Hn & Hm & _). destruct Hroom as [Hr|[u Hu]]; [lia|congruence].
  - intros Hfull Hn. pose proof (InsertPair_spec MAX_ENDPOINT_COUNT b ep v Hok) as Hi.
    destruct (InsertPair _ _ _) as [[err b']|].
    + destruct Hi as (_ & _ & [(-> & _ & Hlt)|(-> & -> & _ & Hm)]); [|by rewrite (proj2 (Z.leb_le _ _)) by lia].
      specialize (Hlt Hn). lia.
    + destruct Hi as (_ & _ & Hm). by rewrite (proj2 (Z.leb_gt _ _)) by lia.
Qed.

Module SceneDemo.
Definition full : StatePairBuffer :=
  {| mPairCount := 2; mStatePairBuffer := [{| sp_mEndpoint := 1; mState := true |}; {| sp_mEndpoint := 2; mState := false |}] |}.
Lemma full_ok : buffer_ok full.
Proof. split; [done|done|]. repeat constructor; set_solver. Qed.

(** Two On/Off endpoints and a root endpoint: the array holds two pairs, the guard
    allows three. *)
Lemma pair_buffer_correct_witness :
  GetPair full 2 {| sp_mEndpoint := 0; mState := true |} = Some (CHIP_NO_ERROR, {| sp_mEndpoint := 2; mState := false |}) ∧
  InsertPair 3 full {| sp_mEndpoint := 3; mState := true |} = None.
Proof.
  destruct (pair_buffer_correct 3 full 2 true full_ok) as (H1 & _).
  destruct (pair_buffer_correct 3 full 3 true full_ok) as (_ & _ & _ & H2).
  split; [rewrite H1; reflexivity|]. apply H2; reflexivity.
Defined.
End SceneDemo.
