(* ===== verification/Led.v ===== *)
(** * Led: the indicator lamp

    [src/examples/lighting-app/thirdreality/common/demo_pwm.c], which turns a
    colour into the duty cycles of the PWM channels, and the widgets of
    [src/examples/platform/bouffalolab/common/plat/LEDWidget.cpp].

    The PWM driver ([hosal_pwm_*]) belongs to the SDK: the duty cycles it is given
    for each channel are the output ([lamp]).  The board decides the number of
    channels, [MAX_PWM_CHANNEL]: three on the relay (blue, red, green). *)
From S2P Require Import Prelude.

Definition PWM_DUTY_CYCLE : Z := 10000.

(** The duty cycle of each channel. *)
Abbreviation lamp := (list Z).

(** [demo_hosal_pwm_change_param]: the duty cycles asked for are inverted; [None]
    when the array is shorter than the channels. *)
Definition change_duty (duty : Z) : Z := if PWM_DUTY_CYCLE <? duty then 0 else PWM_DUTY_CYCLE - duty.
Definition demo_hosal_pwm_change_param (MAX_PWM_CHANNEL : nat) (para : list Z) : option lamp :=
  if (MAX_PWM_CHANNEL <=? length para)%nat then Some (change_duty <$> take MAX_PWM_CHANNEL para) else None.

(** [set_level]: one parameter, whatever the number of channels. *)
Definition set_level (MAX_PWM_CHANNEL : nat) (currLevel : Z) : option lamp :=
  let currLevel := if (currLevel <=? 5) && (1 <=? currLevel) then 5 else currLevel in
  demo_hosal_pwm_change_param MAX_PWM_CHANNEL [currLevel * PWM_DUTY_CYCLE / 254].

(** The colour conversion of [set_color]: red, green and blue, 0 to [currLevel]. *)
Definition color_rgb (currLevel currHue currSat : Z) : Z * Z * Z :=
  let hue := u16 (currHue * 360 / 254) in
  let sat := u8 (currSat * 100 / 254) in
  let currLevel := if (currLevel <=? 5) && (1 <=? currLevel) then 0 else currLevel in
  let sat := if 100 <? sat then 100 else sat in
  let i := u16 (hue / 60) in
  let rgb_max := u16 currLevel in
  let rgb_min := u16 (rgb_max * (100 - sat) / 100) in
  let diff := u16 (hue mod 60) in
  let rgb_adj := u16 ((rgb_max - rgb_min) * diff / 60) in
  if i =? 0 then (rgb_max, u32 (rgb_min + rgb_adj), rgb_min)
  else if i =? 1 then (u32 (rgb_max - rgb_adj), rgb_max, rgb_min)
  else if i =? 2 then (rgb_min, rgb_max, u32 (rgb_min + rgb_adj))
  else if i =? 3 then (rgb_min, u32 (rgb_max - rgb_adj), rgb_max)
  else if i =? 4 then (u32 (rgb_min + rgb_adj), rgb_min, rgb_max)
  else (rgb_max, rgb_min, u32 (rgb_max - rgb_adj)).

Definition set_color (MAX_PWM_CHANNEL : nat) (currLevel currHue currSat : Z) : option lamp :=
  if (MAX_PWM_CHANNEL =? 3)%nat then
    match color_rgb currLevel currHue currSat with
    | (red, green, blue) =>
        demo_hosal_pwm_change_param MAX_PWM_CHANNEL
          [u32 (blue * PWM_DUTY_CYCLE) / 254; u32 (red * PWM_DUTY_CYCLE) / 254; u32 (green * PWM_DUTY_CYCLE) / 254]
    end
  else set_level MAX_PWM_CHANNEL currLevel.

Definition set_color_red (n : nat) (currLevel : Z) : option lamp := set_color n currLevel 0 254.
Definition set_color_green (n : nat) (currLevel : Z) : option lamp := set_color n currLevel 84 254.
Definition set_color_yellow (n : nat) (currLevel : Z) : option lamp := set_color n currLevel 42 254.

(** ** Widgets *)
Record ColorLEDWidget := { mOnoff : Z; light_v : Z; light_h : Z; light_s : Z }.
#[export] Instance eta_widget : Eta ColorLEDWidget := fun w =>
  {| mOnoff := mOnoff w; light_v := light_v w; light_h := light_h w; light_s := light_s w |}.

(** Starting the channels gives them the duty cycle of the table of [demo_pwm.c]. *)
Definition Color_Init (MAX_PWM_CHANNEL : nat) : ColorLEDWidget * lamp :=
  ({| mOnoff := 0; light_v := 0; light_h := 0; light_s := 0 |}, repeat PWM_DUTY_CYCLE MAX_PWM_CHANNEL).

Definition Color_SetColor (n : nat) (w : ColorLEDWidget) (level hue sat : Z) : option (ColorLEDWidget * lamp) :=
  let! l := set_color n level hue sat in
  Some ({| mOnoff := if 0 <? level then 1 else 0; light_v := level; light_h := hue; light_s := sat |}, l).

Definition Color_SetLevel (n : nat) (w : ColorLEDWidget) (level : Z) : option (ColorLEDWidget * lamp) :=
  Color_SetColor n w level (light_h w) (light_s w).

Definition Color_SetOnoff (n : nat) (w : ColorLEDWidget) (state : bool) : option (ColorLEDWidget * lamp) :=
  let w := w <| mOnoff := if state then 1 else 0 |> in
  let! l := (if state
             then if light_v w =? 0 then set_color n 254 (light_h w) (light_s w)
                  else set_color n (light_v w) (light_h w) (light_s w)
             else set_color n 0 (light_h w) (light_s w)) in
  Some (w, l).

(** [1 - mOnoff] converted to [bool]. *)
Definition Color_Toggle (n : nat) (w : ColorLEDWidget) : option (ColorLEDWidget * lamp) :=
  Color_SetOnoff n w (negb (1 - mOnoff w =? 0)).

(** The dimmable widget keeps [mOnoff] and [light_v]. *)
Definition Dimmable_SetLevel (n : nat) (w : ColorLEDWidget) (level : Z) : option (ColorLEDWidget * lamp) :=
  let! l := set_level n level in
  Some (w <| light_v := level |> <| mOnoff := if 0 <? level then 1 else 0 |>, l).
Definition Dimmable_SetOnoff (n : nat) (w : ColorLEDWidget) (state : bool) : option (ColorLEDWidget * lamp) :=
  let w := w <| mOnoff := if state then 1 else 0 |> in
  let! l := (if state then if light_v w =? 0 then set_level n 254 else set_level n (light_v w) else set_level n 0) in
  Some (w, l).
Definition Dimmable_Toggle (n : nat) (w : ColorLEDWidget) : option (ColorLEDWidget * lamp) :=
  Dimmable_SetOnoff n w (negb (1 - mOnoff w =? 0)).

(** ** The colour wheel

    One curve, shifted by a third of the wheel for each channel: full for 60
    degrees on both sides of its colour, then falling or rising in 60 degrees. *)
Definition ramp (hi lo : Z) (angle : Z) : Z :=
  let a := angle mod 360 in
  let adj := (hi - lo) * (a mod 60) / 60 in
  if a <? 60 then hi else if a <? 120 then hi - adj else if a <? 240 then lo
  else if a <? 300 then lo + adj else hi.

(** The brightness of the lamp for a colour: [v], or 0 for the levels 1 to 5. *)
Definition brightness (level : Z) : Z := if level <=? 5 then 0 else level.

Lemma ramp_at hi lo angle k j d : 0 ≤ d < 60 → 0 ≤ j < 6 → angle = 360 * k + 60 * j + d →
  ramp hi lo angle =
  let adj := (hi - lo) * d / 60 in
  if j =? 0 then hi else if j =? 1 then hi - adj else if j <? 4 then lo else if j =? 4 then lo + adj else hi.
Proof.
  intros Hd Hj ->. unfold ramp.
  assert ((360 * k + 60 * j + d) mod 360 = 60 * j + d) as -> by (Z.div_mod_to_equations; lia).
  assert ((60 * j + d) mod 60 = d) as -> by (Z.div_mod_to_equations; lia).
  assert (j = 0 ∨ j = 1 ∨ j = 2 ∨ j = 3 ∨ j = 4 ∨ j = 5) as Hcases by lia.
  repeat match goal with |- context [?x <? ?y] => lazymatch x with context [d] => destruct (Z.ltb_spec x y) end end;
    destruct Hcases as [->|[->|[->|[->|[->| ->]]]]]; simpl; lia.
Qed.

(** The colour conversion goes round the wheel; hue bytes below 254 are angles
    below 360 degrees. *)
Lemma color_rgb_wheel level hue sat : in_u 8 level → 0 ≤ hue < 254 → in_u 8 sat →
  let v := brightness level in
  let lo := v * (100 - Z.min 100 (sat * 100 / 254)) / 100 in
  let h := hue * 360 / 254 in
  color_rgb level hue sat = (ramp v lo h, ramp v lo (h - 120), ramp v lo (h - 240)).
Proof.
  intros Hl Hh Hs v lo h. unfold in_u in Hl, Hs. change (2 ^ 8) with 256 in *.
  assert (0 ≤ h < 360) as Hh' by (unfold h; Z.div_mod_to_equations; lia).
  assert (0 ≤ sat * 100 / 254 ≤ 100) as Hs' by (Z.div_mod_to_equations; lia).
  unfold color_rgb. fold h. rewrite (wrap_small 16 h) by ulia. rewrite (wrap_small 8 (sat * 100 / 254)) by ulia.
  assert ((if (level <=? 5) && (1 <=? level) then 0 else level) = v) as ->.
  { unfold v, brightness. destruct (Z.leb_spec level 5), (Z.leb_spec 1 level); simpl; lia. }
  assert ((if 100 <? sat * 100 / 254 then 100 else sat * 100 / 254) = Z.min 100 (sat * 100 / 254)) as ->.
  { destruct (Z.ltb_spec 100 (sat * 100 / 254)); lia. }
  assert (0 ≤ v ≤ 255) as Hv by (unfold v, brightness; destruct (Z.leb_spec level 5); lia).
  rewrite (wrap_small 16 v) by ulia. fold lo.
  assert (0 ≤ lo ≤ v) as Hlo by (unfold lo; set (s := Z.min _ _) in *; Z.div_mod_to_equations; nia).
  rewrite (wrap_small 16 lo) by ulia. set (d := h mod 60). assert (0 ≤ d < 60) as Hd by (apply Z.mod_pos_bound; lia).
  rewrite (wrap_small 16 d) by ulia. set (adj := (v - lo) * d / 60).
  assert (0 ≤ adj ≤ v - lo) as Hadj by (unfold adj; Z.div_mod_to_equations; nia).
  rewrite (wrap_small 16 adj) by ulia. rewrite !(wrap_small 32) by ulia.
  assert (0 ≤ h / 60 < 6) as Hi by (Z.div_mod_to_equations; lia).
  rewrite (wrap_small 16) by ulia.
  assert (h = 60 * (h / 60) + d) as Hhd by (apply Z.div_mod; lia). set (i := h / 60) in *.
  assert (i = 0 ∨ i = 1 ∨ i = 2 ∨ i = 3 ∨ i = 4 ∨ i = 5) as Hcases by lia.
  rewrite (ramp_at v lo h 0 i d) by lia.
  rewrite (ramp_at v lo (h - 120) (if i <? 2 then -1 else 0) (if i <? 2 then i + 4 else i - 2) d)
    by (destruct (Z.ltb_spec i 2); lia).
  rewrite (ramp_at v lo (h - 240) (if i <? 4 then -1 else 0) (if i <? 4 then i + 2 else i - 4) d)
    by (destruct (Z.ltb_spec i 4); lia).
  fold adj. clearbody i. by destruct Hcases as [->|[->|[->|[->|[->| ->]]]]].
Qed.

(** Whatever the hue, no channel exceeds the brightness and one reaches it. *)
Lemma color_rgb_bounds level hue sat : in_u 8 level → in_u 8 hue → in_u 8 sat →
  ∃ r g b, color_rgb level hue sat = (r, g, b) ∧
    Forall (fun c => 0 ≤ c ≤ brightness level) [r; g; b] ∧ brightness level ∈ [r; g; b].
Proof.
  intros Hl Hh Hs. unfold in_u in Hl, Hs, Hh. change (2 ^ 8) with 256 in *. set (v := brightness level).
  assert (0 ≤ hue * 360 / 254 < 362) as Hh' by (Z.div_mod_to_equations; lia).
  assert (0 ≤ sat * 100 / 254 ≤ 100) as Hs' by (Z.div_mod_to_equations; lia).
  unfold color_rgb. set (h := hue * 360 / 254) in *. rewrite (wrap_small 16 h) by ulia.
  rewrite (wrap_small 8 (sat * 100 / 254)) by ulia. set (sp := if 100 <? sat * 100 / 254 then _ else _).
  assert (0 ≤ sp ≤ 100) as Hsp by (unfold sp; destruct (Z.ltb_spec 100 (sat * 100 / 254)); lia).
  assert ((if (level <=? 5) && (1 <=? level) then 0 else level) = v) as ->.
  { unfold v, brightness. destruct (Z.leb_spec level 5), (Z.leb_spec 1 level); simpl; lia. }
  assert (0 ≤ v ≤ 255) as Hv by (unfold v, brightness; destruct (Z.leb_spec level 5); lia).
  rewrite (wrap_small 16 v) by ulia. set (lo := v * (100 - sp) / 100).
  assert (0 ≤ lo ≤ v) as Hlo by (unfold lo; Z.div_mod_to_equations; nia).
  rewrite (wrap_small 16 lo) by ulia. set (d := h mod 60). assert (0 ≤ d < 60) as Hd by (apply Z.mod_pos_bound; lia).
  rewrite (wrap_small 16 d) by ulia. set (adj := (v - lo) * d / 60).
  assert (0 ≤ adj ≤ v - lo) as Hadj by (unfold adj; Z.div_mod_to_equations; nia).
  rewrite (wrap_small 16 adj) by ulia. rewrite !(wrap_small 32) by ulia.
  repeat case_match; eexists _, _, _; (split; [reflexivity|]);
    (split; [repeat (apply Forall_cons; split; [lia|]); apply Forall_nil_2|]); rewrite !elem_of_cons; tauto.
Qed.

Lemma duty_spec c : 0 ≤ c ≤ 255 → change_duty (u32 (c * PWM_DUTY_CYCLE) / 254) = PWM_DUTY_CYCLE - Z.min PWM_DUTY_CYCLE (c * PWM_DUTY_CYCLE / 254).
Proof.
  intros Hc. unfold PWM_DUTY_CYCLE, change_duty. rewrite wrap_small by (unfold in_u; lia).
  destruct (Z.ltb_spec PWM_DUTY_CYCLE (c * 10000 / 254)); unfold PWM_DUTY_CYCLE in *; lia.
Qed.

(** A colour on the three-channel lamp.  For every level, hue below 254 and
    saturation the duty cycles are those of a colour wheel on which the three
    channels follow one curve, a third of the wheel apart, inverted and kept within
    the duty range; no arithmetic of the conversion overflows. *)
Theorem set_color_correct level hue sat :
  in_u 8 level → 0 ≤ hue < 254 → in_u 8 sat →
  let v := brightness level in
  let lo := v * (100 - Z.min 100 (sat * 100 / 254)) / 100 in
  let angle := hue * 360 / 254 in
  set_color 3 level hue sat =
  Some ((fun c => PWM_DUTY_CYCLE - Z.min PWM_DUTY_CYCLE (c * PWM_DUTY_CYCLE / 254)) <$>
        [ramp v lo (angle - 240); ramp v lo angle; ramp v lo (angle - 120)]).
Proof.
  intros Hl Hh Hs v lo angle. unfold set_color. cbn [Nat.eqb].
  destruct (color_rgb_bounds level hue sat Hl ltac:(ulia) Hs) as (r & g & b & E & Hb & _).
  rewrite (color_rgb_wheel level hue sat Hl Hh Hs) in *. fold v lo angle in E |- *. injection E as -> -> ->.
  assert (0 ≤ brightness level ≤ 255) as Hv by (unfold brightness; destruct (Z.leb_spec level 5); ulia).
  apply Forall_cons in Hb as [Hr Hb]. apply Forall_cons in Hb as [Hg Hb]. apply Forall_cons in Hb as [Hbl _].
  unfold demo_hosal_pwm_change_param. cbn [length Nat.leb take fmap list_fmap]. by rewrite !duty_spec by lia.
Qed.

(** The lamp is dark exactly for the levels 0 to 5, whatever the hue and the
    saturation; the widget reports a light for every level above 0, so for the
    levels 1 to 5 it says the dark lamp is on. *)
Theorem lamp_dark_iff level hue sat w :
  in_u 8 level → in_u 8 hue → in_u 8 sat →
  ∃ duties, Color_SetColor 3 w level hue sat =
      Some ({| mOnoff := if 0 <? level then 1 else 0; light_v := level; light_h := hue; light_s := sat |}, duties) ∧
    Forall (fun d => 0 ≤ d ≤ PWM_DUTY_CYCLE) duties ∧ length duties = 3%nat ∧
    (duties = repeat PWM_DUTY_CYCLE 3 ↔ level ≤ 5).
Proof.
  intros Hl Hh Hs. destruct (color_rgb_bounds level hue sat Hl Hh Hs) as (r & g & b & E & Hb & Hin).
  unfold Color_SetColor, set_color. cbn [Nat.eqb]. rewrite E.
  assert (0 ≤ brightness level ≤ 255) as Hv by (unfold brightness; destruct (Z.leb_spec level 5); ulia).
  apply Forall_cons in Hb as [Hr Hb]. apply Forall_cons in Hb as [Hg Hb]. apply Forall_cons in Hb as [Hbl _].
  unfold demo_hosal_pwm_change_param. cbn [length Nat.leb take fmap list_fmap]. rewrite !duty_spec by lia.
  set (f := fun c => PWM_DUTY_CYCLE - Z.min PWM_DUTY_CYCLE (c * PWM_DUTY_CYCLE / 254)).
  assert (∀ c, 0 ≤ c ≤ 255 → 0 ≤ f c ≤ PWM_DUTY_CYCLE) as Hf.
  { intros c Hc. unfold f. assert (0 ≤ c * PWM_DUTY_CYCLE / 254) by (apply Z.div_pos; unfold PWM_DUTY_CYCLE; lia).
    unfold PWM_DUTY_CYCLE in *. lia. }
  assert (∀ c, 0 ≤ c ≤ 255 → f c = PWM_DUTY_CYCLE → c = 0) as Hz.
  { intros c Hc. unfold f, PWM_DUTY_CYCLE. intros Ef. Z.div_mod_to_equations. lia. }
  eexists. split; [reflexivity|]. split; [repeat (apply Forall_cons; split; [apply Hf; lia|]); apply Forall_nil_2|].
  split; [done|]. cbn [repeat]. split.
  - intros [= E1 E2 E3]. apply Hz in E1, E2, E3; [|lia..]. subst.
    assert (brightness level = 0) as Hzero by (rewrite !elem_of_cons in Hin; destruct Hin as [?|[?|[?|Hin]]]; [done..|inversion Hin]).
    unfold brightness in Hzero. destruct (Z.leb_spec level 5); lia.
  - intros Hle. assert (brightness level = 0) as Hzero by (unfold brightness; by rewrite (proj2 (Z.leb_le _ _))).
    rewrite Hzero in *. assert (r = 0) as -> by lia. assert (g = 0) as -> by lia. by assert (b = 0) as -> by lia.
Qed.

(** Setting one level is defined on a one-channel board only: with more channels
    the parameter array is read past its one element.  Where it is defined, the
    levels 1 to 5 are shown as 5.  Every colour is defined on boards of one and of
    three channels. *)
Theorem lamp_defined n level hue sat :
  in_u 8 level → in_u 8 hue → in_u 8 sat →
  (set_level (S (S n)) level = None) ∧
  set_level 1 level = Some [PWM_DUTY_CYCLE - Z.min PWM_DUTY_CYCLE ((if level =? 0 then 0 else Z.max 5 level) * PWM_DUTY_CYCLE / 254)] ∧
  set_color 1 level hue sat = set_level 1 level ∧ is_Some (set_color 3 level hue sat).
Proof.
  intros Hl Hh Hs. split; [done|]. split; [|split; [done|]].
  - unfold set_level, demo_hosal_pwm_change_param. cbn [length Nat.leb take fmap list_fmap].
    assert ((if (level <=? 5) && (1 <=? level) then 5 else level) = if level =? 0 then 0 else Z.max 5 level) as ->.
    { unfold in_u in Hl. destruct (Z.leb_spec level 5), (Z.leb_spec 1 level), (Z.eqb_spec level 0); simpl; lia. }
    set (l := if level =? 0 then 0 else Z.max 5 level).
    assert (0 ≤ l ≤ 255) as Hlr by (unfold l; destruct (Z.eqb_spec level 0); ulia).
    rewrite <- duty_spec by done. by rewrite wrap_small by (unfold in_u, PWM_DUTY_CYCLE; lia).
  - unfold set_color. cbn [Nat.eqb]. destruct (color_rgb level hue sat) as [[r g] b]. by eexists.
Qed.

(** The two top hues leave the wheel: at 254 (360 degrees, the red of hue 0) and
    255 the conversion answers magenta, the blue channel at full where the wheel has
    it at its least. *)
Theorem top_hues_magenta level : 6 ≤ level ≤ 255 →
  color_rgb level 254 254 = (level, 0, level) ∧ color_rgb level 255 254 = (level, 0, level - level / 60) ∧
  color_rgb level 0 254 = (level, 0, 0) ∧
  (ramp level 0 360, ramp level 0 (360 - 120), ramp level 0 (360 - 240)) = (level, 0, 0).
Proof.
  intros Hl. unfold color_rgb. rewrite (proj2 (Z.leb_gt _ _)) by lia. cbn [andb].
  change (u16 (254 * 360 / 254)) with 360. change (u16 (255 * 360 / 254)) with 361. change (u16 (0 * 360 / 254)) with 0.
  change (u8 (254 * 100 / 254)) with 100. change (100 <? 100) with false. cbn iota.
  rewrite (wrap_small 16 level) by ulia. change (100 - 100) with 0. rewrite Z.mul_0_r. change (u16 (0 / 100)) with 0.
  rewrite Z.sub_0_r. change (u16 (360 mod 60)) with 0. change (u16 (361 mod 60)) with 1. change (u16 (0 mod 60)) with 0.
  rewrite Z.mul_0_r, Z.mul_1_r. change (u16 (0 / 60)) with 0. change (u16 (360 / 60)) with 6. change (u16 (361 / 60)) with 6.
  assert (0 ≤ level / 60 ≤ level) by (Z.div_mod_to_equations; lia).
  rewrite (wrap_small 16 (level / 60)) by ulia. rewrite !(wrap_small 32) by ulia. rewrite Z.sub_0_r, Z.add_0_r.
  split_and!; try done. unfold ramp. cbn. rewrite !Z.mul_0_r, !Z.sub_0_r. reflexivity.
Qed.


Module LedDemo.
Lemma byte_ok x : 0 ≤ x < 256 → in_u 8 x.
Proof. done. Qed.

Lemma set_color_correct_witness : set_color 3 254 84 254 = Some [10000; 9804; 0].
Proof. rewrite set_color_correct; [vm_compute; reflexivity|apply byte_ok; lia|lia|apply byte_ok; lia]. Defined.

Lemma lamp_dark_iff_witness : ∃ duties,
  Color_SetColor 3 (fst (Color_Init 3)) 5 170 254 = Some ({| mOnoff := 1; light_v := 5; light_h := 170; light_s := 254 |}, duties) ∧
  duties = [10000; 10000; 10000].
Proof.
  destruct (lamp_dark_iff 5 170 254 (fst (Color_Init 3))) as (d & H & _ & _ & Hd); [apply byte_ok; lia..|].
  exists d. split; [exact H|]. apply Hd. lia.
Defined.

Lemma lamp_defined_witness : set_level 3 100 = None ∧ set_level 1 3 = Some [9804].
Proof.
  destruct (lamp_defined 1 100 0 0) as (H & _); [apply byte_ok; lia..|].
  destruct (lamp_defined 1 3 0 0) as (_ & H' & _); [apply byte_ok; lia..|].
  split; [exact H|]. rewrite H'. vm_compute. reflexivity.
Defined.

Lemma top_hues_magenta_witness : color_rgb 254 254 254 = (254, 0, 254) ∧ color_rgb 254 0 254 = (254, 0, 0).
Proof. destruct (top_hues_magenta 254) as (H1 & _ & H2 & _); [lia|]. split; [exact H1|exact H2]. Defined.
End LedDemo.
