(* ===== verification/ZclCallbacks.v ===== *)
(** * ZclCallbacks: an attribute change drives the relays

    [src/examples/lighting-app/thirdreality/common/ZclCallbacks.cpp] and the part
    of [AppTask.cpp] it calls ([PostEvent], [SetLedState], [GetU8config]).

    The GPIO driver ([bl_gpio_*]) and the RTOS ([xTaskNotify]) belong to the SDK.
    The calls to the driver are kept in order; the level of an output is what was
    set last.  What an input reads is the environment's answer to the calls made so
    far.  The notification of the task is its value and whether one is pending. *)
From S2P Require Import Prelude Zcl ChipError Persistence AttributeTable Led.

(** ** The board ([ZclCallbacks.h], [board.h]) *)
Definition TR_RELAY_REL1 : Z := 14.
Definition TR_RELAY_REL2 : Z := 12.
Definition TR_RELAY_REL3 : Z := 4.
Definition TR_RELAY_REL1IN : Z := 17.
Definition TR_RELAY_REL2IN : Z := 11.
Definition TR_RELAY_REL3IN : Z := 5.
Definition MAX_PWM_CHANNEL : nat := 3.

Inductive gpio_call : Set :=
| bl_gpio_enable_output (pin pullup pulldown : Z)
| bl_gpio_output_set (pin value : Z)
| bl_gpio_enable_input (pin pullup pulldown : Z)
| bl_gpio_input_get (pin : Z).

(** ** Events ([AppTask.h]) *)
Definition APP_EVENT_TIMER : Z := 0x10.
Definition APP_EVENT_BTN_SHORT : Z := 0x20.
Definition APP_EVENT_FACTORY_RESET : Z := 0x40.
Definition APP_EVENT_LIGHTING_ONOFF : Z := 0x00010000.
Definition APP_EVENT_LIGHTING_LEVEL : Z := 0x00020000.
Definition APP_EVENT_LIGHTING_COLOR : Z := 0x00040000.
Definition APP_EVENT_LIGHTING_MASK : Z :=
  Z.lor (Z.lor APP_EVENT_LIGHTING_ONOFF APP_EVENT_LIGHTING_LEVEL) APP_EVENT_LIGHTING_COLOR.
Definition APP_EVENT_IDENTIFY_START : Z := 0x01000000.
Definition APP_EVENT_IDENTIFY_IDENTIFY : Z := 0x02000000.
Definition APP_EVENT_IDENTIFY_STOP : Z := 0x04000000.
Definition APP_EVENT_IDENTIFY_MASK : Z :=
  Z.lor (Z.lor APP_EVENT_IDENTIFY_START APP_EVENT_IDENTIFY_IDENTIFY) APP_EVENT_IDENTIFY_STOP.
Definition APP_EVENT_ALL_MASK : Z :=
  Z.lor (Z.lor (Z.lor APP_EVENT_LIGHTING_MASK APP_EVENT_TIMER) APP_EVENT_BTN_SHORT) APP_EVENT_IDENTIFY_MASK.

(** ** State of the application object and its outputs *)
Record relay_state := {
  notified : bool;
  notification : Z;
  mEndpointId : EndpointId;
  mTimerIntvl : Z;
  mButtonPressedTime : Z;
  u8Config : Z;
  u8LedState : Z;
  widget : ColorLEDWidget;
  lamp_duty : lamp;
  gpio_calls : list gpio_call }.
#[export] Instance eta_relay_state : Eta relay_state := fun s =>
  {| notified := notified s; notification := notification s; mEndpointId := mEndpointId s; mTimerIntvl := mTimerIntvl s;
     mButtonPressedTime := mButtonPressedTime s; u8Config := u8Config s; u8LedState := u8LedState s; widget := widget s;
     lamp_duty := lamp_duty s; gpio_calls := gpio_calls s |}.

(** [PostEvent]: [xTaskNotify] with [eSetBits]. *)
Definition PostEvent (event : Z) (s : relay_state) : relay_state :=
  s <| notification ::= (fun v => u32 (Z.lor v event)) |> <| notified := true |>.

Definition SetEndpointId (endpointId : EndpointId) (s : relay_state) : relay_state :=
  if negb (mEndpointId s =? 0xFFFF) then s <| mEndpointId := endpointId |> else s.
Definition emberAfColorControlClusterInitCallback (endpoint : EndpointId) (s : relay_state) : relay_state :=
  SetEndpointId endpoint s.

(** [SetLedState]: the new state is also the result. *)
Definition SetLedState (endpt : Z) (onoff : bool) (s : relay_state) : relay_state :=
  s <| u8LedState ::= (fun v =>
    if onoff then u8 (Z.lor v (Z.shiftl 1 (endpt - 1))) else u8 (Z.land v (Z.lnot (Z.shiftl 1 (endpt - 1))))) |>.

Definition gpio (c : gpio_call) (s : relay_state) : relay_state := s <| gpio_calls ::= (fun l => l ++ [c]) |>.

(** Colours set by the callbacks bypass the widget. *)
Definition put_color (currLevel currHue currSat : Z) (s : relay_state) : option relay_state :=
  let! l := set_color MAX_PWM_CHANNEL currLevel currHue currSat in Some (s <| lamp_duty := l |>).

Section callbacks.
(** What a pin reads after the calls so far. *)
Context (input : list gpio_call → Z → Z).

Definition gpio_get (pin : Z) (s : relay_state) : Z * relay_state :=
  let s := gpio (bl_gpio_input_get pin) s in (input (gpio_calls s) pin, s).

Definition TRRelayControl (pinOut pinIn upDown : Z) (s : relay_state) : relay_state :=
  let notUp := if upDown =? 0 then 1 else 0 in
  let s := gpio (bl_gpio_enable_output pinOut upDown notUp) s in
  let s := gpio (bl_gpio_output_set pinOut upDown) s in
  let s := gpio (bl_gpio_enable_input pinIn notUp upDown) s in
  let (gpioValue, s) := gpio_get pinIn s in
  if negb (upDown =? 0) then
    if gpioValue =? 0 then snd (gpio_get pinIn (gpio (bl_gpio_output_set pinOut upDown) s)) else s
  else
    if negb (gpioValue =? 0) then snd (gpio_get pinIn (gpio (bl_gpio_output_set pinOut upDown) s)) else s.

(** The three statements of each branch of [MatterPostAttributeChangeCallback]. *)
Definition relay_up (pinOut pinIn endpoint : Z) (s : relay_state) : option relay_state :=
  put_color 6 84 254 (SetLedState endpoint true (TRRelayControl pinOut pinIn 1 s)).
Definition relay_down (pinOut pinIn endpoint : Z) (s : relay_state) : option relay_state :=
  let s := SetLedState endpoint false (TRRelayControl pinOut pinIn 0 s) in
  if u8LedState s =? 0 then put_color 0 0 0 s else Some s.

Definition MatterPostAttributeChangeCallback (path : attribute_path) (value : option bytes) (s : relay_state) : option relay_state :=
  let endpoint := path_ep path in
  if (path_cl path =? 6) && (path_attr path =? 0) then
    let s := PostEvent APP_EVENT_LIGHTING_ONOFF s in
    let! v := value in
    let! x := v !! 0%nat in
    let u8cfg := u8Config s in
    if 0 <? x then
      if endpoint =? 1 then relay_up TR_RELAY_REL1 TR_RELAY_REL1IN endpoint s
      else if endpoint =? 2 then
        if (u8cfg =? 2) || (u8cfg =? 4) then relay_up TR_RELAY_REL2 TR_RELAY_REL2IN endpoint s
        else if u8cfg =? 3 then relay_up TR_RELAY_REL3 TR_RELAY_REL3IN endpoint s
        else Some s
      else if (endpoint =? 3) && (u8cfg =? 4) then relay_up TR_RELAY_REL3 TR_RELAY_REL3IN endpoint s
      else Some s
    else
      if endpoint =? 1 then relay_down TR_RELAY_REL1 TR_RELAY_REL1IN endpoint s
      else if endpoint =? 2 then
        if (u8cfg =? 2) || (u8cfg =? 4) then relay_down TR_RELAY_REL2 TR_RELAY_REL2IN endpoint s
        else if u8cfg =? 3 then relay_down TR_RELAY_REL3 TR_RELAY_REL3IN endpoint s
        else Some s
      else if (endpoint =? 3) && (u8cfg =? 4) then relay_down TR_RELAY_REL3 TR_RELAY_REL3IN endpoint s
      else Some s
  else if path_cl path =? 3 then Some (PostEvent APP_EVENT_IDENTIFY_IDENTIFY s)
  else Some s.
End callbacks.

(** ** What the relays show *)

(** The relay of an endpoint in a configuration. *)
Definition relay_pin (u8cfg : Z) (ep : EndpointId) : option Z :=
  if ep =? 1 then Some TR_RELAY_REL1
  else if ep =? 2 then
    if (u8cfg =? 2) || (u8cfg =? 4) then Some TR_RELAY_REL2 else if u8cfg =? 3 then Some TR_RELAY_REL3 else None
  else if (ep =? 3) && (u8cfg =? 4) then Some TR_RELAY_REL3 else None.

Lemma relay_pin_inj cfg ep1 ep2 p : relay_pin cfg ep1 = Some p → relay_pin cfg ep2 = Some p → ep1 = ep2.
Proof.
  unfold relay_pin, TR_RELAY_REL1, TR_RELAY_REL2, TR_RELAY_REL3.
  repeat match goal with
  | |- context [?x =? ?y] => destruct (Z.eqb_spec x y); subst; cbn [andb orb]
  end; intros; simplify_eq; lia.
Qed.

(** The level of an output: the last one set. *)
Fixpoint last_level (calls : list gpio_call) (pin : Z) (level : option Z) : option Z :=
  match calls with
  | [] => level
  | bl_gpio_output_set p v :: calls => last_level calls pin (if p =? pin then Some v else level)
  | _ :: calls => last_level calls pin level
  end.
Definition pin_level (s : relay_state) (pin : Z) : option Z := last_level (gpio_calls s) pin None.

Lemma last_level_app c1 c2 pin l : last_level (c1 ++ c2) pin l = last_level c2 pin (last_level c1 pin l).
Proof. revert l; induction c1 as [|[] c1 IH]; intros l; simpl; auto. Qed.

Lemma relay_control_level input out inn v s pin : v = 0 ∨ v = 1 →
  let s' := TRRelayControl input out inn v s in
  pin_level s' pin = (if out =? pin then Some v else pin_level s pin) ∧
  s' = s <| gpio_calls := gpio_calls s' |>.
Proof.
  intros Hv. unfold TRRelayControl, gpio_get, pin_level.
  destruct Hv as [->| ->]; cbn [Z.eqb negb]; destruct (input _ _ =? 0); cbn [negb snd gpio_calls gpio update];
    (split; [|by destruct s]); rewrite !last_level_app; cbn [last_level]; by destruct (out =? pin).
Qed.

(** The input that watches a relay. *)
Definition relay_in (pin : Z) : Z :=
  if pin =? TR_RELAY_REL1 then TR_RELAY_REL1IN else if pin =? TR_RELAY_REL2 then TR_RELAY_REL2IN else TR_RELAY_REL3IN.

(** The nested tests of the callback are one lookup. *)
Lemma callback_onoff input ep x rest s :
  MatterPostAttributeChangeCallback input {| path_ep := ep; path_cl := 6; path_attr := 0 |} (Some (x :: rest)) s =
  let s := PostEvent APP_EVENT_LIGHTING_ONOFF s in
  match relay_pin (u8Config s) ep with
  | Some p => if 0 <? x then relay_up input p (relay_in p) ep s else relay_down input p (relay_in p) ep s
  | None => Some s
  end.
Proof.
  unfold MatterPostAttributeChangeCallback, relay_pin. cbn [path_ep path_cl path_attr Z.eqb andb lookup list_lookup].
  destruct (0 <? x), (ep =? 1); try done; destruct (ep =? 2); cbn [u8Config PostEvent update];
    destruct (u8Config s =? 2), (u8Config s =? 4), (u8Config s =? 3), (ep =? 3); done.
Qed.

Lemma led_bit ep on s i : 1 ≤ ep ≤ 8 → in_u 8 (u8LedState s) → 0 ≤ i →
  in_u 8 (u8LedState (SetLedState ep on s)) ∧
  Z.testbit (u8LedState (SetLedState ep on s)) i = if i =? ep - 1 then on else Z.testbit (u8LedState s) i.
Proof.
  intros Hep Hs Hi. split; [destruct on; by apply wrap_range|].
  assert (∀ j, 8 ≤ j → Z.testbit (u8LedState s) j = false) as Hhigh.
  { intros j Hj. unfold in_u in Hs. destruct (Z.eqb_spec (u8LedState s) 0) as [->|]; [by rewrite Z.bits_0|].
    apply Z.bits_above_log2; [lia|]. apply Z.log2_lt_pow2; [lia|]. eapply Z.lt_le_trans; [apply Hs|]. apply Z.pow_le_mono_r; lia. }
  assert (Z.testbit (Z.shiftl 1 (ep - 1)) i = (i =? ep - 1)) as Hbit.
  { rewrite Z.shiftl_1_l. rewrite Z.pow2_bits_eqb by lia. apply Z.eqb_sym. }
  unfold SetLedState. cbn [u8LedState update].
  assert (∀ v, Z.testbit (u8 v) i = (i <? 8) && Z.testbit v i) as Hw.
  { intros v. unfold wrap. destruct (Z.ltb_spec i 8); cbn [andb]; [by apply Z.mod_pow2_bits_low|by apply Z.mod_pow2_bits_high; lia]. }
  destruct on; rewrite Hw; [rewrite Z.lor_spec|rewrite Z.land_spec, Z.lnot_spec by done]; rewrite Hbit;
    destruct (Z.eqb_spec i (ep - 1)), (Z.ltb_spec i 8); cbn [andb negb orb]; rewrite ?andb_false_r, ?andb_true_r, ?orb_false_r, ?orb_true_r; try lia; try done;
    rewrite Hhigh by lia; done.
Qed.

Lemma relay_pin_range cfg ep p : relay_pin cfg ep = Some p → 1 ≤ ep ≤ 3.
Proof.
  unfold relay_pin. destruct (Z.eqb_spec ep 1); [lia|]. destruct (Z.eqb_spec ep 2); [lia|].
  destruct (Z.eqb_spec ep 3); [lia|done].
Qed.

Definition green : lamp := default [] (set_color MAX_PWM_CHANNEL 6 84 254).
Definition dark : lamp := repeat PWM_DUTY_CYCLE MAX_PWM_CHANNEL.

Lemma put_green s : put_color 6 84 254 s = Some (s <| lamp_duty := green |>).
Proof. reflexivity. Qed.
Lemma put_dark s : put_color 0 0 0 s = Some (s <| lamp_duty := dark |>).
Proof. reflexivity. Qed.

(** The effect of an On/Off change, state by state. *)
Lemma callback_spec input ep x rest s :
  ∃ calls, MatterPostAttributeChangeCallback input {| path_ep := ep; path_cl := 6; path_attr := 0 |} (Some (x :: rest)) s =
    Some (let s := PostEvent APP_EVENT_LIGHTING_ONOFF s in
          match relay_pin (u8Config s) ep with
          | None => s
          | Some p =>
              let led := u8LedState (SetLedState ep (0 <? x) s) in
              s <| gpio_calls := calls |> <| u8LedState := led |>
                <| lamp_duty := if 0 <? x then green else if led =? 0 then dark else lamp_duty s |>
          end) ∧
    ∀ pin, last_level calls pin None =
      if bool_decide (relay_pin (u8Config s) ep = Some pin) then Some (if 0 <? x then 1 else 0) else pin_level s pin.
Proof.
  rewrite callback_onoff. cbv zeta. cbn [u8Config PostEvent update].
  destruct (relay_pin (u8Config s) ep) as [p|] eqn:Hp; [|exists (gpio_calls s); split; [done|by intros]].
  set (s1 := PostEvent APP_EVENT_LIGHTING_ONOFF s).
  assert (∀ v, v = 0 ∨ v = 1 → ∀ pin, last_level (gpio_calls (TRRelayControl input p (relay_in p) v s1)) pin None =
    if bool_decide (Some p = Some pin) then Some v else pin_level s pin) as Hlev.
  { intros v Hv pin. destruct (relay_control_level input p (relay_in p) v s1 pin Hv) as [Hl _]. unfold pin_level in Hl at 1.
    rewrite Hl. destruct (Z.eqb_spec p pin) as [->|]; [by rewrite bool_decide_true|]. by rewrite bool_decide_false by congruence. }
  destruct (0 <? x).
  - destruct (relay_control_level input p (relay_in p) 1 s1 0) as [_ Heq]; [by right|].
    exists (gpio_calls (TRRelayControl input p (relay_in p) 1 s1)). split; [|apply Hlev; by right].
    unfold relay_up. rewrite put_green. rewrite Heq. done.
  - destruct (relay_control_level input p (relay_in p) 0 s1 0) as [_ Heq]; [by left|].
    exists (gpio_calls (TRRelayControl input p (relay_in p) 0 s1)). split; [|apply Hlev; by left].
    unfold relay_down. rewrite Heq. cbn [u8LedState SetLedState update].
    destruct (_ =? 0); [by rewrite put_dark|done].
Qed.

(** C33: A change of an endpoint's On/Off attribute drives the relay the board's
    configuration gives that endpoint, and no other output: whatever the watching
    input reads, the output ends at the attribute's value.  The bit of the endpoint
    in the lamp state follows, other bits stay, and the lamp is green after an on,
    dark after the off that clears the last bit.  An endpoint without a relay drives
    nothing.  The task is notified in every case. *)
Theorem relay_callback_correct input ep x rest s :
  in_u 8 (u8LedState s) →
  ∃ s', MatterPostAttributeChangeCallback input {| path_ep := ep; path_cl := 6; path_attr := 0 |} (Some (x :: rest)) s = Some s' ∧
    notified s' = true ∧ u8Config s' = u8Config s ∧
    match relay_pin (u8Config s) ep with
    | None => s' = PostEvent APP_EVENT_LIGHTING_ONOFF s
    | Some p =>
        (∀ q, pin_level s' q = if q =? p then Some (if 0 <? x then 1 else 0) else pin_level s q) ∧
        (∀ i, 0 ≤ i → Z.testbit (u8LedState s') i = if i =? ep - 1 then 0 <? x else Z.testbit (u8LedState s) i) ∧
        lamp_duty s' = if 0 <? x then green else if u8LedState s' =? 0 then dark else lamp_duty s
    end.
Proof.
  intros Hs. destruct (callback_spec input ep x rest s) as (calls & Hc & Hl). eexists. split; [exact Hc|].
  cbv zeta. cbn [u8Config PostEvent update]. destruct (relay_pin (u8Config s) ep) as [p|] eqn:Hp; [|done].
  split; [done|]. split; [done|]. split; [|split].
  - intros q. unfold pin_level at 1. simpl. rewrite Hl. destruct (Z.eqb_spec q p) as [->|]; [by rewrite bool_decide_true|].
    by rewrite bool_decide_false by congruence.
  - intros i Hi. apply relay_pin_range in Hp.
    apply (led_bit ep (0 <? x) (PostEvent APP_EVENT_LIGHTING_ONOFF s) i); [lia|done|done].
  - done.
Qed.

(** ** What a callback leaves alone *)
Lemma post_bit event s i : 0 ≤ i < 32 →
  Z.testbit (notification (PostEvent event s)) i = Z.testbit (notification s) i || Z.testbit event i.
Proof. intros Hi. cbn [notification PostEvent update]. unfold wrap. by rewrite Z.mod_pow2_bits_low, Z.lor_spec by lia. Qed.

(** The endpoint and the configuration stay, and posted events stay posted. *)
Record keeps (s s' : relay_state) : Prop := {
  kp_endpoint : mEndpointId s' = mEndpointId s;
  kp_config : u8Config s' = u8Config s;
  kp_bits : ∀ i, 0 ≤ i < 32 → Z.testbit (notification s) i = true → Z.testbit (notification s') i = true;
  kp_notified : notified s = true → notified s' = true }.

#[export] Instance keeps_preorder : PreOrder keeps.
Proof.
  split; [by split|]. intros s1 s2 s3 [E1 C1 B1 N1] [E2 C2 B2 N2]. split; [congruence|congruence|auto|auto].
Qed.

Lemma keeps_post event s : keeps s (PostEvent event s).
Proof. split; [done|done| |done]. intros i Hi Hb. rewrite post_bit by done. by rewrite Hb. Qed.

Lemma keeps_eq s s' : mEndpointId s' = mEndpointId s → u8Config s' = u8Config s → notification s' = notification s →
  notified s' = notified s → keeps s s'.
Proof. intros H1 H2 H3 H4. split; [done|done|by rewrite H3|by rewrite H4]. Qed.

Lemma keeps_callback input path x rest s s' :
  MatterPostAttributeChangeCallback input path (Some (x :: rest)) s = Some s' → keeps s s'.
Proof.
  destruct path as [ep cl id]. destruct (decide (cl = 6 ∧ id = 0)) as [[-> ->]|Hne].
  - destruct (callback_spec input ep x rest s) as (calls & -> & _). cbv zeta. intros [= <-].
    transitivity (PostEvent APP_EVENT_LIGHTING_ONOFF s); [apply keeps_post|].
    destruct (relay_pin _ ep); [by apply keeps_eq|done].
  - unfold MatterPostAttributeChangeCallback. cbn [path_ep path_cl path_attr].
    destruct (Z.eqb_spec cl 6), (Z.eqb_spec id 0); cbn [andb]; try tauto;
      (destruct (cl =? 3); intros [= <-]; [apply keeps_post|done]).
Qed.

Module CallbackDemo.
Definition idle : relay_state :=
  {| notified := false; notification := 0; mEndpointId := 1; mTimerIntvl := 0; mButtonPressedTime := 0; u8Config := 4;
     u8LedState := 1; widget := fst (Color_Init MAX_PWM_CHANNEL); lamp_duty := dark; gpio_calls := [] |}.

(** A stuck feedback input does not change what is driven. *)
Lemma relay_callback_correct_witness :
  ∃ s', MatterPostAttributeChangeCallback (fun _ _ => 0) {| path_ep := 3; path_cl := 6; path_attr := 0 |} (Some [1]) idle = Some s' ∧
    pin_level s' TR_RELAY_REL3 = Some 1 ∧ pin_level s' TR_RELAY_REL2 = None ∧ Z.testbit (u8LedState s') 2 = true.
Proof.
  destruct (relay_callback_correct (fun _ _ => 0) 3 1 [] idle) as (s' & H & _ & _ & Hp & Hb & _); [vm_compute; split; congruence|].
  exists s'. split; [exact H|]. split; [rewrite Hp; reflexivity|]. split; [rewrite Hp; reflexivity|].
  rewrite Hb; [reflexivity|lia].
Defined.
End CallbackDemo.
