(* ===== verification/RelayStore.v ===== *)
(** * RelayStore: the attribute table with the relay's callback

    [emAfWriteAttribute] calls [MatterPostAttributeChangeCallback] as part of a
    write.  Here the table of [AttributeTable] and the application state of
    [ZclCallbacks] are one device: a write runs the callback on the change it
    reports.  The device is again an [AttributeStore], so the cluster servers and
    their theorems apply to it, and what they write reaches the relays. *)
From S2P Require Import Prelude Zcl EndpointTable ClusterQueries ChipError Persistence AttributeStorage AttributeTable StoreInterface OnOffServer RelayDevice Led ZclCallbacks.

Record device (P : Type) := { dv_at : at_state P; dv_app : relay_state }.
#[global] Arguments dv_at {P} _.
#[global] Arguments dv_app {P} _.
#[export] Instance eta_device {P} : Eta (device P) := fun d => {| dv_at := dv_at d; dv_app := dv_app d |}.

Section device_store.
Context {P : Type} `{AttributePersistenceProvider P} (cfg : storage_config) (hooks : change_hooks).
Context (input : list gpio_call → Z → Z).

(** The callbacks of a write, in order; the report and the cluster's own callback
    do not touch the application. *)
Fixpoint dispatch (events : list at_event) (s : relay_state) : option relay_state :=
  match events with
  | [] => Some s
  | MatterPostAttributeChange path _ _ value :: events =>
      let! s := MatterPostAttributeChangeCallback input path value s in dispatch events s
  | _ :: events => dispatch events s
  end.

Definition device_write (d : device P) (ep : EndpointId) (cl : ClusterId) (id : AttributeId) (v : bytes) (ty : Z)
    : option (EmberAfStatus * device P) :=
  let! (st, a) := emberAfWriteAttribute cfg hooks (dv_at d) ep cl id (Some v) ty in
  let! app := dispatch (drop (length (at_log (dv_at d))) (at_log a)).*1 (dv_app d) in
  Some (st, {| dv_at := a; dv_app := app |}).

Definition device_store : AttributeStore (device P) := {|
  store_read d ep cl id n := @store_read _ (table_store cfg hooks) (dv_at d) ep cl id n;
  store_write := device_write;
  store_contains_server d ep cl := @store_contains_server _ (table_store cfg hooks) (dv_at d) ep cl;
  store_server_index d ep cl n := @store_server_index _ (table_store cfg hooks) (dv_at d) ep cl n;
  store_known_volatile d ep cl id := @store_known_volatile _ (table_store cfg hooks) (dv_at d) ep cl id |}.
End device_store.

Section laws.
Context {P : Type} `{AttributePersistenceLaws P} (cfg : storage_config) (hooks : change_hooks).
Context (input : list gpio_call → Z → Z) (Hhooks : hooks_accept hooks).
Notation table_write d := (emberAfWriteAttribute cfg hooks (dv_at d)).

(** The callback runs on every value of at least a byte. *)
Lemma callback_total path x rest s : is_Some (MatterPostAttributeChangeCallback input path (Some (x :: rest)) s).
Proof.
  destruct path as [ep cl id]. destruct (decide (cl = 6 ∧ id = 0)) as [[-> ->]|Hne].
  - destruct (callback_spec input ep x rest s) as (c & -> & _). by eexists.
  - unfold MatterPostAttributeChangeCallback. cbn [path_ep path_cl path_attr].
    destruct (Z.eqb_spec cl 6), (Z.eqb_spec id 0); cbn [andb]; try (by destruct (cl =? 3)). tauto.
Qed.

Definition device_attr (d : device P) (ep : EndpointId) (cl : ClusterId) (id : AttributeId) (n : nat) : Prop :=
  plain_attr cfg (store (dv_at d)) ep cl id n ∧ (0 < n)%nat.

(** A plain write, with the callback it runs. *)
Lemma device_write_plain d ep cl id n v ty : device_attr d ep cl id n → length v = n → bytes_ok v →
  ∃ a rs, table_write d ep cl id (Some v) ty = Some (EMBER_ZCL_STATUS_SUCCESS, a) ∧
    device_write cfg hooks input d ep cl id v ty = Some (EMBER_ZCL_STATUS_SUCCESS, {| dv_at := a; dv_app := rs |}) ∧
    MatterPostAttributeChangeCallback input {| path_ep := ep; path_cl := cl; path_attr := id |} (Some v) (dv_app d) = Some rs.
Proof.
  intros [Hp Hn] Hlen Hv. destruct (plain_write cfg hooks Hhooks (dv_at d) ep cl id n v ty Hp Hlen Hv)
    as (a & am & Hw & _ & _ & _ & _ & _ & f & Hlog).
  destruct v as [|x v]; [simpl in Hlen; lia|]. destruct (callback_total {| path_ep := ep; path_cl := cl; path_attr := id |} x v (dv_app d))
    as [rs Happ].
  exists a, rs. split; [done|]. split; [|done]. unfold device_write. rewrite Hw.
  assert (dispatch input (drop (length (at_log (dv_at d))) (at_log a)).*1 (dv_app d) = Some rs) as ->; [|done].
  rewrite Hlog, drop_app_length. unfold change_calls. cbn [app fmap list_fmap fst dispatch]. rewrite Happ. by destruct f.
Qed.

Definition device_store_laws : @AttributeStoreLaws (device P) (device_store cfg hooks input).
Proof.
  pose proof (table_store_laws cfg hooks Hhooks) as L.
  unshelve refine {| store_readable (d : device P) ep cl id n := readable_attr cfg (store (dv_at d)) ep cl id n;
                     store_attr := device_attr |}.
  - intros d ep cl id n [[Hr _] _]. exact Hr.
  - intros d ep cl id n Hr. exact (@store_read_attr _ _ (table_store_laws cfg hooks Hhooks) (dv_at d) ep cl id n Hr).
  - intros d ep cl id n v ty Ha Hlen Hv. pose proof Ha as [Hp Hn].
    destruct (device_write_plain d ep cl id n v ty Ha Hlen Hv) as (a & rs & Hw & Hdw & Hcb).
    destruct (@store_write_attr _ _ (table_store_laws cfg hooks Hhooks) (dv_at d) ep cl id n v ty Hp Hlen Hv)
      as (a' & Hw' & Hr & Hat & Hrd & Hoth & H1 & H2 & H3).
    cbn [store_write table_store] in Hw'. rewrite Hw in Hw'. injection Hw' as <-.
    exists {| dv_at := a; dv_app := rs |}. split; [exact Hdw|]. split; [exact Hr|]. split; [|split; [exact Hrd|split; [exact Hoth|done]]].
    intros ep' cl' id' m [Hp' Hm]. split; [by apply Hat|done].
Defined.
End laws.

(** ** The relays follow the attributes *)
Section follow.
Context {P : Type} `{AttributePersistenceLaws P} (cfg : storage_config) (hooks : change_hooks).
Context (input : list gpio_call → Z → Z) (Hhooks : hooks_accept hooks).
#[local] Instance follow_store : AttributeStore (device P) := device_store cfg hooks input.
#[local] Instance follow_laws : AttributeStoreLaws (device P) := device_store_laws cfg hooks input Hhooks.

Implicit Types d : device P.

(** The On/Off cluster of the endpoint has the attributes the server writes. *)
Definition onoff_attrs (d : device P) (ep : EndpointId) : Prop :=
  store_attr d ep OnOff_Id OnOff_OnOff 1 ∧ store_attr d ep OnOff_Id OnOff_GlobalSceneControl 1 ∧
  store_attr d ep OnOff_Id OnOff_OnTime 2 ∧ store_attr d ep OnOff_Id OnOff_OffWaitTime 2.

(** The relay of the endpoint is at the value of its attribute. *)
Definition in_sync (d : device P) (ep : EndpointId) : Prop :=
  ∀ p, relay_pin (u8Config (dv_app d)) ep = Some p →
  ∃ b, get_bool d ep OnOff_Id OnOff_OnOff false = Some (EMBER_ZCL_STATUS_SUCCESS, b) ∧
    pin_level (dv_app d) p = Some (if b then 1 else 0).

Lemma onoff_attrs_write d (d' : device P) ep e id n v (ty : Z) : store_attr d ep OnOff_Id id n → length v = n → bytes_ok v →
  store_write d ep OnOff_Id id v ty = Some (EMBER_ZCL_STATUS_SUCCESS, d') → onoff_attrs d e → onoff_attrs d' e.
Proof.
  intros Ha Hl Hv Hw (H1 & H2 & H3 & H4).
  destruct (store_write_attr d ep OnOff_Id id n v ty Ha Hl Hv) as (d2 & Hw2 & _ & Hat & _). rewrite Hw in Hw2. injection Hw2 as <-.
  split_and!; by apply Hat.
Qed.

(** A byte 0 or 1 written to an attribute reads back as a boolean. *)
Lemma get_bool_written d ep (b : bool) (d' : device P) (ty : Z) : store_attr d ep OnOff_Id OnOff_OnOff 1 →
  store_write d ep OnOff_Id OnOff_OnOff [if b then 1 else 0] ty = Some (EMBER_ZCL_STATUS_SUCCESS, d') →
  get_bool d' ep OnOff_Id OnOff_OnOff false = Some (EMBER_ZCL_STATUS_SUCCESS, b).
Proof.
  intros Ha Hw. destruct (store_write_attr d ep OnOff_Id OnOff_OnOff 1 [if b then 1 else 0] ty Ha eq_refl) as (d2 & Hw2 & Hr & _).
  { destruct b; repeat constructor; done. }
  rewrite Hw in Hw2. injection Hw2 as <-. unfold get_bool. rewrite Hr. by destruct b.
Qed.

Lemma get_bool_framed d ep id n v ty d' e : store_attr d ep OnOff_Id id n → length v = n → bytes_ok v →
  store_write d ep OnOff_Id id v ty = Some (EMBER_ZCL_STATUS_SUCCESS, d') → store_attr d e OnOff_Id OnOff_OnOff 1 →
  (e, OnOff_OnOff) ≠ (ep, id) →
  get_bool d' e OnOff_Id OnOff_OnOff false = get_bool d e OnOff_Id OnOff_OnOff false.
Proof.
  intros Ha Hl Hv Hw He Hne.
  destruct (store_write_attr d ep OnOff_Id id n v ty Ha Hl Hv) as (d2 & Hw2 & _ & _ & _ & Hoth & _). rewrite Hw in Hw2. injection Hw2 as <-.
  unfold get_bool. by rewrite Hoth by (congruence || by apply store_attr_readable).
Qed.

(** Writing the On/Off attribute puts its relay in step, and keeps the others'. *)
Lemma set_on_sync d ep b : store_attr d ep OnOff_Id OnOff_OnOff 1 →
  ∃ d', set_bool d ep OnOff_Id OnOff_OnOff b = Some (EMBER_ZCL_STATUS_SUCCESS, d') ∧
    u8Config (dv_app d') = u8Config (dv_app d) ∧ in_sync d' ep ∧
    get_bool d' ep OnOff_Id OnOff_OnOff false = Some (EMBER_ZCL_STATUS_SUCCESS, b) ∧
    (∀ e, onoff_attrs d e → onoff_attrs d' e) ∧
    (∀ e, e ≠ ep → store_attr d e OnOff_Id OnOff_OnOff 1 →
       get_bool d' e OnOff_Id OnOff_OnOff false = get_bool d e OnOff_Id OnOff_OnOff false ∧ (in_sync d e → in_sync d' e)).
Proof.
  intros Ha. assert (bytes_ok [if b then 1 else 0]) as Hok by (destruct b; repeat constructor; done).
  destruct (device_write_plain cfg hooks input Hhooks d ep OnOff_Id OnOff_OnOff 1 [if b then 1 else 0] ZCL_BOOLEAN_ATTRIBUTE_TYPE Ha eq_refl Hok)
    as (a & rs & _ & Hw & Hcb).
  exists {| dv_at := a; dv_app := rs |}. split; [exact Hw|].
  destruct (callback_spec input ep (if b then 1 else 0) [] (dv_app d)) as (calls & Hc & Hl).
  change (path_cl _) with 6 in Hcb. unfold OnOff_Id, OnOff_OnOff in Hcb. rewrite Hc in Hcb. injection Hcb as Hrs.
  assert (u8Config rs = u8Config (dv_app d) ∧ (∀ p, relay_pin (u8Config (dv_app d)) ep = Some p → gpio_calls rs = calls) ∧
    (relay_pin (u8Config (dv_app d)) ep = None → gpio_calls rs = gpio_calls (dv_app d))) as (Hcfg & Hcalls & Hnone).
  { rewrite <- Hrs. cbv zeta. cbn [u8Config PostEvent update]. by destruct (relay_pin _ ep). }
  assert ((0 <? (if b then 1 else 0)) = b) as Hbb by by destruct b.
  split; [exact Hcfg|]. split; [|split; [|split]].
  - intros p Hp. cbn [dv_app] in *. rewrite Hcfg in Hp. exists b. split; [by eapply get_bool_written|].
    unfold pin_level. rewrite (Hcalls p Hp), Hl, bool_decide_true, Hbb by done. done.
  - by eapply get_bool_written.
  - intros e. exact (onoff_attrs_write d _ ep e OnOff_OnOff 1 [if b then 1 else 0] _ Ha eq_refl Hok Hw).
  - intros e He Hae. split; [by eapply get_bool_framed; [exact Ha| | |exact Hw| |congruence]|].
    intros Hsync p Hp. cbn [dv_app] in *. rewrite Hcfg in Hp. destruct (Hsync p Hp) as (be & Hg & Hpin). exists be.
    split; [by erewrite get_bool_framed; [exact Hg|exact Ha| | |exact Hw| |congruence]|].
    destruct (relay_pin (u8Config (dv_app d)) ep) as [q|] eqn:Hq; [|unfold pin_level; by rewrite Hnone].
    unfold pin_level at 1. rewrite (Hcalls q eq_refl), Hl. rewrite bool_decide_false; [done|].
    intros [= ->]. apply He. by eapply relay_pin_inj.
Qed.

Lemma get_on_total d ep value : store_attr d ep OnOff_Id OnOff_OnOff 1 → is_Some (get_bool d ep OnOff_Id OnOff_OnOff value).
Proof.
  intros Ha. unfold get_bool. destruct (store_read_attr d ep OnOff_Id OnOff_OnOff 1 (store_attr_readable _ _ _ _ _ Ha)) as (v & -> & _).
  destruct (negb _); [by eexists|]. destruct (_ =? _); by eexists.
Qed.

Lemma set_on_keeps d ep b st d' : store_attr d ep OnOff_Id OnOff_OnOff 1 →
  set_bool d ep OnOff_Id OnOff_OnOff b = Some (st, d') → keeps (dv_app d) (dv_app d').
Proof.
  intros Ha Hw. assert (bytes_ok [if b then 1 else 0]) as Hok by (destruct b; repeat constructor; done).
  destruct (device_write_plain cfg hooks input Hhooks d ep OnOff_Id OnOff_OnOff 1 [if b then 1 else 0] ZCL_BOOLEAN_ATTRIBUTE_TYPE Ha eq_refl Hok)
    as (a & rs & _ & Hw' & Hcb).
  change (set_bool d ep OnOff_Id OnOff_OnOff b) with
    (device_write cfg hooks input d ep OnOff_Id OnOff_OnOff [if b then 1 else 0] ZCL_BOOLEAN_ATTRIBUTE_TYPE) in Hw.
  rewrite Hw' in Hw. injection Hw as _ <-. by eapply keeps_callback.
Qed.

(** Writing another attribute of the cluster touches no relay. *)
Lemma set_other_sync d ep id n v (ty : Z) (d' : device P) e : id ≠ OnOff_OnOff → store_attr d ep OnOff_Id id n → length v = n → bytes_ok v →
  store_write d ep OnOff_Id id v ty = Some (EMBER_ZCL_STATUS_SUCCESS, d') →
  store_attr d e OnOff_Id OnOff_OnOff 1 → dv_app d' = dv_app d ∧ (in_sync d e → in_sync d' e).
Proof.
  intros Hid Ha Hl Hv Hw He.
  destruct (device_write_plain cfg hooks input Hhooks d ep OnOff_Id id n v ty Ha Hl Hv) as (a & rs & _ & Hw' & Hcb).
  change (store_write d ep OnOff_Id id v ty) with (device_write cfg hooks input d ep OnOff_Id id v ty) in Hw.
  rewrite Hw' in Hw. injection Hw as <-.
  assert (rs = dv_app d) as ->.
  { unfold MatterPostAttributeChangeCallback in Hcb. cbn [path_ep path_cl path_attr] in Hcb.
    rewrite (proj2 (Z.eqb_neq id 0)) in Hcb by exact Hid. by injection Hcb. }
  split; [done|]. intros Hs p Hp. destruct (Hs p Hp) as (b & Hg & Hpin). exists b. split; [|done].
  erewrite get_bool_framed; [exact Hg|exact Ha|exact Hl|exact Hv|exact Hw'|exact He|congruence].
Qed.

(** What the table shows, the device shows. *)
Lemma device_view d ep v :
  @view _ (table_store cfg hooks) (table_store_laws cfg hooks Hhooks) (dv_at d) ep v → view d ep v.
Proof.
  intros [(W1 & W2 & W3 & W4) H1 H2 H3 H4 H5 H6]. split; [|exact H1|exact H2|exact H3|exact H4|exact H5|exact H6].
  split_and!; (split; [assumption|lia]).
Qed.

(** All the relays of [eps] in step. *)
Definition synced (eps : list EndpointId) (cfg8 : Z) (d : device P) : Prop :=
  u8Config (dv_app d) = cfg8 ∧ ∀ e, e ∈ eps → onoff_attrs d e ∧ in_sync d e.

Lemma synced_bool eps cfg8 ep d id b st d' : ep ∈ eps → synced eps cfg8 d → id = OnOff_OnOff ∨ id = OnOff_GlobalSceneControl →
  set_bool d ep OnOff_Id id b = Some (st, d') → synced eps cfg8 d'.
Proof.
  intros Hep [Hc Hs] Hid Hw. destruct (Hs ep Hep) as [(A1 & A2 & _) _].
  assert (bytes_ok [if b then 1 else 0]) as Hok by (destruct b; repeat constructor; done).
  destruct (decide (id = OnOff_OnOff)) as [->|Hne].
  - destruct (set_on_sync d ep b A1) as (d2 & Hw2 & Hc2 & Hsy & _ & Hat & Hoth). rewrite Hw in Hw2. injection Hw2 as -> <-.
    split; [by rewrite Hc2|]. intros e He. destruct (Hs e He) as [Ae Se]. split; [by apply Hat|].
    destruct (decide (e = ep)) as [->|Hn]; [done|]. by apply (Hoth e Hn); [apply Ae|].
  - assert (id = OnOff_GlobalSceneControl) as -> by tauto.
    destruct (store_write_attr d ep OnOff_Id _ 1 [if b then 1 else 0] ZCL_BOOLEAN_ATTRIBUTE_TYPE A2 eq_refl Hok) as (d2 & Hw2 & _).
    unfold set_bool in Hw. rewrite Hw in Hw2. injection Hw2 as -> <-.
    split; [|intros e He; destruct (Hs e He) as [Ae Se]; split].
    + rewrite <- Hc. f_equal. by eapply (set_other_sync d ep _ 1 _ _ d' ep); [done|exact A2| | |exact Hw|].
    + by eapply onoff_attrs_write; [exact A2| | |exact Hw|].
    + by eapply (set_other_sync d ep _ 1 _ _ d' e); [done|exact A2| | |exact Hw|apply Ae|].
Qed.

Lemma synced_u16 eps cfg8 ep d id x st d' : ep ∈ eps → synced eps cfg8 d → id = OnOff_OnTime ∨ id = OnOff_OffWaitTime →
  set_u16 d ep OnOff_Id id x = Some (st, d') → synced eps cfg8 d'.
Proof.
  intros Hep [Hc Hs] Hid Hw. destruct (Hs ep Hep) as [(A1 & _ & A3 & A4) _].
  assert (store_attr d ep OnOff_Id id 2) as A by (destruct Hid as [->| ->]; done).
  assert (id ≠ OnOff_OnOff) as Hne by (by destruct Hid as [->| ->]).
  destruct (store_write_attr d ep OnOff_Id id 2 (le_bytes 2 x) ZCL_INT16U_ATTRIBUTE_TYPE A (length_le_bytes _ _) (le_bytes_ok _ _)) as (d2 & Hw2 & _).
  unfold set_u16 in Hw. rewrite Hw in Hw2. injection Hw2 as -> <-.
  pose proof (length_le_bytes 2 x) as Hl. pose proof (le_bytes_ok 2 x) as Hok.
  split; [|intros e He; destruct (Hs e He) as [Ae Se]; split].
  - rewrite <- Hc. f_equal. by eapply (set_other_sync d ep id 2 _ _ d' ep); [| | | |exact Hw|].
  - by eapply onoff_attrs_write; [exact A| | |exact Hw|].
  - by eapply (set_other_sync d ep id 2 _ _ d' e); [| | | |exact Hw|apply Ae|].
Qed.

(** Where the level control effect is not called, it stays so. *)
Lemma no_level_written build d ep id n v ty d' : store_attr d ep OnOff_Id id n → length v = n → bytes_ok v →
  store_write d ep OnOff_Id id v ty = Some (EMBER_ZCL_STATUS_SUCCESS, d') →
  no_level_effect build d ep false → no_level_effect build d' ep false.
Proof.
  intros Ha Hl Hv Hw [Hf|Hn]; [by left|right].
  destruct (store_write_attr d ep OnOff_Id id n v ty Ha Hl Hv) as (d2 & Hw2 & _ & _ & _ & _ & Hc & _). rewrite Hw in Hw2.
  injection Hw2 as <-. by rewrite Hc.
Qed.

Lemma no_level_bool build eps cfg8 ep d id b st d' : ep ∈ eps → synced eps cfg8 d →
  id = OnOff_OnOff ∨ id = OnOff_GlobalSceneControl → set_bool d ep OnOff_Id id b = Some (st, d') →
  no_level_effect build d ep false → no_level_effect build d' ep false.
Proof.
  intros Hep [_ Hs] Hid Hw. destruct (Hs ep Hep) as [(A1 & A2 & _) _].
  assert (store_attr d ep OnOff_Id id 1) as A by (destruct Hid as [->| ->]; done).
  assert (bytes_ok [if b then 1 else 0]) as Hok by (destruct b; repeat constructor; done).
  destruct (store_write_attr d ep OnOff_Id id 1 [if b then 1 else 0] ZCL_BOOLEAN_ATTRIBUTE_TYPE A eq_refl Hok) as (d2 & Hw2 & _).
  unfold set_bool in Hw. rewrite Hw in Hw2. injection Hw2 as -> <-.
  exact (no_level_written build d ep id 1 [if b then 1 else 0] _ d' A eq_refl Hok Hw).
Qed.

Lemma no_level_u16 build eps cfg8 ep d id x st d' : ep ∈ eps → synced eps cfg8 d →
  id = OnOff_OnTime ∨ id = OnOff_OffWaitTime → set_u16 d ep OnOff_Id id x = Some (st, d') →
  no_level_effect build d ep false → no_level_effect build d' ep false.
Proof.
  intros Hep [_ Hs] Hid Hw. destruct (Hs ep Hep) as [(_ & _ & A3 & A4) _].
  assert (store_attr d ep OnOff_Id id 2) as A by (destruct Hid as [->| ->]; done).
  destruct (store_write_attr d ep OnOff_Id id 2 (le_bytes 2 x) ZCL_INT16U_ATTRIBUTE_TYPE A (length_le_bytes _ _) (le_bytes_ok _ _)) as (d2 & Hw2 & _).
  unfold set_u16 in Hw. rewrite Hw in Hw2. injection Hw2 as -> <-.
  exact (no_level_written build d ep id 2 (le_bytes 2 x) _ d' A (length_le_bytes _ _) (le_bytes_ok _ _) Hw).
Qed.

(** C4: Commands reach the relays.  On a device whose relays are in step with the
    On/Off attributes of the endpoints [eps], every command, startup and timer of
    the On/Off server of one of them runs to the end, leaves the endpoint at the
    abstract machine's next state, and leaves every relay of [eps] in step: the
    relay of the endpoint is driven to the value the machine computes, whatever the
    inputs that watch the relays read. *)
Theorem relays_follow_commands build level now (st : onoff_state (device P)) ep i s what eps cfg8 :
  refines build st ep i s → no_level_effect build (attrs st) ep false →
  IGNORE_ON_OFF_CLUSTER_START_UP_ON_OFF build = false → input_ok st ep s what →
  ep ∈ eps → synced eps cfg8 (attrs st) →
  ∃ st' wait, serve build level now ep i what st = Some st' ∧ 1 ≤ wait ≤ ON_OFF_UPDATE_TIME_MS ∧
    refines build st' ep i (abs_serve wait what s) ∧ synced eps cfg8 (attrs st') ∧
    ∀ p, relay_pin cfg8 ep = Some p →
      pin_level (dv_app (attrs st')) p = Some (if v_on (ab_view (abs_serve wait what s)) then 1 else 0).
Proof.
  intros Hr Hl Hb Hin Hep Hsy. destruct (serve_refines build level now st ep i s what Hr Hl Hb Hin) as (st' & wait & Hs & Hw & R & F).
  assert (synced eps cfg8 (attrs st') ∧ no_level_effect build (attrs st') ep false) as [Hsy' _].
  { refine (serve_inv build level ep (fun d => synced eps cfg8 d ∧ no_level_effect build d ep false) _ _ _ now i what st st' _ _ Hs).
    - intros a id b sta a' [Ha Hn] Hid Hset. split; [by eapply synced_bool|]. by eapply no_level_bool.
    - intros a id x sta a' [Ha Hn] Hid Hset. split; [by eapply synced_u16|]. by eapply no_level_u16.
    - intros b st1 st2 [_ [Hn|Hn]] Hf Hp; [by rewrite Hf in Hn|]. unfold LevelControlWithOnOffFeaturePresent in Hp. by rewrite Hn in Hp.
    - by split.
    - intros -> c Hc. cbn in Hin. rewrite (rf_control _ _ _ _ _ Hr Hin) in Hc. by injection Hc as <-. }
  exists st', wait. split_and!; [done|apply Hw|apply Hw|done|done|]. intros p Hp.
  destruct Hsy' as [Hc Hsy']. destruct (Hsy' ep Hep) as [_ Hin']. unfold in_sync in Hin'. rewrite Hc in Hin'.
  destruct (Hin' p Hp) as (b & Hg & Hpin).
  rewrite (get_bool_holds _ _ _ _ _ (vw_on _ _ _ (rf_view _ _ _ _ _ R))) in Hg. by injection Hg as ->.
Qed.
End follow.

(** The relay of [RelayDemo] in the four-way configuration, as it is after the first
    boot: every relay driven open. *)
Module StoreDemo.
Import RelayDemo FlashDemo CallbackDemo.

Definition demo_app : ZclCallbacks.relay_state :=
  idle <| u8LedState := 0 |>
       <| gpio_calls := [bl_gpio_output_set TR_RELAY_REL1 0; bl_gpio_output_set TR_RELAY_REL2 0; bl_gpio_output_set TR_RELAY_REL3 0] |>.
Definition demo_device : device provider := {| dv_at := attrs relay_state; dv_app := demo_app |}.
Definition stuck (_ : list gpio_call) (_ : Z) : Z := 1.
#[local] Instance demo_store : AttributeStore (device provider) := device_store relay_config default_hooks stuck.
#[local] Instance demo_laws : AttributeStoreLaws (device provider) := device_store_laws relay_config default_hooks stuck accepting.

Definition demo_state : onoff_state (device provider) :=
  {| attrs := demo_device; gEventControls := gEventControls relay_state; timers := timers relay_state;
     nextDesiredOnWithTimedOffTimestamp := 0; firstEffect := firstEffect relay_state; onoff_log := [] |}.

Lemma demo_view ep : ep = 1 ∨ ep = 2 ∨ ep = 3 → view demo_device ep (ab_view shown).
Proof. intros Hep. apply device_view. exact (relay_view ep Hep). Qed.

Lemma demo_refines : refines relay_build demo_state 2 1 shown.
Proof. split; [by apply demo_view; auto|reflexivity|vm_compute; lia|reflexivity|done]. Qed.

Lemma demo_synced : synced relay_config default_hooks stuck accepting [1; 2; 3] 4 demo_device.
Proof.
  split; [done|]. intros e He. assert (e = 1 ∨ e = 2 ∨ e = 3) as Hcase.
  { repeat (apply elem_of_cons in He as [->|He]; [tauto|]). inversion He. }
  split; [exact (vw_writable _ _ _ (demo_view e Hcase))|]. intros p Hp. exists false.
  destruct Hcase as [->|[->| ->]]; injection Hp as <-; (split; [vm_compute; reflexivity|reflexivity]).
Qed.

Lemma relays_follow_commands_witness :
  ∃ st' wait, serve relay_build (fun _ _ _ => None) 5 2 1 (InCommand Toggle_Id) demo_state = Some st' ∧
    pin_level (dv_app (attrs st')) TR_RELAY_REL2 = Some (if v_on (ab_view (abs_serve wait (InCommand Toggle_Id) shown)) then 1 else 0).
Proof.
  destruct (relays_follow_commands relay_config default_hooks stuck accepting relay_build (fun _ _ _ => None) 5 demo_state 2 1 shown
    (InCommand Toggle_Id) [1; 2; 3] 4) as (st' & wait & Hs & _ & _ & _ & Hp).
  - exact demo_refines.
  - right. reflexivity.
  - reflexivity.
  - exact I.
  - by repeat constructor.
  - exact demo_synced.
  - exists st', wait. split; [exact Hs|]. apply Hp. reflexivity.
Defined.
End StoreDemo.
