(* ===== verification/AppTask.v ===== *)
(** * AppTask: the relay's application task

    [src/examples/lighting-app/thirdreality/common/AppTask.cpp] in the build of the
    relay board ([BL602_NIGHT_LIGHT] defined, [BOOT_PIN_RESET] not): the start of
    the task with the reboot counter, the board options, the event loop and its
    handlers.  What the task derives from the MAC address is in [Identity].

    The task works on the device of [RelayStore], so a write of an attribute runs
    the callback that drives the relays.  The clock and the number of fabrics are
    read from the environment of a step; the timer is the period it was last
    started with; a request for a factory reset is counted.  The key the task keeps
    in flash goes through [EasyFlash].  A delay does nothing to this state. *)
From S2P Require Import Prelude Zcl EndpointTable ClusterQueries ChipError Persistence AttributeStorage AttributeTable StoreInterface OnOffServer RelayDevice Led ZclCallbacks RelayStore.

Definition APP_BUTTON_PRESS_LONG : Z := 5000.
Definition APP_REBOOT_RESET_COUNT : Z := 7.
Definition APP_REBOOT_RESET_COUNT_KEY : string := "app_reset_cnt".
Definition ColorControl_Id : ClusterId := 0x300.

Record task (P F : Type) := {
  dev : device P;
  flash : F;
  main_onoff : bool;
  fctRst : Z;
  gpioCount : Z;
  identifyState : Z;
  timer_period : option Z;
  factory_resets : nat }.
#[global] Arguments dev {P F} _.
#[global] Arguments flash {P F} _.
#[global] Arguments main_onoff {P F} _.
#[global] Arguments fctRst {P F} _.
#[global] Arguments gpioCount {P F} _.
#[global] Arguments identifyState {P F} _.
#[global] Arguments timer_period {P F} _.
#[global] Arguments factory_resets {P F} _.
#[export] Instance eta_task {P F} : Eta (task P F) := fun t =>
  {| dev := dev t; flash := flash t; main_onoff := main_onoff t; fctRst := fctRst t; gpioCount := gpioCount t;
     identifyState := identifyState t; timer_period := timer_period t; factory_resets := factory_resets t |}.

(** What a step reads from outside. *)
Record env := { now : Z; FabricCount : Z }.

Section app.
Context {P F : Type} `{AttributePersistenceProvider P} `{EasyFlash F} (cfg : storage_config) (hooks : change_hooks).
Context (input : list gpio_call → Z → Z).
#[local] Instance app_store : AttributeStore (device P) := device_store cfg hooks input.
Notation app t := (dv_app (dev t)).

Definition on_app (f : relay_state → relay_state) (t : task P F) : task P F := t <| dev ::= (fun d => d <| dv_app ::= f |>) |>.
Definition post (event : Z) (t : task P F) : task P F := on_app (PostEvent event) t.

(** The lamp's widget [sLightLED]. *)
Definition show (r : ColorLEDWidget * lamp) (t : task P F) : task P F :=
  on_app (fun s => s <| widget := fst r |> <| lamp_duty := snd r |>) t.
Definition sLightLED_SetColor (level hue sat : Z) (t : task P F) : option (task P F) :=
  let! r := Color_SetColor MAX_PWM_CHANNEL (widget (app t)) level hue sat in Some (show r t).
Definition sLightLED_Toggle (t : task P F) : option (task P F) :=
  let! r := Color_Toggle MAX_PWM_CHANNEL (widget (app t)) in Some (show r t).

(** [Clusters::OnOff::Attributes::OnOff::Get] and [Set]. *)
Definition OnOff_Get (t : task P F) (ep : EndpointId) (value : bool) : option (EmberAfStatus * bool) :=
  get_bool (dev t) ep OnOff_Id OnOff_OnOff value.
Definition OnOff_Set (t : task P F) (ep : EndpointId) (value : bool) : option (task P F) :=
  let! (_, d) := set_bool (dev t) ep OnOff_Id OnOff_OnOff value in Some (t <| dev := d |>).

(** [bl_gpio_enable_input] then [bl_gpio_input_get]. *)
Definition read_pin (pin pullup pulldown : Z) (t : task P F) : Z * task P F :=
  let t := on_app (gpio (bl_gpio_enable_input pin pullup pulldown)) t in
  let t := on_app (gpio (bl_gpio_input_get pin)) t in
  (input (gpio_calls (app t)) pin, t).

(** ** The lamp shows the state *)

(** Reads inside [do { ... } while (0)]: a status that is not success leaves it. *)
Definition or_break {A} (r : option (EmberAfStatus * A)) (t : task P F) (k : A → option (task P F)) : option (task P F) :=
  let! (status, v) := r in if is_success status then k v else Some t.

Definition LightingUpdate (e : env) (status : Z) (t : task P F) : option (task P F) :=
  let endpoint := mEndpointId (app t) in
  let u8cfg := u8Config (app t) in
  if has_bits APP_EVENT_LIGHTING_MASK status then
    if negb (FabricCount e =? 0) then
      let rest onoff2 onoff3 :=
        or_break (OnOff_Get t endpoint false) t (fun onoff =>
        or_break (get_nullable_enum8 (dev t) endpoint LevelControl_Id 0 (Some 0)) t (fun _ =>
        or_break (get_uint 1 (dev t) endpoint ColorControl_Id 0 0) t (fun _ =>
        or_break (get_uint 1 (dev t) endpoint ColorControl_Id 1 0) t (fun _ =>
          if negb onoff && negb onoff2 && negb onoff3 then sLightLED_SetColor 0 0 0 t
          else sLightLED_SetColor 36 84 254 t)))) in
      if (u8cfg =? 2) || (u8cfg =? 3) then or_break (OnOff_Get t 2 false) t (fun onoff2 => rest onoff2 false)
      else if u8cfg =? 4 then
        or_break (OnOff_Get t 2 false) t (fun onoff2 => or_break (OnOff_Get t 3 false) t (fun onoff3 => rest onoff2 onoff3))
      else rest false false
    else sLightLED_SetColor 36 170 254 t
  else Some t.

(** ** The timer *)
Definition StartTimer (t : task P F) : task P F :=
  let t := on_app (fun s => if mTimerIntvl s =? 0 then s <| mTimerIntvl := 1000 |> else s) t in
  t <| timer_period := Some (mTimerIntvl (app t)) |>.
Definition TimerCallback (t : task P F) : task P F := post APP_EVENT_TIMER t.

(** Waiting for the factory reset to be confirmed. *)
Definition confirm_reset (e : env) (t : task P F) : option (task P F) :=
  if negb (mButtonPressedTime (app t) =? 0) then
    if APP_BUTTON_PRESS_LONG <? u64 (now e - mButtonPressedTime (app t))
    then Some (post APP_EVENT_FACTORY_RESET (on_app (fun s => s <| mButtonPressedTime := 0 |>) t))
    else sLightLED_SetColor 254 0 210 t
  else Some t.

(** The attributes of the configured endpoints written back as they were read. *)
Definition rewrite_attributes (t : task P F) : option (task P F) :=
  let ep := mEndpointId (app t) in
  let u8cfg := u8Config (app t) in
  let two := (u8cfg =? 2) || (u8cfg =? 3) || (u8cfg =? 4) in
  let! (_, onoff) := OnOff_Get t ep false in
  let! (_, onoff2) := (if two then OnOff_Get t 2 false else Some (EMBER_ZCL_STATUS_SUCCESS, false)) in
  let! (_, onoff3) := (if u8cfg =? 4 then OnOff_Get t 3 false else Some (EMBER_ZCL_STATUS_SUCCESS, false)) in
  let! t := OnOff_Set t ep onoff in
  let! t := (if two then OnOff_Set t 2 onoff2 else Some t) in
  let! t := (if u8cfg =? 4 then OnOff_Set t 3 onoff3 else Some t) in
  if negb onoff && negb onoff2 && negb onoff3 then sLightLED_SetColor 0 84 254 t else sLightLED_SetColor 36 84 254 t.

Definition clear_reset_count (t : task P F) : task P F :=
  t <| flash ::= (fun f => snd (ef_set_env_blob f APP_REBOOT_RESET_COUNT_KEY (le_bytes 4 0))) |>.

Definition poll (e : env) (t : task P F) : option (task P F) :=
  if gpioCount t <? 120 then
    let (gpioValue, t) := read_pin 2 1 0 t in
    let! t :=
      (if FabricCount e =? 0 then
         if gpioCount t mod 2 =? 0 then sLightLED_SetColor 36 170 254 t else sLightLED_SetColor 0 170 254 t
       else if 10 <? gpioCount t then rewrite_attributes t
       else Some t) in
    let! t :=
      (if (gpioCount t <? 10) && (gpioValue =? 0) then
         let t := t <| gpioCount := 0 |> <| fctRst ::= (fun n => u8 (n + 1)) |> in
         if 6 <? fctRst t then
           let! t := sLightLED_SetColor 0 0 254 t in
           let! t := sLightLED_SetColor 36 0 254 t in
           Some (t <| factory_resets ::= S |>)
         else Some t
       else Some t) in
    let t := if gpioCount t =? 10 then clear_reset_count t else t in
    Some (t <| gpioCount ::= (fun n => u8 (n + 1)) |>)
  else Some t.

Definition TimerEventHandler (e : env) (t : task P F) : option (task P F) :=
  let! t := confirm_reset e t in
  let! t := poll e t in
  Some (StartTimer t).

(** ** Identify *)
Definition IdentifyStartHandler (t : task P F) : task P F := post APP_EVENT_IDENTIFY_START t.
Definition IdentifyStopHandler (t : task P F) : task P F := post APP_EVENT_IDENTIFY_STOP t.
Definition IdentifyHandleOp (event : Z) (t : task P F) : option (task P F) :=
  let t := if has_bits APP_EVENT_IDENTIFY_START event then t <| identifyState := 1 |> else t in
  let! t := (if has_bits APP_EVENT_IDENTIFY_IDENTIFY event && negb (identifyState t =? 0) then sLightLED_Toggle t else Some t) in
  Some (if has_bits APP_EVENT_IDENTIFY_STOP event then post APP_EVENT_LIGHTING_MASK (t <| identifyState := 0 |>) else t).

Definition ButtonEventHandler (t : task P F) : task P F := post APP_EVENT_FACTORY_RESET t.

(** ** The event loop *)
Definition short_press (e : env) (t : task P F) : option (task P F) :=
  if negb (FabricCount e =? 0) then
    let! (_, onoff) := OnOff_Get t (mEndpointId (app t)) (main_onoff t) in
    let t := t <| main_onoff := negb onoff |> in
    OnOff_Set t (mEndpointId (app t)) (negb onoff)
  else sLightLED_Toggle t.

(** What the loop does with the events of one notification. *)
Definition handle (e : env) (appEvent : Z) (t : task P F) : option (task P F) :=
  let! t := (if has_bits APP_EVENT_LIGHTING_MASK appEvent then LightingUpdate e appEvent t else Some t) in
  let! t := (if has_bits APP_EVENT_BTN_SHORT appEvent then short_press e t else Some t) in
  let! t := (if has_bits APP_EVENT_IDENTIFY_MASK appEvent then IdentifyHandleOp appEvent t else Some t) in
  let t := if has_bits APP_EVENT_FACTORY_RESET appEvent then t <| factory_resets ::= S |> else t in
  TimerEventHandler e t.

(** [xTaskNotifyWait(0, APP_EVENT_ALL_MASK, ..)]: the value is returned and the bits
    of the mask are cleared; without a notification the task waits. *)
Definition take_notification (t : task P F) : Z * task P F :=
  (notification (app t),
   on_app (fun s => s <| notification ::= (fun v => Z.land v (Z.lnot APP_EVENT_ALL_MASK)) |> <| notified := false |>) t).

Definition app_step (e : env) (t : task P F) : option (task P F) :=
  if notified (app t) then let (appEvent, t) := take_notification t in handle e appEvent t else Some t.

(** ** The start of the task *)

(** [ef_get_env_blob] into the four bytes of [resetCnt], which was 0. *)
Definition read_reset_count (f : F) : Z :=
  match ef_get_env f APP_REBOOT_RESET_COUNT_KEY with
  | Some v => le_val (take 4 v ++ repeat 0 (4 - length (take 4 v)))
  | None => 0
  end.

Definition count_reboot (e : env) (t : task P F) : option (task P F) :=
  let resetCnt := read_reset_count (flash t) in
  let! (t, resetCnt) :=
    (if APP_REBOOT_RESET_COUNT - 1 <=? resetCnt then
       let! t := sLightLED_SetColor 34 0 254 t in
       Some (on_app (fun s => s <| mButtonPressedTime := u64 (now e + 1) |>) t, 0)
     else
       let! t := sLightLED_SetColor 34 170 254 t in
       Some (on_app (fun s => s <| mButtonPressedTime := 0 |>) t, u32 (resetCnt + 1))) in
  Some (t <| flash ::= (fun f => snd (ef_set_env_blob f APP_REBOOT_RESET_COUNT_KEY (le_bytes 4 resetCnt))) |>).

(** [OptionRead]: the two option pins choose the endpoints; 255 is no answer. *)
Definition option_config (v1 v2 old : Z) : Z :=
  if (v1 =? 1) && (v2 =? 1) then 1
  else if (v1 =? 1) && (v2 =? 0) then 2
  else if (v1 =? 0) && (v2 =? 1) then 3
  else if (v1 =? 0) && (v2 =? 0) then 4
  else old.

Definition on_table (f : endpoint_table → option endpoint_table) (t : task P F) : option (task P F) :=
  let! tb := f (table (store (dv_at (dev t)))) in
  Some (t <| dev ::= (fun d => d <| dv_at ::= (fun a => a <| store ::= (fun s => s <| table := tb |>) |>) |>) |>).
Definition disable (ep : EndpointId) (tb : endpoint_table) : option endpoint_table :=
  let! r := emberAfEndpointEnableDisable (length (emAfEndpoints tb)) tb ep false in Some (snd r).

Definition OptionRead (t : task P F) : option (task P F) :=
  let t := on_app (gpio (bl_gpio_enable_input 20 0 1)) t in
  let t := on_app (gpio (bl_gpio_enable_input 0 0 1)) t in
  let t := on_app (gpio (bl_gpio_input_get 20)) t in
  let v1 := input (gpio_calls (app t)) 20 in
  let t := on_app (gpio (bl_gpio_input_get 0)) t in
  let v2 := input (gpio_calls (app t)) 0 in
  let t := on_app (fun s => s <| u8Config ::= option_config v1 v2 |>) t in
  let u8cfg := u8Config (app t) in
  if u8cfg =? 1 then on_table (fun tb => let! tb := disable 2 tb in disable 3 tb) t
  else if (u8cfg =? 2) || (u8cfg =? 3) then on_table (disable 3) t
  else Some t.

(** [AppTaskMain] up to the loop. *)
Definition AppTaskMain_start (e : env) (t : task P F) : option (task P F) :=
  let t := show (Color_Init MAX_PWM_CHANNEL) t in
  let! t := count_reboot e t in
  let t := post APP_EVENT_TIMER t in
  let t := post APP_EVENT_LIGHTING_MASK t in
  let t := on_app (fun s => s <| u8Config := 11 |>) t in
  OptionRead t.
End app.

(** ** The board options choose the endpoints *)
Lemma first_at_update tb tb' k e e' j x : first_at tb k e → entry_update tb tb' k e' → endpoint e' = endpoint e →
  first_at tb j x → ∃ x', first_at tb' j x' ∧ endpoint x' = endpoint x.
Proof.
  intros (Hk & _) Hup Hid (Hj & Hv & Hb). pose proof (live_update tb tb' k e e' Hup Hk) as Hl.
  assert (∀ i y', live_endpoints tb' !! i = Some y' → ∃ y, live_endpoints tb !! i = Some y ∧ endpoint y' = endpoint y) as Hback.
  { intros i y'. rewrite Hl. intros [(<- & <- & _)|(_ & Hi)]%list_lookup_insert_Some; [by exists e|by exists y']. }
  assert (∃ x', live_endpoints tb' !! j = Some x' ∧ endpoint x' = endpoint x) as (x' & Hx' & Hidx).
  { rewrite Hl. destruct (decide (k = j)) as [<-|Hne].
    - exists e'. split; [apply list_lookup_insert_eq; by eapply lookup_lt_Some|]. rewrite Hk in Hj. injection Hj as <-. done.
    - exists x. by rewrite list_lookup_insert_ne. }
  exists x'. split; [|done]. split; [done|]. split; [by rewrite Hidx|]. intros i y' Hi Hy'.
  destruct (Hback i y' Hy') as (y & Hy & ->). rewrite Hidx. by eapply Hb.
Qed.

(** No endpoint has a parent. *)
Definition no_parents (tb : endpoint_table) : Prop := parents_ranked tb (fun _ => 0%nat).

Lemma disable_ok tb k e : table_ok tb → no_parents tb → first_at tb k e →
  ∃ tb', disable (endpoint e) tb = Some tb' ∧ table_ok tb' ∧ no_parents tb' ∧
    emberAfEndpointIsEnabled tb' (endpoint e) = Some false ∧
    (∀ ep, ep ≠ endpoint e → emberAfEndpointIsEnabled tb' ep = emberAfEndpointIsEnabled tb ep) ∧
    (∀ j x, first_at tb j x → ∃ x', first_at tb' j x' ∧ endpoint x' = endpoint x).
Proof.
  intros Hok Hnp Hf. pose proof Hf as (Hk & _).
  assert (0 < length (emAfEndpoints tb))%nat as Hfuel by (apply live_lookup in Hk as [Hk _]; apply lookup_lt_Some in Hk; lia).
  destruct (enable_disable_ends tb k e (fun _ => 0%nat) _ false Hok Hf Hnp Hfuel) as [[r tb'] Hr].
  destruct (enable_disable_spec _ _ _ _ _ _ _ Hok Hf Hr) as (-> & Hok' & He & Hoth & _).
  destruct (enable_disable_table _ _ _ _ _ _ _ Hok Hf Hr) as (_ & Hc & Hl & _).
  exists tb'. unfold disable. rewrite Hr. split_and!; try done.
  - eapply parents_ranked_update; [by split|exact Hk|done|done|done].
  - intros j x Hj. by eapply first_at_update; [exact Hf|split; done| |exact Hj].
Qed.

(** The option pins choose the configuration, and the endpoints left enabled are
    exactly the relay endpoints that have a relay in it: 1; 1 and 2; 1 and 2; or
    all three. *)
Theorem options_enable_relays {P F} (input : list gpio_call → Z → Z) (t : task P F) k1 k2 k3 e1 e2 e3 :
  let tb := table (store (dv_at (dev t))) in
  table_ok tb → no_parents tb →
  first_at tb k1 e1 → first_at tb k2 e2 → first_at tb k3 e3 → endpoint e1 = 1 → endpoint e2 = 2 → endpoint e3 = 3 →
  (∀ ep, ep = 1 ∨ ep = 2 ∨ ep = 3 → emberAfEndpointIsEnabled tb ep = Some true) →
  (∀ calls, input calls 20 = 0 ∨ input calls 20 = 1) → (∀ calls, input calls 0 = 0 ∨ input calls 0 = 1) →
  ∃ t', OptionRead input t = Some t' ∧ 1 ≤ u8Config (dv_app (dev t')) ≤ 4 ∧ table_ok (table (store (dv_at (dev t')))) ∧
    ∀ ep, ep = 1 ∨ ep = 2 ∨ ep = 3 →
      emberAfEndpointIsEnabled (table (store (dv_at (dev t')))) ep =
      Some (bool_decide (is_Some (relay_pin (u8Config (dv_app (dev t'))) ep))).
Proof.
  intros tb Hok Hnp F1 F2 F3 E1 E2 E3 Hen H20 H0. unfold OptionRead.
  match goal with |- context [option_config ?a ?b] => set (v1 := a); set (v2 := b) end.
  assert (v1 = 0 ∨ v1 = 1) as Hv1 by apply H20. assert (v2 = 0 ∨ v2 = 1) as Hv2 by apply H0. clearbody v1 v2.
  destruct (disable_ok tb k3 e3 Hok Hnp F3) as (tb3 & D3 & Hok3 & _ & Hoff3 & Hoth3 & _). rewrite E3 in D3, Hoff3, Hoth3.
  destruct (disable_ok tb k2 e2 Hok Hnp F2) as (tb2 & D2 & Hok2 & Hnp2 & Hoff2 & Hoth2 & Hf2). rewrite E2 in D2, Hoff2, Hoth2.
  destruct (Hf2 k3 e3 F3) as (e3' & F3' & E3'). rewrite E3 in E3'.
  destruct (disable_ok tb2 k3 e3' Hok2 Hnp2 F3') as (tb23 & D23 & Hok23 & _ & Hoff23 & Hoth23 & _). rewrite E3' in D23, Hoff23, Hoth23.
  destruct Hv1 as [->| ->], Hv2 as [->| ->]; cbn [option_config u8Config on_app dv_app dev update Z.eqb andb orb];
    unfold on_table; cbn [table store dv_at dev on_app update]; fold tb; rewrite ?D3, ?D2, ?D23.
  - eexists. split; [reflexivity|]. split; [done|]. split; [exact Hok|]. intros ep Hep. cbn. fold tb. rewrite Hen by done.
    by destruct Hep as [->|[->| ->]].
  - eexists. split; [reflexivity|]. split; [done|]. split; [exact Hok3|]. intros ep Hep. cbn.
    destruct Hep as [->|[->| ->]]; [rewrite Hoth3, Hen by (done || by left); done|rewrite Hoth3, Hen by (done || tauto); done|done].
  - eexists. split; [reflexivity|]. split; [done|]. split; [exact Hok3|]. intros ep Hep. cbn.
    destruct Hep as [->|[->| ->]]; [rewrite Hoth3, Hen by (done || by left); done|rewrite Hoth3, Hen by (done || tauto); done|done].
  - eexists. split; [reflexivity|]. split; [done|]. split; [exact Hok23|]. intros ep Hep. cbn.
    destruct Hep as [->|[->| ->]]; [rewrite Hoth23, Hoth2, Hen by (done || by left); done|rewrite Hoth23, Hoff2 by done; done|done].
Qed.

(** ** The lamp is always defined *)
Section lamp.
Context {P F : Type}.
Implicit Types t : task P F.

Lemma set_color_total level hue sat : is_Some (set_color MAX_PWM_CHANNEL level hue sat).
Proof. unfold set_color, MAX_PWM_CHANNEL. cbn [Nat.eqb]. destruct (color_rgb level hue sat) as [[r g] b]. by eexists. Qed.

Lemma SetColor_spec level hue sat t : ∃ w l, sLightLED_SetColor level hue sat t = Some (show (w, l) t) ∧
  w = {| mOnoff := if 0 <? level then 1 else 0; light_v := level; light_h := hue; light_s := sat |} ∧
  set_color MAX_PWM_CHANNEL level hue sat = Some l.
Proof.
  unfold sLightLED_SetColor, Color_SetColor. destruct (set_color_total level hue sat) as [l Hl]. rewrite Hl. by eexists _, _.
Qed.

Lemma Toggle_spec t : ∃ r, sLightLED_Toggle t = Some (show r t).
Proof.
  unfold sLightLED_Toggle, Color_Toggle, Color_SetOnoff. cbv zeta.
  destruct (set_color_total 254 (light_h (widget (dv_app (dev t)))) (light_s (widget (dv_app (dev t))))) as [l1 H1].
  destruct (set_color_total (light_v (widget (dv_app (dev t)))) (light_h (widget (dv_app (dev t)))) (light_s (widget (dv_app (dev t))))) as [l2 H2].
  destruct (set_color_total 0 (light_h (widget (dv_app (dev t)))) (light_s (widget (dv_app (dev t))))) as [l3 H3].
  cbn [light_h light_s light_v update]. rewrite H1, H2, H3. destruct (negb _); [destruct (_ =? 0)|]; by eexists.
Qed.
End lamp.

(** ** The reboot counter *)
Section reboot.
Context {P F : Type} `{EasyFlashLaws F}.

(** The flash stores what it is given. *)
Definition flash_stores : Prop := ∀ (f : F) k v, fst (ef_set_env_blob f k v) = true.

Lemma reset_count_written (f : F) n : flash_stores → in_u 32 n →
  read_reset_count (snd (ef_set_env_blob f APP_REBOOT_RESET_COUNT_KEY (le_bytes 4 n))) = n.
Proof.
  intros Hst Hn. unfold read_reset_count. pose proof (Hst f APP_REBOOT_RESET_COUNT_KEY (le_bytes 4 n)) as Hok.
  destruct (ef_set_env_blob f APP_REBOOT_RESET_COUNT_KEY (le_bytes 4 n)) as [b f'] eqn:E. simpl in Hok. subst b. simpl.
  rewrite (ef_get_set _ _ _ _ E). rewrite take_ge by (rewrite length_le_bytes; lia). rewrite length_le_bytes. simpl repeat.
  rewrite app_nil_r. apply le_val_bytes. exact Hn.
Qed.

Lemma count_reboot_spec e (t : task P F) : flash_stores → 0 ≤ read_reset_count (flash t) ≤ 6 →
  ∃ t', count_reboot e t = Some t' ∧
    mButtonPressedTime (dv_app (dev t')) = (if read_reset_count (flash t) =? 6 then u64 (now e + 1) else 0) ∧
    read_reset_count (flash t') = (if read_reset_count (flash t) =? 6 then 0 else read_reset_count (flash t) + 1).
Proof.
  intros Hst Hc. unfold count_reboot. change (APP_REBOOT_RESET_COUNT - 1) with 6.
  destruct (Z.leb_spec 6 (read_reset_count (flash t))) as [Hle|Hlt].
  - assert (read_reset_count (flash t) = 6) as -> by lia.
    destruct (SetColor_spec 34 0 254 t) as (w & l & -> & _). eexists. split; [reflexivity|]. split; [done|].
    cbn [flash on_app show update]. by apply reset_count_written.
  - rewrite (proj2 (Z.eqb_neq _ _)) by lia. destruct (SetColor_spec 34 170 254 t) as (w & l & -> & _).
    eexists. split; [reflexivity|]. split; [done|]. cbn [flash on_app show update].
    rewrite (wrap_small 32) by ulia. apply reset_count_written; [done|ulia].
Qed.

(** Power cycles with nothing else in between: whether each boot armed the factory
    reset. *)
Fixpoint power_cycles (power_on : F → task P F) (es : list env) (f : F) : option (list bool * F) :=
  match es with
  | [] => Some ([], f)
  | e :: es =>
      let! t := count_reboot e (power_on f) in
      let! r := power_cycles power_on es (flash t) in
      Some (negb (mButtonPressedTime (dv_app (dev t)) =? 0) :: fst r, snd r)
  end.

Lemma power_cycles_spec power_on es : flash_stores → (∀ f, flash (power_on f) = f) →
  Forall (fun e => 0 ≤ now e < 2 ^ 64 - 1) es →
  ∀ f c, read_reset_count f = c → 0 ≤ c ≤ 6 →
  ∃ f', power_cycles power_on es f = Some ((fun n => (c + Z.of_nat n) mod 7 =? 6) <$> seq 0 (length es), f') ∧
    read_reset_count f' = (c + Z.of_nat (length es)) mod 7.
Proof.
  intros Hst Hpo. induction 1 as [|e es He _ IH]; intros f c Hc Hr.
  { exists f. split; [done|]. simpl. rewrite Z.add_0_r, Z.mod_small by lia. done. }
  cbn [power_cycles length]. destruct (count_reboot_spec e (power_on f) Hst) as (t' & -> & Hp & Hcount); [by rewrite Hpo, Hc|].
  rewrite Hpo, Hc in Hp, Hcount.
  destruct (IH (flash t') _ Hcount) as (f' & -> & Hend); [destruct (Z.eqb_spec c 6); lia|].
  exists f'. cbn [fst snd seq fmap list_fmap]. split.
  - rewrite Hp. f_equal. f_equal. f_equal.
    + rewrite Z.add_0_r, (Z.mod_small c) by lia. destruct (Z.eqb_spec c 6); [|done]. rewrite wrap_small by ulia.
      by rewrite (proj2 (Z.eqb_neq _ _)) by lia.
    + rewrite <- fmap_S_seq, <- list_fmap_compose. apply list_fmap_ext. intros i n _. unfold compose. f_equal.
      destruct (Z.eqb_spec c 6) as [->|]; rewrite Nat2Z.inj_succ; [|f_equal; lia].
      replace (6 + Z.succ (Z.of_nat n)) with (0 + Z.of_nat n + 1 * 7) by lia. by rewrite Z.mod_add by lia.
  - rewrite Hend, Nat2Z.inj_succ. destruct (Z.eqb_spec c 6) as [->|]; [|f_equal; lia].
    replace (6 + Z.succ (Z.of_nat (length es))) with (0 + Z.of_nat (length es) + 1 * 7) by lia. by rewrite Z.mod_add by lia.
Qed.

(** Seven power cycles arm a factory reset.  From a flash with no count, with
    nothing else running between the cycles, the boots that arm it are the 7th, the
    14th and so on, for any number of cycles. *)
Theorem reboot_counter power_on es f :
  flash_stores → (∀ f, flash (power_on f) = f) → Forall (fun e => 0 ≤ now e < 2 ^ 64 - 1) es →
  ef_get_env f APP_REBOOT_RESET_COUNT_KEY = None →
  ∃ f', power_cycles power_on es f = Some ((fun n => Z.of_nat n mod 7 =? 6) <$> seq 0 (length es), f').
Proof.
  intros Hst Hpo Hes Hf. destruct (power_cycles_spec power_on es Hst Hpo Hes f 0) as (f' & Hp & _); [|lia|].
  - unfold read_reset_count. by rewrite Hf.
  - exists f'. exact Hp.
Qed.
End reboot.

(** ** The factory reset bit of the notification *)
Definition reset_pending (s : relay_state) : bool := has_bits (notification s) APP_EVENT_FACTORY_RESET.

Lemma reset_pending_bit s : reset_pending s = Z.testbit (notification s) 6.
Proof. unfold reset_pending. change APP_EVENT_FACTORY_RESET with (2 ^ 6). by apply has_bits_pow2. Qed.

Lemma reset_pending_post event s : reset_pending (PostEvent event s) = reset_pending s || has_bits event APP_EVENT_FACTORY_RESET.
Proof. rewrite !reset_pending_bit, post_bit by lia. change APP_EVENT_FACTORY_RESET with (2 ^ 6). by rewrite has_bits_pow2. Qed.

(** ** The timer's runs *)
Section ticks.
Context {P F : Type} `{AttributePersistenceProvider P} `{EasyFlashLaws F} (cfg : storage_config) (hooks : change_hooks).
Context (input : list gpio_call → Z → Z).
Notation handler := (TimerEventHandler cfg hooks input).

(** Runs of the handler one after the other. *)
Fixpoint ticks (es : list env) (t : task P F) : option (task P F) :=
  match es with
  | [] => Some t
  | e :: es => let! t := handler e t in ticks es t
  end.

(** The fields that count. *)
Definition same_counts (t t' : task P F) : Prop :=
  flash t' = flash t ∧ fctRst t' = fctRst t ∧ gpioCount t' = gpioCount t ∧ factory_resets t' = factory_resets t.

Lemma confirm_counts e t : ∃ t', confirm_reset e t = Some t' ∧ same_counts t t'.
Proof.
  unfold confirm_reset. destruct (negb _); [|by eexists]. destruct (_ <? _); [by eexists|].
  destruct (SetColor_spec 254 0 210 t) as (w & l & -> & _). by eexists.
Qed.

(** While the count is at most 10 the attributes are not touched. *)
Lemma poll_colors e (t : task P F) : gpioCount t ≤ 10 →
  ∃ t', (if FabricCount e =? 0 then
           if gpioCount t mod 2 =? 0 then sLightLED_SetColor 36 170 254 t else sLightLED_SetColor 0 170 254 t
         else if 10 <? gpioCount t then rewrite_attributes cfg hooks input t
         else Some t) = Some t' ∧ same_counts t t'.
Proof.
  intros Hc. rewrite (proj2 (Z.ltb_ge 10 _)) by lia. destruct (_ =? 0); [|by eexists].
  destruct (_ =? 0); [destruct (SetColor_spec 36 170 254 t) as (w & l & -> & _)|destruct (SetColor_spec 0 170 254 t) as (w & l & -> & _)];
    by eexists.
Qed.

Lemma tick_high e (t : task P F) : 0 ≤ gpioCount t ≤ 10 → (∀ calls, input calls 2 ≠ 0) →
  ∃ t', handler e t = Some t' ∧ gpioCount t' = gpioCount t + 1 ∧ fctRst t' = fctRst t ∧
    factory_resets t' = factory_resets t ∧
    flash t' = if gpioCount t =? 10 then flash (clear_reset_count t) else flash t.
Proof.
  intros Hc Hpin. unfold TimerEventHandler. destruct (confirm_counts e t) as (t1 & -> & (F1 & R1 & G1 & N1)).
  unfold poll. rewrite G1. rewrite (proj2 (Z.ltb_lt _ 120)) by lia. unfold read_pin.
  match goal with |- context [input ?l 2] => pose proof (Hpin l) as Hhi; set (v := input l 2) in * end.
  match goal with |- context [if FabricCount e =? 0 then (if gpioCount ?x mod 2 =? 0 then _ else _) else _] =>
    destruct (poll_colors e x) as (t2 & -> & (F2 & R2 & G2 & N2)); [cbn; lia|] end.
  cbn [gpioCount on_app update flash fctRst factory_resets] in *.
  rewrite (proj2 (Z.eqb_neq v 0)) by done. rewrite andb_false_r.
  eexists. split; [reflexivity|]. rewrite G2, G1.
  destruct (gpioCount t =? 10) eqn:E; cbn [gpioCount StartTimer on_app clear_reset_count flash fctRst factory_resets update];
    rewrite ?G2, ?G1, ?F2, ?F1, ?R2, ?R1, ?N2, ?N1; (split; [apply wrap_small; ulia|done]).
Qed.

Lemma tick_low e (t : task P F) : 0 ≤ gpioCount t < 10 → 0 ≤ fctRst t < 255 → (∀ calls, input calls 2 = 0) →
  ∃ t', handler e t = Some t' ∧ gpioCount t' = 1 ∧ fctRst t' = fctRst t + 1 ∧ flash t' = flash t ∧
    factory_resets t' = (factory_resets t + if (6 <=? fctRst t)%Z then 1 else 0)%nat.
Proof.
  intros Hc Hr Hpin. unfold TimerEventHandler. destruct (confirm_counts e t) as (t1 & -> & (F1 & R1 & G1 & N1)).
  unfold poll. rewrite G1. rewrite (proj2 (Z.ltb_lt _ 120)) by lia. unfold read_pin.
  match goal with |- context [input ?l 2] => rewrite (Hpin l) end.
  match goal with |- context [if FabricCount e =? 0 then (if gpioCount ?x mod 2 =? 0 then _ else _) else _] =>
    destruct (poll_colors e x) as (t2 & -> & (F2 & R2 & G2 & N2)); [cbn; lia|] end.
  cbn [gpioCount on_app update flash fctRst factory_resets] in *.
  rewrite G2, G1, (proj2 (Z.ltb_lt _ 10)) by lia. cbn [Z.eqb andb fctRst update].
  assert (u8 (fctRst t2 + 1) = fctRst t + 1) as E8 by (rewrite R2, R1; apply wrap_small; ulia). rewrite E8.
  assert ((6 <? fctRst t + 1) = (6 <=? fctRst t)) as -> by (destruct (Z.ltb_spec 6 (fctRst t + 1)), (Z.leb_spec 6 (fctRst t)); lia).
  destruct (6 <=? fctRst t).
  - match goal with |- context [sLightLED_SetColor 0 0 254 ?x] => destruct (SetColor_spec 0 0 254 x) as (w & l & -> & _) end.
    match goal with |- context [sLightLED_SetColor 36 0 254 ?x] => destruct (SetColor_spec 36 0 254 x) as (w' & l' & -> & _) end.
    eexists. split; [reflexivity|]. cbn. rewrite ?F2, ?F1, ?R2, ?R1, ?N2, ?N1. split_and!; [done| |done|lia]. rewrite <- E8, R2, R1. done.
  - eexists. split; [reflexivity|]. cbn. rewrite ?F2, ?F1, ?R2, ?R1, ?N2, ?N1. split_and!; [done| |done|lia]. rewrite <- E8, R2, R1. done.
Qed.

Lemma ticks_high es : (∀ calls, input calls 2 ≠ 0) → ∀ t, 0 ≤ gpioCount t → gpioCount t + Z.of_nat (length es) ≤ 11 →
  ∃ t', ticks es t = Some t' ∧ gpioCount t' = gpioCount t + Z.of_nat (length es) ∧ factory_resets t' = factory_resets t ∧
    (gpioCount t' ≤ 10 → flash t' = flash t) ∧ (gpioCount t' = 11 → gpioCount t ≤ 10 → flash t' = flash (clear_reset_count t)).
Proof.
  intros Hpin. induction es as [|e es IH]; intros t Hc Hlen.
  { exists t. simpl. split_and!; [done|lia|done|done|lia]. }
  cbn [ticks length] in *. destruct (tick_high e t ltac:(lia) Hpin) as (t1 & -> & G & _ & N & Fl).
  destruct (IH t1) as (t2 & Ht & G2 & N2 & F2 & F2'); [lia|lia|]. exists t2. split; [done|]. split; [lia|]. split; [congruence|].
  destruct (Z.eqb_spec (gpioCount t) 10) as [E|E].
  - destruct es; [|simpl length in *; lia]. injection Ht as ->. split; [lia|done].
  - split; [intros Hle; rewrite F2 by lia; done|]. intros Hg Hle. rewrite F2' by lia. cbn [flash clear_reset_count update]. by rewrite Fl.
Qed.

(** A boot that lasts clears the count of power cycles.  With the reset input
    inactive, the first ten runs of the timer handler after the start leave the
    flash alone, so a power cycle before then still counts; the eleventh writes the
    count 0.  No factory reset happens on the way. *)
Theorem boot_window es t : flash_stores → (∀ calls, input calls 2 ≠ 0) → gpioCount t = 0 → (length es ≤ 11)%nat →
  ∃ t', ticks es t = Some t' ∧ factory_resets t' = factory_resets t ∧
    read_reset_count (flash t') = if (length es =? 11)%nat then 0 else read_reset_count (flash t).
Proof.
  intros Hst Hpin Hg Hlen. destruct (ticks_high es Hpin t) as (t' & Ht & G & N & F1 & F2); [lia|lia|].
  exists t'. split; [done|]. split; [done|]. destruct (Nat.eqb_spec (length es) 11).
  - rewrite F2 by lia. by apply reset_count_written.
  - by rewrite F1 by lia.
Qed.

(** Holding the reset input.  Runs of the handler that find the input active
    count up, restarting the boot window each time; the 7th asks for a factory
    reset, and so does every later one while the input stays active. *)
Theorem held_pin_resets es t : (∀ calls, input calls 2 = 0) → gpioCount t = 0 → fctRst t = 0 → (length es ≤ 255)%nat →
  ∃ t', ticks es t = Some t' ∧ flash t' = flash t ∧ factory_resets t' = (factory_resets t + (length es - 6))%nat.
Proof.
  intros Hpin Hg Hr Hlen.
  assert (∀ es t, 0 ≤ gpioCount t < 10 → 0 ≤ fctRst t → fctRst t + Z.of_nat (length es) ≤ 255 →
    ∃ t', ticks es t = Some t' ∧ flash t' = flash t ∧
      factory_resets t' = (factory_resets t + (Z.to_nat (fctRst t) + length es - Nat.max 6 (Z.to_nat (fctRst t))))%nat) as Hrun.
  { clear es t Hg Hr Hlen. intros es. induction es as [|e es IH]; intros t Hg Hr Hlen.
    - exists t. simpl. split_and!; [done|done|lia].
    - cbn [ticks length] in *. destruct (tick_low e t ltac:(lia) ltac:(lia) Hpin) as (t1 & -> & G & R & Fl & N).
      destruct (IH t1) as (t2 & -> & F2 & N2); [lia|lia|lia|]. exists t2. split; [done|]. split; [congruence|].
      rewrite N2, N, R. destruct (Z.leb_spec 6 (fctRst t)); lia. }
  destruct (Hrun es t) as (t' & Ht & Fl & N); [lia|lia|lia|]. exists t'. split; [done|]. split; [done|]. rewrite N, Hr. simpl. lia.
Qed.

(** The confirmation of a factory reset.  The boot that arms it at time [t0]
    leaves [t0 + 1] behind; a later run of the handler confirms exactly when more
    than 5001 ms have passed, or in the same millisecond, where the 64-bit
    difference wraps. *)
Theorem reset_confirm_window t0 e (t : task P F) :
  0 ≤ t0 ≤ now e → now e < 2 ^ 64 - 1 → mButtonPressedTime (dv_app (dev t)) = t0 + 1 →
  ∃ t', confirm_reset e t = Some t' ∧
    if bool_decide (t0 + 5001 < now e ∨ now e = t0)
    then mButtonPressedTime (dv_app (dev t')) = 0 ∧ reset_pending (dv_app (dev t')) = true
    else mButtonPressedTime (dv_app (dev t')) = t0 + 1 ∧ notification (dv_app (dev t')) = notification (dv_app (dev t)).
Proof.
  intros Ht0 He Hp. unfold confirm_reset. rewrite Hp. rewrite (proj2 (Z.eqb_neq (t0 + 1) 0)) by lia. cbn [negb].
  assert ((APP_BUTTON_PRESS_LONG <? u64 (now e - (t0 + 1))) = bool_decide (t0 + 5001 < now e ∨ now e = t0)) as ->.
  { unfold APP_BUTTON_PRESS_LONG. destruct (decide (now e = t0)) as [->|Hne].
    - rewrite bool_decide_true by (by right). replace (t0 - (t0 + 1)) with (-1) by lia. done.
    - rewrite wrap_small by ulia. destruct (Z.ltb_spec 5000 (now e - (t0 + 1))); [rewrite bool_decide_true by lia|rewrite bool_decide_false by lia]; done. }
  destruct (bool_decide _).
  - eexists. split; [reflexivity|]. split; [done|]. cbn [dev on_app post dv_app update]. rewrite reset_pending_post. apply orb_true_r.
  - destruct (SetColor_spec 254 0 210 t) as (w & l & -> & _). eexists. split; [reflexivity|]. by rewrite <- Hp.
Qed.
End ticks.

(** ** The loop *)
Section loop.
Context {P F : Type} `{AttributePersistenceLaws P} `{EasyFlash F} (cfg : storage_config) (hooks : change_hooks).
Context (input : list gpio_call → Z → Z) (Hhooks : hooks_accept hooks).
#[local] Instance loop_store : AttributeStore (device P) := device_store cfg hooks input.
#[local] Instance loop_laws : AttributeStoreLaws (device P) := device_store_laws cfg hooks input Hhooks.
Implicit Types t : task P F.
Notation attrs_ok := (onoff_attrs cfg hooks input Hhooks).

(** The endpoints with a relay in a configuration. *)
Definition relay_endpoints (u8cfg : Z) : list EndpointId :=
  if u8cfg =? 1 then [1] else if u8cfg =? 4 then [1; 2; 3] else [1; 2].

Lemma relay_endpoints_pin u8cfg ep : 1 ≤ u8cfg ≤ 4 → ep ∈ relay_endpoints u8cfg ↔ is_Some (relay_pin u8cfg ep).
Proof.
  intros Hc. assert (u8cfg = 1 ∨ u8cfg = 2 ∨ u8cfg = 3 ∨ u8cfg = 4) as [->|[->|[->| ->]]] by lia;
    (split; [intros Hin; repeat (apply elem_of_cons in Hin as [->|Hin]; [by eexists|]); inversion Hin|]);
    intros [p Hp]; unfold relay_pin in Hp; destruct (Z.eqb_spec ep 1) as [->|]; try (by repeat constructor);
    destruct (Z.eqb_spec ep 2) as [->|]; try done; try (by repeat constructor);
    destruct (Z.eqb_spec ep 3) as [->|]; try done; by repeat constructor.
Qed.

(** The task works on the relay's endpoints. *)
Record ready t : Prop := {
  rd_endpoint : mEndpointId (dv_app (dev t)) = 1;
  rd_config : 1 ≤ u8Config (dv_app (dev t)) ≤ 4;
  rd_attrs : ∀ ep, ep ∈ relay_endpoints (u8Config (dv_app (dev t))) → attrs_ok (dev t) ep }.

(** A step that keeps what was posted, counts requests up and leaves the task ready. *)
Record follows t t' : Prop := {
  fl_keeps : keeps (dv_app (dev t)) (dv_app (dev t'));
  fl_resets : (factory_resets t ≤ factory_resets t')%nat;
  fl_ready : ready t → ready t' }.

#[local] Instance follows_preorder : PreOrder follows.
Proof.
  split; [by split|]. intros t1 t2 t3 [K1 R1 Y1] [K2 R2 Y2]. split; [by etransitivity|lia|auto].
Qed.

Lemma follows_app t t' : dv_at (dev t') = dv_at (dev t) → keeps (dv_app (dev t)) (dv_app (dev t')) →
  (factory_resets t ≤ factory_resets t')%nat → follows t t'.
Proof.
  intros Hd Hk Hr. split; [done|done|]. intros [E C A]. destruct Hk as [KE KC _ _].
  split; [congruence|by rewrite KC|]. intros ep. rewrite KC. intros Hin. destruct (A ep Hin) as (A1 & A2 & A3 & A4).
  unfold onoff_attrs, store_attr. cbn. unfold device_attr. rewrite Hd. done.
Qed.

Definition runs t (o : option (task P F)) : Prop := ∃ t', o = Some t' ∧ follows t t'.

Lemma runs_ret t t' : follows t t' → runs t (Some t').
Proof. by exists t'. Qed.

Lemma runs_bind t o k : runs t o → (∀ t', follows t t' → runs t' (k t')) → runs t (let! x := o in k x).
Proof.
  intros (t1 & -> & F1) Hk. destruct (Hk t1 F1) as (t2 & E2 & F2). exists t2. split; [done|]. by transitivity t1.
Qed.

Lemma runs_trans t t1 o : follows t t1 → runs t1 o → runs t o.
Proof. intros F1 (t2 & -> & F2). exists t2. split; [done|by etransitivity]. Qed.

Lemma follows_post event t : follows t (post event t).
Proof. apply follows_app; [done|apply keeps_post|done]. Qed.

Lemma runs_color level hue sat t : runs t (sLightLED_SetColor level hue sat t).
Proof.
  destruct (SetColor_spec level hue sat t) as (w & l & -> & _). apply runs_ret. apply follows_app; [done|by apply keeps_eq|done].
Qed.

Lemma runs_toggle t : runs t (sLightLED_Toggle t).
Proof. destruct (Toggle_spec t) as (r & ->). apply runs_ret. apply follows_app; [done|by apply keeps_eq|done]. Qed.

Lemma runs_get t ep value : ready t → ep ∈ relay_endpoints (u8Config (dv_app (dev t))) →
  ∃ st v, OnOff_Get cfg hooks input t ep value = Some (st, v).
Proof.
  intros Hr Hin. destruct (rd_attrs t Hr ep Hin) as (A1 & _).
  destruct (get_on_total cfg hooks input Hhooks (dev t) ep value A1) as [[st v] Hg]. by exists st, v.
Qed.

Lemma runs_set t ep value : ready t → ep ∈ relay_endpoints (u8Config (dv_app (dev t))) → runs t (OnOff_Set cfg hooks input t ep value).
Proof.
  intros Hr Hin. destruct (rd_attrs t Hr ep Hin) as (A1 & _).
  destruct (set_on_sync cfg hooks input Hhooks (dev t) ep value A1) as (d & Hw & Hc & _ & _ & Hat & _).
  pose proof (set_on_keeps cfg hooks input Hhooks (dev t) ep value _ d A1 Hw) as Hk.
  exists (t <| dev := d |>). split.
  - unfold OnOff_Set. by rewrite (Hw : @set_bool _ (app_store cfg hooks input) _ _ _ _ _ = _).
  - split; [exact Hk|done|]. intros [E C A]. split; cbn [dev update]; [by rewrite (kp_endpoint _ _ Hk)|by rewrite Hc|]. rewrite Hc. auto.
Qed.

Lemma one_in u8cfg : 1 ≤ u8cfg ≤ 4 → 1 ∈ relay_endpoints u8cfg.
Proof. intros. apply relay_endpoints_pin; [done|by eexists]. Qed.
Lemma two_in u8cfg : 1 ≤ u8cfg ≤ 4 → (u8cfg =? 2) || (u8cfg =? 3) || (u8cfg =? 4) = true → 2 ∈ relay_endpoints u8cfg.
Proof.
  intros Hc Ht. apply relay_endpoints_pin; [done|]. assert (u8cfg = 2 ∨ u8cfg = 3 ∨ u8cfg = 4) as [->|[->| ->]] by lia; by eexists.
Qed.
Lemma three_in u8cfg : (u8cfg =? 4) = true → 3 ∈ relay_endpoints u8cfg.
Proof. intros ->%Z.eqb_eq. by repeat constructor. Qed.

(** What the lamp's update reads besides the relays is defined. *)
Definition lamp_reads (t : task P F) (l h s : EmberAfStatus) : Prop :=
  let ep := mEndpointId (dv_app (dev t)) in
  (∃ v, get_nullable_enum8 (dev t) ep LevelControl_Id 0 (Some 0) = Some (l, v)) ∧
  (∃ v, get_uint 1 (dev t) ep ColorControl_Id 0 0 = Some (h, v)) ∧
  (∃ v, get_uint 1 (dev t) ep ColorControl_Id 1 0 = Some (s, v)).

Lemma runs_lighting e status t l h s : ready t → lamp_reads t l h s → runs t (LightingUpdate cfg hooks input e status t).
Proof.
  intros Hr ((v1 & HL1) & (v2 & HL2) & (v3 & HL3)). pose proof (rd_config t Hr) as Hc. pose proof (one_in _ Hc) as I1. unfold LightingUpdate.
  destruct (has_bits _ _); [|by apply runs_ret]. destruct (negb _); [|apply runs_color].
  assert (∀ o2 o3, runs t (or_break (OnOff_Get cfg hooks input t (mEndpointId (dv_app (dev t))) false) t (λ onoff,
    or_break (get_nullable_enum8 (dev t) (mEndpointId (dv_app (dev t))) LevelControl_Id 0 (Some 0)) t (λ _,
    or_break (get_uint 1 (dev t) (mEndpointId (dv_app (dev t))) ColorControl_Id 0 0) t (λ _,
    or_break (get_uint 1 (dev t) (mEndpointId (dv_app (dev t))) ColorControl_Id 1 0) t (λ _,
      if negb onoff && negb o2 && negb o3 then sLightLED_SetColor 0 0 0 t else sLightLED_SetColor 36 84 254 t)))))) as Hrest.
  { intros o2 o3. rewrite HL1, HL2, HL3. destruct (runs_get t (mEndpointId (dv_app (dev t))) false Hr) as (st & v & ->); [by rewrite (rd_endpoint t Hr)|].
    unfold or_break. repeat (destruct (is_success _); [|by apply runs_ret]). destruct (negb v && _ && _); apply runs_color. }
  destruct (_ || _) eqn:E23.
  - destruct (runs_get t 2 false Hr) as (st & v & ->); [apply two_in; [done|by rewrite E23]|]. unfold or_break at 1.
    destruct (is_success _); [apply Hrest|by apply runs_ret].
  - destruct (_ =? 4) eqn:E4; [|apply Hrest].
    destruct (runs_get t 2 false Hr) as (st & v & ->); [apply two_in; [done|by rewrite E4, orb_true_r]|]. unfold or_break at 1.
    destruct (is_success _); [|by apply runs_ret].
    destruct (runs_get t 3 false Hr) as (st3 & v' & ->); [by apply three_in|]. unfold or_break at 1.
    destruct (is_success _); [apply Hrest|by apply runs_ret].
Qed.

Lemma runs_rewrite t : ready t → runs t (rewrite_attributes cfg hooks input t).
Proof.
  intros Hr. pose proof (rd_config t Hr) as Hc. pose proof (rd_endpoint t Hr) as He. unfold rewrite_attributes. rewrite He.
  destruct (runs_get t 1 false Hr (one_in _ Hc)) as (st & v & ->).
  set (two := _ || _ || _) in *. set (three := _ =? 4) in *.
  assert (∃ st2 v2, (if two then OnOff_Get cfg hooks input t 2 false else Some (EMBER_ZCL_STATUS_SUCCESS, false)) = Some (st2, v2)) as (st2 & v2 & ->).
  { destruct two eqn:E2; [apply runs_get; [done|by apply two_in]|by eexists _, _]. }
  assert (∃ st3 v3, (if three then OnOff_Get cfg hooks input t 3 false else Some (EMBER_ZCL_STATUS_SUCCESS, false)) = Some (st3, v3)) as (st3 & v3 & ->).
  { destruct three eqn:E3; [apply runs_get; [done|by apply three_in]|by eexists _, _]. }
  apply runs_bind; [apply runs_set; [done|by apply one_in]|]. intros t1 F1. pose proof (fl_ready _ _ F1 Hr) as R1.
  pose proof (kp_config _ _ (fl_keeps _ _ F1)) as C1.
  apply runs_bind.
  { destruct two eqn:E2; [|by apply runs_ret]. apply runs_set; [done|]. rewrite C1. by apply two_in. }
  intros t2 F2. pose proof (fl_ready _ _ F2 R1) as R2. pose proof (kp_config _ _ (fl_keeps _ _ F2)) as C2.
  apply runs_bind.
  { destruct three eqn:E3; [|by apply runs_ret]. apply runs_set; [done|]. rewrite C2, C1. by apply three_in. }
  intros t3 _. destruct (negb v && _ && _); apply runs_color.
Qed.

Ltac by_app := apply follows_app; [done|by apply keeps_eq|cbn; lia].

Lemma runs_confirm e t : runs t (confirm_reset e t).
Proof.
  unfold confirm_reset. destruct (negb _); [|by apply runs_ret]. destruct (_ <? _); [|apply runs_color].
  apply runs_ret. etransitivity; [|apply follows_post]. by_app.
Qed.

Lemma runs_poll e t : ready t → runs t (poll cfg hooks input e t).
Proof.
  intros Hr. unfold poll. destruct (_ <? 120); [|by apply runs_ret]. unfold read_pin.
  match goal with |- context [input ?l 2] => set (v := input l 2) end.
  match goal with |- context [rewrite_attributes cfg hooks input ?x] => set (t1 := x) end.
  assert (follows t t1) as F1 by by_app. pose proof (fl_ready _ _ F1 Hr) as R1.
  eapply runs_trans; [exact F1|].
  apply runs_bind.
  { destruct (_ =? 0); [destruct (_ =? 0); apply runs_color|]. destruct (10 <? _); [by apply runs_rewrite|by apply runs_ret]. }
  intros t2 _. apply runs_bind.
  { destruct (_ && _); [|by apply runs_ret]. destruct (6 <? _); [|apply runs_ret; by_app].
    match goal with |- context [sLightLED_SetColor 0 0 254 ?y] => assert (follows t2 y) as F3 by by_app end.
    eapply runs_trans; [exact F3|]. apply runs_bind; [apply runs_color|]. intros t4 _.
    apply runs_bind; [apply runs_color|]. intros t5 _. apply runs_ret. by_app. }
  intros t3 _. apply runs_ret. destruct (_ =? 10); by_app.
Qed.

Lemma follows_start t : follows t (StartTimer t).
Proof. apply follows_app; [done| |done]. cbn. destruct (_ =? 0); by apply keeps_eq. Qed.

Lemma runs_timer e t : ready t → runs t (TimerEventHandler cfg hooks input e t).
Proof.
  intros Hr. unfold TimerEventHandler. apply runs_bind; [apply runs_confirm|]. intros t1 F1.
  apply runs_bind; [by apply runs_poll, (fl_ready _ _ F1)|]. intros t2 _. apply runs_ret, follows_start.
Qed.

Lemma runs_press e t : ready t → runs t (short_press cfg hooks input e t).
Proof.
  intros Hr. unfold short_press. destruct (negb _); [|apply runs_toggle]. pose proof (one_in _ (rd_config t Hr)) as I1.
  rewrite (rd_endpoint t Hr). destruct (runs_get t 1 (main_onoff t) Hr I1) as (st & v & ->).
  match goal with |- context [OnOff_Set cfg hooks input ?y] => assert (follows t y) as F1 by by_app end.
  eapply runs_trans; [exact F1|]. cbn [dev update]. rewrite (rd_endpoint t Hr). apply runs_set; [by apply (fl_ready _ _ F1)|done].
Qed.

Lemma runs_identify event t : runs t (IdentifyHandleOp event t).
Proof.
  unfold IdentifyHandleOp. set (t0 := if has_bits APP_EVENT_IDENTIFY_START event then _ else t).
  assert (follows t t0) as F1 by (unfold t0; destruct (has_bits _ _); [by_app|reflexivity]).
  eapply runs_trans; [exact F1|]. apply runs_bind; [destruct (_ && _); [apply runs_toggle|by apply runs_ret]|].
  intros t1 _. apply runs_ret. destruct (has_bits APP_EVENT_IDENTIFY_STOP event); [|reflexivity].
  transitivity (t1 <| identifyState := 0 |>); [by_app|apply follows_post].
Qed.

Lemma runs_handle e event t l h s : ready t → lamp_reads t l h s →
  ∃ t', handle cfg hooks input e event t = Some t' ∧ follows t t' ∧
    (has_bits event APP_EVENT_FACTORY_RESET = true → (factory_resets t < factory_resets t')%nat).
Proof.
  intros Hr Hl. unfold handle.
  assert (runs t (if has_bits APP_EVENT_LIGHTING_MASK event then LightingUpdate cfg hooks input e event t else Some t)) as (t1 & -> & F1).
  { destruct (has_bits _ _); [by eapply runs_lighting|by apply runs_ret]. }
  pose proof (fl_ready _ _ F1 Hr) as R1.
  assert (runs t1 (if has_bits APP_EVENT_BTN_SHORT event then short_press cfg hooks input e t1 else Some t1)) as (t2 & -> & F2).
  { destruct (has_bits _ _); [by apply runs_press|by apply runs_ret]. }
  pose proof (fl_ready _ _ F2 R1) as R2.
  assert (runs t2 (if has_bits APP_EVENT_IDENTIFY_MASK event then IdentifyHandleOp event t2 else Some t2)) as (t3 & -> & F3).
  { destruct (has_bits _ _); [by apply runs_identify|by apply runs_ret]. }
  set (t4 := if has_bits APP_EVENT_FACTORY_RESET event then _ else t3).
  assert (follows t3 t4) as F4 by (unfold t4; destruct (has_bits _ _); by_app).
  destruct (runs_timer e t4) as (t5 & -> & F5); [by apply (fl_ready _ _ F4), (fl_ready _ _ F3)|].
  exists t5. split; [done|]. split; [by etransitivity; [exact F1|]; etransitivity; [exact F2|]; etransitivity; [exact F3|]; etransitivity|].
  intros Hb. pose proof (fl_resets _ _ F1). pose proof (fl_resets _ _ F2). pose proof (fl_resets _ _ F3). pose proof (fl_resets _ _ F5).
  assert (factory_resets t4 = S (factory_resets t3)) by (unfold t4; rewrite has_bits_comm, Hb; done). lia.
Qed.

(** The task handles every notification.  On a ready task each round of the loop
    runs to the end and leaves the task ready.  A pending factory reset is carried
    out by that round, and is pending again after it: the mask of the wait does not
    clear its bit, so once posted every later round asks for the reset again. *)
Theorem reset_not_lost e t l h s : ready t → lamp_reads t l h s → notified (dv_app (dev t)) = true →
  ∃ t', app_step cfg hooks input e t = Some t' ∧ ready t' ∧ (factory_resets t ≤ factory_resets t')%nat ∧
    (reset_pending (dv_app (dev t)) = true →
       reset_pending (dv_app (dev t')) = true ∧ (factory_resets t < factory_resets t')%nat).
Proof.
  intros Hr Hl Hn. unfold app_step. rewrite Hn. cbn [take_notification].
  set (t0 := on_app _ t).
  assert (ready t0) as R0 by (destruct Hr as [E C A]; split; [exact E|exact C|exact A]).
  destruct (runs_handle e (notification (dv_app (dev t))) t0 l h s R0 Hl) as (t' & -> & F' & Hreset).
  exists t'. split; [done|]. split; [by apply (fl_ready _ _ F')|]. split; [apply (fl_resets _ _ F')|]. intros Hp. split; [|by apply Hreset].
  rewrite reset_pending_bit in *. apply (kp_bits _ _ (fl_keeps _ _ F')); [lia|]. cbn [t0 on_app dev dv_app notification update].
  by rewrite Z.land_spec, Hp.
Qed.

(** The On/Off attributes are [on], and the relays of [done_eps] are driven to it. *)
Definition shows (on : EndpointId → bool) (done_eps : list EndpointId) t : Prop :=
  ∀ ep, ep ∈ relay_endpoints (u8Config (dv_app (dev t))) →
    (∀ value, OnOff_Get cfg hooks input t ep value = Some (EMBER_ZCL_STATUS_SUCCESS, on ep)) ∧
    (ep ∈ done_eps → in_sync cfg hooks input (dev t) ep).

Lemma get_any t ep v value : get_bool (dev t) ep OnOff_Id OnOff_OnOff false = Some (EMBER_ZCL_STATUS_SUCCESS, v) →
  OnOff_Get cfg hooks input t ep value = Some (EMBER_ZCL_STATUS_SUCCESS, v).
Proof.
  unfold OnOff_Get, get_bool. change (app_store cfg hooks input) with loop_store.
  destruct (store_read (dev t) ep OnOff_Id OnOff_OnOff 1) as [[st l]|]; [|done].
  destruct (is_success st) eqn:E; cbn [negb]; [|intros [= ->]; done]. by destruct (_ =? 255).
Qed.

Lemma shows_app on eps t t' : dv_at (dev t') = dv_at (dev t) → u8Config (dv_app (dev t')) = u8Config (dv_app (dev t)) →
  (∀ p, pin_level (dv_app (dev t')) p = pin_level (dv_app (dev t)) p) → shows on eps t → shows on eps t'.
Proof.
  intros Hd Hc Hp Hs ep. rewrite Hc. intros Hin. destruct (Hs ep Hin) as [Hg Hy]. split.
  - intros value. rewrite <- (Hg value). unfold OnOff_Get, get_bool. cbn [store_read app_store device_store]. by rewrite Hd.
  - intros Hd' q Hq. rewrite Hc in Hq. destruct (Hy Hd' q Hq) as (b & Hb & Hl). exists b. rewrite Hp. split; [|done].
    revert Hb. unfold get_bool. cbn [store_read follow_store device_store]. by rewrite Hd.
Qed.

(** Every attribute that can be read is as it was, but for On/Off on the endpoints [eps]. *)
Definition framed (eps : list EndpointId) (d d' : device P) : Prop :=
  ∀ ep cl id n, ¬ (ep ∈ eps ∧ cl = OnOff_Id ∧ id = OnOff_OnOff) → store_readable d ep cl id n →
    store_readable d' ep cl id n ∧ store_read d' ep cl id n = store_read d ep cl id n.
Lemma framed_trans eps d1 d2 d3 : framed eps d1 d2 → framed eps d2 d3 → framed eps d1 d3.
Proof.
  intros M1 M2 ep cl id n Hne Hr. destruct (M1 ep cl id n Hne Hr) as [R1 E1]. destruct (M2 ep cl id n Hne R1) as [R2 E2].
  split; [done|]. by rewrite E2.
Qed.
Lemma framed_same eps d d' : dv_at d' = dv_at d → framed eps d d'.
Proof. destruct d as [a r], d' as [a' r']. cbn. intros -> ep cl id n _ Hr. by split. Qed.

Lemma set_framed eps t ep b t' : store_attr (dev t) ep OnOff_Id OnOff_OnOff 1 → ep ∈ eps →
  OnOff_Set cfg hooks input t ep b = Some t' → framed eps (dev t) (dev t').
Proof.
  intros Ha Hin Hset ep' cl id n Hne Hr.
  destruct (store_write_attr (dev t) ep OnOff_Id OnOff_OnOff 1 [if b then 1 else 0] ZCL_BOOLEAN_ATTRIBUTE_TYPE Ha eq_refl)
    as (d & Hw & _ & _ & Hrd & Hoth & _); [destruct b; repeat constructor; done|].
  assert (dev t' = d) as ->.
  { revert Hset. unfold OnOff_Set. change (set_bool (dev t) ep OnOff_Id OnOff_OnOff b) with
      (store_write (dev t) ep OnOff_Id OnOff_OnOff [if b then 1 else 0] ZCL_BOOLEAN_ATTRIBUTE_TYPE).
    change (app_store cfg hooks input) with loop_store. rewrite Hw. by intros [= <-]. }
  split; [by apply Hrd|]. apply Hoth; [|done]. intros [= -> -> ->]. by apply Hne.
Qed.

Lemma set_shows on eps t ep : ready t → ep ∈ relay_endpoints (u8Config (dv_app (dev t))) → shows on eps t →
  ∃ t', OnOff_Set cfg hooks input t ep (on ep) = Some t' ∧ ready t' ∧ shows on (ep :: eps) t' ∧
    u8Config (dv_app (dev t')) = u8Config (dv_app (dev t)) ∧ gpioCount t' = gpioCount t ∧
    framed (relay_endpoints (u8Config (dv_app (dev t)))) (dev t) (dev t').
Proof.
  intros Hr Hin Hs. destruct (runs_set t ep (on ep) Hr Hin) as (t' & Hset & F'). exists t'. split; [done|].
  split; [by apply (fl_ready _ _ F')|]. pose proof (kp_config _ _ (fl_keeps _ _ F')) as Hc. 
  destruct (rd_attrs t Hr ep Hin) as (A1 & _).
  destruct (set_on_sync cfg hooks input Hhooks (dev t) ep (on ep) A1) as (d & Hw & _ & Hsy & Hg & _ & Hoth).
  assert (dev t' = d ∧ gpioCount t' = gpioCount t) as [Hd Hcount].
  { revert Hset. unfold OnOff_Set. rewrite (Hw : @set_bool _ (app_store cfg hooks input) _ _ _ _ _ = _). by intros [= <-]. }
  split; [|split_and!; [done|done|by eapply set_framed]].
  intros e. rewrite Hc. intros He. destruct (Hs e He) as [Hge Hye]. destruct (rd_attrs t Hr e He) as (Ae & _). unfold OnOff_Get in *.
  destruct (decide (e = ep)) as [->|Hne].
  - split; [|intros _; by rewrite Hd]. intros value. apply get_any. by rewrite Hd.
  - destruct (Hoth e Hne Ae) as [Hge' Hye']. split.
    + intros value. apply get_any. rewrite Hd. etransitivity; [exact Hge'|]. exact (Hge false).
    + intros [->|Hin']%elem_of_cons; [done|]. rewrite Hd. by apply Hye', Hye.
Qed.

Lemma shows_color on eps t r : shows on eps t → shows on eps (show r t).
Proof. by apply shows_app. Qed.

Lemma endpoints_cases u8cfg ep : 1 ≤ u8cfg ≤ 4 → ep ∈ relay_endpoints u8cfg →
  ep = 1 ∨ (ep = 2 ∧ (u8cfg =? 2) || (u8cfg =? 3) || (u8cfg =? 4) = true) ∨ (ep = 3 ∧ (u8cfg =? 4) = true).
Proof.
  intros Hc. assert (u8cfg = 1 ∨ u8cfg = 2 ∨ u8cfg = 3 ∨ u8cfg = 4) as [->|[->|[->| ->]]] by lia;
    intros Hin; repeat (apply elem_of_cons in Hin as [->|Hin]; [cbn; tauto|]); inversion Hin.
Qed.

Lemma rewrite_shows on t : ready t → shows on [] t →
  ∃ t', rewrite_attributes cfg hooks input t = Some t' ∧ ready t' ∧ u8Config (dv_app (dev t')) = u8Config (dv_app (dev t)) ∧
    gpioCount t' = gpioCount t ∧ shows on (relay_endpoints (u8Config (dv_app (dev t')))) t' ∧
    framed (relay_endpoints (u8Config (dv_app (dev t)))) (dev t) (dev t').
Proof.
  intros Hr Hs. pose proof (rd_config t Hr) as Hc. unfold rewrite_attributes. rewrite (rd_endpoint t Hr).
  rewrite (proj1 (Hs 1 (one_in _ Hc)) false). set (two := _ || _ || _) in *. set (three := _ =? 4) in *.
  assert ((if two then OnOff_Get cfg hooks input t 2 false else Some (EMBER_ZCL_STATUS_SUCCESS, false)) =
    Some (EMBER_ZCL_STATUS_SUCCESS, if two then on 2 else false)) as ->.
  { destruct two eqn:E; [|done]. by apply Hs, two_in. }
  assert ((if three then OnOff_Get cfg hooks input t 3 false else Some (EMBER_ZCL_STATUS_SUCCESS, false)) =
    Some (EMBER_ZCL_STATUS_SUCCESS, if three then on 3 else false)) as ->.
  { destruct three eqn:E; [|done]. by apply Hs, three_in. }
  destruct (set_shows on [] t 1 Hr (one_in _ Hc) Hs) as (t1 & -> & R1 & S1 & C1 & G1 & M1). rewrite <- C1 in M1.
  assert (∃ t2, (if two then OnOff_Set cfg hooks input t1 2 (if two then on 2 else false) else Some t1) = Some t2 ∧ ready t2 ∧
    shows on (if two then [2; 1] else [1]) t2 ∧ u8Config (dv_app (dev t2)) = u8Config (dv_app (dev t1)) ∧ gpioCount t2 = gpioCount t1 ∧
    framed (relay_endpoints (u8Config (dv_app (dev t1)))) (dev t1) (dev t2)) as (t2 & -> & R2 & S2 & C2 & G2 & M2).
  { destruct two eqn:E; [|exists t1; split_and!; try done; by apply framed_same]. apply set_shows; [done| |done]. rewrite C1. by apply two_in. }
  assert (∃ t3, (if three then OnOff_Set cfg hooks input t2 3 (if three then on 3 else false) else Some t2) = Some t3 ∧ ready t3 ∧
    shows on ((if three then [3] else []) ++ (if two then [2; 1] else [1])) t3 ∧ u8Config (dv_app (dev t3)) = u8Config (dv_app (dev t2)) ∧ gpioCount t3 = gpioCount t2 ∧
    framed (relay_endpoints (u8Config (dv_app (dev t2)))) (dev t2) (dev t3)) as (t3 & -> & R3 & S3 & C3 & G3 & M3).
  { destruct three eqn:E; [|exists t2; split_and!; try done; by apply framed_same]. apply set_shows; [done| |done]. rewrite C2, C1. by apply three_in. }
  assert (∀ level, ∃ t', sLightLED_SetColor level 84 254 t3 = Some t' ∧ ready t' ∧ u8Config (dv_app (dev t')) = u8Config (dv_app (dev t)) ∧
    gpioCount t' = gpioCount t ∧ shows on (relay_endpoints (u8Config (dv_app (dev t')))) t' ∧
    framed (relay_endpoints (u8Config (dv_app (dev t)))) (dev t) (dev t')) as Hend; [|destruct (negb _ && _ && _); apply Hend].
  intros level. destruct (SetColor_spec level 84 254 t3) as (w & l & Hset & _). destruct (runs_color level 84 254 t3) as (t' & Hset' & F').
  rewrite Hset in Hset'. injection Hset' as <-. eexists. split; [exact Hset|]. split; [by apply (fl_ready _ _ F')|].
  split; [change (u8Config (dv_app (dev t3)) = u8Config (dv_app (dev t))); congruence|].
  split; [cbn [gpioCount show on_app update]; congruence|].
  split; [|rewrite C2, C1 in M3; rewrite C1 in M1, M2; eapply framed_trans; [exact M1|]; eapply framed_trans; [exact M2|];
    eapply framed_trans; [exact M3|by apply framed_same]].
  intros ep. cbn [dev show on_app dv_app u8Config update]. intros Hin.
  destruct (shows_color _ _ t3 (w, l) S3 ep Hin) as [Hg Hy]. split; [done|]. intros _. apply Hy.
  rewrite C3, C2, C1 in Hin. destruct (endpoints_cases _ ep Hc Hin) as [->|[[-> E]|[-> E]]].
  - apply elem_of_app. right. destruct two; by repeat constructor.
  - change (two = true) in E. rewrite E. apply elem_of_app. right. by repeat constructor.
  - change (three = true) in E. rewrite E. by repeat constructor.
Qed.

Lemma confirm_shows on e t : ready t → shows on [] t →
  ∃ t', confirm_reset e t = Some t' ∧ ready t' ∧ shows on [] t' ∧ u8Config (dv_app (dev t')) = u8Config (dv_app (dev t)) ∧
    gpioCount t' = gpioCount t ∧ dv_at (dev t') = dv_at (dev t).
Proof.
  intros Hr Hs. destruct (runs_confirm e t) as (t1 & Hc & F1). exists t1. split; [done|]. split; [by apply (fl_ready _ _ F1)|].
  revert Hc. unfold confirm_reset. destruct (negb _); [|by intros [= <-]]. destruct (_ <? _); [by intros [= <-]|].
  destruct (SetColor_spec 254 0 210 t) as (w & l & -> & _). by intros [= <-].
Qed.

Lemma start_shows on eps t : shows on eps t →
  u8Config (dv_app (dev (StartTimer t))) = u8Config (dv_app (dev t)) ∧ shows on eps (StartTimer t).
Proof.
  intros Hs. unfold StartTimer. split; [cbn; by destruct (_ =? 0)|]. apply (shows_app on eps t); [done| | |done]; cbn; by destruct (_ =? 0).
Qed.

(** C12: The timer brings the relays back in step and nothing else.  While it counts from
    11 to 119 on a commissioned device, a run of the timer handler of a ready task runs
    to the end, leaves every On/Off attribute of the configuration at its value and every
    other attribute of the data model that can be read, of whatever endpoint and cluster,
    as it was, and drives every relay of the configuration to its attribute. *)
Theorem timer_drives_relays e on t : ready t → FabricCount e ≠ 0 → 10 < gpioCount t < 120 →
  (∀ ep, ep ∈ relay_endpoints (u8Config (dv_app (dev t))) →
     get_bool (dev t) ep OnOff_Id OnOff_OnOff false = Some (EMBER_ZCL_STATUS_SUCCESS, on ep)) →
  ∃ t', TimerEventHandler cfg hooks input e t = Some t' ∧ ready t' ∧ u8Config (dv_app (dev t')) = u8Config (dv_app (dev t)) ∧
    (∀ ep p, relay_pin (u8Config (dv_app (dev t))) ep = Some p →
      get_bool (dev t') ep OnOff_Id OnOff_OnOff false = Some (EMBER_ZCL_STATUS_SUCCESS, on ep) ∧
      pin_level (dv_app (dev t')) p = Some (if on ep then 1 else 0)) ∧
    (∀ ep cl id n, ¬ (ep ∈ relay_endpoints (u8Config (dv_app (dev t))) ∧ cl = OnOff_Id ∧ id = OnOff_OnOff) →
      store_readable (dev t) ep cl id n → store_read (dev t') ep cl id n = store_read (dev t) ep cl id n).
Proof.
  intros Hr Hf Hg Hon. set (c := u8Config (dv_app (dev t))) in *.
  assert (shows on [] t) as Hs0 by (intros ep Hin; split; [intros value; by apply get_any, Hon|by intros ?%elem_of_nil]).
  unfold TimerEventHandler.
  destruct (confirm_shows on e t Hr Hs0) as (t1 & -> & R1 & S1 & C1 & G1 & D1).
  unfold poll, read_pin. rewrite G1, (proj2 (Z.ltb_lt _ 120)) by lia. rewrite (proj2 (Z.eqb_neq _ 0)) by done.
  match goal with |- context [rewrite_attributes cfg hooks input ?y] => set (t2 := y) end.
  match goal with |- context [input ?l 2] => set (v := input l 2) end.
  assert (ready t2) as R2 by (destruct R1 as [E C A]; split; [exact E|exact C|exact A]).
  assert (shows on [] t2) as S2 by (intros ep Hin; split; [by apply (S1 ep Hin)|by intros ?%elem_of_nil]).
  assert (gpioCount t2 = gpioCount t) as G2 by done. rewrite G2, (proj2 (Z.ltb_lt 10 _)) by lia.
  destruct (rewrite_shows on t2 R2 S2) as (t3 & -> & R3 & C3 & G3 & S3 & M3). rewrite G3, G2, (proj2 (Z.ltb_ge _ 10)) by lia.
  cbn [andb]. rewrite G3, G2, (proj2 (Z.eqb_neq _ 10)) by lia.
  match goal with |- context [StartTimer ?y] => set (t4 := y) end.
  assert (u8Config (dv_app (dev t4)) = c) as C4 by (change (u8Config (dv_app (dev t3)) = c); rewrite C3; exact C1).
  assert (ready t4) as R4 by (destruct R3 as [E C A]; split; [exact E|exact C|exact A]).
  destruct (start_shows on (relay_endpoints c) t4) as [C5 S4].
  { apply (shows_app on _ t3); [done|done|done|]. change (u8Config (dv_app (dev t3)) = c) in C4. by rewrite C4 in S3. }
  rewrite C4 in C5. exists (StartTimer t4). split; [done|]. split; [by apply (fl_ready _ _ (follows_start t4))|]. split; [done|].
  split; [|intros ep cl id n Hne Hrd; change (u8Config (dv_app (dev t2))) with (u8Config (dv_app (dev t1))) in M3; rewrite C1 in M3; fold c in Hne;
    assert (framed (relay_endpoints c) (dev t) (dev (StartTimer t4))) as Hframe;
      [eapply framed_trans; [by apply (framed_same _ _ (dev t2))|]; eapply framed_trans; [exact M3|by apply framed_same]|by apply Hframe]].
  intros ep p Hp. assert (ep ∈ relay_endpoints c) as Hin by (apply relay_endpoints_pin; [apply (rd_config t Hr)|by eexists]).
  destruct (S4 ep) as [Hg4 Hy4]; [by rewrite C5|]. split; [exact (Hg4 false)|].
  destruct (Hy4 Hin p) as (b & Hb & Hl); [by rewrite C5|]. assert (Some (EMBER_ZCL_STATUS_SUCCESS, b) = Some (EMBER_ZCL_STATUS_SUCCESS, on ep)) as [= ->].
  { rewrite <- (Hg4 false). symmetry. exact Hb. }
  done.
Qed.

(** The lamp's update.  On a lighting event, an uncommissioned device shows blue;
    a commissioned one shows green when an endpoint of the configuration is on and
    goes dark when none is, but only if the level and the colour of the first
    endpoint can be read: on a data model without them, as the relay's, nothing
    changes.  Other events change nothing. *)
Theorem lighting_update_correct e status on t l h s : ready t → lamp_reads t l h s →
  (∀ ep, ep ∈ relay_endpoints (u8Config (dv_app (dev t))) →
     get_bool (dev t) ep OnOff_Id OnOff_OnOff false = Some (EMBER_ZCL_STATUS_SUCCESS, on ep)) →
  LightingUpdate cfg hooks input e status t =
    if has_bits APP_EVENT_LIGHTING_MASK status then
      if FabricCount e =? 0 then sLightLED_SetColor 36 170 254 t
      else if is_success l && is_success h && is_success s then
        if existsb on (relay_endpoints (u8Config (dv_app (dev t)))) then sLightLED_SetColor 36 84 254 t
        else sLightLED_SetColor 0 0 0 t
      else Some t
    else Some t.
Proof.
  intros Hr ((v1 & HL1) & (v2 & HL2) & (v3 & HL3)) Hon. pose proof (rd_config t Hr) as Hc. unfold LightingUpdate.
  destruct (has_bits _ _); [|done]. destruct (FabricCount e =? 0); [done|]. cbn [negb].
  unfold or_break. change (app_store cfg hooks input) with loop_store. rewrite HL1, HL2, HL3, (rd_endpoint t Hr).
  assert (∀ ep value, ep ∈ relay_endpoints (u8Config (dv_app (dev t))) →
    OnOff_Get cfg hooks input t ep value = Some (EMBER_ZCL_STATUS_SUCCESS, on ep)) as Hg by (intros; by apply get_any, Hon).
  clear Hon. assert (u8Config (dv_app (dev t)) = 1 ∨ u8Config (dv_app (dev t)) = 2 ∨ u8Config (dv_app (dev t)) = 3 ∨
    u8Config (dv_app (dev t)) = 4) as [Ec|[Ec|[Ec|Ec]]] by lia; rewrite Ec in *; cbn [Z.eqb orb Pos.eqb relay_endpoints] in *;
    rewrite ?(Hg 1), ?(Hg 2), ?(Hg 3) by (by repeat constructor); cbn [is_success existsb negb orb andb];
    destruct (is_success l), (is_success h), (is_success s); cbn [andb]; try done;
    destruct (on 1); try done; destruct (on 2); try done; by destruct (on 3).
Qed.
End loop.

(** ** Witnesses on the relay of [StoreDemo] *)
Module TaskDemo.
Import RelayDemo CallbackDemo StoreDemo.
#[local] Existing Instance FlashDemo.map_flash.
#[local] Existing Instance FlashDemo.map_flash_laws.

Definition demo_task : task provider (gmap string bytes) :=
  {| dev := demo_device; flash := ∅; main_onoff := false; fctRst := 0; gpioCount := 0; identifyState := 0; timer_period := None;
     factory_resets := 0 |}.
Definition at_time (n : Z) : env := {| now := n; FabricCount := 1 |}.
Definition pressed (_ : list gpio_call) (_ : Z) : Z := 0.
Definition option_pins (_ : list gpio_call) (pin : Z) : Z := if pin =? 20 then 1 else 0.

Lemma demo_flash_stores : flash_stores (F := gmap string bytes).
Proof. done. Qed.

Lemma demo_ids k e : live_endpoints (table relay_store) !! k = Some e → endpoint e = Z.of_nat k + 1.
Proof.
  change (live_endpoints (table relay_store)) with [relay_endpoint 1 0; relay_endpoint 2 7; relay_endpoint 3 14].
  intros Hk. do 3 (destruct k as [|k]; [apply (inj Some) in Hk as <-; reflexivity|]). discriminate Hk.
Qed.

Lemma demo_first k e : live_endpoints (table relay_store) !! k = Some e → (k < 3)%nat → first_at (table relay_store) k e.
Proof.
  intros Hk Hlt. split; [done|]. rewrite (demo_ids k e Hk). split; [unfold kInvalidEndpointId; lia|].
  intros j x Hj Hx. rewrite (demo_ids j x Hx). lia.
Qed.

Lemma options_enable_relays_witness :
  ∃ t', OptionRead option_pins demo_task = Some t' ∧
    emberAfEndpointIsEnabled (table (store (dv_at (dev t')))) 2 = Some (bool_decide (is_Some (relay_pin (u8Config (dv_app (dev t'))) 2))).
Proof.
  destruct (options_enable_relays option_pins demo_task 0 1 2 (relay_endpoint 1 0) (relay_endpoint 2 7) (relay_endpoint 3 14))
    as (t' & H & _ & _ & He).
  - exact relay_table.
  - unfold no_parents, parents_ranked.
    change (live_endpoints (table (store (dv_at (dev demo_task))))) with [relay_endpoint 1 0; relay_endpoint 2 7; relay_endpoint 3 14].
    repeat (apply Forall_cons; split; [intros Hne; exfalso; apply Hne; reflexivity|]). apply Forall_nil_2.
  - apply demo_first; [reflexivity|lia].
  - apply demo_first; [reflexivity|lia].
  - apply demo_first; [reflexivity|lia].
  - reflexivity.
  - reflexivity.
  - reflexivity.
  - intros ep [->|[->| ->]]; reflexivity.
  - intros calls. right. reflexivity.
  - intros calls. left. reflexivity.
  - exists t'. split; [exact H|]. apply He. right. left. reflexivity.
Defined.

Lemma reboot_counter_witness :
  ∃ f', power_cycles (fun f => demo_task <| flash := f |>) (repeat (at_time 1000) 8) (∅ : gmap string bytes) =
    Some ([false; false; false; false; false; false; true; false], f').
Proof.
  destruct (reboot_counter (fun f => demo_task <| flash := f |>) (repeat (at_time 1000) 8) (∅ : gmap string bytes)) as (f' & H).
  - exact demo_flash_stores.
  - intros f. reflexivity.
  - repeat (apply Forall_cons; split; [split; [vm_compute; congruence|reflexivity]|]). apply Forall_nil_2.
  - reflexivity.
  - exists f'. exact H.
Defined.

Lemma boot_window_witness :
  ∃ t', ticks relay_config default_hooks stuck (repeat (at_time 0) 11) demo_task = Some t' ∧ read_reset_count (flash t') = 0.
Proof.
  destruct (boot_window relay_config default_hooks stuck (repeat (at_time 0) 11) demo_task) as (t' & H & _ & Hc).
  - exact demo_flash_stores.
  - intros calls. discriminate.
  - reflexivity.
  - simpl. lia.
  - exists t'. split; [exact H|exact Hc].
Defined.

Lemma held_pin_resets_witness :
  ∃ t', ticks relay_config default_hooks pressed (repeat (at_time 0) 8) demo_task = Some t' ∧ factory_resets t' = 2%nat.
Proof.
  destruct (held_pin_resets relay_config default_hooks pressed (repeat (at_time 0) 8) demo_task) as (t' & H & _ & Hc).
  - intros calls. reflexivity.
  - reflexivity.
  - reflexivity.
  - simpl. lia.
  - exists t'. split; [exact H|exact Hc].
Defined.

Lemma reset_confirm_window_witness :
  ∃ t', confirm_reset (at_time 6000) (on_app (fun s => s <| mButtonPressedTime := 101 |>) demo_task) = Some t' ∧
    reset_pending (dv_app (dev t')) = true.
Proof.
  destruct (reset_confirm_window 100 (at_time 6000) (on_app (fun s => s <| mButtonPressedTime := 101 |>) demo_task)) as (t' & H & Hc).
  - cbn. lia.
  - reflexivity.
  - reflexivity.
  - exists t'. split; [exact H|]. exact (proj2 Hc).
Defined.

Notation demo_ok := (ready relay_config default_hooks stuck accepting).
Lemma demo_ready (t : task provider (gmap string bytes)) : dv_at (dev t) = dv_at demo_device → mEndpointId (dv_app (dev t)) = 1 →
  u8Config (dv_app (dev t)) = 4 → demo_ok t.
Proof.
  intros Hd E C. split; [done|by rewrite C|]. rewrite C. intros ep Hin. refine (vw_writable _ _ _ (device_view _ _ _ _ _ _ (ab_view shown) _)).
  rewrite Hd. apply relay_view. repeat (apply elem_of_cons in Hin as [->|Hin]; [tauto|]). inversion Hin.
Qed.

(** No Level Control, no Color Control. *)
Lemma demo_lamp_reads : lamp_reads relay_config default_hooks stuck demo_task EMBER_ZCL_STATUS_UNSUPPORTED_CLUSTER
  EMBER_ZCL_STATUS_UNSUPPORTED_CLUSTER EMBER_ZCL_STATUS_UNSUPPORTED_CLUSTER.
Proof. split_and!; eexists; vm_compute; reflexivity. Qed.

Definition asked : task provider (gmap string bytes) := on_app (fun s => s <| notified := true |> <| notification := 0x50 |>) demo_task.

Lemma reset_not_lost_witness :
  ∃ t', app_step relay_config default_hooks stuck (at_time 0) asked = Some t' ∧ reset_pending (dv_app (dev t')) = true ∧
    (0 < factory_resets t')%nat.
Proof.
  destruct (reset_not_lost relay_config default_hooks stuck accepting (at_time 0) asked EMBER_ZCL_STATUS_UNSUPPORTED_CLUSTER
    EMBER_ZCL_STATUS_UNSUPPORTED_CLUSTER EMBER_ZCL_STATUS_UNSUPPORTED_CLUSTER) as (t' & H & _ & _ & Hp).
  - apply demo_ready; reflexivity.
  - exact demo_lamp_reads.
  - reflexivity.
  - exists t'. split; [exact H|]. apply Hp. reflexivity.
Defined.

#[local] Instance task_store : AttributeStore (device provider) := device_store relay_config default_hooks stuck.

Lemma demo_off (t : task provider (gmap string bytes)) ep : dv_at (dev t) = dv_at demo_device → ep ∈ relay_endpoints 4 →
  get_bool (dev t) ep OnOff_Id OnOff_OnOff false = Some (EMBER_ZCL_STATUS_SUCCESS, false).
Proof.
  intros Hd Hin. transitivity (get_bool demo_device ep OnOff_Id OnOff_OnOff false).
  - unfold get_bool. cbn [store_read task_store device_store]. by rewrite Hd.
  - repeat (apply elem_of_cons in Hin as [->|Hin]; [vm_compute; reflexivity|]). inversion Hin.
Qed.

Lemma timer_drives_relays_witness :
  ∃ t', TimerEventHandler relay_config default_hooks stuck (at_time 0) (demo_task <| gpioCount := 11 |>) = Some t' ∧
    pin_level (dv_app (dev t')) TR_RELAY_REL3 = Some 0 ∧
    store_read (dev t') 1 OnOff_Id OnOff_OnTime 2 = Some (EMBER_ZCL_STATUS_SUCCESS, [0; 0]).
Proof.
  destruct (timer_drives_relays relay_config default_hooks stuck accepting (at_time 0) (fun _ => false) (demo_task <| gpioCount := 11 |>))
    as (t' & H & _ & _ & Hp & Hoth).
  - apply demo_ready; reflexivity.
  - discriminate.
  - cbn. lia.
  - intros ep Hin. apply demo_off; [reflexivity|exact Hin].
  - exists t'. split; [exact H|]. split; [refine (proj2 (Hp 3 TR_RELAY_REL3 _)); reflexivity|].
    transitivity (store_read (dev demo_task) 1 OnOff_Id OnOff_OnTime 2); [|vm_compute; reflexivity].
    refine (Hoth 1 OnOff_Id OnOff_OnTime 2%nat _ _); [intros (_ & _ & E); discriminate E|].
    assert (ready relay_config default_hooks stuck accepting (demo_task <| gpioCount := 11 |>)) as R by (apply demo_ready; reflexivity).
    destruct (rd_attrs _ _ _ _ _ R 1) as (_ & _ & A & _); [by repeat constructor|]. exact (proj1 (proj1 A)).
Defined.

Lemma lighting_update_correct_witness :
  LightingUpdate relay_config default_hooks stuck (at_time 0) APP_EVENT_LIGHTING_ONOFF demo_task = Some demo_task.
Proof.
  rewrite (lighting_update_correct relay_config default_hooks stuck accepting (at_time 0) APP_EVENT_LIGHTING_ONOFF (fun _ => false) demo_task
    EMBER_ZCL_STATUS_UNSUPPORTED_CLUSTER EMBER_ZCL_STATUS_UNSUPPORTED_CLUSTER EMBER_ZCL_STATUS_UNSUPPORTED_CLUSTER).
  - reflexivity.
  - apply demo_ready; reflexivity.
  - exact demo_lamp_reads.
  - intros ep Hin. apply demo_off; [reflexivity|exact Hin].
Defined.
End TaskDemo.
