(* ===== verification/Identity.v ===== *)
(** * Identity: what the relay derives from its MAC address

    [get_mac_init] of [src/examples/lighting-app/thirdreality/common/AppTask.cpp]: the
    serial number [sn_mac_g] and the discriminator [discriminator_mac_g], which the
    configuration takes as [CHIP_DEVICE_CONFIG_USE_TEST_SETUP_DISCRIMINATOR] after
    subtracting 1.

    Values of [int] stay far below the width; the two results are an unsigned
    16-bit and an unsigned 32-bit integer, little-endian in memory.  [itoa] belongs
    to the C library of the toolchain: the digits it writes for a byte in base 16
    are a parameter, with what its documentation says of them. *)
From S2P Require Import Prelude.

(** ** Loops [while (test(step(x)));] *)
Fixpoint while_step (fuel : nat) (step : Z → Z) (test : Z → bool) (x : Z) : option Z :=
  match fuel with
  | O => None
  | S fuel => let x := step x in if test x then while_step fuel step test x else Some x
  end.
Definition up_to_3 (w : Z) (fuel : nat) : Z → option Z := while_step fuel (fun x => wrap w (x + 1)) (fun x => x <? 3).
Definition down_to (w max : Z) (fuel : nat) : Z → option Z := while_step fuel (fun x => wrap w (x - 1)) (fun x => max <? x).

(** [p[k] ^= p[0]] on the bytes of an integer of [n] bytes. *)
Definition xor_byte (n k : nat) (x : Z) : Z :=
  let bs := le_bytes n x in le_val (alter (fun b => Z.lxor b (default 0 (bs !! 0%nat))) k bs).

Record mac_address := { mac0 : Z; mac1 : Z; mac2 : Z; mac3 : Z; mac4 : Z; mac5 : Z }.
Definition mac_ok (m : mac_address) : Prop :=
  Forall (in_u 8) [mac0 m; mac1 m; mac2 m; mac3 m; mac4 m; mac5 m].

Definition derive_discriminator (fuel : nat) (m : mac_address) : option Z :=
  let pin := Z.land (Z.lxor (Z.shiftl (mac0 m) 8 + mac1 m) (Z.shiftl (mac1 m) 8 + mac2 m)) 0x7FFF in
  let pin := u32 (Z.shiftl pin 12) in
  let pin := u32 (pin + (Z.shiftl (mac3 m) 4 + Z.shiftr (Z.land (mac4 m) 0xF0) 4 + 1)) in
  let disc := u16 (Z.shiftl (Z.land (mac4 m) 0x0F) 8 + mac5 m + 1) in
  let disc := xor_byte 2 1 disc in
  let pin := xor_byte 4 3 (xor_byte 4 2 (xor_byte 4 1 pin)) in
  let disc := Z.land disc 0xFFF in
  let pin := Z.land pin 0x7FFFFFF in
  let! disc := up_to_3 16 fuel disc in
  let! pin := up_to_3 32 fuel pin in
  let! disc := down_to 16 0xFFF fuel disc in
  let! pin := down_to 32 0x7FFFFFF fuel pin in
  let! disc := (if disc =? 0 then None else Some (u16 (pin mod disc))) in
  let! disc := up_to_3 16 fuel disc in
  down_to 16 0xFFF fuel disc.

(** ** The serial number *)

Definition pre_sn : bytes := text "3RM02-3354-".

Section serial.
Context (itoa : Z → bytes).

Definition write_itoa (v : Z) (off : nat) (m : bytes) : option bytes := mwrite m off (itoa v ++ [0]).

Definition serial_number (m : mac_address) : option bytes :=
  let sn := repeat 0 24 in
  let! sn := mwrite sn 0 (take 12 (pre_sn ++ [0])) in
  let! sn := write_itoa (mac5 m) 11 sn in
  let! sn := write_itoa (mac4 m) 13 sn in
  let! sn := write_itoa (mac3 m) 15 sn in
  let! sn := write_itoa (mac2 m) 17 sn in
  let! sn := write_itoa (mac1 m) 19 sn in
  let! sn := write_itoa (mac0 m) 21 sn in
  mwrite sn 16 [0].

(** A byte has one digit below 16 and two from there on; no digit is the
    terminator. *)
Definition itoa_digits : Prop := ∀ v, in_u 8 v →
  (∃ a, itoa v = [a] ∧ a ≠ 0 ∧ v < 16) ∨ (∃ a b, itoa v = [a; b] ∧ a ≠ 0 ∧ b ≠ 0 ∧ 16 ≤ v).

Lemma digits_cases v : itoa_digits → in_u 8 v →
  (∃ a, itoa v = [a] ∧ (a =? 0) = false ∧ (v <? 16) = true) ∨
  (∃ a b, itoa v = [a; b] ∧ (a =? 0) = false ∧ (b =? 0) = false ∧ (v <? 16) = false).
Proof.
  intros Hit Hv. destruct (Hit v Hv) as [(a & E & Ha & Hlt)|(a & b & E & Ha & Hb & Hle)]; [left; exists a|right; exists a, b];
    split_and!; [done|by apply Z.eqb_neq|by apply Z.ltb_lt|done|by apply Z.eqb_neq|by apply Z.eqb_neq|by apply Z.ltb_ge].
Qed.

(** The serial number fits its buffer for every address, and is the prefix with
    the digits of the last bytes of the address: five of them when the last two
    bytes have two digits each.  A last byte below 16 cuts it after one digit, so
    all the devices with that last byte have one serial number. *)
Theorem serial_number_correct m : itoa_digits → mac_ok m →
  ∃ sn, serial_number m = Some sn ∧ length sn = 24%nat ∧
    c_str sn = pre_sn ++ itoa (mac5 m) ++
      (if mac5 m <? 16 then [] else itoa (mac4 m) ++ (if mac4 m <? 16 then [] else take 1 (itoa (mac3 m)))).
Proof.
  intros Hit Hm. repeat (apply Forall_cons in Hm as [?Hb Hm]). clear Hm.
  assert (∀ v, in_u 8 v → _) as Hc by (intros v; apply (digits_cases v Hit)).
  unfold serial_number, write_itoa.
  destruct (Hc _ Hb) as [(a0 & -> & _)|(a0 & b0 & -> & _)]; destruct (Hc _ Hb0) as [(a1 & -> & _)|(a1 & b1 & -> & _)];
    destruct (Hc _ Hb1) as [(a2 & -> & _)|(a2 & b2 & -> & _)];
    destruct (Hc _ Hb2) as [(a3 & -> & E3 & _)|(a3 & b3 & -> & E3 & _)];
    destruct (Hc _ Hb3) as [(a4 & -> & E4 & ->)|(a4 & b4 & -> & E4 & E4' & ->)];
    destruct (Hc _ Hb4) as [(a5 & -> & E5 & ->)|(a5 & b5 & -> & E5 & E5' & ->)];
    (eexists; split; [reflexivity|]; split; [reflexivity|]); cbn; rewrite ?E5, ?E5', ?E4, ?E4', ?E3; reflexivity.
Qed.
End serial.

(** ** The discriminator *)
Lemma up_to_3_spec w fuel x : 3 ≤ w → 0 ≤ x < 2 ^ w - 1 → (3 ≤ fuel)%nat → up_to_3 w fuel x = Some (Z.max 3 (x + 1)).
Proof.
  intros Hw Hx Hf. assert (2 ^ 3 ≤ 2 ^ w) as Hp by (apply Z.pow_le_mono_r; lia).
  do 3 (destruct fuel as [|fuel]; [lia|]). unfold up_to_3. cbn [while_step].
  rewrite !(wrap_small w (x + 1)) by ulia. destruct (Z.ltb_spec (x + 1) 3); [|f_equal; lia].
  rewrite !(wrap_small w (x + 1 + 1)) by ulia. destruct (Z.ltb_spec (x + 1 + 1) 3); [|f_equal; lia].
  rewrite !(wrap_small w (x + 1 + 1 + 1)) by ulia. rewrite (proj2 (Z.ltb_ge _ 3)) by lia. f_equal; lia.
Qed.

Lemma down_to_spec w max fuel x : 0 < x ≤ max + 1 → x < 2 ^ w → (1 ≤ fuel)%nat → down_to w max fuel x = Some (x - 1).
Proof.
  intros Hx Hw Hf. destruct fuel as [|fuel]; [lia|]. unfold down_to. cbn [while_step].
  rewrite wrap_small by ulia. by rewrite (proj2 (Z.ltb_ge _ _)) by lia.
Qed.

(** The discriminator is in range.  For every address the derivation ends - three
    turns of each loop suffice, and the remainder is never taken by zero - with a value from 2
    to 0xFFE: what the configuration advertises, one less, is a 12-bit
    discriminator from 1 to 0xFFD. *)
Theorem discriminator_in_range m fuel : (3 ≤ fuel)%nat → ∃ d, derive_discriminator fuel m = Some d ∧ 2 ≤ d ≤ 0xFFE.
Proof.
  intros Hf. unfold derive_discriminator. cbv zeta.
  match goal with |- context [Z.land ?a 0xFFF] => set (d0 := Z.land a 0xFFF); assert (0 ≤ d0 < 0x1000) as Hd0 end.
  { unfold d0. change 0xFFF with (Z.ones 12). rewrite Z.land_ones by lia. by apply Z.mod_pos_bound. }
  match goal with |- context [Z.land ?a 0x7FFFFFF] => set (p0 := Z.land a 0x7FFFFFF); assert (0 ≤ p0 < 0x8000000) as Hp0 end.
  { unfold p0. change 0x7FFFFFF with (Z.ones 27). rewrite Z.land_ones by lia. by apply Z.mod_pos_bound. }
  clearbody d0 p0. rewrite !up_to_3_spec by lia. rewrite !down_to_spec by lia.
  rewrite (proj2 (Z.eqb_neq _ 0)) by lia.
  pose proof (Z.mod_pos_bound (Z.max 3 (p0 + 1) - 1) (Z.max 3 (d0 + 1) - 1) ltac:(lia)) as Hm.
  rewrite wrap_small by ulia. rewrite up_to_3_spec by lia. rewrite down_to_spec by lia. eexists. split; [done|]. lia.
Qed.

Module IdentityDemo.
Definition hex (d : Z) : Z := if d <? 10 then 48 + d else 87 + d.
Definition itoa16 (v : Z) : bytes := if v <? 16 then [hex v] else [hex (v / 16); hex (v mod 16)].

Lemma itoa16_digits : itoa_digits itoa16.
Proof.
  intros v Hv. unfold in_u in Hv. unfold itoa16. assert (∀ d, 0 ≤ d → hex d ≠ 0) as Hx by (intros d Hd; unfold hex; destruct (d <? 10); lia).
  destruct (Z.ltb_spec v 16); [left; eexists; split_and!; [done|apply Hx; lia|lia]|right; eexists _, _; split_and!; [done| | |lia]].
  - apply Hx, Z.div_pos; lia.
  - apply Hx, Z.mod_pos_bound; lia.
Qed.

Definition mac_a : mac_address := {| mac0 := 0x94; mac1 := 0xa0; mac2 := 0x81; mac3 := 0x12; mac4 := 0x34; mac5 := 0x0a |}.

(** Five digits were meant; a last byte below 16 leaves one. *)
Lemma serial_number_correct_witness :
  ∃ sn, serial_number itoa16 mac_a = Some sn ∧ c_str sn = text "3RM02-3354-a".
Proof.
  destruct (serial_number_correct itoa16 mac_a itoa16_digits) as (sn & H & _ & Hc).
  - repeat (apply Forall_cons; split; [vm_compute; split; congruence|]). apply Forall_nil_2.
  - exists sn. split; [exact H|]. rewrite Hc. reflexivity.
Defined.

Lemma discriminator_in_range_witness : ∃ d, derive_discriminator 3 mac_a = Some d ∧ 2 ≤ d ≤ 0xFFE.
Proof. apply (discriminator_in_range mac_a 3). lia. Defined.
End IdentityDemo.
