(* ===== verification/Base38.v ===== *)
(** * Base38: the text of the onboarding payload

    [src/src/setup_payload/Base38.h], [Base38Encode.cpp] and [Base38Decode.cpp]:
    three bytes become five characters, one or two left over become two or four.

    A [std::string] is the list of its character codes.  [base38Encode] writes into
    a buffer, the second argument; its results are the error, the buffer and the
    size of the span after the call, and [None] would be a write outside it. *)
From S2P Require Import Prelude ChipError.

Definition kCodes : list Z := text "0123456789ABCDEFGHIJKLMNOPQRSTUVWXYZ-.".
Definition kRadix : Z := 38.
Definition kBase38CharactersNeededInNBytesChunk : list nat := [2; 4; 5]%nat.
Definition kMaxBytesSingleChunkLen : nat := 3.

(** ** Encoding *)
Fixpoint chunk_value (byte_idx : Z) (in_buf : bytes) (value : Z) : Z :=
  match in_buf with
  | [] => value
  | b :: in_buf => chunk_value (byte_idx + 1) in_buf (u32 (value + Z.shiftl b (8 * byte_idx)))
  end.

Fixpoint put_characters (count : nat) (value : Z) (out_buf : bytes) (out_idx : nat) : option (bytes * nat) :=
  match count with
  | O => Some (out_buf, out_idx)
  | S count =>
      let! c := kCodes !! Z.to_nat (value mod kRadix) in
      let! out_buf := mwrite out_buf out_idx [c] in
      put_characters count (value / kRadix) out_buf (S out_idx)
  end.

Fixpoint encode_chunks (fuel : nat) (in_buf out_buf : bytes) (out_idx : nat) : option (CHIP_ERROR * bytes * nat) :=
  match fuel, in_buf with
  | _, [] => Some (CHIP_NO_ERROR, out_buf, out_idx)
  | O, _ => None
  | S fuel, _ =>
      let bytesInChunk := Nat.min kMaxBytesSingleChunkLen (length in_buf) in
      let value := chunk_value 0 (take bytesInChunk in_buf) 0 in
      let! needed := kBase38CharactersNeededInNBytesChunk !! (bytesInChunk - 1)%nat in
      if (length out_buf <=? out_idx + needed)%nat then Some (CHIP_ERROR_BUFFER_TOO_SMALL, out_buf, out_idx)
      else
        let! (out_buf, out_idx) := put_characters needed value out_buf out_idx in
        encode_chunks fuel (drop bytesInChunk in_buf) out_buf out_idx
  end.

Definition base38Encode (in_buf out_buf : bytes) : option (CHIP_ERROR * bytes * nat) :=
  let! (r, out_idx) := encode_chunks (length in_buf) in_buf out_buf 0 in
  let (err, out_buf) := r : CHIP_ERROR * bytes in
  if (out_idx <? length out_buf)%nat
  then let! out_buf := mwrite out_buf out_idx [0] in Some (err, out_buf, out_idx)
  else Some (CHIP_ERROR_BUFFER_TOO_SMALL, out_buf, length out_buf).

Definition base38EncodedLength (num_bytes : nat) : nat := (num_bytes / 3) * 5 + (num_bytes mod 3) * 2 + 1.

(** ** Decoding *)
Definition kBogus : Z := 255.
Definition decodes : list Z :=
  [36; 37; kBogus; 0; 1; 2; 3; 4; 5; 6; 7; 8; 9; kBogus; kBogus; kBogus; kBogus; kBogus; kBogus; kBogus;
   10; 11; 12; 13; 14; 15; 16; 17; 18; 19; 20; 21; 22; 23; 24; 25; 26; 27; 28; 29; 30; 31; 32; 33; 34; 35].

Definition decodeChar (c : Z) : CHIP_ERROR + Z :=
  if (c <? 45) || (90 <? c) then inl CHIP_ERROR_INVALID_INTEGER_VALUE
  else match decodes !! Z.to_nat (c - 45) with
       | Some v => if v =? kBogus then inl CHIP_ERROR_INVALID_INTEGER_VALUE else inr v
       | None => inl CHIP_ERROR_INVALID_INTEGER_VALUE
       end.

(** From the last character of the chunk to the first. *)
Fixpoint get_characters (chars : bytes) (value : Z) : CHIP_ERROR + Z :=
  match chars with
  | [] => inr value
  | c :: chars =>
      match decodeChar c with
      | inl err => inl err
      | inr v => get_characters chars (u32 (value * kRadix + v))
      end
  end.

Fixpoint push_bytes (count : nat) (value : Z) (result : bytes) : Z * bytes :=
  match count with
  | O => (value, result)
  | S count => push_bytes count (Z.shiftr value 8) (result ++ [u8 value])
  end.

Definition chunk_sizes (base38CharactersNumber : nat) : option (nat * nat) :=
  if (5 <=? base38CharactersNumber)%nat then Some (5, 3)%nat
  else if (base38CharactersNumber =? 4)%nat then Some (4, 2)%nat
  else if (base38CharactersNumber =? 2)%nat then Some (2, 1)%nat
  else None.

Fixpoint decode_chunks (fuel : nat) (base38 result : bytes) : option (CHIP_ERROR * bytes) :=
  match fuel, base38 with
  | _, [] => Some (CHIP_NO_ERROR, result)
  | O, _ => None
  | S fuel, _ =>
      match chunk_sizes (length base38) with
      | None => Some (CHIP_ERROR_INVALID_STRING_LENGTH, result)
      | Some (chars, bytesInDecodedChunk) =>
          match get_characters (rev (take chars base38)) 0 with
          | inl err => Some (err, result)
          | inr value =>
              let (value, result) := push_bytes bytesInDecodedChunk value result in
              if 0 <? value then Some (CHIP_ERROR_INVALID_ARGUMENT, result)
              else decode_chunks fuel (drop chars base38) result
          end
      end
  end.
Definition base38Decode (base38 : bytes) : option (CHIP_ERROR * bytes) := decode_chunks (length base38) base38 [].

(** ** The text of a list of bytes *)
Fixpoint digits (n : nat) (v : Z) : bytes :=
  match n with
  | O => []
  | S n => default 0 (kCodes !! Z.to_nat (v mod kRadix)) :: digits n (v / kRadix)
  end.

Fixpoint base38_text (bs : bytes) : bytes :=
  match bs with
  | a :: b :: c :: bs => digits 5 (le_val [a; b; c]) ++ base38_text bs
  | bs => digits (2 * length bs) (le_val bs)
  end.

Lemma length_digits n v : length (digits n v) = n.
Proof. revert v; induction n; intros; simpl; auto. Qed.

(** Lists by threes. *)
Lemma chunk_ind (P : bytes → Prop) :
  (∀ l, (length l < 3)%nat → P l) → (∀ a b c l, P l → P (a :: b :: c :: l)) → ∀ l, P l.
Proof.
  intros H0 H3 l. remember (length l) as n eqn:Hn. revert l Hn. induction n as [n IH] using lt_wf_ind. intros l ->.
  destruct l as [|a [|b [|c l]]]; [by apply H0; simpl; lia..|]. apply H3. eapply IH; [|done]. simpl. lia.
Qed.

Lemma length_text bs : length (base38_text bs) = (base38EncodedLength (length bs) - 1)%nat.
Proof.
  induction bs as [l Hl|a b c bs IH] using chunk_ind.
  - destruct l as [|a [|b [|c l]]]; [done..|simpl in Hl; lia].
  - cbn [base38_text]. rewrite length_app, length_digits, IH. unfold base38EncodedLength. cbn [length].
    replace (S (S (S (length bs)))) with (length bs + 1 * 3)%nat by lia. rewrite Nat.div_add, Nat.Div0.mod_add by lia. lia.
Qed.

(** ** The alphabet *)
Lemma code_decode v : 0 ≤ v < 38 → ∃ c, kCodes !! Z.to_nat v = Some c ∧ decodeChar c = inr v ∧ c ≠ 0.
Proof.
  intros Hv. assert (∀ n, (n < 38)%nat → ∃ c, kCodes !! n = Some c ∧ decodeChar c = inr (Z.of_nat n) ∧ c ≠ 0) as Hn.
  { intros n Hn. do 38 (destruct n as [|n]; [eexists; split; [reflexivity|]; split; [reflexivity|discriminate]|]). lia. }
  destruct (Hn (Z.to_nat v)) as (c & Hc & Hd & H0); [lia|]. rewrite Z2Nat.id in Hd by lia. by exists c.
Qed.

Lemma decode_code c v : decodeChar c = inr v → 0 ≤ v < 38 ∧ kCodes !! Z.to_nat v = Some c.
Proof.
  intros Hc. assert (45 ≤ c ≤ 90) as Hr.
  { unfold decodeChar in Hc. destruct (Z.ltb_spec c 45); [done|]. by destruct (Z.ltb_spec 90 c). }
  assert (∀ n, (n < 46)%nat → decodeChar (Z.of_nat n + 45) = inr v → 0 ≤ v < 38 ∧ kCodes !! Z.to_nat v = Some (Z.of_nat n + 45)) as Hn.
  { intros n Hn. do 46 (destruct n as [|n]; [vm_compute; (discriminate || (intros [= <-]; split; [split; [discriminate|reflexivity]|reflexivity]))|]). lia. }
  destruct (Hn (Z.to_nat (c - 45))) as [Hv Hk]; [lia|rewrite Z2Nat.id, Z.sub_add by lia; done|].
  rewrite Z2Nat.id, Z.sub_add in Hk by lia. done.
Qed.

(** ** Encoding is the text *)
Lemma chunk_value_le bs : bytes_ok bs → (length bs ≤ 3)%nat → chunk_value 0 bs 0 = le_val bs.
Proof.
  assert (∀ v x, 0 ≤ v < 2 ^ 24 → 0 ≤ x < 2 ^ 24 → u32 (v + x) = v + x) as Hw by (intros; apply wrap_small; ulia).
  intros Hok Hl. destruct bs as [|a [|b [|c [|d bs]]]]; [done| | | |simpl in Hl; lia];
    repeat (apply Forall_cons in Hok as [? Hok]); cbn [chunk_value le_val]; rewrite !Z.shiftl_mul_pow2 by lia;
    change (2 ^ (8 * 0)) with 1; change (2 ^ (8 * (0 + 1))) with 256; change (2 ^ (8 * (0 + 1 + 1))) with 65536;
    unfold in_u in *; rewrite (Hw 0 (a * 1)) by lia; [lia|rewrite (Hw _ (b * 256)) by lia; lia|].
  rewrite (Hw _ (b * 256)) by lia. rewrite (Hw _ (c * 65536)) by lia. lia.
Qed.

Lemma put_characters_spec count v out idx : (idx + count ≤ length out)%nat →
  put_characters count v out idx = (let! m := mwrite out idx (digits count v) in Some (m, (idx + count)%nat)).
Proof.
  revert v out idx; induction count as [|count IH]; intros v out idx Hl.
  { destruct (mwrite_is_Some out idx []) as [m Hm]; [simpl; lia|]. cbn [put_characters digits]. rewrite Hm.
    apply mwrite_Some in Hm as [_ ->]. cbn [length app]. by rewrite !Nat.add_0_r, take_drop. }
  destruct (code_decode (v mod kRadix)) as (c & Hc & _); [by apply Z.mod_pos_bound|].
  assert (digits (S count) v = [c] ++ digits count (v / kRadix)) as -> by (cbn [digits]; by rewrite Hc).
  cbn [put_characters]. rewrite Hc, mwrite_app.
  destruct (mwrite out idx [c]) as [m|] eqn:Hm; [|done]. rewrite IH by (rewrite (mwrite_length _ _ _ _ Hm); lia).
  cbn [length]. by rewrite !Nat.add_1_r, Nat.add_succ_r.
Qed.

(** What is left of the bytes starts with a whole chunk, or is the last one. *)
Lemma text_chunk bs : bs ≠ [] →
  let n := Nat.min kMaxBytesSingleChunkLen (length bs) in
  ∃ needed, kBase38CharactersNeededInNBytesChunk !! (n - 1)%nat = Some needed ∧ (1 ≤ n ≤ 3)%nat ∧
    base38_text bs = digits needed (le_val (take n bs)) ++ base38_text (drop n bs) ∧
    length (base38_text bs) = (needed + length (base38_text (drop n bs)))%nat.
Proof.
  intros Hne n. assert (∀ l1 l2 k, base38_text bs = l1 ++ l2 → length l1 = k → length (base38_text bs) = (k + length l2)%nat) as Hlen
    by (intros l1 l2 k -> <-; apply length_app).
  destruct bs as [|a [|b [|c bs]]]; [done| | |].
  - exists 2%nat. split; [done|]. split; [simpl in n; lia|]. assert (base38_text [a] = digits 2 (le_val [a]) ++ []) as E by reflexivity.
    split; [exact E|by eapply Hlen; [exact E|]].
  - exists 4%nat. split; [done|]. split; [simpl in n; lia|]. assert (base38_text [a; b] = digits 4 (le_val [a; b]) ++ []) as E by reflexivity.
    split; [exact E|by eapply Hlen; [exact E|]].
  - exists 5%nat. split; [done|]. split; [simpl in n; lia|]. split; [reflexivity|]. eapply Hlen; [reflexivity|apply length_digits].
Qed.

(** The text as far as it was written, then the rest of the buffer. *)
Lemma encode_chunks_spec fuel bs out idx : bytes_ok bs → (length bs ≤ fuel)%nat → (idx ≤ length out)%nat →
  if (idx + length (base38_text bs) <? length out)%nat || (length bs =? 0)%nat
  then encode_chunks fuel bs out idx =
    (let! m := mwrite out idx (base38_text bs) in Some (CHIP_NO_ERROR, m, (idx + length (base38_text bs))%nat))
  else ∃ out' idx', encode_chunks fuel bs out idx = Some (CHIP_ERROR_BUFFER_TOO_SMALL, out', idx') ∧ length out' = length out ∧
    (idx' ≤ length out)%nat.
Proof.
  revert bs out idx; induction fuel as [|fuel IH]; intros bs out idx Hok Hf Hidx.
  all: destruct (decide (bs = [])) as [->|Hne].
  1, 3: rewrite orb_true_r; destruct (mwrite_is_Some out idx []) as [m Hm]; [simpl; lia|];
    change (base38_text []) with (@nil Z); rewrite Hm; apply mwrite_Some in Hm as [_ ->];
    cbn [encode_chunks length app]; by rewrite !Nat.add_0_r, take_drop.
  { destruct bs; [done|simpl in Hf; lia]. }
  assert (length bs ≠ 0)%nat as Hl0 by (destruct bs; [done|simpl; lia]). rewrite (proj2 (Nat.eqb_neq _ _) Hl0), orb_false_r.
  destruct (text_chunk bs Hne) as (needed & Hn & Hb & Ht & Hlt). set (n := Nat.min _ _) in *.
  assert (length (take n bs) ≤ 3)%nat by (rewrite length_take; lia).
  assert (encode_chunks (S fuel) bs out idx =
    if (length out <=? idx + needed)%nat then Some (CHIP_ERROR_BUFFER_TOO_SMALL, out, idx)
    else let! (m, i) := put_characters needed (le_val (take n bs)) out idx in encode_chunks fuel (drop n bs) m i) as ->.
  { cbn [encode_chunks]. destruct bs as [|b bs]; [done|]. fold n. rewrite Hn. rewrite chunk_value_le by (by try apply Forall_take). done. }
  destruct (Nat.leb_spec (length out) (idx + needed)) as [Hle|Hgt].
  { rewrite (proj2 (Nat.ltb_ge _ _)) by lia. by exists out, idx. }
  rewrite put_characters_spec by lia.
  destruct (mwrite_is_Some out idx (digits needed (le_val (take n bs)))) as [m Hm]; [rewrite length_digits; lia|]. rewrite Hm.
  pose proof (mwrite_length _ _ _ _ Hm) as Hml.
  specialize (IH (drop n bs) m (idx + needed)%nat (Forall_drop _ _ _ Hok)). rewrite length_drop in IH.
  specialize (IH ltac:(lia) ltac:(lia)). 
  assert (mwrite out idx (base38_text bs) = mwrite m (idx + needed) (base38_text (drop n bs))) as ->
    by (rewrite Ht, mwrite_app, Hm, length_digits; done). rewrite Hml in IH.
  replace (idx + needed + length (base38_text (drop n bs)))%nat with (idx + length (base38_text bs))%nat in IH by lia.
  destruct (Nat.ltb_spec (idx + length (base38_text bs)) (length out)) as [Hlt2|Hge2]; cbn [orb] in IH; [exact IH|].
  destruct (length bs - n =? 0)%nat eqn:Hlast; [|exact IH]. apply Nat.eqb_eq in Hlast.
  assert (drop n bs = []) as E by (apply nil_length_inv; rewrite length_drop; lia). rewrite E in Hlt. simpl in Hlt. lia.
Qed.

Lemma get_characters_app l1 l2 acc :
  get_characters (l1 ++ l2) acc = match get_characters l1 acc with inl err => inl err | inr v => get_characters l2 v end.
Proof. revert acc; induction l1 as [|c l1 IH]; intros acc; cbn [get_characters app]; [done|]. by destruct (decodeChar c). Qed.

Lemma get_digits n v : (n ≤ 5)%nat → 0 ≤ v < 38 ^ Z.of_nat n → get_characters (rev (digits n v)) 0 = inr v.
Proof.
  revert v; induction n as [|n IH]; intros v Hn Hv; [simpl in *; f_equal; lia|].
  rewrite Nat2Z.inj_succ, Z.pow_succ_r in Hv by lia. cbn [digits rev].
  destruct (code_decode (v mod kRadix)) as (c & Hc & Hd & _); [by apply Z.mod_pos_bound|]. rewrite Hc. change (default 0 (Some c)) with c.
  unfold kRadix in *. pose proof (Z.div_mod v 38 ltac:(lia)) as Hdm. pose proof (Z.mod_pos_bound v 38 ltac:(lia)).
  rewrite get_characters_app, IH; [|lia|split; [apply Z.div_pos; lia|apply Z.div_lt_upper_bound; lia]].
  cbn [get_characters]. rewrite Hd. f_equal. rewrite wrap_small; [unfold kRadix; lia|].
  assert (38 ^ Z.of_nat n ≤ 38 ^ 4) by (apply Z.pow_le_mono_r; lia). unfold kRadix. ulia.
Qed.

(** Characters that decode are the digits of their value. *)
Lemma digits_get l v : (length l ≤ 5)%nat → get_characters (rev l) 0 = inr v →
  0 ≤ v < 38 ^ Z.of_nat (length l) ∧ digits (length l) v = l.
Proof.
  revert v; induction l as [|c l IH]; intros v Hl; cbn [rev]; [intros [= <-]; simpl; split; [lia|done]|].
  rewrite get_characters_app. destruct (get_characters (rev l) 0) as [|u] eqn:Hu; [done|]. cbn [get_characters].
  destruct (decodeChar c) as [|d] eqn:Hd; [done|]. intros [= <-]. cbn [length] in *.
  destruct (IH u ltac:(lia) eq_refl) as [Hr Hg]. destruct (decode_code c d Hd) as [Hdr Hc]. unfold kRadix.
  assert (38 ^ Z.of_nat (length l) ≤ 38 ^ 4) by (apply Z.pow_le_mono_r; lia).
  rewrite wrap_small by ulia. rewrite Nat2Z.inj_succ, Z.pow_succ_r by lia. split; [lia|]. cbn [digits]. unfold kRadix.
  replace ((u * 38 + d) mod 38) with d by (rewrite Z.add_comm, Z.mod_add, Z.mod_small by lia; done).
  replace ((u * 38 + d) / 38) with u by (rewrite Z.add_comm, Z.div_add, Z.div_small by lia; lia).
  by rewrite Hc, Hg.
Qed.

Lemma push_bytes_spec n v r : push_bytes n v r = (v / 256 ^ Z.of_nat n, r ++ le_bytes n v).
Proof.
  revert v r; induction n as [|n IH]; intros v r; cbn [push_bytes le_bytes].
  { by rewrite app_nil_r, Z.pow_0_r, Z.div_1_r. }
  rewrite IH, Z.shiftr_div_pow2, Z.div_div by (try apply Z.pow_pos_nonneg; lia). change (2 ^ 8) with 256.
  rewrite Nat2Z.inj_succ, Z.pow_succ_r by lia. by rewrite <- app_assoc.
Qed.

(** ** Decoding *)
Lemma decode_step n k fuel bs rest r : chunk_sizes (k + length rest) = Some (k, n) → (1 ≤ k ≤ 5)%nat → 256 ^ Z.of_nat n ≤ 38 ^ Z.of_nat k →
  bytes_ok bs → length bs = n →
  decode_chunks (S fuel) (digits k (le_val bs) ++ rest) r = decode_chunks fuel rest (r ++ bs).
Proof.
  intros Hc Hk Hpow Hok Hl. pose proof (length_digits k (le_val bs)) as Hd. pose proof (le_val_range bs Hok) as Hv. rewrite Hl in Hv.
  cbn [decode_chunks]. destruct (digits k (le_val bs) ++ rest) as [|c l] eqn:E.
  { apply (f_equal length) in E. rewrite length_app in E. simpl in E. lia. }
  rewrite <- E, length_app, Hd, Hc, take_app_length', get_digits by (done || lia).
  rewrite push_bytes_spec, Z.div_small by lia. rewrite (proj2 (Z.ltb_ge _ _)) by lia. rewrite drop_app_length' by done.
  by rewrite <- Hl, le_bytes_val.
Qed.

Lemma decode_text bs : bytes_ok bs → ∀ fuel r, (length (base38_text bs) ≤ fuel)%nat →
  decode_chunks fuel (base38_text bs) r = Some (CHIP_NO_ERROR, r ++ bs).
Proof.
  induction bs as [l Hl|a b c bs IH] using chunk_ind; intros Hok fuel r Hf.
  - destruct l as [|a [|b [|c l]]]; [| | |simpl in Hl; lia].
    + destruct fuel; by rewrite app_nil_r.
    + destruct fuel as [|fuel]; [simpl in Hf; lia|]. change (base38_text [a]) with (digits 2 (le_val [a]) ++ []).
      rewrite (decode_step 1 2); [by destruct fuel|done|lia|done|done|done].
    + destruct fuel as [|fuel]; [simpl in Hf; lia|]. change (base38_text [a; b]) with (digits 4 (le_val [a; b]) ++ []).
      rewrite (decode_step 2 4); [by destruct fuel|done|lia|done|done|done].
  - cbn [base38_text] in Hf |- *. rewrite length_app, length_digits in Hf. destruct fuel as [|fuel]; [lia|].
    pose proof Hok as (Ha & (Hb & (Hc & Hok')%Forall_cons)%Forall_cons)%Forall_cons.
    rewrite (decode_step 3 5); [|done|lia|done|by repeat (apply Forall_cons; split; [done|]); apply Forall_nil_2|done]. rewrite IH by (done || lia). by rewrite <- app_assoc.
Qed.

Lemma chunk_sizes_inv k chars n : chunk_sizes k = Some (chars, n) →
  (chars ≤ k)%nat ∧ ((chars = 5 ∧ n = 3) ∨ (chars = 4 ∧ n = 2 ∧ k = 4) ∨ (chars = 2 ∧ n = 1 ∧ k = 2))%nat.
Proof.
  unfold chunk_sizes. destruct (Nat.leb_spec 5 k); [intros [= <- <-]; lia|]. destruct (Nat.eqb_spec k 4); [intros [= <- <-]; lia|].
  destruct (Nat.eqb_spec k 2); [intros [= <- <-]; lia|done].
Qed.

Lemma get_characters_error l acc err : get_characters l acc = inl err → err ≠ CHIP_NO_ERROR.
Proof.
  revert acc; induction l as [|c l IH]; intros acc; cbn [get_characters]; [done|].
  destruct (decodeChar c) as [e|v] eqn:Hd; [|apply IH]. intros [= <-]. revert Hd. unfold decodeChar.
  destruct (_ || _); [by intros [= <-]|]. destruct (decodes !! _) as [v|]; [|by intros [= <-]]. destruct (v =? kBogus); [by intros [= <-]|done].
Qed.

Lemma text_nil bs : base38_text bs = [] → bs = [].
Proof. by destruct bs as [|a [|b [|c bs]]]. Qed.

(** What decodes is the text of the result. *)
Lemma decode_canonical fuel s r res : decode_chunks fuel s r = Some (CHIP_NO_ERROR, res) →
  ∃ bs, res = r ++ bs ∧ bytes_ok bs ∧ base38_text bs = s.
Proof.
  revert s r; induction fuel as [|fuel IH]; intros s r.
  all: destruct (decide (s = [])) as [->|Hne]; [intros [= <-]; exists []; rewrite app_nil_r; by repeat constructor|].
  { by destruct s. }
  cbn [decode_chunks]. destruct s as [|c0 s0] eqn:Es; [done|]. rewrite <- Es in *. clear Es.
  destruct (chunk_sizes (length s)) as [[chars n]|] eqn:Hc; [|by intros [=]]. apply chunk_sizes_inv in Hc as [Hk Hcase].
  destruct (get_characters (rev (take chars s)) 0) as [err|v] eqn:Hg; [by intros [= Herr _]; apply get_characters_error in Hg|].
  assert (length (take chars s) = chars) as Hlt by (rewrite length_take; lia).
  destruct (digits_get (take chars s) v) as [Hv Hd]; [lia|done|]. rewrite Hlt in Hv, Hd. rewrite push_bytes_spec.
  destruct (Z.ltb_spec 0 (v / 256 ^ Z.of_nat n)) as [|Hsmall]; [by intros [=]|]. intros Hrest.
  assert (0 ≤ v < 256 ^ Z.of_nat n) as Hvn.
  { split; [lia|]. assert (0 < 256 ^ Z.of_nat n) by (apply Z.pow_pos_nonneg; lia). pose proof (Z.div_mod v (256 ^ Z.of_nat n)).
    pose proof (Z.mod_pos_bound v (256 ^ Z.of_nat n)). nia. }
  destruct (IH _ _ Hrest) as (bs & -> & Hok & Ht). exists (le_bytes n v ++ bs). split; [by rewrite app_assoc|].
  split; [by apply Forall_app; split; [apply le_bytes_ok|]|].
  assert (le_val (le_bytes n v) = v) as Hlv by (by apply le_val_bytes).
  assert (length (drop chars s) = (length s - chars)%nat) as Hdl by apply length_drop.
  destruct Hcase as [[-> ->]|[(-> & -> & Hs)|(-> & -> & Hs)]].
  - change (le_bytes 3 v ++ bs) with (v mod 256 :: v / 256 mod 256 :: v / 256 / 256 mod 256 :: bs). cbn [base38_text].
    change [v mod 256; v / 256 mod 256; v / 256 / 256 mod 256] with (le_bytes 3 v). by rewrite Hlv, Hd, Ht, take_drop.
  - assert (bs = []) as -> by (apply text_nil; rewrite Ht; apply nil_length_inv; lia). rewrite app_nil_r.
    change (base38_text (le_bytes 2 v)) with (digits 4 (le_val (le_bytes 2 v))). rewrite Hlv, Hd. apply firstn_all2. lia.
  - assert (bs = []) as -> by (apply text_nil; rewrite Ht; apply nil_length_inv; lia). rewrite app_nil_r.
    change (base38_text (le_bytes 1 v)) with (digits 2 (le_val (le_bytes 1 v))). rewrite Hlv, Hd. apply firstn_all2. lia.
Qed.

Lemma encode_fits bs out : bytes_ok bs → (base38EncodedLength (length bs) ≤ length out)%nat →
  ∃ out', base38Encode bs out = Some (CHIP_NO_ERROR, out', (base38EncodedLength (length bs) - 1)%nat) ∧
    mwrite out 0 (base38_text bs ++ [0]) = Some out'.
Proof.
  intros Hok Hle. pose proof (encode_chunks_spec (length bs) bs out 0 Hok ltac:(lia) ltac:(lia)) as He. unfold base38Encode.
  pose proof (length_text bs) as Hl. assert (1 ≤ base38EncodedLength (length bs))%nat by (unfold base38EncodedLength; lia).
  rewrite (proj2 (Nat.ltb_lt _ _)) in He by lia. cbn [orb] in He. rewrite He.
  destruct (mwrite_is_Some out 0 (base38_text bs)) as [m Hm]; [lia|]. rewrite Hm. pose proof (mwrite_length _ _ _ _ Hm) as Hml.
  rewrite (proj2 (Nat.ltb_lt _ _)) by lia.
  destruct (mwrite_is_Some m (0 + length (base38_text bs)) [0]) as [m' Hm']; [simpl; lia|].
  exists m'. rewrite mwrite_app, Hm, Hm'. split; [|done]. do 2 f_equal. lia.
Qed.

Lemma text_chars bs : Forall (fun c => 45 ≤ c) (base38_text bs).
Proof.
  assert (∀ n v, Forall (fun c => 45 ≤ c) (digits n v)) as Hd.
  { induction n as [|n IH]; intros v; constructor; [|apply IH].
    destruct (code_decode (v mod kRadix)) as (c & -> & Hc & _); [by apply Z.mod_pos_bound|]. change (default 0 (Some c)) with c.
    revert Hc. unfold decodeChar. destruct (Z.ltb_spec c 45); [done|lia]. }
  induction bs as [l Hl|a b c bs IH] using chunk_ind.
  - destruct l as [|a [|b [|c l]]]; [constructor|apply (Hd 2%nat)|apply (Hd 4%nat)|simpl in Hl; lia].
  - apply Forall_app. split; [apply (Hd 5%nat)|exact IH].
Qed.

(** Base 38 round trip.  For every list of bytes the encoder fills the buffer
    with its text and a terminator if the buffer has [base38EncodedLength] bytes,
    and reports it too small otherwise, never writing outside it; the decoder takes
    the text back to the bytes, and no other text decodes to them. *)
Theorem base38_roundtrip bs out : bytes_ok bs →
  (if (base38EncodedLength (length bs) <=? length out)%nat
   then ∃ out', base38Encode bs out = Some (CHIP_NO_ERROR, out', (base38EncodedLength (length bs) - 1)%nat) ∧
          mwrite out 0 (base38_text bs ++ [0]) = Some out'
   else ∃ out' n, base38Encode bs out = Some (CHIP_ERROR_BUFFER_TOO_SMALL, out', n) ∧ length out' = length out) ∧
  base38Decode (base38_text bs) = Some (CHIP_NO_ERROR, bs) ∧
  ∀ s, base38Decode s = Some (CHIP_NO_ERROR, bs) → s = base38_text bs.
Proof.
  intros Hok. split; [|split].
  - pose proof (length_text bs) as Hl. assert (1 ≤ base38EncodedLength (length bs))%nat by (unfold base38EncodedLength; lia).
    destruct (Nat.leb_spec (base38EncodedLength (length bs)) (length out)) as [Hle|Hgt]; [by apply encode_fits|].
    pose proof (encode_chunks_spec (length bs) bs out 0 Hok ltac:(lia) ltac:(lia)) as He. unfold base38Encode.
    rewrite (proj2 (Nat.ltb_ge _ _)) in He by lia. cbn [orb] in He. destruct (Nat.eqb_spec (length bs) 0) as [Hz|Hz].
    + destruct bs; [|done]. change (length out < 1)%nat in Hgt. destruct out; [|simpl in Hgt; lia]. by eexists _, _.
    + destruct He as (out' & idx & -> & Hlo & Hi). destruct (Nat.ltb_spec idx (length out')) as [Hlt|Hge].
      * destruct (mwrite_is_Some out' idx [0]) as [m Hm]; [simpl; lia|]. rewrite Hm. exists m, idx. split; [done|].
           by rewrite (mwrite_length _ _ _ _ Hm).
      * by exists out', (length out').
  - unfold base38Decode. by rewrite decode_text.
  - intros s Hs. destruct (decode_canonical _ _ _ _ Hs) as (bs' & -> & _ & <-). done.
Qed.

Module Base38Demo.
Lemma base38_roundtrip_witness :
  base38Decode (text "-MOA57ZU02IT2L2BJ00") = Some (CHIP_NO_ERROR, [0x88; 0xff; 0xa7; 0x91; 0x50; 0x40; 0; 0x47; 0x51; 0xdd; 2]) ∧
  (∃ out', base38Encode [0x88; 0xff] (repeat 7 5) = Some (CHIP_NO_ERROR, out', 4%nat)).
Proof.
  split.
  - exact (proj1 (proj2 (base38_roundtrip [0x88; 0xff; 0xa7; 0x91; 0x50; 0x40; 0; 0x47; 0x51; 0xdd; 2] []
      ltac:(repeat (apply Forall_cons; split; [vm_compute; split; [discriminate|reflexivity]|]); apply Forall_nil_2)))).
  - destruct (proj1 (base38_roundtrip [0x88; 0xff] (repeat 7 5)
      ltac:(repeat (apply Forall_cons; split; [vm_compute; split; [discriminate|reflexivity]|]); apply Forall_nil_2))) as (out' & H & _).
    exists out'. exact H.
Defined.
End Base38Demo.
