(* ===== verification/Verhoeff.v ===== *)
(** * Verhoeff: the check digit of the manual pairing code

    [src/src/lib/support/verhoeff/Verhoeff10.cpp] (with the multiplication table)
    and [Verhoeff.cpp].  Characters are their codes; [None] is a read outside a
    table. *)
From S2P Require Import Prelude.

Definition Base : Z := 10.
Definition PolygonSize : Z := 5.
Definition sMultiplyTable : list Z :=
  [0; 1; 2; 3; 4; 5; 6; 7; 8; 9; 1; 2; 3; 4; 0; 6; 7; 8; 9; 5; 2; 3; 4; 0; 1; 7; 8; 9; 5; 6; 3; 4; 0; 1;
   2; 8; 9; 5; 6; 7; 4; 0; 1; 2; 3; 9; 5; 6; 7; 8; 5; 9; 8; 7; 6; 0; 4; 3; 2; 1; 6; 5; 9; 8; 7; 1; 0; 4;
   3; 2; 7; 6; 5; 9; 8; 2; 1; 0; 4; 3; 8; 7; 6; 5; 9; 3; 2; 1; 0; 4; 9; 8; 7; 6; 5; 4; 3; 2; 1; 0].
Definition sPermTable : list Z := [1; 5; 7; 6; 2; 8; 3; 0; 9; 4].

Definition DihedralMultiply (x y n : Z) : Z :=
  let n2 := n * 2 in
  let x := Z.rem x n2 in
  let y := Z.rem y n2 in
  if x <? n then
    if y <? n then Z.rem (x + y) n else Z.rem (x + (y - n)) n + n
  else if y <? n then Z.rem (n + (x - n) - y) n + n
  else Z.rem (n + (x - n) - (y - n)) n.

Definition DihedralInvert (val n : Z) : Z := if (0 <? val) && (val <? n) then n - val else val.

Fixpoint Permute (val : Z) (permTable : list Z) (permTableLen : Z) (iterCount : nat) : option Z :=
  let val := Z.rem val permTableLen in
  match iterCount with
  | O => Some val
  | S iterCount => let! v := permTable !! Z.to_nat val in Permute v permTable permTableLen iterCount
  end.

Definition CharToVal (ch : Z) : Z := if (48 <=? ch) && (ch <=? 57) then ch - 48 else -1.
Definition ValToChar (val : Z) : Z := if (0 <=? val) && (val <=? Base) then 48 + val else 0.

(** The loop from the last character to the first; the result is the check
    character, 0 for a character that is not a digit. *)
Fixpoint check_loop (rev_str : bytes) (i : nat) (c : Z) : option Z :=
  match rev_str with
  | [] => Some (ValToChar (DihedralInvert c PolygonSize))
  | ch :: rev_str =>
      let val := CharToVal ch in
      if val <? 0 then Some 0
      else
        let! p := Permute val sPermTable Base i in
        let! c := sMultiplyTable !! Z.to_nat (c * Base + p) in
        check_loop rev_str (S i) c
  end.
Definition ComputeCheckChar (str : bytes) : option Z := check_loop (rev str) 1 0.

Definition ValidateCheckCharOf (checkChar : Z) (str : bytes) : option bool :=
  let! c := ComputeCheckChar str in Some (c =? checkChar).
Definition ValidateCheckChar (str : bytes) : option bool :=
  match rev str with
  | [] => Some false
  | checkChar :: rest => ValidateCheckCharOf checkChar (rev rest)
  end.

(** ** The group behind the tables *)
Definition digits10 : list Z := [0; 1; 2; 3; 4; 5; 6; 7; 8; 9].
Definition is_val (x : Z) : Prop := 0 ≤ x < 10.

Lemma all10 (P : Z → bool) : forallb P digits10 = true → ∀ x, is_val x → P x = true.
Proof.
  intros Hall x Hx. rewrite forallb_forall in Hall. apply Hall. unfold is_val in Hx.
  assert (x = 0 ∨ x = 1 ∨ x = 2 ∨ x = 3 ∨ x = 4 ∨ x = 5 ∨ x = 6 ∨ x = 7 ∨ x = 8 ∨ x = 9) as Hc by lia.
  unfold digits10. simpl. lia.
Qed.

Definition dmul (x y : Z) : Z := DihedralMultiply x y PolygonSize.
Definition dperm (x : Z) : Z := default 0 (sPermTable !! Z.to_nat x).

Lemma dmul_val x y : is_val x → is_val y → is_val (dmul x y).
Proof.
  intros Hx Hy. pose proof (all10 (fun x => forallb (fun y => (0 <=? dmul x y) && (dmul x y <? 10)) digits10) eq_refl x Hx) as H1.
  pose proof (all10 _ H1 y Hy) as H2. cbn beta in H2. unfold is_val. lia.
Qed.

(** The table is the dihedral product. *)
Lemma multiply_table x y : is_val x → is_val y → sMultiplyTable !! Z.to_nat (x * Base + y) = Some (dmul x y).
Proof.
  intros Hx Hy.
  pose proof (all10 (fun x => forallb (fun y => bool_decide (sMultiplyTable !! Z.to_nat (x * Base + y) = Some (dmul x y))) digits10) eq_refl x Hx) as H1.
  pose proof (all10 _ H1 y Hy) as H2. cbn beta in H2. by apply bool_decide_eq_true in H2.
Qed.

Lemma dmul_assoc x y z : is_val x → is_val y → is_val z → dmul x (dmul y z) = dmul (dmul x y) z.
Proof.
  intros Hx Hy Hz.
  pose proof (all10 (fun x => forallb (fun y => forallb (fun z => dmul x (dmul y z) =? dmul (dmul x y) z) digits10) digits10) eq_refl x Hx) as H1.
  pose proof (all10 _ H1 y Hy) as H2. pose proof (all10 _ H2 z Hz) as H3. by apply Z.eqb_eq in H3.
Qed.

Definition dinv (x : Z) : Z := DihedralInvert x PolygonSize.
Definition dihedral_laws (x : Z) : bool :=
  (dmul 0 x =? x) && (dmul x 0 =? x) && (dmul x (dinv x) =? 0) && (dmul (dinv x) x =? 0) && (0 <=? dinv x) && (dinv x <? 10) &&
  (0 <=? dperm x) && (dperm x <? 10).

Lemma dihedral x : is_val x →
  dmul 0 x = x ∧ dmul x 0 = x ∧ dmul x (dinv x) = 0 ∧ dmul (dinv x) x = 0 ∧ is_val (dinv x) ∧ is_val (dperm x).
Proof. intros Hx. pose proof (all10 dihedral_laws eq_refl x Hx) as H. unfold dihedral_laws in H. unfold is_val. lia. Qed.

Lemma dmul_cancel_l x y z : is_val x → is_val y → is_val z → dmul x y = dmul x z → y = z.
Proof.
  intros Hx Hy Hz E. destruct (dihedral x Hx) as (_ & _ & _ & Hi & Hv & _). apply (f_equal (dmul (dinv x))) in E.
  rewrite !dmul_assoc, Hi in E by done. by rewrite (proj1 (dihedral y Hy)), (proj1 (dihedral z Hz)) in E.
Qed.

Lemma dmul_cancel_r x y z : is_val x → is_val y → is_val z → dmul y x = dmul z x → y = z.
Proof.
  intros Hx Hy Hz E. destruct (dihedral x Hx) as (_ & _ & Hi & _ & Hv & _). apply (f_equal (fun w => dmul w (dinv x))) in E.
  rewrite <- !dmul_assoc, Hi in E by done.
  by rewrite (proj1 (proj2 (dihedral y Hy))), (proj1 (proj2 (dihedral z Hz))) in E.
Qed.

(** The permutation tells two digits apart, also across two places. *)
Lemma dperm_inj x y : is_val x → is_val y → dperm x = dperm y → x = y.
Proof.
  intros Hx Hy E. pose proof (all10 (fun x => forallb (fun y => negb (dperm x =? dperm y) || (x =? y)) digits10) eq_refl x Hx) as H1.
  pose proof (all10 _ H1 y Hy) as H2. cbn beta in H2. lia.
Qed.

Lemma dperm_anti x y : is_val x → is_val y → dmul x (dperm y) = dmul y (dperm x) → x = y.
Proof.
  intros Hx Hy E.
  pose proof (all10 (fun x => forallb (fun y => negb (dmul x (dperm y) =? dmul y (dperm x)) || (x =? y)) digits10) eq_refl x Hx) as H1.
  pose proof (all10 _ H1 y Hy) as H2. cbn beta in H2. lia.
Qed.

Definition place (i : nat) (x : Z) : Z := Nat.iter i dperm x.

Lemma place_val i x : is_val x → is_val (place i x).
Proof. intros Hx. induction i as [|i IH]; [done|]. by apply dihedral. Qed.

Lemma place_inj i x y : is_val x → is_val y → place i x = place i y → x = y.
Proof.
  intros Hx Hy. induction i as [|i IH]; [done|]. intros E. apply IH. apply dperm_inj; [by apply place_val..|exact E].
Qed.

Lemma Permute_place i x : is_val x → Permute x sPermTable Base i = Some (place i x).
Proof.
  revert x; induction i as [|i IH]; intros x Hx; cbn [Permute]; unfold is_val, Base in *; rewrite Z.rem_small by lia; [done|].
  assert (sPermTable !! Z.to_nat x = Some (dperm x)) as ->.
  { unfold dperm. destruct (sPermTable !! Z.to_nat x) eqn:E; [done|]. apply lookup_ge_None in E. simpl in E. lia. }
  rewrite IH by (by apply dihedral). unfold place. cbn [Nat.iter]. by rewrite Nat.iter_swap.
Qed.

(** ** The product of a code *)
Fixpoint product (i : nat) (rev_vals : list Z) : Z :=
  match rev_vals with
  | [] => 0
  | x :: rev_vals => dmul (place i x) (product (S i) rev_vals)
  end.

Lemma product_val i l : Forall is_val l → is_val (product i l).
Proof.
  intros Hl; revert i; induction Hl as [|x l Hx _ IH]; intros i; cbn [product]; [unfold is_val; lia|].
  apply dmul_val; [by apply place_val|apply IH].
Qed.

Definition is_digit (ch : Z) : Prop := 48 ≤ ch ≤ 57.

Lemma digit_val ch : is_digit ch → CharToVal ch = ch - 48 ∧ is_val (ch - 48).
Proof.
  intros Hc. unfold is_digit, is_val, CharToVal in *. rewrite (proj2 (Z.leb_le _ _)), (proj2 (Z.leb_le _ _)) by lia. split; [done|lia].
Qed.

Definition vals (s : bytes) : list Z := (fun ch => ch - 48) <$> s.

Lemma vals_ok s : Forall is_digit s → Forall is_val (vals s).
Proof. induction 1 as [|ch s Hc _ IH]; [constructor|]. constructor; [by apply digit_val|done]. Qed.

Lemma check_loop_spec s i c : Forall is_digit s → is_val c →
  check_loop s i c = Some (48 + dinv (dmul c (product i (vals s)))).
Proof.
  intros Hs; revert i c; induction Hs as [|ch s Hch Hs IH]; intros i c Hc.
  - cbn [check_loop vals fmap list_fmap product]. destruct (dihedral c Hc) as (_ & -> & _ & _ & Hv & _). fold (dinv c).
    unfold ValToChar, Base. unfold is_val in Hv. rewrite (proj2 (Z.leb_le 0 _)), (proj2 (Z.leb_le _ 10)) by lia. done.
  - destruct (digit_val ch Hch) as [Hcv Hv]. cbn [check_loop]. rewrite Hcv. rewrite (proj2 (Z.ltb_ge _ 0)) by (unfold is_val in Hv; lia).
    rewrite Permute_place, multiply_table by (done || by apply place_val).
    rewrite IH by (apply dmul_val; [done|by apply place_val]). cbn [vals fmap list_fmap product]. fold (vals s).
    rewrite dmul_assoc; [done|done|by apply place_val|by apply product_val, vals_ok].
Qed.

(** A code is valid when the product of its digits is the unit. *)
Lemma validate_product s : Forall is_digit s → s ≠ [] → ValidateCheckChar s = Some (product 0 (vals (rev s)) =? 0).
Proof.
  intros Hs Hne. unfold ValidateCheckChar. apply List.Forall_rev in Hs.
  destruct (rev s) as [|c r] eqn:E; [by apply (f_equal (@rev Z)) in E; rewrite rev_involutive in E|].
  apply Forall_cons in Hs as [Hc Hr]. unfold ValidateCheckCharOf, ComputeCheckChar. rewrite rev_involutive.
  rewrite check_loop_spec by (done || unfold is_val; lia). f_equal. destruct (digit_val c Hc) as [_ Hcv].
  pose proof (product_val 1 _ (vals_ok r Hr)) as Hp. rewrite (proj1 (dihedral _ Hp)). cbn [vals fmap list_fmap product place Nat.iter]. fold (vals r).
  set (p := product 1 (vals r)) in *. set (v := c - 48) in *. destruct (dihedral p Hp) as (_ & _ & H1 & H2 & H3 & _).
  apply eq_bool_prop_intro. rewrite !Is_true_true, !Z.eqb_eq. split.
  - intros Ec. assert (v = dinv p) as -> by lia. done.
  - intros Ev. assert (v = dinv p) as Hv; [|lia]. apply (dmul_cancel_r p); [done|done|done|]. rewrite H2. exact Ev.
Qed.

Lemma product_app i l1 l2 : Forall is_val l1 → Forall is_val l2 →
  product i (l1 ++ l2) = dmul (product i l1) (product (i + length l1) l2).
Proof.
  intros H1 H2; revert i; induction H1 as [|x l Hx Hl IH]; intros i; cbn [app product length].
  - rewrite Nat.add_0_r. symmetry. by apply dihedral, product_val.
  - rewrite IH, Nat.add_succ_r, dmul_assoc; [done|by apply place_val|by apply product_val..].
Qed.

Lemma vals_rev_ok s : Forall is_digit s → Forall is_val (vals (rev s)).
Proof. intros Hs. by apply vals_ok, List.Forall_rev. Qed.

(** The product of a code around one of its parts. *)
Lemma product_parts l m r : Forall is_digit l → Forall is_digit m → Forall is_digit r →
  product 0 (vals (rev (l ++ m ++ r))) =
  dmul (product 0 (vals (rev r))) (dmul (product (length r) (vals (rev m))) (product (length r + length m) (vals (rev l)))).
Proof.
  intros Hl Hm Hr. rewrite !rev_app_distr. unfold vals. rewrite !fmap_app. fold (vals (rev r)) (vals (rev m)) (vals (rev l)).
  pose proof (vals_rev_ok l Hl). pose proof (vals_rev_ok m Hm). pose proof (vals_rev_ok r Hr).
  assert (∀ x, length (vals (rev x)) = length x) as Hlen by (intros x; unfold vals; by rewrite length_fmap, length_rev).
  rewrite product_app by (done || by apply Forall_app). rewrite product_app by (done || by apply Forall_app).
  rewrite !Hlen, length_app, !Hlen. cbn [Nat.add].
  rewrite dmul_assoc; [done|by apply product_val..].
Qed.

(** Two codes that agree around a part, both valid, have the same product there. *)
Lemma valid_middle l m m' r : Forall is_digit l → Forall is_digit m → Forall is_digit m' → Forall is_digit r →
  m ≠ [] → length m = length m' →
  ValidateCheckChar (l ++ m ++ r) = Some true → ValidateCheckChar (l ++ m' ++ r) = Some true →
  product (length r) (vals (rev m)) = product (length r) (vals (rev m')).
Proof.
  intros Hl Hm Hm' Hr Hne Hlen. assert (m' ≠ []) as Hne' by (intros ->; destruct m; done).
  rewrite !validate_product by (try (by destruct l, m, m'); repeat (apply Forall_app; split; [done|]); done).
  rewrite !product_parts by done. intros [= E%Z.eqb_eq] [= E'%Z.eqb_eq]. rewrite <- E', <- Hlen in E.
  apply dmul_cancel_l in E; [|by apply product_val, vals_rev_ok|by apply dmul_val; apply product_val, vals_rev_ok..].
  by apply dmul_cancel_r in E; [|apply product_val, vals_rev_ok..].
Qed.

Lemma compute_check_char s : Forall is_digit s → ∃ c, ComputeCheckChar s = Some c ∧ is_digit c.
Proof.
  intros Hs. pose proof (product_val 1 _ (vals_rev_ok s Hs)) as Hp. destruct (dihedral _ Hp) as (E0 & _ & _ & _ & Hi & _).
  exists (48 + dinv (product 1 (vals (rev s)))). split; [|unfold is_digit, is_val in *; lia].
  unfold ComputeCheckChar. rewrite check_loop_spec by (try apply List.Forall_rev; done). by rewrite E0.
Qed.

(** C32: The check digit of the manual code.  The computed check character makes any
    string of digits valid; it is the only one; and a valid code with one digit
    changed, or with two adjacent digits exchanged, is no longer valid, wherever in
    the code, the check digit included. *)
Theorem verhoeff_detects s l r x y : Forall is_digit s → Forall is_digit l → Forall is_digit r → is_digit x → is_digit y →
  (∃ c, ComputeCheckChar s = Some c ∧ is_digit c ∧ ValidateCheckChar (s ++ [c]) = Some true ∧
     ∀ c', ValidateCheckChar (s ++ [c']) = Some true → c' = c) ∧
  (ValidateCheckChar (l ++ [x] ++ r) = Some true → ValidateCheckChar (l ++ [y] ++ r) = Some true → x = y) ∧
  (ValidateCheckChar (l ++ [x; y] ++ r) = Some true → ValidateCheckChar (l ++ [y; x] ++ r) = Some true → x = y).
Proof.
  intros Hs Hl Hr Hx Hy. destruct (digit_val x Hx) as [_ Hvx], (digit_val y Hy) as [_ Hvy]. split; [|split].
  - destruct (compute_check_char s Hs) as (c & Hc & Hd). exists c. split; [exact Hc|]. split; [exact Hd|].
    unfold ValidateCheckChar. assert (∀ c', rev (s ++ [c']) = c' :: rev s) as Hrev by (intros; by rewrite rev_app_distr).
    split; [|intros c']; rewrite Hrev; unfold ValidateCheckCharOf; rewrite rev_involutive, Hc; [by rewrite Z.eqb_refl|].
    by intros [= E%Z.eqb_eq].
  - intros H1 H2. pose proof (valid_middle l [x] [y] r Hl ltac:(by constructor) ltac:(by constructor) Hr ltac:(done) eq_refl H1 H2) as E.
    cbn [rev app vals fmap list_fmap product] in E.
    rewrite (proj1 (proj2 (dihedral _ (place_val _ _ Hvx)))), (proj1 (proj2 (dihedral _ (place_val _ _ Hvy)))) in E.
    apply place_inj in E; [lia|done|done].
  - intros H1 H2. pose proof (valid_middle l [x; y] [y; x] r Hl ltac:(constructor; [done|by constructor]) ltac:(constructor; [done|by constructor]) Hr ltac:(done) eq_refl H1 H2) as E.
    cbn [rev app vals fmap list_fmap product] in E.
    rewrite (proj1 (proj2 (dihedral _ (place_val _ _ Hvx)))), (proj1 (proj2 (dihedral _ (place_val _ _ Hvy)))) in E.
    change (place (S ?i) ?z) with (dperm (place i z)) in E.
    apply dperm_anti in E; [|by apply place_val..]. apply place_inj in E; [lia|done|done].
Qed.

Module VerhoeffDemo.
(** 34970112332 is a valid code; two of its digits exchanged are not. *)
Lemma verhoeff_detects_witness :
  (∃ c, ComputeCheckChar (text "3497011233") = Some c ∧ ValidateCheckChar (text "3497011233" ++ [c]) = Some true) ∧
  ValidateCheckChar (text "3497" ++ [49; 48] ++ text "12332") ≠ Some true.
Proof.
  destruct (verhoeff_detects (text "3497011233") (text "3497") (text "12332") 48 49) as ((c & Hc & _ & Hv & _) & _ & H).
  - repeat (apply Forall_cons; split; [vm_compute; split; discriminate|]). apply Forall_nil_2.
  - repeat (apply Forall_cons; split; [vm_compute; split; discriminate|]). apply Forall_nil_2.
  - repeat (apply Forall_cons; split; [vm_compute; split; discriminate|]). apply Forall_nil_2.
  - split; lia.
  - split; lia.
  - split; [exists c; split; [exact Hc|exact Hv]|]. intros Hbad. discriminate (H eq_refl Hbad).
Defined.
End VerhoeffDemo.
