(* ===== verification/ManualCode.v ===== *)
(** * ManualCode: the manual pairing code

    The contents of the onboarding payload ([src/src/setup_payload/SetupPayload.h],
    [SetupPayload.cpp], [src/src/lib/support/SetupDiscriminator.h]), the generator
    of the manual code ([ManualSetupPayloadGenerator.cpp]) and its parser
    ([ManualSetupPayloadParser.cpp]).

    An enumeration that the code casts integers to is an integer.  The generator
    writes into a buffer; its results are the error, the buffer and the size of the
    span.  [None] is a write outside the buffer or a failed [VerifyOrDie]. *)
From S2P Require Import Prelude ChipError Verhoeff.

(** ** Layout *)
Definition kSetupPINCodeFieldLengthInBits : Z := 27.
Definition kManualSetupDiscriminatorFieldLengthInBits : Z := 4.
Definition kManualSetupChunk1DiscriminatorMsbitsPos : Z := 0.
Definition kManualSetupChunk1DiscriminatorMsbitsLength : Z := 2.
Definition kManualSetupChunk1VidPidPresentBitPos : Z :=
  kManualSetupChunk1DiscriminatorMsbitsPos + kManualSetupChunk1DiscriminatorMsbitsLength.
Definition kManualSetupChunk2PINCodeLsbitsPos : Z := 0.
Definition kManualSetupChunk2PINCodeLsbitsLength : Z := 14.
Definition kManualSetupChunk2DiscriminatorLsbitsPos : Z := kManualSetupChunk2PINCodeLsbitsPos + kManualSetupChunk2PINCodeLsbitsLength.
Definition kManualSetupChunk2DiscriminatorLsbitsLength : Z := 2.
Definition kManualSetupChunk3PINCodeMsbitsPos : Z := 0.
Definition kManualSetupChunk3PINCodeMsbitsLength : Z := 13.
Definition kManualSetupShortCodeCharLength : nat := 10.
Definition kManualSetupLongCodeCharLength : nat := 20.
Definition kManualSetupCodeChunk1CharLength : nat := 1.
Definition kManualSetupCodeChunk2CharLength : nat := 5.
Definition kManualSetupCodeChunk3CharLength : nat := 4.
Definition kManualSetupVendorIdCharLength : nat := 5.
Definition kManualSetupProductIdCharLength : nat := 5.

(** ** Contents *)
Record SetupDiscriminator := { mDiscriminator : Z; mIsShortDiscriminator : bool }.
Definition LongToShortValue (longValue : Z) : Z := u8 (Z.shiftr longValue (12 - 4)).
Definition GetShortValue (d : SetupDiscriminator) : Z :=
  if mIsShortDiscriminator d then u8 (mDiscriminator d) else LongToShortValue (mDiscriminator d).
Definition SetShortValue (discriminator : Z) : option SetupDiscriminator :=
  if discriminator =? Z.land discriminator 0xF
  then Some {| mDiscriminator := Z.land discriminator 0xF; mIsShortDiscriminator := true |} else None.
Definition SetLongValue (discriminator : Z) : option SetupDiscriminator :=
  if discriminator =? Z.land discriminator 0xFFF
  then Some {| mDiscriminator := Z.land discriminator 0xFFF; mIsShortDiscriminator := false |} else None.
Definition GetLongValue (d : SetupDiscriminator) : option Z := if mIsShortDiscriminator d then None else Some (mDiscriminator d).

Definition kStandard : Z := 0.
Definition kUserActionRequired : Z := 1.
Definition kCustom : Z := 2.

Record PayloadContents := {
  version : Z;
  vendorID : Z;
  productID : Z;
  commissioningFlow : Z;
  rendezvousInformation : option Z;
  discriminator : SetupDiscriminator;
  setUpPINCode : Z }.
#[export] Instance eta_PayloadContents : Eta PayloadContents := fun p =>
  {| version := version p; vendorID := vendorID p; productID := productID p; commissioningFlow := commissioningFlow p;
     rendezvousInformation := rendezvousInformation p; discriminator := discriminator p; setUpPINCode := setUpPINCode p |}.

(** ** Validity *)
Definition kSetupPINCodeMaximumValue : Z := 99999998.
Definition IsValidSetupPIN (setupPIN : Z) : bool :=
  negb ((setupPIN =? 0) || (kSetupPINCodeMaximumValue <? setupPIN) || (setupPIN =? 11111111) || (setupPIN =? 22222222) ||
        (setupPIN =? 33333333) || (setupPIN =? 44444444) || (setupPIN =? 55555555) || (setupPIN =? 66666666) ||
        (setupPIN =? 77777777) || (setupPIN =? 88888888) || (setupPIN =? 12345678) || (setupPIN =? 87654321)).

(** [VendorId]: [Common] and [Unspecified] are 0, [TestVendor4] is 0xFFF4. *)
Definition IsVendorIdValidOperationally (vendorId : Z) : bool := negb (vendorId =? 0) && (vendorId <=? 0xFFF4).

Definition CheckPayloadCommonConstraints (p : PayloadContents) : bool :=
  if negb (version p =? 0) then false
  else if negb (IsValidSetupPIN (setUpPINCode p)) then false
  else if negb (IsVendorIdValidOperationally (vendorID p)) && negb (vendorID p =? 0) then false
  else if (productID p =? 0) && negb (vendorID p =? 0) then false
  else true.

Definition isValidManualCode (p : PayloadContents) : bool :=
  if Z.shiftl 1 kSetupPINCodeFieldLengthInBits <=? setUpPINCode p then false else CheckPayloadCommonConstraints p.

(** ** Generator *)
Definition chunk1PayloadRepresentation (p : PayloadContents) : Z :=
  let kDiscriminatorShift := kManualSetupDiscriminatorFieldLengthInBits - kManualSetupChunk1DiscriminatorMsbitsLength in
  let kDiscriminatorMask := Z.shiftl 1 kManualSetupChunk1DiscriminatorMsbitsLength - 1 in
  let discriminatorChunk := Z.land (Z.shiftr (GetShortValue (discriminator p)) kDiscriminatorShift) kDiscriminatorMask in
  let vidPidPresentFlag := if negb (commissioningFlow p =? kStandard) then 1 else 0 in
  Z.lor (u32 (Z.shiftl discriminatorChunk kManualSetupChunk1DiscriminatorMsbitsPos))
        (u32 (Z.shiftl vidPidPresentFlag kManualSetupChunk1VidPidPresentBitPos)).

Definition chunk2PayloadRepresentation (p : PayloadContents) : Z :=
  let kDiscriminatorMask := Z.shiftl 1 kManualSetupChunk2DiscriminatorLsbitsLength - 1 in
  let kPincodeMask := Z.shiftl 1 kManualSetupChunk2PINCodeLsbitsLength - 1 in
  let discriminatorChunk := Z.land (GetShortValue (discriminator p)) kDiscriminatorMask in
  Z.lor (u32 (Z.shiftl (Z.land (setUpPINCode p) kPincodeMask) kManualSetupChunk2PINCodeLsbitsPos))
        (u32 (Z.shiftl discriminatorChunk kManualSetupChunk2DiscriminatorLsbitsPos)).

Definition chunk3PayloadRepresentation (p : PayloadContents) : Z :=
  let kPincodeShift := kSetupPINCodeFieldLengthInBits - kManualSetupChunk3PINCodeMsbitsLength in
  let kPincodeMask := Z.shiftl 1 kManualSetupChunk3PINCodeMsbitsLength - 1 in
  u32 (Z.shiftl (Z.land (Z.shiftr (setUpPINCode p) kPincodeShift) kPincodeMask) kManualSetupChunk3PINCodeMsbitsPos).

(** [snprintf] of ["%0*u"]: the decimal digits, filled up with zeros to [len]. *)
Fixpoint dec_rev (fuel : nat) (n : Z) : bytes :=
  match fuel with
  | O => []
  | S fuel => if n <? 10 then [48 + n] else (48 + n mod 10) :: dec_rev fuel (n / 10)
  end.
Definition padded (len : nat) (n : Z) : bytes :=
  let s := rev (dec_rev 10 n) in repeat 48 (len - length s) ++ s.

(** The span of the buffer has [len] characters and one for the terminator. *)
Definition decimalStringWithPadding (buffer : bytes) (offset len : nat) (number : Z) : option (CHIP_ERROR * bytes) :=
  let s := padded len number in
  let! _ := mread buffer offset (S len) in
  let! buffer := mwrite buffer offset (take len s ++ [0]) in
  Some (if (S len <=? length s)%nat then CHIP_ERROR_BUFFER_TOO_SMALL else CHIP_NO_ERROR, buffer).

(** The calls in order, each at the offset left by the one before. *)
Fixpoint put_decimals (chunks : list (nat * Z)) (outBuffer : bytes) (offset : nat) : option (CHIP_ERROR * bytes * nat) :=
  match chunks with
  | [] => Some (CHIP_NO_ERROR, outBuffer, offset)
  | (len, number) :: chunks =>
      let! (err, outBuffer) := decimalStringWithPadding outBuffer offset len number in
      if is_no_error err then put_decimals chunks outBuffer (offset + len) else Some (err, outBuffer, offset)
  end.

Definition manual_chunks (p : PayloadContents) (useLongCode : bool) : list (nat * Z) :=
  [(kManualSetupCodeChunk1CharLength, chunk1PayloadRepresentation p);
   (kManualSetupCodeChunk2CharLength, chunk2PayloadRepresentation p);
   (kManualSetupCodeChunk3CharLength, chunk3PayloadRepresentation p)] ++
  if useLongCode then [(kManualSetupVendorIdCharLength, vendorID p); (kManualSetupProductIdCharLength, productID p)] else [].

Definition payloadDecimalStringRepresentation (mAllowInvalidPayload mForceShortCode : bool) (p : PayloadContents) (outBuffer : bytes)
    : option (CHIP_ERROR * bytes * nat) :=
  if negb mAllowInvalidPayload && negb (isValidManualCode p) then Some (CHIP_ERROR_INVALID_ARGUMENT, outBuffer, length outBuffer)
  else
    let useLongCode := negb (commissioningFlow p =? kStandard) && negb mForceShortCode in
    if (useLongCode && (length outBuffer <? kManualSetupLongCodeCharLength + 2)%nat) ||
       (negb useLongCode && (length outBuffer <? kManualSetupShortCodeCharLength + 2)%nat)
    then Some (CHIP_ERROR_BUFFER_TOO_SMALL, outBuffer, length outBuffer)
    else
      let! (r, offset) := put_decimals (manual_chunks p useLongCode) outBuffer 0 in
      let (err, outBuffer) := r : CHIP_ERROR * bytes in
      if negb (is_no_error err) then Some (err, outBuffer, length outBuffer)
      else
        let! checkChar := ComputeCheckChar (c_str outBuffer) in
        let checkDigit := CharToVal checkChar in
        let! (err, outBuffer) := decimalStringWithPadding outBuffer offset 1 (u32 checkDigit) in
        if negb (is_no_error err) then Some (err, outBuffer, length outBuffer)
        else Some (CHIP_NO_ERROR, outBuffer, S offset).

(** With a [std::string] for the result. *)
Definition payloadDecimalString (mAllowInvalidPayload mForceShortCode : bool) (p : PayloadContents) : option (CHIP_ERROR * bytes) :=
  let! (r, _) := payloadDecimalStringRepresentation mAllowInvalidPayload mForceShortCode p (repeat 0 (kManualSetupLongCodeCharLength + 2)) in
  let (err, decimalString) := r : CHIP_ERROR * bytes in
  Some (err, if is_no_error err then c_str decimalString else []).

(** ** Parser *)
Definition CheckDecimalStringValidity (decimalString : bytes) : option (CHIP_ERROR * bytes) :=
  if (length decimalString <? 2)%nat then Some (CHIP_ERROR_INVALID_STRING_LENGTH, [])
  else
    let repWithoutCheckChar := take (length decimalString - 1) decimalString in
    let! checkChar := last decimalString in
    let! ok := ValidateCheckCharOf checkChar (c_str repWithoutCheckChar) in
    Some (if negb ok then (CHIP_ERROR_INTEGRITY_CHECK_FAILED, []) else (CHIP_NO_ERROR, repWithoutCheckChar)).

Definition CheckCodeLengthValidity (decimalString : bytes) (isLongCode : bool) : CHIP_ERROR :=
  let expectedCharLength := if isLongCode then kManualSetupLongCodeCharLength else kManualSetupShortCodeCharLength in
  if negb (length decimalString =? expectedCharLength)%nat then CHIP_ERROR_INVALID_STRING_LENGTH else CHIP_NO_ERROR.

Fixpoint to_number (decimalString : bytes) (number : Z) : CHIP_ERROR + Z :=
  match decimalString with
  | [] => inr number
  | c :: decimalString =>
      if negb ((48 <=? c) && (c <=? 57)) then inl CHIP_ERROR_INVALID_INTEGER_VALUE
      else to_number decimalString (u32 (u32 (number * 10) + (c - 48)))
  end.
Definition ToNumber (decimalString : bytes) : CHIP_ERROR + Z := to_number decimalString 0.

(** The digits read and the index after them. *)
Definition ReadDigitsFromDecimalString (decimalString : bytes) (index numberOfCharsToRead : nat) : CHIP_ERROR + Z * nat :=
  if (length decimalString <? numberOfCharsToRead)%nat || (length decimalString <? numberOfCharsToRead + index)%nat
  then inl CHIP_ERROR_INVALID_STRING_LENGTH
  else match ToNumber (take numberOfCharsToRead (drop index decimalString)) with
       | inl err => inl err
       | inr dest => inr (dest, (index + numberOfCharsToRead)%nat)
       end.

(** Errors end the function; the payload given is filled at its end. *)
Notation "'read!' x := e1 'else' out 'in' e2" :=
  (match e1 with inl err => Some (err, out) | inr x => e2 end)
  (at level 10, x pattern, e1 at level 200, out at level 0, e2 at level 200) : dev_scope.

Definition finish_payload (outPayload : PayloadContents) (isLongCode : bool) (pin disc : Z) : option (CHIP_ERROR * PayloadContents) :=
  let! d := SetShortValue (u8 disc) in
  Some (CHIP_NO_ERROR, outPayload <| commissioningFlow := if isLongCode then kCustom else kStandard |>
                                  <| setUpPINCode := pin |> <| discriminator := d |>).

Definition CanCastTo_uint16 (x : Z) : bool := (0 <=? x) && (x <=? 65535).

Definition populatePayload (mDecimalStringRepresentation : bytes) (outPayload : PayloadContents)
    : option (CHIP_ERROR * PayloadContents) :=
  let! (result, rep) := CheckDecimalStringValidity mDecimalStringRepresentation in
  if negb (is_no_error result) then Some (result, outPayload)
  else
    read! (chunk1, offset) := ReadDigitsFromDecimalString rep 0 kManualSetupCodeChunk1CharLength else outPayload in
    read! (chunk2, offset) := ReadDigitsFromDecimalString rep offset kManualSetupCodeChunk2CharLength else outPayload in
    read! (chunk3, offset) := ReadDigitsFromDecimalString rep offset kManualSetupCodeChunk3CharLength else outPayload in
    if (chunk1 =? 8) || (chunk1 =? 9) then Some (CHIP_ERROR_INVALID_ARGUMENT, outPayload)
    else
      let isLongCode := Z.land (Z.shiftr chunk1 kManualSetupChunk1VidPidPresentBitPos) 1 =? 1 in
      let result := CheckCodeLengthValidity rep isLongCode in
      if negb (is_no_error result) then Some (result, outPayload)
      else
        let kDiscriminatorMsbitsMask := Z.shiftl 1 kManualSetupChunk1DiscriminatorMsbitsLength - 1 in
        let kDiscriminatorLsbitsMask := Z.shiftl 1 kManualSetupChunk2DiscriminatorLsbitsLength - 1 in
        let disc := Z.land (Z.shiftr chunk2 kManualSetupChunk2DiscriminatorLsbitsPos) kDiscriminatorLsbitsMask in
        let disc := Z.lor disc
          (u32 (Z.shiftl (Z.land (Z.shiftr chunk1 kManualSetupChunk1DiscriminatorMsbitsPos) kDiscriminatorMsbitsMask)
                         kManualSetupChunk2DiscriminatorLsbitsLength)) in
        let kPincodeMsbitsMask := Z.shiftl 1 kManualSetupChunk3PINCodeMsbitsLength - 1 in
        let kPincodeLsbitsMask := Z.shiftl 1 kManualSetupChunk2PINCodeLsbitsLength - 1 in
        let pin := Z.land (Z.shiftr chunk2 kManualSetupChunk2PINCodeLsbitsPos) kPincodeLsbitsMask in
        let pin := Z.lor pin
          (u32 (Z.shiftl (Z.land (Z.shiftr chunk3 kManualSetupChunk3PINCodeMsbitsPos) kPincodeMsbitsMask)
                         kManualSetupChunk2PINCodeLsbitsLength)) in
        if pin =? 0 then Some (CHIP_ERROR_INVALID_ARGUMENT, outPayload)
        else if isLongCode then
          read! (vendor, offset) := ReadDigitsFromDecimalString rep offset kManualSetupVendorIdCharLength else outPayload in
          read! (product, offset) := ReadDigitsFromDecimalString rep offset kManualSetupProductIdCharLength else outPayload in
          if negb (CanCastTo_uint16 vendor) then Some (CHIP_ERROR_INVALID_INTEGER_VALUE, outPayload)
          else
            let outPayload := outPayload <| vendorID := vendor |> in
            if negb (CanCastTo_uint16 product) then Some (CHIP_ERROR_INVALID_INTEGER_VALUE, outPayload)
            else finish_payload (outPayload <| productID := product |>) isLongCode pin disc
        else finish_payload outPayload isLongCode pin disc.

Example parse_known : (populatePayload (text "34970112332")
  {| version := 0; vendorID := 0; productID := 0; commissioningFlow := 0; rendezvousInformation := None;
     discriminator := {| mDiscriminator := 0; mIsShortDiscriminator := false |}; setUpPINCode := 0 |}) =
  Some (CHIP_NO_ERROR, {| version := 0; vendorID := 0; productID := 0; commissioningFlow := 0; rendezvousInformation := None;
     discriminator := {| mDiscriminator := 15; mIsShortDiscriminator := true |}; setUpPINCode := 20202021 |}).
Proof. vm_compute. reflexivity. Qed.

(** ** Decimal chunks *)
Fixpoint lsd (len : nat) (n : Z) : bytes :=
  match len with
  | O => []
  | S len => (48 + n mod 10) :: lsd len (n / 10)
  end.

Lemma length_lsd len n : length (lsd len n) = len.
Proof. revert n; induction len; intros; simpl; auto. Qed.

Lemma lsd_digits len n : Forall is_digit (lsd len n).
Proof.
  revert n; induction len as [|len IH]; intros n; constructor; [|apply IH]. unfold is_digit.
  pose proof (Z.mod_pos_bound n 10). lia.
Qed.

Lemma lsd_zero len : lsd len 0 = repeat 48 len.
Proof. induction len as [|len IH]; [done|]. cbn [lsd repeat]. rewrite Z.div_0_l by lia. by rewrite IH. Qed.

Lemma dec_rev_pad fuel len n : (1 ≤ len)%nat → (len ≤ fuel)%nat → 0 ≤ n < 10 ^ Z.of_nat len →
  (length (dec_rev fuel n) ≤ len)%nat ∧ dec_rev fuel n ++ repeat 48 (len - length (dec_rev fuel n)) = lsd len n.
Proof.
  revert len n; induction fuel as [|fuel IH]; intros len n H1 Hf Hn; [lia|]. destruct len as [|len]; [lia|].
  cbn [dec_rev lsd]. destruct (Z.ltb_spec n 10) as [Hlt|Hge].
  - rewrite Z.mod_small, Z.div_small, lsd_zero by lia. simpl. split; [lia|]. by rewrite Nat.sub_0_r.
  - rewrite Nat2Z.inj_succ, Z.pow_succ_r in Hn by lia.
    assert (1 ≤ len)%nat by (destruct len; [simpl in Hn; lia|lia]).
    destruct (IH len (n / 10)) as [Hl E]; [done|lia|split; [apply Z.div_pos; lia|apply Z.div_lt_upper_bound; lia]|].
    cbn [length app]. split; [lia|]. by rewrite Nat.sub_succ, E.
Qed.

Lemma padded_spec len n : (1 ≤ len ≤ 10)%nat → 0 ≤ n < 10 ^ Z.of_nat len → padded len n = rev (lsd len n).
Proof.
  intros Hl Hn. unfold padded. destruct (dec_rev_pad 10 len n) as [Hle E]; [lia|lia|done|].
  rewrite <- E, rev_app_distr, length_rev. f_equal. clear. induction (len - _)%nat as [|k IH]; [done|].
  cbn [repeat rev]. rewrite <- IH. by rewrite repeat_cons.
Qed.

Lemma padded_ok len n : (1 ≤ len ≤ 10)%nat → 0 ≤ n < 10 ^ Z.of_nat len →
  length (padded len n) = len ∧ Forall is_digit (padded len n).
Proof.
  intros Hl Hn. rewrite padded_spec by done. rewrite length_rev, length_lsd. split; [done|]. apply List.Forall_rev, lsd_digits.
Qed.

Lemma to_number_app s1 s2 acc :
  to_number (s1 ++ s2) acc = match to_number s1 acc with inl err => inl err | inr n => to_number s2 n end.
Proof. revert acc; induction s1 as [|c s1 IH]; intros acc; [done|]. cbn [app to_number]. by destruct (negb _). Qed.

Lemma to_number_padded len n : (1 ≤ len ≤ 9)%nat → 0 ≤ n < 10 ^ Z.of_nat len → ToNumber (padded len n) = inr n.
Proof.
  intros Hl Hn. rewrite padded_spec by (done || lia). unfold ToNumber. destruct Hl as [_ Hl]. revert n Hn Hl.
  induction len as [|len IH]; intros n Hn Hl; [simpl in *; f_equal; lia|]. cbn [lsd rev].
  rewrite Nat2Z.inj_succ, Z.pow_succ_r in Hn by lia. pose proof (Z.mod_pos_bound n 10 ltac:(lia)) as Hm.
  rewrite to_number_app, IH; [|split; [apply Z.div_pos; lia|apply Z.div_lt_upper_bound; lia]|lia].
  cbn [to_number]. rewrite (proj2 (Z.leb_le 48 _)), (proj2 (Z.leb_le _ 57)) by lia. cbn [andb negb]. f_equal.
  assert (10 ^ Z.of_nat len ≤ 10 ^ 8) by (apply Z.pow_le_mono_r; lia). pose proof (Z.div_mod n 10 ltac:(lia)).
  rewrite (wrap_small 32 (n / 10 * 10)) by ulia. rewrite wrap_small by ulia. lia.
Qed.

(** ** The generated code *)
Definition chunk_ok (c : nat * Z) : Prop := (1 ≤ fst c ≤ 9)%nat ∧ 0 ≤ snd c < 10 ^ Z.of_nat (fst c).
Definition decimals (chunks : list (nat * Z)) : bytes := chunks ≫= (fun c => padded (fst c) (snd c)).

Lemma chunk_length c : chunk_ok c → length (padded (fst c) (snd c)) = fst c.
Proof. intros [Hl Hn]. apply padded_ok; [lia|done]. Qed.

Lemma decimals_ok chunks : Forall chunk_ok chunks →
  length (decimals chunks) = sum_list_with fst chunks ∧ Forall is_digit (decimals chunks).
Proof.
  induction 1 as [|[len n] chunks [Hl Hn] _ [IHl IHd]]; [by split|]. unfold decimals. cbn [mbind list_bind]. fold (decimals chunks).
  cbn [fst snd] in *. destruct (padded_ok len n) as [Hpl Hpd]; [lia|done|].
  rewrite length_app, IHl, Hpl. split; [done|by apply Forall_app].
Qed.

Lemma digits_nonzero s : Forall is_digit s → Forall (fun c => c ≠ 0) s.
Proof. intros Hs. eapply Forall_impl; [exact Hs|]. unfold is_digit. cbn. lia. Qed.

Lemma put_one m off len n : chunk_ok (len, n) → (off + len < length m)%nat →
  decimalStringWithPadding m off len n = (let! x := mwrite m off (padded len n ++ [0]) in Some (CHIP_NO_ERROR, x)).
Proof.
  intros [Hl Hn] Hm. cbn [fst snd] in *. destruct (padded_ok len n) as [Hp _]; [lia|done|]. unfold decimalStringWithPadding.
  destruct (mread_is_Some m off (S len)) as [b ->]; [lia|]. rewrite firstn_all2 by lia.
  destruct (mwrite m off _); [|done]. by rewrite (proj2 (Nat.leb_gt _ _)) by lia.
Qed.

Lemma put_decimals_spec chunks m off : Forall chunk_ok chunks → chunks ≠ [] → (off + sum_list_with fst chunks < length m)%nat →
  put_decimals chunks m off =
  (let! x := mwrite m off (decimals chunks ++ [0]) in Some (CHIP_NO_ERROR, x, (off + sum_list_with fst chunks)%nat)).
Proof.
  intros Hok. revert m off; induction Hok as [|[len n] chunks Hc Hok IH]; intros m off Hne Hm; [done|]. cbn [sum_list_with fst] in *.
  cbn [put_decimals]. rewrite put_one by (done || lia). unfold decimals. cbn [mbind list_bind fst snd]. fold (decimals chunks).
  destruct (padded_ok len n) as [Hpl _]; [destruct Hc; cbn in *; lia|by destruct Hc|].
  destruct (mwrite_is_Some m off (padded len n ++ [0])) as [m1 Hm1]; [rewrite length_app; simpl; lia|].
  rewrite Hm1. cbn [is_no_error]. destruct chunks as [|c chunks].
  - cbn [put_decimals decimals mbind list_bind sum_list_with]. rewrite app_nil_r, Hm1. by rewrite Nat.add_0_r.
  - rewrite IH by (done || rewrite (mwrite_length _ _ _ _ Hm1); lia). rewrite <- Hpl at 1.
    rewrite (mwrite_extend _ _ _ _ _ _ Hm1) by (rewrite length_app; simpl; lia). rewrite app_assoc.
    by rewrite Nat.add_assoc.
Qed.

(** What the generator writes: the digits of the chunks and the check digit. *)
Lemma generate_spec allow force p out :
  let long := negb (commissioningFlow p =? kStandard) && negb force in
  Forall chunk_ok (manual_chunks p long) → allow = true ∨ isValidManualCode p = true →
  ((if long then 20 else 10) + 2 ≤ length out)%nat →
  ∃ c out', ComputeCheckChar (decimals (manual_chunks p long)) = Some c ∧ is_digit c ∧
    payloadDecimalStringRepresentation allow force p out =
      Some (CHIP_NO_ERROR, out', S (length (decimals (manual_chunks p long)))) ∧
    mwrite out 0 ((decimals (manual_chunks p long) ++ [c]) ++ [0]) = Some out'.
Proof.
  intros long Hok Hv Hlen. destruct (decimals_ok _ Hok) as [Hl Hd]. set (code := decimals (manual_chunks p long)) in *.
  destruct (compute_check_char code Hd) as (c & Hc & Hcd). exists c.
  assert (length code = if long then 20 else 10)%nat as Hcl by (rewrite Hl; by destruct long).
  destruct (mwrite_is_Some out 0 ((code ++ [c]) ++ [0])) as [out' Ho]; [rewrite !length_app, Hcl; destruct long; simpl; lia|].
  exists out'. split; [done|]. split; [done|]. split; [|done]. unfold payloadDecimalStringRepresentation.
  assert (negb allow && negb (isValidManualCode p) = false) as -> by (destruct Hv as [->| ->]; [done|apply andb_false_r]).
  fold long. assert ((long && (length out <? kManualSetupLongCodeCharLength + 2)%nat) ||
    (negb long && (length out <? kManualSetupShortCodeCharLength + 2)%nat) = false) as ->.
  { unfold kManualSetupLongCodeCharLength, kManualSetupShortCodeCharLength.
    destruct long; cbn [andb negb orb]; [rewrite orb_false_r|]; apply Nat.ltb_ge; lia. }
  rewrite put_decimals_spec by (done || rewrite <- Hl, Hcl; destruct long; lia). fold code. rewrite <- Hl.
  destruct (mwrite_is_Some out 0 (code ++ [0])) as [m Hm]; [rewrite length_app, Hcl; destruct long; simpl; lia|]. rewrite Hm.
  cbn [is_no_error negb Nat.add]. assert (c_str m = code) as ->.
  { apply mwrite_Some in Hm as [_ ->]. cbn [take firstn app]. rewrite <- app_assoc. apply c_str_app. by apply digits_nonzero. }
  rewrite Hc. destruct (digit_val c Hcd) as [Hcv Hcr]. unfold is_val in Hcr. rewrite Hcv, wrap_small by ulia.
  rewrite put_one; [|split; simpl; lia|rewrite (mwrite_length _ _ _ _ Hm), Hcl; destruct long; lia].
  assert (padded 1 (c - 48) = [c]) as -> by (rewrite padded_spec by (simpl; lia); cbn [lsd rev app]; rewrite Z.mod_small by lia; f_equal; lia).
  change (length code) with (0 + length code)%nat at 1. rewrite (mwrite_extend _ _ _ _ _ _ Hm) by (simpl; lia).
  rewrite <- app_assoc in Ho. cbn [app] in Ho. cbn [app]. rewrite Ho. done.
Qed.

(** ** The chunks as numbers *)
Definition discriminator_ok (d : SetupDiscriminator) : Prop := 0 ≤ mDiscriminator d < if mIsShortDiscriminator d then 16 else 4096.
Record payload_ok (p : PayloadContents) : Prop := {
  po_vendor : in_u 16 (vendorID p);
  po_product : in_u 16 (productID p);
  po_discriminator : discriminator_ok (discriminator p);
  po_pin : in_u 32 (setUpPINCode p) }.

Lemma short_value_range d : discriminator_ok d → 0 ≤ GetShortValue d < 16.
Proof.
  unfold discriminator_ok, GetShortValue, LongToShortValue. destruct (mIsShortDiscriminator d); intros Hd.
  - rewrite wrap_small; ulia.
  - rewrite Z.shiftr_div_pow2 by lia. change (2 ^ (12 - 4)) with 256. rewrite wrap_small by (unfold in_u; Z.div_mod_to_equations; lia).
    Z.div_mod_to_equations; lia.
Qed.

Definition flag (p : PayloadContents) : Z := if commissioningFlow p =? kStandard then 0 else 1.

Lemma land_mask x k : 0 ≤ k → Z.land x (Z.shiftl 1 k - 1) = x mod 2 ^ k.
Proof. intros Hk. rewrite Z.shiftl_1_l. replace (2 ^ k - 1) with (Z.ones k) by (rewrite Z.ones_equiv; lia).
  by apply Z.land_ones. Qed.

Lemma lor_shift a b k : 0 ≤ k → 0 ≤ a < 2 ^ k → Z.lor a (Z.shiftl b k) = a + 2 ^ k * b.
Proof. intros Hk Ha. rewrite Z.shiftl_mul_pow2, Z.lor_comm, lor_disjoint by done. lia. Qed.

Lemma chunk1_value p : payload_ok p → chunk1PayloadRepresentation p = GetShortValue (discriminator p) / 4 + 4 * flag p.
Proof.
  intros Hp. pose proof (short_value_range _ (po_discriminator _ Hp)) as Hd. unfold chunk1PayloadRepresentation. cbv zeta.
  rewrite land_mask by done. rewrite Z.shiftr_div_pow2 by done.
  change (2 ^ (kManualSetupDiscriminatorFieldLengthInBits - kManualSetupChunk1DiscriminatorMsbitsLength)) with 4.
  change (2 ^ kManualSetupChunk1DiscriminatorMsbitsLength) with 4. change kManualSetupChunk1DiscriminatorMsbitsPos with 0.
  change kManualSetupChunk1VidPidPresentBitPos with 2. rewrite Z.shiftl_0_r.
  assert (0 ≤ GetShortValue (discriminator p) / 4 < 4) by (Z.div_mod_to_equations; lia). rewrite (Z.mod_small _ 4) by lia.
  rewrite (wrap_small 32 (_ / 4)) by ulia. unfold flag. assert (∀ f, f = 0 ∨ f = 1 → u32 (Z.shiftl f 2) = Z.shiftl f 2) as Hf by (by intros f [->| ->]).
  destruct (_ =? kStandard); cbn [negb]; rewrite Hf by tauto; rewrite lor_shift by (done || lia); lia.
Qed.

Lemma chunk2_value p : payload_ok p →
  chunk2PayloadRepresentation p = setUpPINCode p mod 16384 + 16384 * (GetShortValue (discriminator p) mod 4).
Proof.
  intros Hp. pose proof (short_value_range _ (po_discriminator _ Hp)) as Hd. unfold chunk2PayloadRepresentation. cbv zeta.
  rewrite !land_mask by done. change kManualSetupChunk2PINCodeLsbitsPos with 0. change kManualSetupChunk2DiscriminatorLsbitsPos with 14.
  change (2 ^ kManualSetupChunk2DiscriminatorLsbitsLength) with 4. change (2 ^ kManualSetupChunk2PINCodeLsbitsLength) with 16384.
  rewrite Z.shiftl_0_r. pose proof (Z.mod_pos_bound (setUpPINCode p) 16384 ltac:(lia)). pose proof (Z.mod_pos_bound (GetShortValue (discriminator p)) 4 ltac:(lia)).
  rewrite (wrap_small 32 (_ mod 16384)) by ulia. rewrite wrap_small by (rewrite Z.shiftl_mul_pow2 by lia; ulia).
  rewrite lor_shift by (done || lia). done.
Qed.

Lemma chunk3_value p : 0 ≤ setUpPINCode p < 2 ^ 27 → chunk3PayloadRepresentation p = setUpPINCode p / 16384.
Proof.
  intros Hp. unfold chunk3PayloadRepresentation. cbv zeta. rewrite land_mask by done. change kManualSetupChunk3PINCodeMsbitsPos with 0.
  rewrite Z.shiftl_0_r, Z.shiftr_div_pow2 by done.
  change (2 ^ (kSetupPINCodeFieldLengthInBits - kManualSetupChunk3PINCodeMsbitsLength)) with 16384.
  change (2 ^ kManualSetupChunk3PINCodeMsbitsLength) with 8192.
  assert (0 ≤ setUpPINCode p / 16384 < 8192) by (Z.div_mod_to_equations; lia). rewrite Z.mod_small by lia. apply wrap_small; ulia.
Qed.

Lemma valid_pin p : isValidManualCode p = true → 0 ≤ setUpPINCode p → 0 < setUpPINCode p < 2 ^ 27.
Proof.
  unfold isValidManualCode, CheckPayloadCommonConstraints, IsValidSetupPIN. change (Z.shiftl 1 kSetupPINCodeFieldLengthInBits) with (2 ^ 27).
  destruct (Z.leb_spec (2 ^ 27) (setUpPINCode p)); [done|]. destruct (negb (version p =? 0)); [done|].
  destruct (Z.eqb_spec (setUpPINCode p) 0); [done|]. lia.
Qed.

Lemma manual_chunks_ok p long : payload_ok p → 0 < setUpPINCode p < 2 ^ 27 → Forall chunk_ok (manual_chunks p long).
Proof.
  intros Hp Hpin. pose proof (short_value_range _ (po_discriminator _ Hp)) as Hd.
  assert (Forall chunk_ok [(kManualSetupCodeChunk1CharLength, chunk1PayloadRepresentation p);
    (kManualSetupCodeChunk2CharLength, chunk2PayloadRepresentation p); (kManualSetupCodeChunk3CharLength, chunk3PayloadRepresentation p)]) as H.
  { repeat (apply Forall_cons; split; [split; [vm_compute; lia|]|]); [..|apply Forall_nil_2]; cbn [fst snd].
    - rewrite chunk1_value by done. assert (flag p = 0 ∨ flag p = 1) by (unfold flag; destruct (_ =? _); tauto).
      change (10 ^ Z.of_nat kManualSetupCodeChunk1CharLength) with 10. Z.div_mod_to_equations; lia.
    - rewrite chunk2_value by done. change (10 ^ Z.of_nat kManualSetupCodeChunk2CharLength) with 100000. Z.div_mod_to_equations; lia.
    - rewrite chunk3_value by lia. change (10 ^ Z.of_nat kManualSetupCodeChunk3CharLength) with 10000. Z.div_mod_to_equations; lia. }
  unfold manual_chunks. apply Forall_app. split; [exact H|]. destruct long; [|apply Forall_nil_2].
  repeat (apply Forall_cons; split; [split; [vm_compute; lia|]|]); [..|apply Forall_nil_2]; cbn [fst snd].
  - pose proof (po_vendor p Hp). change (10 ^ Z.of_nat kManualSetupVendorIdCharLength) with 100000. ulia.
  - pose proof (po_product p Hp). change (10 ^ Z.of_nat kManualSetupProductIdCharLength) with 100000. ulia.
Qed.

(** ** Parsing the code *)
Lemma read_chunk l1 len n l2 : chunk_ok (len, n) →
  ReadDigitsFromDecimalString (l1 ++ padded len n ++ l2) (length l1) len = inr (n, (length l1 + len)%nat).
Proof.
  intros [Hl Hn]. cbn [fst snd] in *. destruct (padded_ok len n) as [Hpl _]; [lia|done|]. unfold ReadDigitsFromDecimalString.
  rewrite !length_app, Hpl. rewrite (proj2 (Nat.ltb_ge _ _)), (proj2 (Nat.ltb_ge _ _)) by lia. cbn [orb].
  rewrite drop_app_length, take_app_length' by done. by rewrite to_number_padded.
Qed.

(** The payload a code stands for. *)
Definition parsed (p out0 : PayloadContents) : PayloadContents :=
  let short := {| mDiscriminator := GetShortValue (discriminator p); mIsShortDiscriminator := true |} in
  if commissioningFlow p =? kStandard
  then out0 <| commissioningFlow := kStandard |> <| setUpPINCode := setUpPINCode p |> <| discriminator := short |>
  else out0 <| vendorID := vendorID p |> <| productID := productID p |> <| commissioningFlow := kCustom |>
            <| setUpPINCode := setUpPINCode p |> <| discriminator := short |>.

Lemma check_code_valid code c : Forall is_digit code → (1 ≤ length code)%nat → ComputeCheckChar code = Some c →
  CheckDecimalStringValidity (code ++ [c]) = Some (CHIP_NO_ERROR, code).
Proof.
  intros Hd Hl Hc. unfold CheckDecimalStringValidity. rewrite length_app. cbn [length].
  rewrite (proj2 (Nat.ltb_ge _ _)) by lia. replace (length code + 1 - 1)%nat with (length code) by lia.
  rewrite take_app_length, last_snoc. assert (c_str code = code) as ->.
  { clear -Hd. induction Hd as [|a l Ha _ IH]; [done|]. cbn [c_str]. rewrite (proj2 (Z.eqb_neq a 0)) by (unfold is_digit in Ha; lia). by rewrite IH. }
  unfold ValidateCheckCharOf. rewrite Hc, Z.eqb_refl. done.
Qed.

Lemma parse_bits p : payload_ok p → 0 < setUpPINCode p < 2 ^ 27 →
  let d := GetShortValue (discriminator p) in
  let c1 := d / 4 + 4 * flag p in
  let c2 := setUpPINCode p mod 16384 + 16384 * (d mod 4) in
  let c3 := setUpPINCode p / 16384 in
  (c1 =? 8) || (c1 =? 9) = false ∧
  (Z.land (Z.shiftr c1 kManualSetupChunk1VidPidPresentBitPos) 1 =? 1) = negb (commissioningFlow p =? kStandard) ∧
  Z.lor (Z.land (Z.shiftr c2 kManualSetupChunk2DiscriminatorLsbitsPos) (Z.shiftl 1 kManualSetupChunk2DiscriminatorLsbitsLength - 1))
    (u32 (Z.shiftl (Z.land (Z.shiftr c1 kManualSetupChunk1DiscriminatorMsbitsPos) (Z.shiftl 1 kManualSetupChunk1DiscriminatorMsbitsLength - 1))
                   kManualSetupChunk2DiscriminatorLsbitsLength)) = d ∧
  Z.lor (Z.land (Z.shiftr c2 kManualSetupChunk2PINCodeLsbitsPos) (Z.shiftl 1 kManualSetupChunk2PINCodeLsbitsLength - 1))
    (u32 (Z.shiftl (Z.land (Z.shiftr c3 kManualSetupChunk3PINCodeMsbitsPos) (Z.shiftl 1 kManualSetupChunk3PINCodeMsbitsLength - 1))
                   kManualSetupChunk2PINCodeLsbitsLength)) = setUpPINCode p.
Proof.
  intros Hp Hpin d c1 c2 c3.
  change kManualSetupChunk1VidPidPresentBitPos with 2. change kManualSetupChunk2DiscriminatorLsbitsPos with 14.
  change kManualSetupChunk1DiscriminatorMsbitsPos with 0. change kManualSetupChunk2PINCodeLsbitsPos with 0. change kManualSetupChunk3PINCodeMsbitsPos with 0.
  change kManualSetupChunk2DiscriminatorLsbitsLength with 2. change kManualSetupChunk1DiscriminatorMsbitsLength with 2.
  change kManualSetupChunk2PINCodeLsbitsLength with 14. change kManualSetupChunk3PINCodeMsbitsLength with 13. pose proof (short_value_range _ (po_discriminator _ Hp)) as Hd. fold d in Hd. rewrite !land_mask by done.
  rewrite !Z.shiftr_0_r, !Z.shiftr_div_pow2 by done. change (Z.land (c1 / 2 ^ 2) 1) with (Z.land (c1 / 2 ^ 2) (Z.shiftl 1 1 - 1)). rewrite land_mask by done.
  change (2 ^ 2) with 4. change (2 ^ 14) with 16384. change (2 ^ 13) with 8192. change (2 ^ 1) with 2.
  assert (flag p = 0 ∨ flag p = 1) as Hf by (unfold flag; destruct (_ =? _); tauto).
  assert (c1 / 4 = flag p ∧ c1 mod 4 = d / 4 ∧ c2 / 16384 = d mod 4 ∧ c2 mod 16384 = setUpPINCode p mod 16384 ∧ c3 mod 8192 = c3 ∧ (c1 / 4) mod 2 = flag p ∧
    (c2 / 16384) mod 4 = d mod 4 ∧ 0 ≤ c3 < 8192) as (E1 & E2 & E3 & E4 & E5 & E6 & E7 & E8) by (unfold c1, c2, c3; Z.div_mod_to_equations; lia).
  rewrite E2, E4, E5, E6, E7. split; [|split; [|split]].
  - unfold c1. assert (d / 4 < 4) by (Z.div_mod_to_equations; lia). lia.
  - unfold flag. by destruct (_ =? kStandard).
  - rewrite wrap_small by (rewrite Z.shiftl_mul_pow2 by done; unfold in_u; Z.div_mod_to_equations; lia).
    rewrite lor_shift by (try done; Z.div_mod_to_equations; lia). Z.div_mod_to_equations; lia.
  - rewrite wrap_small by (rewrite Z.shiftl_mul_pow2 by done; ulia).
    rewrite lor_shift by (try done; apply Z.mod_pos_bound; lia). unfold c3. Z.div_mod_to_equations; lia.
Qed.

(** The code with [long] chunks, parsed: what the generator put in, or an error when
    the length does not go with the flag. *)
Lemma parse_code p (long : bool) c out0 : payload_ok p → 0 < setUpPINCode p < 2 ^ 27 →
  ComputeCheckChar (decimals (manual_chunks p long)) = Some c →
  populatePayload (decimals (manual_chunks p long) ++ [c]) out0 =
    if eqb long (negb (commissioningFlow p =? kStandard)) then Some (CHIP_NO_ERROR, parsed p out0)
    else Some (CHIP_ERROR_INVALID_STRING_LENGTH, out0).
Proof.
  intros Hp Hpin Hc. pose proof (manual_chunks_ok p long Hp Hpin) as Hok. destruct (decimals_ok _ Hok) as [Hl Hd].
  set (code := decimals (manual_chunks p long)) in *.
  assert (length code = if long then 20 else 10)%nat as Hcl by (rewrite Hl; by destruct long).
  unfold populatePayload. rewrite check_code_valid by (done || rewrite Hcl; destruct long; lia). cbn [is_no_error negb].
  pose proof Hok as (K1 & (K2 & (K3 & Hrest)%Forall_cons)%Forall_cons)%Forall_cons.
  set (s1 := padded kManualSetupCodeChunk1CharLength (chunk1PayloadRepresentation p)).
  set (s2 := padded kManualSetupCodeChunk2CharLength (chunk2PayloadRepresentation p)).
  set (s3 := padded kManualSetupCodeChunk3CharLength (chunk3PayloadRepresentation p)).
  set (tail := if long then padded kManualSetupVendorIdCharLength (vendorID p) ++ padded kManualSetupProductIdCharLength (productID p) else []).
  assert (code = s1 ++ s2 ++ s3 ++ tail) as Ecode by (unfold code, tail, manual_chunks; destruct long; cbn; by rewrite ?app_nil_r).
  pose proof (chunk_length _ K1 : length s1 = 1%nat) as L1. pose proof (chunk_length _ K2 : length s2 = 5%nat) as L2.
  pose proof (chunk_length _ K3 : length s3 = 4%nat) as L3.
  assert (ReadDigitsFromDecimalString code 0 kManualSetupCodeChunk1CharLength = inr (chunk1PayloadRepresentation p, 1%nat)) as ->.
  { rewrite Ecode. exact (read_chunk [] _ _ (s2 ++ s3 ++ tail) K1). }
  assert (ReadDigitsFromDecimalString code 1 kManualSetupCodeChunk2CharLength = inr (chunk2PayloadRepresentation p, 6%nat)) as ->.
  { rewrite Ecode. pose proof (read_chunk s1 _ _ (s3 ++ tail) K2) as H. rewrite L1 in H. exact H. }
  assert (ReadDigitsFromDecimalString code 6 kManualSetupCodeChunk3CharLength = inr (chunk3PayloadRepresentation p, 10%nat)) as ->.
  { rewrite Ecode. pose proof (read_chunk (s1 ++ s2) _ _ tail K3) as H. rewrite length_app, L1, L2, <- app_assoc in H. exact H. }
  rewrite chunk1_value, chunk2_value, chunk3_value by (done || lia).
  destruct (parse_bits p Hp Hpin) as (B1 & B2 & B3 & B4).
  cbv zeta in *. rewrite B1, B2, B3, B4. rewrite (proj2 (Z.eqb_neq (setUpPINCode p) 0)) by lia.
  unfold CheckCodeLengthValidity. rewrite Hcl.
  assert (∀ o b, finish_payload o b (setUpPINCode p) (GetShortValue (discriminator p)) = Some (CHIP_NO_ERROR,
    o <| commissioningFlow := if b then kCustom else kStandard |> <| setUpPINCode := setUpPINCode p |>
      <| discriminator := {| mDiscriminator := GetShortValue (discriminator p); mIsShortDiscriminator := true |} |>)) as Hfin.
  { intros o b. pose proof (short_value_range _ (po_discriminator _ Hp)) as Hr. unfold finish_payload, SetShortValue.
    rewrite wrap_small by ulia. change 0xF with (Z.ones 4). rewrite Z.land_ones, Z.mod_small, Z.eqb_refl by lia. done. }
  unfold parsed. destruct (commissioningFlow p =? kStandard) eqn:Hflow; cbn [negb]; destruct long; try done.
  - by rewrite Hfin.
  - pose proof Hrest as (K4 & (K5 & _)%Forall_cons)%Forall_cons.
    assert (ReadDigitsFromDecimalString code 10 kManualSetupVendorIdCharLength = inr (vendorID p, 15%nat)) as ->.
    { rewrite Ecode. unfold tail. pose proof (read_chunk (s1 ++ s2 ++ s3) _ _ (padded kManualSetupProductIdCharLength (productID p)) K4) as H.
      rewrite !length_app, L1, L2, L3, <- !app_assoc in H. exact H. }
    assert (ReadDigitsFromDecimalString code 15 kManualSetupProductIdCharLength = inr (productID p, 20%nat)) as ->.
    { rewrite Ecode. unfold tail. pose proof (read_chunk (s1 ++ s2 ++ s3 ++ padded kManualSetupVendorIdCharLength (vendorID p)) _ _ [] K5) as H.
      pose proof (chunk_length _ K4) as L4. cbn [fst snd] in L4. rewrite !length_app, L1, L2, L3, L4, <- !app_assoc, app_nil_r in H. exact H. }
    pose proof (po_vendor p Hp). pose proof (po_product p Hp). unfold CanCastTo_uint16.
    rewrite !(proj2 (Z.leb_le _ _)) by ulia. cbn [andb negb]. by rewrite Hfin.
Qed.

(** C31: The manual pairing code round trip.  For every payload the generator takes as
    valid, its code is 11 digits for the standard commissioning flow and 21 for the
    others; the parser gives back the passcode, the 4-bit short discriminator, and
    for the 21 digits the vendor and the product - the flow comes back as custom,
    whichever of the others it was - and keeps the rest of the payload it is given.
    A code forced short for such a flow is refused by the parser. *)
Theorem manual_code_roundtrip p out0 : payload_ok p → isValidManualCode p = true →
  (∃ s, payloadDecimalString false false p = Some (CHIP_NO_ERROR, s) ∧ Forall is_digit s ∧
     length s = (if (commissioningFlow p =? kStandard)%Z then 11 else 21)%nat ∧
     populatePayload s out0 = Some (CHIP_NO_ERROR, parsed p out0)) ∧
  (commissioningFlow p ≠ kStandard → ∃ s, payloadDecimalString false true p = Some (CHIP_NO_ERROR, s) ∧
     populatePayload s out0 = Some (CHIP_ERROR_INVALID_STRING_LENGTH, out0)).
Proof.
  intros Hp Hv. pose proof (valid_pin p Hv (proj1 (po_pin p Hp))) as Hpin.
  assert (∀ force, let long := negb (commissioningFlow p =? kStandard) && negb force in
    ∃ c, ComputeCheckChar (decimals (manual_chunks p long)) = Some c ∧ is_digit c ∧
      payloadDecimalString false force p = Some (CHIP_NO_ERROR, decimals (manual_chunks p long) ++ [c])) as Hgen.
  { intros force long. pose proof (manual_chunks_ok p long Hp Hpin) as Hok.
    destruct (generate_spec false force p (repeat 0 (kManualSetupLongCodeCharLength + 2)) Hok) as (c & out & Hc & Hd & Hg & Hw).
    - by right.
    - fold long. rewrite repeat_length. unfold kManualSetupLongCodeCharLength. destruct long; lia.
    - exists c. split; [done|]. split; [done|]. unfold payloadDecimalString. rewrite Hg. cbn [is_no_error]. do 2 f_equal.
      fold long in Hw. apply mwrite_Some in Hw as [_ ->]. cbn [take firstn app]. rewrite <- app_assoc. apply c_str_app.
      apply digits_nonzero, Forall_app. split; [apply decimals_ok, Hok|by apply Forall_singleton]. }
  split.
  - destruct (Hgen false) as (c & Hc & Hd & Hg). rewrite andb_true_r in *. pose proof (manual_chunks_ok p (negb (commissioningFlow p =? kStandard)) Hp Hpin) as Hok.
    destruct (decimals_ok _ Hok) as [Hl Hdd]. eexists. split; [exact Hg|]. split; [apply Forall_app; split; [done|by apply Forall_singleton]|]. split.
    + rewrite length_app, Hl. by destruct (commissioningFlow p =? kStandard).
    + rewrite parse_code by done. by rewrite eqb_reflx.
  - intros Hne%Z.eqb_neq. destruct (Hgen true) as (c & Hc & Hd & Hg). rewrite andb_false_r in *. eexists. split; [exact Hg|].
    rewrite parse_code by done. by rewrite Hne.
Qed.

Module ManualCodeDemo.
Definition demo_payload : PayloadContents :=
  {| version := 0; vendorID := 0x1407; productID := 0x1088; commissioningFlow := kUserActionRequired; rendezvousInformation := Some 2;
     discriminator := {| mDiscriminator := 3840; mIsShortDiscriminator := false |}; setUpPINCode := 20202021 |}.

Lemma manual_code_roundtrip_witness :
  ∃ s, payloadDecimalString false false demo_payload = Some (CHIP_NO_ERROR, s) ∧ length s = 21%nat ∧
    populatePayload s demo_payload = Some (CHIP_NO_ERROR, parsed demo_payload demo_payload) ∧
    discriminator (parsed demo_payload demo_payload) = {| mDiscriminator := 15; mIsShortDiscriminator := true |}.
Proof.
  destruct (manual_code_roundtrip demo_payload demo_payload) as ((s & H1 & _ & H2 & H3) & _).
  - split; vm_compute; split; (discriminate || reflexivity).
  - reflexivity.
  - exists s. split; [exact H1|]. split; [exact H2|]. split; [exact H3|reflexivity].
Defined.
End ManualCodeDemo.
