(* ===== verification/QRCode.v ===== *)
(** * QRCode: the onboarding payload of the QR code

    [src/src/setup_payload/QRCodeSetupPayloadGenerator.cpp] and
    [QRCodeSetupPayloadParser.cpp] for a payload without optional data: its fields
    are packed from the lowest bit of the first byte on, and the bytes written in
    base 38 after the prefix [MT:].

    What follows the fixed fields is TLV data: the generator is modelled for none of
    it, and for the parser [parseTLVFields] is an argument, called when there is
    some.  [None] is an access outside a buffer or a failed [VerifyOrDie]. *)
From S2P Require Import Prelude ChipError Base38 Verhoeff ManualCode.

Definition kVersionFieldLengthInBits : nat := 3.
Definition kVendorIDFieldLengthInBits : nat := 16.
Definition kProductIDFieldLengthInBits : nat := 16.
Definition kCommissioningFlowFieldLengthInBits : nat := 2.
Definition kRendezvousInfoFieldLengthInBits : nat := 8.
Definition kPayloadDiscriminatorFieldLengthInBits : nat := 12.
Definition kPaddingFieldLengthInBits : nat := 4.
Definition kTotalPayloadDataSizeInBits : nat :=
  kVersionFieldLengthInBits + kVendorIDFieldLengthInBits + kProductIDFieldLengthInBits + kCommissioningFlowFieldLengthInBits +
  kRendezvousInfoFieldLengthInBits + kPayloadDiscriminatorFieldLengthInBits + Z.to_nat kSetupPINCodeFieldLengthInBits +
  kPaddingFieldLengthInBits.
Definition kTotalPayloadDataSizeInBytes : nat := kTotalPayloadDataSizeInBits / 8.
Definition kQRCodePrefix : bytes := text "MT:".

Definition isValidQRCodePayload (p : PayloadContents) : bool :=
  if Z.shiftl 1 (Z.of_nat kVersionFieldLengthInBits) <=? version p then false
  else if u8 (Z.shiftl 1 (Z.of_nat kCommissioningFlowFieldLengthInBits) - 1) <? commissioningFlow p then false
  else if negb (commissioningFlow p =? kStandard) && negb (commissioningFlow p =? kUserActionRequired) &&
          negb (commissioningFlow p =? kCustom) then false
  else match rendezvousInformation p with
       | None => false
       | Some flags =>
           if negb (Z.land flags (Z.lnot 7) =? 0) then false
           else if Z.shiftl 1 kSetupPINCodeFieldLengthInBits <=? setUpPINCode p then false
           else CheckPayloadCommonConstraints p
       end.

(** ** Generator *)
Fixpoint populate_loop (fuel : nat) (bits : bytes) (index : nat) (input : Z) : option bytes :=
  if input =? 0 then Some bits
  else match fuel with
       | O => None
       | S fuel =>
           let! bits :=
             (if has_bits input 1 then
                let! b := bits !! (index / 8)%nat in
                Some (<[ (index / 8)%nat := u8 (Z.lor b (u8 (Z.shiftl 1 (Z.of_nat (index mod 8))))) ]> bits)
              else Some bits) in
           populate_loop fuel bits (S index) (Z.shiftr input 1)
       end.

(** The bits and the offset after the call. *)
Definition populateBits (bits : bytes) (offset : nat) (input : Z) (numberOfBits totalPayloadDataSizeInBits : nat)
    : option (CHIP_ERROR * bytes * nat) :=
  if negb (offset + numberOfBits <=? totalPayloadDataSizeInBits)%nat then Some (CHIP_ERROR_INVALID_ARGUMENT, bits, offset)
  else if negb (input <? u32 (Z.shiftl 1 (Z.of_nat numberOfBits))) then Some (CHIP_ERROR_INVALID_ARGUMENT, bits, offset)
  else let! bits := populate_loop 64 bits offset input in Some (CHIP_NO_ERROR, bits, (offset + numberOfBits)%nat).

Notation "'bits!' ( x , y ) := e1 'in' e2" :=
  (match e1 with
   | Some (err, x, y) => if is_no_error err then e2 else Some (err, x)
   | None => None
   end) (at level 10, x name, y name, e1 at level 200, e2 at level 200) : dev_scope.

(** With no TLV data. *)
Definition generateBitSet (p : PayloadContents) (bits : bytes) : option (CHIP_ERROR * bytes) :=
  if negb (kTotalPayloadDataSizeInBits <=? length bits * 8)%nat then Some (CHIP_ERROR_BUFFER_TOO_SMALL, bits)
  else
    let total := kTotalPayloadDataSizeInBits in
    bits! (bits, offset) := populateBits bits 0 (version p) kVersionFieldLengthInBits total in
    bits! (bits, offset) := populateBits bits offset (vendorID p) kVendorIDFieldLengthInBits total in
    bits! (bits, offset) := populateBits bits offset (productID p) kProductIDFieldLengthInBits total in
    bits! (bits, offset) := populateBits bits offset (commissioningFlow p) kCommissioningFlowFieldLengthInBits total in
    match rendezvousInformation p with
    | None => Some (CHIP_ERROR_INVALID_ARGUMENT, bits)
    | Some flags =>
        bits! (bits, offset) := populateBits bits offset flags kRendezvousInfoFieldLengthInBits total in
        let! long := GetLongValue (discriminator p) in
        bits! (bits, offset) := populateBits bits offset long kPayloadDiscriminatorFieldLengthInBits total in
        bits! (bits, offset) := populateBits bits offset (setUpPINCode p) (Z.to_nat kSetupPINCodeFieldLengthInBits) total in
        bits! (bits, offset) := populateBits bits offset 0 kPaddingFieldLengthInBits total in
        Some (CHIP_NO_ERROR, bits)
    end.

Definition payloadBase38RepresentationWithTLV (p : PayloadContents) (outBuffer bits : bytes) : option (CHIP_ERROR * bytes * nat) :=
  let bits := repeat 0 (length bits) in
  let! (err, bits) := generateBitSet p bits in
  if negb (is_no_error err) then Some (err, outBuffer, length outBuffer)
  else
    let prefixLen := length kQRCodePrefix in
    if (length outBuffer <? prefixLen + 1)%nat then Some (CHIP_ERROR_BUFFER_TOO_SMALL, outBuffer, length outBuffer)
    else
      let! outBuffer := mwrite outBuffer 0 kQRCodePrefix in
      let! (r, n) := base38Encode bits (drop prefixLen outBuffer) in
      let (err, sub) := r : CHIP_ERROR * bytes in
      Some (err, take prefixLen outBuffer ++ sub, (n + prefixLen)%nat).

(** [QRCodeBasicSetupPayloadGenerator]. *)
Definition QRCodeBasic (p : PayloadContents) (outBuffer : bytes) : option (CHIP_ERROR * bytes * nat) :=
  if negb (isValidQRCodePayload p) then Some (CHIP_ERROR_INVALID_ARGUMENT, outBuffer, length outBuffer)
  else payloadBase38RepresentationWithTLV p outBuffer (repeat 0 kTotalPayloadDataSizeInBytes).

(** [QRCodeSetupPayloadGenerator], the optional data empty; the text on success. *)
Definition QRCodeString (mAllowInvalidPayload : bool) (p : PayloadContents) : option (CHIP_ERROR * bytes) :=
  if negb (mAllowInvalidPayload || isValidQRCodePayload p) then Some (CHIP_ERROR_INVALID_ARGUMENT, [])
  else
    let bits := repeat 0 kTotalPayloadDataSizeInBytes in
    let buffer := repeat 0 (base38EncodedLength (length bits) + length kQRCodePrefix) in
    let! (r, _) := payloadBase38RepresentationWithTLV p buffer bits in
    let (err, buffer) := r : CHIP_ERROR * bytes in
    Some (err, if is_no_error err then c_str buffer else []).

(** ** Parser *)
Fixpoint read_loop (numberOfBits : nat) (buf : bytes) (currentIndex bitsRead : nat) (dest : Z) : option Z :=
  match numberOfBits with
  | O => Some dest
  | S numberOfBits =>
      let! b := buf !! (currentIndex / 8)%nat in
      let dest := if has_bits b (Z.shiftl 1 (Z.of_nat (currentIndex mod 8))) then Z.lor dest (Z.shiftl 1 (Z.of_nat bitsRead)) else dest in
      read_loop numberOfBits buf (S currentIndex) (S bitsRead) dest
  end.

(** The bits read and the index after them. *)
Definition readBits (buf : bytes) (index numberOfBitsToRead : nat) : option (CHIP_ERROR + Z * nat) :=
  if (length buf * 8 <? index + numberOfBitsToRead)%nat || (64 <? numberOfBitsToRead)%nat then Some (inl CHIP_ERROR_INVALID_ARGUMENT)
  else let! dest := read_loop numberOfBitsToRead buf index 0 0 in Some (inr (dest, (index + numberOfBitsToRead)%nat)).

(** The parts of a text between delimiters. *)
Fixpoint segments (delimiter : Z) (s current : bytes) : list bytes :=
  match s with
  | [] => [current]
  | c :: s => if c =? delimiter then current :: segments delimiter s [] else segments delimiter s (current ++ [c])
  end.

Definition starts_with (prefix s : bytes) : bool := bool_decide (take (length prefix) s = prefix).

Definition ExtractPayload (inString : bytes) : bytes :=
  match List.find (fun segment => starts_with kQRCodePrefix segment && (length kQRCodePrefix <? length segment)%nat)
                  (segments 37 inString []) with
  | Some chipSegment => drop (length kQRCodePrefix) chipSegment
  | None => []
  end.

Notation "'read_bits!' ( x , y ) := e1 'else' out 'in' e2" :=
  (match e1 with
   | Some (inr (x, y)) => e2
   | Some (inl err) => Some (err, out)
   | None => None
   end) (at level 10, x name, y name, e1 at level 200, out at level 0, e2 at level 200) : dev_scope.

Section parser.
Context (parseTLVFields : PayloadContents → bytes → option (CHIP_ERROR * PayloadContents)).

Fixpoint read_tlv_bytes (count : nat) (buf : bytes) (index : nat) : option bytes :=
  match count with
  | O => Some []
  | S count =>
      let! r := readBits buf index 8 in
      let! rest := read_tlv_bytes count buf (match r with inr (_, i) => i | inl _ => index end) in
      Some (match r with inr (dest, _) => u8 dest | inl _ => 0 end :: rest)
  end.

Definition populateTLV (outPayload : PayloadContents) (buf : bytes) (index : nat) : option (CHIP_ERROR * PayloadContents) :=
  let bitsLeftToRead := (length buf * 8 - index)%nat in
  let tlvBytesLength := ((bitsLeftToRead + 7) / 8)%nat in
  if (tlvBytesLength =? 0)%nat then Some (CHIP_NO_ERROR, outPayload)
  else let! tlv := read_tlv_bytes tlvBytesLength buf index in parseTLVFields outPayload tlv.

Definition populatePayloadQR (mBase38Representation : bytes) (out : PayloadContents) : option (CHIP_ERROR * PayloadContents) :=
  let payload := ExtractPayload mBase38Representation in
  if (length payload =? 0)%nat then Some (CHIP_ERROR_INVALID_ARGUMENT, out)
  else
    let! (err, buf) := base38Decode payload in
    if negb (is_no_error err) then Some (err, out)
    else
      read_bits! (dest, index) := readBits buf 0 kVersionFieldLengthInBits else out in
      let out := out <| version := u8 dest |> in
      read_bits! (dest, index) := readBits buf index kVendorIDFieldLengthInBits else out in
      let out := out <| vendorID := u16 dest |> in
      read_bits! (dest, index) := readBits buf index kProductIDFieldLengthInBits else out in
      let out := out <| productID := u16 dest |> in
      read_bits! (dest, index) := readBits buf index kCommissioningFlowFieldLengthInBits else out in
      let out := out <| commissioningFlow := u8 dest |> in
      read_bits! (dest, index) := readBits buf index kRendezvousInfoFieldLengthInBits else out in
      let out := out <| rendezvousInformation := Some (u8 dest) |> in
      read_bits! (dest, index) := readBits buf index kPayloadDiscriminatorFieldLengthInBits else out in
      let! d := SetLongValue (u16 dest) in
      let out := out <| discriminator := d |> in
      read_bits! (dest, index) := readBits buf index (Z.to_nat kSetupPINCodeFieldLengthInBits) else out in
      let out := out <| setUpPINCode := u32 dest |> in
      read_bits! (dest, index) := readBits buf index kPaddingFieldLengthInBits else out in
      if negb (dest =? 0) then Some (CHIP_ERROR_INVALID_ARGUMENT, out)
      else populateTLV out buf index.
End parser.

Definition blank : PayloadContents :=
  {| version := 0; vendorID := 0; productID := 0; commissioningFlow := 0; rendezvousInformation := None;
     discriminator := {| mDiscriminator := 0; mIsShortDiscriminator := false |}; setUpPINCode := 0 |}.

(** A code of the test suite. *)
Example parse_test_code :
  populatePayloadQR (fun _ _ => None) (text "x%MT:M5L90MP500K64J00000%MT:") blank =
  Some (CHIP_NO_ERROR, {| version := 0; vendorID := 12; productID := 1; commissioningFlow := 0; rendezvousInformation := Some 1;
     discriminator := {| mDiscriminator := 128; mIsShortDiscriminator := false |}; setUpPINCode := 2048 |}).
Proof. vm_compute. reflexivity. Qed.

(** ** Bits of a byte array *)
Lemma byte_split b v i : in_u 8 b → 0 ≤ v → b + 256 * v < 2 ^ i → 8 ≤ i → v < 2 ^ (i - 8).
Proof.
  unfold in_u. intros Hb Hv Hlt Hi. replace i with (8 + (i - 8)) in Hlt by lia. rewrite Z.pow_add_r in Hlt by lia.
  change (2 ^ 8) with 256 in *. nia.
Qed.

Lemma byte_index i : (8 ≤ i)%nat → (i / 8 = S ((i - 8) / 8) ∧ i mod 8 = (i - 8) mod 8)%nat.
Proof.
  intros Hi. replace i with (i - 8 + 1 * 8)%nat at 1 3 by lia. rewrite Nat.div_add, Nat.Div0.mod_add by lia. split; [lia|done].
Qed.

Lemma set_bit_le bits i : bytes_ok bits → le_val bits < 2 ^ Z.of_nat i → (i < 8 * length bits)%nat →
  ∃ b, bits !! (i / 8)%nat = Some b ∧
    let bits' := <[ (i / 8)%nat := u8 (Z.lor b (u8 (Z.shiftl 1 (Z.of_nat (i mod 8))))) ]> bits in
    bytes_ok bits' ∧ le_val bits' = le_val bits + 2 ^ Z.of_nat i.
Proof.
  intros Hok. revert i. induction Hok as [|b bits Hb Hok IH]; intros i Hlt Hi; [simpl in Hi; lia|].
  cbn [le_val length] in *. pose proof (le_val_range bits Hok) as Hv. destruct (decide (i < 8)%nat) as [Hsmall|Hbig].
  - rewrite Nat.div_small, Nat.mod_small by lia. exists b. split; [done|]. cbn [insert list_insert].
    assert (0 < 2 ^ Z.of_nat i ≤ 2 ^ 7) as Hp by (split; [apply Z.pow_pos_nonneg; lia|apply Z.pow_le_mono_r; lia]).
    assert (0 ≤ b < 2 ^ Z.of_nat i) as Hbi by (unfold in_u in Hb; lia).
    assert (u8 (Z.lor b (u8 (Z.shiftl 1 (Z.of_nat i)))) = b + 2 ^ Z.of_nat i) as ->.
    { rewrite Z.shiftl_1_l, (wrap_small 8 (2 ^ _)) by ulia. rewrite Z.lor_comm.
      replace (2 ^ Z.of_nat i) with (1 * 2 ^ Z.of_nat i) at 1 by lia. rewrite lor_disjoint by lia. rewrite wrap_small by ulia. lia. }
    split; [|cbn [le_val]; lia]. constructor; [ulia|done].
  - destruct (byte_index i) as [-> ->]; [lia|]. pose proof (byte_split b (le_val bits) (Z.of_nat i) Hb (proj1 Hv) Hlt ltac:(lia)) as Hrec.
    replace (Z.of_nat i - 8) with (Z.of_nat (i - 8)) in Hrec by lia.
    destruct (IH (i - 8)%nat Hrec ltac:(lia)) as (b' & Hb' & Hok' & Hval). exists b'. split; [done|]. cbn [insert list_insert].
    split; [by constructor|]. cbn [le_val]. etransitivity; [apply (f_equal (fun z => b + 256 * z)); exact Hval|].
    replace (Z.of_nat i) with (8 + Z.of_nat (i - 8)) by lia. rewrite Z.pow_add_r by lia. change (2 ^ 8) with 256. lia.
Qed.

Lemma bit_of_bytes bits i : bytes_ok bits → (i < 8 * length bits)%nat →
  ∃ b, bits !! (i / 8)%nat = Some b ∧ Z.testbit b (Z.of_nat (i mod 8)) = Z.testbit (le_val bits) (Z.of_nat i).
Proof.
  intros Hok. revert i. induction Hok as [|b bits Hb Hok IH]; intros i Hi; [simpl in Hi; lia|]. cbn [le_val length] in *.
  assert (b + 256 * le_val bits = Z.lor (le_val bits * 2 ^ 8) b) as -> by (rewrite lor_disjoint by (done || lia); lia).
  rewrite Z.lor_spec. destruct (decide (i < 8)%nat) as [Hsmall|Hbig].
  - rewrite Nat.div_small, Nat.mod_small by lia. exists b. split; [done|]. rewrite Z.mul_pow2_bits_low by lia. done.
  - destruct (byte_index i) as [-> ->]; [lia|]. destruct (IH (i - 8)%nat ltac:(lia)) as (b' & Hb' & E). exists b'. split; [done|]. rewrite E.
    rewrite Z.mul_pow2_bits by lia. replace (Z.of_nat i - 8) with (Z.of_nat (i - 8)) by lia.
    assert (Z.testbit b (Z.of_nat i) = false) as ->; [|by rewrite orb_false_r].
    unfold in_u in Hb. rewrite <- (Z.mod_small b (2 ^ 8)) by done. apply Z.mod_pow2_bits_high. lia.
Qed.

(** ** Packing and reading a field *)
Lemma populate_loop_spec fuel bits index input : bytes_ok bits → le_val bits < 2 ^ Z.of_nat index →
  0 ≤ input < 2 ^ Z.of_nat fuel → (input = 0 ∨ input * 2 ^ Z.of_nat index < 2 ^ (8 * Z.of_nat (length bits))) →
  ∃ bits', populate_loop fuel bits index input = Some bits' ∧ bytes_ok bits' ∧ length bits' = length bits ∧
    le_val bits' = le_val bits + input * 2 ^ Z.of_nat index.
Proof.
  revert bits index input; induction fuel as [|fuel IH]; intros bits index input Hok Hv Hi Hfit; cbn [populate_loop];
    destruct (Z.eqb_spec input 0) as [->|Hne]; try (exists bits; split_and!; [done|done|done|lia]).
  { simpl in Hi. lia. }
  destruct Hfit as [|Hfit]; [done|]. rewrite Nat2Z.inj_succ, Z.pow_succ_r in Hi by lia.
  assert (0 < 2 ^ Z.of_nat index) as Hpos by (apply Z.pow_pos_nonneg; lia).
  assert (index < 8 * length bits)%nat as Hidx.
  { assert (2 ^ Z.of_nat index < 2 ^ (8 * Z.of_nat (length bits))) as H by nia. apply Z.pow_lt_mono_r_iff in H; lia. }
  pose proof (Z.div_mod input 2 ltac:(lia)) as Hdm. rewrite Z.shiftr_div_pow2 by lia. change (2 ^ 1) with 2.
  assert (has_bits input 1 = (input mod 2 =? 1)) as ->.
  { change 1 with (2 ^ 0) at 1. rewrite has_bits_pow2 by lia. rewrite Z.bit0_odd, Zodd_mod. done. }
  assert (2 ^ Z.of_nat (S index) = 2 * 2 ^ Z.of_nat index) as HS by (rewrite Nat2Z.inj_succ, Z.pow_succ_r by lia; done).
  assert (∀ b, bytes_ok b → length b = length bits → le_val b = le_val bits + (input mod 2) * 2 ^ Z.of_nat index →
    ∃ bits', populate_loop fuel b (S index) (input / 2) = Some bits' ∧ bytes_ok bits' ∧ length bits' = length bits ∧
      le_val bits' = le_val bits + input * 2 ^ Z.of_nat index) as Hrest.
  { intros b Hb Hl Hval. pose proof (Z.mod_pos_bound input 2 ltac:(lia)). destruct (IH b (S index) (input / 2)) as (r & Hr & Hrok & Hrl & Hrv).
    - done.
    - rewrite Hval, HS. nia.
    - lia.
    - right. rewrite Hl, HS. nia.
    - exists r. split; [done|]. split; [done|]. split; [congruence|]. rewrite Hrv, Hval, HS. rewrite Hdm at 3. ring. }
  pose proof (Z.mod_pos_bound input 2 ltac:(lia)). destruct (Z.eqb_spec (input mod 2) 1) as [E|E].
  - destruct (set_bit_le bits index Hok Hv Hidx) as (b & -> & Hok' & Hval). apply Hrest; [done|by rewrite length_insert|]. rewrite Hval. lia.
  - apply Hrest; [done|done|]. lia.
Qed.

(** The fields written so far are below the offset. *)
Definition packed (bits : bytes) (offset : nat) (v : Z) : Prop :=
  bytes_ok bits ∧ length bits = kTotalPayloadDataSizeInBytes ∧ le_val bits = v ∧ v < 2 ^ Z.of_nat offset.

Lemma populateBits_spec bits offset v input n : packed bits offset v → 0 ≤ input < 2 ^ Z.of_nat n → (n ≤ 27)%nat →
  (offset + n ≤ kTotalPayloadDataSizeInBits)%nat →
  ∃ bits', populateBits bits offset input n kTotalPayloadDataSizeInBits = Some (CHIP_NO_ERROR, bits', (offset + n)%nat) ∧
    packed bits' (offset + n) (v + input * 2 ^ Z.of_nat offset).
Proof.
  intros (Hok & Hl & Hv & Hlt) Hi Hn Hoff. unfold populateBits. rewrite (proj2 (Nat.leb_le _ _) Hoff). cbn [negb].
  assert (2 ^ Z.of_nat n ≤ 2 ^ 27) by (apply Z.pow_le_mono_r; lia). assert (0 < 2 ^ Z.of_nat offset) by (apply Z.pow_pos_nonneg; lia).
  rewrite Z.shiftl_1_l, wrap_small by ulia. rewrite (proj2 (Z.ltb_lt _ _)) by lia. cbn [negb].
  assert (input * 2 ^ Z.of_nat offset < 2 ^ Z.of_nat (offset + n)) as Hup.
  { rewrite Nat2Z.inj_add, Z.pow_add_r by lia. nia. }
  destruct (populate_loop_spec 64 bits offset input Hok) as (bits' & -> & Hok' & Hl' & Hv').
  - by rewrite Hv.
  - split; [lia|]. change (2 ^ Z.of_nat 64) with (2 ^ 64). lia.
  - right. eapply Z.lt_le_trans; [exact Hup|]. apply Z.pow_le_mono_r; [lia|]. rewrite Hl.
    change (Z.of_nat kTotalPayloadDataSizeInBytes) with 11. change kTotalPayloadDataSizeInBits with 88%nat in Hoff. lia.
  - exists bits'. split; [done|]. split; [done|]. split; [congruence|]. rewrite Hv', Hv. split; [done|].
    rewrite Nat2Z.inj_add, Z.pow_add_r by lia. rewrite Nat2Z.inj_add, Z.pow_add_r in Hup by lia. nia.
Qed.

Lemma read_loop_spec n buf cur k dest : bytes_ok buf → (cur + n ≤ 8 * length buf)%nat → 0 ≤ dest < 2 ^ Z.of_nat k →
  read_loop n buf cur k dest = Some (dest + 2 ^ Z.of_nat k * ((le_val buf / 2 ^ Z.of_nat cur) mod 2 ^ Z.of_nat n)).
Proof.
  intros Hok. revert cur k dest. induction n as [|n IH]; intros cur k dest Hl Hd; cbn [read_loop].
  { rewrite Z.pow_0_r, Z.mod_1_r. f_equal. lia. }
  destruct (bit_of_bytes buf cur Hok ltac:(lia)) as (b & -> & Hb). rewrite Z.shiftl_1_l, has_bits_pow2, Hb by lia.
  set (x := le_val buf / 2 ^ Z.of_nat cur).
  assert (Z.testbit (le_val buf) (Z.of_nat cur) = (x mod 2 =? 1)) as ->.
  { unfold x. rewrite <- Z.shiftr_div_pow2 by lia. rewrite <- (Z.add_0_l (Z.of_nat cur)) at 1. rewrite <- Z.shiftr_spec by lia.
    by rewrite Z.bit0_odd, Zodd_mod. }
  assert (le_val buf / 2 ^ Z.of_nat (S cur) = x / 2) as Hx.
  { unfold x. rewrite Nat2Z.inj_succ, Z.pow_succ_r, Z.mul_comm, <- Z.div_div by (try apply Z.pow_pos_nonneg; try apply Z.pow_nonzero; lia). done. }
  assert (2 ^ Z.of_nat (S k) = 2 * 2 ^ Z.of_nat k) as HS by (rewrite Nat2Z.inj_succ, Z.pow_succ_r by lia; done).
  assert (x mod 2 ^ Z.of_nat (S n) = x mod 2 + 2 * ((x / 2) mod 2 ^ Z.of_nat n)) as Hm.
  { rewrite Nat2Z.inj_succ, Z.pow_succ_r by lia. apply Z.rem_mul_r; [lia|apply Z.pow_pos_nonneg; lia]. }
  pose proof (Z.mod_pos_bound x 2 ltac:(lia)). rewrite Hm. destruct (Z.eqb_spec (x mod 2) 1) as [E|E].
  - assert (Z.lor dest (Z.shiftl 1 (Z.of_nat k)) = dest + 2 ^ Z.of_nat k) as -> by (rewrite lor_shift by (done || lia); lia).
    rewrite IH by (lia || rewrite HS; lia). rewrite Hx, HS, E. f_equal. ring.
  - rewrite IH by (lia || rewrite HS; lia). rewrite Hx, HS. assert (x mod 2 = 0) as -> by lia. f_equal. ring.
Qed.

Lemma read_field buf cur n a x : bytes_ok buf → length buf = kTotalPayloadDataSizeInBytes →
  le_val buf / 2 ^ Z.of_nat cur = a + 2 ^ Z.of_nat n * x → 0 ≤ a < 2 ^ Z.of_nat n → (cur + n ≤ 88)%nat → (n ≤ 64)%nat →
  readBits buf cur n = Some (inr (a, (cur + n)%nat)) ∧ le_val buf / 2 ^ Z.of_nat (cur + n) = x.
Proof.
  intros Hok Hl Hv Ha Hn H64. assert (0 < 2 ^ Z.of_nat n) by lia. split.
  - unfold readBits. rewrite Hl. change (kTotalPayloadDataSizeInBytes * 8)%nat with 88%nat.
    rewrite (proj2 (Nat.ltb_ge _ _)), (proj2 (Nat.ltb_ge _ _)) by lia. cbn [orb].
    rewrite read_loop_spec by (done || rewrite ?Hl; change kTotalPayloadDataSizeInBytes with 11%nat; lia). rewrite Hv.
    rewrite (Z.mul_comm (2 ^ Z.of_nat n) x), Z.mod_add, Z.mod_small by lia. by rewrite Z.pow_0_r, Z.add_0_l, Z.mul_1_l.
  - rewrite Nat2Z.inj_add, Z.pow_add_r, <- Z.div_div by (try apply Z.pow_pos_nonneg; try apply Z.pow_nonzero; lia).
    rewrite Hv, (Z.mul_comm (2 ^ Z.of_nat n) x), Z.div_add, Z.div_small by lia. lia.
Qed.

(** A payload whose fields fit. *)
Record qr_fields (p : PayloadContents) (flags : Z) : Prop := {
  qf_version : 0 ≤ version p < 8;
  qf_vendor : 0 ≤ vendorID p < 2 ^ 16;
  qf_product : 0 ≤ productID p < 2 ^ 16;
  qf_flow : 0 ≤ commissioningFlow p < 4;
  qf_flags : rendezvousInformation p = Some flags ∧ 0 ≤ flags < 256;
  qf_long : mIsShortDiscriminator (discriminator p) = false ∧ 0 ≤ mDiscriminator (discriminator p) < 4096;
  qf_pin : 0 ≤ setUpPINCode p < 2 ^ 27 }.

Definition payload_number (p : PayloadContents) (flags : Z) : Z :=
  version p + 8 * (vendorID p + 65536 * (productID p + 65536 * (commissioningFlow p + 4 * (flags + 256 *
    (mDiscriminator (discriminator p) + 4096 * setUpPINCode p))))).

Lemma generate_bits p flags : qr_fields p flags →
  ∃ bits, generateBitSet p (repeat 0 kTotalPayloadDataSizeInBytes) = Some (CHIP_NO_ERROR, bits) ∧
    bytes_ok bits ∧ length bits = kTotalPayloadDataSizeInBytes ∧ le_val bits = payload_number p flags.
Proof.
  intros [H1 H2 H3 H4 [Hr H5] [Hs H6] H7]. unfold generateBitSet. rewrite repeat_length.
  change (kTotalPayloadDataSizeInBits <=? kTotalPayloadDataSizeInBytes * 8)%nat with true. cbn [negb].
  assert (packed (repeat 0 kTotalPayloadDataSizeInBytes) 0 0) as P0.
  { split; [|split; [reflexivity|split; reflexivity]]. repeat (apply Forall_cons; split; [split; [discriminate|reflexivity]|]). apply Forall_nil_2. }
  destruct (populateBits_spec _ _ _ (version p) kVersionFieldLengthInBits P0) as (b1 & -> & P1); [exact H1|vm_compute; lia|vm_compute; lia|].
  cbn [is_no_error]. destruct (populateBits_spec _ _ _ (vendorID p) kVendorIDFieldLengthInBits P1) as (b2 & -> & P2); [exact H2|vm_compute; lia|vm_compute; lia|].
  cbn [is_no_error]. destruct (populateBits_spec _ _ _ (productID p) kProductIDFieldLengthInBits P2) as (b3 & -> & P3); [exact H3|vm_compute; lia|vm_compute; lia|].
  cbn [is_no_error]. destruct (populateBits_spec _ _ _ (commissioningFlow p) kCommissioningFlowFieldLengthInBits P3) as (b4 & -> & P4); [exact H4|vm_compute; lia|vm_compute; lia|].
  cbn [is_no_error]. rewrite Hr. destruct (populateBits_spec _ _ _ flags kRendezvousInfoFieldLengthInBits P4) as (b5 & -> & P5); [exact H5|vm_compute; lia|vm_compute; lia|].
  cbn [is_no_error]. unfold GetLongValue. rewrite Hs.
  destruct (populateBits_spec _ _ _ (mDiscriminator (discriminator p)) kPayloadDiscriminatorFieldLengthInBits P5) as (b6 & -> & P6); [exact H6|vm_compute; lia|vm_compute; lia|].
  cbn [is_no_error]. destruct (populateBits_spec _ _ _ (setUpPINCode p) (Z.to_nat kSetupPINCodeFieldLengthInBits) P6) as (b7 & -> & P7); [exact H7|vm_compute; lia|vm_compute; lia|].
  cbn [is_no_error]. destruct (populateBits_spec _ _ _ 0 kPaddingFieldLengthInBits P7) as (b8 & -> & (Hok & Hl & Hv & _)); [vm_compute; split; [discriminate|reflexivity]|vm_compute; lia|vm_compute; lia|].
  cbn [is_no_error]. exists b8. split; [done|]. split; [done|]. split; [done|]. rewrite Hv. unfold payload_number.
  change (0 + version p * 1 + vendorID p * 8 + productID p * 524288 + commissioningFlow p * 34359738368 + flags * 137438953472 +
    mDiscriminator (discriminator p) * 35184372088832 + setUpPINCode p * 144115188075855872 + 0 * 19342813113834066795298816 =
    version p + 8 * (vendorID p + 65536 * (productID p + 65536 * (commissioningFlow p + 4 * (flags + 256 *
      (mDiscriminator (discriminator p) + 4096 * setUpPINCode p)))))). lia.
Qed.

Lemma parse_bytes tlv s bits p flags out : qr_fields p flags → ExtractPayload s ≠ [] →
  base38Decode (ExtractPayload s) = Some (CHIP_NO_ERROR, bits) → bytes_ok bits → length bits = kTotalPayloadDataSizeInBytes →
  le_val bits = payload_number p flags → populatePayloadQR tlv s out = Some (CHIP_NO_ERROR, p).
Proof.
  intros [H1 H2 H3 H4 [Hr H5] [Hs H6] H7] Hne Hdec Hok Hl Hv. unfold populatePayloadQR.
  rewrite (proj2 (Nat.eqb_neq _ _)) by (by destruct (ExtractPayload s)). rewrite Hdec. cbn [is_no_error negb].
  assert (le_val bits / 2 ^ Z.of_nat 0 = payload_number p flags) as E0 by (by rewrite Z.pow_0_r, Z.div_1_r).
  destruct (read_field bits 0 kVersionFieldLengthInBits _ _ Hok Hl E0 H1) as [-> E1]; [vm_compute; lia..|].
  destruct (read_field bits _ kVendorIDFieldLengthInBits _ _ Hok Hl E1 H2) as [-> E2]; [vm_compute; lia..|].
  destruct (read_field bits _ kProductIDFieldLengthInBits _ _ Hok Hl E2 H3) as [-> E3]; [vm_compute; lia..|].
  destruct (read_field bits _ kCommissioningFlowFieldLengthInBits _ _ Hok Hl E3 H4) as [-> E4]; [vm_compute; lia..|].
  destruct (read_field bits _ kRendezvousInfoFieldLengthInBits _ _ Hok Hl E4 H5) as [-> E5]; [vm_compute; lia..|].
  destruct (read_field bits _ kPayloadDiscriminatorFieldLengthInBits _ _ Hok Hl E5 H6) as [-> E6]; [vm_compute; lia..|].
  unfold SetLongValue. rewrite (wrap_small 16 (mDiscriminator _)) by ulia. change 0xFFF with (Z.ones 12).
  rewrite Z.land_ones, Z.mod_small, Z.eqb_refl by (done || lia).
  rewrite <- (Z.add_0_r (setUpPINCode p)) in E6. change (setUpPINCode p + 0) with (setUpPINCode p + 2 ^ Z.of_nat (Z.to_nat kSetupPINCodeFieldLengthInBits) * 0) in E6.
  destruct (read_field bits _ (Z.to_nat kSetupPINCodeFieldLengthInBits) _ _ Hok Hl E6 H7) as [-> E7]; [vm_compute; lia..|].
  destruct (read_field bits _ kPaddingFieldLengthInBits 0 0 Hok Hl E7) as [-> E8]; [vm_compute; split; [discriminate|reflexivity]|vm_compute; lia|vm_compute; lia|].
  cbn [Z.eqb negb]. unfold populateTLV. rewrite Hl. cbn [Nat.add Nat.sub Nat.mul Nat.div]. 
  rewrite !wrap_small by ulia. destruct p as [v ve pr fl ri [di sh] pin]. cbn in *. subst. done.
Qed.

(** ** Finding the code in a text *)
Lemma segments_plain d s cur : Forall (fun c => c ≠ d) s → segments d s cur = [cur ++ s].
Proof.
  intros Hs; revert cur; induction Hs as [|c s Hc _ IH]; intros cur; cbn [segments]; [by rewrite app_nil_r|].
  rewrite (proj2 (Z.eqb_neq _ _) Hc), IH. by rewrite <- app_assoc.
Qed.

Lemma segments_cut d s rest cur : Forall (fun c => c ≠ d) s → segments d (s ++ d :: rest) cur = (cur ++ s) :: segments d rest [].
Proof.
  intros Hs; revert cur; induction Hs as [|c s Hc _ IH]; intros cur; cbn [segments app]; [by rewrite Z.eqb_refl, app_nil_r|].
  rewrite (proj2 (Z.eqb_neq _ _) Hc), IH. by rewrite <- app_assoc.
Qed.

Lemma starts_prefix t : starts_with kQRCodePrefix (kQRCodePrefix ++ t) = true.
Proof. apply bool_decide_true. by rewrite take_app_length. Qed.

(** The code is found alone, or between delimiters after a part that is none. *)
Definition wraps (code s : bytes) : Prop :=
  s = code ∨ ∃ before after, s = before ++ 37 :: code ++ 37 :: after ∧ Forall (fun c => c ≠ 37) before ∧
    starts_with kQRCodePrefix before = false.

Lemma extract_wrapped t s : Forall (fun c => c ≠ 37) t → t ≠ [] → wraps (kQRCodePrefix ++ t) s → ExtractPayload s = t.
Proof.
  intros Ht Hne Hw. assert (Forall (fun c => c ≠ 37) (kQRCodePrefix ++ t)) as Hc.
  { apply Forall_app. split; [|done]. repeat (apply Forall_cons; split; [discriminate|]). apply Forall_nil_2. }
  assert (∀ l, List.find (λ segment, starts_with kQRCodePrefix segment && (length kQRCodePrefix <? length segment)%nat)
    ((kQRCodePrefix ++ t) :: l) = Some (kQRCodePrefix ++ t)) as Hfind.
  { intros l. cbn [List.find]. rewrite starts_prefix, (proj2 (Nat.ltb_lt _ _)); [done|]. rewrite length_app. destruct t; [done|]. simpl length. lia. }
  unfold ExtractPayload. destruct Hw as [->|(before & after & -> & Hb & Hs)].
  - rewrite segments_plain by done. cbn [app]. rewrite Hfind. by rewrite drop_app_length.
  - rewrite segments_cut by done. cbn [app]. cbn [List.find]. rewrite Hs. cbn [andb].
    change (37 :: (kQRCodePrefix ++ t) ++ 37 :: after) with ([37] ++ (kQRCodePrefix ++ t) ++ 37 :: after).
    rewrite segments_cut by done. cbn [app]. rewrite Hfind. by rewrite drop_app_length.
Qed.

Lemma valid_fields p : isValidQRCodePayload p = true → payload_ok p → mIsShortDiscriminator (discriminator p) = false →
  0 ≤ version p → 0 ≤ commissioningFlow p → (∀ flags, rendezvousInformation p = Some flags → in_u 8 flags) →
  ∃ flags, qr_fields p flags.
Proof.
  intros Hv [Hve Hpr Hd Hpin] Hs Hver Hfl Hri. unfold isValidQRCodePayload in Hv. change (Z.shiftl 1 (Z.of_nat kVersionFieldLengthInBits)) with 8 in Hv.
  destruct (Z.leb_spec 8 (version p)); [done|]. destruct (_ <? commissioningFlow p); [done|].
  destruct (negb (commissioningFlow p =? kStandard) && _ && _) eqn:Ef; [done|]. destruct (rendezvousInformation p) as [flags|] eqn:Er; [|done].
  destruct (negb (Z.land flags _ =? 0)); [done|]. change (Z.shiftl 1 kSetupPINCodeFieldLengthInBits) with (2 ^ 27) in Hv.
  destruct (Z.leb_spec (2 ^ 27) (setUpPINCode p)); [done|]. exists flags. pose proof (Hri flags eq_refl) as Hf. unfold discriminator_ok in Hd. rewrite Hs in Hd.
  unfold kStandard, kUserActionRequired, kCustom in Ef. split; [lia|exact Hve|exact Hpr|lia|split; [done|exact Hf]|done|unfold in_u in Hpin; lia].
Qed.

(** C30: The QR code round trip.  Every payload the generator takes as valid, without
    optional data, is written as 22 characters, and the parser reads from them
    exactly that payload, whatever it was given to fill, also when the code stands
    between delimiters in a longer text. *)
Theorem qr_code_roundtrip tlv p out : payload_ok p → mIsShortDiscriminator (discriminator p) = false → 0 ≤ version p →
  0 ≤ commissioningFlow p → (∀ flags, rendezvousInformation p = Some flags → in_u 8 flags) → isValidQRCodePayload p = true →
  ∃ code, QRCodeString false p = Some (CHIP_NO_ERROR, code) ∧ length code = 22%nat ∧
    ∀ s, wraps code s → populatePayloadQR tlv s out = Some (CHIP_NO_ERROR, p).
Proof.
  intros Hp Hs Hver Hfl Hri Hv. destruct (valid_fields p Hv Hp Hs Hver Hfl Hri) as (flags & Hf).
  destruct (generate_bits p flags Hf) as (bits & Hg & Hok & Hl & Hn).
  pose proof (length_text bits) as Hlt. rewrite Hl in Hlt. change (base38EncodedLength kTotalPayloadDataSizeInBytes - 1)%nat with 19%nat in Hlt.
  pose proof (text_chars bits) as Hch. exists (kQRCodePrefix ++ base38_text bits). split; [|split].
  - unfold QRCodeString. rewrite Hv. cbn [negb orb]. unfold payloadBase38RepresentationWithTLV. rewrite !repeat_length, Hg. cbn [is_no_error negb].
    change (base38EncodedLength kTotalPayloadDataSizeInBytes + length kQRCodePrefix)%nat with 23%nat.
    change (mwrite (repeat 0 23) 0 kQRCodePrefix) with (Some (kQRCodePrefix ++ repeat 0 20)).
    change (23 <? length kQRCodePrefix + 1)%nat with false. cbv beta iota. rewrite drop_app_length, take_app_length.
    destruct (encode_fits bits (repeat 0 20) Hok) as (out' & -> & Hw); [rewrite Hl; vm_compute; lia|]. cbn [is_no_error].
    assert (out' = base38_text bits ++ [0]) as ->.
    { apply mwrite_Some in Hw as [_ ->]. cbn [take firstn app]. rewrite drop_ge by (rewrite repeat_length, length_app, Hlt; simpl; lia). by rewrite app_nil_r. }
    do 2 f_equal. rewrite app_assoc. apply c_str_app. apply Forall_app. split.
    + repeat (apply Forall_cons; split; [discriminate|]). apply Forall_nil_2.
    + eapply Forall_impl; [exact Hch|]. cbn. lia.
  - rewrite length_app, Hlt. done.
  - intros s Hw. assert (ExtractPayload s = base38_text bits) as He.
    { apply extract_wrapped; [eapply Forall_impl; [exact Hch|]; cbn; lia|intros E; by rewrite E in Hlt|exact Hw]. }
    eapply parse_bytes; [exact Hf| | |exact Hok|exact Hl|exact Hn]; rewrite He; [intros E; by rewrite E in Hlt|].
    unfold base38Decode. by rewrite decode_text.
Qed.

Module QRCodeDemo.
Definition relay_payload : PayloadContents :=
  {| version := 0; vendorID := 0x1407; productID := 0x1088; commissioningFlow := kStandard; rendezvousInformation := Some 2;
     discriminator := {| mDiscriminator := 3840; mIsShortDiscriminator := false |}; setUpPINCode := 20202021 |}.

Lemma qr_code_roundtrip_witness :
  ∃ code, QRCodeString false relay_payload = Some (CHIP_NO_ERROR, code) ∧ length code = 22%nat ∧
    populatePayloadQR (fun _ _ => None) (text "x%" ++ code ++ text "%y") blank = Some (CHIP_NO_ERROR, relay_payload).
Proof.
  destruct (qr_code_roundtrip (fun _ _ => None) relay_payload blank) as (code & H1 & H2 & H3).
  - split; vm_compute; split; (discriminate || reflexivity).
  - reflexivity.
  - vm_compute. discriminate.
  - vm_compute. discriminate.
  - intros flags E. injection E as <-. vm_compute. split; [discriminate|reflexivity].
  - reflexivity.
  - exists code. split; [exact H1|]. split; [exact H2|]. apply H3. right. exists (text "x"), (text "y"). split; [reflexivity|]. split.
    + apply Forall_singleton. discriminate.
    + reflexivity.
Defined.
End QRCodeDemo.
