(* ===== verification/PeerCounter.v ===== *)
(** * PeerCounter: replay protection of incoming messages

    [src/src/transport/PeerMessageCounter.h]: the window over the counters a peer
    has used, for the three kinds of session, and the way
    [src/src/transport/SessionManager.cpp] uses it for an incoming message; with the
    counter of the sending side, [src/src/transport/MessageCounter.h].

    The status and its union are one inductive type.  The bit set of the window is
    an integer below [2^32].  [None] is a failed [VerifyOrDie], the read of an
    inactive member of the union, or a position outside the bit set. *)
From Stdlib Require Import Sorted.
From S2P Require Import Prelude ChipError.

Definition CHIP_CONFIG_MESSAGE_COUNTER_WINDOW_SIZE : Z := 32.
Abbreviation window_size := CHIP_CONFIG_MESSAGE_COUNTER_WINDOW_SIZE.
Definition kInitialSyncValue : Z := 0.

(** ** [std::bitset] of the size of the window *)
Definition bitset_test (w i : Z) : option bool := if i <? window_size then Some (Z.testbit w i) else None.
Definition bitset_set (w i : Z) : option Z := if i <? window_size then Some (Z.lor w (2 ^ i)) else None.
Definition bitset_shl (w n : Z) : Z := wrap window_size (Z.shiftl w n).

(** ** The counter of a peer *)
Inductive PeerMessageCounter :=
| NotSynced
| SyncInProcess (mChallenge : bytes)
| Synced (mMaxCounter mWindow : Z).

Inductive Position := BeforeWindow | InWindow | MaxCounter | FutureCounter.

Definition IsSynchronizing (p : PeerMessageCounter) : bool := match p with SyncInProcess _ => true | _ => false end.
Definition IsSynchronized (p : PeerMessageCounter) : bool := match p with Synced _ _ => true | _ => false end.
Definition Reset (p : PeerMessageCounter) : PeerMessageCounter := NotSynced.
Definition SyncStarting (challenge : bytes) (p : PeerMessageCounter) : option PeerMessageCounter :=
  match p with NotSynced => Some (SyncInProcess challenge) | _ => None end.
Definition SyncFailed (p : PeerMessageCounter) : PeerMessageCounter := Reset p.
Definition SetCounter (value : Z) (p : PeerMessageCounter) : PeerMessageCounter := Synced value 0.
Definition GetCounter (p : PeerMessageCounter) : option Z :=
  match p with Synced max _ => Some max | _ => None end.

Definition VerifyChallenge (counter : Z) (challenge : bytes) (p : PeerMessageCounter) : CHIP_ERROR * PeerMessageCounter :=
  match p with
  | SyncInProcess mChallenge =>
      if decide (mChallenge = challenge) then (CHIP_NO_ERROR, Synced counter 0)
      else (CHIP_ERROR_INVALID_ARGUMENT, p)
  | _ => (CHIP_ERROR_INCORRECT_STATE, p)
  end.

Definition ClassifyNonFutureCounter (max counter : Z) : Position :=
  if counter =? max then MaxCounter
  else if u32 (max - counter) <=? window_size then InWindow
  else BeforeWindow.
Definition ClassifyWithoutRollover (max counter : Z) : Position :=
  if max <? counter then FutureCounter else ClassifyNonFutureCounter max counter.
Definition ClassifyWithRollover (max counter : Z) : Position :=
  let counterIncrease := u32 (counter - max) in
  let futureCounterWindow := u32 (2 ^ 31) - 1 in
  if (1 <=? counterIncrease) && (counterIncrease <=? futureCounterWindow) then FutureCounter
  else ClassifyNonFutureCounter max counter.

Definition VerifyPositionEncrypted (max window : Z) (position : Position) (counter : Z) : option CHIP_ERROR :=
  match position with
  | FutureCounter => Some CHIP_NO_ERROR
  | InWindow =>
      let! seen := bitset_test window (u32 (u32 (max - counter) - 1)) in
      Some (if seen then CHIP_ERROR_DUPLICATE_MESSAGE_RECEIVED else CHIP_NO_ERROR)
  | _ => Some CHIP_ERROR_DUPLICATE_MESSAGE_RECEIVED
  end.
Definition VerifyPositionUnencrypted (max window : Z) (position : Position) (counter : Z) : option CHIP_ERROR :=
  match position with
  | MaxCounter => Some CHIP_ERROR_DUPLICATE_MESSAGE_RECEIVED
  | InWindow =>
      let! seen := bitset_test window (u32 (u32 (max - counter) - 1)) in
      Some (if seen then CHIP_ERROR_DUPLICATE_MESSAGE_RECEIVED else CHIP_NO_ERROR)
  | _ => Some CHIP_NO_ERROR
  end.

Definition CommitWithPosition (max window : Z) (position : Position) (counter : Z) : option PeerMessageCounter :=
  match position with
  | InWindow =>
      let! window := bitset_set window (u32 (u32 (max - counter) - 1)) in Some (Synced max window)
  | MaxCounter => Some (Synced max window)
  | _ =>
      let shift := u32 (counter - max) in
      if window_size <? shift then Some (Synced counter 0)
      else let! window := bitset_set (bitset_shl window shift) (u32 (shift - 1)) in Some (Synced counter window)
  end.
Definition CommitWithRollover (counter : Z) (p : PeerMessageCounter) : option PeerMessageCounter :=
  match p with
  | Synced max window => CommitWithPosition max window (ClassifyWithRollover max counter) counter
  | _ => None
  end.
Definition CommitWithoutRollover (counter : Z) (p : PeerMessageCounter) : option PeerMessageCounter :=
  match p with
  | Synced max window => CommitWithPosition max window (ClassifyWithoutRollover max counter) counter
  | _ => None
  end.

Definition VerifyGroup (counter : Z) (p : PeerMessageCounter) : option CHIP_ERROR :=
  match p with
  | Synced max window => VerifyPositionEncrypted max window (ClassifyWithRollover max counter) counter
  | _ => Some CHIP_ERROR_INCORRECT_STATE
  end.
Definition VerifyOrTrustFirstGroup (counter : Z) (p : PeerMessageCounter) : option (CHIP_ERROR * PeerMessageCounter) :=
  match p with
  | NotSynced => Some (CHIP_NO_ERROR, SetCounter counter p)
  | Synced _ _ => let! err := VerifyGroup counter p in Some (err, p)
  | _ => None
  end.
Definition CommitGroup : Z → PeerMessageCounter → option PeerMessageCounter := CommitWithRollover.
Definition VerifyEncryptedUnicast (counter : Z) (p : PeerMessageCounter) : option CHIP_ERROR :=
  match p with
  | Synced max window => VerifyPositionEncrypted max window (ClassifyWithoutRollover max counter) counter
  | _ => Some CHIP_ERROR_INCORRECT_STATE
  end.
Definition CommitEncryptedUnicast : Z → PeerMessageCounter → option PeerMessageCounter := CommitWithoutRollover.
Definition VerifyUnencrypted (counter : Z) (p : PeerMessageCounter) : option (CHIP_ERROR * PeerMessageCounter) :=
  match p with
  | NotSynced => Some (CHIP_NO_ERROR, SetCounter counter p)
  | Synced max window =>
      let! err := VerifyPositionUnencrypted max window (ClassifyWithRollover max counter) counter in Some (err, p)
  | _ => None
  end.
Definition CommitUnencrypted : Z → PeerMessageCounter → option PeerMessageCounter := CommitWithRollover.

(** ** An incoming message ([SessionManager.cpp])

    What becomes of a message whose authentication has succeeded: it is handed to
    the exchange layer, marked as a duplicate or not, or discarded. *)
Inductive delivery := Delivered (isDuplicate : bool) | Discarded.
#[export] Instance delivery_eq_dec : EqDecision delivery.
Proof. solve_decision. Defined.

Definition SecureUnicastMessageDispatch (needsAck : bool) (counter : Z) (p : PeerMessageCounter)
    : option (delivery * PeerMessageCounter) :=
  let! err := VerifyEncryptedUnicast counter p in
  match err with
  | CHIP_ERROR_DUPLICATE_MESSAGE_RECEIVED => Some (if needsAck then Delivered true else Discarded, p)
  | CHIP_NO_ERROR => let! p := CommitEncryptedUnicast counter p in Some (Delivered false, p)
  | _ => Some (Discarded, p)
  end.
Definition SecureGroupMessageDispatch (counter : Z) (p : PeerMessageCounter) : option (delivery * PeerMessageCounter) :=
  let! r := VerifyOrTrustFirstGroup counter p in
  match r with
  | (CHIP_NO_ERROR, p) => let! p := CommitGroup counter p in Some (Delivered false, p)
  | (_, p) => Some (Discarded, p)
  end.
Definition UnauthenticatedMessageDispatch (counter : Z) (p : PeerMessageCounter) : option (delivery * PeerMessageCounter) :=
  let! r := VerifyUnencrypted counter p in
  match r with
  | (CHIP_ERROR_DUPLICATE_MESSAGE_RECEIVED, p) => Some (Delivered true, p)
  | (_, p) => let! p := CommitUnencrypted counter p in Some (Delivered false, p)
  end.

(** ** The sender's counter ([MessageCounter.h]) *)
Definition kMessageCounterMax : Z := 0xFFFFFFFF.
Definition kMessageCounterRandomInitMask : Z := 0x0FFFFFFF.
Definition GetDefaultInitialValuePredecessor (rand : Z) : Z := Z.land rand kMessageCounterRandomInitMask.

(** Both take the last used value; the result is the error, the fetched counter
    and the new last used value. *)
Definition Local_AdvanceAndConsume (mLastUsedValue fetch : Z) : CHIP_ERROR * Z * Z :=
  if mLastUsedValue =? kMessageCounterMax then (CHIP_ERROR_MESSAGE_COUNTER_EXHAUSTED, fetch, mLastUsedValue)
  else let v := u32 (mLastUsedValue + 1) in (CHIP_NO_ERROR, v, v).
Definition Global_AdvanceAndConsume (mLastUsedValue fetch : Z) : CHIP_ERROR * Z * Z :=
  let v := u32 (mLastUsedValue + 1) in (CHIP_NO_ERROR, v, v).

(** ** Specification

    The receiver remembers the newest counter and every counter it has taken as
    new.  Counters of a session that may roll over are unbounded integers here: a
    32-bit value stands for the one closest to the newest. *)
Inductive session := UnicastSession | GroupSession | UnsecuredSession.
#[export] Instance session_eq_dec : EqDecision session.
Proof. solve_decision. Defined.
Record history := { newest : Z; received : gset Z }.

Definition dispatch (s : session) (needsAck : bool) (counter : Z) (p : PeerMessageCounter)
    : option (delivery * PeerMessageCounter) :=
  match s with
  | UnicastSession => SecureUnicastMessageDispatch needsAck counter p
  | GroupSession => SecureGroupMessageDispatch counter p
  | UnsecuredSession => UnauthenticatedMessageDispatch counter p
  end.

Definition absolute (s : session) (h : history) (counter : Z) : Z :=
  match s with
  | UnicastSession => counter
  | _ => newest h + (u32 (counter - newest h + 2 ^ 31) - 2 ^ 31)
  end.

(** Taken as new: above the newest, in the window and not received, or, on an
    unsecured session, before the window: the peer has restarted. *)
Definition is_new (s : session) (h : history) (a : Z) : bool :=
  bool_decide (newest h < a ∨ newest h - window_size ≤ a < newest h ∧ a ∉ received h ∨
               s = UnsecuredSession ∧ a < newest h - window_size).
Definition record_new (h : history) (a : Z) : history :=
  if a <? newest h - window_size then {| newest := a; received := {[a]} |}
  else {| newest := Z.max (newest h) a; received := {[a]} ∪ received h |}.
Definition started (a : Z) : history := {| newest := a; received := {[a]} |}.

(** What becomes of a message that is not new. *)
Definition refused (s : session) (needsAck : bool) : delivery :=
  match s with
  | UnicastSession => if needsAck then Delivered true else Discarded
  | GroupSession => Discarded
  | UnsecuredSession => Delivered true
  end.

Definition newest_is (s : session) (h : history) (max : Z) : Prop :=
  match s with UnicastSession => newest h = max | _ => max = u32 (newest h) end.
Definition represents (s : session) (p : PeerMessageCounter) (h : history) : Prop :=
  ∃ max window, p = Synced max window ∧ in_u 32 max ∧ newest_is s h max ∧
    (∀ a, a ∈ received h → a ≤ newest h) ∧ newest h ∈ received h ∧ in_u window_size window ∧
    ∀ i, 0 ≤ i < window_size → Z.testbit window i = bool_decide (newest h - 1 - i ∈ received h).

(** A run of messages: the counters delivered as new, in order. *)
Fixpoint deliver (s : session) (msgs : list (bool * Z)) (p : PeerMessageCounter) : option (list Z * PeerMessageCounter) :=
  match msgs with
  | [] => Some ([], p)
  | (needsAck, c) :: msgs =>
      let! r := dispatch s needsAck c p in
      let! rest := deliver s msgs (snd r) in
      Some (if decide (fst r = Delivered false) then c :: fst rest else fst rest, snd rest)
  end.
Fixpoint taken (s : session) (cs : list Z) (h : history) : list Z :=
  match cs with
  | [] => []
  | c :: cs =>
      let a := absolute s h c in
      if is_new s h a then a :: taken s cs (record_new h a) else taken s cs h
  end.

(** ** The position of a counter *)
Definition classify (s : session) (max c : Z) : Position :=
  match s with UnicastSession => ClassifyWithoutRollover max c | _ => ClassifyWithRollover max c end.
Definition position_of (h : history) (a : Z) : Position :=
  if newest h <? a then FutureCounter else if a =? newest h then MaxCounter
  else if newest h - window_size <=? a then InWindow else BeforeWindow.

Ltac mod_lia := unfold in_u, wrap, CHIP_CONFIG_MESSAGE_COUNTER_WINDOW_SIZE in *;
  change (2 ^ 32) with 4294967296 in *; change (2 ^ 31) with 2147483648 in *;
  Z.div_mod_to_equations; lia.

Ltac win_lia := unfold CHIP_CONFIG_MESSAGE_COUNTER_WINDOW_SIZE in *; lia.

Section placed.
Context (s : session) (h : history) (max c : Z) (Hmax : in_u 32 max) (Hc : in_u 32 c) (Hn : newest_is s h max).
Let a := absolute s h c.

Lemma absolute_value : c = u32 a.
Proof using All. subst a. unfold absolute. destruct s; mod_lia. Qed.

Lemma absolute_newest r : newest_is s {| newest := a; received := r |} c.
Proof using All. pose proof absolute_value. subst a. unfold newest_is. by destruct s. Qed.

Lemma absolute_future : newest h < a → u32 (c - max) = a - newest h.
Proof using All. subst a. unfold absolute, newest_is in *. destruct s; mod_lia. Qed.

Lemma absolute_past : a ≤ newest h → u32 (max - c) = newest h - a.
Proof using All. subst a. unfold absolute, newest_is in *. destruct s; mod_lia. Qed.

Lemma absolute_far : a < newest h - window_size → s ≠ UnicastSession → window_size < u32 (c - max).
Proof using All. subst a. unfold absolute, newest_is in *. destruct s; [done|mod_lia..]. Qed.

Lemma absolute_eq : a = newest h ↔ c = max.
Proof using All. subst a. unfold absolute, newest_is in *. destruct s; mod_lia. Qed.

Lemma absolute_far_ahead : s ≠ UnicastSession → newest h < a ↔ 1 ≤ u32 (c - max) ≤ 2 ^ 31 - 1.
Proof using All. subst a. unfold absolute, newest_is in *. destruct s; [done|mod_lia..]. Qed.

Lemma classify_nonfuture : a ≤ newest h → ClassifyNonFutureCounter max c = position_of h a.
Proof using All.
  intros Ha. unfold ClassifyNonFutureCounter, position_of. rewrite (absolute_past Ha), (proj2 (Z.ltb_ge _ _)) by done.
  pose proof absolute_eq. destruct (Z.eqb_spec c max), (Z.eqb_spec a (newest h)); try done; try tauto.
  destruct (Z.leb_spec (newest h - a) window_size), (Z.leb_spec (newest h - window_size) a); done || lia.
Qed.

Lemma classify_spec : classify s max c = position_of h a.
Proof using All.
  destruct (Z.ltb_spec (newest h) a) as [Hlt|Hge].
  - unfold position_of. rewrite (proj2 (Z.ltb_lt _ _)) by done. unfold classify.
    destruct (decide (s = UnicastSession)) as [->|Hs].
    + unfold ClassifyWithoutRollover. by rewrite (proj2 (Z.ltb_lt _ _)) by (cbn in *; lia).
    + apply absolute_far_ahead in Hlt; [|done].
      assert (ClassifyWithRollover max c = FutureCounter) as E.
      { unfold ClassifyWithRollover. change (u32 (2 ^ 31)) with (2 ^ 31). by rewrite !(proj2 (Z.leb_le _ _)) by lia. }
      by destruct s.
  - rewrite <- classify_nonfuture by done. unfold classify.
    destruct (decide (s = UnicastSession)) as [->|Hs].
    + unfold ClassifyWithoutRollover. by rewrite (proj2 (Z.ltb_ge _ _)) by (cbn in *; lia).
    + assert (ClassifyWithRollover max c = ClassifyNonFutureCounter max c) as E.
      { unfold ClassifyWithRollover. change (u32 (2 ^ 31)) with (2 ^ 31). case_match eqn:E; [|done].
        apply andb_true_iff in E as [?%Z.leb_le ?%Z.leb_le]. pose proof (proj2 (absolute_far_ahead Hs)). lia. }
      by destruct s.
Qed.
End placed.

(** ** The window *)
Lemma set_slot w i j : in_u window_size w → 0 ≤ i < window_size → 0 ≤ j →
  ∃ w', bitset_set w i = Some w' ∧ in_u window_size w' ∧ Z.testbit w' j = (j =? i) || Z.testbit w j.
Proof.
  intros Hw Hi Hj. unfold bitset_set. rewrite (proj2 (Z.ltb_lt _ _)) by lia. eexists. split_and!; [done| |].
  - unfold in_u. split; [apply Z.lor_nonneg; unfold in_u in Hw; lia|].
    destruct (Z.eq_dec (Z.lor w (2 ^ i)) 0) as [->|]; [done|].
    apply Z.log2_lt_pow2; [assert (0 ≤ Z.lor w (2 ^ i)) by (apply Z.lor_nonneg; unfold in_u in Hw; lia); lia|].
    rewrite Z.log2_lor by (unfold in_u in Hw; lia). rewrite Z.log2_pow2 by lia.
    destruct (Z.eq_dec w 0) as [->|]; [done || (cbn; lia)|].
    assert (Z.log2 w < window_size) by (apply Z.log2_lt_pow2; unfold in_u in Hw; lia). lia.
  - rewrite Z.lor_spec, orb_comm. f_equal. rewrite Z.pow2_bits_eqb by lia. apply Z.eqb_sym.
Qed.

Lemma shift_slots w n : in_u window_size w → 1 ≤ n ≤ window_size →
  ∃ w', bitset_set (bitset_shl w n) (n - 1) = Some w' ∧ in_u window_size w' ∧
    ∀ j, 0 ≤ j < window_size → Z.testbit w' j = (j =? n - 1) || (n <=? j) && Z.testbit w (j - n).
Proof.
  intros Hw Hn. assert (in_u window_size (bitset_shl w n)) as Hs by (by apply wrap_range).
  destruct (set_slot (bitset_shl w n) (n - 1) 0 Hs) as (w' & Hw' & Hr & _); [lia..|]. exists w'. split_and!; [done..|].
  intros j Hj. destruct (set_slot (bitset_shl w n) (n - 1) j Hs) as (v & Hv & _ & Hb); [lia..|].
  simplify_eq. rewrite Hb. f_equal. unfold bitset_shl, wrap. rewrite Z.mod_pow2_bits_low by lia. rewrite Z.shiftl_spec by lia.
  destruct (Z.leb_spec n j); [done|]. by rewrite Z.testbit_neg_r by lia.
Qed.

(** ** The receiver implements the specification *)
Definition verify_position (s : session) (max window : Z) (pos : Position) (c : Z) : option CHIP_ERROR :=
  match s with
  | UnsecuredSession => VerifyPositionUnencrypted max window pos c
  | _ => VerifyPositionEncrypted max window pos c
  end.

Lemma dispatch_synced s na c max window (new : bool) :
  verify_position s max window (classify s max c) c =
    Some (if new then CHIP_NO_ERROR else CHIP_ERROR_DUPLICATE_MESSAGE_RECEIVED) →
  dispatch s na c (Synced max window) =
  if new then let! p := CommitWithPosition max window (classify s max c) c in Some (Delivered false, p)
  else Some (refused s na, Synced max window).
Proof.
  destruct s; cbn [dispatch verify_position refused classify]; intros Hv;
    unfold SecureUnicastMessageDispatch, SecureGroupMessageDispatch, UnauthenticatedMessageDispatch;
    cbn [VerifyEncryptedUnicast VerifyGroup VerifyOrTrustFirstGroup VerifyUnencrypted];
    rewrite Hv; by destruct new.
Qed.

Section step.
Context (s : session) (h : history) (max window c : Z).
Context (Hmax : in_u 32 max) (Hc : in_u 32 c) (Hn : newest_is s h max) (Hw : in_u window_size window).
Context (Hle : ∀ a, a ∈ received h → a ≤ newest h) (Hin : newest h ∈ received h).
Context (Hbits : ∀ i, 0 ≤ i < window_size → Z.testbit window i = bool_decide (newest h - 1 - i ∈ received h)).
Let a := absolute s h c.

Lemma slot_of : newest h - window_size ≤ a < newest h →
  u32 (u32 (max - c) - 1) = newest h - a - 1 ∧ 0 ≤ newest h - a - 1 < window_size.
Proof using All.
  intros Ha. rewrite (absolute_past s h max c Hmax Hc Hn) by (subst a; lia). fold a.
  split; [apply wrap_small|]; mod_lia.
Qed.

Lemma verify_spec :
  verify_position s max window (classify s max c) c =
  Some (if is_new s h a then CHIP_NO_ERROR else CHIP_ERROR_DUPLICATE_MESSAGE_RECEIVED).
Proof using All.
  rewrite (classify_spec s h max c Hmax Hc Hn). fold a. unfold position_of, is_new.
  destruct (Z.ltb_spec (newest h) a); [rewrite bool_decide_true by (by left); by destruct s|].
  destruct (Z.eqb_spec a (newest h)) as [He|].
  { rewrite bool_decide_false; [by destruct s|]. intros [?|[[? ?]|[? ?]]]; win_lia. }
  destruct (Z.leb_spec (newest h - window_size) a).
  - destruct slot_of as [Hs Hr]; [subst a; lia|].
    assert (bitset_test window (u32 (u32 (max - c) - 1)) = Some (bool_decide (a ∈ received h))) as Ht.
    { rewrite Hs. unfold bitset_test. rewrite (proj2 (Z.ltb_lt _ _)) by lia. rewrite Hbits by lia. do 2 f_equal.
      apply bool_decide_ext. by replace (newest h - 1 - (newest h - a - 1)) with a by lia. }
    replace (verify_position s max window InWindow c) with
      (VerifyPositionEncrypted max window InWindow c) by (by destruct s).
    cbn [VerifyPositionEncrypted]. rewrite Ht. f_equal. case_bool_decide.
    + rewrite bool_decide_false by naive_solver win_lia. done.
    + rewrite bool_decide_true by naive_solver win_lia. done.
  - destruct s; [rewrite bool_decide_false by naive_solver win_lia..|rewrite bool_decide_true by naive_solver win_lia]; done.
Qed.

(** The newest counter is replaced: the window moves up, or starts empty. *)
Lemma represents_intro p c' (h' : history) w' : p = Synced c' w' → in_u 32 c' → newest_is s h' c' →
  (∀ b, b ∈ received h' → b ≤ newest h') → newest h' ∈ received h' → in_u window_size w' →
  (∀ i, 0 ≤ i < window_size → Z.testbit w' i = true ↔ newest h' - 1 - i ∈ received h') →
  represents s p h'.
Proof using.
  intros. eexists _, _. split_and!; [done..|]. intros i Hi. apply eq_bool_prop_intro.
  rewrite bool_decide_spec, Is_true_true. auto.
Qed.

Lemma commit_future : newest h < a →
  ∃ p, CommitWithPosition max window FutureCounter c = Some p ∧
       represents s p {| newest := a; received := {[a]} ∪ received h |}.
Proof using All.
  intros Hlt. pose proof (absolute_future s h max c Hmax Hc Hn Hlt) as Hsh. fold a in Hsh. cbn [CommitWithPosition]. rewrite Hsh.
  pose proof (absolute_newest s h max c Hmax Hc Hn ({[a]} ∪ received h)) as Hn'. fold a in Hn'.
  destruct (Z.ltb_spec window_size (a - newest h)) as [Hfar|Hnear].
  - eexists. split; [done|]. eapply represents_intro; [done..| |set_solver|done|]; cbn.
    + intros b. rewrite elem_of_union, elem_of_singleton. intros [->|Hb%Hle]; lia.
    + intros i Hi. rewrite Z.bits_0, elem_of_union, elem_of_singleton. split; [done|]. intros [?|Hb%Hle]; lia.
  - replace (u32 (a - newest h - 1)) with (a - newest h - 1) by (symmetry; apply wrap_small; mod_lia).
    destruct (shift_slots window (a - newest h) Hw) as (w' & -> & Hw' & Hb); [lia|].
    eexists. split; [done|]. eapply represents_intro; [done..| |set_solver|done|]; cbn.
    + intros b. rewrite elem_of_union, elem_of_singleton. intros [->|Hb'%Hle]; lia.
    + intros i Hi. rewrite Hb by done. rewrite orb_true_iff, andb_true_iff, Z.eqb_eq, Z.leb_le, elem_of_union, elem_of_singleton.
      destruct (decide (a - newest h ≤ i)) as [Hi'|Hi'].
      * rewrite Hbits by lia. rewrite bool_decide_eq_true.
        replace (newest h - 1 - (i - (a - newest h))) with (a - 1 - i) by lia. naive_solver win_lia.
      * split; [intros [->|[? _]]; [|lia]|intros [?|Hb'%Hle]; [lia|left; lia]].
        right. by replace (a - 1 - (a - newest h - 1)) with (newest h) by lia.
Qed.

(** A slot of the window is filled. *)
Lemma commit_window : newest h - window_size ≤ a < newest h →
  ∃ p, CommitWithPosition max window InWindow c = Some p ∧
       represents s p {| newest := newest h; received := {[a]} ∪ received h |}.
Proof using All.
  intros Ha. destruct (slot_of Ha) as [Hs Hr]. cbn [CommitWithPosition]. rewrite Hs.
  destruct (set_slot window (newest h - a - 1) 0 Hw) as (w' & Hset & Hw' & _); [lia..|]. rewrite Hset.
  eexists. split; [done|]. eapply represents_intro; [done|done| | |set_solver|done|]; cbn.
  - unfold newest_is in *. by destruct s.
  - intros b. rewrite elem_of_union, elem_of_singleton. intros [->|Hb%Hle]; lia.
  - intros i Hi. destruct (set_slot window (newest h - a - 1) i Hw) as (v & Hv & _ & Hb); [lia..|]. simplify_eq.
    rewrite Hb, Hbits by done. rewrite orb_true_iff, bool_decide_eq_true, Z.eqb_eq, elem_of_union, elem_of_singleton.
    split; (intros [?|?]; [left; lia|by right]).
Qed.

(** A counter before the window, which an unsecured session takes, starts over. *)
Lemma commit_restart : a < newest h - window_size → s ≠ UnicastSession →
  ∃ p, CommitWithPosition max window BeforeWindow c = Some p ∧ represents s p (started a).
Proof using All.
  intros Ha Hs. pose proof (absolute_far s h max c Hmax Hc Hn Ha Hs) as Hsh. cbn [CommitWithPosition].
  rewrite (proj2 (Z.ltb_lt _ _)) by done. eexists. split; [done|].
  eapply represents_intro; [done|done|apply (absolute_newest s h max c Hmax Hc Hn)| |set_solver|done|]; cbn; fold a.
  - intros b. rewrite elem_of_singleton. lia.
  - intros i Hi. rewrite Z.bits_0, elem_of_singleton. split; [done|lia].
Qed.

Lemma commit_spec : is_new s h a = true →
  ∃ p, CommitWithPosition max window (classify s max c) c = Some p ∧ represents s p (record_new h a).
Proof using All.
  intros Hnew. apply bool_decide_eq_true in Hnew.
  rewrite (classify_spec s h max c Hmax Hc Hn). fold a. unfold position_of, record_new.
  destruct (Z.ltb_spec (newest h) a) as [Hlt|Hge].
  { rewrite (proj2 (Z.ltb_ge a _)) by win_lia. rewrite Z.max_r by lia. by apply commit_future. }
  destruct (Z.eqb_spec a (newest h)); [naive_solver win_lia|].
  destruct (Z.leb_spec (newest h - window_size) a) as [Hwin|Hfar].
  - rewrite (proj2 (Z.ltb_ge _ _)) by lia. rewrite Z.max_l by lia. apply commit_window. lia.
  - rewrite (proj2 (Z.ltb_lt _ _)) by lia. apply commit_restart; [done|]. naive_solver win_lia.
Qed.
End step.

Lemma dispatch_spec s na p h c : represents s p h → in_u 32 c →
  let a := absolute s h c in
  if is_new s h a then ∃ p', dispatch s na c p = Some (Delivered false, p') ∧ represents s p' (record_new h a)
  else dispatch s na c p = Some (refused s na, p).
Proof.
  intros (max & window & -> & Hmax & Hn & Hle & Hin & Hw & Hb) Hc a.
  pose proof (dispatch_synced s na c max window _ (verify_spec s h max window c Hmax Hc Hn Hw Hle Hin Hb)) as Hd. fold a in Hd.
  destruct (is_new s h a) eqn:Hnew; [|done].
  destruct (commit_spec s h max window c Hmax Hc Hn Hw Hle Hin Hb Hnew) as (p' & Hp' & Hr).
  rewrite Hp' in Hd. eauto.
Qed.

Lemma represents_started s p c : in_u 32 c → represents s (SetCounter c p) (started c).
Proof.
  intros Hc. eapply represents_intro; [done|done| | |set_solver| |]; cbn.
  - destruct s; cbn; [done|symmetry; by apply wrap_small..].
  - intros b. rewrite elem_of_singleton. lia.
  - done.
  - intros i Hi. rewrite Z.bits_0, elem_of_singleton. split; [done|lia].
Qed.

(** C26: On every kind of session the window of the peer's counter decides like a
    receiver that remembers every counter it has taken as new: a message is taken
    as new exactly if its counter is above the newest, or at most 32 below it and
    not received yet, or, on an unsecured session, further below it, and then it
    is recorded; any other message leaves the state alone and is delivered as a
    duplicate or discarded, as the session asks.  A group or unsecured session
    trusts the first counter; a secure session is started at the counter it is
    given.  No bit outside the window is touched. *)
Theorem peer_counter_correct s p h c needsAck : in_u 32 c →
  (represents s p h → let a := absolute s h c in u32 a = c ∧
    if is_new s h a then ∃ p', dispatch s needsAck c p = Some (Delivered false, p') ∧ represents s p' (record_new h a)
    else dispatch s needsAck c p = Some (refused s needsAck, p)) ∧
  (s ≠ UnicastSession → ∃ p', dispatch s needsAck c NotSynced = Some (Delivered false, p') ∧ represents s p' (started c)) ∧
  represents s (SetCounter c p) (started c) ∧
  dispatch UnicastSession needsAck c NotSynced = Some (Discarded, NotSynced).
Proof.
  intros Hc. split_and!; [|intros Hs|by apply represents_started|done].
  - intros Hr a. split; [|by apply dispatch_spec].
    destruct Hr as (max & w & _ & Hmax & Hn & _). symmetry. exact (absolute_value s h max c Hmax Hc Hn).
  - exists (SetCounter c NotSynced). split; [|by apply represents_started].
    assert (ClassifyWithRollover c c = MaxCounter) as E.
    { unfold ClassifyWithRollover, ClassifyNonFutureCounter. by rewrite Z.sub_diag, Z.eqb_refl. }
    destruct s; [done|..]; cbn; unfold SecureGroupMessageDispatch, UnauthenticatedMessageDispatch; cbn;
      unfold CommitGroup, CommitUnencrypted; cbn; by rewrite E.
Qed.

(** ** Runs of messages *)
Lemma is_new_fresh s h a : s ≠ UnsecuredSession → (∀ b, b ∈ received h → b ≤ newest h) → is_new s h a = true →
  a ∉ received h ∧ record_new h a = {| newest := Z.max (newest h) a; received := {[a]} ∪ received h |}.
Proof.
  intros Hs Hle Hnew%bool_decide_eq_true. unfold record_new.
  rewrite (proj2 (Z.ltb_ge _ _)) by naive_solver win_lia. split; [|done].
  destruct Hnew as [?|[[_ ?]|[? _]]]; [|done..]. intros ?%Hle. lia.
Qed.

Lemma taken_fresh s cs h : s ≠ UnsecuredSession → (∀ b, b ∈ received h → b ≤ newest h) →
  NoDup (taken s cs h) ∧ ∀ a, a ∈ taken s cs h → a ∉ received h.
Proof.
  intros Hs. revert h. induction cs as [|c cs IH]; intros h Hle; cbn [taken]; [split; [constructor|set_solver]|].
  destruct (is_new s h (absolute s h c)) eqn:Hnew; [|by apply IH].
  destruct (is_new_fresh s h _ Hs Hle Hnew) as [Hf Hrec]. rewrite Hrec.
  destruct (IH {| newest := Z.max (newest h) (absolute s h c); received := {[absolute s h c]} ∪ received h |}) as [Hnd Hout].
  { intros b. cbn. rewrite elem_of_union, elem_of_singleton. intros [->|?%Hle]; lia. }
  split; [constructor; [|done]|].
  - intros Hi%Hout. cbn in Hi. set_solver.
  - intros b [->|Hb]%elem_of_cons; [done|]. apply Hout in Hb. cbn in Hb. set_solver.
Qed.

Lemma deliver_taken s msgs p h : represents s p h → Forall (fun m => in_u 32 (snd m)) msgs →
  ∃ p', deliver s msgs p = Some (u32 <$> taken s (snd <$> msgs) h, p').
Proof.
  revert p h. induction msgs as [|[na c] msgs IH]; intros p h Hr Hm; [eexists; done|].
  apply Forall_cons in Hm as [Hc Hm]. cbn [snd] in Hc. cbn [deliver taken fmap list_fmap snd].
  pose proof (dispatch_spec s na p h c Hr Hc) as Hd. cbn zeta in Hd.
  destruct Hr as (max & w & Hp & Hmax & Hn & Hr').
  destruct (is_new s h (absolute s h c)).
  - destruct Hd as (p1 & -> & Hr1). destruct (IH _ _ Hr1 Hm) as (p' & Hp').
    cbn [snd fst]. rewrite Hp'. cbn [fst snd fmap list_fmap]. eexists.
    by rewrite decide_True, <- (absolute_value s h max c Hmax Hc Hn) by done.
  - rewrite Hd. cbn [snd]. destruct (IH p h) as (p' & Hp'); [by eexists _, _|done|]. rewrite Hp'. cbn [fst snd]. eexists.
    destruct (decide (refused s na = Delivered false)) as [E|]; [|done]. by destruct s, na.
Qed.

Lemma taken_increasing cs h : (∀ b, b ∈ received h → b ≤ newest h) →
  Sorted Z.lt (newest h :: cs) → taken UnicastSession cs h = cs.
Proof.
  revert h. induction cs as [|c cs IH]; intros h Hle Hs; [done|]. cbn [taken absolute].
  apply Sorted_inv in Hs as [Hs Hc]. apply HdRel_inv in Hc.
  assert (is_new UnicastSession h c = true) as -> by (apply bool_decide_eq_true; by left). f_equal.
  assert (record_new h c = {| newest := c; received := {[c]} ∪ received h |}) as ->.
  { unfold record_new. rewrite (proj2 (Z.ltb_ge _ _)) by win_lia. by rewrite Z.max_r by lia. }
  apply IH; [|done]. intros b. cbn. rewrite elem_of_union, elem_of_singleton. intros [->|?%Hle]; lia.
Qed.

(** C5: On a secure session no message is processed twice.  Whatever messages
    arrive and in whatever order, a unicast session delivers as new a list of
    pairwise distinct counters, none of them the one it started from, and loses
    none when the counters come in increasing order; a group session delivers as
    new the values of pairwise distinct positions in the unbounded sequence of
    its counters.  No run aborts. *)
Theorem no_replay p c0 msgs : in_u 32 c0 → Forall (fun m => in_u 32 (snd m)) msgs →
  (∃ new p', deliver UnicastSession msgs (SetCounter c0 p) = Some (new, p') ∧
     NoDup new ∧ c0 ∉ new ∧ (∀ c, c ∈ new → c ∈ snd <$> msgs) ∧
     (Sorted Z.lt (c0 :: (snd <$> msgs)) → new = snd <$> msgs)) ∧
  (∃ p', deliver GroupSession msgs (SetCounter c0 p) = Some (u32 <$> taken GroupSession (snd <$> msgs) (started c0), p') ∧
     NoDup (taken GroupSession (snd <$> msgs) (started c0)) ∧ c0 ∉ taken GroupSession (snd <$> msgs) (started c0)).
Proof.
  intros Hc Hm. assert (∀ b, b ∈ received (started c0) → b ≤ newest (started c0)) as Hle.
  { intros b. cbn. rewrite elem_of_singleton. lia. }
  split.
  - destruct (deliver_taken UnicastSession msgs _ _ (represents_started _ p c0 Hc) Hm) as (p' & Hd).
    destruct (taken_fresh UnicastSession (snd <$> msgs) (started c0)) as [Hnd Hout]; [done..|].
    assert (∀ cs h a, a ∈ taken UnicastSession cs h → a ∈ cs) as Hsub.
    { clear. induction cs as [|c cs IH]; intros h a; cbn [taken absolute]; [done|]. case_match; set_solver. }
    assert (u32 <$> taken UnicastSession (snd <$> msgs) (started c0) = taken UnicastSession (snd <$> msgs) (started c0)) as E.
    { rewrite <- (list_fmap_id (taken _ _ _)) at 2. apply list_fmap_ext. intros i a Ha%list_elem_of_lookup_2%Hsub.
      apply wrap_small. rewrite Forall_forall in Hm. apply list_elem_of_fmap in Ha as (m & -> & Hin). by apply Hm. }
    rewrite E in Hd. eexists _, _. split_and!; [done|done| |by apply Hsub|].
    + intros Hin%Hout. cbn in Hin. set_solver.
    + intros Hs. by apply taken_increasing.
  - destruct (deliver_taken GroupSession msgs _ _ (represents_started _ p c0 Hc) Hm) as (p' & Hd).
    destruct (taken_fresh GroupSession (snd <$> msgs) (started c0)) as [Hnd Hout]; [done..|].
    exists p'. split_and!; [done..|]. intros Hin%Hout. cbn in Hin. set_solver.
Qed.

(** ** The sender *)
Fixpoint send (n : nat) (mLastUsedValue : Z) : list Z :=
  match n with
  | O => []
  | S n =>
      match Local_AdvanceAndConsume mLastUsedValue 0 with
      | (CHIP_NO_ERROR, counter, mLastUsedValue) => counter :: send n mLastUsedValue
      | (_, _, mLastUsedValue) => send n mLastUsedValue
      end
  end.

Lemma send_seq n last : in_u 32 last →
  send n last = (fun i => last + 1 + Z.of_nat i) <$> seq 0 (n `min` Z.to_nat (kMessageCounterMax - last)).
Proof.
  revert last. induction n as [|n IH]; intros last Hl; [done|]. cbn [send]. unfold Local_AdvanceAndConsume.
  destruct (Z.eqb_spec last kMessageCounterMax) as [->|Hne].
  - rewrite IH by done. by rewrite Z.sub_diag, !Nat.min_0_r.
  - assert (last + 1 ≤ kMessageCounterMax) as Hle by (unfold in_u in Hl; unfold kMessageCounterMax in *; lia).
    rewrite (wrap_small 32 (last + 1)) by (unfold in_u, kMessageCounterMax in *; lia).
    rewrite IH by (unfold in_u, kMessageCounterMax in *; lia).
    replace (Z.to_nat (kMessageCounterMax - last)) with (S (Z.to_nat (kMessageCounterMax - (last + 1)))) by lia.
    rewrite <- Nat.succ_min_distr. cbn [seq fmap list_fmap]. f_equal; [lia|].
    rewrite <- (fmap_S_seq 0), <- list_fmap_compose. apply list_fmap_ext. intros i k _. cbn. lia.
Qed.

Lemma send_sorted n last : in_u 32 last → StronglySorted Z.lt (last :: send n last) ∧ Forall (in_u 32) (send n last).
Proof.
  intros Hl. rewrite send_seq by done. set (k := (n `min` _)%nat).
  assert (Z.of_nat k ≤ kMessageCounterMax - last) as Hk by (unfold in_u, kMessageCounterMax in *; lia). clearbody k.
  assert (∀ a, StronglySorted Z.lt ((fun i => last + 1 + Z.of_nat i) <$> seq a k)) as Hs.
  { clear Hk. induction k as [|k IH]; intros a; cbn [seq fmap list_fmap]; constructor; [apply IH|].
    apply Forall_fmap, Forall_forall. intros i Hi%elem_of_seq. cbn. lia. }
  split; [constructor; [done|]|]; apply Forall_fmap, Forall_forall; intros i Hi%elem_of_seq; cbn;
    unfold in_u, kMessageCounterMax in *; lia.
Qed.

Lemma sublist_Forall (P : Z → Prop) (l k : list Z) : l `sublist_of` k → Forall P k → Forall P l.
Proof. rewrite !Forall_forall. intros Hs Hk x Hx. apply Hk. by eapply elem_of_sublist. Qed.

Lemma sublist_sorted (l k : list Z) x : l `sublist_of` k → StronglySorted Z.lt (x :: k) → StronglySorted Z.lt (x :: l).
Proof.
  intros Hs [Hk Hx]%StronglySorted_inv.
  assert (∀ P : Z → Prop, Forall P k → Forall P l) as Hf by (intros P; by apply (sublist_Forall P _ _ Hs)).
  constructor; [|by apply Hf]. clear Hx Hf x. induction Hs as [|y l k Hs IH|y l k Hs IH]; [constructor| |].
  - apply StronglySorted_inv in Hk as [Hk Hy]. constructor; [by apply IH|]. by eapply sublist_Forall.
  - apply StronglySorted_inv in Hk as [Hk _]. by apply IH.
Qed.

(** The counters of a session, sent from its random start, are distinct, begin
    above the counter the receiver is synchronised at, never roll over (once they
    are used up every further call fails), and whichever of them arrive, if they
    arrive in order the receiver takes each as new. *)
Theorem session_counters_accepted rand n cs needsAck p : in_u 32 rand →
  cs `sublist_of` send n (GetDefaultInitialValuePredecessor rand) →
  length (send n (GetDefaultInitialValuePredecessor rand)) =
    (n `min` Z.to_nat (kMessageCounterMax - GetDefaultInitialValuePredecessor rand))%nat ∧
  NoDup (send n (GetDefaultInitialValuePredecessor rand)) ∧
  ∃ p', deliver UnicastSession (pair needsAck <$> cs) (SetCounter kInitialSyncValue p) = Some (cs, p').
Proof.
  intros Hr Hsub. set (last := GetDefaultInitialValuePredecessor rand) in *.
  assert (in_u 32 last) as Hl.
  { subst last. unfold GetDefaultInitialValuePredecessor. change kMessageCounterRandomInitMask with (Z.ones 28).
    rewrite Z.land_ones by lia. unfold in_u in *. pose proof (Z.mod_pos_bound rand (2 ^ 28)). lia. }
  destruct (send_sorted n last Hl) as [Hs Hf]. split_and!.
  - rewrite send_seq by done. by rewrite length_fmap, length_seq.
  - rewrite send_seq by done. apply NoDup_fmap_2_strong; [intros i j _ _ ?; lia|apply NoDup_seq].
  - assert (snd <$> (pair needsAck <$> cs) = cs) as E by (rewrite <- list_fmap_compose; apply list_fmap_id).
    destruct (deliver_taken UnicastSession (pair needsAck <$> cs) (SetCounter kInitialSyncValue p) (started kInitialSyncValue))
      as (p' & Hd); [by apply represents_started| |].
    + apply Forall_fmap. change (Forall (in_u 32) cs). by eapply sublist_Forall.
    + rewrite E, taken_increasing in Hd.
      * exists p'. rewrite Hd. do 2 f_equal. rewrite <- (list_fmap_id cs) at 2. apply list_fmap_ext.
        intros i c Hi. apply wrap_small. eapply (proj1 (Forall_lookup _ _)); [|done]. by eapply sublist_Forall.
      * intros b. cbn. rewrite elem_of_singleton. unfold kInitialSyncValue. lia.
      * apply StronglySorted_Sorted. apply (sublist_sorted _ _ _ Hsub) in Hs. apply StronglySorted_inv in Hs as [Hs Hc].
        constructor; [done|]. eapply Forall_impl; [done|]. cbn. unfold kInitialSyncValue, in_u in *. lia.
Qed.

Module PeerDemo.
(** Reordering, duplicates and a gap; then the counters of a group around the
    roll over. *)
Example reordered : deliver UnicastSession [(false, 5); (true, 3); (true, 5); (false, 4); (false, 3); (false, 100); (true, 60)]
    (SetCounter 0 NotSynced) = Some ([5; 3; 4; 100], Synced 100 0).
Proof. reflexivity. Qed.

Example roll_over : fst <$> deliver GroupSession [(false, 0xFFFFFFFF); (false, 1); (false, 0xFFFFFFFF); (false, 0); (false, 1)]
    (SetCounter 0xFFFFFFFE NotSynced) = Some [0xFFFFFFFF; 1; 0].
Proof. vm_compute. reflexivity. Qed.

Lemma peer_counter_correct_witness :
  ∃ p', dispatch UnicastSession true 7 (SetCounter 5 NotSynced) = Some (Delivered false, p') ∧
        represents UnicastSession p' (record_new (started 5) 7).
Proof.
  destruct (peer_counter_correct UnicastSession (SetCounter 5 NotSynced) (started 5) 7 true ltac:(done)) as (H & _ & _ & _).
  exact (proj2 (H (represents_started UnicastSession NotSynced 5 ltac:(done)))).
Defined.

Lemma no_replay_witness : ∃ new p', deliver UnicastSession [(true, 9); (true, 9)] (SetCounter 0 NotSynced) = Some (new, p') ∧ NoDup new.
Proof.
  destruct (no_replay NotSynced 0 [(true, 9); (true, 9)] ltac:(done)) as ((new & p' & H & Hn & _) & _).
  - by repeat (apply Forall_cons; split; [done|]).
  - by exists new, p'.
Defined.

Lemma session_counters_accepted_witness :
  ∃ p', deliver UnicastSession (pair false <$> [11; 13]) (SetCounter kInitialSyncValue NotSynced) = Some ([11; 13], p').
Proof.
  refine (proj2 (proj2 (session_counters_accepted 10 3 [11; 13] false NotSynced ltac:(done) _))).
  vm_compute. repeat constructor.
Defined.
End PeerDemo.
