(* ===== verification/GroupCounters.v ===== *)
(** * GroupCounters: the counters of group messages

    [src/src/transport/GroupPeerMessageCounter.cpp]: the counters a node puts into
    the group messages it sends, kept ahead in persistent storage, and the table of
    the counters of the peers whose group messages it receives; with their uses in
    [src/src/transport/SessionManager.cpp].

    The storage delegate the outgoing counters point to is part of their state.  A
    pointer into the table of peers is a position in it.  [None] is an access
    outside a buffer or an array. *)
From S2P Require Import Prelude ChipError Persistence PeerCounter.

(** ** Outgoing counters *)
Definition GroupControlCounter : string := "g/gcc".
Definition GroupDataCounter : string := "g/gdc".
Definition GROUP_MSG_COUNTER_MIN_INCREMENT : Z := 1000.

Record GroupOutgoingCounters (D : Type) := {
  mGroupDataCounter : Z;
  mGroupControlCounter : Z;
  counters_mStorage : option D }.
#[global] Arguments mGroupDataCounter {D} _.
#[global] Arguments mGroupControlCounter {D} _.
#[global] Arguments counters_mStorage {D} _.
#[export] Instance eta_counters {D} : Eta (GroupOutgoingCounters D) := fun s =>
  {| mGroupDataCounter := mGroupDataCounter s; mGroupControlCounter := mGroupControlCounter s;
     counters_mStorage := counters_mStorage s |}.

Section outgoing.
Context {D : Type} `{PersistentStorageDelegate D}.
Implicit Types s : GroupOutgoingCounters D.

(** Reads and writes of a [uint32_t] in a variable. *)
Definition get_u32 (d : D) (key : string) (temp size : Z) : option (CHIP_ERROR * Z * Z) :=
  let! r := SyncGetKeyValue d key (Some (le_bytes 4 temp)) size in
  match r with (err, buf, size) => let! b := buf in Some (err, le_val b, size) end.
Definition set_u32 (key : string) (temp : Z) s : option (CHIP_ERROR * GroupOutgoingCounters D) :=
  let! d := counters_mStorage s in
  let! r := SyncSetKeyValue d key (Some (le_bytes 4 temp)) 4 in
  Some (fst r, s <| counters_mStorage := Some (snd r) |>).

(** What [Init] makes of a read: the counter, or the error it returns. *)
Definition initial_counter (err : CHIP_ERROR) (temp rand : Z) : CHIP_ERROR + Z :=
  match err with
  | CHIP_ERROR_PERSISTED_STORAGE_VALUE_NOT_FOUND => inr (u32 (Z.land rand kMessageCounterRandomInitMask + 1))
  | CHIP_NO_ERROR => inr temp
  | err => inl err
  end.

(** [temp] is what the variable holds before it is first read into; the two
    random numbers are those [GetRandU32] would return. *)
Definition Init (storage_delegate : option D) (rand1 rand2 temp : Z) s : option (CHIP_ERROR * GroupOutgoingCounters D) :=
  match storage_delegate with
  | None => Some (CHIP_ERROR_INVALID_ARGUMENT, s)
  | Some d =>
      let s := s <| counters_mStorage := Some d |> in
      let! r := get_u32 d GroupControlCounter temp 4 in
      match r with (err, temp, size) =>
      match initial_counter err temp rand1 with
      | inl err => Some (err, s)
      | inr control =>
          let s := s <| mGroupControlCounter := control |> in
          let! r := get_u32 d GroupDataCounter temp size in
          match r with (err, temp, _) =>
          match initial_counter err temp rand2 with
          | inl err => Some (err, s)
          | inr data =>
              let s := s <| mGroupDataCounter := data |> in
              let! r := set_u32 GroupControlCounter (u32 (control + GROUP_MSG_COUNTER_MIN_INCREMENT)) s in
              match r with
              | (CHIP_NO_ERROR, s) => set_u32 GroupDataCounter (u32 (data + GROUP_MSG_COUNTER_MIN_INCREMENT)) s
              | (err, s) => Some (err, s)
              end
          end end
      end end
  end.

Definition GetCounter (isControl : bool) s : Z := if isControl then mGroupControlCounter s else mGroupDataCounter s.
Definition counter_key (isControl : bool) : string := if isControl then GroupControlCounter else GroupDataCounter.

Definition IncrementCounter (isControl : bool) s : option (CHIP_ERROR * GroupOutgoingCounters D) :=
  let value := u32 (GetCounter isControl s + 1) in
  let s := if isControl then s <| mGroupControlCounter := value |> else s <| mGroupDataCounter := value |> in
  let key := counter_key isControl in
  match counters_mStorage s with
  | None => Some (CHIP_ERROR_PERSISTED_STORAGE_VALUE_NOT_FOUND, s)
  | Some d =>
      let! r := get_u32 d key 0 4 in
      match r with
      | (CHIP_NO_ERROR, temp, _) =>
          if temp =? value then set_u32 key (u32 (value + GROUP_MSG_COUNTER_MIN_INCREMENT)) s else Some (CHIP_NO_ERROR, s)
      | (err, _, _) => Some (err, s)
      end
  end.

(** [PrepareMessage] for a group session: the counter of the message; the error
    of the increment is dropped there, and kept here for the theorems. *)
Definition PrepareGroupMessage (isControlMsg : bool) s : option (Z * CHIP_ERROR * GroupOutgoingCounters D) :=
  let! r := IncrementCounter isControlMsg s in Some (GetCounter isControlMsg s, fst r, snd r).

(** ** Life of a node: messages and restarts *)
Inductive node_event := SendGroup (isControl : bool) | Restart (rand1 rand2 temp data control : Z).

(** The counter used, if any, and the error. *)
Definition node_step (e : node_event) s : option (option (bool * Z) * CHIP_ERROR * GroupOutgoingCounters D) :=
  match e with
  | SendGroup isControl =>
      let! r := PrepareGroupMessage isControl s in
      match r with (c, err, s) => Some (Some (isControl, c), err, s) end
  | Restart rand1 rand2 temp data control =>
      let! r := Init (counters_mStorage s) rand1 rand2 temp
        {| mGroupDataCounter := data; mGroupControlCounter := control; counters_mStorage := None |} in
      Some (None, fst r, snd r)
  end.
Fixpoint node_run (es : list node_event) s : option (list (bool * Z) * list CHIP_ERROR * GroupOutgoingCounters D) :=
  match es with
  | [] => Some ([], [], s)
  | e :: es =>
      let! r := node_step e s in
      match r with (c, err, s) =>
      let! rest := node_run es s in
      match rest with (cs, errs, s) => Some (option_list c ++ cs, err :: errs, s) end end
  end.
End outgoing.

(** The counters of one kind, in the order of their use. *)
Definition used (isControl : bool) (cs : list (bool * Z)) : list Z :=
  snd <$> filter (fun c => fst c = isControl) cs.

(** ** No counter is used twice *)
Section no_reuse.
Context {D : Type} `{PersistentStorageLaws D}.
Implicit Types s : GroupOutgoingCounters D.

(** The storage holds [v] for [key]. *)
Definition stored (d : D) (key : string) (v : Z) : Prop := ∀ temp, get_u32 d key temp 4 = Some (CHIP_NO_ERROR, v, 4).

Lemma set_u32_spec key temp s s' : in_u 32 temp → set_u32 key temp s = Some (CHIP_NO_ERROR, s') →
  ∃ d d', counters_mStorage s = Some d ∧ s' = s <| counters_mStorage := Some d' |> ∧ stored d' key temp ∧
    ∀ key', key ≠ key' → ∀ buf size, SyncGetKeyValue d' key' buf size = SyncGetKeyValue d key' buf size.
Proof.
  intros Ht. unfold set_u32. let_step d Hd. let_step [err d'] Hset. cbn. intros [= -> <-].
  exists d, d'. split_and!; [done..| |].
  - intros temp'. unfold get_u32.
    replace 4 with (Z.of_nat (length (le_bytes 4 temp'))) at 2 by (by rewrite length_le_bytes).
    rewrite (psd_get_set d key (le_bytes 4 temp) d' (le_bytes 4 temp')); [|done|done|by rewrite !length_le_bytes|by rewrite length_le_bytes].
    rewrite drop_ge by (by rewrite !length_le_bytes). rewrite app_nil_r, length_le_bytes.
    rewrite le_val_bytes; [done|]. exact Ht.
  - intros key' Hne buf size. by eapply psd_get_set_ne.
Qed.

Lemma stored_framed d d' key v : (∀ buf size, SyncGetKeyValue d' key buf size = SyncGetKeyValue d key buf size) →
  stored d key v → stored d' key v.
Proof. intros Hf Hs temp. unfold get_u32. rewrite Hf. apply Hs. Qed.

(** [ahead s isControl v k]: the counter stands for the unbounded [v], and the
    storage is ahead of it by [k], at least 1 and at most 1000. *)
Definition ahead s (isControl : bool) (v : Z) : Prop :=
  GetCounter isControl s = u32 v ∧
  ∃ d k, counters_mStorage s = Some d ∧ 1 ≤ k ≤ GROUP_MSG_COUNTER_MIN_INCREMENT ∧
    stored d (counter_key isControl) (u32 (v + k)).

Lemma counter_key_ne b : counter_key b ≠ counter_key (negb b).
Proof. by destruct b. Qed.

Lemma u32_add a b : u32 (u32 a + b) = u32 (a + b).
Proof. by apply wrap_add_l. Qed.

Lemma u32_range a : in_u 32 (u32 a).
Proof. by apply wrap_range. Qed.

Lemma u32_eq_near a k : 0 ≤ k < 2 ^ 32 → u32 (a + k) = u32 a ↔ k = 0.
Proof. intros Hk. change (2 ^ 32) with 4294967296 in Hk. unfold wrap. change (2 ^ 32) with 4294967296. Z.div_mod_to_equations. lia. Qed.

Lemma increment_spec b s v s' : ahead s b v → IncrementCounter b s = Some (CHIP_NO_ERROR, s') →
  ahead s' b (v + 1) ∧ GetCounter (negb b) s' = GetCounter (negb b) s ∧
  ∀ w, ahead s (negb b) w → ahead s' (negb b) w.
Proof.
  intros (Hv & d & k & Hd & Hk & Hst). unfold IncrementCounter. rewrite Hv, u32_add.
  set (s1 := if b then _ else _).
  assert (counters_mStorage s1 = Some d ∧ GetCounter b s1 = u32 (v + 1) ∧ GetCounter (negb b) s1 = GetCounter (negb b) s)
    as (Hd1 & Hb1 & Hn1) by (by destruct b). clearbody s1. rewrite Hd1, Hst.
  assert (u32 (v + k) = u32 (v + 1) ↔ k = 1) as Hkk.
  { replace (v + k) with (v + 1 + (k - 1)) by lia. rewrite u32_eq_near; [lia|].
    unfold GROUP_MSG_COUNTER_MIN_INCREMENT in Hk. change (2 ^ 32) with 4294967296. lia. }
  destruct (Z.eqb_spec (u32 (v + k)) (u32 (v + 1))) as [E|E].
  - rewrite u32_add. intros Hset. apply set_u32_spec in Hset as (d1 & d2 & E1 & -> & Hs2 & Hframe); [|apply u32_range].
    rewrite Hd1 in E1. injection E1 as <-. split_and!.
    + split; [by destruct b|]. eexists _, GROUP_MSG_COUNTER_MIN_INCREMENT. split_and!; [done|done|done|exact Hs2].
    + rewrite <- Hn1. by destruct b.
    + intros w (Hw & d0 & k0 & Hd0 & Hk0 & Hs0). rewrite Hd in Hd0. injection Hd0 as <-.
      split; [rewrite <- Hw, <- Hn1; by destruct b|]. eexists _, k0. split_and!; [done|lia..|].
      eapply stored_framed; [|done]. apply Hframe, counter_key_ne.
  - intros [= <-]. split_and!; [|done|].
    + split; [done|]. exists d, (k - 1). split_and!; [done|lia..|]. by replace (v + 1 + (k - 1)) with (v + k) by lia.
    + intros w (Hw & d0 & k0 & Hd0 & Hk0 & Hs0). split; [by rewrite Hn1|]. exists d, k0. split_and!; [done|lia..|]. congruence.
Qed.

Lemma initial_cases err temp rand x : initial_counter err temp rand = inr x → in_u 32 temp → in_u 32 x ∧ (err = CHIP_NO_ERROR → x = temp).
Proof. destruct err; cbn; intros [= <-] ?; (split; [done || apply u32_range|done]). Qed.

Lemma init_ok (d : D) rand1 rand2 temp s s' : Init (Some d) rand1 rand2 temp s = Some (CHIP_NO_ERROR, s') →
  ∃ e1 t1 n1 e2 t2 n2, get_u32 d GroupControlCounter temp 4 = Some (e1, t1, n1) ∧
    get_u32 d GroupDataCounter t1 n1 = Some (e2, t2, n2) ∧
    initial_counter e1 t1 rand1 = inr (GetCounter true s') ∧ initial_counter e2 t2 rand2 = inr (GetCounter false s') ∧
    ∃ d', counters_mStorage s' = Some d' ∧
      ∀ b, stored d' (counter_key b) (u32 (GetCounter b s' + GROUP_MSG_COUNTER_MIN_INCREMENT)).
Proof.
  cbn [Init]. let_step [[e1 t1] n1] E1. destruct (initial_counter e1 t1 rand1) as [|control] eqn:I1;
    [intros [= -> _]; by destruct e1|].
  let_step [[e2 t2] n2] E2. destruct (initial_counter e2 t2 rand2) as [|data] eqn:I2;
    [intros [= -> _]; by destruct e2|].
  let_step [e3 s3] E3. destruct e3; try discriminate. intros E4.
  apply set_u32_spec in E3 as (d0 & d3 & Hd0 & -> & Hs3 & _); [|apply u32_range].
  apply set_u32_spec in E4 as (d4 & d5 & Hd4 & -> & Hs5 & Hf); [|apply u32_range].
  cbn in Hd0, Hd4. injection Hd0 as <-. injection Hd4 as <-.
  exists e1, t1, n1, e2, t2, n2. split_and!; [done..|]. exists d5. split; [done|].
  intros []; [|exact Hs5]. eapply stored_framed; [|exact Hs3]. by apply Hf.
Qed.

Lemma init_ahead (d : D) rand1 rand2 temp s s' : Init (Some d) rand1 rand2 temp s = Some (CHIP_NO_ERROR, s') →
  (∀ b, in_u 32 (GetCounter b s')) → ∀ b, ahead s' b (GetCounter b s').
Proof.
  intros (e1 & t1 & n1 & e2 & t2 & n2 & _ & _ & _ & _ & d' & Hd & Hst)%init_ok Hr b.
  split; [symmetry; by apply wrap_small|]. by exists d', GROUP_MSG_COUNTER_MIN_INCREMENT.
Qed.

(** After a restart the counters are what the storage held. *)
Lemma restart_ahead s rand1 rand2 temp s0 s' v :
  Init (counters_mStorage s) rand1 rand2 temp s0 = Some (CHIP_NO_ERROR, s') → (∀ b, ahead s b (v b)) →
  ∃ k : bool → Z, (∀ b, 1 ≤ k b ≤ GROUP_MSG_COUNTER_MIN_INCREMENT) ∧ ∀ b, ahead s' b (v b + k b).
Proof.
  intros Hi Ha. destruct (Ha true) as (_ & d & k1 & Hd & Hk1 & Hs1). destruct (Ha false) as (_ & d0 & k2 & Hd0 & Hk2 & Hs2).
  rewrite Hd in Hd0, Hi. injection Hd0 as <-.
  exists (fun b : bool => if b then k1 else k2). split; [by intros []|].
  apply init_ok in Hi as (e1 & t1 & n1 & e2 & t2 & n2 & E1 & E2 & I1 & I2 & d' & Hd' & Hst).
  rewrite (Hs1 temp : get_u32 d GroupControlCounter temp 4 = _) in E1. injection E1 as <- <- <-.
  rewrite (Hs2 _ : get_u32 d GroupDataCounter _ 4 = _) in E2. injection E2 as <- <- <-.
  assert (∀ b, GetCounter b s' = u32 (v b + if b then k1 else k2)) as Hg.
  { intros []; [by injection I1|by injection I2]. }
  intros b. split; [apply Hg|]. exists d', GROUP_MSG_COUNTER_MIN_INCREMENT. split_and!; [done|done|done|].
  specialize (Hst b). by rewrite Hg, u32_add in Hst.
Qed.

Lemma used_cons b c cs : used b (option_list c ++ cs) = (match c with Some (b', x) => if decide (b' = b) then [x] else [] | None => [] end) ++ used b cs.
Proof. destruct c as [[b' x]|]; [|done]. unfold used. change (option_list _ ++ cs) with ((b', x) :: cs). rewrite filter_cons. cbn [fst]. repeat case_decide; done. Qed.

Lemma node_run_fresh es s v cs errs s' : (∀ b, ahead s b (v b)) → node_run es s = Some (cs, errs, s') →
  Forall (eq CHIP_NO_ERROR) errs → ∀ b, ∃ l, used b cs = u32 <$> l ∧ NoDup l ∧
    Forall (fun a => v b ≤ a < v b + GROUP_MSG_COUNTER_MIN_INCREMENT * Z.of_nat (length es)) l.
Proof.
  revert s v cs errs. induction es as [|e es IH]; intros s v cs errs Ha; cbn [node_run].
  { intros [= <- <- <-] _ b. exists []. split_and!; by constructor. }
  let_step [[c err] s1] Hstep. let_step [[cs1 errs1] s2] Hrun. intros [= <- <- <-] Herr0 b. apply Forall_cons in Herr0 as [<- Herr].
  assert (∃ v1, (∀ b, ahead s1 b (v1 b)) ∧ v b ≤ v1 b ≤ v b + GROUP_MSG_COUNTER_MIN_INCREMENT ∧
    match c with Some (b', x) => b' = b → x = u32 (v b) ∧ v b < v1 b | None => True end) as (v1 & Ha1 & Hv1 & Hc).
  { destruct e as [b'|rand1 rand2 temp data control]; cbn [node_step] in Hstep.
    - revert Hstep. let_step [[c0 e0] s0] Hp. intros [= <- -> <-]. revert Hp. unfold PrepareGroupMessage.
      let_step [e1 s3] Hi. cbn [fst snd]. intros [= <- -> <-].
      destruct (Ha b') as [Hb' _]. destruct (increment_spec _ _ _ _ (Ha b') Hi) as (H1 & _ & H2).
      exists (fun x => if decide (x = b') then v b' + 1 else v x). split_and!.
      + intros x. case_decide as Hx; [by subst|]. replace x with (negb b') by (by destruct x, b'). by apply H2.
      + case_decide; subst; unfold GROUP_MSG_COUNTER_MIN_INCREMENT; lia.
      + case_decide; subst; unfold GROUP_MSG_COUNTER_MIN_INCREMENT; lia.
      + intros <-. rewrite decide_True by done. split; [done|lia].
    - revert Hstep. let_step [err s0] Hi. cbn [fst snd]. intros [= <- -> <-].
      destruct (restart_ahead _ _ _ _ _ _ _ Hi Ha) as (k & Hk & Ha1). exists (fun x => v x + k x).
      split_and!; [exact Ha1| | |done]; specialize (Hk b); lia. }
  destruct (IH _ _ _ _ Ha1 Hrun Herr b) as (l & Hu & Hnd & Hl). rewrite used_cons, Hu.
  assert (Forall (fun a => v b ≤ a < v b + GROUP_MSG_COUNTER_MIN_INCREMENT * Z.of_nat (length (e :: es))) l) as Hl'.
  { eapply Forall_impl; [exact Hl|]. cbn [length]. intros a. lia. }
  destruct c as [[b' x]|]; [|by exists l]. case_decide as Hb; [|by exists l].
  destruct (Hc Hb) as [-> Hlt]. exists (v b :: l). split_and!; [done| |].
  - constructor; [|done]. intros Hin. rewrite Forall_forall in Hl. apply Hl in Hin. lia.
  - constructor; [|done]. unfold GROUP_MSG_COUNTER_MIN_INCREMENT. cbn [length]. lia.
Qed.

(** C11: No group message counter is used twice, across restarts.  A node whose
    counters were initialised without an error, and which then sends group
    messages and restarts in any order, uses pairwise distinct control counters
    and pairwise distinct data counters, wrap-around included, as long as every
    access to the storage succeeds and it makes fewer than 2^32 / 1000 steps. *)
Theorem group_counters_not_reused (d : D) rand1 rand2 temp s0 s es cs errs s' isControl :
  Init (Some d) rand1 rand2 temp s0 = Some (CHIP_NO_ERROR, s) → (∀ b, in_u 32 (GetCounter b s)) →
  node_run es s = Some (cs, errs, s') → Forall (eq CHIP_NO_ERROR) errs →
  GROUP_MSG_COUNTER_MIN_INCREMENT * Z.of_nat (length es) ≤ 2 ^ 32 →
  NoDup (used isControl cs).
Proof.
  intros Hi Hr Hrun Herr Hn.
  destruct (node_run_fresh _ _ _ _ _ _ (init_ahead _ _ _ _ _ _ Hi Hr) Hrun Herr isControl) as (l & -> & Hnd & Hl).
  apply NoDup_fmap_2_strong; [|done]. rewrite Forall_forall in Hl. intros x y Hx%Hl Hy%Hl E.
  destruct (Z.le_ge_cases x y) as [Hxy|Hxy].
  - replace y with (x + (y - x)) in E by lia. symmetry in E. apply u32_eq_near in E; lia.
  - replace x with (y + (x - y)) in E by lia. apply u32_eq_near in E; lia.
Qed.
End no_reuse.

(** One failed write undoes the protection.  If the write that moves the stored
    counter ahead fails and leaves the storage as it was, the node goes on: the
    next increment reports success without writing, because it only writes when
    the two values are equal; after a restart the node uses again a counter it has
    used before. *)
Theorem failed_write_reuses {D} `{PersistentStorageLaws D} (s : GroupOutgoingCounters D) (d d' : D) b v w err :
  GetCounter b s = u32 v → counters_mStorage s = Some d →
  stored d (counter_key b) (u32 (v + 1)) → stored d (counter_key (negb b)) w →
  SyncSetKeyValue d (counter_key b) (Some (le_bytes 4 (u32 (v + 1 + GROUP_MSG_COUNTER_MIN_INCREMENT)))) 4 = Some (err, d') →
  (∀ key buf size, SyncGetKeyValue d' key buf size = SyncGetKeyValue d key buf size) →
  ∃ s1 s2, PrepareGroupMessage b s = Some (u32 v, err, s1) ∧
    PrepareGroupMessage b s1 = Some (u32 (v + 1), CHIP_NO_ERROR, s2) ∧
    ∀ rand1 rand2 temp s0 s3, Init (counters_mStorage s2) rand1 rand2 temp s0 = Some (CHIP_NO_ERROR, s3) →
      GetCounter b s3 = u32 (v + 1).
Proof.
  intros Hv Hd Hs Hw Hset Hget. unfold PrepareGroupMessage, IncrementCounter. rewrite Hv, u32_add.
  set (s1 := if b then _ else _). assert (counters_mStorage s1 = Some d ∧ GetCounter b s1 = u32 (v + 1)) as (Hd1 & Hb1) by (by destruct b).
  clearbody s1. rewrite Hd1, Hs, Z.eqb_refl. unfold set_u32. rewrite Hd1, u32_add, Hset. cbn [fst snd].
  set (s2 := s1 <| counters_mStorage := Some d' |>).
  assert (GetCounter b s2 = u32 (v + 1)) as Hb2 by (rewrite <- Hb1; by destruct b).
  assert (∀ key x, stored d key x → stored d' key x) as Hst by (intros key x; by apply stored_framed).
  exists s2. rewrite Hb2, u32_add. set (s3 := if b then _ else _). exists s3.
  assert (counters_mStorage s3 = Some d') as Hd3 by (by destruct b). rewrite Hd3, (Hst _ _ Hs).
  replace (u32 (v + 1) =? u32 (v + 1 + 1)) with false.
  2: { symmetry. apply Z.eqb_neq. intros E. symmetry in E. by apply u32_eq_near in E. }
  split_and!; [done..|]. intros rand1 rand2 temp s0 s4 Hi.
  apply init_ok in Hi as (e1 & t1 & n1 & e2 & t2 & n2 & E1 & E2 & I1 & I2 & _).
  assert (∀ b', stored d' (counter_key b') (if decide (b' = b) then u32 (v + 1) else w)) as Hall.
  { intros b'. case_decide as Hb; [subst; by apply Hst|]. replace b' with (negb b) by (by destruct b, b'). by apply Hst. }
  rewrite (Hall true temp : get_u32 d' GroupControlCounter temp 4 = _) in E1. injection E1 as <- <- <-.
  rewrite (Hall false _ : get_u32 d' GroupDataCounter _ 4 = _) in E2. injection E2 as <- <- <-.
  destruct b; cbn [GetCounter]; [injection I1 as <-|injection I2 as <-]; done.
Qed.

(** ** Concrete runs *)
Module OutgoingDemo.
Import FlashDemo.
(** A flash whose next write fails when the flag is set. *)
Record flaky := { content : gmap string bytes; fails : bool }.
#[export] Instance flaky_flash : EasyFlash flaky := {|
  ef_get_env f k := content f !! k;
  ef_set_env_blob f k v :=
    if fails f then (false, {| content := content f; fails := false |})
    else (true, {| content := <[k := v]> (content f); fails := false |});
  ef_del_env f k := (true, {| content := delete k (content f); fails := fails f |});
  ef_env_set_default f := {| content := ∅; fails := fails f |} |}.

#[export] Instance flaky_flash_laws : EasyFlashLaws flaky.
Proof.
  split; cbn.
  - intros f k v f'. case_match; intros [= <-]. apply lookup_insert_eq.
  - intros f k v b f' k'. case_match; intros [= <- <-] Hne; [done|]. by apply lookup_insert_ne.
  - intros f k f' [= <-]. apply lookup_delete_eq.
  - intros f k b f' k' [= <- <-] Hne. by apply lookup_delete_ne.
Qed.

Definition fresh_node {F} : GroupOutgoingCounters (KvsPersistentStorageDelegate F) :=
  {| mGroupDataCounter := 0; mGroupControlCounter := 0; counters_mStorage := None |}.
Definition empty_flash : KvsPersistentStorageDelegate (gmap string bytes) := {| mKvsManager := Some ∅ |}.
Definition days : list node_event :=
  [SendGroup false; SendGroup true; SendGroup false; Restart 77 78 0 1 2; SendGroup false; SendGroup true].

Example node_days : ∃ s errs s', Init (Some empty_flash) 5 41 0 fresh_node = Some (CHIP_NO_ERROR, s) ∧
  node_run days s = Some ([(false, 42); (true, 6); (false, 43); (false, 1042); (true, 1006)], errs, s') ∧
  Forall (eq CHIP_NO_ERROR) errs.
Proof. eexists _, _, _. split_and!; [vm_compute; reflexivity|vm_compute; reflexivity|repeat constructor]. Qed.

Lemma group_counters_not_reused_witness : NoDup (used false [(false, 42); (true, 6); (false, 43); (false, 1042); (true, 1006)]).
Proof.
  eapply (group_counters_not_reused empty_flash 5 41 0 fresh_node _ days _ _ _ false).
  - vm_compute. reflexivity.
  - intros []; vm_compute; repeat split; discriminate.
  - vm_compute. reflexivity.
  - repeat constructor.
  - vm_compute. discriminate.
Defined.

Definition worn_flash (b : bool) : KvsPersistentStorageDelegate flaky :=
  {| mKvsManager := Some {| content := {[ "g/gcc" := le_bytes 4 50; "g/gdc" := le_bytes 4 1008 ]}; fails := b |} |}.

Lemma failed_write_reuses_witness : ∃ s1 s2,
  PrepareGroupMessage false {| mGroupDataCounter := 1007; mGroupControlCounter := 49; counters_mStorage := Some (worn_flash true) |} =
    Some (1007, CHIP_ERROR_PERSISTED_STORAGE_FAILED, s1) ∧
  PrepareGroupMessage false s1 = Some (1008, CHIP_NO_ERROR, s2) ∧
  ∀ rand1 rand2 temp s0 s3, Init (counters_mStorage s2) rand1 rand2 temp s0 = Some (CHIP_NO_ERROR, s3) → GetCounter false s3 = 1008.
Proof.
  assert (∀ key (v : Z), ef_get_env {| content := {[ "g/gcc" := le_bytes 4 50; "g/gdc" := le_bytes 4 1008 ]}; fails := true |} key = Some (le_bytes 4 v) →
    in_u 32 v → stored (worn_flash true) key v) as Hst.
  { intros key v Hk Hv temp. unfold get_u32. cbn [SyncGetKeyValue kvs_delegate kvs_SyncGet worn_flash mKvsManager].
    unfold kvs_Get, ReadKVS. rewrite Hk. rewrite length_le_bytes. cbn -[le_bytes le_val ef_port_read].
    change (Z.of_nat 4 <? 0) with false. change (if Z.of_nat 4 - 0 <? 4 then Z.of_nat 4 - 0 else 4) with 4. cbv iota.
    rewrite (port_read_all (le_bytes 4 v) (le_bytes 4 temp) 4) by (by rewrite !length_le_bytes).
    cbn -[le_bytes le_val]. rewrite drop_ge by (by rewrite !length_le_bytes). rewrite app_nil_r, le_val_bytes by exact Hv. done. }
  refine (failed_write_reuses _ (worn_flash true) (worn_flash false) false 1007 50 _ _ _ _ _ _ _).
  - reflexivity.
  - reflexivity.
  - apply Hst; [reflexivity|done].
  - apply Hst; [reflexivity|done].
  - vm_compute. reflexivity.
  - reflexivity.
Defined.
End OutgoingDemo.
