(* ===== verification/NodeId.v ===== *)
(** * NodeId: identifiers of nodes, groups and authentication tags

    [src/src/lib/core/NodeId.h], [GroupId.h], [CASEAuthTag.h] and the identifiers of
    [DataModelTypes.h]: the ranges the 64-bit node identifiers are carved into, and
    the tags a certificate may carry.

    The array of tags of a subject is a list. *)
From S2P Require Import Prelude.

Definition CHIP_CONFIG_MAX_FABRICS : nat := 6.
Definition kUndefinedFabricIndex : Z := 0.
Definition kUndefinedNodeId : Z := 0.
Definition kUndefinedGroupId : Z := 0.
Definition kMinGroupNodeId : Z := 0xFFFFFFFFFFFF0000.
Definition kMaskGroupId : Z := 0xFFFF.
Definition kMinCASEAuthTag : Z := 0xFFFFFFFD00000000.
Definition kMaxCASEAuthTag : Z := 0xFFFFFFFDFFFFFFFF.
Definition kMaskCASEAuthTag : Z := 0xFFFFFFFF.
Definition kMinPAKEKeyId : Z := 0xFFFFFFFB00000000.
Definition kMaxPAKEKeyId : Z := 0xFFFFFFFBFFFFFFFF.
Definition kMaskPAKEKeyId : Z := 0xFFFF.
Definition kMaxOperationalNodeId : Z := 0xFFFFFFEFFFFFFFFF.

(** ** Ranges *)
Definition IsOperationalNodeId (aNodeId : Z) : bool := negb (aNodeId =? kUndefinedNodeId) && (aNodeId <=? kMaxOperationalNodeId).
Definition IsGroupId (aNodeId : Z) : bool := kMinGroupNodeId <=? aNodeId.
Definition IsCASEAuthTag (aNodeId : Z) : bool := (kMinCASEAuthTag <=? aNodeId) && (aNodeId <=? kMaxCASEAuthTag).
Definition IsPAKEKeyId (aNodeId : Z) : bool := (kMinPAKEKeyId <=? aNodeId) && (aNodeId <=? kMaxPAKEKeyId).
Definition NodeIdFromGroupId (aGroupId : Z) : Z := Z.lor kMinGroupNodeId aGroupId.
Definition GroupIdFromNodeId (aNodeId : Z) : Z := u16 (Z.land aNodeId kMaskGroupId).
Definition NodeIdFromPAKEKeyId (aPAKEKeyId : Z) : Z := Z.lor kMinPAKEKeyId aPAKEKeyId.
Definition PAKEKeyIdFromNodeId (aNodeId : Z) : Z := u16 (Z.land aNodeId kMaskPAKEKeyId).
Definition IsValidGroupId (aGroupId : Z) : bool := negb (aGroupId =? kUndefinedGroupId).

(** ** Identifiers with a vendor prefix *)
Definition ExtractIdFromMEI (aMEI : Z) : Z := u16 (Z.land aMEI 0xFFFF).
Definition ExtractVendorFromMEI (aMEI : Z) : Z := u16 (Z.shiftr (Z.land aMEI 0xFFFF0000) 16).
Definition IsValidClusterId (aClusterId : Z) : bool :=
  let id := ExtractIdFromMEI aClusterId in
  let vendor := ExtractVendorFromMEI aClusterId in
  (vendor =? 0) && (id <=? 0x7FFF) || (1 <=? vendor) && (vendor <=? 0xFFFE) && (0xFC00 <=? id) && (id <=? 0xFFFE).
Definition IsValidDeviceTypeId (aDeviceTypeId : Z) : bool :=
  let id := Z.land aDeviceTypeId 0xFFFF in
  let vendor := Z.land aDeviceTypeId 0xFFFF0000 in
  (vendor <=? 0xFFFE0000) && (id <=? 0xBFFF).

(** ** Authentication tags *)
Definition kUndefinedCAT : Z := 0.
Definition kTagIdentifierMask : Z := 0xFFFF0000.
Definition kTagIdentifierShift : Z := 16.
Definition kTagVersionMask : Z := 0xFFFF.
Definition kMaxSubjectCATAttributeCount : nat := 3.

Definition NodeIdFromCASEAuthTag (aCAT : Z) : Z := Z.lor kMinCASEAuthTag aCAT.
Definition CASEAuthTagFromNodeId (aNodeId : Z) : Z := u32 (Z.land aNodeId kMaskCASEAuthTag).
Definition IsValidCASEAuthTag (aCAT : Z) : bool := 0 <? Z.land aCAT kTagVersionMask.
Definition GetCASEAuthTagIdentifier (aCAT : Z) : Z := u16 (Z.shiftr (Z.land aCAT kTagIdentifierMask) kTagIdentifierShift).
Definition GetCASEAuthTagVersion (aCAT : Z) : Z := u16 (Z.land aCAT kTagVersionMask).

Abbreviation CATValues := (list Z).
Definition GetNumTagsPresent (values : CATValues) : nat := length (filter (fun cat => cat ≠ kUndefinedCAT) values).
Definition cats_Contains (values : CATValues) (tag : Z) : bool :=
  existsb (fun candidate => negb (candidate =? kUndefinedCAT) && (candidate =? tag)) values.
Definition ContainsIdentifier (values : CATValues) (identifier : Z) : bool :=
  existsb (fun candidate => negb (candidate =? kUndefinedCAT) && (identifier =? GetCASEAuthTagIdentifier candidate)) values.
(** The tag at [idx] is empty, or has a version and an identifier of its own. *)
Definition tag_valid (values : CATValues) (idx : nat) (candidate : Z) : bool :=
  (candidate =? kUndefinedCAT) ||
  (IsValidCASEAuthTag candidate &&
   forallb (fun other_idx =>
     (idx =? other_idx)%nat ||
     match values !! other_idx with
     | Some other => (other =? kUndefinedCAT) || negb (GetCASEAuthTagIdentifier other =? GetCASEAuthTagIdentifier candidate)
     | None => true
     end) (seq 0 (length values))).
Definition AreValid (values : CATValues) : bool :=
  forallb (fun idx => match values !! idx with Some candidate => tag_valid values idx candidate | None => true end)
    (seq 0 (length values)).
Definition CheckSubjectAgainstCATs (values : CATValues) (subject : Z) : bool :=
  if negb (IsCASEAuthTag subject) then false
  else
    let catFromSubject := CASEAuthTagFromNodeId subject in
    existsb (fun catFromNoc =>
      negb (catFromNoc =? kUndefinedCAT) &&
      (GetCASEAuthTagIdentifier catFromNoc =? GetCASEAuthTagIdentifier catFromSubject) &&
      (0 <? GetCASEAuthTagVersion catFromSubject) &&
      (GetCASEAuthTagVersion catFromSubject <=? GetCASEAuthTagVersion catFromNoc)) values.
Definition cats_eqb (values other : CATValues) : bool :=
  if negb (GetNumTagsPresent values =? GetNumTagsPresent other)%nat then false
  else if negb (AreValid values) || negb (AreValid other) then false
  else forallb (fun cat => (cat =? kUndefinedCAT) || cats_Contains other cat) values.
Definition cats_Serialize (values : CATValues) : bytes := values ≫= le_bytes 4.
Fixpoint cats_Deserialize (n : nat) (inSerialized : bytes) : CATValues :=
  match n with
  | O => []
  | S n => le_val (take 4 inSerialized) :: cats_Deserialize n (drop 4 inSerialized)
  end.

(** ** The parts of a tag *)
Lemma cat_identifier c : in_u 32 c → GetCASEAuthTagIdentifier c = c / 2 ^ 16.
Proof.
  intros Hc. unfold GetCASEAuthTagIdentifier, kTagIdentifierMask, kTagIdentifierShift.
  rewrite Z.shiftr_land. change (Z.shiftr 0xFFFF0000 16) with (Z.ones 16). rewrite Z.land_ones, Z.shiftr_div_pow2 by lia.
  rewrite wrap_small by (apply Z.mod_pos_bound; lia). apply Z.mod_small.
  unfold in_u in Hc. split; [apply Z.div_pos; lia|apply Z.div_lt_upper_bound; lia].
Qed.

Lemma cat_version c : GetCASEAuthTagVersion c = c mod 2 ^ 16.
Proof.
  unfold GetCASEAuthTagVersion, kTagVersionMask. change 0xFFFF with (Z.ones 16). rewrite Z.land_ones by lia.
  apply wrap_small, Z.mod_pos_bound. lia.
Qed.

Lemma cat_ext c d : in_u 32 c → in_u 32 d → GetCASEAuthTagIdentifier c = GetCASEAuthTagIdentifier d →
  GetCASEAuthTagVersion c = GetCASEAuthTagVersion d → c = d.
Proof. intros Hc Hd. rewrite !cat_identifier, !cat_version by done. intros. pose proof (Z.div_mod c (2 ^ 16)). pose proof (Z.div_mod d (2 ^ 16)). lia. Qed.

Lemma cat_valid_version c : IsValidCASEAuthTag c = (0 <? GetCASEAuthTagVersion c).
Proof.
  unfold IsValidCASEAuthTag. rewrite cat_version. unfold kTagVersionMask. change 0xFFFF with (Z.ones 16). by rewrite Z.land_ones by lia.
Qed.

Lemma node_of_cat c : in_u 32 c → IsCASEAuthTag (NodeIdFromCASEAuthTag c) = true ∧ CASEAuthTagFromNodeId (NodeIdFromCASEAuthTag c) = c.
Proof.
  intros Hc. unfold NodeIdFromCASEAuthTag. change kMinCASEAuthTag with (0xFFFFFFFD * 2 ^ 32). rewrite lor_disjoint by (unfold in_u in Hc; lia).
  unfold IsCASEAuthTag, kMinCASEAuthTag, kMaxCASEAuthTag, CASEAuthTagFromNodeId, kMaskCASEAuthTag. unfold in_u in Hc. split.
  - apply andb_true_iff. split; apply Z.leb_le; lia.
  - change 0xFFFFFFFF with (Z.ones 32). rewrite Z.land_ones, (Z.add_comm (_ * _)), Z.mod_add, (Z.mod_small c) by lia. by apply wrap_small.
Qed.

(** ** Sets of tags *)
Definition present (values : CATValues) (c : Z) : Prop := c ∈ values ∧ c ≠ kUndefinedCAT.

Lemma are_valid_spec values : AreValid values = true ↔
  (∀ c, present values c → 0 < GetCASEAuthTagVersion c) ∧
  (∀ i j c d, values !! i = Some c → values !! j = Some d → c ≠ kUndefinedCAT → d ≠ kUndefinedCAT →
     GetCASEAuthTagIdentifier c = GetCASEAuthTagIdentifier d → i = j).
Proof.
  unfold AreValid. rewrite forallb_forall. split.
  - intros H. assert (∀ i c, values !! i = Some c → c ≠ kUndefinedCAT → IsValidCASEAuthTag c = true ∧
      ∀ j d, values !! j = Some d → d ≠ kUndefinedCAT → GetCASEAuthTagIdentifier d = GetCASEAuthTagIdentifier c → i = j) as K.
    { intros i c Hi Hc. pose proof (lookup_lt_Some _ _ _ Hi) as Hlt. specialize (H i ltac:(apply in_seq; lia)). rewrite Hi in H.
      unfold tag_valid in H. rewrite (proj2 (Z.eqb_neq _ _) Hc) in H. cbn [orb] in H. apply andb_true_iff in H as [Hv Ho].
      split; [done|]. intros j d Hj Hd He. rewrite forallb_forall in Ho. pose proof (lookup_lt_Some _ _ _ Hj).
      specialize (Ho j ltac:(apply in_seq; lia)). rewrite Hj, (proj2 (Z.eqb_neq _ _) Hd), He, Z.eqb_refl, orb_false_r in Ho.
      by apply Nat.eqb_eq. }
    split.
    + intros c [(i & Hi)%list_elem_of_lookup Hc]. destruct (K i c Hi Hc) as [Hv _]. rewrite cat_valid_version in Hv. lia.
    + intros i j c d Hi Hj Hc Hd He. by eapply (K i c Hi Hc).
  - intros [Hv Hu] i _. destruct (values !! i) as [c|] eqn:Hi; [|done]. unfold tag_valid.
    destruct (Z.eqb_spec c kUndefinedCAT) as [|Hc]; [done|]. cbn [orb]. apply andb_true_iff. split.
    + rewrite cat_valid_version. apply Z.ltb_lt, Hv. split; [by eapply list_elem_of_lookup_2|done].
    + apply forallb_forall. intros j _. destruct (Nat.eqb_spec i j) as [|Hne]; [done|]. destruct (values !! j) as [d|] eqn:Hj; [|done].
      destruct (Z.eqb_spec d kUndefinedCAT) as [|Hd]; [done|]. cbn [orb]. apply negb_true_iff, Z.eqb_neq.
      intros He. by eapply Hne, Hu.
Qed.

Lemma cats_contains_spec values c : c ≠ kUndefinedCAT → cats_Contains values c = true ↔ c ∈ values.
Proof.
  intros Hc. unfold cats_Contains. rewrite existsb_exists. setoid_rewrite <- list_elem_of_In. split.
  - intros (d & Hd & H). apply andb_true_iff in H as [_ ->%Z.eqb_eq]. done.
  - intros H. exists c. split; [done|]. by rewrite Z.eqb_refl, (proj2 (Z.eqb_neq _ _) Hc).
Qed.

Lemma check_cats_spec values subject : IsCASEAuthTag subject = true →
  CheckSubjectAgainstCATs values subject = true ↔
  ∃ c, present values c ∧ GetCASEAuthTagIdentifier c = GetCASEAuthTagIdentifier (CASEAuthTagFromNodeId subject) ∧
    0 < GetCASEAuthTagVersion (CASEAuthTagFromNodeId subject) ≤ GetCASEAuthTagVersion c.
Proof.
  intros Hs. unfold CheckSubjectAgainstCATs. rewrite Hs. cbn [negb]. rewrite existsb_exists. setoid_rewrite <- list_elem_of_In.
  split; intros (c & H); exists c.
  - destruct H as [Hin Hb]. rewrite !andb_true_iff, negb_true_iff, Z.eqb_neq, Z.eqb_eq, Z.ltb_lt, Z.leb_le in Hb. unfold present. tauto.
  - destruct H as ([Hin Hc] & Hid & Hv). split; [done|].
    rewrite !andb_true_iff, negb_true_iff, Z.eqb_neq, Z.eqb_eq, Z.ltb_lt, Z.leb_le. tauto.
Qed.

Definition present_list (values : CATValues) : list Z := filter (fun cat => cat ≠ kUndefinedCAT) values.

Lemma present_list_spec values c : c ∈ present_list values ↔ present values c.
Proof. unfold present_list, present. rewrite list_elem_of_filter. tauto. Qed.

Lemma present_nodup values : AreValid values = true → NoDup (present_list values).
Proof.
  intros [_ Hu]%are_valid_spec. unfold present_list. induction values as [|c values IH]; [constructor|].
  assert (NoDup (filter (fun cat => cat ≠ kUndefinedCAT) values)) as IH'.
  { apply IH. intros i j x y Hi Hj Hx Hy He. enough (S i = S j) by lia. by eapply (Hu (S i) (S j)). }
  rewrite filter_cons. case_decide as Hc; [|done]. constructor; [|done].
  intros [Hd (j & Hj)%list_elem_of_lookup]%list_elem_of_filter. by pose proof (Hu O (S j) c c eq_refl Hj Hc Hc eq_refl).
Qed.

Lemma cats_eqb_spec values other : AreValid values = true → AreValid other = true →
  cats_eqb values other = true ↔ ∀ c, present values c ↔ present other c.
Proof.
  intros Hv Ho. unfold cats_eqb. rewrite Hv, Ho. cbn [negb orb].
  assert (forallb (fun cat => (cat =? kUndefinedCAT) || cats_Contains other cat) values = true ↔ ∀ c, present values c → present other c) as Hsub.
  { rewrite forallb_forall. setoid_rewrite <- list_elem_of_In. split.
    - intros H c [Hin Hc]. specialize (H c Hin). rewrite (proj2 (Z.eqb_neq _ _) Hc) in H. split; [by apply (cats_contains_spec other c Hc)|done].
    - intros H c Hin. destruct (Z.eqb_spec c kUndefinedCAT) as [|Hc]; [done|]. apply cats_contains_spec, H; done. }
  assert (GetNumTagsPresent values = length (present_list values)) as -> by done.
  assert (GetNumTagsPresent other = length (present_list other)) as -> by done.
  pose proof (present_nodup _ Hv) as Nv. pose proof (present_nodup _ Ho) as No.
  setoid_rewrite <- present_list_spec in Hsub. setoid_rewrite <- present_list_spec. destruct (Nat.eqb_spec (length (present_list values)) (length (present_list other))) as [Hl|Hl]; cbn [negb].
  - rewrite Hsub. split; [|naive_solver]. intros H c. split; [apply H|]. intros Hc.
    assert (present_list values ≡ₚ present_list other) as ->; [|done].
    apply submseteq_length_Permutation; [by apply NoDup_submseteq|lia].
  - split; [done|]. intros H. destruct Hl. apply Nat.le_antisymm; apply submseteq_length, NoDup_submseteq; naive_solver.
Qed.

Lemma check_cats_node values c : in_u 32 c → 0 < GetCASEAuthTagVersion c →
  CheckSubjectAgainstCATs values (NodeIdFromCASEAuthTag c) = true ↔
  ∃ d, present values d ∧ GetCASEAuthTagIdentifier d = GetCASEAuthTagIdentifier c ∧ GetCASEAuthTagVersion c ≤ GetCASEAuthTagVersion d.
Proof. intros Hc Hv. destruct (node_of_cat c Hc) as [Hn He]. rewrite check_cats_spec, He by done. naive_solver lia. Qed.

(** The tags of one set are permitted by the other: the best of the two is the same. *)
Lemma same_permissions_sub values other : Forall (in_u 32) values → Forall (in_u 32) other →
  AreValid values = true → AreValid other = true →
  (∀ subject, CheckSubjectAgainstCATs values subject = CheckSubjectAgainstCATs other subject) →
  ∀ c, present values c → present other c.
Proof.
  intros Fv Fo [Hv Uv]%are_valid_spec [Ho Uo]%are_valid_spec H c Hc. rewrite Forall_forall in Fv, Fo.
  pose proof (Fv c (proj1 Hc)) as Wc. pose proof (proj2 (check_cats_node values c Wc (Hv c Hc)) ltac:(exists c; split_and!; [done|done|lia])) as H1.
  rewrite H in H1. apply check_cats_node in H1 as (d & Hd & Hid & Hle); [|done|by apply Hv].
  pose proof (Fo d (proj1 Hd)) as Wd. pose proof (proj2 (check_cats_node other d Wd (Ho d Hd)) ltac:(exists d; split_and!; [done|done|lia])) as H2.
  rewrite <- H in H2. apply check_cats_node in H2 as (e & He & Hide & Hled); [|done|by apply Ho].
  assert (e = c) as ->.
  { destruct Hc as [(i & Hi)%list_elem_of_lookup Hc0], He as [(j & Hj)%list_elem_of_lookup He0].
    assert (j = i) as -> by (eapply Uv; [done..|congruence]). congruence. }
  assert (d = c) as -> by (apply cat_ext; [done|done|done|lia]). done.
Qed.

(** [operator==] on sets of authentication tags is equality of permissions: two
    valid sets are equal exactly when they match the same subjects of an access
    control entry, whatever the order of the tags and the empty places. *)
Theorem cat_equality values other : Forall (in_u 32) values → Forall (in_u 32) other →
  AreValid values = true → AreValid other = true →
  cats_eqb values other = true ↔ ∀ subject, CheckSubjectAgainstCATs values subject = CheckSubjectAgainstCATs other subject.
Proof.
  intros Fv Fo Hv Ho. rewrite cats_eqb_spec by done. split.
  - intros H subject. destruct (IsCASEAuthTag subject) eqn:Hs; [|unfold CheckSubjectAgainstCATs; by rewrite Hs].
    apply Bool.eq_iff_eq_true. rewrite !check_cats_spec by done. by setoid_rewrite H.
  - intros H c. split; apply same_permissions_sub; done.
Qed.

Lemma cat_equality_witness :
  cats_eqb [0xABCD0002; 0; 0x10001] [0x10001; 0xABCD0002; 0] = true ∧
  CheckSubjectAgainstCATs [0xABCD0002; 0; 0x10001] 0xFFFFFFFDABCD0001 = true ∧
  CheckSubjectAgainstCATs [0xABCD0002; 0; 0x10001] 0xFFFFFFFDABCD0003 = false ∧
  ∀ subject, CheckSubjectAgainstCATs [0xABCD0002; 0; 0x10001] subject = CheckSubjectAgainstCATs [0x10001; 0xABCD0002; 0] subject.
Proof.
  split_and!; [reflexivity..|]. apply (cat_equality [0xABCD0002; 0; 0x10001] [0x10001; 0xABCD0002; 0]);
    [repeat constructor; unfold in_u; lia|repeat constructor; unfold in_u; lia|reflexivity..].
Defined.

(** The ranges of node identifiers do not meet. *)
Lemma node_ranges_disjoint aNodeId :
  (if IsOperationalNodeId aNodeId then 1 else 0) + (if IsGroupId aNodeId then 1 else 0) +
  (if IsCASEAuthTag aNodeId then 1 else 0) + (if IsPAKEKeyId aNodeId then 1 else 0) ≤ 1.
Proof.
  unfold IsOperationalNodeId, IsGroupId, IsCASEAuthTag, IsPAKEKeyId, kUndefinedNodeId, kMaxOperationalNodeId, kMinGroupNodeId,
    kMinCASEAuthTag, kMaxCASEAuthTag, kMinPAKEKeyId, kMaxPAKEKeyId.
  repeat match goal with
         | |- context [?x =? ?y] => destruct (Z.eqb_spec x y); cbn [negb andb]
         | |- context [?x <=? ?y] => destruct (Z.leb_spec x y); cbn [andb]
         end; lia.
Qed.

Lemma cats_serialize_roundtrip values : Forall (in_u 32) values → cats_Deserialize (length values) (cats_Serialize values) = values.
Proof.
  induction 1 as [|c values Hc _ IH]; [done|]. unfold cats_Serialize in *. rewrite bind_cons. cbn [length cats_Deserialize].
  rewrite take_app_length', drop_app_length' by (by rewrite length_le_bytes). rewrite IH. f_equal. by apply le_val_bytes.
Qed.
