(* ===== verification/GroupPeers.v ===== *)
(** * GroupPeers: the table of the peers of group messages

    [GroupPeerTable] of [src/src/transport/GroupPeerMessageCounter.cpp]: per fabric,
    the peers that have sent data and control messages, each with its counter, in
    arrays whose used slots are kept in front; and the use of the table for an
    incoming group message in [src/src/transport/SessionManager.cpp].

    The arrays are lists; a pointer to a counter is the position of its slot.  The
    loops over the slots are shared between the arrays: [scan], [find_key] and
    [last_live].  Sizes as in the configuration of the relay's platform. *)
From S2P Require Import Prelude ChipError NodeId PeerCounter.

Definition CHIP_CONFIG_MAX_GROUP_DATA_PEERS : nat := 15.
Definition CHIP_CONFIG_MAX_GROUP_CONTROL_PEERS : nat := 2.

Record GroupSender := { mNodeId : Z; msgCounter : PeerMessageCounter }.
#[export] Instance eta_sender : Eta GroupSender := fun s => {| mNodeId := mNodeId s; msgCounter := msgCounter s |}.
Definition empty_sender : GroupSender := {| mNodeId := kUndefinedNodeId; msgCounter := NotSynced |}.

Record GroupFabric := {
  mFabricIndex : Z;
  mControlPeerCount : Z;
  mDataPeerCount : Z;
  mDataGroupSenders : list GroupSender;
  mControlGroupSenders : list GroupSender }.
#[export] Instance eta_fabric : Eta GroupFabric := fun f =>
  {| mFabricIndex := mFabricIndex f; mControlPeerCount := mControlPeerCount f; mDataPeerCount := mDataPeerCount f;
     mDataGroupSenders := mDataGroupSenders f; mControlGroupSenders := mControlGroupSenders f |}.
Definition empty_fabric : GroupFabric :=
  {| mFabricIndex := kUndefinedFabricIndex; mControlPeerCount := 0; mDataPeerCount := 0;
     mDataGroupSenders := replicate CHIP_CONFIG_MAX_GROUP_DATA_PEERS empty_sender;
     mControlGroupSenders := replicate CHIP_CONFIG_MAX_GROUP_CONTROL_PEERS empty_sender |}.

Abbreviation GroupPeerTable := (list GroupFabric).
Definition empty_table : GroupPeerTable := replicate CHIP_CONFIG_MAX_FABRICS empty_fabric.

(** ** Loops over slots *)
Section slots.
Context {A : Type} (key : A → Z).

(** The first slot that is free or has the key. *)
Fixpoint scan (k : Z) (l : list A) : option nat :=
  match l with
  | [] => None
  | x :: l => if (key x =? 0) || (key x =? k) then Some O else S <$> scan k l
  end.
(** The first slot that has the key. *)
Fixpoint find_key (k : Z) (l : list A) : option nat :=
  match l with
  | [] => None
  | x :: l => if key x =? k then Some O else S <$> find_key k l
  end.
(** The last used slot below [i] and above [lo]. *)
Fixpoint last_live (lo i : nat) (l : list A) : option nat :=
  match i with
  | O => None
  | S i =>
      if (i <=? lo)%nat then None
      else match l !! i with
           | Some x => if key x =? 0 then last_live lo i l else Some i
           | None => None
           end
  end.
(** The last used slot above [i] moves to [i]. *)
Definition fill (e : A) (i : nat) (l : list A) : list A :=
  match last_live i (length l) l with
  | Some j => match l !! j with Some y => <[j := e]> (<[i := y]> l) | None => l end
  | None => l
  end.
End slots.

(** ** The table *)
Definition senders (isControl : bool) (f : GroupFabric) : list GroupSender :=
  if isControl then mControlGroupSenders f else mDataGroupSenders f.
Definition set_senders (isControl : bool) (l : list GroupSender) (f : GroupFabric) : GroupFabric :=
  if isControl then f <| mControlGroupSenders := l |> else f <| mDataGroupSenders := l |>.
Definition peer_count (isControl : bool) (f : GroupFabric) : Z :=
  if isControl then mControlPeerCount f else mDataPeerCount f.
Definition add_count (isControl : bool) (n : Z) (f : GroupFabric) : GroupFabric :=
  if isControl then f <| mControlPeerCount ::= (fun c => u8 (c + n)) |> else f <| mDataPeerCount ::= (fun c => u8 (c + n)) |>.

(** A counter in the table. *)
Record counter_slot := { cs_fabric : nat; cs_control : bool; cs_sender : nat }.

Definition add_node (isControl : bool) (i : nat) (nodeId : Z) (f : GroupFabric) : GroupFabric :=
  add_count isControl 1 (set_senders isControl (alter (fun s => s <| mNodeId := nodeId |>) i (senders isControl f)) f).

Definition FindOrAddPeer (fabricIndex nodeId : Z) (isControl : bool) (t : GroupPeerTable)
    : CHIP_ERROR * option counter_slot * GroupPeerTable :=
  if (fabricIndex =? kUndefinedFabricIndex) || (nodeId =? kUndefinedNodeId) then (CHIP_ERROR_INVALID_ARGUMENT, None, t)
  else
    match scan mFabricIndex fabricIndex t with
    | None => (CHIP_ERROR_TOO_MANY_PEER_NODES, None, t)
    | Some k =>
        match t !! k with
        | None => (CHIP_ERROR_TOO_MANY_PEER_NODES, None, t)
        | Some groupFabric =>
            if mFabricIndex groupFabric =? kUndefinedFabricIndex then
              (CHIP_NO_ERROR, Some {| cs_fabric := k; cs_control := isControl; cs_sender := 0 |},
               <[k := add_node isControl 0 nodeId (groupFabric <| mFabricIndex := fabricIndex |>)]> t)
            else
              match scan mNodeId nodeId (senders isControl groupFabric) with
              | None => (CHIP_ERROR_TOO_MANY_PEER_NODES, None, t)
              | Some i =>
                  let slot := {| cs_fabric := k; cs_control := isControl; cs_sender := i |} in
                  match senders isControl groupFabric !! i with
                  | None => (CHIP_ERROR_TOO_MANY_PEER_NODES, None, t)
                  | Some node =>
                      if mNodeId node =? kUndefinedNodeId
                      then (CHIP_NO_ERROR, Some slot, <[k := add_node isControl i nodeId groupFabric]> t)
                      else (CHIP_NO_ERROR, Some slot, t)
                  end
              end
        end
    end.

Definition CompactPeers (l : list GroupSender) : list GroupSender :=
  foldl (fun l peerIndex =>
    match l !! peerIndex with
    | Some s => if mNodeId s =? kUndefinedNodeId then fill mNodeId empty_sender peerIndex l else l
    | None => l
    end) l (seq 0 (length l)).

Definition RemoveSpecificPeer (l : list GroupSender) (nodeId : Z) : bool * list GroupSender :=
  match find_key mNodeId nodeId l with
  | Some i => (true, CompactPeers (alter (fun s => s <| mNodeId := kUndefinedNodeId |> <| msgCounter ::= Reset |>) i l))
  | None => (false, l)
  end.

Definition RemoveAndCompactFabric (tableIndex : nat) (t : GroupPeerTable) : GroupPeerTable :=
  if (CHIP_CONFIG_MAX_FABRICS <=? tableIndex)%nat then t
  else fill mFabricIndex empty_fabric tableIndex (<[tableIndex := empty_fabric]> t).

Definition RemovePeer (fabricIndex nodeId : Z) (isControl : bool) (t : GroupPeerTable) : CHIP_ERROR * GroupPeerTable :=
  if (fabricIndex =? kUndefinedFabricIndex) || (nodeId =? kUndefinedNodeId) then (CHIP_ERROR_INVALID_ARGUMENT, t)
  else
    match find_key mFabricIndex fabricIndex t with
    | None => (CHIP_ERROR_NOT_FOUND, t)
    | Some it =>
        match t !! it with
        | None => (CHIP_ERROR_NOT_FOUND, t)
        | Some f =>
            match RemoveSpecificPeer (senders isControl f) nodeId with
            | (false, _) => (CHIP_ERROR_NOT_FOUND, t)
            | (true, l) =>
                let f := add_count isControl (-1) (set_senders isControl l f) in
                let t := <[it := f]> t in
                (CHIP_NO_ERROR,
                 if (mDataPeerCount f =? 0) && (mControlPeerCount f =? 0) then RemoveAndCompactFabric it t else t)
            end
        end
    end.

Definition FabricRemoved (fabricIndex : Z) (t : GroupPeerTable) : CHIP_ERROR * GroupPeerTable :=
  if fabricIndex =? kUndefinedFabricIndex then (CHIP_ERROR_INVALID_ARGUMENT, t)
  else
    match find_key mFabricIndex fabricIndex t with
    | Some it => (CHIP_NO_ERROR, RemoveAndCompactFabric it t)
    | None => (CHIP_ERROR_NOT_FOUND, t)
    end.

(** Reading and writing a counter through its pointer. *)
Definition peer_at (slot : counter_slot) (t : GroupPeerTable) : option GroupSender :=
  let! f := t !! cs_fabric slot in senders (cs_control slot) f !! cs_sender slot.
Definition put_counter (slot : counter_slot) (p : PeerMessageCounter) (t : GroupPeerTable) : GroupPeerTable :=
  alter (fun f => set_senders (cs_control slot)
    (alter (fun s => s <| msgCounter := p |>) (cs_sender slot) (senders (cs_control slot) f)) f) (cs_fabric slot) t.

(** The counter's part of [SecureGroupMessageDispatch], for a message that has been
    decrypted with a key of [fabric_index]. *)
Definition group_message (fabric_index sourceNodeId : Z) (isSecureSessionControlMsg : bool) (counter : Z) (t : GroupPeerTable)
    : option (delivery * GroupPeerTable) :=
  match FindOrAddPeer fabric_index sourceNodeId isSecureSessionControlMsg t with
  | (CHIP_NO_ERROR, Some slot, t) =>
      let! s := peer_at slot t in
      let! r := SecureGroupMessageDispatch counter (msgCounter s) in
      Some (fst r, put_counter slot (snd r) t)
  | (_, _, t) => Some (Discarded, t)
  end.

(** ** Compact arrays

    [compact K l]: the first [K] slots are used, with distinct keys, and the
    others are empty. *)
Section compact.
Context {A : Type} (key : A → Z) (e : A) (Hkey : key e = 0).
Implicit Types l : list A.

Definition compact (K : nat) l : Prop :=
  (K ≤ length l)%nat ∧
  (∀ m x, l !! m = Some x → if decide (m < K)%nat then key x ≠ 0 else x = e) ∧
  (∀ m m' x x', l !! m = Some x → l !! m' = Some x' → key x = key x' → key x ≠ 0 → m = m').

Definition member l (x : A) : Prop := key x ≠ 0 ∧ x ∈ l.

Lemma compact_key K l m x : compact K l → l !! m = Some x → key x ≠ 0 ↔ (m < K)%nat.
Proof using All.
  intros (_ & Hs & _) Hx. specialize (Hs m x Hx). case_decide; [tauto|]. subst. rewrite Hkey. lia.
Qed.

Lemma compact_replicate n : compact 0 (replicate n e).
Proof using All.
  split_and!; [lia| |].
  - intros m x [-> _]%lookup_replicate_1. by rewrite decide_False by lia.
  - intros m m' x x' [-> _]%lookup_replicate_1 _ _ []. done.
Qed.

Lemma scan_first l k :
  match scan key k l with
  | Some i => (∃ x, l !! i = Some x ∧ (key x = 0 ∨ key x = k)) ∧ ∀ m y, (m < i)%nat → l !! m = Some y → key y ≠ 0 ∧ key y ≠ k
  | None => ∀ m y, l !! m = Some y → key y ≠ 0 ∧ key y ≠ k
  end.
Proof using All.
  induction l as [|x l IH]; cbn [scan]; [done|].
  destruct (Z.eqb_spec (key x) 0); cbn [orb]; [split; [exists x; auto|intros; lia]|].
  destruct (Z.eqb_spec (key x) k); [split; [exists x; auto|intros; lia]|].
  destruct (scan key k l) as [i|]; cbn [fmap option_fmap option_map].
  - destruct IH as [Hx Hm]. split; [done|]. intros [|m] y Hmi; cbn; [by intros [= <-]|]. apply Hm. lia.
  - intros [|m] y; cbn; [by intros [= <-]|]. apply IH.
Qed.

Lemma scan_spec K l k : compact K l → k ≠ 0 →
  match scan key k l with
  | Some i => ∃ x, l !! i = Some x ∧ (key x = k ∨ i = K ∧ x = e ∧ ∀ y, y ∈ l → key y ≠ k)
  | None => K = length l ∧ ∀ y, y ∈ l → key y ≠ k
  end.
Proof using All.
  intros Hc Hk. pose proof (scan_first l k) as Hs. pose proof Hc as (HK & He & _).
  assert (∀ z, l !! K = Some z → key z = 0) as HKz.
  { intros z Hz. destruct (decide (key z = 0)) as [|Hz0]; [done|]. apply (compact_key _ _ _ _ Hc Hz) in Hz0. lia. }
  destruct (scan key k l) as [i|].
  - destruct Hs as ((x & Hx & Hxk) & Hm). exists x. split; [done|]. destruct Hxk as [Hx0|]; [right|by left].
    assert (¬ (i < K)%nat) as HiK by (rewrite <- (compact_key _ _ _ _ Hc Hx); auto).
    assert (¬ (K < i)%nat) as HKi.
    { intros Hlt. destruct (lookup_lt_is_Some_2 l K) as [z Hz]; [apply lookup_lt_Some in Hx; lia|].
      destruct (Hm _ _ Hlt Hz) as [Hz0 _]. by apply HKz in Hz. }
    split_and!; [lia| |].
    + pose proof (He _ _ Hx) as Hxe. by rewrite decide_False in Hxe by done.
    + intros y [m Hy]%list_elem_of_lookup. destruct (decide (m < i)%nat) as [Hlt|]; [by eapply Hm|].
      pose proof (He _ _ Hy) as Hye. rewrite decide_False in Hye by lia. subst. rewrite Hkey. done.
  - split; [|intros y [m Hy%Hs]%list_elem_of_lookup; tauto].
    destruct (decide (K < length l)%nat) as [Hlt|]; [|lia]. destruct (lookup_lt_is_Some_2 l K Hlt) as [z Hz].
    destruct (Hs _ _ Hz) as [Hz0 _]. by apply HKz in Hz.
Qed.

Lemma find_key_spec l k :
  match find_key key k l with
  | Some i => ∃ x, l !! i = Some x ∧ key x = k
  | None => ∀ y, y ∈ l → key y ≠ k
  end.
Proof using All.
  induction l as [|x l IH]; cbn [find_key]; [set_solver|]. destruct (Z.eqb_spec (key x) k); [by exists x|].
  destruct (find_key key k l) as [i|]; cbn [fmap option_fmap option_map]; [done|].
  intros y [->|Hy]%elem_of_cons; [done|by apply IH].
Qed.

Lemma last_live_spec l lo i : (i ≤ length l)%nat →
  match last_live key lo i l with
  | Some j => (lo < j < i)%nat ∧ (∃ x, l !! j = Some x ∧ key x ≠ 0) ∧ ∀ m x, (j < m < i)%nat → l !! m = Some x → key x = 0
  | None => ∀ m x, (lo < m < i)%nat → l !! m = Some x → key x = 0
  end.
Proof using All.
  induction i as [|i IH]; intros Hi; cbn [last_live]; [intros; lia|].
  destruct (Nat.leb_spec i lo); [intros; lia|]. destruct (lookup_lt_is_Some_2 l i Hi) as [x Hx]. rewrite Hx.
  destruct (Z.eqb_spec (key x) 0) as [Hx0|Hx0].
  - specialize (IH ltac:(lia)). destruct (last_live key lo i l) as [j|].
    + destruct IH as (Hj & Hjx & Hm). split_and!; [lia|lia|done|]. intros m y Hmi Hy.
      destruct (decide (m = i)) as [->|]; [congruence|]. eapply Hm; [|done]. lia.
    + intros m y Hmi Hy. destruct (decide (m = i)) as [->|]; [congruence|]. eapply IH; [|done]. lia.
  - split_and!; [lia|lia|by exists x|]. intros; lia.
Qed.

(** Filling the hole left by a removal moves the last used element into it. *)
Section hole.
Context (K i : nat) (l : list A) (x y : A) (Hc : compact K l) (Hx : l !! i = Some x).
Context (Hx0 : key x ≠ 0).
Let j := (K - 1)%nat.
Context (Hy : l !! j = Some y).
Let moved := <[j := e]> (<[i := if decide (j = i) then e else y]> l).

Lemma hole_order : (i < K)%nat ∧ (K ≤ length l)%nat ∧ key y ≠ 0.
Proof using All.
  apply (compact_key _ _ _ _ Hc Hx) in Hx0 as Hi. destruct Hc as [HK _]. split_and!; [done..|].
  apply (compact_key _ _ _ _ Hc Hy). lia.
Qed.

Lemma fill_moved : fill key e i (<[i := e]> l) = moved.
Proof using All.
  destruct hole_order as (Hi & HK & Hy0). set (l1 := <[i := e]> l).
  assert (length l1 = length l) as Hlen1 by apply length_insert.
  pose proof (last_live_spec l1 i (length l1) ltac:(lia)) as Hlast. rewrite Hlen1 in Hlast.
  assert (∀ m, m ≠ i → l1 !! m = l !! m) as Hl1 by (intros m Hm; by apply list_lookup_insert_ne).
  unfold fill. rewrite Hlen1. destruct (last_live key i (length l) l1) as [j'|].
  - destruct Hlast as (Hj & (z & Hz & Hz0) & Hm). rewrite Hz. rewrite Hl1 in Hz by lia.
    apply (compact_key _ _ _ _ Hc Hz) in Hz0 as Hj'. assert (j' = j) as ->.
    { destruct (decide (j' = j)); [done|]. exfalso. apply Hy0, (Hm j y); [lia|]. by rewrite Hl1 by lia. }
    rewrite Hy in Hz. injection Hz as <-. subst moved. rewrite decide_False by lia. unfold l1. by rewrite list_insert_insert_eq.
  - assert (j = i) as Hji.
    { destruct (decide (j = i)); [done|]. exfalso. apply Hy0, (Hlast j y); [lia|]. by rewrite Hl1 by lia. }
    subst moved. rewrite decide_True, Hji by done. by rewrite list_insert_insert_eq.
Qed.

Lemma moved_lookup m z : moved !! m = Some z → m = j ∧ z = e ∨ m ≠ j ∧ m = i ∧ z = y ∨ m ≠ j ∧ m ≠ i ∧ l !! m = Some z.
Proof using All.
  destruct hole_order as (Hi & HK & Hy0). subst moved. destruct (decide (m = j)) as [->|Hmj].
  - rewrite list_lookup_insert_eq by (rewrite length_insert; lia). intros [= <-]. by left.
  - rewrite list_lookup_insert_ne by done. destruct (decide (m = i)) as [->|].
    + rewrite list_lookup_insert_eq by lia. rewrite decide_False by done. intros [= <-]. by right; left.
    + rewrite list_lookup_insert_ne by done. intros ?. by right; right.
Qed.

Lemma moved_compact : compact (K - 1) moved.
Proof using All.
  destruct hole_order as (Hi & HK & Hy0). pose proof Hc as (_ & Hs & Hinj). split_and!.
  - subst moved. rewrite !length_insert. lia.
  - intros m z [[-> ->]|[(? & -> & ->)|(? & ? & Hz)]]%moved_lookup.
    + by rewrite decide_False by lia.
    + by rewrite decide_True by lia.
    + pose proof (Hs _ _ Hz) as Hm. destruct (decide (m < K)%nat); case_decide; done || lia.
  - intros m m' z z' Hz Hz' Heq Hz0.
    apply moved_lookup in Hz as [[-> ->]|[(? & -> & ->)|(? & ? & Hz)]]; [by rewrite Hkey in Hz0|..];
    apply moved_lookup in Hz' as [[-> ->]|[(? & -> & ->)|(? & ? & Hz')]]; try (by rewrite Heq, Hkey in Hz0); try done.
    + exfalso. apply (Hinj _ _ _ _ Hy Hz') in Heq; [|done]. lia.
    + exfalso. apply (Hinj _ _ _ _ Hz Hy) in Heq; [|done]. lia.
    + by eapply Hinj.
Qed.

Lemma moved_member z : member moved z ↔ member l z ∧ key z ≠ key x.
Proof using All.
  destruct hole_order as (Hi & HK & Hy0). pose proof Hc as (_ & Hs & Hinj). split.
  - intros [Hz0 [m Hm]%list_elem_of_lookup]. apply moved_lookup in Hm as [[-> ->]|[(? & -> & ->)|(? & ? & Hm)]]; [done| |].
    + split; [split; [done|by eapply list_elem_of_lookup_2]|]. intros E. by apply (Hinj _ _ _ _ Hy Hx) in E.
    + split; [split; [done|by eapply list_elem_of_lookup_2]|]. intros E. by apply (Hinj _ _ _ _ Hm Hx) in E.
  - intros [[Hz0 [m Hm]%list_elem_of_lookup] Hne]. split; [done|]. apply list_elem_of_lookup.
    assert (m ≠ i) as Hmi by congruence. destruct (decide (m = j)) as [->|Hmj].
    + rewrite Hy in Hm. injection Hm as <-. exists i. subst moved.
      rewrite list_lookup_insert_ne, list_lookup_insert_eq, decide_False by (done || lia). done.
    + exists m. subst moved. by rewrite !list_lookup_insert_ne by done.
Qed.
End hole.

Lemma fill_hole K l i x : compact K l → l !! i = Some x → key x ≠ 0 →
  compact (K - 1) (fill key e i (<[i := e]> l)) ∧ length (fill key e i (<[i := e]> l)) = length l ∧ (i < K)%nat ∧
  ∀ y, member (fill key e i (<[i := e]> l)) y ↔ member l y ∧ key y ≠ key x.
Proof using All.
  intros Hc Hx Hx0. apply (compact_key _ _ _ _ Hc Hx) in Hx0 as Hi. pose proof Hc as [HK _].
  destruct (lookup_lt_is_Some_2 l (K - 1)) as [y Hy]; [lia|].
  rewrite (fill_moved K i l x y Hc Hx Hx0 Hy). split_and!.
  - by eapply moved_compact.
  - by rewrite !length_insert.
  - done.
  - by eapply moved_member.
Qed.

Lemma fill_compact K l i x : compact K l → l !! i = Some x → key x = 0 → fill key e i l = l.
Proof using All.
  intros Hc Hx Hx0. unfold fill. pose proof (last_live_spec l i (length l) ltac:(lia)) as Hl.
  destruct (last_live key i (length l) l) as [j|]; [|done]. destruct Hl as (Hj & (y & Hy & Hy0) & _).
  apply (compact_key _ _ _ _ Hc Hy) in Hy0. assert (i < K)%nat as Hi by lia.
  by apply (compact_key _ _ _ _ Hc Hx) in Hi.
Qed.
(** Writing a used slot, or the first free one. *)
Lemma put_slot K l i x x' : compact K l → l !! i = Some x → key x' ≠ 0 →
  (key x = key x' ∨ i = K ∧ ∀ y, y ∈ l → key y ≠ key x') →
  compact (if decide (i = K) then S K else K) (<[i := x']> l) ∧
  ∀ y, member (<[i := x']> l) y ↔ y = x' ∨ member l y ∧ key y ≠ key x'.
Proof using All.
  intros Hc Hx Hx0 Hor. pose proof Hc as (HK & Hs & Hinj). pose proof (lookup_lt_Some _ _ _ Hx) as Hi.
  assert (∀ m y, m ≠ i → l !! m = Some y → key y ≠ key x') as Hne.
  { intros m y Hm Hy E. destruct Hor as [Hxx|[_ Hf]]; [|apply (Hf y); [by eapply list_elem_of_lookup_2|done]].
    apply Hm, (Hinj _ _ _ _ Hy Hx); congruence. }
  assert (i < K ∨ i = K)%nat as HiK.
  { destruct Hor as [E|[-> _]]; [left|by right]. apply (compact_key _ _ _ _ Hc Hx). congruence. }
  assert (∀ m y, <[i := x']> l !! m = Some y → m = i ∧ y = x' ∨ m ≠ i ∧ l !! m = Some y) as Hl.
  { intros m y. destruct (decide (m = i)) as [->|]; [rewrite list_lookup_insert_eq by done; intros [= <-]; by left|].
    rewrite list_lookup_insert_ne by done. by right. }
  split; [split_and!|].
  - rewrite length_insert. case_decide; lia.
  - intros m y [[-> ->]|[Hm Hy]]%Hl; [rewrite decide_True by (case_decide; lia); done|].
    pose proof (Hs _ _ Hy) as Hy'. destruct (decide (m < K)%nat) in Hy'; case_decide; try done; case_decide; done || lia.
  - intros m m' y y' [[-> ->]|[Hm Hy]]%Hl [[-> ->]|[Hm' Hy']]%Hl E Hy0; [done|..].
    + exfalso. by eapply Hne.
    + exfalso. by eapply Hne.
    + by eapply Hinj.
  - intros y. split.
    + intros [Hy0 [m [[-> ->]|[Hm Hy]]%Hl]%list_elem_of_lookup]; [by left|right].
      split; [split; [done|by eapply list_elem_of_lookup_2]|by eapply Hne].
    + intros [->|[[Hy0 [m Hm]%list_elem_of_lookup] Hk]]; (split; [done|]); apply list_elem_of_lookup.
      * exists i. by apply list_lookup_insert_eq.
      * exists m. rewrite list_lookup_insert_ne; [done|]. intros ->. destruct Hor as [?|[-> _]]; [congruence|].
        pose proof (compact_key _ _ _ _ Hc Hm). tauto || lia.
Qed.

Lemma member_unique K l x y : compact K l → member l x → member l y → key x = key y → x = y.
Proof using All.
  intros (_ & _ & Hinj) [Hx0 [m Hm]%list_elem_of_lookup] [_ [m' Hm']%list_elem_of_lookup] E.
  assert (m = m') as -> by (by eapply Hinj). congruence.
Qed.
End compact.

(** ** The table as a finite map *)
Definition capacity (isControl : bool) : nat :=
  if isControl then CHIP_CONFIG_MAX_GROUP_CONTROL_PEERS else CHIP_CONFIG_MAX_GROUP_DATA_PEERS.
Definition senders_ok (isControl : bool) (f : GroupFabric) (K : nat) : Prop :=
  compact mNodeId empty_sender K (senders isControl f) ∧ length (senders isControl f) = capacity isControl ∧
  peer_count isControl f = Z.of_nat K.
Definition fabric_ok (f : GroupFabric) : Prop :=
  ∃ K : bool → nat, (∀ c, senders_ok c f (K c)) ∧ (0 < K true + K false)%nat.
Definition table_ok (t : GroupPeerTable) : Prop :=
  length t = CHIP_CONFIG_MAX_FABRICS ∧ (∃ N, compact mFabricIndex empty_fabric N t) ∧
  ∀ f, member mFabricIndex t f → fabric_ok f.

(** The table keeps [p] for a peer. *)
Definition sender_of (f : GroupFabric) (isControl : bool) (nodeId : Z) (p : PeerMessageCounter) : Prop :=
  member mNodeId (senders isControl f) {| mNodeId := nodeId; msgCounter := p |}.
Definition holds (t : GroupPeerTable) (fabricIndex : Z) (isControl : bool) (nodeId : Z) (p : PeerMessageCounter) : Prop :=
  ∃ f, member mFabricIndex t f ∧ mFabricIndex f = fabricIndex ∧ sender_of f isControl nodeId p.

Lemma holds_at N t f c n p : compact mFabricIndex empty_fabric N t → member mFabricIndex t f →
  holds t (mFabricIndex f) c n p ↔ sender_of f c n p.
Proof.
  intros Hc Hf. split; [|intros; by exists f]. intros (g & Hg & E & Hs).
  by rewrite (member_unique mFabricIndex empty_fabric eq_refl N t f g Hc Hf Hg (eq_sym E)).
Qed.

Lemma holds_put N t k f f' a c n p : compact mFabricIndex empty_fabric N t → t !! k = Some f → mFabricIndex f' ≠ 0 →
  (mFabricIndex f = mFabricIndex f' ∨ k = N ∧ ∀ y, y ∈ t → mFabricIndex y ≠ mFabricIndex f') →
  holds (<[k := f']> t) a c n p ↔ a = mFabricIndex f' ∧ sender_of f' c n p ∨ a ≠ mFabricIndex f' ∧ holds t a c n p.
Proof.
  intros Hc Hk H0 Hor. destruct (put_slot mFabricIndex empty_fabric eq_refl N t k f f' Hc Hk H0 Hor) as [Hc' Hm].
  split.
  - intros (g & [->|[Hg Hne]]%Hm & <- & Hs); [by left|]. right. split; [done|]. by exists g.
  - intros [[-> Hs]|[Hne (g & Hg & <- & Hs)]]; eexists; (split; [|done]); apply Hm; [by left|by right].
Qed.

(** *** Removing a sender *)
Lemma foldl_same {A B} (g : A → B → A) l ps : (∀ p, p ∈ ps → g l p = l) → foldl g l ps = l.
Proof.
  induction ps as [|p ps IH]; intros Hp; cbn; [done|]. rewrite (Hp p) by (by left). apply IH. set_solver.
Qed.

Lemma compact_peers_fill K l i x : compact mNodeId empty_sender K l → l !! i = Some x → mNodeId x ≠ 0 →
  CompactPeers (<[i := empty_sender]> l) = fill mNodeId empty_sender i (<[i := empty_sender]> l).
Proof.
  intros Hc Hx Hx0. destruct (fill_hole mNodeId empty_sender eq_refl K l i x Hc Hx Hx0) as (Hc' & Hlen & HiK & _).
  pose proof (lookup_lt_Some _ _ _ Hx) as Hi. unfold CompactPeers. rewrite length_insert.
  replace (seq 0 (length l)) with (seq 0 i ++ i :: seq (S i) (length l - S i))
    by (rewrite <- seq_S_app || (replace (length l) with (i + S (length l - S i))%nat at 2 by lia; by rewrite seq_app)).
  rewrite foldl_app. cbn [foldl]. rewrite (foldl_same _ _ (seq 0 i)).
  - rewrite list_lookup_insert_eq by done. cbn [mNodeId empty_sender]. rewrite Z.eqb_refl.
    apply foldl_same. intros p _. destruct (fill _ _ _ _ !! p) as [s|] eqn:Hp; [|done].
    destruct (Z.eqb_spec (mNodeId s) kUndefinedNodeId); [|done]. by eapply fill_compact.
  - intros p Hp%elem_of_seq. rewrite list_lookup_insert_ne by lia. destruct (l !! p) as [s|] eqn:Hs; [|done].
    destruct (Z.eqb_spec (mNodeId s) kUndefinedNodeId) as [E|]; [|done]. exfalso.
    by apply (compact_key mNodeId empty_sender eq_refl _ _ _ _ Hc Hs); [lia|].
Qed.

Lemma remove_sender K l n : compact mNodeId empty_sender K l → n ≠ 0 →
  match RemoveSpecificPeer l n with
  | (true, l') => compact mNodeId empty_sender (K - 1) l' ∧ length l' = length l ∧ (0 < K)%nat ∧
      (∃ x, member mNodeId l x ∧ mNodeId x = n) ∧ ∀ y, member mNodeId l' y ↔ member mNodeId l y ∧ mNodeId y ≠ n
  | (false, _) => ∀ y, y ∈ l → mNodeId y ≠ n
  end.
Proof.
  intros Hc Hn. unfold RemoveSpecificPeer. pose proof (find_key_spec mNodeId empty_sender eq_refl l n) as Hf.
  destruct (find_key mNodeId n l) as [i|]; [|done]. destruct Hf as (x & Hx & <-).
  rewrite (alter_insert_lookup _ _ _ _ Hx). change (x <| mNodeId := kUndefinedNodeId |> <| msgCounter ::= Reset |>) with empty_sender.
  rewrite (compact_peers_fill K l i x Hc Hx Hn).
  destruct (fill_hole mNodeId empty_sender eq_refl K l i x Hc Hx Hn) as (Hc' & Hlen & HiK & Hm). split_and!; [done..|lia| |done].
  exists x. split; [|done]. split; [done|]. by eapply list_elem_of_lookup_2.
Qed.

(** *** Removing a fabric *)
Lemma remove_fabric t k f : table_ok t → t !! k = Some f → mFabricIndex f ≠ 0 →
  table_ok (RemoveAndCompactFabric k t) ∧
  ∀ a c n p, holds (RemoveAndCompactFabric k t) a c n p ↔ holds t a c n p ∧ a ≠ mFabricIndex f.
Proof.
  intros (Hlen & [N Hc] & Hall) Hk Hf0. unfold RemoveAndCompactFabric.
  pose proof (lookup_lt_Some _ _ _ Hk). rewrite (proj2 (Nat.leb_gt _ _)) by lia. cbv iota.
  destruct (fill_hole mFabricIndex empty_fabric eq_refl N t k f Hc Hk Hf0) as (Hc' & Hlen' & _ & Hm). split.
  - split_and!; [by rewrite Hlen'|by eexists|]. intros g [Hg _]%Hm. by apply Hall.
  - intros a c n p. split.
    + intros (g & [Hg Hne]%Hm & <- & Hs). split; [by exists g|done].
    + intros [(g & Hg & <- & Hs) Hne]. exists g. split; [by apply Hm|done].
Qed.

(** *** Writing a sender *)
Lemma senders_set c l f c' : senders c' (set_senders c l f) = if decide (c' = c) then l else senders c' f.
Proof. by destruct c, c'. Qed.
Lemma senders_count c x f c' : senders c' (add_count c x f) = senders c' f.
Proof. by destruct c, c'. Qed.
Lemma count_set c l f c' : peer_count c' (set_senders c l f) = peer_count c' f.
Proof. by destruct c, c'. Qed.
Lemma count_add c x f c' : peer_count c' (add_count c x f) = if decide (c' = c) then u8 (peer_count c f + x) else peer_count c' f.
Proof. by destruct c, c'. Qed.
Lemma index_add c i n f : mFabricIndex (add_node c i n f) = mFabricIndex f.
Proof. by destruct c. Qed.

Lemma capacity_small c : Z.of_nat (capacity c) ≤ 15.
Proof. by destruct c. Qed.

Lemma add_node_spec K f c n : (∀ c, senders_ok c f (K c)) → n ≠ 0 → (K c < capacity c)%nat →
  (∀ y, y ∈ senders c f → mNodeId y ≠ n) →
  let f' := add_node c (K c) n f in
  fabric_ok f' ∧ senders c f' !! K c = Some {| mNodeId := n; msgCounter := NotSynced |} ∧
  ∀ c' n' p, sender_of f' c' n' p ↔ c' = c ∧ n' = n ∧ p = NotSynced ∨ sender_of f c' n' p.
Proof.
  intros HK Hn Hfree Hfresh f'. destruct (HK c) as (Hc & Hlen & Hcount).
  destruct (lookup_lt_is_Some_2 (senders c f) (K c)) as [x Hx]; [lia|].
  assert (x = empty_sender) as -> by (destruct Hc as (_ & Hs & _); specialize (Hs _ _ Hx); by rewrite decide_False in Hs by lia).
  set (x' := {| mNodeId := n; msgCounter := NotSynced |}).
  destruct (put_slot mNodeId empty_sender eq_refl (K c) _ (K c) empty_sender x' Hc Hx Hn) as [Hc' Hm].
  { right. split; [done|]. exact Hfresh. }
  rewrite decide_True in Hc' by done.
  assert (∀ c', senders c' f' = if decide (c' = c) then <[K c := x']> (senders c f) else senders c' f) as Hs.
  { intros c'. unfold f', add_node. rewrite senders_count, senders_set.
    by rewrite (alter_insert_lookup _ _ _ _ Hx). }
  split_and!.
  - exists (fun c' => if decide (c' = c) then S (K c) else K c'). split; [|repeat case_decide; destruct c; lia || congruence].
    intros c'. unfold senders_ok. rewrite Hs. unfold f', add_node. rewrite count_add, !count_set. case_decide; [subst c'|by apply HK].
    split_and!; [done|by rewrite length_insert|]. rewrite Hcount. pose proof (capacity_small c). rewrite wrap_small; [lia|].
    unfold in_u. change (2 ^ 8) with 256. lia.
  - rewrite Hs, decide_True by done. apply list_lookup_insert_eq. lia.
  - intros c' n' p. unfold sender_of. rewrite Hs. case_decide as Hd; [subst c'|naive_solver].
    rewrite Hm. split; [intros [E|[Hin _]]; [injection E as -> ->; by left|by right]|].
    intros [(_ & -> & ->)|Hin]; [by left|right]. split; [done|]. destruct Hin as [_ Hin]. by apply Hfresh in Hin.
Qed.

(** A table in which one fabric's slot is written. *)
Lemma table_put N t k f f' : table_ok t → compact mFabricIndex empty_fabric N t → t !! k = Some f → fabric_ok f' → mFabricIndex f' ≠ 0 →
  (mFabricIndex f = mFabricIndex f' ∨ k = N ∧ ∀ y, y ∈ t → mFabricIndex y ≠ mFabricIndex f') → table_ok (<[k := f']> t).
Proof.
  intros (Hlen & _ & Hall) Hc Hk Hf' H0 Hor.
  destruct (put_slot mFabricIndex empty_fabric eq_refl N t k f f' Hc Hk H0 Hor) as [Hc' Hm]. split_and!.
  - by rewrite length_insert.
  - by eexists.
  - intros g [->|[Hg _]]%Hm; [done|by apply Hall].
Qed.

Lemma put_counter_spec t slot n p p' f : table_ok t → t !! cs_fabric slot = Some f → mFabricIndex f ≠ 0 →
  peer_at slot t = Some {| mNodeId := n; msgCounter := p |} → n ≠ 0 →
  table_ok (put_counter slot p' t) ∧
  ∀ a c' n' q, holds (put_counter slot p' t) a c' n' q ↔
    if decide (a = mFabricIndex f ∧ c' = cs_control slot ∧ n' = n) then q = p' else holds t a c' n' q.
Proof.
  intros Hok Hf Hf0 Hp Hn. destruct slot as [k c i]. cbn [cs_fabric cs_control cs_sender] in *.
  unfold peer_at in Hp. cbn [cs_fabric cs_control cs_sender] in Hp. rewrite Hf in Hp.
  pose proof Hok as (_ & [N Hc] & Hall). unfold put_counter. cbn [cs_fabric cs_control cs_sender].
  rewrite (alter_insert_lookup _ _ _ _ Hf), (alter_insert_lookup _ _ _ _ Hp). set (x' := _ <| msgCounter := p' |>).
  set (f' := set_senders _ _ _). assert (member mFabricIndex t f) as Hfm by (split; [done|by eapply list_elem_of_lookup_2]).
  destruct (Hall f Hfm) as (K & HK & Hpos). destruct (HK c) as (Hcs & Hlen & Hcount).
  assert (mNodeId x' = n) as Hx' by done.
  destruct (put_slot mNodeId empty_sender eq_refl (K c) _ i _ x' Hcs Hp) as [Hcs' Hm]; [done|by left|].
  assert (i < K c)%nat as Hi by (apply (compact_key mNodeId empty_sender eq_refl _ _ _ _ Hcs Hp); done).
  rewrite decide_False in Hcs' by lia.
  assert (∀ c', senders c' f' = if decide (c' = c) then <[i := x']> (senders c f) else senders c' f) as Hs by (intros; apply senders_set).
  assert (mFabricIndex f' = mFabricIndex f) as Hidx by (by destruct c).
  assert (fabric_ok f') as Hf'.
  { exists K. split; [|done]. intros c'. unfold senders_ok. rewrite Hs. unfold f'. rewrite count_set.
    case_decide; [subst c'; by rewrite length_insert|by apply HK]. }
  split; [eapply (table_put N t k f f'); [done..|by rewrite Hidx|by left]|].
  intros a c' n' q. rewrite (holds_put N t k f f' a c' n' q Hc Hf) by (by rewrite ?Hidx; auto). rewrite Hidx.
  unfold sender_of. rewrite Hs. destruct (decide (a = mFabricIndex f)) as [->|Hne].
  - destruct (decide (mFabricIndex f = mFabricIndex f ∧ c' = c ∧ n' = n)) as [Hd|Hd];
      rewrite ?(holds_at N t f c' n' q Hc Hfm); unfold sender_of.
    + destruct Hd as (_ & -> & ->). rewrite decide_True, Hm by done. change x' with {| mNodeId := n; msgCounter := p' |}. naive_solver.
    + destruct (decide (c' = c)) as [->|]; [|naive_solver]. rewrite Hm, Hx'. cbn [mNodeId].
      assert (n' ≠ n) as Hnn by (intros ->; by apply Hd).
      split; [intros [[_ [E|[? _]]]|[? _]]; [by injection E as -> _|done|done]|]. intros Hq. left. by split; [|right].
  - rewrite (decide_False (P := a = mFabricIndex f ∧ c' = c ∧ n' = n)) by tauto. tauto.
Qed.

(** *** [FindOrAddPeer] *)
Definition known (t : GroupPeerTable) (fabricIndex : Z) (isControl : bool) (nodeId : Z) : Prop :=
  ∃ p, holds t fabricIndex isControl nodeId p.
(** There is no room for a new peer: the array of its fabric is full, or it has no
    fabric in the table and the table is full. *)
Definition full (t : GroupPeerTable) (fabricIndex : Z) (isControl : bool) : Prop :=
  (∃ f, member mFabricIndex t f ∧ mFabricIndex f = fabricIndex ∧ ∀ s, s ∈ senders isControl f → mNodeId s ≠ 0) ∨
  (∀ f, f ∈ t → mFabricIndex f ≠ 0 ∧ mFabricIndex f ≠ fabricIndex).

Lemma empty_fabric_ok c : senders_ok c empty_fabric 0.
Proof. by destruct c; (split_and!; [apply compact_replicate|..]). Qed.
Lemma empty_senders c s : s ∈ senders c empty_fabric → s = empty_sender.
Proof. destruct c; by intros [-> _]%elem_of_replicate. Qed.
Lemma sender_of_index a f c n p : sender_of (f <| mFabricIndex := a |>) c n p ↔ sender_of f c n p.
Proof. by destruct c. Qed.

Lemma compact_used {A} (key : A → Z) e K (l : list A) y : key e = 0 → compact key e K l → K = length l → y ∈ l → key y ≠ 0.
Proof.
  intros He Hc -> [m Hm]%list_elem_of_lookup. apply (compact_key key e He _ _ _ _ Hc Hm). by eapply lookup_lt_Some.
Qed.

(** What the pointer of a successful call refers to. *)
Definition points_to (slot : counter_slot) (t : GroupPeerTable) (f : Z) (c : bool) (n : Z) (p : PeerMessageCounter) : Prop :=
  cs_control slot = c ∧ peer_at slot t = Some {| mNodeId := n; msgCounter := p |} ∧
  ∃ gf, t !! cs_fabric slot = Some gf ∧ mFabricIndex gf = f.
(** The new peer [(f, c, n)] is the only change. *)
Definition added (t t' : GroupPeerTable) (f : Z) (c : bool) (n : Z) : Prop :=
  ∀ a c' n' q, holds t' a c' n' q ↔ (a = f ∧ c' = c ∧ n' = n) ∧ q = NotSynced ∨ holds t a c' n' q.

(** Writing a fabric slot with a peer added to it. *)
Lemma add_peer N t k f K c n : table_ok t → compact mFabricIndex empty_fabric N t → t !! k = Some f →
  ∀ g, mFabricIndex g ≠ 0 → (∀ c, senders_ok c g (K c)) → (K c < capacity c)%nat → n ≠ 0 →
  (∀ y, y ∈ senders c g → mNodeId y ≠ n) →
  (f = g ∨ f = empty_fabric ∧ k = N ∧ (∀ y, y ∈ t → mFabricIndex y ≠ mFabricIndex g) ∧ ∀ c n p, ¬ sender_of g c n p) →
  let t' := <[k := add_node c (K c) n g]> t in
  table_ok t' ∧ points_to {| cs_fabric := k; cs_control := c; cs_sender := K c |} t' (mFabricIndex g) c n NotSynced ∧
  added t t' (mFabricIndex g) c n ∧ ¬ known t (mFabricIndex g) c n ∧ ¬ full t (mFabricIndex g) c.
Proof.
  intros Hok Hc Hk g Hg0 HK Hfree Hn Hfresh Hcase t'.
  destruct (add_node_spec K g c n HK Hn Hfree Hfresh) as (Hg' & Hslot & Hs). set (g' := add_node c (K c) n g) in *.
  assert (mFabricIndex g' = mFabricIndex g) as Hidx by apply index_add.
  assert (mFabricIndex f = mFabricIndex g' ∨ k = N ∧ ∀ y, y ∈ t → mFabricIndex y ≠ mFabricIndex g') as Hor.
  { rewrite Hidx. destruct Hcase as [->|(_ & ? & ? & _)]; auto. }
  assert (∀ c' n' q, holds t (mFabricIndex g) c' n' q ↔ sender_of g c' n' q) as Hat.
  { intros c' n' q. destruct Hcase as [<-|(_ & _ & Hnone & Hno)].
    - eapply holds_at; [done|]. split; [done|by eapply list_elem_of_lookup_2].
    - split; [|intros []%Hno]. intros (h & [_ Hh] & E & _). by apply Hnone in Hh. }
  split_and!.
  - eapply (table_put N t k f g'); [done..|by rewrite Hidx|done].
  - pose proof (lookup_lt_Some _ _ _ Hk). split; [done|]. unfold peer_at, t'. cbn [cs_fabric cs_control cs_sender].
    rewrite list_lookup_insert_eq by done. split; [done|]. by eexists.
  - intros a c' n' q. unfold t'. rewrite (holds_put N t k f g' a c' n' q Hc Hk ltac:(by rewrite Hidx) Hor). rewrite Hidx, Hs.
    specialize (Hat c' n' q). destruct (decide (a = mFabricIndex g)) as [->|]; tauto.
  - intros [p Hp]. apply Hat in Hp as [_ Hp]. by apply Hfresh in Hp.
  - assert (f ∈ t) as Hft by (by eapply list_elem_of_lookup_2).
    intros [(h & Hh & Eh & Hall)|Hall]; [|apply Hall in Hft; destruct Hcase as [->|(-> & _)]; naive_solver].
    destruct Hcase as [->|(_ & _ & Hnone & _)]; [|by destruct Hh as [_ Hh%Hnone]].
    rewrite (member_unique _ _ eq_refl N t h g Hc Hh (conj Hg0 Hft) Eh) in Hall.
    destruct (HK c) as ((_ & Hslots & _) & Hcap & _). destruct (lookup_lt_is_Some_2 (senders c g) (K c)) as [x Hx]; [lia|].
    apply (Hall x); [by eapply list_elem_of_lookup_2|]. specialize (Hslots _ _ Hx). rewrite decide_False in Hslots by lia. by subst.
Qed.

Lemma find_or_add_spec t f c n : table_ok t → f ≠ 0 → n ≠ 0 →
  match FindOrAddPeer f n c t with
  | (CHIP_NO_ERROR, Some slot, t') => table_ok t' ∧ ∃ p, points_to slot t' f c n p ∧
      (t' = t ∧ holds t f c n p ∨ p = NotSynced ∧ added t t' f c n ∧ ¬ known t f c n ∧ ¬ full t f c)
  | (CHIP_ERROR_TOO_MANY_PEER_NODES, None, t') => t' = t ∧ full t f c ∧ ¬ known t f c n
  | _ => False
  end.
Proof.
  intros Hok Hf Hn. pose proof Hok as (Hlen & [N Hc] & Hall). unfold FindOrAddPeer.
  rewrite (proj2 (Z.eqb_neq f kUndefinedFabricIndex) Hf), (proj2 (Z.eqb_neq n kUndefinedNodeId) Hn). cbn [orb].
  pose proof (scan_spec mFabricIndex empty_fabric eq_refl N t f Hc Hf) as Hscan.
  destruct (scan mFabricIndex f t) as [k|].
  2: { destruct Hscan as [HN Hne]. split_and!; [done| |].
    - right. intros g Hg. split; [by eapply (compact_used _ empty_fabric)|by apply Hne].
    - intros (p & g & [_ Hg] & E & _). by apply Hne in Hg. }
  destruct Hscan as (g & Hk & Hg). rewrite Hk. destruct (Z.eqb_spec (mFabricIndex g) kUndefinedFabricIndex) as [E0|E0].
  - destruct Hg as [Hg|(-> & -> & Hne)]; [unfold kUndefinedFabricIndex in E0; congruence|].
    set (h := empty_fabric <| mFabricIndex := f |>).
    destruct (add_peer N t N empty_fabric (fun _ => O) c n Hok Hc Hk h) as (H1 & H2 & H3 & H4 & H5); try done.
    + intros c'. destruct (empty_fabric_ok c') as (? & ? & ?). by destruct c'.
    + destruct c; unfold capacity, CHIP_CONFIG_MAX_GROUP_CONTROL_PEERS, CHIP_CONFIG_MAX_GROUP_DATA_PEERS; lia.
    + intros y Hy. assert (y = empty_sender) as -> by (apply (empty_senders c); by destruct c). done.
    + right. split_and!; [done..|]. intros c' n' p' [Hn' Hin]%sender_of_index. apply empty_senders in Hin. by injection Hin as ->.
    + split; [done|]. eexists. split; [done|]. by right.
  - destruct Hg as [Hg|(_ & -> & _)]; [|done]. subst f.
    assert (member mFabricIndex t g) as Hgm by (split; [done|by eapply list_elem_of_lookup_2]).
    destruct (Hall g Hgm) as (K & HK & Hpos). destruct (HK c) as (Hcs & Hcap & _).
    pose proof (scan_spec mNodeId empty_sender eq_refl (K c) _ n Hcs Hn) as Hs.
    destruct (scan mNodeId n (senders c g)) as [i|].
    + destruct Hs as (s & Hi & Hs). rewrite Hi. destruct (Z.eqb_spec (mNodeId s) kUndefinedNodeId) as [Es|Es].
      * destruct Hs as [Hs|(-> & -> & Hfresh)]; [unfold kUndefinedNodeId in Es; congruence|].
        destruct (add_peer N t k g K c n Hok Hc Hk g) as (H1 & H2 & H3 & H4 & H5); try done.
        -- apply lookup_lt_Some in Hi. lia.
        -- by left.
        -- split; [done|]. eexists. split; [done|]. by right.
      * destruct Hs as [Hs|(_ & -> & _)]; [|done]. split; [done|]. destruct s as [n' p]. cbn in Hs. subst n'. exists p.
        split; [split_and!; [done|unfold peer_at; cbn; by rewrite Hk|by eexists]|left]. split; [done|].
        exists g. split_and!; [done..|]. split; [done|]. by eapply list_elem_of_lookup_2.
    + destruct Hs as [HKc Hne]. split_and!; [done| |].
      * left. exists g. split_and!; [done..|]. intros s. by eapply (compact_used _ empty_sender).
      * intros [p Hp]. apply (holds_at N t g c n p Hc Hgm) in Hp as [_ Hp]. by apply Hne in Hp.
Qed.

(** *** [RemovePeer] and [FabricRemoved] *)
Definition removed (t t' : GroupPeerTable) (gone : Z → bool → Z → Prop) : Prop :=
  ∀ a c n p, holds t' a c n p ↔ holds t a c n p ∧ ¬ gone a c n.

Lemma compact_zero {A} (key : A → Z) e (l : list A) y : key e = 0 → compact key e 0 l → ¬ member key l y.
Proof. intros He Hc [Hy [m Hm]%list_elem_of_lookup]. apply (compact_key key e He _ _ _ _ Hc Hm) in Hy. lia. Qed.

Lemma drop_node_spec K g c n l' : (∀ c, senders_ok c g (K c)) → (0 < K c)%nat → compact mNodeId empty_sender (K c - 1) l' →
  length l' = length (senders c g) → (∀ y, member mNodeId l' y ↔ member mNodeId (senders c g) y ∧ mNodeId y ≠ n) →
  let g' := add_count c (-1) (set_senders c l' g) in
  (∀ c', senders_ok c' g' (if decide (c' = c) then K c - 1 else K c')%nat) ∧ mFabricIndex g' = mFabricIndex g ∧
  ∀ c' n' p, sender_of g' c' n' p ↔ sender_of g c' n' p ∧ ¬ (c' = c ∧ n' = n).
Proof.
  intros HK HKc Hc' Hlen' Hm g'. destruct (HK c) as (Hcs & Hcap & Hcount).
  assert (∀ c', senders c' g' = if decide (c' = c) then l' else senders c' g) as Hs.
  { intros c'. unfold g'. by rewrite senders_count, senders_set. }
  split_and!; [|by destruct c|].
  - intros c'. unfold senders_ok. rewrite Hs. unfold g'. rewrite count_add, !count_set. case_decide; [subst c'|by apply HK].
    split_and!; [done|by rewrite Hlen'|]. rewrite Hcount. pose proof (capacity_small c). destruct Hcs as [HKl _].
    rewrite wrap_small by (unfold in_u; change (2 ^ 8) with 256; lia). lia.
  - intros c' n' p. unfold sender_of. rewrite Hs. case_decide; [subst c'; rewrite Hm; cbn; naive_solver|naive_solver].
Qed.

Lemma remove_spec t f n c : table_ok t → f ≠ 0 → n ≠ 0 →
  match RemovePeer f n c t with
  | (CHIP_NO_ERROR, t') => table_ok t' ∧ known t f c n ∧ removed t t' (fun a c' n' => a = f ∧ c' = c ∧ n' = n)
  | (CHIP_ERROR_NOT_FOUND, t') => t' = t ∧ ¬ known t f c n
  | _ => False
  end.
Proof.
  intros Hok Hf Hn. pose proof Hok as (Hlen & [N Hc] & Hall). unfold RemovePeer.
  rewrite (proj2 (Z.eqb_neq f kUndefinedFabricIndex) Hf), (proj2 (Z.eqb_neq n kUndefinedNodeId) Hn). cbn [orb].
  pose proof (find_key_spec mFabricIndex empty_fabric eq_refl t f) as Hk.
  destruct (find_key mFabricIndex f t) as [it|]; [|split; [done|]; intros (p & g & [_ Hg] & E & _); by apply Hk in Hg].
  destruct Hk as (g & Hit & <-). rewrite Hit.
  assert (member mFabricIndex t g) as Hgm by (split; [done|by eapply list_elem_of_lookup_2]).
  destruct (Hall g Hgm) as (K & HK & Hpos). destruct (HK c) as (Hcs & Hcap & Hcount).
  pose proof (remove_sender (K c) (senders c g) n Hcs Hn) as Hr.
  destruct (RemoveSpecificPeer (senders c g) n) as [[] l'].
  2: { split; [done|]. intros [p [_ Hp]%(holds_at N t g c n p Hc Hgm)]. by apply Hr in Hp. }
  destruct Hr as (Hc' & Hlen' & HKc & (x & Hx & Hxn) & Hm).
  destruct (drop_node_spec K g c n l' HK HKc Hc' Hlen' Hm) as (HK' & Hidx & Hsend).
  set (g' := add_count c (-1) _) in *. set (K' := fun c' => if decide (c' = c) then (K c - 1)%nat else K c').
  assert (known t (mFabricIndex g) c n) as Hknown.
  { exists (msgCounter x). apply (holds_at N t g c n _ Hc Hgm). unfold sender_of. subst n. by destruct x. }
  destruct ((mDataPeerCount g' =? 0) && (mControlPeerCount g' =? 0)) eqn:Hzero.
  - apply andb_true_iff in Hzero as [Hd%Z.eqb_eq Hct%Z.eqb_eq].
    assert (∀ c' n' p, sender_of g c' n' p → c' = c ∧ n' = n) as Hlast.
    { intros c' n' p Hp. destruct (decide (c' = c ∧ n' = n)) as [|Hne]; [done|].
      assert (sender_of g' c' n' p) as Hp' by (by apply Hsend). destruct (HK' c') as (Hck & _ & Hcount'). fold (K' c') in Hck, Hcount'.
      assert (K' c' = O) as E by (destruct c'; cbn [peer_count] in Hcount'; lia). rewrite E in Hck.
      by apply (compact_zero mNodeId empty_sender _ _ eq_refl Hck) in Hp'. }
    assert (RemoveAndCompactFabric it (<[it := g']> t) = RemoveAndCompactFabric it t) as ->.
    { pose proof (lookup_lt_Some _ _ _ Hit). unfold RemoveAndCompactFabric. rewrite (proj2 (Nat.leb_gt _ _)) by lia. by rewrite list_insert_insert_eq. }
    destruct (remove_fabric t it g Hok Hit Hf) as [Hok' Hholds]. split_and!; [done..|].
    intros a c' n' p. rewrite Hholds. split; [tauto|]. intros [Hh Hne]. split; [done|]. intros ->. apply Hne. split; [done|].
    apply (Hlast c' n' p). by apply (holds_at N t g c' n' p Hc Hgm).
  - assert (fabric_ok g') as Hg'.
    { exists K'. split; [done|]. destruct (HK' true) as (_ & _ & Ht). destruct (HK' false) as (_ & _ & Hfl). cbn [peer_count] in Ht, Hfl.
      fold (K' true) in Ht. fold (K' false) in Hfl.
      apply andb_false_iff in Hzero as [Hz%Z.eqb_neq|Hz%Z.eqb_neq]; lia. }
    split_and!; [eapply (table_put N t it g g'); [done..|by rewrite Hidx|by left]|done|].
    intros a c' n' p. rewrite (holds_put N t it g g' a c' n' p Hc Hit ltac:(by rewrite Hidx) ltac:(by left)). rewrite Hidx, Hsend.
    destruct (decide (a = mFabricIndex g)) as [->|]; [|tauto]. rewrite (holds_at N t g c' n' p Hc Hgm). tauto.
Qed.

Lemma fabric_removed_spec t f : table_ok t → f ≠ 0 →
  match FabricRemoved f t with
  | (CHIP_NO_ERROR, t') => table_ok t' ∧ removed t t' (fun a _ _ => a = f)
  | (CHIP_ERROR_NOT_FOUND, t') => t' = t ∧ ∀ c n, ¬ known t f c n
  | _ => False
  end.
Proof.
  intros Hok Hf. unfold FabricRemoved. rewrite (proj2 (Z.eqb_neq f kUndefinedFabricIndex) Hf).
  pose proof (find_key_spec mFabricIndex empty_fabric eq_refl t f) as Hk.
  destruct (find_key mFabricIndex f t) as [it|].
  - destruct Hk as (g & Hit & <-). destruct (remove_fabric t it g Hok Hit Hf) as [Hok' Hh]. split; [done|]. exact Hh.
  - split; [done|]. intros c n (p & g & [_ Hg] & E & _). by apply Hk in Hg.
Qed.

(** The table of group peers is a finite map from (fabric, kind, node) to the
    peer's counter, with bounded room.  From a well-formed table, looking a peer up
    gives a pointer to its counter and changes nothing if it is known; else it
    adds the peer, unsynchronised, and nothing else; it fails exactly when the peer
    is unknown and its array or the table is full.  Removing a peer or a fabric
    takes away exactly those entries, and fails exactly when there is none.  Each
    call keeps the table well-formed: the used slots in front, the keys distinct,
    the counts exact. *)
Theorem group_table_correct t f n c : table_ok t → f ≠ 0 → n ≠ 0 →
  match FindOrAddPeer f n c t with
  | (CHIP_NO_ERROR, Some slot, t') => table_ok t' ∧ ∃ p, points_to slot t' f c n p ∧
      (t' = t ∧ holds t f c n p ∨ p = NotSynced ∧ added t t' f c n ∧ ¬ known t f c n ∧ ¬ full t f c)
  | (CHIP_ERROR_TOO_MANY_PEER_NODES, None, t') => t' = t ∧ full t f c ∧ ¬ known t f c n
  | _ => False
  end ∧
  match RemovePeer f n c t with
  | (CHIP_NO_ERROR, t') => table_ok t' ∧ known t f c n ∧ removed t t' (fun a c' n' => a = f ∧ c' = c ∧ n' = n)
  | (CHIP_ERROR_NOT_FOUND, t') => t' = t ∧ ¬ known t f c n
  | _ => False
  end ∧
  match FabricRemoved f t with
  | (CHIP_NO_ERROR, t') => table_ok t' ∧ removed t t' (fun a _ _ => a = f)
  | (CHIP_ERROR_NOT_FOUND, t') => t' = t ∧ ∀ c n, ¬ known t f c n
  | _ => False
  end.
Proof. intros. split_and!; [by apply find_or_add_spec|by apply remove_spec|by apply fabric_removed_spec]. Qed.

(** *** Group messages *)
Definition synced_table (t : GroupPeerTable) : Prop :=
  ∀ f c n p, holds t f c n p → ∃ h, represents GroupSession p h.
Definition same_but (t t' : GroupPeerTable) (f : Z) (c : bool) (n : Z) : Prop :=
  ∀ a c' n' q, ¬ (a = f ∧ c' = c ∧ n' = n) → holds t' a c' n' q ↔ holds t a c' n' q.

Lemma first_message counter : SecureGroupMessageDispatch counter NotSynced = Some (Delivered false, SetCounter counter NotSynced).
Proof.
  unfold SecureGroupMessageDispatch, CommitGroup. cbn. unfold ClassifyWithRollover, ClassifyNonFutureCounter.
  by rewrite Z.sub_diag, Z.eqb_refl.
Qed.

(** Writing the counter of the slot that [FindOrAddPeer] returned. *)
Lemma deliver_at t t1 slot f c n p p' : table_ok t1 → points_to slot t1 f c n p → f ≠ 0 → n ≠ 0 →
  synced_table t → (∃ h, represents GroupSession p' h) →
  (∀ a c' n' q, ¬ (a = f ∧ c' = c ∧ n' = n) → holds t1 a c' n' q ↔ holds t a c' n' q) →
  let t' := put_counter slot p' t1 in
  table_ok t' ∧ synced_table t' ∧ same_but t t' f c n ∧ holds t' f c n p'.
Proof.
  intros Hok (<- & Hp & gf & Hgf & Hidx) Hf Hn Hsync Hp' Hsame t'. subst f.
  destruct (put_counter_spec t1 slot n p p' gf Hok Hgf Hf Hp Hn) as [Hok' Hh]. split_and!; [done| | |].
  - intros a c' n' q Hq. unfold t' in Hq. rewrite Hh in Hq. case_decide as Hd; [by subst q|]. eapply Hsync, Hsame; done.
  - intros a c' n' q Hne. unfold t'. rewrite Hh, decide_False by done. by apply Hsame.
  - unfold t'. by rewrite Hh, decide_True by done.
Qed.

Lemma holds_unique t f c n p q : table_ok t → holds t f c n p → holds t f c n q → p = q.
Proof.
  intros (_ & [N Hc] & Hall) (g & Hg & <- & Hp) Hq%(holds_at N t g c n q Hc Hg). destruct (Hall g Hg) as (K & HK & _).
  destruct (HK c) as (Hcs & _). pose proof (member_unique mNodeId empty_sender eq_refl _ _ _ _ Hcs Hp Hq eq_refl) as E. by injection E.
Qed.

Lemma group_known p h counter : represents GroupSession p h → in_u 32 counter →
  let a := absolute GroupSession h counter in
  ∃ p', SecureGroupMessageDispatch counter p = Some (if is_new GroupSession h a then Delivered false else Discarded, p') ∧
    represents GroupSession p' (if is_new GroupSession h a then record_new h a else h).
Proof.
  intros Hr Hc a. pose proof (dispatch_spec GroupSession false p h counter Hr Hc) as Hd. cbn [dispatch refused] in Hd.
  cbn zeta in Hd. fold a in Hd. destruct (is_new GroupSession h a); [|by exists p]. destruct Hd as (p' & ? & ?). by exists p'.
Qed.

(** C29: A group message is judged by the history of its own sender.  From a
    well-formed table, the message of a peer whose counter stands for a history is
    delivered exactly if its counter is new in that history, which then records
    it; the first message of a peer is delivered and starts its history; when
    there is no room for the peer the message is discarded and the table stays as
    it is.  No message changes the counter of another peer, nor aborts. *)
Theorem group_message_isolated t f n c counter : table_ok t → synced_table t → f ≠ 0 → n ≠ 0 → in_u 32 counter →
  ∃ d t', group_message f n c counter t = Some (d, t') ∧ table_ok t' ∧ synced_table t' ∧ same_but t t' f c n ∧
    (∀ p h, holds t f c n p → represents GroupSession p h → let a := absolute GroupSession h counter in
       d = (if is_new GroupSession h a then Delivered false else Discarded) ∧
       ∃ p', holds t' f c n p' ∧ represents GroupSession p' (if is_new GroupSession h a then record_new h a else h)) ∧
    (¬ known t f c n → ¬ full t f c → d = Delivered false ∧
       ∃ p', holds t' f c n p' ∧ represents GroupSession p' (started counter)) ∧
    (¬ known t f c n → full t f c → d = Discarded ∧ t' = t).
Proof.
  intros Hok Hsync Hf Hn Hc. unfold group_message. pose proof (find_or_add_spec t f c n Hok Hf Hn) as Hfind.
  destruct (FindOrAddPeer f n c t) as [[err [slot|]] t1]; [|destruct err; try done].
  2: { destruct Hfind as (-> & Hfull & Hunk). exists Discarded, t. split_and!; [done..| | |tauto|done].
    - by intros a c' n' q _.
    - intros p h Hp. destruct Hunk. by exists p. }
  destruct err; try done. destruct Hfind as (Hok1 & p & Hpt & Hcase). rewrite (proj1 (proj2 Hpt)). cbn [msgCounter].
  destruct Hcase as [[-> Hp]|(-> & Hadd & Hunk & Hroom)].
  - destruct (Hsync _ _ _ _ Hp) as [h0 Hr0]. destruct (group_known p h0 counter Hr0 Hc) as (p' & Hd & Hr').
    rewrite Hd. cbn [fst snd].
    destruct (deliver_at t t slot f c n p p' Hok1 Hpt Hf Hn Hsync) as (H1 & H2 & H3 & H4); [by eexists|done|].
    eexists _, _. split_and!; [done..| |intros []; by exists p|intros []; by exists p].
    intros p2 h Hp2 Hr2. rewrite (holds_unique t f c n p2 p Hok Hp2 Hp) in Hr2.
    destruct (group_known p h counter Hr2 Hc) as (p3 & Hd3 & Hr3). rewrite Hd in Hd3. injection Hd3 as E <-.
    split; [done|]. by exists p'.
  - rewrite first_message. cbn [fst snd].
    destruct (deliver_at t t1 slot f c n NotSynced (SetCounter counter NotSynced) Hok1 Hpt Hf Hn Hsync) as (H1 & H2 & H3 & H4).
    { exists (started counter). by apply represents_started. }
    { intros a c' n' q Hne. rewrite (Hadd a c' n' q). tauto. }
    eexists _, _. split_and!; [done..| | |].
    + intros p h Hp. destruct Hunk. by exists p.
    + intros _ _. split; [done|]. exists (SetCounter counter NotSynced). split; [done|]. by apply represents_started.
    + by intros _ ?%Hroom.
Qed.

Module GroupDemo.
Lemma empty_table_ok : table_ok empty_table ∧ ∀ f c n p, ¬ holds empty_table f c n p.
Proof.
  split.
  - split_and!; [done|exists O; by apply compact_replicate|]. intros f [Hf [-> _]%elem_of_replicate]. done.
  - intros f c n p (g & [Hg [-> _]%elem_of_replicate] & _). done.
Qed.

Example exchange : ∃ t, 
  (let! r1 := group_message 1 7 false 100 empty_table in
   let! r2 := group_message 1 8 false 100 (snd r1) in
   let! r3 := group_message 1 7 false 100 (snd r2) in
   let! r4 := group_message 1 7 true 100 (snd r3) in
   Some ([fst r1; fst r2; fst r3; fst r4], snd r4)) = Some ([Delivered false; Delivered false; Discarded; Delivered false], t).
Proof. eexists. vm_compute. reflexivity. Qed.

Definition demo_slot : counter_slot := {| cs_fabric := 0; cs_control := false; cs_sender := 0 |}.
Definition demo_table : GroupPeerTable := put_counter demo_slot (Synced 100 0) (snd (FindOrAddPeer 1 7 false empty_table)).

Lemma demo_table_ok : table_ok demo_table ∧ synced_table demo_table ∧ holds demo_table 1 false 7 (Synced 100 0).
Proof.
  destruct empty_table_ok as [Hok Hnone]. pose proof (find_or_add_spec empty_table 1 false 7 Hok ltac:(done) ltac:(done)) as H.
  assert (FindOrAddPeer 1 7 false empty_table = (CHIP_NO_ERROR, Some demo_slot, snd (FindOrAddPeer 1 7 false empty_table))) as E
    by (vm_compute; reflexivity).
  rewrite E in H. destruct H as (Hok1 & p & Hpt & Hcase). destruct Hcase as [[_ []%Hnone]|(-> & Hadd & _)].
  destruct (deliver_at empty_table _ demo_slot 1 false 7 NotSynced (Synced 100 0) Hok1 Hpt) as (H1 & _ & H2 & H3); [done..| | | |].
  - intros f c n p Hp. by apply Hnone in Hp.
  - exists (started 100). by apply (represents_started GroupSession NotSynced 100).
  - intros a c' n' q Hne. rewrite (Hadd a c' n' q). tauto.
  - split_and!; [done| |done]. intros f c n p Hp. destruct (decide (f = 1 ∧ c = false ∧ n = 7)) as [(-> & -> & ->)|Hne].
    + rewrite (holds_unique demo_table 1 false 7 p (Synced 100 0) H1 Hp H3).
      exists (started 100). by apply (represents_started GroupSession NotSynced 100).
    + apply H2 in Hp; [|done]. by apply Hnone in Hp.
Qed.

Lemma group_table_correct_witness : ∃ t', RemovePeer 1 7 false demo_table = (CHIP_NO_ERROR, t') ∧ table_ok t'.
Proof.
  destruct (group_table_correct demo_table 1 7 false (proj1 demo_table_ok) ltac:(done) ltac:(done)) as (_ & H & _).
  assert (fst (RemovePeer 1 7 false demo_table) = CHIP_NO_ERROR) as E by (vm_compute; reflexivity).
  destruct (RemovePeer 1 7 false demo_table) as [err t']. cbn in E. subst err. exists t'. split; [done|]. exact (proj1 H).
Defined.

Lemma group_message_isolated_witness :
  ∃ t', group_message 1 7 false 101 demo_table = Some (Delivered false, t') ∧ table_ok t' ∧ same_but demo_table t' 1 false 7.
Proof.
  destruct demo_table_ok as (Hok & Hsync & Hh).
  destruct (group_message_isolated demo_table 1 7 false 101 Hok Hsync ltac:(done) ltac:(done) ltac:(done))
    as (d & t' & E & H1 & _ & H2 & H3 & _).
  exists t'. destruct (H3 _ _ Hh (represents_started GroupSession NotSynced 100 ltac:(done))) as [Hd _].
  vm_compute in Hd. subst d. split; [exact E|]. split; [exact H1|exact H2].
Defined.
End GroupDemo.
