(* ===== verification/MessageHeader.v ===== *)
(** * MessageHeader: the headers of a message

    [src/src/transport/raw/MessageHeader.h] and [MessageHeader.cpp]: the packet
    header and the payload header, their setters, encoders and decoders, and the
    authentication tag; with the reader of [src/src/lib/support/BufferReader.h] and
    [BufferReader.cpp] on buffers below 64 kB.

    A decoder is a sequence of steps on the reader and the header: the first error
    ends it, with the header as it is then.  [EncodeBeforeData], which makes room in
    a packet buffer, is not modelled. *)
From S2P Require Import Prelude Zcl ChipError.

(** ** The reader *)
Record Reader := { rd_rest : bytes; OctetsRead : Z }.
Definition Remaining (r : Reader) : Z := Z.of_nat (length (rd_rest r)).
Definition read_u (n : nat) (r : Reader) : CHIP_ERROR + Z * Reader :=
  if (length (rd_rest r) <? n)%nat then inl CHIP_ERROR_BUFFER_TOO_SMALL
  else inr (le_val (take n (rd_rest r)), {| rd_rest := drop n (rd_rest r); OctetsRead := OctetsRead r + Z.of_nat n |}).
Definition Skip (len : Z) (r : Reader) : Reader :=
  let len := Z.min len (Remaining r) in
  {| rd_rest := drop (Z.to_nat len) (rd_rest r); OctetsRead := OctetsRead r + len |}.

(** ** Steps of a decoder *)
Definition step (S : Type) : Type := Reader → S → CHIP_ERROR * S * Reader.
Section steps.
Context {S : Type}.
Definition andthen (a b : step S) : step S := fun r h =>
  match a r h with
  | (CHIP_NO_ERROR, h, r) => b r h
  | e => e
  end.
Definition assign (f : S → S) : step S := fun r h => (CHIP_NO_ERROR, f h, r).
Definition read_into (n : nat) (f : Z → S → S) : step S := fun r h =>
  match read_u n r with
  | inl err => (err, h, r)
  | inr (v, r) => (CHIP_NO_ERROR, f v h, r)
  end.
Definition read_then (n : nat) (k : Z → step S) : step S := fun r h =>
  match read_u n r with
  | inl err => (err, h, r)
  | inr (v, r) => k v r h
  end.
Definition verify (p : S → bool) (err : CHIP_ERROR) : step S := fun r h =>
  (if p h then CHIP_NO_ERROR else err, h, r).
Definition branch (p : S → bool) (a b : step S) : step S := fun r h => if p h then a r h else b r h.
(** Skips a block whose length comes first. *)
Definition skip_block : step S :=
  read_then 2 (fun len r h => if len <=? Remaining r then (CHIP_NO_ERROR, h, Skip len r) else (CHIP_ERROR_INTERNAL, h, r)).
End steps.
#[local] Infix ">>>" := andthen (at level 60, right associativity).

(** [BitFlags::Set(flag, isSet)] and [HasAll] *)
Definition flag_SetTo (m f : Z) (isSet : bool) : Z := if isSet then flag_Set m f else flag_Clear m f.
Definition flag_HasAll (m f : Z) : bool := Z.land m f =? f.

(** ** The packet header *)
Definition kUnicastSession : Z := 0.
Definition kGroupSession : Z := 1.
Definition kSourceNodeIdPresent : Z := 0x04.
Definition kDestinationNodeIdPresent : Z := 0x01.
Definition kDestinationGroupIdPresent : Z := 0x02.
Definition kPrivacyFlag : Z := 0x80.
Definition kControlMsgFlag : Z := 0x40.
Definition kMsgExtensionFlag : Z := 0x20.
Definition kSessionTypeMask : Z := 0x03.
Definition kMsgUnicastSessionIdUnsecured : Z := 0.
Definition CHIP_CRYPTO_AEAD_MIC_LENGTH_BYTES : Z := 16.
Definition kFixedUnencryptedHeaderSizeBytes : Z := 8.
Definition kEncryptedHeaderSizeBytes : Z := 6.
Definition kNodeIdSizeBytes : Z := 8.
Definition kGroupIdSizeBytes : Z := 2.
Definition kVendorIdSizeBytes : Z := 2.
Definition kAckMessageCounterSizeBytes : Z := 4.
Definition kVersionMask : Z := 0xF0.
Definition kMsgFlagsMask : Z := 0x07.
Definition kVersionShift : Z := 4.
Definition kMsgHeaderVersion : Z := 0.
Definition kPrivacyHeaderMinLength : Z := 4.

Record PacketHeader := {
  mMessageCounter : Z;
  mSourceNodeId : option Z;
  mDestinationNodeId : option Z;
  mDestinationGroupId : option Z;
  mSessionId : Z;
  mSessionType : Z;
  mMsgFlags : Z;
  mSecFlags : Z }.
#[export] Instance eta_packet : Eta PacketHeader := fun h =>
  {| mMessageCounter := mMessageCounter h; mSourceNodeId := mSourceNodeId h; mDestinationNodeId := mDestinationNodeId h;
     mDestinationGroupId := mDestinationGroupId h; mSessionId := mSessionId h; mSessionType := mSessionType h;
     mMsgFlags := mMsgFlags h; mSecFlags := mSecFlags h |}.
Definition default_packet : PacketHeader :=
  {| mMessageCounter := 0; mSourceNodeId := None; mDestinationNodeId := None; mDestinationGroupId := None;
     mSessionId := kMsgUnicastSessionIdUnsecured; mSessionType := kUnicastSession; mMsgFlags := 0; mSecFlags := 0 |}.

Definition has_value {A} (o : option A) : bool := match o with Some _ => true | None => false end.

Definition HasPrivacyFlag (h : PacketHeader) : bool := flag_Has (mSecFlags h) kPrivacyFlag.
Definition HasSourceNodeId (h : PacketHeader) : bool := flag_Has (mMsgFlags h) kSourceNodeIdPresent.
Definition HasDestinationNodeId (h : PacketHeader) : bool := flag_Has (mMsgFlags h) kDestinationNodeIdPresent.
Definition HasDestinationGroupId (h : PacketHeader) : bool := flag_Has (mMsgFlags h) kDestinationGroupIdPresent.
Definition SetSecurityFlags (securityFlags : Z) (h : PacketHeader) : PacketHeader :=
  h <| mSecFlags := securityFlags |> <| mSessionType := Z.land securityFlags kSessionTypeMask |>.
Definition IsGroupSession (h : PacketHeader) : bool := mSessionType h =? kGroupSession.
Definition IsUnicastSession (h : PacketHeader) : bool := mSessionType h =? kUnicastSession.
Definition IsSessionTypeValid (h : PacketHeader) : bool := IsUnicastSession h || IsGroupSession h.
Definition IsSecureSessionControlMsg (h : PacketHeader) : bool := flag_Has (mSecFlags h) kControlMsgFlag.
Definition IsValidGroupMsg (h : PacketHeader) : bool :=
  IsGroupSession h && HasSourceNodeId h && HasDestinationGroupId h && negb (IsSecureSessionControlMsg h).
Definition IsValidMCSPMsg (h : PacketHeader) : bool :=
  IsGroupSession h && HasSourceNodeId h && HasDestinationNodeId h && IsSecureSessionControlMsg h.
Definition IsEncrypted (h : PacketHeader) : bool :=
  negb ((mSessionId h =? kMsgUnicastSessionIdUnsecured) && IsUnicastSession h).
Definition MICTagLength (h : PacketHeader) : Z := if IsEncrypted h then CHIP_CRYPTO_AEAD_MIC_LENGTH_BYTES else 0.

(** The setters; an argument that is an [Optional] covers the setter of a value
    and the one that clears it. *)
Definition SetSecureSessionControlMsg (value : bool) (h : PacketHeader) : PacketHeader :=
  h <| mSecFlags ::= (fun m => flag_SetTo m kControlMsgFlag value) |>.
Definition SetSourceNodeId (id : option Z) (h : PacketHeader) : PacketHeader :=
  h <| mSourceNodeId := id |> <| mMsgFlags ::= (fun m => flag_SetTo m kSourceNodeIdPresent (has_value id)) |>.
Definition SetDestinationNodeId (id : option Z) (h : PacketHeader) : PacketHeader :=
  h <| mDestinationNodeId := id |> <| mMsgFlags ::= (fun m => flag_SetTo m kDestinationNodeIdPresent (has_value id)) |>.
Definition SetDestinationGroupId (id : option Z) (h : PacketHeader) : PacketHeader :=
  h <| mDestinationGroupId := id |> <| mMsgFlags ::= (fun m => flag_SetTo m kDestinationGroupIdPresent (has_value id)) |>.
Definition SetSessionType (type : Z) (h : PacketHeader) : PacketHeader :=
  h <| mSessionType := type |>
    <| mSecFlags ::= (fun m => u8 (Z.lor (Z.land m (Z.lnot kSessionTypeMask)) (Z.land type kSessionTypeMask))) |>.
Definition SetSessionId (id : Z) (h : PacketHeader) : PacketHeader := h <| mSessionId := id |>.
Definition SetMessageCounter (id : Z) (h : PacketHeader) : PacketHeader := h <| mMessageCounter := id |>.
Definition SetUnsecured (h : PacketHeader) : PacketHeader :=
  h <| mSessionId := kMsgUnicastSessionIdUnsecured |> <| mSessionType := kUnicastSession |>.

Definition PrivacyHeaderLength (h : PacketHeader) : Z :=
  let length := kPrivacyHeaderMinLength in
  let length := if flag_Has (mMsgFlags h) kSourceNodeIdPresent then length + 8 else length in
  if flag_Has (mMsgFlags h) kDestinationNodeIdPresent then length + 8
  else if flag_Has (mMsgFlags h) kDestinationGroupIdPresent then length + 2
  else length.
Definition PayloadOffset (h : PacketHeader) : Z := kPrivacyHeaderMinLength + PrivacyHeaderLength h.

Definition Packet_EncodeSizeBytes (h : PacketHeader) : Z :=
  let size := kFixedUnencryptedHeaderSizeBytes in
  let size := if has_value (mSourceNodeId h) then size + kNodeIdSizeBytes else size in
  if has_value (mDestinationNodeId h) then size + kNodeIdSizeBytes
  else if has_value (mDestinationGroupId h) then size + kGroupIdSizeBytes
  else size.

(** The message flags that [Encode] writes. *)
Definition encoded_flags (h : PacketHeader) : Z :=
  let messageFlags := flag_SetTo (mMsgFlags h) kSourceNodeIdPresent (has_value (mSourceNodeId h)) in
  let messageFlags := flag_SetTo messageFlags kDestinationNodeIdPresent (has_value (mDestinationNodeId h)) in
  let messageFlags := flag_SetTo messageFlags kDestinationGroupIdPresent (has_value (mDestinationGroupId h)) in
  Z.lor (Z.shiftl kMsgHeaderVersion kVersionShift) (Z.land messageFlags kMsgFlagsMask).
Definition packet_bytes (h : PacketHeader) : bytes :=
  le_bytes 1 (encoded_flags h) ++ le_bytes 2 (mSessionId h) ++ le_bytes 1 (mSecFlags h) ++ le_bytes 4 (mMessageCounter h) ++
  match mSourceNodeId h with Some id => le_bytes 8 id | None => [] end ++
  match mDestinationNodeId h with
  | Some id => le_bytes 8 id
  | None => match mDestinationGroupId h with Some id => le_bytes 2 id | None => [] end
  end.

(** The error, the buffer and the encoded size; the last is unset on an error. *)
Definition Packet_Encode (data : bytes) (size : Z) (h : PacketHeader) : option (CHIP_ERROR * bytes * option Z) :=
  if size <? Packet_EncodeSizeBytes h then Some (CHIP_ERROR_INVALID_ARGUMENT, data, None)
  else if has_value (mDestinationNodeId h) && has_value (mDestinationGroupId h) then Some (CHIP_ERROR_INTERNAL, data, None)
  else if negb (IsSessionTypeValid h) then Some (CHIP_ERROR_INTERNAL, data, None)
  else
    let! data := mwrite data 0 (packet_bytes h) in
    let n := Z.of_nat (length (packet_bytes h)) in
    Some (if n =? Packet_EncodeSizeBytes h then (CHIP_NO_ERROR, data, Some n) else (CHIP_ERROR_INTERNAL, data, None)).

Definition DecodeFixedCommon : step PacketHeader :=
  read_then 1 (fun msgFlags =>
    verify (fun _ => Z.shiftr (Z.land msgFlags kVersionMask) kVersionShift =? kMsgHeaderVersion) CHIP_ERROR_VERSION_MISMATCH >>>
    assign (fun h => h <| mMsgFlags := msgFlags |>)) >>>
  read_into 2 SetSessionId >>>
  read_into 1 SetSecurityFlags.

Definition Packet_DecodeFixed (buf : bytes) (h : PacketHeader) : CHIP_ERROR * PacketHeader :=
  fst (DecodeFixedCommon {| rd_rest := buf; OctetsRead := 0 |} h).

Definition packet_steps : step PacketHeader :=
  DecodeFixedCommon >>>
  read_into 4 SetMessageCounter >>>
  branch HasSourceNodeId (read_into 8 (fun id h => h <| mSourceNodeId := Some id |>)) (assign (fun h => h <| mSourceNodeId := None |>)) >>>
  verify IsSessionTypeValid CHIP_ERROR_INTERNAL >>>
  branch (fun h => flag_HasAll (mMsgFlags h) (Z.lor kDestinationNodeIdPresent kDestinationGroupIdPresent))
    (verify (fun _ => false) CHIP_ERROR_INTERNAL)
    (branch HasDestinationNodeId
      (read_into 8 (fun id h => h <| mDestinationNodeId := Some id |> <| mDestinationGroupId := None |>))
      (branch HasDestinationGroupId
        (verify IsGroupSession CHIP_ERROR_INTERNAL >>>
         read_into 2 (fun id h => h <| mDestinationGroupId := Some id |> <| mDestinationNodeId := None |>))
        (assign (fun h => h <| mDestinationNodeId := None |> <| mDestinationGroupId := None |>)))) >>>
  branch (fun h => flag_Has (mSecFlags h) kMsgExtensionFlag) skip_block (assign id).

(** The error, the header, and the decoded length, which is set on success. *)
Definition Packet_Decode (data : bytes) (decode_len : Z) (h : PacketHeader) : CHIP_ERROR * PacketHeader * Z :=
  match packet_steps {| rd_rest := data; OctetsRead := 0 |} h with
  | (CHIP_NO_ERROR, h, r) => (CHIP_NO_ERROR, h, u16 (OctetsRead r))
  | (err, h, _) => (err, h, decode_len)
  end.
Definition Packet_DecodeAndConsume (buf : bytes) (h : PacketHeader) : CHIP_ERROR * PacketHeader * bytes :=
  match Packet_Decode buf 0 h with
  | (CHIP_NO_ERROR, h, headerSize) => (CHIP_NO_ERROR, h, drop (Z.to_nat headerSize) buf)
  | (err, h, _) => (err, h, buf)
  end.

(** ** The payload header *)
Definition kExchangeFlag_Initiator : Z := 0x01.
Definition kExchangeFlag_AckMsg : Z := 0x02.
Definition kExchangeFlag_NeedsAck : Z := 0x04.
Definition kExchangeFlag_SecuredExtension : Z := 0x08.
Definition kExchangeFlag_VendorIdPresent : Z := 0x10.
Definition VendorId_Common : Z := 0.

Record ProtocolId := { mVendorId : Z; mProtocolId : Z }.
Record PayloadHeader := {
  mMessageType : Z;
  mExchangeID : Z;
  mProtocolID : ProtocolId;
  mExchangeFlags : Z;
  mAckMessageCounter : option Z }.
#[export] Instance eta_payload : Eta PayloadHeader := fun h =>
  {| mMessageType := mMessageType h; mExchangeID := mExchangeID h; mProtocolID := mProtocolID h;
     mExchangeFlags := mExchangeFlags h; mAckMessageCounter := mAckMessageCounter h |}.

Definition HaveVendorId (h : PayloadHeader) : bool := flag_Has (mExchangeFlags h) kExchangeFlag_VendorIdPresent.
Definition SetProtocol (protocol : ProtocolId) (h : PayloadHeader) : PayloadHeader :=
  h <| mExchangeFlags ::= (fun m => flag_SetTo m kExchangeFlag_VendorIdPresent (negb (mVendorId protocol =? VendorId_Common))) |>
    <| mProtocolID := protocol |>.
Definition NotSpecified : ProtocolId := {| mVendorId := 0xFFFF; mProtocolId := 0xFFFF |}.
Definition default_payload : PayloadHeader := SetProtocol NotSpecified
  {| mMessageType := 0; mExchangeID := 0; mProtocolID := NotSpecified; mExchangeFlags := 0; mAckMessageCounter := None |}.
Definition SetMessageType (protocol : ProtocolId) (type : Z) (h : PayloadHeader) : PayloadHeader :=
  SetProtocol protocol h <| mMessageType := type |>.
Definition SetExchangeID (id : Z) (h : PayloadHeader) : PayloadHeader := h <| mExchangeID := id |>.
Definition SetInitiator (inInitiator : bool) (h : PayloadHeader) : PayloadHeader :=
  h <| mExchangeFlags ::= (fun m => flag_SetTo m kExchangeFlag_Initiator inInitiator) |>.
Definition SetAckMessageCounter (id : option Z) (h : PayloadHeader) : PayloadHeader :=
  h <| mAckMessageCounter := id |> <| mExchangeFlags ::= (fun m => flag_SetTo m kExchangeFlag_AckMsg (has_value id)) |>.
Definition SetNeedsAck (inNeedsAck : bool) (h : PayloadHeader) : PayloadHeader :=
  h <| mExchangeFlags ::= (fun m => flag_SetTo m kExchangeFlag_NeedsAck inNeedsAck) |>.
Definition IsInitiator (h : PayloadHeader) : bool := flag_Has (mExchangeFlags h) kExchangeFlag_Initiator.
Definition IsAckMsg (h : PayloadHeader) : bool := flag_Has (mExchangeFlags h) kExchangeFlag_AckMsg.
Definition NeedsAck (h : PayloadHeader) : bool := flag_Has (mExchangeFlags h) kExchangeFlag_NeedsAck.

Definition Payload_EncodeSizeBytes (h : PayloadHeader) : Z :=
  let size := kEncryptedHeaderSizeBytes in
  let size := if HaveVendorId h then size + kVendorIdSizeBytes else size in
  if has_value (mAckMessageCounter h) then size + kAckMessageCounterSizeBytes else size.
Definition payload_bytes (h : PayloadHeader) : bytes :=
  le_bytes 1 (mExchangeFlags h) ++ le_bytes 1 (mMessageType h) ++ le_bytes 2 (mExchangeID h) ++
  (if HaveVendorId h then le_bytes 2 (mVendorId (mProtocolID h)) else []) ++ le_bytes 2 (mProtocolId (mProtocolID h)) ++
  match mAckMessageCounter h with Some c => le_bytes 4 c | None => [] end.
Definition Payload_Encode (data : bytes) (size : Z) (h : PayloadHeader) : option (CHIP_ERROR * bytes * option Z) :=
  if size <? Payload_EncodeSizeBytes h then Some (CHIP_ERROR_INVALID_ARGUMENT, data, None)
  else
    let! data := mwrite data 0 (payload_bytes h) in
    let n := Z.of_nat (length (payload_bytes h)) in
    Some (if n =? Payload_EncodeSizeBytes h then (CHIP_NO_ERROR, data, Some n) else (CHIP_ERROR_INTERNAL, data, None)).

Definition payload_protocol (vendor_id : Z) : step PayloadHeader :=
  read_into 2 (fun protocol_id h => h <| mProtocolID := {| mVendorId := vendor_id; mProtocolId := protocol_id |} |>).
Definition payload_steps : step PayloadHeader :=
  read_then 1 (fun header =>
    read_into 1 (fun type h => h <| mMessageType := type |>) >>>
    read_into 2 SetExchangeID >>>
    assign (fun h => h <| mExchangeFlags := header |>)) >>>
  branch HaveVendorId (read_then 2 payload_protocol) (payload_protocol VendorId_Common) >>>
  branch IsAckMsg (read_into 4 (fun c h => h <| mAckMessageCounter := Some c |>)) (assign (fun h => h <| mAckMessageCounter := None |>)) >>>
  branch (fun h => flag_Has (mExchangeFlags h) kExchangeFlag_SecuredExtension) skip_block (assign id).
Definition Payload_Decode (data : bytes) (decode_len : Z) (h : PayloadHeader) : CHIP_ERROR * PayloadHeader * Z :=
  match payload_steps {| rd_rest := data; OctetsRead := 0 |} h with
  | (CHIP_NO_ERROR, h, r) => (CHIP_NO_ERROR, h, u16 (OctetsRead r))
  | (err, h, _) => (err, h, decode_len)
  end.
Definition Payload_DecodeAndConsume (buf : bytes) (h : PayloadHeader) : CHIP_ERROR * PayloadHeader * bytes :=
  match Payload_Decode buf 0 h with
  | (CHIP_NO_ERROR, h, headerSize) => (CHIP_NO_ERROR, h, drop (Z.to_nat headerSize) buf)
  | (err, h, _) => (err, h, buf)
  end.

(** ** The authentication tag: [mTag] is the 16 bytes of the object *)
Definition MAC_Decode (packetHeader : PacketHeader) (data : bytes) (size : Z) (mTag : bytes) : option (CHIP_ERROR * bytes * option Z) :=
  let taglen := MICTagLength packetHeader in
  if taglen =? 0 then Some (CHIP_ERROR_WRONG_ENCRYPTION_TYPE_FROM_PEER, mTag, None)
  else if size <? taglen then Some (CHIP_ERROR_INVALID_ARGUMENT, mTag, None)
  else let! bs := mread data 0 (Z.to_nat taglen) in let! mTag := mwrite mTag 0 bs in Some (CHIP_NO_ERROR, mTag, Some taglen).
Definition MAC_Encode (packetHeader : PacketHeader) (data : bytes) (size : Z) (mTag : bytes) : option (CHIP_ERROR * bytes * option Z) :=
  let taglen := MICTagLength packetHeader in
  if taglen =? 0 then Some (CHIP_ERROR_WRONG_ENCRYPTION_TYPE, data, None)
  else if size <? taglen then Some (CHIP_ERROR_INVALID_ARGUMENT, data, None)
  else let! bs := mread mTag 0 (Z.to_nat taglen) in let! data := mwrite data 0 bs in Some (CHIP_NO_ERROR, data, Some taglen).

(** ** Well-formed headers *)
Definition in_opt (w : Z) (o : option Z) : Prop := match o with Some x => in_u w x | None => True end.
Definition presence (h : PacketHeader) : Z :=
  (if has_value (mSourceNodeId h) then 4 else 0) + (if has_value (mDestinationNodeId h) then 1 else 0) +
  (if has_value (mDestinationGroupId h) then 2 else 0).
(** The fields are in range, the message flags tell which addresses are present,
    the security flags carry the session type. *)
Definition packet_ok (h : PacketHeader) : Prop :=
  in_u 32 (mMessageCounter h) ∧ in_opt 64 (mSourceNodeId h) ∧ in_opt 64 (mDestinationNodeId h) ∧
  in_opt 16 (mDestinationGroupId h) ∧ in_u 16 (mSessionId h) ∧ mMsgFlags h = presence h ∧
  in_u 8 (mSecFlags h) ∧ mSessionType h = Z.land (mSecFlags h) kSessionTypeMask.
(** A header that can be sent: one destination at most, a session type that
    exists, a group only in a group session, no extension block, which the
    encoder never writes. *)
Definition sendable (h : PacketHeader) : Prop :=
  has_value (mDestinationNodeId h) && has_value (mDestinationGroupId h) = false ∧ IsSessionTypeValid h = true ∧
  (has_value (mDestinationGroupId h) = true → IsGroupSession h = true) ∧ flag_Has (mSecFlags h) kMsgExtensionFlag = false.

Definition payload_ok (h : PayloadHeader) : Prop :=
  in_u 8 (mMessageType h) ∧ in_u 16 (mExchangeID h) ∧ in_u 16 (mVendorId (mProtocolID h)) ∧ in_u 16 (mProtocolId (mProtocolID h)) ∧
  in_u 8 (mExchangeFlags h) ∧ in_opt 32 (mAckMessageCounter h) ∧
  HaveVendorId h = negb (mVendorId (mProtocolID h) =? VendorId_Common) ∧ IsAckMsg h = has_value (mAckMessageCounter h).

(** *** Bytes of flags are few enough to look at each *)
Lemma all_bytes (P : Z → bool) : forallb P (Z.of_nat <$> seq 0 256) = true → ∀ x, in_u 8 x → P x = true.
Proof.
  intros H x [H0 H1]. rewrite forallb_forall in H. apply H. apply list_elem_of_In, list_elem_of_fmap.
  exists (Z.to_nat x). rewrite Z2Nat.id by done. split; [done|]. apply elem_of_seq. change (2 ^ 8) with 256 in H1. lia.
Qed.

Lemma encoded_presence h : packet_ok h → encoded_flags h = presence h.
Proof.
  intros (_ & _ & _ & _ & _ & Hf & _). unfold encoded_flags. rewrite Hf. unfold presence.
  by destruct (mSourceNodeId h), (mDestinationNodeId h), (mDestinationGroupId h).
Qed.

(** *** Reading back what was written *)
Lemma le_app n x rest : in_u (8 * Z.of_nat n) x → le_val (take n (le_bytes n x ++ rest)) = x ∧ drop n (le_bytes n x ++ rest) = rest.
Proof.
  intros Hx. rewrite take_app_length', drop_app_length' by (by rewrite length_le_bytes). split; [|done].
  apply le_val_bytes. unfold in_u in Hx. rewrite Z.pow_mul_r in Hx by lia. exact Hx.
Qed.

Lemma read_u_le n x rest o : in_u (8 * Z.of_nat n) x →
  read_u n {| rd_rest := le_bytes n x ++ rest; OctetsRead := o |} = inr (x, {| rd_rest := rest; OctetsRead := o + Z.of_nat n |}).
Proof.
  intros Hx. unfold read_u. cbn [rd_rest OctetsRead]. rewrite (proj2 (Nat.ltb_ge _ _)) by (rewrite length_app, length_le_bytes; lia).
  destruct (le_app n x rest Hx) as [-> ->]. done.
Qed.

Section run.
Context {S : Type}.
Lemma run_into (n : nat) (f : Z → S → S) (k : step S) x rest o h : in_u (8 * Z.of_nat n) x →
  (read_into n f >>> k) {| rd_rest := le_bytes n x ++ rest; OctetsRead := o |} h =
  k {| rd_rest := rest; OctetsRead := o + Z.of_nat n |} (f x h).
Proof. intros Hx. unfold andthen, read_into. by rewrite read_u_le. Qed.
Lemma run_last (n : nat) (f : Z → S → S) x rest o h : in_u (8 * Z.of_nat n) x →
  read_into n f {| rd_rest := le_bytes n x ++ rest; OctetsRead := o |} h =
  (CHIP_NO_ERROR, f x h, {| rd_rest := rest; OctetsRead := o + Z.of_nat n |}).
Proof. intros Hx. unfold read_into. by rewrite read_u_le. Qed.
Lemma run_then (n : nat) (f : Z → step S) (k : step S) x rest o h : in_u (8 * Z.of_nat n) x →
  (read_then n f >>> k) {| rd_rest := le_bytes n x ++ rest; OctetsRead := o |} h =
  (f x >>> k) {| rd_rest := rest; OctetsRead := o + Z.of_nat n |} h.
Proof. intros Hx. unfold andthen, read_then. by rewrite read_u_le. Qed.
Lemma andthen_assoc (a b c : step S) r h : ((a >>> b) >>> c) r h = (a >>> (b >>> c)) r h.
Proof. unfold andthen. by destruct (a r h) as [[[] ?] ?]. Qed.
Lemma run_assign f (k : step S) r h : (assign f >>> k) r h = k r (f h).
Proof. done. Qed.
Lemma run_verify p err (k : step S) r h : p h = true → (verify p err >>> k) r h = k r h.
Proof. intros Hp. unfold andthen, verify. by rewrite Hp. Qed.
Lemma run_branch_l p (a b k : step S) r h : p h = true → (branch p a b >>> k) r h = (a >>> k) r h.
Proof. intros Hp. unfold andthen, branch. by rewrite Hp. Qed.
Lemma run_branch_r p (a b k : step S) r h : p h = false → (branch p a b >>> k) r h = (b >>> k) r h.
Proof. intros Hp. unfold andthen, branch. by rewrite Hp. Qed.
Lemma run_end (a : step S) r h : a r h = (a >>> assign id) r h.
Proof. unfold andthen, assign. by destruct (a r h) as [[[] ?] ?]. Qed.
End run.

(** Runs a decoder on bytes an encoder wrote; [cond] decides the tests. *)
Ltac run_steps cond :=
  rewrite run_end;
  repeat first [rewrite andthen_assoc | rewrite run_assign | rewrite run_into by done | rewrite run_then by done |
                rewrite run_verify by cond | rewrite run_branch_l by cond | rewrite run_branch_r by cond].

(** The steps that read an optional field written by the encoder. *)
Lemma packet_run h rest h0 : packet_ok h → sendable h →
  packet_steps {| rd_rest := packet_bytes h ++ rest; OctetsRead := 0 |} h0 =
  (CHIP_NO_ERROR, h, {| rd_rest := rest; OctetsRead := Packet_EncodeSizeBytes h |}).
Proof.
  intros Hok (Hdst & Htype & Hgrp & Hmx). pose proof (encoded_presence h Hok) as Hfl.
  destruct Hok as (Hc & Hsrc & Hdn & Hdg & Hs & Hf & Hsec & Hst). destruct h as [c src dn dg sid st mf sf].
  cbn [mMessageCounter mSourceNodeId mDestinationNodeId mDestinationGroupId mSessionId mSessionType mMsgFlags mSecFlags] in *.
  unfold packet_bytes. rewrite Hfl. unfold presence, IsGroupSession in *.
  cbn [mMessageCounter mSourceNodeId mDestinationNodeId mDestinationGroupId mSessionId mSessionType mMsgFlags mSecFlags] in *.
  destruct src as [src|], dn as [dn|], dg as [dg|]; try discriminate Hdst;
    cbn [has_value in_opt] in *; rewrite <- ?app_assoc, ?app_nil_l; subst st;
    unfold packet_steps, DecodeFixedCommon;
    run_steps ltac:(first [reflexivity|exact Htype|exact Hmx|by apply Hgrp]); by rewrite Hf.
Qed.

Lemma payload_run h rest h0 : payload_ok h → flag_Has (mExchangeFlags h) kExchangeFlag_SecuredExtension = false →
  payload_steps {| rd_rest := payload_bytes h ++ rest; OctetsRead := 0 |} h0 =
  (CHIP_NO_ERROR, h, {| rd_rest := rest; OctetsRead := Payload_EncodeSizeBytes h |}).
Proof.
  intros (Ht & Hx & Hv & Hp & Hf & Ha & Hvid & Hack) Hsx.
  unfold payload_bytes, Payload_EncodeSizeBytes. destruct h as [type xid [vid pid] fl ack].
  cbn [mMessageType mExchangeID mProtocolID mExchangeFlags mAckMessageCounter mVendorId mProtocolId] in *.
  unfold payload_steps. destruct (HaveVendorId _) eqn:Hhv; destruct ack as [ack|]; cbn [has_value in_opt] in *; rewrite <- ?app_assoc, ?app_nil_l;
    unfold payload_protocol; run_steps ltac:(first [reflexivity|exact Hhv|exact Hack|exact Hsx]);
    try (destruct (Z.eqb_spec vid VendorId_Common) as [->|]; [|discriminate Hvid]); done.
Qed.

Lemma packet_bytes_length h : has_value (mDestinationNodeId h) && has_value (mDestinationGroupId h) = false →
  Z.of_nat (length (packet_bytes h)) = Packet_EncodeSizeBytes h.
Proof.
  intros Hd. unfold packet_bytes, Packet_EncodeSizeBytes.
  destruct (mSourceNodeId h), (mDestinationNodeId h), (mDestinationGroupId h); try discriminate Hd; reflexivity.
Qed.
Lemma payload_bytes_length h : Z.of_nat (length (payload_bytes h)) = Payload_EncodeSizeBytes h.
Proof. unfold payload_bytes, Payload_EncodeSizeBytes. by destruct (HaveVendorId h), (mAckMessageCounter h). Qed.

(** *** A decoder looks only at what it consumes *)
Section local.
Context {S : Type}.

(** On success the reader has moved over [m] bytes; the same bytes give the same
    result whatever follows, and a shorter text is refused. *)
Definition local_step (a : step S) : Prop := ∀ d o h h' r', bytes_ok d →
  a {| rd_rest := d; OctetsRead := o |} h = (CHIP_NO_ERROR, h', r') →
  ∃ m, (m ≤ length d)%nat ∧ r' = {| rd_rest := drop m d; OctetsRead := o + Z.of_nat m |} ∧
    (∀ t, a {| rd_rest := take m d ++ t; OctetsRead := o |} h = (CHIP_NO_ERROR, h', {| rd_rest := t; OctetsRead := o + Z.of_nat m |})) ∧
    ∀ n, (n < m)%nat → fst (fst (a {| rd_rest := take n d; OctetsRead := o |} h)) ≠ CHIP_NO_ERROR.

Lemma local_nothing (a : step S) : (∀ r h, fst (fst (a r h)) = CHIP_NO_ERROR → snd (a r h) = r) →
  (∀ r1 r2 h, fst (a r1 h) = fst (a r2 h)) → local_step a.
Proof.
  intros Hr Hf d o h h' r' _ E. exists 0%nat. pose proof (Hr _ _ (f_equal (fun x => fst (fst x)) E)) as Er. rewrite E in Er. cbn in Er.
  split_and!; [lia| | |intros; lia].
  - rewrite drop_0, Z.add_0_r. done.
  - intros t. change (take 0 d ++ t) with t.
    pose proof (Hf {| rd_rest := t; OctetsRead := o |} {| rd_rest := d; OctetsRead := o |} h) as Ef. rewrite E in Ef. cbn in Ef.
    pose proof (Hr {| rd_rest := t; OctetsRead := o |} h) as Ht.
    destruct (a {| rd_rest := t; OctetsRead := o |} h) as [[e x] r2]. cbn in *. simplify_eq.
    rewrite (Ht eq_refl), Z.add_0_r. done.
Qed.

Lemma local_assign f : local_step (assign f).
Proof. by apply local_nothing. Qed.
Lemma local_verify p err : local_step (verify p err).
Proof. by apply local_nothing. Qed.
Lemma local_branch p a b : local_step a → local_step b → local_step (branch p a b).
Proof. intros Ha Hb d o h. unfold branch. destruct (p h); [apply Ha|apply Hb]. Qed.

Lemma local_andthen a b : local_step a → local_step b → local_step (a >>> b).
Proof.
  intros Ha Hb d o h h' r' Hd. unfold andthen.
  destruct (a {| rd_rest := d; OctetsRead := o |} h) as [[[] h1] r1] eqn:E1; try discriminate.
  destruct (Ha _ _ _ _ _ Hd E1) as (m1 & Hm1 & -> & Hsame1 & Hshort1). intros E2.
  destruct (Hb _ _ _ _ _ (Forall_drop _ _ _ Hd) E2) as (m2 & Hm2 & -> & Hsame2 & Hshort2). rewrite length_drop in Hm2.
  exists (m1 + m2)%nat. split_and!; [lia| | |].
  - rewrite drop_drop. f_equal. lia.
  - intros t. rewrite <- take_take_drop, <- app_assoc, Hsame1, Hsame2. do 2 f_equal. lia.
  - intros n Hn. destruct (decide (n < m1)%nat) as [Hlt|Hge].
    + specialize (Hshort1 n Hlt). destruct (a {| rd_rest := take n d; OctetsRead := o |} h) as [[[] ?] ?]; done.
    + replace (take n d) with (take m1 d ++ take (n - m1) (drop m1 d)) by (rewrite take_take_drop; f_equal; lia).
      rewrite Hsame1. apply Hshort2. lia.
Qed.

Lemma local_then n (k : Z → step S) : (∀ v, 0 ≤ v → local_step (k v)) → local_step (read_then n k).
Proof.
  intros Hk d o h h' r' Hd. unfold read_then, read_u. cbn [rd_rest OctetsRead].
  destruct (Nat.ltb_spec (length d) n) as [|Hn]; [discriminate|]. intros E.
  destruct (Hk _ ltac:(apply le_val_range, Forall_take, Hd) _ _ _ _ _ (Forall_drop _ _ _ Hd) E) as (m & Hm & -> & Hsame & Hshort). rewrite length_drop in Hm.
  exists (n + m)%nat. split_and!; [lia| | |].
  - rewrite drop_drop. f_equal. lia.
  - intros t. rewrite <- take_take_drop, <- app_assoc. rewrite (proj2 (Nat.ltb_ge _ _)) by (rewrite length_app, length_take; lia).
    rewrite take_app_length', drop_app_length' by (rewrite length_take; lia). rewrite Hsame. do 2 f_equal. lia.
  - intros i Hi. destruct (Nat.ltb_spec (length (take i d)) n) as [|Hge]; [done|]. rewrite length_take in Hge.
    rewrite take_take, Nat.min_l, skipn_firstn_comm by lia. apply Hshort. lia.
Qed.

Lemma local_into n f : local_step (read_into n f).
Proof. apply (local_then n (fun v => assign (f v))). intros. apply local_assign. Qed.

Lemma local_skip_block : local_step (@skip_block S).
Proof.
  apply local_then. intros len Hlen d o h h' r' Hd. unfold Skip, Remaining. cbn [rd_rest OctetsRead].
  destruct (Z.leb_spec len (Z.of_nat (length d))) as [Hle|]; [|discriminate]. intros [= <- <-].
  exists (Z.to_nat len). split_and!; [lia| | |].
  - rewrite Z.min_l by done. f_equal. lia.
  - intros t. rewrite (proj2 (Z.leb_le _ _)) by (rewrite length_app, length_take; lia).
    rewrite Z.min_l by (rewrite length_app, length_take; lia). rewrite drop_app_length' by (rewrite length_take; lia).
    do 2 f_equal. lia.
  - intros n Hn. rewrite (proj2 (Z.leb_gt _ _)) by (rewrite length_take; lia). done.
Qed.
End local.

#[local] Hint Resolve local_assign local_verify local_branch local_andthen local_then local_into local_skip_block : dev.
Lemma packet_steps_local : local_step packet_steps.
Proof. unfold packet_steps, DecodeFixedCommon. eauto 20 with dev. Qed.
Lemma payload_steps_local : local_step payload_steps.
Proof. unfold payload_steps, payload_protocol. eauto 20 with dev. Qed.

(** *** Round trips *)
(** What a decoder does on text that begins with what an encoder wrote. *)
Lemma decode_written {H} (steps : step H) (hb : bytes) h size :
  local_step steps → bytes_ok hb → Z.of_nat (length hb) = size →
  (∀ rest h0, steps {| rd_rest := hb ++ rest; OctetsRead := 0 |} h0 = (CHIP_NO_ERROR, h, {| rd_rest := rest; OctetsRead := size |})) →
  ∀ k h0, (k < length hb)%nat → fst (fst (steps {| rd_rest := take k hb; OctetsRead := 0 |} h0)) ≠ CHIP_NO_ERROR.
Proof.
  intros Hl Hb Hs Hrun k h0 Hk. pose proof (Hrun [] h0) as E. rewrite app_nil_r in E.
  destruct (Hl _ _ _ _ _ Hb E) as (m & Hm & [= Hd Ho] & _ & Hshort). apply Hshort. lia.
Qed.

Lemma packet_bytes_ok h : bytes_ok (packet_bytes h).
Proof.
  unfold packet_bytes. destruct (mSourceNodeId h), (mDestinationNodeId h), (mDestinationGroupId h); eauto 10 with dev.
Qed.
Lemma payload_bytes_ok h : bytes_ok (payload_bytes h).
Proof. unfold payload_bytes. destruct (HaveVendorId h), (mAckMessageCounter h); eauto 10 with dev. Qed.

Lemma size_small h : 8 ≤ Packet_EncodeSizeBytes h ≤ 24.
Proof. unfold Packet_EncodeSizeBytes. by destruct (mSourceNodeId h), (mDestinationNodeId h), (mDestinationGroupId h). Qed.
Lemma payload_size_small h : 6 ≤ Payload_EncodeSizeBytes h ≤ 12.
Proof. unfold Payload_EncodeSizeBytes. by destruct (HaveVendorId h), (mAckMessageCounter h). Qed.

Lemma write_front (data hb : bytes) n : Z.of_nat (length hb) = n → n ≤ Z.of_nat (length data) →
  mwrite data 0 hb = Some (hb ++ drop (Z.to_nat n) data).
Proof. intros <- Hl. apply mwrite_Some. split; [lia|]. by rewrite Nat2Z.id, take_0. Qed.

Lemma payload_offset h : packet_ok h → PayloadOffset h = Packet_EncodeSizeBytes h.
Proof.
  intros (_ & _ & _ & _ & _ & Hf & _). unfold PayloadOffset, PrivacyHeaderLength, Packet_EncodeSizeBytes. rewrite Hf. unfold presence.
  by destruct (mSourceNodeId h), (mDestinationNodeId h), (mDestinationGroupId h).
Qed.

(** C27: A packet header that can be sent survives the wire.  Into a buffer with
    room for it the encoder writes exactly the announced number of bytes, which is
    the offset the privacy code takes for the payload, and touches nothing after
    them; into a smaller one it writes nothing and fails.  Decoding those bytes,
    whatever follows, gives back the header and leaves what follows; no proper
    prefix of them is accepted. *)
Theorem packet_header_roundtrip h data size : packet_ok h → sendable h → size ≤ Z.of_nat (length data) →
  let n := Packet_EncodeSizeBytes h in
  PayloadOffset h = n ∧
  (size < n → Packet_Encode data size h = Some (CHIP_ERROR_INVALID_ARGUMENT, data, None)) ∧
  (n ≤ size → ∃ wire, Z.of_nat (length wire) = n ∧
     Packet_Encode data size h = Some (CHIP_NO_ERROR, wire ++ drop (Z.to_nat n) data, Some n) ∧
     (∀ rest h0, Packet_DecodeAndConsume (wire ++ rest) h0 = (CHIP_NO_ERROR, h, rest)) ∧
     ∀ k h0 len, (k < length wire)%nat → fst (fst (Packet_Decode (take k wire) len h0)) ≠ CHIP_NO_ERROR).
Proof.
  intros Hok Hsend Hsize n. pose proof Hsend as (Hdst & Htype & _). pose proof (packet_bytes_length h Hdst) as Hlen.
  pose proof (size_small h). fold n in Hlen. split_and!; [by apply payload_offset| |].
  - intros Hlt. unfold Packet_Encode. fold n. by rewrite (proj2 (Z.ltb_lt _ _) Hlt).
  - intros Hge. exists (packet_bytes h). split_and!; [done| | |].
    + unfold Packet_Encode. fold n. rewrite (proj2 (Z.ltb_ge _ _) Hge), Hdst, Htype. cbn [negb].
      rewrite (write_front _ _ n) by lia. by rewrite Hlen, Z.eqb_refl.
    + intros rest h0. unfold Packet_DecodeAndConsume, Packet_Decode. rewrite packet_run by done. cbn [OctetsRead]. fold n.
      rewrite wrap_small by ulia. rewrite drop_app_length' by lia. done.
    + intros k h0 len Hk. unfold Packet_Decode.
      pose proof (decode_written packet_steps (packet_bytes h) h n packet_steps_local (packet_bytes_ok h) Hlen) as Hd.
      specialize (Hd (fun rest h0 => packet_run h rest h0 Hok Hsend) k h0 Hk).
      destruct (packet_steps {| rd_rest := take k (packet_bytes h); OctetsRead := 0 |} h0) as [[[] ?] ?]; done.
Qed.

(** The same of a payload header without a secured extension block: encoding
    into a buffer with room and decoding give the header back and leave what
    follows, a buffer too small is refused, and so is every proper prefix. *)
Theorem payload_header_roundtrip h data size : payload_ok h → flag_Has (mExchangeFlags h) kExchangeFlag_SecuredExtension = false →
  size ≤ Z.of_nat (length data) →
  let n := Payload_EncodeSizeBytes h in
  (size < n → Payload_Encode data size h = Some (CHIP_ERROR_INVALID_ARGUMENT, data, None)) ∧
  (n ≤ size → ∃ wire, Z.of_nat (length wire) = n ∧
     Payload_Encode data size h = Some (CHIP_NO_ERROR, wire ++ drop (Z.to_nat n) data, Some n) ∧
     (∀ rest h0, Payload_DecodeAndConsume (wire ++ rest) h0 = (CHIP_NO_ERROR, h, rest)) ∧
     ∀ k h0 len, (k < length wire)%nat → fst (fst (Payload_Decode (take k wire) len h0)) ≠ CHIP_NO_ERROR).
Proof.
  intros Hok Hsx Hsize n. pose proof (payload_bytes_length h) as Hlen. pose proof (payload_size_small h). fold n in Hlen. split.
  - intros Hlt. unfold Payload_Encode. fold n. by rewrite (proj2 (Z.ltb_lt _ _) Hlt).
  - intros Hge. exists (payload_bytes h). split_and!; [done| | |].
    + unfold Payload_Encode. fold n. rewrite (proj2 (Z.ltb_ge _ _) Hge).
      rewrite (write_front _ _ n) by lia. by rewrite Hlen, Z.eqb_refl.
    + intros rest h0. unfold Payload_DecodeAndConsume, Payload_Decode. rewrite payload_run by done. cbn [OctetsRead]. fold n.
      rewrite wrap_small by ulia. rewrite drop_app_length' by lia. done.
    + intros k h0 len Hk. unfold Payload_Decode.
      pose proof (decode_written payload_steps (payload_bytes h) h n payload_steps_local (payload_bytes_ok h) Hlen) as Hd.
      specialize (Hd (fun rest h0 => payload_run h rest h0 Hok Hsx) k h0 Hk).
      destruct (payload_steps {| rd_rest := take k (payload_bytes h); OctetsRead := 0 |} h0) as [[[] ?] ?]; done.
Qed.

(** *** Every header is well-formed *)
Inductive packet_setter :=
| PSource (id : option Z) | PDestNode (id : option Z) | PDestGroup (id : option Z)
| PControl (value : bool) | PType (type : Z) | PSession (id : Z) | PCounter (id : Z).
Definition set_packet (s : packet_setter) : PacketHeader → PacketHeader :=
  match s with
  | PSource id => SetSourceNodeId id | PDestNode id => SetDestinationNodeId id | PDestGroup id => SetDestinationGroupId id
  | PControl value => SetSecureSessionControlMsg value | PType type => SetSessionType type
  | PSession id => SetSessionId id | PCounter id => SetMessageCounter id
  end.
(** The arguments have the types of the parameters. *)
Definition packet_arg_ok (s : packet_setter) : Prop :=
  match s with
  | PSource id | PDestNode id => in_opt 64 id
  | PDestGroup id => in_opt 16 id
  | PControl _ => True
  | PType type => type = kUnicastSession ∨ type = kGroupSession
  | PSession id => in_u 16 id
  | PCounter id => in_u 32 id
  end.

Inductive payload_setter :=
| YMessageType (protocol : ProtocolId) (type : Z) | YExchange (id : Z) | YInitiator (b : bool) | YAck (id : option Z) | YNeedsAck (b : bool).
Definition set_payload (s : payload_setter) : PayloadHeader → PayloadHeader :=
  match s with
  | YMessageType protocol type => SetMessageType protocol type | YExchange id => SetExchangeID id
  | YInitiator b => SetInitiator b | YAck id => SetAckMessageCounter id | YNeedsAck b => SetNeedsAck b
  end.
Definition payload_arg_ok (s : payload_setter) : Prop :=
  match s with
  | YMessageType protocol type => in_u 16 (mVendorId protocol) ∧ in_u 16 (mProtocolId protocol) ∧ in_u 8 type
  | YExchange id => in_u 16 id
  | YAck id => in_opt 32 id
  | _ => True
  end.

(** Setting a flag of a byte changes that flag only; decided on every byte. *)
Lemma set_flag_byte m f b : in_u 8 m → f ∈ [0x01; 0x02; 0x04; 0x10; 0x40] →
  in_u 8 (flag_SetTo m f b) ∧ flag_Has (flag_SetTo m f b) f = b ∧
  ∀ g, g ∈ [0x01; 0x02; 0x04; 0x08; 0x10; 0x20; 0x40; 0x80] → g ≠ f → flag_Has (flag_SetTo m f b) g = flag_Has m g.
Proof.
  intros Hm Hf. set (ok := fun f b m => bool_decide (in_u 8 (flag_SetTo m f b) ∧ flag_Has (flag_SetTo m f b) f = b ∧
    Forall (fun g => g ≠ f → flag_Has (flag_SetTo m f b) g = flag_Has m g) [0x01; 0x02; 0x04; 0x08; 0x10; 0x20; 0x40; 0x80])).
  assert (ok f b m = true) as H.
  { revert m Hm. apply all_bytes. unfold ok. destruct b;
      repeat (apply elem_of_cons in Hf as [->|Hf]; [vm_compute; reflexivity|]); by apply not_elem_of_nil in Hf. }
  apply bool_decide_eq_true in H as (H1 & H2 & H3). rewrite Forall_forall in H3. done.
Qed.

Lemma control_type m b : in_u 8 m → Z.land (flag_SetTo m kControlMsgFlag b) kSessionTypeMask = Z.land m kSessionTypeMask.
Proof.
  intros Hm. apply Z.eqb_eq. revert m Hm. apply (all_bytes (fun m => Z.land (flag_SetTo m kControlMsgFlag b) kSessionTypeMask =? Z.land m kSessionTypeMask)).
  destruct b; vm_compute; reflexivity.
Qed.

Lemma session_type_byte m type : in_u 8 m → type = kUnicastSession ∨ type = kGroupSession →
  Z.land (u8 (Z.lor (Z.land m (Z.lnot kSessionTypeMask)) (Z.land type kSessionTypeMask))) kSessionTypeMask = type.
Proof.
  intros Hm Ht. apply Z.eqb_eq. revert m Hm.
  apply (all_bytes (fun m => Z.land (u8 (Z.lor (Z.land m (Z.lnot kSessionTypeMask)) (Z.land type kSessionTypeMask))) kSessionTypeMask =? type)).
  destruct Ht as [-> | ->]; vm_compute; reflexivity.
Qed.

Lemma set_packet_ok s h : packet_ok h → packet_arg_ok s → packet_ok (set_packet s h).
Proof.
  intros (H1 & H2 & H3 & H4 & H5 & Hf & H7 & H8) Ha. destruct h as [c src dn dg sid st mf sf]. unfold packet_ok, presence in *.
  destruct s as [id|id|id|v|t|id|id]; cbn in *;
    unfold SetSourceNodeId, SetDestinationNodeId, SetDestinationGroupId, SetSecureSessionControlMsg, SetSessionType; cbn;
    try (split_and!; done).
  - split_and!; try done. subst mf. by destruct src, dn, dg, id.
  - split_and!; try done. subst mf. by destruct src, dn, dg, id.
  - split_and!; try done. subst mf. by destruct src, dn, dg, id.
  - split_and!; try done; [|by rewrite control_type]. by apply set_flag_byte; [|do 4 right; left].
  - split_and!; try done; [by apply wrap_range|by rewrite session_type_byte].
Qed.

Lemma set_payload_ok s h : payload_ok h → payload_arg_ok s → payload_ok (set_payload s h).
Proof.
  intros (H1 & H2 & H3 & H4 & Hf & H6 & Hv & Hk) Ha. destruct h as [type xid [vid pid] fl ack]. unfold payload_ok, HaveVendorId, IsAckMsg in *.
  destruct s as [p t|id|b|id|b]; cbn in *; unfold SetProtocol; cbn.
  - destruct (set_flag_byte fl kExchangeFlag_VendorIdPresent (negb (mVendorId p =? VendorId_Common)) Hf) as (F1 & F2 & F3); [set_solver|].
    destruct Ha as (A1 & A2 & A3). split_and!; try done. rewrite F3; [done|set_solver|done].
  - split_and!; done.
  - destruct (set_flag_byte fl kExchangeFlag_Initiator b Hf) as (F1 & F2 & F3); [set_solver|].
    split_and!; try done; (rewrite F3; [done|set_solver|done]).
  - destruct (set_flag_byte fl kExchangeFlag_AckMsg (has_value id) Hf) as (F1 & F2 & F3); [set_solver|].
    split_and!; try done. rewrite F3; [done|set_solver|done].
  - destruct (set_flag_byte fl kExchangeFlag_NeedsAck b Hf) as (F1 & F2 & F3); [set_solver|].
    split_and!; try done; (rewrite F3; [done|set_solver|done]).
Qed.

(** What any accepted text decodes to: as [packet_ok], except that bits of the
    message flags without a meaning are kept, with a valid session type, one
    destination at most, and a group only in a group session. *)
Definition decoded_ok (h : PacketHeader) : Prop :=
  in_u 32 (mMessageCounter h) ∧ in_opt 64 (mSourceNodeId h) ∧ in_opt 64 (mDestinationNodeId h) ∧
  in_opt 16 (mDestinationGroupId h) ∧ in_u 16 (mSessionId h) ∧ Z.land (mMsgFlags h) kMsgFlagsMask = presence h ∧
  in_u 8 (mSecFlags h) ∧ mSessionType h = Z.land (mSecFlags h) kSessionTypeMask ∧
  has_value (mDestinationNodeId h) && has_value (mDestinationGroupId h) = false ∧ IsSessionTypeValid h = true ∧
  (has_value (mDestinationGroupId h) = true → IsGroupSession h = true).

Section invert.
Context {S : Type}.
Definition text_ok (r : Reader) : Prop := bytes_ok (rd_rest r).
Lemma andthen_inv (a b : step S) r h h' r' : (a >>> b) r h = (CHIP_NO_ERROR, h', r') →
  ∃ h1 r1, a r h = (CHIP_NO_ERROR, h1, r1) ∧ b r1 h1 = (CHIP_NO_ERROR, h', r').
Proof. unfold andthen. destruct (a r h) as [[[] h1] r1]; try discriminate. eauto. Qed.
Lemma read_then_inv n (k : Z → step S) r h h' r' : text_ok r → read_then n k r h = (CHIP_NO_ERROR, h', r') →
  ∃ v r1, in_u (8 * Z.of_nat n) v ∧ text_ok r1 ∧ k v r1 h = (CHIP_NO_ERROR, h', r').
Proof.
  unfold read_then, read_u, text_ok. destruct (Nat.ltb_spec (length (rd_rest r)) n); [discriminate|]. intros Hr E.
  eexists _, _. split_and!; [| |exact E]; [|by apply Forall_drop].
  pose proof (le_val_range (take n (rd_rest r)) (Forall_take _ _ _ Hr)) as Hv. rewrite length_take, Nat.min_l in Hv by done.
  unfold in_u. by rewrite Z.pow_mul_r by lia.
Qed.
Lemma read_into_inv n (f : Z → S → S) r h h' r' : text_ok r → read_into n f r h = (CHIP_NO_ERROR, h', r') →
  ∃ v, in_u (8 * Z.of_nat n) v ∧ text_ok r' ∧ h' = f v h.
Proof.
  intros Hr E. destruct (read_then_inv n (fun v => assign (f v)) r h h' r' Hr E) as (v & r1 & Hv & Hr1 & [= <- <-]). by exists v.
Qed.
Lemma verify_inv (p : S → bool) err r h h' r' : verify p err r h = (CHIP_NO_ERROR, h', r') → err ≠ CHIP_NO_ERROR → p h = true ∧ h' = h ∧ r' = r.
Proof. unfold verify. intros E He. destruct (p h); [by injection E as <- <-|by injection E as ? _ _]. Qed.
Lemma branch_inv (p : S → bool) (a b : step S) r h x : branch p a b r h = x → p h = true ∧ a r h = x ∨ p h = false ∧ b r h = x.
Proof. unfold branch. destruct (p h); auto. Qed.
Lemma skip_inv (r r' : Reader) (h h' : S) : skip_block r h = (CHIP_NO_ERROR, h', r') → h' = h.
Proof. unfold skip_block, read_then. destruct (read_u 2 r) as [?|[v r1]]; [by intros [= ? ?]|]. case_match; by intros [= ?]. Qed.
End invert.

Lemma fixed_decoded r h h' r' : text_ok r → DecodeFixedCommon r h = (CHIP_NO_ERROR, h', r') →
  text_ok r' ∧ ∃ f sid sf, in_u 8 f ∧ in_u 16 sid ∧ in_u 8 sf ∧
    h' = SetSecurityFlags sf (SetSessionId sid (h <| mMsgFlags := f |>)).
Proof.
  intros Hr. unfold DecodeFixedCommon. intros (h1 & r1 & E1 & (h2 & r2 & E2 & E3)%andthen_inv)%andthen_inv.
  apply read_then_inv in E1 as (f & r3 & Hf & Hr3 & (h4 & r4 & E4 & [= <- <-])%andthen_inv); [|done].
  apply verify_inv in E4 as (_ & -> & ->); [|done].
  apply read_into_inv in E2 as (sid & Hsid & Hr2 & ->); [|done]. apply read_into_inv in E3 as (sf & Hsf & Hr' & ->); [|done].
  split; [done|]. by exists f, sid, sf.
Qed.

(** The presence bits of a byte of flags. *)
Lemma flag_bits f s d g : in_u 8 f → flag_Has f kSourceNodeIdPresent = s → flag_Has f kDestinationNodeIdPresent = d →
  flag_Has f kDestinationGroupIdPresent = g →
  Z.land f kMsgFlagsMask = (if s then 4 else 0) + (if d then 1 else 0) + (if g then 2 else 0) ∧
  flag_HasAll f (Z.lor kDestinationNodeIdPresent kDestinationGroupIdPresent) = d && g.
Proof.
  intros Hf <- <- <-. set (ok := fun f => bool_decide (Z.land f kMsgFlagsMask =
    (if flag_Has f kSourceNodeIdPresent then 4 else 0) + (if flag_Has f kDestinationNodeIdPresent then 1 else 0) +
    (if flag_Has f kDestinationGroupIdPresent then 2 else 0) ∧
    flag_HasAll f (Z.lor kDestinationNodeIdPresent kDestinationGroupIdPresent) =
      flag_Has f kDestinationNodeIdPresent && flag_Has f kDestinationGroupIdPresent)).
  assert (ok f = true) as H by (revert f Hf; apply all_bytes; vm_compute; reflexivity). by apply bool_decide_eq_true in H.
Qed.

Lemma packet_decoded r h h' r' : text_ok r → packet_steps r h = (CHIP_NO_ERROR, h', r') → decoded_ok h'.
Proof.
  intros Hr. unfold packet_steps.
  intros (h1 & r1 & E1 & (h2 & r2 & E2 & (h3 & r3 & E3 & (h4 & r4 & E4 & (h5 & r5 & E5 & E6)%andthen_inv)%andthen_inv)%andthen_inv)%andthen_inv)%andthen_inv.
  apply fixed_decoded in E1 as (Hr1 & f & sid & sf & Hf & Hsid & Hsf & ->); [|done].
  apply read_into_inv in E2 as (c & Hc & Hr2 & ->); [|done].
  assert (text_ok r3 ∧ ∃ src, in_opt 64 src ∧ flag_Has f kSourceNodeIdPresent = has_value src ∧
    h3 = SetMessageCounter c (SetSecurityFlags sf (SetSessionId sid (h <| mMsgFlags := f |>))) <| mSourceNodeId := src |>) as (Hr3 & src & Hsrc & Hs & ->).
  { apply branch_inv in E3 as [[Hb E3]|[Hb [= <- <-]]]; [|split; [done|by exists None]].
    apply read_into_inv in E3 as (id & Hid & Hr3 & ->); [|done]. split; [done|]. by exists (Some id). }
  apply verify_inv in E4 as (Htype & -> & ->); [|done].
  assert (h' = h5) as -> by (apply branch_inv in E6 as [[_ E6]|[_ [= <- _]]]; [by apply skip_inv in E6|done]). clear E6.
  assert (∃ dn dg, in_opt 64 dn ∧ in_opt 16 dg ∧ flag_Has f kDestinationNodeIdPresent = has_value dn ∧
    flag_Has f kDestinationGroupIdPresent = has_value dg ∧ has_value dn && has_value dg = false ∧
    (has_value dg = true → Z.land sf kSessionTypeMask = kGroupSession) ∧
    h5 = SetMessageCounter c (SetSecurityFlags sf (SetSessionId sid (h <| mMsgFlags := f |>))) <| mSourceNodeId := src |>
      <| mDestinationNodeId := dn |> <| mDestinationGroupId := dg |>) as (dn & dg & Hdn & Hdg & Hd & Hg & Hone & Hgrp & ->).
  { destruct (flag_bits f _ _ _ Hf Hs eq_refl eq_refl) as [_ Hall].
    apply branch_inv in E5 as [[_ E5]|[Hboth E5]]; [by apply verify_inv in E5 as [? _]|].
    assert (flag_Has f kDestinationNodeIdPresent && flag_Has f kDestinationGroupIdPresent = false) as Hnb by (by rewrite <- Hall).
    apply branch_inv in E5 as [[Hb E5]|[Hb E5]].
    - apply read_into_inv in E5 as (id & Hid & _ & ->); [|done]. exists (Some id), None. change (flag_Has f kDestinationNodeIdPresent = true) in Hb.
      rewrite Hb in Hnb. split_and!; done.
    - change (flag_Has f kDestinationNodeIdPresent = false) in Hb. apply branch_inv in E5 as [[Hb2 E5]|[Hb2 E5]].
      + apply andthen_inv in E5 as (h6 & r6 & E6 & E7). apply verify_inv in E6 as (Hgs & -> & ->); [|done].
        apply read_into_inv in E7 as (id & Hid & _ & ->); [|done].
        exists None, (Some id). split_and!; try done. intros _. by apply Z.eqb_eq.
      + injection E5 as <- <-. by exists None, None. }
  destruct (flag_bits f _ _ _ Hf Hs Hd Hg) as [Hpres _]. unfold decoded_ok, presence. split_and!; try done.
  intros Hv. apply Z.eqb_eq. by apply Hgrp.
Qed.

(** C35: Every header is well-formed.  Whatever setters the program calls on a new
    header, with arguments of their types, its flags tell exactly which optional
    fields are present, the session type is the one in the security flags, and
    every field is in range, so the header is encoded as it is.  And whatever
    bytes arrive, a packet header that is accepted has these properties, a session
    type that exists and at most one destination, a group only in a group session. *)
Theorem headers_well_formed (ps : list packet_setter) (ys : list payload_setter) data len h0 h n :
  Forall packet_arg_ok ps → Forall payload_arg_ok ys → bytes_ok data → Packet_Decode data len h0 = (CHIP_NO_ERROR, h, n) →
  packet_ok (foldl (fun h s => set_packet s h) default_packet ps) ∧
  payload_ok (foldl (fun h s => set_payload s h) default_payload ys) ∧ decoded_ok h.
Proof.
  intros Hps Hys Hdata Hdec. split_and!.
  - assert (packet_ok default_packet) as Hok by done. revert Hok. generalize default_packet.
    induction Hps as [|s ps Hs _ IH]; intros g Hg; [done|]. by apply IH, set_packet_ok.
  - assert (payload_ok default_payload) as Hok by done. revert Hok. generalize default_payload.
    induction Hys as [|s ys Hs _ IH]; intros g Hg; [done|]. by apply IH, set_payload_ok.
  - unfold Packet_Decode in Hdec. destruct (packet_steps _ h0) as [[[] h1] r1] eqn:E; try discriminate.
    injection Hdec as <- <-. eapply packet_decoded; [|exact E]. exact Hdata.
Qed.

Module HeaderDemo.
Definition group_header : PacketHeader :=
  foldl (fun h s => set_packet s h) default_packet [PSession 0x1234; PCounter 7; PType kGroupSession; PSource (Some 1); PDestGroup (Some 0x00AB)].
Definition ack_header : PayloadHeader :=
  foldl (fun h s => set_payload s h) default_payload
    [YMessageType {| mVendorId := 0xFFF1; mProtocolId := 1 |} 5; YExchange 0x2001; YInitiator true; YAck (Some 99)].

(** The session id comes before the security flags. *)
Example group_wire : Packet_Encode (replicate 20 0xEE) 20 group_header =
  Some (CHIP_NO_ERROR, [0x06; 0x34; 0x12; 0x01; 7; 0; 0; 0; 1; 0; 0; 0; 0; 0; 0; 0; 0xAB; 0; 0xEE; 0xEE], Some 18).
Proof. vm_compute. reflexivity. Qed.
Example short_buffer : fst (fst (Packet_Decode [0x06; 0x34; 0x12] 0 default_packet)) = CHIP_ERROR_BUFFER_TOO_SMALL.
Proof. reflexivity. Qed.
(** With the flag of an extension block set, the encoder still writes no block, and
    its own output is refused or cut. *)
Example extension_refused : fst (fst (Packet_DecodeAndConsume (packet_bytes (SetSecurityFlags kMsgExtensionFlag default_packet)) default_packet)) =
  CHIP_ERROR_BUFFER_TOO_SMALL.
Proof. reflexivity. Qed.

Lemma group_header_ok : packet_ok group_header ∧ sendable group_header.
Proof. vm_compute. repeat split; congruence. Qed.
Lemma ack_header_ok : payload_ok ack_header.
Proof. vm_compute. repeat split; congruence. Qed.

Lemma packet_header_roundtrip_witness : ∃ wire,
  Packet_Encode (replicate 20 0xEE) 20 group_header = Some (CHIP_NO_ERROR, wire ++ [0xEE; 0xEE], Some 18) ∧
  Packet_DecodeAndConsume (wire ++ [1; 2; 3]) default_packet = (CHIP_NO_ERROR, group_header, [1; 2; 3]).
Proof.
  destruct (packet_header_roundtrip group_header (replicate 20 0xEE) 20 (proj1 group_header_ok) (proj2 group_header_ok))
    as (_ & _ & H); [reflexivity || (cbn; lia)|].
  destruct H as (wire & _ & H1 & H2 & _); [vm_compute; discriminate|]. exists wire. split; [exact H1|apply H2].
Defined.

Lemma payload_header_roundtrip_witness : ∃ wire,
  Payload_Encode (replicate 12 0) 12 ack_header = Some (CHIP_NO_ERROR, wire ++ [], Some 12) ∧
  Payload_DecodeAndConsume (wire ++ [4]) default_payload = (CHIP_NO_ERROR, ack_header, [4]).
Proof.
  destruct (payload_header_roundtrip ack_header (replicate 12 0) 12 ack_header_ok) as (_ & H); [reflexivity|cbn; lia|].
  destruct H as (wire & _ & H1 & H2 & _); [vm_compute; discriminate|]. exists wire. split; [exact H1|apply H2].
Defined.

Lemma headers_well_formed_witness :
  packet_ok group_header ∧ payload_ok ack_header ∧ decoded_ok (SetMessageCounter 7 (SetSessionId 0x1234 default_packet)).
Proof.
  apply (headers_well_formed _ _ [0; 0x34; 0x12; 0; 7; 0; 0; 0] 0 default_packet _ 8).
  - repeat (apply Forall_cons; split; [vm_compute; auto; repeat split; congruence|]). apply Forall_nil_2.
  - repeat (apply Forall_cons; split; [vm_compute; auto; repeat split; congruence|]). apply Forall_nil_2.
  - repeat (apply Forall_cons; split; [vm_compute; split; congruence|]). apply Forall_nil_2.
  - vm_compute. reflexivity.
Defined.
End HeaderDemo.
