(* ===== verification/AccessControl.v ===== *)
(** * AccessControl: who may do what

    [src/src/access/AccessControl.h] and [AccessControl.cpp]: the check of a request
    against the access control list, the validity of an entry, and the operations
    on the list with their listeners.

    The list itself is kept by a delegate: the class [AclDelegate], whose [D] is its
    state with the [Entry] and [EntryIterator] objects in use, named by their
    addresses.  [AclDelegateLaws] is what the checks rely on.  [None] is the use of a
    null pointer or a failed [VerifyOrDie].  A getter that fails returns its error. *)
From S2P Require Import Prelude ChipError NodeId.

Inductive AuthMode : Set := AuthMode_kNone | AuthMode_kPase | AuthMode_kCase | AuthMode_kGroup.
Inductive Privilege : Set := Privilege_kView | Privilege_kProxyView | Privilege_kOperate | Privilege_kManage | Privilege_kAdminister.
#[export] Instance AuthMode_eq_dec : EqDecision AuthMode.
Proof. solve_decision. Defined.
#[export] Instance Privilege_eq_dec : EqDecision Privilege.
Proof. solve_decision. Defined.

Record RequestPath := { rp_cluster : Z; rp_endpoint : Z }.
Record SubjectDescriptor := { sd_fabricIndex : Z; sd_authMode : AuthMode; sd_subject : Z; sd_cats : CATValues }.

(** [Entry::Target]; a field is read under its flag only. *)
Record Target := { t_flags : Z; t_cluster : Z; t_endpoint : Z; t_deviceType : Z }.
#[export] Instance eta_target : Eta Target := fun t =>
  {| t_flags := t_flags t; t_cluster := t_cluster t; t_endpoint := t_endpoint t; t_deviceType := t_deviceType t |}.
#[export] Instance Target_eq_dec : EqDecision Target.
Proof. solve_decision. Defined.
Definition kCluster : Z := 1.
Definition kEndpoint : Z := 2.
Definition kDeviceType : Z := 4.
Definition new_target : Target := {| t_flags := 0; t_cluster := 0; t_endpoint := 0; t_deviceType := 0 |}.

Definition kInvalidEndpoint : Z := 0xFFFF.
Definition IsValidEndpointId (aEndpointId : Z) : bool := negb (aEndpointId =? kInvalidEndpoint).

(** ** The delegate *)
Class AclDelegate (D : Type) := {
  ad_Init : D → option (CHIP_ERROR * D);
  ad_Finish : D → D;
  ad_GetMaxEntriesPerFabric : D → CHIP_ERROR + nat;
  ad_GetMaxSubjectsPerEntry : D → CHIP_ERROR + nat;
  ad_GetMaxTargetsPerEntry : D → CHIP_ERROR + nat;
  ad_GetMaxEntryCount : D → CHIP_ERROR + nat;
  ad_GetEntryCountOf : D → Z → CHIP_ERROR + nat;
  ad_GetEntryCount : D → CHIP_ERROR + nat;
  ad_PrepareEntry : D → nat → option (CHIP_ERROR * D);
  (** The results are the error, the index and the fabric index. *)
  ad_CreateEntry : D → nat → option Z → option (CHIP_ERROR * nat * option Z * D);
  ad_ReadEntry : D → nat → nat → option Z → option (CHIP_ERROR * D);
  ad_UpdateEntry : D → nat → nat → option Z → option (CHIP_ERROR * D);
  ad_DeleteEntry : D → nat → option Z → option (CHIP_ERROR * D);
  ad_Entries : D → nat → option Z → option (CHIP_ERROR * D);
  ad_Check : D → SubjectDescriptor → RequestPath → Privilege → CHIP_ERROR;
  (** [Entry] objects *)
  entry_new : D → nat * D;
  entry_destroy : D → nat → option D;
  entry_HasDefaultDelegate : D → nat → option bool;
  entry_GetAuthMode : D → nat → option (CHIP_ERROR + AuthMode);
  entry_GetFabricIndex : D → nat → option (CHIP_ERROR + Z);
  entry_GetPrivilege : D → nat → option (CHIP_ERROR + Privilege);
  entry_GetSubjectCount : D → nat → option (CHIP_ERROR + nat);
  entry_GetSubject : D → nat → nat → option (CHIP_ERROR + Z);
  entry_GetTargetCount : D → nat → option (CHIP_ERROR + nat);
  entry_GetTarget : D → nat → nat → Target → option (CHIP_ERROR + Target);
  (** [EntryIterator] objects *)
  iterator_new : D → nat * D;
  iterator_destroy : D → nat → option D;
  iterator_Next : D → nat → nat → option (CHIP_ERROR * D) }.

(** ** Checks of one entry *)
Definition CheckRequestPrivilegeAgainstEntryPrivilege (requestPrivilege entryPrivilege : Privilege) : bool :=
  match entryPrivilege with
  | Privilege_kView => bool_decide (requestPrivilege = Privilege_kView)
  | Privilege_kProxyView => bool_decide (requestPrivilege = Privilege_kProxyView) || bool_decide (requestPrivilege = Privilege_kView)
  | Privilege_kOperate => bool_decide (requestPrivilege = Privilege_kOperate) || bool_decide (requestPrivilege = Privilege_kView)
  | Privilege_kManage =>
      bool_decide (requestPrivilege = Privilege_kManage) || bool_decide (requestPrivilege = Privilege_kOperate) ||
      bool_decide (requestPrivilege = Privilege_kView)
  | Privilege_kAdminister =>
      bool_decide (requestPrivilege = Privilege_kAdminister) || bool_decide (requestPrivilege = Privilege_kManage) ||
      bool_decide (requestPrivilege = Privilege_kOperate) || bool_decide (requestPrivilege = Privilege_kView) ||
      bool_decide (requestPrivilege = Privilege_kProxyView)
  end.

Definition IsValidCaseNodeId (aNodeId : Z) : bool :=
  if IsOperationalNodeId aNodeId then true
  else if IsCASEAuthTag aNodeId && negb (GetCASEAuthTagVersion (CASEAuthTagFromNodeId aNodeId) =? 0) then true
  else false.
Definition IsValidGroupNodeId (aNodeId : Z) : bool := IsGroupId aNodeId && IsValidGroupId (GroupIdFromNodeId aNodeId).

(** The subject of an entry, for the mode of the request: an error, or whether it matches. *)
Definition subject_matches (authMode : AuthMode) (subject : Z) (sd : SubjectDescriptor) : CHIP_ERROR + bool :=
  if IsOperationalNodeId subject then
    if bool_decide (authMode = AuthMode_kCase) then inr (subject =? sd_subject sd) else inl CHIP_ERROR_INCORRECT_STATE
  else if IsCASEAuthTag subject then
    if bool_decide (authMode = AuthMode_kCase) then inr (CheckSubjectAgainstCATs (sd_cats sd) subject)
    else inl CHIP_ERROR_INCORRECT_STATE
  else if IsGroupId subject then
    if bool_decide (authMode = AuthMode_kGroup) then inr (subject =? sd_subject sd) else inl CHIP_ERROR_INCORRECT_STATE
  else inl CHIP_ERROR_INCORRECT_STATE.

(** [IsDeviceTypeOnEndpoint] is the resolver's answer. *)
Definition target_matches (IsDeviceTypeOnEndpoint : Z → Z → bool) (target : Target) (path : RequestPath) : bool :=
  if has_bits (t_flags target) kCluster && negb (t_cluster target =? rp_cluster path) then false
  else if has_bits (t_flags target) kEndpoint && negb (t_endpoint target =? rp_endpoint path) then false
  else if has_bits (t_flags target) kDeviceType && negb (IsDeviceTypeOnEndpoint (t_deviceType target) (rp_endpoint path)) then false
  else true.

Definition subject_valid (authMode : AuthMode) (subject : Z) : bool :=
  bool_decide (authMode = AuthMode_kCase) && IsValidCaseNodeId subject ||
  bool_decide (authMode = AuthMode_kGroup) && IsValidGroupNodeId subject.

Definition target_valid (target : Target) : bool :=
  let kHasCluster := has_bits (t_flags target) kCluster in
  let kHasEndpoint := has_bits (t_flags target) kEndpoint in
  let kHasDeviceType := has_bits (t_flags target) kDeviceType in
  (kHasCluster || kHasEndpoint || kHasDeviceType) && negb (kHasEndpoint && kHasDeviceType) &&
  (negb kHasCluster || IsValidClusterId (t_cluster target)) &&
  (negb kHasEndpoint || IsValidEndpointId (t_endpoint target)) &&
  (negb kHasDeviceType || IsValidDeviceTypeId (t_deviceType target)).

(** What an entry says. *)
Record ace := {
  ace_fabric : Z;
  ace_auth : AuthMode;
  ace_privilege : Privilege;
  ace_subjects : list Z;
  ace_targets : list Target }.
#[export] Instance ace_eq_dec : EqDecision ace.
Proof. solve_decision. Defined.

Inductive ChangeType : Set := kAdded | kRemoved | kUpdated.
(** A call of [OnEntryChanged]: the listener, the subject descriptor, the fabric, the
    index, and what the listener reads from the entry it is given. *)
Record entry_event := {
  ee_listener : nat;
  ee_subject : option SubjectDescriptor;
  ee_fabric : Z;
  ee_index : nat;
  ee_entry : option (option ace);
  ee_change : ChangeType }.

(** [mDelegate] is null before [Init]: then there is nothing to call. *)
Record access_control (D : Type) := {
  mInitialized : bool;
  mDelegate : D;
  mEntryListener : list nat;
  ac_log : list entry_event }.
#[global] Arguments mInitialized {D} _.
#[global] Arguments mDelegate {D} _.
#[global] Arguments mEntryListener {D} _.
#[global] Arguments ac_log {D} _.
#[export] Instance eta_access_control {D} : Eta (access_control D) := fun s =>
  {| mInitialized := mInitialized s; mDelegate := mDelegate s; mEntryListener := mEntryListener s; ac_log := ac_log s |}.

Section control.
Context {D : Type} `{AclDelegate D} (IsDeviceTypeOnEndpoint : Z → Z → bool).

(** Reading the members of an entry in order, from [i] on. *)
Fixpoint get_subjects (d : D) (entry i n : nat) : option (CHIP_ERROR + list Z) :=
  match n with
  | O => Some (inr [])
  | S n => try! x := entry_GetSubject d entry i in try! l := get_subjects d entry (S i) n in Some (inr (x :: l))
  end.
Fixpoint get_targets (d : D) (entry i n : nat) : option (CHIP_ERROR + list Target) :=
  match n with
  | O => Some (inr [])
  | S n => try! x := entry_GetTarget d entry i new_target in try! l := get_targets d entry (S i) n in Some (inr (x :: l))
  end.
Definition entry_contents (d : D) (entry : nat) : option (CHIP_ERROR + ace) :=
  try! authMode := entry_GetAuthMode d entry in
  try! fabricIndex := entry_GetFabricIndex d entry in
  try! privilege := entry_GetPrivilege d entry in
  try! subjectCount := entry_GetSubjectCount d entry in
  try! targetCount := entry_GetTargetCount d entry in
  try! subjects := get_subjects d entry 0 subjectCount in
  try! targets := get_targets d entry 0 targetCount in
  Some (inr {| ace_fabric := fabricIndex; ace_auth := authMode; ace_privilege := privilege;
               ace_subjects := subjects; ace_targets := targets |}).

(** ** [Check] *)
Fixpoint any_subject (d : D) (entry i n : nat) (authMode : AuthMode) (sd : SubjectDescriptor) : option (CHIP_ERROR + bool) :=
  match n with
  | O => Some (inr false)
  | S n =>
      try! subject := entry_GetSubject d entry i in
      match subject_matches authMode subject sd with
      | inl err => Some (inl err)
      | inr true => Some (inr true)
      | inr false => any_subject d entry (S i) n authMode sd
      end
  end.
Fixpoint any_target (d : D) (entry i n : nat) (path : RequestPath) : option (CHIP_ERROR + bool) :=
  match n with
  | O => Some (inr false)
  | S n =>
      try! target := entry_GetTarget d entry i new_target in
      if target_matches IsDeviceTypeOnEndpoint target path then Some (inr true) else any_target d entry (S i) n path
  end.

(** One round of the loop: an error, or whether the entry grants the request. *)
Definition check_entry (d : D) (entry : nat) (sd : SubjectDescriptor) (path : RequestPath) (requestPrivilege : Privilege)
    : option (CHIP_ERROR + bool) :=
  try! authMode := entry_GetAuthMode d entry in
  if negb (bool_decide (authMode = AuthMode_kCase) || bool_decide (authMode = AuthMode_kGroup)) then Some (inl CHIP_ERROR_INCORRECT_STATE)
  else if negb (bool_decide (authMode = sd_authMode sd)) then Some (inr false)
  else
    try! privilege := entry_GetPrivilege d entry in
    if negb (CheckRequestPrivilegeAgainstEntryPrivilege requestPrivilege privilege) then Some (inr false)
    else
      try! subjectCount := entry_GetSubjectCount d entry in
      try! subjectMatched := (if (0 <? subjectCount)%nat then any_subject d entry 0 subjectCount authMode sd else Some (inr true)) in
      if negb subjectMatched then Some (inr false)
      else
        try! targetCount := entry_GetTargetCount d entry in
        if (0 <? targetCount)%nat then any_target d entry 0 targetCount path else Some (inr true).

Fixpoint access_loop (fuel : nat) (d : D) (iterator entry : nat) (sd : SubjectDescriptor) (path : RequestPath)
    (requestPrivilege : Privilege) : option (CHIP_ERROR * D) :=
  match fuel with
  | O => None
  | S fuel =>
      let! (err, d) := iterator_Next d iterator entry in
      if negb (is_no_error err) then Some (CHIP_ERROR_ACCESS_DENIED, d)
      else
        let! r := check_entry d entry sd path requestPrivilege in
        match r with
        | inl err => Some (err, d)
        | inr true => Some (CHIP_NO_ERROR, d)
        | inr false => access_loop fuel d iterator entry sd path requestPrivilege
        end
  end.

Definition access_Check (fuel : nat) (s : access_control D) (sd : SubjectDescriptor) (path : RequestPath) (requestPrivilege : Privilege)
    : option (CHIP_ERROR * access_control D) :=
  if negb (mInitialized s) then Some (CHIP_ERROR_INCORRECT_STATE, s)
  else
    let result := ad_Check (mDelegate s) sd path requestPrivilege in
    if negb (bool_decide (result = CHIP_ERROR_NOT_IMPLEMENTED)) then Some (result, s)
    else if bool_decide (sd_authMode sd = AuthMode_kPase) then Some (CHIP_NO_ERROR, s)
    else
      let (iterator, d) := iterator_new (mDelegate s) in
      let! (err, d) := ad_Entries d iterator (Some (sd_fabricIndex sd)) in
      if negb (is_no_error err) then let! d := iterator_destroy d iterator in Some (err, s <| mDelegate := d |>)
      else
        let (entry, d) := entry_new d in
        let! (err, d) := access_loop fuel d iterator entry sd path requestPrivilege in
        let! d := entry_destroy d entry in
        let! d := iterator_destroy d iterator in
        Some (err, s <| mDelegate := d |>).

(** ** [IsValid] *)
Fixpoint valid_subjects (d : D) (entry i n : nat) (authMode : AuthMode) : option (CHIP_ERROR + bool) :=
  match n with
  | O => Some (inr true)
  | S n =>
      try! subject := entry_GetSubject d entry i in
      if subject_valid authMode subject then valid_subjects d entry (S i) n authMode else Some (inr false)
  end.
Fixpoint valid_targets (d : D) (entry i n : nat) : option (CHIP_ERROR + bool) :=
  match n with
  | O => Some (inr true)
  | S n =>
      try! target := entry_GetTarget d entry i new_target in
      if target_valid target then valid_targets d entry (S i) n else Some (inr false)
  end.
Definition validate (d : D) (entry : nat) : option (CHIP_ERROR + bool) :=
  try! authMode := entry_GetAuthMode d entry in
  try! fabricIndex := entry_GetFabricIndex d entry in
  try! privilege := entry_GetPrivilege d entry in
  try! subjectCount := entry_GetSubjectCount d entry in
  try! targetCount := entry_GetTargetCount d entry in
  if fabricIndex =? kUndefinedFabricIndex then Some (inr false)
  else if negb (bool_decide (authMode = AuthMode_kCase)) && negb (bool_decide (authMode = AuthMode_kGroup)) then Some (inr false)
  else if negb (bool_decide (authMode = AuthMode_kCase)) && bool_decide (privilege = Privilege_kAdminister) then Some (inr false)
  else
    try! subjects := valid_subjects d entry 0 subjectCount authMode in
    if negb subjects then Some (inr false) else valid_targets d entry 0 targetCount.
Definition access_IsValid (d : D) (entry : nat) : option bool :=
  let! r := validate d entry in Some (match r with inl _ => false | inr b => b end).

(** ** The list *)
Definition access_Init (s : access_control D) (delegate : option D) : option (CHIP_ERROR * access_control D) :=
  if mInitialized s then Some (CHIP_ERROR_INCORRECT_STATE, s)
  else
    match delegate with
    | None => Some (CHIP_ERROR_INVALID_ARGUMENT, s)
    | Some d =>
        let! (retval, d) := ad_Init d in
        Some (retval, if is_no_error retval then s <| mDelegate := d |> <| mInitialized := true |> else s)
    end.
Definition access_Finish (s : access_control D) : access_control D :=
  if mInitialized s then s <| mDelegate ::= ad_Finish |> <| mInitialized := false |> else s.

Definition when_initialized {A} (s : access_control D) (f : D → CHIP_ERROR + A) : CHIP_ERROR + A :=
  if mInitialized s then f (mDelegate s) else inl CHIP_ERROR_INCORRECT_STATE.
Definition access_GetMaxEntriesPerFabric (s : access_control D) : CHIP_ERROR + nat := when_initialized s ad_GetMaxEntriesPerFabric.
Definition access_GetMaxSubjectsPerEntry (s : access_control D) : CHIP_ERROR + nat := when_initialized s ad_GetMaxSubjectsPerEntry.
Definition access_GetMaxTargetsPerEntry (s : access_control D) : CHIP_ERROR + nat := when_initialized s ad_GetMaxTargetsPerEntry.
Definition access_GetMaxEntryCount (s : access_control D) : CHIP_ERROR + nat := when_initialized s ad_GetMaxEntryCount.
Definition access_GetEntryCountOf (s : access_control D) (fabric : Z) : CHIP_ERROR + nat := when_initialized s (fun d => ad_GetEntryCountOf d fabric).
Definition access_GetEntryCount (s : access_control D) : CHIP_ERROR + nat := when_initialized s ad_GetEntryCount.

(** An operation of the delegate that changes its state. *)
Definition with_delegate (s : access_control D) (f : D → option (CHIP_ERROR * D)) : option (CHIP_ERROR * access_control D) :=
  if negb (mInitialized s) then Some (CHIP_ERROR_INCORRECT_STATE, s)
  else let! (err, d) := f (mDelegate s) in Some (err, s <| mDelegate := d |>).
Definition access_PrepareEntry (s : access_control D) (entry : nat) : option (CHIP_ERROR * access_control D) :=
  with_delegate s (fun d => ad_PrepareEntry d entry).
Definition access_ReadEntry (s : access_control D) (index entry : nat) (fabricIndex : option Z) : option (CHIP_ERROR * access_control D) :=
  with_delegate s (fun d => ad_ReadEntry d index entry fabricIndex).
Definition access_Entries (s : access_control D) (iterator : nat) (fabricIndex : option Z) : option (CHIP_ERROR * access_control D) :=
  with_delegate s (fun d => ad_Entries d iterator fabricIndex).
(** The versions without listeners. *)
Definition access_CreateEntry_plain (s : access_control D) (entry : nat) (fabricIndex : option Z)
    : option (CHIP_ERROR * nat * option Z * access_control D) :=
  let! valid := access_IsValid (mDelegate s) entry in
  if negb valid then Some (CHIP_ERROR_INVALID_ARGUMENT, O, fabricIndex, s)
  else if negb (mInitialized s) then Some (CHIP_ERROR_INCORRECT_STATE, O, fabricIndex, s)
  else let! (err, i, fabricIndex, d) := ad_CreateEntry (mDelegate s) entry fabricIndex in Some (err, i, fabricIndex, s <| mDelegate := d |>).
Definition access_UpdateEntry_plain (s : access_control D) (index entry : nat) (fabricIndex : option Z) : option (CHIP_ERROR * access_control D) :=
  let! valid := access_IsValid (mDelegate s) entry in
  if negb valid then Some (CHIP_ERROR_INVALID_ARGUMENT, s) else with_delegate s (fun d => ad_UpdateEntry d index entry fabricIndex).
Definition access_DeleteEntry_plain (s : access_control D) (index : nat) (fabricIndex : option Z) : option (CHIP_ERROR * access_control D) :=
  with_delegate s (fun d => ad_DeleteEntry d index fabricIndex).

(** ** Listeners *)
Definition AddEntryListener (listener : nat) (s : access_control D) : access_control D :=
  s <| mEntryListener ::= (fun l => if bool_decide (listener ∈ l) then l else l ++ [listener]) |>.
Fixpoint remove_listener (listener : nat) (l : list nat) : list nat :=
  match l with
  | [] => []
  | x :: l => if (x =? listener)%nat then l else x :: remove_listener listener l
  end.
Definition RemoveEntryListener (listener : nat) (s : access_control D) : access_control D := s <| mEntryListener ::= remove_listener listener |>.

Definition NotifyEntryChanged (sd : option SubjectDescriptor) (fabric : Z) (index : nat) (entry : option nat) (change : ChangeType) (s : access_control D)
    : option (access_control D) :=
  let! read := match entry with
               | None => Some None
               | Some e => let! c := entry_contents (mDelegate s) e in Some (Some (match c with inl _ => None | inr a => Some a end))
               end in
  Some (s <| ac_log ::= (fun l => l ++ map (fun listener =>
    {| ee_listener := listener; ee_subject := sd; ee_fabric := fabric; ee_index := index; ee_entry := read; ee_change := change |})
    (mEntryListener s)) |>).

Definition access_CreateEntry (s : access_control D) (sd : option SubjectDescriptor) (fabric : Z) (entry : nat)
    : option (CHIP_ERROR * option nat * access_control D) :=
  if negb (mInitialized s) then Some (CHIP_ERROR_INCORRECT_STATE, None, s)
  else
    match ad_GetEntryCountOf (mDelegate s) fabric, ad_GetMaxEntriesPerFabric (mDelegate s) with
    | inl err, _ => Some (err, None, s)
    | inr _, inl err => Some (err, None, s)
    | inr count, inr maxCount =>
        if negb (count + 1 <=? maxCount)%nat then Some (CHIP_ERROR_BUFFER_TOO_SMALL, None, s)
        else
          let! valid := access_IsValid (mDelegate s) entry in
          if negb valid then Some (CHIP_ERROR_INVALID_ARGUMENT, None, s)
          else
            let! (err, i, fabricIndex, d) := ad_CreateEntry (mDelegate s) entry (Some fabric) in
            let s := s <| mDelegate := d |> in
            if negb (is_no_error err) then Some (err, None, s)
            else
              let! s := NotifyEntryChanged sd (default fabric fabricIndex) i (Some entry) kAdded s in
              Some (CHIP_NO_ERROR, Some i, s)
    end.

Definition access_UpdateEntry (s : access_control D) (sd : option SubjectDescriptor) (fabric : Z) (index entry : nat)
    : option (CHIP_ERROR * access_control D) :=
  if negb (mInitialized s) then Some (CHIP_ERROR_INCORRECT_STATE, s)
  else
    let! valid := access_IsValid (mDelegate s) entry in
    if negb valid then Some (CHIP_ERROR_INVALID_ARGUMENT, s)
    else
      let! (err, d) := ad_UpdateEntry (mDelegate s) index entry (Some fabric) in
      let s := s <| mDelegate := d |> in
      if negb (is_no_error err) then Some (err, s)
      else let! s := NotifyEntryChanged sd fabric index (Some entry) kUpdated s in Some (CHIP_NO_ERROR, s).

Definition access_DeleteEntry (s : access_control D) (sd : option SubjectDescriptor) (fabric : Z) (index : nat)
    : option (CHIP_ERROR * access_control D) :=
  if negb (mInitialized s) then Some (CHIP_ERROR_INCORRECT_STATE, s)
  else
    let (entry, d) := entry_new (mDelegate s) in
    let! (p, d) := match mEntryListener s with
                   | [] => Some (None, d)
                   | _ => let! (err, d) := ad_ReadEntry d index entry (Some fabric) in
                          Some (if is_no_error err then Some entry else None, d)
                   end in
    let! (err, d) := ad_DeleteEntry d index (Some fabric) in
    if negb (is_no_error err) then let! d := entry_destroy d entry in Some (err, s <| mDelegate := d |>)
    else
      let! p := match p with
                | Some e => let! b := entry_HasDefaultDelegate d e in Some (if b : bool then None else Some e)
                | None => Some None
                end in
      let! s := NotifyEntryChanged sd fabric index p kRemoved (s <| mDelegate := d |>) in
      let! d := entry_destroy (mDelegate s) entry in
      Some (CHIP_NO_ERROR, s <| mDelegate := d |>).

(** The loop of [DeleteAllEntriesForFabric], with [aclCount] rounds left. *)
Fixpoint delete_all (fabric : Z) (aclCount : nat) (stickyError : CHIP_ERROR) (s : access_control D) : option (CHIP_ERROR * access_control D) :=
  match aclCount with
  | O => Some (stickyError, s)
  | S aclCount =>
      let! (err, s) := access_DeleteEntry s None fabric aclCount in
      delete_all fabric aclCount (if is_no_error stickyError then err else stickyError) s
  end.
Definition DeleteAllEntriesForFabric (s : access_control D) (fabricIndex : Z) : option (CHIP_ERROR * access_control D) :=
  if negb (mInitialized s) then Some (CHIP_ERROR_INCORRECT_STATE, s)
  else
    match access_GetEntryCountOf s fabricIndex with
    | inl _ => Some (CHIP_NO_ERROR, s)
    | inr aclCount => delete_all fabricIndex aclCount CHIP_NO_ERROR s
    end.
End control.

(** ** What the delegate promises

    [ad_acl] is the list; [ad_entry d e] what the entry object [e] stands for, when
    it has a delegate; [ad_remaining d it] the entries the iterator object [it] has
    yet to give.  [ad_entry_room], [ad_iterator_room]: a delegate is free for one
    more object. *)
Fixpoint nth_of_fabric (f : Z) (acl : list ace) (index : nat) : option nat :=
  match acl with
  | [] => None
  | a :: acl =>
      if ace_fabric a =? f
      then match index with O => Some O | S index => S <$> nth_of_fabric f acl index end
      else S <$> nth_of_fabric f acl index
  end.
Definition of_fabric (f : Z) (acl : list ace) : list ace := filter (fun a => ace_fabric a = f) acl.
Definition position (acl : list ace) (index : nat) (fabricIndex : option Z) : option nat :=
  match fabricIndex with
  | Some f => nth_of_fabric f acl index
  | None => if (index <? length acl)%nat then Some index else None
  end.

Class AclDelegateLaws (D : Type) `{AclDelegate D} := {
  ad_ok : D → Prop;
  ad_acl : D → list ace;
  ad_entry : D → nat → option ace;
  ad_entry_live : D → nat → Prop;
  ad_remaining : D → nat → option (list ace);
  ad_entry_room : D → bool;
  ad_iterator_room : D → bool;
  ad_copy_room : D → bool;
  (** The place in the list the object refers to. *)
  ad_entry_at : D → nat → option nat;
  ad_max : nat;
  ad_max_per_fabric : nat;
  law_check d sd path p : ad_Check d sd path p = CHIP_ERROR_NOT_IMPLEMENTED;
  law_count d f : ad_ok d → ad_GetEntryCountOf d f = inr (length (of_fabric f (ad_acl d)));
  law_max d : ad_GetMaxEntriesPerFabric d = inr ad_max_per_fabric;
  law_live d e a : ad_ok d → ad_entry d e = Some a → ad_entry_live d e;
  (** Reading an entry. *)
  law_getters d e a : ad_ok d → ad_entry d e = Some a →
    entry_GetAuthMode d e = Some (inr (ace_auth a)) ∧ entry_GetFabricIndex d e = Some (inr (ace_fabric a)) ∧
    entry_GetPrivilege d e = Some (inr (ace_privilege a)) ∧
    entry_GetSubjectCount d e = Some (inr (length (ace_subjects a))) ∧
    entry_GetTargetCount d e = Some (inr (length (ace_targets a)));
  law_subject d e a i x : ad_ok d → ad_entry d e = Some a → ace_subjects a !! i = Some x → entry_GetSubject d e i = Some (inr x);
  law_target d e a i x : ad_ok d → ad_entry d e = Some a → ace_targets a !! i = Some x → entry_GetTarget d e i new_target = Some (inr x);
  law_read d i e f : ad_ok d → ad_entry_live d e →
    ∃ err d', ad_ReadEntry d i e f = Some (err, d') ∧ ad_ok d' ∧ ad_acl d' = ad_acl d ∧ ad_entry_live d' e ∧
      (err = CHIP_NO_ERROR → is_Some (position (ad_acl d) i f) ∧ ad_entry_at d' e = position (ad_acl d) i f) ∧
      (ad_entry d e = None → ad_copy_room d' = ad_copy_room d) ∧
      (ad_entry_room d = true ∨ is_Some (ad_entry d e) → is_Some (position (ad_acl d) i f) → err = CHIP_NO_ERROR);
  law_default d e : ad_ok d → ad_entry_live d e → ad_entry d e = None → ∃ err, entry_GetAuthMode d e = Some (inl err);
  law_has_default d e : ad_ok d → ad_entry_live d e → entry_HasDefaultDelegate d e = Some (bool_decide (ad_entry d e = None));
  (** Objects come and go. *)
  law_entry_new d e d' : ad_ok d → entry_new d = (e, d') →
    ad_ok d' ∧ ad_acl d' = ad_acl d ∧ ad_entry_live d' e ∧ ad_entry d' e = None ∧
    ad_entry_room d' = ad_entry_room d ∧ ad_copy_room d' = ad_copy_room d ∧ (∀ it, ad_remaining d' it = ad_remaining d it);
  law_entry_destroy d e : ad_ok d → ad_entry_live d e →
    ∃ d', entry_destroy d e = Some d' ∧ ad_ok d' ∧ ad_acl d' = ad_acl d ∧ (∀ it, ad_remaining d' it = ad_remaining d it);
  law_iterator_new d it d' : ad_ok d → iterator_new d = (it, d') →
    ad_ok d' ∧ ad_acl d' = ad_acl d ∧ is_Some (ad_remaining d' it) ∧
    ad_entry_room d' = ad_entry_room d ∧ ad_iterator_room d' = ad_iterator_room d;
  law_iterator_destroy d it : ad_ok d → is_Some (ad_remaining d it) →
    ∃ d', iterator_destroy d it = Some d' ∧ ad_ok d' ∧ ad_acl d' = ad_acl d;
  (** Iteration. *)
  law_entries d it f : ad_ok d → is_Some (ad_remaining d it) →
    ∃ err d', ad_Entries d it (Some f) = Some (err, d') ∧ ad_ok d' ∧ ad_acl d' = ad_acl d ∧
      ad_entry_room d' = ad_entry_room d ∧ is_Some (ad_remaining d' it) ∧
      (err = CHIP_NO_ERROR → ad_remaining d' it = Some (of_fabric f (ad_acl d))) ∧
      (ad_iterator_room d = true → err = CHIP_NO_ERROR);
  law_next d it e l : ad_ok d → ad_remaining d it = Some l → ad_entry_live d e →
    ∃ err d', iterator_Next d it e = Some (err, d') ∧ ad_ok d' ∧ ad_acl d' = ad_acl d ∧ ad_entry_live d' e ∧
      is_Some (ad_remaining d' it) ∧
      (err = CHIP_NO_ERROR → ∃ a l', l = a :: l' ∧ ad_entry d' e = Some a ∧ ad_remaining d' it = Some l') ∧
      (l ≠ [] → ad_entry_room d = true ∨ is_Some (ad_entry d e) → err = CHIP_NO_ERROR);
  (** The list changes. *)
  law_create d e a f : ad_ok d → ad_entry d e = Some a →
    ∃ i d', ad_CreateEntry d e (Some f) =
        Some (if (length (ad_acl d) <? ad_max)%nat then (CHIP_NO_ERROR, i, Some (ace_fabric a), d')
              else (CHIP_ERROR_BUFFER_TOO_SMALL, i, Some f, d')) ∧
      ad_ok d' ∧ ad_acl d' = (if (length (ad_acl d) <? ad_max)%nat then ad_acl d ++ [a] else ad_acl d) ∧
      i = (if (length (ad_acl d) <? ad_max)%nat then length (of_fabric (ace_fabric a) (ad_acl d)) else O) ∧ ad_entry d' e = Some a;
  law_update d e a i f : ad_ok d → ad_entry d e = Some a →
    ∃ d', ad_UpdateEntry d i e f =
        Some (match position (ad_acl d) i f with Some _ => CHIP_NO_ERROR | None => CHIP_ERROR_SENTINEL end, d') ∧
      ad_ok d' ∧ ad_acl d' = (match position (ad_acl d) i f with Some k => <[k := a]> (ad_acl d) | None => ad_acl d end) ∧
      ad_entry d' e = Some a;
  law_delete d i f : ad_ok d →
    ∃ d', ad_DeleteEntry d i f =
        Some (match position (ad_acl d) i f with Some _ => CHIP_NO_ERROR | None => CHIP_ERROR_SENTINEL end, d') ∧
      ad_ok d' ∧ ad_acl d' = (match position (ad_acl d) i f with Some k => delete k (ad_acl d) | None => ad_acl d end) ∧
      (∀ e, ad_entry_live d e → ad_entry_live d' e) ∧
      (∀ e k, ad_copy_room d = true → ad_entry_at d e = Some k → position (ad_acl d) i f = Some k → ad_entry d' e = ad_acl d !! k) }.

(** ** What an entry grants *)
Definition ace_valid (a : ace) : bool :=
  negb (ace_fabric a =? kUndefinedFabricIndex) &&
  (bool_decide (ace_auth a = AuthMode_kCase) ||
   bool_decide (ace_auth a = AuthMode_kGroup) && negb (bool_decide (ace_privilege a = Privilege_kAdminister))) &&
  forallb (subject_valid (ace_auth a)) (ace_subjects a) && forallb target_valid (ace_targets a).

(** ** The policy

    What an entry allows, from its fields alone: none of the functions [Check] calls
    occurs here. *)

(** The privileges an entry with a privilege allows. *)
Definition privileges_of (granted : Privilege) : list Privilege :=
  match granted with
  | Privilege_kView => [Privilege_kView]
  | Privilege_kProxyView => [Privilege_kView; Privilege_kProxyView]
  | Privilege_kOperate => [Privilege_kView; Privilege_kOperate]
  | Privilege_kManage => [Privilege_kView; Privilege_kOperate; Privilege_kManage]
  | Privilege_kAdminister =>
      [Privilege_kView; Privilege_kProxyView; Privilege_kOperate; Privilege_kManage; Privilege_kAdminister]
  end.
Definition privilege_covers (asked granted : Privilege) : bool := bool_decide (asked ∈ privileges_of granted).

(** The fields a target names: the cluster, the endpoint and a device type of the
    endpoint, as bits 0, 1 and 2 of its flags say; a field it does not name is free. *)
Definition target_names (R : Z → Z → bool) (path : RequestPath) (t : Target) : bool :=
  implb (Z.testbit (t_flags t) 0) (t_cluster t =? rp_cluster path) &&
  implb (Z.testbit (t_flags t) 1) (t_endpoint t =? rp_endpoint path) &&
  implb (Z.testbit (t_flags t) 2) (R (t_deviceType t) (rp_endpoint path)).

(** A tag an identity carries (identifier in the upper half, version in the lower)
    answers a tag of the list with its identifier and no newer version. *)
Definition tag_answers (carried listed : Z) : bool :=
  negb (carried =? 0) && (carried / 0x10000 mod 0x10000 =? listed / 0x10000 mod 0x10000) &&
  (1 <=? listed mod 0x10000) && (listed mod 0x10000 <=? carried mod 0x10000).

(** A subject of the list is the identity itself, or a tag it carries. *)
Definition names (sd : SubjectDescriptor) (subject : Z) : bool :=
  if (0xFFFFFFFD00000000 <=? subject) && (subject <? 0xFFFFFFFE00000000)
  then existsb (fun carried => tag_answers carried (subject mod 2 ^ 32)) (sd_cats sd)
  else subject =? sd_subject sd.

Definition any_or_none {A} (P : A → bool) (l : list A) : bool := match l with [] => true | _ => existsb P l end.
Definition grants (R : Z → Z → bool) (sd : SubjectDescriptor) (path : RequestPath) (p : Privilege) (a : ace) : bool :=
  bool_decide (ace_auth a = sd_authMode sd) && privilege_covers p (ace_privilege a) &&
  any_or_none (names sd) (ace_subjects a) && any_or_none (target_names R path) (ace_targets a).

Lemma privilege_check_spec p q : CheckRequestPrivilegeAgainstEntryPrivilege p q = privilege_covers p q.
Proof. by destruct p, q. Qed.

Lemma target_matches_spec R t path : target_matches R t path = target_names R path t.
Proof.
  unfold target_matches, target_names. change kCluster with (2 ^ 0). change kEndpoint with (2 ^ 1). change kDeviceType with (2 ^ 2).
  rewrite !has_bits_pow2 by lia.
  repeat (match goal with |- context [Z.testbit ?m ?k] => destruct (Z.testbit m k) end; cbn [andb implb]);
    repeat (match goal with |- context [Z.eqb ?a ?b] => destruct (Z.eqb_spec a b) end; cbn [andb negb]);
    try done; by destruct (R _ _).
Qed.

Lemma cat_identifier_any c : GetCASEAuthTagIdentifier c = c / 0x10000 mod 0x10000.
Proof.
  unfold GetCASEAuthTagIdentifier, kTagIdentifierMask, kTagIdentifierShift.
  rewrite Z.shiftr_land. change (Z.shiftr 0xFFFF0000 16) with (Z.ones 16). rewrite Z.land_ones, Z.shiftr_div_pow2 by lia.
  apply wrap_small, Z.mod_pos_bound. lia.
Qed.

Lemma case_tag_range subject : IsCASEAuthTag subject = (0xFFFFFFFD00000000 <=? subject) && (subject <? 0xFFFFFFFE00000000).
Proof. unfold IsCASEAuthTag, kMinCASEAuthTag, kMaxCASEAuthTag. f_equal. apply eq_iff_eq_true. rewrite Z.leb_le, Z.ltb_lt. lia. Qed.

Lemma cat_from_node_mod subject : CASEAuthTagFromNodeId subject = subject mod 2 ^ 32.
Proof.
  unfold CASEAuthTagFromNodeId, kMaskCASEAuthTag. change 0xFFFFFFFF with (Z.ones 32). rewrite Z.land_ones by lia.
  apply wrap_small, Z.mod_pos_bound. lia.
Qed.

Lemma names_spec sd subject : names sd subject =
  if IsCASEAuthTag subject then CheckSubjectAgainstCATs (sd_cats sd) subject else subject =? sd_subject sd.
Proof.
  unfold names. rewrite <- case_tag_range. unfold CheckSubjectAgainstCATs. destruct (IsCASEAuthTag subject); [|done]. cbn [negb].
  rewrite cat_from_node_mod. generalize (subject mod 2 ^ 32) as tag. intros tag.
  induction (sd_cats sd) as [|c l IH]; [done|]. cbn [existsb]. rewrite IH. f_equal.
  unfold tag_answers, kUndefinedCAT. rewrite !cat_identifier_any, !cat_version. change (2 ^ 16) with 0x10000. do 2 f_equal.
  apply eq_iff_eq_true. rewrite Z.ltb_lt, Z.leb_le. lia.
Qed.

Lemma subject_matches_valid mode subject sd : subject_valid mode subject = true → subject_matches mode subject sd = inr (names sd subject).
Proof.
  intros Hv. unfold subject_valid, IsValidCaseNodeId, IsValidGroupNodeId in Hv. rewrite names_spec. unfold subject_matches.
  pose proof (node_ranges_disjoint subject) as Hd.
  destruct (IsOperationalNodeId subject), (IsCASEAuthTag subject), (IsGroupId subject); try (destruct (IsPAKEKeyId subject); lia);
    destruct mode; repeat case_bool_decide; simplify_eq; cbn in Hv; done.
Qed.

Section check.
Context {D : Type} `{AclDelegateLaws D} (R : Z → Z → bool).

Lemma any_subject_spec (d : D) e a sd : ad_ok d → ad_entry d e = Some a → forallb (subject_valid (ace_auth a)) (ace_subjects a) = true →
  ∀ n i, (i + n)%nat = length (ace_subjects a) →
  any_subject d e i n (ace_auth a) sd = Some (inr (existsb (names sd) (drop i (ace_subjects a)))).
Proof.
  intros Hok He Hv. induction n as [|n IH]; intros i Hi; [by rewrite drop_ge by lia|].
  destruct (lookup_lt_is_Some_2 (ace_subjects a) i) as [x Hx]; [lia|]. cbn [any_subject].
  rewrite (law_subject d e a i x Hok He Hx), (drop_S _ x) by done. cbn [existsb].
  rewrite forallb_forall in Hv. rewrite subject_matches_valid by (apply Hv, list_elem_of_In; by eapply list_elem_of_lookup_2).
  destruct (names sd x); [done|]. rewrite IH by lia. done.
Qed.

Lemma any_target_spec (d : D) e a path : ad_ok d → ad_entry d e = Some a →
  ∀ n i, (i + n)%nat = length (ace_targets a) →
  any_target R d e i n path = Some (inr (existsb (target_names R path) (drop i (ace_targets a)))).
Proof.
  intros Hok He. induction n as [|n IH]; intros i Hi; [by rewrite drop_ge by lia|].
  destruct (lookup_lt_is_Some_2 (ace_targets a) i) as [x Hx]; [lia|]. cbn [any_target].
  rewrite (law_target d e a i x Hok He Hx), (drop_S _ x) by done. cbn [existsb]. rewrite target_matches_spec. destruct (target_names R path x); [done|]. rewrite IH by lia. done.
Qed.

Lemma when_some {A} (P : A → bool) (l : list A) : (if (0 <? length l)%nat then existsb P l else true) = any_or_none P l.
Proof. by destruct l. Qed.

Lemma check_entry_spec (d : D) e a sd path p : ad_ok d → ad_entry d e = Some a → ace_valid a = true →
  check_entry R d e sd path p = Some (inr (grants R sd path p a)).
Proof.
  intros Hok He Hv. destruct (law_getters d e a Hok He) as (Ha & _ & Hp & Hs & Ht). unfold ace_valid in Hv.
  rewrite !andb_true_iff in Hv. destruct Hv as (((_ & Hm) & Hsub) & _). unfold check_entry, grants. rewrite Ha.
  assert (bool_decide (ace_auth a = AuthMode_kCase) || bool_decide (ace_auth a = AuthMode_kGroup) = true) as ->.
  { destruct (bool_decide (ace_auth a = AuthMode_kCase)); [done|]. by apply andb_true_iff in Hm as [-> _]. }
  cbn [negb]. destruct (bool_decide (ace_auth a = sd_authMode sd)); [|done]. cbn [negb andb]. rewrite Hp.
  rewrite privilege_check_spec. destruct (privilege_covers p (ace_privilege a)); [|done]. cbn [negb andb]. rewrite Hs, Ht.
  rewrite (any_subject_spec d e a sd Hok He Hsub _ 0) by lia. rewrite (any_target_spec d e a path Hok He _ 0) by lia.
  change (drop 0 (ace_subjects a)) with (ace_subjects a). change (drop 0 (ace_targets a)) with (ace_targets a).
  rewrite <- (when_some (names sd)), <- (when_some (target_names R path)).
  destruct (0 <? length (ace_subjects a))%nat; [destruct (existsb _ _)|]; cbn [negb andb]; by destruct (0 <? length (ace_targets a))%nat.
Qed.

(** The loop over the entries: with room it looks for one that grants; without it
    it stops and denies. *)
Lemma access_loop_spec it e sd path p : ∀ l fuel (d : D), ad_ok d → ad_remaining d it = Some l → ad_entry_live d e →
  Forall (fun a => ace_valid a = true) l → (length l < fuel)%nat →
  ∃ err d', access_loop R fuel d it e sd path p = Some (err, d') ∧ ad_ok d' ∧ ad_acl d' = ad_acl d ∧
    ad_entry_live d' e ∧ is_Some (ad_remaining d' it) ∧
    (err = CHIP_NO_ERROR ∨ err = CHIP_ERROR_ACCESS_DENIED) ∧
    (err = CHIP_NO_ERROR → existsb (grants R sd path p) l = true) ∧
    (ad_entry_room d = true ∨ is_Some (ad_entry d e) → err = CHIP_NO_ERROR ↔ existsb (grants R sd path p) l = true).
Proof.
  induction l as [|a l IH]; intros fuel d Hok Hrem Hlive Hval Hf; (destruct fuel as [|fuel]; [simpl in Hf; lia|]); cbn [access_loop];
    destruct (law_next d it e _ Hok Hrem Hlive) as (err & d' & -> & Hok' & Hacl & Hlive' & Hrem' & Hyes & Hroom);
    (destruct (decide (err = CHIP_NO_ERROR)) as [->|Herr];
     [|rewrite is_no_error_false by done; exists CHIP_ERROR_ACCESS_DENIED, d'; split_and!; try done; try (by right); intros Hr;
       (split; [done|intros Hx; destruct Herr; by apply Hroom])]); destruct (Hyes eq_refl) as (a' & l' & Hl & He & Hr'); try done.
  injection Hl as <- <-. inv Hval. cbn [is_no_error negb].
  rewrite (check_entry_spec d' e a) by done. cbn [existsb]. destruct (grants R sd path p a) eqn:Hg; cbn [orb].
  - exists CHIP_NO_ERROR, d'. split_and!; try done. by left.
  - destruct (IH fuel d' Hok' Hr' Hlive' ltac:(done) ltac:(simpl in Hf; lia)) as (err' & d'' & -> & Hok'' & Hacl'' & Hl'' & Hr'' & Hor & Hs & Hiff).
    exists err', d''. split_and!; try done; [by rewrite Hacl''|]. intros _. apply Hiff. right. by rewrite He.
Qed.

Definition has_room (d : D) : Prop := ad_entry_room d = true ∧ ad_iterator_room d = true.
End check.

(** Who is allowed, from the list alone. *)
Definition allowed (R : Z → Z → bool) (acl : list ace) (sd : SubjectDescriptor) (path : RequestPath) (p : Privilege) : bool :=
  bool_decide (sd_authMode sd = AuthMode_kPase) || existsb (grants R sd path p) (of_fabric (sd_fabricIndex sd) acl).

Lemma access_check_spec {D} `{AclDelegateLaws D} R (s : access_control D) sd path p fuel :
  mInitialized s = true → ad_ok (mDelegate s) → Forall (fun a => ace_valid a = true) (ad_acl (mDelegate s)) →
  (length (ad_acl (mDelegate s)) < fuel)%nat →
  ∃ err s', access_Check R fuel s sd path p = Some (err, s') ∧ mInitialized s' = true ∧ ad_ok (mDelegate s') ∧
    ad_acl (mDelegate s') = ad_acl (mDelegate s) ∧
    (err = CHIP_NO_ERROR → allowed R (ad_acl (mDelegate s)) sd path p = true) ∧
    (has_room (mDelegate s) →
     err = if allowed R (ad_acl (mDelegate s)) sd path p then CHIP_NO_ERROR else CHIP_ERROR_ACCESS_DENIED).
Proof.
  intros Hin Hok Hval Hf. unfold access_Check, allowed. rewrite Hin, law_check. cbn [negb]. rewrite bool_decide_eq_true_2 by done. cbn [negb].
  destruct (bool_decide (sd_authMode sd = AuthMode_kPase)); [by exists CHIP_NO_ERROR, s|]. cbn [orb].
  destruct (iterator_new (mDelegate s)) as [it d1] eqn:E1. destruct (law_iterator_new _ _ _ Hok E1) as (Hok1 & Ha1 & Hr1 & Her1 & Hir1).
  destruct (law_entries d1 it (sd_fabricIndex sd) Hok1 Hr1) as (err & d2 & -> & Hok2 & Ha2 & Her2 & Hr2 & Hyes & Hir2).
  destruct (decide (err = CHIP_NO_ERROR)) as [->|Herr].
  - cbn [is_no_error negb]. destruct (entry_new d2) as [e d3] eqn:E3.
    destruct (law_entry_new d2 e d3 Hok2 E3) as (Hok3 & Ha3 & Hl3 & He3 & Her3 & _ & Hr3).
    pose proof (Hyes eq_refl) as Hrem. rewrite <- Hr3, Ha1 in Hrem.
    destruct (access_loop_spec R it e sd path p _ fuel d3 Hok3 Hrem Hl3) as (err & d4 & -> & Hok4 & Ha4 & Hl4 & Hr4 & Hor & Hs4 & Hiff4).
    { rewrite Forall_forall in Hval |- *. intros a [_ Ha]%list_elem_of_filter. by apply Hval. }
    { eapply Nat.le_lt_trans; [apply length_filter|done]. }
    destruct (law_entry_destroy d4 e Hok4 Hl4) as (d5 & -> & Hok5 & Ha5 & Hr5).
    destruct (law_iterator_destroy d5 it Hok5) as (d6 & -> & Hok6 & Ha6); [by rewrite Hr5|].
    exists err, (s <| mDelegate := d6 |>). cbn [mDelegate mInitialized update eta_access_control]. split_and!; try done; [congruence|].
    intros [Hre Hri]. assert (err = CHIP_NO_ERROR ↔ existsb (grants R sd path p) (of_fabric (sd_fabricIndex sd) (ad_acl (mDelegate s))) = true) as Hiff
      by (apply Hiff4; left; congruence).
    destruct (existsb _ _); [by apply Hiff|]. destruct Hor as [E|E]; [by apply Hiff in E|done].
  - rewrite is_no_error_false by done. cbn [negb]. destruct (law_iterator_destroy d2 it Hok2 Hr2) as (d3 & -> & Hok3 & Ha3).
    exists err, (s <| mDelegate := d3 |>). cbn [mDelegate mInitialized update eta_access_control]. split_and!; [done|done|done|congruence|done|].
    intros [_ Hri]. destruct Herr. apply Hir2. congruence.
Qed.

(** Group subjects are never administrators. *)
Lemma group_not_administrator R acl sd path : Forall (fun a => ace_valid a = true) acl → sd_authMode sd = AuthMode_kGroup →
  allowed R acl sd path Privilege_kAdminister = false.
Proof.
  intros Hval Hg. unfold allowed. rewrite Hg. rewrite bool_decide_eq_false_2 by done. cbn [orb]. apply not_true_iff_false. rewrite existsb_exists. setoid_rewrite <- list_elem_of_In.
  intros (a & [_ Ha]%list_elem_of_filter & H). rewrite Forall_forall in Hval. specialize (Hval a Ha). unfold ace_valid in Hval. unfold grants in H.
  rewrite !andb_true_iff, bool_decide_eq_true in H. destruct H as (((Hm & Hp) & _) & _). rewrite Hm, Hg in Hval. cbn in Hval.
  destruct (ace_privilege a); cbn in Hp, Hval; try done. by rewrite andb_false_r in Hval.
Qed.

(** ** Positions *)
Lemma nth_of_fabric_spec f acl i :
  match nth_of_fabric f acl i with
  | Some k => ∃ a, acl !! k = Some a ∧ of_fabric f acl !! i = Some a ∧ of_fabric f (delete k acl) = delete i (of_fabric f acl) ∧
      filter (fun a => ace_fabric a ≠ f) (delete k acl) = filter (fun a => ace_fabric a ≠ f) acl
  | None => (length (of_fabric f acl) ≤ i)%nat
  end.
Proof.
  revert i; induction acl as [|a acl IH]; intros i; [apply Nat.le_0_l|]. cbn [nth_of_fabric]. unfold of_fabric in *.
  destruct (Z.eqb_spec (ace_fabric a) f) as [Ha|Ha].
  - rewrite filter_cons_True by done. destruct i as [|i].
    + exists a. change (delete 0%nat (a :: acl)) with acl. rewrite filter_cons_False by naive_solver. done.
    + specialize (IH i). destruct (nth_of_fabric f acl i) as [k|]; cbn [fmap option_fmap option_map]; [|simpl; lia].
      destruct IH as (b & H1 & H2 & H3 & H4). exists b. change (delete (S k) (a :: acl)) with (a :: delete k acl).
      rewrite filter_cons_True, H3 by done. rewrite !filter_cons_False by naive_solver. done.
  - rewrite filter_cons_False by done. specialize (IH i). destruct (nth_of_fabric f acl i) as [k|]; cbn [fmap option_fmap option_map]; [|done].
    destruct IH as (b & H1 & H2 & H3 & H4). exists b. change (delete (S k) (a :: acl)) with (a :: delete k acl).
    rewrite filter_cons_False, H3 by done. rewrite !filter_cons_True, H4 by done. done.
Qed.

Lemma position_lookup acl i f k : position acl i f = Some k → is_Some (acl !! k).
Proof.
  unfold position. destruct f as [f|].
  - intros E. pose proof (nth_of_fabric_spec f acl i) as H. rewrite E in H. destruct H as (a & -> & _). done.
  - case_match eqn:E; [|done]. intros [= <-]. apply lookup_lt_is_Some_2. by apply Nat.ltb_lt.
Qed.

Section operations.
Context {D : Type} `{AclDelegateLaws D}.
Implicit Types d : D.

Lemma get_subjects_spec d e a : ad_ok d → ad_entry d e = Some a → ∀ n i, (i + n)%nat = length (ace_subjects a) →
  get_subjects d e i n = Some (inr (drop i (ace_subjects a))).
Proof.
  intros Hok He. induction n as [|n IH]; intros i Hi; [by rewrite drop_ge by lia|].
  destruct (lookup_lt_is_Some_2 (ace_subjects a) i) as [x Hx]; [lia|]. cbn [get_subjects].
  by rewrite (law_subject d e a i x Hok He Hx), (drop_S _ x), IH by (done || lia).
Qed.

Lemma get_targets_spec d e a : ad_ok d → ad_entry d e = Some a → ∀ n i, (i + n)%nat = length (ace_targets a) →
  get_targets d e i n = Some (inr (drop i (ace_targets a))).
Proof.
  intros Hok He. induction n as [|n IH]; intros i Hi; [by rewrite drop_ge by lia|].
  destruct (lookup_lt_is_Some_2 (ace_targets a) i) as [x Hx]; [lia|]. cbn [get_targets].
  by rewrite (law_target d e a i x Hok He Hx), (drop_S _ x), IH by (done || lia).
Qed.

(** What a reader of the entry sees. *)
Lemma entry_contents_spec d e : ad_ok d → ad_entry_live d e →
  ∃ r, entry_contents d e = Some r ∧ match ad_entry d e with Some a => r = inr a | None => ∃ err, r = inl err end.
Proof.
  intros Hok Hl. destruct (ad_entry d e) as [a|] eqn:He; unfold entry_contents.
  - destruct (law_getters d e a Hok He) as (-> & -> & -> & -> & ->).
    rewrite (get_subjects_spec d e a Hok He _ 0), (get_targets_spec d e a Hok He _ 0) by lia. eexists. split; [done|]. by destruct a.
  - destruct (law_default d e Hok Hl He) as [err ->]. eauto.
Qed.

Lemma valid_subjects_spec d e a : ad_ok d → ad_entry d e = Some a → ∀ n i, (i + n)%nat = length (ace_subjects a) →
  valid_subjects d e i n (ace_auth a) = Some (inr (forallb (subject_valid (ace_auth a)) (drop i (ace_subjects a)))).
Proof.
  intros Hok He. induction n as [|n IH]; intros i Hi; [by rewrite drop_ge by lia|].
  destruct (lookup_lt_is_Some_2 (ace_subjects a) i) as [x Hx]; [lia|]. cbn [valid_subjects].
  rewrite (law_subject d e a i x Hok He Hx), (drop_S _ x) by done. cbn [forallb]. destruct (subject_valid _ x); [|done]. rewrite IH by lia. done.
Qed.

Lemma valid_targets_spec d e a : ad_ok d → ad_entry d e = Some a → ∀ n i, (i + n)%nat = length (ace_targets a) →
  valid_targets d e i n = Some (inr (forallb target_valid (drop i (ace_targets a)))).
Proof.
  intros Hok He. induction n as [|n IH]; intros i Hi; [by rewrite drop_ge by lia|].
  destruct (lookup_lt_is_Some_2 (ace_targets a) i) as [x Hx]; [lia|]. cbn [valid_targets].
  rewrite (law_target d e a i x Hok He Hx), (drop_S _ x) by done. cbn [forallb]. destruct (target_valid x); [|done]. rewrite IH by lia. done.
Qed.

Lemma is_valid_spec d e : ad_ok d → ad_entry_live d e →
  access_IsValid d e = Some (match ad_entry d e with Some a => ace_valid a | None => false end).
Proof.
  intros Hok Hl. unfold access_IsValid, validate. destruct (ad_entry d e) as [a|] eqn:He.
  - destruct (law_getters d e a Hok He) as (-> & -> & -> & -> & ->). unfold ace_valid.
    destruct (ace_fabric a =? kUndefinedFabricIndex); [done|]. cbn [negb andb].
    rewrite (valid_subjects_spec d e a Hok He _ 0), (valid_targets_spec d e a Hok He _ 0) by lia. rewrite !drop_0.
    destruct (ace_auth a), (ace_privilege a); cbn; try done; by destruct (forallb _ (ace_subjects a)).
  - by destruct (law_default d e Hok Hl He) as [err ->].
Qed.

(** The list as the operations see it. *)
Definition list_create (acl : list ace) (fabric : Z) (e : option ace) : CHIP_ERROR * list ace :=
  if negb (length (of_fabric fabric acl) + 1 <=? ad_max_per_fabric)%nat then (CHIP_ERROR_BUFFER_TOO_SMALL, acl)
  else match e with
       | Some a =>
           if negb (ace_valid a) then (CHIP_ERROR_INVALID_ARGUMENT, acl)
           else if (length acl <? ad_max)%nat then (CHIP_NO_ERROR, acl ++ [a]) else (CHIP_ERROR_BUFFER_TOO_SMALL, acl)
       | None => (CHIP_ERROR_INVALID_ARGUMENT, acl)
       end.
Definition list_update (acl : list ace) (fabric : Z) (index : nat) (e : option ace) : CHIP_ERROR * list ace :=
  match e with
  | Some a =>
      if negb (ace_valid a) then (CHIP_ERROR_INVALID_ARGUMENT, acl)
      else match position acl index (Some fabric) with
           | Some k => (CHIP_NO_ERROR, <[k := a]> acl)
           | None => (CHIP_ERROR_SENTINEL, acl)
           end
  | None => (CHIP_ERROR_INVALID_ARGUMENT, acl)
  end.
Definition list_delete (acl : list ace) (fabric : Z) (index : nat) : CHIP_ERROR * list ace :=
  match position acl index (Some fabric) with
  | Some k => (CHIP_NO_ERROR, delete k acl)
  | None => (CHIP_ERROR_SENTINEL, acl)
  end.

(** The calls of the listeners for one change. *)
Definition notified (s : access_control D) (sd : option SubjectDescriptor) (fabric : Z) (index : nat) (read : option (option ace))
    (change : ChangeType) : list entry_event :=
  map (fun l => {| ee_listener := l; ee_subject := sd; ee_fabric := fabric; ee_index := index; ee_entry := read; ee_change := change |})
    (mEntryListener s).

Definition control_ok (s : access_control D) : Prop :=
  mInitialized s = true ∧ ad_ok (mDelegate s) ∧ Forall (fun a => ace_valid a = true) (ad_acl (mDelegate s)).

Lemma control_ok_intro i (d : D) l g : i = true → ad_ok d → Forall (fun a => ace_valid a = true) (ad_acl d) →
  control_ok {| mInitialized := i; mDelegate := d; mEntryListener := l; ac_log := g |}.
Proof. done. Qed.

Lemma notify_spec sd fabric index e change (s : access_control D) : ad_ok (mDelegate s) → ad_entry_live (mDelegate s) e →
  NotifyEntryChanged sd fabric index (Some e) change s =
  Some (s <| ac_log ::= (fun l => l ++ notified s sd fabric index (Some (ad_entry (mDelegate s) e)) change) |>).
Proof.
  intros Hok Hl. unfold NotifyEntryChanged. destruct (entry_contents_spec _ _ Hok Hl) as (r & -> & Hr).
  destruct (ad_entry (mDelegate s) e) as [a|]; [by subst|]. by destruct Hr as [err ->].
Qed.

Lemma create_entry_spec s sd fabric e : control_ok s → ad_entry_live (mDelegate s) e →
  let acl := ad_acl (mDelegate s) in
  let (err, acl') := list_create acl fabric (ad_entry (mDelegate s) e) in
  ∃ idx s', access_CreateEntry s sd fabric e = Some (err, idx, s') ∧ control_ok s' ∧ ad_acl (mDelegate s') = acl' ∧
    mEntryListener s' = mEntryListener s ∧
    ac_log s' = ac_log s ++ match ad_entry (mDelegate s) e with
                            | Some a => if is_no_error err
                                then notified s sd (ace_fabric a) (length (of_fabric (ace_fabric a) acl)) (Some (Some a)) kAdded else []
                            | None => []
                            end.
Proof.
  intros (Hin & Hok & Hval) Hl acl. unfold list_create, access_CreateEntry. rewrite Hin, law_count, law_max by done. cbn [negb]. fold acl.
  destruct (length (of_fabric fabric acl) + 1 <=? ad_max_per_fabric)%nat; cbn [negb];
    [|exists None, s; split_and!; try done; cbn [is_no_error]; by destruct (ad_entry _ _); rewrite app_nil_r].
  rewrite is_valid_spec by done. destruct (ad_entry (mDelegate s) e) as [a|] eqn:He; cbn [negb];
    [|exists None, s; split_and!; try done; by rewrite app_nil_r].
  destruct (ace_valid a) eqn:Hv; cbn [negb]; [|exists None, s; split_and!; try done; by rewrite app_nil_r].
  destruct (law_create (mDelegate s) e a fabric Hok He) as (i & d' & -> & Hok' & Hacl' & Hi & He'). fold acl in Hacl', Hi |- *.
  destruct (length acl <? ad_max)%nat; cbn [negb is_no_error default].
  - rewrite notify_spec; cbn [mDelegate update eta_access_control]; [|done|by eapply law_live]. rewrite He'.
    eexists _, _. split; [reflexivity|]. cbn [ac_log mEntryListener mDelegate mInitialized update eta_access_control].
    split_and!; try done; [apply control_ok_intro; [done..|]; rewrite Hacl'; by apply Forall_app_2, Forall_singleton|by rewrite Hi].
  - eexists _, _. split; [reflexivity|]. cbn [ac_log mEntryListener mDelegate mInitialized update eta_access_control].
    split_and!; try done; [apply control_ok_intro; [done..|]; by rewrite Hacl'|by rewrite app_nil_r].
Qed.
Lemma update_entry_spec s sd fabric index e : control_ok s → ad_entry_live (mDelegate s) e →
  let (err, acl') := list_update (ad_acl (mDelegate s)) fabric index (ad_entry (mDelegate s) e) in
  ∃ s', access_UpdateEntry s sd fabric index e = Some (err, s') ∧ control_ok s' ∧ ad_acl (mDelegate s') = acl' ∧
    mEntryListener s' = mEntryListener s ∧
    ac_log s' = ac_log s ++ if is_no_error err then notified s sd fabric index (Some (ad_entry (mDelegate s) e)) kUpdated else [].
Proof.
  intros (Hin & Hok & Hval) Hl. unfold list_update, access_UpdateEntry. rewrite Hin. cbn [negb]. rewrite is_valid_spec by done.
  destruct (ad_entry (mDelegate s) e) as [a|] eqn:He; cbn [negb]; [|exists s; split_and!; try done; by rewrite app_nil_r].
  destruct (ace_valid a) eqn:Hv; cbn [negb]; [|exists s; split_and!; try done; by rewrite app_nil_r].
  destruct (law_update (mDelegate s) e a index (Some fabric) Hok He) as (d' & -> & Hok' & Hacl' & He').
  destruct (position _ index (Some fabric)) as [k|] eqn:Hp; cbn [negb is_no_error].
  - rewrite notify_spec; cbn [mDelegate update eta_access_control]; [|done|by eapply law_live]. rewrite He'.
    eexists. split; [reflexivity|]. cbn [ac_log mEntryListener mDelegate mInitialized update eta_access_control].
    split_and!; try done. apply control_ok_intro; [done..|]. rewrite Hacl'. by apply Forall_insert.
  - eexists. split; [reflexivity|]. cbn [ac_log mEntryListener mDelegate mInitialized update eta_access_control].
    split_and!; try done; [|by rewrite app_nil_r]. apply control_ok_intro; [done..|]. by rewrite Hacl'.
Qed.

(** A removal tells each listener once; when there is room for the entry that is
    read before, with what it said. *)
Lemma delete_entry_spec s sd fabric index : control_ok s →
  let acl := ad_acl (mDelegate s) in
  let (err, acl') := list_delete acl fabric index in
  ∃ s' read, access_DeleteEntry s sd fabric index = Some (err, s') ∧ control_ok s' ∧ ad_acl (mDelegate s') = acl' ∧
    mEntryListener s' = mEntryListener s ∧
    ac_log s' = ac_log s ++ (if is_no_error err then notified s sd fabric index read kRemoved else []) ∧
    (ad_entry_room (mDelegate s) = true → ad_copy_room (mDelegate s) = true → mEntryListener s ≠ [] →
     ∀ k, position acl index (Some fabric) = Some k → read = Some (acl !! k)).
Proof.
  intros (Hin & Hok & Hval) acl. unfold list_delete, access_DeleteEntry. rewrite Hin. cbn [negb].
  destruct (entry_new (mDelegate s)) as [e d1] eqn:E1. destruct (law_entry_new _ e d1 Hok E1) as (Hok1 & Ha1 & Hl1 & He1 & Hr1 & Hc1 & _).
  assert (∃ p d2, match mEntryListener s with
                  | [] => Some (None, d1)
                  | _ => let! (err, d) := ad_ReadEntry d1 index e (Some fabric) in Some (if is_no_error err then Some e else None, d)
                  end = Some (p, d2) ∧ ad_ok d2 ∧ ad_acl d2 = acl ∧ ad_entry_live d2 e ∧ (p = None ∨ p = Some e) ∧
            (ad_entry_room (mDelegate s) = true → ad_copy_room (mDelegate s) = true → mEntryListener s ≠ [] →
             ∀ k, position acl index (Some fabric) = Some k →
             p = Some e ∧ ad_copy_room d2 = true ∧ ad_entry_at d2 e = Some k)) as (p & d2 & -> & Hok2 & Ha2 & Hl2 & Hp & Hroom).
  { destruct (mEntryListener s); [exists None, d1; split_and!; try done; by left|].
    destruct (law_read d1 index e (Some fabric) Hok1 Hl1) as (err & d2 & -> & Hok2 & Ha2 & Hl2 & Hat & Hcr & Hyes).
    rewrite Ha1 in *. fold acl in Hyes, Hat, Ha2. eexists _, d2. split; [reflexivity|]. split_and!; [done..| |].
    - destruct (is_no_error err); [by right|by left].
    - intros Hr Hc _ k Hk. assert (err = CHIP_NO_ERROR) as -> by (apply Hyes; [left; congruence|by rewrite Hk]).
      destruct (Hat eq_refl) as [_ Hat']. split; [done|]. rewrite Hcr by done. split; congruence. }
  destruct (law_delete d2 index (Some fabric) Hok2) as (d3 & -> & Hok3 & Ha3 & Hl3 & Hcopy). rewrite Ha2 in *.
  specialize (Hl3 e Hl2).
  destruct (position acl index (Some fabric)) as [k|] eqn:Hk; cbn [negb is_no_error].
  - assert (∃ q, match p with
                  | Some e => let! b := entry_HasDefaultDelegate d3 e in Some (if b : bool then None else Some e)
                  | None => Some None
                  end = Some q ∧ (q = None ∨ q = Some e) ∧
            (p = Some e → q = if bool_decide (ad_entry d3 e = None) then None else Some e)) as (q & -> & Hq & Hqe).
    { destruct Hp as [->| ->]; [exists None; split_and!; try done; by left|]. rewrite law_has_default by done. eexists. split; [reflexivity|].
      split; [|done]. case_bool_decide; [by left|by right]. }
    set (read := match q with Some e => Some (ad_entry d3 e) | None => None end).
    assert (NotifyEntryChanged sd fabric index q kRemoved (s <| mDelegate := d3 |>) =
      Some (s <| mDelegate := d3 |> <| ac_log ::= (fun l => l ++ notified s sd fabric index read kRemoved) |>)) as ->.
    { destruct Hq as [->| ->]; [done|]. by rewrite notify_spec. }
    cbn [mDelegate update eta_access_control].
    destruct (law_entry_destroy d3 e Hok3 Hl3) as (d4 & -> & Hok4 & Ha4 & _).
    eexists _, read. split; [reflexivity|]. cbn [ac_log mEntryListener mDelegate mInitialized update eta_access_control].
    split_and!; try done; [apply control_ok_intro; [done..|]; rewrite Ha4, Ha3; by apply Forall_delete|congruence|].
    intros Hr Hc Hne k' [= <-]. destruct (Hroom Hr Hc Hne k eq_refl) as (-> & Hc2 & Hat2). specialize (Hcopy e k Hc2 Hat2 eq_refl).
    destruct (position_lookup acl index (Some fabric) k Hk) as [a Ha]. rewrite Ha in Hcopy |- *.
    rewrite bool_decide_eq_false_2 in Hqe by (by rewrite Hcopy). unfold read. by rewrite (Hqe eq_refl), Hcopy.
  - destruct (law_entry_destroy d3 e Hok3 Hl3) as (d4 & -> & Hok4 & Ha4 & _).
    eexists _, None. split; [reflexivity|]. cbn [ac_log mEntryListener mDelegate mInitialized update eta_access_control].
    split_and!; try done; [apply control_ok_intro; [done..|]; by rewrite Ha4, Ha3|congruence|by rewrite app_nil_r].
Qed.
Lemma delete_all_spec f n : ∀ s, control_ok s → length (of_fabric f (ad_acl (mDelegate s))) = n →
  ∃ s', delete_all f n CHIP_NO_ERROR s = Some (CHIP_NO_ERROR, s') ∧ control_ok s' ∧
    ad_acl (mDelegate s') = filter (fun a => ace_fabric a ≠ f) (ad_acl (mDelegate s)).
Proof.
  induction n as [|n IH]; intros s Hok Hn; cbn [delete_all].
  - exists s. split_and!; [done|done|]. symmetry. apply nil_length_inv in Hn. apply filter_all.
    intros a Ha Hf. assert (a ∈ of_fabric f (ad_acl (mDelegate s))) as Hin.
    { by apply list_elem_of_filter. }
    rewrite Hn in Hin. by apply not_elem_of_nil in Hin.
  - pose proof (delete_entry_spec s None f n Hok) as Hdel. unfold list_delete in Hdel. cbv zeta in Hdel. cbn [position] in Hdel.
    pose proof (nth_of_fabric_spec f (ad_acl (mDelegate s)) n) as Hp. destruct (nth_of_fabric f _ n) as [k|]; [|lia].
    destruct Hdel as (s1 & read & -> & Hok1 & Ha1 & _). destruct Hp as (a & Hk & Hi & Hd & Hfilter).
    cbn [is_no_error]. destruct (IH s1 Hok1) as (s' & -> & Hok' & Ha').
    { rewrite Ha1, Hd, length_delete, Hn; [lia|by rewrite Hi]. }
    exists s'. split_and!; [done|done|]. by rewrite Ha', Ha1.
Qed.

(** C24: The access control list kept by a delegate behaves as a list of what its
    entries say: creating, updating and deleting an entry of a fabric do that to the
    list and nothing else, with the error of each branch (the quota of the fabric,
    an invalid entry, no such entry, no space); every entry stored stays valid; and
    each listener is told once of a change and of none otherwise, a removal with the
    removed entry when there is room to keep it. *)
Theorem acl_operations_refine s sd fabric index e : control_ok s → ad_entry_live (mDelegate s) e →
  let acl := ad_acl (mDelegate s) in
  let entry := ad_entry (mDelegate s) e in
  (∃ idx s', access_CreateEntry s sd fabric e = Some (fst (list_create acl fabric entry), idx, s') ∧ control_ok s' ∧
     ad_acl (mDelegate s') = snd (list_create acl fabric entry) ∧
     ac_log s' = ac_log s ++ match entry with
                             | Some a => if is_no_error (fst (list_create acl fabric entry))
                                 then notified s sd (ace_fabric a) (length (of_fabric (ace_fabric a) acl)) (Some (Some a)) kAdded else []
                             | None => []
                             end) ∧
  (∃ s', access_UpdateEntry s sd fabric index e = Some (fst (list_update acl fabric index entry), s') ∧ control_ok s' ∧
     ad_acl (mDelegate s') = snd (list_update acl fabric index entry) ∧
     ac_log s' = ac_log s ++ if is_no_error (fst (list_update acl fabric index entry))
                             then notified s sd fabric index (Some entry) kUpdated else []) ∧
  (∃ s' read, access_DeleteEntry s sd fabric index = Some (fst (list_delete acl fabric index), s') ∧ control_ok s' ∧
     ad_acl (mDelegate s') = snd (list_delete acl fabric index) ∧
     ac_log s' = ac_log s ++ (if is_no_error (fst (list_delete acl fabric index))
                              then notified s sd fabric index read kRemoved else []) ∧
     (ad_entry_room (mDelegate s) = true → ad_copy_room (mDelegate s) = true → mEntryListener s ≠ [] →
      ∀ k, position acl index (Some fabric) = Some k → read = Some (acl !! k))).
Proof.
  intros Hok Hl acl entry. split_and!.
  - pose proof (create_entry_spec s sd fabric e Hok Hl) as Hop. cbv zeta in Hop. fold acl entry in Hop.
    destruct (list_create acl fabric entry) as [err acl']. destruct Hop as (idx & s' & Hop & Hok' & Ha & _ & Hg). by exists idx, s'.
  - pose proof (update_entry_spec s sd fabric index e Hok Hl) as Hop. fold acl entry in Hop.
    destruct (list_update acl fabric index entry) as [err acl']. destruct Hop as (s' & Hop & Hok' & Ha & _ & Hg). by exists s'.
  - pose proof (delete_entry_spec s sd fabric index Hok) as Hop. cbv zeta in Hop. fold acl in Hop.
    destruct (list_delete acl fabric index) as [err acl']. destruct Hop as (s' & read & Hop & Hok' & Ha & _ & Hg & Hr). by exists s', read.
Qed.

(** C36: Removing a fabric revokes its access and nobody else's: afterwards no
    subject of the fabric is allowed anything but over a PASE session, and every
    request of another fabric is answered as before. *)
Theorem fabric_removal_revokes R s f fuel : control_ok s → (length (ad_acl (mDelegate s)) < fuel)%nat →
  ∃ s', DeleteAllEntriesForFabric s f = Some (CHIP_NO_ERROR, s') ∧ control_ok s' ∧
    (∀ sd path p, sd_fabricIndex sd = f → sd_authMode sd ≠ AuthMode_kPase →
       ∃ err s'', access_Check R fuel s' sd path p = Some (err, s'') ∧ err ≠ CHIP_NO_ERROR) ∧
    (∀ sd path p, sd_fabricIndex sd ≠ f →
       allowed R (ad_acl (mDelegate s')) sd path p = allowed R (ad_acl (mDelegate s)) sd path p).
Proof.
  intros Hok Hf. pose proof Hok as (Hin & Hd & _). unfold DeleteAllEntriesForFabric, access_GetEntryCountOf, when_initialized.
  rewrite Hin, law_count by done. cbn [negb].
  destruct (delete_all_spec f _ s Hok eq_refl) as (s' & -> & Hok' & Ha'). exists s'. split_and!; [done|done| |].
  - intros sd path p Hsd Hp. destruct Hok' as (Hin' & Hd' & Hval').
    destruct (access_check_spec R s' sd path p fuel Hin' Hd' Hval') as (err & s'' & -> & _ & _ & _ & Hs & _).
    { rewrite Ha'. eapply Nat.le_lt_trans; [apply length_filter|done]. }
    eexists _, _. split; [reflexivity|]. intros ->. specialize (Hs eq_refl). unfold allowed in Hs. rewrite bool_decide_eq_false_2 in Hs by done.
    unfold of_fabric in Hs. rewrite Ha', list_filter_filter, Hsd in Hs.
    rewrite filter_none in Hs; [done|]. intros a _ [? ?]. done.
  - intros sd path p Hsd. unfold allowed, of_fabric. do 2 f_equal. rewrite Ha', list_filter_filter. apply list_filter_iff. naive_solver.
Qed.
End operations.

(** C3: A request is allowed only on a PASE session or by an entry of the subject's
    own fabric that grants it, whatever else happens (the delegate out of objects
    included), and when there is room for the two objects of the loop exactly then;
    a group subject is never an administrator.  The list is unchanged.  What an entry
    grants ([grants]) is said apart from the code: its authentication mode is the
    request's, its privilege is the one asked or one that includes it by the table
    [privileges_of], its subjects are none or hold the identity or a tag it answers,
    its targets are none or hold one whose named fields (cluster, endpoint, device
    type) are the request's. *)
Theorem access_check_correct {D} `{AclDelegateLaws D} R (s : access_control D) sd path p fuel :
  control_ok s → (length (ad_acl (mDelegate s)) < fuel)%nat →
  ∃ err s', access_Check R fuel s sd path p = Some (err, s') ∧ control_ok s' ∧ ad_acl (mDelegate s') = ad_acl (mDelegate s) ∧
    (err = CHIP_NO_ERROR →
     sd_authMode sd = AuthMode_kPase ∨
     ∃ a, a ∈ ad_acl (mDelegate s) ∧ ace_fabric a = sd_fabricIndex sd ∧ grants R sd path p a = true) ∧
    (has_room (mDelegate s) →
     err = if allowed R (ad_acl (mDelegate s)) sd path p then CHIP_NO_ERROR else CHIP_ERROR_ACCESS_DENIED) ∧
    (sd_authMode sd = AuthMode_kGroup → p = Privilege_kAdminister → err ≠ CHIP_NO_ERROR).
Proof.
  intros (Hin & Hd & Hval) Hf. destruct (access_check_spec R s sd path p fuel Hin Hd Hval Hf) as (err & s' & E & Hin' & Hd' & Ha & Hs & Hroom).
  exists err, s'. split_and!; [done|split_and!; [done|done|by rewrite Ha]|done| |done|].
  - intros Hno. specialize (Hs Hno). unfold allowed in Hs. apply orb_true_iff in Hs as [Hs|Hs]; [left; by apply bool_decide_eq_true in Hs|right].
    apply existsb_exists in Hs as (a & [Hfa Hin2]%list_elem_of_In%list_elem_of_filter & Hg). by exists a.
  - intros Hg -> Hno. specialize (Hs Hno). by rewrite group_not_administrator in Hs.
Qed.
