(* ===== verification/AclStorage.v ===== *)
(** * AclStorage: the access control list in memory

    [src/src/access/examples/ExampleAccessControlDelegate.cpp], the delegate of
    [AccessControl] the relay uses: the list is an array of storages, its used slots
    in front; an [Entry] object refers to a slot of the array, or to a copy in a
    pool, through a delegate from a second pool; an [EntryIterator] object through a
    third.  Sizes as in the configuration of the relay.

    A pointer to a storage is its array and its position; the arrays are distinct
    objects, so a pointer into the pool is neither in front of nor inside the list.
    Entry and iterator objects are named by addresses.  [None] is the use of a null
    pointer or a failed [VerifyOrDie]; the copy goes through the pool only, as
    configured ([FAST_COPY], no [FLEXIBLE_COPY]). *)
From S2P Require Import Prelude ChipError NodeId AccessControl.

Definition kNumberOfFabrics : nat := CHIP_CONFIG_MAX_FABRICS.
Definition kEntriesPerFabric : nat := 4.
Definition kMaxSubjects : nat := 4.
Definition kMaxTargets : nat := 3.
Definition kEntryStoragePoolSize : nat := 1.
Definition kEntryDelegatePoolSize : nat := 1.
Definition kEntryIteratorDelegatePoolSize : nat := 1.

(** ** Subjects *)
Definition subject_IsEmpty (mNode : Z) : bool := mNode =? kUndefinedNodeId.
Definition subject_IsValid (node : Z) : bool := negb (node =? kUndefinedNodeId).
Definition subject_Get (mNode : Z) : CHIP_ERROR + Z :=
  if negb (subject_IsEmpty mNode) then inr mNode else inl CHIP_ERROR_SENTINEL.
Definition subject_Set (node mNode : Z) : CHIP_ERROR * Z :=
  if negb (subject_IsEmpty mNode)
  then if subject_IsValid node then (CHIP_NO_ERROR, node) else (CHIP_ERROR_INVALID_ARGUMENT, mNode)
  else (CHIP_ERROR_SENTINEL, mNode).
Definition subject_Add (node mNode : Z) : CHIP_ERROR * Z :=
  if subject_IsValid node then (CHIP_NO_ERROR, node) else (CHIP_ERROR_INVALID_ARGUMENT, mNode).

(** ** Targets *)
Record TargetStorage := { mCluster : Z; mDeviceType : Z }.
Definition kClusterEmpty : Z := 0xFFFFFFFF.
Definition kClusterIdMask : Z := 0x0000FFFF.
Definition kClusterIdMaxStd : Z := 0x00007FFF.
Definition kClusterIdMinMs : Z := 0x0000FC00.
Definition kClusterIdMaxMs : Z := 0x0000FFFE.
Definition kClusterVendorMask : Z := 0xFFFF0000.
Definition kClusterVendorMax : Z := 0xFFFE0000.
Definition kDeviceTypeEmpty : Z := 0xFFFFFFFF.
Definition kDeviceTypeIdMask : Z := 0x0000FFFF.
Definition kDeviceTypeIdMax : Z := 0x0000BFFF.
Definition kDeviceTypeVendorMask : Z := 0xFFFF0000.
Definition kDeviceTypeVendorMax : Z := 0xFFFE0000.
Definition kEndpointMagic : Z := 0x0000EEEE.
Definition kEndpointShift : Z := 16.

Definition target_IsEmpty (t : TargetStorage) : bool := (mCluster t =? kClusterEmpty) && (mDeviceType t =? kDeviceTypeEmpty).
Definition empty_target : TargetStorage := {| mCluster := kClusterEmpty; mDeviceType := kDeviceTypeEmpty |}.
Definition IsValidCluster (cluster : Z) : bool :=
  let id := Z.land cluster kClusterIdMask in
  let vendor := Z.land cluster kClusterVendorMask in
  ((id <=? kClusterIdMaxStd) || (kClusterIdMinMs <=? id) && (id <=? kClusterIdMaxMs)) && (vendor <=? kClusterVendorMax).
Definition IsValidDeviceType (deviceType : Z) : bool :=
  let id := Z.land deviceType kDeviceTypeIdMask in
  let vendor := Z.land deviceType kDeviceTypeVendorMask in
  (id <=? kDeviceTypeIdMax) && (vendor <=? kDeviceTypeVendorMax).
Definition kNotAll : Z := Z.lor kEndpoint kDeviceType.
Definition kAtLeastOne : Z := Z.lor kNotAll kCluster.
Definition target_IsValid (target : Target) : bool :=
  (Z.land (t_flags target) (u32 (Z.lnot kAtLeastOne)) =? 0) && negb (Z.land (t_flags target) kAtLeastOne =? 0) &&
  negb (Z.land (t_flags target) kNotAll =? kNotAll) &&
  negb (has_bits (t_flags target) kCluster && negb (IsValidCluster (t_cluster target))) &&
  negb (has_bits (t_flags target) kDeviceType && negb (IsValidDeviceType (t_deviceType target))).
(** [Decode] into the given target. *)
Definition Decode (s : TargetStorage) (target : Target) : Target :=
  let target := target <| t_flags := 0 |> in
  let target := if negb (mCluster s =? kClusterEmpty)
                then target <| t_cluster := mCluster s |> <| t_flags ::= Z.lor kCluster |> else target in
  if negb (mDeviceType s =? kDeviceTypeEmpty) then
    if Z.land (mDeviceType s) kDeviceTypeIdMask =? kEndpointMagic
    then target <| t_endpoint := u16 (Z.shiftr (mDeviceType s) kEndpointShift) |> <| t_flags ::= Z.lor kEndpoint |>
    else target <| t_deviceType := mDeviceType s |> <| t_flags ::= Z.lor kDeviceType |>
  else target.
Definition Encode (target : Target) : TargetStorage :=
  {| mCluster := if has_bits (t_flags target) kCluster then t_cluster target else kClusterEmpty;
     mDeviceType := if has_bits (t_flags target) kEndpoint
                    then Z.lor (u32 (Z.shiftl (t_endpoint target) kEndpointShift)) kEndpointMagic
                    else if has_bits (t_flags target) kDeviceType then t_deviceType target else kDeviceTypeEmpty |}.
Definition target_Get (s : TargetStorage) (target : Target) : CHIP_ERROR + Target :=
  if negb (target_IsEmpty s) then inr (Decode s target) else inl CHIP_ERROR_SENTINEL.
Definition target_Set (target : Target) (s : TargetStorage) : CHIP_ERROR * TargetStorage :=
  if negb (target_IsEmpty s)
  then if target_IsValid target then (CHIP_NO_ERROR, Encode target) else (CHIP_ERROR_INVALID_ARGUMENT, s)
  else (CHIP_ERROR_SENTINEL, s).
Definition target_Add (target : Target) (s : TargetStorage) : CHIP_ERROR * TargetStorage :=
  if target_IsValid target then (CHIP_NO_ERROR, Encode target) else (CHIP_ERROR_INVALID_ARGUMENT, s).

(** ** Entries of the list *)
Record EntryStorage := {
  mInUse : bool;
  mFabricIndex : Z;
  mAuthMode : AuthMode;
  mPrivilege : Privilege;
  mSubjects : list Z;
  mTargets : list TargetStorage }.
#[export] Instance eta_entry_storage : Eta EntryStorage := fun s =>
  {| mInUse := mInUse s; mFabricIndex := mFabricIndex s; mAuthMode := mAuthMode s; mPrivilege := mPrivilege s;
     mSubjects := mSubjects s; mTargets := mTargets s |}.
Definition cleared : EntryStorage :=
  {| mInUse := false; mFabricIndex := kUndefinedFabricIndex; mAuthMode := AuthMode_kPase; mPrivilege := Privilege_kView;
     mSubjects := replicate kMaxSubjects kUndefinedNodeId; mTargets := replicate kMaxTargets empty_target |}.
Definition storage_Init (s : EntryStorage) : EntryStorage := if negb (mInUse s) then cleared <| mInUse := true |> else s.

Inductive storage_ptr : Set := InAcl (i : nat) | InPool (i : nat).
#[export] Instance storage_ptr_eq_dec : EqDecision storage_ptr.
Proof. solve_decision. Defined.

Record EntryDelegate := { mEntry : option nat; mStorage : option storage_ptr }.
Record EntryIteratorDelegate := { it_mInUse : bool; mFabricFiltered : bool; it_mFabricIndex : Z; it_mStorage : option nat }.
#[export] Instance eta_iterator_delegate : Eta EntryIteratorDelegate := fun d =>
  {| it_mInUse := it_mInUse d; mFabricFiltered := mFabricFiltered d; it_mFabricIndex := it_mFabricIndex d; it_mStorage := it_mStorage d |}.

(** The [mDelegate] of an entry or an iterator object. *)
Inductive delegate_ref : Set := DefaultDelegate | PoolDelegate (i : nat).

Record acl_state := {
  acl : list EntryStorage;
  storage_pool : list EntryStorage;
  delegate_pool : list EntryDelegate;
  iterator_pool : list EntryIteratorDelegate;
  entries : gmap nat delegate_ref;
  iterators : gmap nat delegate_ref }.
#[export] Instance eta_acl_state : Eta acl_state := fun s =>
  {| acl := acl s; storage_pool := storage_pool s; delegate_pool := delegate_pool s; iterator_pool := iterator_pool s;
     entries := entries s; iterators := iterators s |}.

(** ** [EntryStorage] *)
Fixpoint first_unused (l : list EntryStorage) : option nat :=
  match l with
  | [] => None
  | s :: l => if negb (mInUse s) then Some O else S <$> first_unused l
  end.
Definition FindUnusedInAcl (s : acl_state) : option nat := first_unused (acl s).

(** The loop of [ConvertIndex]; the result is [toIndex], when found. *)
Fixpoint convert_loop (l : list EntryStorage) (toRelative : bool) (fabricIndex : Z) (index absoluteIndex relativeIndex : nat) : option nat :=
  match l with
  | [] => None
  | s :: l =>
      if negb (mInUse s) then None
      else if mFabricIndex s =? fabricIndex then
        if (index =? if toRelative then absoluteIndex else relativeIndex)%nat
        then Some (if toRelative then relativeIndex else absoluteIndex)
        else convert_loop l toRelative fabricIndex index (S absoluteIndex) (S relativeIndex)
      else convert_loop l toRelative fabricIndex index (S absoluteIndex) relativeIndex
  end.
Definition ConvertIndex (s : acl_state) (index : nat) (fabricIndex : Z) (toRelative : bool) : nat :=
  default (length (acl s)) (convert_loop (acl s) toRelative fabricIndex index 0 0).
Definition FindUsedInAcl (s : acl_state) (index : nat) (fabricIndex : option Z) : option nat :=
  let index := match fabricIndex with Some f => ConvertIndex s index f false | None => index end in
  match acl s !! index with Some storage => if mInUse storage then Some index else None | None => None end.
Definition EntryStorage_Find (s : acl_state) (candidate : option storage_ptr) : option storage_ptr :=
  match candidate with Some (InPool i) => Some (InPool i) | _ => InPool <$> first_unused (storage_pool s) end.
Definition load (s : acl_state) (p : storage_ptr) : option EntryStorage :=
  match p with InAcl i => acl s !! i | InPool i => storage_pool s !! i end.
Definition on_storage (p : storage_ptr) (f : EntryStorage → EntryStorage) (s : acl_state) : acl_state :=
  match p with InAcl i => s <| acl ::= alter f i |> | InPool i => s <| storage_pool ::= alter f i |> end.
Definition storage_Release (p : storage_ptr) (s : acl_state) : acl_state :=
  match p with InAcl _ => s | InPool i => s <| storage_pool ::= alter (fun x => x <| mInUse := false |>) i |> end.

(** ** [EntryDelegate] *)
Fixpoint first_free (l : list EntryDelegate) : option nat :=
  match l with
  | [] => None
  | d :: l => match mStorage d with None => Some O | Some _ => S <$> first_free l end
  end.
Definition EntryDelegate_Find (s : acl_state) (candidate : delegate_ref) : option nat :=
  match candidate with PoolDelegate i => Some i | DefaultDelegate => first_free (delegate_pool s) end.
Definition delegate_Release (s : acl_state) (r : delegate_ref) : option acl_state :=
  match r with
  | DefaultDelegate => Some s
  | PoolDelegate i =>
      let! d := delegate_pool s !! i in
      let! p := mStorage d in
      Some ((storage_Release p s) <| delegate_pool ::= alter (fun d => {| mEntry := mEntry d; mStorage := None |}) i |>)
  end.
Definition entry_SetDelegate (s : acl_state) (e : nat) (r : delegate_ref) : option acl_state :=
  let! old := entries s !! e in
  let! s := delegate_Release s old in
  Some (s <| entries ::= <[e := r]> |>).
Definition delegate_Init (s : acl_state) (i e : nat) (p : storage_ptr) : option acl_state :=
  let! s := entry_SetDelegate s e (PoolDelegate i) in
  Some ((on_storage p storage_Init s) <| delegate_pool ::= <[i := {| mEntry := Some e; mStorage := Some p |}]> |>).

(** The storage of an entry object's delegate; [inl] is the default delegate. *)
Definition entry_ptr (s : acl_state) (e : nat) : option (unit + (nat * storage_ptr)) :=
  let! r := entries s !! e in
  match r with
  | DefaultDelegate => Some (inl ())
  | PoolDelegate i => let! d := delegate_pool s !! i in let! p := mStorage d in Some (inr (i, p))
  end.
Definition entry_read {A} (s : acl_state) (e : nat) (f : EntryStorage → CHIP_ERROR + A) : option (CHIP_ERROR + A) :=
  let! r := entry_ptr s e in
  match r with
  | inl _ => Some (inl CHIP_ERROR_NOT_IMPLEMENTED)
  | inr (_, p) => let! st := load s p in Some (f st)
  end.
Fixpoint count_until {A} (IsEmpty : A → bool) (l : list A) : nat :=
  match l with [] => O | x :: l => if IsEmpty x then O else S (count_until IsEmpty l) end.
Definition GetSubject (index : nat) (st : EntryStorage) : CHIP_ERROR + Z :=
  if (index <? kMaxSubjects)%nat then match mSubjects st !! index with Some x => subject_Get x | None => inl CHIP_ERROR_SENTINEL end
  else inl CHIP_ERROR_SENTINEL.
Definition GetTarget (index : nat) (target : Target) (st : EntryStorage) : CHIP_ERROR + Target :=
  if (index <? kMaxTargets)%nat then match mTargets st !! index with Some x => target_Get x target | None => inl CHIP_ERROR_SENTINEL end
  else inl CHIP_ERROR_SENTINEL.

(** [EnsureStorageInPool] of the delegate [i]. *)
Definition EnsureStorageInPool (s : acl_state) (i : nat) : option (CHIP_ERROR * acl_state) :=
  let! d := delegate_pool s !! i in
  let! p := mStorage d in
  match p with
  | InPool _ => Some (CHIP_NO_ERROR, s)
  | InAcl _ =>
      match EntryStorage_Find s None with
      | Some q =>
          let! v := load s p in
          Some (CHIP_NO_ERROR, (on_storage q (fun _ => v) s) <| delegate_pool ::= <[i := {| mEntry := mEntry d; mStorage := Some q |}]> |>)
      | None => Some (CHIP_ERROR_BUFFER_TOO_SMALL, s)
      end
  end.
(** A setter: on the default delegate it is not implemented. *)
Definition entry_write {A} (s : acl_state) (e : nat) (none : A) (f : EntryStorage → CHIP_ERROR * A * EntryStorage)
    : option (CHIP_ERROR * A * acl_state) :=
  let! r := entry_ptr s e in
  match r with
  | inl _ => Some (CHIP_ERROR_NOT_IMPLEMENTED, none, s)
  | inr (i, _) =>
      let! (err, s1) := EnsureStorageInPool s i in
      if negb (is_no_error err) then Some (err, none, s1)
      else
        let! d := delegate_pool s1 !! i in
        let! p := mStorage d in
        let! st := load s1 p in
        let '(err, a, st) := f st in
        Some (err, a, on_storage p (fun _ => st) s1)
  end.
Definition SetAuthMode (s : acl_state) (e : nat) (authMode : AuthMode) : option (CHIP_ERROR * unit * acl_state) :=
  entry_write s e () (fun st => (CHIP_NO_ERROR, (), st <| mAuthMode := authMode |>)).
Definition SetFabricIndex (s : acl_state) (e : nat) (fabricIndex : Z) : option (CHIP_ERROR * unit * acl_state) :=
  entry_write s e () (fun st => (CHIP_NO_ERROR, (), st <| mFabricIndex := fabricIndex |>)).
Definition SetPrivilege (s : acl_state) (e : nat) (privilege : Privilege) : option (CHIP_ERROR * unit * acl_state) :=
  entry_write s e () (fun st => (CHIP_NO_ERROR, (), st <| mPrivilege := privilege |>)).

(** Slots of a fixed array, used in front. *)
Section slots.
Context {A : Type} (IsEmpty : A → bool) (empty : A) (max : nat).
Definition set_slot (index : nat) (set : A → CHIP_ERROR * A) (l : list A) : CHIP_ERROR * list A :=
  if (index <? max)%nat then
    match l !! index with Some x => let (err, y) := set x in (err, <[index := y]> l) | None => (CHIP_ERROR_SENTINEL, l) end
  else (CHIP_ERROR_SENTINEL, l).
(** The results are the error, the index and the array. *)
Definition add_slot (add : A → CHIP_ERROR * A) (l : list A) : CHIP_ERROR * option nat * list A :=
  let count := count_until IsEmpty l in
  if (count <? max)%nat then
    match l !! count with
    | Some x => let (err, y) := add x in (err, if is_no_error err then Some count else None, <[count := y]> l)
    | None => (CHIP_ERROR_BUFFER_TOO_SMALL, None, l)
    end
  else (CHIP_ERROR_BUFFER_TOO_SMALL, None, l).
Definition remove_slot (index : nat) (l : list A) : CHIP_ERROR * list A :=
  let count := count_until IsEmpty l in
  if (index <? count)%nat then
    let n := (Nat.min count (max - 1) - index)%nat in
    let moved := take index l ++ take n (drop (S index) l) ++ drop (index + n) l in
    (CHIP_NO_ERROR, if (count =? max)%nat then <[(max - 1)%nat := empty]> moved else moved)
  else (CHIP_ERROR_SENTINEL, l).
End slots.

Definition SetSubject (s : acl_state) (e index : nat) (subject : Z) : option (CHIP_ERROR * unit * acl_state) :=
  entry_write s e () (fun st => let (err, l) := set_slot kMaxSubjects index (subject_Set subject) (mSubjects st) in
                             (err, (), st <| mSubjects := l |>)).
Definition AddSubject (s : acl_state) (e : nat) (subject : Z) : option (CHIP_ERROR * option nat * acl_state) :=
  entry_write s e None (fun st => let '(err, i, l) := add_slot subject_IsEmpty kMaxSubjects (subject_Add subject) (mSubjects st) in
                             (err, i, st <| mSubjects := l |>)).
Definition RemoveSubject (s : acl_state) (e index : nat) : option (CHIP_ERROR * unit * acl_state) :=
  entry_write s e () (fun st => let (err, l) := remove_slot subject_IsEmpty kUndefinedNodeId kMaxSubjects index (mSubjects st) in
                             (err, (), st <| mSubjects := l |>)).
Definition SetTarget (s : acl_state) (e index : nat) (target : Target) : option (CHIP_ERROR * unit * acl_state) :=
  entry_write s e () (fun st => let (err, l) := set_slot kMaxTargets index (target_Set target) (mTargets st) in
                             (err, (), st <| mTargets := l |>)).
Definition AddTarget (s : acl_state) (e : nat) (target : Target) : option (CHIP_ERROR * option nat * acl_state) :=
  entry_write s e None (fun st => let '(err, i, l) := add_slot target_IsEmpty kMaxTargets (target_Add target) (mTargets st) in
                             (err, i, st <| mTargets := l |>)).
Definition RemoveTarget (s : acl_state) (e index : nat) : option (CHIP_ERROR * unit * acl_state) :=
  entry_write s e () (fun st => let (err, l) := remove_slot target_IsEmpty empty_target kMaxTargets index (mTargets st) in
                             (err, (), st <| mTargets := l |>)).

(** ** [Entry] and [EntryIterator] objects *)
Definition new_entry (s : acl_state) : nat * acl_state :=
  let e := fresh (dom (entries s)) in (e, s <| entries ::= <[e := DefaultDelegate]> |>).
Definition destroy_entry (s : acl_state) (e : nat) : option acl_state :=
  let! r := entries s !! e in let! s := delegate_Release s r in Some (s <| entries ::= delete e |>).
(** [Entry(Entry && other)] *)
Definition move_entry (s : acl_state) (other : nat) : option (nat * acl_state) :=
  let! r := entries s !! other in
  let e := fresh (dom (entries s)) in
  Some (e, s <| entries ::= (fun m => <[other := DefaultDelegate]> (<[e := r]> m)) |>).
(** [operator=(Entry && other)] *)
Definition assign_entry (s : acl_state) (e other : nat) : option acl_state :=
  if (e =? other)%nat then Some s
  else
    let! old := entries s !! e in
    let! s := delegate_Release s old in
    let! r := entries s !! other in
    Some (s <| entries ::= (fun m => <[other := DefaultDelegate]> (<[e := r]> m)) |>).
Definition ResetDelegate (s : acl_state) (e : nat) : option acl_state := entry_SetDelegate s e DefaultDelegate.

Definition iterator_Release (s : acl_state) (r : delegate_ref) : acl_state :=
  match r with
  | DefaultDelegate => s
  | PoolDelegate i => s <| iterator_pool ::= alter (fun d => d <| it_mInUse := false |>) i |>
  end.
Definition new_iterator (s : acl_state) : nat * acl_state :=
  let it := fresh (dom (iterators s)) in (it, s <| iterators ::= <[it := DefaultDelegate]> |>).
Definition destroy_iterator (s : acl_state) (it : nat) : option acl_state :=
  let! r := iterators s !! it in Some ((iterator_Release s r) <| iterators ::= delete it |>).

Fixpoint first_iterator (l : list EntryIteratorDelegate) : option nat :=
  match l with
  | [] => None
  | d :: l => if negb (it_mInUse d) then Some O else S <$> first_iterator l
  end.
Definition EntryIteratorDelegate_Find (s : acl_state) (candidate : delegate_ref) : option nat :=
  match candidate with PoolDelegate i => Some i | DefaultDelegate => first_iterator (iterator_pool s) end.
Definition iterator_Init (s : acl_state) (i it : nat) (fabricIndex : option Z) : option acl_state :=
  let! old := iterators s !! it in
  let s := iterator_Release s old in
  let! d := iterator_pool s !! i in
  Some (s <| iterators ::= <[it := PoolDelegate i]> |>
          <| iterator_pool ::= <[i := {| it_mInUse := true; mFabricFiltered := match fabricIndex with Some _ => true | None => false end;
                                         it_mFabricIndex := default (it_mFabricIndex d) fabricIndex; it_mStorage := None |}]> |>).

(** The next used storage from [k] on, of the fabric if there is a filter. *)
Fixpoint next_from (l : list EntryStorage) (filtered : bool) (fabricIndex : Z) (k : nat) : option nat :=
  match l with
  | [] => None
  | s :: l =>
      if negb (mInUse s) then None
      else if filtered && negb (mFabricIndex s =? fabricIndex) then next_from l filtered fabricIndex (S k)
      else Some k
  end.
(** Where an iterator looks next, in a list of [last] slots. *)
Definition iter_start (last : nat) (d : EntryIteratorDelegate) : nat :=
  match it_mStorage d with None => O | Some k => if (k <? last)%nat then S k else k end.
Definition Next (s : acl_state) (it e : nat) : option (CHIP_ERROR * acl_state) :=
  let! r := iterators s !! it in
  match r with
  | DefaultDelegate => Some (CHIP_ERROR_SENTINEL, s)
  | PoolDelegate i =>
      let! d := iterator_pool s !! i in
      let last := length (acl s) in
      let start := iter_start last d in
      match next_from (drop start (acl s)) (mFabricFiltered d) (it_mFabricIndex d) start with
      | None => Some (CHIP_ERROR_SENTINEL, s <| iterator_pool ::= <[i := d <| it_mStorage := Some last |>]> |>)
      | Some k =>
          let s := s <| iterator_pool ::= <[i := d <| it_mStorage := Some k |>]> |> in
          let! old := entries s !! e in
          match EntryDelegate_Find s old with
          | Some j => let! s := delegate_Init s j e (InAcl k) in Some (CHIP_NO_ERROR, s)
          | None => Some (CHIP_ERROR_BUFFER_TOO_SMALL, s)
          end
      end
  end.

(** ** [AccessControlDelegate] *)
Definition delegate_Init_acl (s : acl_state) : option (CHIP_ERROR * acl_state) :=
  Some (CHIP_NO_ERROR, s <| acl ::= map (fun _ => cleared) |>).
Definition used_entries (s : acl_state) : nat := count_until (fun x => negb (mInUse x)) (acl s).
Fixpoint count_fabric (l : list EntryStorage) (fabric : Z) : nat :=
  match l with
  | [] => O
  | s :: l => if negb (mInUse s) then O else ((if (mFabricIndex s =? fabric)%Z then 1 else 0) + count_fabric l fabric)%nat
  end.
Definition PrepareEntry (s : acl_state) (e : nat) : option (CHIP_ERROR * acl_state) :=
  let! old := entries s !! e in
  match EntryDelegate_Find s old with
  | Some i =>
      let! d := delegate_pool s !! i in
      match EntryStorage_Find s (mStorage d) with
      | Some p => let! s := delegate_Init s i e p in Some (CHIP_NO_ERROR, s)
      | None => Some (CHIP_ERROR_BUFFER_TOO_SMALL, s)
      end
  | None => Some (CHIP_ERROR_BUFFER_TOO_SMALL, s)
  end.
(** [Copy] of an entry into a storage of the list. *)
Definition Copy (s : acl_state) (e k : nat) : option (CHIP_ERROR * acl_state) :=
  let! r := entry_ptr s e in
  match r with
  | inl _ => None
  | inr (_, p) => let! v := load s p in Some (CHIP_NO_ERROR, s <| acl ::= <[k := v]> |>)
  end.
Definition CreateEntry (s : acl_state) (e : nat) (fabricIndex : option Z) : option (CHIP_ERROR * nat * option Z * acl_state) :=
  match FindUnusedInAcl s with
  | Some k =>
      let! (err, s) := Copy s e k in
      let! storage := acl s !! k in
      match fabricIndex with
      | Some _ => Some (err, ConvertIndex s k (mFabricIndex storage) true, Some (mFabricIndex storage), s)
      | None => Some (err, k, None, s)
      end
  | None => Some (CHIP_ERROR_BUFFER_TOO_SMALL, O, fabricIndex, s)
  end.
Definition ReadEntry (s : acl_state) (index e : nat) (fabricIndex : option Z) : option (CHIP_ERROR * acl_state) :=
  match FindUsedInAcl s index fabricIndex with
  | Some k =>
      let! old := entries s !! e in
      match EntryDelegate_Find s old with
      | Some i => let! s := delegate_Init s i e (InAcl k) in Some (CHIP_NO_ERROR, s)
      | None => Some (CHIP_ERROR_BUFFER_TOO_SMALL, s)
      end
  | None => Some (CHIP_ERROR_SENTINEL, s)
  end.
Definition UpdateEntry (s : acl_state) (index e : nat) (fabricIndex : option Z) : option (CHIP_ERROR * acl_state) :=
  match FindUsedInAcl s index fabricIndex with Some k => Copy s e k | None => Some (CHIP_ERROR_SENTINEL, s) end.

(** Each delegate in turn. *)
Fixpoint for_delegates (l : list nat) (f : nat → acl_state → option acl_state) (s : acl_state) : option acl_state :=
  match l with [] => Some s | i :: l => let! s := f i s in for_delegates l f s end.
Definition FixBeforeDelete (k i : nat) (s : acl_state) : option acl_state :=
  let! d := delegate_pool s !! i in
  if bool_decide (mStorage d = Some (InAcl k)) then let! (_, s) := EnsureStorageInPool s i in Some s else Some s.
Definition FixAfterDelete (k i : nat) (s : acl_state) : option acl_state :=
  let! d := delegate_pool s !! i in
  match mStorage d with
  | Some (InAcl j) =>
      if (j =? k)%nat then let! e := mEntry d in ResetDelegate s e
      else if (k <? j)%nat && (j <? length (acl s))%nat
      then Some (s <| delegate_pool ::= <[i := {| mEntry := mEntry d; mStorage := Some (InAcl (j - 1)) |}]> |>)
      else Some s
  | _ => Some s
  end.
Definition iterator_FixAfterDelete (k last : nat) (d : EntryIteratorDelegate) : EntryIteratorDelegate :=
  match it_mStorage d with
  | Some j => if (k <=? j)%nat && (j <? last)%nat then d <| it_mStorage := match j with O => None | S j => Some j end |> else d
  | None => d
  end.
(** Each used storage after [k] moves down by one; the last one is cleared. *)
Fixpoint shift_down (l : list EntryStorage) : list EntryStorage :=
  match l with
  | [] => []
  | x :: l => match l with
              | y :: _ => if mInUse y then y :: shift_down l else cleared :: l
              | [] => [cleared]
              end
  end.
Definition DeleteEntry (s : acl_state) (index : nat) (fabricIndex : option Z) : option (CHIP_ERROR * acl_state) :=
  match FindUsedInAcl s index fabricIndex with
  | Some k =>
      let delegates := seq 0 (length (delegate_pool s)) in
      let! s := for_delegates delegates (FixBeforeDelete k) s in
      let s := s <| acl ::= (fun l => take k l ++ shift_down (drop k l)) |> in
      let! s := for_delegates delegates (FixAfterDelete index) s in
      Some (CHIP_NO_ERROR, s <| iterator_pool ::= map (iterator_FixAfterDelete index (length (acl s))) |>)
  | None => Some (CHIP_ERROR_SENTINEL, s)
  end.
Definition Entries (s : acl_state) (it : nat) (fabricIndex : option Z) : option (CHIP_ERROR * acl_state) :=
  let! old := iterators s !! it in
  match EntryIteratorDelegate_Find s old with
  | Some i => let! s := iterator_Init s i it fabricIndex in Some (CHIP_NO_ERROR, s)
  | None => Some (CHIP_ERROR_BUFFER_TOO_SMALL, s)
  end.

#[export] Instance example_delegate : AclDelegate acl_state := {|
  ad_Init := delegate_Init_acl;
  ad_Finish s := s;
  ad_GetMaxEntriesPerFabric _ := inr kEntriesPerFabric;
  ad_GetMaxSubjectsPerEntry _ := inr kMaxSubjects;
  ad_GetMaxTargetsPerEntry _ := inr kMaxTargets;
  ad_GetMaxEntryCount s := inr (length (acl s));
  ad_GetEntryCountOf s fabric := inr (count_fabric (acl s) fabric);
  ad_GetEntryCount s := inr (used_entries s);
  ad_PrepareEntry := PrepareEntry;
  ad_CreateEntry := CreateEntry;
  ad_ReadEntry := ReadEntry;
  ad_UpdateEntry := UpdateEntry;
  ad_DeleteEntry := DeleteEntry;
  ad_Entries := Entries;
  ad_Check _ _ _ _ := CHIP_ERROR_NOT_IMPLEMENTED;
  entry_new := new_entry;
  entry_destroy := destroy_entry;
  entry_HasDefaultDelegate s e := let! r := entries s !! e in Some (match r with DefaultDelegate => true | PoolDelegate _ => false end);
  entry_GetAuthMode s e := entry_read s e (fun st => inr (mAuthMode st));
  entry_GetFabricIndex s e := entry_read s e (fun st => inr (mFabricIndex st));
  entry_GetPrivilege s e := entry_read s e (fun st => inr (mPrivilege st));
  entry_GetSubjectCount s e := entry_read s e (fun st => inr (count_until subject_IsEmpty (mSubjects st)));
  entry_GetSubject s e i := entry_read s e (GetSubject i);
  entry_GetTargetCount s e := entry_read s e (fun st => inr (count_until target_IsEmpty (mTargets st)));
  entry_GetTarget s e i t := entry_read s e (GetTarget i t);
  iterator_new := new_iterator;
  iterator_destroy := destroy_iterator;
  iterator_Next := Next |}.

(** ** The used slots *)
Fixpoint live (l : list EntryStorage) : list EntryStorage :=
  match l with [] => [] | s :: l => if mInUse s then s :: live l else [] end.
Fixpoint packed (l : list EntryStorage) : Prop :=
  match l with [] => True | s :: l => if mInUse s then packed l else Forall (fun x => mInUse x = false) l end.

(** What a storage says. *)
Definition contents (st : EntryStorage) : ace :=
  {| ace_fabric := mFabricIndex st; ace_auth := mAuthMode st; ace_privilege := mPrivilege st;
     ace_subjects := take (count_until subject_IsEmpty (mSubjects st)) (mSubjects st);
     ace_targets := (fun t => Decode t new_target) <$> take (count_until target_IsEmpty (mTargets st)) (mTargets st) |}.
(** The slots in use are in front, the others are empty. *)
Definition in_front {A} (IsEmpty : A → bool) (l : list A) : Prop := Forall (fun x => IsEmpty x = true) (drop (count_until IsEmpty l) l).
Definition shaped (st : EntryStorage) : Prop :=
  length (mSubjects st) = kMaxSubjects ∧ length (mTargets st) = kMaxTargets ∧
  in_front subject_IsEmpty (mSubjects st) ∧ in_front target_IsEmpty (mTargets st).

Lemma count_until_le {A} (P : A → bool) l : (count_until P l ≤ length l)%nat.
Proof. induction l as [|x l IH]; simpl; [done|]. destruct (P x); lia. Qed.

Lemma count_until_lookup {A} (P : A → bool) l i x : l !! i = Some x → (i < count_until P l)%nat → P x = false.
Proof.
  revert i; induction l as [|y l IH]; intros i Hi Hlt; [done|]. simpl in Hlt. destruct (P y) eqn:Hy; [lia|].
  destruct i as [|i]; [by injection Hi as <-|]. apply (IH i); [done|lia].
Qed.

Lemma live_le l : (length (live l) ≤ length l)%nat.
Proof. induction l as [|x l IH]; simpl; [done|]. destruct (mInUse x); simpl; lia. Qed.

Lemma live_slot l k : (k < length (live l))%nat → live l !! k = l !! k.
Proof.
  revert k; induction l as [|x l IH]; intros k Hk; [done|]. simpl in *. destruct (mInUse x); [|simpl in Hk; lia].
  destruct k as [|k]; [done|]. apply IH. simpl in Hk. lia.
Qed.

Lemma live_used l k x : live l !! k = Some x → l !! k = Some x ∧ mInUse x = true.
Proof.
  revert k; induction l as [|y l IH]; intros k Hk; [done|]. simpl in Hk. destruct (mInUse y) eqn:Hy; [|done].
  destruct k as [|k]; [by injection Hk as <-|]. by apply IH.
Qed.

Lemma used_live l k x : packed l → l !! k = Some x → mInUse x = true → live l !! k = Some x.
Proof.
  revert k; induction l as [|y l IH]; intros k Hp Hk Hx; [done|]. simpl in *. destruct (mInUse y) eqn:Hy.
  - destruct k as [|k]; [done|]. by apply IH.
  - destruct k as [|k]; [simplify_eq/=; congruence|]. rewrite Forall_lookup in Hp. specialize (Hp _ _ Hk). congruence.
Qed.

Lemma live_unused l : Forall (fun x => mInUse x = false) l → live l = [].
Proof. destruct 1 as [|x l Hx _]; [done|]. cbn [live]. by rewrite Hx. Qed.

Lemma live_insert_lookup l k x : l !! k = Some x → mInUse x = true → packed l → (k < length (live l))%nat.
Proof. intros Hk Hx Hp. eapply lookup_lt_Some. by apply used_live. Qed.

Lemma first_unused_spec l : packed l →
  match first_unused l with Some k => k = length (live l) ∧ (k < length l)%nat | None => length (live l) = length l end.
Proof.
  induction l as [|x l IH]; intros Hp; [done|]. simpl in *. destruct (mInUse x); simpl; [|lia].
  specialize (IH Hp). destruct (first_unused l); simpl; lia.
Qed.

Lemma live_append l v : packed l → (length (live l) < length l)%nat → mInUse v = true →
  live (<[length (live l) := v]> l) = live l ++ [v] ∧ packed (<[length (live l) := v]> l).
Proof.
  intros Hp Hlt Hv. induction l as [|x l IH]; [simpl in Hlt; lia|]. simpl in *. destruct (mInUse x) eqn:Hx; simpl; rewrite ?Hx, ?Hv.
  - destruct IH as [-> ?]; [done|simpl in Hlt; lia|done].
  - rewrite live_unused by done. split; [done|]. destruct l as [|y l]; [done|]. simpl. inv Hp. by rewrite H1.
Qed.

Lemma live_slot_update l k v : (k < length (live l))%nat → packed l → mInUse v = true →
  live (<[k := v]> l) = <[k := v]> (live l) ∧ packed (<[k := v]> l).
Proof.
  revert k; induction l as [|x l IH]; intros k Hk Hp Hv; [done|]. simpl in *. destruct (mInUse x) eqn:Hx; [|simpl in Hk; lia].
  destruct k as [|k]; simpl; rewrite ?Hv, ?Hx; [done|]. destruct (IH k) as [-> ?]; [simpl in Hk; lia|done..].
Qed.

Lemma length_shift_down l : length (shift_down l) = length l.
Proof. induction l as [|x [|y l] IH]; [done|done|]. cbn [shift_down]. destruct (mInUse y); [simpl in *; lia|done]. Qed.

Lemma live_shift l : packed l → (0 < length (live l))%nat → live (shift_down l) = drop 1 (live l) ∧ packed (shift_down l).
Proof.
  induction l as [|x [|y l] IH]; intros Hp Hlt; [simpl in Hlt; lia| |].
  - simpl in *. destruct (mInUse x); [done|simpl in Hlt; lia].
  - cbn [shift_down live packed] in *. destruct (mInUse x) eqn:Hx; [|simpl in Hlt; lia]. destruct (mInUse y) eqn:Hy.
    + destruct IH as [IH1 IH2]; [done|simpl; lia|]. cbn [live packed]. rewrite Hy, IH1. simpl. by rewrite drop_0.
    + cbn [live packed]. split; [done|]. constructor; done.
Qed.

Lemma live_delete l k : packed l → (k < length (live l))%nat →
  live (take k l ++ shift_down (drop k l)) = delete k (live l) ∧ packed (take k l ++ shift_down (drop k l)).
Proof.
  revert k; induction l as [|x l IH]; intros k Hp Hk; [simpl in Hk; lia|]. destruct k as [|k].
  - change (take 0 (x :: l) ++ shift_down (drop 0 (x :: l))) with (shift_down (x :: l)). destruct (live_shift (x :: l) Hp Hk) as [-> ?].
    split; [|done]. by destruct (live (x :: l)).
  - simpl in *. destruct (mInUse x) eqn:Hx; [|simpl in Hk; lia]. destruct (IH k) as [-> ?]; [done|simpl in Hk; lia|]. by rewrite ?Hx.
Qed.

(** ** Indices *)
Lemma convert_absolute l f index a r : (r ≤ index)%nat →
  convert_loop l false f index a r = (fun k => a + k)%nat <$> nth_of_fabric f (contents <$> live l) (index - r).
Proof.
  revert a r; induction l as [|x l IH]; intros a r Hr; [done|]. cbn [convert_loop live]. destruct (mInUse x); [|done]. cbn [negb fmap list_fmap nth_of_fabric].
  change (ace_fabric (contents x)) with (mFabricIndex x). destruct (mFabricIndex x =? f).
  - destruct (Nat.eqb_spec index r) as [->|Hne].
    + rewrite Nat.sub_diag. simpl. by rewrite Nat.add_0_r.
    + rewrite IH by lia. replace (index - r)%nat with (S (index - S r)) by lia. destruct (nth_of_fabric _ _ _); simpl; [|done]. f_equal. lia.
  - rewrite IH by done. destruct (nth_of_fabric _ _ _); simpl; [|done]. f_equal. lia.
Qed.

Lemma convert_relative l f k a r x : live l !! k = Some x → mFabricIndex x = f →
  convert_loop l true f (a + k) a r = Some (r + length (of_fabric f (contents <$> take k (live l))))%nat.
Proof.
  revert k a r; induction l as [|y l IH]; intros k a r Hk Hf; [done|]. cbn [convert_loop live] in *. destruct (mInUse y); [|done].
  cbn [negb]. destruct k as [|k].
  - injection Hk as ->. rewrite Hf, Z.eqb_refl, Nat.add_0_r, Nat.eqb_refl. simpl. by rewrite Nat.add_0_r.
  - cbn [take fmap list_fmap]. unfold of_fabric. rewrite filter_cons. change (ace_fabric (contents y)) with (mFabricIndex y).
    destruct (Z.eqb_spec (mFabricIndex y) f) as [Hy|Hy].
    + rewrite decide_True by done. rewrite (proj2 (Nat.eqb_neq _ _)) by lia. replace (a + S k)%nat with (S a + k)%nat by lia.
      rewrite IH by done. simpl. unfold of_fabric. f_equal. lia.
    + rewrite decide_False by done. replace (a + S k)%nat with (S a + k)%nat by lia. by apply IH.
Qed.

Lemma count_fabric_spec l f : count_fabric l f = length (of_fabric f (contents <$> live l)).
Proof.
  unfold of_fabric. induction l as [|x l IH]; [done|]. cbn [count_fabric live]. destruct (mInUse x); [|done]. cbn [negb fmap list_fmap]. rewrite filter_cons.
  change (ace_fabric (contents x)) with (mFabricIndex x). unfold fmap, list_fmap in IH |- *. rewrite IH.
  destruct (Z.eqb_spec (mFabricIndex x) f); [rewrite decide_True by done|rewrite decide_False by done]; done.
Qed.

(** ** Iteration *)
Lemma live_drop l k : packed l → live (drop k l) = drop k (live l).
Proof.
  revert k; induction l as [|x l IH]; intros k Hp; [cbn [live]; by rewrite !drop_nil|]. destruct k as [|k]; [done|]. cbn [drop live]. simpl in Hp.
  destruct (mInUse x); [by apply IH|]. rewrite drop_nil. apply live_unused. by apply Forall_drop.
Qed.

Definition kept (filtered : bool) (f : Z) (a : ace) : Prop := filtered = false ∨ ace_fabric a = f.
#[export] Instance kept_dec filtered f a : Decision (kept filtered f a).
Proof. unfold kept. apply _. Defined.
Definition remaining_from (filtered : bool) (f : Z) (l : list EntryStorage) : list ace := filter (kept filtered f) (contents <$> live l).

Lemma next_from_spec l filtered f k :
  match next_from l filtered f k with
  | Some j => (k ≤ j)%nat ∧ ∃ x, l !! (j - k)%nat = Some x ∧ mInUse x = true ∧
      remaining_from filtered f l = contents x :: remaining_from filtered f (drop (S j - k) l)
  | None => remaining_from filtered f l = []
  end.
Proof.
  revert k; induction l as [|x l IH]; intros k; [done|]. cbn [next_from]. unfold remaining_from in *. cbn [live].
  destruct (mInUse x) eqn:Hx; cbn [negb]; [|done]. rewrite fmap_cons. destruct (filtered && negb (mFabricIndex x =? f)) eqn:Hf.
  - rewrite filter_cons_False. 2:{ unfold kept. simpl. apply andb_true_iff in Hf as [-> Hf]. apply negb_true_iff, Z.eqb_neq in Hf. naive_solver. }
    specialize (IH (S k)). destruct (next_from l filtered f (S k)) as [j|]; [|done]. destruct IH as [Hle (y & Hy & Hu & Hr)].
    split; [lia|]. exists y. replace (j - k)%nat with (S (j - S k)) by lia. replace (S j - k)%nat with (S (S j - S k)) by lia. done.
  - rewrite filter_cons_True. 2:{ unfold kept. simpl. apply andb_false_iff in Hf as [->|Hf]; [by left|]. apply negb_false_iff, Z.eqb_eq in Hf. by right. }
    split; [done|]. exists x. replace (k - k)%nat with O by lia. replace (S k - k)%nat with 1%nat by lia. done.
Qed.

(** ** Well-formed states *)
Record store_ok (s : acl_state) : Prop := {
  so_length : length (acl s) = (kNumberOfFabrics * kEntriesPerFabric)%nat;
  so_packed : packed (acl s);
  so_acl_shape : Forall shaped (acl s);
  so_pool_shape : Forall shaped (storage_pool s);
  (** A delegate in use belongs to an entry object and refers to a used storage. *)
  so_delegate : ∀ i d p, delegate_pool s !! i = Some d → mStorage d = Some p →
    ∃ e st, mEntry d = Some e ∧ entries s !! e = Some (PoolDelegate i) ∧ load s p = Some st ∧ mInUse st = true;
  so_entry : ∀ e i, entries s !! e = Some (PoolDelegate i) →
    ∃ d p, delegate_pool s !! i = Some d ∧ mStorage d = Some p ∧ mEntry d = Some e;
  (** A copy has one delegate. *)
  so_owner : ∀ i j d d' k, delegate_pool s !! i = Some d → delegate_pool s !! j = Some d' →
    mStorage d = Some (InPool k) → mStorage d' = Some (InPool k) → i = j;
  so_iterator : ∀ it i, iterators s !! it = Some (PoolDelegate i) → is_Some (iterator_pool s !! i) }.

Definition store_acl (s : acl_state) : list ace := contents <$> live (acl s).
Definition store_entry (s : acl_state) (e : nat) : option ace :=
  match entry_ptr s e with Some (inr (_, p)) => contents <$> load s p | _ => None end.
Definition store_remaining (s : acl_state) (it : nat) : option (list ace) :=
  match iterators s !! it with
  | None => None
  | Some DefaultDelegate => Some []
  | Some (PoolDelegate i) =>
      (fun d => remaining_from (mFabricFiltered d) (it_mFabricIndex d) (drop (iter_start (length (acl s)) d) (acl s))) <$> iterator_pool s !! i
  end.
Definition is_some {A} (o : option A) : bool := match o with Some _ => true | None => false end.
Definition free_copies (s : acl_state) : nat := length (filter (fun x => mInUse x = false) (storage_pool s)).
Definition store_entry_at (s : acl_state) (e : nat) : option nat :=
  match entry_ptr s e with Some (inr (_, InAcl k)) => Some k | _ => None end.

(** What an entry object of a well-formed state is. *)
Lemma entry_ptr_spec s e : store_ok s → is_Some (entries s !! e) →
  (entries s !! e = Some DefaultDelegate ∧ entry_ptr s e = Some (inl ()) ∧ store_entry s e = None) ∨
  (∃ i d p st, entries s !! e = Some (PoolDelegate i) ∧ delegate_pool s !! i = Some d ∧ mStorage d = Some p ∧ mEntry d = Some e ∧
     entry_ptr s e = Some (inr (i, p)) ∧ load s p = Some st ∧ mInUse st = true ∧ shaped st ∧ store_entry s e = Some (contents st)).
Proof.
  intros Hok [[|i] He]; unfold store_entry, entry_ptr; rewrite He; [by left|right].
  destruct (so_entry s Hok e i He) as (d & p & Hd & Hp & Hm). destruct (so_delegate s Hok i d p Hd Hp) as (e' & st & _ & _ & Hl & Hu).
  exists i, d, p, st. rewrite Hd, Hp. split_and!; try done; [|by rewrite Hl].
  destruct p as [k|k]; simpl in Hl; [pose proof (so_acl_shape s Hok) as H|pose proof (so_pool_shape s Hok) as H]; rewrite Forall_lookup in H; by eapply H.
Qed.

Lemma entry_read_spec {A} s e (f : EntryStorage → CHIP_ERROR + A) a : store_ok s → store_entry s e = Some a →
  ∃ st, contents st = a ∧ shaped st ∧ entry_read s e f = Some (f st).
Proof.
  intros Hok He. assert (is_Some (entries s !! e)) as Hl.
  { unfold store_entry, entry_ptr in He. destruct (entries s !! e); [eauto|done]. }
  destruct (entry_ptr_spec s e Hok Hl) as [(_ & _ & Hn)|(i & d & p & st & _ & _ & _ & _ & Hp & Hld & _ & Hsh & Hs)]; [congruence|].
  exists st. split_and!; [congruence|done|]. unfold entry_read. by rewrite Hp, Hld.
Qed.

(** ** Linking objects and storages *)
Definition link (i e : nat) (p : storage_ptr) (s : acl_state) : acl_state :=
  s <| entries ::= <[e := PoolDelegate i]> |> <| delegate_pool ::= <[i := {| mEntry := Some e; mStorage := Some p |}]> |>.
Definition free_copy (k : nat) (s : acl_state) : acl_state := s <| storage_pool ::= alter (fun x => x <| mInUse := false |>) k |>.
Definition free_ptr (p : storage_ptr) (s : acl_state) : acl_state := match p with InAcl _ => s | InPool k => free_copy k s end.
Definition unlink (i : nat) (f : gmap nat delegate_ref → gmap nat delegate_ref) (s : acl_state) : acl_state :=
  s <| delegate_pool ::= alter (fun d => {| mEntry := mEntry d; mStorage := None |}) i |> <| entries ::= f |>.

(** The delegate [i] may be given to the entry [e]: it is free, or already its own. *)
Definition available (s : acl_state) (i e : nat) : Prop :=
  (i < length (delegate_pool s))%nat ∧
  ((entries s !! e = Some DefaultDelegate ∧ ∃ d, delegate_pool s !! i = Some d ∧ mStorage d = None) ∨ entries s !! e = Some (PoolDelegate i)).

Lemma link_ok s i e p st : store_ok s → available s i e → load s p = Some st → mInUse st = true →
  (∀ k j d, p = InPool k → delegate_pool s !! j = Some d → mStorage d = Some (InPool k) → j = i) → store_ok (link i e p s).
Proof.
  intros Hok (Hi & Hav) Hl Hu Hown. destruct Hok as [H1 H2 H3 H4 H5 H6 H7 H8].
  split; cbn [link acl storage_pool delegate_pool iterator_pool entries iterators update eta_acl_state]; try done.
  - intros j d q Hj Hd. change (load (link i e p s) q) with (load s q). apply list_lookup_insert_Some in Hj as [(<- & <- & _)|(Hne & Hj)].
    + simpl in Hd. injection Hd as <-. exists e, st. by rewrite lookup_insert_eq.
    + destruct (H5 j d q Hj Hd) as (e' & st' & He' & Hent & Hld & Hus). exists e', st'. split_and!; [done| |done..].
      rewrite lookup_insert_ne; [done|]. intros <-. destruct Hav as [[Hav _]|Hav]; congruence.
  - intros e' j Hj. destruct (decide (e' = e)) as [->|Hne].
    + rewrite lookup_insert_eq in Hj. injection Hj as <-. eexists _, p. by rewrite list_lookup_insert_eq.
    + rewrite lookup_insert_ne in Hj by done. destruct (H6 e' j Hj) as (d & q & Hd & Hq & He').
      exists d, q. split_and!; [|done..]. rewrite list_lookup_insert_ne; [done|]. intros <-.
      destruct Hav as [(Hav & d' & Hd' & Hn)|Hav]; [congruence|]. destruct (H6 e i Hav) as (d' & q' & Hd' & _ & He). congruence.
  - intros j j' d d' k Hj Hj' Hd Hd'.
    apply list_lookup_insert_Some in Hj as [(<- & <- & _)|(Hne & Hj)]; apply list_lookup_insert_Some in Hj' as [(<- & <- & _)|(Hne' & Hj')].
    + done.
    + simpl in Hd. injection Hd as ->. symmetry. by eapply Hown.
    + simpl in Hd'. injection Hd' as ->. by eapply Hown.
    + by eapply H7.
Qed.

Lemma load_free_copy s k q : load (free_copy k s) q =
  if bool_decide (q = InPool k) then (fun x => x <| mInUse := false |>) <$> load s q else load s q.
Proof.
  destruct q as [j|j]; [by rewrite bool_decide_eq_false_2|]. cbn [load free_copy storage_pool update eta_acl_state].
  case_bool_decide as E; [injection E as ->; apply list_lookup_alter_eq|apply list_lookup_alter_ne; congruence].
Qed.

Lemma free_ok s k : store_ok s → (∀ i d, delegate_pool s !! i = Some d → mStorage d ≠ Some (InPool k)) → store_ok (free_copy k s).
Proof.
  intros [H1 H2 H3 H4 H5 H6 H7 H8] Hno.
  split; cbn [free_copy acl storage_pool delegate_pool iterator_pool entries iterators update eta_acl_state]; try done.
  - apply Forall_alter; [done|]. intros x _ Hx. exact Hx.
  - intros i d p Hi Hd. rewrite load_free_copy, bool_decide_eq_false_2; [by apply (H5 i)|]. intros ->. by eapply Hno.
Qed.

Lemma unlink_ok s i e f : store_ok s → entries s !! e = Some (PoolDelegate i) →
  f (entries s) !! e ≠ Some (PoolDelegate i) → (∀ e', e' ≠ e → f (entries s) !! e' = entries s !! e') →
  (∀ j, f (entries s) !! e ≠ Some (PoolDelegate j)) → store_ok (unlink i f s).
Proof.
  intros [H1 H2 H3 H4 H5 H6 H7 H8] He Hfe Hf Hfe'.
  split; cbn [unlink acl storage_pool delegate_pool iterator_pool entries iterators update eta_acl_state]; try done.
  - intros j d p Hj Hd. change (load (unlink i f s) p) with (load s p). destruct (decide (j = i)) as [->|Hne].
    + rewrite list_lookup_alter_eq in Hj. destruct (delegate_pool s !! i); [|done]. injection Hj as <-. done.
    + rewrite list_lookup_alter_ne in Hj by done. destruct (H5 j d p Hj Hd) as (e' & st & He' & Hent & Hld & Hus).
      exists e', st. split_and!; [done| |done..]. rewrite Hf; [done|]. congruence.
  - intros e' j Hj. destruct (decide (e' = e)) as [->|Hne]; [by destruct (Hfe' j)|]. rewrite Hf in Hj by done.
    destruct (H6 e' j Hj) as (d & p & Hd & Hp & Hm). exists d, p. split_and!; [|done..]. rewrite list_lookup_alter_ne; [done|].
    intros <-. destruct (H6 e i He) as (d' & p' & Hd' & _ & He'). congruence.
  - intros j j' d d' k Hj Hj' Hd Hd'. assert (∀ j d, alter (fun d => {| mEntry := mEntry d; mStorage := None |}) i (delegate_pool s) !! j = Some d →
      mStorage d = Some (InPool k) → delegate_pool s !! j = Some d) as Hsame.
    { intros j0 d0 Hj0 Hd0. destruct (decide (j0 = i)) as [->|Hne]; [|by rewrite list_lookup_alter_ne in Hj0].
      rewrite list_lookup_alter_eq in Hj0. destruct (delegate_pool s !! i); [|done]. by injection Hj0 as <-. }
    eapply H7; [by apply Hsame|by apply Hsame|done|done].
Qed.

Lemma find_available s e old i : store_ok s → entries s !! e = Some old → EntryDelegate_Find s old = Some i → available s i e.
Proof.
  intros Hok He Hf. destruct old as [|j]; simpl in Hf.
  - assert (∃ d, delegate_pool s !! i = Some d ∧ mStorage d = None) as (d & Hd & Hn).
    { revert i Hf. induction (delegate_pool s) as [|d l IH]; intros i Hf; [done|]. simpl in Hf. destruct (mStorage d) eqn:Hd.
      - destruct (first_free l) as [k|]; [|done]. injection Hf as <-. by apply IH.
      - injection Hf as <-. by exists d. }
    split; [by eapply lookup_lt_Some|]. left. eauto.
  - injection Hf as ->. destruct (so_entry s Hok e i He) as (d & p & Hd & _). split; [by eapply lookup_lt_Some|by right].
Qed.

(** An entry object is given a used storage of the list. *)
Lemma init_spec s e old i k st : store_ok s → entries s !! e = Some old → EntryDelegate_Find s old = Some i →
  acl s !! k = Some st → mInUse st = true →
  ∃ s', delegate_Init s i e (InAcl k) = Some s' ∧ store_ok s' ∧ acl s' = acl s ∧
    entry_ptr s' e = Some (inr (i, InAcl k)) ∧ iterators s' = iterators s ∧ iterator_pool s' = iterator_pool s ∧
    (old = DefaultDelegate → storage_pool s' = storage_pool s ∧ length (delegate_pool s') = length (delegate_pool s)) ∧
    is_Some (entries s' !! e).
Proof.
  intros Hok He Hf Hk Hu. pose proof (find_available s e old i Hok He Hf) as Hav.
  assert (alter storage_Init k (acl s) = acl s) as Hacl.
  { rewrite (alter_insert_lookup _ _ _ _ Hk). unfold storage_Init. rewrite Hu. by apply list_insert_id. }
  pose proof (link_ok s i e (InAcl k) st Hok Hav Hk Hu ltac:(done)) as Hlk.
  unfold delegate_Init, entry_SetDelegate. rewrite He. unfold delegate_Release. destruct old as [|j].
  - eexists. split; [reflexivity|]. assert (∀ x, x = link i e (InAcl k) s → store_ok x ∧ acl x = acl s ∧
      entry_ptr x e = Some (inr (i, InAcl k)) ∧ iterators x = iterators s ∧ iterator_pool x = iterator_pool s ∧
      (DefaultDelegate = DefaultDelegate → storage_pool x = storage_pool s ∧ length (delegate_pool x) = length (delegate_pool s)) ∧
      is_Some (entries x !! e)) as Hgo.
    { intros x ->. split_and!; try done.
      - unfold entry_ptr. cbn. rewrite lookup_insert_eq. rewrite list_lookup_insert_eq by apply Hav. done.
      - intros _. cbn. by rewrite length_insert.
      - cbn. rewrite lookup_insert_eq. done. }
    apply Hgo. unfold link. cbn. by rewrite Hacl.
  - simpl in Hf. injection Hf as ->. destruct (so_entry s Hok e i He) as (d & p & Hd & Hp & Hm). rewrite Hd, Hp.
    eexists. split; [reflexivity|].
    assert (∀ x, x = free_ptr p (link i e (InAcl k) s) → store_ok x ∧ acl x = acl s ∧
      entry_ptr x e = Some (inr (i, InAcl k)) ∧ iterators x = iterators s ∧ iterator_pool x = iterator_pool s ∧
      (PoolDelegate i = DefaultDelegate → storage_pool x = storage_pool s ∧ length (delegate_pool x) = length (delegate_pool s)) ∧
      is_Some (entries x !! e)) as Hgo.
    { intros x ->. assert (entry_ptr (link i e (InAcl k) s) e = Some (inr (i, InAcl k))) as Hptr.
      { unfold entry_ptr. cbn. rewrite lookup_insert_eq. rewrite list_lookup_insert_eq by apply Hav. done. }
      assert (is_Some (entries (link i e (InAcl k) s) !! e)) as Hlive by (cbn; by rewrite lookup_insert_eq).
      destruct p as [j|j]; [by split_and!|]. split_and!; try done. apply free_ok; [done|].
      intros i' d' Hd' Hpd. cbn in Hd'. apply list_lookup_insert_Some in Hd' as [(<- & <- & _)|(Hne & Hd')]; [done|].
      destruct Hne. exact (so_owner s Hok _ _ _ _ _ Hd Hd' Hp Hpd). }
    apply Hgo. destruct p as [j|j]; unfold link; cbn; by rewrite ?Hacl, list_alter_insert_eq.
Qed.

(** ** Writing a storage of the list *)
Lemma set_acl_ok s k v : store_ok s → packed (<[k := v]> (acl s)) → mInUse v = true → shaped v → store_ok (s <| acl ::= <[k := v]> |>).
Proof.
  intros [H1 H2 H3 H4 H5 H6 H7 H8] Hp Hv Hsh.
  split; cbn [acl storage_pool delegate_pool iterator_pool entries iterators update eta_acl_state]; try done.
  - by rewrite length_insert.
  - by apply Forall_insert.
  - intros i d p Hi Hd. destruct (H5 i d p Hi Hd) as (e & st & He & Hent & Hld & Hus). destruct p as [j|j]; [|by exists e, st].
    simpl in Hld |- *. destruct (decide (j = k)) as [->|Hne].
    + exists e, v. split_and!; [done|done| |done]. apply list_lookup_insert_eq. by eapply lookup_lt_Some.
    + exists e, st. split_and!; [done|done| |done]. by rewrite list_lookup_insert_ne.
Qed.

(** The entry copied still says the same. *)
Lemma set_acl_entry s k v e i p : (k < length (acl s))%nat → entry_ptr s e = Some (inr (i, p)) → load s p = Some v →
  store_entry (s <| acl ::= <[k := v]> |>) e = Some (contents v).
Proof.
  intros Hk Hp Hl. assert (entry_ptr (s <| acl ::= <[k := v]> |>) e = Some (inr (i, p))) as Hp' by done.
  unfold store_entry. rewrite Hp'. destruct p as [j|j]; simpl in Hl |- *; [|by rewrite Hl]. destruct (decide (j = k)) as [->|Hne].
  - by rewrite list_lookup_insert_eq.
  - by rewrite list_lookup_insert_ne, Hl.
Qed.

Lemma store_entry_live s e a : store_entry s e = Some a → is_Some (entries s !! e).
Proof. unfold store_entry, entry_ptr. destruct (entries s !! e); [eauto|done]. Qed.

(** The storage of an entry with contents. *)
Lemma entry_storage s e a : store_ok s → store_entry s e = Some a →
  ∃ i p v, entry_ptr s e = Some (inr (i, p)) ∧ load s p = Some v ∧ mInUse v = true ∧ shaped v ∧ contents v = a.
Proof.
  intros Hok He. destruct (entry_ptr_spec s e Hok (store_entry_live s e a He)) as [(_ & _ & Hn)|(i & d & p & v & _ & _ & _ & _ & Hp & Hl & Hu & Hsh & Hs)];
    [congruence|]. exists i, p, v. split_and!; try done. congruence.
Qed.

Lemma find_used_spec s i f : store_ok s → FindUsedInAcl s i f = position (store_acl s) i f.
Proof.
  intros Hok. pose proof (so_packed s Hok) as Hp. unfold FindUsedInAcl, position, store_acl.
  assert (∀ k, (k < length (live (acl s)))%nat → match acl s !! k with Some x => if mInUse x then Some k else None | None => None end = Some k) as Hin.
  { intros k Hk. destruct (lookup_lt_is_Some_2 _ _ Hk) as [x Hx]. by destruct (live_used _ _ _ Hx) as [-> ->]. }
  destruct f as [f|].
  - unfold ConvertIndex. rewrite convert_absolute by lia. rewrite Nat.sub_0_r.
    pose proof (nth_of_fabric_spec f (contents <$> live (acl s)) i) as Hn. destruct (nth_of_fabric f _ i) as [k|]; cbn [fmap option_fmap option_map default].
    + destruct Hn as (a & Ha & _). rewrite Nat.add_0_l. apply Hin. apply lookup_lt_Some in Ha. by rewrite length_fmap in Ha.
    + by rewrite (proj2 (lookup_ge_None (acl s) (length (acl s)))).
  - rewrite length_fmap. destruct (Nat.ltb_spec i (length (live (acl s)))) as [Hlt|Hge]; [by apply Hin|].
    destruct (acl s !! i) as [x|] eqn:Hx; [|done]. destruct (mInUse x) eqn:Hu; [|done].
    pose proof (live_insert_lookup _ _ _ Hx Hu Hp). lia.
Qed.

Lemma position_le l i f k : position l i f = Some k → (i ≤ k < length l)%nat.
Proof.
  unfold position. destruct f as [f|].
  - revert i k; induction l as [|a l IH]; intros i k Hk; [done|]. cbn [nth_of_fabric] in Hk. destruct (ace_fabric a =? f).
    + destruct i as [|i]; [injection Hk as <-; simpl; lia|]. destruct (nth_of_fabric f l i) eqn:E; [|done]. injection Hk as <-.
      specialize (IH _ _ E). simpl. lia.
    + destruct (nth_of_fabric f l i) eqn:E; [|done]. injection Hk as <-. specialize (IH _ _ E). simpl. lia.
  - destruct (Nat.ltb_spec i (length l)); [|done]. intros [= <-]. lia.
Qed.

Lemma create_law s e a f : store_ok s → store_entry s e = Some a →
  let room := (length (store_acl s) <? kNumberOfFabrics * kEntriesPerFabric)%nat in
  ∃ i s', CreateEntry s e (Some f) =
      Some (if room then (CHIP_NO_ERROR, i, Some (ace_fabric a), s') else (CHIP_ERROR_BUFFER_TOO_SMALL, i, Some f, s')) ∧
    store_ok s' ∧ store_acl s' = (if room then store_acl s ++ [a] else store_acl s) ∧
    i = (if room then length (of_fabric (ace_fabric a) (store_acl s)) else O) ∧ store_entry s' e = Some a.
Proof.
  intros Hok He room. pose proof (so_packed s Hok) as Hp. destruct (entry_storage s e a Hok He) as (j & p & v & Hptr & Hl & Hu & Hsh & Hc).
  unfold CreateEntry, FindUnusedInAcl. pose proof (first_unused_spec (acl s) Hp) as Hfu.
  assert (room = (length (live (acl s)) <? length (acl s))%nat) as Hroom by (unfold room, store_acl; by rewrite length_fmap, (so_length s Hok)).
  destruct (first_unused (acl s)) as [k|].
  - destruct Hfu as [Hk Hlt]. rewrite <- Hk, (proj2 (Nat.ltb_lt _ _) Hlt) in Hroom. rewrite Hroom.
    unfold Copy. rewrite Hptr, Hl. cbn [acl update eta_acl_state]. rewrite list_lookup_insert_eq by done.
    destruct (live_append (acl s) v Hp ltac:(lia) Hu) as [Hlive Hpk]. rewrite <- Hk in Hlive, Hpk.
    eexists _, _. split; [by rewrite <- Hc|]. split_and!.
    + by apply set_acl_ok.
    + unfold store_acl. cbn [acl update eta_acl_state]. by rewrite Hlive, fmap_app, <- Hc.
    + unfold ConvertIndex. cbn [acl update eta_acl_state]. pose proof (convert_relative (<[k := v]> (acl s)) (mFabricIndex v) k 0 0 v) as Hcv.
      rewrite Hlive, lookup_app_r in Hcv by lia. rewrite <- Hk, Nat.sub_diag in Hcv. specialize (Hcv eq_refl eq_refl).
      rewrite Nat.add_0_l in Hcv. rewrite Hcv. rewrite take_app_length' by done. by rewrite <- Hc.
    + rewrite <- Hc. by eapply set_acl_entry.
  - rewrite Hfu, Nat.ltb_irrefl in Hroom. rewrite Hroom. by exists O, s.
Qed.

Lemma update_law s e a i f : store_ok s → store_entry s e = Some a →
  ∃ s', UpdateEntry s i e f =
      Some (match position (store_acl s) i f with Some _ => CHIP_NO_ERROR | None => CHIP_ERROR_SENTINEL end, s') ∧
    store_ok s' ∧ store_acl s' = (match position (store_acl s) i f with Some k => <[k := a]> (store_acl s) | None => store_acl s end) ∧
    store_entry s' e = Some a.
Proof.
  intros Hok He. pose proof (so_packed s Hok) as Hp. destruct (entry_storage s e a Hok He) as (j & p & v & Hptr & Hl & Hu & Hsh & Hc).
  unfold UpdateEntry. rewrite find_used_spec by done. destruct (position (store_acl s) i f) as [k|] eqn:Hpos; [|by exists s].
  apply position_le in Hpos as [_ Hk]. unfold store_acl in Hk. rewrite length_fmap in Hk.
  unfold Copy. rewrite Hptr, Hl. destruct (live_slot_update (acl s) k v Hk Hp Hu) as [Hlive Hpk].
  eexists. split; [reflexivity|]. split_and!.
  - by apply set_acl_ok.
  - unfold store_acl. cbn [acl update eta_acl_state]. by rewrite Hlive, list_fmap_insert, <- Hc.
  - rewrite <- Hc. eapply set_acl_entry; [|done|done]. pose proof (live_le (acl s)). lia.
Qed.

Lemma read_law s i e f : store_ok s → is_Some (entries s !! e) →
  ∃ err s', ReadEntry s i e f = Some (err, s') ∧ store_ok s' ∧ store_acl s' = store_acl s ∧ is_Some (entries s' !! e) ∧
    (err = CHIP_NO_ERROR → is_Some (position (store_acl s) i f) ∧ store_entry_at s' e = position (store_acl s) i f) ∧
    (store_entry s e = None → storage_pool s' = storage_pool s ∧ length (delegate_pool s') = length (delegate_pool s)) ∧
    (is_Some (first_free (delegate_pool s)) ∨ is_Some (store_entry s e) → is_Some (position (store_acl s) i f) → err = CHIP_NO_ERROR).
Proof.
  intros Hok [old Hold]. unfold ReadEntry. rewrite find_used_spec by done.
  destruct (position (store_acl s) i f) as [k|] eqn:Hpos; [|exists CHIP_ERROR_SENTINEL, s; split_and!; done].
  pose proof (position_le _ _ _ _ Hpos) as [_ Hk]. unfold store_acl in Hk. rewrite length_fmap in Hk.
  destruct (lookup_lt_is_Some_2 _ _ Hk) as [st Hst]. destruct (live_used _ _ _ Hst) as [Hlk Hu].
  assert (store_entry s e = None → old = DefaultDelegate) as Hdef.
  { destruct (entry_ptr_spec s e Hok) as [(Hd & _ & _)|(? & ? & ? & ? & _ & _ & _ & _ & _ & _ & _ & _ & Hs)]; [by rewrite Hold|congruence|congruence]. }
  rewrite Hold. destruct (EntryDelegate_Find s old) as [j|] eqn:Hf.
  - destruct (init_spec s e old j k st Hok Hold Hf Hlk Hu) as (s' & -> & Hok' & Ha & Hptr & Hit & Hip & Hpool & Hlive).
    exists CHIP_NO_ERROR, s'. split_and!; [done|done| |done| |by intros ?%Hdef%Hpool|done].
    + unfold store_acl. by rewrite Ha.
    + intros _. split; [done|]. unfold store_entry_at. by rewrite Hptr.
  - exists CHIP_ERROR_BUFFER_TOO_SMALL, s. split_and!; try done.
    intros Hr _. exfalso. destruct old as [|j]; [|done]. simpl in Hf. rewrite Hf in Hr. destruct Hr as [[]|[a Ha]]; [done|].
    unfold store_entry, entry_ptr in Ha. by rewrite Hold in Ha.
Qed.

(** ** Deleting *)

(** What the loops over the delegates leave alone. *)
Record same_objects (s s' : acl_state) : Prop := {
  sm_acl : acl s' = acl s;
  sm_live : ∀ e, is_Some (entries s !! e) → is_Some (entries s' !! e);
  sm_iterators : iterators s' = iterators s;
  sm_iterator_pool : iterator_pool s' = iterator_pool s;
  sm_delegates : length (delegate_pool s') = length (delegate_pool s) }.
#[export] Instance same_objects_preorder : PreOrder same_objects.
Proof. split; [by split|]. intros s1 s2 s3 [] []. split; try congruence. naive_solver. Qed.

Lemma fill_copy_ok s m v : store_ok s → (∃ x, storage_pool s !! m = Some x ∧ mInUse x = false) → shaped v →
  store_ok (s <| storage_pool ::= alter (fun _ => v) m |>).
Proof.
  intros [H1 H2 H3 H4 H5 H6 H7 H8] (x & Hx & Hu) Hsh.
  split; cbn [acl storage_pool delegate_pool iterator_pool entries iterators update eta_acl_state]; try done.
  - by apply Forall_alter.
  - intros i d p Hi Hd. destruct (H5 i d p Hi Hd) as (e & st & He & Hent & Hld & Hus). exists e, st. split_and!; try done.
    destruct p as [j|j]; [done|]. simpl in Hld |- *. rewrite list_lookup_alter_ne; [done|]. intros ->. congruence.
Qed.

Lemma first_unused_lookup l m : first_unused l = Some m → ∃ x, l !! m = Some x ∧ mInUse x = false.
Proof.
  revert m; induction l as [|x l IH]; intros m Hm; [done|]. simpl in Hm. destruct (mInUse x) eqn:Hx; simpl in Hm.
  - destruct (first_unused l) as [k|]; [|done]. injection Hm as <-. by apply IH.
  - injection Hm as <-. by exists x.
Qed.

Lemma fill_one_copy l m v : first_unused l = Some m → mInUse v = true →
  S (length (filter (fun x => mInUse x = false) (alter (fun _ => v) m l))) = length (filter (fun x => mInUse x = false) l).
Proof.
  revert m; induction l as [|x l IH]; intros m Hm Hv; [done|]. simpl in Hm. destruct (mInUse x) eqn:Hx; simpl in Hm.
  - destruct (first_unused l) as [k|]; [|done]. injection Hm as <-. cbn [alter list_alter]. rewrite !filter_cons_False by (simpl; congruence). by apply IH.
  - injection Hm as <-. cbn [alter list_alter]. rewrite filter_cons_False by (simpl; congruence). by rewrite filter_cons_True.
Qed.

Lemma no_unused_filter l : first_unused l = None → filter (fun x => mInUse x = false) l = [].
Proof.
  induction l as [|x l IH]; intros Hm; [done|]. simpl in Hm. destruct (mInUse x) eqn:Hx; simpl in Hm; [|done].
  rewrite filter_cons_False by congruence. destruct (first_unused l); [done|by apply IH].
Qed.

(** Before a storage goes, a delegate that refers to it gets a copy, if there is room. *)
Lemma fix_before_spec k s i : store_ok s → (i < length (delegate_pool s))%nat →
  ∃ s', FixBeforeDelete k i s = Some s' ∧ store_ok s' ∧ same_objects s s' ∧
    (∀ e, store_entry s' e = store_entry s e) ∧ (∀ e n, store_entry_at s' e = Some n → store_entry_at s e = Some n) ∧
    (∀ j, j ≠ i → delegate_pool s' !! j = delegate_pool s !! j) ∧ (free_copies s ≤ S (free_copies s'))%nat ∧
    ((0 < free_copies s)%nat → ∀ d, delegate_pool s' !! i = Some d → mStorage d ≠ Some (InAcl k)).
Proof.
  intros Hok Hi. destruct (lookup_lt_is_Some_2 _ _ Hi) as [d Hd]. unfold FixBeforeDelete. rewrite Hd.
  destruct (bool_decide (mStorage d = Some (InAcl k))) eqn:Hb; [apply bool_decide_eq_true in Hb as Hp|apply bool_decide_eq_false in Hb as Hp].
  - unfold EnsureStorageInPool, EntryStorage_Find. rewrite Hd, Hp. destruct (so_delegate s Hok i d _ Hd Hp) as (e & v & Hm & He & Hl & Hu).
    assert (shaped v) as Hsh by (pose proof (so_acl_shape s Hok) as H; rewrite Forall_lookup in H; by eapply H).
    destruct (first_unused (storage_pool s)) as [m|] eqn:Hf; cbn [fmap option_fmap option_map].
    + rewrite Hl. pose proof (first_unused_lookup _ _ Hf) as Hun. pose proof (fill_copy_ok s m v Hok Hun Hsh) as Hok1.
      set (s1 := s <| storage_pool ::= alter (fun _ => v) m |>) in *.
      assert ((on_storage (InPool m) (fun _ => v) s) <| delegate_pool ::= <[i := {| mEntry := mEntry d; mStorage := Some (InPool m) |}]> |> = link i e (InPool m) s1) as ->.
      { unfold link, s1. cbn. by rewrite insert_id, Hm. }
      destruct Hun as (x & Hx & Hxu). assert (load s1 (InPool m) = Some v) as Hlv by (simpl; by rewrite list_lookup_alter_eq, Hx).
      assert (∀ e', entries (link i e (InPool m) s1) !! e' = entries s !! e') as Hents.
      { intros e'. cbn. by rewrite insert_id. }
      eexists. split; [reflexivity|]. split_and!.
      * eapply link_ok; [done|split; [done|by right]|done|done|]. intros k' j d' [= <-] Hj Hd'.
        destruct (so_delegate s Hok j d' _ Hj Hd') as (e' & st & _ & _ & Hst & Hus). simpl in Hst. congruence.
      * split; try done; [intros e' He'; by rewrite Hents|by cbn; rewrite length_insert].
      * intros e'. unfold store_entry, entry_ptr. rewrite Hents. destruct (entries s !! e') as [[|j]|] eqn:He'; [done| |done].
        cbn [delegate_pool link s1 update eta_acl_state]. destruct (decide (j = i)) as [->|Hne].
        -- rewrite list_lookup_insert_eq by done. rewrite Hd, Hp. cbn [mStorage]. change (load (link i e (InPool m) s1)) with (load s1). by rewrite Hlv, Hl.
        -- rewrite list_lookup_insert_ne by done. destruct (delegate_pool s !! j) as [d'|] eqn:Hj; [|done]. destruct (mStorage d') as [q|] eqn:Hq; [|done].
           change (load (link i e (InPool m) s1)) with (load s1). destruct q as [n|n]; [done|]. simpl. f_equal.
           destruct (so_delegate s Hok j d' _ Hj Hq) as (e2 & st & _ & _ & Hst & Hus). simpl in Hst. rewrite list_lookup_alter_ne; [done|]. intros ->. congruence.
      * intros e' n. unfold store_entry_at, entry_ptr. rewrite Hents. destruct (entries s !! e') as [[|j]|]; [done| |done].
        cbn [delegate_pool link s1 update eta_acl_state]. destruct (decide (j = i)) as [->|Hne]; [by rewrite list_lookup_insert_eq|].
        by rewrite list_lookup_insert_ne.
      * intros j Hj. cbn. by rewrite list_lookup_insert_ne.
      * unfold free_copies. change (storage_pool (link i e (InPool m) s1)) with (alter (fun _ => v) m (storage_pool s)). by rewrite (fill_one_copy _ _ _ Hf Hu).
      * intros _ d' Hd'. cbn in Hd'. rewrite list_lookup_insert_eq in Hd' by done. injection Hd' as <-. done.
    + exists s. split_and!; try done; [lia|]. unfold free_copies. rewrite no_unused_filter by done. simpl. lia.
  - exists s. split_and!; try done; [lia|]. intros _ d' Hd'. congruence.
Qed.

Lemma fix_before_all k l : ∀ s, store_ok s → Forall (fun i => (i < length (delegate_pool s))%nat) l → NoDup l →
  ∃ s', for_delegates l (FixBeforeDelete k) s = Some s' ∧ store_ok s' ∧ same_objects s s' ∧
    (∀ e, store_entry s' e = store_entry s e) ∧ (∀ e n, store_entry_at s' e = Some n → store_entry_at s e = Some n) ∧
    (∀ j, j ∉ l → delegate_pool s' !! j = delegate_pool s !! j) ∧
    ((length l ≤ free_copies s)%nat → ∀ i d, i ∈ l → delegate_pool s' !! i = Some d → mStorage d ≠ Some (InAcl k)).
Proof.
  induction l as [|i l IH]; intros s Hok Hl Hnd; [exists s; split_and!; try done; intros _ i d Hi; by apply not_elem_of_nil in Hi|].
  inv Hl. inv Hnd. cbn [for_delegates].
  destruct (fix_before_spec k s i Hok) as (s1 & -> & Hok1 & Hsm1 & Hv1 & Hat1 & Hd1 & Hc1 & Hn1); [done|].
  destruct (IH s1 Hok1) as (s2 & -> & Hok2 & Hsm2 & Hv2 & Hat2 & Hd2 & Hn2); [by rewrite (sm_delegates _ _ Hsm1)|done|].
  exists s2. split_and!; [done|done|by etrans|intros e; by rewrite Hv2|naive_solver| |].
  - intros j [Hj1 Hj2]%not_elem_of_cons. by rewrite Hd2, Hd1.
  - intros Hlen j d [->|Hj]%elem_of_cons Hj'; simpl in Hlen.
    + rewrite Hd2 in Hj' by done. apply Hn1; [lia|done].
    + apply (Hn2 ltac:(lia) j d Hj Hj').
Qed.

(** The loop after the removal does not read the storages, so it may as well run
    before it. *)
Lemma fix_after_acl idx l acl' s : length acl' = length (acl s) →
  for_delegates l (FixAfterDelete idx) (s <| acl := acl' |>) =
  (fun s' => s' <| acl := acl' |>) <$> for_delegates l (FixAfterDelete idx) s.
Proof.
  revert s; induction l as [|i l IH]; intros s Hlen; [done|]. cbn [for_delegates].
  assert (FixAfterDelete idx i (s <| acl := acl' |>) = (fun s' => s' <| acl := acl' |>) <$> FixAfterDelete idx i s ∧
    ∀ s', FixAfterDelete idx i s = Some s' → acl s' = acl s) as [-> Hacl].
  { unfold FixAfterDelete. cbn [delegate_pool acl update eta_acl_state]. destruct (delegate_pool s !! i) as [d|]; [|done].
    destruct (mStorage d) as [[j|j]|]; [|split; [done|by intros s' [= <-]]..]. rewrite Hlen. destruct (j =? idx)%nat.
    - destruct (mEntry d) as [e|]; [|done]. unfold ResetDelegate, entry_SetDelegate. cbn [entries update eta_acl_state].
      destruct (entries s !! e) as [[|m]|]; [split; [done|by intros s' [= <-]]| |done]. unfold delegate_Release. cbn [delegate_pool update eta_acl_state].
      destruct (delegate_pool s !! m) as [d'|]; [|done]. destruct (mStorage d') as [[n|n]|]; [split; [done|by intros s' [= <-]]..|done].
    - destruct (_ && _); (split; [done|by intros s' [= <-]]). }
  destruct (FixAfterDelete idx i s) as [s1|] eqn:E; [|done]. cbn [fmap option_fmap option_map]. apply IH. by rewrite (Hacl s1).
Qed.

Lemma fix_after_spec idx s i : store_ok s → (i < length (delegate_pool s))%nat → (idx < length (live (acl s)))%nat →
  ∃ s', FixAfterDelete idx i s = Some s' ∧ store_ok s' ∧ same_objects s s' ∧ storage_pool s' = storage_pool s ∧
    (∀ j, j ≠ i → delegate_pool s' !! j = delegate_pool s !! j) ∧
    (∀ d j, delegate_pool s' !! i = Some d → mStorage d = Some (InAcl j) → (S j < length (live (acl s)))%nat) ∧
    (∀ e m n, entry_ptr s e = Some (inr (m, InPool n)) → entry_ptr s' e = Some (inr (m, InPool n))).
Proof.
  intros Hok Hi Hidx. destruct (lookup_lt_is_Some_2 _ _ Hi) as [d Hd]. unfold FixAfterDelete. rewrite Hd.
  destruct (mStorage d) as [[j|j]|] eqn:Hp; [|exists s; split_and!; try done; intros d' j' Hd'; congruence..].
  destruct (so_delegate s Hok i d _ Hd Hp) as (e & v & Hm & He & Hl & Hu). simpl in Hl.
  pose proof (live_insert_lookup _ _ _ Hl Hu (so_packed s Hok)) as Hj. pose proof (live_le (acl s)) as Hle.
  destruct (Nat.eqb_spec j idx) as [->|Hne].
  - unfold ResetDelegate, entry_SetDelegate, delegate_Release. rewrite Hm, He, Hd, Hp. cbn [storage_Release].
    eexists. split; [reflexivity|]. change (store_ok (unlink i <[e := DefaultDelegate]> s) ∧ same_objects s (unlink i <[e := DefaultDelegate]> s) ∧
      storage_pool (unlink i <[e := DefaultDelegate]> s) = storage_pool s ∧
      (∀ j, j ≠ i → delegate_pool (unlink i <[e := DefaultDelegate]> s) !! j = delegate_pool s !! j) ∧
      (∀ d j, delegate_pool (unlink i <[e := DefaultDelegate]> s) !! i = Some d → mStorage d = Some (InAcl j) → (S j < length (live (acl s)))%nat) ∧
      (∀ e' m n, entry_ptr s e' = Some (inr (m, InPool n)) → entry_ptr (unlink i <[e := DefaultDelegate]> s) e' = Some (inr (m, InPool n)))).
    split_and!; try done.
    + apply (unlink_ok s i e); [done|done|by rewrite lookup_insert_eq|intros; by rewrite lookup_insert_ne|intros; by rewrite lookup_insert_eq].
    + split; try done; [|by cbn; rewrite length_alter]. intros e' He'. cbn. destruct (decide (e' = e)) as [->|]; [by rewrite lookup_insert_eq|by rewrite lookup_insert_ne].
    + intros j' Hj'. cbn. by rewrite list_lookup_alter_ne.
    + intros d' j' Hd'. cbn in Hd'. rewrite list_lookup_alter_eq, Hd in Hd'. injection Hd' as <-. done.
    + intros e' m n. unfold entry_ptr. cbn. destruct (decide (e' = e)) as [->|Hne']; [by rewrite He, Hd, Hp|]. rewrite lookup_insert_ne by done.
      destruct (entries s !! e') as [[|m']|] eqn:He'; [done| |done]. destruct (decide (m' = i)) as [->|Hne2]; [by rewrite Hd, Hp|]. by rewrite list_lookup_alter_ne.
  - destruct ((idx <? j)%nat && (j <? length (acl s))%nat) eqn:Hb.
    + apply andb_true_iff in Hb as [H1%Nat.ltb_lt H2%Nat.ltb_lt]. destruct (lookup_lt_is_Some_2 (live (acl s)) (j - 1)) as [w Hw]; [lia|].
      destruct (live_used _ _ _ Hw) as [Hw' Hwu].
      assert (s <| delegate_pool ::= <[i := {| mEntry := mEntry d; mStorage := Some (InAcl (j - 1)) |}]> |> = link i e (InAcl (j - 1)) s) as ->.
      { unfold link. cbn. by rewrite insert_id, Hm by done. }
      eexists. split; [reflexivity|]. split_and!; try done.
      * eapply link_ok; [done|split; [done|by right]|done|done|done].
      * split; try done; [|by cbn; rewrite length_insert]. intros e' He'. cbn. by rewrite insert_id.
      * intros j' Hj'. cbn. by rewrite list_lookup_insert_ne.
      * intros d' j' Hd' Hs'. cbn in Hd'. rewrite list_lookup_insert_eq in Hd' by done. injection Hd' as <-. injection Hs' as <-. lia.
      * intros e' m n. unfold entry_ptr. cbn. rewrite insert_id by done. destruct (entries s !! e') as [[|m']|] eqn:He'; [done| |done].
        destruct (decide (m' = i)) as [->|Hne2]; [by rewrite Hd, Hp|]. by rewrite list_lookup_insert_ne.
    + exists s. split_and!; try done. intros d' j' Hd' Hs'. rewrite Hd in Hd'. injection Hd' as <-. rewrite Hp in Hs'. injection Hs' as <-.
      apply andb_false_iff in Hb as [Hb%Nat.ltb_ge|Hb%Nat.ltb_ge]; lia.
Qed.

Lemma fix_after_all idx l : ∀ s, store_ok s → Forall (fun i => (i < length (delegate_pool s))%nat) l → NoDup l →
  (idx < length (live (acl s)))%nat →
  ∃ s', for_delegates l (FixAfterDelete idx) s = Some s' ∧ store_ok s' ∧ same_objects s s' ∧ storage_pool s' = storage_pool s ∧
    (∀ j, j ∉ l → delegate_pool s' !! j = delegate_pool s !! j) ∧
    (∀ i d j, i ∈ l → delegate_pool s' !! i = Some d → mStorage d = Some (InAcl j) → (S j < length (live (acl s)))%nat) ∧
    (∀ e m n, entry_ptr s e = Some (inr (m, InPool n)) → entry_ptr s' e = Some (inr (m, InPool n))).
Proof.
  induction l as [|i l IH]; intros s Hok Hl Hnd Hidx; [exists s; split_and!; try done; intros i d j Hi; by apply not_elem_of_nil in Hi|].
  inv Hl. inv Hnd. cbn [for_delegates].
  destruct (fix_after_spec idx s i Hok) as (s1 & -> & Hok1 & Hsm1 & Hp1 & Hd1 & Hj1 & He1); [done|done|].
  destruct (IH s1 Hok1) as (s2 & -> & Hok2 & Hsm2 & Hp2 & Hd2 & Hj2 & He2); [by rewrite (sm_delegates _ _ Hsm1)|done|by rewrite (sm_acl _ _ Hsm1)|].
  rewrite (sm_acl _ _ Hsm1) in Hj2. exists s2. split_and!; [done|done|by etrans|congruence| | |naive_solver].
  - intros j [Hn1 Hn2]%not_elem_of_cons. by rewrite Hd2, Hd1.
  - intros i' d j [->|Hi']%elem_of_cons Hi'' Hs'; [|by eapply Hj2]. rewrite Hd2 in Hi'' by done. by eapply Hj1.
Qed.

Lemma shaped_cleared : shaped cleared.
Proof. split_and!; [done|done|by repeat constructor|by repeat constructor]. Qed.

Lemma shift_shaped l : Forall shaped l → Forall shaped (shift_down l).
Proof.
  induction 1 as [|x l Hx Hs IH]; [done|]. destruct l as [|y l]; [constructor; [apply shaped_cleared|constructor]|]. cbn [shift_down].
  destruct (mInUse y); constructor; [by apply Forall_cons in Hs as [? _]|done|apply shaped_cleared|done].
Qed.

Lemma delete_law s i f : store_ok s →
  ∃ s', DeleteEntry s i f = Some (match position (store_acl s) i f with Some _ => CHIP_NO_ERROR | None => CHIP_ERROR_SENTINEL end, s') ∧
    store_ok s' ∧ store_acl s' = (match position (store_acl s) i f with Some k => delete k (store_acl s) | None => store_acl s end) ∧
    (∀ e, is_Some (entries s !! e) → is_Some (entries s' !! e)) ∧
    (∀ e k, (length (delegate_pool s) ≤ free_copies s)%nat → store_entry_at s e = Some k → position (store_acl s) i f = Some k →
       store_entry s' e = store_acl s !! k).
Proof.
  intros Hok. pose proof (so_packed s Hok) as Hpk. unfold DeleteEntry. rewrite find_used_spec by done.
  destruct (position (store_acl s) i f) as [k|] eqn:Hpos; [|by exists s].
  pose proof (position_le _ _ _ _ Hpos) as [Hik Hk]. unfold store_acl in Hk. rewrite length_fmap in Hk.
  set (l := seq 0 (length (delegate_pool s))).
  assert (Forall (fun i => (i < length (delegate_pool s))%nat) l) as Hl by (apply Forall_forall; intros x [_ Hx]%elem_of_seq; exact Hx).
  assert (NoDup l) as Hnd by apply NoDup_seq.
  destruct (fix_before_all k l s Hok Hl Hnd) as (s1 & -> & Hok1 & Hsm1 & Hv1 & Hat1 & _ & Hroom).
  pose proof (sm_acl _ _ Hsm1) as Ha1.
  set (acl' := take k (acl s) ++ shift_down (drop k (acl s))).
  assert (length acl' = length (acl s1)) as Hlen by (unfold acl'; rewrite length_app, length_shift_down, length_take, length_drop; rewrite ?Ha1; lia).
  destruct (live_delete (acl s) k Hpk Hk) as [Hlive Hpk']. fold acl' in Hlive, Hpk'.
  change (s1 <| acl ::= (fun l0 => take k l0 ++ shift_down (drop k l0)) |>) with (s1 <| acl := take k (acl s1) ++ shift_down (drop k (acl s1)) |>).
  rewrite Ha1. fold acl'. rewrite fix_after_acl by done.
  destruct (fix_after_all i l s1 Hok1) as (s2 & -> & Hok2 & Hsm2 & Hp2 & _ & Hj2 & He2);
    [by rewrite (sm_delegates _ _ Hsm1)|done|rewrite Ha1; lia|]. cbn [fmap option_fmap option_map].
  eexists. split; [reflexivity|]. rewrite Ha1 in Hj2. split_and!.
  - destruct Hok2 as [H1 H2 H3 H4 H5 H6 H7 H8]. split; cbn [acl storage_pool delegate_pool iterator_pool entries iterators update eta_acl_state]; try done.
    + by rewrite Hlen, Ha1, (so_length s Hok).
    + unfold acl'. apply Forall_app_2; [apply Forall_take, Hok|apply shift_shaped, Forall_drop, Hok].
    + intros j d p Hj Hd. destruct (H5 j d p Hj Hd) as (e & st & He & Hent & Hld & Hus). destruct p as [n|n]; [|by exists e, st].
      assert (S n < length (live (acl s)))%nat as Hn.
      { eapply Hj2; [|done|done]. apply elem_of_seq. apply lookup_lt_Some in Hj. rewrite (sm_delegates _ _ Hsm2), (sm_delegates _ _ Hsm1) in Hj. lia. }
      destruct (lookup_lt_is_Some_2 (live acl') n) as [w Hw]; [rewrite Hlive, length_delete by (by apply lookup_lt_is_Some_2); lia|].
      destruct (live_used _ _ _ Hw) as [Hw1 Hw2]. by exists e, w.
    + intros it j Hit. rewrite list_lookup_fmap. destruct (H8 it j Hit) as [d ->]. done.
  - unfold store_acl. cbn [acl update eta_acl_state]. rewrite Hlive. by rewrite list_fmap_delete.
  - intros e He. apply (sm_live _ _ Hsm2), (sm_live _ _ Hsm1), He.
  - intros e k' Hfree Hat [= <-]. specialize (Hroom ltac:(unfold l; by rewrite length_seq)).
    assert (store_entry s e = store_acl s !! k) as Hs.
    { unfold store_entry_at in Hat. unfold store_entry, store_acl. destruct (entry_ptr s e) as [[|[m [n|n]]]|] eqn:Hptr; try done.
      injection Hat as ->. simpl. by rewrite list_lookup_fmap, live_slot. }
    rewrite <- Hs, <- Hv1. assert (is_Some (store_acl s !! k)) as [a Hka] by (by eapply position_lookup). rewrite Hka in Hs.
    assert (store_entry s1 e = Some a) as Hs1 by (by rewrite Hv1).
    destruct (entry_storage s1 e a Hok1 Hs1) as (m & p & v & Hptr & Hld & _ & _ & _).
    assert (∃ n, p = InPool n) as [n ->].
    { destruct p as [n|n]; [|by exists n]. exfalso.
      assert (store_entry_at s1 e = Some n) as Hn by (unfold store_entry_at; by rewrite Hptr).
      pose proof (Hat1 e n Hn) as Hn'. rewrite Hat in Hn'. injection Hn' as ->. unfold entry_ptr in Hptr.
      destruct (entries s1 !! e) as [[|m']|]; [done| |done]. destruct (delegate_pool s1 !! m') as [d|] eqn:Hd; [|done].
      destruct (mStorage d) as [q|] eqn:Hq; [|done]. injection Hptr as -> ->. apply (Hroom m d); [|done|done].
      apply elem_of_seq. apply lookup_lt_Some in Hd. rewrite (sm_delegates _ _ Hsm1) in Hd. lia. }
    unfold store_entry. pose proof (He2 e m n Hptr) as Hptr2.
    assert (entry_ptr ((s2 <| acl := acl' |>) <| iterator_pool ::= map (iterator_FixAfterDelete i (length (acl (s2 <| acl := acl' |>)))) |>) e =
      Some (inr (m, InPool n))) as -> by exact Hptr2. rewrite Hptr. cbn [load storage_pool update eta_acl_state]. by rewrite Hp2.
Qed.

(** ** Objects *)
Lemma new_entry_law s e s' : store_ok s → new_entry s = (e, s') →
  store_ok s' ∧ store_acl s' = store_acl s ∧ is_Some (entries s' !! e) ∧ store_entry s' e = None ∧
  delegate_pool s' = delegate_pool s ∧ storage_pool s' = storage_pool s ∧ (∀ it, store_remaining s' it = store_remaining s it).
Proof.
  intros [H1 H2 H3 H4 H5 H6 H7 H8] Hn. unfold new_entry in Hn. injection Hn as He <-.
  assert (entries s !! e = None) as Hfresh by (rewrite <- He; apply not_elem_of_dom, is_fresh). rewrite He.
  split_and!; try done; [|cbn; by rewrite lookup_insert_eq|unfold store_entry, entry_ptr; cbn; by rewrite lookup_insert_eq].
  split; cbn [acl storage_pool delegate_pool iterator_pool entries iterators update eta_acl_state]; try done.
  - intros i d p Hi Hd. destruct (H5 i d p Hi Hd) as (e' & st & Hm & Hent & Hrest). exists e', st. split; [done|].
    rewrite lookup_insert_ne by congruence. done.
  - intros e' i Hi. destruct (decide (e' = e)) as [->|Hne]; [by rewrite lookup_insert_eq in Hi|]. rewrite lookup_insert_ne in Hi by done. by apply H6.
Qed.

Lemma destroy_entry_law s e : store_ok s → is_Some (entries s !! e) →
  ∃ s', destroy_entry s e = Some s' ∧ store_ok s' ∧ store_acl s' = store_acl s ∧ (∀ it, store_remaining s' it = store_remaining s it).
Proof.
  intros Hok Hl. destruct (entry_ptr_spec s e Hok Hl) as [(He & _ & _)|(i & d & p & st & He & Hd & Hp & Hm & _)]; unfold destroy_entry, delegate_Release; rewrite He.
  - eexists. split; [reflexivity|]. split_and!; try done. destruct Hok as [H1 H2 H3 H4 H5 H6 H7 H8].
    split; cbn [acl storage_pool delegate_pool iterator_pool entries iterators update eta_acl_state]; try done.
    + intros i d p Hi Hd. destruct (H5 i d p Hi Hd) as (e' & st & Hm & Hent & Hrest). exists e', st. split; [done|].
      rewrite lookup_delete_ne by congruence. done.
    + intros e' i Hi. apply lookup_delete_Some in Hi as [_ Hi]. by apply H6.
  - rewrite Hd, Hp. eexists. split; [reflexivity|].
    assert (store_ok (unlink i (delete e) s)) as Hok1.
    { apply (unlink_ok s i e); [done|done|by rewrite lookup_delete_eq|intros; by rewrite lookup_delete_ne|intros; by rewrite lookup_delete_eq]. }
    destruct p as [k|k]; [by split_and!|]. split_and!; [|done|done]. apply (free_ok (unlink i (delete e) s) k Hok1).
    intros j d' Hj Hd'. cbn in Hj. destruct (decide (j = i)) as [->|Hne].
    + rewrite list_lookup_alter_eq, Hd in Hj. injection Hj as <-. done.
    + rewrite list_lookup_alter_ne in Hj by done. destruct Hne. exact (so_owner s Hok _ _ _ _ _ Hj Hd Hd' Hp).
Qed.

Lemma iterators_ok s its pool : store_ok s → (∀ it i, its !! it = Some (PoolDelegate i) → is_Some (pool !! i)) →
  store_ok (s <| iterators := its |> <| iterator_pool := pool |>).
Proof. intros [H1 H2 H3 H4 H5 H6 H7 H8] H. by split. Qed.

Lemma release_iterator_pool s r i : is_Some (iterator_pool (iterator_Release s r) !! i) ↔ is_Some (iterator_pool s !! i).
Proof.
  destruct r as [|j]; [done|]. cbn. destruct (decide (j = i)) as [->|Hne].
  - rewrite list_lookup_alter_eq. apply fmap_is_Some.
  - by rewrite list_lookup_alter_ne.
Qed.

Lemma remaining_live s it : store_ok s → is_Some (iterators s !! it) ↔ is_Some (store_remaining s it).
Proof.
  intros Hok. unfold store_remaining. destruct (iterators s !! it) as [[|i]|] eqn:Hit; [by split; eauto| |done].
  split; [intros _|by eauto]. apply fmap_is_Some. by eapply so_iterator.
Qed.

Lemma new_iterator_law s it s' : store_ok s → new_iterator s = (it, s') →
  store_ok s' ∧ store_acl s' = store_acl s ∧ is_Some (store_remaining s' it) ∧
  delegate_pool s' = delegate_pool s ∧ iterator_pool s' = iterator_pool s ∧ iterators s' !! it = Some DefaultDelegate.
Proof.
  intros Hok Hn. unfold new_iterator in Hn. injection Hn as Hit <-. rewrite Hit.
  split_and!; try done; [|unfold store_remaining; cbn; by rewrite lookup_insert_eq|cbn; by rewrite lookup_insert_eq].
  refine (iterators_ok s (<[it := DefaultDelegate]> (iterators s)) (iterator_pool s) Hok _). intros it' i Hi.
  apply lookup_insert_Some in Hi as [[_ [=]]|[_ Hi]]. by eapply so_iterator.
Qed.

Lemma destroy_iterator_law s it : store_ok s → is_Some (store_remaining s it) →
  ∃ s', destroy_iterator s it = Some s' ∧ store_ok s' ∧ store_acl s' = store_acl s.
Proof.
  intros Hok [r Hr]%(remaining_live s it Hok). unfold destroy_iterator. rewrite Hr. eexists. split; [reflexivity|].
  assert ((iterator_Release s r) <| iterators ::= delete it |> =
    s <| iterators := delete it (iterators s) |> <| iterator_pool := iterator_pool (iterator_Release s r) |>) as -> by (by destruct r).
  split; [|done]. apply iterators_ok; [done|]. intros it' i Hi. apply lookup_delete_Some in Hi as [_ Hi].
  apply release_iterator_pool. by eapply so_iterator.
Qed.

Lemma entries_law s it f : store_ok s → is_Some (store_remaining s it) →
  ∃ err s', Entries s it (Some f) = Some (err, s') ∧ store_ok s' ∧ store_acl s' = store_acl s ∧
    delegate_pool s' = delegate_pool s ∧ is_Some (store_remaining s' it) ∧
    (err = CHIP_NO_ERROR → store_remaining s' it = Some (of_fabric f (store_acl s))) ∧
    (is_some (first_iterator (iterator_pool s)) = true → err = CHIP_NO_ERROR).
Proof.
  intros Hok Hrem. pose proof Hrem as [r Hr]%(remaining_live s it Hok). unfold Entries. rewrite Hr.
  destruct (EntryIteratorDelegate_Find s r) as [i|] eqn:Hf.
  - assert (is_Some (iterator_pool (iterator_Release s r) !! i)) as [d Hd].
    { apply release_iterator_pool. destruct r as [|j]; simpl in Hf; [|injection Hf as ->; by eapply so_iterator].
      clear Hr Hrem Hok. revert i Hf. induction (iterator_pool s) as [|d l IH]; intros i Hf; [done|]. simpl in Hf. destruct (it_mInUse d); simpl in Hf.
      - destruct (first_iterator l); [|done]. injection Hf as <-. by apply IH.
      - by injection Hf as <-. }
    unfold iterator_Init. rewrite Hr, Hd. apply lookup_lt_Some in Hd as Hlt.
    set (nd := {| it_mInUse := true; mFabricFiltered := true; it_mFabricIndex := f; it_mStorage := None |}).
    set (s' := s <| iterators := <[it := PoolDelegate i]> (iterators s) |> <| iterator_pool := <[i := nd]> (iterator_pool (iterator_Release s r)) |>).
    exists CHIP_NO_ERROR, s'. split; [by destruct r|].
    assert (store_remaining s' it = Some (of_fabric f (store_acl s))) as Hnew.
    { unfold store_remaining, s'. cbn [iterators iterator_pool acl update eta_acl_state]. rewrite lookup_insert_eq, list_lookup_insert_eq by done.
      cbn [fmap option_fmap option_map nd mFabricFiltered it_mFabricIndex]. unfold iter_start. cbn [it_mStorage]. rewrite drop_0. f_equal.
      unfold remaining_from, of_fabric, store_acl. apply list_filter_iff. intros a. unfold kept. naive_solver. }
    split_and!; try done. apply iterators_ok; [done|]. intros it' j Hj.
    apply lookup_lt_is_Some. rewrite length_insert. apply lookup_lt_is_Some. apply lookup_insert_Some in Hj as [[_ [= <-]]|[_ Hj]]; [eauto|].
    apply release_iterator_pool. by eapply so_iterator.
  - eexists _, s. split; [reflexivity|]. split_and!; try done. destruct r as [|j]; [|done]. simpl in Hf. by rewrite Hf.
Qed.

Lemma next_law s it e l : store_ok s → store_remaining s it = Some l → is_Some (entries s !! e) →
  ∃ err s', Next s it e = Some (err, s') ∧ store_ok s' ∧ store_acl s' = store_acl s ∧ is_Some (entries s' !! e) ∧
    is_Some (store_remaining s' it) ∧
    (err = CHIP_NO_ERROR → ∃ a l', l = a :: l' ∧ store_entry s' e = Some a ∧ store_remaining s' it = Some l') ∧
    (l ≠ [] → is_some (first_free (delegate_pool s)) = true ∨ is_Some (store_entry s e) → err = CHIP_NO_ERROR).
Proof.
  intros Hok Hrem [old Hold]. unfold Next. unfold store_remaining in Hrem. destruct (iterators s !! it) as [[|i]|] eqn:Hit; [| |done].
  { injection Hrem as <-. exists CHIP_ERROR_SENTINEL, s. split_and!; try done. unfold store_remaining. by rewrite Hit. }
  destruct (iterator_pool s !! i) as [d|] eqn:Hd; [|done]. cbn [fmap option_fmap option_map] in Hrem. injection Hrem as Hrem.
  set (start := iter_start (length (acl s)) d) in *. pose proof (next_from_spec (drop start (acl s)) (mFabricFiltered d) (it_mFabricIndex d) start) as Hnf.
  rewrite Hrem in Hnf. apply lookup_lt_Some in Hd as Hlt.
  assert (∀ x, store_ok (s <| iterator_pool ::= <[i := x]> |>)) as Hipok.
  { intros x. refine (iterators_ok s (iterators s) (<[i := x]> (iterator_pool s)) Hok _). intros it' j Hj.
    apply lookup_lt_is_Some. rewrite length_insert. apply lookup_lt_is_Some. by eapply so_iterator. }
  destruct (next_from (drop start (acl s)) (mFabricFiltered d) (it_mFabricIndex d) start) as [k|].
  - destruct Hnf as (Hle & x & Hx & Hu & Hl). rewrite lookup_drop in Hx. replace (start + (k - start))%nat with k in Hx by lia.
    rewrite drop_drop in Hl. replace (start + (S k - start))%nat with (S k) in Hl by lia.
    set (s1 := s <| iterator_pool ::= <[i := d <| it_mStorage := Some k |>]> |>). specialize (Hipok (d <| it_mStorage := Some k |>)). fold s1 in Hipok.
    assert (∀ t, iterators t = iterators s1 → iterator_pool t = iterator_pool s1 → acl t = acl s →
      store_remaining t it = Some (remaining_from (mFabricFiltered d) (it_mFabricIndex d) (drop (S k) (acl s)))) as Hrm.
    { intros t Ht1 Ht2 Ht3. unfold store_remaining. rewrite Ht1, Ht2, Ht3. unfold s1. cbn [iterators iterator_pool update eta_acl_state].
      rewrite Hit, list_lookup_insert_eq by done. cbn [fmap option_fmap option_map]. unfold iter_start.
      cbn [it_mStorage mFabricFiltered it_mFabricIndex update eta_iterator_delegate].
      by rewrite (proj2 (Nat.ltb_lt _ _) (lookup_lt_Some _ _ _ Hx)). }
    change (entries s1) with (entries s). rewrite Hold. change (EntryDelegate_Find s1 old) with (EntryDelegate_Find s old).
    destruct (EntryDelegate_Find s old) as [j|] eqn:Hf.
    + destruct (init_spec s1 e old j k x Hipok Hold Hf Hx Hu) as (s' & -> & Hok' & Ha & Hptr & Hit' & Hip' & _ & Hlive).
      pose proof (Hrm s' Hit' Hip' Ha) as Hr'. exists CHIP_NO_ERROR, s'. split_and!; try done.
      * unfold store_acl. by rewrite Ha.
      * intros _. exists (contents x), (remaining_from (mFabricFiltered d) (it_mFabricIndex d) (drop (S k) (acl s))). split; [done|]. split; [|done].
        unfold store_entry. rewrite Hptr. simpl. change (acl s1) with (acl s) in Ha. by rewrite Ha, Hx.
    + exists CHIP_ERROR_BUFFER_TOO_SMALL, s1. split_and!; try done; try (by rewrite (Hrm s1)).
      intros _ Hr. exfalso. destruct old as [|m]; [|done]. simpl in Hf. rewrite Hf in Hr. destruct Hr as [|[a Ha]]; [done|].
      unfold store_entry, entry_ptr in Ha. by rewrite Hold in Ha.
  - subst l. exists CHIP_ERROR_SENTINEL, (s <| iterator_pool ::= <[i := d <| it_mStorage := Some (length (acl s)) |>]> |>).
    split_and!; try done. unfold store_remaining. cbn [iterators iterator_pool update eta_acl_state].
    by rewrite Hit, list_lookup_insert_eq.
Qed.

(** ** The contract *)
#[export, refine] Instance example_laws : AclDelegateLaws acl_state := {|
  ad_ok := store_ok;
  ad_acl := store_acl;
  ad_entry := store_entry;
  ad_entry_live s e := is_Some (entries s !! e);
  ad_remaining := store_remaining;
  ad_entry_room s := is_some (first_free (delegate_pool s));
  ad_iterator_room s := is_some (first_iterator (iterator_pool s));
  ad_copy_room s := (length (delegate_pool s) <=? free_copies s)%nat;
  ad_entry_at := store_entry_at;
  ad_max := kNumberOfFabrics * kEntriesPerFabric;
  ad_max_per_fabric := kEntriesPerFabric |}.
Proof.
  - done.
  - intros s f _. cbn [ad_GetEntryCountOf example_delegate]. by rewrite count_fabric_spec.
  - done.
  - intros s e a _. apply store_entry_live.
  - intros s e a Hok He. cbn [entry_GetAuthMode entry_GetFabricIndex entry_GetPrivilege entry_GetSubjectCount entry_GetTargetCount example_delegate].
    split_and!;
      match goal with |- entry_read _ _ ?f = _ => destruct (entry_read_spec s e f a Hok He) as (st & <- & _ & ->) end; try done;
      unfold contents; cbn [ace_subjects ace_targets]; rewrite ?length_fmap, length_take; do 2 f_equal; symmetry; apply Nat.min_l, count_until_le.
  - intros s e a i x Hok He Hx. cbn [entry_GetSubject example_delegate].
    destruct (entry_read_spec s e (GetSubject i) a Hok He) as (st & <- & [Hsh _] & ->). cbn [contents ace_subjects] in Hx.
    apply lookup_take_Some in Hx as [Hx Hlt]. pose proof (count_until_le subject_IsEmpty (mSubjects st)). unfold GetSubject.
    rewrite (proj2 (Nat.ltb_lt i kMaxSubjects)), Hx by lia. unfold subject_Get. by rewrite (count_until_lookup _ _ _ _ Hx Hlt).
  - intros s e a i x Hok He Hx. cbn [entry_GetTarget example_delegate].
    destruct (entry_read_spec s e (GetTarget i new_target) a Hok He) as (st & <- & [_ Hsh] & ->). cbn [contents ace_targets] in Hx.
    rewrite list_lookup_fmap in Hx. destruct (take _ _ !! i) as [t|] eqn:Ht; [|done]. injection Hx as <-.
    apply lookup_take_Some in Ht as [Ht Hlt]. pose proof (count_until_le target_IsEmpty (mTargets st)). unfold GetTarget.
    rewrite (proj2 (Nat.ltb_lt i kMaxTargets)), Ht by lia. unfold target_Get. by rewrite (count_until_lookup _ _ _ _ Ht Hlt).
  - intros s i e f Hok Hl. destruct (read_law s i e f Hok Hl) as (err & s' & E & Hok' & Ha & Hl' & Hat & Hp & Hr). exists err, s'. split_and!; try done.
    + intros Hn. destruct (Hp Hn) as [Hp1 Hp2]. unfold free_copies. by rewrite Hp1, Hp2.
    + intros [Hr'|Hr']; apply Hr; [left|by right]. destruct (first_free (delegate_pool s)); [eauto|done].
  - intros s e Hok Hl Hn. cbn [entry_GetAuthMode example_delegate]. unfold entry_read.
    destruct (entry_ptr_spec s e Hok Hl) as [(_ & -> & _)|(? & ? & ? & ? & _ & _ & _ & _ & _ & _ & _ & _ & Hs)]; [eauto|congruence].
  - intros s e Hok Hl. cbn [entry_HasDefaultDelegate example_delegate].
    by destruct (entry_ptr_spec s e Hok Hl) as [(-> & _ & ->)|(? & ? & ? & ? & -> & _ & _ & _ & _ & _ & _ & _ & ->)].
  - intros s e s' Hok Hn. destruct (new_entry_law s e s' Hok Hn) as (H1 & H2 & H3 & H4 & H5 & H6 & H7). unfold free_copies. by rewrite H5, H6.
  - intros s e Hok Hl. apply destroy_entry_law; done.
  - intros s it s' Hok Hn. destruct (new_iterator_law s it s' Hok Hn) as (H1 & H2 & H3 & H4 & H5 & H6). by rewrite H4, H5.
  - intros s it Hok Hl. by apply destroy_iterator_law.
  - intros s it f Hok Hl. destruct (entries_law s it f Hok Hl) as (err & s' & E & H1 & H2 & H3 & H4 & H5 & H6). exists err, s'. by rewrite H3.
  - intros s it e l Hok Hr Hl. by apply next_law.
  - intros s e a f Hok He. by apply create_law.
  - intros s e a i f Hok He. destruct (update_law s e a i f Hok He) as (s' & H). by exists s'.
  - intros s i f Hok. destruct (delete_law s i f Hok) as (s' & E & H1 & H2 & H3 & H4). exists s'. split_and!; try done.
    intros e k Hc. apply H4. by apply Nat.leb_le.
Defined.

(** ** Targets keep their meaning *)

(** The fields a target has, the others as in a new target. *)
Definition target_normal (t : Target) : Target :=
  {| t_flags := t_flags t;
     t_cluster := if has_bits (t_flags t) kCluster then t_cluster t else 0;
     t_endpoint := if has_bits (t_flags t) kEndpoint then t_endpoint t else 0;
     t_deviceType := if has_bits (t_flags t) kDeviceType then t_deviceType t else 0 |}.

Lemma valid_flags f : in_u 32 f → Z.land f (u32 (Z.lnot kAtLeastOne)) = 0 → f = Z.land f 7.
Proof.
  intros Hf H. change (u32 (Z.lnot kAtLeastOne)) with (Z.ldiff (Z.ones 32) 7) in H.
  apply Z.bits_inj'. intros n Hn. assert (Z.testbit (Z.land f (Z.ldiff (Z.ones 32) 7)) n = false) as Hb by (rewrite H; apply Z.bits_0).
  rewrite Z.land_spec, Z.ldiff_spec in Hb. rewrite Z.land_spec. destruct (Z.ltb_spec n 32) as [Hlt|Hge].
  - rewrite Z.ones_spec_low in Hb by lia. destruct (Z.testbit f n), (Z.testbit 7 n); done.
  - unfold in_u in Hf. destruct (decide (f = 0)) as [->|]; [by rewrite Z.bits_0|]. assert (Z.log2 f < 32) by (apply Z.log2_lt_pow2; lia).
    by rewrite (Z.bits_above_log2 f n) by lia.
Qed.

Lemma flag_cases f : in_u 32 f → Z.land f (u32 (Z.lnot kAtLeastOne)) = 0 → f = 0 ∨ f = 1 ∨ f = 2 ∨ f = 3 ∨ f = 4 ∨ f = 5 ∨ f = 6 ∨ f = 7.
Proof.
  intros Hf H. pose proof (valid_flags f Hf H) as E. assert (Z.land f 7 = f mod 8) as E2 by (apply (Z.land_ones f 3); lia).
  pose proof (Z.mod_pos_bound f 8 eq_refl). lia.
Qed.

Lemma land_low x : Z.land x 0xFFFF = x mod 2 ^ 16.
Proof. change 0xFFFF with (Z.ones 16). by rewrite Z.land_ones. Qed.

(** An endpoint is told apart from a device type by its low half, which is beyond
    every device type. *)
Lemma endpoint_encoding endpoint : in_u 16 endpoint →
  let d := Z.lor (u32 (Z.shiftl endpoint kEndpointShift)) kEndpointMagic in
  (d =? kDeviceTypeEmpty) = false ∧ (Z.land d kDeviceTypeIdMask =? kEndpointMagic) = true ∧ u16 (Z.shiftr d kEndpointShift) = endpoint.
Proof.
  intros He d. assert (d = endpoint * 2 ^ 16 + 0xEEEE) as ->.
  { unfold d, kEndpointShift, kEndpointMagic. rewrite Z.shiftl_mul_pow2 by lia. rewrite wrap_small by (unfold in_u in *; lia). apply lor_disjoint; lia. }
  unfold kDeviceTypeEmpty, kDeviceTypeIdMask, kEndpointMagic, kEndpointShift. rewrite land_low, Z.add_comm, Z.mod_add, Z.shiftr_div_pow2, Z.div_add by lia.
  unfold in_u in He. split_and!; [apply Z.eqb_neq; lia|done|]. rewrite (Z.div_small 0xEEEE) by lia. rewrite Z.add_0_l. by apply wrap_small.
Qed.

Lemma cluster_not_empty c : IsValidCluster c = true → (c =? kClusterEmpty) = false.
Proof. intros H. apply Z.eqb_neq. intros ->. by vm_compute in H. Qed.

Lemma device_not_endpoint d : IsValidDeviceType d = true →
  (d =? kDeviceTypeEmpty) = false ∧ (Z.land d kDeviceTypeIdMask =? kEndpointMagic) = false.
Proof.
  unfold IsValidDeviceType. intros [H _]%andb_true_iff. split; apply Z.eqb_neq; intros E.
  - subst d. by vm_compute in H.
  - rewrite E in H. by vm_compute in H.
Qed.

Ltac eval_flags :=
  repeat match goal with
  | |- context [has_bits ?a ?b] => let v := eval vm_compute in (has_bits a b) in change (has_bits a b) with v
  | H : context [has_bits ?a ?b] |- _ => let v := eval vm_compute in (has_bits a b) in change (has_bits a b) with v in H
  end; cbn iota.

(** Storing a target loses nothing: each target the storage accepts (a cluster,
    an endpoint or a device type, or a cluster on one of them) is read back with the
    same flags and the same fields under them, although endpoint and device type
    share one field, and it is never taken for an empty slot. *)
Theorem target_storage_roundtrip t old : in_u 32 (t_flags t) → in_u 16 (t_endpoint t) → target_IsValid t = true →
  target_Add t old = (CHIP_NO_ERROR, Encode t) ∧ target_Get (Encode t) new_target = inr (target_normal t).
Proof.
  intros Hf He Hv. unfold target_Add. rewrite Hv. split; [done|]. unfold target_IsValid in Hv. rewrite !andb_true_iff, Z.eqb_eq in Hv.
  destruct Hv as ((((H1 & H2) & H3) & H4) & H5). destruct (endpoint_encoding (t_endpoint t) He) as (E1 & E2 & E3). cbv zeta in *.
  destruct t as [f c e d]; cbn [t_flags t_cluster t_endpoint t_deviceType] in *.
  destruct (flag_cases f Hf H1) as [->|[->|[->|[->|[->|[->|[->| ->]]]]]]];
    eval_flags; try done; cbn [negb andb] in H4, H5; unfold target_Get, target_IsEmpty, Decode, Encode, target_normal, new_target;
    cbn [t_flags t_cluster t_endpoint t_deviceType mCluster mDeviceType update eta_target]; eval_flags;
    try (rewrite negb_involutive in H4; apply cluster_not_empty in H4 as K; rewrite ?K);
    try (rewrite negb_involutive in H5; destruct (device_not_endpoint d H5) as [K1 K2]; rewrite ?K1, ?K2);
    rewrite ?E1, ?E2, ?E3; done.
Qed.

(** ** Editing *)

(** The entry object has a storage of its own, or there is one for it. *)
Definition edit_room (s : acl_state) (e : nat) : Prop :=
  is_Some (first_unused (storage_pool s)) ∨ ∃ i k, entry_ptr s e = Some (inr (i, InPool k)).

Lemma ensure_copy_spec s e i p : store_ok s → entry_ptr s e = Some (inr (i, p)) →
  ∃ err s', EnsureStorageInPool s i = Some (err, s') ∧ store_ok s' ∧ acl s' = acl s ∧ (∀ e', store_entry s' e' = store_entry s e') ∧
    (err = CHIP_NO_ERROR → ∃ k, entry_ptr s' e = Some (inr (i, InPool k))) ∧
    (edit_room s e → err = CHIP_NO_ERROR) ∧ (err = CHIP_NO_ERROR → edit_room s e) ∧
    (err ≠ CHIP_NO_ERROR → err = CHIP_ERROR_BUFFER_TOO_SMALL).
Proof.
  intros Hok Hptr. assert (entries s !! e = Some (PoolDelegate i) ∧ ∃ d, delegate_pool s !! i = Some d ∧ mStorage d = Some p) as (He & d & Hd & Hp).
  { unfold entry_ptr in Hptr. destruct (entries s !! e) as [[|m]|]; [done| |done]. destruct (delegate_pool s !! m) as [d|] eqn:Hd; [|done].
    destruct (mStorage d) as [q|] eqn:Hq; [|done]. injection Hptr as -> ->. eauto. }
  destruct p as [k|k]; [|unfold EnsureStorageInPool; rewrite Hd, Hp; exists CHIP_NO_ERROR, s; split_and!; unfold edit_room; eauto; done].
  destruct (fix_before_spec k s i Hok (lookup_lt_Some _ _ _ Hd)) as (s' & Hf & Hok' & Hsm & Hv & Hat & _ & _ & Hno).
  unfold FixBeforeDelete in Hf. rewrite Hd, bool_decide_eq_true_2 in Hf by done.
  destruct (EnsureStorageInPool s i) as [[err s1]|] eqn:E; [|done]. injection Hf as ->. exists err, s'. split_and!; try done.
  - apply Hsm.
  - intros ->. revert E. unfold EnsureStorageInPool, EntryStorage_Find. rewrite Hd, Hp. destruct (first_unused (storage_pool s)) as [m|]; [|done].
    cbn [fmap option_fmap option_map]. destruct (load s (InAcl k)) as [v|]; [|done]. intros [= <-]. exists m. unfold entry_ptr. cbn.
    rewrite He, list_lookup_insert_eq; [done|by eapply lookup_lt_Some].
  - intros [[m Hm]|(j & n & Hpool)]; [|rewrite Hptr in Hpool; discriminate]. revert E. unfold EnsureStorageInPool, EntryStorage_Find. rewrite Hd, Hp, Hm.
    cbn [fmap option_fmap option_map]. by destruct (load s (InAcl k)); [intros [= <- _]|].
  - intros ->. left. revert E. unfold EnsureStorageInPool, EntryStorage_Find. rewrite Hd, Hp. by destruct (first_unused (storage_pool s)).
  - intros Hne. revert E. unfold EnsureStorageInPool, EntryStorage_Find. rewrite Hd, Hp. destruct (first_unused (storage_pool s)); cbn [fmap option_fmap option_map].
    + destruct (load s (InAcl k)); [|done]. by intros [= <- _].
    + by intros [= <- _].
Qed.

Lemma entry_write_private {A} (none : A) f s e a : store_ok s → store_entry s e = Some a →
  (∀ st, shaped st → mInUse (snd (f st)) = mInUse st ∧ shaped (snd (f st))) →
  ∃ err r s', entry_write s e none f = Some (err, r, s') ∧ store_ok s' ∧ store_acl s' = store_acl s ∧
    (∀ e', e' ≠ e → store_entry s' e' = store_entry s e') ∧
    (edit_room s e → ∃ st, contents st = a ∧ shaped st ∧ fst (f st) = (err, r) ∧ store_entry s' e = Some (contents (snd (f st)))) ∧
    (¬ edit_room s e → err = CHIP_ERROR_BUFFER_TOO_SMALL ∧ r = none ∧ store_entry s' e = Some a).
Proof.
  intros Hok He Hf. destruct (entry_storage s e a Hok He) as (i & p & v & Hptr & _). unfold entry_write. rewrite Hptr.
  destruct (ensure_copy_spec s e i p Hok Hptr) as (err & s1 & -> & Hok1 & Ha1 & Hv1 & Hpool & Hroom & Hgot & Herr).
  destruct (decide (err = CHIP_NO_ERROR)) as [->|Hne].
  - cbn [is_no_error negb]. destruct (Hpool eq_refl) as [k Hk]. assert (store_entry s1 e = Some a) as He1 by (by rewrite Hv1).
    destruct (entry_storage s1 e a Hok1 He1) as (i' & q & st & Hq & Hst & Hu & Hsh & Hc). rewrite Hk in Hq. injection Hq as <- <-.
    assert (∃ d, delegate_pool s1 !! i = Some d ∧ mStorage d = Some (InPool k) ∧ entries s1 !! e = Some (PoolDelegate i)) as (d & Hd & Hp & Hent).
    { unfold entry_ptr in Hk. destruct (entries s1 !! e) as [[|m]|]; [done| |done]. destruct (delegate_pool s1 !! m) as [d|] eqn:Hd; [|done].
      destruct (mStorage d) as [q|] eqn:Hq; [|done]. injection Hk as -> ->. eauto. }
    rewrite Hd, Hp, Hst. destruct (Hf st Hsh) as [Hfu Hfs]. destruct (f st) as [[err r] st'] eqn:Ef. simpl in Hfu, Hfs.
    exists err, r, (on_storage (InPool k) (fun _ => st') s1). split; [done|]. split_and!.
    + destruct Hok1 as [H1 H2 H3 H4 H5 H6 H7 H8]. split; cbn [on_storage acl storage_pool delegate_pool iterator_pool entries iterators update eta_acl_state]; try done.
      * apply Forall_alter; [done|]. done.
      * intros j d' q Hj Hq. destruct (H5 j d' q Hj Hq) as (e' & x & Hm & Hent' & Hld & Hus). destruct q as [n|n]; [by exists e', x|].
        simpl in Hld |- *. destruct (decide (n = k)) as [->|Hne].
        -- exists e', st'. rewrite list_lookup_alter_eq, Hld. split_and!; [done|done|done|congruence].
        -- exists e', x. by rewrite list_lookup_alter_ne.
    + unfold store_acl. cbn. by rewrite Ha1.
    + intros e' Hne. rewrite <- Hv1. unfold store_entry, entry_ptr. cbn [on_storage entries delegate_pool update eta_acl_state].
      destruct (entries s1 !! e') as [[|j]|] eqn:He'; [done| |done]. destruct (delegate_pool s1 !! j) as [d'|] eqn:Hj; [|done].
      destruct (mStorage d') as [[n|n]|] eqn:Hn; [done| |done]. simpl. rewrite list_lookup_alter_ne; [done|]. intros ->.
      pose proof (so_owner s1 Hok1 i j d d' n Hd Hj Hp Hn) as ->. destruct (so_entry s1 Hok1 e j Hent) as (? & ? & H1 & _ & H2).
      destruct (so_entry s1 Hok1 e' j He') as (? & ? & H3 & _ & H4). congruence.
    + intros _. exists st. rewrite Ef. split_and!; [done|done|done|]. unfold store_entry, entry_ptr. cbn [on_storage entries delegate_pool update eta_acl_state].
      rewrite Hent, Hd, Hp. simpl in Hst |- *. by rewrite list_lookup_alter_eq, Hst.
    + intros Hno. destruct Hno. by apply Hgot.
  - rewrite is_no_error_false by done. exists err, none, s1. split_and!; try done; [unfold store_acl; by rewrite Ha1|..].
    + intros Hr. destruct Hne. by apply Hroom.
    + intros _. split_and!; [by apply Herr|done|by rewrite Hv1].
Qed.

(** ** The setters *)
Section slot_lemmas.
Context {A : Type} (IsEmpty : A → bool) (empty : A) (max : nat).
Implicit Types l u v : list A.

Definition used l : list A := take (count_until IsEmpty l) l.

Lemma used_split l : in_front IsEmpty l → ∃ v, l = used l ++ v ∧ Forall (fun x => IsEmpty x = false) (used l) ∧ Forall (fun x => IsEmpty x = true) v.
Proof.
  intros Hf. exists (drop (count_until IsEmpty l) l). split_and!; [symmetry; apply take_drop| |done].
  apply Forall_lookup. intros i x Hx. unfold used in Hx. apply lookup_take_Some in Hx as [Hx Hi]. by eapply count_until_lookup.
Qed.

Lemma count_app u v : Forall (fun x => IsEmpty x = false) u → Forall (fun x => IsEmpty x = true) v → count_until IsEmpty (u ++ v) = length u.
Proof. intros Hu Hv. induction Hu as [|x u Hx _ IH]; cbn; [by destruct Hv as [|x v Hx]; cbn; rewrite ?Hx|by rewrite Hx, IH]. Qed.

Lemma used_app u v : Forall (fun x => IsEmpty x = false) u → Forall (fun x => IsEmpty x = true) v →
  used (u ++ v) = u ∧ in_front IsEmpty (u ++ v).
Proof.
  intros Hu Hv. unfold used, in_front. rewrite count_app by done. by rewrite take_app_length, drop_app_length.
Qed.

(** What a result leaves: as many slots, the used ones in front *)
Definition slots_are l u : Prop := length l = max ∧ in_front IsEmpty l ∧ used l = u.
Lemma slots_are_app u v : (length u + length v)%nat = max → Forall (fun x => IsEmpty x = false) u → Forall (fun x => IsEmpty x = true) v → slots_are (u ++ v) u.
Proof. intros Hl Hu Hv. destruct (used_app u v Hu Hv) as [E Hf]. split_and!; [by rewrite length_app|done|done]. Qed.

Lemma set_slot_spec l i x (valid : bool) set : length l = max → in_front IsEmpty l → (valid = true → IsEmpty x = false) →
  (∀ y, set y = if IsEmpty y then (CHIP_ERROR_SENTINEL, y) else if valid then (CHIP_NO_ERROR, x) else (CHIP_ERROR_INVALID_ARGUMENT, y)) →
  ∃ l', set_slot max i set l =
      (if (i <? length (used l))%nat then if valid then CHIP_NO_ERROR else CHIP_ERROR_INVALID_ARGUMENT else CHIP_ERROR_SENTINEL, l')
    ∧ slots_are l' (if (i <? length (used l))%nat && valid then <[i := x]> (used l) else used l).
Proof.
  intros Hl Hf Hv Hset. destruct (used_split l Hf) as (v & El & Hu & Hve). set (u := used l) in *. clearbody u. subst l. rewrite length_app in Hl.
  unfold set_slot. destruct (Nat.ltb_spec i (length u)) as [Hi|Hi]; cbn [andb].
  - rewrite (proj2 (Nat.ltb_lt i max)) by lia. destruct (lookup_lt_is_Some_2 u i Hi) as [y Hy]. rewrite lookup_app_l, Hy by done.
    rewrite Hset. assert (IsEmpty y = false) as -> by (by eapply Forall_lookup_1 in Hu). destruct valid.
    + eexists. split; [done|]. rewrite insert_app_l by done. apply slots_are_app; [by rewrite length_insert|apply Forall_insert; auto|done].
    + eexists. split; [done|]. rewrite list_insert_id by (by rewrite lookup_app_l). by apply slots_are_app.
  - destruct (Nat.ltb_spec i max) as [Hm|Hm]; [|eexists; split; [done|by apply slots_are_app]].
    destruct (lookup_lt_is_Some_2 (u ++ v) i) as [y Hy]; [rewrite length_app; lia|]. rewrite Hy, Hset. rewrite lookup_app_r in Hy by done.
    assert (IsEmpty y = true) as -> by (by eapply Forall_lookup_1 in Hve). eexists. split; [done|].
    rewrite list_insert_id by (by rewrite lookup_app_r). by apply slots_are_app.
Qed.

Lemma add_slot_spec l x (valid : bool) add : length l = max → in_front IsEmpty l → (valid = true → IsEmpty x = false) →
  (∀ y, add y = if valid then (CHIP_NO_ERROR, x) else (CHIP_ERROR_INVALID_ARGUMENT, y)) →
  let room := (length (used l) <? max)%nat in
  ∃ l', add_slot IsEmpty max add l =
      (if room then if valid then CHIP_NO_ERROR else CHIP_ERROR_INVALID_ARGUMENT else CHIP_ERROR_BUFFER_TOO_SMALL,
       if room && valid then Some (length (used l)) else None, l')
    ∧ slots_are l' (if room && valid then used l ++ [x] else used l).
Proof.
  intros Hl Hf Hv Hadd. destruct (used_split l Hf) as (v & El & Hu & Hve). set (u := used l) in *. clearbody u. subst l. rewrite length_app in Hl.
  cbv zeta. unfold add_slot. rewrite count_app by done. destruct (Nat.ltb_spec (length u) max) as [Hm|Hm]; cbn [andb].
  - destruct v as [|y v]; [cbn in Hl; lia|]. rewrite list_lookup_middle by done. rewrite Hadd. cbn [length] in Hl. destruct valid.
    + eexists. split; [done|]. rewrite insert_app_r_alt, Nat.sub_diag by done. cbn.
      replace (u ++ x :: v) with ((u ++ [x]) ++ v) by (by rewrite <- app_assoc).
      inv Hve. apply slots_are_app; [rewrite length_app; cbn; lia|apply Forall_app_2; auto|done].
    + eexists. split; [done|]. rewrite list_insert_id by (by apply list_lookup_middle). apply slots_are_app; [cbn; lia|done|done].
  - eexists. split; [done|]. by apply slots_are_app.
Qed.

Lemma remove_slot_spec l i : length l = max → in_front IsEmpty l → IsEmpty empty = true →
  ∃ l', remove_slot IsEmpty empty max i l = (if (i <? length (used l))%nat then CHIP_NO_ERROR else CHIP_ERROR_SENTINEL, l')
    ∧ slots_are l' (if (i <? length (used l))%nat then delete i (used l) else used l).
Proof.
  intros Hl Hf He. destruct (used_split l Hf) as (v & El & Hu & Hve). set (u := used l) in *. clearbody u. subst l. rewrite length_app in Hl.
  unfold remove_slot. rewrite count_app by done. destruct (Nat.ltb_spec i (length u)) as [Hi|Hi]; [|eexists; split; [done|by apply slots_are_app]].
  assert (Forall (fun x => IsEmpty x = false) (delete i u)) as Hdel by (by apply Forall_delete).
  assert (length (delete i u) = length u - 1)%nat as Hdl by (apply length_delete; by apply lookup_lt_is_Some_2).
  assert (take i (u ++ v) = take i u) as E1 by (by rewrite take_app_le by lia).
  assert (drop (S i) (u ++ v) = drop (S i) u ++ v) as E2 by (by rewrite drop_app_le by lia).
  assert (length (drop (S i) u) = length u - S i)%nat as E3 by apply length_drop.
  eexists. split; [done|]. rewrite E1, E2. destruct (Nat.eqb_spec (length u) max) as [Hm|Hm].
  - assert (v = []) as -> by (apply length_zero_iff_nil; lia). rewrite !app_nil_r, Nat.min_r by lia. rewrite (take_ge (drop (S i) u)) by lia.
    replace (i + (max - 1 - i))%nat with (max - 1)%nat by lia. destruct (lookup_lt_is_Some_2 u (max - 1)) as [y Hy]; [lia|].
    rewrite (drop_S u y (max - 1)) by done. rewrite (drop_ge u (S (max - 1))) by lia. rewrite app_assoc, <- delete_take_drop.
    rewrite insert_app_r_alt by lia. rewrite Hdl, Hm, Nat.sub_diag. cbn. apply slots_are_app; [cbn; lia|done|by constructor].
  - rewrite Nat.min_l by lia. destruct v as [|y v]; [cbn in Hl; lia|]. cbn [length] in Hl. rewrite take_app, (take_ge (drop (S i) u)) by lia. rewrite E3.
    replace (length u - i - (length u - S i))%nat with 1%nat by lia. replace (i + (length u - i))%nat with (length u) by lia. rewrite drop_app_length.
    change (take 1 (y :: v)) with [y]. rewrite !app_assoc, <- delete_take_drop, <- !app_assoc. cbn [app]. inversion Hve; subst. apply slots_are_app; [rewrite Hdl; cbn [length]; lia|done|by repeat constructor].
Qed.
End slot_lemmas.

(** What the caller asks of an entry object *)
Inductive edit :=
| ESetAuthMode (authMode : AuthMode) | ESetFabricIndex (fabricIndex : Z) | ESetPrivilege (privilege : Privilege)
| ESetSubject (index : nat) (subject : Z) | EAddSubject (subject : Z) | ERemoveSubject (index : nat)
| ESetTarget (index : nat) (target : Target) | EAddTarget (target : Target) | ERemoveTarget (index : nat).

(** ... of the setters; those with no index to give back give none. *)
Definition no_index (r : option (CHIP_ERROR * unit * acl_state)) : option (CHIP_ERROR * option nat * acl_state) :=
  let! (err, _, s) := r in Some (err, None, s).
Definition run_edit (s : acl_state) (e : nat) (d : edit) : option (CHIP_ERROR * option nat * acl_state) :=
  match d with
  | ESetAuthMode m => no_index (SetAuthMode s e m)
  | ESetFabricIndex f => no_index (SetFabricIndex s e f)
  | ESetPrivilege p => no_index (SetPrivilege s e p)
  | ESetSubject i x => no_index (SetSubject s e i x)
  | EAddSubject x => AddSubject s e x
  | ERemoveSubject i => no_index (RemoveSubject s e i)
  | ESetTarget i t => no_index (SetTarget s e i t)
  | EAddTarget t => AddTarget s e t
  | ERemoveTarget i => no_index (RemoveTarget s e i)
  end.

(** ... and what it means for what the entry says: the error, the index given back, the
    entry after it.  The lists hold at most four subjects and three targets. *)
Definition edited_list {A} (d : edit) (max : nat) (l : list A) (valid : bool) (x : A) : CHIP_ERROR * option nat * list A :=
  match d with
  | ESetSubject i _ | ESetTarget i _ =>
      if (length l <=? i)%nat then (CHIP_ERROR_SENTINEL, None, l)
      else if valid then (CHIP_NO_ERROR, None, <[i := x]> l) else (CHIP_ERROR_INVALID_ARGUMENT, None, l)
  | EAddSubject _ | EAddTarget _ =>
      if (max <=? length l)%nat then (CHIP_ERROR_BUFFER_TOO_SMALL, None, l)
      else if valid then (CHIP_NO_ERROR, Some (length l), l ++ [x]) else (CHIP_ERROR_INVALID_ARGUMENT, None, l)
  | ERemoveSubject i | ERemoveTarget i =>
      if (length l <=? i)%nat then (CHIP_ERROR_SENTINEL, None, l) else (CHIP_NO_ERROR, None, delete i l)
  | _ => (CHIP_NO_ERROR, None, l)
  end.
#[export] Instance eta_ace : Eta ace := fun a =>
  {| ace_fabric := ace_fabric a; ace_auth := ace_auth a; ace_privilege := ace_privilege a; ace_subjects := ace_subjects a; ace_targets := ace_targets a |}.
Definition edited (d : edit) (a : ace) : CHIP_ERROR * option nat * ace :=
  let subjects x := let '(err, i, l) := edited_list d 4 (ace_subjects a) (negb (x =? 0)) x in (err, i, a <| ace_subjects := l |>) in
  let targets t := let '(err, i, l) := edited_list d 3 (ace_targets a) (target_IsValid t) (target_normal t) in (err, i, a <| ace_targets := l |>) in
  match d with
  | ESetAuthMode m => (CHIP_NO_ERROR, None, a <| ace_auth := m |>)
  | ESetFabricIndex f => (CHIP_NO_ERROR, None, a <| ace_fabric := f |>)
  | ESetPrivilege p => (CHIP_NO_ERROR, None, a <| ace_privilege := p |>)
  | ESetSubject _ x | EAddSubject x => subjects x
  | ERemoveSubject _ => subjects 0
  | ESetTarget _ t | EAddTarget t => targets t
  | ERemoveTarget _ => targets new_target
  end.
(** Targets have 32-bit flags and a 16-bit endpoint. *)
Definition edit_ok (d : edit) : Prop :=
  match d with ESetTarget _ t | EAddTarget t => in_u 32 (t_flags t) ∧ in_u 16 (t_endpoint t) | _ => True end.

(** An edit as the change of a storage that a setter makes *)
Definition storage_edit (d : edit) (st : EntryStorage) : CHIP_ERROR * option nat * EntryStorage :=
  match d with
  | ESetAuthMode m => (CHIP_NO_ERROR, None, st <| mAuthMode := m |>)
  | ESetFabricIndex f => (CHIP_NO_ERROR, None, st <| mFabricIndex := f |>)
  | ESetPrivilege p => (CHIP_NO_ERROR, None, st <| mPrivilege := p |>)
  | ESetSubject i x => let (err, l) := set_slot kMaxSubjects i (subject_Set x) (mSubjects st) in (err, None, st <| mSubjects := l |>)
  | EAddSubject x => let '(err, i, l) := add_slot subject_IsEmpty kMaxSubjects (subject_Add x) (mSubjects st) in (err, i, st <| mSubjects := l |>)
  | ERemoveSubject i => let (err, l) := remove_slot subject_IsEmpty kUndefinedNodeId kMaxSubjects i (mSubjects st) in (err, None, st <| mSubjects := l |>)
  | ESetTarget i t => let (err, l) := set_slot kMaxTargets i (target_Set t) (mTargets st) in (err, None, st <| mTargets := l |>)
  | EAddTarget t => let '(err, i, l) := add_slot target_IsEmpty kMaxTargets (target_Add t) (mTargets st) in (err, i, st <| mTargets := l |>)
  | ERemoveTarget i => let (err, l) := remove_slot target_IsEmpty empty_target kMaxTargets i (mTargets st) in (err, None, st <| mTargets := l |>)
  end.

Lemma no_index_write s e (f : EntryStorage → CHIP_ERROR * unit * EntryStorage) (g : EntryStorage → CHIP_ERROR * option nat * EntryStorage) :
  (∀ st, g st = (fst (fst (f st)), None, snd (f st))) → no_index (entry_write s e () f) = entry_write s e None g.
Proof.
  intros Hg. unfold no_index, entry_write. destruct (entry_ptr s e) as [[?|[i p]]|]; [done| |done].
  destruct (EnsureStorageInPool s i) as [[err s1]|]; [|done]. destruct (negb (is_no_error err)); [done|].
  destruct (delegate_pool s1 !! i) as [d|]; [|done]. destruct (mStorage d) as [q|]; [|done]. destruct (load s1 q) as [st|]; [|done].
  rewrite Hg. by destruct (f st) as [[? ?] ?].
Qed.

Lemma run_edit_write s e d : run_edit s e d = entry_write s e None (storage_edit d).
Proof.
  destruct d; cbn [run_edit]; try done; apply no_index_write; intros st; cbn [storage_edit fst snd]; try done;
    match goal with |- context [let (_, _) := ?x in _] => by destruct x end.
Qed.

Lemma subjects_after st l u : shaped st → slots_are subject_IsEmpty kMaxSubjects l u →
  shaped (st <| mSubjects := l |>) ∧ contents (st <| mSubjects := l |>) = (contents st) <| ace_subjects := u |>.
Proof. intros (? & ? & ? & ?) (? & ? & <-). split; [by split_and!|done]. Qed.
Lemma targets_after st l u : shaped st → slots_are target_IsEmpty kMaxTargets l u →
  shaped (st <| mTargets := l |>) ∧ contents (st <| mTargets := l |>) = (contents st) <| ace_targets := (fun t => Decode t new_target) <$> u |>.
Proof. intros (? & ? & ? & ?) (? & ? & <-). split; [by split_and!|done]. Qed.

Lemma encode_stored t : in_u 32 (t_flags t) → in_u 16 (t_endpoint t) → target_IsValid t = true →
  target_IsEmpty (Encode t) = false ∧ Decode (Encode t) new_target = target_normal t.
Proof.
  intros Hf He Hv. destruct (target_storage_roundtrip t empty_target Hf He Hv) as [_ H]. unfold target_Get in H.
  destruct (target_IsEmpty (Encode t)); [done|]. by injection H.
Qed.

(** A setter changes a storage as the edit says. *)
Lemma storage_edit_spec d st : edit_ok d → shaped st →
  let '(err, i, st') := storage_edit d st in
  mInUse st' = mInUse st ∧ shaped st' ∧ (err, i, contents st') = edited d (contents st).
Proof.
  intros Hok Hsh. pose proof Hsh as (Hls & Hlt & Hfs & Hft).
  assert (ace_subjects (contents st) = used subject_IsEmpty (mSubjects st)) as Es by done.
  assert (ace_targets (contents st) = (fun t => Decode t new_target) <$> used target_IsEmpty (mTargets st)) as Et by done.
  destruct d as [m|f|p|i x|x|i|i t|t|i]; cbn [storage_edit]; try done;
    unfold edited; cbv zeta; cbn [edited_list]; rewrite ?Es, ?Et, ?length_fmap, Nat.leb_antisym.
  - destruct (set_slot_spec subject_IsEmpty kMaxSubjects (mSubjects st) i x (negb (x =? 0)) (subject_Set x)) as (l & -> & Hu); try done.
    { intros H. by apply negb_true_iff in H. }
    { intros y. unfold subject_Set, subject_IsValid, kUndefinedNodeId. by destruct (subject_IsEmpty y), (x =? 0). }
    destruct (subjects_after st l _ Hsh Hu) as [Hsh' ->]. destruct (_ <? _)%nat, (x =? 0); cbn [negb andb]; split_and!; done.
  - destruct (add_slot_spec subject_IsEmpty kMaxSubjects (mSubjects st) x (negb (x =? 0)) (subject_Add x)) as (l & -> & Hu); try done.
    { intros H. by apply negb_true_iff in H. }
    destruct (subjects_after st l _ Hsh Hu) as [Hsh' ->]. change kMaxSubjects with 4%nat. destruct (_ <? _)%nat, (x =? 0); cbn [negb andb]; split_and!; done.
  - destruct (remove_slot_spec subject_IsEmpty kUndefinedNodeId kMaxSubjects (mSubjects st) i) as (l & -> & Hu); try done.
    destruct (subjects_after st l _ Hsh Hu) as [Hsh' ->]. destruct (_ <? _)%nat; cbn [negb]; split_and!; done.
  - destruct Hok as [H1 H2].
    destruct (set_slot_spec target_IsEmpty kMaxTargets (mTargets st) i (Encode t) (target_IsValid t) (target_Set t)) as (l & -> & Hu); try done.
    { intros H. by apply encode_stored. }
    { intros y. unfold target_Set. by destruct (target_IsEmpty y). }
    destruct (targets_after st l _ Hsh Hu) as [Hsh' ->]. destruct (_ <? _)%nat; cbn [negb andb]; [|by split_and!].
    destruct (target_IsValid t) eqn:Hv; cbn [negb andb]; [|by split_and!]. destruct (encode_stored t H1 H2 Hv) as [_ <-].
    rewrite list_fmap_insert. by split_and!.
  - destruct Hok as [H1 H2].
    destruct (add_slot_spec target_IsEmpty kMaxTargets (mTargets st) (Encode t) (target_IsValid t) (target_Add t)) as (l & -> & Hu); try done.
    { intros H. by apply encode_stored. }
    destruct (targets_after st l _ Hsh Hu) as [Hsh' ->]. change kMaxTargets with 3%nat. destruct (_ <? _)%nat; cbn [negb andb]; [|by split_and!].
    destruct (target_IsValid t) eqn:Hv; cbn [negb andb]; [|by split_and!]. destruct (encode_stored t H1 H2 Hv) as [_ <-].
    rewrite fmap_app. by split_and!.
  - destruct (remove_slot_spec target_IsEmpty empty_target kMaxTargets (mTargets st) i) as (l & -> & Hu); try done.
    destruct (targets_after st l _ Hsh Hu) as [Hsh' ->]. destruct (_ <? _)%nat; cbn [negb]; [|by split_and!].
    rewrite list_fmap_delete. by split_and!.
Qed.

(** C37: Editing an entry object edits a copy.  Whichever of the nine setters runs on an
    object that reads [a], the list and what every other object reads are unchanged.
    When the object has a storage of its own or the pool has one for it, the setter
    returns the error and the index, and leaves the object reading the entry, that the
    edit of [a] gives ([edited], written on the lists of subjects and targets: an index
    past the end, a full list and an invalid value are refused and change nothing; a
    target is kept with the fields its flags name).  When there is none, it returns
    [CHIP_ERROR_BUFFER_TOO_SMALL] and the object reads [a] as before. *)
Theorem editing_is_private s e a d : store_ok s → store_entry s e = Some a → edit_ok d →
  ∃ err i s', run_edit s e d = Some (err, i, s') ∧ store_ok s' ∧ store_acl s' = store_acl s ∧
    (∀ e', e' ≠ e → store_entry s' e' = store_entry s e') ∧
    (edit_room s e → ∃ a', edited d a = (err, i, a') ∧ store_entry s' e = Some a') ∧
    (¬ edit_room s e → err = CHIP_ERROR_BUFFER_TOO_SMALL ∧ i = None ∧ store_entry s' e = Some a).
Proof.
  intros Hok He Hd. rewrite run_edit_write.
  destruct (entry_write_private None (storage_edit d) s e a Hok He) as (err & i & s' & E & Hok' & Ha & Hoth & Hroom & Hno).
  { intros st Hst. pose proof (storage_edit_spec d st Hd Hst) as H. destruct (storage_edit d st) as [[? ?] st']. naive_solver. }
  exists err, i, s'. split_and!; try done. intros Hr. destruct (Hroom Hr) as (st & <- & Hst & Hf & Hs).
  pose proof (storage_edit_spec d st Hd Hst) as H. destruct (storage_edit d st) as [[x y] st']. cbn [fst snd] in Hf, Hs. injection Hf as -> ->.
  destruct H as (_ & _ & H). exists (contents st'). by split.
Qed.

(** ** A list in use *)
Module AclDemo.
Definition unused_delegate : EntryDelegate := {| mEntry := None; mStorage := None |}.
Definition unused_iterator : EntryIteratorDelegate :=
  {| it_mInUse := false; mFabricFiltered := false; it_mFabricIndex := 0; it_mStorage := None |}.
Definition booted : acl_state :=
  {| acl := replicate (kNumberOfFabrics * kEntriesPerFabric) cleared; storage_pool := replicate kEntryStoragePoolSize cleared;
     delegate_pool := replicate kEntryDelegatePoolSize unused_delegate; iterator_pool := replicate kEntryIteratorDelegatePoolSize unused_iterator;
     entries := ∅; iterators := ∅ |}.

(** A new entry, as the caller fills it in and stores it. *)
Definition store_entry_of (fabric : Z) (mode : AuthMode) (privilege : Privilege) (subject : Z) (target : Target) (s : acl_state) : option acl_state :=
  let (e, s) := new_entry s in
  let! (_, s) := PrepareEntry s e in
  let! (_, _, s) := SetFabricIndex s e fabric in
  let! (_, _, s) := SetAuthMode s e mode in
  let! (_, _, s) := SetPrivilege s e privilege in
  let! (_, _, s) := AddSubject s e subject in
  let! (_, _, s) := AddTarget s e target in
  let! (_, _, _, s) := CreateEntry s e (Some fabric) in
  destroy_entry s e.

Definition whole_endpoint (ep : Z) : Target := {| t_flags := kEndpoint; t_cluster := 0; t_endpoint := ep; t_deviceType := 0 |}.
Definition filled : option acl_state :=
  let! s := store_entry_of 1 AuthMode_kCase Privilege_kAdminister 0x1111 (whole_endpoint 0) booted in
  let! s := store_entry_of 1 AuthMode_kGroup Privilege_kOperate 0xFFFFFFFFFFFF0101 (whole_endpoint 1) s in
  store_entry_of 2 AuthMode_kCase Privilege_kManage 0xFFFFFFFDABCD0001 (whole_endpoint 1) s.
Definition demo : acl_state := Eval vm_compute in match filled with Some s => s | None => booted end.
Definition demo_control : access_control acl_state :=
  {| mInitialized := true; mDelegate := demo; mEntryListener := [7%nat]; ac_log := [] |}.
Definition no_types (_ _ : Z) : bool := false.

Lemma demo_ok : store_ok demo.
Proof.
  split; [done|repeat constructor..| | | |].
  - intros [|i] d p Hd Hp; [injection Hd as <-; done|done].
  - intros e i He. by vm_compute in He.
  - intros [|i] j d d' k Hd _ Hp; [injection Hd as <-; done|done].
  - intros it i Hi. by vm_compute in Hi.
Qed.

Lemma all_valid l : forallb ace_valid l = true → Forall (fun a => ace_valid a = true) l.
Proof. rewrite forallb_forall, Forall_forall. intros H a Ha. by apply H, list_elem_of_In. Qed.

Lemma demo_control_ok : control_ok demo_control.
Proof. split; [done|split; [exact demo_ok|]]. apply all_valid. by vm_compute. Qed.

Definition operator : SubjectDescriptor :=
  {| sd_fabricIndex := 2; sd_authMode := AuthMode_kCase; sd_subject := 0x2222; sd_cats := [0xABCD0002; 0; 0] |}.
Definition at_endpoint (ep : Z) : RequestPath := {| rp_cluster := 6; rp_endpoint := ep |}.

(** The tag of the entry admits the operator to its endpoint, for what the
    privilege covers. *)
Lemma access_check_correct_witness :
  (let! (e, _) := access_Check no_types 25 demo_control operator (at_endpoint 1) Privilege_kOperate in Some e) = Some CHIP_NO_ERROR ∧
  (let! (e, _) := access_Check no_types 25 demo_control operator (at_endpoint 2) Privilege_kOperate in Some e) = Some CHIP_ERROR_ACCESS_DENIED ∧
  (let! (e, _) := access_Check no_types 25 demo_control operator (at_endpoint 1) Privilege_kAdminister in Some e) = Some CHIP_ERROR_ACCESS_DENIED ∧
  ∃ err s', access_Check no_types 25 demo_control operator (at_endpoint 1) Privilege_kOperate = Some (err, s') ∧
    (has_room (mDelegate demo_control) → err = CHIP_NO_ERROR).
Proof.
  split; [by vm_compute|]. split; [by vm_compute|]. split; [by vm_compute|].
  destruct (access_check_correct no_types demo_control operator (at_endpoint 1) Privilege_kOperate 25 demo_control_ok)
    as (err & s' & H & _ & _ & _ & Hr & _); [vm_compute; lia|].
  exists err, s'. split; [exact H|]. intros Hroom. rewrite (Hr Hroom). by vm_compute.
Defined.

Lemma fabric_removal_revokes_witness :
  ∃ s', DeleteAllEntriesForFabric demo_control 1 = Some (CHIP_NO_ERROR, s') ∧
    allowed no_types (ad_acl (mDelegate s')) operator (at_endpoint 1) Privilege_kManage = true.
Proof.
  destruct (fabric_removal_revokes no_types demo_control 1 25 demo_control_ok) as (s' & H & _ & _ & Ha); [vm_compute; lia|].
  exists s'. split; [exact H|]. rewrite Ha; [by vm_compute|by vm_compute].
Defined.

(** An entry object that refers to the second entry. *)
Definition reading : access_control acl_state :=
  Eval vm_compute in
  match (let (e, s) := new_entry demo in ReadEntry s 1 e (Some 1)) with
  | Some (_, s) => demo_control <| mDelegate := s |>
  | None => demo_control
  end.

Lemma reading_ok : control_ok reading.
Proof.
  split; [done|split; [|apply all_valid; by vm_compute]]. split; [done|repeat constructor..| | | |].
  - intros [|i] d p Hd Hp; [|done]. injection Hd as <-. injection Hp as <-. exists 0%nat. eexists. split_and!; [done|done|done|done].
  - intros e i He. change (entries (mDelegate reading)) with ({[ 0%nat := PoolDelegate 0 ]} : gmap nat delegate_ref) in He.
    apply lookup_singleton_Some in He as [<- [= <-]]. eexists _, _. split_and!; [done|done|done].
  - intros [|i] j d d' k Hd _ Hp; [injection Hd as <-; done|done].
  - intros it i Hi. by vm_compute in Hi.
Qed.

Lemma acl_operations_refine_witness :
  ad_entry (mDelegate reading) 0 = ad_acl (mDelegate reading) !! 1%nat ∧
  ∃ s', access_UpdateEntry reading None 2 0 0 = Some (CHIP_NO_ERROR, s') ∧
    ad_acl (mDelegate s') !! 2%nat = ad_acl (mDelegate reading) !! 1%nat.
Proof.
  split; [by vm_compute|]. assert (ad_entry_live (mDelegate reading) 0) as Hl by (eexists; reflexivity).
  destruct (acl_operations_refine reading None 2 0 0 reading_ok Hl) as (_ & (s' & H & _ & Ha & _) & _).
  exists s'. split; [exact H|]. rewrite Ha. by vm_compute.
Defined.

Lemma target_storage_roundtrip_witness :
  target_Get (Encode {| t_flags := 3; t_cluster := 6; t_endpoint := 0xFFFF; t_deviceType := 9 |}) new_target =
    inr {| t_flags := 3; t_cluster := 6; t_endpoint := 0xFFFF; t_deviceType := 0 |}.
Proof.
  apply (target_storage_roundtrip {| t_flags := 3; t_cluster := 6; t_endpoint := 0xFFFF; t_deviceType := 9 |} empty_target);
    [unfold in_u; simpl; lia|unfold in_u; simpl; lia|by vm_compute].
Defined.

(** The object that refers to the second entry of the list, whose group may operate
    endpoint 1, gets a second target: the list does not. *)
Lemma editing_is_private_witness :
  ∃ s', AddTarget (mDelegate reading) 0 (whole_endpoint 2) = Some (CHIP_NO_ERROR, Some 1%nat, s') ∧ store_acl s' = store_acl (mDelegate reading) ∧
    ace_targets <$> store_entry s' 0 = Some [whole_endpoint 1; whole_endpoint 2].
Proof.
  assert (∃ a, store_entry (mDelegate reading) 0 = Some a) as [a Ha] by (eexists; reflexivity).
  destruct (editing_is_private (mDelegate reading) 0 a (EAddTarget (whole_endpoint 2)) (proj1 (proj2 reading_ok)) Ha)
    as (err & i & s' & H & _ & Hl & _ & Hst & _); [by split; apply (bool_decide_unpack _); vm_compute|].
  destruct Hst as (a' & E & Hs); [left; eexists; reflexivity|].
  assert (edited (EAddTarget (whole_endpoint 2)) a = (CHIP_NO_ERROR, Some 1%nat, a <| ace_targets := [whole_endpoint 1; whole_endpoint 2] |>)) as E'.
  { assert (store_entry (mDelegate reading) 0 = Some (default {| ace_fabric := 0; ace_auth := AuthMode_kPase; ace_privilege := Privilege_kView;
      ace_subjects := []; ace_targets := [] |} (store_entry (mDelegate reading) 0))) as Hd by (vm_compute; reflexivity).
    rewrite Ha in Hd at 1. injection Hd as ->. vm_compute. reflexivity. }
  rewrite E' in E. injection E as <- <- <-. exists s'. split; [exact H|]. split; [exact Hl|]. rewrite Hs. reflexivity.
Defined.

(** [DeleteEntry] fixes the objects that refer to the list after the wrong
    entry when the index it is given is relative to a fabric: it takes the relative
    index for the absolute one.  Here an object refers to the second entry, of
    fabric 1; the third entry, the first of fabric 2, is deleted; the object then
    reads the first entry, an administrator's, though the second is still in its
    place. *)
Theorem relative_delete_misdirects :
  ∃ s', ad_DeleteEntry (mDelegate reading) 0 (Some 2) = Some (CHIP_NO_ERROR, s') ∧
    ad_entry (mDelegate reading) 0 = ad_acl (mDelegate reading) !! 1%nat ∧
    ad_acl s' !! 1%nat = ad_acl (mDelegate reading) !! 1%nat ∧
    ad_entry s' 0 = ad_acl s' !! 0%nat ∧ ad_acl s' !! 0%nat ≠ ad_acl s' !! 1%nat.
Proof.
  destruct (ad_DeleteEntry (mDelegate reading) 0 (Some 2)) as [[err s']|] eqn:E; [|by vm_compute in E].
  vm_compute in E. injection E as <- <-. eexists. split; [reflexivity|]. by vm_compute.
Qed.
End AclDemo.
