(* ===== verification/TimeUtils.v ===== *)
(** * TimeUtils: dates and times

    [src/src/lib/support/TimeUtils.cpp].  Out-parameters are results; where a
    conversion fails and leaves them alone, the result is [None].  The years are
    16 bits wide, months and days of the month 8, counts of days and of seconds 32,
    and the products are taken in 32 bits as in the source. *)
From S2P Require Import Prelude.

Definition kYearsPerCentury : Z := 100.
Definition kLeapYearInterval : Z := 4.
Definition kDaysPerWeek : Z := 7.
Definition kDaysPerStandardYear : Z := 365.
Definition kSecondsPerMinute : Z := 60.
Definition kSecondsPerHour : Z := 3600.
Definition kSecondsPerDay : Z := 86400.
Definition kFebruary : Z := 2.
Definition kUnixEpochYear : Z := 1970.
Definition kMaxYearInSecondsSinceUnixEpoch32 : Z := 2105.
Definition kMaxYearInDaysSinceUnixEpoch32 : Z := 28276.
Definition kChipEpochBaseYear : Z := 2000.
Definition kChipEpochMaxYear : Z := 2135.
Definition kChipEpochDaysSinceUnixEpoch : Z := 10957.
Definition kChipEpochSecondsSinceUnixEpoch : Z := kChipEpochDaysSinceUnixEpoch * kSecondsPerDay.
Definition kDaysFromMarch1ToDecember31 : Z := 306.
Definition kYearsPerCycle : Z := 400.
Definition kDaysPerCycle : Z := 146097.
Definition kEpochOffsetDays : Z := 719468.
Definition UINT32_MAX : Z := 0xFFFFFFFF.
Definition UINT16_MAX : Z := 0xFFFF.

Record CalendarDate := { year : Z; month : Z; dayOfMonth : Z }.
Record TimeOfDay := { hour : Z; minute : Z; second : Z }.

Definition IsLeapYear (year : Z) : bool :=
  (year mod kLeapYearInterval =? 0) && (negb (year mod kYearsPerCentury =? 0) || (year mod kYearsPerCycle =? 0)).
Definition DaysToMarch1 (year : Z) : Z := if IsLeapYear year then 60 else 59.
Definition MarchBasedMonthToDayOfYear (month : Z) : Z := u16 ((153 * month + 2) / 5).
Definition MarchBasedDayOfYearToMonth (dayOfYear : Z) : Z := u8 ((5 * dayOfYear + 2) / 153).

Definition DaysInMonth (year month : Z) : Z :=
  if (month =? kFebruary) && IsLeapYear year then 29
  else if (1 <=? month) && (month <=? 12)
  then nth (Z.to_nat (month - 1)) [31; 28; 31; 30; 31; 30; 31; 31; 30; 31; 30; 31] 0
  else 0.

(** [year - 1] is an [int]: the remainders of a negative number are negative. *)
Definition FirstWeekdayOfYear (year : Z) : Z :=
  u8 (Z.rem (1 + 5 * Z.rem (year - 1) kLeapYearInterval + 4 * Z.rem (year - 1) kYearsPerCentury + 6 * Z.rem (year - 1) kYearsPerCycle)
            kDaysPerWeek).

(** The month and the day of the month. *)
Definition OrdinalDateToCalendarDate (year dayOfYear : Z) : Z * Z :=
  let daysToMarch1 := DaysToMarch1 year in
  let dayOfYear := u16 (dayOfYear - 1) in
  let dayOfYear := if dayOfYear <? daysToMarch1 then u16 (dayOfYear + kDaysFromMarch1ToDecember31) else u16 (dayOfYear - daysToMarch1) in
  let month := MarchBasedDayOfYearToMonth dayOfYear in
  let daysFromMarch1ToStartOfMonth := MarchBasedMonthToDayOfYear month in
  let dayOfMonth := u8 (dayOfYear - daysFromMarch1ToStartOfMonth + 1) in
  (u8 (month + if month <? 10 then 3 else -9), dayOfMonth).
Definition CalendarDateToOrdinalDate (year month dayOfMonth : Z) : Z :=
  let month := u8 (month + if kFebruary <? month then -3 else 9) in
  let dayOfYear := MarchBasedMonthToDayOfYear month in
  let dayOfYear := if dayOfYear <? kDaysFromMarch1ToDecember31 then u16 (dayOfYear + DaysToMarch1 year)
                   else u16 (dayOfYear - kDaysFromMarch1ToDecember31) in
  u16 (dayOfYear + dayOfMonth).

Definition CalendarDateToDaysSinceUnixEpoch (d : CalendarDate) : bool * Z :=
  if (year d <? kUnixEpochYear) || (kMaxYearInDaysSinceUnixEpoch32 <? year d) then (false, UINT32_MAX)
  else
    let (year, month) := if month d <=? kFebruary then (u16 (year d - 1), u8 (month d + 9)) else (year d, u8 (month d - 3)) in
    let dayOfYear := u16 (MarchBasedMonthToDayOfYear month + (dayOfMonth d - 1)) in
    let cycle := u16 (year / kYearsPerCycle) in
    let yearOfCycle := u32 (year - cycle * kYearsPerCycle) in
    let dayOfCycle := u32 (yearOfCycle * kDaysPerStandardYear + dayOfYear - yearOfCycle / kYearsPerCentury + yearOfCycle / kLeapYearInterval) in
    let daysSinceCalendarStart := u32 (cycle * kDaysPerCycle + dayOfCycle) in
    (true, u32 (daysSinceCalendarStart - kEpochOffsetDays)).

Definition DaysSinceUnixEpochToCalendarDate (daysSinceEpoch : Z) : option CalendarDate :=
  if UINT16_MAX <? u32 (daysSinceEpoch / kDaysPerStandardYear + 1) then None
  else
    let daysSinceEpoch := u32 (daysSinceEpoch + kEpochOffsetDays) in
    let cycle := daysSinceEpoch / kDaysPerCycle in
    let dayOfCycle := u32 (daysSinceEpoch - u32 (cycle * kDaysPerCycle)) in
    let yearOfCycle := u16 (u32 (dayOfCycle - dayOfCycle / 1460 + dayOfCycle / 36524 - dayOfCycle / 146096) / kDaysPerStandardYear) in
    let dayOfYear := u16 (u32 (dayOfCycle - (yearOfCycle * kDaysPerStandardYear + yearOfCycle / kLeapYearInterval - yearOfCycle / kYearsPerCentury))) in
    let month := MarchBasedDayOfYearToMonth dayOfYear in
    let daysFromMarch1ToStartOfMonth := MarchBasedMonthToDayOfYear month in
    let dayOfMonth := u8 (dayOfYear - daysFromMarch1ToStartOfMonth + 1) in
    let month := u8 (month + if month <? 10 then 3 else -9) in
    let year := u16 (u32 (yearOfCycle + u32 (cycle * kYearsPerCycle))) in
    Some {| year := if month <=? kFebruary then u16 (year + 1) else year; month := month; dayOfMonth := dayOfMonth |}.

(** The adjusted date, or [None] with the arguments as they were; [relativeDays] is signed. *)
Definition AdjustCalendarDate (d : CalendarDate) (relativeDays : Z) : option CalendarDate :=
  let (ok, daysSinceEpoch) := CalendarDateToDaysSinceUnixEpoch d in
  if negb ok then None
  else
    let adjustedDays := daysSinceEpoch + relativeDays in
    if (adjustedDays <? 0) || (UINT32_MAX <? adjustedDays) then None else DaysSinceUnixEpochToCalendarDate adjustedDays.

Definition CalendarTimeToSecondsSinceUnixEpoch (d : CalendarDate) (t : TimeOfDay) : bool * Z :=
  if (year d <? kUnixEpochYear) || (kMaxYearInSecondsSinceUnixEpoch32 <? year d) then (false, UINT32_MAX)
  else
    let (_, daysSinceEpoch) := CalendarDateToDaysSinceUnixEpoch d in
    (true, u32 (u32 (daysSinceEpoch * kSecondsPerDay) + hour t * kSecondsPerHour + minute t * kSecondsPerMinute + second t)).

(** [d] is what the caller's variables hold: the result of the conversion of the
    days is not looked at. *)
Definition SecondsSinceUnixEpochToCalendarTime64 (secondsSinceEpoch : Z) (d : CalendarDate) : CalendarDate * TimeOfDay :=
  let daysSinceEpoch := u32 (secondsSinceEpoch / kSecondsPerDay) in
  let timeOfDay := u32 (u64 (secondsSinceEpoch - u32 (daysSinceEpoch * kSecondsPerDay))) in
  let d := default d (DaysSinceUnixEpochToCalendarDate daysSinceEpoch) in
  let hour := u8 (timeOfDay / kSecondsPerHour) in
  let timeOfDay := u32 (timeOfDay - hour * kSecondsPerHour) in
  let minute := u8 (timeOfDay / kSecondsPerMinute) in
  let timeOfDay := u32 (timeOfDay - minute * kSecondsPerMinute) in
  (d, {| hour := hour; minute := minute; second := u8 timeOfDay |}).
Definition SecondsSinceUnixEpochToCalendarTime (secondsSinceEpoch : Z) (d : CalendarDate) : CalendarDate * TimeOfDay :=
  SecondsSinceUnixEpochToCalendarTime64 secondsSinceEpoch d.

Definition CalendarToChipEpochTime (d : CalendarDate) (t : TimeOfDay) : option Z :=
  if negb ((kChipEpochBaseYear <=? year d) && (year d <=? kChipEpochMaxYear)) then None
  else
    let (_, daysSinceUnixEpoch) := CalendarDateToDaysSinceUnixEpoch d in
    Some (u32 (u32 (u32 (daysSinceUnixEpoch - kChipEpochDaysSinceUnixEpoch) * kSecondsPerDay) + hour t * kSecondsPerHour +
               minute t * kSecondsPerMinute + second t)).
Definition ChipEpochToCalendarTime (chipEpochTime : Z) (d : CalendarDate) : CalendarDate * TimeOfDay :=
  SecondsSinceUnixEpochToCalendarTime64 (chipEpochTime + kChipEpochSecondsSinceUnixEpoch) d.
Definition UnixEpochToChipEpochTime (unixEpochTime : Z) : option Z :=
  if negb (kChipEpochSecondsSinceUnixEpoch <=? unixEpochTime) then None else Some (u32 (unixEpochTime - kChipEpochSecondsSinceUnixEpoch)).

(** ** The reference calendar

    Dates counted one day at a time. *)
Definition leap (y : Z) : bool := (y mod 4 =? 0) && negb ((y mod 100 =? 0) && negb (y mod 400 =? 0)).
Definition month_length (y m : Z) : Z :=
  if m =? 2 then if leap y then 29 else 28
  else if (m =? 4) || (m =? 6) || (m =? 9) || (m =? 11) then 30 else 31.
Definition next_day (d : CalendarDate) : CalendarDate :=
  if dayOfMonth d <? month_length (year d) (month d) then {| year := year d; month := month d; dayOfMonth := dayOfMonth d + 1 |}
  else if month d <? 12 then {| year := year d; month := month d + 1; dayOfMonth := 1 |}
  else {| year := year d + 1; month := 1; dayOfMonth := 1 |}.
Definition unix_epoch : CalendarDate := {| year := 1970; month := 1; dayOfMonth := 1 |}.
Definition day (n : Z) : CalendarDate := Nat.iter (Z.to_nat n) next_day unix_epoch.
Definition date_ok (d : CalendarDate) : Prop :=
  0 ≤ year d ∧ 1 ≤ month d ≤ 12 ∧ 1 ≤ dayOfMonth d ≤ month_length (year d) (month d).
Definition time_ok (t : TimeOfDay) : Prop := 0 ≤ hour t < 24 ∧ 0 ≤ minute t < 60 ∧ 0 ≤ second t < 60.

(** The number of days since the epoch, in a closed form: the years and the months
    counted from March. *)
Definition days_of (d : CalendarDate) : Z :=
  let y := if month d <=? 2 then year d - 1 else year d in
  let m := if month d <=? 2 then month d + 9 else month d - 3 in
  365 * y + y / 4 - y / 100 + y / 400 + (153 * m + 2) / 5 + dayOfMonth d - 1 - 719468.

Lemma leap_spec y : leap y = true ↔ y mod 4 = 0 ∧ (y mod 100 ≠ 0 ∨ y mod 400 = 0).
Proof. unfold leap. rewrite andb_true_iff, negb_true_iff, andb_false_iff, negb_false_iff, !Z.eqb_eq, Z.eqb_neq. done. Qed.

Lemma IsLeapYear_spec y : IsLeapYear y = leap y.
Proof.
  apply Bool.eq_iff_eq_true. rewrite leap_spec. unfold IsLeapYear, kLeapYearInterval, kYearsPerCentury, kYearsPerCycle.
  by rewrite andb_true_iff, orb_true_iff, negb_true_iff, !Z.eqb_eq, Z.eqb_neq.
Qed.

(** Operations on numerals. *)
Ltac fold_numerals :=
  let fold_in t := (let c := eval vm_compute in t in change t with c) in
  repeat match goal with
  | |- context [Zpos ?a + Zpos ?b] => fold_in (Zpos a + Zpos b)
  | |- context [Zpos ?a - Zpos ?b] => fold_in (Zpos a - Zpos b)
  | |- context [Zpos ?a * Zpos ?b] => fold_in (Zpos a * Zpos b)
  | |- context [Zpos ?a * 0] => fold_in (Zpos a * 0)
  | |- context [0 + Zpos ?a] => fold_in (0 + Zpos a)
  | |- context [Zpos ?a `div` Zpos ?b] => fold_in (Zpos a `div` Zpos b)
  end.
(** A month between 1 and 12 as a case, [x] the variable. *)
Ltac month_cases x :=
  assert (x = 1 ∨ x = 2 ∨ x = 3 ∨ x = 4 ∨ x = 5 ∨ x = 6 ∨ x = 7 ∨ x = 8 ∨ x = 9 ∨ x = 10 ∨ x = 11 ∨ x = 12) as Hcases by lia;
  repeat destruct Hcases as [->|Hcases]; [..|subst x].

Lemma div_pred k y : 0 < k → y / k - (y - 1) / k = if y mod k =? 0 then 1 else 0.
Proof.
  intros Hk. pose proof (Z.div_mod y k ltac:(lia)) as Hd. pose proof (Z.mod_pos_bound y k Hk). destruct (Z.eqb_spec (y mod k) 0) as [E|E].
  - rewrite <- (Z.div_unique (y - 1) k (y / k - 1) (k - 1)); lia.
  - rewrite <- (Z.div_unique (y - 1) k (y / k) (y mod k - 1)); lia.
Qed.

Lemma mod_factor y a b : 0 < a → 0 < b → y mod (a * b) = 0 → y mod a = 0.
Proof. intros Ha Hb [q ->]%Z.mod_divide; [|lia]. apply Z.mod_divide; [lia|]. exists (q * b). lia. Qed.

(** The leap day comes at the end of the March year. *)
Lemma leap_step y : y / 4 - (y - 1) / 4 - (y / 100 - (y - 1) / 100) + (y / 400 - (y - 1) / 400) = if leap y then 1 else 0.
Proof.
  rewrite !div_pred by lia. unfold leap.
  pose proof (mod_factor y 100 4 ltac:(lia) ltac:(lia)). pose proof (mod_factor y 4 25 ltac:(lia) ltac:(lia)).
  change (100 * 4) with 400 in *. change (4 * 25) with 100 in *.
  destruct (Z.eqb_spec (y mod 4) 0), (Z.eqb_spec (y mod 100) 0), (Z.eqb_spec (y mod 400) 0); simpl; tauto || lia.
Qed.

Lemma days_next d : date_ok d → date_ok (next_day d) ∧ days_of (next_day d) = days_of d + 1 ∧ year d ≤ year (next_day d).
Proof.
  destruct d as [y m k]. unfold date_ok, next_day, days_of. cbn [year month dayOfMonth]. intros (Hy & Hm & Hk).
  pose proof (leap_step y) as Hl. unfold month_length in *.
  month_cases m; cbn -[Z.add Z.sub Z.mul Z.div] in *; destruct (leap y) eqn:El;
    match goal with |- context [k <? ?n] => destruct (Z.ltb_spec k n) end;
    cbn -[Z.add Z.sub Z.mul Z.div]; fold_numerals; cbn -[Z.add Z.sub Z.mul Z.div]; fold_numerals; rewrite ?El, ?Z.add_simpl_r; lia.
Qed.

Ltac div_lia := Z.to_euclidean_division_equations; lia.

(** The year and the month counted from March, and the day in that year. *)
Definition march_year (d : CalendarDate) : Z := if month d <=? 2 then year d - 1 else year d.
Definition march_month (d : CalendarDate) : Z := if month d <=? 2 then month d + 9 else month d - 3.
Definition march_day (d : CalendarDate) : Z := (153 * march_month d + 2) / 5 + dayOfMonth d - 1.

Lemma march_facts d : date_ok d →
  0 ≤ march_month d ≤ 11 ∧ 0 ≤ march_day d ≤ 364 + (if leap (march_year d + 1) then 1 else 0) ∧
  (5 * march_day d + 2) / 153 = march_month d ∧ year d - 1 ≤ march_year d ≤ year d.
Proof.
  destruct d as [y m k]. unfold date_ok, march_day, march_month, march_year, month_length. cbn [year month dayOfMonth]. intros (Hy & Hm & Hk).
  month_cases m; cbn -[Z.add Z.sub Z.mul Z.div] in *; fold_numerals; rewrite ?Z.sub_add; try (destruct (leap _)); div_lia.
Qed.

Lemma days_march d : days_of d = 365 * march_year d + march_year d / 4 - march_year d / 100 + march_year d / 400 + march_day d - 719468.
Proof. unfold days_of, march_day, march_month, march_year. lia. Qed.

(** A year as cycle, century, leap interval and rest. *)
Lemma year_parts y : 0 ≤ y → ∃ c a q r, y = 400 * c + 100 * a + 4 * q + r ∧ 0 ≤ c ∧ 0 ≤ a ≤ 3 ∧ 0 ≤ q ≤ 24 ∧ 0 ≤ r ≤ 3.
Proof.
  intros Hy. exists (y / 400), (y mod 400 / 100), (y mod 100 / 4), (y mod 4). div_lia.
Qed.

Lemma leap_parts c a q r : 0 ≤ a ≤ 3 → 0 ≤ q ≤ 24 → 0 ≤ r ≤ 3 →
  leap (400 * c + 100 * a + 4 * q + r + 1) = true → r = 3 ∧ (q < 24 ∨ a = 3).
Proof. intros Ha Hq Hr (H1 & H2)%leap_spec. div_lia. Qed.

Lemma parts_div c a q r : 0 ≤ a ≤ 3 → 0 ≤ q ≤ 24 → 0 ≤ r ≤ 3 → let y := 400 * c + 100 * a + 4 * q + r in
  y / 4 = 100 * c + 25 * a + q ∧ y / 100 = 4 * c + a ∧ y / 400 = c.
Proof. intros Ha Hq Hr y. unfold y. split_and!; div_lia. Qed.

Lemma year_of_cycle a q r k : 0 ≤ a ≤ 3 → 0 ≤ q ≤ 24 → 0 ≤ r ≤ 3 → 0 ≤ k ≤ 365 → (k = 365 → r = 3 ∧ (q < 24 ∨ a = 3)) →
  let n := 36524 * a + 1461 * q + 365 * r + k in
  0 ≤ n < 146097 ∧ (n - n / 1460 + n / 36524 - n / 146096) / 365 = 100 * a + 4 * q + r.
Proof.
  intros Ha Hq Hr Hk Hleap n. assert (0 ≤ n < 146097) as Hn by (unfold n; lia). split; [done|].
  assert (n / 36524 = if n =? 146096 then 4 else a) as -> by (destruct (Z.eqb_spec n 146096); unfold n in *; div_lia).
  assert (n / 146096 = if n =? 146096 then 1 else 0) as -> by (destruct (Z.eqb_spec n 146096); div_lia).
  assert (n / 1460 = 25 * a + q + if 1460 <=? 24 * a + q + 365 * r + k then 1 else 0) as ->.
  { destruct (Z.leb_spec 1460 (24 * a + q + 365 * r + k)); unfold n; div_lia. }
  destruct (Z.eqb_spec n 146096), (Z.leb_spec 1460 (24 * a + q + 365 * r + k)); unfold n in *; div_lia.
Qed.

Lemma month_day m : 0 ≤ m ≤ 11 → MarchBasedMonthToDayOfYear m = (153 * m + 2) / 5 ∧ 0 ≤ (153 * m + 2) / 5 ≤ 337.
Proof. intros Hm. assert (0 ≤ (153 * m + 2) / 5 ≤ 337) by div_lia. split; [|done]. apply wrap_small. unfold in_u. lia. Qed.

Lemma days_nonneg d : date_ok d → 1970 ≤ year d → 0 ≤ days_of d.
Proof.
  intros Hok Hy. destruct (march_facts d Hok) as (Hm & Hk & _ & Hmy).
  destruct (year_parts (march_year d) ltac:(lia)) as (c & a & q & r & Ey & Hc & Ha & Hq & Hr).
  destruct (parts_div c a q r Ha Hq Hr) as (D4 & D100 & D400). rewrite <- Ey in D4, D100, D400.
  rewrite days_march, D4, D100, D400, Ey. destruct (Z.eq_dec (march_year d) 1969) as [E|E]; [|lia].
  destruct Hok as (_ & Hm12 & Hd). assert (10 ≤ march_month d) by (unfold march_year, march_month in *; destruct (Z.leb_spec (month d) 2); lia).
  assert (306 ≤ march_day d) by (unfold march_day; div_lia). lia.
Qed.

Lemma month_length_range y m : 28 ≤ month_length y m ≤ 31.
Proof. unfold month_length. destruct (m =? 2), (leap y); [..|destruct (_ || _)|destruct (_ || _)]; lia. Qed.

Lemma date_to_days d : date_ok d → 1970 ≤ year d ≤ 28276 → CalendarDateToDaysSinceUnixEpoch d = (true, days_of d).
Proof.
  intros Hok Hy. pose proof (days_nonneg d Hok ltac:(lia)) as Hpos. destruct (march_facts d Hok) as (Hm & Hk & _ & Hmy).
  destruct (year_parts (march_year d) ltac:(lia)) as (c & a & q & r & Ey & Hc & Ha & Hq & Hr).
  destruct (parts_div c a q r Ha Hq Hr) as (D4 & D100 & D400). rewrite <- Ey in D4, D100, D400.
  assert (march_day d ≤ 365) as Hk' by (destruct (leap _); lia). destruct Hok as (_ & Hm12 & Hd). pose proof (month_length_range (year d) (month d)). destruct (month_day _ Hm) as [Hmd Hmr].
  rewrite days_march, D4, D100, D400 in *. unfold CalendarDateToDaysSinceUnixEpoch, kUnixEpochYear, kMaxYearInDaysSinceUnixEpoch32, kFebruary.
  rewrite (proj2 (Z.ltb_ge _ _)), (proj2 (Z.ltb_ge _ _)) by lia. cbn [orb].
  assert ((if month d <=? 2 then (u16 (year d - 1), u8 (month d + 9)) else (year d, u8 (month d - 3))) = (march_year d, march_month d)) as ->.
  { unfold march_year, march_month in *. destruct (month d <=? 2); rewrite !wrap_small by (unfold in_u; lia); done. }
  rewrite Hmd. cbv zeta. unfold kYearsPerCycle, kDaysPerStandardYear, kYearsPerCentury, kLeapYearInterval, kDaysPerCycle, kEpochOffsetDays.
  rewrite D400, (wrap_small 16 c) by (unfold in_u; lia).
  assert (u16 ((153 * march_month d + 2) / 5 + (dayOfMonth d - 1)) = march_day d) as -> by (rewrite wrap_small; unfold in_u, march_day in *; lia).
  assert (u32 (march_year d - c * 400) = 100 * a + 4 * q + r) as -> by (rewrite wrap_small; unfold in_u; lia).
  assert ((100 * a + 4 * q + r) / 100 = a) as -> by div_lia. assert ((100 * a + 4 * q + r) / 4 = 25 * a + q) as -> by div_lia.
  rewrite (wrap_small 32 ((100 * a + 4 * q + r) * 365 + march_day d - a + (25 * a + q))) by (unfold in_u; lia).
  rewrite (wrap_small 32 (c * 146097 + _)) by (unfold in_u; lia). rewrite wrap_small by (unfold in_u; lia). f_equal. lia.
Qed.

(** The conversion back, whose year is 16 bits wide. *)
Lemma days_to_date d : date_ok d → 1970 ≤ year d → days_of d ≤ 23920274 →
  DaysSinceUnixEpochToCalendarDate (days_of d) = Some {| year := u16 (year d); month := month d; dayOfMonth := dayOfMonth d |}.
Proof.
  intros Hok Hy Hmax. pose proof Hok as Hok0. destruct (march_facts d Hok) as (Hm & Hk & Hmk & Hmy).
  destruct (year_parts (march_year d) ltac:(lia)) as (c & a & q & r & Ey & Hc & Ha & Hq & Hr).
  destruct (parts_div c a q r Ha Hq Hr) as (D4 & D100 & D400). rewrite <- Ey in D4, D100, D400.
  assert (march_day d ≤ 365) as Hk' by (destruct (leap _); lia).
  destruct (year_of_cycle a q r (march_day d) Ha Hq Hr ltac:(lia)) as [Hn Hyoc].
  { intros E. apply (leap_parts c a q r Ha Hq Hr). rewrite <- Ey. destruct (leap _); [done|lia]. }
  destruct Hok as (_ & Hm12 & Hd). pose proof (month_length_range (year d) (month d)). destruct (month_day _ Hm) as [Hmd Hmr]. pose proof (days_march d) as Edays. rewrite D4, D100, D400 in Edays.
  set (n := 36524 * a + 1461 * q + 365 * r + march_day d) in *.
  assert (days_of d + 719468 = 146097 * c + n) as En by (unfold n; lia). pose proof (days_nonneg d Hok0 Hy) as Hpos.
  unfold DaysSinceUnixEpochToCalendarDate, kDaysPerStandardYear, UINT16_MAX, kEpochOffsetDays, kDaysPerCycle, kLeapYearInterval, kYearsPerCentury,
    kYearsPerCycle, kFebruary.
  assert (0 ≤ days_of d / 365 ≤ 65534) as Hg by div_lia. rewrite (wrap_small 32 (_ / 365 + 1)) by (unfold in_u; lia).
  rewrite (proj2 (Z.ltb_ge _ _)) by lia. rewrite (wrap_small 32 (days_of d + _)) by (unfold in_u; lia). rewrite En. cbv zeta.
  assert ((146097 * c + n) / 146097 = c) as -> by div_lia. rewrite (wrap_small 32 (c * 146097)) by (unfold in_u; lia).
  assert (u32 (146097 * c + n - c * 146097) = n) as -> by (rewrite wrap_small; unfold in_u; lia).
  assert (u32 (n - n / 1460 + n / 36524 - n / 146096) = n - n / 1460 + n / 36524 - n / 146096) as -> by (apply wrap_small; unfold in_u; div_lia).
  rewrite Hyoc, (wrap_small 16 (100 * a + _ + _)) by (unfold in_u; lia).
  assert ((100 * a + 4 * q + r) / 4 = 25 * a + q) as -> by div_lia. assert ((100 * a + 4 * q + r) / 100 = a) as -> by div_lia.
  assert (u16 (u32 (n - ((100 * a + 4 * q + r) * 365 + (25 * a + q) - a))) = march_day d) as ->.
  { assert (n - ((100 * a + 4 * q + r) * 365 + (25 * a + q) - a) = march_day d) as -> by (unfold n; lia).
    rewrite (wrap_small 32), wrap_small; unfold in_u; lia. }
  unfold MarchBasedDayOfYearToMonth. rewrite Hmk, (wrap_small 8 (march_month d)), Hmd by (unfold in_u; lia).
  assert (u8 (march_day d - (153 * march_month d + 2) / 5 + 1) = dayOfMonth d) as ->.
  { rewrite wrap_small; unfold in_u, march_day in *; lia. }
  assert (u8 (march_month d + (if march_month d <? 10 then 3 else -9)) = month d) as ->.
  { unfold march_month in *. rewrite wrap_small; [|unfold in_u]; destruct (Z.leb_spec (month d) 2); match goal with |- context [?x <? 10] => destruct (Z.ltb_spec x 10) end; lia. }
  f_equal. f_equal. rewrite (wrap_small 32 (c * 400)) by (unfold in_u; lia).
  rewrite (wrap_small 32) by (unfold in_u; lia). assert (100 * a + 4 * q + r + c * 400 = march_year d) as -> by lia.
  unfold march_year. destruct (month d <=? 2); [|done]. rewrite wrap_add_l by done. f_equal. lia.
Qed.

(** ** Days *)

(** 65535-12-31, the last day whose year fits, and the last day the conversion accepts. *)
Definition last_day : Z := 23217003.
Definition last_accepted : Z := 23920274.

Lemma day_spec n : 0 ≤ n → date_ok (day n) ∧ days_of (day n) = n ∧ 1970 ≤ year (day n).
Proof.
  intros Hn. assert (∀ k, let d := Nat.iter k next_day unix_epoch in date_ok d ∧ days_of d = Z.of_nat k ∧ 1970 ≤ year d) as Hk.
  { intros k. induction k as [|k (IH1 & IH2 & IH3)]; [split; [|done]; repeat split; vm_compute; congruence|].
    cbn [Nat.iter nat_rect]. destruct (days_next _ IH1) as (H1 & H2 & H3). split_and!; [exact H1|unfold Nat.iter in *; lia|unfold Nat.iter in *; lia]. }
  specialize (Hk (Z.to_nat n)). cbv zeta in Hk. by rewrite Z2Nat.id in Hk.
Qed.

(** A day's year, from the number of the day and back. *)
Lemma year_bound d : date_ok d → 1970 ≤ year d → (year d ≤ 65535 ↔ days_of d ≤ last_day) ∧
  (year d ≤ 2105 → days_of d ≤ 49672) ∧ (year d ≤ 2135 → days_of d ≤ 60629) ∧ (2000 ≤ year d ↔ 10957 ≤ days_of d).
Proof.
  intros Hok Hy. destruct (march_facts d Hok) as (Hm & Hk & _ & Hmy).
  destruct (year_parts (march_year d) ltac:(lia)) as (c & a & q & r & Ey & Hc & Ha & Hq & Hr).
  destruct (parts_div c a q r Ha Hq Hr) as (D4 & D100 & D400). rewrite <- Ey in D4, D100, D400.
  assert (if month d <=? 2 then march_year d = year d - 1 ∧ 306 ≤ march_day d else march_year d = year d ∧ march_day d ≤ 305) as Hs.
  { destruct d as [y m k], Hok as (_ & Hm12 & Hd). unfold march_day, march_month, march_year, month_length in *. cbn [year month dayOfMonth] in *.
    clear - Hm12 Hd. month_cases m; cbn -[Z.add Z.sub Z.mul Z.div] in *; fold_numerals; try (destruct (leap _)); div_lia. }
  assert (march_day d ≤ 365) as Hk' by (destruct (leap _); lia).
  rewrite days_march, D4, D100, D400. unfold last_day. destruct (month d <=? 2); destruct Hs as [Hs1 Hs2]; lia.
Qed.

Lemma last_year n : 0 ≤ n → (year (day n) ≤ 65535 ↔ n ≤ last_day).
Proof. intros Hn. destruct (day_spec n Hn) as (Hok & Hd & Hy). destruct (year_bound _ Hok Hy) as [H _]. by rewrite Hd in H. Qed.

Lemma day_date n : 0 ≤ n ≤ last_accepted →
  DaysSinceUnixEpochToCalendarDate n = Some {| year := u16 (year (day n)); month := month (day n); dayOfMonth := dayOfMonth (day n) |}.
Proof.
  intros Hn. destruct (day_spec n ltac:(lia)) as (Hok & Hd & Hy). rewrite <- Hd at 1. apply days_to_date; [done|done|]. unfold last_accepted in Hn. lia.
Qed.

Lemma day_date_small n : 0 ≤ n ≤ last_day → DaysSinceUnixEpochToCalendarDate n = Some (day n).
Proof.
  intros Hn. rewrite day_date by (unfold last_day, last_accepted in *; lia). destruct (day_spec n ltac:(lia)) as (Hok & Hd & Hy).
  pose proof (proj2 (last_year n ltac:(lia)) ltac:(lia)). rewrite wrap_small by (unfold in_u; lia). by destruct (day n).
Qed.

Lemma date_is_day d : date_ok d → 1970 ≤ year d ≤ 65535 → 0 ≤ days_of d ≤ last_day ∧ day (days_of d) = d.
Proof.
  intros Hok Hy. pose proof (days_nonneg d Hok ltac:(lia)). destruct (year_bound d Hok ltac:(lia)) as [Hb _]. pose proof (proj1 Hb ltac:(lia)).
  split; [lia|]. apply (inj Some). rewrite <- day_date_small by lia. rewrite days_to_date by (done || unfold last_day in *; lia).
  rewrite wrap_small by (unfold in_u; lia). by destruct d.
Qed.

Lemma day_refused n : last_accepted < n → in_u 32 n → DaysSinceUnixEpochToCalendarDate n = None.
Proof.
  unfold last_accepted, in_u. intros Hn Hr. unfold DaysSinceUnixEpochToCalendarDate, kDaysPerStandardYear, UINT16_MAX.
  rewrite wrap_small by (unfold in_u; div_lia). rewrite (proj2 (Z.ltb_lt _ _)); [done|div_lia].
Qed.

(** C39: The conversions between a date and a number of days agree with the calendar
    counted one day at a time from 1970-01-01: the [n]th day is the date of [n] as
    long as the year fits 16 bits, the number of a date of the years 1970 to 28276
    is the number of steps to it (other years are refused), and adjusting a date
    moves [k] days, with a refusal before the epoch and beyond the last number of
    days accepted. *)
Theorem calendar_days_correct n d k : 0 ≤ n ≤ last_day → date_ok d →
  DaysSinceUnixEpochToCalendarDate n = Some (day n) ∧
  (1970 ≤ year d ≤ 28276 → ∃ m, 0 ≤ m ∧ CalendarDateToDaysSinceUnixEpoch d = (true, m) ∧ day m = d ∧
     (0 ≤ m + k ≤ last_day → AdjustCalendarDate d k = Some (day (m + k))) ∧
     (m + k < 0 ∨ last_accepted < m + k → AdjustCalendarDate d k = None)) ∧
  (¬ 1970 ≤ year d ≤ 28276 → CalendarDateToDaysSinceUnixEpoch d = (false, UINT32_MAX) ∧ AdjustCalendarDate d k = None).
Proof.
  intros Hn Hok. split; [by apply day_date_small|]. split.
  - intros Hy. destruct (date_is_day d Hok ltac:(lia)) as [Hr Hd]. exists (days_of d).
    rewrite (date_to_days d Hok Hy). split_and!; [lia|done|done| |]; unfold AdjustCalendarDate; rewrite (date_to_days d Hok Hy); cbn [negb].
    + intros Hk. rewrite (proj2 (Z.ltb_ge _ 0)), (proj2 (Z.ltb_ge UINT32_MAX _)) by (unfold last_day, UINT32_MAX in *; lia). by apply day_date_small.
    + intros Hk. destruct (Z.ltb_spec (days_of d + k) 0); [done|]. destruct (Z.ltb_spec UINT32_MAX (days_of d + k)); [done|].
      apply day_refused; [lia|]. unfold UINT32_MAX, in_u in *. lia.
  - intros Hy. assert (CalendarDateToDaysSinceUnixEpoch d = (false, UINT32_MAX)) as E.
    { unfold CalendarDateToDaysSinceUnixEpoch, kUnixEpochYear, kMaxYearInDaysSinceUnixEpoch32.
      destruct (Z.ltb_spec (year d) 1970), (Z.ltb_spec 28276 (year d)); done || lia. }
    split; [done|]. unfold AdjustCalendarDate. by rewrite E.
Qed.

(** The guard of [DaysSinceUnixEpochToCalendarDate] does not keep its promise to
    fail when the year would not fit: for the nearly two thousand years of days
    after 65535-12-31 it succeeds with a year that has wrapped around. *)
Theorem far_dates_wrap n : last_day < n ≤ last_accepted →
  ∃ d, DaysSinceUnixEpochToCalendarDate n = Some d ∧ 65535 < year (day n) ∧ year d = year (day n) - 65536.
Proof.
  intros Hn. assert (0 ≤ n) as H0 by (unfold last_day in Hn; lia). eexists. split; [by apply day_date; unfold last_day in *; lia|]. cbn [year].
  pose proof (last_year n H0) as Hy. assert (65535 < year (day n)) as Hgt by lia. split; [done|].
  destruct (day_spec n H0) as (Hok & Hd & _). destruct (march_facts _ Hok) as (_ & Hk & _ & Hmy).
  assert (year (day n) < 131072) as Hlt; [|unfold wrap; symmetry; apply (Z.mod_unique _ _ 1); lia].
  pose proof (days_march (day n)) as E. rewrite Hd in E. unfold last_accepted in Hn. destruct (leap _); div_lia.
Qed.

(** ** Seconds *)
Definition seconds_of (t : TimeOfDay) : Z := hour t * 3600 + minute t * 60 + second t.
Definition time_at (s : Z) : TimeOfDay := {| hour := s / 3600; minute := s mod 3600 / 60; second := s mod 60 |}.

Lemma time_at_ok s : 0 ≤ s < 86400 → time_ok (time_at s) ∧ seconds_of (time_at s) = s.
Proof. intros Hs. unfold time_ok, seconds_of, time_at. cbn. split_and!; div_lia. Qed.

Lemma time_at_of t : time_ok t → 0 ≤ seconds_of t < 86400 ∧ time_at (seconds_of t) = t.
Proof.
  destruct t as [h m s]. unfold time_ok, seconds_of, time_at. cbn. intros (Hh & Hm & Hs). split; [lia|]. f_equal; div_lia.
Qed.

Lemma sub_wrap_l w x a : 0 ≤ w → wrap w (x - wrap w a) = wrap w (x - a).
Proof. intros Hw. unfold wrap. apply Zminus_mod_idemp_r. Qed.

Lemma seconds_to_time s d : 0 ≤ s ≤ UINT32_MAX + kChipEpochSecondsSinceUnixEpoch →
  SecondsSinceUnixEpochToCalendarTime64 s d = (day (s / 86400), time_at (s mod 86400)).
Proof.
  unfold UINT32_MAX, kChipEpochSecondsSinceUnixEpoch, kChipEpochDaysSinceUnixEpoch, kSecondsPerDay. intros Hs.
  assert (0 ≤ s / 86400 ≤ 60667) as Hd by div_lia. pose proof (Z.div_mod s 86400 ltac:(lia)) as Hdm. pose proof (Z.mod_pos_bound s 86400 ltac:(lia)) as Hmr.
  unfold SecondsSinceUnixEpochToCalendarTime64, kSecondsPerDay, kSecondsPerHour, kSecondsPerMinute.
  rewrite (wrap_small 32 (s / 86400)) by (unfold in_u; lia). rewrite day_date_small by (unfold last_day; lia). cbv zeta. cbn [default].
  assert (u32 (u64 (s - u32 (s / 86400 * 86400))) = s mod 86400) as ->.
  { rewrite (wrap_small 64).
    - rewrite sub_wrap_l, wrap_small by (unfold in_u; lia). lia.
    - assert (0 ≤ u32 (s / 86400 * 86400) ≤ s / 86400 * 86400); [|unfold in_u; lia]. unfold wrap. split; [apply Z.mod_pos_bound; lia|apply Z.mod_le; lia]. }
  set (x := s mod 86400) in *. unfold time_at. f_equal.
  assert (0 ≤ x / 3600 < 24) by div_lia. rewrite (wrap_small 8 (x / 3600)) by (unfold in_u; lia).
  assert (u32 (x - x / 3600 * 3600) = x mod 3600) as -> by (rewrite wrap_small; [div_lia|unfold in_u; div_lia]).
  assert (0 ≤ x mod 3600 / 60 < 60) by div_lia. rewrite (wrap_small 8 (x mod 3600 / 60)) by (unfold in_u; lia).
  f_equal. assert (x mod 3600 - x mod 3600 / 60 * 60 = x mod 60) as -> by div_lia.
  rewrite !wrap_small; try done; try (unfold in_u; div_lia). rewrite wrap_small; unfold in_u; div_lia.
Qed.

Lemma time_to_seconds d t : date_ok d → time_ok t → 1970 ≤ year d ≤ 2105 →
  CalendarTimeToSecondsSinceUnixEpoch d t = (true, days_of d * 86400 + seconds_of t) ∧ in_u 32 (days_of d * 86400 + seconds_of t).
Proof.
  intros Hd Ht Hy. pose proof (days_nonneg d Hd ltac:(lia)). destruct (year_bound d Hd ltac:(lia)) as (_ & H1 & _). specialize (H1 ltac:(lia)).
  destruct (time_at_of t Ht) as [Hs _]. split; [|unfold in_u; lia].
  unfold CalendarTimeToSecondsSinceUnixEpoch, kUnixEpochYear, kMaxYearInSecondsSinceUnixEpoch32.
  rewrite (proj2 (Z.ltb_ge _ _)), (proj2 (Z.ltb_ge _ _)) by lia. cbn [orb]. rewrite date_to_days by (done || lia).
  unfold kSecondsPerDay, kSecondsPerHour, kSecondsPerMinute. rewrite (wrap_small 32 (_ * 86400)) by (unfold in_u; lia).
  unfold seconds_of in *. rewrite wrap_small by (unfold in_u; lia). f_equal. lia.
Qed.

Lemma time_to_chip d t : date_ok d → time_ok t → 2000 ≤ year d ≤ 2135 →
  CalendarToChipEpochTime d t = Some (days_of d * 86400 + seconds_of t - kChipEpochSecondsSinceUnixEpoch) ∧
  in_u 32 (days_of d * 86400 + seconds_of t - kChipEpochSecondsSinceUnixEpoch).
Proof.
  intros Hd Ht Hy. destruct (year_bound d Hd ltac:(lia)) as (_ & _ & H1 & H2). specialize (H1 ltac:(lia)). pose proof (proj1 H2 ltac:(lia)).
  destruct (time_at_of t Ht) as [Hs _].
  unfold CalendarToChipEpochTime, kChipEpochBaseYear, kChipEpochMaxYear, kChipEpochSecondsSinceUnixEpoch, kChipEpochDaysSinceUnixEpoch,
    kSecondsPerDay, kSecondsPerHour, kSecondsPerMinute. split; [|unfold in_u; lia].
  rewrite (proj2 (Z.leb_le _ _)), (proj2 (Z.leb_le _ _)) by lia. cbn [andb negb]. rewrite date_to_days by (done || lia).
  rewrite (wrap_small 32 (days_of d - _)) by (unfold in_u; lia). rewrite (wrap_small 32 (_ * 86400)) by (unfold in_u; lia).
  unfold seconds_of in *. rewrite wrap_small by (unfold in_u; lia). f_equal. lia.
Qed.

Lemma chip_year n : 10957 ≤ n → 2000 ≤ year (day n).
Proof.
  intros Hn. destruct (day_spec n ltac:(lia)) as (Hok & Hd & Hy). destruct (year_bound _ Hok Hy) as (_ & _ & _ & Hb). apply Hb. lia.
Qed.

(** Times and seconds convert into each other without loss.  For every 32-bit
    number of seconds since the Unix or the CHIP epoch the date is that of its day
    in the calendar and the time is the rest of the day, whatever the caller's
    variables held, and the conversion back gives the number again in the years it
    accepts; every date of these years with a time of day is reached so; and the two
    epochs differ by the constant shift. *)
Theorem epoch_times_roundtrip s d t old : in_u 32 s → date_ok d → time_ok t →
  let unix := SecondsSinceUnixEpochToCalendarTime s old in
  let chip := ChipEpochToCalendarTime s old in
  (fst unix = day (s / 86400) ∧ time_ok (snd unix) ∧ seconds_of (snd unix) = s mod 86400 ∧
   (year (fst unix) ≤ 2105 → CalendarTimeToSecondsSinceUnixEpoch (fst unix) (snd unix) = (true, s))) ∧
  (fst chip = day (10957 + s / 86400) ∧ time_ok (snd chip) ∧ seconds_of (snd chip) = s mod 86400 ∧
   (year (fst chip) ≤ 2135 → CalendarToChipEpochTime (fst chip) (snd chip) = Some s)) ∧
  (1970 ≤ year d ≤ 2105 → ∃ n, in_u 32 n ∧ CalendarTimeToSecondsSinceUnixEpoch d t = (true, n) ∧ SecondsSinceUnixEpochToCalendarTime n old = (d, t)) ∧
  (2000 ≤ year d ≤ 2135 → ∃ n, in_u 32 n ∧ CalendarToChipEpochTime d t = Some n ∧ ChipEpochToCalendarTime n old = (d, t)) ∧
  (∀ c, UnixEpochToChipEpochTime s = Some c → ChipEpochToCalendarTime c old = unix).
Proof.
  intros Hs Hd Ht unix chip. unfold in_u in Hs.
  assert (unix = (day (s / 86400), time_at (s mod 86400))) as -> by (apply seconds_to_time; unfold UINT32_MAX; change kChipEpochSecondsSinceUnixEpoch with 946684800; lia).
  assert (∀ n, 0 ≤ n ≤ UINT32_MAX → ChipEpochToCalendarTime n old = (day (10957 + n / 86400), time_at (n mod 86400))) as Hchip.
  { intros n Hn. unfold ChipEpochToCalendarTime. rewrite seconds_to_time by (change kChipEpochSecondsSinceUnixEpoch with 946684800; lia).
    unfold kChipEpochSecondsSinceUnixEpoch, kChipEpochDaysSinceUnixEpoch, kSecondsPerDay. rewrite Z.div_add, Z.mod_add by lia. f_equal. f_equal. lia. }
  assert (chip = (day (10957 + s / 86400), time_at (s mod 86400))) as -> by (apply Hchip; unfold UINT32_MAX; lia). cbn [fst snd].
  pose proof (Z.mod_pos_bound s 86400 ltac:(lia)) as Hmr. pose proof (Z.div_mod s 86400 ltac:(lia)) as Hdm. pose proof (Z.div_pos s 86400 ltac:(lia) ltac:(lia)) as Hq.
  destruct (time_at_ok _ Hmr) as [Hto Hts]. destruct (time_at_of t Ht) as [Htr Hta]. split_and!; try done.
  - intros Hy. destruct (day_spec (s / 86400) Hq) as (Hok & Hn & H0). destruct (time_to_seconds _ _ Hok Hto) as [-> _]; [lia|]. rewrite Hn, Hts. f_equal. lia.
  - intros Hy. destruct (day_spec (10957 + s / 86400)) as (Hok & Hn & H0); [lia|].
    assert (2000 ≤ year (day (10957 + s / 86400))) as H2000 by (apply chip_year; lia).
    destruct (time_to_chip _ _ Hok Hto) as [-> _]; [lia|]. rewrite Hn, Hts. unfold kChipEpochSecondsSinceUnixEpoch, kChipEpochDaysSinceUnixEpoch, kSecondsPerDay.
    f_equal. lia.
  - intros Hy. destruct (time_to_seconds d t Hd Ht Hy) as [-> Hu]. eexists. split; [exact Hu|]. split; [done|].
    unfold in_u in Hu. unfold SecondsSinceUnixEpochToCalendarTime. rewrite seconds_to_time by (unfold UINT32_MAX; change kChipEpochSecondsSinceUnixEpoch with 946684800; lia).
    rewrite Z.div_add_l, (Z.add_comm (_ * 86400)), Z.mod_add by lia.
    rewrite Z.div_small, Z.mod_small, Hta, Z.add_0_r by lia. destruct (date_is_day d Hd) as [_ ->]; [lia|done].
  - intros Hy. destruct (time_to_chip d t Hd Ht Hy) as [-> Hu]. eexists. split; [exact Hu|]. split; [done|].
    unfold in_u in Hu. unfold ChipEpochToCalendarTime. rewrite Z.sub_add, seconds_to_time.
    + rewrite Z.div_add_l, (Z.add_comm (_ * 86400)), Z.mod_add by lia.
    rewrite Z.div_small, Z.mod_small, Hta, Z.add_0_r by lia. destruct (date_is_day d Hd) as [_ ->]; [lia|done].
    + unfold UINT32_MAX. pose proof (days_nonneg d Hd ltac:(lia)). lia.
  - intros c. unfold UnixEpochToChipEpochTime. destruct (Z.leb_spec kChipEpochSecondsSinceUnixEpoch s) as [Hc|Hc]; cbn [negb]; [|done]. intros [= <-].
    assert (0 ≤ kChipEpochSecondsSinceUnixEpoch) by (vm_compute; congruence).
    rewrite wrap_small by (unfold in_u; lia). unfold ChipEpochToCalendarTime. rewrite Z.sub_add. apply seconds_to_time. unfold UINT32_MAX. lia.
Qed.

(** ** Ordinal dates and weekdays *)
Definition january_1 (y : Z) : CalendarDate := {| year := y; month := 1; dayOfMonth := 1 |}.

Lemma DaysInMonth_spec y m : 1 ≤ m ≤ 12 → DaysInMonth y m = month_length y m.
Proof.
  intros Hm. unfold DaysInMonth, month_length, kFebruary. rewrite IsLeapYear_spec. by month_cases m.
Qed.

(** The day of the year, from the first of January. *)
Definition day_of_year (d : CalendarDate) : Z := days_of d - days_of (january_1 (year d)) + 1.

(** The conversions look at a year only for its leap day; a leap year and another
    stand for all. *)
Definition same_length (y : Z) : Z := if leap y then 4 else 1.

Lemma leap_same y : leap (same_length y) = leap y.
Proof. unfold same_length. by destruct (leap y). Qed.

Lemma day_of_year_same y m k : day_of_year {| year := same_length y; month := m; dayOfMonth := k |} = day_of_year {| year := y; month := m; dayOfMonth := k |}.
Proof.
  unfold day_of_year, days_of, january_1. cbn [year month dayOfMonth]. change (1 <=? 2) with true. cbv iota.
  pose proof (leap_step y) as H1. pose proof (leap_step (same_length y)) as H2. rewrite leap_same in H2. destruct (m <=? 2); lia.
Qed.

Definition ordinals_ok (y : Z) : bool :=
  forallb (fun m => forallb (fun k =>
    let n := day_of_year {| year := y; month := m; dayOfMonth := k |} in
    (CalendarDateToOrdinalDate y m k =? n) && bool_decide (OrdinalDateToCalendarDate y n = (m, k)) &&
    (1 <=? n) && (n <=? 365 + if leap y then 1 else 0)) (seqZ 1 (month_length y m))) (seqZ 1 12).

(** The ordinal conversions are the calendar's: the day of the year of a date is
    its distance from the first of January and converts back to the date, months
    have their lengths, leap years are Gregorian, and the weekday of the first of
    January follows from the Thursday of the epoch. *)
Theorem ordinal_dates_correct d : date_ok d → 1 ≤ year d ≤ UINT16_MAX →
  IsLeapYear (year d) = leap (year d) ∧ DaysInMonth (year d) (month d) = month_length (year d) (month d) ∧
  CalendarDateToOrdinalDate (year d) (month d) (dayOfMonth d) = day_of_year d ∧
  OrdinalDateToCalendarDate (year d) (day_of_year d) = (month d, dayOfMonth d) ∧
  1 ≤ day_of_year d ≤ 365 + (if leap (year d) then 1 else 0) ∧
  FirstWeekdayOfYear (year d) = (days_of (january_1 (year d)) + 4) mod 7.
Proof.
  destruct d as [y m k]. intros (Hy & Hm & Hk) Hr. cbn [year month dayOfMonth] in *. split; [apply IsLeapYear_spec|]. split; [by apply DaysInMonth_spec|].
  assert (ordinals_ok (same_length y) = true) as Hall by (unfold same_length; destruct (leap y); vm_compute; reflexivity).
  unfold ordinals_ok in Hall. rewrite forallb_forall in Hall. specialize (Hall m ltac:(apply list_elem_of_In, elem_of_seqZ; lia)).
  rewrite forallb_forall in Hall. specialize (Hall k). rewrite day_of_year_same, leap_same in Hall.
  destruct (andb_prop _ _ (Hall ltac:(apply list_elem_of_In, elem_of_seqZ; unfold month_length in *; rewrite leap_same; lia))) as [[[H1 H2]%andb_prop H3]%andb_prop H4].
  apply bool_decide_eq_true in H2. assert (DaysToMarch1 (same_length y) = DaysToMarch1 y) as Hd by (unfold DaysToMarch1; by rewrite !IsLeapYear_spec, leap_same).
  unfold CalendarDateToOrdinalDate, OrdinalDateToCalendarDate in *. rewrite Hd in H1, H2. split_and!; [lia|done|lia|lia|].
  unfold FirstWeekdayOfYear, kLeapYearInterval, kYearsPerCentury, kYearsPerCycle, kDaysPerWeek, january_1, days_of. cbn [year month dayOfMonth].
  destruct (year_parts (y - 1) ltac:(lia)) as (c & a & q & r & Ey & Hc & Ha & Hq & Hr'). destruct (parts_div c a q r Ha Hq Hr') as (D4 & D100 & D400).
  rewrite <- Ey in D4, D100, D400. change (1 <=? 2) with true. cbv iota. rewrite D4, D100, D400.
  rewrite !(Z.rem_mod_nonneg (y - 1)) by lia. assert ((y - 1) mod 4 = r) as -> by div_lia. assert ((y - 1) mod 100 = 4 * q + r) as -> by div_lia.
  assert ((y - 1) mod 400 = 100 * a + 4 * q + r) as -> by div_lia. rewrite Z.rem_mod_nonneg by lia.
  rewrite wrap_small by (unfold in_u; pose proof (Z.mod_pos_bound (1 + 5 * r + 4 * (4 * q + r) + 6 * (100 * a + 4 * q + r)) 7 eq_refl); lia).
  rewrite <- (Z.mod_add (1 + _ + _ + _) (20871 * c + 5132 * a + 203 * q + 50 * r - 102737)) by lia. f_equal. rewrite Ey. fold_numerals. lia.
Qed.

(** ** Witnesses *)
Module TimeDemo.
Definition leap_day : CalendarDate := {| year := 2024; month := 2; dayOfMonth := 29 |}.
Definition noon : TimeOfDay := {| hour := 12; minute := 30; second := 59 |}.
Lemma leap_day_ok : date_ok leap_day.
Proof. repeat split; vm_compute; congruence. Qed.
Lemma noon_ok : time_ok noon.
Proof. repeat split; vm_compute; congruence. Qed.

Lemma calendar_days_correct_witness : DaysSinceUnixEpochToCalendarDate 19782 = Some (day 19782) ∧
  ∃ m, CalendarDateToDaysSinceUnixEpoch leap_day = (true, m) ∧ day m = leap_day.
Proof.
  destruct (calendar_days_correct 19782 leap_day 366) as (H1 & H2 & _); [vm_compute; split; congruence|exact leap_day_ok|].
  split; [exact H1|]. destruct H2 as (m & _ & Hm & Hd & _); [vm_compute; split; congruence|]. exists m. split; [exact Hm|exact Hd].
Defined.

Lemma far_dates_wrap_witness : ∃ d, DaysSinceUnixEpochToCalendarDate 23500000 = Some d ∧ year d < 1970.
Proof.
  destruct (far_dates_wrap 23500000) as (d & Hd & _ & _); [vm_compute; split; congruence|].
  exists d. split; [exact Hd|]. assert (DaysSinceUnixEpochToCalendarDate 23500000 = Some {| year := 774; month := 10; dayOfMonth := 26 |}) as E by reflexivity.
  rewrite Hd in E. injection E as ->. reflexivity.
Defined.

Lemma epoch_times_roundtrip_witness : ∃ n, in_u 32 n ∧ CalendarToChipEpochTime leap_day noon = Some n ∧
  ChipEpochToCalendarTime n unix_epoch = (leap_day, noon).
Proof.
  destruct (epoch_times_roundtrip 0 leap_day noon unix_epoch) as (_ & _ & _ & H & _); [vm_compute; split; congruence|exact leap_day_ok|exact noon_ok|].
  apply H. vm_compute; split; congruence.
Defined.

Lemma ordinal_dates_correct_witness : CalendarDateToOrdinalDate 2024 2 29 = day_of_year leap_day ∧ FirstWeekdayOfYear 2024 = 1.
Proof.
  destruct (ordinal_dates_correct leap_day leap_day_ok) as (_ & _ & H1 & _ & _ & H2); [vm_compute; split; congruence|].
  split; [exact H1|]. exact H2.
Defined.
End TimeDemo.
