(* ===== verification/PacketBuffer.v ===== *)
(** * PacketBuffer: chains of packet buffers

    [src/src/system/SystemPacketBuffer.h] and [SystemPacketBuffer.cpp], in the
    configuration that takes buffers from the CHIP heap (on LwIP a buffer is a [pbuf]
    of that library), and [src/src/lib/support/BufferWriter.cpp] with the writer
    backed by a packet buffer.

    A [PacketBuffer] has the bytes after its header structure, and its data as an
    offset and a length into them.  A chain is the list of its buffers, and a handle
    is the chain it points to ([[]] is the null handle); a chain has one owner, so the
    reference counts stay at 1 and are left out.  [None] is an access outside a
    buffer, a null handle used as a buffer, or a [VerifyOrDie] that fails.  The heap
    answers the n-th request of the given size with the bytes of the block, or not:
    [alloc]. *)
From S2P Require Import Prelude ChipError.

(** On a 32-bit target; only its bound matters. *)
Definition kStructureSize : Z := 16.
Definition CHIP_SYSTEM_HEADER_RESERVE_SIZE : Z := 26 + 12 + 0.
Definition kMaxSizeWithoutReserve : Z := 1583.
Definition kDefaultHeaderReserve : Z := CHIP_SYSTEM_HEADER_RESERVE_SIZE.
Definition kMaxSize : Z := kMaxSizeWithoutReserve - kDefaultHeaderReserve.
Definition kRightSizingThreshold : Z := 16.

Record PacketBuffer := { block : bytes; payload : Z; len : Z; tot_len : Z }.
#[export] Instance eta_buffer : Eta PacketBuffer := fun b =>
  {| block := block b; payload := payload b; len := len b; tot_len := tot_len b |}.
Abbreviation chain := (list PacketBuffer).

(** ** One buffer *)
Definition AllocSize (b : PacketBuffer) : Z := Z.of_nat (length (block b)).
Definition ReservedSize (b : PacketBuffer) : Z := u16 (payload b).
Definition MaxDataLength (b : PacketBuffer) : Z := u16 (AllocSize b - ReservedSize b).
Definition AvailableDataLength (b : PacketBuffer) : Z := u16 (MaxDataLength b - len b).

(** [memcpy] out of and into the block *)
Definition read_block (b : PacketBuffer) (off n : Z) : option bytes :=
  if (0 <=? off) && (0 <=? n) then mread (block b) (Z.to_nat off) (Z.to_nat n) else None.
Definition write_block (b : PacketBuffer) (off : Z) (bs : bytes) : option PacketBuffer :=
  if 0 <=? off then let! m := mwrite (block b) (Z.to_nat off) bs in Some (b <| block := m |>) else None.

(** The new start is an offset from [ReserveStart()]. *)
Definition SetStart (aNewStart : Z) (b : PacketBuffer) : PacketBuffer :=
  let kEnd := payload b + MaxDataLength b in
  let aNewStart := if aNewStart <? 0 then 0 else if kEnd <? aNewStart then kEnd else aNewStart in
  let lDelta := aNewStart - payload b in
  let lDelta := if len b <? lDelta then len b else lDelta in
  {| block := block b; payload := aNewStart; len := u16 (len b - lDelta); tot_len := u16 (tot_len b - lDelta) |}.

(** [before] is the part of the chain from [aChainHead] up to the buffer; without a
    chain head it is empty. *)
Definition SetDataLength (aNewLen : Z) (before : chain) (b : PacketBuffer) : chain * PacketBuffer :=
  let kMaxDataLen := MaxDataLength b in
  let aNewLen := if kMaxDataLen <? aNewLen then kMaxDataLen else aNewLen in
  let lDelta := aNewLen - len b in
  let grow c := c <| tot_len := u16 (tot_len c + lDelta) |> in
  (grow <$> before, grow b <| len := aNewLen |>).
Definition SetLength (aNewLen : Z) (b : PacketBuffer) : PacketBuffer := snd (SetDataLength aNewLen [] b).

Definition ConsumeHead (aConsumeLength : Z) (b : PacketBuffer) : PacketBuffer :=
  let aConsumeLength := if len b <? aConsumeLength then len b else aConsumeLength in
  {| block := block b; payload := payload b + aConsumeLength; len := u16 (len b - aConsumeLength);
     tot_len := u16 (tot_len b - aConsumeLength) |}.

Definition EnsureReservedSize (aReservedSize : Z) (b : PacketBuffer) : option (bool * PacketBuffer) :=
  let kCurrentReservedSize := ReservedSize b in
  if aReservedSize <=? kCurrentReservedSize then Some (true, b)
  else if AllocSize b <? aReservedSize + len b then Some (false, b)
  else
    let kMoveLength := u16 (aReservedSize - kCurrentReservedSize) in
    let! moved := read_block b (payload b) (len b) in
    let! b := write_block b (payload b + kMoveLength) moved in
    Some (true, b <| payload ::= Z.add kMoveLength |>).

(** [address] is the address of [ReserveStart()]. *)
Definition AlignPayload (address aAlignBytes : Z) (b : PacketBuffer) : option (bool * PacketBuffer) :=
  if aAlignBytes =? 0 then Some (false, b)
  else
    let kPayloadOffset := u16 ((address + payload b) mod aAlignBytes) in
    if kPayloadOffset =? 0 then Some (true, b)
    else
      let kPayloadShift := u16 (aAlignBytes - kPayloadOffset) in
      if negb (ReservedSize b + kPayloadShift <=? 0xFFFF) then Some (false, b)
      else EnsureReservedSize (u16 (ReservedSize b + kPayloadShift)) b.

(** ** Chains *)
Definition TotalLength (c : chain) : option Z := match c with b :: _ => Some (tot_len b) | [] => None end.

(** The loop of [PacketBuffer::AddToEnd]; the cursor is the head of [c]. *)
Fixpoint AddToEnd (c aPacket : chain) : option chain :=
  match c with
  | [] => None
  | b :: next =>
      let! added := TotalLength aPacket in
      let total := u16 (tot_len b + added) in
      if negb (tot_len b <=? total) then None
      else
        let b := b <| tot_len := total |> in
        match next with
        | [] => Some (b :: aPacket)
        | _ => let! next := AddToEnd next aPacket in Some (b :: next)
        end
  end.
(** [PacketBufferHandle::AddToEnd] *)
Definition Handle_AddToEnd (c aPacket : chain) : option chain :=
  match c with [] => Some aPacket | _ => AddToEnd c aPacket end.

(** The loop of [CompactHead].  A next buffer that keeps data has filled the head, so
    [lAvailLength] is 0 and the loop ends. *)
Fixpoint compact_loop (lAvailLength : Z) (b : PacketBuffer) (next : chain) : option (PacketBuffer * chain) :=
  match next with
  | [] => Some (b, [])
  | lNextPacket :: rest =>
      if 0 <? lAvailLength then
        let lMoveLength := len lNextPacket in
        let lMoveLength := if lAvailLength <? lMoveLength then lAvailLength else lMoveLength in
        let! moved := read_block lNextPacket (payload lNextPacket) lMoveLength in
        let! b := write_block b (payload b + len b) moved in
        let lNextPacket := {| block := block lNextPacket; payload := payload lNextPacket + lMoveLength;
                              len := u16 (len lNextPacket - lMoveLength); tot_len := u16 (tot_len lNextPacket - lMoveLength) |} in
        let b := b <| len := u16 (len b + lMoveLength) |> in
        if len lNextPacket =? 0 then compact_loop (u16 (lAvailLength - lMoveLength)) b rest else Some (b, lNextPacket :: rest)
      else Some (b, next)
  end.
Definition CompactHead (c : chain) : option chain :=
  match c with
  | [] => None
  | b :: next =>
      let! b := (if payload b =? 0 then Some b
                 else let! moved := read_block b (payload b) (len b) in
                      let! b := write_block b 0 moved in Some (b <| payload := 0 |>)) in
      let! (b, next) := compact_loop (AvailableDataLength b) b next in Some (b :: next)
  end.

Fixpoint Consume (aConsumeLength : Z) (c : chain) : chain :=
  match c with
  | [] => []
  | lPacket :: next =>
      if 0 <? aConsumeLength then
        let kLength := len lPacket in
        if kLength <=? aConsumeLength then Consume (u16 (aConsumeLength - kLength)) next
        else ConsumeHead aConsumeLength lPacket :: next
      else c
  end.

(** The error and the bytes written to the destination. *)
Fixpoint read_loop (aReadLength : Z) (c : chain) (out : bytes) : option (CHIP_ERROR * bytes) :=
  if aReadLength <=? 0 then Some (CHIP_NO_ERROR, out)
  else match c with
  | [] => Some (CHIP_ERROR_INTERNAL, out)
  | lPacket :: next =>
      let lToReadFromCurrentBuf := if aReadLength <? len lPacket then aReadLength else len lPacket in
      let! bs := read_block lPacket (payload lPacket) lToReadFromCurrentBuf in
      read_loop (aReadLength - lToReadFromCurrentBuf) next (out ++ bs)
  end.
Definition Read (aReadLength : Z) (c : chain) : option (CHIP_ERROR * bytes) :=
  let! total := TotalLength c in
  if total <? aReadLength then Some (CHIP_ERROR_BUFFER_TOO_SMALL, []) else read_loop aReadLength c [].

(** ** Handles *)
Definition PopHead (c : chain) : option (chain * chain) :=
  match c with
  | [] => None
  | head :: rest => Some ([head <| tot_len := len head |>], rest)
  end.

Section heap.
Variable alloc : nat → Z → option bytes.

Definition New (k : nat) (aAvailableSize aReservedSize : Z) : chain :=
  let lAllocSize := aReservedSize + aAvailableSize in
  let lBlockSize := kStructureSize + lAllocSize in
  if (0xFFFF <? aAvailableSize) || (kMaxSizeWithoutReserve <? lAllocSize) || (0xFFFF <? lBlockSize) then []
  else match alloc k lAllocSize with
  | None => []
  | Some m => [{| block := m; payload := aReservedSize; len := 0; tot_len := 0 |}]
  end.

Definition NewWithData (k : nat) (aData : bytes) (aAdditionalSize aReservedSize : Z) : option chain :=
  let aDataSize := Z.of_nat (length aData) in
  if 0xFFFF <? aDataSize then Some []
  else match New k (aDataSize + aAdditionalSize) aReservedSize with
  | [] => Some []
  | b :: _ =>
      let! b := write_block b (payload b) aData in
      Some [b <| len := u16 aDataSize |> <| tot_len := u16 aDataSize |>]
  end.

Definition RightSize (k : nat) (c : chain) : option chain :=
  match c with
  | [b] =>
      let usedSize := u16 (payload b + len b) in
      if AllocSize b <? usedSize + kRightSizingThreshold then Some c
      else match alloc k usedSize with
      | None => Some c
      | Some m =>
          let! used := read_block b 0 usedSize in
          let! b := write_block {| block := m; payload := payload b; len := len b; tot_len := tot_len b |} 0 used in Some [b]
      end
  | _ => Some c
  end.

(** The clone of one buffer; [[]] when none can be had. *)
Definition clone_buffer (k : nat) (original : PacketBuffer) : option chain :=
  let originalDataSize := MaxDataLength original in
  let originalReservedSize := ReservedSize original in
  let large := kMaxSizeWithoutReserve <? originalDataSize + originalReservedSize in
  if large && (kMaxSizeWithoutReserve <? originalReservedSize + len original) then Some []
  else
    let originalDataSize := if large then u16 (kMaxSizeWithoutReserve - originalReservedSize) else originalDataSize in
    match New k originalDataSize originalReservedSize with
    | [] => Some []
    | clone :: _ =>
        let clone := clone <| len := len original |> <| tot_len := len original |> in
        let! bs := read_block original 0 (originalDataSize + originalReservedSize) in
        let! clone := write_block clone 0 bs in Some [clone]
    end.
Fixpoint clone_loop (k : nat) (original cloneHead : chain) : option chain :=
  match original with
  | [] => Some cloneHead
  | b :: next =>
      let! clone := clone_buffer k b in
      match clone with
      | [] => Some []
      | _ => let! cloneHead := Handle_AddToEnd cloneHead clone in clone_loop (S k) next cloneHead
      end
  end.
Definition CloneData (k : nat) (c : chain) : option chain := clone_loop k c [].
End heap.

(** ** The writer backed by a packet buffer

    [BufferWriter] writes to [mSize] bytes at offset [mBuf] of the block and counts
    what was asked for. *)
Record BufferWriter := { mBuf : Z; mSize : Z; mNeeded : Z }.
#[export] Instance eta_writer : Eta BufferWriter := fun w => {| mBuf := mBuf w; mSize := mSize w; mNeeded := mNeeded w |}.
Definition Fit (w : BufferWriter) : bool := mNeeded w <=? mSize w.
Definition Available (w : BufferWriter) : Z := if mSize w <? mNeeded w then 0 else mSize w - mNeeded w.

Definition Put (bs : bytes) (w : BufferWriter) (b : PacketBuffer) : option (BufferWriter * PacketBuffer) :=
  let available := Available w in
  let n := Z.of_nat (length bs) in
  let! b := (if 0 <? available
             then write_block b (mBuf w + mNeeded w) (take (Z.to_nat (if available <? n then available else n)) bs)
             else Some b) in
  Some (w <| mNeeded ::= fun needed => needed + n |>, b).

Definition PacketBufferWriter (b : PacketBuffer) : BufferWriter :=
  {| mBuf := payload b + len b; mSize := AvailableDataLength b; mNeeded := 0 |}.
Definition PacketBufferWriter_sized (aSize : Z) (b : PacketBuffer) : BufferWriter :=
  {| mBuf := payload b + len b; mSize := Z.min aSize (AvailableDataLength b); mNeeded := 0 |}.
Definition Finalize (w : BufferWriter) (b : PacketBuffer) : chain :=
  if Fit w then [SetLength (u16 (mNeeded w)) b] else [].
Fixpoint put_all (l : list bytes) (w : BufferWriter) (b : PacketBuffer) : option (BufferWriter * PacketBuffer) :=
  match l with
  | [] => Some (w, b)
  | bs :: l => let! (w, b) := Put bs w b in put_all l w b
  end.

(** * What a chain holds *)
Definition data (b : PacketBuffer) : bytes := take (Z.to_nat (len b)) (drop (Z.to_nat (payload b)) (block b)).
Definition contents (c : chain) : bytes := c ≫= data.

Record buffer_ok (b : PacketBuffer) : Prop := {
  ok_payload : 0 ≤ payload b;
  ok_len : 0 ≤ len b;
  ok_end : payload b + len b ≤ AllocSize b;
  ok_size : AllocSize b ≤ 0xFFFF }.

(** Every buffer keeps the length of the chain from it on, in 16 bits. *)
Fixpoint chain_ok (c : chain) : Prop :=
  match c with
  | [] => True
  | b :: next => buffer_ok b ∧ tot_len b = sum_by len c ∧ tot_len b ≤ 0xFFFF ∧ chain_ok next
  end.

(** ** Arithmetic of one buffer *)
Lemma u16_small x : 0 ≤ x ≤ 0xFFFF → u16 x = x.
Proof. intros. apply wrap_small. ulia. Qed.

Lemma reserved_ok b : buffer_ok b → ReservedSize b = payload b.
Proof. intros []. unfold ReservedSize. apply u16_small. lia. Qed.

Lemma max_ok b : buffer_ok b → MaxDataLength b = AllocSize b - payload b.
Proof. intros Hb. unfold MaxDataLength. rewrite reserved_ok by done. destruct Hb. apply u16_small. lia. Qed.

Lemma avail_ok b : buffer_ok b → AvailableDataLength b = AllocSize b - payload b - len b.
Proof. intros Hb. unfold AvailableDataLength. rewrite max_ok by done. destruct Hb. apply u16_small. lia. Qed.

Lemma length_data b : buffer_ok b → Z.of_nat (length (data b)) = len b.
Proof. intros []. unfold data, AllocSize in *. rewrite length_take, length_drop. lia. Qed.

Lemma contents_cons b c : contents (b :: c) = data b ++ contents c.
Proof. done. Qed.

Lemma contents_app c d : contents (c ++ d) = contents c ++ contents d.
Proof. apply bind_app. Qed.

Lemma sum_len_cons b c : sum_by len (b :: c) = len b + sum_by len c.
Proof. done. Qed.

Lemma length_contents c : chain_ok c → Z.of_nat (length (contents c)) = sum_by len c.
Proof.
  induction c as [|b c IH]; [done|]. intros (Hb & _ & _ & Hc).
  rewrite contents_cons, length_app, Nat2Z.inj_add, length_data, IH by done. done.
Qed.

Lemma sum_len_nonneg c : chain_ok c → 0 ≤ sum_by len c.
Proof. intros H. rewrite <- length_contents by done. lia. Qed.

(** ** Copies *)
Lemma read_block_ok b off n : 0 ≤ off → 0 ≤ n → off + n ≤ AllocSize b →
  read_block b off n = Some (take (Z.to_nat n) (drop (Z.to_nat off) (block b))).
Proof.
  intros. unfold read_block, AllocSize in *. rewrite (proj2 (Z.leb_le 0 off)), (proj2 (Z.leb_le 0 n)) by done.
  apply mread_Some. split; [lia|done].
Qed.

Lemma read_data b : buffer_ok b → read_block b (payload b) (len b) = Some (data b).
Proof. intros []. by apply read_block_ok. Qed.

Lemma write_block_ok b off bs : 0 ≤ off → off + Z.of_nat (length bs) ≤ AllocSize b →
  ∃ m, write_block b off bs = Some (b <| block := m |>) ∧ length m = length (block b) ∧
    take (Z.to_nat off) m = take (Z.to_nat off) (block b) ∧ take (length bs) (drop (Z.to_nat off) m) = bs ∧
    drop (Z.to_nat off + length bs) m = drop (Z.to_nat off + length bs) (block b).
Proof.
  intros Ho Hl. unfold write_block, AllocSize in *. rewrite (proj2 (Z.leb_le 0 off)) by done.
  destruct (mwrite_is_Some (block b) (Z.to_nat off) bs) as [m Hm]; [lia|]. rewrite Hm. exists m. split; [done|].
  split; [by eapply mwrite_length|]. split_and!.
  - apply mwrite_Some in Hm as [? ->]. by rewrite take_app_length' by (rewrite length_take; lia).
  - apply mread_mwrite_same, mread_Some in Hm. symmetry. apply Hm.
  - apply mwrite_Some in Hm as [? ->]. rewrite drop_app. rewrite length_take, Nat.min_l by lia.
    rewrite drop_ge by (rewrite length_take; lia). cbn. replace (_ - _)%nat with (length bs) by lia. by rewrite drop_app_length.
Qed.

(** Appending to the data of a buffer. *)
Lemma append_data b bs : buffer_ok b → len b + Z.of_nat (length bs) ≤ AllocSize b - payload b →
  ∃ m, write_block b (payload b + len b) bs = Some (b <| block := m |>) ∧ length m = length (block b) ∧
    ∀ t, let b' := {| block := m; payload := payload b; len := len b + Z.of_nat (length bs); tot_len := t |} in
    buffer_ok b' ∧ data b' = data b ++ bs.
Proof.
  intros [Hp Hl He Hs] Hfit. destruct (write_block_ok b (payload b + len b) bs) as (m & Hw & Hm & Hbefore & Hbs & _); [lia..|].
  exists m. split; [done|]. split; [done|]. intros t b'. split.
  - unfold b', AllocSize in *. split; unfold AllocSize; cbn; rewrite ?Hm; lia.
  - unfold data, b'. cbn. rewrite Z2Nat.inj_add, Nat2Z.id by lia.
    rewrite <- Hbs at 2. rewrite Z2Nat.inj_add by lia. rewrite <- drop_drop, <- take_take_drop. f_equal.
    rewrite Z2Nat.inj_add in Hbefore by lia. apply (f_equal (drop (Z.to_nat (payload b)))) in Hbefore.
    rewrite !skipn_firstn_comm in Hbefore. by rewrite Nat.add_comm, Nat.add_sub in Hbefore.
Qed.

(** Taking [m] bytes off the front of a buffer. *)
Lemma split_data b m t : buffer_ok b → 0 ≤ m ≤ len b →
  let b' := {| block := block b; payload := payload b + m; len := len b - m; tot_len := t |} in
  buffer_ok b' ∧ take (Z.to_nat m) (drop (Z.to_nat (payload b)) (block b)) = take (Z.to_nat m) (data b) ∧
  data b' = drop (Z.to_nat m) (data b).
Proof.
  intros [Hp Hl He Hs] Hm b'. split_and!.
  - split; unfold b', AllocSize in *; cbn; lia.
  - unfold data. rewrite take_take. f_equal. lia.
  - unfold data, b'. cbn. rewrite skipn_firstn_comm, drop_drop. f_equal; [lia|]. f_equal. lia.
Qed.

Lemma consume_head_ok n b : buffer_ok b → 0 ≤ n → tot_len b ≤ 0xFFFF → len b ≤ tot_len b →
  buffer_ok (ConsumeHead n b) ∧ data (ConsumeHead n b) = drop (Z.to_nat n) (data b) ∧
  len (ConsumeHead n b) = len b - Z.min n (len b) ∧ tot_len (ConsumeHead n b) = tot_len b - Z.min n (len b) ∧
  payload (ConsumeHead n b) = payload b + Z.min n (len b) ∧ block (ConsumeHead n b) = block b.
Proof.
  intros Hb Hn Ht Hl. pose proof (ok_len _ Hb) as Hlen. pose proof (ok_end _ Hb). pose proof (ok_payload _ Hb). pose proof (ok_size _ Hb).
  assert (ConsumeHead n b = {| block := block b; payload := payload b + Z.min n (len b); len := len b - Z.min n (len b);
     tot_len := tot_len b - Z.min n (len b) |}) as ->.
  { unfold ConsumeHead. replace (if len b <? n then len b else n) with (Z.min n (len b)) by (destruct (Z.ltb_spec (len b) n); lia).
    rewrite !u16_small by lia. done. }
  cbn. destruct (split_data b (Z.min n (len b)) (tot_len b - Z.min n (len b)) Hb) as (Hok & _ & Hd); [lia|].
  split_and!; try done. rewrite Hd. destruct (decide (n ≤ len b)); [by rewrite Z.min_l by lia|].
  rewrite Z.min_r by lia. pose proof (length_data b Hb). rewrite !drop_ge; [done|lia..].
Qed.

(** ** Operations on a chain *)
Lemma total_ok c : chain_ok c → c ≠ [] → TotalLength c = Some (sum_by len c).
Proof. destruct c as [|b c]; [done|]. intros (_ & Ht & _) _. cbn [TotalLength]. by rewrite Ht. Qed.

Lemma chain_le c : chain_ok c → sum_by len c ≤ 0xFFFF.
Proof. destruct c as [|b c]; [cbn; lia|]. intros (_ & Ht & H & _). by rewrite <- Ht. Qed.

Lemma retotal_ok b t : buffer_ok b → buffer_ok (b <| tot_len := t |>).
Proof. intros []. by split. Qed.

(** Appending a chain adds its length to every buffer, or dies when 16 bits are not
    enough. *)
Lemma add_to_end_ok c p : chain_ok c → chain_ok p → c ≠ [] → p ≠ [] → sum_by len c + sum_by len p ≤ 0xFFFF →
  ∃ c', AddToEnd c p = Some c' ∧ chain_ok c' ∧ contents c' = contents c ++ contents p ∧
    sum_by len c' = sum_by len c + sum_by len p ∧ ∃ c1, c' = c1 ++ p ∧ block <$> c1 = block <$> c.
Proof.
  intros Hc Hp Hne Hpn. induction c as [|b c IH]; [done|]. intros Hs. cbn [AddToEnd].
  rewrite (total_ok p Hp Hpn). destruct Hc as (Hb & Ht & Hle & Hc).
  pose proof (sum_len_nonneg p Hp). pose proof (sum_len_nonneg c Hc). pose proof (ok_len _ Hb). cbn [sum_by foldr] in *.
  fold (sum_by len c) in *. rewrite u16_small by lia. rewrite (proj2 (Z.leb_le _ _)) by lia. cbn [negb].
  destruct c as [|b2 c].
  - eexists. split; [done|]. split_and!; try done.
    + split_and!; try done; cbn; [by apply retotal_ok|rewrite Ht; cbn; unfold sum_by; lia|lia].
    + rewrite !contents_cons. by rewrite app_nil_r.
    + rewrite sum_len_cons. cbn. lia.
    + exists [b <| tot_len := tot_len b + sum_by len p |>]. done.
  - destruct IH as (c' & Ha & Hok & Hcon & Hsum & c1 & -> & Hbl); [done|done|lia|].
    cbn [sum_by foldr] in Ha. rewrite Ha. eexists. split; [done|]. split_and!.
    + split_and!; try done; cbn; [by apply retotal_ok|rewrite Ht; fold (sum_by len (c1 ++ p)); rewrite Hsum; lia|lia].
    + rewrite !contents_cons, Hcon. by rewrite <- (assoc_L app).
    + rewrite sum_len_cons, Hsum. cbn [len update]. lia.
    + exists (b <| tot_len := tot_len b + sum_by len p |> :: c1). split; [done|]. cbn. by rewrite Hbl.
Qed.

Lemma add_to_end_dies c p : chain_ok c → chain_ok p → c ≠ [] → p ≠ [] → 0xFFFF < sum_by len c + sum_by len p → AddToEnd c p = None.
Proof.
  intros Hc Hp Hne Hpn Hs. destruct c as [|b c]; [done|]. cbn [AddToEnd]. rewrite (total_ok p Hp Hpn).
  destruct Hc as (Hb & Ht & Hle & Hc). pose proof (chain_le p Hp). rewrite Ht in *.
  pose proof (sum_len_nonneg c Hc). pose proof (ok_len _ Hb). cbn [sum_by foldr] in *. fold (sum_by len c) in *.
  assert (u16 (len b + sum_by len c + sum_by len p) = len b + sum_by len c + sum_by len p - 65536) as ->.
  { unfold wrap. change (2 ^ 16) with 65536. symmetry. apply (Z.mod_unique _ _ 1); lia. }
  rewrite (proj2 (Z.leb_gt _ _)) by lia. done.
Qed.

Lemma compact_loop_ok next : ∀ b avail, chain_ok (b :: next) → avail = AllocSize b - payload b - len b →
  ∃ b' next', compact_loop avail b next = Some (b', next') ∧ chain_ok (b' :: next') ∧
    contents (b' :: next') = contents (b :: next) ∧ payload b' = payload b ∧ AllocSize b' = AllocSize b ∧
    tot_len b' = tot_len b ∧ (next' = [] ∨ payload b' + len b' = AllocSize b') ∧
    (Forall (λ n, 0 < len n) next → Forall (λ n, 0 < len n) next').
Proof.
  induction next as [|n rest IH]; intros b avail (Hb & Ht & Hle & Hnext) ->; cbn [compact_loop].
  { exists b, []. split_and!; try done. by left. }
  pose proof Hb as [Hp Hl He Hs]. pose proof Hnext as (Hn & Hnt & Hnle & Hrest). pose proof (ok_len _ Hn) as Hnl.
  pose proof (ok_end _ Hn). pose proof (ok_payload _ Hn).
  destruct (Z.ltb_spec 0 (AllocSize b - payload b - len b)) as [Hpos|Hz]; [|exists b, (n :: rest); split_and!; try done; right; lia].
  set (av := AllocSize b - payload b - len b) in *. set (m := if av <? len n then av else len n).
  assert (0 ≤ m ≤ len n ∧ m ≤ av ∧ (m = len n ∨ m = av ∧ av < len n)) as (Hm & Hmav & Hcase).
  { unfold m. destruct (Z.ltb_spec av (len n)); lia. }
  rewrite read_block_ok by lia.
  destruct (split_data n m (tot_len n - m) Hn Hm) as (Hn' & Hmoved & Hrestd). rewrite Hmoved.
  assert (length (take (Z.to_nat m) (data n)) = Z.to_nat m) as Hlm.
  { rewrite length_take. pose proof (length_data n Hn). lia. }
  destruct (append_data b (take (Z.to_nat m) (data n)) Hb) as (blk & Hw & Hblk & Hb'); [unfold av in *; lia|].
  rewrite Hw. cbn [payload len tot_len block update]. rewrite Hlm, Z2Nat.id in Hb' by lia.
  pose proof (sum_len_nonneg rest Hrest) as Hsr.
  cbn [sum_by foldr] in Ht, Hnt. fold (sum_by len rest) in Ht, Hnt.
  pose proof (ok_size _ Hn). rewrite !u16_small by lia.
  destruct (Hb' (tot_len b)) as [Hbok Hbd]. destruct (Z.eqb_spec (len n - m) 0) as [Hempty|Hfull].
  - replace m with (len n) in * by lia.
    destruct (IH {| block := blk; payload := payload b; len := len b + len n; tot_len := tot_len b |} (av - len n))
      as (b2 & next2 & Heq & Hok & Hcon & Hpl & Hal & Htt & Hend & Hpos').
    + cbn. split_and!; [done|fold (sum_by len rest); lia|done|done].
    + unfold av, AllocSize. cbn. rewrite Hblk. lia.
    + rewrite Heq. exists b2, next2. split_and!; try done.
      * rewrite Hcon, !contents_cons, Hbd. rewrite take_ge by (pose proof (length_data n Hn); lia). by rewrite <- (assoc_L app).
      * rewrite Hal. unfold AllocSize. cbn. by rewrite Hblk.
      * intros [_ Hf]%Forall_cons. by apply Hpos'.
  - eexists _, _. split; [done|]. split_and!; try done.
    + cbn [chain_ok]. split_and!; try done; rewrite ?sum_len_cons; cbn [len tot_len]; lia.
    + rewrite !contents_cons, Hbd, Hrestd. rewrite <- (assoc_L app). f_equal.
      rewrite (assoc_L app). by rewrite take_drop.
    + unfold AllocSize. cbn. by rewrite Hblk.
    + right. unfold AllocSize. cbn. rewrite Hblk. unfold av, AllocSize in *. lia.
    + intros [_ Hf]%Forall_cons. apply Forall_cons. split; [cbn; lia|done].
Qed.

Lemma move_to_start b : buffer_ok b →
  ∃ m, (if payload b =? 0 then Some b
        else let! moved := read_block b (payload b) (len b) in let! b := write_block b 0 moved in Some (b <| payload := 0 |>)) =
       Some {| block := m; payload := 0; len := len b; tot_len := tot_len b |} ∧
    length m = length (block b) ∧ take (Z.to_nat (len b)) m = data b.
Proof.
  intros Hb. pose proof Hb as [Hp Hl He Hs]. pose proof (length_data b Hb) as Hd. destruct (Z.eqb_spec (payload b) 0) as [H0|H0].
  - exists (block b). split_and!; [destruct b; cbn in *; by subst|done|]. unfold data. by rewrite H0.
  - rewrite read_data by done. destruct (write_block_ok b 0 (data b)) as (m & Hw & Hm & _ & Hbs & _); [lia..|].
    rewrite Hw. exists m. split_and!; [done..|]. cbn in Hbs. replace (Z.to_nat (len b)) with (length (data b)) by lia. done.
Qed.

(** [CompactHead] moves the head to the start of its block and fills it. *)
Lemma compact_ok b next : chain_ok (b :: next) →
  ∃ b' next', CompactHead (b :: next) = Some (b' :: next') ∧ chain_ok (b' :: next') ∧
    contents (b' :: next') = contents (b :: next) ∧ payload b' = 0 ∧ AllocSize b' = AllocSize b ∧
    (next' = [] ∨ len b' = AllocSize b') ∧ (Forall (λ n, 0 < len n) next → Forall (λ n, 0 < len n) next').
Proof.
  intros Hc. pose proof Hc as (Hb & Ht & Hle & Hnext). pose proof Hb as [Hp Hl He Hs]. unfold CompactHead.
  destruct (move_to_start b Hb) as (m & -> & Hm & Hd).
  set (b0 := {| block := m; payload := 0; len := len b; tot_len := tot_len b |}).
  assert (AllocSize b0 = AllocSize b) as Ha by (unfold AllocSize, b0; cbn; by rewrite Hm).
  assert (buffer_ok b0) as Hb0 by (split; rewrite ?Ha; cbn; lia).
  destruct (compact_loop_ok next b0 (AvailableDataLength b0)) as (b' & next' & Heq & Hok & Hcon & Hpl & Hal & _ & Hend & Hpos).
  - cbn [chain_ok]. split_and!; try done.
  - by apply avail_ok.
  - rewrite Heq. exists b', next'. split_and!; try done; [|by rewrite Hal|destruct Hend; [by left|right; rewrite Hpl in *; cbn in *; lia]].
    rewrite Hcon, !contents_cons. f_equal. unfold data at 1. cbn. by rewrite drop_0.
Qed.

Lemma consume_ok c : ∀ n, chain_ok c → 0 ≤ n ≤ 0xFFFF →
  chain_ok (Consume n c) ∧ contents (Consume n c) = drop (Z.to_nat n) (contents c).
Proof.
  induction c as [|b c IH]; intros n Hc Hn; [cbn; by rewrite drop_nil|]. cbn [Consume].
  destruct (Z.ltb_spec 0 n) as [Hpos|]; [|by replace n with 0 by lia].
  pose proof Hc as (Hb & Ht & Hle & Hcc). pose proof (ok_len _ Hb). pose proof (sum_len_nonneg c Hcc) as Hs.
  rewrite sum_len_cons in Ht. pose proof (length_data b Hb). rewrite contents_cons, drop_app.
  destruct (Z.leb_spec (len b) n) as [Hall|Hpart].
  - rewrite u16_small by lia. destruct (IH (n - len b) Hcc) as [Hok Hcon]; [lia|]. split; [done|].
    rewrite Hcon. rewrite (drop_ge (data b)) by lia. cbn. f_equal. lia.
  - destruct (consume_head_ok n b Hb) as (Hok & Hd & Hln & Htt & _); [lia..|]. split.
    + cbn [chain_ok]. rewrite sum_len_cons, Hln, Htt. split_and!; [done|lia|lia|done].
    + rewrite contents_cons, Hd. f_equal. replace (_ - _)%nat with 0%nat by lia. done.
Qed.

Lemma read_loop_ok c : ∀ n out, chain_ok c → 0 ≤ n ≤ sum_by len c →
  read_loop n c out = Some (CHIP_NO_ERROR, out ++ take (Z.to_nat n) (contents c)).
Proof.
  induction c as [|b c IH]; intros n out Hc Hn.
  { cbn in Hn. replace n with 0 by lia. cbn. by rewrite app_nil_r. }
  cbn [read_loop]. destruct (Z.leb_spec n 0).
  { replace n with 0 by lia. cbn. by rewrite app_nil_r. }
  pose proof Hc as (Hb & Ht & Hle & Hcc). pose proof Hb as [Hp Hl He Hs]. pose proof (sum_len_nonneg c Hcc). pose proof (length_data b Hb).
  rewrite sum_len_cons in Hn. replace (if n <? len b then n else len b) with (Z.min n (len b)) by (destruct (Z.ltb_spec n (len b)); lia).
  rewrite read_block_ok by lia. destruct (split_data b (Z.min n (len b)) 0 Hb) as (_ & -> & _); [lia|].
  rewrite IH by (done || lia). rewrite contents_cons, take_app, <- (assoc_L app). do 4 f_equal.
  - destruct (decide (n ≤ len b)); [by rewrite Z.min_l by lia|]. rewrite Z.min_r by lia. rewrite !take_ge by lia. done.
  - f_equal. lia.
Qed.

(** ** Operations on the head *)
Lemma set_length_ok n b : buffer_ok b → tot_len b = len b → 0 ≤ n ≤ MaxDataLength b →
  let b' := SetLength n b in
  buffer_ok b' ∧ tot_len b' = n ∧ len b' = n ∧ payload b' = payload b ∧ block b' = block b ∧
  data b' = take (Z.to_nat n) (drop (Z.to_nat (payload b)) (block b)).
Proof.
  intros Hb Ht Hn. rewrite max_ok in Hn by done. pose proof Hb as [Hp Hl He Hs]. unfold SetLength, SetDataLength. cbn.
  rewrite max_ok by done. rewrite (proj2 (Z.ltb_ge _ _)) by lia. cbn. rewrite u16_small by lia.
  split_and!; try done; [split; cbn; unfold AllocSize in *; cbn; lia|lia].
Qed.

Lemma set_start_ok s b : buffer_ok b → tot_len b = len b → 0 ≤ s ≤ payload b + len b →
  let b' := SetStart s b in
  buffer_ok b' ∧ tot_len b' = len b' ∧ len b' = payload b + len b - s ∧ payload b' = s ∧ block b' = block b ∧
  data b' = take (Z.to_nat (payload b + len b - s)) (drop (Z.to_nat s) (block b)).
Proof.
  intros Hb Ht Hs'. pose proof Hb as [Hp Hl He Hs]. unfold SetStart. cbn. rewrite max_ok by done.
  rewrite (proj2 (Z.ltb_ge s 0)), (proj2 (Z.ltb_ge _ s)) by lia. rewrite (proj2 (Z.ltb_ge (len b) _)) by lia.
  rewrite Ht, u16_small by lia. replace (len b - (s - payload b)) with (payload b + len b - s) by lia.
  split_and!; try done. split; cbn; unfold AllocSize in *; cbn; lia.
Qed.

Lemma ensure_ok r b : buffer_ok b → 0 ≤ r ≤ 0xFFFF →
  if decide (r ≤ payload b ∨ r + len b ≤ AllocSize b) then
    ∃ b', EnsureReservedSize r b = Some (true, b') ∧ buffer_ok b' ∧ data b' = data b ∧ payload b' = Z.max r (payload b) ∧
      len b' = len b ∧ tot_len b' = tot_len b ∧ AllocSize b' = AllocSize b
  else EnsureReservedSize r b = Some (false, b).
Proof.
  intros Hb Hr. pose proof Hb as [Hp Hl He Hs]. unfold EnsureReservedSize. rewrite reserved_ok by done.
  destruct (Z.leb_spec r (payload b)).
  { rewrite decide_True by lia. exists b. split_and!; try done. lia. }
  destruct (Z.ltb_spec (AllocSize b) (r + len b)); [by rewrite decide_False by lia|]. rewrite decide_True by lia.
  rewrite read_data by done. rewrite u16_small by lia. replace (payload b + (r - payload b)) with r by lia.
  pose proof (length_data b Hb). destruct (write_block_ok b r (data b)) as (m & -> & Hm & _ & Hbs & _); [lia..|].
  eexists. split; [done|]. cbn. replace (r - payload b + payload b) with r by lia. split_and!; try done.
  - split; unfold AllocSize in *; cbn; lia.
  - unfold data at 1. cbn. replace (Z.to_nat (len b)) with (length (data b)) by lia. done.
  - lia.
  - unfold AllocSize. cbn. by rewrite Hm.
Qed.

(** ** Allocation *)
Section allocation.
Variable alloc : nat → Z → option bytes.
Hypothesis alloc_size : ∀ k n m, alloc k n = Some m → Z.of_nat (length m) = n.

Lemma new_ok k avail res : 0 ≤ avail → 0 ≤ res → res + avail ≤ kMaxSizeWithoutReserve →
  New alloc k avail res = match alloc k (res + avail) with
  | None => [] | Some m => [{| block := m; payload := res; len := 0; tot_len := 0 |}] end.
Proof.
  intros Ha Hr Hs. unfold New, kStructureSize, kMaxSizeWithoutReserve in *.
  by rewrite !(proj2 (Z.ltb_ge _ _)) by lia.
Qed.

Lemma new_buffer_ok k n res m : 0 ≤ res → 0 ≤ n → res + n ≤ kMaxSizeWithoutReserve → alloc k (res + n) = Some m →
  buffer_ok {| block := m; payload := res; len := 0; tot_len := 0 |}.
Proof. intros Hr Hn Hs Hm. pose proof (alloc_size _ _ _ Hm). unfold kMaxSizeWithoutReserve in *. split; unfold AllocSize; cbn; lia. Qed.

Lemma new_data_ok k d extra res m : 0 ≤ extra → 0 ≤ res → let n := Z.of_nat (length d) + extra in
  res + n ≤ kMaxSizeWithoutReserve → alloc k (res + n) = Some m →
  ∃ b, NewWithData alloc k d extra res = Some [b] ∧ chain_ok [b] ∧ data b = d ∧ payload b = res ∧ AllocSize b = res + n.
Proof.
  intros He Hr n Hs Hm. unfold NewWithData. pose proof (alloc_size _ _ _ Hm) as Hlen.
  rewrite (proj2 (Z.ltb_ge _ _)) by (unfold kMaxSizeWithoutReserve in *; lia). fold n. rewrite new_ok, Hm by lia.
  pose proof (new_buffer_ok k n res m Hr ltac:(lia) Hs Hm) as Hb. cbn [payload].
  destruct (append_data _ d Hb) as (m' & Hw & Hm' & Hd); [unfold AllocSize; cbn; lia|].
  cbn [payload len block update] in Hw. rewrite Z.add_0_r in Hw. rewrite Hw. cbn [payload block update].
  rewrite u16_small by (unfold kMaxSizeWithoutReserve in *; lia). destruct (Hd (Z.of_nat (length d))) as [Hok Hdat]. eexists. split; [done|].
  split_and!; [|done|done|unfold AllocSize; cbn; rewrite Hm'; cbn; lia].
  cbn [chain_ok]. split_and!; try done; rewrite ?sum_len_cons; cbn; unfold kMaxSizeWithoutReserve in *; lia.
Qed.

Lemma clone_buffer_ok k b : buffer_ok b →
  clone_buffer alloc k b = Some [] ∧ (AllocSize b ≤ kMaxSizeWithoutReserve → ∃ n, alloc k n = None) ∨
  ∃ b', clone_buffer alloc k b = Some [b'] ∧ chain_ok [b'] ∧ data b' = data b ∧ len b' = len b.
Proof.
  intros Hb. pose proof Hb as [Hp Hl He Hs]. unfold clone_buffer. rewrite max_ok, reserved_ok by done.
  replace (AllocSize b - payload b + payload b) with (AllocSize b) by lia.
  set (size := Z.min (AllocSize b) kMaxSizeWithoutReserve).
  destruct (decide (size < payload b + len b)) as [Hover|Hfit].
  { left. unfold size in Hover. rewrite !(proj2 (Z.ltb_lt _ _)) by lia. cbn [andb]. split; [done|lia]. }
  assert ((kMaxSizeWithoutReserve <? AllocSize b) && (kMaxSizeWithoutReserve <? payload b + len b) = false) as ->.
  { apply andb_false_iff. right. apply Z.ltb_ge. unfold size in Hfit. lia. }
  assert ((if kMaxSizeWithoutReserve <? AllocSize b then u16 (kMaxSizeWithoutReserve - payload b) else AllocSize b - payload b) =
          size - payload b) as ->.
  { unfold size in *. destruct (Z.ltb_spec kMaxSizeWithoutReserve (AllocSize b)); [rewrite u16_small|]; unfold kMaxSizeWithoutReserve in *; lia. }
  rewrite new_ok by (unfold size in *; lia). replace (payload b + (size - payload b)) with size by lia.
  destruct (alloc k size) as [m|] eqn:Hm; [|left; eauto]. right. pose proof (alloc_size _ _ _ Hm) as Hlen.
  replace (size - payload b + payload b) with size by lia. rewrite read_block_ok by (unfold size; lia).
  set (bs := take (Z.to_nat size) (drop (Z.to_nat 0) (block b))). cbn [block payload len tot_len update].
  assert (length bs = Z.to_nat size) as Hbs.
  { unfold bs. rewrite length_take, length_drop. unfold size, AllocSize in *. lia. }
  destruct (write_block_ok {| block := m; payload := payload b; len := len b; tot_len := len b |} 0 bs) as (m' & Hw & Hm' & _ & Hbs' & _);
    [lia|unfold AllocSize; cbn; lia|]. cbn in Hbs', Hm'. rewrite Hw. eexists. split; [done|].
  rewrite take_ge in Hbs' by (rewrite ?length_drop; lia). rewrite drop_0 in Hbs'. cbn [block update]. subst m'. split_and!; try done.
  - cbn [chain_ok]. split_and!; [|cbn; lia|cbn; lia|done]. split; unfold AllocSize; cbn; lia.
  - unfold data, bs. cbn. rewrite drop_0, skipn_firstn_comm, take_take. f_equal. lia.
Qed.

Lemma clone_loop_ok c : ∀ k h, chain_ok c → chain_ok h → sum_by len h + sum_by len c ≤ 0xFFFF →
  ∃ c', clone_loop alloc k c h = Some c' ∧ (c' = [] ∨ chain_ok c' ∧ contents c' = contents h ++ contents c) ∧
    (Forall (λ b, AllocSize b ≤ kMaxSizeWithoutReserve) c → (∀ k n, is_Some (alloc k n)) → h ++ c ≠ [] → c' ≠ []).
Proof.
  induction c as [|b c IH]; intros k h Hc Hh Hs; cbn [clone_loop].
  { exists h. split; [done|]. split; [right; by rewrite app_nil_r|]. by rewrite app_nil_r. }
  pose proof Hc as (Hb & _ & _ & Hcc). rewrite sum_len_cons in Hs. destruct (clone_buffer_ok k b Hb) as [[-> Hnull]|(b' & -> & Hok & Hd & Hl)].
  { exists []. split; [done|]. split; [by left|]. intros [Ha _]%Forall_cons Hall _. destruct (Hnull Ha) as [n Hn]. destruct (Hall k n) as [? ?]. congruence. }
  assert (∃ h', Handle_AddToEnd h [b'] = Some h' ∧ chain_ok h' ∧ contents h' = contents h ++ data b ∧ sum_by len h' = sum_by len h + len b ∧ h' ≠ []) as
    (h' & -> & Hok' & Hcon & Hsum & Hne).
  { destruct h as [|b0 h].
    - exists [b']. cbn [Handle_AddToEnd]. split_and!; try done; [rewrite contents_cons, Hd; by rewrite app_nil_r|rewrite sum_len_cons; cbn; lia].
    - pose proof (sum_len_nonneg c Hcc). destruct (add_to_end_ok (b0 :: h) [b'] Hh Hok) as (h' & Ha & Hok' & Hcon & Hsum & c1 & -> & _);
        [done|done|rewrite (sum_len_cons b'); cbn [sum_by foldr] in *; lia|].
      exists (c1 ++ [b']). split; [done|]. split_and!; try done.
      + rewrite Hcon, <- Hd. rewrite (contents_cons b'). by rewrite app_nil_r.
      + rewrite Hsum, (sum_len_cons b'), Hl. cbn [sum_by foldr]. lia.
      + by destruct c1. }
  destruct (IH (S k) h' Hcc Hok') as (c' & Heq & Hres & Hnn); [lia|]. exists c'. split; [done|]. split.
  - destruct Hres as [->|[Hokc Hconc]]; [by left|right]. split; [done|]. rewrite Hconc, Hcon, contents_cons. by rewrite <- (assoc_L app).
  - intros [_ Ha]%Forall_cons Hall _. apply (Hnn Ha Hall). by destruct h'.
Qed.
End allocation.

(** ** The writer *)

(** After the bytes [out] were put, what fits of them is behind the data of [b0]. *)
Record writing (b0 : PacketBuffer) (size : Z) (out : bytes) (w : BufferWriter) (b : PacketBuffer) : Prop := {
  wr_buf : mBuf w = payload b0 + len b0;
  wr_size : mSize w = size;
  wr_needed : mNeeded w = Z.of_nat (length out);
  wr_same : payload b = payload b0 ∧ len b = len b0 ∧ tot_len b = tot_len b0 ∧ AllocSize b = AllocSize b0;
  wr_block : take (Z.to_nat (payload b0 + len b0 + Z.min (Z.of_nat (length out)) size)) (block b) =
             take (Z.to_nat (payload b0 + len b0)) (block b0) ++ take (Z.to_nat size) out }.

Lemma put_ok b0 size out w b bs : buffer_ok b0 → 0 ≤ size → payload b0 + len b0 + size ≤ AllocSize b0 → writing b0 size out w b →
  ∃ w' b', Put bs w b = Some (w', b') ∧ writing b0 size (out ++ bs) w' b'.
Proof.
  intros [Hp Hl He Hs] Hsz Hfit [Hbuf Hsize Hneed (Hpl & Hle & Htl & Hal) Hblk]. unfold Put, Available. rewrite Hsize, Hneed.
  set (n := Z.of_nat (length out)) in *. set (k := Z.of_nat (length bs)).
  assert (Hlen : Z.of_nat (length (out ++ bs)) = n + k) by (rewrite length_app; lia).
  destruct (decide (n < size)) as [Hroom|Hfull].
  - rewrite (proj2 (Z.ltb_ge size n)) by lia. rewrite (proj2 (Z.ltb_lt 0 _)) by lia. rewrite Hbuf.
    replace (if size - n <? k then size - n else k) with (Z.min (size - n) k) by (destruct (Z.ltb_spec (size - n) k); lia).
    assert (length (take (Z.to_nat (Z.min (size - n) k)) bs) = Z.to_nat (Z.min (size - n) k)) as Hx by (rewrite length_take; lia).
    destruct (write_block_ok b (payload b0 + len b0 + n) (take (Z.to_nat (Z.min (size - n) k)) bs)) as (m & -> & Hm & Hb & Hbs & _); [lia|lia|].
    eexists _, _. split; [done|]. split; cbn; try done.
    + rewrite Hneed, Hlen. done.
    + split_and!; try done. rewrite <- Hal. unfold AllocSize. cbn. by rewrite Hm.
    + rewrite Hlen. rewrite Z.min_l in Hblk by lia. rewrite Hblk in Hb.
      replace (Z.to_nat (payload b0 + len b0 + Z.min (n + k) size))
        with (Z.to_nat (payload b0 + len b0 + n) + Z.to_nat (Z.min (size - n) k))%nat by lia.
      rewrite <- (take_take_drop m), Hb. rewrite Hx in Hbs. rewrite Hbs, <- (assoc_L app). f_equal.
      rewrite take_app. f_equal. destruct (decide (k ≤ size - n)); [rewrite !take_ge by lia|f_equal; lia]. done.
  - assert ((0 <? (if size <? n then 0 else size - n)) = false) as -> by (destruct (Z.ltb_spec size n); apply Z.ltb_ge; lia).
    eexists _, _. split; [done|]. split; cbn; try done; [by rewrite Hneed, Hlen|].
    rewrite Hlen. rewrite Z.min_r in Hblk |- * by lia. rewrite Hblk, take_app_le by lia. done.
Qed.

Lemma put_all_ok l b0 size : ∀ out w b, buffer_ok b0 → 0 ≤ size → payload b0 + len b0 + size ≤ AllocSize b0 → writing b0 size out w b →
  ∃ w' b', put_all l w b = Some (w', b') ∧ writing b0 size (out ++ concat l) w' b'.
Proof.
  induction l as [|bs l IH]; intros out w b Hb Hsz Hfit Hw; cbn [put_all concat].
  { exists w, b. by rewrite app_nil_r. }
  destruct (put_ok b0 size out w b bs Hb Hsz Hfit Hw) as (w' & b' & -> & Hw').
  rewrite (assoc_L app). by apply IH.
Qed.

(** [Finalize] hands out the buffer when everything fits.  Its data are as long as
    what was put, counted from the start of the data that were there before. *)
Lemma finalize_ok b0 size out w b : buffer_ok b0 → tot_len b0 = len b0 → 0 ≤ size → payload b0 + len b0 + size ≤ AllocSize b0 →
  writing b0 size out w b →
  if decide (Z.of_nat (length out) ≤ size) then
    ∃ b', Finalize w b = [b'] ∧ chain_ok [b'] ∧ data b' = take (length out) (data b0 ++ out)
  else Finalize w b = [].
Proof.
  intros Hb Ht Hsz Hfit [Hbuf Hsize Hneed (Hpl & Hle & Htl & Hal) Hblk]. unfold Finalize, Fit. rewrite Hneed, Hsize.
  pose proof Hb as [Hp Hl He Hs]. case_decide as Hd; [|by rewrite (proj2 (Z.leb_gt _ _)) by lia].
  rewrite (proj2 (Z.leb_le _ _)) by lia. assert (buffer_ok b) as Hb' by (split; lia).
  rewrite u16_small by lia. destruct (set_length_ok (Z.of_nat (length out)) b Hb') as (Hok & Htt & Hll & _ & _ & Hdat);
    [lia|rewrite max_ok by done; lia|].
  eexists. split; [done|]. split.
  { cbn [chain_ok]. rewrite sum_len_cons, Htt, Hll. split_and!; [done|cbn; lia|lia|done]. }
  rewrite Hdat, Nat2Z.id, Hpl.
  rewrite Z.min_l, (take_ge out) in Hblk by lia. apply (f_equal (drop (Z.to_nat (payload b0)))) in Hblk.
  rewrite skipn_firstn_comm in Hblk. apply (f_equal (take (length out))) in Hblk. rewrite take_take in Hblk.
  rewrite Nat.min_l in Hblk by lia. rewrite Hblk. rewrite drop_app_le by (rewrite length_take; unfold AllocSize in *; lia).
  rewrite skipn_firstn_comm. unfold data. do 3 f_equal. lia.
Qed.

Lemma writing_start b size : 0 ≤ size → writing b size [] {| mBuf := payload b + len b; mSize := size; mNeeded := 0 |} b.
Proof. intros. split; cbn; try done. rewrite take_nil, app_nil_r. do 2 f_equal. lia. Qed.

(** ** The properties *)

(** C23: A chain refines the list of its bytes.  Adding a chain at the end appends, or
    dies when the length does not fit in 16 bits; compacting keeps the bytes and moves
    as many as fit into the first buffer, at the start of its block; consuming drops
    the first bytes, whatever the buffers they are in; reading gives a prefix, and an
    error when more is asked for than there is.  The total lengths stay right. *)
Theorem chain_operations_refine c : chain_ok c → c ≠ [] →
  TotalLength c = Some (Z.of_nat (length (contents c))) ∧
  (∀ p, chain_ok p → p ≠ [] →
     if decide (Z.of_nat (length (contents c ++ contents p)) ≤ 0xFFFF)
     then ∃ c', AddToEnd c p = Some c' ∧ chain_ok c' ∧ contents c' = contents c ++ contents p
     else AddToEnd c p = None) ∧
  (∃ b next, CompactHead c = Some (b :: next) ∧ chain_ok (b :: next) ∧ contents (b :: next) = contents c ∧ payload b = 0 ∧
     AllocSize <$> head c = Some (AllocSize b) ∧ (next = [] ∨ len b = AllocSize b)) ∧
  (∀ n, 0 ≤ n ≤ 0xFFFF → chain_ok (Consume n c) ∧ contents (Consume n c) = drop (Z.to_nat n) (contents c)) ∧
  (∀ n, 0 ≤ n → Read n c = Some (if decide (n ≤ Z.of_nat (length (contents c)))
     then (CHIP_NO_ERROR, take (Z.to_nat n) (contents c)) else (CHIP_ERROR_BUFFER_TOO_SMALL, []))).
Proof.
  intros Hc Hne. rewrite (length_contents c Hc). pose proof (total_ok c Hc Hne) as Ht. split_and!.
  - done.
  - intros p Hp Hpn. rewrite length_app, Nat2Z.inj_add, !length_contents by done. case_decide as Hd.
    + destruct (add_to_end_ok c p Hc Hp Hne Hpn Hd) as (c' & ? & ? & ? & _). eauto.
    + apply add_to_end_dies; try done. lia.
  - destruct c as [|b next]; [done|]. destruct (compact_ok b next Hc) as (b' & next' & ? & ? & ? & ? & Ha & ? & _).
    exists b', next'. split_and!; try done. cbn. by rewrite Ha.
  - intros n Hn. by apply consume_ok.
  - intros n Hn. unfold Read. rewrite Ht. case_decide as Hd.
    + rewrite (proj2 (Z.ltb_ge _ _)) by lia. by rewrite read_loop_ok.
    + by rewrite (proj2 (Z.ltb_lt _ _)) by lia.
Qed.

(** The head of a chain gets room in front of its data without changing them,
    exactly when its block is large enough or the room is there, and moving its start
    and setting its length select the bytes of the block that they say. *)
Theorem reserve_and_resize_correct b : buffer_ok b → tot_len b = len b →
  (∀ r, 0 ≤ r ≤ 0xFFFF →
     if decide (r ≤ payload b ∨ r + len b ≤ AllocSize b)
     then ∃ b', EnsureReservedSize r b = Some (true, b') ∧ chain_ok [b'] ∧ data b' = data b ∧ r ≤ ReservedSize b'
     else EnsureReservedSize r b = Some (false, b)) ∧
  (∀ s n, 0 ≤ s ≤ payload b + len b → 0 ≤ n ≤ AllocSize b - s →
     let b' := SetLength n (SetStart s b) in
     chain_ok [b'] ∧ block b' = block b ∧ data b' = take (Z.to_nat n) (drop (Z.to_nat s) (block b))).
Proof.
  intros Hb Ht. split.
  - intros r Hr. pose proof (ensure_ok r b Hb Hr) as H. case_decide; [|done].
    destruct H as (b' & He & Hok & Hd & Hp & Hl & Htt & _). exists b'. split_and!; try done.
    + cbn [chain_ok]. rewrite sum_len_cons, Htt, Ht, Hl. pose proof (ok_end _ Hok). pose proof (ok_size _ Hok). pose proof (ok_payload _ Hok).
      split_and!; [done|cbn; lia|lia|done].
    + rewrite reserved_ok by done. lia.
  - intros s n Hs Hn. destruct (set_start_ok s b Hb Ht Hs) as (Hok & Hl & _ & Hp & Hblk & _).
    assert (AllocSize (SetStart s b) = AllocSize b) as Ha by (unfold AllocSize; by rewrite Hblk).
    destruct (set_length_ok n _ Hok Hl) as (Hok' & Ht' & Hl' & _ & Hblk' & Hd'); [rewrite max_ok by done; rewrite Hp; lia|].
    split_and!; [|by rewrite Hblk'|by rewrite Hd', Hp, Hblk].
    cbn [chain_ok]. rewrite sum_len_cons, Ht', Hl'. pose proof (ok_size _ Hb). split_and!; [done|cbn; lia|lia|done].
Qed.

Section allocated.
Variable alloc : nat → Z → option bytes.
Hypothesis alloc_size : ∀ k n m, alloc k n = Some m → Z.of_nat (length m) = n.

(** What is put through a writer into a new buffer is what is read from it, or
    [Finalize] hands out no buffer when it does not fit; and a clone of a chain holds
    the same bytes in its own blocks, or is null when the heap is exhausted or the
    blocks are larger than the largest one. *)
Theorem packet_data_roundtrip k size res l m : 0 ≤ size → 0 ≤ res → res + size ≤ kMaxSizeWithoutReserve → alloc k (res + size) = Some m →
  let out := concat l in
  (∃ b w b', New alloc k size res = [b] ∧ put_all l (PacketBufferWriter b) b = Some (w, b') ∧
     if decide (Z.of_nat (length out) ≤ size)
     then ∃ b2, Finalize w b' = [b2] ∧ Read (Z.of_nat (length out)) [b2] = Some (CHIP_NO_ERROR, out)
     else Finalize w b' = []) ∧
  (∀ c, chain_ok c → ∃ c', CloneData alloc k c = Some c' ∧ (c' = [] ∨ chain_ok c' ∧ contents c' = contents c) ∧
     (Forall (λ b, AllocSize b ≤ kMaxSizeWithoutReserve) c → (∀ k n, is_Some (alloc k n)) → c ≠ [] → c' ≠ [])).
Proof.
  intros Hsz Hr Hs Hm out. split.
  - rewrite new_ok, Hm by done. pose proof (new_buffer_ok alloc alloc_size k size res m Hr Hsz Hs Hm) as Hb.
    set (b := {| block := m; payload := res; len := 0; tot_len := 0 |}) in *.
    assert (AllocSize b = res + size) as Ha by exact (alloc_size _ _ _ Hm).
    assert (PacketBufferWriter b = {| mBuf := payload b + len b; mSize := size; mNeeded := 0 |}) as Hw.
    { unfold PacketBufferWriter. rewrite avail_ok by done. f_equal. cbn [payload len b]. lia. }
    destruct (put_all_ok l b size [] (PacketBufferWriter b) b) as (w & b' & Hput & Hw'); [done|done|cbn [payload len b]; lia| |].
    { rewrite Hw. by apply writing_start. }
    exists b, w, b'. split; [done|]. split; [done|]. fold out in Hw'. cbn [app] in Hw'.
    pose proof (finalize_ok b size out w b' Hb eq_refl Hsz ltac:(cbn [payload len b]; lia) Hw') as Hf. case_decide as Hd; [|done].
    destruct Hf as (b2 & -> & Hok & Hdat). exists b2. split; [done|].
    change (data b) with (@nil Z) in Hdat. cbn [app] in Hdat. rewrite take_ge in Hdat by done.
    assert (contents [b2] = out) as Hcon by (rewrite contents_cons; cbn; by rewrite app_nil_r).
    pose proof (length_contents _ Hok) as Hlc. rewrite Hcon in Hlc.
    unfold Read. rewrite total_ok, <- Hlc by done. rewrite Z.ltb_irrefl, read_loop_ok by (done || lia).
    rewrite Hcon, Nat2Z.id, take_ge by done. done.
  - intros c Hc. destruct (clone_loop_ok alloc alloc_size c k [] Hc) as (c' & He & Hres & Hnn); [done|by apply chain_le|].
    exists c'. split; [done|]. by split.
Qed.

End allocated.

(** On a buffer that has data already the writer puts behind them, but
    [Finalize] sets the length to what was put alone: the buffer then holds a prefix
    of the old and the new data, as long as the new data. *)
Theorem writer_forgets_old_data b l : buffer_ok b → tot_len b = len b → Z.of_nat (length (concat l)) ≤ AvailableDataLength b →
  ∃ w b' b2, put_all l (PacketBufferWriter b) b = Some (w, b') ∧ Finalize w b' = [b2] ∧
    data b2 = take (length (concat l)) (data b ++ concat l).
Proof.
  intros Hb Ht Hl. pose proof (ok_end _ Hb). rewrite avail_ok in Hl by done.
  assert (PacketBufferWriter b = {| mBuf := payload b + len b; mSize := AllocSize b - payload b - len b; mNeeded := 0 |}) as Hw.
  { unfold PacketBufferWriter. by rewrite avail_ok. }
  destruct (put_all_ok l b (AllocSize b - payload b - len b) [] (PacketBufferWriter b) b) as (w & b' & Hput & Hw'); [done|lia|lia| |].
  { rewrite Hw. apply writing_start. lia. }
  pose proof (finalize_ok b (AllocSize b - payload b - len b) (concat l) w b' Hb Ht ltac:(lia) ltac:(lia) Hw') as Hf. rewrite decide_True in Hf by done.
  destruct Hf as (b2 & Hfin & _ & Hd). by exists w, b', b2.
Qed.

Module PacketDemo.
Definition heap (k : nat) (n : Z) : option bytes := if 0 <=? n then Some (replicate (Z.to_nat n) 0) else None.
Lemma heap_size k n m : heap k n = Some m → Z.of_nat (length m) = n.
Proof. unfold heap. destruct (Z.leb_spec 0 n); [|done]. intros [= <-]. rewrite length_replicate. lia. Qed.

(** Two buffers, the first with free space before and after its data. *)
Definition first : PacketBuffer := {| block := [0; 0; 1; 2; 3; 0]; payload := 2; len := 3; tot_len := 5 |}.
Definition second : PacketBuffer := {| block := [4; 5]; payload := 0; len := 2; tot_len := 2 |}.

Lemma demo_chain_ok : chain_ok [first; second].
Proof. split_and!; try done; split; vm_compute; intros [=]. Qed.

Example compacted : CompactHead [first; second] =
  Some [{| block := [1; 2; 3; 4; 5; 0]; payload := 0; len := 5; tot_len := 5 |}].
Proof. reflexivity. Qed.

Lemma chain_operations_refine_witness : TotalLength [first; second] = Some 5 ∧
  Consume 4 [first; second] = [{| block := [4; 5]; payload := 1; len := 1; tot_len := 1 |}] ∧
  Read 4 [first; second] = Some (CHIP_NO_ERROR, [1; 2; 3; 4]).
Proof.
  destruct (chain_operations_refine [first; second] demo_chain_ok) as (Ht & _ & _ & _ & Hr); [done|]. split; [exact Ht|]. split; [reflexivity|].
  exact (Hr 4 ltac:(lia)).
Defined.

Lemma reserve_and_resize_correct_witness :
  ∃ b', EnsureReservedSize 3 (first <| tot_len := 3 |>) = Some (true, b') ∧ chain_ok [b'] ∧ data b' = [1; 2; 3] ∧ 3 ≤ ReservedSize b'.
Proof.
  destruct (reserve_and_resize_correct (first <| tot_len := 3 |>)) as [H _]; [split; vm_compute; intros [=]|reflexivity|].
  exact (H 3 ltac:(lia)).
Defined.

Lemma writer_forgets_old_data_witness : ∃ w b' b2,
  put_all [[9]] (PacketBufferWriter (first <| tot_len := 3 |>)) (first <| tot_len := 3 |>) = Some (w, b') ∧ Finalize w b' = [b2] ∧ data b2 = [1].
Proof.
  refine (writer_forgets_old_data (first <| tot_len := 3 |>) [[9]] _ _ _); [split; vm_compute; intros [=]|reflexivity|vm_compute; intros [=]].
Defined.

Lemma packet_data_roundtrip_witness :
  (∃ b w b', New heap 0 4 2 = [b] ∧ put_all [[7; 8]; [9]] (PacketBufferWriter b) b = Some (w, b') ∧
     ∃ b2, Finalize w b' = [b2] ∧ Read 3 [b2] = Some (CHIP_NO_ERROR, [7; 8; 9])) ∧
  ∃ c', CloneData heap 0 [first; second] = Some c' ∧ (c' = [] ∨ chain_ok c' ∧ contents c' = [1; 2; 3; 4; 5]).
Proof.
  destruct (packet_data_roundtrip heap heap_size 0 4 2 [[7; 8]; [9]] (replicate 6 0)) as [Hw Hc]; [lia|lia|vm_compute; intros [=]|reflexivity|].
  split; [exact Hw|]. destruct (Hc [first; second] demo_chain_ok) as (c' & He & Hr & _). exists c'. split; [exact He|exact Hr].
Defined.
End PacketDemo.
