(* ===== verification/BtpEngine.v ===== *)
(** * BtpEngine: the Bluetooth transport protocol

    [src/src/ble/BtpEngine.h] and [BtpEngine.cpp], without the test packets
    ([CHIP_ENABLE_CHIPOBLE_TEST]).  The engine splits a message into fragments that
    fit a Bluetooth characteristic and puts them together again; every fragment has a
    sequence number of one byte, and may carry the acknowledgement of the fragments
    received.  [mAppState], a pointer the engine only keeps, and logging are left out.

    A handle is a chain of [PacketBuffer].  [None] is a null handle used, or an access
    outside a buffer. *)
From S2P Require Import Prelude Zcl ChipError MessageHeader PacketBuffer.

Definition kTransferProtocolHeaderFlagsSize : Z := 1.
Definition kTransferProtocolSequenceNumSize : Z := 1.
Definition kTransferProtocolAckSize : Z := 1.
Definition kTransferProtocolMsgLenSize : Z := 2.
Definition kTransferProtocolMaxHeaderSize : Z :=
  kTransferProtocolHeaderFlagsSize + kTransferProtocolAckSize + kTransferProtocolSequenceNumSize + kTransferProtocolMsgLenSize.
Definition kTransferProtocolMidFragmentMaxHeaderSize : Z :=
  kTransferProtocolHeaderFlagsSize + kTransferProtocolAckSize + kTransferProtocolSequenceNumSize.
Definition kTransferProtocolStandaloneAckHeaderSize : Z :=
  kTransferProtocolHeaderFlagsSize + kTransferProtocolAckSize + kTransferProtocolSequenceNumSize.
Definition CHIP_CONFIG_BLE_PKT_RESERVED_SIZE : Z := 0.

Inductive State_t : Set := kState_Idle | kState_InProgress | kState_Complete | kState_Error.
#[export] Instance State_t_eq_dec : EqDecision State_t.
Proof. solve_decision. Defined.

(** [HeaderFlags] *)
Definition kStartMessage : Z := 0x01.
Definition kContinueMessage : Z := 0x02.
Definition kEndMessage : Z := 0x04.
Definition kFragmentAck : Z := 0x08.
Definition sDefaultFragmentSize : Z := 20.
Definition sMaxFragmentSize : Z := 244.

Record BtpEngine := {
  mRxState : State_t;
  mRxLength : Z;
  mRxBuf : chain;
  mRxNextSeqNum : Z;
  mRxNewestUnackedSeqNum : Z;
  mRxOldestUnackedSeqNum : Z;
  mRxFragmentSize : Z;
  mTxState : State_t;
  mTxLength : Z;
  mTxBuf : chain;
  mTxNextSeqNum : Z;
  mTxNewestUnackedSeqNum : Z;
  mTxOldestUnackedSeqNum : Z;
  mExpectingAck : bool;
  mTxFragmentSize : Z;
  mRxCharCount : Z;
  mRxPacketCount : Z;
  mTxCharCount : Z;
  mTxPacketCount : Z }.
#[export] Instance eta_engine : Eta BtpEngine := fun e =>
  {| mRxState := mRxState e; mRxLength := mRxLength e; mRxBuf := mRxBuf e; mRxNextSeqNum := mRxNextSeqNum e;
     mRxNewestUnackedSeqNum := mRxNewestUnackedSeqNum e; mRxOldestUnackedSeqNum := mRxOldestUnackedSeqNum e;
     mRxFragmentSize := mRxFragmentSize e; mTxState := mTxState e; mTxLength := mTxLength e; mTxBuf := mTxBuf e;
     mTxNextSeqNum := mTxNextSeqNum e; mTxNewestUnackedSeqNum := mTxNewestUnackedSeqNum e;
     mTxOldestUnackedSeqNum := mTxOldestUnackedSeqNum e; mExpectingAck := mExpectingAck e; mTxFragmentSize := mTxFragmentSize e;
     mRxCharCount := mRxCharCount e; mRxPacketCount := mRxPacketCount e; mTxCharCount := mTxCharCount e;
     mTxPacketCount := mTxPacketCount e |}.

(** [mRxLength] and [mTxLength] are not initialised: they keep their values. *)
Definition Init (expect_first_ack : bool) (e : BtpEngine) : BtpEngine :=
  {| mRxState := kState_Idle; mRxLength := mRxLength e; mRxBuf := [];
     mRxNextSeqNum := if expect_first_ack then 0 else 1;
     mRxNewestUnackedSeqNum := 0; mRxOldestUnackedSeqNum := 0; mRxFragmentSize := sDefaultFragmentSize;
     mTxState := kState_Idle; mTxLength := mTxLength e; mTxBuf := [];
     mTxNextSeqNum := if expect_first_ack then 1 else 0;
     mTxNewestUnackedSeqNum := 0; mTxOldestUnackedSeqNum := 0; mExpectingAck := expect_first_ack;
     mTxFragmentSize := sDefaultFragmentSize; mRxCharCount := 0; mRxPacketCount := 0; mTxCharCount := 0; mTxPacketCount := 0 |}.
Definition SetTxFragmentSize (size : Z) (e : BtpEngine) : BtpEngine := e <| mTxFragmentSize := size |>.
Definition SetRxFragmentSize (size : Z) (e : BtpEngine) : BtpEngine := e <| mRxFragmentSize := size |>.

(** ** Sequence numbers *)
Definition IncSeqNum (n : Z) : Z := u8 (Z.land 0xff (n + 1)).

Definition GetAndIncrementNextTxSeqNum (e : BtpEngine) : Z * BtpEngine :=
  let ret := mTxNextSeqNum e in
  let e := if negb (mExpectingAck e) then e <| mExpectingAck := true |> <| mTxOldestUnackedSeqNum := mTxNextSeqNum e |> else e in
  (ret, e <| mTxNewestUnackedSeqNum := mTxNextSeqNum e |> <| mTxNextSeqNum ::= IncSeqNum |>).

Definition GetAndRecordRxAckSeqNum (e : BtpEngine) : Z * BtpEngine :=
  (mRxNewestUnackedSeqNum e, e <| mRxNewestUnackedSeqNum := mRxNextSeqNum e |> <| mRxOldestUnackedSeqNum := mRxNextSeqNum e |>).

Definition HasUnackedData (e : BtpEngine) : bool := negb (mRxOldestUnackedSeqNum e =? mRxNextSeqNum e).

Definition IsValidAck (ack_num : Z) (e : BtpEngine) : bool :=
  if negb (mExpectingAck e) then false
  else if mTxOldestUnackedSeqNum e <=? mTxNewestUnackedSeqNum e
  then (ack_num <=? mTxNewestUnackedSeqNum e) && (mTxOldestUnackedSeqNum e <=? ack_num)
  else (ack_num <=? mTxNewestUnackedSeqNum e) || (mTxOldestUnackedSeqNum e <=? ack_num).

Definition HandleAckReceived (ack_num : Z) (e : BtpEngine) : CHIP_ERROR * BtpEngine :=
  if negb (IsValidAck ack_num e) then (BLE_ERROR_INVALID_ACK, e)
  else if mTxNewestUnackedSeqNum e =? ack_num
  then (CHIP_NO_ERROR, e <| mTxOldestUnackedSeqNum := ack_num |> <| mExpectingAck := false |>)
  else (CHIP_NO_ERROR, e <| mTxOldestUnackedSeqNum := IncSeqNum ack_num |>).

Definition EncodeStandAloneAck (data : chain) (e : BtpEngine) : option (CHIP_ERROR * chain * BtpEngine) :=
  match data with
  | [] => None
  | b :: next =>
      let! (room, b) := EnsureReservedSize CHIP_CONFIG_BLE_PKT_RESERVED_SIZE b in
      if negb room then Some (CHIP_ERROR_NO_MEMORY, b :: next, e)
      else if MaxDataLength b <? kTransferProtocolStandaloneAckHeaderSize then Some (CHIP_ERROR_NO_MEMORY, b :: next, e)
      else
        let (ack, e) := GetAndRecordRxAckSeqNum e in
        let (seq, e) := GetAndIncrementNextTxSeqNum e in
        let! b := write_block b (payload b) [kFragmentAck; ack; seq] in
        Some (CHIP_NO_ERROR, SetLength kTransferProtocolStandaloneAckHeaderSize b :: next, e)
  end.

(** ** Sending *)

(** The header after the flags: the acknowledgement, if any, and the number. *)
Definition fragment_numbers (send_ack : bool) (e : BtpEngine) : bytes * BtpEngine :=
  let (ack, e) := if send_ack then (let (ack, e) := GetAndRecordRxAckSeqNum e in ([ack], e)) else ([], e) in
  let (seq, e) := GetAndIncrementNextTxSeqNum e in (ack ++ [seq], e).

(** The length of the fragment, the flags, and the header, whose [cursor] bytes start
    at [characteristic]. *)
Definition finish_fragment (characteristic headerFlags : Z) (header : bytes) (b : PacketBuffer) (e : BtpEngine) : option (bool * BtpEngine) :=
  let cursor := 1 + Z.of_nat (length header) in
  let last := mTxLength e + cursor <=? mTxFragmentSize e in
  let flags := if last then flag_Set headerFlags kEndMessage else headerFlags in
  let b := if last then SetLength (u16 (mTxLength e + cursor)) b else SetLength (mTxFragmentSize e) b in
  let e := if last then e <| mTxLength := 0 |> <| mTxState := kState_Complete |> <| mTxPacketCount ::= fun n => u16 (n + 1) |>
           else e <| mTxLength := u16 (mTxLength e + cursor - mTxFragmentSize e) |> in
  let! b := write_block b characteristic (flags :: header) in
  Some (true, e <| mTxBuf := b :: tl (mTxBuf e) |>).

Definition ack_flag (send_ack : bool) (flags : Z) : Z := if send_ack then flag_Set flags kFragmentAck else flags.

(** The first fragment of the message in [data], whose first buffer is [b]. *)
Definition start_message (data : chain) (b : PacketBuffer) (send_ack : bool) (e : BtpEngine) : option (bool * BtpEngine) :=
  let e := e <| mTxBuf := data |> <| mTxState := kState_InProgress |> <| mTxLength := len b |> in
  let header_size := if send_ack then kTransferProtocolMaxHeaderSize
                     else kTransferProtocolMaxHeaderSize - kTransferProtocolAckSize in
  let! (room, b) := EnsureReservedSize (header_size + CHIP_CONFIG_BLE_PKT_RESERVED_SIZE) b in
  if negb room then Some (false, e <| mTxState := kState_Error |> <| mTxBuf := [] |>)
  else
    let characteristic := payload b - header_size in
    let b := SetStart characteristic b in
    let (numbers, e) := fragment_numbers send_ack e in
    let header := numbers ++ [u8 (Z.land (mTxLength e) 0xff); u8 (Z.shiftr (mTxLength e) 8)] in
    finish_fragment characteristic (ack_flag send_ack kStartMessage) header b e.

(** The next fragment of the message in [b]. *)
Definition continue_message (b : PacketBuffer) (send_ack : bool) (e : BtpEngine) : option (bool * BtpEngine) :=
  let characteristic := payload b + mTxFragmentSize e in
  let characteristic := characteristic - (if send_ack then kTransferProtocolMidFragmentMaxHeaderSize
                                          else kTransferProtocolMidFragmentMaxHeaderSize - kTransferProtocolAckSize) in
  let b := SetStart characteristic b in
  let (header, e) := fragment_numbers send_ack e in
  finish_fragment characteristic (ack_flag send_ack kContinueMessage) header b e.

Definition HandleCharacteristicSend (data : chain) (send_ack : bool) (e : BtpEngine) : option (bool * BtpEngine) :=
  let e := e <| mTxCharCount ::= fun n => u16 (n + 1) |> in
  if send_ack && negb (HasUnackedData e) then Some (false, e)
  else match mTxState e, data, mTxBuf e with
  | kState_Idle, [], _ => Some (false, e)
  | kState_Idle, b :: _, _ => start_message data b send_ack e
  | kState_InProgress, _ :: _, _ => Some (false, e)
  | kState_InProgress, [], [] => None
  | kState_InProgress, [], b :: _ => continue_message b send_ack e
  | _, _, _ => Some (false, e)
  end.

Definition TakeTxPacket (e : BtpEngine) : chain * BtpEngine :=
  let e' := if decide (mTxState e = kState_Complete) then e <| mTxState := kState_Idle |> else e in
  (mTxBuf e, e' <| mTxBuf := [] |>).
Definition TakeRxPacket (e : BtpEngine) : chain * BtpEngine :=
  let e' := if decide (mRxState e = kState_Complete) then e <| mRxState := kState_Idle |> else e in
  (mRxBuf e, e' <| mRxBuf := [] |>).

(** The bytes that go out: the data of the engine's buffer,
    which the layer above borrows ([BorrowTxPacket]). *)
Definition transmitted (e : BtpEngine) : bytes := match mTxBuf e with b :: _ => data b | [] => [] end.

(** ** Receiving

    A step either leaves for the label [exit] with an error ([CHIP_NO_ERROR] for a
    stand-alone acknowledgement), or goes on. *)
Record receiving := { rx_engine : BtpEngine; rx_data : chain; receivedAck : Z; didReceiveAck : bool }.
#[export] Instance eta_receiving : Eta receiving := fun x =>
  {| rx_engine := rx_engine x; rx_data := rx_data x; receivedAck := receivedAck x; didReceiveAck := didReceiveAck x |}.
Abbreviation rx_step A := (option ((CHIP_ERROR * receiving) + A)).

(** [VerifyOrExit] *)
Definition verify_or_exit (p : bool) (err : CHIP_ERROR) (x : receiving) : rx_step unit :=
  if p then Some (inr ()) else Some (inl (err, x)).
Definition read_or_exit (n : nat) (r : Reader) (x : receiving) : rx_step (Z * Reader) :=
  match read_u n r with inl err => Some (inl (err, x)) | inr v => Some (inr v) end.
(** [data->Start()] and [DataLength()] as a reader *)
Definition data_reader (c : chain) : option Reader :=
  match c with
  | [] => None
  | b :: _ => let! bs := read_block b (payload b) (len b) in Some {| rd_rest := bs; OctetsRead := 0 |}
  end.
Definition on_head (f : PacketBuffer → PacketBuffer) (c : chain) : option chain :=
  match c with [] => None | b :: next => Some (f b :: next) end.

Definition DidReceiveData (rx_flags : Z) : bool := flag_Has rx_flags (Z.lor (Z.lor kStartMessage kContinueMessage) kEndMessage).

(** The acknowledgement, if there is one. *)
Definition receive_ack (reader : Reader) (x : receiving) : rx_step (receiving * Reader) :=
  if didReceiveAck x then
    try! (ack, reader) := read_or_exit 1 reader x in
    let x := x <| receivedAck := ack |> in
    let (err, e) := HandleAckReceived ack (rx_engine x) in
    let x := x <| rx_engine := e |> in
    try! _ := verify_or_exit (is_no_error err) err x in Some (inr (x, reader))
  else Some (inr (x, reader)).

(** The sequence number; the data are then those of the fragment. *)
Definition receive_seq (rx_flags : Z) (reader : Reader) (x : receiving) : rx_step receiving :=
  try! (seq, reader) := read_or_exit 1 reader x in
  let x := x <| rx_engine ::= fun e => e <| mRxNewestUnackedSeqNum := seq |> |> in
  try! _ := verify_or_exit (seq =? mRxNextSeqNum (rx_engine x)) BLE_ERROR_INVALID_BTP_SEQUENCE_NUMBER x in
  let x := x <| rx_engine ::= fun e => e <| mRxNextSeqNum ::= IncSeqNum |> |> in
  try! _ := verify_or_exit (DidReceiveData rx_flags) CHIP_NO_ERROR x in
  try! _ := verify_or_exit (OctetsRead reader <=? mRxFragmentSize (rx_engine x)) BLE_ERROR_REASSEMBLER_INCORRECT_STATE x in
  let! data := on_head (fun b => SetLength (Z.min (len b) (mRxFragmentSize (rx_engine x))) b) (rx_data x) in
  let! data := on_head (ConsumeHead (u16 (OctetsRead reader))) data in
  Some (inr (x <| rx_data := data |>)).

Definition receive_header (x : receiving) : rx_step (Z * receiving) :=
  let! reader := data_reader (rx_data x) in
  let x := x <| rx_engine ::= fun e => e <| mRxCharCount ::= fun n => u16 (n + 1) |> |> in
  try! (rx_flags, reader) := read_or_exit 1 reader x in
  let x := x <| didReceiveAck := flag_Has rx_flags kFragmentAck |> in
  try! (x, reader) := receive_ack reader x in
  try! x := receive_seq rx_flags reader x in
  Some (inr (rx_flags, x)).

(** [mRxBuf->AddToEnd(std::move(data)); mRxBuf->CompactHead();] and the check *)
Definition add_fragment (x : receiving) : rx_step receiving :=
  let! buf := AddToEnd (mRxBuf (rx_engine x)) (rx_data x) in
  let! buf := CompactHead buf in
  let x := x <| rx_engine ::= fun e => e <| mRxBuf := buf |> |> <| rx_data := [] |> in
  try! _ := verify_or_exit (length buf =? 1)%nat CHIP_ERROR_INBOUND_MESSAGE_TOO_BIG x in Some (inr x).

Section receive.
Variable alloc : nat → Z → option bytes.

Definition receive_data (k : nat) (rx_flags : Z) (x : receiving) : rx_step receiving :=
  match mRxState (rx_engine x) with
  | kState_Idle =>
      let! startReader := data_reader (rx_data x) in
      try! _ := verify_or_exit (flag_Has rx_flags kStartMessage) BLE_ERROR_INVALID_BTP_HEADER_FLAGS x in
      try! (length, startReader) := read_or_exit 2 startReader x in
      let! data := on_head (ConsumeHead (u16 (OctetsRead startReader))) (rx_data x) in
      let buf := New alloc k kMaxSize kDefaultHeaderReserve in
      let x := x <| rx_engine ::= fun e => e <| mRxLength := length |> <| mRxState := kState_InProgress |> <| mRxBuf := buf |> |>
                 <| rx_data := data |> in
      try! _ := verify_or_exit (match buf with [] => false | _ => true end) CHIP_ERROR_NO_MEMORY x in
      add_fragment x
  | kState_InProgress =>
      try! _ := verify_or_exit (negb (flag_Has rx_flags kStartMessage)) BLE_ERROR_INVALID_BTP_HEADER_FLAGS x in
      try! _ := verify_or_exit (flag_Has rx_flags (Z.lor kContinueMessage kEndMessage)) BLE_ERROR_INVALID_BTP_HEADER_FLAGS x in
      add_fragment x
  | _ => Some (inl (BLE_ERROR_REASSEMBLER_INCORRECT_STATE, x))
  end.

(** The last fragment: padding is cut off, and the length must be the announced one. *)
Definition receive_end (rx_flags : Z) (x : receiving) : rx_step receiving :=
  if flag_Has rx_flags kEndMessage then
    match mRxBuf (rx_engine x) with
    | [] => None
    | b :: next =>
        let mRxLength := mRxLength (rx_engine x) in
        let b := if 0 <? len b - mRxLength then SetLength mRxLength b else b in
        let x := x <| rx_engine ::= fun e => e <| mRxBuf := b :: next |> |> in
        try! _ := verify_or_exit (len b =? mRxLength) BLE_ERROR_REASSEMBLER_MISSING_DATA x in
        Some (inr (x <| rx_engine ::= fun e => e <| mRxState := kState_Complete |> <| mRxPacketCount ::= fun n => u16 (n + 1) |> |>))
    end
  else Some (inr x).

Definition receive_steps (k : nat) (x : receiving) : rx_step receiving :=
  try! _ := verify_or_exit (match rx_data x with [] => false | _ => true end) CHIP_ERROR_INVALID_ARGUMENT x in
  try! (rx_flags, x) := receive_header x in
  try! x := receive_data k rx_flags x in
  receive_end rx_flags x.

(** The result has the engine, what is left of the handle, and the two references. *)
Definition HandleCharacteristicReceived (k : nat) (data : chain) (ack : Z) (did : bool) (e : BtpEngine) : option (CHIP_ERROR * receiving) :=
  let! r := receive_steps k {| rx_engine := e; rx_data := data; receivedAck := ack; didReceiveAck := did |} in
  match r with
  | inr x => Some (CHIP_NO_ERROR, x)
  | inl (err, x) =>
      if is_no_error err then Some (CHIP_NO_ERROR, x)
      else
        let x := x <| rx_engine ::= fun e => e <| mRxState := kState_Error |> |> in
        match rx_data x with
        | [] => Some (err, x)
        | data => let! buf := Handle_AddToEnd (mRxBuf (rx_engine x)) data in
                  Some (err, x <| rx_engine ::= fun e => e <| mRxBuf := buf |> |> <| rx_data := [] |>)
        end
  end.
End receive.

(** * Acknowledgements *)

Lemma u8_eq n m : - 256 < n - m < 256 → u8 n = u8 m → n = m.
Proof. unfold wrap. change (2 ^ 8) with 256. intros. Z.to_euclidean_division_equations. lia. Qed.

Lemma inc_u8 n : IncSeqNum (u8 n) = u8 (n + 1).
Proof.
  unfold IncSeqNum, wrap. change 0xff with (Z.ones 8). rewrite Z.land_comm, Z.land_ones by lia. change (2 ^ 8) with 256.
  Z.to_euclidean_division_equations. lia.
Qed.

(** The numbers an ack may have: the window from the oldest unacknowledged number to
    the newest, around the end of the range. *)
Lemma is_valid_ack_spec a e : in_u 8 a → in_u 8 (mTxOldestUnackedSeqNum e) → in_u 8 (mTxNewestUnackedSeqNum e) →
  IsValidAck a e = mExpectingAck e && (u8 (a - mTxOldestUnackedSeqNum e) <=? u8 (mTxNewestUnackedSeqNum e - mTxOldestUnackedSeqNum e)).
Proof.
  unfold IsValidAck, in_u, wrap. change (2 ^ 8) with 256. intros Ha Ho Hn. destruct (mExpectingAck e); [|done]. cbn [negb andb].
  apply eq_true_iff_eq. rewrite Z.leb_le. destruct (Z.leb_spec (mTxOldestUnackedSeqNum e) (mTxNewestUnackedSeqNum e)).
  - rewrite andb_true_iff, !Z.leb_le. Z.to_euclidean_division_equations. lia.
  - rewrite orb_true_iff, !Z.leb_le. Z.to_euclidean_division_equations. lia.
Qed.

(** What a fragment carries. *)
Inductive piece :=
| Start (total : Z) (d : bytes) (last : bool)
| Continue (d : bytes) (last : bool)
| Acknowledge.
Record fragment := { f_ack : option Z; f_seq : Z; f_piece : piece }.

(** ** The numbers of an engine, apart from its buffers *)
Definition numbers_of (e : BtpEngine) :=
  (mRxNextSeqNum e, mRxNewestUnackedSeqNum e, mRxOldestUnackedSeqNum e,
   mTxNextSeqNum e, mTxNewestUnackedSeqNum e, mTxOldestUnackedSeqNum e, mExpectingAck e).

Lemma sent_numbers ack e : numbers_of (snd (fragment_numbers ack e)) =
  (mRxNextSeqNum e, if ack then mRxNextSeqNum e else mRxNewestUnackedSeqNum e, if ack then mRxNextSeqNum e else mRxOldestUnackedSeqNum e,
   IncSeqNum (mTxNextSeqNum e), mTxNextSeqNum e, if mExpectingAck e then mTxOldestUnackedSeqNum e else mTxNextSeqNum e, true).
Proof. destruct e as [? ? ? ? ? ? ? ? ? ? ? ? ? []]; by destruct ack. Qed.

Lemma sent_header ack e : fst (fragment_numbers ack e) = (if ack then [mRxNewestUnackedSeqNum e] else []) ++ [mTxNextSeqNum e].
Proof. by destruct ack. Qed.

(** The numbers after a fragment was received. *)
Definition receive_numbers (f : fragment) (e : BtpEngine) : BtpEngine :=
  let e := match f_ack f with Some v => snd (HandleAckReceived v e) | None => e end in
  e <| mRxNewestUnackedSeqNum := f_seq f |> <| mRxNextSeqNum ::= IncSeqNum |>.

(** The fragments sent and not acknowledged, as the engine counts them. *)
Definition unacked (e : BtpEngine) : Z :=
  if mExpectingAck e then u8 (mTxNewestUnackedSeqNum e - mTxOldestUnackedSeqNum e) + 1 else 0.

(** * Fragments on the wire *)
Definition piece_flags (p : piece) : Z :=
  match p with
  | Start _ _ last => if last then flag_Set kStartMessage kEndMessage else kStartMessage
  | Continue _ last => if last then flag_Set kContinueMessage kEndMessage else kContinueMessage
  | Acknowledge => 0
  end.
Definition piece_bytes (p : piece) : bytes :=
  match p with
  | Start total d _ => [u8 (Z.land total 0xff); u8 (Z.shiftr total 8)] ++ d
  | Continue d _ => d
  | Acknowledge => []
  end.
Definition fragment_flags (f : fragment) : Z := ack_flag (match f_ack f with Some _ => true | None => false end) (piece_flags (f_piece f)).
Definition fragment_bytes (f : fragment) : bytes :=
  fragment_flags f :: match f_ack f with Some v => [v] | None => [] end ++ [f_seq f] ++ piece_bytes (f_piece f).

Definition rx_of (e : BtpEngine) := (mRxState e, mRxLength e, mRxBuf e).
Definition tx_of (e : BtpEngine) := (mTxState e, mTxLength e, mTxBuf e).
Definition sizes_of (e : BtpEngine) := (mRxFragmentSize e, mTxFragmentSize e).

(** The engine is in the middle of a message, of which [rest] is left. *)
Record sending (e : BtpEngine) (rest : bytes) (b : PacketBuffer) : Prop := {
  sd_state : mTxState e = kState_InProgress;
  sd_rest : rest ≠ [];
  sd_length : mTxLength e = Z.of_nat (length rest);
  sd_buffer : mTxBuf e = [b];
  sd_ok : chain_ok [b];
  sd_full : len b = mTxFragmentSize e;
  sd_room : payload b + mTxFragmentSize e + Z.of_nat (length rest) ≤ AllocSize b;
  sd_block : take (length rest) (drop (Z.to_nat (payload b + mTxFragmentSize e)) (block b)) = rest }.

(** [e'] is [e] after it has sent a fragment with [p], and [rest] of the message left. *)
Record sent_piece (e : BtpEngine) (ack : bool) (p : piece) (rest : bytes) (e' : BtpEngine) : Prop := {
  sp_buffer : ∃ b, mTxBuf e' = [b] ∧ chain_ok [b] ∧ len b ≤ mTxFragmentSize e ∧
    data b = fragment_bytes {| f_ack := if ack then Some (mRxNewestUnackedSeqNum e) else None; f_seq := mTxNextSeqNum e; f_piece := p |} ∧
    if decide (rest = []) then mTxState e' = kState_Complete else sending e' rest b;
  sp_numbers : numbers_of e' = numbers_of (snd (fragment_numbers ack e));
  sp_rx : rx_of e' = rx_of e;
  sp_sizes : sizes_of e' = sizes_of e }.

Lemma numbers_frame ack e : let e' := snd (fragment_numbers ack e) in
  rx_of e' = rx_of e ∧ tx_of e' = tx_of e ∧ sizes_of e' = sizes_of e.
Proof. destruct e as [? ? ? ? ? ? ? ? ? ? ? ? ? []]; by destruct ack. Qed.

Lemma chain_one b : chain_ok [b] ↔ buffer_ok b ∧ tot_len b = len b.
Proof.
  cbn [chain_ok]. rewrite sum_len_cons. cbn. rewrite Z.add_0_r. split; [tauto|]. intros [Hb Ht].
  pose proof (ok_end _ Hb). pose proof (ok_size _ Hb). pose proof (ok_payload _ Hb). split_and!; [done|done|lia|done].
Qed.

(** The block after the header was written: from the header on, the header and then
    what was there. *)
Lemma write_header b c hdr : 0 ≤ c → c + Z.of_nat (length hdr) ≤ AllocSize b →
  ∃ m, write_block b c hdr = Some (b <| block := m |>) ∧ length m = length (block b) ∧
    drop (Z.to_nat c) m = hdr ++ drop (Z.to_nat (c + Z.of_nat (length hdr))) (block b).
Proof.
  intros Hc Hl. destruct (write_block_ok b c hdr Hc Hl) as (m & Hw & Hm & _ & Hh & Hd). exists m. split_and!; [done..|].
  rewrite <- (take_drop (length hdr) (drop _ m)), Hh, drop_drop, Hd. do 2 f_equal. lia.
Qed.

(** The end of both branches: the fragment is the header and as much of the message
    as fits. *)
Lemma finish_ok c flags header b e msg : let h := 1 + Z.of_nat (length header) in
  let n := Z.to_nat (mTxFragmentSize e - h) in let last := bool_decide (drop n msg = []) in
  mTxState e = kState_InProgress → length (mTxBuf e) = 1%nat → mTxLength e = Z.of_nat (length msg) →
  chain_ok [b] → payload b = c → h ≤ mTxFragmentSize e ≤ 0xFFFF → c + h + Z.of_nat (length msg) ≤ AllocSize b →
  take (length msg) (drop (Z.to_nat (c + h)) (block b)) = msg →
  ∃ e' b', finish_fragment c flags header b e = Some (true, e') ∧ mTxBuf e' = [b'] ∧ chain_ok [b'] ∧ len b' ≤ mTxFragmentSize e ∧
    data b' = ((if last then flag_Set flags kEndMessage else flags) :: header) ++ take n msg ∧
    (if decide (drop n msg = []) then mTxState e' = kState_Complete else sending e' (drop n msg) b') ∧
    numbers_of e' = numbers_of e ∧ rx_of e' = rx_of e ∧ sizes_of e' = sizes_of e.
Proof.
  intros h n last Hst Hbuf Hlen [Hb Ht]%chain_one Hp Hf Hroom Hmsg. pose proof Hb as [Hp0 Hl0 He0 Hs0].
  assert (Hlast : (mTxLength e + h <=? mTxFragmentSize e) = last).
  { unfold last. rewrite Hlen. destruct (Z.leb_spec (Z.of_nat (length msg) + h) (mTxFragmentSize e)); symmetry.
    - apply bool_decide_eq_true_2, drop_ge. lia.
    - apply bool_decide_eq_false_2. intros E%(f_equal length). rewrite length_drop in E. cbn in E. lia. }
  unfold finish_fragment. cbv zeta. fold h. rewrite Hlast. set (F := if last then flag_Set flags kEndMessage else flags).
  set (L := if last then Z.of_nat (length msg) + h else mTxFragmentSize e).
  assert (0 ≤ L ≤ mTxFragmentSize e ∧ h ≤ L ∧ Z.to_nat L = (Z.to_nat h + length (take n msg))%nat ∧ c + L ≤ AllocSize b) as (HL & HhL & HLn & HLe).
  { unfold L. rewrite length_take. destruct last eqn:El; [apply Z.leb_le in Hlast|apply Z.leb_gt in Hlast]; lia. }
  replace (if last then SetLength (u16 (mTxLength e + h)) b else SetLength (mTxFragmentSize e) b) with (SetLength L b)
    by (unfold L; destruct last; [rewrite u16_small, Hlen by (apply Z.leb_le in Hlast; lia)|]; done).
  destruct (set_length_ok L b Hb Ht) as (Hok & Htt & Hll & Hpp & Hbb & _); [rewrite max_ok by done; lia|].
  generalize dependent (SetLength L b). intros b1 Hok Htt Hll Hpp Hbb.
  destruct (write_header b1 c (F :: header)) as (m & Hw & Hm & Hd); [lia|unfold AllocSize in *; rewrite Hbb; cbn [length]; lia|].
  rewrite Hw. rewrite Hbb in Hm, Hd. replace (c + Z.of_nat (length (F :: header))) with (c + h) in Hd by (cbn [length]; lia).
  set (b' := b1 <| block := m |>).
  assert (AllocSize b' = AllocSize b) as Ha by (unfold AllocSize; cbn; by rewrite Hm).
  assert (chain_ok [b']) as Hok'.
  { apply chain_one. split; [|unfold b'; cbn; by rewrite Htt, Hll]. split; rewrite ?Ha; unfold b'; cbn; rewrite ?Hpp, ?Hll; lia. }
  assert (data b' = (F :: header) ++ take n msg) as Hdat.
  { unfold data, b'. cbn [payload len block update]. rewrite Hpp, Hll, Hp, Hd, HLn. replace (Z.to_nat h) with (length (F :: header)) by (cbn [length]; lia).
    rewrite take_app_add. f_equal. by rewrite length_take, <- take_take, Hmsg. }
  eexists _, b'. split; [done|]. split; [destruct last; cbn; by destruct (mTxBuf e) as [|? []]|]. split; [done|]. split; [unfold b'; cbn; lia|]. split; [done|].
  split; [|destruct last; done]. case_decide as Hrest.
  - assert (last = true) as -> by by apply bool_decide_eq_true_2. done.
  - assert (last = false) as -> by by apply bool_decide_eq_false_2. apply Z.leb_gt in Hlast.
    assert (Hd1 : Z.of_nat (length (drop n msg)) = mTxLength e + h - mTxFragmentSize e) by (rewrite length_drop; lia).
    split; cbn; try done; [rewrite u16_small; lia|by destruct (mTxBuf e) as [|? []]|rewrite Ha; unfold b'; cbn; lia|].
    rewrite Hpp, Hp. replace (Z.to_nat (c + mTxFragmentSize e)) with (Z.to_nat c + (length (F :: header) + n))%nat by (cbn [length]; lia).
    rewrite <- drop_drop, Hd, <- drop_drop, drop_app_length.
    by rewrite length_drop, <- skipn_firstn_comm, Hmsg.
Qed.

Lemma send_guard ack e f : (ack = true → HasUnackedData e = true) → ack && negb (HasUnackedData (e <| mTxCharCount ::= f |>)) = false.
Proof. intros H. destruct ack; [|done]. change (HasUnackedData _) with (HasUnackedData e). by rewrite H. Qed.

Lemma frame_numbers ack e e1 : numbers_of e1 = numbers_of e → rx_of e1 = rx_of e → sizes_of e1 = sizes_of e →
  let e2 := snd (fragment_numbers ack e1) in
  fst (fragment_numbers ack e1) = fst (fragment_numbers ack e) ∧ numbers_of e2 = numbers_of (snd (fragment_numbers ack e)) ∧
  rx_of e2 = rx_of e ∧ sizes_of e2 = sizes_of e ∧ tx_of e2 = tx_of e1.
Proof.
  intros Hn Hr Hs. cbv zeta. destruct (numbers_frame ack e1) as (H1 & H2 & H3). rewrite !sent_header, !sent_numbers.
  injection Hn as E1 E2 E3 E4 E5 E6 E7. rewrite E1, E2, E3, E4, E6, E7. split_and!; try done; congruence.
Qed.

Lemma end_flag (ack last : bool) flags : (if last then flag_Set (ack_flag ack flags) kEndMessage else ack_flag ack flags) =
  ack_flag ack (if last then flag_Set flags kEndMessage else flags).
Proof. destruct ack, last; try done. unfold ack_flag, flag_Set. rewrite <- !Z.lor_assoc. f_equal. Qed.

Lemma header_length (ack : bool) (a s : Z) : Z.of_nat (length ((if ack then [a] else []) ++ [s])) = if ack then 2 else 1.
Proof. by destruct ack. Qed.

Lemma start_message_ok b (ack : bool) e : chain_ok [b] → (payload b < 5 → 5 + len b ≤ AllocSize b) → 5 ≤ mTxFragmentSize e ≤ 0xFFFF →
  let n := Z.to_nat (mTxFragmentSize e - (if ack then 5 else 4)) in
  ∃ e', start_message [b] b ack e = Some (true, e') ∧
    sent_piece e ack (Start (len b) (take n (data b)) (bool_decide (drop n (data b) = []))) (drop n (data b)) e'.
Proof.
  intros [Hb Ht]%chain_one Hroom Hf n. unfold start_message. cbv zeta.
  set (hs := if ack then kTransferProtocolMaxHeaderSize else kTransferProtocolMaxHeaderSize - kTransferProtocolAckSize).
  assert (hs = if ack then 5 else 4) as Hhs by (destruct ack; reflexivity). rewrite Z.add_0_r.
  pose proof (ensure_ok hs b Hb ltac:(rewrite Hhs; destruct ack; lia)) as He. pose proof (ok_payload _ Hb). pose proof (ok_len _ Hb).
  rewrite decide_True in He by (rewrite Hhs; destruct ack, (decide (payload b < 5)); lia).
  destruct He as (b1 & -> & Hb1 & Hd1 & Hp1 & Hl1 & Ht1 & Ha1). cbn [negb].
  set (e1 := e <| mTxBuf := [b] |> <| mTxState := kState_InProgress |> <| mTxLength := len b |>).
  destruct (frame_numbers ack e e1 eq_refl eq_refl eq_refl) as (Hh & Hn & Hr & Hs & Htx).
  rewrite (surjective_pairing (fragment_numbers ack e1)), Hh, sent_header. generalize dependent (snd (fragment_numbers ack e1)).
  intros e2 Hn Hr Hs Htx. injection Htx as Ht2 Hln2 Hbuf2. pose proof Hs as [= Hrf2 Hf2].
  destruct (set_start_ok (payload b1 - hs) b1 Hb1) as (Hok & Htt & Hll & Hpp & Hbb & _); [congruence|rewrite Hhs; destruct ack; lia|].
  generalize dependent (SetStart (payload b1 - hs) b1). intros b2 Hok Htt Hll Hpp Hbb.
  set (header := _ ++ [_; _]). assert (1 + Z.of_nat (length header) = hs) as Hlh.
  { unfold header. rewrite length_app, Nat2Z.inj_add, header_length, Hhs. cbn. by destruct ack. }
  pose proof (length_data b Hb) as Hdl.
  destruct (finish_ok (payload b1 - hs) (ack_flag ack kStartMessage) header b2 e2 (data b)) as (e' & b' & -> & Hbuf & Hok' & Hle & Hdat & Hend & Hn' & Hr' & Hs');
    rewrite ?Hlh; try done; [by rewrite Hbuf2|by rewrite Hln2, Hdl|by apply chain_one|rewrite Hhs, Hf2; destruct ack; lia| | |].
  { unfold AllocSize. rewrite Hbb. fold (AllocSize b1). pose proof (ok_end _ Hb1). lia. }
  { rewrite Hbb. replace (payload b1 - hs + hs) with (payload b1) by lia. rewrite <- Hd1 at 2. unfold data at 2. f_equal. lia. }
  rewrite Hlh, Hhs, Hf2 in Hdat, Hend. fold n in Hdat, Hend. exists e'. split; [done|]. split; [|congruence..]. exists b'. split_and!; [done..|by rewrite <- Hf2| |exact Hend].
  rewrite Hdat. unfold fragment_bytes, fragment_flags. cbn [f_ack f_seq f_piece piece_flags piece_bytes]. rewrite end_flag.
  unfold header. rewrite Hln2. by destruct ack.
Qed.

Lemma continue_message_ok e rest b (ack : bool) : sending e rest b → 5 ≤ mTxFragmentSize e ≤ 0xFFFF →
  let n := Z.to_nat (mTxFragmentSize e - (if ack then 3 else 2)) in
  ∃ e', continue_message b ack e = Some (true, e') ∧ take n rest ≠ [] ∧
    sent_piece e ack (Continue (take n rest) (bool_decide (drop n rest = []))) (drop n rest) e'.
Proof.
  intros [Hst Hne Hln Hbuf [Hb Ht]%chain_one Hfull Hroom Hblk] Hf n. unfold continue_message. cbv zeta.
  set (hs := if ack then kTransferProtocolMidFragmentMaxHeaderSize else kTransferProtocolMidFragmentMaxHeaderSize - kTransferProtocolAckSize).
  assert (hs = if ack then 3 else 2) as Hhs by (destruct ack; reflexivity). pose proof (ok_payload _ Hb).
  destruct (numbers_frame ack e) as (Hr & Htx & Hs). rewrite (surjective_pairing (fragment_numbers ack e)), sent_header.
  remember (snd (fragment_numbers ack e)) as e2 eqn:He2. pose proof Hs as [= Hrf2 Hf2]. injection Htx as Ht2 Hln2 Hbuf2.
  destruct (set_start_ok (payload b + mTxFragmentSize e - hs) b Hb Ht) as (Hok & Htt & Hll & Hpp & Hbb & _); [rewrite Hhs, Hfull; destruct ack; lia|].
  generalize dependent (SetStart (payload b + mTxFragmentSize e - hs) b). intros b2 Hok Htt Hll Hpp Hbb.
  set (header := _ ++ [_]). assert (1 + Z.of_nat (length header) = hs) as Hlh.
  { unfold header. rewrite header_length, Hhs. by destruct ack. }
  destruct (finish_ok (payload b + mTxFragmentSize e - hs) (ack_flag ack kContinueMessage) header b2 e2 rest)
    as (e' & b' & -> & Hbuf' & Hok' & Hle & Hdat & Hend & Hn' & Hr' & Hs');
    rewrite ?Hlh; try done; [by rewrite Ht2|by rewrite Hbuf2, Hbuf|by rewrite Hln2|by apply chain_one|rewrite Hhs, Hf2; destruct ack; lia| | |].
  { unfold AllocSize. rewrite Hbb. fold (AllocSize b). lia. }
  { rewrite Hbb. rewrite <- Hblk at 2. do 2 f_equal. lia. }
  rewrite Hlh, Hhs, Hf2 in Hdat, Hend. fold n in Hdat, Hend. exists e'. split; [done|]. split.
  { intros E%(f_equal length). rewrite length_take in E. destruct rest; [done|]. cbn [length] in E. destruct ack; lia. }
  split; [|congruence..]. exists b'. split_and!; [done..|by rewrite <- Hf2| |exact Hend].
  rewrite Hdat. unfold fragment_bytes, fragment_flags. cbn [f_ack f_seq f_piece piece_flags piece_bytes]. rewrite end_flag.
  unfold header. by destruct ack.
Qed.

Lemma sent_piece_frame e e0 ack p rest e' : numbers_of e0 = numbers_of e → rx_of e0 = rx_of e → sizes_of e0 = sizes_of e →
  sent_piece e0 ack p rest e' → sent_piece e ack p rest e'.
Proof.
  intros Hn Hr Hs [H1 H2 H3 H4]. destruct (frame_numbers ack e e0 Hn Hr Hs) as (_ & Hn' & _).
  injection Hn as _ E1 _ E2 _ _ _. pose proof Hs as [= _ E3]. rewrite E1, E2, E3 in H1. split; [done|congruence..].
Qed.

Lemma send_message_ok b (ack : bool) e : mTxState e = kState_Idle → chain_ok [b] → (payload b < 5 → 5 + len b ≤ AllocSize b) →
  5 ≤ mTxFragmentSize e ≤ 0xFFFF → (ack = true → HasUnackedData e = true) →
  let n := Z.to_nat (mTxFragmentSize e - (if ack then 5 else 4)) in
  ∃ e', HandleCharacteristicSend [b] ack e = Some (true, e') ∧
    sent_piece e ack (Start (len b) (take n (data b)) (bool_decide (drop n (data b) = []))) (drop n (data b)) e'.
Proof.
  intros Hst Hb Hroom Hf Hack n. unfold HandleCharacteristicSend. cbv zeta. rewrite send_guard by done.
  set (e0 := e <| mTxCharCount ::= _ |>). change (mTxState e0) with (mTxState e). rewrite Hst.
  destruct (start_message_ok b ack e0 Hb Hroom Hf) as (e' & He & Hs).
  exists e'. split; [exact He|]. by eapply sent_piece_frame, Hs.
Qed.

Lemma send_continue_ok e rest b (ack : bool) : sending e rest b → 5 ≤ mTxFragmentSize e ≤ 0xFFFF → (ack = true → HasUnackedData e = true) →
  let n := Z.to_nat (mTxFragmentSize e - (if ack then 3 else 2)) in
  ∃ e', HandleCharacteristicSend [] ack e = Some (true, e') ∧ take n rest ≠ [] ∧
    sent_piece e ack (Continue (take n rest) (bool_decide (drop n rest = []))) (drop n rest) e'.
Proof.
  intros Hs Hf Hack n. unfold HandleCharacteristicSend. cbv zeta. rewrite send_guard by done.
  set (e0 := e <| mTxCharCount ::= _ |>). change (mTxState e0) with (mTxState e). change (mTxBuf e0) with (mTxBuf e).
  rewrite (sd_state _ _ _ Hs), (sd_buffer _ _ _ Hs).
  destruct (continue_message_ok e0 rest b ack) as (e' & He & Hne & Hs'); [by destruct Hs; split|done|].
  exists e'. split; [exact He|]. split; [exact Hne|]. by eapply sent_piece_frame, Hs'.
Qed.

(** A stand-alone acknowledgement. *)
Lemma send_ack_ok b next e : buffer_ok b → 3 ≤ AllocSize b - payload b → tot_len b = len b →
  ∃ b' e', EncodeStandAloneAck (b :: next) e = Some (CHIP_NO_ERROR, b' :: next, e') ∧ buffer_ok b' ∧ len b' = 3 ∧ tot_len b' = 3 ∧
    data b' = fragment_bytes {| f_ack := Some (mRxNewestUnackedSeqNum e); f_seq := mTxNextSeqNum e; f_piece := Acknowledge |} ∧
    numbers_of e' = numbers_of (snd (fragment_numbers true e)) ∧ rx_of e' = rx_of e ∧ tx_of e' = tx_of e ∧ sizes_of e' = sizes_of e.
Proof.
  intros Hb Hroom Ht. unfold EncodeStandAloneAck. pose proof (ok_payload _ Hb). pose proof (ensure_ok 0 b Hb ltac:(lia)) as He.
  rewrite decide_True in He by lia. change CHIP_CONFIG_BLE_PKT_RESERVED_SIZE with 0.
  destruct He as (b1 & -> & Hb1 & _ & Hp1 & Hl1 & Ht1 & Ha1). cbn [negb]. rewrite max_ok by done. change kTransferProtocolStandaloneAckHeaderSize with 3.
  rewrite (proj2 (Z.ltb_ge _ _)) by lia.
  destruct (write_block_ok b1 (payload b1) [kFragmentAck; mRxNewestUnackedSeqNum e; mTxNextSeqNum e]) as (m & Hw & Hm & _ & Hd & _); [lia|cbn; lia|].
  destruct (numbers_frame true e) as (Hr & Htx & Hs).
  assert (∀ r, (let! b0 := write_block b1 (payload b1) [kFragmentAck; mRxNewestUnackedSeqNum e; mTxNextSeqNum e] in
    Some (CHIP_NO_ERROR, SetLength 3 b0 :: next, snd (fragment_numbers true e))) = r →
    (let (ack, e0) := GetAndRecordRxAckSeqNum e in let (seq, e1) := GetAndIncrementNextTxSeqNum e0 in
     let! b0 := write_block b1 (payload b1) [kFragmentAck; ack; seq] in Some (CHIP_NO_ERROR, SetLength 3 b0 :: next, e1)) = r) as Hgo
    by (intros r <-; reflexivity).
  rewrite Hw in Hgo. set (b2 := b1 <| block := m |>) in *.
  assert (AllocSize b2 = AllocSize b1) as Ha2 by (unfold AllocSize; cbn; by rewrite Hm).
  assert (buffer_ok b2) as Hb2 by (destruct Hb1; split; rewrite ?Ha2; done).
  destruct (set_length_ok 3 b2 Hb2) as (Hok & Htt & Hll & _ & _ & Hdat); [cbn; congruence|rewrite max_ok, Ha2 by done; cbn [payload b2 update]; lia|].
  exists (SetLength 3 b2), (snd (fragment_numbers true e)). split; [by apply Hgo|]. split_and!; try done.
  rewrite Hdat. exact Hd.
Qed.

(** * Reassembly

    What the receiver has of a message: its bytes so far and the announced length. *)
Abbreviation partial := (option (bytes * Z)).
Definition accept (got : bytes) (total : Z) (last : bool) : option (partial * list bytes) :=
  if kMaxSizeWithoutReserve <? Z.of_nat (length got) then None
  else if negb last then Some (Some (got, total), [])
  else if Z.of_nat (length got) =? total then Some (None, [got]) else None.
(** The messages a piece completes; [None] is a piece that is an error here. *)
Definition feed (st : partial) (p : piece) : option (partial * list bytes) :=
  match st, p with
  | _, Acknowledge => Some (st, [])
  | None, Start total d last => if (0 <=? total) && (total <=? 0xFFFF) then accept d total last else None
  | Some (got, total), Continue ((_ :: _) as d) last => accept (got ++ d) total last
  | _, _ => None
  end.

Definition reassembling (e : BtpEngine) (st : partial) : Prop :=
  match st with
  | None => mRxState e = kState_Idle
  | Some (got, total) => mRxState e = kState_InProgress ∧ mRxLength e = total ∧
      ∃ b, mRxBuf e = [b] ∧ chain_ok [b] ∧ data b = got ∧ AllocSize b = kMaxSizeWithoutReserve
  end.

Lemma read_1 v l n : read_u 1 {| rd_rest := v :: l; OctetsRead := n |} = inr (v, {| rd_rest := l; OctetsRead := n + 1 |}).
Proof. unfold read_u. cbn -[Z.add Z.mul]. by rewrite Z.mul_0_r, Z.add_0_r. Qed.

Lemma flags_ack f : flag_Has (fragment_flags f) kFragmentAck = match f_ack f with Some _ => true | None => false end.
Proof. destruct f as [[] ? [? ? []|? []|]]; reflexivity. Qed.

Lemma flags_data f : DidReceiveData (fragment_flags f) = match f_piece f with Acknowledge => false | _ => true end.
Proof. destruct f as [[] ? [? ? []|? []|]]; reflexivity. Qed.

Lemma flags_start f : flag_Has (fragment_flags f) kStartMessage = match f_piece f with Start _ _ _ => true | _ => false end.
Proof. destruct f as [[] ? [? ? []|? []|]]; reflexivity. Qed.

Lemma flags_more f : flag_Has (fragment_flags f) (Z.lor kContinueMessage kEndMessage) =
  match f_piece f with Start _ _ last => last | Continue _ _ => true | Acknowledge => false end.
Proof. destruct f as [[] ? [? ? []|? []|]]; reflexivity. Qed.

Lemma flags_end f : flag_Has (fragment_flags f) kEndMessage =
  match f_piece f with Start _ _ last => last | Continue _ last => last | Acknowledge => false end.
Proof. destruct f as [[] ? [? ? []|? []|]]; reflexivity. Qed.

(** The header of a fragment whose bytes are [data d]. *)
Definition header_size (f : fragment) : Z := match f_ack f with Some _ => 3 | None => 2 end.
Lemma header_bytes f : Z.of_nat (length (fragment_bytes f)) = header_size f + Z.of_nat (length (piece_bytes (f_piece f))) ∧
  drop (Z.to_nat (header_size f)) (fragment_bytes f) = piece_bytes (f_piece f).
Proof. unfold fragment_bytes, header_size. destruct (f_ack f); cbn [app length]; split; lia || done. Qed.

(** Cutting the fragment to its size and taking the header off. *)
Lemma strip_header d f size : chain_ok [d] → data d = fragment_bytes f → len d ≤ size →
  let d' := ConsumeHead (u16 (header_size f)) (SetLength (Z.min (len d) size) d) in
  chain_ok [d'] ∧ data d' = piece_bytes (f_piece f).
Proof.
  intros [Hd Ht]%chain_one Hdat Hs. rewrite Z.min_l by done. destruct (header_bytes f) as [Hl Hdr].
  pose proof (length_data d Hd) as Hld. rewrite Hdat in Hld.
  destruct (set_length_ok (len d) d Hd Ht) as (Hok & Htt & Hll & Hpp & Hbb & Hd').
  { rewrite max_ok by done. destruct Hd. lia. }
  assert (data (SetLength (len d) d) = data d) as Hd2 by done.
  generalize dependent (SetLength (len d) d). intros d1 Hok Htt Hll Hpp Hbb _ Hd2.
  assert (0 < header_size f < 4) by (unfold header_size; destruct (f_ack f); lia). rewrite u16_small by lia.
  destruct Hd. destruct (consume_head_ok (header_size f) d1 Hok) as (Hok' & Hdat' & Hlen' & Htot' & _); [lia..|].
  split; [apply chain_one; split; [done|lia]|]. by rewrite Hdat', Hd2, Hdat, Hdr.
Qed.

Lemma receive_ack_ok f e data ack0 rest : (∀ v, f_ack f = Some v → fst (HandleAckReceived v e) = CHIP_NO_ERROR) →
  let did := match f_ack f with Some _ => true | None => false end in
  ∃ ack, receive_ack {| rd_rest := match f_ack f with Some v => [v] | None => [] end ++ rest; OctetsRead := 1 |}
    {| rx_engine := e; rx_data := data; receivedAck := ack0; didReceiveAck := did |} =
  Some (inr ({| rx_engine := match f_ack f with Some v => snd (HandleAckReceived v e) | None => e end;
                rx_data := data; receivedAck := ack; didReceiveAck := did |},
             {| rd_rest := rest; OctetsRead := header_size f - 1 |})).
Proof.
  intros Hack did. unfold receive_ack, header_size. cbn [didReceiveAck]. unfold did. destruct (f_ack f) as [v|]; [|by exists ack0].
  exists v. cbn [app]. unfold read_or_exit. rewrite read_1. cbn [rx_engine update]. specialize (Hack v eq_refl).
  destruct (HandleAckReceived v e) as [err e1]. cbn in Hack. subst err. done.
Qed.

Lemma receive_seq_ok f e1 d ack did : chain_ok [d] → data d = fragment_bytes f → len d ≤ mRxFragmentSize e1 → f_seq f = mRxNextSeqNum e1 →
  let e2 := e1 <| mRxNewestUnackedSeqNum := f_seq f |> <| mRxNextSeqNum ::= IncSeqNum |> in
  let r := receive_seq (fragment_flags f) {| rd_rest := f_seq f :: piece_bytes (f_piece f); OctetsRead := header_size f - 1 |}
    {| rx_engine := e1; rx_data := [d]; receivedAck := ack; didReceiveAck := did |} in
  match f_piece f with
  | Acknowledge => r = Some (inl (CHIP_NO_ERROR, {| rx_engine := e2; rx_data := [d]; receivedAck := ack; didReceiveAck := did |}))
  | p => ∃ d', r = Some (inr {| rx_engine := e2; rx_data := [d']; receivedAck := ack; didReceiveAck := did |}) ∧
           chain_ok [d'] ∧ data d' = piece_bytes p
  end.
Proof.
  intros Hd Hdat Hlen Hseq e2. unfold receive_seq, read_or_exit. rewrite read_1. cbn [rx_engine mRxNextSeqNum mRxFragmentSize update OctetsRead].
  rewrite Hseq, Z.eqb_refl. cbn [verify_or_exit]. rewrite flags_data.
  replace (header_size f - 1 + 1) with (header_size f) by lia. pose proof (proj1 (chain_one d) Hd) as [Hb _].
  pose proof (length_data d Hb) as Hl. rewrite Hdat in Hl. destruct (header_bytes f) as [Hl2 _]. rewrite Hl in Hl2.
  destruct (strip_header d f (mRxFragmentSize e1) Hd Hdat Hlen) as [Hok Hd'].
  cbv zeta. destruct (f_piece f) eqn:Hp; cbn [verify_or_exit]; [| |by unfold e2; rewrite Hseq].
  all: rewrite (proj2 (Z.leb_le _ _)) by lia; cbn [verify_or_exit on_head rx_data update].
  all: eexists; split; [unfold e2; rewrite Hseq; reflexivity|by split].
Qed.

Lemma receive_header_ok e d f ack0 did0 : chain_ok [d] → data d = fragment_bytes f → len d ≤ mRxFragmentSize e →
  f_seq f = mRxNextSeqNum e → (∀ v, f_ack f = Some v → fst (HandleAckReceived v e) = CHIP_NO_ERROR) →
  let x := {| rx_engine := e; rx_data := [d]; receivedAck := ack0; didReceiveAck := did0 |} in
  ∃ x', numbers_of (rx_engine x') = numbers_of (receive_numbers f e) ∧ rx_of (rx_engine x') = rx_of e ∧
    tx_of (rx_engine x') = tx_of e ∧ sizes_of (rx_engine x') = sizes_of e ∧
    match f_piece f with
    | Acknowledge => receive_header x = Some (inl (CHIP_NO_ERROR, x'))
    | p => receive_header x = Some (inr (fragment_flags f, x')) ∧ ∃ d', rx_data x' = [d'] ∧ chain_ok [d'] ∧ data d' = piece_bytes p
    end.
Proof.
  intros Hd Hdat Hlen Hseq Hack x. pose proof (proj1 (chain_one d) Hd) as [Hb _].
  set (e0 := e <| mRxCharCount ::= fun n => u16 (n + 1) |>).
  set (e1 := match f_ack f with Some v => snd (HandleAckReceived v e0) | None => e0 end).
  set (did := match f_ack f with Some _ => true | None => false end).
  assert (∃ ack, receive_header x = try! x1 := receive_seq (fragment_flags f)
     {| rd_rest := f_seq f :: piece_bytes (f_piece f); OctetsRead := header_size f - 1 |}
     {| rx_engine := e1; rx_data := [d]; receivedAck := ack; didReceiveAck := did |} in Some (inr (fragment_flags f, x1))) as [ack Hgo].
  { unfold receive_header. cbn [rx_data data_reader x]. rewrite read_data, Hdat by done. unfold fragment_bytes.
    unfold read_or_exit. rewrite read_1, flags_ack.
    destruct (receive_ack_ok f e0 [d] ack0 ([f_seq f] ++ piece_bytes (f_piece f))) as [ack Ha].
    - intros v Hv. pose proof (Hack v Hv) as Hv2. unfold HandleAckReceived in *. change (IsValidAck v e0) with (IsValidAck v e).
      change (mTxNewestUnackedSeqNum e0) with (mTxNewestUnackedSeqNum e). destruct (negb (IsValidAck v e)); [done|]. by destruct (_ =? _).
    - exists ack. fold did in Ha |- *. exact (f_equal (fun r => try! (x1, reader) := r in try! x1 := receive_seq (fragment_flags f) reader x1 in
        Some (inr (fragment_flags f, x1))) Ha). }
  set (e2 := e1 <| mRxNewestUnackedSeqNum := f_seq f |> <| mRxNextSeqNum ::= IncSeqNum |>).
  assert (numbers_of e2 = numbers_of (receive_numbers f e) ∧ rx_of e2 = rx_of e ∧ tx_of e2 = tx_of e ∧ sizes_of e2 = sizes_of e ∧
          mRxNextSeqNum e1 = mRxNextSeqNum e ∧ mRxFragmentSize e1 = mRxFragmentSize e) as (Hn & Hr & Ht & Hs & Hnx & Hsz).
  { unfold e2, e1, receive_numbers. destruct (f_ack f) as [v|]; [|done]. unfold HandleAckReceived. change (IsValidAck v e0) with (IsValidAck v e).
    change (mTxNewestUnackedSeqNum e0) with (mTxNewestUnackedSeqNum e). destruct (negb (IsValidAck v e)); [done|]. by destruct (_ =? _). }
  pose proof (receive_seq_ok f e1 d ack did Hd Hdat) as Hrs. rewrite Hnx, Hsz in Hrs. specialize (Hrs Hlen Hseq). cbv zeta in Hrs. fold e2 in Hrs.
  destruct (f_piece f) eqn:Hp.
  3: { rewrite Hrs in Hgo. eexists. split; [|split; [|split; [|split; [|exact Hgo]]]]; done. }
  all: destruct Hrs as (d' & Hrs & Hd'); rewrite Hrs in Hgo; eexists; split; [|split; [|split; [|split; [|split; [exact Hgo|by exists d']]]]]; done.
Qed.

Lemma add_fragment_ok x b d : mRxBuf (rx_engine x) = [b] → rx_data x = [d] → chain_ok [b] → chain_ok [d] →
  len b + len d ≤ AllocSize b → 0 < len d ∨ len b + len d < AllocSize b →
  ∃ b', add_fragment x = Some (inr (x <| rx_engine ::= fun e => e <| mRxBuf := [b'] |> |> <| rx_data := [] |>)) ∧
    chain_ok [b'] ∧ data b' = data b ++ data d ∧ AllocSize b' = AllocSize b.
Proof.
  intros Hbuf Hdata Hb Hd Hfit Hroom. unfold add_fragment. rewrite Hbuf, Hdata.
  pose proof (proj1 (chain_one b) Hb) as [Hbb _]. pose proof (proj1 (chain_one d) Hd) as [Hdd _].
  destruct (add_to_end_ok [b] [d] Hb Hd) as (c' & -> & Hok & Hcon & Hsum & c1 & -> & Hbl); [done..| |].
  { rewrite !sum_len_cons. cbn. pose proof (ok_size _ Hbb). lia. }
  destruct c1 as [|b1 [|]]; [done| |done]. injection Hbl as Hbl. cbn [app] in *.
  destruct (compact_ok b1 [d] Hok) as (b' & next' & -> & Hok' & Hcon' & _ & Ha & Hend & Hpos).
  assert (AllocSize b1 = AllocSize b) as Ha1 by (unfold AllocSize; by rewrite Hbl).
  assert (Htot : len b' + sum_by len next' = len b + len d).
  { rewrite <- sum_len_cons, <- (length_contents _ Hok'), Hcon', Hcon, length_app, Nat2Z.inj_add, !length_contents by done.
    rewrite !sum_len_cons. cbn. lia. }
  assert (next' = []) as ->.
  { destruct Hend as [|Hfull]; [done|]. destruct next' as [|n rest]; [done|]. exfalso. rewrite sum_len_cons in Htot.
    pose proof Hok' as (_ & _ & _ & Hokn). pose proof (sum_len_nonneg rest (proj2 (proj2 (proj2 Hokn)))).
    pose proof (ok_len _ (proj1 Hokn)). destruct Hroom as [Hd0|]; [|lia].
    rewrite Forall_singleton in Hpos. specialize (Hpos Hd0). apply Forall_cons in Hpos as [Hn _]. lia. }
  exists b'. split; [done|]. split; [done|]. split; [|congruence].
  rewrite !contents_cons in Hcon', Hcon. cbn in Hcon', Hcon. rewrite !app_nil_r in Hcon'. rewrite Hcon', !app_nil_r in *. congruence.
Qed.

Lemma receive_end_ok f x b (last : bool) : flag_Has (fragment_flags f) kEndMessage = last → mRxBuf (rx_engine x) = [b] →
  (last = true → len b = mRxLength (rx_engine x)) →
  receive_end (fragment_flags f) x = Some (inr (if last
    then x <| rx_engine ::= fun e => e <| mRxBuf := [b] |> |>
           <| rx_engine ::= fun e => e <| mRxState := kState_Complete |> <| mRxPacketCount ::= fun n => u16 (n + 1) |> |> else x)).
Proof.
  intros Hl Hbuf Hlen. unfold receive_end. rewrite Hl. destruct last; [|done]. rewrite Hbuf. rewrite (Hlen eq_refl).
  rewrite Z.sub_diag. cbn [Z.ltb Z.compare]. rewrite (Hlen eq_refl). cbv zeta. rewrite Z.eqb_refl. done.
Qed.

Lemma total_bytes total l n : 0 ≤ total ≤ 0xFFFF →
  read_u 2 {| rd_rest := u8 (Z.land total 0xff) :: u8 (Z.shiftr total 8) :: l; OctetsRead := n |} =
  inr (total, {| rd_rest := l; OctetsRead := n + 2 |}).
Proof.
  intros Ht. unfold read_u. cbn -[Z.add Z.mul Z.land Z.shiftr]. do 2 f_equal. change 0xff with (Z.ones 8).
  rewrite Z.land_ones, Z.shiftr_div_pow2 by lia. unfold wrap. change (2 ^ 8) with 256. change (le_val (take 0 l)) with 0. Z.to_euclidean_division_equations. lia.
Qed.

Section receiving.
Variable alloc : nat → Z → option bytes.
(** The heap has a block of the largest size for the reassembly. *)
Hypothesis rx_block : ∀ k, ∃ m, alloc k kMaxSizeWithoutReserve = Some m ∧ Z.of_nat (length m) = kMaxSizeWithoutReserve.

Lemma accept_got got total last r : accept got total last = Some r →
  Z.of_nat (length got) ≤ kMaxSizeWithoutReserve ∧ (last = true → Z.of_nat (length got) = total) ∧
  r = if last then (None, [got]) else (Some (got, total), []).
Proof.
  unfold accept. destruct (Z.ltb_spec kMaxSizeWithoutReserve (Z.of_nat (length got))); [done|].
  destruct last; cbn [negb]; [|by intros [= <-]]. destruct (Z.eqb_spec (Z.of_nat (length got)) total); [|done]. by intros [= <-].
Qed.

Lemma receive_start_ok k f x d total dat last r : mRxState (rx_engine x) = kState_Idle → rx_data x = [d] → chain_ok [d] →
  f_piece f = Start total dat last → data d = piece_bytes (f_piece f) → 0 ≤ total ≤ 0xFFFF → accept dat total last = Some r →
  ∃ x' b, receive_data alloc k (fragment_flags f) x = Some (inr x') ∧
    numbers_of (rx_engine x') = numbers_of (rx_engine x) ∧ tx_of (rx_engine x') = tx_of (rx_engine x) ∧ sizes_of (rx_engine x') = sizes_of (rx_engine x) ∧
    rx_of (rx_engine x') = (kState_InProgress, total, [b]) ∧ chain_ok [b] ∧ data b = dat ∧ AllocSize b = kMaxSizeWithoutReserve.
Proof.
  intros Hst Hdata Hd Hp Hdat Ht Hacc. apply accept_got in Hacc as (Hgot & _ & _). unfold receive_data. rewrite Hst, Hdata.
  pose proof (proj1 (chain_one d) Hd) as [Hb Htd]. cbn [data_reader]. rewrite read_data, Hdat, Hp by done. rewrite flags_start, Hp.
  cbn [verify_or_exit piece_bytes app]. unfold read_or_exit. rewrite total_bytes by done. cbn [on_head].
  destruct (rx_block k) as (m & Hm & Hml). unfold New.
  change (kDefaultHeaderReserve + kMaxSize) with kMaxSizeWithoutReserve. rewrite Hm.
  change (_ || _ || _) with false. cbv iota zeta. set (b0 := {| block := m; payload := kDefaultHeaderReserve; len := 0; tot_len := 0 |}).
  assert (chain_ok [b0]) as Hb0 by (apply chain_one; split; [split; unfold AllocSize; cbn; rewrite ?Hml; done|done]).
  pose proof (length_data d Hb) as Hl. rewrite Hdat, Hp in Hl. cbn [piece_bytes app length] in Hl.
  destruct (consume_head_ok 2 d Hb) as (Hok & Hcd & Hcl & Hct & _); [lia|destruct Hb; lia|lia|].
  change (u16 (0 + 2)) with 2. set (d' := ConsumeHead 2 d) in *.
  assert (chain_ok [d']) as Hd' by (apply chain_one; split; [done|lia]).
  assert (data d' = dat) as Hd'' by (by rewrite Hcd, Hdat, Hp).
  match goal with |- context [add_fragment ?y] => destruct (add_fragment_ok y b0 d') as (b & Hadd & Hbok & Hbd & Hba) end; try done.
  { cbn [len b0]. change (AllocSize b0) with (Z.of_nat (length m)). lia. }
  { cbn [len b0]. change (AllocSize b0) with (Z.of_nat (length m)). rewrite Hml. unfold kMaxSizeWithoutReserve. lia. }
  eexists _, b. split; [exact Hadd|]. split_and!; try done; [by rewrite Hbd, Hd''|by rewrite Hba].
Qed.

Lemma receive_more_ok k f x d b dat last got total r : rx_of (rx_engine x) = (kState_InProgress, total, [b]) → chain_ok [b] → data b = got →
  AllocSize b = kMaxSizeWithoutReserve → rx_data x = [d] → chain_ok [d] → f_piece f = Continue dat last → data d = dat → dat ≠ [] →
  accept (got ++ dat) total last = Some r →
  ∃ x' b', receive_data alloc k (fragment_flags f) x = Some (inr x') ∧
    numbers_of (rx_engine x') = numbers_of (rx_engine x) ∧ tx_of (rx_engine x') = tx_of (rx_engine x) ∧ sizes_of (rx_engine x') = sizes_of (rx_engine x) ∧
    rx_of (rx_engine x') = (kState_InProgress, total, [b']) ∧ chain_ok [b'] ∧ data b' = got ++ dat ∧ AllocSize b' = kMaxSizeWithoutReserve.
Proof.
  intros [= Hst Hln Hbuf] Hb Hgb Ha Hdata Hd Hp Hdat Hne Hacc. apply accept_got in Hacc as (Hgot & _ & _).
  unfold receive_data. rewrite Hst, flags_start, flags_more, Hp. cbn [verify_or_exit negb].
  pose proof (length_data b (proj1 (proj1 (chain_one b) Hb))) as Hlb. pose proof (length_data d (proj1 (proj1 (chain_one d) Hd))) as Hld.
  rewrite length_app in Hgot. rewrite Hgb in Hlb. rewrite Hdat in Hld.
  destruct (add_fragment_ok x b d) as (b' & Hadd & Hbok & Hbd & Hba); try done; [lia|left; destruct dat; [done|cbn [length] in *; lia]|].
  eexists _, b'. split; [exact Hadd|]. split_and!; try done; [|by rewrite Hbd, Hgb, Hdat|by rewrite Hba].
  unfold rx_of. cbn. by rewrite Hst, Hln.
Qed.

Lemma finish_receive f x b got total last st' out : rx_of (rx_engine x) = (kState_InProgress, total, [b]) → chain_ok [b] → data b = got →
  AllocSize b = kMaxSizeWithoutReserve → flag_Has (fragment_flags f) kEndMessage = last → accept got total last = Some (st', out) →
  ∃ x', receive_end (fragment_flags f) x = Some (inr x') ∧ numbers_of (rx_engine x') = numbers_of (rx_engine x) ∧
    tx_of (rx_engine x') = tx_of (rx_engine x) ∧ sizes_of (rx_engine x') = sizes_of (rx_engine x) ∧
    match out with
    | [] => reassembling (rx_engine x') st'
    | msg :: more => more = [] ∧ st' = None ∧ mRxState (rx_engine x') = kState_Complete ∧ ∃ b, mRxBuf (rx_engine x') = [b] ∧ chain_ok [b] ∧ data b = msg
    end.
Proof.
  intros [= Hst Hln Hbuf] Hb Hd Ha Hl Hacc. apply accept_got in Hacc as (_ & Htot & Hr).
  pose proof (length_data b (proj1 (proj1 (chain_one b) Hb))) as Hlb. rewrite Hd in Hlb.
  eexists. split; [apply (receive_end_ok f x b last); [done..|]|]; [intros E; rewrite Hln, <- (Htot E); lia|].
  destruct last; injection Hr as -> ->; split_and!; try done; [by exists b|]. split; [done|]. split; [done|]. by exists b.
Qed.

(** The receiver takes a fragment that the reassembly accepts. *)
Lemma receive_ok k e d f ack0 did0 st st' out : chain_ok [d] → data d = fragment_bytes f → len d ≤ mRxFragmentSize e →
  f_seq f = mRxNextSeqNum e → (∀ v, f_ack f = Some v → fst (HandleAckReceived v e) = CHIP_NO_ERROR) →
  reassembling e st → feed st (f_piece f) = Some (st', out) →
  ∃ x, HandleCharacteristicReceived alloc k [d] ack0 did0 e = Some (CHIP_NO_ERROR, x) ∧
    numbers_of (rx_engine x) = numbers_of (receive_numbers f e) ∧ tx_of (rx_engine x) = tx_of e ∧ sizes_of (rx_engine x) = sizes_of e ∧
    match out with
    | [] => reassembling (rx_engine x) st'
    | msg :: more => more = [] ∧ st' = None ∧ mRxState (rx_engine x) = kState_Complete ∧ ∃ b, mRxBuf (rx_engine x) = [b] ∧ chain_ok [b] ∧ data b = msg
    end.
Proof.
  intros Hd Hdat Hlen Hseq Hack Hst Hfeed. unfold HandleCharacteristicReceived, receive_steps. cbn [rx_data verify_or_exit].
  destruct (receive_header_ok e d f ack0 did0 Hd Hdat Hlen Hseq Hack) as (x1 & Hn & Hr & Ht & Hs & Hh).
  assert (∀ p, f_piece f = p → p ≠ Acknowledge → receive_header {| rx_engine := e; rx_data := [d]; receivedAck := ack0; didReceiveAck := did0 |} =
    Some (inr (fragment_flags f, x1)) ∧ ∃ d', rx_data x1 = [d'] ∧ chain_ok [d'] ∧ data d' = piece_bytes p) as Hh'.
  { intros p <- Hp. by destruct (f_piece f). }
  destruct (f_piece f) as [total dat last|dat last|] eqn:Hp.
  - destruct st as [[got tot]|]; [done|]. cbn [feed] in Hfeed. destruct (_ && _) eqn:Hrange; [|done]. apply andb_true_iff in Hrange as [?%Z.leb_le ?%Z.leb_le].
    destruct (Hh' _ eq_refl) as (-> & d' & Hd1 & Hd2 & Hd3); [done|]. injection Hr as Hr1 Hr2 Hr3.
    destruct (receive_start_ok k f x1 d' total dat last (st', out)) as (x2 & b & -> & Hn2 & Ht2 & Hs2 & Hrx & Hb & Hbd & Hba); try done;
      [by rewrite Hr1|by rewrite Hp|].
    destruct (finish_receive f x2 b dat total last st' out) as (x3 & -> & Hn3 & Ht3 & Hs3 & Hout); try done; [by rewrite flags_end, Hp|].
    exists x3. split; [done|]. split_and!; [congruence..|exact Hout].
  - destruct st as [[got tot]|]; [|done]. destruct dat as [|v dat]; [done|].
    change (accept (got ++ v :: dat) tot last = Some (st', out)) in Hfeed.
    destruct (Hh' _ eq_refl) as (-> & d' & Hd1 & Hd2 & Hd3); [done|]. injection Hr as Hr1 Hr2 Hr3.
    destruct Hst as (Hst & Hln & b & Hbuf & Hb & Hbd & Hba).
    destruct (receive_more_ok k f x1 d' b (v :: dat) last got tot (st', out)) as (x2 & b2 & -> & Hn2 & Ht2 & Hs2 & Hrx & Hb2 & Hbd2 & Hba2); try done.
    { unfold rx_of. congruence. }
    destruct (finish_receive f x2 b2 (got ++ v :: dat) tot last st' out) as (x3 & -> & Hn3 & Ht3 & Hs3 & Hout); try done; [by rewrite flags_end, Hp|].
    exists x3. split; [done|]. split_and!; [congruence..|exact Hout].
  - rewrite Hh. cbn [is_no_error]. exists x1. split; [done|]. assert (st' = st ∧ out = []) as [-> ->] by (destruct st as [[]|]; naive_solver).
    split_and!; try done. injection Hr as Hr1 Hr2 Hr3. unfold reassembling. rewrite Hr1, Hr2, Hr3. exact Hst.
Qed.
End receiving.

(** * The properties *)

(** The acknowledgements an engine accepts are the numbers from the oldest to the
    newest fragment it has sent and that is not acknowledged, around the end of the
    8-bit range, and none when nothing is expected.  An accepted number leaves the
    fragments after it unacknowledged, and every other number is refused without a
    change. *)
Theorem acknowledgement_window a e : in_u 8 a → in_u 8 (mTxOldestUnackedSeqNum e) → in_u 8 (mTxNewestUnackedSeqNum e) →
  let offset := u8 (a - mTxOldestUnackedSeqNum e) in
  if decide (offset < unacked e) then
    ∃ e', HandleAckReceived a e = (CHIP_NO_ERROR, e') ∧ unacked e' = unacked e - offset - 1 ∧
      mTxNextSeqNum e' = mTxNextSeqNum e ∧ rx_of e' = rx_of e ∧ tx_of e' = tx_of e
  else HandleAckReceived a e = (BLE_ERROR_INVALID_ACK, e).
Proof.
  intros Ha Ho Hn offset. unfold HandleAckReceived. rewrite is_valid_ack_spec by done. unfold unacked. fold offset.
  assert (0 ≤ offset < 256) by (apply (wrap_range 8); lia).
  destruct (mExpectingAck e) eqn:Hexp; cbn [andb]; [|by rewrite decide_False by lia].
  destruct (Z.leb_spec offset (u8 (mTxNewestUnackedSeqNum e - mTxOldestUnackedSeqNum e))) as [Hin|Hout]; [|by rewrite decide_False by lia].
  rewrite decide_True by lia. cbn [negb]. destruct (Z.eqb_spec (mTxNewestUnackedSeqNum e) a) as [E|E]; (eexists; split; [done|]); cbn [mExpectingAck update].
  - split; [|done]. unfold offset. rewrite E. lia.
  - rewrite Hexp. cbn [mTxNewestUnackedSeqNum mTxOldestUnackedSeqNum update]. split; [|done].
    rewrite <- (wrap_small 8 a) by done. rewrite inc_u8. unfold offset in *. unfold in_u, wrap in *. change (2 ^ 8) with 256 in *.
    Z.to_euclidean_division_equations. lia.
Qed.

(** Sends the rest of a message: the fragments, in order. *)
Fixpoint send_rest (fuel : nat) (e : BtpEngine) : option (list bytes * BtpEngine) :=
  match fuel with
  | O => None
  | S fuel =>
      match mTxState e with
      | kState_Complete => Some ([], e)
      | _ => let! (ok, e) := HandleCharacteristicSend [] false e in
             if ok then let! (l, e') := send_rest fuel e in Some (transmitted e :: l, e') else None
      end
  end.
(** The quotient rounded up. *)
Definition div_up (a b : Z) : Z := (a + b - 1) / b.

Lemma send_rest_ok fuel : ∀ e rest b, sending e rest b → 5 ≤ mTxFragmentSize e ≤ 0xFFFF → (length rest < fuel)%nat →
  ∃ l e', send_rest fuel e = Some (l, e') ∧ Z.of_nat (length l) = div_up (Z.of_nat (length rest)) (mTxFragmentSize e - 2) ∧
    mTxState e' = kState_Complete.
Proof.
  induction fuel as [|fuel IH]; intros e rest b Hsd Hf Hfuel; [lia|]. cbn [send_rest]. rewrite (sd_state _ _ _ Hsd).
  destruct (send_continue_ok e rest b false Hsd Hf) as (e1 & -> & Hne & [(b1 & Hbuf & _ & _ & _ & Hnext) _ _ Hs]); [done|].
  set (n := Z.to_nat (mTxFragmentSize e - 2)) in *. pose proof (sd_rest _ _ _ Hsd) as Hr.
  assert (0 < length rest)%nat by (destruct rest; [done|cbn; lia]). injection Hs as _ Hs. case_decide as Hd.
  - exists [transmitted e1], e1. destruct fuel as [|fuel]; [lia|]. cbn [send_rest]. rewrite Hnext. split_and!; [done| |done].
    apply (f_equal length) in Hd. rewrite length_drop in Hd. cbn [length] in *. unfold div_up. apply Z.div_unique with (Z.of_nat (length rest) - 1); lia.
  - assert (Hl : length (drop n rest) = (length rest - n)%nat) by apply length_drop.
    assert (0 < length (drop n rest))%nat by (destruct (drop n rest); [done|cbn; lia]).
    destruct (IH e1 (drop n rest) b1 Hnext) as (l & e' & -> & Hlen & Hst); [by rewrite Hs|lia|].
    exists (transmitted e1 :: l), e'. split_and!; [done| |done]. cbn [length]. rewrite Nat2Z.inj_succ, Hlen, Hs, Hl. unfold div_up.
    replace (Z.of_nat (length rest) + (mTxFragmentSize e - 2) - 1) with (Z.of_nat (length rest - n) + (mTxFragmentSize e - 2) - 1 + 1 * (mTxFragmentSize e - 2)) by lia.
    rewrite Z.div_add by lia. lia.
Qed.

(** C40: Sending a message ends: without acknowledgements to carry it takes one
    fragment and, for the bytes that the first does not hold, one for every two less
    than the fragment size; the engine is then ready for the buffer to be taken. *)
Theorem btp_message_terminates e b fuel : mTxState e = kState_Idle → chain_ok [b] → (payload b < 5 → 5 + len b ≤ AllocSize b) →
  5 ≤ mTxFragmentSize e ≤ 0xFFFF → len b < Z.of_nat fuel →
  ∃ e1 l e2, HandleCharacteristicSend [b] false e = Some (true, e1) ∧ send_rest fuel e1 = Some (l, e2) ∧
    Z.of_nat (length l) = div_up (Z.max 0 (len b - (mTxFragmentSize e - 4))) (mTxFragmentSize e - 2) ∧
    mTxState (snd (TakeTxPacket e2)) = kState_Idle.
Proof.
  intros Hst Hb Hroom Hf Hfuel. destruct (send_message_ok b false e Hst Hb Hroom Hf) as (e1 & Hrun & [(b1 & Hbuf & _ & _ & _ & Hnext) _ _ Hs]); [done|].
  set (n := Z.to_nat (mTxFragmentSize e - 4)) in *. injection Hs as _ Hs. exists e1.
  pose proof (length_data b (proj1 (proj1 (chain_one b) Hb))) as Hl. pose proof (length_drop (data b) n) as Hd.
  assert (∀ e2, mTxState e2 = kState_Complete → mTxState (snd (TakeTxPacket e2)) = kState_Idle) as Htake
    by (intros e2 H2; unfold TakeTxPacket; by rewrite decide_True).
  case_decide as Hr.
  - exists [], e1. destruct fuel as [|fuel]; [lia|]. cbn [send_rest]. rewrite Hnext. split_and!; try done; [|by apply Htake].
    rewrite Hr in Hd. cbn [length] in *. rewrite Z.max_l by lia. unfold div_up. symmetry. apply Z.div_small. lia.
  - destruct (send_rest_ok fuel e1 (drop n (data b)) b1 Hnext) as (l & e2 & Hl2 & Hlen & Hc); [by rewrite Hs|lia|].
    exists l, e2. split_and!; try done; [|by apply Htake]. rewrite Hlen, Hs. f_equal. lia.
Qed.

Module EngineDemo.
Definition raw : BtpEngine := Init false {|
  mRxState := kState_Idle; mRxLength := 0; mRxBuf := []; mRxNextSeqNum := 0; mRxNewestUnackedSeqNum := 0; mRxOldestUnackedSeqNum := 0;
  mRxFragmentSize := 0; mTxState := kState_Idle; mTxLength := 0; mTxBuf := []; mTxNextSeqNum := 0; mTxNewestUnackedSeqNum := 0;
  mTxOldestUnackedSeqNum := 0; mExpectingAck := false; mTxFragmentSize := 0; mRxCharCount := 0; mRxPacketCount := 0; mTxCharCount := 0;
  mTxPacketCount := 0 |}.
(** A message of three bytes, with room for a header. *)
Definition message : PacketBuffer := {| block := [0; 0; 0; 0; 0; 7; 8; 9]; payload := 5; len := 3; tot_len := 3 |}.
Lemma message_ok : chain_ok [message].
Proof. apply chain_one. split; [split; vm_compute; intros [=]|reflexivity]. Qed.

(** The peripheral after the handshake, with fragments of 5 bytes. *)
Definition peripheral : BtpEngine := SetRxFragmentSize 5 (SetTxFragmentSize 5 (Init true raw)).

(** The peripheral expects the acknowledgement of its first fragment, number 0. *)
Lemma acknowledgement_window_witness : ∃ e', HandleAckReceived 0 peripheral = (CHIP_NO_ERROR, e') ∧ unacked e' = 0.
Proof.
  destruct (acknowledgement_window 0 peripheral) as (e' & He & Hu & _);
    [split; vm_compute; first [reflexivity|intros [=]]..|].
  exists e'. split; [exact He|]. rewrite Hu. vm_compute. reflexivity.
Defined.

Lemma btp_message_terminates_witness : ∃ e1 l e2, HandleCharacteristicSend [message] false peripheral = Some (true, e1) ∧
  send_rest 4 e1 = Some (l, e2) ∧ Z.of_nat (length l) = 1 ∧ mTxState (snd (TakeTxPacket e2)) = kState_Idle.
Proof.
  apply (btp_message_terminates peripheral message 4); [reflexivity|exact message_ok|intros; vm_compute; intros [=]| |vm_compute; reflexivity].
  split; vm_compute; intros [=].
Defined.
End EngineDemo.
