(* ===== verification/BtpSession.v ===== *)
(** * BtpSession: two engines on a link

    Two engines ([BtpEngine]) that exchange fragments in both directions over a link
    that neither loses nor reorders them, as the Bluetooth connection does, driven by
    the layer above ([src/src/ble/BLEEndPoint.cpp]) in any order.  The sequence
    numbers of one byte are related to unbounded counters, and the fragments in
    flight to the messages they complete. *)
From S2P Require Import Prelude Zcl ChipError MessageHeader PacketBuffer BtpEngine.

(** * One direction of a session, seen with unbounded counters

    [x] has sent [ns] fragments and knows [na] of them to be acknowledged; [y] has
    received [nr] and acknowledged [nk]; [fxy] and [fyx] are in flight. *)
Fixpoint seqs (n : Z) (l : list fragment) : Prop :=
  match l with [] => True | f :: l => f_seq f = u8 n ∧ seqs (n + 1) l end.
Fixpoint acks (na nk : Z) (l : list fragment) : Prop :=
  match l with
  | [] => na = nk
  | f :: l => match f_ack f with
              | None => acks na nk l
              | Some v => ∃ n, na < n ∧ v = u8 (n - 1) ∧ acks n nk l
              end
  end.

Record link (x y : BtpEngine) (fxy fyx : list fragment) (ns na nr nk : Z) : Prop := {
  ln_sent : mTxNextSeqNum x = u8 ns;
  ln_expecting : mExpectingAck x = (na <? ns);
  ln_window : na < ns → mTxOldestUnackedSeqNum x = u8 na ∧ mTxNewestUnackedSeqNum x = u8 (ns - 1);
  ln_order : 0 ≤ na ∧ nk ≤ nr ≤ ns ∧ ns ≤ na + 255;
  ln_flight : ns = nr + Z.of_nat (length fxy);
  ln_next : mRxNextSeqNum y = u8 nr;
  ln_oldest : mRxOldestUnackedSeqNum y = u8 nk;
  ln_newest : nk < nr → mRxNewestUnackedSeqNum y = u8 (nr - 1);
  ln_seqs : seqs nr fxy;
  ln_acks : acks na nk fyx }.

Lemma acks_le na nk l : acks na nk l → na ≤ nk.
Proof.
  revert na. induction l as [|f l IH]; intros na; cbn; [lia|]. destruct (f_ack f); [|apply IH].
  intros (n & Hn & _ & H). specialize (IH n H). lia.
Qed.

Lemma acks_snoc_none na nk l f : acks na nk l → f_ack f = None → acks na nk (l ++ [f]).
Proof.
  revert na. induction l as [|g l IH]; intros na; cbn; [by intros -> ->|]. destruct (f_ack g); [|by apply IH].
  intros (n & ? & ? & H) Hf. exists n. split_and!; [done..|]. by apply IH.
Qed.

Lemma acks_snoc_some na nk n l f : acks na nk l → nk < n → f_ack f = Some (u8 (n - 1)) → acks na n (l ++ [f]).
Proof.
  revert na. induction l as [|g l IH]; intros na; cbn.
  - intros -> Hn ->. exists n. done.
  - destruct (f_ack g); [|by apply IH]. intros (n' & ? & ? & H) Hn Hf. exists n'. split_and!; [done..|]. by apply IH.
Qed.

Lemma seqs_snoc n l f : seqs n l → f_seq f = u8 (n + Z.of_nat (length l)) → seqs n (l ++ [f]).
Proof.
  revert n. induction l as [|g l IH]; intros n; cbn [seqs app length].
  - intros _ ->. split; [f_equal; lia|done].
  - intros [? H] Hf. split; [done|]. apply IH; [done|]. rewrite Hf. f_equal. lia.
Qed.

Section link.
Context {x y : BtpEngine} {fxy fyx : list fragment} {ns na nr nk : Z}.
Hypothesis L : link x y fxy fyx ns na nr nk.

Lemma link_range : 0 ≤ na ≤ nk ∧ nk ≤ nr ≤ ns ∧ ns ≤ na + 255.
Proof. pose proof (ln_order _ _ _ _ _ _ _ _ L). pose proof (acks_le _ _ _ (ln_acks _ _ _ _ _ _ _ _ L)). lia. Qed.

Lemma link_unacked : unacked x = ns - na.
Proof.
  pose proof link_range. unfold unacked. rewrite (ln_expecting _ _ _ _ _ _ _ _ L). destruct (Z.ltb_spec na ns) as [Hlt|]; [|lia].
  destruct (ln_window _ _ _ _ _ _ _ _ L Hlt) as [-> ->]. unfold wrap. rewrite <- Zminus_mod, Z.mod_small by lia. lia.
Qed.

Lemma link_has_unacked : HasUnackedData y = (nk <? nr).
Proof.
  pose proof link_range. unfold HasUnackedData. rewrite (ln_oldest _ _ _ _ _ _ _ _ L), (ln_next _ _ _ _ _ _ _ _ L).
  destruct (Z.ltb_spec nk nr).
  - apply negb_true_iff, Z.eqb_neq. intros E%u8_eq; lia.
  - apply negb_false_iff, Z.eqb_eq. f_equal. lia.
Qed.

(** [x] sends a fragment. *)
Lemma link_send x' fr ack : unacked x < 255 → numbers_of x' = numbers_of (snd (fragment_numbers ack x)) → f_seq fr = mTxNextSeqNum x →
  link x' y (fxy ++ [fr]) fyx (ns + 1) na nr nk.
Proof.
  pose proof link_range as Hr. rewrite link_unacked. intros Hw Hn Hf. destruct L as [H1 H2 H3 H4 H5 H6 H7 H8 H9 H10].
  rewrite sent_numbers, H1, H2, inc_u8 in Hn. injection Hn as _ _ _ E1 E4 E3 E2.
  assert (mTxOldestUnackedSeqNum x' = u8 na) as E5.
  { rewrite E3. destruct (Z.ltb_spec na ns) as [Hlt|]; [by apply H3|f_equal; lia]. }
  split; rewrite ?E1, ?E2, ?E4, ?E5; try done.
  - symmetry. apply Z.ltb_lt. lia.
  - intros _. split; [done|]. f_equal. lia.
  - lia.
  - rewrite length_app. cbn. lia.
  - apply seqs_snoc; [done|]. rewrite Hf, H1. f_equal. lia.
Qed.

(** [y] sends a fragment, which may acknowledge what it has received. *)
Lemma link_acknowledge y' fr (ack : bool) : (ack = true → HasUnackedData y = true) → numbers_of y' = numbers_of (snd (fragment_numbers ack y)) →
  f_ack fr = (if ack then Some (mRxNewestUnackedSeqNum y) else None) →
  link x y' fxy (fyx ++ [fr]) ns na nr (if ack then nr else nk).
Proof.
  intros Hu Hn Hf. pose proof link_range as Hr. pose proof link_has_unacked as Hh. destruct L as [H1 H2 H3 H4 H5 H6 H7 H8 H9 H10].
  rewrite sent_numbers, H6, H7 in Hn. injection Hn as E1 E2 E3 _ _ _ _. destruct ack.
  - specialize (Hu eq_refl). rewrite Hu in Hh. symmetry in Hh. apply Z.ltb_lt in Hh.
    split; rewrite ?E1, ?E3; try done; [lia|lia|]. apply acks_snoc_some with nk; [done|lia|]. rewrite Hf. by rewrite H8.
  - split; rewrite ?E1, ?E2, ?E3; try done. by apply acks_snoc_none.
Qed.
End link.

(** [y] receives the next fragment. *)
Lemma link_receive x y y' f fxy fyx ns na nr nk : link x y (f :: fxy) fyx ns na nr nk → numbers_of y' = numbers_of (receive_numbers f y) →
  f_seq f = mRxNextSeqNum y ∧ link x y' fxy fyx ns na (nr + 1) nk.
Proof.
  intros L Hn. pose proof (link_range L) as Hr. destruct L as [H1 H2 H3 H4 H5 H6 H7 H8 [Hs H9] H10]. split; [by rewrite Hs|].
  assert (mRxNextSeqNum y' = u8 (nr + 1) ∧ mRxOldestUnackedSeqNum y' = u8 nk ∧ mRxNewestUnackedSeqNum y' = f_seq f) as (E1 & E2 & E3).
  { rewrite <- inc_u8, <- H6, <- H7. unfold receive_numbers, HandleAckReceived in Hn. destruct (f_ack f) as [v|].
    - destruct (IsValidAck v y); cbn [negb snd] in Hn; [destruct (mTxNewestUnackedSeqNum y =? v)|]; by injection Hn as -> -> -> _ _ _ _.
    - by injection Hn as -> -> -> _ _ _ _. }
  cbn [length] in H5. split; rewrite ?E1, ?E2, ?E3; try done; [lia|lia|]. intros _. rewrite Hs. f_equal. lia.
Qed.

(** [x] receives a fragment, with the acknowledgement it may carry. *)
Lemma link_acknowledged x y x' f fxy fyx ns na nr nk : link x y fxy (f :: fyx) ns na nr nk → numbers_of x' = numbers_of (receive_numbers f x) →
  (∀ v, f_ack f = Some v → fst (HandleAckReceived v x) = CHIP_NO_ERROR) ∧ ∃ na', link x' y fxy fyx ns na' nr nk.
Proof.
  intros L Hn. pose proof (link_range L) as Hr. destruct L as [H1 H2 H3 H4 H5 H6 H7 H8 H9 H10]. cbn in H10.
  unfold receive_numbers in Hn. destruct (f_ack f) as [v|].
  - destruct H10 as (n & Hna & -> & Hacks). pose proof (acks_le _ _ _ Hacks).
    assert (na < ns) as Hlt by lia. destruct (H3 Hlt) as [Ho Hne].
    assert (IsValidAck (u8 (n - 1)) x = true) as Hv.
    { rewrite is_valid_ack_spec, H2, Ho, Hne by (rewrite ?Ho, ?Hne; apply wrap_range; lia).
      rewrite (proj2 (Z.ltb_lt na ns)) by done. cbn [andb]. apply Z.leb_le. unfold wrap. rewrite <- !Zminus_mod. rewrite !Z.mod_small; lia. }
    unfold HandleAckReceived in *. rewrite Hv, Hne in *. cbn [negb] in *. split.
    { intros v [= <-]. rewrite Hv. cbn [negb]. by destruct (_ =? _). }
    exists n. destruct (Z.eqb_spec (u8 (ns - 1)) (u8 (n - 1))) as [E|E]; cbn [snd] in Hn.
    + apply u8_eq in E; [|lia]. injection Hn as _ _ _ E1 _ _ E2.
      split; rewrite ?E1, ?E2; try done; [symmetry; apply Z.ltb_ge|..]; lia.
    + assert (n ≠ ns) by (intros ->; done). rewrite inc_u8 in Hn. injection Hn as _ _ _ E1 E4 E3 E2.
      split; rewrite ?E1, ?E2, ?E3, ?E4; try done; [rewrite H2, !(proj2 (Z.ltb_lt _ _)) by lia; done| |lia].
      intros _. rewrite Hne. split; [f_equal; lia|done].
  - split; [done|]. injection Hn as _ _ _ E1 E2 E3 E4. exists na. split; rewrite ?E1, ?E2, ?E3, ?E4; done.
Qed.

(** * A session of two engines

    [flow x y fs ft given got]: the fragments [fs] from [x] are in flight, those of
    [ft] come back; [given] are the messages handed to [x], [got] those that [y] has
    delivered.  What is delivered, what the fragments in flight complete, and the
    message [x] is in the middle of are together what was given. *)
Fixpoint feed_all (st : partial) (l : list piece) : option (partial * list bytes) :=
  match l with
  | [] => Some (st, [])
  | p :: l => let! (st, out) := feed st p in let! (st, more) := feed_all st l in Some (st, out ++ more)
  end.

Lemma feed_all_snoc st l p st1 out1 st2 out2 : feed_all st l = Some (st1, out1) → feed st1 p = Some (st2, out2) →
  feed_all st (l ++ [p]) = Some (st2, out1 ++ out2).
Proof.
  revert st out1. induction l as [|q l IH]; intros st out1; cbn.
  - intros [= -> <-] ->. by rewrite app_nil_r.
  - destruct (feed st q) as [[st' out']|]; [|done]. destruct (feed_all st' l) as [[st'' more]|] eqn:E; [|done].
    intros [= -> <-] Hf. rewrite (IH st' more E Hf). by rewrite (assoc_L app).
Qed.

Definition outbox (e : BtpEngine) (st : partial) (current : list bytes) : Prop :=
  ((mTxState e = kState_Idle ∨ mTxState e = kState_Complete) ∧ st = None ∧ current = []) ∨
  ∃ b rest sofar, sending e rest b ∧ st = Some (sofar, Z.of_nat (length (sofar ++ rest))) ∧ current = [sofar ++ rest] ∧
    Z.of_nat (length (sofar ++ rest)) ≤ kMaxSizeWithoutReserve.

Record flow (x y : BtpEngine) (fs ft : list fragment) (given got : list bytes) : Prop := {
  fl_link : ∃ ns na nr nk, link x y fs ft ns na nr nk;
  fl_sizes : 5 ≤ mTxFragmentSize x ≤ 0xFFFF ∧ mTxFragmentSize x ≤ mRxFragmentSize y;
  fl_small : Forall (λ f, Z.of_nat (length (fragment_bytes f)) ≤ mRxFragmentSize y) fs;
  fl_messages : ∃ st st' out current, reassembling y st ∧ feed_all st (f_piece <$> fs) = Some (st', out) ∧
    outbox x st' current ∧ given = got ++ out ++ current }.

Lemma sending_frame e e' rest b : tx_of e' = tx_of e → sizes_of e' = sizes_of e → sending e rest b → sending e' rest b.
Proof. intros [= E1 E2 E3] [= _ E4] []. split; rewrite ?E1, ?E2, ?E3, ?E4; done. Qed.

Lemma outbox_frame e e' st current : tx_of e' = tx_of e → sizes_of e' = sizes_of e → outbox e st current → outbox e' st current.
Proof.
  intros Ht Hs [(Hst & ? & ?)|(b & rest & sofar & Hsd & ?)].
  - left. injection Ht as -> _ _. done.
  - right. exists b, rest, sofar. split; [by eapply sending_frame|done].
Qed.

Lemma reassembling_frame e e' st : rx_of e' = rx_of e → reassembling e st → reassembling e' st.
Proof. intros [= E1 E2 E3]. unfold reassembling. rewrite E1, E2, E3. done. Qed.

Section flow.
Context {x y : BtpEngine} {fs ft : list fragment} {given got : list bytes}.
Hypothesis F : flow x y fs ft given got.

(** [x] sends the fragment [fr], which adds [new] to what was given. *)
Lemma flow_send x' fr ack new : unacked x < 255 → numbers_of x' = numbers_of (snd (fragment_numbers ack x)) → sizes_of x' = sizes_of x →
  f_seq fr = mTxNextSeqNum x → Z.of_nat (length (fragment_bytes fr)) ≤ mTxFragmentSize x →
  (∀ st current, outbox x st current → ∃ st' out current', feed st (f_piece fr) = Some (st', out) ∧ outbox x' st' current' ∧
     current ++ new = out ++ current') →
  flow x' y (fs ++ [fr]) ft (given ++ new) got.
Proof.
  intros Hw Hn Hs Hseq Hlen Hout. destruct F as [(ns & na & nr & nk & HL) Hsz Hsm (st & st1 & out & cur & Hre & Hfeed & Hbox & Hg)].
  injection Hs as Hs1 Hs2. split.
  - exists (ns + 1), na, nr, nk. by eapply link_send.
  - by rewrite Hs2.
  - apply Forall_app. split; [done|]. apply Forall_singleton. lia.
  - destruct (Hout st1 cur Hbox) as (st2 & out2 & cur2 & Hf & Hbox2 & He). exists st, st2, (out ++ out2), cur2. split_and!; try done.
    + rewrite fmap_app. by eapply feed_all_snoc.
    + rewrite Hg. rewrite <- !(assoc_L app). by rewrite He.
Qed.

(** [y] sends a fragment that may acknowledge. *)
Lemma flow_acknowledge y' fr (ack : bool) : (ack = true → HasUnackedData y = true) →
  numbers_of y' = numbers_of (snd (fragment_numbers ack y)) → rx_of y' = rx_of y → sizes_of y' = sizes_of y →
  f_ack fr = (if ack then Some (mRxNewestUnackedSeqNum y) else None) →
  flow x y' fs (ft ++ [fr]) given got.
Proof.
  intros Hu Hn Hr Hs Ha. destruct F as [(ns & na & nr & nk & HL) Hsz Hsm (st & st1 & out & cur & Hre & Hfeed & Hbox & Hg)].
  injection Hs as Hs1 Hs2. split.
  - eexists ns, na, nr, _. by eapply link_acknowledge.
  - by rewrite Hs1.
  - by rewrite Hs1.
  - exists st, st1, out, cur. split_and!; try done. by eapply reassembling_frame.
Qed.

(** Steps of [x] that change neither its numbers nor the message it sends. *)
Lemma flow_rest x' : numbers_of x' = numbers_of x → sizes_of x' = sizes_of x → (∀ st current, outbox x st current → outbox x' st current) →
  flow x' y fs ft given got.
Proof.
  intros Hn Hs Hb. destruct F as [(ns & na & nr & nk & HL) Hsz Hsm (st & st1 & out & cur & Hre & Hfeed & Hbox & Hg)].
  injection Hs as Hs1 Hs2. split; [|by rewrite Hs2|done|].
  - exists ns, na, nr, nk. destruct HL as [H1 H2 H3 H4 H5 H6 H7 H8 H9 H10]. injection Hn as _ _ _ E1 E2 E3 E4. split; rewrite ?E1, ?E2, ?E3, ?E4; done.
  - exists st, st1, out, cur. split_and!; try done. by apply Hb.
Qed.
Lemma flow_rest_receiver y' : numbers_of y' = numbers_of y → sizes_of y' = sizes_of y → rx_of y' = rx_of y → flow x y' fs ft given got.
Proof.
  intros Hn Hs Hr. destruct F as [(ns & na & nr & nk & HL) Hsz Hsm (st & st1 & out & cur & Hre & Hfeed & Hbox & Hg)].
  injection Hs as Hs1 Hs2. split; [|by rewrite Hs1|by rewrite Hs1|].
  - exists ns, na, nr, nk. destruct HL as [H1 H2 H3 H4 H5 H6 H7 H8 H9 H10]. injection Hn as E1 E2 E3 _ _ _ _. split; rewrite ?E1, ?E2, ?E3; done.
  - exists st, st1, out, cur. split_and!; try done. by eapply reassembling_frame.
Qed.
End flow.

(** What the sender has, and what the fragments it sends complete. *)
Lemma accept_piece got msg rest : Z.of_nat (length msg) ≤ kMaxSizeWithoutReserve → got ++ rest = msg →
  accept got (Z.of_nat (length msg)) (bool_decide (rest = [])) =
  Some (if decide (rest = []) then (None, [msg]) else (Some (got, Z.of_nat (length msg)), [])).
Proof.
  intros Hm <-. unfold accept. rewrite length_app in *. rewrite (proj2 (Z.ltb_ge _ _)) by lia. case_decide as Hr.
  - subst rest. cbn. rewrite Nat.add_0_r, Z.eqb_refl, app_nil_r. done.
  - by rewrite bool_decide_eq_false_2.
Qed.

(** The buffer of a sent piece, as the reassembly will see it. *)
Lemma outbox_after x ack p x' sofar rest : sent_piece x ack p rest x' → Z.of_nat (length (sofar ++ rest)) ≤ kMaxSizeWithoutReserve →
  outbox x' (if decide (rest = []) then None else Some (sofar, Z.of_nat (length (sofar ++ rest))))
    (if decide (rest = []) then [] else [sofar ++ rest]).
Proof.
  intros [(b & _ & _ & _ & _ & Hb) _ _ _] Hl. case_decide; [by left; auto|]. right. by exists b, rest, sofar.
Qed.

Lemma outbox_start x b ack x' n st current : mTxState x = kState_Idle → chain_ok [b] → len b ≤ kMaxSizeWithoutReserve →
  let p := Start (len b) (take n (data b)) (bool_decide (drop n (data b) = [])) in
  sent_piece x ack p (drop n (data b)) x' → outbox x st current →
  ∃ st' out current', feed st p = Some (st', out) ∧ outbox x' st' current' ∧ current ++ [data b] = out ++ current'.
Proof.
  intros Hst [Hb _]%chain_one Hl p Hs [(_ & -> & ->)|(b0 & rest & sofar & Hsd & _)]; [|pose proof (sd_state _ _ _ Hsd); congruence].
  pose proof (length_data b Hb) as Hd. pose proof (take_drop n (data b)) as Hsplit. pose proof (ok_len _ Hb). pose proof (ok_end _ Hb).
  pose proof (ok_size _ Hb). pose proof (ok_payload _ Hb).
  pose proof (outbox_after x ack p x' (take n (data b)) (drop n (data b)) Hs) as Hout. rewrite Hsplit in Hout. specialize (Hout ltac:(lia)).
  do 3 eexists. split; [|split; [exact Hout|]].
  - cbn [feed p]. rewrite !(proj2 (Z.leb_le _ _)) by lia. cbn [andb]. rewrite <- Hd. rewrite (accept_piece _ (data b)) by (done || lia).
    instantiate (1 := if decide (drop n (data b) = []) then [data b] else []). by case_decide.
  - by case_decide.
Qed.

Lemma outbox_continue x rest b ack x' n st current : sending x rest b → take n rest ≠ [] →
  let p := Continue (take n rest) (bool_decide (drop n rest = [])) in
  sent_piece x ack p (drop n rest) x' → outbox x st current →
  ∃ st' out current', feed st p = Some (st', out) ∧ outbox x' st' current' ∧ current ++ [] = out ++ current'.
Proof.
  intros Hsd Hne p Hs [(Hst & _)|(b0 & rest0 & sofar & Hsd0 & -> & -> & Hl)].
  { pose proof (sd_state _ _ _ Hsd). destruct Hst; congruence. }
  assert (rest0 = rest) as ->.
  { destruct Hsd as [_ _ Hl1 Hb1 _ _ _ Hk1], Hsd0 as [_ _ Hl2 Hb2 _ _ _ Hk2]. rewrite Hb1 in Hb2. injection Hb2 as <-.
    rewrite Hl1 in Hl2. apply Nat2Z.inj in Hl2. by rewrite <- Hk1, <- Hk2, Hl2. }
  pose proof (take_drop n rest) as Hsplit. assert ((sofar ++ take n rest) ++ drop n rest = sofar ++ rest) as Hmsg by by rewrite <- (assoc_L app), Hsplit.
  pose proof (outbox_after x ack p x' (sofar ++ take n rest) (drop n rest) Hs) as Hout. rewrite Hmsg in Hout. specialize (Hout Hl).
  do 3 eexists. split; [|split; [exact Hout|]].
  - assert (feed (Some (sofar, Z.of_nat (length (sofar ++ rest)))) p =
      accept (sofar ++ take n rest) (Z.of_nat (length (sofar ++ rest))) (bool_decide (drop n rest = []))) as -> by (unfold p; by destruct (take n rest)).
    rewrite (accept_piece _ (sofar ++ rest)) by done.
    instantiate (1 := if decide (drop n rest = []) then [sofar ++ rest] else []). by case_decide.
  - by case_decide.
Qed.

Section session.
Variable alloc : nat → Z → option bytes.
Hypothesis rx_block : ∀ k, ∃ m, alloc k kMaxSizeWithoutReserve = Some m ∧ Z.of_nat (length m) = kMaxSizeWithoutReserve.

(** The next fragment arrives. *)
Lemma flow_received x y f fs ft given got given' got' k d ack0 did0 :
  flow x y (f :: fs) ft given got → flow y x ft (f :: fs) given' got' → chain_ok [d] → data d = fragment_bytes f →
  ∃ r, HandleCharacteristicReceived alloc k [d] ack0 did0 y = Some (CHIP_NO_ERROR, r) ∧
    let y' := rx_engine r in let y2 := if decide (mRxState y' = kState_Complete) then snd (TakeRxPacket y') else y' in
    let got2 := if decide (mRxState y' = kState_Complete) then got ++ [contents (mRxBuf y')] else got in
    flow x y2 fs ft given got2 ∧ flow y2 x ft fs given' got'.
Proof.
  intros [(ns & na & nr & nk & HL) Hsz Hsm (st & st1 & out & cur & Hre & Hfeed & Hbox & Hg)].
  intros [(ns' & na' & nr' & nk' & HL') Hsz' Hsm' (st' & st1' & out' & cur' & Hre' & Hfeed' & Hbox' & Hg')] Hd Hdat.
  cbn [fmap list_fmap feed_all] in Hfeed. destruct (feed st (f_piece f)) as [[st2 out2]|] eqn:Hf; [|done].
  destruct (feed_all st2 (f_piece <$> fs)) as [[st3 more]|] eqn:Hmore; [|done]. injection Hfeed as -> <-.
  apply Forall_cons in Hsm as [Hlen Hsm]. rewrite <- Hdat, (length_data d (proj1 (proj1 (chain_one d) Hd))) in Hlen.
  destruct (link_receive x y (receive_numbers f y) f fs ft ns na nr nk HL eq_refl) as [Hseq _].
  destruct (link_acknowledged y x (receive_numbers f y) f ft fs ns' na' nr' nk' HL' eq_refl) as [Hack _].
  destruct (receive_ok alloc rx_block k y d f ack0 did0 st st2 out2) as (r & Hrun & Hn & Ht & Hs & Hres); try done.
  exists r. split; [done|]. cbv zeta.
  set (y2 := if decide (mRxState (rx_engine r) = kState_Complete) then snd (TakeRxPacket (rx_engine r)) else rx_engine r).
  assert (numbers_of y2 = numbers_of (receive_numbers f y) ∧ tx_of y2 = tx_of y ∧ sizes_of y2 = sizes_of y) as (Hn2 & Ht2 & Hs2).
  { unfold y2, TakeRxPacket. by case_decide. }
  destruct (link_receive x y y2 f fs ft ns na nr nk HL Hn2) as [_ HL2].
  destruct (link_acknowledged y x y2 f ft fs ns' na' nr' nk' HL' Hn2) as [_ [na2 HL2']].
  assert (∃ g2, reassembling y2 st2 ∧ (if decide (mRxState (rx_engine r) = kState_Complete) then got ++ [contents (mRxBuf (rx_engine r))] else got) = got ++ g2 ∧ g2 = out2)
    as (g2 & Hre2 & -> & ->).
  { destruct out2 as [|msg [|? ?]]; [| |naive_solver].
    - exists []. unfold y2. destruct st2 as [[gt tt]|]; cbn [reassembling] in Hres.
      + rewrite !decide_False by (destruct Hres as [-> _]; done). by rewrite app_nil_r.
      + rewrite !decide_False by (rewrite Hres; done). by rewrite app_nil_r.
    - destruct Hres as (_ & -> & Hc & b & Hb & _ & Hbd). exists [msg]. unfold y2. rewrite !decide_True by done. rewrite Hb. cbn [contents].
      split_and!; [unfold TakeRxPacket; by rewrite decide_True by done| |done]. cbn. by rewrite app_nil_r, Hbd. }
  pose proof Hs2 as [= Hs3 Hs4]. split; split; rewrite ?Hs3, ?Hs4; try done.
  - by exists ns, na, (nr + 1), nk.
  - exists st2, st1, more, cur. split_and!; try done. rewrite Hg. by rewrite <- !(assoc_L app).
  - by exists ns', na2, nr', nk'.
  - exists st', st1', out', cur'. split_and!; try done. by apply (outbox_frame y y2).
Qed.

(** ** The two sides

    A side has its engine, the fragments it has sent that have not arrived, the
    messages it was given, and those it has delivered. *)
Record side := { engine : BtpEngine; wire : list bytes; given : list bytes; got : list bytes }.

Definition window_open (e : BtpEngine) : Prop := unacked e < 255.

(** What the layer above does with the engine of side [s], [t] being the other one:
    it sends a message, or the next fragment, or an acknowledgement, it takes back the
    buffer of a message sent, or it hands a fragment that arrived to the engine, and
    takes the message when it is complete. *)
Inductive act : side → side → side → side → Prop :=
| act_send s t b ack r e' :
    mTxState (engine s) = kState_Idle → window_open (engine s) → (ack = true → HasUnackedData (engine s) = true) →
    chain_ok [b] → len b ≤ kMaxSizeWithoutReserve → (payload b < 5 → 5 + len b ≤ AllocSize b) →
    HandleCharacteristicSend [b] ack (engine s) = Some (r, e') →
    act s t {| engine := e'; wire := wire s ++ [transmitted e']; given := given s ++ [data b]; got := got s |} t
| act_continue s t ack r e' :
    mTxState (engine s) = kState_InProgress → window_open (engine s) → (ack = true → HasUnackedData (engine s) = true) →
    HandleCharacteristicSend [] ack (engine s) = Some (r, e') →
    act s t {| engine := e'; wire := wire s ++ [transmitted e']; given := given s; got := got s |} t
| act_sent s t :
    mTxState (engine s) = kState_Complete →
    act s t {| engine := snd (TakeTxPacket (engine s)); wire := wire s; given := given s; got := got s |} t
| act_ack s t b err c e' :
    HasUnackedData (engine s) = true → window_open (engine s) → chain_ok [b] → 3 ≤ AllocSize b - payload b →
    EncodeStandAloneAck [b] (engine s) = Some (err, c, e') →
    act s t {| engine := e'; wire := wire s ++ [contents c]; given := given s; got := got s |} t
| act_receive s t k d ack0 did0 rest err r :
    wire t = data d :: rest → chain_ok [d] →
    HandleCharacteristicReceived alloc k [d] ack0 did0 (engine s) = Some (err, r) →
    let e' := rx_engine r in
    act s t (if decide (mRxState e' = kState_Complete)
             then {| engine := snd (TakeRxPacket e'); wire := wire s; given := given s; got := got s ++ [contents (mRxBuf e')] |}
             else {| engine := e'; wire := wire s; given := given s; got := got s |})
            {| engine := engine t; wire := rest; given := given t; got := got t |}.
Inductive session_step : side * side → side * side → Prop :=
| step_left s t s' t' : act s t s' t' → session_step (s, t) (s', t')
| step_right s t s' t' : act t s t' s' → session_step (s, t) (s', t').

(** The sides after the handshake: the peripheral has sent a fragment, which the
    central has received, and both know the fragment sizes of the two directions. *)
Definition session_start (ep ec : BtpEngine) (fp fc : Z) : side * side :=
  ({| engine := SetRxFragmentSize fc (SetTxFragmentSize fp (Init true ep)); wire := []; given := []; got := [] |},
   {| engine := SetRxFragmentSize fp (SetTxFragmentSize fc (Init false ec)); wire := []; given := []; got := [] |}).

Definition half (s t : side) (fs ft : list fragment) : Prop :=
  flow (engine s) (engine t) fs ft (given s) (got t) ∧ wire s = fragment_bytes <$> fs.
Definition session_ok (s t : side) : Prop := ∃ fs ft, half s t fs ft ∧ half t s ft fs.

(** A fragment goes out. *)
Lemma session_sent s t e' ack p rest new : session_ok s t → window_open (engine s) → (ack = true → HasUnackedData (engine s) = true) →
  sent_piece (engine s) ack p rest e' →
  (∀ st current, outbox (engine s) st current → ∃ st' out current', feed st p = Some (st', out) ∧ outbox e' st' current' ∧
     current ++ new = out ++ current') →
  session_ok {| engine := e'; wire := wire s ++ [transmitted e']; given := given s ++ new; got := got s |} t.
Proof.
  intros (fs & ft & [F1 W1] & [F2 W2]) Hw Ha [(b & Hbuf & Hb & Hl & Hd & _) Hn Hr Hs] Hout.
  set (fr := {| f_ack := if ack then Some (mRxNewestUnackedSeqNum (engine s)) else None; f_seq := mTxNextSeqNum (engine s); f_piece := p |}).
  fold fr in Hd. pose proof (length_data b (proj1 (proj1 (chain_one b) Hb))) as Hlen.
  exists (fs ++ [fr]), ft. split; split; cbn [engine wire given got].
  - apply (flow_send F1 e' fr ack); try done. rewrite <- Hd. lia.
  - rewrite W1, fmap_app. unfold transmitted. by rewrite Hbuf, Hd.
  - by apply (flow_acknowledge F2 e' fr ack).
  - done.
Qed.

Lemma session_send s t b ack : session_ok s t → mTxState (engine s) = kState_Idle → window_open (engine s) →
  (ack = true → HasUnackedData (engine s) = true) → chain_ok [b] → len b ≤ kMaxSizeWithoutReserve → (payload b < 5 → 5 + len b ≤ AllocSize b) →
  ∃ e', HandleCharacteristicSend [b] ack (engine s) = Some (true, e') ∧
    session_ok {| engine := e'; wire := wire s ++ [transmitted e']; given := given s ++ [data b]; got := got s |} t.
Proof.
  intros Hok Hst Hw Ha Hb Hl Hroom. pose proof Hok as (fs & ft & [F1 _] & _).
  destruct (send_message_ok b ack (engine s) Hst Hb Hroom (proj1 (fl_sizes _ _ _ _ _ _ F1)) Ha) as (e' & Hrun & Hs).
  exists e'. split; [done|]. eapply session_sent; try done. intros st cur. by apply (outbox_start _ b ack).
Qed.

Lemma session_continue s t ack : session_ok s t → mTxState (engine s) = kState_InProgress → window_open (engine s) →
  (ack = true → HasUnackedData (engine s) = true) →
  ∃ e', HandleCharacteristicSend [] ack (engine s) = Some (true, e') ∧
    session_ok {| engine := e'; wire := wire s ++ [transmitted e']; given := given s; got := got s |} t.
Proof.
  intros Hok Hst Hw Ha. pose proof Hok as (fs & ft & [F1 _] & _). destruct (fl_messages _ _ _ _ _ _ F1) as (? & ? & ? & ? & _ & _ & Hbox & _).
  destruct Hbox as [([|] & _)|(b & rest & sofar & Hsd & _)]; [congruence..|].
  destruct (send_continue_ok (engine s) rest b ack Hsd (proj1 (fl_sizes _ _ _ _ _ _ F1)) Ha) as (e' & Hrun & Hne & Hs).
  exists e'. split; [done|]. rewrite <- (app_nil_r (given s)).
  eapply (session_sent s t e' ack _ _ []); try done. intros st cur. by apply (outbox_continue _ rest b ack).
Qed.

Lemma session_ack s t b : session_ok s t → HasUnackedData (engine s) = true → window_open (engine s) → chain_ok [b] →
  3 ≤ AllocSize b - payload b →
  ∃ c e', EncodeStandAloneAck [b] (engine s) = Some (CHIP_NO_ERROR, c, e') ∧
    session_ok {| engine := e'; wire := wire s ++ [contents c]; given := given s; got := got s |} t.
Proof.
  intros (fs & ft & [F1 W1] & [F2 W2]) Hu Hw [Hb Ht]%chain_one Hroom.
  destruct (send_ack_ok b [] (engine s) Hb Hroom Ht) as (b' & e' & Hrun & Hb' & Hl & _ & Hd & Hn & Hr & Htx & Hs).
  set (fr := {| f_ack := _; f_seq := _; f_piece := _ |}) in Hd. exists [b'], e'. split; [done|].
  pose proof (length_data b' Hb') as Hlen. destruct (fl_sizes _ _ _ _ _ _ F1) as [Hsz _].
  exists (fs ++ [fr]), ft. split; split; cbn [engine wire given got].
  - rewrite <- (app_nil_r (given s)). apply (flow_send F1 e' fr true); try done; [rewrite <- Hd; lia|].
    intros st cur Hbox. exists st, [], cur. split_and!; [by destruct st as [[]|]|by eapply outbox_frame|by rewrite app_nil_r].
  - rewrite W1, fmap_app. cbn. by rewrite app_nil_r, Hd.
  - by apply (flow_acknowledge F2 e' fr true).
  - done.
Qed.

Lemma session_taken s t : session_ok s t → mTxState (engine s) = kState_Complete →
  session_ok {| engine := snd (TakeTxPacket (engine s)); wire := wire s; given := given s; got := got s |} t.
Proof.
  intros (fs & ft & [F1 W1] & [F2 W2]) Hst. unfold TakeTxPacket. rewrite decide_True by done.
  exists fs, ft. split; split; cbn [engine wire given got snd]; try done.
  - apply (flow_rest F1); try done. intros st cur [(_ & -> & ->)|(b & rest & sofar & Hsd & _)].
    + left. auto.
    + pose proof (sd_state _ _ _ Hsd). congruence.
  - by apply (flow_rest_receiver F2).
Qed.

Lemma session_receive s t k d ack0 did0 rest : session_ok s t → wire t = data d :: rest → chain_ok [d] →
  ∃ r, HandleCharacteristicReceived alloc k [d] ack0 did0 (engine s) = Some (CHIP_NO_ERROR, r) ∧
    let e' := rx_engine r in
    session_ok (if decide (mRxState e' = kState_Complete)
             then {| engine := snd (TakeRxPacket e'); wire := wire s; given := given s; got := got s ++ [contents (mRxBuf e')] |}
             else {| engine := e'; wire := wire s; given := given s; got := got s |})
            {| engine := engine t; wire := rest; given := given t; got := got t |}.
Proof.
  intros (fs & ft & [F1 W1] & [F2 W2]) Hwire Hd. destruct ft as [|f ft]; [by rewrite W2 in Hwire|].
  rewrite W2 in Hwire. injection Hwire as Hf Hrest.
  destruct (flow_received (engine t) (engine s) f ft fs _ _ _ _ k d ack0 did0 F2 F1 Hd (eq_sym Hf)) as (r & Hrun & G2 & G1).
  exists r. split; [done|]. exists fs, ft. case_decide; split; split; try done.
Qed.

Lemma act_ok s t s' t' : act s t s' t' → session_ok s t → session_ok s' t'.
Proof.
  destruct 1 as [s t b ack r e' Hst Hw Ha Hb Hl Hroom Hrun|s t ack r e' Hst Hw Ha Hrun|s t Hst|s t b err c e' Hu Hw Hb Hroom Hrun|
                 s t k d ack0 did0 rest err r Hwire Hd Hrun]; intros Hok.
  - destruct (session_send s t b ack) as (e2 & H & ?); try done. congruence.
  - destruct (session_continue s t ack) as (e2 & H & ?); try done. congruence.
  - by apply session_taken.
  - destruct (session_ack s t b) as (c2 & e2 & H & ?); try done. congruence.
  - destruct (session_receive s t k d ack0 did0 rest) as (r2 & H & ?); try done. rewrite Hrun in H. by injection H as -> ->.
Qed.

Lemma session_ok_sym s t : session_ok s t → session_ok t s.
Proof. intros (fs & ft & H1 & H2). by exists ft, fs. Qed.

Lemma start_ok ep ec fp fc : 5 ≤ fp ≤ 0xFFFF → 5 ≤ fc ≤ 0xFFFF → let '(p, c) := session_start ep ec fp fc in session_ok p c.
Proof.
  intros Hp Hc. exists [], []. split; split; try done; split; try done; try (cbn; lia).
  - exists 1, 0, 1, 0. split; cbn; try done; lia.
  - exists None, None, [], []. split_and!; try done. left. auto.
  - exists 0, 0, 0, 0. split; cbn; try done; lia.
  - exists None, None, [], []. split_and!; try done. left. auto.
Qed.

Lemma steps_ok p q : rtc session_step p q → session_ok (fst p) (snd p) → session_ok (fst q) (snd q).
Proof.
  induction 1 as [|p p' q Hstep _ IH]; [done|]. intros Hok. apply IH. destruct Hstep as [s t s' t' Ha|s t s' t' Ha]; cbn in *.
  - by eapply act_ok.
  - apply session_ok_sym. eapply act_ok; [done|]. by apply session_ok_sym.
Qed.
End session.

(** * The properties *)

(** The messages [t] has got are the first ones [s] was given, and all of them once
    nothing is in flight. *)
Definition delivered_in_order (s t : side) : Prop :=
  got t `prefix_of` given s ∧ (wire s = [] → mTxState (engine s) ≠ kState_InProgress → got t = given s).

Lemma session_delivers s t : session_ok s t → delivered_in_order s t.
Proof.
  intros (fs & ft & [F W] & _). destruct (fl_messages _ _ _ _ _ _ F) as (st & st' & out & cur & _ & Hfeed & Hbox & Hg). split.
  - rewrite Hg. by apply prefix_app_r.
  - intros Hw Hst. rewrite W in Hw. apply fmap_nil_inv in Hw as ->. injection Hfeed as <- <-.
    destruct Hbox as [(_ & _ & ->)|(b & rest & sofar & Hsd & _)]; [by rewrite Hg, app_nil_r|]. by rewrite (sd_state _ _ _ Hsd) in Hst.
Qed.

Section correct.
Variable alloc : nat → Z → option bytes.
Hypothesis rx_block : ∀ k, ∃ m, alloc k kMaxSizeWithoutReserve = Some m ∧ Z.of_nat (length m) = kMaxSizeWithoutReserve.

(** C2: Two engines on a reliable, ordered link deliver every message, whole and in
    order, in both directions: after any sequence of messages, fragments,
    acknowledgements (alone or with a fragment) and arrivals, while at most 255
    fragments are not acknowledged, the messages delivered are the first of those
    sent, and all of them when no fragment is left. *)
Theorem btp_delivers_in_order ep ec fp fc p c : 5 ≤ fp ≤ 0xFFFF → 5 ≤ fc ≤ 0xFFFF →
  rtc (session_step alloc) (session_start ep ec fp fc) (p, c) →
  delivered_in_order p c ∧ delivered_in_order c p.
Proof.
  intros Hp Hc Hsteps. pose proof (steps_ok alloc rx_block _ _ Hsteps (start_ok ep ec fp fc Hp Hc)) as Hok. cbn in Hok.
  split; apply session_delivers; [done|by apply session_ok_sym].
Qed.

(** What [s] is asked to do succeeds: a message whose buffer has room for the
    header is accepted, the next fragment and a stand-alone acknowledgement go out,
    and every fragment that arrives is accepted. *)
Definition accepts_all (s t : side) : Prop :=
  (window_open (engine s) →
   (∀ b ack, mTxState (engine s) = kState_Idle → (ack = true → HasUnackedData (engine s) = true) → chain_ok [b] →
      len b ≤ kMaxSizeWithoutReserve → (payload b < 5 → 5 + len b ≤ AllocSize b) →
      ∃ e', HandleCharacteristicSend [b] ack (engine s) = Some (true, e')) ∧
   (∀ ack, mTxState (engine s) = kState_InProgress → (ack = true → HasUnackedData (engine s) = true) →
      ∃ e', HandleCharacteristicSend [] ack (engine s) = Some (true, e')) ∧
   (∀ b, HasUnackedData (engine s) = true → chain_ok [b] → 3 ≤ AllocSize b - payload b →
      ∃ c e', EncodeStandAloneAck [b] (engine s) = Some (CHIP_NO_ERROR, c, e'))) ∧
  (∀ k d ack0 did0 rest, wire t = data d :: rest → chain_ok [d] →
     ∃ r, HandleCharacteristicReceived alloc k [d] ack0 did0 (engine s) = Some (CHIP_NO_ERROR, r)).

Lemma session_accepts s t : session_ok s t → accepts_all s t.
Proof.
  intros Hok. split; [intros Hw; split_and!|].
  - intros b ack Hst Ha Hb Hl Hroom. destruct (session_send s t b ack) as (e' & ? & _); try done. by exists e'.
  - intros ack Hst Ha. destruct (session_continue s t ack) as (e' & ? & _); try done. by exists e'.
  - intros b Hu Hb Hroom. destruct (session_ack s t b) as (c' & e' & ? & _); try done. by exists c', e'.
  - intros k d ack0 did0 rest Hwire Hd. destruct (session_receive alloc rx_block s t k d ack0 did0 rest) as (r & ? & _); try done. by exists r.
Qed.

(** C15: In such a session nothing fails, at the peripheral or at the central: a
    message whose buffer has room for the header is accepted, the next fragment and
    a stand-alone acknowledgement go out while fewer than 255 fragments of the
    engine are not acknowledged, and every fragment that arrives is accepted,
    whatever its buffer. *)
Theorem btp_session_never_fails ep ec fp fc p c : 5 ≤ fp ≤ 0xFFFF → 5 ≤ fc ≤ 0xFFFF →
  rtc (session_step alloc) (session_start ep ec fp fc) (p, c) →
  accepts_all p c ∧ accepts_all c p.
Proof.
  intros Hp Hc Hsteps. pose proof (steps_ok alloc rx_block _ _ Hsteps (start_ok ep ec fp fc Hp Hc)) as Hok. cbn in Hok.
  split; apply session_accepts; [done|by apply session_ok_sym].
Qed.
End correct.

Module BtpDemo.
Definition heap := PacketDemo.heap.
Lemma heap_block k : ∃ m, heap k kMaxSizeWithoutReserve = Some m ∧ Z.of_nat (length m) = kMaxSizeWithoutReserve.
Proof. exists (replicate 1583 0). split; vm_compute; reflexivity. Qed.

Import EngineDemo.
Definition received (bs : bytes) : PacketBuffer :=
  {| block := bs; payload := 0; len := Z.of_nat (length bs); tot_len := Z.of_nat (length bs) |}.

Lemma received_ok bs : Z.of_nat (length bs) ≤ 0xFFFF → chain_ok [received bs] ∧ data (received bs) = bs.
Proof.
  intros H. split; [apply chain_one; split; [split; unfold AllocSize; cbn; lia|done]|]. unfold data. cbn. rewrite Nat2Z.id, drop_0. by apply take_ge.
Qed.

(** The result of a step that is known to have one. *)
Definition the {A B} (d : A * B) (o : option (A * B)) : A * B := match o with Some r => r | None => d end.
Lemma the_eq {A B} (d : A * B) o : has_value o = true → o = Some (fst (the d o), snd (the d o)).
Proof. destruct o as [[]|]; done. Qed.

(** The peripheral sends [message] in fragments of 5 bytes, with the fragment that
    ends it an acknowledgement comes back. *)
Definition send (data : chain) (ack : bool) (s : side) (new : list bytes) : side :=
  let e := snd (the (true, raw) (HandleCharacteristicSend data ack (engine s))) in
  {| engine := e; wire := wire s ++ [transmitted e]; given := given s ++ new; got := got s |}.
Definition nothing : CHIP_ERROR * receiving := (CHIP_NO_ERROR, {| rx_engine := raw; rx_data := []; receivedAck := 0; didReceiveAck := false |}).
Definition receive (bs : bytes) (s : side) : side :=
  let e := rx_engine (snd (the nothing
    (HandleCharacteristicReceived heap 0 [received bs] 0 false (engine s)))) in
  if decide (mRxState e = kState_Complete)
  then {| engine := snd (TakeRxPacket e); wire := wire s; given := given s; got := got s ++ [contents (mRxBuf e)] |}
  else {| engine := e; wire := wire s; given := given s; got := got s |}.
Definition arrived (s : side) : side := {| engine := engine s; wire := tl (wire s); given := given s; got := got s |}.

Definition p0 : side := fst (session_start raw raw 5 5).
Definition c0 : side := snd (session_start raw raw 5 5).
Definition p1 : side := send [message] false p0 [[7; 8; 9]].
Definition c1 : side := receive [1; 1; 3; 0; 7] c0.
Definition p2 : side := arrived p1.
Definition p3 : side := send [] false p2 [].
Definition c2 : side := receive [6; 2; 8; 9] c1.
Definition p4 : side := arrived p3.

Lemma demo_sent : session_step heap (session_start raw raw 5 5) (p1, c0).
Proof.
  change (session_step heap (p0, c0) (p1, c0)). apply step_left. refine (act_send heap p0 c0 message false _ _ _ _ _ _ _ _ (the_eq (true, raw) _ _)).
  all: first [vm_compute; reflexivity|exact message_ok|discriminate|vm_compute; intros [=]|intros; vm_compute; intros [=]].
Qed.

Lemma demo_session : rtc (session_step heap) (session_start raw raw 5 5) (p4, c2).
Proof.
  apply rtc_l with (p1, c0); [exact demo_sent|].
  apply rtc_l with (p2, c1).
  { apply step_right. refine (act_receive heap c0 p1 0 (received [1; 1; 3; 0; 7]) 0 false [] _ _ _ _ (the_eq nothing _ _)).
    all: first [vm_compute; reflexivity|by apply received_ok]. }
  apply rtc_l with (p3, c1).
  { apply step_left. refine (act_continue heap p2 c1 false _ _ _ _ _ (the_eq (true, raw) _ _)).
    all: first [vm_compute; reflexivity|discriminate]. }
  apply rtc_l with (p4, c2); [|done].
  apply step_right. refine (act_receive heap c1 p3 0 (received [6; 2; 8; 9]) 0 false [] _ _ _ _ (the_eq nothing _ _)).
  all: first [vm_compute; reflexivity|by apply received_ok].
Qed.

Lemma btp_delivers_in_order_witness : rtc (session_step heap) (session_start raw raw 5 5) (p4, c2) ∧ got c2 = [[7; 8; 9]] ∧
  delivered_in_order p4 c2 ∧ delivered_in_order c2 p4.
Proof.
  split; [exact demo_session|]. split; [vm_compute; reflexivity|].
  apply (btp_delivers_in_order heap heap_block raw raw 5 5 p4 c2); [lia|lia|exact demo_session].
Defined.

(** After the first fragment the peripheral sends the next one, the central accepts
    the one that arrives, and the central may send a message too. *)
Lemma btp_session_never_fails_witness : window_open (engine p1) ∧ window_open (engine c0) ∧
  (∃ e', HandleCharacteristicSend [] false (engine p1) = Some (true, e')) ∧
  (∃ r, HandleCharacteristicReceived heap 0 [received [1; 1; 3; 0; 7]] 0 false (engine c0) = Some (CHIP_NO_ERROR, r)) ∧
  ∃ e', HandleCharacteristicSend [message] false (engine c0) = Some (true, e').
Proof.
  assert (Hp : window_open (engine p1)) by (vm_compute; reflexivity). split; [exact Hp|].
  assert (Hc : window_open (engine c0)) by (vm_compute; reflexivity). split; [exact Hc|].
  destruct (btp_session_never_fails heap heap_block raw raw 5 5 p1 c0) as [[Gp _] [Gc Rc]]; [lia|lia|apply rtc_once; exact demo_sent|].
  destruct (Gp Hp) as [_ [Np _]]. destruct (Gc Hc) as [Sc _]. split; [|split].
  - apply (Np false); [vm_compute; reflexivity|discriminate].
  - apply (Rc 0%nat (received [1; 1; 3; 0; 7]) 0 false []); [vm_compute; reflexivity|apply received_ok; vm_compute; intros [=]].
  - apply (Sc message false); [reflexivity|discriminate|exact message_ok|vm_compute; intros [=]|intros; vm_compute; intros [=]].
Defined.

End BtpDemo.
