(* ===== verification/StateError.v ===== *)
(** * StateError: stateful code that returns errors

    A method of a class of the stack reads and changes the fields of its object and
    returns a [CHIP_ERROR]: a function from the object to the result and the object
    after the call.  [inl] is an error; the object keeps what was changed before it.
    [None] is undefined behaviour, or a loop that has used up its fuel.  The bind is
    [ReturnErrorOnFailure]; [wp] states what holds after a call. *)
From S2P Require Import Prelude ChipError.

Definition CM (St A : Type) : Type := St → option ((CHIP_ERROR + A) * St).

#[export] Instance CM_ret St : MRet (CM St) := fun A a s => Some (inr a, s).
#[export] Instance CM_bind St : MBind (CM St) := fun A B k m s =>
  match m s with
  | None => None
  | Some (inl e, s') => Some (inl e, s')
  | Some (inr a, s') => k a s'
  end.

Section operations.
Context {St : Type}.

Definition fail {A} (e : CHIP_ERROR) : CM St A := fun s => Some (inl e, s).
Definition stuck {A} : CM St A := fun _ => None.
Definition gets {A} (f : St → A) : CM St A := fun s => Some (inr (f s), s).
Definition modify (f : St → St) : CM St unit := fun s => Some (inr tt, f s).
(** [VerifyOrReturnError] *)
Definition verify (b : bool) (e : CHIP_ERROR) : CM St unit := if b then mret tt else fail e.
(** [err = m(); ...]: the error becomes a value. *)
Definition attempt {A} (m : CM St A) : CM St (CHIP_ERROR + A) := fun s =>
  match m s with Some (r, s') => Some (inr r, s') | None => None end.
Definition returns {A} (r : CHIP_ERROR + A) : CM St A := fun s => Some (r, s).
(** A computation that does not change the object and may be undefined. *)
Definition lift {A} (f : St → option (CHIP_ERROR + A)) : CM St A := fun s =>
  match f s with Some r => Some (r, s) | None => None end.
End operations.

(** ** What holds after a call *)
Definition wp {St A} (m : CM St A) (Q : CHIP_ERROR + A → St → Prop) (s : St) : Prop :=
  match m s with Some (r, s') => Q r s' | None => False end.

Section wp.
Context {St : Type}.
Implicit Types s : St.

Lemma wp_bind {A B} (m : CM St A) (k : A → CM St B) Q s :
  wp m (fun r s' => match r with inl e => Q (inl e) s' | inr a => wp (k a) Q s' end) s → wp (m ≫= k) Q s.
Proof. unfold wp, mbind, CM_bind. destruct (m s) as [[[e|a] s']|]; done. Qed.

Lemma wp_mono {A} (m : CM St A) (Q Q' : CHIP_ERROR + A → St → Prop) s :
  wp m Q s → (∀ r s', Q r s' → Q' r s') → wp m Q' s.
Proof. unfold wp. destruct (m s) as [[r s']|]; eauto. Qed.

Lemma wp_run {A} (m : CM St A) Q s : wp m Q s ↔ ∃ r s', m s = Some (r, s') ∧ Q r s'.
Proof.
  unfold wp. destruct (m s) as [[r s']|]; split; [intros HQ; by exists r, s'|intros (? & ? & [= <- <-] & ?); done|done|intros (? & ? & ? & ?); done].
Qed.

Lemma wp_eq {A} (m : CM St A) s r s' : m s = Some (r, s') → wp m (fun r0 s0 => r0 = r ∧ s0 = s') s.
Proof. unfold wp. by intros ->. Qed.

(** The first step of a sequence, evaluated. *)
Lemma bind_ok {A B} (m : CM St A) (k : A → CM St B) s a s' : m s = Some (inr a, s') → (m ≫= k) s = k a s'.
Proof. unfold mbind, CM_bind. by intros ->. Qed.

Lemma bind_error {A B} (m : CM St A) (k : A → CM St B) s e s' : m s = Some (inl e, s') → (m ≫= k) s = Some (inl e, s').
Proof. unfold mbind, CM_bind. by intros ->. Qed.

Lemma wp_verify {B} (b : bool) e (k : unit → CM St B) Q s :
  (b = true → wp (k tt) Q s) → (b = false → Q (inl e) s) → wp (verify b e ≫= k) Q s.
Proof. destruct b; intros H1 H2; [by apply H1|by apply H2]. Qed.

Lemma wp_attempt {A} (m : CM St A) Q s : wp m (fun r => Q (inr r)) s → wp (attempt m) Q s.
Proof. unfold wp, attempt. by destruct (m s) as [[r s']|]. Qed.
End wp.

(** ** Two objects at once: a method of one of them *)
Section products.
Context {St1 St2 : Type}.

Definition on_fst {A} (m : CM St1 A) : CM (St1 * St2) A := fun x =>
  match m x.1 with Some (res, s) => Some (res, (s, x.2)) | None => None end.
Definition on_snd {A} (m : CM St2 A) : CM (St1 * St2) A := fun x =>
  match m x.2 with Some (res, s) => Some (res, (x.1, s)) | None => None end.
End products.
