(* ===== verification/Tlv.v ===== *)
(** * Tlv: types, tags and control bytes of the TLV encoding

    [src/src/lib/core/TLVTypes.h], [TLVTags.h], [TLVCommon.h], and the interface
    [TLVBackingStore] of [TLVBackingStore.h].

    The enumerations have a fixed underlying type and are cast from wire bytes, so
    their values are the integers themselves; [ElementType_X] is [TLVElementType::X] and
    [TagControl_X] is [TLVTagControl::X].  A [Tag] is its 64-bit value. *)
From S2P Require Import Prelude ChipError.

Definition kTLVType_NotSpecified : Z := -1.
Definition kTLVType_UnknownContainer : Z := -2.
Definition kTLVType_SignedInteger : Z := 0x00.
Definition kTLVType_UnsignedInteger : Z := 0x04.
Definition kTLVType_Boolean : Z := 0x08.
Definition kTLVType_FloatingPointNumber : Z := 0x0A.
Definition kTLVType_UTF8String : Z := 0x0C.
Definition kTLVType_ByteString : Z := 0x10.
Definition kTLVType_Null : Z := 0x14.
Definition kTLVType_Structure : Z := 0x15.
Definition kTLVType_Array : Z := 0x16.
Definition kTLVType_List : Z := 0x17.

Definition ElementType_NotSpecified : Z := -1.
Definition ElementType_Int8 : Z := 0x00.
Definition ElementType_Int16 : Z := 0x01.
Definition ElementType_Int32 : Z := 0x02.
Definition ElementType_Int64 : Z := 0x03.
Definition ElementType_UInt8 : Z := 0x04.
Definition ElementType_UInt16 : Z := 0x05.
Definition ElementType_UInt32 : Z := 0x06.
Definition ElementType_UInt64 : Z := 0x07.
Definition ElementType_BooleanFalse : Z := 0x08.
Definition ElementType_BooleanTrue : Z := 0x09.
Definition ElementType_FloatingPointNumber32 : Z := 0x0A.
Definition ElementType_FloatingPointNumber64 : Z := 0x0B.
Definition ElementType_UTF8String_1ByteLength : Z := 0x0C.
Definition ElementType_UTF8String_8ByteLength : Z := 0x0F.
Definition ElementType_ByteString_1ByteLength : Z := 0x10.
Definition ElementType_ByteString_8ByteLength : Z := 0x13.
Definition ElementType_Null : Z := 0x14.
Definition ElementType_Structure : Z := 0x15.
Definition ElementType_Array : Z := 0x16.
Definition ElementType_List : Z := 0x17.
Definition ElementType_EndOfContainer : Z := 0x18.

Definition kTLVFieldSize_0Byte : Z := -1.
Definition kTLVFieldSize_1Byte : Z := 0.
Definition kTLVFieldSize_2Byte : Z := 1.
Definition kTLVFieldSize_4Byte : Z := 2.
Definition kTLVFieldSize_8Byte : Z := 3.
Definition kTLVTypeMask : Z := 0x1F.
Definition kTLVTypeSizeMask : Z := 0x03.

Section types.
Implicit Types type : Z.

Definition IsValidTLVType type : bool := type <=? ElementType_EndOfContainer.
Definition TLVTypeHasValue type : bool :=
  (type <=? ElementType_UInt64) || ((ElementType_FloatingPointNumber32 <=? type) && (type <=? ElementType_ByteString_8ByteLength)).
Definition TLVTypeHasLength type : bool := (ElementType_UTF8String_1ByteLength <=? type) && (type <=? ElementType_ByteString_8ByteLength).
Definition TLVTypeIsContainer type : bool := (ElementType_Structure <=? type) && (type <=? ElementType_List).
Definition TLVTypeIsString type : bool := (ElementType_UTF8String_1ByteLength <=? type) && (type <=? ElementType_ByteString_8ByteLength).
Definition TLVTypeIsUTF8String type : bool := (ElementType_UTF8String_1ByteLength <=? type) && (type <=? ElementType_UTF8String_8ByteLength).
Definition TLVTypeIsByteString type : bool := (ElementType_ByteString_1ByteLength <=? type) && (type <=? ElementType_ByteString_8ByteLength).
Definition GetTLVFieldSize type : Z := if TLVTypeHasValue type then Z.land (u8 type) kTLVTypeSizeMask else kTLVFieldSize_0Byte.
Definition TLVFieldSizeToBytes (fieldSize : Z) : Z :=
  if negb (fieldSize =? kTLVFieldSize_0Byte) then u8 (Z.shiftl 1 fieldSize) else 0.
End types.

(** ** Tags *)
Definition kContextTagMaxNum : Z := 255.
Definition kAnonymousTagNum : Z := 256.
Definition kUnknownImplicitTagNum : Z := 257.
Definition kProfileIdShift : Z := 32.
Definition kVendorIdShift : Z := 48.
Definition kSpecialTagProfileId : Z := 0xFFFFFFFF.
Definition kProfileIdNotSpecified : Z := 0xFFFFFFFF.
Definition kCommonProfileId : Z := 0.

Definition TagControl_Anonymous : Z := 0x00.
Definition TagControl_ContextSpecific : Z := 0x20.
Definition TagControl_CommonProfile_2Bytes : Z := 0x40.
Definition TagControl_CommonProfile_4Bytes : Z := 0x60.
Definition TagControl_ImplicitProfile_2Bytes : Z := 0x80.
Definition TagControl_ImplicitProfile_4Bytes : Z := 0xA0.
Definition TagControl_FullyQualified_6Bytes : Z := 0xC0.
Definition TagControl_FullyQualified_8Bytes : Z := 0xE0.
Definition kTLVTagControlMask : Z := 0xE0.
Definition kTLVTagControlShift : Z := 5.
Definition kTLVControlByte_NotSpecified : Z := 0xFFFF.

Definition ProfileTag (profileId tagNum : Z) : Z := Z.lor (u64 (Z.shiftl (u32 (Z.lnot profileId)) kProfileIdShift)) tagNum.
Definition VendorProfileTag (vendorId profileNum tagNum : Z) : Z :=
  ProfileTag (Z.lor (u32 (Z.shiftl vendorId (kVendorIdShift - kProfileIdShift))) profileNum) tagNum.
Definition ContextTag (tagNum : Z) : Z := ProfileTag kSpecialTagProfileId tagNum.
Definition CommonTag (tagNum : Z) : Z := ProfileTag kCommonProfileId tagNum.
Definition AnonymousTag : Z := ProfileTag kSpecialTagProfileId kAnonymousTagNum.
Definition UnknownImplicitTag : Z := ProfileTag kSpecialTagProfileId kUnknownImplicitTagNum.
Definition ProfileIdFromTag (tag : Z) : Z := u32 (Z.lnot (u32 (Z.shiftr tag kProfileIdShift))).
Definition VendorIdFromTag (tag : Z) : Z := u16 (Z.shiftr (ProfileIdFromTag tag) (kVendorIdShift - kProfileIdShift)).
Definition ProfileNumFromTag (tag : Z) : Z := u16 (ProfileIdFromTag tag).
Definition TagNumFromTag (tag : Z) : Z := u32 tag.
Definition IsProfileTag (tag : Z) : bool := negb (ProfileIdFromTag tag =? kSpecialTagProfileId).
Definition IsContextTag (tag : Z) : bool := (ProfileIdFromTag tag =? kSpecialTagProfileId) && (TagNumFromTag tag <=? kContextTagMaxNum).
Definition IsSpecialTag (tag : Z) : bool := ProfileIdFromTag tag =? kSpecialTagProfileId.

(** ** Backing stores

    Where a reader or a writer gets its buffers from; [D] is the state of the store
    object.  A buffer handed to a reader is the list of its bytes, and [None] the
    null pointer with the length 0.  A buffer handed to a writer is the memory it
    may write, and the length that the store announces; [FinalizeBuffer] receives the
    memory and the number of bytes written.  A call that fails leaves the pointers of
    the caller as they were; [None] is undefined behaviour. *)
Class TLVBackingStore (D : Type) : Type := {
  OnInitReader : D → option ((CHIP_ERROR + bytes) * D);
  GetNextBuffer : D → option ((CHIP_ERROR + option bytes) * D);
  OnInitWriter : D → option ((CHIP_ERROR + bytes * Z) * D);
  GetNewBuffer : D → option ((CHIP_ERROR + bytes * Z) * D);
  FinalizeBuffer : bytes → Z → D → option ((CHIP_ERROR + unit) * D) }.
