(* ===== verification/TlvReader.v ===== *)
(** * TlvReader: the TLV reader

    [src/src/lib/core/TLVReader.cpp] and [TLVReader.h]: a reader over one buffer, or
    over the buffers of a [TLVBackingStore].

    A method is a computation of [StateError] on the reader and the store; a reader
    without a store never calls it.  Copies of a reader share the store, so a method
    that works on a copy puts the reader back and keeps the store.  [AppData] is not
    used by the reader and left out.  Every loop takes [fuel]: a step of each reads a
    byte, so the bytes left and two are enough ([TlvReaderSafe.reader_calls_return]). *)
From S2P Require Import Prelude ChipError StateError Tlv.

(** [mReadPoint] and [mBufEnd] together.  [In l]: the read point is in the buffer and
    [l] are the bytes up to [mBufEnd].  [NullPoint]: the store had no more buffers and
    set the read point to null, [mBufEnd] is the end of the last one.  [Detached]: the
    store gave an empty buffer, whose end is not [mBufEnd]. *)
Inductive cursor := In (l : bytes) | NullPoint | Detached.

Record TLVReader := {
  ImplicitProfileId : Z; mElemTag : Z; mElemLenOrVal : Z; mBackingStore : bool; mReadPoint : cursor;
  mLenRead : Z; mMaxLen : Z; mContainerType : Z; mControlByte : Z; mContainerOpen : bool }.
#[export] Instance eta_reader : Eta TLVReader := fun r =>
  {| ImplicitProfileId := ImplicitProfileId r; mElemTag := mElemTag r; mElemLenOrVal := mElemLenOrVal r;
     mBackingStore := mBackingStore r; mReadPoint := mReadPoint r; mLenRead := mLenRead r; mMaxLen := mMaxLen r;
     mContainerType := mContainerType r; mControlByte := mControlByte r; mContainerOpen := mContainerOpen r |}.

Definition sTagSizes : list Z := [0; 1; 2; 4; 2; 4; 6; 8].

Definition ClearElementState (r : TLVReader) : TLVReader :=
  r <| mElemTag := AnonymousTag |> <| mControlByte := kTLVControlByte_NotSpecified |> <| mElemLenOrVal := 0 |>.

Definition Init (data : bytes) : TLVReader :=
  let actualDataLen := Z.min (Z.of_nat (length data)) (2 ^ 32 - 1) in
  {| ImplicitProfileId := kProfileIdNotSpecified; mElemTag := AnonymousTag; mElemLenOrVal := 0; mBackingStore := false;
     mReadPoint := In (take (Z.to_nat actualDataLen) data); mLenRead := 0; mMaxLen := actualDataLen;
     mContainerType := kTLVType_NotSpecified; mControlByte := kTLVControlByte_NotSpecified; mContainerOpen := false |}.

(** ** The current element *)
Section element.
Implicit Types r : TLVReader.

Definition ElementType r : Z :=
  if mControlByte r =? kTLVControlByte_NotSpecified then ElementType_NotSpecified else Z.land (mControlByte r) kTLVTypeMask.

Definition GetType r : Z :=
  let elemType := ElementType r in
  if elemType =? ElementType_EndOfContainer then kTLVType_NotSpecified
  else if (elemType =? ElementType_FloatingPointNumber32) || (elemType =? ElementType_FloatingPointNumber64)
  then kTLVType_FloatingPointNumber
  else if (elemType =? ElementType_NotSpecified) || (ElementType_Null <=? elemType) then elemType
  else Z.land (u8 elemType) (Z.lnot kTLVTypeSizeMask).

Definition GetTag r : Z := mElemTag r.
Definition GetLength r : Z := if TLVTypeHasLength (ElementType r) then u32 (mElemLenOrVal r) else 0.
Definition GetRemainingLength r : Z := u32 (mMaxLen r - mLenRead r).
Definition GetLengthRead r : Z := mLenRead r.

(** The getters return the error and what they assign to their argument, if they do. *)
Definition Get_bool r : CHIP_ERROR * option bool :=
  let elemType := ElementType r in
  if elemType =? ElementType_BooleanFalse then (CHIP_NO_ERROR, Some false)
  else if elemType =? ElementType_BooleanTrue then (CHIP_NO_ERROR, Some true)
  else (CHIP_ERROR_WRONG_TLV_TYPE, None).

(** [CastToSigned] *)
Definition to_signed (w x : Z) : Z := if x <? 2 ^ (w - 1) then x else x - 2 ^ w.

Definition Get_int64 r : CHIP_ERROR * option Z :=
  let elemType := ElementType r in
  let v := mElemLenOrVal r in
  if elemType =? ElementType_Int8 then (CHIP_NO_ERROR, Some (to_signed 8 (u8 v)))
  else if elemType =? ElementType_Int16 then (CHIP_NO_ERROR, Some (to_signed 16 (u16 v)))
  else if elemType =? ElementType_Int32 then (CHIP_NO_ERROR, Some (to_signed 32 (u32 v)))
  else if elemType =? ElementType_Int64 then (CHIP_NO_ERROR, Some (to_signed 64 v))
  else (CHIP_ERROR_WRONG_TLV_TYPE, None).

Definition Get_uint64 r : CHIP_ERROR * option Z :=
  let elemType := ElementType r in
  if (elemType =? ElementType_UInt8) || (elemType =? ElementType_UInt16) || (elemType =? ElementType_UInt32) || (elemType =? ElementType_UInt64)
  then (CHIP_NO_ERROR, Some (mElemLenOrVal r))
  else (CHIP_ERROR_WRONG_TLV_TYPE, None).

(** [Get(int8_t &)], [Get(int16_t &)], [Get(int32_t &)] *)
Definition Get_int (w : Z) r : CHIP_ERROR * option Z :=
  let '(err, v) := Get_int64 r in
  let v64 := default 0 v in
  if negb ((- 2 ^ (w - 1) <=? v64) && (v64 <? 2 ^ (w - 1))) then (CHIP_ERROR_INVALID_INTEGER_VALUE, None) else (err, Some v64).

(** [Get(uint8_t &)], [Get(uint16_t &)], [Get(uint32_t &)] *)
Definition Get_uint (w : Z) r : CHIP_ERROR * option Z :=
  let '(err, v) := Get_uint64 r in
  let v64 := default 0 v in
  if negb (v64 <? 2 ^ w) then (CHIP_ERROR_INVALID_INTEGER_VALUE, None) else (err, Some v64).

(** A float by its bits; a double read from a float is the converted float. *)
Inductive floating := Float (bits : Z) | Double (bits : Z).
Definition Get_float r : CHIP_ERROR * option floating :=
  if ElementType r =? ElementType_FloatingPointNumber32 then (CHIP_NO_ERROR, Some (Float (u32 (mElemLenOrVal r))))
  else (CHIP_ERROR_WRONG_TLV_TYPE, None).
Definition Get_double r : CHIP_ERROR * option floating :=
  if ElementType r =? ElementType_FloatingPointNumber32 then (CHIP_NO_ERROR, Some (Float (u32 (mElemLenOrVal r))))
  else if ElementType r =? ElementType_FloatingPointNumber64 then (CHIP_NO_ERROR, Some (Double (mElemLenOrVal r)))
  else (CHIP_ERROR_WRONG_TLV_TYPE, None).

(** The pointer is the bytes behind it, up to the end of the buffer; [None] is null. *)
Definition GetDataPtr r : option (CHIP_ERROR + option bytes) :=
  if negb (TLVTypeIsString (ElementType r)) then Some (inl CHIP_ERROR_WRONG_TLV_TYPE)
  else if GetLength r =? 0 then Some (inr None)
  else match mReadPoint r with
       | In l => if negb (u32 (mElemLenOrVal r) <=? u32 (Z.of_nat (length l))) then Some (inl CHIP_ERROR_TLV_UNDERRUN) else Some (inr (Some l))
       | _ => None
       end.

Definition span (data : option bytes) (len : Z) : bytes := take (Z.to_nat len) (default [] data).

Definition Get_ByteSpan r : option (CHIP_ERROR + bytes) :=
  try! val := GetDataPtr r in Some (inr (span val (GetLength r))).
Definition Get_FixedByteSpan (N : Z) r : option (CHIP_ERROR + bytes) :=
  try! val := GetDataPtr r in
  if negb (GetLength r =? N) then Some (inl CHIP_ERROR_UNEXPECTED_TLV_ELEMENT) else Some (inr (span val N)).

Definition kUnicodeInformationSeparator1 : Z := 0x1F.
(** [memchr]: the bytes before the first separator *)
Fixpoint before_separator (l : bytes) : bytes :=
  match l with
  | [] => []
  | c :: l => if c =? kUnicodeInformationSeparator1 then [] else c :: before_separator l
  end.

(** [inr None]: the argument is left as it was. *)
Definition Get_CharSpan r : option (CHIP_ERROR + option bytes) :=
  if negb (TLVTypeIsUTF8String (ElementType r)) then Some (inl CHIP_ERROR_WRONG_TLV_TYPE) else
  try! val := GetDataPtr r in
  match val with
  | None => Some (inr None)
  | Some _ => Some (inr (Some (before_separator (span val (GetLength r)))))
  end.
Definition GetStringView r := Get_CharSpan r.
Definition GetByteView r : option (CHIP_ERROR + bytes) :=
  if negb (TLVTypeIsByteString (ElementType r)) then Some (inl CHIP_ERROR_WRONG_TLV_TYPE) else Get_ByteSpan r.

Definition VerifyElement r : CHIP_ERROR + unit :=
  let check :=
    if ElementType r =? ElementType_EndOfContainer then
      if mContainerType r =? kTLVType_NotSpecified then Some CHIP_ERROR_INVALID_TLV_ELEMENT
      else if negb (mElemTag r =? AnonymousTag) then Some CHIP_ERROR_INVALID_TLV_TAG else None
    else if mElemTag r =? UnknownImplicitTag then Some CHIP_ERROR_UNKNOWN_IMPLICIT_TLV_TAG
    else if mContainerType r =? kTLVType_NotSpecified then
      if IsContextTag (mElemTag r) then Some CHIP_ERROR_INVALID_TLV_TAG else None
    else if mContainerType r =? kTLVType_Structure then
      if mElemTag r =? AnonymousTag then Some CHIP_ERROR_INVALID_TLV_TAG else None
    else if mContainerType r =? kTLVType_Array then
      if negb (mElemTag r =? AnonymousTag) then Some CHIP_ERROR_INVALID_TLV_TAG else None
    else if (mContainerType r =? kTLVType_UnknownContainer) || (mContainerType r =? kTLVType_List) then None
    else Some CHIP_ERROR_INCORRECT_STATE in
  match check with
  | Some e => inl e
  | None =>
      if TLVTypeHasLength (ElementType r) && (u32 (mMaxLen r - mLenRead r) <? u32 (mElemLenOrVal r))
      then inl CHIP_ERROR_TLV_UNDERRUN else inr tt
  end.

(** The result is the tag and [p] after it; an implicit tag without a profile leaves
    [p] before the tag. *)
Definition ReadTag (tagControl : Z) (p : bytes) r : Z * bytes :=
  let read n p := (le_val (take n p), drop n p) in
  if tagControl =? TagControl_ContextSpecific then let '(n, p) := read 1%nat p in (ContextTag n, p)
  else if tagControl =? TagControl_CommonProfile_2Bytes then let '(n, p) := read 2%nat p in (CommonTag n, p)
  else if tagControl =? TagControl_CommonProfile_4Bytes then let '(n, p) := read 4%nat p in (CommonTag n, p)
  else if tagControl =? TagControl_ImplicitProfile_2Bytes then
    if ImplicitProfileId r =? kProfileIdNotSpecified then (UnknownImplicitTag, p)
    else let '(n, p) := read 2%nat p in (ProfileTag (ImplicitProfileId r) n, p)
  else if tagControl =? TagControl_ImplicitProfile_4Bytes then
    if ImplicitProfileId r =? kProfileIdNotSpecified then (UnknownImplicitTag, p)
    else let '(n, p) := read 4%nat p in (ProfileTag (ImplicitProfileId r) n, p)
  else if tagControl =? TagControl_FullyQualified_6Bytes then
    let '(vendorId, p) := read 2%nat p in
    let '(profileNum, p) := read 2%nat p in
    let '(n, p) := read 2%nat p in (VendorProfileTag vendorId profileNum n, p)
  else if tagControl =? TagControl_FullyQualified_8Bytes then
    let '(vendorId, p) := read 2%nat p in
    let '(profileNum, p) := read 2%nat p in
    let '(n, p) := read 4%nat p in (VendorProfileTag vendorId profileNum n, p)
  else (AnonymousTag, p).

(** The length of the head that the control byte announces *)
Definition head_length (mControlByte elemType : Z) : Z :=
  let tagControl := Z.land mControlByte kTLVTagControlMask in
  let tagBytes := default 0 (sTagSizes !! Z.to_nat (Z.shiftr tagControl kTLVTagControlShift)) in
  1 + tagBytes + TLVFieldSizeToBytes (GetTLVFieldSize elemType).

Definition GetElementHeadLength r : CHIP_ERROR + Z :=
  let elemType := ElementType r in
  if negb (IsValidTLVType elemType) then inl CHIP_ERROR_INVALID_TLV_ELEMENT
  else if negb (head_length (mControlByte r) elemType <=? 255) then inl CHIP_ERROR_INTERNAL
  else inr (u8 (head_length (mControlByte r) elemType)).
End element.

(** ** Reading *)
Section reading.
Context {D : Type} `{!TLVBackingStore D} (fuel : nat).

#[local] Abbreviation RM := (CM (TLVReader * D)).
Definition reader {A} (f : TLVReader → A) : RM A := gets (fun x => f x.1).
Definition set (f : TLVReader → TLVReader) : RM unit := modify (fun x => (f x.1, x.2)).
Definition store {A} (m : D → option ((CHIP_ERROR + A) * D)) : RM A := on_snd m.

Definition Init_store (maxLen : Z) : RM unit :=
  buf ← store OnInitReader;
  set (fun r => {| ImplicitProfileId := kProfileIdNotSpecified; mElemTag := AnonymousTag; mElemLenOrVal := 0; mBackingStore := true;
                   mReadPoint := In buf; mLenRead := 0; mMaxLen := maxLen; mContainerType := kTLVType_NotSpecified;
                   mControlByte := kTLVControlByte_NotSpecified; mContainerOpen := false |}).

Definition EnsureData (noDataErr : CHIP_ERROR) : RM unit :=
  r ← reader id;
  match mReadPoint r with
  | In [] =>
      if mLenRead r =? mMaxLen r then fail noDataErr
      else if negb (mBackingStore r) then fail noDataErr
      else
        buf ← store GetNextBuffer;
        match buf with
        | None => set (fun r => r <| mReadPoint := NullPoint |>);; fail noDataErr
        | Some [] => set (fun r => r <| mReadPoint := Detached |>);; fail noDataErr
        | Some l =>
            let overallLenRemaining := u32 (mMaxLen r - mLenRead r) in
            let bufLen := Z.of_nat (length l) in
            let bufLen := if overallLenRemaining <? bufLen then overallLenRemaining else bufLen in
            set (fun r => r <| mReadPoint := In (take (Z.to_nat bufLen) l) |>)
        end
  | _ => mret tt
  end.

(** [mReadPoint += n; mLenRead += n] *)
Definition advance (n : Z) (l : bytes) (r : TLVReader) : TLVReader :=
  r <| mReadPoint := In (drop (Z.to_nat n) l) |> <| mLenRead := u32 (mLenRead r + n) |>.

(** The result is what is copied to the destination, if there is one. *)
Fixpoint ReadData_loop (n : nat) (len : Z) (buf : bytes) : RM bytes :=
  match n with
  | O => stuck
  | S n =>
      if 0 <? len then
        EnsureData CHIP_ERROR_TLV_UNDERRUN;;
        p ← reader mReadPoint;
        match p with
        | In l =>
            let remainingLen := u32 (Z.of_nat (length l)) in
            let readLen := if remainingLen <? len then remainingLen else len in
            set (advance readLen l);;
            ReadData_loop n (len - readLen) (buf ++ take (Z.to_nat readLen) l)
        | _ => stuck
        end
      else mret buf
  end.
Definition ReadData (len : Z) : RM bytes := ReadData_loop fuel len [].

Definition ReadElement : RM unit :=
  EnsureData CHIP_END_OF_TLV;;
  p ← reader mReadPoint;
  match p with
  | NullPoint => fail CHIP_ERROR_INVALID_TLV_ELEMENT
  | In (b :: l) =>
      set (fun r => r <| mControlByte := b |>);;
      elemType ← reader ElementType;
      verify (IsValidTLVType elemType) CHIP_ERROR_INVALID_TLV_ELEMENT;;
      let tagControl := Z.land b kTLVTagControlMask in
      let lenOrValFieldSize := GetTLVFieldSize elemType in
      let elemHeadBytes := u8 (head_length b elemType) in
      p ← (if Z.of_nat (length (b :: l)) <? elemHeadBytes then ReadData elemHeadBytes
           else set (advance elemHeadBytes (b :: l));; mret (take (Z.to_nat elemHeadBytes) (b :: l)));
      tag_p ← reader (ReadTag tagControl (drop 1 p));
      set (fun r => r <| mElemTag := tag_p.1 |>);;
      set (fun r => r <| mElemLenOrVal := le_val (take (Z.to_nat (TLVFieldSizeToBytes lenOrValFieldSize)) tag_p.2) |>);;
      v ← reader mElemLenOrVal;
      verify (negb (lenOrValFieldSize =? kTLVFieldSize_8Byte) || negb (TLVTypeHasLength elemType) || (v <=? 2 ^ 32 - 1)) CHIP_ERROR_NOT_IMPLEMENTED;;
      r ← reader id;
      returns (VerifyElement r)
  | _ => stuck
  end.

Definition SkipData : RM unit :=
  r ← reader id;
  if TLVTypeHasLength (ElementType r) then ReadData (u32 (mElemLenOrVal r));; mret tt else mret tt.

Fixpoint SkipToEnd_loop (n : nat) (outerContainerType nestLevel : Z) : RM unit :=
  match n with
  | O => stuck
  | S n =>
      let step nestLevel := SkipData;; ReadElement;; SkipToEnd_loop n outerContainerType nestLevel in
      elemType ← reader ElementType;
      if elemType =? ElementType_EndOfContainer then
        if nestLevel =? 0 then mret tt
        else
          let nestLevel := nestLevel - 1 in
          set (fun r => r <| mContainerType := if nestLevel =? 0 then outerContainerType else kTLVType_UnknownContainer |>);;
          step nestLevel
      else if TLVTypeIsContainer elemType then
        set (fun r => r <| mContainerType := elemType |>);;
        step (u32 (nestLevel + 1))
      else step nestLevel
  end.
Definition SkipToEndOfContainer : RM unit :=
  outerContainerType ← reader mContainerType;
  set (fun r => r <| mContainerOpen := false |>);;
  SkipToEnd_loop fuel outerContainerType 0.

(** The result is [outerContainerType]. *)
Definition EnterContainer : RM Z :=
  r ← reader id;
  let elemType := ElementType r in
  if negb (TLVTypeIsContainer elemType) then fail CHIP_ERROR_INCORRECT_STATE
  else
    let outerContainerType := mContainerType r in
    set (fun r => ClearElementState (r <| mContainerType := elemType |>) <| mContainerOpen := false |>);;
    mret outerContainerType.

Definition ExitContainer (outerContainerType : Z) : RM unit :=
  SkipToEndOfContainer;;
  set (fun r => ClearElementState (r <| mContainerType := outerContainerType |>)).

Definition Skip : RM unit :=
  elemType ← reader ElementType;
  if elemType =? ElementType_EndOfContainer then fail CHIP_END_OF_TLV
  else if TLVTypeIsContainer elemType then outerContainerType ← EnterContainer; ExitContainer outerContainerType
  else SkipData;; set ClearElementState.

Definition Next : RM unit :=
  Skip;;
  ReadElement;;
  r ← reader id;
  let elemType := ElementType r in
  verify (negb (elemType =? ElementType_EndOfContainer)) CHIP_END_OF_TLV;;
  if TLVTypeIsString elemType && negb (GetLength r =? 0) then EnsureData CHIP_ERROR_TLV_UNDERRUN else mret tt.

Definition Next_tag (expectedTag : Z) : RM unit :=
  Next;;
  tag ← reader mElemTag;
  verify (tag =? expectedTag) CHIP_ERROR_UNEXPECTED_TLV_ELEMENT.

Definition Next_type (expectedType expectedTag : Z) : RM unit :=
  Next_tag expectedTag;;
  type ← reader GetType;
  verify (type =? expectedType) CHIP_ERROR_WRONG_TLV_TYPE.

Definition VerifyEndOfContainer : RM unit :=
  err ← attempt Next;
  match err with
  | inl CHIP_END_OF_TLV => mret tt
  | inr _ => fail CHIP_ERROR_UNEXPECTED_TLV_ELEMENT
  | inl err => fail err
  end.

(** The result is the destination buffer. *)
Definition GetBytes (bufSize : Z) : RM bytes :=
  r ← reader id;
  if negb (TLVTypeIsString (ElementType r)) then fail CHIP_ERROR_WRONG_TLV_TYPE
  else if bufSize <? mElemLenOrVal r then fail CHIP_ERROR_BUFFER_TOO_SMALL
  else
    buf ← ReadData (u32 (mElemLenOrVal r));
    set (fun r => r <| mElemLenOrVal := 0 |>);;
    mret buf.

(** The terminator is written before the text is read; an index past the destination
    is undefined. *)
Definition GetString (bufSize : Z) : RM bytes :=
  r ← reader id;
  if negb (TLVTypeIsString (ElementType r)) then fail CHIP_ERROR_WRONG_TLV_TYPE
  else if bufSize <? u64 (mElemLenOrVal r + 1) then fail CHIP_ERROR_BUFFER_TOO_SMALL
  else if bufSize <=? mElemLenOrVal r then stuck
  else buf ← GetBytes (bufSize - 1); mret (buf ++ [0]).

(** [alloc]: whether [MemoryAlloc] returns memory of the size. *)
Definition DupBytes (alloc : Z → bool) : RM bytes :=
  r ← reader id;
  if negb (TLVTypeIsString (ElementType r)) then fail CHIP_ERROR_WRONG_TLV_TYPE
  else if negb (alloc (u32 (mElemLenOrVal r))) then fail CHIP_ERROR_NO_MEMORY
  else
    buf ← ReadData (u32 (mElemLenOrVal r));
    set (fun r => r <| mElemLenOrVal := 0 |>);;
    mret buf.

Definition DupString (alloc : Z → bool) : RM bytes :=
  r ← reader id;
  if negb (TLVTypeIsString (ElementType r)) then fail CHIP_ERROR_WRONG_TLV_TYPE
  else if 2 ^ 32 - 1 - 1 <? mElemLenOrVal r then fail CHIP_ERROR_NO_MEMORY
  else if negb (alloc (u32 (mElemLenOrVal r + 1))) then fail CHIP_ERROR_NO_MEMORY
  else
    buf ← ReadData (u32 (mElemLenOrVal r));
    set (fun r => r <| mElemLenOrVal := 0 |>);;
    mret (buf ++ [0]).

(** ** Containers as readers of their own *)
(** The result is [containerReader]. *)
Definition OpenContainer : RM TLVReader :=
  r ← reader id;
  let elemType := ElementType r in
  if negb (TLVTypeIsContainer elemType) then fail CHIP_ERROR_INCORRECT_STATE
  else
    set (fun r => r <| mContainerOpen := true |>);;
    mret (ClearElementState r <| mContainerType := elemType |> <| mContainerOpen := false |>).

(** A method of another reader on the same store; it is returned as it is after the
    call, with the call's result. *)
Definition on_reader {A} (other : TLVReader) (m : RM A) : RM ((CHIP_ERROR + A) * TLVReader) := fun x =>
  match m (other, x.2) with
  | Some (res, (other, s)) => Some (inr (res, other), (x.1, s))
  | None => None
  end.

(** The container reader has moved also when its skip fails. *)
Definition CloseContainer (containerReader : TLVReader) : RM ((CHIP_ERROR + unit) * TLVReader) :=
  r ← reader id;
  if negb (mContainerOpen r) then mret (inl CHIP_ERROR_INCORRECT_STATE, containerReader)
  else if negb (mContainerType containerReader =? ElementType r) then mret (inl CHIP_ERROR_INCORRECT_STATE, containerReader)
  else
    res ← on_reader containerReader SkipToEndOfContainer;
    match res with
    | (inl err, c) => mret (inl err, c)
    | (inr _, c) =>
        set (fun r => ClearElementState (r <| mBackingStore := mBackingStore c |> <| mReadPoint := mReadPoint c |>
                                           <| mLenRead := mLenRead c |> <| mMaxLen := mMaxLen c |>));;
        mret (inr tt, c)
    end.

(** ** Searching; the methods are const and work on a copy *)
Fixpoint Find_loop (n : nat) (tag : Z) : RM TLVReader :=
  match n with
  | O => stuck
  | S n =>
      Next;;
      r ← reader id;
      verify (negb (GetType r =? kTLVType_NotSpecified)) CHIP_ERROR_INVALID_TLV_ELEMENT;;
      if tag =? GetTag r then mret r else Find_loop n tag
  end.
Definition FindElementWithTag (tag : Z) : RM TLVReader :=
  r ← reader id;
  res ← on_reader r (Find_loop fuel tag);
  returns (fst res).

Fixpoint Count_loop (n : nat) (count : Z) : RM Z :=
  match n with
  | O => stuck
  | S n =>
      err ← attempt Next;
      match err with
      | inr _ => Count_loop n (count + 1)
      | inl CHIP_END_OF_TLV => mret count
      | inl err => fail err
      end
  end.
Definition CountRemainingInContainer : RM Z :=
  r ← reader id;
  if mContainerType r =? kTLVType_NotSpecified then fail CHIP_ERROR_INCORRECT_STATE
  else res ← on_reader r (Count_loop fuel 0); returns (fst res).
End reading.
