(* ===== verification/TlvWriter.v ===== *)
(** * TlvWriter: the TLV writer

    [src/src/lib/core/TLVWriter.cpp] and [TLVWriter.h]: a writer into one buffer, or
    into the buffers of a [TLVBackingStore].

    [mBuf] is the memory from [mBufStart] on and [mWritePoint] an offset into it; a
    write outside it is undefined.  A container writer takes the memory with it and
    [CloseContainer] takes it back: in between the outer writer refuses to write
    ([mContainerOpen]).  [len] arguments are the lengths of the byte lists.  The formatted text of
    [PutStringF] is an argument. *)
From S2P Require Import Prelude ChipError StateError Tlv.
From S2P Require TlvReader.

Record TLVWriter := {
  ImplicitProfileId : Z; mBackingStore : bool; mBuf : bytes; mWritePoint : Z; mRemainingLen : Z; mLenWritten : Z;
  mMaxLen : Z; mReservedSize : Z; mContainerType : Z; mContainerOpen : bool; mCloseContainerReserved : bool }.
#[export] Instance eta_writer : Eta TLVWriter := fun w =>
  {| ImplicitProfileId := ImplicitProfileId w; mBackingStore := mBackingStore w; mBuf := mBuf w; mWritePoint := mWritePoint w;
     mRemainingLen := mRemainingLen w; mLenWritten := mLenWritten w; mMaxLen := mMaxLen w; mReservedSize := mReservedSize w;
     mContainerType := mContainerType w; mContainerOpen := mContainerOpen w; mCloseContainerReserved := mCloseContainerReserved w |}.

Definition kEndOfContainerMarkerSize : Z := 1.
Definition kTLVCopyChunkSize : Z := 16.

(** [buf] is the memory, which has [maxLen] bytes or more. *)
Definition Init (buf : bytes) (maxLen : Z) : TLVWriter :=
  let actualMaxLen := Z.min maxLen (2 ^ 32 - 1) in
  {| ImplicitProfileId := kProfileIdNotSpecified; mBackingStore := false; mBuf := buf; mWritePoint := 0; mRemainingLen := actualMaxLen;
     mLenWritten := 0; mMaxLen := actualMaxLen; mReservedSize := 0; mContainerType := kTLVType_NotSpecified;
     mContainerOpen := false; mCloseContainerReserved := true |}.

(** The bytes that [WriteElementHead] writes through [p], or its error *)
Definition tag_error (elemType tag : Z) (w : TLVWriter) : bool :=
  let within l := existsb (Z.eqb (mContainerType w)) l in
  if IsSpecialTag tag then
    if TagNumFromTag tag <=? kContextTagMaxNum then negb (within [kTLVType_Structure; kTLVType_List])
    else negb (elemType =? ElementType_EndOfContainer) && negb (within [kTLVType_NotSpecified; kTLVType_Array; kTLVType_List])
  else negb (within [kTLVType_NotSpecified; kTLVType_Structure; kTLVType_List]).

Definition tag_bytes (tag : Z) (w : TLVWriter) : Z * bytes :=
  let tagNum := TagNumFromTag tag in
  if IsSpecialTag tag then
    if tagNum <=? kContextTagMaxNum then (TagControl_ContextSpecific, le_bytes 1 (u8 tagNum)) else (TagControl_Anonymous, [])
  else
    let profileId := ProfileIdFromTag tag in
    if profileId =? kCommonProfileId then
      if tagNum <? 65536 then (TagControl_CommonProfile_2Bytes, le_bytes 2 (u16 tagNum)) else (TagControl_CommonProfile_4Bytes, le_bytes 4 tagNum)
    else if profileId =? ImplicitProfileId w then
      if tagNum <? 65536 then (TagControl_ImplicitProfile_2Bytes, le_bytes 2 (u16 tagNum)) else (TagControl_ImplicitProfile_4Bytes, le_bytes 4 tagNum)
    else
      let vendorId := u16 (Z.shiftr profileId 16) in
      let profileNum := u16 profileId in
      if tagNum <? 65536
      then (TagControl_FullyQualified_6Bytes, le_bytes 2 vendorId ++ le_bytes 2 profileNum ++ le_bytes 2 (u16 tagNum))
      else (TagControl_FullyQualified_8Bytes, le_bytes 2 vendorId ++ le_bytes 2 profileNum ++ le_bytes 4 tagNum).

Definition value_bytes (elemType lenOrVal : Z) : bytes :=
  let size := GetTLVFieldSize elemType in
  if size =? kTLVFieldSize_1Byte then le_bytes 1 (u8 lenOrVal)
  else if size =? kTLVFieldSize_2Byte then le_bytes 2 (u16 lenOrVal)
  else if size =? kTLVFieldSize_4Byte then le_bytes 4 (u32 lenOrVal)
  else if size =? kTLVFieldSize_8Byte then le_bytes 8 lenOrVal
  else [].

Definition head_bytes (elemType tag lenOrVal : Z) (w : TLVWriter) : bytes :=
  let '(control, tagBytes) := tag_bytes tag w in
  Z.lor control (u8 elemType) :: tagBytes ++ value_bytes elemType lenOrVal.

Definition kStagingSize : Z := 17.

(** [memmove(mWritePoint, p, ...)] and the counters after it *)
Definition write_here (p : bytes) (w : TLVWriter) : option TLVWriter :=
  let n := Z.of_nat (length p) in
  let! buf := mwrite (mBuf w) (Z.to_nat (mWritePoint w)) p in
  Some (w <| mBuf := buf |> <| mWritePoint := mWritePoint w + n |> <| mRemainingLen := u32 (mRemainingLen w - n) |>
          <| mLenWritten := u32 (mLenWritten w + n) |>).

Section writing.
Context {D : Type} `{!TLVBackingStore D} (fuel : nat).

#[local] Abbreviation WM := (CM (TLVWriter * D)).
Definition writer {A} (f : TLVWriter → A) : WM A := gets (fun x => f x.1).
Definition set (f : TLVWriter → TLVWriter) : WM unit := modify (fun x => (f x.1, x.2)).
Definition store {A} (m : D → option ((CHIP_ERROR + A) * D)) : WM A := on_snd m.
Definition write (p : bytes) : WM unit := fun x =>
  match write_here p x.1 with Some w => Some (inr tt, (w, x.2)) | None => None end.

Definition Init_store (maxLen : Z) : WM unit :=
  set (fun w => w <| mBackingStore := true |> <| mBuf := [] |> <| mRemainingLen := 0 |>);;
  buf ← store OnInitWriter;
  set (fun w => {| ImplicitProfileId := kProfileIdNotSpecified; mBackingStore := true; mBuf := buf.1; mWritePoint := 0;
                   mRemainingLen := buf.2; mLenWritten := 0; mMaxLen := maxLen; mReservedSize := 0;
                   mContainerType := kTLVType_NotSpecified; mContainerOpen := false; mCloseContainerReserved := true |}).

Definition Finalize : WM unit :=
  w ← writer id;
  if mContainerOpen w then fail CHIP_ERROR_TLV_CONTAINER_OPEN
  else if mBackingStore w then store (FinalizeBuffer (mBuf w) (u32 (mWritePoint w)))
  else mret tt.

Definition ReserveBuffer (aBufferSize : Z) : WM unit :=
  w ← writer id;
  verify (aBufferSize <=? mRemainingLen w) CHIP_ERROR_NO_MEMORY;;
  set (fun w => w <| mReservedSize := u32 (mReservedSize w + aBufferSize) |> <| mRemainingLen := u32 (mRemainingLen w - aBufferSize) |>).

Definition UnreserveBuffer (aBufferSize : Z) : WM unit :=
  w ← writer id;
  verify (aBufferSize <=? mReservedSize w) CHIP_ERROR_NO_MEMORY;;
  set (fun w => w <| mReservedSize := u32 (mReservedSize w - aBufferSize) |> <| mRemainingLen := u32 (mRemainingLen w + aBufferSize) |>).

Fixpoint WriteData_loop (n : nat) (p : bytes) : WM unit :=
  match n with
  | O => stuck
  | S n =>
      let len := Z.of_nat (length p) in
      if 0 <? len then
        w ← writer id;
        (if mRemainingLen w =? 0 then
           verify (mBackingStore w) CHIP_ERROR_NO_MEMORY;;
           verify (mWritePoint w <=? 2 ^ 32 - 1) CHIP_ERROR_INCORRECT_STATE;;
           store (FinalizeBuffer (mBuf w) (u32 (mWritePoint w)));;
           buf ← store GetNewBuffer;
           set (fun w => w <| mBuf := buf.1 |> <| mRemainingLen := buf.2 |> <| mWritePoint := 0 |>);;
           set (fun w => if u32 (mMaxLen w - mLenWritten w) <? mRemainingLen w
                         then w <| mRemainingLen := u32 (mMaxLen w - mLenWritten w) |> else w)
         else mret tt);;
        remaining ← writer mRemainingLen;
        let writeLen := if remaining <? len then remaining else len in
        write (take (Z.to_nat writeLen) p);;
        WriteData_loop n (drop (Z.to_nat writeLen) p)
      else mret tt
  end.
Definition WriteData (p : bytes) : WM unit :=
  w ← writer id;
  verify (u32 (mLenWritten w + Z.of_nat (length p)) <=? mMaxLen w) CHIP_ERROR_BUFFER_TOO_SMALL;;
  WriteData_loop fuel p.

(** A head of at most 17 bytes goes to the write point when 17 bytes are free, and
    through the staging buffer otherwise. *)
Definition WriteElementHead (elemType tag lenOrVal : Z) : WM unit :=
  w ← writer id;
  if mContainerOpen w then fail CHIP_ERROR_TLV_CONTAINER_OPEN
  else if tag_error elemType tag w then fail CHIP_ERROR_INVALID_TLV_TAG
  else if (kStagingSize <=? mRemainingLen w) && (kStagingSize <=? mMaxLen w) then write (head_bytes elemType tag lenOrVal w)
  else WriteData (head_bytes elemType tag lenOrVal w).

Definition WriteElementWithData (type tag : Z) (data : bytes) : WM unit :=
  let dataLen := Z.of_nat (length data) in
  if negb (Z.land type kTLVTypeSizeMask =? 0) then fail CHIP_ERROR_INVALID_ARGUMENT
  else
    let lenFieldSize := if dataLen <=? 255 then kTLVFieldSize_1Byte else if dataLen <=? 65535 then kTLVFieldSize_2Byte else kTLVFieldSize_4Byte in
    WriteElementHead (Z.lor type lenFieldSize) tag dataLen;;
    WriteData data.

(** ** Values *)
Definition PutBoolean (tag : Z) (v : bool) : WM unit :=
  WriteElementHead (if v then ElementType_BooleanTrue else ElementType_BooleanFalse) tag 0.

Definition Put_uint64 (tag v : Z) : WM unit :=
  let elemType :=
    if v <=? 255 then ElementType_UInt8 else if v <=? 65535 then ElementType_UInt16
    else if v <=? 2 ^ 32 - 1 then ElementType_UInt32 else ElementType_UInt64 in
  WriteElementHead elemType tag v.

(** [Put(tag, uintW_t v, preserveSize)] *)
Definition Put_uint (w tag v : Z) (preserveSize : bool) : WM unit :=
  if preserveSize then
    WriteElementHead (if w =? 8 then ElementType_UInt8 else if w =? 16 then ElementType_UInt16
                      else if w =? 32 then ElementType_UInt32 else ElementType_UInt64) tag v
  else Put_uint64 tag v.

Definition Put_int64 (tag v : Z) : WM unit :=
  let elemType :=
    if (-128 <=? v) && (v <=? 127) then ElementType_Int8
    else if (-32768 <=? v) && (v <=? 32767) then ElementType_Int16
    else if (- 2 ^ 31 <=? v) && (v <=? 2 ^ 31 - 1) then ElementType_Int32 else ElementType_Int64 in
  WriteElementHead elemType tag (u64 v).

(** [Put(tag, intW_t v, preserveSize)] *)
Definition Put_int (w tag v : Z) (preserveSize : bool) : WM unit :=
  if preserveSize then
    WriteElementHead (if w =? 8 then ElementType_Int8 else if w =? 16 then ElementType_Int16
                      else if w =? 32 then ElementType_Int32 else ElementType_Int64) tag (wrap w v)
  else Put_int64 tag v.

(** A float or a double by its bits *)
Definition Put_float (tag bits : Z) : WM unit := WriteElementHead ElementType_FloatingPointNumber32 tag bits.
Definition Put_double (tag bits : Z) : WM unit := WriteElementHead ElementType_FloatingPointNumber64 tag bits.

Definition PutBytes (tag : Z) (data : bytes) : WM unit := WriteElementWithData kTLVType_ByteString tag data.
Definition Put_ByteSpan (tag : Z) (data : bytes) : WM unit :=
  verify (Z.of_nat (length data) <=? 2 ^ 32 - 1) CHIP_ERROR_MESSAGE_TOO_LONG;; PutBytes tag data.
Definition PutString (tag : Z) (data : bytes) : WM unit := WriteElementWithData kTLVType_UTF8String tag data.
(** The overloads for a C string and a span *)
Definition PutString_checked (tag : Z) (data : bytes) : WM unit :=
  if negb (Z.of_nat (length data) <=? 2 ^ 32 - 1) then fail CHIP_ERROR_INVALID_ARGUMENT else PutString tag data.
Definition PutNull (tag : Z) : WM unit := WriteElementHead ElementType_Null tag 0.

(** [VPutStringF] in the configuration without [CONFIG_HAVE_VSNPRINTF_EX],
    [CONFIG_HAVE_VCBPRINTF] and [CONFIG_TLV_TRUNCATE]; [alloc] is [MemoryAlloc]. *)
Definition VPutStringF (tag : Z) (text : bytes) (alloc : Z → bool) : WM unit :=
  let dataLen := Z.of_nat (length text) in
  if negb (dataLen <=? 2 ^ 32 - 1) then fail CHIP_ERROR_INVALID_ARGUMENT
  else
    let lenFieldSize := if dataLen <=? 255 then kTLVFieldSize_1Byte else if dataLen <=? 65535 then kTLVFieldSize_2Byte else kTLVFieldSize_4Byte in
    WriteElementHead (Z.lor kTLVType_UTF8String lenFieldSize) tag dataLen;;
    w ← writer id;
    verify (mLenWritten w + dataLen <=? mMaxLen w) CHIP_ERROR_BUFFER_TOO_SMALL;;
    verify (alloc (dataLen + 1)) CHIP_ERROR_NO_MEMORY;;
    WriteData text.

(** ** Containers *)
Definition unreserve_marker (w : TLVWriter) : TLVWriter :=
  if mCloseContainerReserved w then w <| mMaxLen := u32 (mMaxLen w + kEndOfContainerMarkerSize) |> else w.

(** The reservation of the end marker and its undoing around the head *)
Definition container_head (tag containerType : Z) : WM unit :=
  w ← writer id;
  (if mCloseContainerReserved w then
     verify (kEndOfContainerMarkerSize <=? mMaxLen w) CHIP_ERROR_BUFFER_TOO_SMALL;;
     set (fun w => w <| mMaxLen := mMaxLen w - kEndOfContainerMarkerSize |>)
   else mret tt);;
  err ← attempt (WriteElementHead containerType tag 0);
  match err with
  | inl err =>
      set unreserve_marker;;
      fail err
  | inr _ => mret tt
  end.

(** The result is [outerContainerType]. *)
Definition StartContainer (tag containerType : Z) : WM Z :=
  if negb (TLVTypeIsContainer containerType) then fail CHIP_ERROR_WRONG_TLV_TYPE
  else
    container_head tag containerType;;
    outerContainerType ← writer mContainerType;
    set (fun w => w <| mContainerType := containerType |> <| mContainerOpen := false |>);;
    mret outerContainerType.

Definition EndContainer (outerContainerType : Z) : WM unit :=
  w ← writer id;
  if negb (TLVTypeIsContainer (mContainerType w)) then fail CHIP_ERROR_INCORRECT_STATE
  else
    set (fun w => unreserve_marker (w <| mContainerType := outerContainerType |>));;
    WriteElementHead ElementType_EndOfContainer AnonymousTag 0.

(** [containerWriter] keeps its [mReservedSize]; the result is the container writer. *)
Definition OpenContainer (tag containerType : Z) (containerWriter : TLVWriter) : WM TLVWriter :=
  if negb (TLVTypeIsContainer containerType) then fail CHIP_ERROR_WRONG_TLV_TYPE
  else
    container_head tag containerType;;
    w ← writer id;
    set (fun w => w <| mContainerOpen := true |>);;
    mret {| ImplicitProfileId := ImplicitProfileId w; mBackingStore := mBackingStore w; mBuf := mBuf w; mWritePoint := mWritePoint w;
            mRemainingLen := mRemainingLen w; mLenWritten := 0; mMaxLen := u32 (mMaxLen w - mLenWritten w);
            mReservedSize := mReservedSize containerWriter; mContainerType := containerType; mContainerOpen := false;
            mCloseContainerReserved := mCloseContainerReserved w |}.

(** The container writer is reset to no buffer at all. *)
Definition CloseContainer (containerWriter : TLVWriter) : WM unit :=
  if negb (TLVTypeIsContainer (mContainerType containerWriter)) then fail CHIP_ERROR_INCORRECT_STATE
  else if mContainerOpen containerWriter then fail CHIP_ERROR_TLV_CONTAINER_OPEN
  else
    let c := containerWriter in
    set (fun w => unreserve_marker (w <| mBackingStore := mBackingStore c |> <| mBuf := mBuf c |> <| mWritePoint := mWritePoint c |>
                                      <| mRemainingLen := mRemainingLen c |> <| mLenWritten := u32 (mLenWritten w + mLenWritten c) |>)
                  <| mContainerOpen := false |>);;
    WriteElementHead ElementType_EndOfContainer AnonymousTag 0.

Definition PutPreEncodedContainer (tag containerType : Z) (data : bytes) : WM unit :=
  if negb (TLVTypeIsContainer containerType) then fail CHIP_ERROR_INVALID_ARGUMENT
  else WriteElementHead containerType tag 0;; WriteData data.
End writing.

(** ** Copying from a reader *)
Section copying.
Context {D DR : Type} `{!TLVBackingStore D, !TLVBackingStore DR} (fuel : nat).

#[local] Abbreviation XM := (CM ((TLVWriter * D) * (TlvReader.TLVReader * DR))).

Definition to_writer {A} (m : CM (TLVWriter * D) A) : XM A := on_fst m.
Definition from_reader {A} (m : CM (TlvReader.TLVReader * DR) A) : XM A := on_snd m.

(** A method of [readerHelper], which has a copy of the fields and the same store *)
Fixpoint copy_loop (n : nat) (readerHelper : TlvReader.TLVReader) (copyDataLen : Z) : XM unit :=
  match n with
  | O => stuck
  | S n =>
      if 0 <? copyDataLen then
        let chunkSize := if kTLVCopyChunkSize <? copyDataLen then kTLVCopyChunkSize else copyDataLen in
        res ← from_reader (TlvReader.on_reader readerHelper (TlvReader.ReadData fuel chunkSize));
        chunk ← returns res.1;
        to_writer (WriteData fuel chunk);;
        copy_loop n res.2 (copyDataLen - chunkSize)
      else mret tt
  end.

Definition CopyElement_as (tag : Z) : XM unit :=
  reader ← from_reader (TlvReader.reader id);
  let elemType := TlvReader.ElementType reader in
  let elemLenOrVal := TlvReader.mElemLenOrVal reader in
  verify (negb (elemType =? ElementType_NotSpecified) && negb (elemType =? ElementType_EndOfContainer)) CHIP_ERROR_INCORRECT_STATE;;
  let readerHelper := reader in
  from_reader (TlvReader.Skip fuel);;
  after ← from_reader (TlvReader.reader id);
  let copyDataLen := u32 (TlvReader.GetLengthRead after - TlvReader.GetLengthRead readerHelper) in
  to_writer (WriteElementHead fuel elemType tag elemLenOrVal);;
  copy_loop fuel readerHelper copyDataLen.

Definition CopyElement : XM unit :=
  reader ← from_reader (TlvReader.reader id); CopyElement_as (TlvReader.GetTag reader).

(** The bytes between two read points of one buffer *)
Definition between (from to : TlvReader.cursor) : option bytes :=
  match from, to with TlvReader.In l, TlvReader.In l' => Some (take (length l - length l') l) | _, _ => None end.

Definition CopyContainer_as (tag : Z) : XM unit :=
  container ← from_reader (TlvReader.reader id);
  if TlvReader.mBackingStore container then fail CHIP_ERROR_INVALID_ARGUMENT
  else
    let containerType := TlvReader.GetType container in
    outerContainerType ← from_reader TlvReader.EnterContainer;
    containerStart ← from_reader (TlvReader.reader TlvReader.mReadPoint);
    from_reader (TlvReader.ExitContainer fuel outerContainerType);;
    containerEnd ← from_reader (TlvReader.reader TlvReader.mReadPoint);
    match between containerStart containerEnd with
    | Some data => to_writer (PutPreEncodedContainer fuel tag containerType data)
    | None => stuck
    end.

Definition CopyContainer : XM unit :=
  container ← from_reader (TlvReader.reader id); CopyContainer_as (TlvReader.GetTag container).

(** [CopyContainer(tag, encodedContainer, encodedContainerLen)]: its reader is local
    and has no store. *)
Definition CopyContainer_encoded (tag : Z) (encodedContainer : bytes) : XM unit :=
  res ← from_reader (TlvReader.on_reader (TlvReader.Init encodedContainer) (TlvReader.Next fuel));
  _ ← returns res.1;
  let reader := res.2 in
  match TlvReader.mReadPoint reader with
  | TlvReader.In l =>
      to_writer (PutPreEncodedContainer fuel tag (TlvReader.GetType reader) (take (Z.to_nat (TlvReader.GetRemainingLength reader)) l))
  | _ => stuck
  end.
End copying.
