(* ===== verification/TlvUtilities.v ===== *)
(** * TlvUtilities: iterating, counting and finding

    [src/src/lib/core/TLVUtilities.cpp].  The handler sees a const reader and its
    context [C]; [void * aContext] is not null.  [Iterate] works on a copy of the
    reader. *)
From S2P Require Import Prelude ChipError StateError Tlv TlvReader.

Definition kMaxRecursionDepth : Z := 10.

Section utilities.
Context {D : Type} `{!TLVBackingStore D} (fuel : nat).

Section iterate.
Context {C : Type} (aHandler : TLVReader → Z → C → CHIP_ERROR * C) (aRecurse : bool).

#[local] Abbreviation IM := (CM ((TLVReader * D) * C)).

Definition call_handler (aDepth : Z) : IM unit := fun x =>
  let '(err, c) := aHandler x.1.1 aDepth x.2 in
  Some (if is_no_error err then inr tt else inl err, (x.1, c)).

(** The [do] loop; [inner n] is the recursive call. *)
Fixpoint Iterate_loop (n : nat) (aDepth : Z) : IM unit :=
  match n with
  | O => stuck
  | S n =>
      theType ← on_fst (reader GetType);
      call_handler aDepth;;
      (if aRecurse && TLVTypeIsContainer theType then
         containerType ← on_fst EnterContainer;
         retval ← attempt (
           if kMaxRecursionDepth <=? aDepth + 1 then fail CHIP_ERROR_RECURSION_DEPTH_LIMIT
           else
             type ← on_fst (reader GetType);
             (if type =? kTLVType_NotSpecified then on_fst (Next fuel) else mret tt);;
             Iterate_loop n (aDepth + 1));
         match retval with
         | inl CHIP_END_OF_TLV | inr _ => on_fst (ExitContainer fuel containerType)
         | inl err => fail err
         end
       else mret tt);;
      on_fst (Next fuel);;
      Iterate_loop n aDepth
  end.

Definition Iterate_at (aDepth : Z) : IM unit :=
  if kMaxRecursionDepth <=? aDepth then fail CHIP_ERROR_RECURSION_DEPTH_LIMIT
  else
    type ← on_fst (reader GetType);
    (if type =? kTLVType_NotSpecified then on_fst (Next fuel) else mret tt);;
    Iterate_loop fuel aDepth.

(** The result of the function and the context after it. *)
Definition Iterate (aReader : TLVReader) (c : C) (d : D) : option (CHIP_ERROR * C * D) :=
  let! (res, (r, c)) := Iterate_at 0 ((aReader, d), c) in
  Some (match res with inl err => err | inr _ => CHIP_NO_ERROR end, c, r.2).
End iterate.

Definition CountHandler (aReader : TLVReader) (aDepth : Z) (count : Z) : CHIP_ERROR * Z := (CHIP_NO_ERROR, count + 1).
Definition Count (aReader : TLVReader) (aRecurse : bool) (d : D) : option (CHIP_ERROR * Z * D) :=
  let! (err, aCount, d) := Iterate CountHandler aRecurse aReader 0 d in
  Some (match err with CHIP_END_OF_TLV => CHIP_NO_ERROR | _ => err end, aCount, d).

Definition FindHandler (mTag : Z) (aReader : TLVReader) (aDepth : Z) (mReader : TLVReader) : CHIP_ERROR * TLVReader :=
  if mTag =? GetTag aReader then (CHIP_ERROR_SENTINEL, aReader) else (CHIP_NO_ERROR, mReader).
Definition Find (aReader : TLVReader) (aTag : Z) (aResult : TLVReader) (aRecurse : bool) (d : D) : option (CHIP_ERROR * TLVReader * D) :=
  let! (err, aResult, d) := Iterate (FindHandler aTag) aRecurse aReader aResult d in
  Some (match err with CHIP_ERROR_SENTINEL => CHIP_NO_ERROR | _ => CHIP_ERROR_TLV_TAG_NOT_FOUND end, aResult, d).

Definition FindPredicateHandler {C} (mHandler : TLVReader → Z → C → CHIP_ERROR * C) (aReader : TLVReader) (aDepth : Z)
    (x : TLVReader * C) : CHIP_ERROR * (TLVReader * C) :=
  let '(err, mContext) := mHandler aReader aDepth x.2 in
  (err, (match err with CHIP_ERROR_SENTINEL => aReader | _ => x.1 end, mContext)).
Definition FindPredicate {C} (aReader : TLVReader) (aPredicate : TLVReader → Z → C → CHIP_ERROR * C) (aContext : C)
    (aResult : TLVReader) (aRecurse : bool) (d : D) : option (CHIP_ERROR * (TLVReader * C) * D) :=
  let! (err, x, d) := Iterate (FindPredicateHandler aPredicate) aRecurse aReader (aResult, aContext) d in
  Some (match err with CHIP_ERROR_SENTINEL => CHIP_NO_ERROR | _ => CHIP_ERROR_TLV_TAG_NOT_FOUND end, x, d).
End utilities.
