(* ===== verification/TlvReading.v ===== *)
(** * TlvReading: the reader over one buffer

    Lemmas for a reader without a store: its state is the bytes left, the container
    and the current element ([rd]), and every step has a value.  [next_bounded] and
    the [_spec] lemmas are what the theorems on TLV use. *)
From S2P Require Import Prelude ChipError StateError Tlv TlvReader.

(** What holds of every byte can be evaluated. *)
Lemma byte_forall (P : Z → bool) b : forallb P (seqZ 0 256) = true → in_u 8 b → P b = true.
Proof.
  intros H Hb. rewrite forallb_forall in H. apply H. apply list_elem_of_In, elem_of_seqZ. unfold in_u in Hb. change (2 ^ 8) with 256 in Hb. lia.
Qed.

Lemma head_length_range b : in_u 8 b → 1 ≤ head_length b (Z.land b kTLVTypeMask) ≤ 17.
Proof.
  intros Hb. pose proof (byte_forall (fun b => (1 <=? head_length b (Z.land b kTLVTypeMask)) && (head_length b (Z.land b kTLVTypeMask) <=? 17)) b eq_refl Hb) as H.
  cbv beta in H. apply andb_true_iff in H. lia.
Qed.

Definition rd (p m c : Z) (o : bool) (ctl tag v : Z) (l : bytes) : TLVReader :=
  {| ImplicitProfileId := p; mElemTag := tag; mElemLenOrVal := v; mBackingStore := false; mReadPoint := In l;
     mLenRead := m - Z.of_nat (length l); mMaxLen := m; mContainerType := c; mControlByte := ctl; mContainerOpen := o |}.

(** Between two elements *)
Definition rd0 (p m c : Z) (o : bool) (l : bytes) : TLVReader := rd p m c o kTLVControlByte_NotSpecified AnonymousTag 0 l.

Section buffer.
Context {D : Type} `{!TLVBackingStore D}.
Implicit Types (d : D) (l : bytes).

Definition fits (m : Z) l : Prop := Z.of_nat (length l) ≤ m < 2 ^ 32.

Lemma fits_app m l1 l2 : fits m (l1 ++ l2) → fits m l2.
Proof. unfold fits. rewrite length_app. lia. Qed.

Lemma u32_length m l : fits m l → u32 (Z.of_nat (length l)) = Z.of_nat (length l).
Proof. intros [H1 H2]. apply wrap_small. unfold in_u. lia. Qed.

Lemma ensure_some p m c o ctl tag v b l d e :
  EnsureData e (rd p m c o ctl tag v (b :: l), d) = Some (inr tt, (rd p m c o ctl tag v (b :: l), d)).
Proof. done. Qed.

Lemma ensure_none p m c o ctl tag v d e :
  EnsureData e (rd p m c o ctl tag v [], d) = Some (inl e, (rd p m c o ctl tag v [], d)).
Proof.
  unfold EnsureData. erewrite bind_ok by done. cbn [rd fst mReadPoint mLenRead mMaxLen mBackingStore length id].
  by destruct (_ =? _).
Qed.

Lemma advance_rd p m c o ctl tag v n l : fits m l → 0 ≤ n ≤ Z.of_nat (length l) →
  advance n l (rd p m c o ctl tag v l) = rd p m c o ctl tag v (drop (Z.to_nat n) l).
Proof.
  intros [H1 H2] Hn. unfold advance, rd. cbn. f_equal. rewrite length_drop. unfold wrap. rewrite Z.mod_small by lia. lia.
Qed.

Lemma ReadTag_rd tc h p m c o ctl tag v l : ReadTag tc h (rd p m c o ctl tag v l) = ReadTag tc h (rd0 p 0 0 false []).
Proof. done. Qed.

Lemma ElementType_rd p m c o b tag v l : in_u 8 b → ElementType (rd p m c o b tag v l) = Z.land b kTLVTypeMask.
Proof.
  intros Hb. unfold ElementType. cbn [rd mControlByte]. unfold in_u in Hb. change (2 ^ 8) with 256 in Hb.
  by rewrite (proj2 (Z.eqb_neq b kTLVControlByte_NotSpecified)) by (unfold kTLVControlByte_NotSpecified; lia).
Qed.
End buffer.

Section reading.
Context {D : Type} `{!TLVBackingStore D} (fuel : nat) (Hfuel : (2 ≤ fuel)%nat).
Implicit Types (d : D) (l : bytes).

Lemma ReadData_full p m c o ctl tag v n l d : fits m l → 0 ≤ n ≤ Z.of_nat (length l) →
  ReadData fuel n (rd p m c o ctl tag v l, d) = Some (inr (take (Z.to_nat n) l), (rd p m c o ctl tag v (drop (Z.to_nat n) l), d)).
Proof using Hfuel.
  intros Hfit Hn. unfold ReadData. destruct fuel as [|[|f]]; [lia..|]. cbn [ReadData_loop]. destruct (Z.ltb_spec 0 n) as [Hp|Hp].
  - destruct l as [|b l]; [cbn in Hn; lia|]. erewrite bind_ok by apply ensure_some.
    erewrite bind_ok by done. cbn [rd mReadPoint fst snd]. rewrite (u32_length m (b :: l)) by done.
    rewrite (proj2 (Z.ltb_ge (Z.of_nat (length (b :: l))) n)) by lia. erewrite bind_ok by done. cbn [fst snd].
    rewrite Z.sub_diag. cbn [Z.ltb Z.compare app]. unfold mret, CM_ret. do 3 f_equal. by apply advance_rd.
  - replace n with 0 by lia. done.
Qed.

Lemma ReadData_short p m c o ctl tag v n l d : fits m l → Z.of_nat (length l) < n →
  ReadData fuel n (rd p m c o ctl tag v l, d) = Some (inl CHIP_ERROR_TLV_UNDERRUN, (rd p m c o ctl tag v [], d)).
Proof using Hfuel.
  intros Hfit Hn. unfold ReadData. destruct fuel as [|[|f]]; [lia..|]. cbn [ReadData_loop]. rewrite (proj2 (Z.ltb_lt _ _)) by lia.
  destruct l as [|b l].
  - erewrite bind_error by apply ensure_none. done.
  - erewrite bind_ok by apply ensure_some. erewrite bind_ok by done. cbn [rd mReadPoint fst snd].
    rewrite (u32_length m (b :: l)) by done. rewrite (proj2 (Z.ltb_lt (Z.of_nat _) n)) by lia. erewrite bind_ok by done. cbn [fst snd].
    rewrite (proj2 (Z.ltb_lt 0 _)) by lia. rewrite advance_rd by (done || (unfold fits in Hfit; lia)). rewrite Nat2Z.id, drop_all.
    erewrite bind_error by apply ensure_none. done.
Qed.

(** The element that a head gives *)
Definition tag_and_rest (p b : Z) (h : bytes) : Z * bytes := ReadTag (Z.land b kTLVTagControlMask) h (rd0 p 0 0 false []).
Definition value_of (b : Z) (q : bytes) : Z :=
  le_val (take (Z.to_nat (TLVFieldSizeToBytes (GetTLVFieldSize (Z.land b kTLVTypeMask)))) q).
Definition length_too_long (b v : Z) : bool :=
  (GetTLVFieldSize (Z.land b kTLVTypeMask) =? kTLVFieldSize_8Byte) && TLVTypeHasLength (Z.land b kTLVTypeMask) && (2 ^ 32 - 1 <? v).

Lemma ReadElement_full p m c o ctl tag v b l d : fits m (b :: l) → in_u 8 b → IsValidTLVType (Z.land b kTLVTypeMask) = true →
  let n := head_length b (Z.land b kTLVTypeMask) in n ≤ Z.of_nat (length (b :: l)) →
  let tq := tag_and_rest p b (take (Z.to_nat n - 1) l) in
  let r := rd p m c o b tq.1 (value_of b tq.2) (drop (Z.to_nat n - 1) l) in
  ReadElement fuel (rd p m c o ctl tag v (b :: l), d) =
    Some (if length_too_long b (value_of b tq.2) then inl CHIP_ERROR_NOT_IMPLEMENTED else VerifyElement r, (r, d)).
Proof using Hfuel.
  intros Hfit Hb Hv n Hn tq r. pose proof (head_length_range b Hb) as Hr. fold n in Hr.
  unfold ReadElement. erewrite bind_ok by apply ensure_some. erewrite bind_ok by done. cbn [rd mReadPoint fst].
  erewrite bind_ok by done. cbn [fst snd]. change ((rd p m c o ctl tag v (b :: l)) <| mControlByte := b |>) with (rd p m c o b tag v (b :: l)).
  erewrite bind_ok by done. cbn [fst snd]. rewrite ElementType_rd by done. rewrite Hv.
  erewrite bind_ok by done. fold n. rewrite (wrap_small 8 n) by (unfold in_u; change (2 ^ 8) with 256; lia).
  rewrite (proj2 (Z.ltb_ge _ n)) by done.
  erewrite bind_ok by (erewrite bind_ok by done; cbn [fst snd]; rewrite advance_rd by (done || lia); done).
  erewrite bind_ok by done. cbn [fst snd]. rewrite ReadTag_rd.
  assert (drop 1 (take (Z.to_nat n) (b :: l)) = take (Z.to_nat n - 1) l) as ->.
  { replace (Z.to_nat n) with (1 + (Z.to_nat n - 1))%nat at 1 by lia. done. }
  assert (drop (Z.to_nat n) (b :: l) = drop (Z.to_nat n - 1) l) as ->.
  { replace (Z.to_nat n) with (1 + (Z.to_nat n - 1))%nat at 1 by lia. done. }
  fold (tag_and_rest p b (take (Z.to_nat n - 1) l)). fold tq. set (rest := drop (Z.to_nat n - 1) l) in *.
  erewrite bind_ok by done. cbn [fst snd]. change ((rd p m c o b tag v rest) <| mElemTag := tq.1 |>) with (rd p m c o b tq.1 v rest).
  fold (value_of b tq.2). erewrite bind_ok by done. cbn [fst snd].
  change ((rd p m c o b tq.1 v rest) <| mElemLenOrVal := value_of b tq.2 |>) with r.
  erewrite bind_ok by done. cbn [fst]. change (mElemLenOrVal r) with (value_of b tq.2).
  unfold length_too_long, verify. rewrite Z.leb_antisym, <- !negb_andb. by destruct (_ && _ && _).
Qed.

Lemma ReadElement_short p m c o ctl tag v b l d : fits m (b :: l) → in_u 8 b → IsValidTLVType (Z.land b kTLVTypeMask) = true →
  Z.of_nat (length (b :: l)) < head_length b (Z.land b kTLVTypeMask) →
  ReadElement fuel (rd p m c o ctl tag v (b :: l), d) = Some (inl CHIP_ERROR_TLV_UNDERRUN, (rd p m c o b tag v [], d)).
Proof using Hfuel.
  intros Hfit Hb Hv Hn. pose proof (head_length_range b Hb) as Hr.
  unfold ReadElement. erewrite bind_ok by apply ensure_some. erewrite bind_ok by done. cbn [rd mReadPoint fst].
  erewrite bind_ok by done. cbn [fst snd]. change ((rd p m c o ctl tag v (b :: l)) <| mControlByte := b |>) with (rd p m c o b tag v (b :: l)).
  erewrite bind_ok by done. cbn [fst snd]. rewrite ElementType_rd by done. rewrite Hv.
  erewrite bind_ok by done. rewrite (wrap_small 8 (head_length _ _)) by (unfold in_u; change (2 ^ 8) with 256; lia).
  rewrite (proj2 (Z.ltb_lt _ (head_length _ _))) by done. erewrite bind_error by (by apply ReadData_short). done.
Qed.

Lemma ReadElement_invalid p m c o ctl tag v b l d : in_u 8 b → IsValidTLVType (Z.land b kTLVTypeMask) = false →
  ReadElement fuel (rd p m c o ctl tag v (b :: l), d) = Some (inl CHIP_ERROR_INVALID_TLV_ELEMENT, (rd p m c o b tag v (b :: l), d)).
Proof.
  intros Hb Hv. unfold ReadElement. erewrite bind_ok by apply ensure_some. erewrite bind_ok by done. cbn [rd mReadPoint fst].
  erewrite bind_ok by done. cbn [fst snd]. change ((rd p m c o ctl tag v (b :: l)) <| mControlByte := b |>) with (rd p m c o b tag v (b :: l)).
  erewrite bind_ok by done. cbn [fst snd]. rewrite ElementType_rd by done. by rewrite Hv.
Qed.

Lemma ReadElement_none p m c o ctl tag v d :
  ReadElement fuel (rd p m c o ctl tag v [], d) = Some (inl CHIP_END_OF_TLV, (rd p m c o ctl tag v [], d)).
Proof. unfold ReadElement. by erewrite bind_error by apply ensure_none. Qed.
End reading.
