(* ===== verification/TlvReaderSafe.v ===== *)
(** * TlvReaderSafe: every call on any input returns

    The bytes may come from anyone and the caller may ignore errors: with fuel for the
    length of the input every method returns and reads inside the buffer.  Only
    [GetString], which writes a terminator, needs the last move to have succeeded. *)
From S2P Require Import Prelude ChipError StateError Tlv TlvReader TlvReading.

Definition remaining (r : TLVReader) : nat := match mReadPoint r with In l => length l | _ => 0%nat end.

(** The bytes left are the end of the input, and the counters agree with them. *)
Inductive reads_in (data : bytes) : TLVReader → Prop :=
| reads_in_intro p c o ctl tag v l :
    l `suffix_of` data → (ctl = kTLVControlByte_NotSpecified ∨ in_u 8 ctl) →
    reads_in data (rd p (Z.of_nat (length data)) c o ctl tag v l).

Section safe.
Context {D : Type} `{!TLVBackingStore D} (data : bytes) (fuel : nat).
Context (Hdata : bytes_ok data) (Hlen : Z.of_nat (length data) < 2 ^ 32) (Hfuel : (length data + 2 ≤ fuel)%nat).

Definition safe_at {A} (m : CM (TLVReader * D) A) (r : TLVReader) (d : D) : Prop :=
  wp m (fun _ x => reads_in data x.1 ∧ (remaining x.1 ≤ remaining r)%nat ∧ x.2 = d) (r, d).
Definition safe {A} (m : CM (TLVReader * D) A) : Prop := ∀ r d, reads_in data r → safe_at m r d.

Lemma wp_read {A B} (f : TLVReader → A) (k : A → CM (TLVReader * D) B) Q r d : wp (k (f r)) Q (r, d) → wp (reader f ≫= k) Q (r, d).
Proof. done. Qed.

Lemma suffix_fits l : l `suffix_of` data → fits (Z.of_nat (length data)) l.
Proof. intros H%suffix_length. unfold fits. lia. Qed.
Lemma suffix_bytes l : l `suffix_of` data → bytes_ok l.
Proof. intros [k ->]. by apply Forall_app in Hdata as [_ ?]. Qed.
Lemma suffix_drop n l : l `suffix_of` data → drop n l `suffix_of` data.
Proof. intros H. etrans; [|done]. exists (take n l). by rewrite take_drop. Qed.
Lemma fuel_2 : (2 ≤ fuel)%nat.
Proof. lia. Qed.

Lemma safe_bind {A B} (m : CM (TLVReader * D) A) (k : A → CM (TLVReader * D) B) : safe m → (∀ a, safe (k a)) → safe (m ≫= k).
Proof.
  intros Hm Hk r d Hr. apply wp_bind. eapply wp_mono; [by apply Hm|]. intros [e|a] [r' d'] (Hr' & Hle & Hd); [done|]. cbn [fst snd] in *. subst d'.
  eapply wp_mono; [by apply Hk|]. intros res x (? & ? & ?). split_and!; [done|lia|done].
Qed.
Lemma safe_ret {A} (a : A) : safe (mret a).
Proof. done. Qed.
Lemma safe_fail {A} e : safe (fail (A := A) e).
Proof. done. Qed.
Lemma safe_returns {A} (res : CHIP_ERROR + A) : safe (returns res).
Proof. done. Qed.
Lemma safe_reader {A} (f : TLVReader → A) : safe (reader f).
Proof. done. Qed.
Lemma safe_verify b e : safe (verify b e).
Proof. by destruct b. Qed.
Lemma safe_attempt {A} (m : CM (TLVReader * D) A) : safe m → safe (attempt m).
Proof. intros Hm r d Hr. apply wp_attempt. by apply Hm. Qed.
Lemma safe_if {A} (b : bool) (m1 m2 : CM (TLVReader * D) A) : safe m1 → safe m2 → safe (if b then m1 else m2).
Proof. by destruct b. Qed.

(** Changes of the fields other than the read point *)
Lemma safe_set f : (∀ p c o ctl tag v l, (ctl = kTLVControlByte_NotSpecified ∨ in_u 8 ctl) → ∃ p' c' o' ctl' tag' v',
    (ctl' = kTLVControlByte_NotSpecified ∨ in_u 8 ctl') ∧
    f (rd p (Z.of_nat (length data)) c o ctl tag v l) = rd p' (Z.of_nat (length data)) c' o' ctl' tag' v' l) → safe (set f).
Proof.
  intros Hf r d [p c o ctl tag v l Hl Hc]. unfold safe_at, wp, set, modify. cbn [fst snd].
  destruct (Hf p c o ctl tag v l Hc) as (? & ? & ? & ? & ? & ? & ? & ->). split_and!; [by constructor|done|done].
Qed.

Lemma safe_EnsureData e : safe (EnsureData e).
Proof.
  intros _ d [p c o ctl tag v l Hl Hc]. unfold safe_at, wp. destruct l as [|b l].
  - rewrite ensure_none. by split_and!.
  - rewrite ensure_some. by split_and!.
Qed.

Lemma safe_ReadData n : 0 ≤ n → safe (ReadData fuel n).
Proof.
  intros Hn _ d [p c o ctl tag v l Hl Hc]. pose proof (suffix_fits l Hl) as Hfit. unfold safe_at, wp.
  destruct (decide (n ≤ Z.of_nat (length l))) as [Hle|Hgt].
  - rewrite ReadData_full by (done || apply fuel_2 || lia). split_and!; [constructor; [by apply suffix_drop|done]| |done].
    cbn. rewrite length_drop. lia.
  - rewrite ReadData_short by (done || apply fuel_2 || lia). split_and!; [constructor; [apply suffix_nil|done]|cbn; lia|done].
Qed.

(** An element read takes at least a byte. *)
Lemma read_element_progress r d : reads_in data r →
  wp (ReadElement fuel) (fun res x => reads_in data x.1 ∧ (remaining x.1 ≤ remaining r)%nat ∧ x.2 = d
                                      ∧ (res = inr tt → remaining x.1 < remaining r)%nat) (r, d).
Proof.
  intros [p c o ctl tag v l Hl Hc]. unfold wp. destruct l as [|b l].
  { rewrite ReadElement_none. by split_and!. }
  pose proof (suffix_fits _ Hl) as Hfit. pose proof (suffix_bytes _ Hl) as Hb. inversion Hb as [|? ? Hb8 _]; subst.
  destruct (IsValidTLVType (Z.land b kTLVTypeMask)) eqn:Hv.
  - destruct (decide (head_length b (Z.land b kTLVTypeMask) ≤ Z.of_nat (length (b :: l)))) as [Hle|Hgt].
    + rewrite ReadElement_full by (done || apply fuel_2). split_and!; [constructor; [|by right]| |done|intros _].
      * apply suffix_drop. etrans; [|done]. by exists [b].
      * cbn. rewrite length_drop. lia.
      * cbn. rewrite length_drop. lia.
    + rewrite ReadElement_short by (done || apply fuel_2 || lia). split_and!; [constructor; [apply suffix_nil|by right]|cbn; lia|done|done].
  - rewrite ReadElement_invalid by done. split_and!; [constructor; [done|by right]|done|done|done].
Qed.

Lemma safe_ReadElement : safe (ReadElement fuel).
Proof. intros r d Hr. eapply wp_mono; [by apply read_element_progress|]. naive_solver. Qed.

Lemma safe_SkipData : safe (SkipData fuel).
Proof.
  apply safe_bind; [apply safe_reader|]. intros r. apply safe_if; [|apply safe_ret].
  apply safe_bind; [apply safe_ReadData, (wrap_range 32); lia|]. intros _. apply safe_ret.
Qed.

Lemma skip_loop_safe n : ∀ outer nest r d, reads_in data r → (remaining r < n)%nat → safe_at (SkipToEnd_loop fuel n outer nest) r d.
Proof.
  induction n as [|n IH]; intros outer nest r d Hr Hn; [lia|]. cbn [SkipToEnd_loop].
  assert (∀ nest r, reads_in data r → (remaining r < S n)%nat →
    safe_at (SkipData fuel ≫= fun _ => ReadElement fuel ≫= fun _ => SkipToEnd_loop fuel n outer nest) r d) as Hstep.
  { clear r nest Hr Hn. intros nest r Hr Hn. apply wp_bind. eapply wp_mono; [by apply safe_SkipData|].
    intros [e|?] [r' d'] (Hr' & Hle & Hd); [done|]. cbn [fst snd] in *. subst d'. apply wp_bind. eapply wp_mono; [by apply read_element_progress|].
    intros [e|[]] [r2 d2] (Hr2 & Hle2 & Hd2 & Hlt); cbn [fst snd] in *; [split_and!; [done|lia|done]|]. subst d2. specialize (Hlt eq_refl).
    eapply wp_mono; [apply IH; [done|lia]|]. intros res x (? & ? & ?). split_and!; [done|lia|done]. }
  assert (∀ f nest, safe (set f) → safe_at (set f ≫= fun _ => SkipData fuel ≫= fun _ => ReadElement fuel ≫= fun _ => SkipToEnd_loop fuel n outer nest) r d) as Hset.
  { intros f nest' Hf. apply wp_bind. eapply wp_mono; [by apply Hf|]. intros [e|?] [r' d'] (Hr' & Hle & Hd); [done|]. cbn [fst snd] in *. subst d'.
    eapply wp_mono; [apply Hstep; [done|lia]|]. intros res x (? & ? & ?). split_and!; [done|lia|done]. }
  apply wp_read.
  destruct (_ =? _); [destruct (nest =? 0)|destruct (TLVTypeIsContainer _)].
  - by split_and!.
  - apply Hset, safe_set. intros p c o ctl tag v l Hc. by eexists _, _, _, _, _, _.
  - apply Hset, safe_set. intros p c o ctl tag v l Hc. by eexists _, _, _, _, _, _.
  - by apply Hstep.
Qed.

Lemma remaining_bound r : reads_in data r → (remaining r < fuel)%nat.
Proof. intros [p c o ctl tag v l Hl Hc]. apply suffix_length in Hl. cbn. lia. Qed.

Lemma safe_SkipToEndOfContainer : safe (SkipToEndOfContainer fuel).
Proof.
  apply safe_bind; [apply safe_reader|]. intros outer. apply safe_bind.
  - apply safe_set. intros p c o ctl tag v l Hc. by eexists _, _, _, _, _, _.
  - intros _ r d Hr. apply skip_loop_safe; [done|]. by apply remaining_bound.
Qed.

(** Splits a method into its steps. *)
Ltac safe_steps := repeat (lazymatch goal with
  | |- safe (_ ≫= _) => apply safe_bind; [|intros ?]
  | |- safe (mret _) => apply safe_ret
  | |- safe (fail _) => apply safe_fail
  | |- safe (reader _) => apply safe_reader
  | |- safe (verify _ _) => apply safe_verify
  | |- safe (returns _) => apply safe_returns
  | |- safe (attempt _) => apply safe_attempt
  | |- safe (if _ then _ else _) => apply safe_if
  | |- safe (set _) => apply safe_set; intros ? ? ? ? ? ? ? ?; eexists _, _, _, _, _, _; split; [|reflexivity]; (assumption || (left; reflexivity))
  | |- safe (let '(_, _) := ?x in _) => destruct x
  | |- safe (match ?x with _ => _ end) => destruct x
  end).

Lemma safe_EnterContainer : safe EnterContainer.
Proof. unfold EnterContainer. safe_steps. Qed.
Lemma safe_ExitContainer c : safe (ExitContainer fuel c).
Proof. unfold ExitContainer. safe_steps. apply safe_SkipToEndOfContainer. Qed.
Lemma safe_Skip : safe (Skip fuel).
Proof. unfold Skip. safe_steps; [apply safe_EnterContainer|apply safe_ExitContainer|apply safe_SkipData]. Qed.
Lemma safe_Next : safe (Next fuel).
Proof. unfold Next. safe_steps; [apply safe_Skip|apply safe_ReadElement|apply safe_EnsureData]. Qed.
Lemma safe_Next_tag t : safe (Next_tag fuel t).
Proof. unfold Next_tag. safe_steps. apply safe_Next. Qed.
Lemma safe_Next_type ty t : safe (Next_type fuel ty t).
Proof. unfold Next_type. safe_steps. apply safe_Next_tag. Qed.
Lemma safe_VerifyEndOfContainer : safe (VerifyEndOfContainer fuel).
Proof. unfold VerifyEndOfContainer. safe_steps. apply safe_Next. Qed.
Lemma safe_GetBytes n : safe (GetBytes fuel n).
Proof. unfold GetBytes. safe_steps. apply safe_ReadData, (wrap_range 32). lia. Qed.
Lemma safe_DupBytes alloc : safe (DupBytes fuel alloc).
Proof. unfold DupBytes. safe_steps. apply safe_ReadData, (wrap_range 32). lia. Qed.
Lemma safe_DupString alloc : safe (DupString fuel alloc).
Proof. unfold DupString. safe_steps. apply safe_ReadData, (wrap_range 32). lia. Qed.
Lemma safe_OpenContainer : safe OpenContainer.
Proof. unfold OpenContainer. safe_steps. Qed.

Lemma on_reader_safe {A} (c : TLVReader) (m : CM (TLVReader * D) A) r d : safe m → reads_in data c → reads_in data r →
  wp (on_reader c m) (fun res x => x = (r, d) ∧ ∃ a c', res = inr (a, c') ∧ reads_in data c' ∧ (remaining c' ≤ remaining c)%nat) (r, d).
Proof.
  intros Hm Hc Hr. pose proof (Hm c d Hc) as H. unfold safe_at, wp, on_reader in *. cbn [fst snd].
  destruct (m (c, d)) as [[res [c' d']]|]; [|done]. cbn [fst snd] in H. destruct H as (? & ? & ->). split; [done|]. by eexists _, _.
Qed.

Lemma next_progress r d : reads_in data r →
  wp (Next fuel) (fun res x => reads_in data x.1 ∧ (remaining x.1 ≤ remaining r)%nat ∧ x.2 = d
                               ∧ (res = inr tt → remaining x.1 < remaining r)%nat) (r, d).
Proof.
  intros Hr. apply wp_bind. eapply wp_mono; [by apply safe_Skip|]. intros [e|?] [r' d'] (Hr' & Hle & Hd); cbn [fst snd] in *; subst d'; [by split_and!|].
  apply wp_bind. eapply wp_mono; [by apply read_element_progress|].
  intros [e|[]] [r2 d2] (Hr2 & Hle2 & Hd2 & Hlt); cbn [fst snd] in *; subst d2; [split_and!; [done|lia|done|done]|]. specialize (Hlt eq_refl).
  assert (safe_at (r ← reader id;
     verify (negb (ElementType r =? ElementType_EndOfContainer)) CHIP_END_OF_TLV;;
     if TLVTypeIsString (ElementType r) && negb (GetLength r =? 0) then EnsureData CHIP_ERROR_TLV_UNDERRUN else mret tt) r2 d) as H.
  { apply safe_bind; [apply safe_reader| |done]. intros a. safe_steps. apply safe_EnsureData. }
  eapply wp_mono; [exact H|]. intros res x (? & ? & ?). split_and!; [done|lia|done|intros _; lia].
Qed.

Lemma find_loop_safe n t : ∀ r d, reads_in data r → (remaining r < n)%nat → safe_at (Find_loop fuel n t) r d.
Proof.
  induction n as [|n IH]; intros r d Hr Hn; [lia|]. cbn [Find_loop]. apply wp_bind.
  eapply wp_mono; [by apply next_progress|]. intros [e|[]] [r' d'] (Hr' & Hle & Hd & Hlt); cbn [fst snd] in *; subst d'; [split_and!; [done|lia|done]|].
  specialize (Hlt eq_refl). apply wp_read. cbn [id]. apply wp_verify; intros _; [|split_and!; [done|cbn [fst]; lia|done]].
  destruct (t =? GetTag r'); [split_and!; [done|cbn [fst]; lia|done]|].
  eapply wp_mono; [apply IH; [done|lia]|]. intros res x (? & ? & ?). split_and!; [done|cbn [fst]; lia|done].
Qed.

Lemma count_loop_safe n : ∀ count r d, reads_in data r → (remaining r < n)%nat → safe_at (Count_loop fuel n count) r d.
Proof.
  induction n as [|n IH]; intros count r d Hr Hn; [lia|]. cbn [Count_loop]. apply wp_bind, wp_attempt.
  eapply wp_mono; [by apply next_progress|]. intros [e|[]] [r' d'] (Hr' & Hle & Hd & Hlt); cbn [fst snd] in *; subst d'.
  - destruct e; by split_and!.
  - specialize (Hlt eq_refl). eapply wp_mono; [apply IH; [done|lia]|]. intros res x (? & ? & ?). split_and!; [done|lia|done].
Qed.

(** The searches leave the reader as it was. *)
Lemma FindElementWithTag_safe t r d : reads_in data r →
  wp (FindElementWithTag fuel t) (fun res x => x = (r, d) ∧ ∀ dest, res = inr dest → reads_in data dest) (r, d).
Proof.
  intros Hr. unfold FindElementWithTag. apply wp_read. cbn [id]. unfold wp, mbind, CM_bind, on_reader. cbn [fst snd].
  pose proof (find_loop_safe fuel t r d Hr (remaining_bound _ Hr)) as H. unfold safe_at, wp in H.
  destruct (Find_loop fuel fuel t (r, d)) as [[res [r' d']]|] eqn:E; [|done]. cbn [fst snd] in H. destruct H as (Hr' & _ & ->). cbn. split; [done|].
  intros dest ->. (* the reader returned is the state of the copy *)
  enough (∀ n r d dest x, Find_loop fuel n t (r, d) = Some (inr dest, x) → x.1 = dest) as H by (apply H in E; cbn in E; by subst).
  clear. induction n as [|n IH]; intros r d dest x; [done|]. cbn [Find_loop]. unfold mbind, CM_bind.
  destruct (Next fuel (r, d)) as [[[e|[]] [r1 d1]]|]; [done| |done]. unfold reader, gets, verify. cbn [fst id].
  destruct (negb _); [|done]. cbn. destruct (t =? GetTag r1); [|apply IH]. unfold mret, CM_ret. naive_solver.
Qed.

Lemma CountRemainingInContainer_safe r d : reads_in data r → wp (CountRemainingInContainer fuel) (fun _ x => x = (r, d)) (r, d).
Proof.
  intros Hr. unfold CountRemainingInContainer. apply wp_read. cbn [id]. destruct (_ =? _); [done|].
  unfold wp, mbind, CM_bind, on_reader. cbn [fst snd].
  pose proof (count_loop_safe fuel 0 r d Hr (remaining_bound _ Hr)) as H. unfold safe_at, wp in H.
  destruct (Count_loop fuel fuel 0 (r, d)) as [[res [r' d']]|]; [|done]. cbn [fst snd] in H. destruct H as (_ & _ & ->). done.
Qed.
(** ** Lengths

    After a successful read of an element the length of a string fits in 32 bits; a
    failed one may leave any 64-bit number behind. *)
Definition string_ready (r : TLVReader) : Prop := TLVTypeIsString (ElementType r) = true → 0 ≤ mElemLenOrVal r < 2 ^ 32.
(** [keeps]: the method leaves it so, whatever its result; [gives]: it makes it so when it succeeds. *)
Definition keeps {A} (m : CM (TLVReader * D) A) : Prop := ∀ r d, reads_in data r → string_ready r → wp m (fun _ x => string_ready x.1) (r, d).
Definition gives {A} (m : CM (TLVReader * D) A) : Prop :=
  ∀ r d, reads_in data r → wp m (fun res x => match res with inr _ => string_ready x.1 | inl _ => True end) (r, d).

Lemma tag_and_rest_ok p b h : bytes_ok h → bytes_ok (tag_and_rest p b h).2.
Proof.
  intros Hh. unfold tag_and_rest, ReadTag. repeat case_match; simplify_eq; cbn [snd]; repeat apply Forall_drop; done.
Qed.

Lemma value_of_range b q : bytes_ok q → TLVTypeHasLength (Z.land b kTLVTypeMask) = true → length_too_long b (value_of b q) = false →
  0 ≤ value_of b q < 2 ^ 32.
Proof.
  intros Hq Hl Hv. set (n := Z.to_nat (TLVFieldSizeToBytes (GetTLVFieldSize (Z.land b kTLVTypeMask)))).
  pose proof (le_val_range (take n q) (Forall_take _ _ _ Hq)) as H. rewrite length_take in H. change (le_val (take n q)) with (value_of b q) in H.
  assert ((n ≤ 4)%nat ∨ GetTLVFieldSize (Z.land b kTLVTypeMask) = kTLVFieldSize_8Byte) as [Hn|Hn].
  { unfold n. unfold TLVTypeHasLength, ElementType_UTF8String_1ByteLength, ElementType_ByteString_8ByteLength in Hl.
    apply andb_true_iff in Hl as [H1%Z.leb_le H2%Z.leb_le]. revert H1 H2. generalize (Z.land b kTLVTypeMask) as t. intros t H1 H2.
    assert (t ∈ seqZ 12 8) as Ht by (apply elem_of_seqZ; lia). clear H1 H2. revert t Ht. apply Forall_forall.
    repeat constructor; vm_compute; intuition lia. }
  - split; [lia|]. eapply Z.lt_le_trans; [apply H|]. change (2 ^ 32) with (256 ^ 4). apply Z.pow_le_mono_r; lia.
  - unfold length_too_long in Hv. rewrite Hn, Hl in Hv. cbn [andb] in Hv. change (kTLVFieldSize_8Byte =? kTLVFieldSize_8Byte) with true in Hv.
    cbn [andb] in Hv. apply Z.ltb_ge in Hv. lia.
Qed.

Lemma gives_ReadElement : gives (ReadElement fuel).
Proof.
  intros r d [p c o ctl tag v l Hl Hc]. unfold wp. destruct l as [|b l]; [by rewrite ReadElement_none|].
  pose proof (suffix_fits _ Hl) as Hfit. pose proof (suffix_bytes _ Hl) as Hb. inversion Hb as [|? ? Hb8 Hbl]; subst.
  destruct (IsValidTLVType (Z.land b kTLVTypeMask)) eqn:Hv; [|by rewrite ReadElement_invalid].
  destruct (decide (head_length b (Z.land b kTLVTypeMask) ≤ Z.of_nat (length (b :: l)))) as [Hle|Hgt].
  2:{ by rewrite ReadElement_short by (done || apply fuel_2 || lia). }
  rewrite ReadElement_full by (done || apply fuel_2). cbv zeta. set (tq := tag_and_rest _ _ _).
  destruct (length_too_long b (value_of b tq.2)) eqn:Hlong; [done|].
  destruct (VerifyElement _); [done|]. cbn [fst]. intros Hs. rewrite ElementType_rd in Hs by done. cbn [rd mElemLenOrVal].
  apply value_of_range; [by apply tag_and_rest_ok, Forall_take|exact Hs|exact Hlong].
Qed.

Lemma ready_bind {A B} (m : CM (TLVReader * D) A) (k : A → CM (TLVReader * D) B) : safe m → keeps m → (∀ a, keeps (k a)) → keeps (m ≫= k).
Proof.
  intros Hs Hm Hk r d Hr Hv. apply wp_bind. pose proof (Hs r d Hr) as H1. specialize (Hm r d Hr Hv). unfold safe_at, wp in *.
  destruct (m (r, d)) as [[[e|a] [r' d']]|]; [done| |done]. cbn [fst snd] in *. destruct H1 as (H1 & _ & ->). by apply Hk.
Qed.
Lemma gives_then {A B} (m : CM (TLVReader * D) A) (k : A → CM (TLVReader * D) B) : safe m → gives m → (∀ a, keeps (k a)) → gives (m ≫= k).
Proof.
  intros Hs Hm Hk r d Hr. apply wp_bind. pose proof (Hs r d Hr) as H1. specialize (Hm r d Hr). unfold safe_at, wp in *.
  destruct (m (r, d)) as [[[e|a] [r' d']]|]; [done| |done]. cbn [fst snd] in *. destruct H1 as (H1 & _ & ->). specialize (Hk a r' d H1 Hm). unfold wp in Hk.
  destruct (k a (r', d)) as [[[e|b] ?]|]; done.
Qed.
Lemma gives_last {A B} (m : CM (TLVReader * D) A) (k : A → CM (TLVReader * D) B) : safe m → (∀ a, gives (k a)) → gives (m ≫= k).
Proof.
  intros Hs Hk r d Hr. apply wp_bind. pose proof (Hs r d Hr) as H1. unfold safe_at, wp in *.
  destruct (m (r, d)) as [[[e|a] [r' d']]|]; [done| |done]. cbn [fst snd] in *. destruct H1 as (H1 & _ & ->). by apply Hk.
Qed.
Lemma gives_if {A} (b : bool) (m1 m2 : CM (TLVReader * D) A) : gives m1 → gives m2 → gives (if b then m1 else m2).
Proof. by destruct b. Qed.
Lemma gives_fail {A} e : gives (fail (A := A) e).
Proof. done. Qed.
Lemma gives_cleared f : (∀ r, mControlByte (f r) = kTLVControlByte_NotSpecified) → gives (set f).
Proof.
  intros Hf r d _. unfold wp, set, modify. cbn [fst snd]. intros H. unfold ElementType in H. rewrite Hf in H.
  by rewrite Z.eqb_refl in H.
Qed.
Lemma ready_if {A} (b : bool) (m1 m2 : CM (TLVReader * D) A) : keeps m1 → keeps m2 → keeps (if b then m1 else m2).
Proof. by destruct b. Qed.
Lemma keeps_still {A} (m : CM (TLVReader * D) A) : (∀ x, ∃ res, m x = Some (res, x)) → keeps m.
Proof. intros Hm r d Hr Hv. destruct (Hm (r, d)) as [res E]. unfold wp. by rewrite E. Qed.
Lemma keeps_set f : (∀ r, (mControlByte (f r) = mControlByte r ∧ (mElemLenOrVal (f r) = mElemLenOrVal r ∨ mElemLenOrVal (f r) = 0))
    ∨ mControlByte (f r) = kTLVControlByte_NotSpecified) → keeps (set f).
Proof.
  intros Hf r d Hr Hv. unfold wp, set, modify. cbn [fst snd]. intros H. unfold string_ready, ElementType in *. destruct (Hf r) as [[E Hl]|E].
  - rewrite E in H. specialize (Hv H). destruct Hl as [-> | ->]; [done|lia].
  - rewrite E, Z.eqb_refl in H. done.
Qed.
Lemma keeps_EnsureData e : keeps (EnsureData e).
Proof.
  intros r d [p c o ctl tag v l Hl Hc] Hv. unfold wp. destruct l as [|b l]; [by rewrite ensure_none|by rewrite ensure_some].
Qed.
Lemma keeps_ReadData n : 0 ≤ n → keeps (ReadData fuel n).
Proof.
  intros Hn r d [p c o ctl tag v l Hl Hc] Hv. pose proof (suffix_fits l Hl) as Hfit. unfold wp.
  destruct (decide (n ≤ Z.of_nat (length l))) as [Hle|Hgt].
  - by rewrite ReadData_full by (done || apply fuel_2 || lia).
  - by rewrite ReadData_short by (done || apply fuel_2 || lia).
Qed.

Ltac still := apply keeps_still; intros ?; by eexists.
(** The data of a string, which clears the length *)
Lemma keeps_string {A} n (k : bytes → CM (TLVReader * D) A) : 0 ≤ n → (∀ bs, keeps (k bs)) →
  keeps (buf ← ReadData fuel n; set (fun r => r <| mElemLenOrVal := 0 |>);; k buf).
Proof.
  intros Hn Hk. apply ready_bind; [by apply safe_ReadData|by apply keeps_ReadData|]. intros buf. apply ready_bind; [safe_steps| |done].
  apply keeps_set. intros r. left. split; [done|by right].
Qed.
Lemma keeps_GetBytes n : keeps (GetBytes fuel n).
Proof.
  unfold GetBytes. apply ready_bind; [safe_steps|still|intros r]. do 2 (apply ready_if; [still|]).
  apply keeps_string; [apply (wrap_range 32); lia|intros bs; still].
Qed.
Lemma keeps_DupBytes alloc : keeps (DupBytes fuel alloc).
Proof.
  unfold DupBytes. apply ready_bind; [safe_steps|still|intros r]. do 2 (apply ready_if; [still|]).
  apply keeps_string; [apply (wrap_range 32); lia|intros bs; still].
Qed.
Lemma keeps_DupString alloc : keeps (DupString fuel alloc).
Proof.
  unfold DupString. apply ready_bind; [safe_steps|still|intros r]. do 3 (apply ready_if; [still|]).
  apply (keeps_string _ (fun bs => mret (bs ++ [0]))); [apply (wrap_range 32); lia|intros bs; still].
Qed.
Lemma keeps_EnterContainer : keeps EnterContainer.
Proof.
  unfold EnterContainer. apply ready_bind; [safe_steps|still|intros r]. apply ready_if; [still|]. apply ready_bind; [safe_steps| |intros; still].
  apply keeps_set. intros r'. by right.
Qed.
Lemma keeps_OpenContainer : keeps OpenContainer.
Proof.
  unfold OpenContainer. apply ready_bind; [safe_steps|still|intros r]. apply ready_if; [still|]. apply ready_bind; [safe_steps| |intros; still].
  apply keeps_set. intros r'. left. split; [done|by left].
Qed.

Lemma gives_ExitContainer c : gives (ExitContainer fuel c).
Proof. apply gives_last; [apply safe_SkipToEndOfContainer|intros _]. by apply gives_cleared. Qed.
Lemma gives_Skip : gives (Skip fuel).
Proof.
  unfold Skip. apply gives_last; [safe_steps|intros ty]. apply gives_if; [done|]. apply gives_if.
  - apply gives_last; [apply safe_EnterContainer|intros c; apply gives_ExitContainer].
  - apply gives_last; [apply safe_SkipData|intros _]. by apply gives_cleared.
Qed.
Lemma gives_Next : gives (Next fuel).
Proof.
  unfold Next. apply gives_last; [apply safe_Skip|intros _]. apply gives_then; [apply safe_ReadElement|apply gives_ReadElement|intros _].
  apply ready_bind; [safe_steps|still|intros r]. apply ready_bind; [safe_steps|apply keeps_still; intros ?; by destruct (negb _); eexists|intros _].
  apply ready_if; [apply keeps_EnsureData|still].
Qed.
Lemma keeps_verify b e : keeps (verify b e).
Proof. destruct b; still. Qed.
Lemma gives_Next_tag t : gives (Next_tag fuel t).
Proof.
  unfold Next_tag. apply gives_then; [apply safe_Next|apply gives_Next|intros _]. apply ready_bind; [safe_steps|still|intros; apply keeps_verify].
Qed.
Lemma gives_Next_type ty t : gives (Next_type fuel ty t).
Proof.
  unfold Next_type. apply gives_then; [apply safe_Next_tag|apply gives_Next_tag|intros _]. apply ready_bind; [safe_steps|still|intros; apply keeps_verify].
Qed.

(** With such a length [GetString] writes inside its buffer. *)
Lemma GetString_ready n r d : reads_in data r → string_ready r →
  wp (GetString fuel n) (fun _ x => reads_in data x.1 ∧ x.2 = d ∧ string_ready x.1) (r, d).
Proof.
  intros Hr Hv. unfold GetString. apply wp_bind. unfold wp at 1, reader, gets. cbn [fst id].
  destruct (TLVTypeIsString (ElementType r)) eqn:Hs; [|done]. specialize (Hv Hs) as Hv'. cbn [negb]. rewrite wrap_small by (unfold in_u; lia).
  destruct (Z.ltb_spec n (mElemLenOrVal r + 1)); [done|]. rewrite (proj2 (Z.leb_gt _ _)) by lia. apply wp_bind.
  pose proof (safe_GetBytes (n - 1) r d Hr) as H1. pose proof (keeps_GetBytes (n - 1) r d Hr Hv) as H2. unfold safe_at, wp in *.
  destruct (GetBytes fuel (n - 1) (r, d)) as [[[e|bs] [r' d']]|]; [..|done]; cbn [fst snd mret CM_ret] in *; by destruct H1 as (? & _ & ?).
Qed.
End safe.

(** ** Sessions *)
(** The calls a program can make; a reader of a container that is closed was opened on
    the same bytes. *)
Inductive call :=
| CNext | CNextTag (expectedTag : Z) | CNextType (expectedType expectedTag : Z) | CSkip | CEnter | CExit (outerContainerType : Z)
| CVerifyEnd | CGetBytes (bufSize : Z) | CGetString (bufSize : Z) | CDupBytes (alloc : Z → bool) | CDupString (alloc : Z → bool)
| CGetDataPtr | CGetByteSpan | CGetFixedByteSpan (N : Z) | CGetCharSpan
| COpen | CClose (containerReader : TLVReader) | CFind (tag : Z) | CCount.

Section session.
Context {D : Type} `{!TLVBackingStore D} (fuel : nat).

(** A program ignores errors, but for one thing: [moved] says whether the last call
    that moves the reader to another element succeeded, and [GetString] is called only
    then ([TlvDemo.GetString_after_error] is what happens otherwise). *)
Definition ignore {A} (m : CM (TLVReader * D) A) (moved : bool) : CM (TLVReader * D) bool := attempt m;; mret moved.
Definition move {A} (m : CM (TLVReader * D) A) : CM (TLVReader * D) bool :=
  res ← attempt m; mret (match res with inr _ => true | inl _ => false end).
(** A const getter with a pointer *)
Definition peek {A} (f : TLVReader → option (CHIP_ERROR + A)) : CM (TLVReader * D) A := fun x => (fun res => (res, x)) <$> f x.1.
Definition run_call (moved : bool) (c : call) : CM (TLVReader * D) bool :=
  match c with
  | CNext => move (Next fuel)
  | CNextTag t => move (Next_tag fuel t)
  | CNextType ty t => move (Next_type fuel ty t)
  | CSkip => move (Skip fuel)
  | CEnter => ignore EnterContainer moved
  | CExit c => move (ExitContainer fuel c)
  | CVerifyEnd => ignore (VerifyEndOfContainer fuel) false
  | CGetBytes n => ignore (GetBytes fuel n) moved
  | CGetString n => if moved then ignore (GetString fuel n) moved else mret moved
  | CDupBytes alloc => ignore (DupBytes fuel alloc) moved
  | CDupString alloc => ignore (DupString fuel alloc) moved
  | CGetDataPtr => ignore (peek GetDataPtr) moved
  | CGetByteSpan => ignore (peek Get_ByteSpan) moved
  | CGetFixedByteSpan N => ignore (peek (Get_FixedByteSpan N)) moved
  | CGetCharSpan => ignore (peek Get_CharSpan) moved
  | COpen => ignore OpenContainer moved
  | CClose c => closed ← CloseContainer fuel c; mret (match fst closed with inr _ => true | inl _ => false end)
  | CFind t => ignore (FindElementWithTag fuel t) moved
  | CCount => ignore (CountRemainingInContainer fuel) moved
  end.
Fixpoint run_calls (moved : bool) (l : list call) : CM (TLVReader * D) unit :=
  match l with [] => mret tt | c :: l => moved ← run_call moved c; run_calls moved l end.
End session.

Definition call_ok (data : bytes) (c : call) : Prop := match c with CClose r => reads_in data r | _ => True end.

Section returns.
Context {D : Type} `{!TLVBackingStore D} (data : bytes) (fuel : nat).
Context (Hdata : bytes_ok data) (Hlen : Z.of_nat (length data) < 2 ^ 32) (Hfuel : (length data + 2 ≤ fuel)%nat).

(** What holds between two calls *)
Definition between (d : D) (res : CHIP_ERROR + bool) (x : TLVReader * D) : Prop :=
  reads_in data x.1 ∧ x.2 = d ∧ ∃ moved, res = inr moved ∧ (moved = true → string_ready x.1).

Lemma ignore_keeps {A} (m : CM (TLVReader * D) A) moved r d : safe data m → keeps data m → reads_in data r → (moved = true → string_ready r) →
  wp (ignore m moved) (between d) (r, d).
Proof.
  intros Hs Hk Hr Hm. apply wp_bind, wp_attempt. pose proof (Hs r d Hr) as H1. assert (moved = true → wp m (fun _ x => string_ready x.1) (r, d)) as H2 by eauto.
  unfold safe_at, wp in *. destruct (m (r, d)) as [[res [r' d']]|]; [|done]. destruct H1 as (? & _ & ?). split_and!; [done..|by exists moved].
Qed.

Lemma ignore_forgets {A} (m : CM (TLVReader * D) A) r d : safe data m → reads_in data r → wp (ignore m false) (between d) (r, d).
Proof.
  intros Hs Hr. apply wp_bind, wp_attempt. eapply wp_mono; [by apply Hs|]. intros res x (? & _ & ?). split_and!; [done..|by exists false].
Qed.

Lemma ignore_still {A} (m : CM (TLVReader * D) A) moved r d : wp m (fun _ x => x = (r, d)) (r, d) → reads_in data r → (moved = true → string_ready r) →
  wp (ignore m moved) (between d) (r, d).
Proof. intros Hm Hr Hv. apply wp_bind, wp_attempt. eapply wp_mono; [exact Hm|]. intros res x ->. split_and!; [done..|by exists moved]. Qed.

Lemma move_gives {A} (m : CM (TLVReader * D) A) r d : safe data m → gives data m → reads_in data r → wp (move m) (between d) (r, d).
Proof.
  intros Hs Hg Hr. apply wp_bind, wp_attempt. pose proof (Hs r d Hr) as H1. pose proof (Hg r d Hr) as H2. unfold safe_at, wp in *.
  destruct (m (r, d)) as [[[e|a] [r' d']]|]; [..|done]; destruct H1 as (? & _ & ?); (split_and!; [done..|by eexists]).
Qed.

(** The read point is in the buffer: the pointer getters return. *)
Lemma peek_still {A} (f : TLVReader → option (CHIP_ERROR + A)) r (d : D) : is_Some (f r) → wp (peek f) (fun _ x => x = (r, d)) (r, d).
Proof. intros [res E]. unfold wp, peek. cbn [fst]. by rewrite E. Qed.
Lemma GetDataPtr_returns r : reads_in data r → is_Some (GetDataPtr r).
Proof. intros [p c o ctl tag v l Hl Hc]. unfold GetDataPtr. cbn [rd mReadPoint]. repeat case_match; done. Qed.
Lemma pointer_getters_return r : reads_in data r → is_Some (Get_ByteSpan r) ∧ (∀ N, is_Some (Get_FixedByteSpan N r)) ∧ is_Some (Get_CharSpan r).
Proof.
  intros [res E]%GetDataPtr_returns. unfold Get_ByteSpan, Get_FixedByteSpan, Get_CharSpan. rewrite E. split_and!; [|intros N|]; repeat case_match; done.
Qed.

Lemma close_gives c moved r d : reads_in data c → reads_in data r → wp (run_call fuel moved (CClose c)) (between d) (r, d).
Proof using Hdata Hlen Hfuel.
  intros Hc Hr. cbn [run_call]. apply wp_bind. unfold CloseContainer. apply wp_bind. unfold wp at 1, reader, gets. cbn [fst id].
  destruct (negb _); [by split_and!; [..|eexists]|]. destruct (negb _); [by split_and!; [..|eexists]|]. apply wp_bind.
  eapply wp_mono; [by apply (on_reader_safe data); [apply safe_SkipToEndOfContainer|..]|].
  intros res x [-> (a & c' & -> & Hc' & _)]. destruct a as [e|?]; [by split_and!; [..|eexists]|].
  destruct Hr as [p cc o ctl tag v l Hl _]. destruct Hc' as [p' c0 o' ctl' tag' v' l' Hl' _]. split; [|split; [done|by eexists]].
  change (reads_in data (rd p (Z.of_nat (length data)) cc o kTLVControlByte_NotSpecified AnonymousTag 0 l')). constructor; [done|by left].
Qed.

Lemma run_call_safe moved c r d : call_ok data c → reads_in data r → (moved = true → string_ready r) → wp (run_call fuel moved c) (between d) (r, d).
Proof using Hdata Hlen Hfuel.
  intros Hok Hr Hv. destruct (pointer_getters_return r Hr) as (Hb & Hf & Hch). pose proof (GetDataPtr_returns r Hr) as Hp.
  destruct c; cbn [run_call].
  all: try (apply move_gives; eauto using safe_Next, safe_Next_tag, safe_Next_type, safe_Skip, safe_ExitContainer,
    gives_Next, gives_Next_tag, gives_Next_type, gives_Skip, gives_ExitContainer; fail).
  all: try (apply ignore_keeps; eauto using safe_EnterContainer, safe_GetBytes, safe_DupBytes, safe_DupString, safe_OpenContainer,
    keeps_EnterContainer, keeps_GetBytes, keeps_DupBytes, keeps_DupString, keeps_OpenContainer; fail).
  all: try (apply ignore_still; [by apply peek_still|done|done]).
  - apply ignore_forgets; [by apply safe_VerifyEndOfContainer|done].
  - destruct moved; [|by split_and!; [..|exists false]]. apply wp_bind, wp_attempt.
    eapply wp_mono; [by apply GetString_ready; auto|]. intros res x (? & ? & ?). split_and!; [done..|by exists true].
  - by apply close_gives.
  - apply ignore_still; [|done..]. eapply wp_mono; [by apply (FindElementWithTag_safe data)|]. by intros res x [-> _].
  - apply ignore_still; [|done..]. by apply (CountRemainingInContainer_safe data).
Qed.

Lemma run_calls_safe l : ∀ moved r d, Forall (call_ok data) l → reads_in data r → (moved = true → string_ready r) →
  wp (run_calls fuel moved l) (fun res x => res = inr tt ∧ reads_in data x.1 ∧ x.2 = d) (r, d).
Proof using Hdata Hlen Hfuel.
  induction l as [|c l IH]; intros moved r d Hl Hr Hv; [done|]. inversion Hl; subst. cbn [run_calls]. apply wp_bind.
  eapply wp_mono; [by apply run_call_safe|]. intros res [r' d'] (Hr' & Hd & m & -> & Hm). cbn [fst snd] in *. subst d'. by apply IH.
Qed.
End returns.

Lemma init_reads_in data : Z.of_nat (length data) < 2 ^ 32 → reads_in data (Init data).
Proof.
  intros Hlen. assert (Init data = rd kProfileIdNotSpecified (Z.of_nat (length data)) kTLVType_NotSpecified false kTLVControlByte_NotSpecified AnonymousTag 0 data) as ->.
  { unfold Init, rd. rewrite Z.min_l by lia. rewrite Nat2Z.id, firstn_all. f_equal. lia. }
  constructor; [done|by left].
Qed.

