(* ===== verification/TlvEncoding.v ===== *)
(** * TlvEncoding: elements as trees and their encoding

    A [tlv] is an element with its value, or a container with its elements.  [encode] is
    their encoding, with the head as the writer builds it and integers in the smallest
    size; [tlv_ok] says which trees can be encoded inside a container.  The lemmas
    read one head back. *)
From S2P Require Import Prelude ChipError StateError Tlv TlvReader TlvReading.
From S2P Require TlvWriter.
#[local] Existing Instance TlvWriter.eta_writer.

(** ** Tags *)
Lemma lnot_u32 x : in_u 32 x → u32 (Z.lnot x) = 2 ^ 32 - 1 - x.
Proof.
  intros Hx. unfold in_u in Hx. change (Z.lnot x) with (Z.pred (- x)). unfold wrap.
  rewrite <- (Z_mod_plus_full _ 1). rewrite Z.mod_small; lia.
Qed.

Lemma ProfileIdFromTag_eq tag : in_u 64 tag → ProfileIdFromTag tag = 2 ^ 32 - 1 - tag / 2 ^ 32.
Proof.
  intros Ht. unfold ProfileIdFromTag, kProfileIdShift. rewrite Z.shiftr_div_pow2 by done.
  assert (in_u 32 (tag / 2 ^ 32)) as H.
  { unfold in_u in *. split; [apply Z.div_pos; lia|apply Z.div_lt_upper_bound; lia]. }
  rewrite (wrap_small 32 (tag / _)) by done. by apply lnot_u32.
Qed.

Lemma ProfileTag_eq pid n : in_u 32 pid → in_u 32 n → ProfileTag pid n = (2 ^ 32 - 1 - pid) * 2 ^ 32 + n.
Proof.
  intros Hp Hn. unfold ProfileTag, kProfileIdShift. rewrite lnot_u32 by done. rewrite Z.shiftl_mul_pow2 by done.
  rewrite wrap_small by (unfold in_u in *; lia). by apply lor_disjoint.
Qed.

Lemma profile_range tag : in_u 64 tag → in_u 32 (ProfileIdFromTag tag).
Proof.
  intros Ht. rewrite ProfileIdFromTag_eq by done. unfold in_u in *. pose proof (Z.div_pos tag (2 ^ 32)). pose proof (Z.div_lt_upper_bound tag (2 ^ 32) (2 ^ 32)). lia.
Qed.
Lemma tagnum_range tag : in_u 32 (TagNumFromTag tag).
Proof. by apply wrap_range. Qed.

(** A tag is its profile and its number. *)
Lemma tag_parts tag : in_u 64 tag → ProfileTag (ProfileIdFromTag tag) (TagNumFromTag tag) = tag.
Proof.
  intros Ht. rewrite ProfileTag_eq by eauto using profile_range, tagnum_range. rewrite ProfileIdFromTag_eq by done.
  unfold TagNumFromTag, wrap. pose proof (Z.div_mod tag (2 ^ 32)). lia.
Qed.

Lemma vendor_parts pid n : in_u 32 pid → VendorProfileTag (u16 (Z.shiftr pid 16)) (u16 pid) n = ProfileTag pid n.
Proof.
  intros Hp. unfold VendorProfileTag, kVendorIdShift, kProfileIdShift. change (48 - 32) with 16. f_equal.
  rewrite Z.shiftr_div_pow2, Z.shiftl_mul_pow2 by done. unfold in_u in Hp.
  assert (in_u 16 (pid / 2 ^ 16)). { unfold in_u. split; [apply Z.div_pos; lia|apply Z.div_lt_upper_bound; lia]. }
  rewrite (wrap_small 16 (pid / _)) by done. unfold in_u in *. rewrite (wrap_small 32) by (unfold in_u; lia).
  rewrite lor_disjoint; [|lia|apply (wrap_range 16); lia]. unfold wrap. pose proof (Z.div_mod pid (2 ^ 16)). lia.
Qed.

Lemma ProfileId_ProfileTag pid n : in_u 32 pid → in_u 32 n → ProfileIdFromTag (ProfileTag pid n) = pid.
Proof.
  intros Hp Hn. rewrite ProfileTag_eq by done. unfold in_u in *. rewrite ProfileIdFromTag_eq by (unfold in_u; lia).
  rewrite Z.div_add_l by lia. rewrite Z.div_small by lia. lia.
Qed.
Lemma TagNum_ProfileTag pid n : in_u 32 pid → in_u 32 n → TagNumFromTag (ProfileTag pid n) = n.
Proof.
  intros Hp Hn. rewrite ProfileTag_eq by done. unfold TagNumFromTag, wrap, in_u in *. rewrite Z.add_comm, Z_mod_plus_full. by apply Z.mod_small.
Qed.

(** Tags that a program can make: the special profile has the context tags and the
    anonymous tag. *)
Definition tag_ok (tag : Z) : Prop := in_u 64 tag ∧ (IsSpecialTag tag = true → TagNumFromTag tag ≤ kAnonymousTagNum).
#[export] Instance tag_ok_dec tag : Decision (tag_ok tag).
Proof. unfold tag_ok. apply _. Defined.

(** The elements that a container may have, by their tag *)
Definition admits (container tag : Z) : bool :=
  if container =? kTLVType_NotSpecified then negb (IsContextTag tag)
  else if container =? kTLVType_Structure then negb (tag =? AnonymousTag)
  else if container =? kTLVType_Array then tag =? AnonymousTag
  else true.

Lemma special_tag tag : tag_ok tag → IsSpecialTag tag = true →
  (IsContextTag tag = true ∧ TagNumFromTag tag ≤ 255 ∧ tag = ContextTag (TagNumFromTag tag) ∧ tag ≠ AnonymousTag)
  ∨ (IsContextTag tag = false ∧ TagNumFromTag tag = 256 ∧ tag = AnonymousTag).
Proof.
  intros [Ht Hn] Hs. specialize (Hn Hs). unfold IsContextTag. unfold IsSpecialTag in Hs. rewrite Hs. cbn [andb].
  pose proof (tag_parts tag Ht) as Hp. apply Z.eqb_eq in Hs. rewrite Hs in Hp. unfold kAnonymousTagNum, kContextTagMaxNum in *.
  pose proof (tagnum_range tag) as Hr. unfold in_u in Hr. destruct (Z.leb_spec (TagNumFromTag tag) 255); [left|right]; split_and!; try done; try lia.
  - intros ->. change (TagNumFromTag AnonymousTag) with 256 in *. lia.
  - rewrite <- Hp. unfold AnonymousTag, kAnonymousTagNum. f_equal. lia.
Qed.

Lemma not_special tag : in_u 64 tag → IsSpecialTag tag = false → IsContextTag tag = false ∧ tag ≠ AnonymousTag ∧ tag ≠ UnknownImplicitTag.
Proof.
  intros Ht Hs. unfold IsContextTag. unfold IsSpecialTag in Hs. rewrite Hs. split; [done|].
  split; intros ->; vm_compute in Hs; done.
Qed.

Lemma ok_not_unknown tag : tag_ok tag → tag ≠ UnknownImplicitTag.
Proof. intros [_ H] ->. specialize (H eq_refl). vm_compute in H. done. Qed.

(** ** Heads *)
Definition writer_of (p : Z) : TlvWriter.TLVWriter := (TlvWriter.Init [] 0) <| TlvWriter.ImplicitProfileId := p |>.
(** The head of an element; of the writer it takes the implicit profile. *)
Definition head (p elemType tag lenOrVal : Z) : bytes := TlvWriter.head_bytes elemType tag lenOrVal (writer_of p).

Lemma head_bytes_head elemType tag lenOrVal w : TlvWriter.head_bytes elemType tag lenOrVal w = head (TlvWriter.ImplicitProfileId w) elemType tag lenOrVal.
Proof. done. Qed.

Lemma take_le n x q : take n (le_bytes n x ++ q) = le_bytes n x.
Proof. rewrite <- (length_le_bytes n x) at 1. by rewrite take_app_length. Qed.
Lemma drop_le n x q : drop n (le_bytes n x ++ q) = q.
Proof. rewrite <- (length_le_bytes n x) at 1. by rewrite drop_app_length. Qed.
Lemma read_le n x q : in_u (8 * Z.of_nat n) x → le_val (take n (le_bytes n x ++ q)) = x.
Proof. intros Hx. rewrite take_le. apply le_val_bytes. unfold in_u in Hx. by rewrite Z.pow_mul_r in Hx by lia. Qed.

Definition control_of (p tag : Z) : Z := (TlvWriter.tag_bytes tag (writer_of p)).1.
Definition tag_field (p tag : Z) : bytes := (TlvWriter.tag_bytes tag (writer_of p)).2.

Lemma small_u16 x : 0 ≤ x → x < 65536 → in_u 16 x.
Proof. unfold in_u. change (2 ^ 16) with 65536. lia. Qed.

Lemma read_common_2 q r : ReadTag TagControl_CommonProfile_2Bytes q r = (CommonTag (le_val (take 2 q)), drop 2 q).
Proof. done. Qed.
Lemma read_common_4 q r : ReadTag TagControl_CommonProfile_4Bytes q r = (CommonTag (le_val (take 4 q)), drop 4 q).
Proof. done. Qed.
Lemma read_implicit_2 q r : ImplicitProfileId r ≠ kProfileIdNotSpecified →
  ReadTag TagControl_ImplicitProfile_2Bytes q r = (ProfileTag (ImplicitProfileId r) (le_val (take 2 q)), drop 2 q).
Proof. intros H%Z.eqb_neq. unfold ReadTag. by rewrite H. Qed.
Lemma read_implicit_4 q r : ImplicitProfileId r ≠ kProfileIdNotSpecified →
  ReadTag TagControl_ImplicitProfile_4Bytes q r = (ProfileTag (ImplicitProfileId r) (le_val (take 4 q)), drop 4 q).
Proof. intros H%Z.eqb_neq. unfold ReadTag. by rewrite H. Qed.
Lemma read_fq_6 q r : ReadTag TagControl_FullyQualified_6Bytes q r =
  (VendorProfileTag (le_val (take 2 q)) (le_val (take 2 (drop 2 q))) (le_val (take 2 (drop 2 (drop 2 q)))), drop 2 (drop 2 (drop 2 q))).
Proof. done. Qed.
Lemma read_fq_8 q r : ReadTag TagControl_FullyQualified_8Bytes q r =
  (VendorProfileTag (le_val (take 2 q)) (le_val (take 2 (drop 2 q))) (le_val (take 4 (drop 2 (drop 2 q)))), drop 4 (drop 2 (drop 2 q))).
Proof. done. Qed.
Ltac field_range := assumption || (apply small_u16; lia) || (apply (wrap_range 16); lia).

(** What the writer puts into the tag field is what the reader takes from it. *)
Lemma tag_roundtrip p tag q r : tag_ok tag → ImplicitProfileId r = p →
  ReadTag (control_of p tag) (tag_field p tag ++ q) r = (tag, q).
Proof.
  intros Hok Hp. pose proof (tagnum_range tag) as Hn. pose proof Hok as [Ht _]. pose proof (profile_range tag Ht) as Hpr.
  pose proof (tag_parts tag Ht) as Hparts. unfold control_of, tag_field, TlvWriter.tag_bytes.
  destruct (IsSpecialTag tag) eqn:Hs.
  { destruct (special_tag tag Hok Hs) as [(_ & Hle & Hc & _)|(_ & H256 & ->)]; [|done].
    rewrite (proj2 (Z.leb_le _ kContextTagMaxNum)) by done. cbn [fst snd]. unfold ReadTag.
    rewrite (wrap_small 8) by (unfold in_u in *; change (2 ^ 8) with 256; lia). rewrite read_le, drop_le by (unfold in_u in *; change (2 ^ (8 * Z.of_nat 1)) with 256; lia).
    by rewrite <- Hc. }
  cbn [writer_of TlvWriter.Init TlvWriter.ImplicitProfileId update].
  assert (ProfileIdFromTag tag ≠ kProfileIdNotSpecified) as Hns by (unfold IsSpecialTag in Hs; by apply Z.eqb_neq in Hs).
  set (n := TagNumFromTag tag) in *. pose proof Hn as [Hn0 Hn1].
  destruct (Z.eqb_spec (ProfileIdFromTag tag) kCommonProfileId) as [Hc|Hc]; [|destruct (Z.eqb_spec (ProfileIdFromTag tag) p) as [Hi|Hi]];
    (destruct (Z.ltb_spec n 65536) as [Hlt|Hge]; [rewrite ?(wrap_small 16 n) by (apply small_u16; lia)|]); cbn [fst snd].
  - rewrite read_common_2, drop_le, read_le by field_range. unfold CommonTag. by rewrite <- Hc, Hparts.
  - rewrite read_common_4, drop_le, read_le by field_range. unfold CommonTag. by rewrite <- Hc, Hparts.
  - rewrite read_implicit_2, drop_le, read_le by (field_range || congruence). by rewrite Hp, <- Hi, Hparts.
  - rewrite read_implicit_4, drop_le, read_le by (field_range || congruence). by rewrite Hp, <- Hi, Hparts.
  - rewrite read_fq_6, <- !app_assoc, !drop_le, !read_le by field_range. by rewrite vendor_parts, Hparts.
  - rewrite read_fq_8, <- !app_assoc, !drop_le, !read_le by field_range. by rewrite vendor_parts, Hparts.
Qed.

(** The bytes of the length or value of an element type *)
Definition width (elemType : Z) : Z := TLVFieldSizeToBytes (GetTLVFieldSize elemType).
Definition control_byte (p elemType tag : Z) : Z := Z.lor (control_of p tag) (u8 elemType).

Lemma head_eq p et tag x : head p et tag x = control_byte p et tag :: tag_field p tag ++ TlvWriter.value_bytes et x.
Proof. unfold head, TlvWriter.head_bytes, control_byte, control_of, tag_field. by destruct (TlvWriter.tag_bytes _ _). Qed.

Lemma control_cases p tag :
  ∃ k, 0 ≤ k < 8 ∧ control_of p tag = 32 * k ∧ Z.of_nat (length (tag_field p tag)) = default 0 (sTagSizes !! Z.to_nat k).
Proof.
  unfold control_of, tag_field, TlvWriter.tag_bytes. repeat case_match; cbn [fst snd]; rewrite ?length_app, ?length_le_bytes;
    first [by exists 0 | by exists 1 | by exists 2 | by exists 3 | by exists 4 | by exists 5 | by exists 6 | by exists 7].
Qed.

(** A control byte is its two fields. *)
Lemma control_byte_fields k et : 0 ≤ k < 8 → 0 ≤ et ≤ 24 →
  let b := Z.lor (32 * k) (u8 et) in
  in_u 8 b ∧ Z.land b kTLVTypeMask = et ∧ Z.land b kTLVTagControlMask = 32 * k ∧ Z.shiftr (32 * k) kTLVTagControlShift = k.
Proof.
  intros Hk He.
  pose (P := fun b => let b' := Z.lor (32 * (b / 32)) (u8 (b mod 32)) in
    (0 <=? b') && (b' <? 256) && (Z.land b' kTLVTypeMask =? b mod 32) && (Z.land b' kTLVTagControlMask =? 32 * (b / 32))
    && (Z.shiftr (32 * (b / 32)) kTLVTagControlShift =? b / 32)).
  assert (P (32 * k + et) = true) as H.
  { apply (byte_forall P); [by vm_compute|]. unfold in_u. change (2 ^ 8) with 256. lia. }
  unfold P in H. replace ((32 * k + et) / 32) with k in H by (rewrite Z.mul_comm, Z.div_add_l, Z.div_small; lia).
  replace ((32 * k + et) mod 32) with et in H by (rewrite Z.mul_comm, Z.add_comm, Z_mod_plus_full, Z.mod_small; lia).
  cbv zeta in *. unfold in_u. change (2 ^ 8) with 256. rewrite !andb_true_iff in H. lia.
Qed.

Lemma width_cases et : width et = 0 ∧ TlvWriter.value_bytes et = (fun _ => []) ∨
  width et = 1 ∧ TlvWriter.value_bytes et = (fun x => le_bytes 1 (u8 x)) ∨ width et = 2 ∧ TlvWriter.value_bytes et = (fun x => le_bytes 2 (u16 x)) ∨
  width et = 4 ∧ TlvWriter.value_bytes et = (fun x => le_bytes 4 (u32 x)) ∨ width et = 8 ∧ TlvWriter.value_bytes et = le_bytes 8.
Proof.
  unfold width, TlvWriter.value_bytes, GetTLVFieldSize. destruct (TLVTypeHasValue et); [|by left].
  assert (0 ≤ Z.land (u8 et) kTLVTypeSizeMask < 4) as H.
  { change kTLVTypeSizeMask with (Z.ones 2). rewrite Z.land_ones by done. apply Z.mod_pos_bound. done. }
  generalize dependent (Z.land (u8 et) kTLVTypeSizeMask). intros z Hz.
  assert (z = 0 ∨ z = 1 ∨ z = 2 ∨ z = 3) as [-> | [-> | [-> | ->]]] by lia; cbn; naive_solver.
Qed.

Lemma length_value_bytes et x : Z.of_nat (length (TlvWriter.value_bytes et x)) = width et.
Proof. destruct (width_cases et) as [[-> ->]|[[-> ->]|[[-> ->]|[[-> ->]|[-> ->]]]]]; by rewrite ?length_le_bytes. Qed.

Lemma value_roundtrip et x q : in_u (8 * width et) x → le_val (take (Z.to_nat (width et)) (TlvWriter.value_bytes et x ++ q)) = x.
Proof.
  destruct (width_cases et) as [[-> ->]|[[-> ->]|[[-> ->]|[[-> ->]|[-> ->]]]]]; intros Hx.
  - unfold in_u in Hx. change (2 ^ (8 * 0)) with 1 in Hx. change (0 = x). lia.
  - change (in_u 8 x) in Hx. rewrite wrap_small by done. by apply read_le.
  - change (in_u 16 x) in Hx. rewrite wrap_small by done. by apply read_le.
  - change (in_u 32 x) in Hx. rewrite wrap_small by done. by apply read_le.
  - by apply read_le.
Qed.

Lemma value_drop et x q : drop (Z.to_nat (width et)) (TlvWriter.value_bytes et x ++ q) = q.
Proof. rewrite <- (length_value_bytes et x), Nat2Z.id. apply drop_app_length. Qed.

Section heads.
Context {D : Type} `{!TLVBackingStore D} (fuel : nat) (Hfuel : (2 ≤ fuel)%nat).

Lemma head_length_eq p et tag : 0 ≤ et ≤ 24 → head_length (control_byte p et tag) et = 1 + Z.of_nat (length (tag_field p tag)) + width et.
Proof.
  intros He. destruct (control_cases p tag) as (k & Hk & Hc & Hl). unfold control_byte, head_length. rewrite Hc.
  destruct (control_byte_fields k et Hk He) as (_ & _ & -> & ->). by rewrite Hl.
Qed.

Lemma control_byte_spec p et tag : 0 ≤ et ≤ 24 →
  in_u 8 (control_byte p et tag) ∧ Z.land (control_byte p et tag) kTLVTypeMask = et ∧ Z.land (control_byte p et tag) kTLVTagControlMask = control_of p tag.
Proof.
  intros He. destruct (control_cases p tag) as (k & Hk & Hc & _). unfold control_byte. rewrite Hc.
  destruct (control_byte_fields k et Hk He) as (? & ? & ? & _). done.
Qed.

(** One head is read back. *)
Lemma read_head p m c o ctl tg v et tag x q (d : D) :
  fits m (head p et tag x ++ q) → tag_ok tag → 0 ≤ et ≤ 24 → in_u (8 * width et) x → (TLVTypeHasLength et = true → x ≤ 2 ^ 32 - 1) →
  ReadElement fuel (rd p m c o ctl tg v (head p et tag x ++ q), d) =
  Some (VerifyElement (rd p m c o (control_byte p et tag) tag x q), (rd p m c o (control_byte p et tag) tag x q, d)).
Proof using Hfuel.
  intros Hfit Hok He Hx Hlen. rewrite head_eq in *. cbn [app] in *. destruct (control_byte_spec p et tag He) as (Hb & Ht & Hc).
  rewrite ReadElement_full; try done; rewrite ?Ht.
  - rewrite head_length_eq by done. set (n := length (tag_field p tag)).
    replace (Z.to_nat (1 + Z.of_nat n + width et) - 1)%nat with (n + Z.to_nat (width et))%nat
      by (pose proof (length_value_bytes et x); lia).
    rewrite <- app_assoc. unfold tag_and_rest. rewrite Hc.
    rewrite take_app_add' by done. rewrite tag_roundtrip by done. cbn [fst snd].
    unfold value_of, length_too_long. rewrite Ht. fold (width et).
    rewrite take_take, Nat.min_id. rewrite value_roundtrip by done.
    rewrite <- drop_drop, drop_app_length', value_drop by done.
    destruct (TLVTypeHasLength et); [|by rewrite andb_false_r].
    rewrite (proj2 (Z.ltb_ge _ _)) by (by apply Hlen). by rewrite andb_false_r.
  - unfold IsValidTLVType, ElementType_EndOfContainer. lia.
  - rewrite head_length_eq by done. cbn [length]. rewrite !length_app. pose proof (length_value_bytes et x). lia.
Qed.
End heads.
