(* ===== verification/TlvTree.v ===== *)
(** * TlvTree: reading an encoded tree

    The trees with their encoding, and what [Next], [Skip], [EnterContainer] and
    [ExitContainer] do on it: [Next] stops at each element of a container in turn,
    skipping is leaving out the whole encoding of an element. *)
From S2P Require Import Prelude ChipError StateError Tlv TlvReader TlvReading TlvEncoding.

Inductive value :=
| Signed (z : Z) | Unsigned (n : Z) | Boolean (b : bool) | Float32 (bits : Z) | Float64 (bits : Z)
| Utf8 (s : bytes) | Octets (s : bytes) | Null.

Inductive tlv :=
| Element (tag : Z) (v : value)
| Container (tag containerType : Z) (elements : list tlv).

Fixpoint tlv_rect' (P : tlv → Prop) (HE : ∀ tag v, P (Element tag v)) (HC : ∀ tag t es, Forall P es → P (Container tag t es)) (e : tlv) : P e :=
  match e with
  | Element tag v => HE tag v
  | Container tag t es =>
      HC tag t es ((fix go l : Forall P l := match l with [] => Forall_nil_2 _ | e :: l => Forall_cons_2 _ _ _ (tlv_rect' P HE HC e) (go l) end) es)
  end.

(** ** The encoding *)
Definition size_index (n : Z) : Z := if n <=? 255 then 0 else if n <=? 65535 then 1 else if n <=? 2 ^ 32 - 1 then 2 else 3.
Definition signed_index (z : Z) : Z :=
  if (-128 <=? z) && (z <=? 127) then 0 else if (-32768 <=? z) && (z <=? 32767) then 1
  else if (- 2 ^ 31 <=? z) && (z <=? 2 ^ 31 - 1) then 2 else 3.
Definition value_type (v : value) : Z :=
  match v with
  | Signed z => ElementType_Int8 + signed_index z
  | Unsigned n => ElementType_UInt8 + size_index n
  | Boolean b => if b then ElementType_BooleanTrue else ElementType_BooleanFalse
  | Float32 _ => ElementType_FloatingPointNumber32
  | Float64 _ => ElementType_FloatingPointNumber64
  | Utf8 s => ElementType_UTF8String_1ByteLength + size_index (Z.of_nat (length s))
  | Octets s => ElementType_ByteString_1ByteLength + size_index (Z.of_nat (length s))
  | Null => ElementType_Null
  end.
Definition value_raw (v : value) : Z :=
  match v with
  | Signed z => wrap (8 * width (value_type (Signed z))) z
  | Unsigned n => n
  | Float32 x | Float64 x => x
  | Utf8 s | Octets s => Z.of_nat (length s)
  | Boolean _ | Null => 0
  end.
Definition value_payload (v : value) : bytes := match v with Utf8 s | Octets s => s | _ => [] end.

Definition value_ok (v : value) : Prop :=
  match v with
  | Signed z => - 2 ^ 63 ≤ z < 2 ^ 63
  | Unsigned n => in_u 64 n
  | Float32 x => in_u 32 x
  | Float64 x => in_u 64 x
  | Utf8 s | Octets s => Z.of_nat (length s) < 2 ^ 32
  | Boolean _ | Null => True
  end.
#[export] Instance value_ok_dec v : Decision (value_ok v).
Proof. destruct v; cbn; apply _. Defined.

Definition end_marker : bytes := [ElementType_EndOfContainer].
Fixpoint encode (p : Z) (e : tlv) : bytes :=
  match e with
  | Element tag v => head p (value_type v) tag (value_raw v) ++ value_payload v
  | Container tag t es => head p t tag 0 ++ (es ≫= encode p) ++ end_marker
  end.
Definition encode_all (p : Z) (es : list tlv) : bytes := es ≫= encode p.

(** The heads of a tree, end markers included *)
Fixpoint heads (e : tlv) : nat :=
  match e with Element _ _ => 1 | Container _ _ es => S (S (foldr (fun e n => heads e + n)%nat 0%nat es)) end.
Definition heads_all (es : list tlv) : nat := foldr (fun e n => heads e + n)%nat 0%nat es.

Fixpoint tlv_ok (container : Z) (e : tlv) : Prop :=
  match e with
  | Element tag v => tag_ok tag ∧ admits container tag = true ∧ value_ok v
  | Container tag t es =>
      tag_ok tag ∧ admits container tag = true ∧ TLVTypeIsContainer t = true
      ∧ foldr (fun e P => tlv_ok t e ∧ P) True es
  end.
Definition all_ok (container : Z) (es : list tlv) : Prop := foldr (fun e P => tlv_ok container e ∧ P) True es.

#[export] Instance tlv_ok_dec : ∀ container e, Decision (tlv_ok container e).
Proof.
  fix go 2. intros container [tag v|tag t es]; cbn; [clear go; apply _|].
  assert (Decision (foldr (fun e P => tlv_ok t e ∧ P) True es)) as H; [|clear go; apply _].
  induction es as [|e es IH]; cbn; [by left|]. apply and_dec; [apply go|exact IH].
Defined.
#[export] Instance all_ok_dec container es : Decision (all_ok container es).
Proof. induction es as [|e es IH]; cbn; [apply _|]. apply and_dec; [apply _|exact IH]. Defined.

Definition tlv_tag (e : tlv) : Z := match e with Element tag _ | Container tag _ _ => tag end.
Definition tlv_type (e : tlv) : Z := match e with Element _ v => value_type v | Container _ t _ => t end.
Definition tlv_raw (e : tlv) : Z := match e with Element _ v => value_raw v | Container _ _ _ => 0 end.
Lemma heads_le p c es : all_ok c es → (heads_all es ≤ length (encode_all p es))%nat.
Proof.
  assert (∀ e, (heads e ≤ length (encode p e))%nat) as H.
  { apply tlv_rect'.
    - intros tag v. cbn. rewrite head_eq. cbn. lia.
    - intros tag t es' IH. cbn. rewrite head_eq. cbn. rewrite !length_app. cbn.
      assert (foldr (λ e n, heads e + n)%nat 0%nat es' ≤ length (es' ≫= encode p))%nat; [|lia].
      induction IH as [|e l He _ IHl]; cbn; [lia|]. rewrite length_app. lia. }
  intros _. induction es as [|e es IH]; cbn; [lia|]. rewrite length_app. specialize (H e). unfold heads_all, encode_all in IH. lia.
Qed.

(** What follows the head *)
Definition tlv_body (p : Z) (e : tlv) : bytes :=
  match e with Element _ v => value_payload v | Container _ _ es => encode_all p es ++ end_marker end.

Lemma encode_head p e : encode p e = head p (tlv_type e) (tlv_tag e) (tlv_raw e) ++ tlv_body p e.
Proof. by destruct e. Qed.
Lemma encode_cons p e es : encode_all p (e :: es) = encode p e ++ encode_all p es.
Proof. done. Qed.

Lemma size_index_range n : 0 ≤ size_index n ≤ 3.
Proof. unfold size_index. repeat case_match; lia. Qed.
Lemma signed_index_range n : 0 ≤ signed_index n ≤ 3.
Proof. unfold signed_index. repeat case_match; lia. Qed.

Lemma value_type_range v : 0 ≤ value_type v ≤ 20.
Proof.
  destruct v as [z|n|b| | |s|s|]; cbn;
    [pose proof (signed_index_range z)|pose proof (size_index_range n)|destruct b| | |pose proof (size_index_range (Z.of_nat (length s)))|pose proof (size_index_range (Z.of_nat (length s)))|];
    unfold ElementType_Int8, ElementType_UInt8, ElementType_UTF8String_1ByteLength, ElementType_ByteString_1ByteLength, ElementType_BooleanTrue, ElementType_BooleanFalse,
      ElementType_FloatingPointNumber32, ElementType_FloatingPointNumber64, ElementType_Null; lia.
Qed.

Lemma container_type t : TLVTypeIsContainer t = true → t = kTLVType_Structure ∨ t = kTLVType_Array ∨ t = kTLVType_List.
Proof. unfold TLVTypeIsContainer, ElementType_Structure, ElementType_List, kTLVType_Structure, kTLVType_Array, kTLVType_List. lia. Qed.

Lemma tlv_type_range c e : tlv_ok c e → 0 ≤ tlv_type e < 24.
Proof.
  destruct e as [tag v|tag t es]; cbn; [pose proof (value_type_range v); lia|].
  intros (_ & _ & Ht & _). unfold TLVTypeIsContainer, ElementType_Structure, ElementType_List in Ht. lia.
Qed.

(** The widths of the number types *)
Lemma width_uint k : 0 ≤ k ≤ 3 → width (ElementType_UInt8 + k) = 2 ^ k.
Proof. intros Hk. assert (k = 0 ∨ k = 1 ∨ k = 2 ∨ k = 3) as [-> | [-> | [-> | ->]]] by lia; done. Qed.
Lemma width_int k : 0 ≤ k ≤ 3 → width (ElementType_Int8 + k) = 2 ^ k.
Proof. intros Hk. assert (k = 0 ∨ k = 1 ∨ k = 2 ∨ k = 3) as [-> | [-> | [-> | ->]]] by lia; done. Qed.
Lemma width_utf8 k : 0 ≤ k ≤ 3 → width (ElementType_UTF8String_1ByteLength + k) = 2 ^ k.
Proof. intros Hk. assert (k = 0 ∨ k = 1 ∨ k = 2 ∨ k = 3) as [-> | [-> | [-> | ->]]] by lia; done. Qed.
Lemma width_octets k : 0 ≤ k ≤ 3 → width (ElementType_ByteString_1ByteLength + k) = 2 ^ k.
Proof. intros Hk. assert (k = 0 ∨ k = 1 ∨ k = 2 ∨ k = 3) as [-> | [-> | [-> | ->]]] by lia; done. Qed.

Lemma size_index_fits n : in_u 64 n → in_u (8 * 2 ^ size_index n) n.
Proof.
  unfold size_index. intros Hn. unfold in_u in *. repeat case_match; [change (2 ^ (8 * 2 ^ 0)) with 256|change (2 ^ (8 * 2 ^ 1)) with 65536|change (2 ^ (8 * 2 ^ 2)) with (2 ^ 32)|change (2 ^ (8 * 2 ^ 3)) with (2 ^ 64)]; lia.
Qed.

Lemma in_u_64_length n : Z.of_nat n < 2 ^ 32 → in_u 64 (Z.of_nat n).
Proof. unfold in_u. lia. Qed.

Lemma value_raw_fits v : value_ok v → in_u (8 * width (value_type v)) (value_raw v).
Proof.
  destruct v as [z|n|b| | |s|s|]; cbn [value_ok value_type value_raw].
  - intros _. apply wrap_range. rewrite width_int by apply signed_index_range. pose proof (Z.pow_nonneg 2 (signed_index z)). lia.
  - intros Hn. rewrite width_uint by apply size_index_range. by apply size_index_fits.
  - intros _. destruct b; by vm_compute.
  - intros Hx. exact Hx.
  - intros Hx. exact Hx.
  - intros Hs. rewrite width_utf8 by apply size_index_range. by apply size_index_fits, in_u_64_length.
  - intros Hs. rewrite width_octets by apply size_index_range. by apply size_index_fits, in_u_64_length.
  - intros _. by vm_compute.
Qed.

Lemma has_length_value v : TLVTypeHasLength (value_type v) = match v with Utf8 _ | Octets _ => true | _ => false end.
Proof.
  unfold TLVTypeHasLength, ElementType_UTF8String_1ByteLength, ElementType_ByteString_8ByteLength.
  destruct v as [z|n|b| | |s|s|]; cbn;
    [pose proof (signed_index_range z)|pose proof (size_index_range n)|destruct b; done|done|done
    |pose proof (size_index_range (Z.of_nat (length s)))|pose proof (size_index_range (Z.of_nat (length s)))|done];
    unfold ElementType_Int8, ElementType_UInt8, ElementType_UTF8String_1ByteLength, ElementType_ByteString_1ByteLength; lia.
Qed.

Lemma tlv_raw_fits c e : tlv_ok c e → in_u (8 * width (tlv_type e)) (tlv_raw e) ∧ (TLVTypeHasLength (tlv_type e) = true → tlv_raw e ≤ 2 ^ 32 - 1).
Proof.
  destruct e as [tag v|tag t es]; cbn.
  - intros (_ & _ & Hv). split; [by apply value_raw_fits|]. rewrite has_length_value. destruct v; cbn in *; done || lia.
  - intros (_ & _ & Ht & _). split; [|lia]. apply container_type in Ht as [-> | [-> | ->]]; by vm_compute.
Qed.

Lemma tlv_tag_ok c e : tlv_ok c e → tag_ok (tlv_tag e) ∧ admits c (tlv_tag e) = true.
Proof. destruct e; cbn; naive_solver. Qed.

(** A container that the reader no longer knows the type of admits everything. *)
Lemma admits_unknown tag : admits kTLVType_UnknownContainer tag = true.
Proof. done. Qed.

Definition container_known (c : Z) : Prop :=
  c = kTLVType_NotSpecified ∨ c = kTLVType_UnknownContainer ∨ TLVTypeIsContainer c = true.

(** The reader at an element, with [q] after it *)
Definition at_element (p m c : Z) (e : tlv) (q : bytes) : TLVReader :=
  rd p m c false (control_byte p (tlv_type e) (tlv_tag e)) (tlv_tag e) (tlv_raw e) (tlv_body p e ++ q).
(** ... and at the end of a container *)
Definition at_end (p m c : Z) (q : bytes) : TLVReader := rd p m c false ElementType_EndOfContainer AnonymousTag 0 q.
Definition gap (p m c : Z) (q : bytes) : TLVReader := rd0 p m c false q.

Lemma end_marker_head p : head p ElementType_EndOfContainer AnonymousTag 0 = end_marker.
Proof. done. Qed.

Lemma verify_element p m c e q o tag : tlv_ok c e → container_known o → (o = c ∨ o = kTLVType_UnknownContainer) → tag = tlv_tag e →
  fits m (tlv_body p e ++ q) →
  VerifyElement (rd p m o false (control_byte p (tlv_type e) tag) tag (tlv_raw e) (tlv_body p e ++ q)) = inr tt.
Proof.
  intros He Hk Ho -> Hfit. pose proof (tlv_type_range c e He) as Ht. destruct (tlv_tag_ok c e He) as [Hok Had].
  destruct (control_byte_spec p (tlv_type e) (tlv_tag e)) as (Hb & Hty & _); [lia|].
  unfold VerifyElement. rewrite ElementType_rd by done. rewrite Hty. cbn [rd mContainerType mElemTag mMaxLen mLenRead mElemLenOrVal].
  rewrite (proj2 (Z.eqb_neq (tlv_type e) ElementType_EndOfContainer)) by (unfold ElementType_EndOfContainer; lia).
  rewrite (proj2 (Z.eqb_neq (tlv_tag e) UnknownImplicitTag)) by (by apply ok_not_unknown).
  assert (admits o (tlv_tag e) = true) as Had' by (destruct Ho as [-> | ->]; done).
  assert (TLVTypeHasLength (tlv_type e) && (u32 (m - (m - Z.of_nat (length (tlv_body p e ++ q)))) <? u32 (tlv_raw e)) = false) as ->.
  { destruct (TLVTypeHasLength (tlv_type e)) eqn:Hl; [|done]. cbn [andb]. apply Z.ltb_ge.
    replace (m - (m - Z.of_nat (length (tlv_body p e ++ q)))) with (Z.of_nat (length (tlv_body p e ++ q))) by lia.
    rewrite (u32_length m) by done. destruct e as [tag v|tag t es]; cbn in *; [|destruct He as (_ & _ & Hc & _); apply container_type in Hc as [-> | [-> | ->]]; done].
    rewrite has_length_value in Hl. unfold fits in Hfit. rewrite length_app in *.
    destruct v; try done; cbn in *; rewrite wrap_small by (unfold in_u; lia); lia. }
  unfold admits in Had'. clear -Hk Had'.
  destruct (o =? kTLVType_NotSpecified) eqn:E0; [apply negb_true_iff in Had'; by rewrite Had'|].
  destruct (o =? kTLVType_Structure) eqn:E1; [apply negb_true_iff in Had'; by rewrite Had'|].
  destruct (o =? kTLVType_Array) eqn:E2; [by rewrite Had'|].
  destruct Hk as [-> | [-> |Hk]]; [done|done|]. apply container_type in Hk as [-> | [-> | ->]]; done.
Qed.

Section tree.
Context {D : Type} `{!TLVBackingStore D} (fuel : nat) (Hfuel : (2 ≤ fuel)%nat).
Implicit Types d : D.

(** One element read, from any state of the element before it *)
Lemma read_element p m c o ctl tg v e q d : tlv_ok c e → container_known o → (o = c ∨ o = kTLVType_UnknownContainer) →
  fits m (encode p e ++ q) →
  ReadElement fuel (rd p m o false ctl tg v (encode p e ++ q), d) = Some (inr tt, (at_element p m o e q, d)).
Proof using Hfuel.
  intros He Hk Ho Hfit. rewrite encode_head, <- app_assoc in *. pose proof (tlv_type_range c e He) as Ht.
  destruct (tlv_tag_ok c e He) as [Hok _]. destruct (tlv_raw_fits c e He) as [Hraw Hlen].
  rewrite read_head by (done || lia). erewrite verify_element by (done || by eapply fits_app). done.
Qed.

Lemma read_end p m o ctl tg v q d : o ≠ kTLVType_NotSpecified → fits m (end_marker ++ q) →
  ReadElement fuel (rd p m o false ctl tg v (end_marker ++ q), d) = Some (inr tt, (at_end p m o q, d)).
Proof using Hfuel.
  intros Ho Hfit. rewrite <- (end_marker_head p) in *. rewrite read_head by (done || by vm_compute).
  change (control_byte p ElementType_EndOfContainer AnonymousTag) with ElementType_EndOfContainer.
  unfold VerifyElement. cbn [rd mContainerType]. by rewrite (proj2 (Z.eqb_neq _ _) Ho).
Qed.

Lemma at_element_type p m o c e q : tlv_ok c e → ElementType (at_element p m o e q) = tlv_type e.
Proof using.
  clear Hfuel. intros He. pose proof (tlv_type_range c e He). destruct (control_byte_spec p (tlv_type e) (tlv_tag e)) as (? & ? & _); [lia|].
  unfold at_element. by rewrite ElementType_rd.
Qed.

(** [SkipData] leaves out the body of an element that is not a container. *)
Lemma skip_data p m o c tag v q d : tlv_ok c (Element tag v) → fits m (value_payload v ++ q) →
  SkipData fuel (at_element p m o (Element tag v) q, d) =
  Some (inr tt, (rd p m o false (control_byte p (value_type v) tag) tag (value_raw v) q, d)).
Proof using Hfuel.
  intros He Hfit. unfold SkipData. erewrite bind_ok by done. cbn [fst id]. erewrite at_element_type by done. cbn [tlv_type].
  rewrite has_length_value. destruct He as (_ & _ & Hv).
  assert (∀ s : bytes, v = Utf8 s ∨ v = Octets s → (ReadData fuel (u32 (value_raw v)) ≫= fun _ => mret tt) (at_element p m o (Element tag v) q, d)
    = Some (inr tt, (rd p m o false (control_byte p (value_type v) tag) tag (value_raw v) q, d))) as H.
  { intros s Hs. assert (value_payload v = s ∧ value_raw v = Z.of_nat (length s) ∧ Z.of_nat (length s) < 2 ^ 32) as (Hp & Hr & Hl)
      by (destruct Hs as [-> | ->]; done).
    unfold at_element. cbn [tlv_type tlv_tag tlv_raw tlv_body]. rewrite Hp, Hr in *. rewrite (wrap_small 32) by (unfold in_u; lia).
    erewrite bind_ok by (apply ReadData_full; [done|done|rewrite length_app; lia]).
    rewrite Nat2Z.id, drop_app_length. done. }
  destruct v; try done; [by eapply H; left|by eapply H; right].
Qed.

(** ** Skipping *)
(** One turn of the loop of [SkipToEndOfContainer], from before the next element *)
Definition scan (n : nat) (outer k : Z) : CM (TLVReader * D) unit := ReadElement fuel;; SkipToEnd_loop fuel n outer k.

Lemma loop_value n outer k p m o c tag v q d : tlv_ok c (Element tag v) → fits m (value_payload v ++ q) →
  SkipToEnd_loop fuel (S n) outer k (at_element p m o (Element tag v) q, d) =
  scan n outer k (rd p m o false (control_byte p (value_type v) tag) tag (value_raw v) q, d).
Proof using Hfuel.
  intros He Hfit. cbn [SkipToEnd_loop]. erewrite bind_ok by done. cbn [fst]. erewrite at_element_type by done. cbn [tlv_type].
  pose proof (value_type_range v) as Hr. unfold TLVTypeIsContainer, ElementType_EndOfContainer, ElementType_Structure.
  rewrite (proj2 (Z.eqb_neq (value_type v) _)) by lia. rewrite (proj2 (Z.leb_gt _ (value_type v))) by lia. cbn [andb].
  erewrite bind_ok by (by eapply skip_data). done.
Qed.

Lemma loop_container n outer k p m o c tag t es q d : tlv_ok c (Container tag t es) →
  SkipToEnd_loop fuel (S n) outer k (at_element p m o (Container tag t es) q, d) =
  scan n outer (u32 (k + 1)) (rd p m t false (control_byte p t tag) tag 0 (encode_all p es ++ end_marker ++ q), d).
Proof.
  intros He. cbn [SkipToEnd_loop]. erewrite bind_ok by done. cbn [fst]. erewrite at_element_type by done. cbn [tlv_type].
  pose proof He as (_ & _ & Ht & _). rewrite (proj2 (Z.eqb_neq t _)) by (apply container_type in Ht as [-> | [-> | ->]]; done). rewrite Ht.
  erewrite bind_ok by done. cbn [fst snd]. unfold at_element. cbn [tlv_type tlv_tag tlv_raw tlv_body]. rewrite <- app_assoc.
  change ((rd p m o false (control_byte p t tag) tag 0 (encode_all p es ++ end_marker ++ q)) <| mContainerType := t |>)
    with (rd p m t false (control_byte p t tag) tag 0 (encode_all p es ++ end_marker ++ q)).
  erewrite bind_ok; [done|]. unfold SkipData. erewrite bind_ok by done. cbn [fst id].
  rewrite ElementType_rd by (apply control_byte_spec; apply container_type in Ht as [-> | [-> | ->]]; done).
  rewrite (proj1 (proj2 (control_byte_spec p t tag (ltac:(apply container_type in Ht as [-> | [-> | ->]]; done))))).
  apply container_type in Ht as [-> | [-> | ->]]; done.
Qed.

Lemma loop_end n outer k p m o q d : k ≠ 0 →
  SkipToEnd_loop fuel (S n) outer k (at_end p m o q, d) =
  scan n outer (k - 1) (rd p m (if k - 1 =? 0 then outer else kTLVType_UnknownContainer) false ElementType_EndOfContainer AnonymousTag 0 q, d).
Proof.
  intros Hk. cbn [SkipToEnd_loop]. erewrite bind_ok by done. change (ElementType (at_end p m o q, d).1) with ElementType_EndOfContainer.
  rewrite Z.eqb_refl, (proj2 (Z.eqb_neq k 0)) by done. erewrite bind_ok by done. cbn [fst snd].
  by erewrite bind_ok by done.
Qed.

Lemma scan_element n outer k p m o c ctl tg v e q d : tlv_ok c e → container_known o → (o = c ∨ o = kTLVType_UnknownContainer) →
  fits m (encode p e ++ q) →
  scan n outer k (rd p m o false ctl tg v (encode p e ++ q), d) = SkipToEnd_loop fuel n outer k (at_element p m o e q, d).
Proof using Hfuel. intros. unfold scan. by erewrite bind_ok by (by eapply read_element). Qed.

(** The loop leaves out the encoding of elements, with one turn for each head. *)
Definition skips (p m : Z) (es : list tlv) : Prop := ∀ c o n outer k ctl tg v q d,
  all_ok c es → container_known o → (o = c ∨ o = kTLVType_UnknownContainer) → 0 ≤ k → (k = 0 → o = outer) →
  k + Z.of_nat (heads_all es) < 2 ^ 32 → fits m (encode_all p es ++ q) →
  ∃ o' ctl' tg' v',
    scan (heads_all es + n) outer k (rd p m o false ctl tg v (encode_all p es ++ q), d) = scan n outer k (rd p m o' false ctl' tg' v' q, d)
    ∧ container_known o' ∧ (o' = o ∨ o' = kTLVType_UnknownContainer) ∧ (k = 0 → o' = outer).

Lemma skips_one p m e : (∀ es, e = Container (tlv_tag e) (tlv_type e) es → skips p m es) → skips p m [e].
Proof using Hfuel.
  intros Hsub c o n outer k ctl tg v q d [He _] Hk Ho Hk0 Hout Hn Hfit. unfold encode_all in *. cbn [mbind list_bind] in *. rewrite app_nil_r in *.
  cbn [heads_all foldr] in *. rewrite Nat.add_0_r in *. erewrite scan_element by done. pose proof Hfit as Hfit'. rewrite encode_head, <- app_assoc in Hfit'. apply fits_app in Hfit'.
  destruct e as [tag v0|tag t es]; cbn [heads tlv_body tlv_type tlv_tag] in *.
  - change (1 + n)%nat with (S n). erewrite loop_value by done. eexists _, _, _, _. split_and!; [reflexivity|done|by left|done].
  - fold (heads_all es) in *. replace (S (S (heads_all es)) + n)%nat with (S (heads_all es + S n))%nat by lia. erewrite loop_container by done.
    pose proof He as (_ & _ & Ht & Hes). rewrite <- app_assoc in Hfit'.
    assert (wrap 32 (k + 1) = k + 1) as -> by (apply wrap_small; unfold in_u; lia).
    destruct (Hsub es eq_refl t t (S n) outer (k + 1) (control_byte p t tag) tag 0 (end_marker ++ q) d) as (o' & ctl' & tg' & v' & -> & Hk' & Ho' & _);
      [done|by right; right|by left|lia|lia|lia|done|].
    unfold scan at 1. erewrite bind_ok.
    2: { apply read_end; [|by eapply fits_app]. destruct Ho' as [-> | ->]; [|done]. by apply container_type in Ht as [-> | [-> | ->]]. }
    rewrite loop_end by lia. replace (k + 1 - 1) with k by lia. eexists _, _, _, _. split; [done|].
    destruct (Z.eqb_spec k 0) as [->|Hkn]; [|by split_and!; [right; left|right|]].
    rewrite Hout in Hk by done. split_and!; [done|left; symmetry; by apply Hout|done].
Qed.

Lemma skips_app p m es1 es2 : skips p m es1 → skips p m es2 → skips p m (es1 ++ es2).
Proof.
  intros H1 H2 c o n outer k ctl tg v q d Hok Hk Ho Hk0 Hout Hn Hfit.
  unfold all_ok, heads_all, encode_all in *. rewrite foldr_app in *. rewrite bind_app, <- app_assoc in *.
  assert (foldr (λ e n, heads e + n)%nat (foldr (λ e n, heads e + n)%nat 0%nat es2) es1 = heads_all es1 + heads_all es2)%nat as Hh.
  { clear. unfold heads_all. induction es1 as [|e es1 IH]; cbn; lia. }
  assert (all_ok c es1 ∧ all_ok c es2) as [Hok1 Hok2].
  { clear -Hok. unfold all_ok. induction es1 as [|e es1 IH]; cbn in *; naive_solver. }
  rewrite Hh in *. rewrite <- Nat.add_assoc.
  destruct (H1 c o (heads_all es2 + n)%nat outer k ctl tg v (encode_all p es2 ++ q) d) as (o1 & ctl1 & tg1 & v1 & E1 & Hk1 & Ho1 & Hout1); try done; [lia|].
  unfold encode_all in *. rewrite E1.
  destruct (H2 c o1 n outer k ctl1 tg1 v1 q d) as (o2 & ctl2 & tg2 & v2 & E2 & Hk2 & Ho2 & Hout2); try done; [naive_solver|lia|by eapply fits_app|].
  unfold encode_all in E2. rewrite E2. eexists _, _, _, _. split_and!; [done|done|naive_solver|done].
Qed.

Lemma skips_all p m es : skips p m es.
Proof using Hfuel.
  assert (∀ e, skips p m [e]) as H.
  { apply tlv_rect'; intros; apply skips_one; intros es' [= ->]. clear -H Hfuel. induction H as [|e es He _ IH].
    - intros c o n outer k ctl tg v q d _ Hk Ho Hk0 Hout _ _. eexists _, _, _, _; split_and!; [reflexivity|done|by left|done].
    - by apply (skips_app p m [e] es). }
  induction es as [|e es IH]; [|by apply (skips_app p m [e] es)].
  intros c o n outer k ctl tg v q d _ Hk Ho Hk0 Hout _ _. eexists _, _, _, _; split_and!; [reflexivity|done|by left|done].
Qed.

(** ** The methods on a tree *)
Lemma loop_gap n outer k p m c q d : SkipToEnd_loop fuel (S n) outer k (gap p m c q, d) = scan n outer k (gap p m c q, d).
Proof. done. Qed.

Lemma exit_end p m c t q d : ExitContainer fuel c (at_end p m t q, d) = Some (inr tt, (gap p m c q, d)).
Proof using Hfuel. unfold ExitContainer, SkipToEndOfContainer. destruct fuel as [|f]; [lia|]. done. Qed.

Lemma skip_to_end p m t es q d : all_ok t es → TLVTypeIsContainer t = true → fits m (encode_all p es ++ end_marker ++ q) →
  (heads_all es + 2 ≤ fuel)%nat →
  SkipToEndOfContainer fuel (gap p m t (encode_all p es ++ end_marker ++ q), d) = Some (inr tt, (at_end p m t q, d)).
Proof using Hfuel.
  intros Hes Ht Hfit Hf. unfold SkipToEndOfContainer. erewrite bind_ok by done. cbn [fst].
  erewrite bind_ok by done. cbn [fst snd]. change (mContainerType (gap p m t _)) with t.
  change ((gap p m t (encode_all p es ++ end_marker ++ q)) <| mContainerOpen := false |>) with (gap p m t (encode_all p es ++ end_marker ++ q)).
  replace fuel with (S (heads_all es + S (fuel - heads_all es - 2)))%nat at 2 by lia.
  rewrite loop_gap.
  assert (Z.of_nat (heads_all es) < 2 ^ 32) as Hn.
  { pose proof (heads_le p t es Hes). unfold fits in Hfit. rewrite length_app in Hfit. lia. }
  destruct (skips_all p m es t t (S (fuel - heads_all es - 2)) t 0 kTLVControlByte_NotSpecified AnonymousTag 0 (end_marker ++ q) d) as (o' & ctl' & tg' & v' & E & _ & _ & Ho);
    [done|by right; right|by left|done|done|lia|done|]. unfold gap, rd0. rewrite E. rewrite Ho by done. unfold scan.
  erewrite bind_ok by (apply read_end; [by apply container_type in Ht as [-> | [-> | ->]]|by eapply fits_app]). done.
Qed.

Lemma exit_gap p m c t es q d : all_ok t es → TLVTypeIsContainer t = true → fits m (encode_all p es ++ end_marker ++ q) →
  (heads_all es + 2 ≤ fuel)%nat →
  ExitContainer fuel c (gap p m t (encode_all p es ++ end_marker ++ q), d) = Some (inr tt, (gap p m c q, d)).
Proof using Hfuel. intros. unfold ExitContainer. by erewrite bind_ok by (by apply skip_to_end). Qed.

Lemma enter_element p m c k tag t es q d : tlv_ok k (Container tag t es) →
  EnterContainer (at_element p m c (Container tag t es) q, d) = Some (inr c, (gap p m t (encode_all p es ++ end_marker ++ q), d)).
Proof.
  intros He. unfold EnterContainer. erewrite bind_ok by done. cbn [fst id]. erewrite at_element_type by done. cbn [tlv_type].
  pose proof He as (_ & _ & Ht & _). rewrite Ht. cbn [negb]. unfold at_element. cbn [tlv_body]. rewrite <- app_assoc. done.
Qed.

Lemma skip_element p m c k e q d : tlv_ok k e → fits m (encode p e ++ q) → (heads e + 2 ≤ fuel)%nat →
  Skip fuel (at_element p m c e q, d) = Some (inr tt, (gap p m c q, d)).
Proof using Hfuel.
  intros He Hfit Hf. unfold Skip. erewrite bind_ok by done. cbn [fst]. erewrite at_element_type by done.
  pose proof (tlv_type_range k e He) as Hr. rewrite (proj2 (Z.eqb_neq _ _)) by (unfold ElementType_EndOfContainer; lia).
  rewrite encode_head, <- app_assoc in Hfit. apply fits_app in Hfit. destruct e as [tag v|tag t es]; cbn [tlv_type heads tlv_body] in *.
  - pose proof (value_type_range v). unfold TLVTypeIsContainer, ElementType_Structure. rewrite (proj2 (Z.leb_gt _ (value_type v))) by lia. cbn [andb].
    by erewrite bind_ok by (by eapply skip_data).
  - pose proof He as (_ & _ & Ht & Hes). rewrite Ht. erewrite bind_ok by (by eapply enter_element). rewrite <- app_assoc in Hfit.
    apply exit_gap; try done. fold (heads_all es) in Hf. lia.
Qed.

Lemma skip_gap p m c q d : Skip fuel (gap p m c q, d) = Some (inr tt, (gap p m c q, d)).
Proof. done. Qed.

(** [Next] between elements, and from an element to the next *)
Lemma next_gap p m c e q d : tlv_ok c e → container_known c → fits m (encode p e ++ q) →
  Next fuel (gap p m c (encode p e ++ q), d) = Some (inr tt, (at_element p m c e q, d)).
Proof using Hfuel.
  intros He Hk Hfit. unfold Next. erewrite bind_ok by apply skip_gap. unfold gap, rd0. erewrite bind_ok by (eapply read_element; eauto).
  erewrite bind_ok by done. cbn [fst id]. erewrite !at_element_type by done. pose proof (tlv_type_range c e He) as Hr.
  rewrite (proj2 (Z.eqb_neq (tlv_type e) ElementType_EndOfContainer)) by (unfold ElementType_EndOfContainer; lia). erewrite bind_ok by done.
  destruct (TLVTypeIsString (tlv_type e) && negb (GetLength (at_element p m c e q) =? 0)) eqn:E; [|done].
  apply andb_true_iff in E as [Hs Hl]. unfold GetLength in Hl. erewrite at_element_type in Hl by done.
  change (TLVTypeIsString (tlv_type e)) with (TLVTypeHasLength (tlv_type e)) in Hs. rewrite Hs in Hl. cbn [at_element rd mElemLenOrVal] in Hl.
  unfold at_element. destruct e as [tag v|tag t es]; [|destruct He as (_ & _ & Ht & _); by apply container_type in Ht as [-> | [-> | ->]]].
  cbn [tlv_type tlv_tag tlv_raw tlv_body] in *. rewrite has_length_value in Hs.
  destruct v as [| | | | |s|s|]; try done; cbn [value_raw value_payload] in *; by destruct s.
Qed.

Lemma next_element p m c k e q d : tlv_ok k e → fits m (encode p e ++ q) → (heads e + 2 ≤ fuel)%nat →
  Next fuel (at_element p m c e q, d) = Next fuel (gap p m c q, d).
Proof using Hfuel. intros He Hfit Hf. unfold Next. erewrite bind_ok by (by eapply skip_element). by erewrite (bind_ok (Skip fuel)) by apply skip_gap. Qed.

Lemma next_end p m c q d : TLVTypeIsContainer c = true → fits m (end_marker ++ q) →
  Next fuel (gap p m c (end_marker ++ q), d) = Some (inl CHIP_END_OF_TLV, (at_end p m c q, d)).
Proof using Hfuel.
  intros Hc Hfit. unfold Next. erewrite bind_ok by apply skip_gap. unfold gap, rd0.
  erewrite bind_ok by (apply read_end; [by apply container_type in Hc as [-> | [-> | ->]]|done]). done.
Qed.

Lemma next_none p m c d : Next fuel (gap p m c [], d) = Some (inl CHIP_END_OF_TLV, (gap p m c [], d)).
Proof. unfold Next. erewrite bind_ok by apply skip_gap. unfold gap, rd0. by erewrite bind_error by apply ReadElement_none. Qed.
End tree.
