(* ===== verification/TlvIterate.v ===== *)
(** * TlvIterate: iterating over an encoded tree

    [Iterate] calls its handler on the elements of the tree in preorder, each with its
    depth; the values of the elements come back from the getters.  [Count], [Find] and
    [FindElementWithTag] follow. *)
From S2P Require Import Prelude ChipError StateError Tlv TlvReader TlvReading TlvEncoding TlvTree TlvUtilities.

(** ** The values come back *)
Definition read_value (r : TLVReader) : option value :=
  let ok {A} (f : A → value) (res : CHIP_ERROR * option A) := match res with (CHIP_NO_ERROR, Some a) => Some (f a) | _ => None end in
  let span (f : bytes → value) (res : option (CHIP_ERROR + bytes)) := match res with Some (inr s) => Some (f s) | _ => None end in
  let t := GetType r in
  if t =? kTLVType_SignedInteger then ok Signed (Get_int64 r)
  else if t =? kTLVType_UnsignedInteger then ok Unsigned (Get_uint64 r)
  else if t =? kTLVType_Boolean then ok Boolean (Get_bool r)
  else if t =? kTLVType_FloatingPointNumber then
    ok (fun f => match f with Float x => Float32 x | Double x => Float64 x end) (Get_double r)
  else if t =? kTLVType_UTF8String then span Utf8 (Get_ByteSpan r)
  else if t =? kTLVType_ByteString then span Octets (GetByteView r)
  else if t =? kTLVType_Null then Some Null
  else None.

Lemma to_signed_wrap w z : 0 < w → - 2 ^ (w - 1) ≤ z < 2 ^ (w - 1) → to_signed w (wrap w z) = z.
Proof.
  intros Hw Hz. assert (2 ^ w = 2 * 2 ^ (w - 1)) as E by (rewrite <- Z.pow_succ_r by lia; f_equal; lia).
  unfold to_signed, wrap. rewrite E. destruct (decide (0 ≤ z)).
  - rewrite Z.mod_small by lia. by rewrite (proj2 (Z.ltb_lt _ _)) by lia.
  - rewrite <- (Z_mod_plus_full z 1). rewrite Z.mod_small by lia. rewrite (proj2 (Z.ltb_ge _ _)) by lia. lia.
Qed.

Lemma index_cases k : 0 ≤ k ≤ 3 → k = 0 ∨ k = 1 ∨ k = 2 ∨ k = 3.
Proof. lia. Qed.

Section values.
Implicit Types r : TLVReader.

Lemma Get_int64_signed z r : value_ok (Signed z) → ElementType r = value_type (Signed z) → mElemLenOrVal r = value_raw (Signed z) →
  Get_int64 r = (CHIP_NO_ERROR, Some z).
Proof.
  intros Hz Ht Hv. unfold Get_int64. rewrite Ht, Hv. cbn [value_raw value_type value_ok] in *.
  rewrite width_int by apply signed_index_range. unfold signed_index.
  destruct ((-128 <=? z) && (z <=? 127)) eqn:E1; [|destruct ((-32768 <=? z) && (z <=? 32767)) eqn:E2; [|destruct ((- 2 ^ 31 <=? z) && (z <=? 2 ^ 31 - 1)) eqn:E3]].
  - change (8 * 2 ^ 0) with 8. change (_ =? _) with true at 1. cbn iota. rewrite wrap_idemp by lia. rewrite to_signed_wrap by lia. done.
  - change (8 * 2 ^ 1) with 16. change (ElementType_Int8 + 1) with ElementType_Int16. change (ElementType_Int16 =? ElementType_Int8) with false.
    rewrite Z.eqb_refl. cbn iota. rewrite wrap_idemp by lia. rewrite to_signed_wrap by lia. done.
  - change (8 * 2 ^ 2) with 32. change (ElementType_Int8 + 2) with ElementType_Int32. change (ElementType_Int32 =? ElementType_Int8) with false.
    change (ElementType_Int32 =? ElementType_Int16) with false. rewrite Z.eqb_refl. cbn iota. rewrite wrap_idemp by lia. rewrite to_signed_wrap by lia. done.
  - change (8 * 2 ^ 3) with 64. change (ElementType_Int8 + 3) with ElementType_Int64. change (ElementType_Int64 =? ElementType_Int8) with false.
    change (ElementType_Int64 =? ElementType_Int16) with false. change (ElementType_Int64 =? ElementType_Int32) with false.
    rewrite Z.eqb_refl. cbn iota. rewrite to_signed_wrap by lia. done.
Qed.

Lemma Get_uint64_unsigned n r : ElementType r = value_type (Unsigned n) → mElemLenOrVal r = n → Get_uint64 r = (CHIP_NO_ERROR, Some n).
Proof.
  intros Ht Hv. unfold Get_uint64. rewrite Ht, Hv. cbn [value_type].
  by destruct (index_cases _ (size_index_range n)) as [-> | [-> | [-> | ->]]].
Qed.

(** Each value by its types *)
Lemma value_types v : match v with
  | Signed _ => kTLVType_SignedInteger | Unsigned _ => kTLVType_UnsignedInteger | Boolean _ => kTLVType_Boolean
  | Float32 _ | Float64 _ => kTLVType_FloatingPointNumber | Utf8 _ => kTLVType_UTF8String | Octets _ => kTLVType_ByteString | Null => kTLVType_Null
  end = (let t := value_type v in
    if t =? ElementType_EndOfContainer then kTLVType_NotSpecified
    else if (t =? ElementType_FloatingPointNumber32) || (t =? ElementType_FloatingPointNumber64) then kTLVType_FloatingPointNumber
    else if (t =? ElementType_NotSpecified) || (ElementType_Null <=? t) then t
    else Z.land (u8 t) (Z.lnot kTLVTypeSizeMask)).
Proof.
  destruct v as [z|n|b| | |s|s|]; cbn [value_type]; try (by destruct b) || done.
  - by destruct (index_cases _ (signed_index_range z)) as [-> | [-> | [-> | ->]]].
  - by destruct (index_cases _ (size_index_range n)) as [-> | [-> | [-> | ->]]].
  - by destruct (index_cases _ (size_index_range (Z.of_nat (length s)))) as [-> | [-> | [-> | ->]]].
  - by destruct (index_cases _ (size_index_range (Z.of_nat (length s)))) as [-> | [-> | [-> | ->]]].
Qed.

Lemma GetType_value v r : ElementType r = value_type v → GetType r = match v with
  | Signed _ => kTLVType_SignedInteger | Unsigned _ => kTLVType_UnsignedInteger | Boolean _ => kTLVType_Boolean
  | Float32 _ | Float64 _ => kTLVType_FloatingPointNumber | Utf8 _ => kTLVType_UTF8String | Octets _ => kTLVType_ByteString | Null => kTLVType_Null
  end.
Proof. intros Ht. rewrite value_types. unfold GetType. by rewrite Ht. Qed.

Lemma span_value m s q r : ElementType r = value_type (Utf8 s) ∨ ElementType r = value_type (Octets s) → mElemLenOrVal r = Z.of_nat (length s) →
  mReadPoint r = In (s ++ q) → fits m (s ++ q) → Get_ByteSpan r = Some (inr s).
Proof.
  intros Ht Hv Hp Hfit. unfold Get_ByteSpan, GetDataPtr, GetLength. rewrite Hp, Hv.
  assert (Z.of_nat (length s) < 2 ^ 32) as Hl by (unfold fits in Hfit; rewrite length_app in Hfit; lia).
  assert (TLVTypeHasLength (ElementType r) = true) as E by (destruct Ht as [-> | ->]; apply has_length_value).
  change (TLVTypeIsString (ElementType r)) with (TLVTypeHasLength (ElementType r)). rewrite E. cbn [negb].
  rewrite (wrap_small 32 (Z.of_nat (length s))) by (unfold in_u; lia).
  destruct (Z.eqb_spec (Z.of_nat (length s)) 0) as [H0|H0]; [by destruct s|].
  rewrite (u32_length m) by done. rewrite (proj2 (Z.leb_le _ _)) by (rewrite length_app; lia). cbn [negb].
  unfold span. change (default [] (Some (s ++ q))) with (s ++ q). by rewrite Nat2Z.id, take_app_length.
Qed.

Lemma read_value_element p m c k tag v q : tlv_ok k (Element tag v) → fits m (value_payload v ++ q) →
  read_value (at_element p m c (Element tag v) q) = Some v.
Proof.
  intros He Hfit. pose proof (at_element_type p m c k (Element tag v) q He) as Ht. cbn [tlv_type] in Ht.
  unfold read_value. rewrite (GetType_value v) by done. pose proof He as (_ & _ & Hv).
  assert (mElemLenOrVal (at_element p m c (Element tag v) q) = value_raw v) as Hr by done.
  destruct v as [z|n|b|x|x|s|s|]; cbn [Z.eqb].
  - by rewrite (Get_int64_signed z).
  - by rewrite (Get_uint64_unsigned n).
  - change (kTLVType_Boolean =? _) with false at 1 2. change (kTLVType_Boolean =? kTLVType_Boolean) with true. cbn iota. unfold Get_bool. rewrite Ht. by destruct b.
  - cbn -[Get_double at_element]. unfold Get_double. rewrite Ht, Hr. cbn [value_type value_raw value_ok] in *. rewrite Z.eqb_refl.
    by rewrite wrap_small.
  - cbn -[Get_double at_element]. unfold Get_double. rewrite Ht, Hr. done.
  - cbn -[Get_ByteSpan at_element]. rewrite (span_value m s q) by (done || by left). done.
  - cbn -[GetByteView at_element]. unfold GetByteView. rewrite Ht. assert (TLVTypeIsByteString (value_type (Octets s)) = true) as ->.
    { cbn [value_type]. by destruct (index_cases _ (size_index_range (Z.of_nat (length s)))) as [-> | [-> | [-> | ->]]]. }
    cbn [negb]. rewrite (span_value m s q) by (done || by right). done.
  - done.
Qed.
End values.

Lemma if_true {A} (b : bool) (x y : A) : b = true → (if b then x else y) = x.
Proof. by intros ->. Qed.
Lemma if_false {A} (b : bool) (x y : A) : b = false → (if b then x else y) = y.
Proof. by intros ->. Qed.

(** ** Preorder *)
Fixpoint height (e : tlv) : Z := match e with Element _ _ => 0 | Container _ _ es => 1 + foldr (fun e n => Z.max (height e) n) 0 es end.
Definition height_all (es : list tlv) : Z := foldr (fun e n => Z.max (height e) n) 0 es.

Fixpoint visit (recurse : bool) (depth : Z) (e : tlv) : list (Z * tlv) :=
  (depth, e) :: match e with Container _ _ es => if recurse then es ≫= visit recurse (depth + 1) else [] | Element _ _ => [] end.
Definition visits (recurse : bool) (depth : Z) (es : list tlv) : list (Z * tlv) := es ≫= visit recurse depth.

Lemma height_nonneg e : 0 ≤ height e.
Proof. destruct e as [|tag t es]; cbn; [lia|]. induction es; cbn; lia. Qed.

Section handler.
Context {D C A : Type} `{!TLVBackingStore D} (fuel : nat) (Hfuel : (2 ≤ fuel)%nat).
Context (aHandler : TLVReader → Z → C → CHIP_ERROR * C) (recurse : bool) (p m : Z).
(** The handler as a function of the element, on an abstraction of its context *)
Context (g : tlv → Z → A → CHIP_ERROR * A) (stands_for : C → A → Prop).
Context (handles : ∀ k e c q depth x y, tlv_ok k e → fits m (tlv_body p e ++ q) → stands_for x y →
  (aHandler (at_element p m c e q) depth x).1 = (g e depth y).1 ∧ stands_for (aHandler (at_element p m c e q) depth x).2 (g e depth y).2).
Context (no_end : ∀ e depth y, (g e depth y).1 ≠ CHIP_END_OF_TLV).

Fixpoint run_handler (l : list (Z * tlv)) (x : A) : CHIP_ERROR * A :=
  match l with
  | [] => (CHIP_NO_ERROR, x)
  | (depth, e) :: l => let '(err, x) := g e depth x in if is_no_error err then run_handler l x else (err, x)
  end.

Lemma run_handler_app l1 l2 x :
  run_handler (l1 ++ l2) x = let '(err, x1) := run_handler l1 x in if is_no_error err then run_handler l2 x1 else (err, x1).
Proof. revert x; induction l1 as [|[k e] l1 IH]; intros x; cbn; [done|]. destruct (g e k x) as [err x']. destruct (is_no_error err) eqn:E; [apply IH|by rewrite E]. Qed.

Lemma run_handler_no_end l x : (run_handler l x).1 ≠ CHIP_END_OF_TLV.
Proof using no_end.
  revert x; induction l as [|[k e] l IH]; intros x; cbn; [done|]. pose proof (no_end e k x) as H. destruct (g e k x) as [err x'].
  destruct (is_no_error err); [apply IH|done].
Qed.

(** What follows the elements of a container, or of the whole input *)
Inductive ends (c : Z) : bytes → TLVReader → Prop :=
| ends_container q : TLVTypeIsContainer c = true → ends c (end_marker ++ q) (at_end p m c q)
| ends_input : ends c [] (gap p m c []).

Lemma next_ends c tail r d : ends c tail r → fits m tail → Next fuel (gap p m c tail, d) = Some (inl CHIP_END_OF_TLV, (r, d)).
Proof using Hfuel. intros [q Hc|] Hfit; [by apply next_end|apply next_none]. Qed.

(** [Next] and the loop: the elements of a container from the first *)
Definition walk (n : nat) (depth : Z) : CM ((TLVReader * D) * C) unit := on_fst (Next fuel);; Iterate_loop fuel aHandler recurse n depth.

Definition walked (depth : Z) (es : list tlv) (r : TLVReader) (d : D) (y : A) (res : CHIP_ERROR + unit) (st : (TLVReader * D) * C) : Prop :=
  let '(err, y') := run_handler (visits recurse depth es) y in
  stands_for st.2 y' ∧ st.1.2 = d ∧ if is_no_error err then res = inl CHIP_END_OF_TLV ∧ st.1.1 = r else res = inl err.

Definition walks (es : list tlv) : Prop := ∀ c tail r n depth d x y,
  stands_for x y → all_ok c es → container_known c → ends c tail r → fits m (encode_all p es ++ tail) → (heads_all es + 2 ≤ fuel)%nat →
  (heads_all es < n)%nat → (recurse = true → depth + height_all es < kMaxRecursionDepth) →
  wp (walk n depth) (walked depth es r d y) ((gap p m c (encode_all p es ++ tail), d), x).

Lemma walks_nil : walks [].
Proof using Hfuel.
  intros c tail r n depth d x y Hxy _ Hk He Hfit _ Hn _. apply wp_bind. unfold wp, on_fst. cbn [fst snd].
  change (encode_all p [] ++ tail) with tail in *. erewrite next_ends by done. by split_and!.
Qed.

(** The descent into a container, from the call of the handler to the next element *)
Lemma walk_inside c tag t es q n depth d x y :
  stands_for x y → walks es → recurse = true → tlv_ok c (Container tag t es) → fits m (encode_all p es ++ end_marker ++ q) → (heads_all es + 2 ≤ fuel)%nat →
  (heads_all es < n)%nat → depth + 1 + height_all es < kMaxRecursionDepth →
  wp (containerType ← on_fst EnterContainer;
      retval ← attempt (
        if kMaxRecursionDepth <=? depth + 1 then fail CHIP_ERROR_RECURSION_DEPTH_LIMIT
        else
          type ← on_fst (reader GetType);
          (if type =? kTLVType_NotSpecified then on_fst (Next fuel) else mret tt);;
          Iterate_loop fuel aHandler recurse n (depth + 1));
      match retval with
      | inl CHIP_END_OF_TLV | inr _ => on_fst (ExitContainer fuel containerType)
      | inl err => fail err
      end)
    (fun res st => let '(err, y') := run_handler (visits recurse (depth + 1) es) y in
       stands_for st.2 y' ∧ st.1.2 = d ∧ if is_no_error err then res = inr tt ∧ st.1.1 = gap p m c q else res = inl err)
    ((at_element p m c (Container tag t es) q, d), x).
Proof using Hfuel no_end.
  intros Hxy Hes Hrec He Hfit Hf Hn Hdepth. pose proof He as (_ & _ & Ht & Hall).
  assert (0 ≤ height_all es) as Hh by (clear; unfold height_all; induction es; cbn; lia).
  apply wp_bind. unfold wp at 1, on_fst. cbn [fst snd]. erewrite enter_element by done.
  apply wp_bind, wp_attempt. rewrite (proj2 (Z.leb_gt _ _)) by lia.
  change (wp (walk n (depth + 1)) (λ r s',
    wp (match r with inl CHIP_END_OF_TLV | inr _ => on_fst (ExitContainer fuel c) | inl err => fail err end)
      (fun res st => let '(err, y') := run_handler (visits recurse (depth + 1) es) y in
       stands_for st.2 y' ∧ st.1.2 = d ∧ if is_no_error err then res = inr tt ∧ st.1.1 = gap p m c q else res = inl err) s')
    ((gap p m t (encode_all p es ++ end_marker ++ q), d), x)).
  eapply wp_mono.
  { eapply Hes; try done; [by right; right|by constructor]. }
  intros res [[r' d'] x']. unfold walked. pose proof (run_handler_no_end (visits recurse (depth + 1) es) y) as Hne.
  destruct (run_handler (visits recurse (depth + 1) es) y) as [err y2]. cbn [fst snd] in *. intros (Hxy' & -> & Hres).
  destruct (is_no_error err) eqn:E.
  - destruct Hres as [-> ->]. unfold wp, on_fst. cbn [fst snd]. by rewrite exit_end.
  - rewrite Hres. destruct err; done.
Qed.

Lemma GetType_container c k e q : tlv_ok k e →
  TLVTypeIsContainer (GetType (at_element p m c e q)) = match e with Container _ _ _ => true | Element _ _ => false end.
Proof.
  intros He. pose proof (at_element_type p m c k e q He) as Ht. destruct e as [tag v|tag t es]; cbn [tlv_type] in Ht.
  - rewrite (GetType_value v) by done. by destruct v.
  - destruct He as (_ & _ & Hc & _). unfold GetType. rewrite Ht. by apply container_type in Hc as [-> | [-> | ->]].
Qed.

Lemma walks_cons e es : (∀ tag t sub, e = Container tag t sub → walks sub) → walks es → walks (e :: es).
Proof using Hfuel no_end handles.
  intros Hsub Hes c tail r n depth d x y Hxy [He Hall] Hk Hr Hfit Hf Hn Hdepth.
  rewrite encode_cons, <- app_assoc in *. cbn [heads_all foldr] in Hf, Hn. fold (heads_all es) in Hf, Hn.
  assert (recurse = true → depth + height e < kMaxRecursionDepth ∧ depth + height_all es < kMaxRecursionDepth) as Hd
    by (intros Hrec; specialize (Hdepth Hrec); cbn [height_all foldr] in Hdepth; fold (height_all es) in Hdepth; lia).
  assert (1 ≤ heads e)%nat as He1 by (destruct e; cbn; lia).
  destruct n as [|n]; [lia|]. apply wp_bind. unfold wp at 1, on_fst. cbn [fst snd]. erewrite next_gap by done.
  cbn [Iterate_loop]. apply wp_bind. unfold wp at 1, on_fst, reader, gets. cbn [fst snd].
  apply wp_bind. unfold wp at 1, call_handler. cbn [fst snd]. 
  destruct (handles c e c (encode_all p es ++ tail) depth x y He) as [Herr Hxy1];
    [pose proof Hfit as Hfit'; rewrite encode_head, <- app_assoc in Hfit'; by apply fits_app in Hfit'|done|].
  destruct (aHandler (at_element p m c e (encode_all p es ++ tail)) depth x) as [err0 x1]. cbn [fst snd] in Herr, Hxy1. subst err0.
  unfold walked. change (visits recurse depth (e :: es)) with (visit recurse depth e ++ visits recurse depth es).
  assert (visit recurse depth e = (depth, e) :: match e with Container _ _ es => if recurse then visits recurse (depth + 1) es else [] | _ => [] end) as ->
    by (by destruct e). cbn [app run_handler].
  destruct (g e depth y) as [err y1]. cbn [fst snd] in *. destruct (is_no_error err) eqn:E; [|split_and!; [done|done|by rewrite E]].
  rewrite run_handler_app. set (q := encode_all p es ++ tail) in *.
  assert (∀ r1 x2 y2, (r1 = at_element p m c e q ∨ r1 = gap p m c q) → stands_for x2 y2 →
    wp (walk n depth) (λ res st, let '(err, y') := run_handler (visits recurse depth es) y2 in
       stands_for st.2 y' ∧ st.1.2 = d ∧ if is_no_error err then res = inl CHIP_END_OF_TLV ∧ st.1.1 = r else res = inl err) ((r1, d), x2)) as Hnext.
  { intros r1 x2 y2 Hr1 Hxy2. assert (walk n depth ((r1, d), x2) = walk n depth ((gap p m c q, d), x2)) as Hw.
    { destruct Hr1 as [-> | ->]; [|done]. unfold walk, mbind, CM_bind, on_fst. cbn [fst snd]. by erewrite next_element by (done || lia). }
    unfold wp. rewrite Hw. apply (Hes c tail r n depth d x2 y2); [done|done|done|done|by eapply fits_app|lia|lia|]. intros Hrec. by apply Hd. }
  erewrite GetType_container by done. destruct e as [tag v|tag t sub]; [rewrite andb_false_r|rewrite andb_true_r; destruct (bool_dec recurse true) as [Hrec|Hrec%not_true_is_false]].
  - apply wp_bind. unfold wp at 1, mret, CM_ret. cbn [run_handler]. apply Hnext; [by left|done].
  - rewrite !(if_true recurse) by done. apply wp_bind. pose proof Hfit as Hfit'. rewrite encode_head, <- app_assoc in Hfit'. apply fits_app in Hfit'. cbn [tlv_body] in Hfit'. rewrite <- app_assoc in Hfit'.
    cbn [heads] in Hf, Hn. fold (heads_all sub) in Hf, Hn. specialize (Hd Hrec). cbn [height] in Hd. fold (height_all sub) in Hd.
    eapply wp_mono; [eapply (walk_inside c tag t sub q n depth d x1 y1); [done|by eapply Hsub|done|done|done|lia|lia|lia]|].
    intros res [[r' d'] x']. pose proof (run_handler_no_end (visits recurse (depth + 1) sub) y1) as Hne.
    destruct (run_handler (visits recurse (depth + 1) sub) y1) as [err2 y2]. cbn [fst snd]. intros (Hxy' & -> & Hres).
    destruct (is_no_error err2) eqn:E2; [destruct Hres as [-> ->]; apply Hnext; [by right|done]|]. rewrite Hres. by rewrite E2.
  - rewrite !(if_false recurse) by done. apply wp_bind. unfold wp at 1, mret, CM_ret. cbn [run_handler]. apply Hnext; [by left|done].
Qed.

Lemma walks_all es : walks es.
Proof using Hfuel no_end handles.
  assert (∀ e, ∀ tag t sub, e = Container tag t sub → walks sub) as H.
  { refine (tlv_rect' (fun e => ∀ tag t sub, e = Container tag t sub → walks sub) _ _); [intros; discriminate|]. intros tag t sub IH ? ? ? [= -> -> ->]. clear - IH Hfuel no_end handles.
    induction IH as [|e sub He _ IH]; [apply walks_nil|by apply walks_cons]. }
  induction es as [|e es IH]; [apply walks_nil|]. apply walks_cons; [by apply H|done].
Qed.

Lemma iterate_tree c es tail r x y d : stands_for x y → all_ok c es → container_known c → ends c tail r → fits m (encode_all p es ++ tail) → (heads_all es + 2 ≤ fuel)%nat →
  (recurse = true → height_all es < kMaxRecursionDepth) →
  let '(err, y') := run_handler (visits recurse 0 es) y in
  ∃ x', Iterate fuel aHandler recurse (gap p m c (encode_all p es ++ tail)) x d = Some (if is_no_error err then CHIP_END_OF_TLV else err, x', d)
        ∧ stands_for x' y'.
Proof using Hfuel no_end handles.
  intros Hxy Hok Hk Hr Hfit Hf Hd. pose proof (walks_all es c tail r fuel 0 d x y Hxy Hok Hk Hr Hfit Hf) as H.
  unfold Iterate. change (Iterate_at fuel aHandler recurse 0 ((gap p m c (encode_all p es ++ tail), d), x))
    with (walk fuel 0 ((gap p m c (encode_all p es ++ tail), d), x)).
  unfold wp, walked in H. specialize (H ltac:(lia) Hd). destruct (run_handler (visits recurse 0 es) y) as [err y'].
  destruct (walk fuel 0 _) as [[res [[r' d'] x2]]|]; [|done]. cbn [fst snd] in *. destruct H as (Hxy' & -> & Hres). exists x2. split; [|done].
  destruct (is_no_error err); [by destruct Hres as [-> _]|by rewrite Hres].
Qed.
End handler.

