(* ===== verification/TlvWriting.v ===== *)
(** * TlvWriting: writing a tree

    [put] writes a tree with the methods of the writer.  When the memory and the limit
    have room for the encoding, every call succeeds and the encoding is appended, for
    both ways a head can take to the buffer. *)
From S2P Require Import Prelude ChipError StateError Tlv TlvWriter.
From S2P Require TlvReader TlvReading.
From S2P Require Import TlvEncoding TlvTree.

Section put.
Context {D : Type} `{!TLVBackingStore D} (fuel : nat).

Definition put_value (tag : Z) (v : value) : CM (TLVWriter * D) unit :=
  match v with
  | Signed z => Put_int fuel 64 tag z false
  | Unsigned n => Put_uint fuel 64 tag n false
  | Boolean b => PutBoolean fuel tag b
  | Float32 x => Put_float fuel tag x
  | Float64 x => Put_double fuel tag x
  | Utf8 s => PutString fuel tag s
  | Octets s => PutBytes fuel tag s
  | Null => PutNull fuel tag
  end.

Fixpoint put (e : tlv) : CM (TLVWriter * D) unit :=
  match e with
  | Element tag v => put_value tag v
  | Container tag t es =>
      outerContainerType ← StartContainer fuel tag t;
      (fix put_all es := match es with [] => mret tt | e :: es => put e;; put_all es end) es;;
      EndContainer fuel outerContainerType
  end.
Fixpoint put_all (es : list tlv) : CM (TLVWriter * D) unit := match es with [] => mret tt | e :: es => put e;; put_all es end.
End put.

(** ** Room *)
Definition splice (m : bytes) (off : nat) (bs : bytes) : bytes := take off m ++ bs ++ drop (off + length bs) m.

Lemma splice_app m off b1 b2 : (off + length b1 ≤ length m)%nat → splice (splice m off b1) (off + length b1) b2 = splice m off (b1 ++ b2).
Proof.
  intros H. unfold splice. rewrite length_app. assert (length (take off m) = off) as Ho by (rewrite length_take; lia).
  rewrite (app_assoc (take off m) b1). rewrite take_app_length' by (rewrite length_app; lia).
  rewrite <- !app_assoc. do 3 f_equal. rewrite app_assoc. rewrite drop_app_ge by (rewrite length_app; lia). rewrite drop_drop. f_equal. rewrite length_app. lia.
Qed.
Lemma length_splice m off bs : (off + length bs ≤ length m)%nat → length (splice m off bs) = length m.
Proof. intros H. unfold splice. rewrite !length_app, length_take, length_drop. lia. Qed.

Definition emit (bs : bytes) (w : TLVWriter) : TLVWriter :=
  let n := Z.of_nat (length bs) in
  {| ImplicitProfileId := ImplicitProfileId w; mBackingStore := mBackingStore w; mBuf := splice (mBuf w) (Z.to_nat (mWritePoint w)) bs;
     mWritePoint := mWritePoint w + n; mRemainingLen := mRemainingLen w - n; mLenWritten := mLenWritten w + n; mMaxLen := mMaxLen w;
     mReservedSize := mReservedSize w; mContainerType := mContainerType w; mContainerOpen := mContainerOpen w;
     mCloseContainerReserved := mCloseContainerReserved w |}.

Record room (w : TLVWriter) (n : Z) : Prop := {
  room_closed : mContainerOpen w = false;
  room_point : 0 ≤ mWritePoint w;
  room_memory : mWritePoint w + mRemainingLen w ≤ Z.of_nat (length (mBuf w));
  room_remaining : n ≤ mRemainingLen w < 2 ^ 32;
  room_limit : mLenWritten w + n ≤ mMaxLen w < 2 ^ 32;
  room_written : 0 ≤ mLenWritten w }.

Lemma room_less w n n' : room w n → n' ≤ n → room w n'.
Proof. intros [] H. by constructor; try done; lia. Qed.

Lemma room_emit w bs n : room w (Z.of_nat (length bs) + n) → 0 ≤ n → room (emit bs w) n.
Proof.
  intros [Hc Hp Hm Hr Hl Hw] Hn. constructor; cbn; try done; try lia. rewrite length_splice by lia. lia.
Qed.

Lemma emit_app w b1 b2 : room w (Z.of_nat (length b1)) → emit b2 (emit b1 w) = emit (b1 ++ b2) w.
Proof.
  intros [Hc Hp Hm Hr Hl Hw]. unfold emit. cbn. rewrite length_app, Nat2Z.inj_add. rewrite Z2Nat.inj_add by lia. rewrite Nat2Z.id.
  rewrite splice_app by lia. f_equal; lia.
Qed.

Lemma write_here_emit bs w : room w (Z.of_nat (length bs)) → write_here bs w = Some (emit bs w).
Proof.
  intros [Hc Hp Hm Hr Hl Hw]. unfold write_here.
  destruct (mwrite (mBuf w) (Z.to_nat (mWritePoint w)) bs) as [buf|] eqn:E.
  - apply mwrite_Some in E as [_ ->]. f_equal. unfold emit, splice. cbn.
    rewrite !wrap_small by (unfold in_u; lia). done.
  - destruct (mwrite_is_Some (mBuf w) (Z.to_nat (mWritePoint w)) bs) as [x Hx]; [lia|]. by rewrite Hx in E.
Qed.

Lemma emit_nil w : mContainerOpen w = false → 0 ≤ mWritePoint w → emit [] w = w.
Proof. intros Hc Hp. destruct w. unfold emit, splice. cbn in *. rewrite Nat.add_0_r, take_drop. f_equal; lia. Qed.

Section writing.
Context {D : Type} `{!TLVBackingStore D} (fuel : nat) (Hfuel : (2 ≤ fuel)%nat).
Implicit Types d : D.

Lemma write_emit bs w d : room w (Z.of_nat (length bs)) → write bs (w, d) = Some (inr tt, (emit bs w, d)).
Proof. intros H. unfold write. cbn [fst snd]. by rewrite write_here_emit. Qed.

Lemma WriteData_emit bs w d : room w (Z.of_nat (length bs)) → WriteData fuel bs (w, d) = Some (inr tt, (emit bs w, d)).
Proof using Hfuel.
  intros Hr. pose proof Hr as [Hc Hp Hm Hrem Hl Hw]. unfold WriteData. erewrite bind_ok by done. cbn [fst id].
  rewrite (wrap_small 32 (mLenWritten w + _)) by (unfold in_u; lia). rewrite (proj2 (Z.leb_le _ _)) by lia. erewrite bind_ok by done.
  destruct fuel as [|[|f]]; [lia..|]. cbn [WriteData_loop]. destruct bs as [|b bs].
  - cbn [length Z.of_nat Z.ltb Z.compare]. by rewrite emit_nil.
  - rewrite (proj2 (Z.ltb_lt 0 _)) by (cbn; lia). erewrite bind_ok by done. cbn [fst id].
    rewrite (proj2 (Z.eqb_neq (mRemainingLen w) 0)) by (cbn [length] in Hrem; lia). erewrite bind_ok by done. erewrite bind_ok by done. cbn [fst].
    rewrite (proj2 (Z.ltb_ge (mRemainingLen w) _)) by lia. rewrite Nat2Z.id, take_ge by done.
    erewrite bind_ok by (by apply write_emit). by rewrite drop_all.
Qed.

Lemma length_head et tag x w : 1 ≤ Z.of_nat (length (head_bytes et tag x w)).
Proof. unfold head_bytes. destruct (tag_bytes tag w). cbn. lia. Qed.

(** Both ways write the head. *)
Lemma WriteElementHead_emit et tag x w d : room w (Z.of_nat (length (head_bytes et tag x w))) → tag_error et tag w = false →
  WriteElementHead fuel et tag x (w, d) = Some (inr tt, (emit (head_bytes et tag x w) w, d)).
Proof using Hfuel.
  intros Hr He. unfold WriteElementHead. erewrite bind_ok by done. cbn [fst id]. rewrite (room_closed _ _ Hr), He.
  destruct (_ && _); [by apply write_emit|by apply WriteData_emit].
Qed.

(** ** Values and trees *)
Definition writes_in (c : Z) : Prop := c = kTLVType_NotSpecified ∨ TLVTypeIsContainer c = true.

(** The writer admits the tags that the reader admits. *)
Lemma tag_error_admits et tag w : tag_ok tag → writes_in (mContainerType w) → et ≠ ElementType_EndOfContainer →
  tag_error et tag w = negb (admits (mContainerType w) tag).
Proof.
  intros Hok Hc He. unfold tag_error, admits. rewrite (proj2 (Z.eqb_neq _ _) He). generalize dependent (mContainerType w). intros c Hc.
  assert (c = kTLVType_NotSpecified ∨ c = kTLVType_Structure ∨ c = kTLVType_Array ∨ c = kTLVType_List) as Hcs
    by (destruct Hc as [->|Hc]; [by left|right; by apply container_type]).
  destruct (IsSpecialTag tag) eqn:Hs.
  - destruct (special_tag tag Hok Hs) as [(Hx & Hn & _ & Ha)|(Hx & Hn & ->)].
    + rewrite (proj2 (Z.leb_le _ kContextTagMaxNum)) by done. rewrite Hx, (proj2 (Z.eqb_neq _ _) Ha). by destruct Hcs as [-> | [-> | [-> | ->]]].
    + rewrite (proj2 (Z.leb_gt _ kContextTagMaxNum)) by (rewrite Hn; done). rewrite Hx, Z.eqb_refl. by destruct Hcs as [-> | [-> | [-> | ->]]].
  - destruct (not_special tag (proj1 Hok) Hs) as (Hx & Ha & _). rewrite Hx, (proj2 (Z.eqb_neq _ _) Ha). by destruct Hcs as [-> | [-> | [-> | ->]]].
Qed.

Lemma wrap_wrap_le v w z : 0 ≤ v ≤ w → wrap v (wrap w z) = wrap v z.
Proof. intros H. unfold wrap. rewrite <- Znumtheory.Zmod_div_mod; [done|lia|lia|]. exists (2 ^ (w - v)). rewrite <- Z.pow_add_r by lia. f_equal. lia. Qed.

Lemma value_bytes_signed z : value_bytes (value_type (Signed z)) (u64 z) = value_bytes (value_type (Signed z)) (value_raw (Signed z)).
Proof.
  cbn [value_type value_raw]. rewrite width_int by apply signed_index_range.
  destruct (signed_index_range z) as [H1 H2]. assert (signed_index z = 0 ∨ signed_index z = 1 ∨ signed_index z = 2 ∨ signed_index z = 3) as [-> | [-> | [-> | ->]]] by lia;
    unfold value_bytes; cbn -[wrap le_bytes]; f_equal; rewrite ?wrap_wrap_le by lia; done.
Qed.

Lemma head_signed tag z w : head_bytes (value_type (Signed z)) tag (u64 z) w = head (ImplicitProfileId w) (value_type (Signed z)) tag (value_raw (Signed z)).
Proof. rewrite head_bytes_head. rewrite !head_eq. by rewrite value_bytes_signed. Qed.

Lemma put_uint_head tag n w d : Put_uint fuel 64 tag n false (w, d) = WriteElementHead fuel (value_type (Unsigned n)) tag n (w, d).
Proof. unfold Put_uint, Put_uint64. cbn [value_type]. unfold size_index. by repeat case_match. Qed.
Lemma put_int_head tag z w d : Put_int fuel 64 tag z false (w, d) = WriteElementHead fuel (value_type (Signed z)) tag (u64 z) (w, d).
Proof. unfold Put_int, Put_int64. cbn [value_type]. unfold signed_index. by repeat case_match. Qed.

Lemma length_type (s : bytes) : Z.of_nat (length s) < 2 ^ 32 →
  let n := Z.of_nat (length s) in let i := if n <=? 255 then kTLVFieldSize_1Byte else if n <=? 65535 then kTLVFieldSize_2Byte else kTLVFieldSize_4Byte in
  Z.lor kTLVType_UTF8String i = value_type (Utf8 s) ∧ Z.lor kTLVType_ByteString i = value_type (Octets s).
Proof. intros H n i. cbn [value_type]. unfold size_index. fold n. unfold i. destruct (n <=? 255); [done|]. destruct (n <=? 65535); [done|]. by rewrite (proj2 (Z.leb_le n _)) by lia. Qed.

Lemma put_data_emit type v s tag w d : (type = kTLVType_UTF8String ∧ v = Utf8 s ∨ type = kTLVType_ByteString ∧ v = Octets s) → value_ok v →
  room w (Z.of_nat (length (head (ImplicitProfileId w) (value_type v) tag (value_raw v) ++ value_payload v))) → tag_error (value_type v) tag w = false →
  WriteElementWithData fuel type tag s (w, d) =
  Some (inr tt, (emit (head (ImplicitProfileId w) (value_type v) tag (value_raw v) ++ value_payload v) w, d)).
Proof using Hfuel.
  intros Hv Hok Hr He. assert (Z.of_nat (length s) < 2 ^ 32) as Hl by (destruct Hv as [[_ ->]|[_ ->]]; done).
  assert (value_raw v = Z.of_nat (length s) ∧ value_payload v = s) as [Hraw Hpay] by (destruct Hv as [[_ ->]|[_ ->]]; done).
  unfold WriteElementWithData. destruct (length_type s Hl) as [H1 H2].
  assert (Z.lor type (if Z.of_nat (length s) <=? 255 then kTLVFieldSize_1Byte else if Z.of_nat (length s) <=? 65535 then kTLVFieldSize_2Byte else kTLVFieldSize_4Byte) = value_type v) as ->
    by (destruct Hv as [[-> ->]|[-> ->]]; [exact H1|exact H2]).
  assert (Z.land type kTLVTypeSizeMask = 0) as -> by (by destruct Hv as [[-> _]|[-> _]]). cbn [Z.eqb negb].
  rewrite Hpay, Hraw in *. rewrite length_app, Nat2Z.inj_add in Hr.
  erewrite bind_ok by (apply WriteElementHead_emit; [rewrite head_bytes_head; eapply room_less; [exact Hr|lia]|done]).
  rewrite head_bytes_head. rewrite WriteData_emit by (eapply room_emit; [exact Hr|lia]).
  by rewrite emit_app by (eapply room_less; [exact Hr|lia]).
Qed.

Lemma put_value_emit tag v w d : tlv_ok (mContainerType w) (Element tag v) → writes_in (mContainerType w) →
  room w (Z.of_nat (length (encode (ImplicitProfileId w) (Element tag v)))) →
  put_value fuel tag v (w, d) = Some (inr tt, (emit (encode (ImplicitProfileId w) (Element tag v)) w, d)).
Proof using Hfuel.
  intros (Hok & Had & Hv) Hc Hr. cbn [encode] in *.
  assert (tag_error (value_type v) tag w = false) as He.
  { rewrite tag_error_admits; [by rewrite Had|done|done|]. pose proof (value_type_range v). unfold ElementType_EndOfContainer. lia. }
  destruct v as [z|n|b|x|x|s|s|]; cbn [put_value value_payload] in *; rewrite ?app_nil_r in *.
  - rewrite put_int_head. rewrite <- head_signed in *. by apply WriteElementHead_emit.
  - rewrite put_uint_head. by apply WriteElementHead_emit.
  - unfold PutBoolean. by apply WriteElementHead_emit.
  - by apply WriteElementHead_emit.
  - by apply WriteElementHead_emit.
  - unfold PutString. apply put_data_emit; [by left|done..].
  - unfold PutBytes. apply put_data_emit; [by right|done..].
  - by apply WriteElementHead_emit.
Qed.

(** Inside a container, with its end marker reserved if the writer does that *)
Definition inside (t : Z) (w : TLVWriter) : TLVWriter :=
  w <| mMaxLen := if mCloseContainerReserved w then mMaxLen w - kEndOfContainerMarkerSize else mMaxLen w |> <| mContainerType := t |>.

Lemma emit_inside bs t w : emit bs (inside t w) = inside t (emit bs w).
Proof. done. Qed.

Lemma room_inside t w n : room w (n + 1) → room (inside t w) n.
Proof. intros [Hc Hp Hm Hr Hl Hw]. constructor; cbn; try done; try lia. unfold kEndOfContainerMarkerSize. destruct (mCloseContainerReserved w); lia. Qed.

Lemma start_emit tag t w d : TLVTypeIsContainer t = true → tag_error t tag w = false →
  room w (Z.of_nat (length (head (ImplicitProfileId w) t tag 0)) + 1) →
  StartContainer fuel tag t (w, d) = Some (inr (mContainerType w), (inside t (emit (head (ImplicitProfileId w) t tag 0) w), d)).
Proof using Hfuel.
  intros Ht He Hr. pose proof Hr as [Hc Hp Hm Hrem Hl Hw]. unfold StartContainer. rewrite Ht. cbn [negb].
  set (w0 := w <| mMaxLen := if mCloseContainerReserved w then mMaxLen w - kEndOfContainerMarkerSize else mMaxLen w |>).
  assert (container_head fuel tag t (w, d) = Some (inr tt, (emit (head (ImplicitProfileId w) t tag 0) w0, d))) as Hh.
  { unfold container_head. erewrite bind_ok by done. cbn [fst id].
    assert (WriteElementHead fuel t tag 0 (w0, d) = Some (inr tt, (emit (head (ImplicitProfileId w) t tag 0) w0, d))) as Hw0.
    { rewrite WriteElementHead_emit; [done| |done]. rewrite head_bytes_head. by apply (room_inside (mContainerType w)) in Hr. }
    assert ((if mCloseContainerReserved w
             then verify (kEndOfContainerMarkerSize <=? mMaxLen w) CHIP_ERROR_BUFFER_TOO_SMALL;;
                  set (D := D) (fun w => w <| mMaxLen := mMaxLen w - kEndOfContainerMarkerSize |>)
             else mret tt) (w, d) = Some (inr tt, (w0, d))) as Hres.
    { unfold w0. destruct (mCloseContainerReserved w) eqn:Hcr.
      - rewrite (proj2 (Z.leb_le _ _)) by (unfold kEndOfContainerMarkerSize; lia). by erewrite bind_ok by done.
      - destruct w. cbn in *. by subst. }
    erewrite bind_ok by exact Hres. erewrite bind_ok by (unfold attempt; by rewrite Hw0). done. }
  erewrite bind_ok by exact Hh. erewrite bind_ok by done. cbn [fst]. erewrite bind_ok by done. cbn [fst snd].
  unfold mret, CM_ret. do 3 f_equal. unfold inside, emit, w0. cbn. by rewrite Hc.
Qed.

Lemma end_emit t w d : TLVTypeIsContainer t = true → room w 1 →
  EndContainer fuel (mContainerType w) (inside t w, d) = Some (inr tt, (emit end_marker w, d)).
Proof using Hfuel.
  intros Ht Hr. pose proof Hr as [Hc Hp Hm Hrem Hl Hw]. unfold EndContainer. erewrite bind_ok by done. cbn [fst id].
  change (mContainerType (inside t w)) with t. rewrite Ht. cbn [negb]. erewrite bind_ok by done. cbn [fst snd].
  assert (unreserve_marker ((inside t w) <| mContainerType := mContainerType w |>) = w) as ->.
  { destruct w as [a b c e g h i j k l o]. unfold unreserve_marker, inside, kEndOfContainerMarkerSize in *. cbn in *. destruct o; cbn; [|done].
    f_equal. rewrite wrap_small by (unfold in_u; lia). lia. }
  rewrite WriteElementHead_emit; [done| |].
  - rewrite head_bytes_head, end_marker_head. done.
  - done.
Qed.

Definition puts (e : tlv) : Prop := ∀ w d, tlv_ok (mContainerType w) e → writes_in (mContainerType w) →
  room w (Z.of_nat (length (encode (ImplicitProfileId w) e))) → put fuel e (w, d) = Some (inr tt, (emit (encode (ImplicitProfileId w) e) w, d)).

Lemma put_all_emit es : Forall puts es → ∀ w d, all_ok (mContainerType w) es → writes_in (mContainerType w) →
  room w (Z.of_nat (length (encode_all (ImplicitProfileId w) es))) →
  put_all fuel es (w, d) = Some (inr tt, (emit (encode_all (ImplicitProfileId w) es) w, d)).
Proof.
  induction 1 as [|e es He _ IH]; intros w d Hok Hc Hr; cbn [put_all].
  - change (encode_all (ImplicitProfileId w) []) with (@nil Z). by rewrite emit_nil by apply Hr.
  - destruct Hok as [Hok1 Hok2]. rewrite encode_cons, length_app, Nat2Z.inj_add in *.
    erewrite bind_ok by (apply He; [done|done|eapply room_less; [exact Hr|lia]]).
    rewrite IH; [|done|done|cbn [emit ImplicitProfileId]; eapply room_emit; [exact Hr|lia]].
    do 3 f_equal. cbn [emit ImplicitProfileId]. by rewrite emit_app by (eapply room_less; [exact Hr|lia]).
Qed.

Lemma put_emit e : puts e.
Proof using Hfuel.
  revert e. refine (tlv_rect' _ _ _).
  { intros tag v w d He Hc Hr. by apply put_value_emit. }
  intros tag t es IH w d He Hc Hr. pose proof He as (Hok & Had & Ht & Hes). cbn [put]. change (encode (ImplicitProfileId w) (Container tag t es))
    with (head (ImplicitProfileId w) t tag 0 ++ encode_all (ImplicitProfileId w) es ++ end_marker) in *.
  rewrite !length_app, !Nat2Z.inj_add in Hr. change (Z.of_nat (length end_marker)) with 1 in Hr.
  erewrite bind_ok.
  2: { apply start_emit; [done| |eapply room_less; [exact Hr|lia]]. rewrite tag_error_admits; [by rewrite Had|done|done|].
       by apply container_type in Ht as [-> | [-> | ->]]. }
  set (w1 := emit (head (ImplicitProfileId w) t tag 0) w).
  assert (room w1 (Z.of_nat (length (encode_all (ImplicitProfileId w) es)) + 1)) as Hr1 by (eapply room_emit; [exact Hr|lia]).
  assert (put_all fuel es (inside t w1, d) = Some (inr tt, (inside t (emit (encode_all (ImplicitProfileId w) es) w1), d))) as Hall.
  { rewrite (put_all_emit es IH (inside t w1) d); [done|done|by right|by apply room_inside]. }
  change ((fix put_all es := match es with [] => mret tt | e :: es => put fuel e;; put_all es end) es) with (put_all fuel es).
  erewrite bind_ok by exact Hall. change (mContainerType w) with (mContainerType (emit (encode_all (ImplicitProfileId w) es) w1)).
  rewrite end_emit; [|done|]. 2: { eapply room_emit; [exact Hr1|lia]. }
  do 3 f_equal. rewrite emit_app by (eapply room_less; [exact Hr1|lia]). unfold w1. rewrite emit_app by (eapply room_less; [exact Hr|lia]). done.
Qed.

Lemma put_trees_emit es w d : all_ok (mContainerType w) es → writes_in (mContainerType w) →
  room w (Z.of_nat (length (encode_all (ImplicitProfileId w) es))) →
  put_all fuel es (w, d) = Some (inr tt, (emit (encode_all (ImplicitProfileId w) es) w, d)).
Proof using Hfuel. apply put_all_emit. apply Forall_forall. intros e _. apply put_emit. Qed.
End writing.
