(* ===== verification/TlvRoundtrip.v ===== *)
(** * TlvRoundtrip: what is written is what is read

    The writer and the reader together, the searches on an encoded container, and
    integers read at another size. *)
From S2P Require Import Prelude ChipError StateError Tlv TlvReader TlvReading TlvEncoding TlvTree TlvUtilities TlvIterate.
From S2P Require TlvWriter TlvWriting.

(** What a program sees of an element *)
Definition api_type (e : tlv) : Z :=
  match e with
  | Container _ t _ => t
  | Element _ v =>
      match v with
      | Signed _ => kTLVType_SignedInteger | Unsigned _ => kTLVType_UnsignedInteger | Boolean _ => kTLVType_Boolean
      | Float32 _ | Float64 _ => kTLVType_FloatingPointNumber | Utf8 _ => kTLVType_UTF8String | Octets _ => kTLVType_ByteString
      | Null => kTLVType_Null
      end
  end.
Definition api_value (e : tlv) : option value := match e with Element _ v => Some v | Container _ _ _ => None end.

Lemma GetType_element p m c k e q : tlv_ok k e → GetType (at_element p m c e q) = api_type e.
Proof.
  intros He. pose proof (at_element_type p m c k e q He) as Ht. destruct e as [tag v|tag t es]; cbn [tlv_type] in Ht; [by apply GetType_value|].
  destruct He as (_ & _ & Hc & _). unfold GetType. rewrite Ht. by apply container_type in Hc as [-> | [-> | ->]].
Qed.

Lemma api_value_element p m c k e q : tlv_ok k e → fits m (tlv_body p e ++ q) → read_value (at_element p m c e q) = api_value e.
Proof.
  intros He Hfit. destruct e as [tag v|tag t es]; [by eapply read_value_element|].
  unfold read_value. erewrite GetType_element by done. cbn [api_type]. destruct He as (_ & _ & Hc & _). by apply container_type in Hc as [-> | [-> | ->]].
Qed.

(** A handler that notes each element with its depth *)
Definition event : Type := Z * Z * Z * option value.
Definition note (r : TLVReader) (depth : Z) (x : list event) : CHIP_ERROR * list event :=
  (CHIP_NO_ERROR, x ++ [(depth, GetTag r, GetType r, read_value r)]).
Definition event_of (x : Z * tlv) : event := (x.1, tlv_tag x.2, api_type x.2, api_value x.2).

Lemma run_note l x : run_handler (fun e depth x => (CHIP_NO_ERROR, x ++ [event_of (depth, e)])) l x = (CHIP_NO_ERROR, x ++ (event_of <$> l)).
Proof. revert x; induction l as [|[k e] l IH]; intros x; cbn; [by rewrite app_nil_r|]. by rewrite IH, <- app_assoc. Qed.

Lemma init_gap data : Z.of_nat (length data) < 2 ^ 32 → Init data = gap kProfileIdNotSpecified (Z.of_nat (length data)) kTLVType_NotSpecified data.
Proof. intros H. unfold Init, gap, rd0, rd. rewrite Z.min_l by lia. rewrite Nat2Z.id, firstn_all. f_equal. lia. Qed.

Lemma writer_init_room buf maxLen n : n ≤ maxLen → maxLen ≤ Z.of_nat (length buf) → Z.of_nat (length buf) < 2 ^ 32 → TlvWriting.room (TlvWriter.Init buf maxLen) n.
Proof. intros H1 H2 H3. unfold TlvWriter.Init. constructor; cbn; done || lia. Qed.

Section roundtrip.
Context {D : Type} `{!TLVBackingStore D}.

(** C7: Elements written with the writer are what the reader finds: every tree of
    elements and containers whose encoding fits is written without an error, no byte
    behind the encoding is touched, and iterating over the bytes shows every element
    once, in preorder, with its depth, its tag, its type and its value. *)
Theorem tlv_roundtrip es buf maxLen fuel (d : D)
    (Hok : all_ok kTLVType_NotSpecified es) (Hdepth : height_all es < kMaxRecursionDepth)
    (Hroom : Z.of_nat (length (encode_all kProfileIdNotSpecified es)) ≤ maxLen) (Hbuf : maxLen ≤ Z.of_nat (length buf) < 2 ^ 32)
    (Hfuel : (length (encode_all kProfileIdNotSpecified es) + 2 ≤ fuel)%nat) :
  ∃ w, TlvWriting.put_all fuel es (TlvWriter.Init buf maxLen, d) = Some (inr tt, (w, d))
    ∧ let n := Z.to_nat (TlvWriter.mLenWritten w) in
      drop n (TlvWriter.mBuf w) = drop n buf
      ∧ Iterate fuel note true (Init (take n (TlvWriter.mBuf w))) [] d = Some (CHIP_END_OF_TLV, event_of <$> visits true 0 es, d).
Proof.
  set (data := encode_all kProfileIdNotSpecified es) in *.
  exists (TlvWriting.emit data (TlvWriter.Init buf maxLen)). split.
  { apply TlvWriting.put_trees_emit; [lia|done|by left|]. apply writer_init_room; [done|lia|lia]. }
  cbn [TlvWriting.emit TlvWriter.Init TlvWriter.mLenWritten TlvWriter.mBuf TlvWriter.mWritePoint]. rewrite Z.add_0_l, Nat2Z.id.
  unfold TlvWriting.splice. change (Z.to_nat 0) with 0%nat. rewrite take_0. cbn [app Nat.add]. rewrite drop_app_length, take_app_length. split; [done|].
  rewrite init_gap by lia.
  pose proof (iterate_tree fuel ltac:(lia) note true kProfileIdNotSpecified (Z.of_nat (length data)) (fun e depth x => (CHIP_NO_ERROR, x ++ [event_of (depth, e)])) eq) as H.
  specialize (H ltac:(intros k e c q depth x y He Hfit ->; unfold note, event_of; cbn [fst snd]; by erewrite GetType_element, api_value_element by done) ltac:(by intros ???)).
  specialize (H kTLVType_NotSpecified es [] _ [] [] d eq_refl Hok ltac:(by left) (ends_input _ _ _)). fold data in H. rewrite app_nil_r in H.
  rewrite run_note in H. cbn [is_no_error app] in H. edestruct H as (x' & HI & ->); [unfold fits; lia| |done|exact HI].
  pose proof (heads_le kProfileIdNotSpecified _ es Hok) as Hh. fold data in Hh. lia.
Qed.
End roundtrip.

(** ** Searches *)
Section search.
Context {D : Type} `{!TLVBackingStore D} (fuel : nat) (Hfuel : (2 ≤ fuel)%nat).

(** The first element of a container with the tag, as the reader at it *)
Fixpoint find_in (tag p m c : Z) (es : list tlv) (tail : bytes) : CHIP_ERROR + TLVReader :=
  match es with
  | [] => inl CHIP_END_OF_TLV
  | e :: es => if tag =? tlv_tag e then inr (at_element p m c e (encode_all p es ++ tail)) else find_in tag p m c es tail
  end.

Lemma api_type_specified c e : tlv_ok c e → api_type e ≠ kTLVType_NotSpecified.
Proof. destruct e as [tag v|tag t es]; cbn; [by destruct v|]. intros (_ & _ & Ht & _) ->. done. Qed.

Lemma find_loop_element n tag p m c k e q (d : D) : tlv_ok k e → fits m (encode p e ++ q) → (heads e + 2 ≤ fuel)%nat →
  Find_loop fuel n tag (at_element p m c e q, d) = Find_loop fuel n tag (gap p m c q, d).
Proof using Hfuel. intros He Hfit Hf. destruct n as [|n]; [done|]. cbn [Find_loop]. unfold mbind, CM_bind. by erewrite next_element by done. Qed.

Lemma count_loop_element n count p m c k e q (d : D) : tlv_ok k e → fits m (encode p e ++ q) → (heads e + 2 ≤ fuel)%nat →
  Count_loop fuel n count (at_element p m c e q, d) = Count_loop fuel n count (gap p m c q, d).
Proof using Hfuel. intros He Hfit Hf. destruct n as [|n]; [done|]. cbn [Count_loop]. unfold mbind, CM_bind, attempt. by erewrite next_element by done. Qed.

Lemma heads_cons e es : heads_all (e :: es) = (heads e + heads_all es)%nat.
Proof. done. Qed.

Lemma find_loop_tree tag p m c es tail r (d : D) : ∀ n, all_ok c es → container_known c → ends p m c tail r → fits m (encode_all p es ++ tail) →
  (heads_all es + 2 ≤ fuel)%nat → (length es < n)%nat →
  ∃ r', Find_loop fuel n tag (gap p m c (encode_all p es ++ tail), d) = Some (find_in tag p m c es tail, (r', d)).
Proof using Hfuel.
  induction es as [|e es IH]; intros n Hok Hk Hr Hfit Hf Hn; (destruct n as [|n]; [cbn in Hn; lia|]); cbn [Find_loop find_in].
  - change (encode_all p [] ++ tail) with tail in *. erewrite bind_error by (by eapply next_ends). by eexists.
  - destruct Hok as [He Hok]. rewrite encode_cons, <- app_assoc, heads_cons in *. erewrite bind_ok by (by apply next_gap).
    erewrite bind_ok by done. cbn [fst id]. erewrite GetType_element by done.
    rewrite (proj2 (Z.eqb_neq _ _) (api_type_specified c e He)). erewrite bind_ok by done. change (GetTag (at_element p m c e _)) with (tlv_tag e).
    destruct (tag =? tlv_tag e); [by eexists|]. erewrite find_loop_element by (done || lia). cbn [length] in Hn.
    apply IH; [done|done|done|by eapply fits_app|lia|lia].
Qed.

Lemma count_loop_tree p m c es tail r (d : D) : ∀ n count, all_ok c es → container_known c → ends p m c tail r → fits m (encode_all p es ++ tail) →
  (heads_all es + 2 ≤ fuel)%nat → (length es < n)%nat →
  ∃ r', Count_loop fuel n count (gap p m c (encode_all p es ++ tail), d) = Some (inr (count + Z.of_nat (length es)), (r', d)).
Proof using Hfuel.
  induction es as [|e es IH]; intros n count Hok Hk Hr Hfit Hf Hn; (destruct n as [|n]; [cbn in Hn; lia|]); cbn [Count_loop].
  - change (encode_all p [] ++ tail) with tail in *. erewrite bind_ok by (unfold attempt; by erewrite next_ends by done).
    eexists. cbn [length]. rewrite Z.add_0_r. done.
  - destruct Hok as [He Hok]. rewrite encode_cons, <- app_assoc, heads_cons in *. erewrite bind_ok by (unfold attempt; by erewrite next_gap by done).
    cbv beta iota. erewrite count_loop_element by (done || lia). cbn [length] in *.
    edestruct (IH n (count + 1)) as [r' E]; [done|done|done|by eapply fits_app|lia|lia|]. exists r'. rewrite E. do 3 f_equal. lia.
Qed.

Lemma length_heads es : (length es ≤ heads_all es)%nat.
Proof. induction es as [|e es IH]; [done|]. rewrite heads_cons. cbn [length]. destruct e; cbn; lia. Qed.

(** The elements that a search with or without recursion sees, and the first of them
    with the tag *)
Definition first_visit (tag : Z) (recurse : bool) (es : list tlv) : option tlv :=
  snd <$> hd_error (filter (fun x => tlv_tag x.2 = tag) (visits recurse 0 es)).

(** The reader stands at the element. *)
Definition stands_at (p m : Z) (r : TLVReader) (e : tlv) : Prop := ∃ c k q, r = at_element p m c e q ∧ tlv_ok k e ∧ fits m (tlv_body p e ++ q).

Lemma run_count l n : run_handler (fun _ _ y => (CHIP_NO_ERROR, y + 1)) l n = (CHIP_NO_ERROR, n + Z.of_nat (length l)).
Proof. revert n; induction l as [|[k e] l IH]; intros n; cbn; [f_equal; lia|]. rewrite IH. f_equal. lia. Qed.

Lemma run_find tag l y : run_handler (fun e _ y => if tag =? tlv_tag e then (CHIP_ERROR_SENTINEL, Some e) else (CHIP_NO_ERROR, y)) l y =
  match hd_error (filter (fun x : Z * tlv => tlv_tag x.2 = tag) l) with Some x => (CHIP_ERROR_SENTINEL, Some x.2) | None => (CHIP_NO_ERROR, y) end.
Proof.
  induction l as [|[k e] l IH]; [done|]. cbn [run_handler]. rewrite filter_cons. cbn [snd]. destruct (Z.eqb_spec tag (tlv_tag e)) as [->|Hn].
  - by rewrite decide_True by done.
  - rewrite decide_False by congruence. cbn. apply IH.
Qed.

Lemma search_trees recurse p m c es tail r d : all_ok c es → container_known c → ends p m c tail r → fits m (encode_all p es ++ tail) →
  (heads_all es + 2 ≤ fuel)%nat → (recurse = true → height_all es < kMaxRecursionDepth) →
  let x := gap p m c (encode_all p es ++ tail) in
  (∀ tag, FindElementWithTag fuel tag (x, d) = Some (find_in tag p m c es tail, (x, d)))
  ∧ (c ≠ kTLVType_NotSpecified → CountRemainingInContainer fuel (x, d) = Some (inr (Z.of_nat (length es)), (x, d)))
  ∧ Count fuel x recurse d = Some (CHIP_NO_ERROR, Z.of_nat (length (visits recurse 0 es)), d)
  ∧ (∀ tag res, ∃ dest, Find fuel x tag res recurse d =
       Some (match first_visit tag recurse es with Some _ => CHIP_NO_ERROR | None => CHIP_ERROR_TLV_TAG_NOT_FOUND end, dest, d)
       ∧ match first_visit tag recurse es with Some e => stands_at p m dest e | None => dest = res end).
Proof using Hfuel.
  intros Hok Hk Hr Hfit Hf Hd x. subst x. pose proof (length_heads es) as Hl. split_and!.
  - intros tag. destruct (find_loop_tree tag p m c es tail r d fuel Hok Hk Hr Hfit Hf) as [r' E]; [lia|].
    unfold FindElementWithTag. erewrite bind_ok by done. cbn [fst id]. erewrite bind_ok by (unfold on_reader; cbn [snd]; by rewrite E). done.
  - intros Hc. destruct (count_loop_tree p m c es tail r d fuel 0 Hok Hk Hr Hfit Hf) as [r' E]; [lia|].
    unfold CountRemainingInContainer. erewrite bind_ok by done. cbn [fst id]. change (mContainerType (gap p m c _)) with c. rewrite (proj2 (Z.eqb_neq _ _) Hc).
    erewrite bind_ok by (unfold on_reader; cbn [snd fst]; by rewrite E). done.
  - unfold Count. pose proof (iterate_tree fuel Hfuel CountHandler recurse p m (fun _ _ y => (CHIP_NO_ERROR, y + 1)) eq) as H.
    specialize (H ltac:(by intros ? ? ? ? ? ? ? _ _ ->) ltac:(by intros ???) c es tail r 0 0 d eq_refl Hok Hk Hr Hfit Hf Hd).
    rewrite run_count in H. destruct H as (x' & -> & ->). cbn. done.
  - intros tag res. unfold Find, first_visit.
    pose proof (iterate_tree fuel Hfuel (FindHandler tag) recurse p m (fun e _ y => if tag =? tlv_tag e then (CHIP_ERROR_SENTINEL, Some e) else (CHIP_NO_ERROR, y))
      (fun r y => match y with Some e => stands_at p m r e | None => r = res end)) as H.
    lapply H; clear H; [intros H; lapply H; clear H; [intros H|]|].
    + specialize (H c es tail r res None d eq_refl Hok Hk Hr Hfit Hf Hd). rewrite run_find in H.
      destruct (hd_error (filter _ _)) as [y|]; destruct H as (x' & -> & Hx'); by exists x'.
    + intros e depth y. by destruct (tag =? tlv_tag e).
    + intros k e c' q depth r1 y He Hfit1 Hy. unfold FindHandler. change (GetTag (at_element p m c' e q)) with (tlv_tag e).
      destruct (tag =? tlv_tag e); cbn; [|done]. split; [done|]. by exists c', k, q.
Qed.

(** C20: The searches find what the container has: [FindElementWithTag] stops at the
    first element with the tag and leaves the reader where it was, as
    [CountRemainingInContainer] does, which counts the elements; [Utilities::Count] counts
    the elements of the whole tree, and [Utilities::Find] stands at the first of them in
    preorder with the tag, or leaves its result alone. *)
Theorem searches_correct recurse p c es tail r d (Hok : all_ok c es) (Hk : container_known c)
    (Hr : ends p (Z.of_nat (length (encode_all p es ++ tail))) c tail r) (Hlen : Z.of_nat (length (encode_all p es ++ tail)) < 2 ^ 32)
    (Hf : (heads_all es + 2 ≤ fuel)%nat) (Hd : recurse = true → height_all es < kMaxRecursionDepth) :
  let m := Z.of_nat (length (encode_all p es ++ tail)) in
  let x := gap p m c (encode_all p es ++ tail) in
  (∀ tag, FindElementWithTag fuel tag (x, d) = Some (find_in tag p m c es tail, (x, d)))
  ∧ (c ≠ kTLVType_NotSpecified → CountRemainingInContainer fuel (x, d) = Some (inr (Z.of_nat (length es)), (x, d)))
  ∧ Count fuel x recurse d = Some (CHIP_NO_ERROR, Z.of_nat (length (visits recurse 0 es)), d)
  ∧ (∀ tag res, ∃ dest, Find fuel x tag res recurse d =
       Some (match first_visit tag recurse es with Some _ => CHIP_NO_ERROR | None => CHIP_ERROR_TLV_TAG_NOT_FOUND end, dest, d)
       ∧ match first_visit tag recurse es with Some e => stands_at p m dest e | None => dest = res end).
Proof using Hfuel. by eapply search_trees. Qed.
End search.

(** ** Integers *)
Definition widths : list Z := [8; 16; 32; 64].
(** The element types of a fixed size *)
Definition int_type (w : Z) : Z :=
  if w =? 8 then ElementType_Int8 else if w =? 16 then ElementType_Int16 else if w =? 32 then ElementType_Int32 else ElementType_Int64.
Definition uint_type (w : Z) : Z :=
  if w =? 8 then ElementType_UInt8 else if w =? 16 then ElementType_UInt16 else if w =? 32 then ElementType_UInt32 else ElementType_UInt64.

Lemma widths_cases w : w ∈ widths → w = 8 ∨ w = 16 ∨ w = 32 ∨ w = 64.
Proof. unfold widths. set_solver. Qed.

Section integers.
Context {D : Type} `{!TLVBackingStore D} (fuel : nat) (Hfuel : (2 ≤ fuel)%nat).

(** A number whose head is next *)
Lemma next_number p m c et tag x q (d : D) : (0 ≤ et ≤ 7) → tag_ok tag → container_known c → admits c tag = true → in_u (8 * width et) x →
  fits m (head p et tag x ++ q) →
  ∃ r, Next fuel (gap p m c (head p et tag x ++ q), d) = Some (inr tt, (r, d)) ∧ ElementType r = et ∧ mElemLenOrVal r = x ∧ GetTag r = tag.
Proof using Hfuel.
  intros He Hok Hk Had Hx Hfit. exists (rd p m c false (control_byte p et tag) tag x q).
  destruct (control_byte_spec p et tag) as (Hb & Ht & _); [lia|].
  assert (ElementType (rd p m c false (control_byte p et tag) tag x q) = et) as Het by (by rewrite ElementType_rd).
  split_and!; try done. unfold Next. erewrite bind_ok by apply skip_gap. unfold gap, rd0.
  assert (TLVTypeHasLength et = false) as Hl by (unfold TLVTypeHasLength, ElementType_UTF8String_1ByteLength; lia).
  assert (VerifyElement (rd p m c false (control_byte p et tag) tag x q) = inr tt) as Hv.
  { unfold VerifyElement. rewrite Het, Hl. cbn [rd mContainerType mElemTag andb].
    rewrite (proj2 (Z.eqb_neq et _)) by (unfold ElementType_EndOfContainer; lia). rewrite (proj2 (Z.eqb_neq tag _)) by (by apply ok_not_unknown).
    unfold admits in Had.
    destruct (c =? kTLVType_NotSpecified) eqn:E0; [apply negb_true_iff in Had; by rewrite Had|].
    destruct (c =? kTLVType_Structure) eqn:E1; [apply negb_true_iff in Had; by rewrite Had|].
    destruct (c =? kTLVType_Array) eqn:E2; [by rewrite Had|].
    destruct Hk as [-> | [-> |Hk]]; [done|done|]. by apply container_type in Hk as [-> | [-> | ->]]. }
  erewrite bind_ok. 2: { rewrite read_head; [by rewrite Hv|done|done|done|lia|done|by rewrite Hl]. }
  erewrite bind_ok by done. cbn [fst id]. rewrite Het. rewrite (proj2 (Z.eqb_neq et _)) by (unfold ElementType_EndOfContainer; lia).
  erewrite bind_ok by done. change (TLVTypeIsString et) with (TLVTypeHasLength et). by rewrite Hl.
Qed.

Lemma int_width w : w ∈ widths → 8 * width (int_type w) = w ∧ 8 * width (uint_type w) = w ∧ 0 ≤ int_type w ≤ 7 ∧ 0 ≤ uint_type w ≤ 7.
Proof. intros [-> | [-> | [-> | ->]]]%widths_cases; by vm_compute. Qed.

Lemma Get_int64_sized w z r : w ∈ widths → - 2 ^ (w - 1) ≤ z < 2 ^ (w - 1) → ElementType r = int_type w → mElemLenOrVal r = wrap w z →
  Get_int64 r = (CHIP_NO_ERROR, Some z).
Proof.
  intros Hw Hz Ht Hv. unfold Get_int64. rewrite Ht, Hv.
  apply widths_cases in Hw as [-> | [-> | [-> | ->]]]; cbn -[to_signed wrap]; rewrite ?wrap_idemp by lia; by rewrite to_signed_wrap by lia.
Qed.
Lemma Get_uint64_sized w n r : w ∈ widths → ElementType r = uint_type w → mElemLenOrVal r = n → Get_uint64 r = (CHIP_NO_ERROR, Some n).
Proof. intros Hw Ht Hv. unfold Get_uint64. rewrite Ht, Hv. by apply widths_cases in Hw as [-> | [-> | [-> | ->]]]. Qed.

(** A getter of another size gives the number or refuses it. *)
Lemma Get_int_narrow v z r : Get_int64 r = (CHIP_NO_ERROR, Some z) →
  Get_int v r = if decide (- 2 ^ (v - 1) ≤ z < 2 ^ (v - 1)) then (CHIP_NO_ERROR, Some z) else (CHIP_ERROR_INVALID_INTEGER_VALUE, None).
Proof. intros H. unfold Get_int. rewrite H. change (default 0 (Some z)) with z. destruct (_ && _) eqn:E; cbn [negb]; case_decide; done || lia. Qed.
Lemma Get_uint_narrow v n r : 0 ≤ n → Get_uint64 r = (CHIP_NO_ERROR, Some n) →
  Get_uint v r = if decide (in_u v n) then (CHIP_NO_ERROR, Some n) else (CHIP_ERROR_INVALID_INTEGER_VALUE, None).
Proof. intros Hn H. unfold Get_uint. rewrite H. change (default 0 (Some n)) with n. unfold in_u. destruct (n <? 2 ^ v) eqn:E; cbn [negb]; case_decide; done || lia. Qed.

Lemma length_head_le p et tag x : 0 ≤ et ≤ 24 → Z.of_nat (length (head p et tag x)) ≤ 17.
Proof.
  intros He. destruct (control_byte_spec p et tag He) as (Hb & Ht & _). pose proof (head_length_range _ Hb) as H. rewrite Ht, head_length_eq in H by done.
  rewrite head_eq. cbn [length]. rewrite length_app. pose proof (length_value_bytes et x). lia.
Qed.

(** Both ways of putting an integer write a head of a type that has it. *)
Lemma put_int_sized w tag z preserveSize wr (d : D) : w ∈ widths → - 2 ^ (w - 1) ≤ z < 2 ^ (w - 1) →
  ∃ w' x, w' ∈ widths ∧ - 2 ^ (w' - 1) ≤ z < 2 ^ (w' - 1)
    ∧ TlvWriter.Put_int fuel w tag z preserveSize (wr, d) = TlvWriter.WriteElementHead fuel (int_type w') tag x (wr, d)
    ∧ TlvWriter.head_bytes (int_type w') tag x wr = head (TlvWriter.ImplicitProfileId wr) (int_type w') tag (wrap w' z).
Proof using Hfuel.
  intros Hw Hz. destruct preserveSize; [by exists w, (wrap w z)|].
  assert (- 2 ^ 63 ≤ z < 2 ^ 63) as Hz64 by (apply widths_cases in Hw as [-> | [-> | [-> | ->]]]; lia).
  exists (8 * 2 ^ signed_index z), (u64 z). change (TlvWriter.Put_int fuel w tag z false (wr, d)) with (TlvWriter.Put_int fuel 64 tag z false (wr, d)). rewrite TlvWriting.put_int_head.
  assert (value_type (Signed z) = int_type (8 * 2 ^ signed_index z)) as E.
  { cbn [value_type]. by destruct (index_cases _ (signed_index_range z)) as [-> | [-> | [-> | ->]]]. }
  rewrite <- E. rewrite (TlvWriting.head_signed fuel Hfuel). cbn [value_raw value_type]. rewrite width_int by apply signed_index_range.
  split_and!; [|unfold signed_index..|done|done].
  - unfold widths. destruct (index_cases _ (signed_index_range z)) as [-> | [-> | [-> | ->]]]; set_solver.
  - repeat case_match; cbn; lia.
  - repeat case_match; cbn; lia.
Qed.

Lemma put_uint_sized w tag n preserveSize wr (d : D) : w ∈ widths → in_u w n →
  ∃ w', w' ∈ widths ∧ in_u w' n
    ∧ TlvWriter.Put_uint fuel w tag n preserveSize (wr, d) = TlvWriter.WriteElementHead fuel (uint_type w') tag n (wr, d).
Proof.
  intros Hw Hn. destruct preserveSize; [by exists w|].
  assert (in_u 64 n) as Hn64 by (apply widths_cases in Hw as [-> | [-> | [-> | ->]]]; unfold in_u in *; lia).
  exists (8 * 2 ^ size_index n). change (TlvWriter.Put_uint fuel w tag n false (wr, d)) with (TlvWriter.Put_uint fuel 64 tag n false (wr, d)). rewrite TlvWriting.put_uint_head. split_and!; [|by apply size_index_fits|].
  - unfold widths. destruct (index_cases _ (size_index_range n)) as [-> | [-> | [-> | ->]]]; set_solver.
  - cbn [value_type]. by destruct (index_cases _ (size_index_range n)) as [-> | [-> | [-> | ->]]].
Qed.

Lemma number_room p et tag x q : 0 ≤ et ≤ 24 → Z.of_nat (length q) + 17 < 2 ^ 32 → fits (Z.of_nat (length (head p et tag x ++ q))) (head p et tag x ++ q).
Proof. intros He Hq. pose proof (length_head_le p et tag x He). unfold fits. rewrite length_app. lia. Qed.

Lemma number_tag tag c wr et : tag_ok tag → admits c tag = true → TlvWriter.mContainerType wr = c → TlvWriting.writes_in c → 0 ≤ et ≤ 7 →
  TlvWriter.tag_error et tag wr = false.
Proof. intros Hok Had Hc Hin He. subst c. rewrite TlvWriting.tag_error_admits; [by rewrite Had|done|done|]. unfold ElementType_EndOfContainer. lia. Qed.

(** C22: An integer put with any of the sizes, the smallest or its own, is read with every
    getter of the same signedness: the number itself when the getter's type has it, and
    otherwise an error that leaves the destination alone; a getter of the other
    signedness refuses the element. *)
Theorem integers_correct w v p c tag z q (wr : TlvWriter.TLVWriter) (preserveSize : bool) (d : D)
    (Hw : w ∈ widths) (Hok : tag_ok tag) (Hk : container_known c) (Had : admits c tag = true) (Hp : TlvWriter.ImplicitProfileId wr = p)
    (Hc : TlvWriter.mContainerType wr = c) (Hin : TlvWriting.writes_in c) (Hroom : TlvWriting.room wr 17) (Hq : Z.of_nat (length q) + 17 < 2 ^ 32) :
  (- 2 ^ (w - 1) ≤ z < 2 ^ (w - 1) →
   ∃ bs r, TlvWriter.Put_int fuel w tag z preserveSize (wr, d) = Some (inr tt, (TlvWriting.emit bs wr, d))
     ∧ Next fuel (gap p (Z.of_nat (length (bs ++ q))) c (bs ++ q), d) = Some (inr tt, (r, d)) ∧ GetTag r = tag
     ∧ Get_int64 r = (CHIP_NO_ERROR, Some z)
     ∧ Get_int v r = (if decide (- 2 ^ (v - 1) ≤ z < 2 ^ (v - 1)) then (CHIP_NO_ERROR, Some z) else (CHIP_ERROR_INVALID_INTEGER_VALUE, None))
     ∧ (Get_uint64 r).1 = CHIP_ERROR_WRONG_TLV_TYPE)
  ∧ (in_u w z →
   ∃ bs r, TlvWriter.Put_uint fuel w tag z preserveSize (wr, d) = Some (inr tt, (TlvWriting.emit bs wr, d))
     ∧ Next fuel (gap p (Z.of_nat (length (bs ++ q))) c (bs ++ q), d) = Some (inr tt, (r, d)) ∧ GetTag r = tag
     ∧ Get_uint64 r = (CHIP_NO_ERROR, Some z)
     ∧ Get_uint v r = (if decide (in_u v z) then (CHIP_NO_ERROR, Some z) else (CHIP_ERROR_INVALID_INTEGER_VALUE, None))
     ∧ (Get_int64 r).1 = CHIP_ERROR_WRONG_TLV_TYPE).
Proof using Hfuel.
  split; intros Hz.
  - destruct (put_int_sized w tag z preserveSize wr d Hw Hz) as (w' & x & Hw' & Hz' & -> & Hh). destruct (int_width w' Hw') as (E1 & _ & E2 & _). rewrite Hp in Hh.
    destruct (next_number p (Z.of_nat (length (head p (int_type w') tag (wrap w' z) ++ q))) c (int_type w') tag (wrap w' z) q d) as (r & Hn & Ht & Hv & Htag);
      [done|done|done|done|rewrite E1; apply wrap_range; apply widths_cases in Hw'; lia|apply number_room; lia|].
    exists (head p (int_type w') tag (wrap w' z)), r. pose proof (Get_int64_sized w' z r Hw' Hz' Ht Hv) as Hg. split_and!; [|done|done|done|by apply Get_int_narrow|].
    + rewrite TlvWriting.WriteElementHead_emit; [by rewrite Hh|done| |by eapply number_tag].
      eapply TlvWriting.room_less; [exact Hroom|]. rewrite Hh. apply length_head_le. lia.
    + unfold Get_uint64. rewrite Ht. by apply widths_cases in Hw' as [-> | [-> | [-> | ->]]].
  - destruct (put_uint_sized w tag z preserveSize wr d Hw Hz) as (w' & Hw' & Hz' & ->). destruct (int_width w' Hw') as (_ & E1 & _ & E2).
    destruct (next_number p (Z.of_nat (length (head p (uint_type w') tag z ++ q))) c (uint_type w') tag z q d) as (r & Hn & Ht & Hv & Htag);
      [done|done|done|done|by rewrite E1|apply number_room; lia|].
    exists (head p (uint_type w') tag z), r. pose proof (Get_uint64_sized w' z r Hw' Ht Hv) as Hg.
    split_and!; [|done|done|done|apply Get_uint_narrow; [by destruct Hz|done]|].
    + rewrite TlvWriting.WriteElementHead_emit; rewrite ?head_bytes_head, ?Hp; [done|done| |by eapply number_tag].
      eapply TlvWriting.room_less; [exact Hroom|]. apply length_head_le. lia.
    + unfold Get_int64. rewrite Ht. by apply widths_cases in Hw' as [-> | [-> | [-> | ->]]].
Qed.
End integers.
