(* ===== verification/TlvWriterSafe.v ===== *)
(** * TlvWriterSafe: the writer stays in its buffer

    For a writer over one buffer, whatever the calls and their errors: the write point,
    the space that is left and the space that is reserved never pass the end, what was
    written is not changed, and no byte behind is touched.  The limit [mMaxLen] plays no
    part in it: with a store it is not always kept ([TlvDemo]). *)
From S2P Require Import Prelude ChipError StateError Tlv TlvWriter.
From S2P Require Import TlvEncoding.

Record writer_ok (w : TLVWriter) : Prop := {
  ok_store : mBackingStore w = false;
  ok_point : 0 ≤ mWritePoint w;
  ok_remaining : 0 ≤ mRemainingLen w;
  ok_reserved : 0 ≤ mReservedSize w;
  ok_memory : mWritePoint w + mRemainingLen w + mReservedSize w ≤ Z.of_nat (length (mBuf w)) < 2 ^ 32 }.

Definition extent (w : TLVWriter) : Z := mWritePoint w + mRemainingLen w + mReservedSize w.

(** The writer [w'] has gone on from [w]. *)
Record grows (w w' : TLVWriter) : Prop := {
  grows_point : mWritePoint w ≤ mWritePoint w';
  grows_extent : extent w' ≤ extent w;
  grows_length : length (mBuf w') = length (mBuf w);
  grows_before : take (Z.to_nat (mWritePoint w)) (mBuf w') = take (Z.to_nat (mWritePoint w)) (mBuf w);
  grows_behind : drop (Z.to_nat (extent w)) (mBuf w') = drop (Z.to_nat (extent w)) (mBuf w) }.

Lemma grows_refl w : grows w w.
Proof. by constructor. Qed.

Lemma take_of_take {A} (a b : nat) (l l' : list A) : (a ≤ b)%nat → take b l' = take b l → take a l' = take a l.
Proof. intros Hab H. apply (f_equal (take a)) in H. by rewrite !take_take, !Nat.min_l in H by done. Qed.
Lemma drop_of_drop {A} (a b : nat) (l l' : list A) : (a ≤ b)%nat → drop a l' = drop a l → drop b l' = drop b l.
Proof. intros Hab H. replace b with (a + (b - a))%nat by lia. by rewrite <- !drop_drop, H. Qed.

Lemma grows_trans w1 w2 w3 : 0 ≤ mWritePoint w1 → grows w1 w2 → grows w2 w3 → grows w1 w3.
Proof.
  intros H0 [P1 E1 L1 B1 A1] [P2 E2 L2 B2 A2]. constructor; [lia|lia|congruence| |].
  - rewrite <- B1. eapply take_of_take; [|exact B2]. lia.
  - rewrite <- A1. eapply drop_of_drop; [|exact A2]. lia.
Qed.

Section safe.
Context {D : Type} `{!TLVBackingStore D} (fuel : nat) (Hfuel : (2 ≤ fuel)%nat).

Definition wsafe_at {A} (m : CM (TLVWriter * D) A) (w : TLVWriter) (d : D) : Prop :=
  wp m (fun _ x => writer_ok x.1 ∧ grows w x.1 ∧ x.2 = d) (w, d).
Definition wsafe {A} (m : CM (TLVWriter * D) A) : Prop := ∀ w d, writer_ok w → wsafe_at m w d.

Lemma wsafe_bind {A B} (m : CM (TLVWriter * D) A) (k : A → CM (TLVWriter * D) B) : wsafe m → (∀ a, wsafe (k a)) → wsafe (m ≫= k).
Proof.
  intros Hm Hk w d Hw. apply wp_bind. eapply wp_mono; [by apply Hm|]. intros [e|a] [w' d'] (Hw' & Hg & Hd); [done|]. cbn [fst snd] in *. subst d'.
  eapply wp_mono; [by apply Hk|]. intros res x (? & ? & ?). split_and!; [done| |done]. eapply grows_trans; [apply Hw|done|done].
Qed.
Lemma wsafe_ret {A} (a : A) : wsafe (mret a).
Proof. intros w d Hw. split_and!; [done|apply grows_refl|done]. Qed.
Lemma wsafe_fail {A} e : wsafe (fail (A := A) e).
Proof. intros w d Hw. split_and!; [done|apply grows_refl|done]. Qed.
Lemma wsafe_writer {A} (f : TLVWriter → A) : wsafe (writer f).
Proof. intros w d Hw. split_and!; [done|apply grows_refl|done]. Qed.
Lemma wsafe_verify b e : wsafe (verify b e).
Proof. destruct b; [apply wsafe_ret|apply wsafe_fail]. Qed.
Lemma wsafe_attempt {A} (m : CM (TLVWriter * D) A) : wsafe m → wsafe (attempt m).
Proof. intros Hm w d Hw. apply wp_attempt. by apply Hm. Qed.
Lemma wsafe_if {A} (b : bool) (m1 m2 : CM (TLVWriter * D) A) : wsafe m1 → wsafe m2 → wsafe (if b then m1 else m2).
Proof. by destruct b. Qed.
Lemma wsafe_read {A B} (f : TLVWriter → A) (k : A → CM (TLVWriter * D) B) w d : wsafe_at (k (f w)) w d → wsafe_at (writer f ≫= k) w d.
Proof. done. Qed.

(** The fields that say where and how much may be written *)
Definition place (w : TLVWriter) := (mBackingStore w, mBuf w, mWritePoint w, mRemainingLen w, mReservedSize w).
Lemma place_ok w w' : place w' = place w → writer_ok w → writer_ok w' ∧ grows w w'.
Proof.
  unfold place. intros [= H1 H2 H3 H4 H5] []. split; [constructor; rewrite ?H1, ?H2, ?H3, ?H4, ?H5; done|].
  constructor; unfold extent; rewrite ?H2, ?H3, ?H4, ?H5; done.
Qed.
Lemma wp_set {A} f (k : unit → CM (TLVWriter * D) A) Q w d : wp (k tt) Q (f w, d) → wp (set f ≫= k) Q (w, d).
Proof. done. Qed.
Lemma wsafe_set f : (∀ w, place (f w) = place w) → wsafe (set f).
Proof. intros Hf w d Hw. destruct (place_ok w (f w) (Hf w) Hw). by split_and!. Qed.

Lemma wsafe_write bs w d : writer_ok w → Z.of_nat (length bs) ≤ mRemainingLen w → wsafe_at (write bs) w d.
Proof using. clear Hfuel fuel.
  intros [Hs Hp Hr Hv Hm] Hlen. unfold wsafe_at, wp, write, write_here. cbn [fst snd].
  destruct (mwrite (mBuf w) (Z.to_nat (mWritePoint w)) bs) as [buf|] eqn:E.
  - pose proof (mwrite_length _ _ _ _ E) as Hl. apply mwrite_Some in E as [Hle ->]. split_and!; [| |done].
    + constructor; cbn; try done; try lia; [apply (wrap_range 32); lia|]. rewrite (wrap_small 32 (_ - _)) by (unfold in_u; lia). rewrite Hl. lia.
    + constructor; cbn; try lia; try done.
      * unfold extent. cbn. rewrite (wrap_small 32 (_ - _)) by (unfold in_u; lia). lia.
      * rewrite take_app_le, take_take, Nat.min_id by (rewrite length_take; lia). done.
      * unfold extent. rewrite app_assoc. rewrite drop_app_ge by (rewrite length_app, length_take; lia). rewrite drop_drop. f_equal.
        rewrite length_app, length_take. lia.
  - destruct (mwrite_is_Some (mBuf w) (Z.to_nat (mWritePoint w)) bs) as [x Hx]; [lia|]. by rewrite Hx in E.
Qed.

Lemma loop_nil n x : WriteData_loop (S n) [] x = Some (inr tt, x).
Proof using. clear Hfuel fuel. done. Qed.

Lemma loop_full n p w d : mBackingStore w = false → mRemainingLen w = 0 → p ≠ [] → WriteData_loop (S n) p (w, d) = Some (inl CHIP_ERROR_NO_MEMORY, (w, d)).
Proof using. clear Hfuel fuel.
  intros Hs Hr Hp. cbn [WriteData_loop]. rewrite (proj2 (Z.ltb_lt 0 (Z.of_nat (length p)))) by (destruct p; [done|cbn; lia]).
  erewrite bind_ok by done. cbn [fst id]. rewrite Hr, Hs. done.
Qed.

Lemma loop_step n p w d : mRemainingLen w ≠ 0 → p ≠ [] → let k := Z.to_nat (Z.min (mRemainingLen w) (Z.of_nat (length p))) in
  WriteData_loop (S n) p (w, d) = (write (take k p);; WriteData_loop n (drop k p)) (w, d).
Proof using. clear Hfuel fuel.
  intros Hr Hp. cbn [WriteData_loop]. rewrite (proj2 (Z.ltb_lt 0 (Z.of_nat (length p)))) by (destruct p; [done|cbn; lia]).
  erewrite bind_ok by done. cbn [fst id]. rewrite (proj2 (Z.eqb_neq (mRemainingLen w) 0)) by done.
  erewrite bind_ok by done. erewrite bind_ok by done. cbn [fst].
  replace (if mRemainingLen w <? Z.of_nat (length p) then mRemainingLen w else Z.of_nat (length p))
    with (Z.min (mRemainingLen w) (Z.of_nat (length p))) by (destruct (Z.ltb_spec (mRemainingLen w) (Z.of_nat (length p))); lia). done.
Qed.

Lemma write_here_remaining p w w' : writer_ok w → Z.of_nat (length p) ≤ mRemainingLen w → write_here p w = Some w' →
  mRemainingLen w' = mRemainingLen w - Z.of_nat (length p).
Proof using. clear Hfuel fuel.
  intros [_ Hp Hr Hv Hm] Hl. unfold write_here. destruct (mwrite _ _ _) as [buf|]; [|done]. intros [= <-]. cbn.
  apply wrap_small. unfold in_u. lia.
Qed.

Lemma wsafe_WriteData bs : wsafe (WriteData fuel bs).
Proof using Hfuel.
  intros w d Hw. apply wsafe_read. apply wp_verify; [intros _|intros _; split_and!; [done|apply grows_refl|done]].
  destruct fuel as [|[|f]]; [lia..|]. unfold wsafe_at, wp. destruct (decide (bs = [])) as [->|Hbs].
  { rewrite loop_nil. split_and!; [done|apply grows_refl|done]. }
  destruct (decide (mRemainingLen w = 0)) as [Hr|Hr].
  { rewrite loop_full by (done || apply Hw). split_and!; [done|apply grows_refl|done]. }
  rewrite loop_step by done. pose proof (ok_remaining w Hw) as Hrem.
  remember (Z.to_nat (Z.min (mRemainingLen w) (Z.of_nat (length bs)))) as k eqn:Hk.
  assert (Z.of_nat (length (take k bs)) ≤ mRemainingLen w) as Hl by (rewrite length_take; lia).
  pose proof (wsafe_write (take k bs) w d Hw Hl) as Hwr. unfold wsafe_at, wp, write in Hwr. cbn [fst snd] in Hwr.
  destruct (write_here (take k bs) w) as [w1|] eqn:E; [|done]. cbn [fst snd] in Hwr. destruct Hwr as (Hw1 & Hg & _).
  erewrite bind_ok by (unfold write; cbn [fst snd]; by rewrite E).
  destruct (decide (drop k bs = [])) as [->|Hd].
  - rewrite loop_nil. by split_and!.
  - rewrite loop_full; [by split_and!|apply Hw1| |done].
    rewrite (write_here_remaining _ _ _ Hw Hl E), length_take.
    assert (k < length bs)%nat by (destruct (decide (length bs ≤ k)%nat); [exfalso; apply Hd, drop_ge; done|lia]). lia.
Qed.

Lemma head_bytes_le et tag x w : Z.of_nat (length (head_bytes et tag x w)) ≤ kStagingSize.
Proof.
  rewrite head_bytes_head, head_eq. cbn [length]. rewrite length_app. destruct (control_cases (ImplicitProfileId w) tag) as (k & Hk & _ & Hl).
  pose proof (length_value_bytes et x) as Hv. assert (width et ≤ 8) as Hw by (destruct (width_cases et) as [[-> _]|[[-> _]|[[-> _]|[[-> _]|[-> _]]]]]; lia).
  assert (default 0 (TlvReader.sTagSizes !! Z.to_nat k) ≤ 8) as Hs.
  { assert (k = 0 ∨ k = 1 ∨ k = 2 ∨ k = 3 ∨ k = 4 ∨ k = 5 ∨ k = 6 ∨ k = 7) as [-> | [-> | [-> | [-> | [-> | [-> | [-> | ->]]]]]]] by lia; by vm_compute. }
  unfold kStagingSize. lia.
Qed.

Lemma wsafe_WriteElementHead et tag x : wsafe (WriteElementHead fuel et tag x).
Proof using Hfuel.
  intros w d Hw. apply wsafe_read. cbn [id]. destruct (mContainerOpen w); [by apply wsafe_fail|]. destruct (tag_error et tag w); [by apply wsafe_fail|].
  destruct (_ && _) eqn:E; [|by apply wsafe_WriteData]. apply wsafe_write; [done|]. pose proof (head_bytes_le et tag x w). lia.
Qed.

(** ** The calls of a client *)
Inductive put : Type :=
  | Boolean (tag : Z) (v : bool) | Uint (w tag v : Z) (preserveSize : bool) | Int (w tag v : Z) (preserveSize : bool)
  | Float (tag bits : Z) | Double (tag bits : Z) | Null (tag : Z)
  | Octets (tag : Z) (data : bytes) | ByteSpan (tag : Z) (data : bytes) | Text (tag : Z) (data : bytes)
  | CheckedText (tag : Z) (data : bytes) | Formatted (tag : Z) (text : bytes) (alloc : Z → bool)
  | PreEncoded (tag containerType : Z) (data : bytes) | Start (tag containerType : Z) | End (outerContainerType : Z)
  | Reserve (aBufferSize : Z) | Unreserve (aBufferSize : Z) | Flush.

Definition run_put (c : put) : CM (TLVWriter * D) unit :=
  match c with
  | Boolean tag v => PutBoolean fuel tag v
  | Uint w tag v preserveSize => Put_uint fuel w tag v preserveSize
  | Int w tag v preserveSize => Put_int fuel w tag v preserveSize
  | Float tag bits => Put_float fuel tag bits
  | Double tag bits => Put_double fuel tag bits
  | Null tag => PutNull fuel tag
  | Octets tag data => PutBytes fuel tag data
  | ByteSpan tag data => Put_ByteSpan fuel tag data
  | Text tag data => PutString fuel tag data
  | CheckedText tag data => PutString_checked fuel tag data
  | Formatted tag text alloc => VPutStringF fuel tag text alloc
  | PreEncoded tag containerType data => PutPreEncodedContainer fuel tag containerType data
  | Start tag containerType => StartContainer fuel tag containerType;; mret tt
  | End outerContainerType => EndContainer fuel outerContainerType
  | Reserve aBufferSize => ReserveBuffer aBufferSize
  | Unreserve aBufferSize => UnreserveBuffer aBufferSize
  | Flush => Finalize
  end.

(** Sizes are of type [uint32_t]. *)
Definition put_ok (c : put) : Prop :=
  match c with Reserve aBufferSize | Unreserve aBufferSize => 0 ≤ aBufferSize | _ => True end.

(** A sequence of calls, errors ignored.  [Nested] opens a container writer, makes the
    calls of [inner] on it and closes it: the outer writer sees the same memory. *)
Inductive session : Type :=
  | Finish
  | Call (c : put) (rest : session)
  | Nested (tag containerType : Z) (inner rest : session).

Definition blank : TLVWriter := TlvWriter.Init [] 0.

Fixpoint run_session (s : session) : CM (TLVWriter * D) unit :=
  match s with
  | Finish => mret tt
  | Call c rest => attempt (run_put c);; run_session rest
  | Nested tag containerType inner rest =>
      opened ← attempt (OpenContainer fuel tag containerType blank);
      match opened with
      | inl _ => mret tt
      | inr c => fun x =>
          match run_session inner (c, x.2) with
          | Some (_, (c', d)) => attempt (CloseContainer fuel c') (x.1 <| mBuf := mBuf c' |>, d) ≫= fun '(_, x') => Some (inr tt, x')
          | None => None
          end
      end;;
      run_session rest
  end.

Fixpoint session_ok (s : session) : Prop :=
  match s with Finish => True | Call c rest => put_ok c ∧ session_ok rest | Nested _ _ inner rest => session_ok inner ∧ session_ok rest end.

Lemma wsafe_WriteElementWithData type tag data : wsafe (WriteElementWithData fuel type tag data).
Proof using Hfuel.
  unfold WriteElementWithData. apply wsafe_if; [apply wsafe_fail|].
  apply wsafe_bind; [apply wsafe_WriteElementHead|intros _; apply wsafe_WriteData].
Qed.

Lemma wsafe_ReserveBuffer n : 0 ≤ n → wsafe (ReserveBuffer n).
Proof using. clear Hfuel fuel.
  intros Hn w d Hw. apply wsafe_read. apply wp_verify; intros Hv; [|split_and!; [done|apply grows_refl|done]].
  apply Z.leb_le in Hv. destruct Hw as [Hs Hp Hr Hz Hm]. cbn [id] in Hv. unfold wsafe_at, wp, set, modify. cbn [fst snd].
  assert (u32 (mReservedSize w + n) = mReservedSize w + n) as E1 by (apply wrap_small; unfold in_u; lia).
  assert (u32 (mRemainingLen w - n) = mRemainingLen w - n) as E2 by (apply wrap_small; unfold in_u; lia).
  rewrite E1, E2. split_and!; [constructor; cbn; try done; lia|constructor; unfold extent; cbn; try done; lia|done].
Qed.

Lemma wsafe_UnreserveBuffer n : 0 ≤ n → wsafe (UnreserveBuffer n).
Proof using. clear Hfuel fuel.
  intros Hn w d Hw. apply wsafe_read. apply wp_verify; intros Hv; [|split_and!; [done|apply grows_refl|done]].
  apply Z.leb_le in Hv. destruct Hw as [Hs Hp Hr Hz Hm]. cbn [id] in Hv. unfold wsafe_at, wp, set, modify. cbn [fst snd].
  assert (u32 (mReservedSize w - n) = mReservedSize w - n) as E1 by (apply wrap_small; unfold in_u; lia).
  assert (u32 (mRemainingLen w + n) = mRemainingLen w + n) as E2 by (apply wrap_small; unfold in_u; lia).
  rewrite E1, E2. split_and!; [constructor; cbn; try done; lia|constructor; unfold extent; cbn; try done; lia|done].
Qed.

Lemma wsafe_Finalize : wsafe Finalize.
Proof using.
  intros w d Hw. apply wsafe_read. cbn [id]. rewrite (ok_store w Hw). destruct (mContainerOpen w); [by apply wsafe_fail|by apply wsafe_ret].
Qed.

Lemma place_unreserve w : place (unreserve_marker w) = place w.
Proof using. unfold unreserve_marker. by destruct (mCloseContainerReserved w). Qed.

Lemma wsafe_container_head tag ct : wsafe (container_head fuel tag ct).
Proof using Hfuel.
  apply wsafe_bind; [apply wsafe_writer|intros w]. apply wsafe_bind.
  - apply wsafe_if; [|apply wsafe_ret]. apply wsafe_bind; [apply wsafe_verify|intros _; by apply wsafe_set].
  - intros _. apply wsafe_bind; [apply wsafe_attempt, wsafe_WriteElementHead|]. intros [e|_]; [|apply wsafe_ret].
    apply wsafe_bind; [apply wsafe_set, place_unreserve|intros _; apply wsafe_fail].
Qed.

Lemma wsafe_StartContainer tag ct : wsafe (StartContainer fuel tag ct).
Proof using Hfuel.
  unfold StartContainer. apply wsafe_if; [apply wsafe_fail|]. apply wsafe_bind; [apply wsafe_container_head|intros _].
  apply wsafe_bind; [apply wsafe_writer|intros outer]. apply wsafe_bind; [by apply wsafe_set|intros _; apply wsafe_ret].
Qed.

Lemma wsafe_EndContainer outer : wsafe (EndContainer fuel outer).
Proof using Hfuel.
  apply wsafe_bind; [apply wsafe_writer|intros w]. apply wsafe_if; [apply wsafe_fail|].
  apply wsafe_bind; [|intros _; apply wsafe_WriteElementHead]. apply wsafe_set. intros w'. by rewrite place_unreserve.
Qed.

Create HintDb wsafe.
#[local] Hint Resolve wsafe_ret wsafe_fail wsafe_verify wsafe_writer wsafe_WriteData wsafe_WriteElementHead wsafe_WriteElementWithData
  wsafe_StartContainer wsafe_EndContainer wsafe_ReserveBuffer wsafe_UnreserveBuffer wsafe_Finalize : wsafe.

(** A method that is a sequence and a case analysis of such calls *)
Ltac wsafe_calls :=
  repeat match goal with
    | |- wsafe (_ ≫= _) => apply wsafe_bind; [|intros]
    | |- wsafe (if _ then _ else _) => apply wsafe_if
    end; auto with wsafe.

Lemma wsafe_put c : put_ok c → wsafe (run_put c).
Proof using Hfuel.
  destruct c; intros Hc; cbn [run_put put_ok] in *; unfold PutBoolean, Put_uint, Put_uint64, Put_int, Put_int64, Put_float, Put_double, PutNull,
    Put_ByteSpan, PutBytes, PutString_checked, PutString, VPutStringF, PutPreEncodedContainer; wsafe_calls.
Qed.

(** ** Container writers *)
Lemma OpenContainer_safe tag ct w d : writer_ok w →
  wp (OpenContainer fuel tag ct blank) (fun r x => writer_ok x.1 ∧ grows w x.1 ∧ x.2 = d ∧
    match r with inl _ => True | inr c => writer_ok c ∧ mBuf c = mBuf x.1 ∧ mWritePoint c = mWritePoint x.1 ∧ mRemainingLen c = mRemainingLen x.1 ∧ mReservedSize c = 0 end) (w, d).
Proof using Hfuel.
  intros Hw. unfold OpenContainer. destruct (negb _); [split_and!; [done|apply grows_refl|done|done]|].
  apply wp_bind. eapply wp_mono; [by apply wsafe_container_head|]. intros [e|u] [w1 d1] (Hw1 & Hg & Hd); [done|]. cbn [fst snd] in *. subst d1.
  assert (place (w1 <| mContainerOpen := true |>) = place w1) as Hpl by done. destruct (place_ok w1 _ Hpl Hw1) as [Hw2 Hg2]. unfold wp. cbn.
  split_and!; [exact Hw2|eapply grows_trans; [apply Hw|exact Hg|exact Hg2]|done| |done..]. destruct Hw1 as [Hs Hp Hr Hv Hm]. constructor; cbn; try done; lia.
Qed.

(** What is left of a piece of the memory of [w], up to the end of what it may write *)
Record inside (w : TLVWriter) (buf : bytes) (point remaining : Z) : Prop := {
  inside_point : mWritePoint w ≤ point;
  inside_remaining : 0 ≤ remaining;
  inside_extent : point + remaining ≤ mWritePoint w + mRemainingLen w;
  inside_length : length buf = length (mBuf w);
  inside_before : take (Z.to_nat (mWritePoint w)) buf = take (Z.to_nat (mWritePoint w)) (mBuf w);
  inside_behind : drop (Z.to_nat (extent w)) buf = drop (Z.to_nat (extent w)) (mBuf w) }.

Lemma inside_ok w w' buf point remaining : writer_ok w → inside w buf point remaining →
  place w' = (false, buf, point, remaining, mReservedSize w) → writer_ok w' ∧ grows w w'.
Proof using. clear Hfuel fuel.
  intros [Hs Hp Hr Hv Hm] [I1 I2 I3 I4 I5 I6]. unfold place. intros [= P1 P2 P3 P4 P5].
  split; constructor; unfold extent in *; rewrite ?P1, ?P2, ?P3, ?P4, ?P5; done || lia.
Qed.

(** The outer writer gets back what the container writer has left. *)
Lemma grown_inside c c' w : writer_ok w → writer_ok c' → grows c c' → mBuf c = mBuf w → mWritePoint c = mWritePoint w →
  mRemainingLen c = mRemainingLen w → mReservedSize c = 0 → inside w (mBuf c') (mWritePoint c') (mRemainingLen c').
Proof using. clear Hfuel fuel.
  intros [Hs Hp Hr Hv Hm] [Hs' Hp' Hr' Hv' Hm'] [G1 G2 G3 G4 G5] Hb Hpt Hrem Hres. unfold extent in G2, G5.
  rewrite Hb in G3, G4, G5. rewrite Hpt in G1, G2, G4, G5. rewrite Hrem, Hres in G2, G5. constructor; try done; [lia|].
  eapply drop_of_drop; [|exact G5]. unfold extent. lia.
Qed.

Lemma CloseContainer_safe c' w d : writer_ok w → mBackingStore c' = false → inside w (mBuf c') (mWritePoint c') (mRemainingLen c') →
  wp (CloseContainer fuel c') (fun _ x => writer_ok x.1 ∧ grows w x.1 ∧ x.2 = d) (w <| mBuf := mBuf c' |>, d).
Proof using Hfuel.
  intros Hw Hs' Hin. assert (writer_ok (w <| mBuf := mBuf c' |>) ∧ grows w (w <| mBuf := mBuf c' |>)) as [Ho Hg].
  { apply (inside_ok w _ (mBuf c') (mWritePoint w) (mRemainingLen w)); [done| |unfold place; cbn [mBackingStore mBuf mWritePoint mRemainingLen mReservedSize update]; by rewrite (ok_store w Hw)].
    destruct Hw, Hin. constructor; done || lia. }
  unfold CloseContainer. destruct (negb _); [by split_and!|]. destruct (mContainerOpen c'); [by split_and!|].
  apply wp_set. match goal with |- wp _ _ (?x, _) => assert (writer_ok x ∧ grows w x) as [Hw2 Hg2]; [|generalize dependent x] end.
  { apply (inside_ok w _ (mBuf c') (mWritePoint c') (mRemainingLen c')); [done..|]. rewrite place_unreserve. unfold place. cbn [mBackingStore mBuf mWritePoint mRemainingLen mReservedSize update]. by rewrite Hs'. }
  intros w2 Hw2 Hg2. eapply wp_mono; [by apply wsafe_WriteElementHead|]. intros r x (? & ? & ?). split_and!; [done| |done].
  eapply grows_trans; [apply Hw|done|done].
Qed.

Lemma session_safe s : session_ok s → wsafe (run_session s).
Proof using Hfuel.
  induction s as [|c rest IH|tag ct inner IHi rest IHr]; cbn [session_ok run_session]; intros Hok.
  - apply wsafe_ret.
  - destruct Hok as [Hc Hr]. apply wsafe_bind; [by apply wsafe_attempt, wsafe_put|intros _; by apply IH].
  - destruct Hok as [Hi Hr]. intros w d Hw. unfold wsafe_at. apply wp_bind, wp_attempt.
    eapply wp_mono; [by apply OpenContainer_safe|]. intros [e|c] [w1 d1] (Hw1 & Hg & Hd & Hc); cbn [fst snd] in *; subst d1.
    { eapply wp_mono; [by apply IHr|]. intros r x (? & ? & ?). split_and!; [done| |done]. eapply grows_trans; [apply Hw|done|done]. }
    destruct Hc as (Hc & Hb & Hpt & Hrem & Hres). apply wp_bind. unfold wp at 1. pose proof (IHi Hi c d Hc) as Hin. unfold wsafe_at, wp in Hin. cbn [snd].
    destruct (run_session inner (c, d)) as [[res [c' d']]|]; [|done]. destruct Hin as (Hc' & Hgc & Hd'). cbn [fst snd] in *. subst d'.
    pose proof (CloseContainer_safe c' w1 d Hw1 (ok_store c' Hc') (grown_inside c c' w1 Hw1 Hc' Hgc Hb Hpt Hrem Hres)) as Hcl. unfold wp in Hcl. unfold attempt.
    destruct (CloseContainer fuel c' _) as [[res' [w2 d2]]|]; [|done]. destruct Hcl as (Hw2 & Hg2 & Hd2). cbn [fst snd] in *. subst d2.
    eapply wp_mono; [by apply IHr|]. intros r x (? & ? & ?). split_and!; [done| |done].
    eapply grows_trans; [apply Hw|exact Hg|]. eapply grows_trans; [apply Hw1|exact Hg2|done].
Qed.

Lemma session_returns s x r y : run_session s x = Some (r, y) → r = inr tt.
Proof using. clear Hfuel.
  revert x. induction s as [|c rest IH|tag ct inner IHi rest IHr]; cbn [run_session]; intros x.
  - by intros [= <- <-].
  - unfold mbind at 1, CM_bind at 1. destruct (attempt _ x) as [[[e|a] x']|] eqn:E; [|apply IH|done].
    unfold attempt in E. by destruct (run_put c x) as [[]|].
  - unfold mbind at 1, CM_bind at 1. destruct (attempt (OpenContainer _ _ _ _) x) as [[[e|[e|c]] x1]|] eqn:E; [|apply IHr| |done].
    { unfold attempt in E. by destruct (OpenContainer _ _ _ _ _) as [[]|]. }
    unfold mbind at 1, CM_bind at 1. destruct (run_session inner _) as [[res [c' d']]|]; [|done].
    unfold attempt. destruct (CloseContainer _ _ _) as [[]|]; [apply IHr|done].
Qed.

Lemma session_run s w d : session_ok s → writer_ok w → ∃ w', run_session s (w, d) = Some (inr tt, (w', d)) ∧ writer_ok w' ∧ grows w w'.
Proof using Hfuel.
  intros Hs Hw. pose proof (session_safe s Hs w d Hw) as Hsafe. unfold wsafe_at, wp in Hsafe. pose proof (session_returns s (w, d)) as Hr.
  destruct (run_session s (w, d)) as [[res [w' d']]|]; [|done]. destruct Hsafe as (? & ? & ?). cbn [fst snd] in *. subst d'. rewrite (Hr res _ eq_refl). by exists w'.
Qed.

(** C16: A TLV writer over one buffer of [maxLen] bytes stays in it.  Whatever values,
    strings, containers, container writers, reservations and pre-encoded data a client
    writes, in whatever order and whether or not earlier calls failed, every call
    returns; the write point never passes [maxLen], no byte at or behind [maxLen]
    changes, and the calls made after some point do not change the bytes before it. *)
Theorem writer_stays_in_buffer buf maxLen first second d :
  0 ≤ maxLen → maxLen ≤ Z.of_nat (length buf) < 2 ^ 32 → session_ok first → session_ok second →
  ∃ w1 w2, (run_session first (TlvWriter.Init buf maxLen, d)) = Some (inr tt, (w1, d)) ∧ run_session second (w1, d) = Some (inr tt, (w2, d)) ∧
    0 ≤ mWritePoint w1 ≤ mWritePoint w2 ∧ mWritePoint w2 + mRemainingLen w2 + mReservedSize w2 ≤ maxLen ∧
    length (mBuf w2) = length buf ∧ drop (Z.to_nat maxLen) (mBuf w2) = drop (Z.to_nat maxLen) buf ∧
    take (Z.to_nat (mWritePoint w1)) (mBuf w2) = take (Z.to_nat (mWritePoint w1)) (mBuf w1).
Proof using Hfuel.
  intros H0 Hmax H1 H2. set (w := TlvWriter.Init buf maxLen). assert (Z.min maxLen (2 ^ 32 - 1) = maxLen) as Hmin by lia.
  assert (writer_ok w) as Hw by (constructor; cbn [w TlvWriter.Init mBackingStore mWritePoint mRemainingLen mReservedSize mBuf]; done || lia).
  pose proof (session_run first w d H1 Hw) as (w1 & E1 & Hw1 & Hg1). pose proof (session_run second w1 d H2 Hw1) as (w2 & E2 & Hw2 & Hg2).
  pose proof (grows_trans _ _ _ (ok_point _ Hw) Hg1 Hg2) as Hg. exists w1, w2. split_and!; [done|done|apply Hw1|apply Hg2| |apply Hg| |apply Hg2].
  - pose proof (grows_extent _ _ Hg) as He. unfold extent in He. cbn [w TlvWriter.Init mWritePoint mRemainingLen mReservedSize] in He. lia.
  - replace maxLen with (extent w) by (unfold extent; cbn [w TlvWriter.Init mWritePoint mRemainingLen mReservedSize]; lia). apply Hg.
Qed.
End safe.
