(* ===== verification/TlvChain.v ===== *)
(** * TlvChain: TLV in chains of packet buffers

    [src/src/system/TLVPacketBufferBackingStore.cpp] and [.h]: the backing store over a
    chain, an instance of [TLVBackingStore], and the writer that owns one.  Then the
    refinement: a reader over a store that hands out pieces gives the results of a
    reader over the pieces joined.

    Handles to the same buffer are positions in the chain.  The memory a writer gets is
    the block of the current buffer from [bufStart] on; it is put back when the buffer
    is finalized.  [alloc] is the heap, as in [PacketBuffer]. *)
From S2P Require Import Prelude ChipError StateError Tlv TlvReader TlvReading TlvReaderSafe.
From S2P Require PacketBuffer TlvWriter.

Section store.
Variable alloc : nat → Z → option bytes.

Record TLVPacketBufferBackingStore := {
  mHeadBuffer : list PacketBuffer.PacketBuffer; mCurrentBuffer : option nat; mUseChainedBuffers : bool;
  bufStart : Z; requests : nat }.
#[export] Instance eta_store : Eta TLVPacketBufferBackingStore := fun s =>
  {| mHeadBuffer := mHeadBuffer s; mCurrentBuffer := mCurrentBuffer s; mUseChainedBuffers := mUseChainedBuffers s;
     bufStart := bufStart s; requests := requests s |}.

(** [k] requests were made of the heap before. *)
Definition StoreInit (buffer : list PacketBuffer.PacketBuffer) (useChainedBuffers : bool) (k : nat) : TLVPacketBufferBackingStore :=
  {| mHeadBuffer := buffer; mCurrentBuffer := match buffer with [] => None | _ => Some 0%nat end; mUseChainedBuffers := useChainedBuffers;
     bufStart := 0; requests := k |}.
Definition Adopt (buffer : list PacketBuffer.PacketBuffer) (s : TLVPacketBufferBackingStore) : TLVPacketBufferBackingStore :=
  StoreInit buffer (mUseChainedBuffers s) (requests s).
Definition Release (s : TLVPacketBufferBackingStore) : list PacketBuffer.PacketBuffer * TLVPacketBufferBackingStore :=
  (mHeadBuffer s, s <| mHeadBuffer := [] |> <| mCurrentBuffer := None |>).

(** [mCurrentBuffer.Advance()], undefined on the null handle *)
Definition Advance (s : TLVPacketBufferBackingStore) : option TLVPacketBufferBackingStore :=
  let! i := mCurrentBuffer s in
  Some (s <| mCurrentBuffer := match mHeadBuffer s !! S i with Some _ => Some (S i) | None => None end |>).
Definition current (s : TLVPacketBufferBackingStore) : option PacketBuffer.PacketBuffer := let! i := mCurrentBuffer s in mHeadBuffer s !! i.
(** The memory from an offset into a block *)
Definition memory_from (off : Z) (b : PacketBuffer.PacketBuffer) : bytes := drop (Z.to_nat off) (PacketBuffer.block b).

Definition OnInit_reader (s : TLVPacketBufferBackingStore) : option ((CHIP_ERROR + bytes) * TLVPacketBufferBackingStore) :=
  let! b := head (mHeadBuffer s) in
  let! data := PacketBuffer.read_block b (PacketBuffer.payload b) (PacketBuffer.len b) in
  Some (inr data, s).

Definition GetNextBuffer_chain (s : TLVPacketBufferBackingStore) : option ((CHIP_ERROR + option bytes) * TLVPacketBufferBackingStore) :=
  let! s := (if mUseChainedBuffers s then Advance s else Some (s <| mCurrentBuffer := None |>)) in
  match current s with
  | None => Some (inr None, s)
  | Some b => let! data := PacketBuffer.read_block b (PacketBuffer.payload b) (PacketBuffer.len b) in Some (inr (Some data), s)
  end.

Definition OnInit_writer (s : TLVPacketBufferBackingStore) : option ((CHIP_ERROR + bytes * Z) * TLVPacketBufferBackingStore) :=
  let! b := head (mHeadBuffer s) in
  let start := PacketBuffer.payload b + PacketBuffer.len b in
  Some (inr (memory_from start b, PacketBuffer.AvailableDataLength b), s <| bufStart := start |>).

Definition FinalizeBuffer_chain (memory : bytes) (dataLen : Z) (s : TLVPacketBufferBackingStore) :
    option ((CHIP_ERROR + unit) * TLVPacketBufferBackingStore) :=
  let! i := mCurrentBuffer s in
  let! b := mHeadBuffer s !! i in
  let! b := PacketBuffer.write_block b (bufStart s) memory in
  let length := bufStart s + dataLen - PacketBuffer.payload b in
  if negb ((0 <=? length) && (length <=? 65535)) then Some (inl CHIP_ERROR_INVALID_ARGUMENT, s <| mHeadBuffer ::= <[i := b]> |>)
  else
    let '(before, b) := PacketBuffer.SetDataLength length (take i (mHeadBuffer s)) b in
    Some (inr tt, s <| mHeadBuffer := before ++ b :: drop (S i) (mHeadBuffer s) |>).

Definition GetNewBuffer_chain (s : TLVPacketBufferBackingStore) : option ((CHIP_ERROR + bytes * Z) * TLVPacketBufferBackingStore) :=
  if negb (mUseChainedBuffers s) then Some (inl CHIP_ERROR_NO_MEMORY, s)
  else
    let! s := Advance s in
    let! (err, s) := (match mCurrentBuffer s with
      | Some _ => Some (inr tt, s)
      | None =>
          let added := PacketBuffer.New alloc (requests s) PacketBuffer.kMaxSizeWithoutReserve 0 in
          let s := s <| requests ::= S |> in
          match added with
          | [] => Some (inl CHIP_ERROR_NO_MEMORY, s)
          | _ =>
              let! c := PacketBuffer.AddToEnd (mHeadBuffer s) added in
              Some (inr tt, s <| mHeadBuffer := c |> <| mCurrentBuffer := Some (length (mHeadBuffer s)) |>)
          end
      end) in
    match err with
    | inl err => Some (inl err, s)
    | inr _ =>
        let! b := current s in
        Some (inr (memory_from (PacketBuffer.payload b) b, PacketBuffer.MaxDataLength b), s <| bufStart := PacketBuffer.payload b |>)
    end.

#[export] Instance chain_store : TLVBackingStore TLVPacketBufferBackingStore := {
  OnInitReader := OnInit_reader;
  GetNextBuffer := GetNextBuffer_chain;
  OnInitWriter := OnInit_writer;
  GetNewBuffer := GetNewBuffer_chain;
  FinalizeBuffer := FinalizeBuffer_chain }.

(** [PacketBufferTLVReader::Init]: the head of the chain alone; [None] for the null handle *)
Definition PacketBufferTLVReader_Init (buffer : list PacketBuffer.PacketBuffer) : option TLVReader :=
  let! b := head buffer in
  let! data := PacketBuffer.read_block b (PacketBuffer.payload b) (PacketBuffer.len b) in
  Some (Init data).

Definition PacketBufferTLVWriter_Init (buffer : list PacketBuffer.PacketBuffer) (useChainedBuffers : bool) :
    CM (TlvWriter.TLVWriter * TLVPacketBufferBackingStore) unit :=
  modify (fun x => (x.1, StoreInit buffer useChainedBuffers (requests x.2)));; TlvWriter.Init_store (2 ^ 32 - 1).
(** The error of [Finalize] and the chain *)
Definition PacketBufferTLVWriter_Finalize : CM (TlvWriter.TLVWriter * TLVPacketBufferBackingStore) ((CHIP_ERROR + unit) * list PacketBuffer.PacketBuffer) :=
  err ← attempt TlvWriter.Finalize;
  buffer ← gets (fun x => mHeadBuffer x.2);
  modify (fun x => (x.1, snd (Release x.2)));;
  mret (err, buffer).
End store.

(** * Reading pieces is reading them joined *)
Section pieces.
Context {D : Type} `{!TLVBackingStore D}.

(** The store hands out the pieces in order, and none is empty. *)
Fixpoint feeds (d : D) (pieces : list bytes) : Prop :=
  match pieces with
  | [] => True
  | l :: pieces => l ≠ [] ∧ ∃ d', GetNextBuffer d = Some (inr (Some l), d') ∧ feeds d' pieces
  end.

(** A reader over a store, with [l] of the current piece and [n] bytes in all to come *)
Definition piece_rd (p m c : Z) (o : bool) (ctl tag v n : Z) (l : bytes) : TLVReader :=
  {| ImplicitProfileId := p; mElemTag := tag; mElemLenOrVal := v; mBackingStore := true; mReadPoint := In l;
     mLenRead := m - n; mMaxLen := m; mContainerType := c; mControlByte := ctl; mContainerOpen := o |}.

Definition joined (l : bytes) (pieces : list bytes) : bytes := l ++ concat pieces.
Definition joined_rd (p m c : Z) (o : bool) (ctl tag v : Z) (l : bytes) (pieces : list bytes) : TLVReader :=
  piece_rd p m c o ctl tag v (Z.of_nat (length (joined l pieces))) l.

Lemma ensure_joined p m c o ctl tag v l pieces d e : fits m (joined l pieces) → feeds d pieces →
  match joined l pieces with
  | [] => EnsureData e (joined_rd p m c o ctl tag v l pieces, d) = Some (inl e, (joined_rd p m c o ctl tag v l pieces, d))
  | _ => ∃ b l' pieces' d', EnsureData e (joined_rd p m c o ctl tag v l pieces, d) = Some (inr tt, (joined_rd p m c o ctl tag v (b :: l') pieces', d'))
      ∧ joined (b :: l') pieces' = joined l pieces ∧ feeds d' pieces' ∧ (length pieces' ≤ length pieces)%nat
      ∧ (l = [] → (length pieces' < length pieces)%nat)
  end.
Proof.
  intros Hfit Hd. destruct l as [|b l]; [|by exists b, l, pieces, d].
  destruct pieces as [|[|b l] pieces]; [|by destruct Hd|].
  - cbn. unfold EnsureData. erewrite bind_ok by done. cbn [joined_rd piece_rd joined concat app length fst id mReadPoint mLenRead mMaxLen].
    by rewrite Z.sub_0_r, Z.eqb_refl.
  - destruct Hd as (_ & d' & Hget & Hd). cbn [joined concat app] in *. exists b, l, pieces, d'. split_and!; [|done|done|cbn; lia|cbn; lia].
    unfold EnsureData. erewrite bind_ok by done. cbn [joined_rd piece_rd fst id mReadPoint mLenRead mMaxLen mBackingStore negb].
    set (n := Z.of_nat _). assert (0 < n) as Hn by (subst n; cbn; lia). rewrite (proj2 (Z.eqb_neq (m - n) m)) by lia.
    erewrite bind_ok by (unfold store, on_snd; cbn [snd]; by rewrite Hget). unfold set, modify. cbn [fst snd].
    assert (u32 (m - (m - n)) = n) as -> by (rewrite wrap_small; [lia|]; unfold in_u, fits in *; subst n; unfold joined in *; cbn in *; lia).
    replace (if n <? Z.of_nat (length (b :: l)) then n else Z.of_nat (length (b :: l))) with (Z.of_nat (length (b :: l))).
    2: { destruct (Z.ltb_spec n (Z.of_nat (length (b :: l)))); [|done]. subst n. unfold joined in *. cbn in *. rewrite length_app in *. lia. }
    rewrite Nat2Z.id, firstn_all. done.
Qed.

Lemma advance_joined p m c o ctl tag v n l pieces : fits m (joined l pieces) → 0 ≤ n ≤ Z.of_nat (length l) →
  advance n l (joined_rd p m c o ctl tag v l pieces) = joined_rd p m c o ctl tag v (drop (Z.to_nat n) l) pieces.
Proof.
  intros [H1 H2] Hn. unfold advance, joined_rd, piece_rd, joined in *. cbn. rewrite length_app in *. f_equal. rewrite length_app, length_drop.
  rewrite wrap_small by (unfold in_u; lia). lia.
Qed.

Definition rounds (l : bytes) (pieces : list bytes) : nat := length pieces + match l with [] => 1 | _ => 2 end.

Lemma joined_nil l pieces d : feeds d pieces → joined l pieces = [] → l = [] ∧ pieces = [].
Proof. intros Hd [-> Hj]%app_eq_nil. split; [done|]. destruct pieces as [|[|b q] pieces]; [done|by destruct Hd|done]. Qed.

Lemma joined_cut k l pieces : (k ≤ length l)%nat → joined l pieces = take k l ++ joined (drop k l) pieces.
Proof. intros _. unfold joined. by rewrite app_assoc, take_drop. Qed.

(** The data a read takes from the pieces is that from the whole. *)
Lemma read_joined p m c o ctl tag v : ∀ fuel n l pieces d out, fits m (joined l pieces) → feeds d pieces → 0 ≤ n → (rounds l pieces ≤ fuel)%nat →
  if n <=? Z.of_nat (length (joined l pieces)) then
    ∃ l' pieces' d', ReadData_loop fuel n out (joined_rd p m c o ctl tag v l pieces, d)
      = Some (inr (out ++ take (Z.to_nat n) (joined l pieces)), (joined_rd p m c o ctl tag v l' pieces', d'))
      ∧ joined l' pieces' = drop (Z.to_nat n) (joined l pieces) ∧ feeds d' pieces' ∧ (length pieces' ≤ length pieces)%nat
  else ∃ d', ReadData_loop fuel n out (joined_rd p m c o ctl tag v l pieces, d) = Some (inl CHIP_ERROR_TLV_UNDERRUN, (joined_rd p m c o ctl tag v [] [], d')).
Proof.
  induction fuel as [|fuel IH]; intros n l pieces d out Hfit Hd Hn Hf; [unfold rounds in Hf; destruct l; lia|]. cbn [ReadData_loop].
  destruct (Z.ltb_spec 0 n) as [Hp|Hp].
  2: { replace n with 0 by lia. rewrite (proj2 (Z.leb_le 0 _)) by lia. exists l, pieces, d. by rewrite take_0, drop_0, app_nil_r. }
  pose proof (ensure_joined p m c o ctl tag v l pieces d CHIP_ERROR_TLV_UNDERRUN Hfit Hd) as He.
  destruct (joined l pieces) as [|x xs] eqn:Ej.
  { rewrite (proj2 (Z.leb_gt n _)) by (cbn; lia). exists d. erewrite bind_error by exact He. by destruct (joined_nil l pieces d Hd Ej) as [-> ->]. }
  destruct He as (b & l1 & pieces1 & d1 & Hok & Hj & Hd1 & Hle & Hlt). erewrite bind_ok by exact Hok. erewrite bind_ok by done.
  cbn [joined_rd piece_rd fst mReadPoint]. rewrite <- Hj in *. fold (joined_rd p m c o ctl tag v (b :: l1) pieces1).
  assert (rounds [] pieces1 ≤ fuel)%nat as Hf1 by (unfold rounds in *; destruct l; [specialize (Hlt eq_refl)|]; lia). clear Hj Ej Hlt Hok Hd d x xs Hf.
  set (L := b :: l1) in *. assert (0 < length L)%nat as HL0 by (cbn; lia). clearbody L.
  assert (length (joined L pieces1) = (length L + length (concat pieces1))%nat) as Hlen by apply length_app.
  rewrite (wrap_small 32 (Z.of_nat (length L))) by (unfold in_u, fits in *; lia).
  destruct (Z.ltb_spec (Z.of_nat (length L)) n) as [Hk|Hk].
  - erewrite bind_ok by done. cbn [fst snd]. rewrite advance_joined by (done || lia). rewrite Nat2Z.id, drop_all, firstn_all.
    specialize (IH (n - Z.of_nat (length L)) [] pieces1 d1 (out ++ L)). change (joined [] pieces1) with (concat pieces1) in IH.
    assert (fits m (concat pieces1)) as Hfit1 by (unfold fits in *; lia). specialize (IH Hfit1 Hd1 ltac:(lia) Hf1).
    destruct (Z.leb_spec n (Z.of_nat (length (joined L pieces1)))) as [Hc|Hc].
    + rewrite (proj2 (Z.leb_le _ _)) in IH by lia. destruct IH as (l' & pieces' & d' & -> & Hj' & Hd' & Hle').
      exists l', pieces', d'. split_and!; [|rewrite Hj'|done|lia].
      * do 3 f_equal. rewrite <- app_assoc. f_equal. unfold joined. rewrite take_app_ge by lia. do 2 f_equal. lia.
      * unfold joined. rewrite drop_app_ge by lia. f_equal. lia.
    + rewrite (proj2 (Z.leb_gt _ _)) in IH by lia. done.
  - rewrite (proj2 (Z.leb_le _ _)) by lia. erewrite bind_ok by done. cbn [fst snd]. rewrite advance_joined by (done || lia). rewrite Z.sub_diag.
    exists (drop (Z.to_nat n) L), pieces1, d1. destruct fuel as [|fuel]; [unfold rounds in Hf1; lia|]. split_and!; [|unfold joined|done|lia].
    + unfold joined. by rewrite take_app_le by lia.
    + by rewrite drop_app_le by lia.
Qed.
End pieces.

(** ** Simulation

    [m'] over the store does what [m] does over the whole; the first has a store it
    never asks. *)
Section simulation.
Context {D0 D : Type} `{!TLVBackingStore D0} `{!TLVBackingStore D} (fuel : nat) (Hfuel : (2 ≤ fuel)%nat).

Inductive matches : TLVReader * D0 → TLVReader * D → Prop :=
| matches_intro p m c o ctl tag v l pieces d0 d : fits m (joined l pieces) → feeds d pieces → (length pieces + 2 ≤ fuel)%nat →
    matches (rd p m c o ctl tag v (joined l pieces), d0) (joined_rd p m c o ctl tag v l pieces, d).

Definition sim_at {A} (m : CM (TLVReader * D0) A) (m' : CM (TLVReader * D) A) x x' : Prop :=
  ∀ res y, m x = Some (res, y) → ∃ y', m' x' = Some (res, y') ∧ matches y y'.
Definition sim {A} (m : CM (TLVReader * D0) A) (m' : CM (TLVReader * D) A) : Prop := ∀ x x', matches x x' → sim_at m m' x x'.

Lemma sim_at_bind {A B} (m : CM (TLVReader * D0) A) m' (k : A → CM (TLVReader * D0) B) k' x x' :
  sim_at m m' x x' → (∀ a, sim (k a) (k' a)) → sim_at (m ≫= k) (m' ≫= k') x x'.
Proof using.
  intros Hm Hk res y. unfold mbind, CM_bind. destruct (m x) as [[[e|a] z]|] eqn:E; [| |done].
  - intros [= <- <-]. destruct (Hm _ _ E) as (z' & -> & Hz). by exists z'.
  - intros H. destruct (Hm _ _ E) as (z' & -> & Hz). by apply (Hk a z z' Hz).
Qed.
Lemma sim_bind {A B} (m : CM (TLVReader * D0) A) m' (k : A → CM (TLVReader * D0) B) k' :
  sim m m' → (∀ a, sim (k a) (k' a)) → sim (m ≫= k) (m' ≫= k').
Proof using. intros Hm Hk x x' Hx. apply sim_at_bind; [by apply Hm|done]. Qed.
Lemma sim_ret {A} (a : A) : sim (mret a) (mret a).
Proof using. intros x x' Hx res y [= <- <-]. by exists x'. Qed.
Lemma sim_fail {A} e : sim (fail (A := A) e) (fail e).
Proof using. intros x x' Hx res y [= <- <-]. by exists x'. Qed.
Lemma sim_returns {A} (r : CHIP_ERROR + A) : sim (returns r) (returns r).
Proof using. intros x x' Hx res y [= <- <-]. by exists x'. Qed.
Lemma sim_verify b e : sim (verify b e) (verify b e).
Proof using. destruct b; [apply sim_ret|apply sim_fail]. Qed.
Lemma sim_stuck {A} : sim (stuck (A := A)) stuck.
Proof using. by intros x x' Hx res y. Qed.
Lemma sim_if {A} (b : bool) (m1 m2 : CM (TLVReader * D0) A) m1' m2' : sim m1 m1' → sim m2 m2' → sim (if b then m1 else m2) (if b then m1' else m2').
Proof using. by destruct b. Qed.
Lemma sim_attempt {A} (m : CM (TLVReader * D0) A) m' : sim m m' → sim (attempt m) (attempt m').
Proof using.
  intros Hm x x' Hx res y. unfold attempt. destruct (m x) as [[r z]|] eqn:E; [|done]. intros [= <- <-].
  destruct (Hm _ _ Hx _ _ E) as (z' & -> & Hz). by exists z'.
Qed.
(** A reading whose value is the same on both sides *)
Lemma sim_reader {A B} (f : TLVReader → A) (k : A → CM (TLVReader * D0) B) k' :
  (∀ x x', matches x x' → f x.1 = f x'.1) → (∀ a, sim (k a) (k' a)) → sim (reader f ≫= k) (reader f ≫= k').
Proof using. intros Hf Hk x x' Hx. unfold sim_at. change ((reader f ≫= k) x) with (k (f x.1) x). change ((reader f ≫= k') x') with (k' (f x'.1) x'). rewrite (Hf _ _ Hx). by apply Hk. Qed.
(** ... and a use of the whole object *)
Lemma sim_object {B} (k : TLVReader → CM (TLVReader * D0) B) k' : (∀ x x', matches x x' → sim_at (k x.1) (k' x'.1) x x') → sim (reader id ≫= k) (reader id ≫= k').
Proof using. intros Hk x x' Hx. by apply Hk. Qed.
(** A change of the fields other than the read point *)
Lemma sim_set f : (∀ x x', matches x x' → matches (f x.1, x.2) (f x'.1, x'.2)) → sim (set f) (set f).
Proof using. intros Hf x x' Hx res y [= <- <-]. exists (f x'.1, x'.2). split; [done|by apply Hf]. Qed.

Lemma fits_drop m n l : fits m l → fits m (drop n l).
Proof using. clear Hfuel fuel. unfold fits. rewrite length_drop. lia. Qed.

Lemma sim_ReadData n : 0 ≤ n → sim (ReadData fuel n) (ReadData fuel n).
Proof using Hfuel.
  intros Hn x x' [p m c o ctl tag v l pieces d0 d Hfit Hd Hp] res y.
  pose proof (read_joined p m c o ctl tag v fuel n l pieces d [] Hfit Hd Hn ltac:(unfold rounds; destruct l; lia)) as H.
  destruct (Z.leb_spec n (Z.of_nat (length (joined l pieces)))) as [Hle|Hgt].
  - rewrite ReadData_full by (done || lia). intros [= <- <-]. destruct H as (l' & pieces' & d' & E & Hj & Hd' & Hle'). unfold ReadData. rewrite E.
    eexists. split; [done|]. rewrite <- Hj. constructor; [|done|lia]. rewrite Hj. by apply fits_drop.
  - rewrite ReadData_short by (done || lia). intros [= <- <-]. destruct H as (d' & E). unfold ReadData. rewrite E.
    eexists. split; [done|]. apply (matches_intro p m c o ctl tag v [] [] d0 d'); [|done|cbn; lia]. unfold fits in *. cbn. lia.
Qed.

(** After a successful [EnsureData] both are at the same byte. *)
Lemma sim_EnsureData {A} e (k : CM (TLVReader * D0) A) k' :
  (∀ p m c o ctl tag v b l pieces d0 d, fits m (joined (b :: l) pieces) → feeds d pieces → (length pieces + 2 ≤ fuel)%nat →
     sim_at k k' (rd p m c o ctl tag v (b :: joined l pieces), d0) (joined_rd p m c o ctl tag v (b :: l) pieces, d)) →
  sim (EnsureData e;; k) (EnsureData e;; k').
Proof using. clear Hfuel.
  intros Hk x x' [p m c o ctl tag v l pieces d0 d Hfit Hd Hp].
  pose proof (ensure_joined p m c o ctl tag v l pieces d e Hfit Hd) as H. destruct (joined l pieces) as [|y ys] eqn:Ej.
  - intros res y. erewrite bind_error by apply ensure_none. intros [= <- <-]. eexists. split; [by erewrite bind_error by exact H|].
    rewrite <- Ej. constructor; [by rewrite Ej|done|done].
  - destruct H as (b & l' & pieces' & d' & E & Hj & Hd' & Hle & _). intros res z. erewrite (bind_ok (EnsureData e)) by apply ensure_some.
    rewrite <- Hj in *. intros H. erewrite bind_ok by exact E. eapply Hk; [done|done|lia|exact H].
Qed.

Lemma sim_EnsureData_only e : sim (EnsureData e) (EnsureData e).
Proof using.
  assert (∀ St (m : CM St unit) x, (m;; mret tt) x = m x) as Hret.
  { intros St m x. unfold mbind, CM_bind. by destruct (m x) as [[[?|[]] ?]|]. }
  assert (sim (EnsureData e;; mret tt) (EnsureData e;; mret tt)) as H.
  { apply sim_EnsureData. intros p m c o ctl tag v b l pieces d0 d Hfit Hd Hp. apply sim_ret. by apply (matches_intro p m c o ctl tag v (b :: l) pieces). }
  intros x x' Hx. unfold sim_at. rewrite <- (Hret _ (EnsureData e) x), <- (Hret _ (EnsureData e) x'). by apply H.
Qed.

(** The head of an element, from the piece or through the staging buffer *)
Lemma sim_head p m c o ctl tag v b l pieces d0 d n : fits m (joined (b :: l) pieces) → feeds d pieces → (length pieces + 2 ≤ fuel)%nat → 0 ≤ n →
  let step St (read : CM St bytes) (skip : CM St unit) (l : bytes) := if Z.of_nat (length l) <? n then read else skip;; mret (take (Z.to_nat n) l) in
  sim_at (step _ (ReadData fuel n) (set (advance n (b :: joined l pieces))) (b :: joined l pieces)) (step _ (ReadData fuel n) (set (advance n (b :: l))) (b :: l))
    (rd p m c o ctl tag v (b :: joined l pieces), d0) (joined_rd p m c o ctl tag v (b :: l) pieces, d).
Proof using Hfuel.
  intros Hfit Hd Hp Hn step. subst step. cbv beta. change (b :: joined l pieces) with (joined (b :: l) pieces). set (L := b :: l) in *. clearbody L.
  pose proof (matches_intro p m c o ctl tag v L pieces d0 d Hfit Hd Hp) as Hx.
  assert (length (joined L pieces) = (length L + length (concat pieces))%nat) as Hlen by apply length_app.
  destruct (Z.ltb_spec (Z.of_nat (length L)) n) as [H1|H1], (Z.ltb_spec (Z.of_nat (length (joined L pieces))) n) as [H2|H2]; [by apply sim_ReadData| |lia|].
  - intros res y. erewrite bind_ok by done. intros [= <- <-]. cbn [fst snd]. rewrite advance_rd by (done || lia).
    eapply (sim_ReadData n Hn _ _ Hx). by apply ReadData_full; [..|lia].
  - intros res y. erewrite bind_ok by done. intros [= <- <-]. cbn [fst snd]. rewrite advance_rd by (done || lia).
    eexists. split; [erewrite bind_ok by done; cbn [fst snd]; rewrite advance_joined by (done || lia)|].
    + unfold joined. by rewrite take_app_le by lia.
    + unfold joined. rewrite drop_app_le by lia. change (drop (Z.to_nat n) L ++ concat pieces) with (joined (drop (Z.to_nat n) L) pieces).
      constructor; [|done|done]. unfold joined. rewrite <- (drop_app_le L) by lia. by apply fits_drop.
Qed.

Ltac same_fields := intros ? ? []; try done.
Ltac set_fields := apply sim_set; intros ? ? Hm; destruct Hm;
  match goal with _ : fits ?m (joined ?l ?pieces), _ : feeds ?d ?pieces |- matches _ (_, _) => by apply (matches_intro _ m _ _ _ _ _ l pieces) end.

(** For a method that looks at the fields of the element first *)
Ltac by_element :=
  apply sim_object; intros x x' Hm;
  replace (ElementType x.1) with (ElementType x'.1) by (by destruct Hm); replace (mElemLenOrVal x.1) with (mElemLenOrVal x'.1) by (by destruct Hm);
  replace (mContainerType x.1) with (mContainerType x'.1) by (by destruct Hm); replace (GetLength x.1) with (GetLength x'.1) by (by destruct Hm);
  revert Hm; generalize (ElementType x'.1) (mElemLenOrVal x'.1) (mContainerType x'.1) (GetLength x'.1); intros t v c n' Hm; revert x x' Hm.

Lemma sim_ReadElement : sim (ReadElement fuel) (ReadElement fuel).
Proof using Hfuel.
  apply sim_EnsureData. intros p m c o ctl tag v b l pieces d0 d Hfit Hd Hp.
  unfold sim_at. intros res y. erewrite bind_ok by done. cbn [rd fst mReadPoint].
  erewrite bind_ok by done. cbn [fst snd].
  change ((rd p m c o ctl tag v (b :: joined l pieces)) <| mControlByte := b |>) with (rd p m c o b tag v (b :: joined l pieces)).
  erewrite bind_ok by done. cbn [fst].
  set (t := ElementType (rd p m c o b tag v (b :: joined l pieces))). intros H.
  erewrite bind_ok by done. cbn [joined_rd piece_rd fst mReadPoint]. fold (joined_rd p m c o ctl tag v (b :: l) pieces).
  erewrite bind_ok by done. cbn [fst snd].
  change ((joined_rd p m c o ctl tag v (b :: l) pieces) <| mControlByte := b |>) with (joined_rd p m c o b tag v (b :: l) pieces).
  erewrite bind_ok by done. cbn [fst]. change (ElementType (joined_rd p m c o b tag v (b :: l) pieces)) with t.
  assert (matches (rd p m c o b tag v (b :: joined l pieces), d0) (joined_rd p m c o b tag v (b :: l) pieces, d)) as Hx
    by (by apply (matches_intro p m c o b tag v (b :: l) pieces)).
  destruct (IsValidTLVType t); cbn [verify] in H |- *.
  2: { injection H as <- <-. by eexists. }
  erewrite bind_ok in H by done. erewrite bind_ok by done. revert res y H. eapply sim_at_bind.
  { apply sim_head; [done..|]. apply wrap_range. lia. }
  intros h. apply sim_reader; [same_fields|intros tq]. apply sim_bind; [set_fields|intros _]. apply sim_bind; [set_fields|intros _].
  apply sim_reader; [same_fields|intros v']. apply sim_bind; [apply sim_verify|intros _]. apply sim_object.
  intros x x' Hm. assert (VerifyElement x.1 = VerifyElement x'.1) as -> by (by destruct Hm). by apply sim_returns.
Qed.

Lemma u32_nonneg x : 0 ≤ u32 x.
Proof using. clear Hfuel fuel. apply wrap_range. lia. Qed.

Lemma sim_SkipData : sim (SkipData fuel) (SkipData fuel).
Proof using Hfuel.
  by_element. apply sim_if; [|apply sim_ret]. apply sim_bind; [apply sim_ReadData, u32_nonneg|intros; apply sim_ret].
Qed.

Lemma sim_SkipToEnd_loop outer n : ∀ nest, sim (SkipToEnd_loop fuel n outer nest) (SkipToEnd_loop fuel n outer nest).
Proof using Hfuel.
  induction n as [|n IH]; intros nest; [apply sim_stuck|]. cbn [SkipToEnd_loop]. apply sim_reader; [same_fields|intros t].
  assert (∀ nest, sim (SkipData fuel;; ReadElement fuel;; SkipToEnd_loop fuel n outer nest) (SkipData fuel;; ReadElement fuel;; SkipToEnd_loop fuel n outer nest)) as Hstep.
  { intros k. apply sim_bind; [apply sim_SkipData|intros _]. apply sim_bind; [apply sim_ReadElement|intros _; apply IH]. }
  apply sim_if; [apply sim_if; [apply sim_ret|]|apply sim_if; [|apply Hstep]]; (apply sim_bind; [set_fields|intros _; apply Hstep]).
Qed.

Lemma sim_SkipToEndOfContainer : sim (SkipToEndOfContainer fuel) (SkipToEndOfContainer fuel).
Proof using Hfuel.
  apply sim_reader; [same_fields|intros outer]. apply sim_bind; [set_fields|intros _; apply sim_SkipToEnd_loop].
Qed.

Lemma sim_EnterContainer : sim EnterContainer EnterContainer.
Proof using.
  by_element. apply sim_if; [apply sim_fail|]. apply sim_bind; [set_fields|intros _; apply sim_ret].
Qed.

Lemma sim_ExitContainer outer : sim (ExitContainer fuel outer) (ExitContainer fuel outer).
Proof using Hfuel. apply sim_bind; [apply sim_SkipToEndOfContainer|intros _; set_fields]. Qed.

Lemma sim_Skip : sim (Skip fuel) (Skip fuel).
Proof using Hfuel.
  apply sim_reader; [same_fields|intros t]. apply sim_if; [apply sim_fail|]. apply sim_if.
  - apply sim_bind; [apply sim_EnterContainer|intros outer; apply sim_ExitContainer].
  - apply sim_bind; [apply sim_SkipData|intros _; set_fields].
Qed.

Lemma sim_Next : sim (Next fuel) (Next fuel).
Proof using Hfuel.
  apply sim_bind; [apply sim_Skip|intros _]. apply sim_bind; [apply sim_ReadElement|intros _]. by_element.
  apply sim_bind; [apply sim_verify|intros _]. apply sim_if; [apply sim_EnsureData_only|apply sim_ret].
Qed.

Lemma sim_Next_tag tag : sim (Next_tag fuel tag) (Next_tag fuel tag).
Proof using Hfuel. apply sim_bind; [apply sim_Next|intros _]. apply sim_reader; [same_fields|intros t; apply sim_verify]. Qed.
Lemma sim_Next_type type tag : sim (Next_type fuel type tag) (Next_type fuel type tag).
Proof using Hfuel. apply sim_bind; [apply sim_Next_tag|intros _]. apply sim_reader; [same_fields|intros t; apply sim_verify]. Qed.

Lemma sim_VerifyEndOfContainer : sim (VerifyEndOfContainer fuel) (VerifyEndOfContainer fuel).
Proof using Hfuel.
  apply sim_bind; [apply sim_attempt, sim_Next|]. intros [e|[]]; [|apply sim_fail]. destruct e; (apply sim_ret || apply sim_fail).
Qed.

(** The data of a string *)
Lemma sim_string {A} (k : bytes → CM (TLVReader * D0) A) k' v : (∀ bs, sim (k bs) (k' bs)) →
  sim (buf ← ReadData fuel (u32 v); set (fun r => r <| mElemLenOrVal := 0 |>);; k buf) (buf ← ReadData fuel (u32 v); set (fun r => r <| mElemLenOrVal := 0 |>);; k' buf).
Proof using Hfuel.
  intros Hk. apply sim_bind; [apply sim_ReadData, u32_nonneg|intros bs]. apply sim_bind; [set_fields|intros _; apply Hk].
Qed.

Lemma sim_GetBytes n : sim (GetBytes fuel n) (GetBytes fuel n).
Proof using Hfuel. by_element. do 2 (apply sim_if; [apply sim_fail|]). apply (sim_string mret mret). intros bs. apply sim_ret. Qed.
Lemma sim_GetString n : sim (GetString fuel n) (GetString fuel n).
Proof using Hfuel.
  by_element. do 2 (apply sim_if; [apply sim_fail|]). apply sim_if; [apply sim_stuck|]. apply sim_bind; [apply sim_GetBytes|intros bs; apply sim_ret].
Qed.
Lemma sim_DupBytes alloc : sim (DupBytes fuel alloc) (DupBytes fuel alloc).
Proof using Hfuel. by_element. do 2 (apply sim_if; [apply sim_fail|]). apply (sim_string mret mret). intros bs. apply sim_ret. Qed.
Lemma sim_DupString alloc : sim (DupString fuel alloc) (DupString fuel alloc).
Proof using Hfuel.
  by_element. do 3 (apply sim_if; [apply sim_fail|]). apply (sim_string (fun bs => mret (bs ++ [0])) (fun bs => mret (bs ++ [0]))). intros bs. apply sim_ret.
Qed.
End simulation.

(** ** Programs

    What a program does with a reader that goes over the input once, and what it sees:
    the result of every call and the reader after it, in a trace. *)
Inductive pass_call :=
| PNext | PNextTag (expectedTag : Z) | PNextType (expectedType expectedTag : Z) | PSkip | PEnter | PExit (outerContainerType : Z)
| PVerifyEnd | PGetBytes (bufSize : Z) | PGetString (bufSize : Z) | PDupBytes (alloc : Z → bool) | PDupString (alloc : Z → bool).

(** The getters of a value, and the lengths *)
Definition sight : Type := Z * Z * Z * (CHIP_ERROR * option bool) * (CHIP_ERROR * option Z) * (CHIP_ERROR * option Z) * (CHIP_ERROR * option floating) * Z * Z.
Definition see (r : TLVReader) : sight :=
  (GetTag r, GetType r, GetLength r, Get_bool r, Get_int64 r, Get_uint64 r, Get_double r, GetLengthRead r, GetRemainingLength r).

(** The getters with a pointer into the buffer fail when the value of the string goes on
    in the next one: fewer bytes are left in this one than it has. *)
Definition split_value (r : TLVReader) : bool :=
  negb (GetLength r =? 0) && match mReadPoint r with In l => Z.of_nat (length l) <? GetLength r | _ => true end.
Definition unless_split {A} (r : TLVReader) (v : option (CHIP_ERROR + A)) : option (CHIP_ERROR + A) :=
  if split_value r then Some (inl CHIP_ERROR_TLV_UNDERRUN) else v.

(** What the trace over the pieces ([e']) has in common with that over the whole ([e]) *)
Definition agree (e e' : (CHIP_ERROR + bytes) * TLVReader) : Prop :=
  e'.1 = e.1 ∧ see e'.2 = see e.2 ∧
  Get_ByteSpan e'.2 = (if TLVTypeIsString (ElementType e.2) then unless_split e'.2 (Get_ByteSpan e.2) else Some (inl CHIP_ERROR_WRONG_TLV_TYPE)) ∧
  Get_CharSpan e'.2 = (if TLVTypeIsUTF8String (ElementType e.2) then unless_split e'.2 (Get_CharSpan e.2) else Some (inl CHIP_ERROR_WRONG_TLV_TYPE)).

Section pass.
Context {D : Type} `{!TLVBackingStore D} (fuel : nat).

Definition nothing {A} (m : CM (TLVReader * D) A) : CM (TLVReader * D) bytes := m;; mret [].
Definition run_pass_call (c : pass_call) : CM (TLVReader * D) bytes :=
  match c with
  | PNext => nothing (Next fuel)
  | PNextTag t => nothing (Next_tag fuel t)
  | PNextType ty t => nothing (Next_type fuel ty t)
  | PSkip => nothing (Skip fuel)
  | PEnter => outer ← EnterContainer; mret [outer]
  | PExit outer => nothing (ExitContainer fuel outer)
  | PVerifyEnd => nothing (VerifyEndOfContainer fuel)
  | PGetBytes n => GetBytes fuel n
  | PGetString n => GetString fuel n
  | PDupBytes alloc => DupBytes fuel alloc
  | PDupString alloc => DupString fuel alloc
  end.
(** As in [TlvReaderSafe.run_call]: [GetString] waits for a move that succeeded. *)
Definition moved_after (c : pass_call) (moved : bool) (res : CHIP_ERROR + bytes) : bool :=
  match c with
  | PNext | PNextTag _ | PNextType _ _ | PSkip | PExit _ => match res with inr _ => true | inl _ => false end
  | PVerifyEnd => false
  | _ => moved
  end.
Definition held_back (c : pass_call) (moved : bool) : bool := match c with PGetString _ => negb moved | _ => false end.
Fixpoint pass (moved : bool) (calls : list pass_call) : CM (TLVReader * D) (list ((CHIP_ERROR + bytes) * TLVReader)) :=
  match calls with
  | [] => mret []
  | c :: calls =>
      if held_back c moved then pass moved calls
      else res ← attempt (run_pass_call c); now ← reader id; rest ← pass (moved_after c moved res) calls; mret ((res, now) :: rest)
  end.
End pass.

Section passes.
Context {D0 D : Type} `{!TLVBackingStore D0} `{!TLVBackingStore D} (fuel : nat) (Hfuel : (2 ≤ fuel)%nat).

Lemma sim_call c : sim (D0 := D0) (D := D) fuel (run_pass_call fuel c) (run_pass_call fuel c).
Proof using Hfuel.
  destruct c; cbn [run_pass_call]; unfold nothing; try (apply sim_bind; [|intros; apply sim_ret]);
    [by apply sim_Next|by apply sim_Next_tag|by apply sim_Next_type|by apply sim_Skip|apply sim_EnterContainer|by apply sim_ExitContainer
    |by apply sim_VerifyEndOfContainer|by apply sim_GetBytes|by apply sim_GetString|by apply sim_DupBytes|by apply sim_DupString].
Qed.

(** The bytes a pointer gives *)
Lemma span_joined l pieces n : 0 ≤ n ≤ Z.of_nat (length l) → span (Some (joined l pieces)) n = span (Some l) n.
Proof. intros Hn. unfold span, joined. cbn. by rewrite take_app_le by lia. Qed.

Lemma data_ptr_matches x x' : matches (D0 := D0) (D := D) fuel x x' → TLVTypeIsString (ElementType x.1) = true →
  match GetDataPtr x.1 with
  | Some (inr (Some data)) => (GetLength x.1 =? 0) = false ∧ GetDataPtr x'.1 = unless_split x'.1 (Some (inr (match mReadPoint x'.1 with In l => Some l | _ => None end)))
      ∧ (split_value x'.1 = false → ∃ l, mReadPoint x'.1 = In l ∧ span (Some data) (GetLength x.1) = span (Some l) (GetLength x.1))
  | Some (inr None) => split_value x'.1 = false ∧ GetDataPtr x'.1 = Some (inr None)
  | Some (inl e) => e = CHIP_ERROR_TLV_UNDERRUN ∧ GetDataPtr x'.1 = Some (inl CHIP_ERROR_TLV_UNDERRUN)
  | None => False
  end.
Proof.
  intros [p m c o ctl tag v l pieces d0 d Hfit Hd Hp] Hs. unfold GetDataPtr, unless_split, split_value in *. cbn [fst] in *.
  change (ElementType (joined_rd p m c o ctl tag v l pieces)) with (ElementType (rd p m c o ctl tag v (joined l pieces))).
  change (GetLength (joined_rd p m c o ctl tag v l pieces)) with (GetLength (rd p m c o ctl tag v (joined l pieces))).
  rewrite Hs. cbn [negb joined_rd piece_rd rd mReadPoint mElemLenOrVal].
  assert (GetLength (rd p m c o ctl tag v (joined l pieces)) = u32 v) as Hl by (unfold GetLength; change TLVTypeHasLength with TLVTypeIsString; by rewrite Hs).
  fold (rd p m c o ctl tag v (joined l pieces)). rewrite Hl. pose proof (wrap_range 32 v ltac:(lia)) as Hv.
  destruct (Z.eqb_spec (u32 v) 0) as [E|E]; [done|]. cbn [negb andb].
  assert (length (joined l pieces) = (length l + length (concat pieces))%nat) as Hj by apply length_app.
  rewrite !(u32_length m) by (done || (unfold fits in *; lia)).
  destruct (Z.leb_spec (u32 v) (Z.of_nat (length (joined l pieces)))) as [H1|H1]; cbn [negb].
  - split; [done|]. split.
    + rewrite Z.leb_antisym. by destruct (Z.of_nat (length l) <? u32 v).
    + intros H2%Z.ltb_ge. exists l. split; [done|]. apply span_joined. unfold in_u in Hv. lia.
  - rewrite (proj2 (Z.leb_gt _ _)) by lia. done.
Qed.

Lemma matches_agree x x' res : matches (D0 := D0) (D := D) fuel x x' → agree (res, x.1) (res, x'.1).
Proof.
  intros Hm. pose proof (data_ptr_matches x x' Hm) as Hp.
  assert (ElementType x'.1 = ElementType x.1) as He by (by destruct Hm). assert (GetLength x'.1 = GetLength x.1) as Hl by (by destruct Hm).
  split_and!; [done|by destruct Hm|..]; cbn [snd]; unfold Get_CharSpan, Get_ByteSpan; rewrite ?He, ?Hl.
  - destruct (TLVTypeIsString (ElementType x.1)) eqn:Hs; [|unfold GetDataPtr; by rewrite He, Hs]. specialize (Hp eq_refl).
    destruct (GetDataPtr x.1) as [[e|[data|]]|]; [| |by destruct Hp as [Hu ->]; unfold unless_split; rewrite Hu|done].
    + destruct Hp as [-> ->]. unfold unless_split. by destruct (split_value x'.1).
    + destruct Hp as (_ & -> & Hspan). unfold unless_split. destruct (split_value x'.1); [done|]. by destruct (Hspan eq_refl) as (l & -> & ->).
  - destruct (TLVTypeIsUTF8String (ElementType x.1)) eqn:Hu; [|done]. cbn [negb].
    assert (TLVTypeIsString (ElementType x.1) = true) as Hs.
    { unfold TLVTypeIsUTF8String, TLVTypeIsString in *. apply andb_true_iff in Hu as [-> H%Z.leb_le]. cbn [andb]. apply Z.leb_le.
      unfold ElementType_UTF8String_8ByteLength, ElementType_ByteString_8ByteLength in *. lia. }
    specialize (Hp Hs). destruct (GetDataPtr x.1) as [[e|[data|]]|]; [| |by destruct Hp as [Hq ->]; unfold unless_split; rewrite Hq|done].
    + destruct Hp as [-> ->]. unfold unless_split. by destruct (split_value x'.1).
    + destruct Hp as (_ & -> & Hspan). unfold unless_split. destruct (split_value x'.1); [done|]. by destruct (Hspan eq_refl) as (l & -> & ->).
Qed.

Lemma pass_agrees calls : ∀ moved x x' trace y, matches (D0 := D0) (D := D) fuel x x' → pass fuel moved calls x = Some (inr trace, y) →
  ∃ trace' y', pass fuel moved calls x' = Some (inr trace', y') ∧ Forall2 agree trace trace'.
Proof using Hfuel.
  induction calls as [|c calls IH]; intros moved x x' trace y Hm; [intros [= <- <-]; by eexists [], x'|]. cbn [pass].
  destruct (held_back c moved); [by apply IH|]. destruct (run_pass_call fuel c x) as [[res z]|] eqn:E.
  2: { unfold mbind, CM_bind, attempt. by rewrite E. }
  destruct (sim_call c _ _ Hm _ _ E) as (z' & E' & Hz). erewrite bind_ok by (unfold attempt; by rewrite E). erewrite bind_ok by done. intros H.
  destruct (pass fuel (moved_after c moved res) calls z) as [[[e|rest] w]|] eqn:Er;
    [by erewrite bind_error in H by exact Er| |by unfold mbind, CM_bind in H; rewrite Er in H]. erewrite bind_ok in H by exact Er. injection H as <- <-.
  destruct (IH _ _ _ _ _ Hz Er) as (rest' & w' & Er' & Hrest). eexists _, w'.
  erewrite bind_ok by (unfold attempt; by rewrite E'). erewrite bind_ok by done. erewrite bind_ok by exact Er'. split; [done|].
  constructor; [by apply matches_agree|done].
Qed.
End passes.

(** Over one buffer a program comes to its end. *)
Section ends.
Context {D : Type} `{!TLVBackingStore D} (data : bytes) (fuel : nat).
Context (Hdata : bytes_ok data) (Hlen : Z.of_nat (length data) < 2 ^ 32) (Hfuel : (length data + 2 ≤ fuel)%nat).

Lemma pass_call_safe c moved r (d : D) : reads_in data r → (moved = true → string_ready r) → held_back c moved = false →
  wp (run_pass_call fuel c) (fun res x => reads_in data x.1 ∧ x.2 = d ∧ (moved_after c moved res = true → string_ready x.1)) (r, d).
Proof using Hdata Hlen Hfuel.
  intros Hr Hv Hh.
  assert (∀ (m : CM (TLVReader * D) bytes), safe data m → gives data m →
    wp m (fun res x => reads_in data x.1 ∧ x.2 = d ∧ (match res with inr _ => true | inl _ => false end = true → string_ready x.1)) (r, d)) as Hmove.
  { intros m Hs Hg. pose proof (Hs r d Hr) as H1. pose proof (Hg r d Hr) as H2. unfold safe_at, wp in *.
    destruct (m (r, d)) as [[[e|a] x]|]; [..|done]; by destruct H1 as (? & _ & ?). }
  assert (∀ (m : CM (TLVReader * D) bytes), safe data m → keeps data m →
    wp m (fun res x => reads_in data x.1 ∧ x.2 = d ∧ (moved = true → string_ready x.1)) (r, d)) as Hkeep.
  { intros m Hs Hk. pose proof (Hs r d Hr) as H1. assert (moved = true → wp m (fun _ x => string_ready x.1) (r, d)) as H2 by eauto. unfold safe_at, wp in *.
    destruct (m (r, d)) as [[res x]|]; [|done]. by destruct H1 as (? & _ & ?). }
  assert (∀ A (m : CM (TLVReader * D) A), safe data m → safe data (m;; mret (M := CM (TLVReader * D)) ([] : bytes))) as Hsafe.
  { intros A m Hm. apply (safe_bind data fuel Hfuel); [done|intros; apply safe_ret]. }
  assert (∀ A (m : CM (TLVReader * D) A), safe data m → gives data m → gives data (m;; mret (M := CM (TLVReader * D)) ([] : bytes))) as Hgive.
  { intros A m Hm Hg. apply gives_then; [done|done|intros; apply keeps_still; intros ?; by eexists]. }
  destruct c; cbn [run_pass_call moved_after]; unfold nothing;
    try (apply Hmove; eauto using safe_Next, safe_Next_tag, safe_Next_type, safe_Skip, safe_ExitContainer,
      gives_Next, gives_Next_tag, gives_Next_type, gives_Skip, gives_ExitContainer; fail);
    try (apply Hkeep; eauto using safe_GetBytes, safe_DupBytes, safe_DupString, keeps_GetBytes, keeps_DupBytes, keeps_DupString; fail).
  - apply Hkeep; [apply (safe_bind data fuel Hfuel); [by apply (safe_EnterContainer data fuel)|intros; apply safe_ret]|].
    apply ready_bind; [by apply (safe_EnterContainer data fuel)|by apply (keeps_EnterContainer data fuel)|intros; apply keeps_still; intros ?; by eexists].
  - eapply wp_mono; [by apply Hsafe; [apply safe_VerifyEndOfContainer|]|]. by intros res x (? & _ & ?).
  - cbn in Hh. apply negb_false_iff in Hh as ->. eapply wp_mono; [by apply GetString_ready; auto|]. by intros res x (? & ? & ?).
Qed.

Lemma pass_returns calls : ∀ moved r (d : D), reads_in data r → (moved = true → string_ready r) →
  ∃ trace r', pass fuel moved calls (r, d) = Some (inr trace, (r', d)).
Proof using Hdata Hlen Hfuel.
  induction calls as [|c calls IH]; intros moved r d Hr Hv; [by exists [], r|]. cbn [pass].
  destruct (held_back c moved) eqn:Hh; [by apply IH|].
  pose proof (pass_call_safe c moved r d Hr Hv Hh) as Hc. apply wp_run in Hc as (res & [r1 d1] & E & Hr1 & Hd & Hv1). cbn [fst snd] in *. subst d1.
  destruct (IH (moved_after c moved res) r1 d Hr1 Hv1) as (results & r2 & E2). exists ((res, r1) :: results), r2.
  erewrite bind_ok by (unfold attempt; by rewrite E). erewrite bind_ok by done. by erewrite bind_ok by exact E2.
Qed.
End ends.

(** ** Over a chain *)
Section chains.
Variable alloc : nat → Z → option bytes.
#[local] Existing Instance chain_store.

Definition at_buffer (c : list PacketBuffer.PacketBuffer) (i k : nat) : TLVPacketBufferBackingStore :=
  {| mHeadBuffer := c; mCurrentBuffer := Some i; mUseChainedBuffers := true; bufStart := 0; requests := k |}.

Lemma chain_feeds c k : ∀ n i, (length c - i = n)%nat → (i < length c)%nat → Forall PacketBuffer.buffer_ok c → Forall (fun b => PacketBuffer.data b ≠ []) (drop (S i) c) →
  @feeds _ (chain_store alloc) (at_buffer c i k) (PacketBuffer.data <$> drop (S i) c).
Proof.
  induction n as [|n IH]; intros i Hn Hi Hok Hne; [lia|]. destruct (c !! S i) as [b|] eqn:Eb.
  2: { apply lookup_ge_None in Eb. by rewrite drop_ge by lia. }
  pose proof (drop_S c b (S i) Eb) as Hdrop. rewrite Hdrop in Hne |- *. apply Forall_cons in Hne as [Hb Hne]. split; [done|].
  exists (at_buffer c (S i) k). apply lookup_lt_Some in Eb as Hlt. split; [|apply IH; [lia|lia|done|done]].
  cbn. unfold GetNextBuffer_chain, Advance, current. cbn. rewrite Eb. cbn. rewrite Eb. cbn.
  rewrite PacketBuffer.read_data by (eapply Forall_lookup_1; [exact Hok|exact Eb]). done.
Qed.

Lemma chain_buffers_ok c : PacketBuffer.chain_ok c → Forall PacketBuffer.buffer_ok c.
Proof. induction c as [|b c IH]; [done|]. intros (Hb & _ & _ & Hc). constructor; [done|by apply IH]. Qed.

Lemma pieces_bound (c : list bytes) : Forall (fun l => l ≠ []) c → (length c ≤ length (concat c))%nat.
Proof. induction 1 as [|l c Hl _ IH]; cbn; [lia|]. rewrite length_app. destruct l; [done|]. cbn. lia. Qed.

Lemma contents_concat c : PacketBuffer.contents c = concat (PacketBuffer.data <$> c).
Proof. induction c as [|b c IH]; [done|]. rewrite PacketBuffer.contents_cons, IH. done. Qed.

(** C17: A program that goes over a TLV encoding once sees the same, whether the encoding
    lies in one buffer or in a chain of packet buffers cut anywhere, also in the middle
    of a tag or a length.  For every sequence of the calls [Next] (all three), [Skip],
    [EnterContainer], [ExitContainer], [VerifyEndOfContainer], [GetBytes], [GetString],
    [DupBytes] and [DupString], and whatever the bytes, both runs end, every result and
    every error is the same, and so are the tag, the type, the lengths and the values of
    the current element after each call.  The getters that point into the buffer,
    [Get(ByteSpan &)] and [Get(CharSpan &)], give after each call the same bytes too,
    unless the value is split: when fewer of its bytes are left in the current buffer
    they fail with [CHIP_ERROR_TLV_UNDERRUN], exactly then.  The reader over the chain is
    set up with the length of the whole encoding as its limit and no buffer but the first
    is empty; [GetString] is called only when the last call that moved the reader
    succeeded ([TlvReaderSafe.reader_calls_return]). *)
Theorem chain_read_as_joined {D0} `{!TLVBackingStore D0} c k calls fuel r0 s0 (d0 : D0)
    (Hc : PacketBuffer.chain_ok c) (Hne : c ≠ []) (Hdata : Forall (fun b => PacketBuffer.data b ≠ []) (tail c))
    (Hbytes : bytes_ok (PacketBuffer.contents c)) (Hfuel : (length (PacketBuffer.contents c) + 2 ≤ fuel)%nat) :
  ∃ trace trace' r r' s, pass fuel true calls (Init (PacketBuffer.contents c), d0) = Some (inr trace, (r, d0))
    ∧ (modify (fun x => (x.1, StoreInit c true k));; @Init_store _ (chain_store alloc) (Z.of_nat (length (PacketBuffer.contents c)));;
       @pass _ (chain_store alloc) fuel true calls) (r0, s0) = Some (inr trace', (r', s))
    ∧ Forall2 agree trace trace'.
Proof.
  pose proof (PacketBuffer.length_contents c Hc) as Hlen. pose proof (PacketBuffer.chain_le c Hc) as Hle. set (m := Z.of_nat _) in *.
  assert (m < 2 ^ 32) as Hm by lia.
  assert (true = true → string_ready (Init (PacketBuffer.contents c))) as Hready by done.
  destruct (pass_returns (PacketBuffer.contents c) fuel Hbytes Hm Hfuel calls true (Init (PacketBuffer.contents c)) d0 (init_reads_in _ Hm) Hready) as (trace & r & E). clear Hready.
  destruct c as [|b c]; [done|]. set (l := PacketBuffer.data b). set (pieces := PacketBuffer.data <$> c).
  assert (PacketBuffer.contents (b :: c) = joined l pieces) as Hj by (rewrite contents_concat; done).
  assert (Forall (fun l => l ≠ []) pieces) as Hp by (by apply Forall_fmap).
  assert (@matches _ _ (chain_store alloc) fuel (Init (PacketBuffer.contents (b :: c)), d0)
    (joined_rd kProfileIdNotSpecified m kTLVType_NotSpecified false kTLVControlByte_NotSpecified AnonymousTag 0 l pieces, at_buffer (b :: c) 0 k)) as Hx.
  { assert (Init (PacketBuffer.contents (b :: c)) = rd kProfileIdNotSpecified m kTLVType_NotSpecified false kTLVControlByte_NotSpecified AnonymousTag 0 (joined l pieces)) as ->.
    { rewrite <- Hj. unfold Init, rd. fold m. rewrite Z.min_l by lia. subst m. rewrite Nat2Z.id, firstn_all. f_equal. lia. }
    constructor.
    - rewrite <- Hj. unfold fits. lia.
    - apply (chain_feeds (b :: c) k (length (b :: c)) 0); [cbn; lia|cbn; lia|by apply chain_buffers_ok|done].
    - pose proof (pieces_bound pieces Hp) as Hb. rewrite Hj in Hfuel. unfold joined in Hfuel. rewrite length_app in Hfuel. lia. }
  destruct (@pass_agrees D0 _ _ (chain_store alloc) fuel ltac:(lia) calls true _ _ _ _ Hx E) as (trace' & [r' s] & E' & Hagree).
  exists trace, trace', r, r', s. split; [done|]. split; [|done].
  erewrite bind_ok by done. cbn [fst snd]. unfold Init_store. destruct Hc as (Hb & _).
  erewrite bind_ok by (erewrite bind_ok by (unfold store, on_snd; cbn; unfold OnInit_reader; cbn; rewrite PacketBuffer.read_data by done; done); done).
  cbn [fst snd]. fold l. rewrite <- E'. f_equal. f_equal. unfold joined_rd, piece_rd. rewrite <- Hj. fold m. f_equal. lia.
Qed.
End chains.
