(* ===== verification/TlvDemo.v ===== *)
(** * TlvDemo: the TLV theorems at work

    A small message written, read and searched, and runs at the limits of the code. *)
From S2P Require Import Prelude ChipError StateError Tlv TlvReader TlvUtilities TlvReading TlvReaderSafe TlvEncoding TlvTree TlvIterate TlvRoundtrip.
From S2P Require TlvWriter TlvWriting TlvWriterSafe TlvChain PacketBuffer.

(** A client without a store *)
#[local] Instance no_store : TLVBackingStore unit := {
  OnInitReader d := Some (inl CHIP_ERROR_NOT_IMPLEMENTED, d);
  GetNextBuffer d := Some (inl CHIP_ERROR_NOT_IMPLEMENTED, d);
  OnInitWriter d := Some (inl CHIP_ERROR_NOT_IMPLEMENTED, d);
  GetNewBuffer d := Some (inl CHIP_ERROR_NOT_IMPLEMENTED, d);
  FinalizeBuffer _ _ d := Some (inl CHIP_ERROR_NOT_IMPLEMENTED, d) }.

(** A structure with two fields and a list, the way a command is encoded *)
Definition message : list tlv :=
  [Container AnonymousTag kTLVType_Structure
     [Element (ContextTag 0) (Unsigned 513); Element (ContextTag 1) (Octets [1; 2; 3]);
      Container (ContextTag 2) kTLVType_List [Element AnonymousTag (Signed (-7)); Element (ContextTag 1) (Boolean true); Element (CommonTag 70000) Null]]].
Definition memory : bytes := replicate 40 255.

Lemma tlv_roundtrip_witness : ∃ w, TlvWriting.put_all 40 message (TlvWriter.Init memory 36, tt) = Some (inr tt, (w, tt))
    ∧ let n := Z.to_nat (TlvWriter.mLenWritten w) in
      drop n (TlvWriter.mBuf w) = drop n memory
      ∧ Iterate 40 note true (Init (take n (TlvWriter.mBuf w))) [] tt = Some (CHIP_END_OF_TLV, event_of <$> visits true 0 message, tt).
Proof.
  refine (tlv_roundtrip message memory 36 40 tt _ _ _ _ _).
  - by apply (bool_decide_unpack _); vm_compute.
  - by vm_compute.
  - by vm_compute.
  - split; by vm_compute.
  - apply Nat.leb_le. by vm_compute.
Defined.

(** The same bytes cut short: the calls return all the same. *)
Definition truncated : bytes := [0x15; 0x25; 0; 1; 2; 0x30; 1; 200; 7; 7].

(** Searching the structure that [message] contains *)
Definition fields : list tlv := match message with [Container _ _ es] => es | _ => [] end.
Lemma searches_correct_witness :
  let data := encode_all kProfileIdNotSpecified fields ++ end_marker ++ [7] in
  let x := gap kProfileIdNotSpecified (Z.of_nat (length data)) kTLVType_Structure data in
  FindElementWithTag 40 (ContextTag 7) (x, tt) = Some (inl CHIP_END_OF_TLV, (x, tt))
  ∧ CountRemainingInContainer 40 (x, tt) = Some (inr 3, (x, tt))
  ∧ Count 40 x true tt = Some (CHIP_NO_ERROR, 6, tt).
Proof.
  pose proof (fun H1 H2 H3 H4 H5 H6 => searches_correct (D := unit) 40 ltac:(lia) true kProfileIdNotSpecified kTLVType_Structure fields (end_marker ++ [7])
    (at_end kProfileIdNotSpecified (Z.of_nat (length (encode_all kProfileIdNotSpecified fields ++ end_marker ++ [7]))) kTLVType_Structure [7]) tt H1 H2 H3 H4 H5 H6) as H.
  lapply H; clear H; [intros H|by apply (bool_decide_unpack _); vm_compute].
  lapply H; clear H; [intros H|right; right; by vm_compute].
  lapply H; clear H; [intros H|by apply ends_container].
  lapply H; clear H; [intros H|by vm_compute].
  lapply H; clear H; [intros H|apply Nat.leb_le; by vm_compute].
  lapply H; clear H; [intros H|intros _; by vm_compute].
  destruct H as (H1 & H2 & H3 & _). split; [|split].
  - rewrite H1. by vm_compute.
  - rewrite H2 by done. by vm_compute.
  - rewrite H3. by vm_compute.
Defined.

(** 200 as an [uint16_t] in two bytes *)
Definition empty_writer : TlvWriter.TLVWriter := TlvWriter.Init memory 40.
Lemma integers_correct_witness : ∃ bs r,
  TlvWriter.Put_uint 2 16 (CommonTag 3) 200 true (empty_writer, tt) = Some (inr tt, (TlvWriting.emit bs empty_writer, tt))
  ∧ Next 2 (gap kProfileIdNotSpecified (Z.of_nat (length (bs ++ [7]))) kTLVType_NotSpecified (bs ++ [7]), tt) = Some (inr tt, (r, tt)) ∧ GetTag r = CommonTag 3
  ∧ Get_uint64 r = (CHIP_NO_ERROR, Some 200)
  ∧ Get_uint 8 r = (if decide (in_u 8 200) then (CHIP_NO_ERROR, Some 200) else (CHIP_ERROR_INVALID_INTEGER_VALUE, None))
  ∧ (Get_int64 r).1 = CHIP_ERROR_WRONG_TLV_TYPE.
Proof.
  refine (proj2 (integers_correct (D := unit) 2 ltac:(lia) 16 8 kProfileIdNotSpecified kTLVType_NotSpecified (CommonTag 3) 200 [7] empty_writer true tt
    _ _ _ _ _ _ _ _ _) _).
  - unfold widths. set_solver.
  - by apply (bool_decide_unpack _); vm_compute.
  - by left.
  - by vm_compute.
  - done.
  - done.
  - by left.
  - by constructor; vm_compute.
  - by vm_compute.
  - split; by vm_compute.
Defined.

(** A container writer that overruns, with the other calls going on *)
Definition first_calls : TlvWriterSafe.session :=
  TlvWriterSafe.Call (TlvWriterSafe.Start AnonymousTag kTLVType_Structure)
    (TlvWriterSafe.Call (TlvWriterSafe.Uint 16 (ContextTag 0) 513 false)
      (TlvWriterSafe.Nested (ContextTag 1) kTLVType_Array (TlvWriterSafe.Call (TlvWriterSafe.Octets AnonymousTag (replicate 60 1)) TlvWriterSafe.Finish)
        TlvWriterSafe.Finish)).
Definition more_calls : TlvWriterSafe.session :=
  TlvWriterSafe.Call (TlvWriterSafe.Reserve 4)
    (TlvWriterSafe.Call (TlvWriterSafe.Text (ContextTag 2) (replicate 30 65)) (TlvWriterSafe.Call (TlvWriterSafe.End kTLVType_NotSpecified) TlvWriterSafe.Finish)).
Lemma writer_stays_in_buffer_witness : ∃ w1 w2,
  TlvWriterSafe.run_session 2 first_calls (TlvWriter.Init memory 30, tt) = Some (inr tt, (w1, tt))
  ∧ TlvWriterSafe.run_session 2 more_calls (w1, tt) = Some (inr tt, (w2, tt))
  ∧ 0 ≤ TlvWriter.mWritePoint w1 ≤ TlvWriter.mWritePoint w2
  ∧ TlvWriter.mWritePoint w2 + TlvWriter.mRemainingLen w2 + TlvWriter.mReservedSize w2 ≤ 30
  ∧ length (TlvWriter.mBuf w2) = length memory ∧ drop (Z.to_nat 30) (TlvWriter.mBuf w2) = drop (Z.to_nat 30) memory
  ∧ take (Z.to_nat (TlvWriter.mWritePoint w1)) (TlvWriter.mBuf w2) = take (Z.to_nat (TlvWriter.mWritePoint w1)) (TlvWriter.mBuf w1).
Proof.
  apply (TlvWriterSafe.writer_stays_in_buffer (D := unit) 2 ltac:(lia) memory 30 first_calls more_calls tt).
  - lia.
  - split; by vm_compute.
  - by repeat split.
  - by repeat split.
Defined.

(** A structure in three buffers, cut inside a number and a string *)
Definition buffer (data : bytes) (total : Z) : PacketBuffer.PacketBuffer :=
  {| PacketBuffer.block := 0 :: data; PacketBuffer.payload := 1; PacketBuffer.len := Z.of_nat (length data); PacketBuffer.tot_len := total |}.
Definition cut_message : list PacketBuffer.PacketBuffer :=
  [buffer [0x15; 0x25; 0; 1] 12; buffer [2; 0x30; 1] 8; buffer [2; 7; 8; 0x18; 9] 5].
Definition heap (k : nat) (n : Z) : option bytes := Some (replicate (Z.to_nat n) 0).

Definition demo_pass : list TlvChain.pass_call :=
  [TlvChain.PNext; TlvChain.PEnter; TlvChain.PNext; TlvChain.PNext; TlvChain.PGetBytes 2; TlvChain.PVerifyEnd].
(** [Get(ByteSpan &)] after each call: the string of two bytes is split. *)
Lemma chain_read_as_joined_witness : ∃ trace trace' r r' s,
  TlvChain.pass 14 true demo_pass (Init (PacketBuffer.contents cut_message), tt) = Some (inr trace, (r, tt))
  ∧ (modify (fun x => (x.1, TlvChain.StoreInit cut_message true 0));;
     @Init_store _ (TlvChain.chain_store heap) (Z.of_nat (length (PacketBuffer.contents cut_message)));;
     @TlvChain.pass _ (TlvChain.chain_store heap) 14 true demo_pass)
      (Init [], TlvChain.StoreInit [] false 0) = Some (inr trace', (r', s))
  ∧ Forall2 TlvChain.agree trace trace'.
Proof.
  apply (TlvChain.chain_read_as_joined heap cut_message 0 demo_pass 14 (Init []) (TlvChain.StoreInit [] false 0) tt).
  - repeat split; by vm_compute.
  - done.
  - by repeat constructor.
  - unfold bytes_ok, in_u. repeat constructor; by vm_compute.
  - apply Nat.leb_le. by vm_compute.
Defined.

(** ** At the limits of the code *)
Definition repeat_call {St A} (n : nat) (m : CM St A) : CM St unit :=
  Nat.iter n (fun rest => m;; rest) (mret tt).

(** The end markers of twenty open containers are reserved out of [mMaxLen], which the
    short way of [WriteElementHead] compares with 17 only: four more elements take their
    place, and the containers cannot be closed. *)
Lemma end_markers_overwritten :
  (repeat_call 20 (TlvWriter.StartContainer 2 AnonymousTag kTLVType_List);; repeat_call 4 (TlvWriter.PutNull 2 AnonymousTag);;
   TlvWriter.EndContainer 2 kTLVType_List) (empty_writer, tt)
  = match (repeat_call 20 (TlvWriter.StartContainer 2 AnonymousTag kTLVType_List);; repeat_call 4 (TlvWriter.PutNull 2 AnonymousTag)) (empty_writer, tt) with
    | Some (inr _, (w, _)) => Some (inl CHIP_ERROR_BUFFER_TOO_SMALL, (TlvWriter.unreserve_marker w, tt))
    | _ => None
    end.
Proof. by vm_compute. Qed.

(** A store that hands out 40 bytes at a time *)
Inductive pages : Type := Pages.
#[local] Instance page_store : TLVBackingStore pages := {
  OnInitReader d := Some (inr (replicate 40 ElementType_Null), d);
  GetNextBuffer d := Some (inr None, d);
  OnInitWriter d := Some (inr (replicate 40 0, 40), d);
  GetNewBuffer d := Some (inr (replicate 40 0, 40), d);
  FinalizeBuffer _ _ d := Some (inr tt, d) }.

(** The first buffer is not cut to [maxLen], neither for a writer nor for a reader. *)
Lemma writer_passes_maxLen :
  (fun '(res, (w, _)) => (res, TlvWriter.mLenWritten w, TlvWriter.mMaxLen w)) <$>
    (TlvWriter.Init_store 20;; repeat_call 24 (TlvWriter.PutNull 2 AnonymousTag)) (empty_writer, Pages)
  = Some (inr tt, 24, 20).
Proof. by vm_compute. Qed.

Lemma reader_passes_maxLen :
  (fun '(res, (r, _)) => (res, mLenRead r, mMaxLen r, GetRemainingLength r)) <$>
    (Init_store 20;; repeat_call 24 (Next 2)) (Init [], Pages)
  = Some (inr tt, 24, 20, 2 ^ 32 - 4).
Proof. by vm_compute. Qed.

(** [Next] refuses a string of 2^64 - 1 bytes; the element stays, and [mElemLenOrVal + 1]
    is 0 in [GetString], which then writes its terminator through the length. *)
Lemma GetString_after_error : (attempt (Next 10) ≫= fun err => GetString 10 32 ≫= fun s => mret (err, s)) (Init (0x0F :: replicate 8 255), tt) = None
  ∧ fst <$> Next 10 (Init (0x0F :: replicate 8 255), tt) = Some (inl CHIP_ERROR_NOT_IMPLEMENTED).
Proof. by vm_compute. Qed.

(** An empty string leaves the span that [Get(CharSpan &)] was given as it was. *)
Lemma Get_CharSpan_empty : (fun x => (x.1, Get_CharSpan x.2.1)) <$> Next 4 (Init [0x0C; 0], tt) = Some (inr tt, Some (inr None)).
Proof. by vm_compute. Qed.

(** A handler that returns [CHIP_END_OF_TLV] inside a container only leaves it. *)
Lemma Iterate_end_of_tlv :
  Iterate 20 (fun r depth n => (if depth =? 1 then CHIP_END_OF_TLV else CHIP_NO_ERROR, n + 1)) true (Init [0x17; 0x14; 0x14; 0x18; 0x14]) 0 tt
  = Some (CHIP_END_OF_TLV, 3, tt).
Proof. by vm_compute. Qed.

(** The searches are const and work on a copy of the reader, but the copy moves the
    store: after one, a reader over a chain goes on in the wrong buffer. *)
Lemma search_moves_the_store :
  let run (m : CM (TLVReader * TlvChain.TLVPacketBufferBackingStore) TLVReader) :=
    option_map fst ((@Init_store _ (TlvChain.chain_store heap) 12;; @Next _ (TlvChain.chain_store heap) 14;; EnterContainer;; attempt m;;
      @Next _ (TlvChain.chain_store heap) 14;; r ← reader id; mret (Get_uint64 r)) (Init [], TlvChain.StoreInit cut_message true 0)) in
  run (fail CHIP_NO_ERROR) = Some (inr (CHIP_NO_ERROR, Some 513))
  ∧ run (@FindElementWithTag _ (TlvChain.chain_store heap) 14 (ContextTag 1)) = Some (inl CHIP_ERROR_TLV_UNDERRUN).
Proof. split; by vm_compute. Qed.
