(* ===== verification/ReliableMessage.v ===== *)
(** * ReliableMessage: the message reliability protocol

    [src/src/messaging]: [ReliableMessageMgr.cpp], [ReliableMessageContext.cpp],
    [ExchangeMessageDispatch.cpp] and [ExchangeContext.cpp].  An exchange keeps the
    acknowledgement it owes, the table of retransmissions keeps the messages that
    wait for one, and one timer wakes the manager for both.

    Exchanges and table entries are objects of pools: maps from the slot, visited in
    order; references are counted without the bound of 32 bits.  The session layer
    below is the class [SessionLayer] with the state [D]; a session is a number.  The clock stands still during a call.  Callbacks of
    sessions and delegates are events of the log, except that of a received message,
    which is an argument.  [None] is a [VerifyOrDie] that fails.  Configuration: LwIP,
    neither ICD nor SED, no Thread, peers are not resolved after a failure. *)
From S2P Require Import Prelude ChipError MessageHeader StateError.

Definition CHIP_CONFIG_MAX_EXCHANGE_CONTEXTS : nat := 8.
Definition CHIP_CONFIG_RMP_RETRANS_TABLE_SIZE : nat := CHIP_CONFIG_MAX_EXCHANGE_CONTEXTS.
Definition CHIP_CONFIG_RMP_DEFAULT_MAX_RETRANS : Z := 4.
Definition CHIP_CONFIG_RMP_DEFAULT_ACK_TIMEOUT : Z := 200.
Definition CHIP_CONFIG_MRP_RETRY_INTERVAL_SENDER_BOOST : Z := 0.

Definition SecureChannel : ProtocolId := {| mVendorId := 0; mProtocolId := 0 |}.
Definition MsgType_StandaloneAck : Z := 0x10.

Class SessionLayer (D : Type) : Type := {
  PrepareMessage : nat → PayloadHeader → D → (CHIP_ERROR + Z) * D;   (* the message counter *)
  SendPreparedMessage : nat → Z → D → CHIP_ERROR * D;
  NewBuffer : D → bool * D;                                         (* [MessagePacketBuffer::New(0)] *)
  GetRandU8 : D → Z * D;
  GetMRPBaseTimeout : nat → D → Z;
  IsGroupSession : nat → D → bool;
  IsCASESession : nat → D → bool;
  IsActiveSession : nat → D → bool;
  RequireMRP : nat → D → bool }.

(** [IsEncryptionRequired] is [None] where it dies. *)
Record ExchangeMessageDispatch :=
  { MessagePermitted : ProtocolId → Z → bool; IsReliableTransmissionAllowed : bool; IsEncryptionRequired : option bool }.
Definition is_secure_channel (protocol : ProtocolId) : bool := (mVendorId protocol =? 0) && (mProtocolId protocol =? 0).
(** PBKDFParamRequest to PASE_Pake3 and CASE_Sigma1 to CASE_Sigma2Resume *)
Definition ApplicationExchangeDispatch : ExchangeMessageDispatch :=
  {| MessagePermitted := fun protocol type =>
       negb (is_secure_channel protocol && existsb (Z.eqb type) [0x20; 0x21; 0x22; 0x23; 0x24; 0x30; 0x31; 0x32; 0x33]);
     IsReliableTransmissionAllowed := true; IsEncryptionRequired := Some true |}.
Definition EphemeralExchangeDispatch : ExchangeMessageDispatch :=
  {| MessagePermitted := fun protocol type => is_secure_channel protocol && (type =? MsgType_StandaloneAck);
     IsReliableTransmissionAllowed := true; IsEncryptionRequired := None |}.

(** The flags of [mFlags] one by one; a delegate is there or not. *)
Record ExchangeContext := {
  mExchangeId : Z; mSession : option nat; mDelegate : bool; mDispatch : ExchangeMessageDispatch; mResponseTimeout : Z; mRefCount : Z;
  mNextAckTime : Z; mPendingPeerAckMessageCounter : Z;
  kFlagInitiator : bool; kFlagResponseExpected : bool; kFlagAutoRequestAck : bool; kFlagMessageNotAcked : bool; kFlagAckPending : bool;
  kFlagAckMessageCounterIsValid : bool; kFlagWillSendMessage : bool; kFlagClosed : bool; kFlagEphemeralExchange : bool;
  kFlagIgnoreSessionRelease : bool }.
#[export] Instance eta_context : Eta ExchangeContext := fun c =>
  {| mExchangeId := mExchangeId c; mSession := mSession c; mDelegate := mDelegate c; mDispatch := mDispatch c; mResponseTimeout := mResponseTimeout c;
     mRefCount := mRefCount c; mNextAckTime := mNextAckTime c; mPendingPeerAckMessageCounter := mPendingPeerAckMessageCounter c;
     kFlagInitiator := kFlagInitiator c; kFlagResponseExpected := kFlagResponseExpected c; kFlagAutoRequestAck := kFlagAutoRequestAck c;
     kFlagMessageNotAcked := kFlagMessageNotAcked c; kFlagAckPending := kFlagAckPending c;
     kFlagAckMessageCounterIsValid := kFlagAckMessageCounterIsValid c; kFlagWillSendMessage := kFlagWillSendMessage c; kFlagClosed := kFlagClosed c;
     kFlagEphemeralExchange := kFlagEphemeralExchange c; kFlagIgnoreSessionRelease := kFlagIgnoreSessionRelease c |}.

(** [retainedBuf] is the counter of the prepared message in it. *)
Record RetransTableEntry := { ec : nat; retainedBuf : option Z; nextRetransTime : Z; sendCount : Z }.
#[export] Instance eta_entry : Eta RetransTableEntry := fun e =>
  {| ec := ec e; retainedBuf := retainedBuf e; nextRetransTime := nextRetransTime e; sendCount := sendCount e |}.

Inductive event :=
| Prepared (session : nat) (header : PayloadHeader) (counter : Z)
| Sent (session : nat) (counter : Z) (err : CHIP_ERROR)
| MarkedDefunct (session : nat) | SessionHang (session : nat)
| ExchangeClosing (exchange : nat) | ResponseTimedOut (exchange : nat) | ExchangeCreationFailed (handler : nat).

Record Exchanges (D : Type) := {
  mContextPool : gmap nat ExchangeContext; mRetransTable : gmap nat RetransTableEntry;
  mTimer : option Z; mResponseTimers : gmap nat Z; mClock : Z; mLog : list event; mSessionLayer : D }.
Arguments mContextPool {D}. Arguments mRetransTable {D}. Arguments mTimer {D}. Arguments mResponseTimers {D}. Arguments mClock {D}.
Arguments mLog {D}. Arguments mSessionLayer {D}.
#[export] Instance eta_exchanges D : Eta (Exchanges D) := fun w =>
  {| mContextPool := mContextPool w; mRetransTable := mRetransTable w; mTimer := mTimer w; mResponseTimers := mResponseTimers w;
     mClock := mClock w; mLog := mLog w; mSessionLayer := mSessionLayer w |}.

(** ** The backoff *)
Definition MRP_BACKOFF_JITTER_BASE : Z := 1024.
Definition MRP_BACKOFF_MARGIN_NUMERATOR : Z := 1127.
Definition MRP_BACKOFF_MARGIN_DENOMINATOR : Z := 1024.
Definition MRP_BACKOFF_BASE_NUMERATOR : Z := 16.
Definition MRP_BACKOFF_BASE_DENOMINATOR : Z := 10.
Definition MRP_BACKOFF_THRESHOLD : Z := 1.

Definition backoff_exponent (sendCount : Z) : Z :=
  let exponent := sendCount - MRP_BACKOFF_THRESHOLD in
  let exponent := if exponent <? 0 then 0 else exponent in
  if 4 <? exponent then 4 else exponent.
(** [jitter] is the random byte, 255 for [computeMaxPossible]. *)
Definition GetBackoff (baseInterval sendCount jitter : Z) : Z :=
  let baseInterval := u64 (baseInterval * MRP_BACKOFF_MARGIN_NUMERATOR) / MRP_BACKOFF_MARGIN_DENOMINATOR in
  let '(backoffNum, backoffDenom) := Nat.iter (Z.to_nat (backoff_exponent sendCount))
    (fun '(num, denom) => (u32 (num * MRP_BACKOFF_BASE_NUMERATOR), u32 (denom * MRP_BACKOFF_BASE_DENOMINATOR))) (1, 1) in
  let mrpBackoffTime := u64 (baseInterval * backoffNum) / backoffDenom in
  let mrpBackoffTime := u64 (mrpBackoffTime * (MRP_BACKOFF_JITTER_BASE + jitter)) / MRP_BACKOFF_JITTER_BASE in
  u64 (mrpBackoffTime + CHIP_CONFIG_MRP_RETRY_INTERVAL_SENDER_BOOST).

(** [MapSendError], and [IsSendErrorNonCritical] of [ErrorCategory.cpp] *)
Definition MapSendError (error : CHIP_ERROR) : CHIP_ERROR := match error with LWIP_ERR_MEM => CHIP_NO_ERROR | _ => error end.
Definition IsSendErrorNonCritical (err : CHIP_ERROR) : bool :=
  match err with
  | CHIP_ERROR_NOT_IMPLEMENTED | CHIP_ERROR_OUTBOUND_MESSAGE_TOO_BIG | CHIP_ERROR_MESSAGE_TOO_LONG | CHIP_ERROR_NO_MEMORY
  | LWIP_ERR_RTE | LWIP_ERR_MEM => true
  | _ => false
  end.

Section exchanges.
Context {D : Type} `{!SessionLayer D}.

#[local] Abbreviation XM := (CM (Exchanges D)).
#[local] Abbreviation World := (Exchanges D).

(** ** The state *)
Definition now : XM Z := gets mClock.
Definition note_event (e : event) : XM unit := modify (fun w => w <| mLog ::= fun l => l ++ [e] |>).
(** A call of the session layer that returns a value *)
Definition layer {A} (f : D → A * D) : XM A := fun w =>
  let '(a, d) := f (mSessionLayer w) in Some (inr a, w <| mSessionLayer := d |>).
Definition exchange (i : nat) : XM ExchangeContext := fun w =>
  match mContextPool w !! i with Some c => Some (inr c, w) | None => None end.
Definition set_exchange (i : nat) (f : ExchangeContext → ExchangeContext) : XM unit := modify (fun w => w <| mContextPool ::= alter f i |>).
Definition entry (k : nat) : XM RetransTableEntry := fun w =>
  match mRetransTable w !! k with Some e => Some (inr e, w) | None => None end.
Definition set_entry (k : nat) (f : RetransTableEntry → RetransTableEntry) : XM unit := modify (fun w => w <| mRetransTable ::= alter f k |>).
Definition die_unless (b : bool) : XM unit := if b then mret tt else stuck.
(** [GetSessionHandle] *)
Definition GetSessionHandle (c : ExchangeContext) : XM nat := match mSession c with Some s => mret s | None => stuck end.
Definition session_is (f : nat → D → bool) (s : nat) : XM bool := gets (fun w => f s (mSessionLayer w)).
Definition IsGroupExchangeContext (c : ExchangeContext) : XM bool :=
  match mSession c with Some s => session_is IsGroupSession s | None => mret false end.

(** [StaticAllocatorBitmap::Allocate]: the first free slot *)
Fixpoint free_slot {A} (pool : gmap nat A) (i n : nat) : option nat :=
  match n with
  | O => None
  | S n => match pool !! i with None => Some i | Some _ => free_slot pool (S i) n end
  end.

(** [ForEachActiveObject] over the slots that are in use when it starts *)
Fixpoint for_each {A} (slots : list nat) (f : nat → XM A) : XM unit :=
  match slots with [] => mret tt | i :: slots => f i;; for_each slots f end.
Definition all_exchanges : XM (list nat) := gets (fun w => filter (fun i => is_Some (mContextPool w !! i)) (seq 0 CHIP_CONFIG_MAX_EXCHANGE_CONTEXTS)).
Definition all_entries : XM (list nat) := gets (fun w => filter (fun k => is_Some (mRetransTable w !! k)) (seq 0 CHIP_CONFIG_RMP_RETRANS_TABLE_SIZE)).

(** ** References *)
Definition Retain (i : nat) : XM unit :=
  c ← exchange i; die_unless (0 <? mRefCount c);; set_exchange i (fun c => c <| mRefCount ::= Z.add 1 |>).
(** The destructor requires the exchange to be closed, so that its [DoClose] does
    nothing. *)
Definition Release (i : nat) : XM unit :=
  c ← exchange i;
  die_unless (0 <? mRefCount c);;
  if mRefCount c =? 1 then die_unless (kFlagClosed c);; modify (fun w => w <| mContextPool ::= delete i |>)
  else set_exchange i (fun c => c <| mRefCount ::= fun n => n - 1 |>).
(** [ExchangeHandle ref( *this)] around a body *)
Definition with_ref {A} (i : nat) (body : XM A) : XM A :=
  Retain i;; res ← attempt body; Release i;; returns res.

(** ** The timer *)
Definition StopTimer : XM unit := modify (fun w => w <| mTimer := None |>).
(** The earliest of the times; [None] is [Timestamp::max()]. *)
Definition earlier (t : Z) (next : option Z) : option Z :=
  match next with Some n => Some (if t <? n then t else n) | None => Some t end.
Definition ack_times (w : World) : list Z :=
  map mNextAckTime (filter (fun c => kFlagAckPending c) (snd <$> map_to_list (mContextPool w))).
Definition retrans_times (w : World) : list Z := map nextRetransTime (snd <$> map_to_list (mRetransTable w)).
Definition next_wake (w : World) : option Z := foldr earlier None (ack_times w ++ retrans_times w).
Definition StartTimer : XM unit :=
  StopTimer;;
  modify (fun w => w <| mTimer := match next_wake w with Some t => Some (Z.max t (mClock w)) | None => None end |>).

(** ** The table of retransmissions *)
Definition SetMessageNotAcked (i : nat) (messageNotAcked : bool) : XM unit :=
  set_exchange i (fun c => c <| kFlagMessageNotAcked := messageNotAcked |>).

(** The result is the slot of the new entry. *)
Definition AddToRetransTable (i : nat) : XM nat :=
  c ← exchange i;
  die_unless (negb (kFlagMessageNotAcked c));;
  table ← gets mRetransTable;
  match free_slot table 0 CHIP_CONFIG_RMP_RETRANS_TABLE_SIZE with
  | None => fail CHIP_ERROR_RETRANS_TABLE_FULL
  | Some k =>
      Retain i;;
      SetMessageNotAcked i true;;
      modify (fun w => w <| mRetransTable ::= <[k := {| ec := i; retainedBuf := None; nextRetransTime := 0; sendCount := 0 |}]> |>);;
      mret k
  end.

(** [mRetransTable.ReleaseObject], with the destructor of the entry *)
Definition ReleaseEntry (k : nat) : XM unit :=
  e ← entry k;
  SetMessageNotAcked (ec e) false;;
  Release (ec e);;
  modify (fun w => w <| mRetransTable ::= delete k |>).
Definition ClearRetransTable_entry (k : nat) : XM unit := ReleaseEntry k;; StartTimer.

(** The loops that break at the first entry found *)
Fixpoint first_entry (p : RetransTableEntry → bool) (slots : list nat) (w : World) : option nat :=
  match slots with
  | [] => None
  | k :: slots => match mRetransTable w !! k with Some e => if p e then Some k else first_entry p slots w | None => first_entry p slots w end
  end.
Definition find_entry (p : RetransTableEntry → bool) : XM (option nat) := slots ← all_entries; gets (first_entry p slots).

Definition CheckAndRemRetransTable (i : nat) (ackMessageCounter : Z) : XM bool :=
  found ← find_entry (fun e => (ec e =? i)%nat && match retainedBuf e with Some n => n =? ackMessageCounter | None => false end);
  match found with
  | Some k => ClearRetransTable_entry k;; mret true
  | None => mret false
  end.
Definition ClearRetransTable (i : nat) : XM unit :=
  found ← find_entry (fun e => (ec e =? i)%nat);
  match found with Some k => ClearRetransTable_entry k | None => mret tt end.

Definition backoff_from_now (e : RetransTableEntry) (count : Z) : XM Z :=
  c ← exchange (ec e);
  session ← GetSessionHandle c;
  baseTimeout ← gets (fun w => GetMRPBaseTimeout session (mSessionLayer w));
  jitter ← layer GetRandU8;
  t ← now;
  mret (u64 (t + GetBackoff baseTimeout count jitter)).

Definition StartRetransmision (k : nat) : XM unit :=
  e ← entry k;
  next ← backoff_from_now e (sendCount e);
  set_entry k (fun e => e <| nextRetransTime := next |>);;
  StartTimer.

(** The result is the error; it is not looked at. *)
Definition SendFromRetransTable (k : nat) : XM unit :=
  e ← entry k;
  c ← exchange (ec e);
  match mSession c, retainedBuf e with
  | None, _ => ClearRetransTable_entry k
  | Some _, None => stuck
  | Some session, Some counter =>
      err ← layer (SendPreparedMessage session counter);
      note_event (Sent session counter err);;
      if is_no_error (MapSendError err) then mret tt else ClearRetransTable_entry k
  end.

(** ** Sending *)
Definition SetPendingPeerAckMessageCounter (i : nat) (aPeerAckMessageCounter : Z) : XM unit :=
  set_exchange i (fun c => c <| mPendingPeerAckMessageCounter := aPeerAckMessageCounter |> <| kFlagAckPending := true |>
                             <| kFlagAckMessageCounterIsValid := true |>).
Definition TakePendingPeerAckMessageCounter (i : nat) : XM Z :=
  set_exchange i (fun c => c <| kFlagAckPending := false |>);; c ← exchange i; mret (mPendingPeerAckMessageCounter c).

Definition prepare (session : nat) (header : PayloadHeader) : XM Z :=
  counter ← layer (PrepareMessage session header);
  match counter with
  | inl err => fail err
  | inr counter => note_event (Prepared session header counter);; mret counter
  end.
Definition send_prepared (session : nat) (counter : Z) : XM CHIP_ERROR :=
  err ← layer (SendPreparedMessage session counter); note_event (Sent session counter err);; mret err.

(** [entryOwner] clears the entry when it is not released. *)
Definition owning {A} (k : nat) (body : XM A) : XM A :=
  res ← attempt body;
  match res with
  | inl err => ClearRetransTable_entry k;; fail err
  | inr a => mret a
  end.

(** [ExchangeMessageDispatch::SendMessage] *)
Definition dispatch_SendMessage (i session : nat) (isReliableTransmission : bool) (protocol : ProtocolId) (type : Z) : XM unit :=
  c ← exchange i;
  verify (MessagePermitted (mDispatch c) protocol type) CHIP_ERROR_INVALID_ARGUMENT;;
  let payloadHeader := SetInitiator (kFlagInitiator c) (SetMessageType protocol type (SetExchangeID (mExchangeId c) default_payload)) in
  payloadHeader ← (if kFlagAckMessageCounterIsValid c then
                     ack ← TakePendingPeerAckMessageCounter i; mret (SetAckMessageCounter (Some ack) payloadHeader)
                   else mret payloadHeader);
  if IsReliableTransmissionAllowed (mDispatch c) && kFlagAutoRequestAck c && isReliableTransmission then
    let payloadHeader := SetNeedsAck true payloadHeader in
    k ← AddToRetransTable i;
    owning k (
      counter ← prepare session payloadHeader;
      set_entry k (fun e => e <| retainedBuf := Some counter |>);;
      err ← send_prepared session counter;
      if is_no_error (MapSendError err) then mret tt else fail (MapSendError err));;
    StartRetransmision k
  else
    counter ← prepare session (SetNeedsAck false payloadHeader);
    err ← send_prepared session counter;
    if is_no_error err then mret tt else fail err.

Definition StartResponseTimer (i : nat) : XM unit :=
  c ← exchange i; t ← now; modify (fun w => w <| mResponseTimers ::= <[i := t + mResponseTimeout c]> |>).
Definition CancelResponseTimer (i : nat) : XM unit := modify (fun w => w <| mResponseTimers ::= delete i |>).
Definition SetResponseExpected (i : nat) (b : bool) : XM unit := set_exchange i (fun c => c <| kFlagResponseExpected := b |>).
Definition MarkAsDefunct_CASE (session : nat) : XM unit :=
  case ← session_is IsCASESession session; if case : bool then note_event (MarkedDefunct session) else mret tt.

(** What [ExchangeContext::SendMessage] does but for the end of an application
    message, which closes the exchange and may send an acknowledgement itself *)
Definition send_message (i : nat) (protocol : ProtocolId) (type : Z) (kNoAutoRequestAck kExpectResponse : bool) : XM unit :=
  c ← exchange i;
  match mSession c with
  | None => fail CHIP_ERROR_CONNECTION_ABORTED
  | Some session =>
      die_unless (0 <? mRefCount c);;
      group ← IsGroupExchangeContext c;
      mrp ← session_is RequireMRP session;
      let reliableTransmissionRequested := mrp && negb kNoAutoRequestAck && negb group in
      startedResponseTimer ← (if kExpectResponse && negb group then
        verify (negb (kFlagResponseExpected c)) CHIP_ERROR_INCORRECT_STATE;;
        SetResponseExpected i true;;
        if 0 <? mResponseTimeout c then StartResponseTimer i;; mret true else mret false
      else mret false);
      verify (negb (group && negb (kFlagInitiator c))) CHIP_ERROR_INTERNAL;;
      err ← attempt (dispatch_SendMessage i session reliableTransmissionRequested protocol type);
      match err with
      | inl err =>
          (if startedResponseTimer : bool then CancelResponseTimer i;; SetResponseExpected i false else mret tt);;
          MarkAsDefunct_CASE session;;
          fail err
      | inr _ => mret tt
      end
  end.

(** A standalone acknowledgement is not an application message. *)
Definition SendStandaloneAckMessage (i : nat) : XM unit :=
  msgBuf ← layer NewBuffer;
  verify msgBuf CHIP_ERROR_NO_MEMORY;;
  err ← attempt (with_ref i (send_message i SecureChannel MsgType_StandaloneAck true false));
  match err with
  | inl err => if IsSendErrorNonCritical err then mret tt else fail err
  | inr _ => mret tt
  end.

Definition FlushAcks (i : nat) : XM unit := c ← exchange i; if kFlagAckPending c then SendStandaloneAckMessage i else mret tt.

(** ** Closing *)
Definition DoClose (i : nat) (clearRetransTable : bool) : XM unit :=
  c ← exchange i;
  if kFlagClosed c then mret tt
  else
    set_exchange i (fun c => c <| kFlagClosed := true |>);;
    (if mDelegate c then note_event (ExchangeClosing i) else mret tt);;
    set_exchange i (fun c => c <| mDelegate := false |>);;
    attempt (FlushAcks i);;
    (if clearRetransTable then ClearRetransTable i else mret tt);;
    c ← exchange i;
    if kFlagResponseExpected c then CancelResponseTimer i else mret tt.
Definition Close (i : nat) : XM unit := c ← exchange i; die_unless (0 <? mRefCount c);; DoClose i false;; Release i.
Definition Abort (i : nat) : XM unit := c ← exchange i; die_unless (0 <? mRefCount c);; DoClose i true;; Release i.

Definition MessageHandled (i : nat) : XM unit :=
  c ← exchange i;
  if kFlagClosed c || kFlagResponseExpected c || kFlagWillSendMessage c then mret tt else Close i.

Definition WillSendMessage (i : nat) : XM unit := set_exchange i (fun c => c <| kFlagWillSendMessage := true |>).
Definition SetDelegate (i : nat) (delegate : bool) : XM unit := set_exchange i (fun c => c <| mDelegate := delegate |>).
Definition SetResponseTimeout (i : nat) (timeout : Z) : XM unit := set_exchange i (fun c => c <| mResponseTimeout := timeout |>).

Definition SendMessage (i : nat) (protocol : ProtocolId) (type : Z) (kNoAutoRequestAck kExpectResponse : bool) : XM unit :=
  c ← exchange i;
  match mSession c with
  | None => fail CHIP_ERROR_CONNECTION_ABORTED
  | Some _ =>
      with_ref i (
        send_message i protocol type kNoAutoRequestAck kExpectResponse;;
        if is_secure_channel protocol && (type =? MsgType_StandaloneAck) then mret tt
        else set_exchange i (fun c => c <| kFlagWillSendMessage := false |>);; MessageHandled i)
  end.

(** ** Receiving *)
Definition HandleRcvdAck (i : nat) (ackMessageCounter : Z) : XM unit := CheckAndRemRetransTable i ackMessageCounter;; mret tt.

Definition HandleNeedsAckInner (i : nat) (messageCounter : Z) (kDuplicateMessage : bool) : XM unit :=
  c ← exchange i;
  if kDuplicateMessage then
    let wasAckPending := kFlagAckPending c && negb (mPendingPeerAckMessageCounter c =? messageCounter) in
    let messageCounterWasValid := kFlagAckMessageCounterIsValid c in
    let tempAckMessageCounter := mPendingPeerAckMessageCounter c in
    SetPendingPeerAckMessageCounter i messageCounter;;
    err ← attempt (SendStandaloneAckMessage i);
    (if wasAckPending then SetPendingPeerAckMessageCounter i tempAckMessageCounter
     else if messageCounterWasValid then set_exchange i (fun c => c <| mPendingPeerAckMessageCounter := tempAckMessageCounter |>)
     else mret tt);;
    returns err
  else
    (if kFlagAckPending c then SendStandaloneAckMessage i else mret tt);;
    SetPendingPeerAckMessageCounter i messageCounter;;
    t ← now;
    set_exchange i (fun c => c <| mNextAckTime := t + CHIP_CONFIG_RMP_DEFAULT_ACK_TIMEOUT |>).
Definition HandleNeedsAck (i : nat) (messageCounter : Z) (kDuplicateMessage : bool) : XM unit :=
  err ← attempt (HandleNeedsAckInner i messageCounter kDuplicateMessage); StartTimer;; returns err.

(** The part of [HandleMessage] before the delegate: whether it gets the message *)
Definition receive (i : nat) (messageCounter : Z) (payloadHeader : PayloadHeader) (kDuplicateMessage isStandaloneAck : bool) : XM bool :=
  c ← exchange i;
  group ← IsGroupExchangeContext c;
  (if IsReliableTransmissionAllowed (mDispatch c) && negb group then
     (if negb kDuplicateMessage && IsAckMsg payloadHeader then
        match mAckMessageCounter payloadHeader with Some ack => HandleRcvdAck i ack | None => mret tt end
      else mret tt);;
     (if NeedsAck payloadHeader then attempt (HandleNeedsAck i messageCounter kDuplicateMessage);; mret tt else mret tt)
   else mret tt);;
  c ← exchange i;
  (if kFlagAckPending c && negb (mDelegate c) then FlushAcks i else mret tt);;
  if isStandaloneAck then mret false
  else if kDuplicateMessage then mret false
  else if kFlagEphemeralExchange c then mret false
  else
    c ← exchange i;
    verify (negb (kFlagMessageNotAcked c)) CHIP_ERROR_INCORRECT_STATE;;
    (if kFlagResponseExpected c then CancelResponseTimer i;; SetResponseExpected i false else mret tt);;
    mret (mDelegate c && MessagePermitted (mDispatch c) (mProtocolID payloadHeader) (mMessageType payloadHeader)).

(** [OnMessageReceived] is the delegate's method. *)
Definition HandleMessage (i : nat) (messageCounter : Z) (payloadHeader : PayloadHeader) (kDuplicateMessage : bool) (OnMessageReceived : XM unit) : XM unit :=
  let isStandaloneAck := is_secure_channel (mProtocolID payloadHeader) && (mMessageType payloadHeader =? MsgType_StandaloneAck) in
  with_ref i (
    res ← attempt (deliver ← receive i messageCounter payloadHeader kDuplicateMessage isStandaloneAck;
                   if deliver : bool then OnMessageReceived else mret tt);
    c ← exchange i;
    (if (isStandaloneAck || kDuplicateMessage) && mDelegate c then mret tt else MessageHandled i);;
    returns res).

(** ** Timers and sessions *)
Definition execute_ack (t : Z) (i : nat) : XM unit :=
  c ← exchange i;
  if kFlagAckPending c && (mNextAckTime c <=? t) then attempt (SendStandaloneAckMessage i);; mret tt else mret tt.

Definition execute_entry (t : Z) (k : nat) : XM unit :=
  e ← entry k;
  if t <? nextRetransTime e then mret tt
  else
    die_unless (match retainedBuf e with Some _ => true | None => false end);;
    if sendCount e =? CHIP_CONFIG_RMP_DEFAULT_MAX_RETRANS then
      c ← exchange (ec e);
      session ← GetSessionHandle c;
      (if negb (kFlagResponseExpected c) then MarkAsDefunct_CASE session;; note_event (SessionHang session) else mret tt);;
      ReleaseEntry k
    else
      set_entry k (fun e => e <| sendCount ::= fun n => u8 (n + 1) |>);;
      next ← backoff_from_now e (u8 (sendCount e + 1));
      set_entry k (fun e => e <| nextRetransTime := next |>);;
      SendFromRetransTable k.

Definition ExecuteActions : XM unit :=
  t ← now;
  slots ← all_exchanges;
  for_each slots (execute_ack t);;
  slots ← all_entries;
  for_each slots (execute_entry t).
Definition Timeout : XM unit := ExecuteActions;; StartTimer.

Definition NotifyResponseTimeout (i : nat) (aCloseIfNeeded : bool) : XM unit :=
  SetResponseExpected i false;;
  with_ref i (
    c ← exchange i;
    (match mSession c with
     | Some session => MarkAsDefunct_CASE session;; note_event (SessionHang session)
     | None => mret tt
     end);;
    (if mDelegate c then note_event (ResponseTimedOut i) else mret tt);;
    if aCloseIfNeeded then MessageHandled i else mret tt).

(** [SessionHolderWithDelegate::SessionReleased]: the holder is empty when
    [OnSessionReleased] runs. *)
Definition OnSessionReleased (i : nat) : XM unit :=
  c ← exchange i;
  if kFlagIgnoreSessionRelease c then mret tt
  else if kFlagClosed c then ClearRetransTable i
  else
    with_ref i (
      if negb (kFlagWillSendMessage c) then
        (if kFlagResponseExpected c then CancelResponseTimer i;; NotifyResponseTimeout i false else mret tt);;
        Abort i
      else DoClose i true).
Definition SessionReleased (i : nat) : XM unit := set_exchange i (fun c => c <| mSession := None |>);; OnSessionReleased i.

(** ** New exchanges *)
(** The constructor; [group] is whether [session], which [Grab] takes, is a group session. *)
Definition new_context (ExchangeId : Z) (session : nat) (Initiator delegate isEphemeralExchange : bool) (dispatch : ExchangeMessageDispatch) (group : bool) : ExchangeContext :=
  {| mExchangeId := ExchangeId; mSession := Some session; mDelegate := delegate;
     mDispatch := if isEphemeralExchange then EphemeralExchangeDispatch else if delegate then dispatch else ApplicationExchangeDispatch;
     mResponseTimeout := 0; mRefCount := 1; mNextAckTime := 0; mPendingPeerAckMessageCounter := 0; kFlagInitiator := Initiator;
     kFlagResponseExpected := false; kFlagAutoRequestAck := negb group; kFlagMessageNotAcked := false; kFlagAckPending := false;
     kFlagAckMessageCounterIsValid := false; kFlagWillSendMessage := Initiator && negb isEphemeralExchange; kFlagClosed := false;
     kFlagEphemeralExchange := isEphemeralExchange; kFlagIgnoreSessionRelease := false |}.
(** [mContextPool.CreateObject] for an active session; the result is the slot. *)
Definition NewExchange (ExchangeId : Z) (session : nat) (Initiator delegate isEphemeralExchange : bool) (dispatch : ExchangeMessageDispatch) : XM nat :=
  pool ← gets mContextPool;
  match free_slot pool 0 CHIP_CONFIG_MAX_EXCHANGE_CONTEXTS with
  | None => fail CHIP_ERROR_NO_MEMORY
  | Some i =>
      group ← session_is IsGroupSession session;
      modify (fun w => w <| mContextPool ::= <[i := new_context ExchangeId session Initiator delegate isEphemeralExchange dispatch group]> |>);;
      mret i
  end.

(** The timer that [StartResponseTimer] armed *)
Definition HandleResponseTimeout (i : nat) : XM unit := CancelResponseTimer i;; NotifyResponseTimeout i true.

(** [ReliableMessageMgr::Shutdown] *)
Definition Shutdown : XM unit := StopTimer;; slots ← all_entries; for_each slots ReleaseEntry.
End exchanges.
