(* ===== verification/ReliableMessageSafe.v ===== *)
(** * ReliableMessageSafe: the invariant of the exchanges

    Every operation keeps the table of retransmissions and the pool of exchanges in
    agreement: an entry belongs to a living exchange that is marked as waiting and has a
    session, an exchange waits for at most one acknowledgement, its references cover the
    table, its owner and the handles on the stack, no response timer outlives it, and the
    timer of the manager fires no later than the first thing to do.  No operation dies
    on a [VerifyOrDie]. *)
From S2P Require Import Prelude ChipError MessageHeader StateError ReliableMessage.

Section invariant.
(** The exchange that is only there to send an acknowledgement, if any *)
Context {D : Type} `{!SessionLayer D} {temporary : option nat}.
#[local] Abbreviation World := (Exchanges D).
#[local] Abbreviation XM := (CM (Exchanges D)).
Implicit Types (w : World) (c : ExchangeContext) (e : RetransTableEntry) (h : nat → nat) (x y z : option nat) (b : bool).

Definition covered w (t : Z) : Prop := ∃ tm, mTimer w = Some tm ∧ tm ≤ Z.max t (mClock w).
Record on_time w : Prop := {
  on_time_ack : ∀ i c, mContextPool w !! i = Some c → kFlagAckPending c = true → covered w (mNextAckTime c);
  on_time_entry : ∀ k e, mRetransTable w !! k = Some e → covered w (nextRetransTime e) }.

(** What the table and the owner take of the references *)
Definition weight c : Z := (if kFlagMessageNotAcked c then 1 else 0) + (if kFlagClosed c then 0 else 1).

Record entry_ok w x y (k : nat) e : Prop := {
  entry_slot : (k < CHIP_CONFIG_RMP_RETRANS_TABLE_SIZE)%nat;
  entry_count : 0 ≤ sendCount e ≤ CHIP_CONFIG_RMP_DEFAULT_MAX_RETRANS;
  entry_buffer : x ≠ Some k → is_Some (retainedBuf e);
  entry_exchange : ∃ c, mContextPool w !! ec e = Some c ∧ kFlagMessageNotAcked c = true ∧ (y ≠ Some (ec e) → is_Some (mSession c)) }.
Record exchange_ok w h y z (i : nat) c : Prop := {
  exchange_slot : (i < CHIP_CONFIG_MAX_EXCHANGE_CONTEXTS)%nat;
  exchange_refs : weight c + Z.of_nat (h i) ≤ mRefCount c;
  exchange_alive : 1 ≤ mRefCount c;
  exchange_closing : z = Some i → weight c + Z.of_nat (h i) < mRefCount c;
  exchange_released : kFlagIgnoreSessionRelease c = false;
  exchange_acks : MessagePermitted (mDispatch c) SecureChannel MsgType_StandaloneAck = true;
  exchange_pending : kFlagAckPending c = true → kFlagAckMessageCounterIsValid c = true;
  exchange_lasting : temporary ≠ Some i → kFlagEphemeralExchange c = false ∧ is_Some (IsEncryptionRequired (mDispatch c));
  exchange_losing : y = Some i → mSession c = None;
  exchange_waiting : kFlagMessageNotAcked c = true → ∃ k e, mRetransTable w !! k = Some e ∧ ec e = i }.
Record response_ok z (i : nat) c : Prop := {
  response_expected : kFlagResponseExpected c = true;
  response_open : kFlagClosed c = false ∨ z = Some i }.

(** [h] counts the handles on the stack, the entry [x] has no message yet, the exchange
    [y] is losing its session, the exchange [z] is closing, and [b] is off while the timer
    is behind. *)
Record Inv h x y z b w : Prop := {
  inv_entry : ∀ k e, mRetransTable w !! k = Some e → entry_ok w x y k e;
  inv_exchange : ∀ i c, mContextPool w !! i = Some c → exchange_ok w h y z i c;
  inv_unique : ∀ k1 k2 e1 e2, mRetransTable w !! k1 = Some e1 → mRetransTable w !! k2 = Some e2 → ec e1 = ec e2 → k1 = k2;
  inv_held : ∀ i, h i ≠ 0%nat ∨ z = Some i → is_Some (mContextPool w !! i);
  inv_response : ∀ i t, mResponseTimers w !! i = Some t → ∃ c, mContextPool w !! i = Some c ∧ response_ok z i c;
  inv_wake : b = true → on_time w }.

Lemma inv_behind h x y z b w : Inv h x y z b w → Inv h x y z false w.
Proof. intros [H1 H2 H3 H4 H5 H6]. by constructor. Qed.
Lemma inv_ahead h x y z b w : Inv h x y z true w → Inv h x y z b w.
Proof. intros [H1 H2 H3 H4 H5 H6]. constructor; auto. Qed.

(** Nothing the invariant looks at has changed. *)
Lemma inv_same h x y z b w w' : mContextPool w' = mContextPool w → mRetransTable w' = mRetransTable w → mTimer w' = mTimer w →
  mResponseTimers w' = mResponseTimers w → mClock w' = mClock w → Inv h x y z b w → Inv h x y z b w'.
Proof.
  intros E1 E2 E3 E4 E5 [H1 H2 H3 H4 H5 H6]. constructor; rewrite ?E1, ?E2, ?E4; try done.
  - intros k e He. destruct (H1 k e He). constructor; rewrite ?E1; done.
  - intros i c Hc. destruct (H2 i c Hc). constructor; rewrite ?E2; done.
  - intros Hb. destruct (H6 Hb) as [Ha He]. constructor; rewrite ?E1, ?E2; unfold covered in *; rewrite E3, E5; done.
Qed.

(** ** One exchange changes *)
Lemma alter_is_insert (m : gmap nat ExchangeContext) i c f : m !! i = Some c → alter f i m = <[i := f c]> m.
Proof.
  intros Hc. apply map_eq. intros j. destruct (decide (i = j)) as [<-|Hne].
  - by rewrite lookup_alter_eq, Hc, lookup_insert_eq.
  - by rewrite lookup_alter_ne, lookup_insert_ne.
Qed.

Lemma inv_update h h' x y y' z z' b w w' i c c' : Inv h x y z b w → mContextPool w !! i = Some c →
  mContextPool w' = <[i := c']> (mContextPool w) → mRetransTable w' = mRetransTable w → mTimer w' = mTimer w →
  mResponseTimers w' = mResponseTimers w → mClock w' = mClock w →
  (∀ j, j ≠ i → h' j = h j ∧ (y' = Some j ↔ y = Some j) ∧ (z' = Some j ↔ z = Some j)) →
  kFlagMessageNotAcked c' = kFlagMessageNotAcked c → (y' ≠ Some i → kFlagMessageNotAcked c = true → is_Some (mSession c')) →
  exchange_ok w h' y' z' i c' →
  (∀ t, mResponseTimers w !! i = Some t → response_ok z' i c') →
  (b = true → kFlagAckPending c' = true → covered w (mNextAckTime c')) →
  Inv h' x y' z' b w'.
Proof.
  intros [H1 H2 H3 H4 H5 H6] Hc Ep Et Em Er Ec Hoff Hw Hs Hok Hresp Htime. constructor; rewrite ?Ep, ?Et, ?Er.
  - intros k e He. destruct (H1 k e He) as [? ? ? (c0 & Hc0 & Hn & Hs0)]. constructor; [done..|]. rewrite Ep.
    destruct (decide (ec e = i)) as [E|Hne].
    + exists c'. rewrite E in *. rewrite lookup_insert_eq. replace c0 with c in * by congruence. split_and!; [done|congruence|auto].
    + exists c0. rewrite lookup_insert_ne by done. split_and!; [done..|]. intros Hy. apply Hs0. by rewrite <- (proj1 (proj2 (Hoff _ Hne))).
  - intros j c0 Hj. destruct (decide (j = i)) as [->|Hne].
    + rewrite lookup_insert_eq in Hj. injection Hj as <-. destruct Hok. constructor; rewrite ?Et; done.
    + rewrite lookup_insert_ne in Hj by done. destruct (Hoff j Hne) as (Eh & Ey & Ez). destruct (H2 j c0 Hj). constructor; rewrite ?Et, ?Eh, ?Ey, ?Ez; done.
  - done.
  - intros j Hj. destruct (decide (j = i)) as [->|Hne]; [rewrite lookup_insert_eq; by eexists|]. rewrite lookup_insert_ne by done.
    apply H4. by rewrite <- (proj1 (Hoff j Hne)), <- (proj2 (proj2 (Hoff j Hne))).
  - intros j t Ht. destruct (decide (j = i)) as [->|Hne].
    + exists c'. rewrite lookup_insert_eq. split; [done|by eapply Hresp].
    + destruct (H5 j t Ht) as (c0 & Hc0 & [Hx Ho]). exists c0. rewrite lookup_insert_ne by done. split; [done|].
      destruct (Hoff j Hne) as (_ & _ & Ez). constructor; [done|]. by rewrite Ez.
  - intros Hb. destruct (H6 Hb) as [Ha He]. unfold covered in *. constructor; unfold covered; rewrite ?Ep, ?Et, ?Em, ?Ec; [|done].
    intros j c0 Hj Hp. destruct (decide (j = i)) as [->|Hne].
    + rewrite lookup_insert_eq in Hj. injection Hj as <-. by apply Htime.
    + rewrite lookup_insert_ne in Hj by done. by apply (Ha j c0).
Qed.

(** A change of the flags and times that the invariant does not look at *)
Record same_core c c' : Prop := {
  core_refs : mRefCount c' = mRefCount c; core_session : mSession c' = mSession c; core_waiting : kFlagMessageNotAcked c' = kFlagMessageNotAcked c;
  core_closed : kFlagClosed c' = kFlagClosed c; core_ignore : kFlagIgnoreSessionRelease c' = kFlagIgnoreSessionRelease c;
  core_dispatch : mDispatch c' = mDispatch c; core_ephemeral : kFlagEphemeralExchange c' = kFlagEphemeralExchange c }.
Lemma inv_same_core h x y z b w i c c' : Inv h x y z b w → mContextPool w !! i = Some c → same_core c c' →
  (kFlagResponseExpected c = true → kFlagResponseExpected c' = true ∨ mResponseTimers w !! i = None) →
  (kFlagAckPending c' = true → kFlagAckMessageCounterIsValid c' = true) →
  (b = true → kFlagAckPending c' = true → kFlagAckPending c = true ∧ mNextAckTime c' = mNextAckTime c) →
  Inv h x y z b (w <| mContextPool ::= insert i c' |>).
Proof.
  intros HI Hc [E1 E2 E3 E4 E5 E6 E7] Hresp Hval Htime. destruct (inv_exchange _ _ _ _ _ _ HI i c Hc).
  eapply inv_update; [exact HI|exact Hc|done..| | | | | |]; unfold weight in *; rewrite ?E1, ?E2, ?E3, ?E4.
  - done.
  - done.
  - intros Hy Hw. destruct exchange_waiting0 as (k & e & He & Ee); [done|]. subst i.
    destruct (entry_exchange _ _ _ _ _ (inv_entry _ _ _ _ _ _ HI k e He)) as (c0 & Hc0 & _ & Hs). replace c0 with c in Hs by congruence. auto.
  - constructor; unfold weight; rewrite ?E1, ?E2, ?E3, ?E4, ?E5, ?E6, ?E7; done.
  - intros t Ht. destruct (inv_response _ _ _ _ _ _ HI i t Ht) as (c0 & Hc0 & [Hx Ho]). replace c0 with c in * by congruence.
    destruct (Hresp Hx) as [|Hn]; [|congruence]. constructor; [done|]. by rewrite E4.
  - intros Hb Hp. destruct (Htime Hb Hp) as [Hp' ->]. by eapply (on_time_ack _ (inv_wake _ _ _ _ _ _ HI Hb)).
Qed.

(** ** Calculus *)
Definition keeps {A} (m : XM A) : Prop := ∀ h x y z b w, Inv h x y z b w → wp m (fun _ => Inv h x y z b) w.

Lemma keeps_bind {A B} (m : XM A) (k : A → XM B) : keeps m → (∀ a, keeps (k a)) → keeps (m ≫= k).
Proof. intros Hm Hk h x y z b w Hw. apply wp_bind. eapply wp_mono; [by apply Hm|]. intros [e|a] w' Hw'; [done|by apply Hk]. Qed.
Lemma keeps_ret {A} (a : A) : keeps (mret a).
Proof. by intros h x y z b w Hw. Qed.
Lemma keeps_gets {A} (f : World → A) : keeps (gets f).
Proof. by intros h x y z b w Hw. Qed.
Lemma keeps_if {A} (v : bool) (m1 m2 : XM A) : keeps m1 → keeps m2 → keeps (if v then m1 else m2).
Proof. by destruct v. Qed.
Lemma keeps_note (ev : event) : keeps (note_event ev).
Proof. intros h x y z b w Hw. by eapply inv_same; [..|exact Hw]. Qed.
Lemma keeps_layer {A} (f : D → A * D) : keeps (layer f).
Proof. intros h x y z b w Hw. unfold wp, layer. destruct (f _) as [a d]. by eapply inv_same; [..|exact Hw]. Qed.
Lemma keeps_group c : keeps (IsGroupExchangeContext c).
Proof. unfold IsGroupExchangeContext. destruct (mSession c); [apply keeps_gets|apply keeps_ret]. Qed.
Lemma keeps_defunct s : keeps (MarkAsDefunct_CASE s).
Proof. apply keeps_bind; [apply keeps_gets|intros v]. apply keeps_if; [apply keeps_note|apply keeps_ret]. Qed.
Lemma keeps_use {A B} (m : XM A) (k : A → XM B) Q h x y z b w : keeps m → Inv h x y z b w →
  (∀ err w', Inv h x y z b w' → Q (inl err) w') → (∀ a w', Inv h x y z b w' → wp (k a) Q w') → wp (m ≫= k) Q w.
Proof. intros Hm HI He Ha. apply wp_bind. eapply wp_mono; [by apply Hm|]. intros [e|a] w' HI'; auto. Qed.

Lemma wp_exchange {A} i c (k : ExchangeContext → XM A) Q w : mContextPool w !! i = Some c → wp (k c) Q w → wp (exchange i ≫= k) Q w.
Proof. intros Hi Hk. unfold wp, exchange, mbind, CM_bind in *. by rewrite Hi. Qed.
Lemma wp_entry {A} k e (f : RetransTableEntry → XM A) Q w : mRetransTable w !! k = Some e → wp (f e) Q w → wp (entry k ≫= f) Q w.
Proof. intros Hi Hk. unfold wp, entry, mbind, CM_bind in *. by rewrite Hi. Qed.
Lemma wp_step {A} f (k : unit → XM A) Q w : wp (k tt) Q (f w) → wp (modify f ≫= k) Q w.
Proof. done. Qed.
Lemma set_pool_alter w i c f : mContextPool w !! i = Some c → w <| mContextPool ::= alter f i |> = w <| mContextPool ::= insert i (f c) |>.
Proof. intros Hi. cbn [update]. by rewrite (alter_is_insert _ _ _ f Hi). Qed.
Lemma wp_set_exchange {A} i c f (k : unit → XM A) Q w : mContextPool w !! i = Some c →
  wp (k tt) Q (w <| mContextPool ::= insert i (f c) |>) → wp (set_exchange i f ≫= k) Q w.
Proof. intros Hi Hk. unfold set_exchange. apply wp_step. by rewrite (set_pool_alter _ _ _ _ Hi). Qed.
Lemma wp_set_exchange_last i c f Q w : mContextPool w !! i = Some c →
  Q (inr tt) (w <| mContextPool ::= insert i (f c) |>) → wp (set_exchange i f) Q w.
Proof. intros Hi Hk. unfold set_exchange, wp, modify. by rewrite (set_pool_alter _ _ _ _ Hi). Qed.
Lemma wp_die_unless {A} (v : bool) (k : unit → XM A) Q w : v = true → wp (k tt) Q w → wp (die_unless v ≫= k) Q w.
Proof. by intros ->. Qed.

(** Compares what is taken of the references with their number. *)
Ltac weigh :=
  unfold weight in *; cbn [update mRefCount kFlagClosed kFlagMessageNotAcked] in *;
  repeat match goal with H : kFlagMessageNotAcked _ = _ |- _ => rewrite H in * |- end;
  try (let Hz := fresh in intros Hz; match goal with H : _ = Some _ → _ < _ |- _ => specialize (H Hz) end); lia.

(** ** References *)
Definition held h (i j : nat) : nat := if decide (j = i) then S (h j) else h j.
Lemma held_same h i : held h i i = S (h i).
Proof. unfold held. by rewrite decide_True. Qed.
Lemma held_other h i j : j ≠ i → held h i j = h j.
Proof. intros. unfold held. by rewrite decide_False. Qed.

Lemma wp_retain {A} h x y z b i c (k : unit → XM A) Q w : Inv h x y z b w → mContextPool w !! i = Some c →
  (∀ w', w' = w <| mContextPool ::= insert i (c <| mRefCount ::= Z.add 1 |>) |> → Inv (held h i) x y z b w' → wp (k tt) Q w') →
  wp (Retain i ≫= k) Q w.
Proof.
  intros HI Hc Hk. pose proof (inv_exchange _ _ _ _ _ _ HI i c Hc) as Hok. assert (wp (Retain i) (fun r w' =>
    r = inr tt ∧ w' = w <| mContextPool ::= insert i (c <| mRefCount ::= Z.add 1 |>) |>) w) as HR.
  - unfold Retain. eapply wp_exchange; [done|]. apply wp_die_unless; [destruct Hok; apply Z.ltb_lt; lia|]. by eapply wp_set_exchange_last.
  - apply wp_bind. eapply wp_mono; [exact HR|]. intros r w' [-> ->]. apply Hk; [done|].
    eapply inv_update; [exact HI|exact Hc|done..| | | | | |].
    + intros j Hj. by rewrite held_other.
    + done.
    + intros Hy Hw. destruct Hok as [_ _ _ _ _ _ _ _ _ Hwait]. destruct (Hwait Hw) as (k0 & e & He & <-).
      destruct (entry_exchange _ _ _ _ _ (inv_entry _ _ _ _ _ _ HI k0 e He)) as (c0 & Hc0 & _ & Hs). replace c with c0 by congruence. auto.
    + destruct Hok. constructor; rewrite ?held_same; try done; weigh.
    + intros t Ht. destruct (inv_response _ _ _ _ _ _ HI i t Ht) as (c0 & Hc0 & [Hx Ho]). replace c0 with c in * by congruence.
      by constructor.
    + intros Hb Hp. exact (on_time_ack _ (inv_wake _ _ _ _ _ _ HI Hb) _ _ Hc Hp).
Qed.

(** The effect of [Release] on the pool *)
Definition release_pool (i : nat) (p : gmap nat ExchangeContext) : option (gmap nat ExchangeContext) :=
  c ← p !! i;
  if 0 <? mRefCount c then
    if mRefCount c =? 1 then if kFlagClosed c then Some (delete i p) else None
    else Some (<[i := c <| mRefCount ::= fun n => n - 1 |>]> p)
  else None.
Lemma Release_eq i w : Release i w = (p ← release_pool i (mContextPool w); Some (inr tt, w <| mContextPool ::= fun _ => p |>)).
Proof.
  unfold Release, release_pool, exchange, mbind, CM_bind, option_bind. destruct (mContextPool w !! i) as [c|] eqn:E; [|done].
  destruct (0 <? mRefCount c); [|done]. cbn [die_unless mret CM_ret]. destruct (mRefCount c =? 1).
  - destruct (kFlagClosed c); done.
  - unfold set_exchange, modify. by rewrite (set_pool_alter _ _ _ _ E).
Qed.

Lemma inv_delete h h' x y z b w w' i c : Inv h x y z b w → mContextPool w !! i = Some c → kFlagMessageNotAcked c = false →
  mResponseTimers w !! i = None → (∀ j, j ≠ i → h' j = h j) → h' i = 0%nat → z ≠ Some i →
  mContextPool w' = delete i (mContextPool w) → mRetransTable w' = mRetransTable w → mTimer w' = mTimer w →
  mResponseTimers w' = mResponseTimers w → mClock w' = mClock w → Inv h' x y z b w'.
Proof.
  intros [H1 H2 H3 H4 H5 H6] Hc Hw Hr Hoff Hi Hz Ep Et Em Er Ec. constructor; rewrite ?Ep, ?Et, ?Er.
  - intros k e He. destruct (H1 k e He) as [? ? ? (c0 & Hc0 & Hn & Hs0)]. constructor; [done..|]. rewrite Ep. exists c0.
    rewrite lookup_delete_ne; [done|]. intros ->. congruence.
  - intros j c0 Hj. apply lookup_delete_Some in Hj as [Hne Hj]. destruct (H2 j c0 Hj). constructor; rewrite ?Et, ?Hoff by done; done.
  - done.
  - intros j Hj. destruct (decide (j = i)) as [->|Hne]; [by destruct Hj|]. rewrite lookup_delete_ne by done. apply H4. by rewrite <- Hoff.
  - intros j t Ht. assert (j ≠ i) as Hne by congruence. destruct (H5 j t Ht) as (c0 & Hc0 & [Hx Ho]). exists c0.
    rewrite lookup_delete_ne by done. split; [done|]. by constructor.
  - intros Hb. destruct (H6 Hb) as [Ha He]. unfold covered in *. constructor; unfold covered; rewrite ?Ep, ?Et, ?Em, ?Ec; [|done].
    intros j c0 Hj Hp. apply lookup_delete_Some in Hj as [Hne Hj]. by apply (Ha j c0).
Qed.

Lemma inv_release h x y z b i w : Inv (held h i) x y z b w →
  ∃ p, release_pool i (mContextPool w) = Some p ∧ Inv h x y z b (w <| mContextPool ::= fun _ => p |>).
Proof.
  intros HI. destruct (inv_held _ _ _ _ _ _ HI i) as [c Hc]; [left; by rewrite held_same|].
  pose proof (inv_exchange _ _ _ _ _ _ HI i c Hc) as Hok. pose proof (exchange_refs _ _ _ _ _ _ Hok) as Hr.
  pose proof (exchange_closing _ _ _ _ _ _ Hok) as Hz. rewrite held_same in Hr, Hz.
  assert (0 ≤ weight c) as Hw by (unfold weight; repeat case_match; lia).
  unfold release_pool. rewrite Hc. cbn [mbind option_bind]. rewrite (proj2 (Z.ltb_lt _ _)) by lia.
  destruct (Z.eqb_spec (mRefCount c) 1) as [E1|Hn1].
  - assert (kFlagClosed c = true ∧ kFlagMessageNotAcked c = false) as [Hcl Hnw]
      by (unfold weight in *; destruct (kFlagClosed c), (kFlagMessageNotAcked c); try done; lia). rewrite Hcl.
    eexists; split; [done|]. eapply inv_delete; [exact HI|exact Hc|done| | | | |done..].
    + destruct (mResponseTimers w !! i) as [t|] eqn:Ht; [|done]. destruct (inv_response _ _ _ _ _ _ HI i t Ht) as (c0 & Hc0 & [_ Ho]).
      replace c0 with c in * by congruence. destruct Ho as [Ho|Ho]; [congruence|specialize (Hz Ho); lia].
    + intros j Hj. by rewrite held_other.
    + lia.
    + intros Ho. specialize (Hz Ho). lia.
  - eexists; split; [done|]. eapply inv_update; [exact HI|exact Hc|done..| | | | | |].
    + intros j Hj. by rewrite held_other.
    + done.
    + intros Hy Hwt. destruct Hok as [_ _ _ _ _ _ _ _ _ Hwait]. destruct (Hwait Hwt) as (k0 & e & He & <-).
      destruct (entry_exchange _ _ _ _ _ (inv_entry _ _ _ _ _ _ HI k0 e He)) as (c0 & Hc0 & _ & Hs). replace c with c0 by congruence. auto.
    + destruct Hok. constructor; try done; weigh.
    + intros t Ht. destruct (inv_response _ _ _ _ _ _ HI i t Ht) as (c0 & Hc0 & [Hx Ho]). replace c0 with c in * by congruence.
      by constructor.
    + intros Hb Hp. exact (on_time_ack _ (inv_wake _ _ _ _ _ _ HI Hb) _ _ Hc Hp).
Qed.

Lemma wp_release h x y z b i w : Inv (held h i) x y z b w → wp (Release i) (fun r w' => r = inr tt ∧ Inv h x y z b w') w.
Proof. intros HI. destruct (inv_release _ _ _ _ _ _ _ HI) as (p & Hp & HI'). unfold wp. rewrite Release_eq, Hp. done. Qed.

Lemma wp_with_ref {A} h x y z b h' x' y' z' b' i (body : XM A) (Q : CHIP_ERROR + A → Prop) w : Inv h x y z b w → is_Some (mContextPool w !! i) →
  (∀ w', Inv (held h i) x y z b w' → wp body (fun r w2 => Inv (held h' i) x' y' z' b' w2 ∧ Q r) w') →
  wp (with_ref i body) (fun r w' => Inv h' x' y' z' b' w' ∧ Q r) w.
Proof.
  intros HI [c Hc] Hbody. unfold with_ref. eapply wp_retain; [done..|]. intros w1 -> HI1. apply wp_bind, wp_attempt.
  eapply wp_mono; [by apply Hbody|]. intros r w2 [HI2 HQ]. apply wp_bind. eapply wp_mono; [by eapply wp_release|]. by intros ? w3 [-> HI3].
Qed.
Lemma keeps_with_ref {A} i (body : XM A) : keeps body → ∀ h x y z b w, Inv h x y z b w → is_Some (mContextPool w !! i) →
  wp (with_ref i body) (fun _ => Inv h x y z b) w.
Proof.
  intros Hb h x y z b w HI Hi. eapply wp_mono; [eapply (wp_with_ref _ _ _ _ _ h x y z b i _ (fun _ => True)); [done..|]|by intros ? ? [? _]].
  intros w' HI'. eapply wp_mono; [by apply Hb|done].
Qed.

(** ** The timer *)
Lemma earlier_le l n : foldr earlier None l = Some n → ∀ t, t ∈ l → n ≤ t.
Proof.
  revert n. induction l as [|t0 l IH]; intros n Hn t Ht; [by apply elem_of_nil in Ht|]. cbn [foldr] in Hn. unfold earlier in Hn at 1.
  destruct (foldr earlier None l) as [m|] eqn:E.
  - injection Hn as <-. specialize (IH m eq_refl). apply elem_of_cons in Ht as [->|Ht]; case_match eqn:Hc; [lia|apply Z.ltb_ge in Hc; lia| |by apply IH].
    apply Z.ltb_lt in Hc. specialize (IH t Ht). lia.
  - injection Hn as <-. destruct l as [|t1 l]; [apply list_elem_of_singleton in Ht; lia|]. cbn [foldr] in E. unfold earlier in E at 1. by case_match.
Qed.
Lemma earlier_some l t : t ∈ l → is_Some (foldr earlier None l).
Proof. destruct l as [|t0 l]; [by intros ?%elem_of_nil|]. intros _. cbn [foldr]. unfold earlier at 1. case_match; by eexists. Qed.

Lemma ack_times_spec w t : t ∈ ack_times w ↔ ∃ i c, mContextPool w !! i = Some c ∧ kFlagAckPending c = true ∧ mNextAckTime c = t.
Proof.
  unfold ack_times. rewrite list_elem_of_fmap. setoid_rewrite list_elem_of_filter. setoid_rewrite list_elem_of_fmap. split.
  - intros (c & -> & Hp & [i c0] & -> & Hi). apply elem_of_map_to_list in Hi. exists i, c0. split_and!; [done|by apply Is_true_eq_true|done].
  - intros (i & c & Hi & Hp & <-). exists c. split_and!; [done|by apply Is_true_eq_left|]. exists (i, c). split; [done|by apply elem_of_map_to_list].
Qed.
Lemma retrans_times_spec w t : t ∈ retrans_times w ↔ ∃ k e, mRetransTable w !! k = Some e ∧ nextRetransTime e = t.
Proof.
  unfold retrans_times. rewrite list_elem_of_fmap. setoid_rewrite list_elem_of_fmap. split.
  - intros (e & -> & [k e0] & -> & Hk). apply elem_of_map_to_list in Hk. by exists k, e0.
  - intros (k & e & Hk & <-). exists e. split; [done|]. exists (k, e). split; [done|by apply elem_of_map_to_list].
Qed.

Definition set_timer w : World := w <| mTimer := match next_wake w with Some t => Some (Z.max t (mClock w)) | None => None end |>.
Lemma StartTimer_eq w : StartTimer w = Some (inr tt, set_timer w).
Proof. done. Qed.
Lemma set_timer_on_time w : on_time (set_timer w).
Proof.
  assert (∀ t, t ∈ ack_times w ++ retrans_times w → covered (set_timer w) t) as Hc.
  - intros t Ht. destruct (earlier_some _ _ Ht) as [n Hn]. pose proof (earlier_le _ _ Hn t Ht). unfold covered, set_timer, next_wake.
    rewrite Hn. cbn [update mTimer mClock]. eexists. split; [done|lia].
  - constructor.
    + intros i c Hi Hp. apply Hc, elem_of_app. left. apply ack_times_spec. by exists i, c.
    + intros k e Hk. apply Hc, elem_of_app. right. apply retrans_times_spec. by exists k, e.
Qed.
Lemma inv_set_timer h x y z b b' w : Inv h x y z b w → Inv h x y z b' (set_timer w).
Proof.
  intros [H1 H2 H3 H4 H5 H6]. constructor; try done; [..|intros _; apply set_timer_on_time].
  - intros k e He. by destruct (H1 k e He).
  - intros i c Hc. by destruct (H2 i c Hc).
Qed.
Lemma wp_StartTimer {A} h x y z b (k : unit → XM A) Q w : Inv h x y z b w →
  (∀ w', w' = set_timer w → Inv h x y z true w' → wp (k tt) Q w') → wp (StartTimer ≫= k) Q w.
Proof. intros HI Hk. apply (Hk (set_timer w)); [done|by eapply inv_set_timer]. Qed.

(** ** The table *)
Lemma inv_free_slot {A} (p : gmap nat A) n i k : free_slot p i n = Some k → p !! k = None ∧ (i ≤ k < i + n)%nat.
Proof.
  revert i. induction n as [|n IH]; intros i; [done|]. cbn [free_slot]. destruct (p !! i) eqn:E; [|intros [= <-]; split; [done|lia]].
  intros H. apply IH in H as [? ?]. split; [done|lia].
Qed.

(** An entry leaves the table, and its exchange waits no more. *)
Lemma inv_forget h x y z b w w' k e c : Inv h x y z b w → mRetransTable w !! k = Some e → mContextPool w !! ec e = Some c →
  mContextPool w' = <[ec e := c <| kFlagMessageNotAcked := false |>]> (mContextPool w) → mRetransTable w' = delete k (mRetransTable w) →
  mTimer w' = mTimer w → mResponseTimers w' = mResponseTimers w → mClock w' = mClock w → Inv (held h (ec e)) x y z b w'.
Proof.
  intros [H1 H2 H3 H4 H5 H6] He Hc Ep Et Em Er Ec. pose proof (H2 _ _ Hc) as Hok. pose proof (H1 _ _ He) as [_ _ _ (c0 & Hc0 & Hw & _)].
  replace c0 with c in * by congruence. constructor; rewrite ?Ep, ?Et, ?Er.
  - intros k' e' He'. apply lookup_delete_Some in He' as [Hne He']. destruct (H1 k' e' He') as [? ? ? (c1 & Hc1 & Hn & Hs0)]. constructor; [done..|].
    rewrite Ep. exists c1. rewrite lookup_insert_ne; [done|]. intros E. apply Hne. by eapply H3.
  - intros j c1 Hj. destruct (decide (j = ec e)) as [->|Hne].
    + rewrite lookup_insert_eq in Hj. injection Hj as <-. destruct Hok. constructor; rewrite ?held_same; try done.
      all: weigh.
    + rewrite lookup_insert_ne in Hj by done. destruct (H2 j c1 Hj) as [? ? ? ? ? ? ? ? ? Hwait]. constructor; rewrite ?held_other by done; try done.
      intros Hn. destruct (Hwait Hn) as (k' & e' & He' & Ee). exists k', e'. rewrite Et, lookup_delete_ne; [done|]. intros ->. congruence.
  - intros k1 k2 e1 e2 Hk1 Hk2. apply lookup_delete_Some in Hk1 as [_ Hk1], Hk2 as [_ Hk2]. by eapply H3.
  - intros j Hj. destruct (decide (j = ec e)) as [->|Hne]; [rewrite lookup_insert_eq; by eexists|]. rewrite lookup_insert_ne by done.
    apply H4. by rewrite held_other in Hj.
  - intros j t Ht. destruct (H5 j t Ht) as (c1 & Hc1 & [Hx Ho]). destruct (decide (j = ec e)) as [->|Hne].
    + eexists. rewrite lookup_insert_eq. split; [done|]. replace c1 with c in * by congruence. by constructor.
    + exists c1. rewrite lookup_insert_ne by done. split; [done|]. by constructor.
  - intros Hb. destruct (H6 Hb) as [Ha He']. unfold covered in *. constructor; unfold covered; rewrite ?Ep, ?Et, ?Em, ?Ec.
    + intros j c1 Hj Hp. destruct (decide (j = ec e)) as [->|Hne]; [rewrite lookup_insert_eq in Hj; injection Hj as <-; exact (Ha _ c Hc Hp)|].
      rewrite lookup_insert_ne in Hj by done. by apply (Ha j c1).
    + intros k' e' Hk'. apply lookup_delete_Some in Hk' as [_ Hk']. by apply (He' k' e').
Qed.

Lemma ReleaseEntry_ok h x y z b k e w : Inv h x y z b w → mRetransTable w !! k = Some e →
  wp (ReleaseEntry k) (fun r w' => r = inr tt ∧ Inv h x y z b w' ∧ mRetransTable w' = delete k (mRetransTable w)) w.
Proof.
  intros HI He. destruct (entry_exchange _ _ _ _ _ (inv_entry _ _ _ _ _ _ HI k e He)) as (c & Hc & Hw & _).
  unfold ReleaseEntry, SetMessageNotAcked. eapply wp_entry; [done|]. eapply wp_set_exchange; [done|].
  set (w1 := w <| mContextPool ::= _ |>). pose (w2 := w1 <| mRetransTable ::= delete k |>).
  assert (Inv (held h (ec e)) x y z b w2) as HI2 by (eapply inv_forget; [exact HI|exact He|exact Hc|done..]).
  destruct (inv_release _ _ _ _ _ _ _ HI2) as (p & Hp & HI'). apply wp_bind. unfold wp at 1. rewrite Release_eq.
  change (mContextPool w1) with (mContextPool w2). rewrite Hp. done.
Qed.

(** What [ClearRetransTable] and the like leave *)
Lemma ClearRetransTable_entry_ok h x y z b b' k e w : Inv h x y z b w → mRetransTable w !! k = Some e →
  wp (ClearRetransTable_entry k) (fun r w' => r = inr tt ∧ Inv h x y z b' w' ∧ mRetransTable w' = delete k (mRetransTable w)) w.
Proof.
  intros HI He. unfold ClearRetransTable_entry. apply wp_bind. eapply wp_mono; [by eapply ReleaseEntry_ok|]. intros r w' (-> & HI' & Et).
  unfold wp. rewrite StartTimer_eq. split_and!; [done|by eapply inv_set_timer|done].
Qed.

Lemma first_entry_Some p slots w k : first_entry p slots w = Some k → ∃ e, mRetransTable w !! k = Some e ∧ p e = true ∧ k ∈ slots.
Proof.
  induction slots as [|k0 slots IH]; [done|]. cbn [first_entry]. intros H.
  assert (first_entry p slots w = Some k → ∃ e, mRetransTable w !! k = Some e ∧ p e = true ∧ k ∈ k0 :: slots) as Hrest.
  { intros H0. destruct (IH H0) as (e & ? & ? & ?). exists e. split_and!; [done..|by right]. }
  destruct (mRetransTable w !! k0) as [e|] eqn:E; [|auto]. destruct (p e) eqn:Ep; [|auto]. injection H as <-. exists e. split_and!; [done..|by left].
Qed.
Lemma first_entry_None p slots w : first_entry p slots w = None → ∀ k e, k ∈ slots → mRetransTable w !! k = Some e → p e = false.
Proof.
  induction slots as [|k0 slots IH]; intros H k e Hk He; [by apply elem_of_nil in Hk|]. cbn [first_entry] in H. apply elem_of_cons in Hk as [->|Hk].
  - rewrite He in H. by destruct (p e).
  - apply (IH ltac:(destruct (mRetransTable w !! k0) as [e0|]; [destruct (p e0)|]; done) k e Hk He).
Qed.
Lemma wp_find_entry {A} h x y z b p (k : option nat → XM A) Q w : Inv h x y z b w →
  (∀ n e, mRetransTable w !! n = Some e → p e = true → wp (k (Some n)) Q w) →
  ((∀ n e, mRetransTable w !! n = Some e → p e = false) → wp (k None) Q w) → wp (find_entry p ≫= k) Q w.
Proof.
  intros HI Hs Hn. unfold find_entry, all_entries, wp, mbind, CM_bind, gets. set (slots := filter _ _).
  destruct (first_entry p slots w) as [n|] eqn:E.
  - apply first_entry_Some in E as (e & He & Hp & _). by eapply Hs.
  - apply Hn. intros n e He. eapply first_entry_None; [exact E| |exact He]. unfold slots. apply list_elem_of_filter. split; [by eexists|].
    apply elem_of_seq. pose proof (entry_slot _ _ _ _ _ (inv_entry _ _ _ _ _ _ HI n e He)). lia.
Qed.

Lemma ClearRetransTable_ok h x y z b i w : Inv h x y z b w →
  wp (ClearRetransTable i) (fun r w' => r = inr tt ∧ Inv h x y z b w' ∧ ∀ k e, mRetransTable w' !! k = Some e → ec e ≠ i) w.
Proof.
  intros HI. unfold ClearRetransTable. eapply wp_find_entry; [exact HI| |].
  - intros n e He Hp%Nat.eqb_eq. eapply wp_mono; [by eapply ClearRetransTable_entry_ok|]. intros r w' (-> & HI' & Et). split_and!; [done..|].
    intros k e' Hk. rewrite Et in Hk. apply lookup_delete_Some in Hk as [Hne Hk]. intros Ee. apply Hne. by apply (inv_unique _ _ _ _ _ _ HI _ _ e e' He Hk); congruence.
  - intros Hn. split_and!; [done..|]. intros k e He. specialize (Hn k e He). by apply Nat.eqb_neq.
Qed.
Lemma CheckAndRemRetransTable_ok h x y z b i n w : Inv h x y z b w →
  wp (CheckAndRemRetransTable i n) (fun r w' => ∃ v, r = inr v ∧ Inv h x y z b w') w.
Proof.
  intros HI. unfold CheckAndRemRetransTable. eapply wp_find_entry; [exact HI| |].
  - intros k e He Hp. apply wp_bind. eapply wp_mono; [by eapply ClearRetransTable_entry_ok|]. intros r w' (-> & HI' & Et). by exists true.
  - intros Hn. by exists false.
Qed.

(** ** Calls below: nothing of the exchanges changes *)
Definition same_state w w' : Prop := mContextPool w' = mContextPool w ∧ mRetransTable w' = mRetransTable w ∧ mTimer w' = mTimer w
  ∧ mResponseTimers w' = mResponseTimers w ∧ mClock w' = mClock w.
Definition quiet {A} (m : XM A) : Prop := ∀ w, wp m (fun _ => same_state w) w.

Lemma quiet_ret {A} (a : A) : quiet (mret a).
Proof. by intros w. Qed.
Lemma quiet_fail {A} (err : CHIP_ERROR) : quiet (fail (A := A) err).
Proof. by intros w. Qed.
Lemma quiet_bind {A B} (m : XM A) (k : A → XM B) : quiet m → (∀ a, quiet (k a)) → quiet (m ≫= k).
Proof.
  intros Hm Hk w. apply wp_bind. eapply wp_mono; [apply Hm|]. intros [err|a] w1 H1; [done|]. eapply wp_mono; [apply Hk|].
  intros r w2 H2. unfold same_state in *. destruct_and!. split_and!; congruence.
Qed.
Lemma quiet_note (ev : event) : quiet (note_event ev).
Proof. by intros w. Qed.
Lemma quiet_layer {A} (f : D → A * D) : quiet (layer f).
Proof. intros w. unfold wp, layer. by destruct (f _). Qed.
Lemma quiet_if {A} (v : bool) (m1 m2 : XM A) : quiet m1 → quiet m2 → quiet (if v then m1 else m2).
Proof. by destruct v. Qed.
Lemma quiet_prepare s hd : quiet (prepare s hd).
Proof. apply quiet_bind; [apply quiet_layer|]. intros [err|n]; [apply quiet_fail|]. apply quiet_bind; [apply quiet_note|intros _; apply quiet_ret]. Qed.
Lemma quiet_send_prepared s n : quiet (send_prepared s n).
Proof. apply quiet_bind; [apply quiet_layer|]. intros err. apply quiet_bind; [apply quiet_note|intros _; apply quiet_ret]. Qed.
Lemma quiet_keeps {A} (m : XM A) : quiet m → keeps m.
Proof. intros Hm h x y z b w HI. eapply wp_mono; [apply Hm|]. intros r w' (E1 & E2 & E3 & E4 & E5). by eapply inv_same; [..|exact HI]. Qed.
Lemma quiet_use {A B} (m : XM A) (k : A → XM B) Q h x y z b w : quiet m → Inv h x y z b w →
  (∀ err w', same_state w w' → Inv h x y z b w' → Q (inl err) w') →
  (∀ a w', same_state w w' → Inv h x y z b w' → wp (k a) Q w') → wp (m ≫= k) Q w.
Proof.
  intros Hm HI He Ha. apply wp_bind. eapply wp_mono; [apply Hm|]. intros r w' Hs. assert (Inv h x y z b w') as HI'.
  { destruct Hs as (E1 & E2 & E3 & E4 & E5). by eapply inv_same; [..|exact HI]. }
  destruct r; auto.
Qed.

Lemma backoff_ok e n w c s : mContextPool w !! ec e = Some c → mSession c = Some s →
  wp (backoff_from_now e n) (fun r w' => ∃ t, r = inr t ∧ same_state w w') w.
Proof.
  intros Hc Hs. unfold backoff_from_now. eapply wp_exchange; [done|]. unfold GetSessionHandle. rewrite Hs.
  unfold wp, mbind, CM_bind, gets, layer, now. cbn [mret CM_ret]. destruct (GetRandU8 _) as [j d]. by eexists.
Qed.

(** ** Sending *)
(** An entry changes while the timer is behind. *)
Lemma inv_set_entry h x x' y z w k e e' : Inv h x y z false w → mRetransTable w !! k = Some e → ec e' = ec e →
  0 ≤ sendCount e' ≤ CHIP_CONFIG_RMP_DEFAULT_MAX_RETRANS → (x' ≠ Some k → is_Some (retainedBuf e')) → (∀ j, j ≠ k → x = Some j → x' = Some j) →
  Inv h x' y z false (w <| mRetransTable ::= insert k e' |>).
Proof.
  intros [H1 H2 H3 H4 H5 H6] He Ee Hn Hb Hx. assert (∀ j e0, <[k:=e']> (mRetransTable w) !! j = Some e0 → ∃ e1, mRetransTable w !! j = Some e1 ∧ ec e0 = ec e1) as Hback.
  { intros j e0 Hj. destruct (decide (j = k)) as [->|Hne]; [rewrite lookup_insert_eq in Hj; injection Hj as <-; by exists e|].
    rewrite lookup_insert_ne in Hj by done. by exists e0. }
  constructor; cbn [update mRetransTable mContextPool mResponseTimers]; try done.
  - intros j e0 Hj. destruct (decide (j = k)) as [->|Hne].
    + rewrite lookup_insert_eq in Hj. injection Hj as <-. destruct (H1 k e He) as [? ? ? Hex]. constructor; [done..|]. rewrite Ee. exact Hex.
    + rewrite lookup_insert_ne in Hj by done. destruct (H1 j e0 Hj) as [? ? Hbuf ?]. constructor; try done. intros Hj'. apply Hbuf. intros ->. by apply Hj', Hx.
  - intros i c Hc. destruct (H2 i c Hc) as [? ? ? ? ? ? ? ? ? Hw]. constructor; try done. intros Hn'. destruct (Hw Hn') as (j & e0 & Hj & Ej).
    cbn [update mRetransTable]. destruct (decide (j = k)) as [->|Hne]; [exists k, e'|exists j, e0].
    + rewrite lookup_insert_eq. split; [done|congruence].
    + by rewrite lookup_insert_ne.
  - intros k1 k2 e1 e2 Hk1 Hk2 E. destruct (Hback _ _ Hk1) as (f1 & ? & ?), (Hback _ _ Hk2) as (f2 & ? & ?).
    apply (H3 k1 k2 f1 f2); [done..|congruence].
Qed.
Lemma wp_set_entry {A} k e f (g : unit → XM A) Q w : mRetransTable w !! k = Some e →
  wp (g tt) Q (w <| mRetransTable ::= insert k (f e) |>) → wp (set_entry k f ≫= g) Q w.
Proof.
  intros He Hg. unfold set_entry. apply wp_step. assert (alter f k (mRetransTable w) = <[k := f e]> (mRetransTable w)) as E.
  { apply map_eq. intros j. destruct (decide (k = j)) as [<-|Hne]; [by rewrite lookup_alter_eq, He, lookup_insert_eq|by rewrite lookup_alter_ne, lookup_insert_ne]. }
  change (w <| mRetransTable ::= alter f k |>) with (w <| mRetransTable ::= fun _ => alter f k (mRetransTable w) |>). rewrite E. done.
Qed.

(** A new entry: the exchange waits, with one more reference. *)
Lemma inv_add h y z b w w' k i c : Inv h None y z b w → mContextPool w !! i = Some c → kFlagMessageNotAcked c = false → is_Some (mSession c) →
  mRetransTable w !! k = None → (k < CHIP_CONFIG_RMP_RETRANS_TABLE_SIZE)%nat →
  mContextPool w' = <[i := c <| mRefCount ::= Z.add 1 |> <| kFlagMessageNotAcked := true |>]> (mContextPool w) →
  mRetransTable w' = <[k := {| ec := i; retainedBuf := None; nextRetransTime := 0; sendCount := 0 |}]> (mRetransTable w) →
  mResponseTimers w' = mResponseTimers w → Inv h (Some k) y z false w'.
Proof.
  intros [H1 H2 H3 H4 H5 H6] Hc Hnw Hs Hk Hlt Ep Et Er. pose proof (H2 _ _ Hc) as Hok.
  assert (∀ k' e', mRetransTable w !! k' = Some e' → k' ≠ k ∧ ec e' ≠ i) as Hother.
  { intros k' e' He'. split; [congruence|]. intros E. destruct (entry_exchange _ _ _ _ _ (H1 k' e' He')) as (c0 & Hc0 & Hw & _). congruence. }
  constructor; rewrite ?Ep, ?Et, ?Er; try done.
  - intros k' e' He'. destruct (decide (k' = k)) as [->|Hne].
    + rewrite lookup_insert_eq in He'. injection He' as <-. constructor; cbn; [done| |done|]; [unfold CHIP_CONFIG_RMP_DEFAULT_MAX_RETRANS; lia|].
      eexists. rewrite Ep, lookup_insert_eq. done.
    + rewrite lookup_insert_ne in He' by done. destruct (H1 k' e' He') as [? ? ? (c0 & Hc0 & ? & ?)]. constructor; [done|done|auto|].
      exists c0. rewrite Ep, lookup_insert_ne; [done|]. intros E. by apply (proj2 (Hother k' e' He')).
  - intros j c0 Hj. destruct (decide (j = i)) as [->|Hne].
    + rewrite lookup_insert_eq in Hj. injection Hj as <-. destruct Hok. constructor; try done; [weigh..|]. intros _. exists k. eexists. by rewrite Et, lookup_insert_eq.
    + rewrite lookup_insert_ne in Hj by done. destruct (H2 j c0 Hj) as [? ? ? ? ? ? ? ? ? Hwait]. constructor; try done. intros Hn.
      destruct (Hwait Hn) as (k' & e' & He' & Ee). exists k', e'. rewrite Et, lookup_insert_ne; [done|]. intros ->. congruence.
  - intros k1 k2 e1 e2 Hk1 Hk2 E. destruct (decide (k1 = k)) as [->|], (decide (k2 = k)) as [->|]; [done|..];
      rewrite ?lookup_insert_eq in *; rewrite ?lookup_insert_ne in * by done; try injection Hk1 as <-; try injection Hk2 as <-; cbn [ec] in E.
    + by destruct (proj2 (Hother _ _ Hk2)).
    + by destruct (proj2 (Hother _ _ Hk1)).
    + by apply (H3 k1 k2 e1 e2).
  - intros j Hj. destruct (decide (j = i)) as [->|Hne]; [rewrite lookup_insert_eq; by eexists|]. rewrite lookup_insert_ne by done. by apply H4.
  - intros j t Ht. destruct (H5 j t Ht) as (c0 & Hc0 & [Hx Ho]). destruct (decide (j = i)) as [->|Hne].
    + eexists. rewrite lookup_insert_eq. split; [done|]. replace c0 with c in * by congruence. by constructor.
    + exists c0. by rewrite lookup_insert_ne.
Qed.

Lemma AddToRetransTable_ok h y z b i c w : Inv h None y z b w → mContextPool w !! i = Some c → kFlagMessageNotAcked c = false → is_Some (mSession c) →
  wp (AddToRetransTable i) (fun r w' => match r with
    | inl _ => Inv h None y z b w'
    | inr k => Inv h (Some k) y z false w' ∧ ∃ e, mRetransTable w' !! k = Some e ∧ ec e = i end) w.
Proof.
  intros HI Hc Hnw Hs. unfold AddToRetransTable, SetMessageNotAcked. eapply wp_exchange; [done|]. apply wp_die_unless; [by rewrite Hnw|].
  unfold wp at 1. erewrite bind_ok by done. cbn [fst snd id]. destruct (free_slot (mRetransTable w) 0 _) as [k|] eqn:Ek; [|done].
  apply inv_free_slot in Ek as [Hfree Hlt]. change (wp (Retain i ≫= _) ?Q w) with (wp (Retain i ≫= _) Q w).
  eapply wp_retain; [done..|]. intros w1 Ew1 HI1.
  assert (mContextPool w1 !! i = Some (c <| mRefCount ::= Z.add 1 |>)) as Hc1 by (rewrite Ew1; apply lookup_insert_eq).
  eapply wp_set_exchange; [exact Hc1|]. apply wp_step. split; [|eexists; split; [apply lookup_insert_eq|done]].
  eapply inv_add; [exact HI|exact Hc|done|done|exact Hfree|lia| | |]; rewrite Ew1; [|done..].
  cbn [update mContextPool]. by rewrite insert_insert_eq.
Qed.

Lemma inv_filled h x y z b w k : Inv h (Some k) y z b w → mRetransTable w !! k = None → Inv h x y z b w.
Proof. intros [H1 H2 H3 H4 H5 H6] Hk. constructor; try done. intros j e He. destruct (H1 j e He) as [? ? Hb ?]. constructor; try done. intros _. apply Hb. congruence. Qed.

Lemma fails_cleared {A} h y z b k e (err : CHIP_ERROR) w : Inv h (Some k) y z false w → mRetransTable w !! k = Some e →
  wp (ClearRetransTable_entry k;; fail (A := A) err) (fun r w' => ∃ err', r = inl err' ∧ Inv h None y z b w') w.
Proof.
  intros HI He. apply wp_bind. eapply wp_mono; [by eapply (ClearRetransTable_entry_ok _ _ _ _ _ b)|]. intros r w' (-> & HI' & Et).
  exists err. split; [done|]. eapply inv_filled; [done|]. rewrite Et. apply lookup_delete_eq.
Qed.
Lemma inv_unfilled h k y z b w : Inv h None y z b w → Inv h (Some k) y z b w.
Proof. intros [H1 H2 H3 H4 H5 H6]. constructor; try done. intros j e He. destruct (H1 j e He) as [? ? Hb ?]. constructor; auto. Qed.

(** The body that [entryOwner] guards *)
Lemma owning_ok h y z b k i s hd w e : Inv h (Some k) y z false w → mRetransTable w !! k = Some e → ec e = i →
  wp (owning k (counter ← prepare s hd;
                set_entry k (fun e => e <| retainedBuf := Some counter |>);;
                err ← send_prepared s counter;
                if is_no_error (MapSendError err) then mret tt else fail (MapSendError err)))
    (fun r w' => match r with
     | inl _ => Inv h None y z b w'
     | inr _ => Inv h None y z false w' ∧ ∃ e, mRetransTable w' !! k = Some e ∧ ec e = i end) w.
Proof.
  intros HI He Ei. match goal with |- wp _ ?Q w => set (Post := Q) end. unfold owning. apply wp_bind, wp_attempt.
  eapply (quiet_use (prepare s hd)); [apply quiet_prepare|exact HI| |].
  - intros err w1 (_ & Et & _) HI1. eapply wp_mono; [eapply (fails_cleared h y z b); [exact HI1|rewrite Et; exact He]|]. by intros r w' (err' & -> & ?).
  - intros n w1 (_ & Et & _) HI1. rewrite <- Et in He. eapply wp_set_entry; [exact He|].
    assert (Inv h None y z false (w1 <| mRetransTable ::= insert k (e <| retainedBuf := Some n |>) |>)) as HI2.
    { destruct (inv_entry _ _ _ _ _ _ HI1 k e He). eapply inv_set_entry; [exact HI1|exact He|done|done|by eexists|intros; congruence]. }
    revert HI2. set (w2 := w1 <| mRetransTable ::= _ |>). intros HI2.
    assert (mRetransTable w2 !! k = Some (e <| retainedBuf := Some n |>)) as He2 by apply lookup_insert_eq.
    eapply (quiet_use (send_prepared s n)); [apply quiet_send_prepared|exact HI2| |].
    + intros err w3 (_ & Et3 & _) HI3. eapply wp_mono; [eapply (fails_cleared h y z b); [by apply inv_unfilled|rewrite Et3; exact He2]|].
      by intros r w' (err' & -> & ?).
    + intros err w3 (_ & Et3 & _) HI3. rewrite <- Et3 in He2. destruct (is_no_error (MapSendError err)).
      * split; [done|]. eexists. split; [exact He2|exact Ei].
      * change (wp (ClearRetransTable_entry k;; fail (A := unit) (MapSendError err)) Post w3).
        eapply wp_mono; [eapply (fails_cleared h y z b); [by apply inv_unfilled|exact He2]|]. by intros r w' (err' & -> & ?).
Qed.

Lemma StartRetransmision_ok h y z b k e w : Inv h None y z false w → mRetransTable w !! k = Some e → y ≠ Some (ec e) →
  wp (StartRetransmision k) (fun _ => Inv h None y z b) w.
Proof.
  intros HI He Hy. destruct (inv_entry _ _ _ _ _ _ HI k e He) as [? ? Hb (c & Hc & Hw & Hs)]. destruct (Hs Hy) as [s Hs'].
  unfold StartRetransmision. eapply wp_entry; [done|]. apply wp_bind. eapply wp_mono; [by eapply backoff_ok|].
  intros r w1 (t & -> & Hsame). assert (Inv h None y z false w1) as HI1 by (destruct Hsame as (E1 & E2 & E3 & E4 & E5); by eapply inv_same; [..|exact HI]).
  assert (mRetransTable w1 !! k = Some e) as He1 by (destruct Hsame as (_ & -> & _); done).
  eapply wp_set_entry; [exact He1|]. unfold wp. rewrite StartTimer_eq. eapply inv_set_timer, inv_set_entry; [exact HI1|exact He1|done|done|exact Hb|done].
Qed.

Lemma wp_take {A} h x y z b i c (k : Z → XM A) Q w : Inv h x y z b w → mContextPool w !! i = Some c →
  (∀ w' c', Inv h x y z b w' → mContextPool w' !! i = Some c' → same_core c c' → wp (k (mPendingPeerAckMessageCounter c')) Q w') →
  wp (TakePendingPeerAckMessageCounter i ≫= k) Q w.
Proof.
  intros HI Hc Hk. apply wp_bind. unfold TakePendingPeerAckMessageCounter. eapply wp_set_exchange; [done|].
  set (c' := c <| kFlagAckPending := false |>). eapply (wp_exchange _ c'); [apply lookup_insert_eq|]. apply (Hk _ c'); [|apply lookup_insert_eq|done].
  eapply inv_same_core; [done|done|done|by left|done|done].
Qed.

Lemma unreliable_ok s hd : quiet (counter ← prepare s hd; err ← send_prepared s counter; if is_no_error err then mret tt else fail err).
Proof.
  apply quiet_bind; [apply quiet_prepare|]. intros n. apply quiet_bind; [apply quiet_send_prepared|]. intros err.
  apply quiet_if; [apply quiet_ret|apply quiet_fail].
Qed.

Lemma dispatch_ok h x y z b i s r p t c w : Inv h x y z b w → mContextPool w !! i = Some c → is_Some (mSession c) →
  (r = true → x = None ∧ kFlagMessageNotAcked c = false) → wp (dispatch_SendMessage i s r p t) (fun _ => Inv h x y z b) w.
Proof.
  intros HI Hc Hs Hr. unfold dispatch_SendMessage. eapply wp_exchange; [done|]. apply wp_verify; [|done]. intros _.
  set (hd0 := SetInitiator _ _). cbv zeta.
  assert (∀ w' c' hd, Inv h x y z b w' → mContextPool w' !! i = Some c' → same_core c c' →
    wp (if IsReliableTransmissionAllowed (mDispatch c) && kFlagAutoRequestAck c && r then
          k ← AddToRetransTable i;
          owning k (counter ← prepare s (SetNeedsAck true hd); set_entry k (fun e => e <| retainedBuf := Some counter |>);;
                    err ← send_prepared s counter; if is_no_error (MapSendError err) then mret tt else fail (MapSendError err));;
          StartRetransmision k
        else counter ← prepare s (SetNeedsAck false hd); err ← send_prepared s counter; if is_no_error err then mret tt else fail err)
      (fun _ => Inv h x y z b) w') as Hrest.
  - intros w' c' hd HI' Hc' [_ Es Ew _ _ _ _]. destruct (IsReliableTransmissionAllowed (mDispatch c) && kFlagAutoRequestAck c && r) eqn:Er;
      [|by apply quiet_keeps; [apply unreliable_ok|]].
    apply andb_true_iff in Er as [_ ->]. destruct (Hr eq_refl) as [-> Hnw]. apply wp_bind.
    eapply wp_mono; [eapply AddToRetransTable_ok; [done|done|congruence|by rewrite Es]|]. intros [err|k] w1; [done|]. intros (HI1 & e & He & Ei).
    apply wp_bind. eapply wp_mono; [by eapply (owning_ok h y z b)|]. intros [err|[]] w2; [done|]. intros (HI2 & e2 & He2 & Ei2).
    eapply StartRetransmision_ok; [done..|]. rewrite Ei2. intros ->. pose proof (exchange_losing _ _ _ _ _ _ (inv_exchange _ _ _ _ _ _ HI i c Hc) eq_refl) as E0.
    rewrite E0 in Hs. by destruct Hs.
  - destruct (kFlagAckMessageCounterIsValid c).
    + apply wp_bind. eapply wp_take; [done..|]. intros w' c' HI' Hc' Hcore. by eapply Hrest.
    + apply wp_bind. by eapply Hrest.
Qed.

(** ** Response timers *)
Lemma inv_start_response h x y z b i c t w : Inv h x y z b w → mContextPool w !! i = Some c → kFlagResponseExpected c = true → kFlagClosed c = false →
  Inv h x y z b (w <| mResponseTimers ::= insert i t |>).
Proof.
  intros [H1 H2 H3 H4 H5 H6] Hc Hx Ho. constructor; try done.
  - intros k e He. by destruct (H1 k e He).
  - intros j c0 Hj. by destruct (H2 j c0 Hj).
  - intros j t0 Ht. cbn [update mResponseTimers mContextPool] in *. destruct (decide (j = i)) as [->|Hne].
    + exists c. split; [done|]. by constructor; [|left].
    + rewrite lookup_insert_ne in Ht by done. by eapply H5.
  - intros Hb. by destruct (H6 Hb).
Qed.
Lemma inv_cancel_response h x y z b i w : Inv h x y z b w → Inv h x y z b (w <| mResponseTimers ::= delete i |>).
Proof.
  intros [H1 H2 H3 H4 H5 H6]. constructor; try done.
  - intros k e He. by destruct (H1 k e He).
  - intros j c0 Hj. by destruct (H2 j c0 Hj).
  - intros j t0 Ht. cbn [update mResponseTimers mContextPool] in *. apply lookup_delete_Some in Ht as [_ Ht]. by eapply H5.
  - intros Hb. by destruct (H6 Hb).
Qed.
Lemma keeps_cancel i : keeps (CancelResponseTimer i).
Proof. intros h x y z b w HI. by apply inv_cancel_response. Qed.

Lemma wp_expect {A} h x y z b i c v (k : unit → XM A) Q w : Inv h x y z b w → mContextPool w !! i = Some c →
  (v = true ∨ mResponseTimers w !! i = None) →
  (∀ w' c', Inv h x y z b w' → mContextPool w' !! i = Some c' → same_core c c' → kFlagResponseExpected c' = v → mResponseTimers w' = mResponseTimers w → wp (k tt) Q w') →
  wp (SetResponseExpected i v ≫= k) Q w.
Proof.
  intros HI Hc Hv Hk. unfold SetResponseExpected. eapply wp_set_exchange; [done|].
  eapply (Hk _ (c <| kFlagResponseExpected := v |>)); [|apply lookup_insert_eq|done..].
  eapply inv_same_core; [done|done|done|intros _; destruct Hv as [->|]; auto| |done]. by destruct (inv_exchange _ _ _ _ _ _ HI i c Hc).
Qed.
Lemma cancelled_ok h x y z b i c w : Inv h x y z b w → mContextPool w !! i = Some c →
  wp (CancelResponseTimer i;; SetResponseExpected i false) (fun r w' => r = inr tt ∧ Inv h x y z b w' ∧ mResponseTimers w' !! i = None
    ∧ ∃ c', mContextPool w' !! i = Some c' ∧ same_core c c' ∧ kFlagResponseExpected c' = false) w.
Proof.
  intros HI Hc. unfold CancelResponseTimer, SetResponseExpected. apply wp_step. eapply wp_set_exchange_last; [done|].
  pose proof (lookup_delete_eq (mResponseTimers w) i : mResponseTimers (w <| mResponseTimers ::= delete i |>) !! i = None) as Hn.
  split_and!; [done| |done|exists (c <| kFlagResponseExpected := false |>); split_and!; [apply lookup_insert_eq|done|done]].
  eapply inv_same_core; [by apply inv_cancel_response|exact Hc|done|by right| |done]. by destruct (inv_exchange _ _ _ _ _ _ HI i c Hc).
Qed.

Lemma wp_gets {A B} (f : World → A) (k : A → XM B) Q w : wp (k (f w)) Q w → wp (gets f ≫= k) Q w.
Proof. done. Qed.
Lemma wp_group {A} c (k : bool → XM A) Q w : (∀ v, wp (k v) Q w) → wp (IsGroupExchangeContext c ≫= k) Q w.
Proof. intros Hk. unfold IsGroupExchangeContext. destruct (mSession c); apply Hk. Qed.

(** The response timer that [send_message] starts before the message is sent *)
Lemma wp_start_expecting {A} h x y z b i c (v : bool) (k : bool → XM A) Q w : Inv h x y z b w → mContextPool w !! i = Some c →
  (v = true → kFlagClosed c = false) → Q (inl CHIP_ERROR_INCORRECT_STATE) w →
  (∀ a w' c', Inv h x y z b w' → mContextPool w' !! i = Some c' → same_core c c' → wp (k a) Q w') →
  wp ((if v then verify (negb (kFlagResponseExpected c)) CHIP_ERROR_INCORRECT_STATE;;
                 SetResponseExpected i true;;
                 if 0 <? mResponseTimeout c then StartResponseTimer i;; mret true else mret false
       else mret false) ≫= k) Q w.
Proof.
  intros HI Hc Ho Hq Hk. apply wp_bind. destruct v; [|by eapply (Hk _ _ c)]. apply wp_verify; [intros _|by intros _].
  eapply wp_expect; [done|done|by left|]. intros w' c' HI' Hc' Hcore Hx Et. destruct (0 <? mResponseTimeout c); [|by eapply (Hk _ _ c')].
  unfold StartResponseTimer. apply wp_bind. eapply wp_exchange; [done|]. unfold now. apply wp_gets. unfold wp at 1, modify.
  eapply (Hk _ _ c'); [|exact Hc'|done]. eapply inv_start_response; [done..|]. rewrite (core_closed _ _ Hcore). by apply Ho.
Qed.

Lemma exchange_send_ok h x y z b i c p t noack expect w : Inv h x y z b w → mContextPool w !! i = Some c → h i ≠ 0%nat →
  (noack = false → x = None ∧ kFlagMessageNotAcked c = false) → (expect = true → kFlagClosed c = false) →
  wp (send_message i p t noack expect) (fun _ => Inv h x y z b) w.
Proof.
  intros HI Hc Hh Hr Ho. unfold send_message. eapply wp_exchange; [done|]. destruct (mSession c) as [s|] eqn:Es; [|done].
  apply wp_die_unless; [destruct (inv_exchange _ _ _ _ _ _ HI i c Hc); apply Z.ltb_lt; lia|]. apply wp_group. intros group.
  unfold session_is. apply wp_gets. set (mrp := RequireMRP s (mSessionLayer w)). cbv zeta. eapply wp_start_expecting; [done|done| |done|].
  - intros [-> _]%andb_true_iff. by apply Ho.
  - intros started w' c' HI' Hc' Hcore. apply wp_verify; [intros _|done]. apply wp_bind, wp_attempt. eapply wp_mono.
    + eapply dispatch_ok; [exact HI'|exact Hc'|by rewrite (core_session _ _ Hcore), Es|]. rewrite (core_waiting _ _ Hcore).
      intros [[_ Hn]%andb_true_iff _]%andb_true_iff. apply Hr. by destruct noack.
    + intros [err|[]] w2 HI2; [|done]. destruct (inv_held _ _ _ _ _ _ HI2 i (or_introl Hh)) as [c2 Hc2].
      assert (∀ w3, Inv h x y z b w3 → wp (MarkAsDefunct_CASE s;; fail (A := unit) err) (fun _ => Inv h x y z b) w3) as Hend.
      { intros w3 HI3. eapply keeps_use; [apply keeps_defunct|exact HI3|done..]. }
      destruct started; [|by apply Hend]. apply wp_bind. eapply wp_mono; [by eapply cancelled_ok|]. intros r w3 (-> & HI3 & _). by apply Hend.
Qed.

Lemma SendStandaloneAckMessage_ok h x y z b i w : Inv h x y z b w → is_Some (mContextPool w !! i) →
  wp (SendStandaloneAckMessage i) (fun _ => Inv h x y z b) w.
Proof.
  intros HI Hi. unfold SendStandaloneAckMessage. eapply (quiet_use (layer _)); [apply quiet_layer|exact HI|done|].
  intros v w1 (Ep & _) HI1. rewrite <- Ep in Hi. apply wp_verify; [intros _|done]. apply wp_bind, wp_attempt.
  eapply wp_mono; [eapply (wp_with_ref _ _ _ _ _ h x y z b i _ (fun _ => True)); [exact HI1|done|]|].
  - intros w2 HI2. destruct (inv_held _ _ _ _ _ _ HI2 i) as [c Hc]; [left; by rewrite held_same|].
    eapply wp_mono; [eapply exchange_send_ok; [exact HI2|exact Hc|by rewrite held_same|done|done]|done].
  - intros [err|[]] w2 [HI2 _]; [|done]. by destruct (IsSendErrorNonCritical err).
Qed.
Lemma FlushAcks_ok h x y z b i w : Inv h x y z b w → is_Some (mContextPool w !! i) → wp (FlushAcks i) (fun _ => Inv h x y z b) w.
Proof.
  intros HI [c Hc]. unfold FlushAcks. eapply wp_exchange; [done|]. destruct (kFlagAckPending c); [|done].
  apply SendStandaloneAckMessage_ok; [done|by eexists].
Qed.
End invariant.
