(* ===== verification/ReliableMessageSteps.v ===== *)
(** * ReliableMessageSteps: whole operations keep the invariant

    Closing, sending, receiving, the timers and lost sessions, each from the exchange at
    rest to the exchange at rest; then whatever the application, the peers and the clock
    do, in any order ([perform]). *)
From S2P Require Import Prelude ChipError MessageHeader StateError ReliableMessage ReliableMessageSafe.

Section operations.
Context {D : Type} `{!SessionLayer D} {temporary : option nat}.
#[local] Abbreviation Inv := (Inv (temporary := temporary)).
#[local] Abbreviation World := (Exchanges D).
#[local] Abbreviation XM := (CM (Exchanges D)).
Implicit Types (w : World) (c : ExchangeContext) (e : RetransTableEntry) (h : nat → nat) (x y z : option nat) (b : bool).

(** ** Closing *)
(** The owner's reference becomes a handle. *)
Lemma inv_closing h x y b i c w : Inv h x y None b w → mContextPool w !! i = Some c → kFlagClosed c = false →
  Inv h x y (Some i) b (w <| mContextPool ::= insert i (c <| kFlagClosed := true |>) |>).
Proof.
  intros HI Hc Ho. pose proof (inv_exchange _ _ _ _ _ _ HI i c Hc) as Hok.
  eapply inv_update; [exact HI|exact Hc|done..| | | | | |].
  - intros j Hj. split_and!; [done..|]. split; [|done]. congruence.
  - done.
  - intros Hy Hw. destruct (exchange_waiting _ _ _ _ _ _ Hok Hw) as (k & e & He & <-).
    destruct (entry_exchange _ _ _ _ _ (inv_entry _ _ _ _ _ _ HI k e He)) as (c0 & Hc0 & _ & Hs). replace c with c0 by congruence. auto.
  - destruct Hok. constructor; try done; unfold weight in *; cbn [update mRefCount kFlagClosed kFlagMessageNotAcked] in *; rewrite Ho in *; lia.
  - intros t Ht. destruct (inv_response _ _ _ _ _ _ HI i t Ht) as (c0 & Hc0 & [Hx _]). replace c0 with c in * by congruence. constructor; [done|by right].
  - intros Hb Hp. exact (on_time_ack _ (inv_wake _ _ _ _ _ _ HI Hb) _ _ Hc Hp).
Qed.
Lemma inv_closed h x y b i w : Inv h x y (Some i) b w → mResponseTimers w !! i = None → Inv (held h i) x y None b w.
Proof.
  intros [H1 H2 H3 H4 H5 H6] Ht. constructor; try done.
  - intros j c Hj. destruct (H2 j c Hj) as [? Hr ? Hz ? ? ? ? ? ?]. constructor; try done. unfold held. case_decide as E; [|done]. subst. specialize (Hz eq_refl). lia.
  - intros j [Hj|Hj]; [|done]. apply H4. unfold held in Hj. case_decide as E; [subst; by right|by left].
  - intros j t Hj. destruct (H5 j t Hj) as (c & Hc & [Hx Ho]). exists c. split; [done|]. constructor; [done|]. left. destruct Ho as [|Ho]; [done|congruence].
Qed.
Lemma inv_borrow h x y z b i c w : Inv h x y z b w → mContextPool w !! i = Some c → weight c + Z.of_nat (h i) < mRefCount c → z = None →
  Inv (held h i) x y z b w.
Proof.
  intros [H1 H2 H3 H4 H5 H6] Hc Hw ->. constructor; try done.
  - intros j c0 Hj. destruct (H2 j c0 Hj). constructor; try done. unfold held. case_decide as E; [|done]. subst. replace c0 with c by congruence. lia.
  - intros j [Hj|Hj]; [|done]. unfold held in Hj. case_decide as E; [subst; by eexists|by apply H4; left].
Qed.
(** A handle is left to its owner. *)
Lemma inv_return h x y z b i w : Inv (held h i) x y z b w → Inv h x y z b w.
Proof.
  intros [H1 H2 H3 H4 H5 H6]. assert (∀ j, (h j ≤ held h i j)%nat) as Hle by (intros j; unfold held; case_decide; lia). constructor; try done.
  - intros j c Hj. specialize (Hle j). destruct (H2 j c Hj) as [? ? ? Hz ? ? ? ? ? ?]. constructor; try done; [lia|]. intros E. specialize (Hz E). lia.
  - intros j Hj. apply H4. specialize (Hle j). destruct Hj; [left; lia|by right].
Qed.
(** Nothing waits for the session any more. *)
Lemma inv_lost h x z b i w : Inv h x (Some i) z b w → (∀ k e, mRetransTable w !! k = Some e → ec e ≠ i) → Inv h x None z b w.
Proof.
  intros [H1 H2 H3 H4 H5 H6] Hn. constructor; try done.
  - intros k e He. destruct (H1 k e He) as [? ? ? (c & ? & ? & Hs)]. constructor; [done..|]. exists c. split_and!; [done..|]. intros _. apply Hs.
    intros [= E]. by apply (Hn k e).
  - intros j c Hj. by destruct (H2 j c Hj).
Qed.

Definition after_clear (clear : bool) y : option nat := if clear then None else y.

Lemma wp_note_if {A} h x y z b (v : bool) (ev : event) (k : unit → XM A) Q w : Inv h x y z b w →
  (∀ w', same_state w w' → Inv h x y z b w' → wp (k tt) Q w') → wp ((if v then note_event ev else mret tt) ≫= k) Q w.
Proof.
  intros HI Hk. assert (∀ w', same_state w w' → wp (k tt) Q w') as Hk'.
  { intros w' Hs. apply Hk; [done|]. destruct Hs as (E1 & E2 & E3 & E4 & E5). by eapply inv_same; [..|exact HI]. }
  destruct v; by apply Hk'.
Qed.

Lemma DoClose_ok h y b i c clear w : Inv h None y None b w → mContextPool w !! i = Some c → kFlagClosed c = false → y = None ∨ y = Some i →
  wp (DoClose i clear) (fun r w' => r = inr tt ∧ Inv (held h i) None (after_clear clear y) None b w') w.
Proof.
  intros HI Hc Ho Hy. unfold DoClose. eapply wp_exchange; [done|]. rewrite Ho. eapply wp_set_exchange; [done|].
  set (c1 := c <| kFlagClosed := true |>). pose proof (inv_closing _ _ _ _ _ _ _ HI Hc Ho) as HI1. fold c1 in HI1. revert HI1.
  assert (mContextPool (w <| mContextPool ::= insert i c1 |>) !! i = Some c1) as Hc1 by apply lookup_insert_eq. revert Hc1.
  generalize (w <| mContextPool ::= insert i c1 |>). intros w1 Hc1 HI1. eapply wp_note_if; [exact HI1|].
  intros w2 (Ep & _) HI2. rewrite <- Ep in Hc1. eapply wp_set_exchange; [done|].
  pose proof (inv_same_core _ _ _ _ _ _ _ _ (c1 <| mDelegate := false |>) HI2 Hc1 ltac:(done) ltac:(by left)
    (exchange_pending _ _ _ _ _ _ (inv_exchange _ _ _ _ _ _ HI2 i c1 Hc1)) ltac:(done)) as HI3. revert HI3.
  generalize (w2 <| mContextPool ::= insert i (c1 <| mDelegate := false |>) |>). intros w3 HI3.
  apply wp_bind, wp_attempt. eapply wp_mono; [eapply FlushAcks_ok; [exact HI3|by apply (inv_held _ _ _ _ _ _ HI3); right]|]. intros r4 w4 HI4. cbn beta in HI4.
  apply wp_bind. eapply (wp_mono _ (fun r w' => r = inr tt ∧ Inv h None (after_clear clear y) (Some i) b w')).
  { destruct clear; [|done]. eapply wp_mono; [by eapply ClearRetransTable_ok|]. intros r w5 (-> & HI5 & Hn). split; [done|].
    destruct Hy as [->| ->]; [done|]. by eapply inv_lost. }
  intros r w5 [-> HI5]. destruct (inv_held _ _ _ _ _ _ HI5 i) as [c5 Hc5]; [by right|]. eapply wp_exchange; [done|].
  destruct (kFlagResponseExpected c5) eqn:Hx.
  - split; [done|]. apply inv_closed; [by apply inv_cancel_response|apply lookup_delete_eq].
  - split; [done|]. apply inv_closed; [done|]. destruct (mResponseTimers w5 !! i) as [t|] eqn:Ht; [|done].
    destruct (inv_response _ _ _ _ _ _ HI5 i t Ht) as (c0 & Hc0 & [Hx' _]). congruence.
Qed.

(** The owner gives its reference up. *)
Definition may_close h c (i : nat) : bool := negb (kFlagClosed c) || (weight c + Z.of_nat (h i) <? mRefCount c).
Lemma end_of_life_ok h b i c clear w : Inv h None None None b w → mContextPool w !! i = Some c → may_close h c i = true →
  wp (DoClose i clear;; Release i) (fun r w' => r = inr tt ∧ Inv h None None None b w') w.
Proof.
  intros HI Hc Hm. assert (wp (DoClose i clear) (fun r w' => r = inr tt ∧ Inv (held h i) None None None b w') w) as HD.
  - destruct (kFlagClosed c) eqn:Ho.
    + unfold DoClose. eapply wp_exchange; [done|]. rewrite Ho. split; [done|]. eapply inv_borrow; [done..| |done].
      unfold may_close in Hm. rewrite Ho in Hm. by apply Z.ltb_lt.
    + eapply wp_mono; [by eapply DoClose_ok; [..|left]|]. by destruct clear.
  - apply wp_bind. eapply wp_mono; [exact HD|]. intros r w' [-> HI']. by apply wp_release.
Qed.
Lemma Close_ok h b i c w : Inv h None None None b w → mContextPool w !! i = Some c → may_close h c i = true →
  wp (Close i) (fun r w' => r = inr tt ∧ Inv h None None None b w') w.
Proof.
  intros HI Hc Hm. unfold Close. eapply wp_exchange; [done|].
  apply wp_die_unless; [destruct (inv_exchange _ _ _ _ _ _ HI i c Hc); apply Z.ltb_lt; lia|]. by eapply end_of_life_ok.
Qed.
Lemma Abort_ok h y b i c w : Inv h None y None b w → mContextPool w !! i = Some c → y = None ∧ may_close h c i = true ∨ y = Some i ∧ kFlagClosed c = false →
  wp (Abort i) (fun r w' => r = inr tt ∧ Inv h None None None b w') w.
Proof.
  intros HI Hc Hm. unfold Abort. eapply wp_exchange; [done|].
  apply wp_die_unless; [destruct (inv_exchange _ _ _ _ _ _ HI i c Hc); apply Z.ltb_lt; lia|]. destruct Hm as [[-> Hm]|[-> Ho]]; [by eapply end_of_life_ok|].
  apply wp_bind. eapply wp_mono; [by eapply DoClose_ok; [..|right]|]. intros r w' [-> HI']. by apply wp_release.
Qed.
Lemma MessageHandled_ok h b i w : Inv h None None None b w → is_Some (mContextPool w !! i) →
  wp (MessageHandled i) (fun r w' => r = inr tt ∧ Inv h None None None b w') w.
Proof.
  intros HI [c Hc]. unfold MessageHandled. eapply wp_exchange; [done|]. destruct (_ || _) eqn:E; [done|].
  apply orb_false_iff in E as [[E _]%orb_false_iff _]. eapply Close_ok; [done..|]. unfold may_close. by rewrite E.
Qed.

(** ** Sending *)
Lemma set_flag_ok h x y z b i c f w : Inv h x y z b w → mContextPool w !! i = Some c → same_core c (f c) →
  kFlagResponseExpected (f c) = kFlagResponseExpected c → kFlagAckPending (f c) = kFlagAckPending c →
  kFlagAckMessageCounterIsValid (f c) = kFlagAckMessageCounterIsValid c → mNextAckTime (f c) = mNextAckTime c →
  wp (set_exchange i f) (fun r w' => r = inr tt ∧ Inv h x y z b w' ∧ mContextPool w' !! i = Some (f c)) w.
Proof.
  intros HI Hc Hcore E1 E2 E3 E4. eapply wp_set_exchange_last; [done|]. split_and!; [done| |apply lookup_insert_eq].
  eapply inv_same_core; [done..| | |]; rewrite ?E1, ?E2, ?E3, ?E4; [by left| |done]. by destruct (inv_exchange _ _ _ _ _ _ HI i c Hc).
Qed.

Definition may_send c (noack expect : bool) : bool := (noack || negb (kFlagMessageNotAcked c)) && (negb expect || negb (kFlagClosed c)).
Lemma SendMessage_ok h b i c p t noack expect w : Inv h None None None b w → mContextPool w !! i = Some c → may_send c noack expect = true →
  wp (SendMessage i p t noack expect) (fun _ => Inv h None None None b) w.
Proof.
  intros HI Hc [H1 H2]%andb_true_iff. unfold SendMessage. eapply wp_exchange; [done|]. destruct (mSession c) as [s|]; [|done].
  unfold with_ref. eapply wp_retain; [done..|]. intros w1 Ew1 HI1. apply wp_bind, wp_attempt.
  eapply (wp_mono _ (fun _ => Inv (held h i) None None None b)).
  2: { intros r w2 HI2. apply wp_bind. eapply wp_mono; [by eapply wp_release|]. by intros ? w3 [-> HI3]. }
  assert (mContextPool w1 !! i = Some (c <| mRefCount ::= Z.add 1 |>)) as Hc1 by (rewrite Ew1; apply lookup_insert_eq).
  apply wp_bind. eapply wp_mono; [eapply exchange_send_ok; [exact HI1|exact Hc1|by rewrite held_same| |]|].
  - intros ->. split; [done|]. by apply negb_true_iff in H1.
  - intros ->. by apply negb_true_iff in H2.
  - intros [err|[]] w2 HI2; [done|]. destruct (_ && _); [done|]. destruct (inv_held _ _ _ _ _ _ HI2 i) as [c2 Hc2]; [left; by rewrite held_same|].
    apply wp_bind. eapply wp_mono; [by eapply set_flag_ok|]. intros r w3 (-> & HI3 & Hc3). eapply wp_mono; [eapply MessageHandled_ok; [done|by eexists]|].
    by intros r' w4 [_ HI4].
Qed.

(** ** Receiving *)
Lemma set_pending_ok h x y z i f w : Inv h x y z false w → (∀ c, same_core c (f c)) → (∀ c, kFlagResponseExpected (f c) = kFlagResponseExpected c) →
  (∀ c, kFlagAckMessageCounterIsValid c = true ∨ kFlagAckPending (f c) = true → kFlagAckMessageCounterIsValid (f c) = true) →
  (∀ c, kFlagAckMessageCounterIsValid (f c) = false → kFlagAckPending (f c) = kFlagAckPending c) →
  is_Some (mContextPool w !! i) → wp (set_exchange i f) (fun r w' => r = inr tt ∧ Inv h x y z false w') w.
Proof.
  intros HI Hcore Hx Hv Hp [c Hc]. eapply wp_set_exchange_last; [done|]. split; [done|].
  eapply inv_same_core; [done|done|by apply Hcore|by rewrite Hx; left| |done]. intros Hpend. apply Hv. by right.
Qed.
Lemma pending_ok h x y z i n w : Inv h x y z false w → is_Some (mContextPool w !! i) →
  wp (SetPendingPeerAckMessageCounter i n) (fun r w' => r = inr tt ∧ Inv h x y z false w') w.
Proof. intros. by apply set_pending_ok. Qed.

Lemma HandleNeedsAckInner_ok h x y z i n dup w : Inv h x y z false w → h i ≠ 0%nat →
  wp (HandleNeedsAckInner i n dup) (fun _ => Inv h x y z false) w.
Proof.
  intros HI Hi. assert (∀ w', Inv h x y z false w' → is_Some (mContextPool w' !! i)) as Hat by (intros w' HI'; by apply (inv_held _ _ _ _ _ _ HI'); left).
  unfold HandleNeedsAckInner. destruct (Hat w HI) as [c Hc]. eapply wp_exchange; [done|]. destruct dup.
  - cbv zeta. apply wp_bind. eapply wp_mono; [by apply pending_ok; [|by apply Hat]|]. intros r w1 [-> HI1].
    apply wp_bind, wp_attempt. eapply wp_mono; [by eapply SendStandaloneAckMessage_ok; [|by apply Hat]|]. intros err w2 HI2. cbn beta in HI2.
    apply wp_bind. eapply (wp_mono _ (fun r w' => r = inr tt ∧ Inv h x y z false w')); [|by intros r3 w3 [-> HI3]].
    destruct (_ && _); [by apply pending_ok; [|by apply Hat]|]. destruct (kFlagAckMessageCounterIsValid c); [|done].
    destruct (Hat w2 HI2) as [c2 Hc2]. eapply wp_mono; [by eapply set_flag_ok|]. by intros ? ? (-> & ? & _).
  - apply wp_bind. eapply (wp_mono _ (fun _ => Inv h x y z false)).
    { destruct (kFlagAckPending c); [|done]. by eapply SendStandaloneAckMessage_ok; [|by apply Hat]. }
    intros [err|[]] w1 HI1; [done|]. apply wp_bind. eapply wp_mono; [by apply pending_ok; [|by apply Hat]|]. intros r w2 [-> HI2].
    unfold now. apply wp_gets. destruct (Hat w2 HI2) as [c2 Hc2]. eapply wp_set_exchange_last; [done|].
    eapply inv_same_core; [done|done|done|by left| |done]. by destruct (inv_exchange _ _ _ _ _ _ HI2 i c2 Hc2).
Qed.
Lemma HandleNeedsAck_ok h x y z b i n dup w : Inv h x y z b w → h i ≠ 0%nat → wp (HandleNeedsAck i n dup) (fun _ => Inv h x y z b) w.
Proof.
  intros HI Hi. unfold HandleNeedsAck. apply wp_bind, wp_attempt. eapply wp_mono; [by apply HandleNeedsAckInner_ok; [eapply inv_behind|]|].
  intros err w1 HI1. eapply wp_StartTimer; [exact HI1|]. intros w2 _ HI2. by apply inv_ahead.
Qed.

Lemma exchange_receive_ok h b i n hd dup ack w : Inv h None None None b w → h i ≠ 0%nat → wp (receive i n hd dup ack) (fun _ => Inv h None None None b) w.
Proof.
  intros HI Hi. assert (∀ w', Inv h None None None b w' → is_Some (mContextPool w' !! i)) as Hat by (intros w' HI'; by apply (inv_held _ _ _ _ _ _ HI'); left).
  unfold receive. destruct (Hat w HI) as [c Hc]. eapply wp_exchange; [done|]. apply wp_group. intros group.
  apply wp_bind. eapply (wp_mono _ (fun _ => Inv h None None None b)).
  { destruct (_ && _); [|done]. apply wp_bind. eapply (wp_mono _ (fun _ => Inv h None None None b)).
    - destruct (_ && _); [|done]. destruct (mAckMessageCounter hd) as [n'|]; [|done]. apply wp_bind.
      eapply wp_mono; [by eapply CheckAndRemRetransTable_ok|]. by intros r w1 (v & -> & HI1).
    - intros [err|[]] w1 HI1; [done|]. destruct (NeedsAck hd); [|done]. apply wp_bind, wp_attempt. eapply wp_mono; [by apply HandleNeedsAck_ok|done]. }
  intros [err|[]] w1 HI1; [done|]. destruct (Hat w1 HI1) as [c1 Hc1]. eapply wp_exchange; [done|]. apply wp_bind.
  eapply (wp_mono _ (fun _ => Inv h None None None b)); [by destruct (_ && _); [by eapply FlushAcks_ok; [|by eexists]|]|].
  intros [err|[]] w2 HI2; [done|]. destruct ack; [done|]. destruct dup; [done|]. destruct (kFlagEphemeralExchange c1); [done|].
  destruct (Hat w2 HI2) as [c2 Hc2]. eapply wp_exchange; [done|]. apply wp_verify; [intros _|done]. apply wp_bind.
  eapply (wp_mono _ (fun r w' => r = inr tt ∧ Inv h None None None b w')).
  - destruct (kFlagResponseExpected c2); [|done]. eapply wp_mono; [by eapply cancelled_ok|]. by intros r w3 (-> & ? & _).
  - by intros r w3 [-> HI3].
Qed.

Lemma HandleMessage_ok h b i n hd dup OnMessageReceived w : Inv h None None None b w → is_Some (mContextPool w !! i) →
  (∀ w', Inv (held h i) None None None b w' → wp OnMessageReceived (fun _ => Inv (held h i) None None None b) w') →
  wp (HandleMessage i n hd dup OnMessageReceived) (fun _ => Inv h None None None b) w.
Proof.
  intros HI Hi Hon. unfold HandleMessage. cbv zeta. eapply wp_mono; [eapply (wp_with_ref _ _ _ _ _ h None None None b i _ (fun _ => True)); [done..|]|by intros ? ? [? _]].
  intros w1 HI1. set (ack := is_secure_channel _ && _). apply wp_bind, wp_attempt. eapply (wp_mono _ (fun _ => Inv (held h i) None None None b)).
  - apply wp_bind. eapply wp_mono; [by apply exchange_receive_ok; [|by rewrite held_same]|]. intros [err|[|]] w2 HI2; [done|by apply Hon|done].
  - intros res w2 HI2. destruct (inv_held _ _ _ _ _ _ HI2 i) as [c2 Hc2]; [left; by rewrite held_same|]. eapply wp_exchange; [done|].
    apply wp_bind. eapply (wp_mono _ (fun r w' => r = inr tt ∧ Inv (held h i) None None None b w')).
    + destruct ((ack || dup) && mDelegate c2); [done|]. by apply MessageHandled_ok; [|by eexists].
    + by intros r w3 [-> HI3].
Qed.

(** ** Response timeouts and lost sessions *)
Lemma wp_release_kept h x y z b i c w : Inv (held h i) x y z b w → mContextPool w !! i = Some c → mRefCount c ≠ 1 →
  wp (Release i) (fun r w' => r = inr tt ∧ Inv h x y z b w' ∧ ∃ c', mContextPool w' !! i = Some c' ∧ kFlagClosed c' = kFlagClosed c) w.
Proof.
  intros HI Hc Hn. destruct (inv_release _ _ _ _ _ _ _ HI) as (p & Hp & HI'). unfold wp. rewrite Release_eq, Hp. split_and!; [done..|].
  unfold release_pool in Hp. rewrite Hc in Hp. cbn [mbind option_bind] in Hp. destruct (0 <? mRefCount c); [|done].
  destruct (Z.eqb_spec (mRefCount c) 1); [done|]. injection Hp as <-. eexists. split; [apply lookup_insert_eq|done].
Qed.

Lemma quiet_hang c : quiet (match mSession c with Some session => MarkAsDefunct_CASE session;; note_event (SessionHang session) | None => mret tt end).
Proof.
  destruct (mSession c) as [s|]; [|apply quiet_ret]. apply quiet_bind; [|intros _; apply quiet_note]. apply quiet_bind; [by intros w|].
  intros v. apply quiet_if; [apply quiet_note|apply quiet_ret].
Qed.
Lemma wp_hang {A} h x y z b c (k : unit → XM A) Q w : Inv h x y z b w →
  (∀ w', same_state w w' → Inv h x y z b w' → wp (k tt) Q w') →
  wp ((match mSession c with Some session => MarkAsDefunct_CASE session;; note_event (SessionHang session) | None => mret tt end) ≫= k) Q w.
Proof.
  intros HI Hk. assert (wp (match mSession c with Some session => MarkAsDefunct_CASE session;; note_event (SessionHang session) | None => mret tt end)
    (fun r w' => r = inr tt) w) as Hr.
  { destruct (mSession c) as [s|]; [|done]. unfold MarkAsDefunct_CASE, session_is. apply wp_bind, wp_gets. by destruct (IsCASESession _ _). }
  apply wp_run in Hr as (r & w' & E & ->). pose proof (quiet_hang c w) as Hq. unfold wp in Hq |- *. rewrite (bind_ok _ _ _ _ _ E). rewrite E in Hq.
  apply (Hk w' Hq). destruct Hq as (E1 & E2 & E3 & E4 & E5). by eapply inv_same; [..|exact HI].
Qed.

Lemma NotifyResponseTimeout_ok h y b i c close w : Inv h None y None b w → mContextPool w !! i = Some c → mResponseTimers w !! i = None →
  (close = true → y = None) →
  wp (NotifyResponseTimeout i close) (fun r w' => r = inr tt ∧ Inv h None y None b w' ∧
     (close = false → ∃ c', mContextPool w' !! i = Some c' ∧ kFlagClosed c' = kFlagClosed c)) w.
Proof.
  intros HI Hc Ht Hy. unfold NotifyResponseTimeout. eapply wp_expect; [done|done|by right|]. intros w1 c1 HI1 Hc1 Hcore _ _.
  unfold with_ref. eapply wp_retain; [done..|]. intros w2 Ew2 HI2. pose (c2 := c1 <| mRefCount ::= Z.add 1 |>).
  assert (mContextPool w2 !! i = Some c2) as Hc2 by (rewrite Ew2; apply lookup_insert_eq). apply wp_bind, wp_attempt.
  eapply (wp_mono _ (fun r w' => r = inr tt ∧ Inv (held h i) None y None b w' ∧ (close = false → mContextPool w' !! i = Some c2))).
  - eapply wp_exchange; [done|]. eapply wp_hang; [done|]. intros w3 (Ep3 & _) HI3. eapply wp_note_if; [done|]. intros w4 (Ep4 & _) HI4.
    destruct close; [|split_and!; [done..|intros _; by rewrite Ep4, Ep3]]. rewrite Hy in * by done.
    eapply wp_mono; [apply MessageHandled_ok; [done|by rewrite Ep4, Ep3; eexists]|]. by intros r w5 [-> HI5].
  - intros r w5 (-> & HI5 & Hc5). apply wp_bind. destruct close.
    + eapply wp_mono; [by eapply wp_release|]. by intros r w6 [-> HI6].
    + eapply wp_mono; [eapply (wp_release_kept _ _ _ _ _ _ c2); [done|by apply Hc5|]|].
      * pose proof (exchange_alive _ _ _ _ _ _ (inv_exchange _ _ _ _ _ _ HI1 i c1 Hc1)). unfold c2. cbn [update mRefCount]. lia.
      * intros r w6 (-> & HI6 & c6 & Hc6 & E6). split_and!; [done..|]. intros _. exists c6. split; [done|]. rewrite E6. apply (core_closed _ _ Hcore).
Qed.

Lemma OnSessionReleased_ok h b i w : Inv h None (Some i) None b w → is_Some (mContextPool w !! i) →
  wp (OnSessionReleased i) (fun r w' => r = inr tt ∧ Inv h None None None b w') w.
Proof.
  intros HI [c Hc]. unfold OnSessionReleased. eapply wp_exchange; [done|].
  rewrite (exchange_released _ _ _ _ _ _ (inv_exchange _ _ _ _ _ _ HI i c Hc)). destruct (kFlagClosed c) eqn:Ho.
  { eapply wp_mono; [by eapply ClearRetransTable_ok|]. intros r w1 (-> & HI1 & Hn). split; [done|by eapply inv_lost]. }
  unfold with_ref. eapply wp_retain; [done..|]. intros w1 Ew1 HI1. pose (c1 := c <| mRefCount ::= Z.add 1 |>).
  assert (mContextPool w1 !! i = Some c1) as Hc1 by (rewrite Ew1; apply lookup_insert_eq). apply wp_bind, wp_attempt.
  eapply (wp_mono _ (fun r w' => r = inr tt ∧ Inv (held h i) None None None b w')).
  - destruct (negb (kFlagWillSendMessage c)).
    + apply wp_bind. eapply (wp_mono _ (fun r w' => r = inr tt ∧ Inv (held h i) None (Some i) None b w' ∧
        ∃ c', mContextPool w' !! i = Some c' ∧ kFlagClosed c' = false)).
      * destruct (kFlagResponseExpected c); [|split_and!; [done..|by exists c1]]. unfold CancelResponseTimer. apply wp_step.
        eapply wp_mono; [eapply (NotifyResponseTimeout_ok _ _ _ _ c1 false); [by apply inv_cancel_response|exact Hc1|apply lookup_delete_eq|done]|].
        intros r w2 (-> & HI2 & Hc2). destruct (Hc2 eq_refl) as (c2 & ? & E). split_and!; [done..|]. exists c2. split; [done|]. by rewrite E.
      * intros r w2 (-> & HI2 & c2 & Hc2 & Ho2). eapply Abort_ok; [done..|by right].
    + eapply wp_mono; [by eapply (DoClose_ok _ _ _ _ c1 true); [..|right]|]. intros r w2 [-> HI2]. split; [done|]. by eapply inv_return.
  - intros r w2 [-> HI2]. apply wp_bind. eapply wp_mono; [by eapply wp_release|]. by intros r w3 [-> HI3].
Qed.

Lemma SessionReleased_ok h b i w : Inv h None None None b w → is_Some (mContextPool w !! i) →
  wp (SessionReleased i) (fun r w' => r = inr tt ∧ Inv h None None None b w') w.
Proof.
  intros HI [c Hc]. unfold SessionReleased. eapply wp_set_exchange; [done|]. apply OnSessionReleased_ok; [|eexists; apply lookup_insert_eq].
  eapply inv_update; [exact HI|exact Hc|done..| | | | | |].
  - intros j Hj. split_and!; [done| |done]. split; congruence.
  - done.
  - by intros [].
  - destruct (inv_exchange _ _ _ _ _ _ HI i c Hc). constructor; done.
  - intros t Ht. destruct (inv_response _ _ _ _ _ _ HI i t Ht) as (c0 & Hc0 & [Hx Ho]). replace c0 with c in * by congruence. by constructor.
  - intros Hb Hp. exact (on_time_ack _ (inv_wake _ _ _ _ _ _ HI Hb) _ _ Hc Hp).
Qed.
End operations.
