(* ===== verification/ReliableMessageTimer.v ===== *)
(** * ReliableMessageTimer: what the manager's timer does

    The exact effect of a standalone acknowledgement, then of one turn of the timer:
    which acknowledgements and retransmissions are due, and what is left of them. *)
From S2P Require Import Prelude ChipError MessageHeader StateError ReliableMessage ReliableMessageSafe ReliableMessageSteps.

Section timer.
Context {D : Type} `{!SessionLayer D} {temporary : option nat}.
#[local] Abbreviation Inv := (Inv (temporary := temporary)).
#[local] Abbreviation World := (Exchanges D).
#[local] Abbreviation XM := (CM (Exchanges D)).
Implicit Types (w : World) (c : ExchangeContext) (e : RetransTableEntry) (h : nat → nat) (x y z : option nat) (b : bool).

(** ** Standalone acknowledgements *)
(** Only the pool is new. *)
Definition only_pool (p : gmap nat ExchangeContext) w w' : Prop := mContextPool w' = p ∧ mRetransTable w' = mRetransTable w ∧ mTimer w' = mTimer w
  ∧ mResponseTimers w' = mResponseTimers w ∧ mClock w' = mClock w.
Definition acked (v : bool) c : ExchangeContext := if v then c <| kFlagAckPending := false |> else c.
(** The exchange can be answered for. *)
Definition answerable c : Prop := ∃ s, mSession c = Some s ∧ ∀ d, IsGroupSession s d = false.

Lemma quiet_run {A B} (m : XM A) (k : A → XM B) Q w : quiet m → (∀ err w', same_state w w' → Q (inl err) w') →
  (∀ a w', same_state w w' → wp (k a) Q w') → wp (m ≫= k) Q w.
Proof. intros Hm He Ha. apply wp_bind. eapply wp_mono; [apply Hm|]. intros [err|a] w'; auto. Qed.
Lemma only_pool_same p w w1 w2 : only_pool p w w1 → same_state w1 w2 → only_pool p w w2.
Proof. unfold only_pool, same_state. intros. destruct_and!. split_and!; congruence. Qed.
Lemma only_pool_trans p1 p2 w w1 w2 : only_pool p1 w w1 → only_pool p2 w1 w2 → only_pool p2 w w2.
Proof. unfold only_pool. intros. destruct_and!. split_and!; congruence. Qed.

Lemma quiet_defunct s : quiet (MarkAsDefunct_CASE s).
Proof. apply quiet_bind; [by intros w|]. intros v. apply quiet_if; [apply quiet_note|apply quiet_ret]. Qed.
Lemma insert_same (p : gmap nat ExchangeContext) i c : p !! i = Some c → <[i := c]> p = p.
Proof. apply insert_id. Qed.

Lemma wp_take_exact {A} i c (k : Z → XM A) Q w : mContextPool w !! i = Some c →
  wp (k (mPendingPeerAckMessageCounter c)) Q (w <| mContextPool ::= insert i (c <| kFlagAckPending := false |>) |>) →
  wp (TakePendingPeerAckMessageCounter i ≫= k) Q w.
Proof.
  intros Hc Hk. apply wp_bind. unfold TakePendingPeerAckMessageCounter. eapply wp_set_exchange; [done|].
  eapply wp_exchange; [apply lookup_insert_eq|]. exact Hk.
Qed.
Lemma dispatch_ack_effect i s c w : mContextPool w !! i = Some c → MessagePermitted (mDispatch c) SecureChannel MsgType_StandaloneAck = true →
  wp (dispatch_SendMessage i s false SecureChannel MsgType_StandaloneAck)
    (fun _ w' => only_pool (<[i := acked (kFlagAckMessageCounterIsValid c) c]> (mContextPool w)) w w') w.
Proof.
  intros Hc Hp. unfold dispatch_SendMessage. eapply wp_exchange; [done|]. apply wp_verify; [intros _|by rewrite Hp]. cbv zeta.
  apply wp_bind. rewrite andb_false_r. destruct (kFlagAckMessageCounterIsValid c).
  - eapply wp_take_exact; [done|]. unfold wp at 1. cbn [mret CM_ret]. eapply wp_mono; [apply unreliable_ok|].
    intros r w' Hs. by eapply only_pool_same; [|exact Hs].
  - unfold wp at 1. cbn [mret CM_ret]. eapply wp_mono; [apply unreliable_ok|]. intros r w' Hs. eapply only_pool_same; [|exact Hs].
    unfold acked. by rewrite insert_same.
Qed.

Lemma send_ack_effect i c w : mContextPool w !! i = Some c → 0 < mRefCount c →
  MessagePermitted (mDispatch c) SecureChannel MsgType_StandaloneAck = true →
  wp (send_message i SecureChannel MsgType_StandaloneAck true false) (fun _ w' => ∃ v,
    only_pool (<[i := acked v c]> (mContextPool w)) w w' ∧ (answerable c → kFlagAckMessageCounterIsValid c = true → v = true)) w.
Proof.
  intros Hc Hr Hp. assert (∀ w', same_state w w' → ¬ answerable c → ∃ v, only_pool (<[i := acked v c]> (mContextPool w)) w w' ∧
    (answerable c → kFlagAckMessageCounterIsValid c = true → v = true)) as Hnot.
  { intros w' Hs Hn. exists false. split; [|done]. unfold acked. rewrite insert_same by done. exact Hs. }
  unfold send_message. eapply wp_exchange; [done|]. destruct (mSession c) as [s|] eqn:Es.
  2: { apply (Hnot w); [done|]. intros (s & ? & _). congruence. }
  apply wp_die_unless; [by apply Z.ltb_lt|]. unfold IsGroupExchangeContext. rewrite Es. unfold session_is. apply wp_gets, wp_gets. cbv zeta.
  rewrite !andb_false_r. cbn [andb]. unfold wp at 1. erewrite bind_ok by done. cbn [fst snd id].
  change (wp (verify (negb (IsGroupSession s (mSessionLayer w) && negb (kFlagInitiator c))) CHIP_ERROR_INTERNAL ≫= fun _ =>
    err ← attempt (dispatch_SendMessage i s false SecureChannel MsgType_StandaloneAck);
    match err with inl err => mret tt;; MarkAsDefunct_CASE s;; fail err | inr _ => mret tt end) (fun _ w' => ∃ v,
    only_pool (<[i := acked v c]> (mContextPool w)) w w' ∧ (answerable c → kFlagAckMessageCounterIsValid c = true → v = true)) w).
  apply wp_verify; [intros _|].
  2: { intros Hg. apply (Hnot w); [done|]. intros (s' & E & Hng). rewrite Es in E. injection E as <-. by rewrite Hng in Hg. }
  apply wp_bind, wp_attempt. eapply wp_mono; [by apply dispatch_ack_effect|]. intros r w1 Hw1.
  assert (∀ w', only_pool (<[i := acked (kFlagAckMessageCounterIsValid c) c]> (mContextPool w)) w w' → ∃ v,
    only_pool (<[i := acked v c]> (mContextPool w)) w w' ∧ (answerable c → kFlagAckMessageCounterIsValid c = true → v = true)) as Hdone.
  { intros w' Hw'. by exists (kFlagAckMessageCounterIsValid c). }
  destruct r as [err|[]]; [|by apply Hdone]. eapply wp_mono; [apply (quiet_bind _ _ (quiet_ret tt) (fun _ => quiet_bind _ _ (quiet_defunct s) (fun _ => quiet_fail err)))|].
  intros r2 w2 Hs. apply Hdone. by eapply only_pool_same.
Qed.

(** [SendStandaloneAckMessage] takes the pending acknowledgement of an exchange that can
    be answered for, whatever becomes of the message, and changes nothing else. *)
Lemma SendStandaloneAckMessage_effect i c w : mContextPool w !! i = Some c → 0 < mRefCount c →
  MessagePermitted (mDispatch c) SecureChannel MsgType_StandaloneAck = true →
  wp (SendStandaloneAckMessage i) (fun _ w' => ∃ v, only_pool (<[i := acked v c]> (mContextPool w)) w w'
    ∧ ((NewBuffer (mSessionLayer w)).1 = true → answerable c → kFlagAckMessageCounterIsValid c = true → v = true)) w.
Proof.
  intros Hc Hr Hp. unfold SendStandaloneAckMessage. apply wp_bind. unfold wp at 1, layer. destruct (NewBuffer (mSessionLayer w)) as [nb d] eqn:En.
  set (w0 := w <| mSessionLayer := d |>). apply wp_verify; [intros ->|intros ->].
  2: { exists false. split; [unfold acked; by rewrite insert_same|done]. }
  assert (mContextPool w0 !! i = Some c) as Hc0 by done. apply wp_bind, wp_attempt.
  eapply (wp_mono _ (fun _ w' => ∃ v, only_pool (<[i := acked v c]> (mContextPool w)) w w' ∧ (answerable c → kFlagAckMessageCounterIsValid c = true → v = true))).
  - unfold with_ref. pose (c1 := c <| mRefCount ::= Z.add 1 |>). pose (w1 := w0 <| mContextPool ::= insert i c1 |>).
    assert (Retain i w0 = Some (inr tt, w1)) as ER.
    { unfold Retain. erewrite bind_ok by (unfold exchange; by rewrite Hc0). cbn [fst snd id]. rewrite (proj2 (Z.ltb_lt _ _)) by done.
      unfold die_unless. erewrite bind_ok by done. cbn [fst snd id]. unfold set_exchange, modify. by rewrite (set_pool_alter _ _ _ _ Hc0). }
    unfold wp at 1. rewrite (bind_ok _ _ _ _ _ ER). apply wp_bind, wp_attempt.
    eapply wp_mono; [eapply (send_ack_effect i c1); [apply lookup_insert_eq|unfold c1; cbn [update mRefCount]; lia|exact Hp]|].
    intros r w2 (v & (Ep & E2 & E3 & E4 & E5) & Hv). apply wp_bind. unfold wp at 1. rewrite Release_eq. unfold release_pool. rewrite Ep, lookup_insert_eq.
    cbn [mbind option_bind]. assert (mRefCount (acked v c1) = mRefCount c + 1) as En1 by (unfold c1; destruct v; cbn [acked update mRefCount]; lia).
    rewrite En1, (proj2 (Z.ltb_lt _ _)) by lia. destruct (Z.eqb_spec (mRefCount c + 1) 1); [lia|]. exists v. split; [|exact Hv].
    unfold only_pool. cbn [update mContextPool mRetransTable mTimer mResponseTimers mClock]. split_and!; [|done..].
    rewrite insert_insert_eq. unfold w1. cbn [update mContextPool]. rewrite insert_insert_eq. f_equal. unfold c1.
    destruct v, c; cbn [acked update]; cbn; f_equal; lia.
  - intros [err|[]] w2 Hw2; [destruct (IsSendErrorNonCritical err)|]; destruct Hw2 as (v & Hv & Ha); exists v; (split; [done|]); auto.
Qed.

(** ** One exchange, one entry *)
Lemma execute_ack_effect t i c w : mContextPool w !! i = Some c → 0 < mRefCount c →
  MessagePermitted (mDispatch c) SecureChannel MsgType_StandaloneAck = true →
  wp (execute_ack t i) (fun r w' => r = inr tt ∧ ∃ v, only_pool (<[i := acked v c]> (mContextPool w)) w w'
    ∧ (kFlagAckPending c = true → mNextAckTime c ≤ t → (NewBuffer (mSessionLayer w)).1 = true → answerable c → kFlagAckMessageCounterIsValid c = true → v = true)) w.
Proof.
  intros Hc Hr Hp. unfold execute_ack. eapply wp_exchange; [done|]. destruct (kFlagAckPending c && (mNextAckTime c <=? t)) eqn:E.
  - apply wp_bind, wp_attempt. eapply wp_mono; [by apply SendStandaloneAckMessage_effect|]. intros r w' (v & Hv & Ha). split; [done|]. exists v. auto.
  - split; [done|]. exists false. split; [unfold acked; by rewrite insert_same|]. intros Hp' Ht. rewrite Hp', (proj2 (Z.leb_le _ _)) in E by done. done.
Qed.

(** Nothing new is to be done. *)
Record fewer w w' : Prop := {
  fewer_acks : ∀ j c', mContextPool w' !! j = Some c' → ∃ c, mContextPool w !! j = Some c ∧ mSession c' = mSession c
    ∧ (kFlagAckPending c' = true → kFlagAckPending c = true);
  fewer_entries : ∀ k e', mRetransTable w' !! k = Some e' → ∃ e, mRetransTable w !! k = Some e ∧ sendCount e ≤ sendCount e';
  fewer_clock : mClock w' = mClock w }.
Lemma fewer_refl w : fewer w w.
Proof. constructor; [intros j c ?; by exists c|intros k e ?; by exists e|done]. Qed.
Lemma set_timer_fewer w : fewer w (set_timer w).
Proof. constructor; [intros j c ?; by exists c|intros k e ?; by exists e|done]. Qed.
Lemma fewer_trans w1 w2 w3 : fewer w1 w2 → fewer w2 w3 → fewer w1 w3.
Proof.
  intros [A1 B1 C1] [A2 B2 C2]. constructor; [| |congruence].
  - intros j c3 H3. destruct (A2 j c3 H3) as (c2 & H2 & ? & ?), (A1 j c2 H2) as (c1 & H1 & ? & ?). exists c1. split_and!; [done|congruence|auto].
  - intros k e3 H3. destruct (B2 k e3 H3) as (e2 & H2 & ?), (B1 k e2 H2) as (e1 & H1 & ?). exists e1. split; [done|lia].
Qed.
Lemma fewer_same w w' : same_state w w' → fewer w w'.
Proof. intros (E1 & E2 & E3 & E4 & E5). constructor; [rewrite E1; intros j c ?; by exists c|rewrite E2; intros k e ?; by exists e|done]. Qed.
Lemma fewer_acked v i c w w' : mContextPool w !! i = Some c → only_pool (<[i := acked v c]> (mContextPool w)) w w' → fewer w w'.
Proof.
  intros Hc (Ep & Et & _ & _ & Ec). constructor; [|rewrite Et; intros k e ?; by exists e|done]. intros j c' Hj. rewrite Ep in Hj.
  destruct (decide (j = i)) as [->|Hne]; [|rewrite lookup_insert_ne in Hj by done; by exists c'].
  rewrite lookup_insert_eq in Hj. injection Hj as <-. exists c. by destruct v.
Qed.
Lemma wp_and {A} (m : XM A) Q1 Q2 w : wp m Q1 w → wp m Q2 w → wp m (fun r w' => Q1 r w' ∧ Q2 r w') w.
Proof. unfold wp. destruct (m w) as [[r w']|]; auto. Qed.

Lemma release_pool_fewer i p p' : release_pool i p = Some p' → ∀ j c', p' !! j = Some c' → ∃ c, p !! j = Some c ∧ mSession c' = mSession c
  ∧ kFlagAckPending c' = kFlagAckPending c.
Proof.
  unfold release_pool. destruct (p !! i) as [c|] eqn:Hc; [|done]. cbn [mbind option_bind]. destruct (0 <? mRefCount c); [|done].
  destruct (mRefCount c =? 1); [destruct (kFlagClosed c); [|done]|]; intros [= <-] j c' Hj.
  - apply lookup_delete_Some in Hj as [_ Hj]. by exists c'.
  - destruct (decide (j = i)) as [->|Hne]; [rewrite lookup_insert_eq in Hj; injection Hj as <-; by exists c|].
    rewrite lookup_insert_ne in Hj by done. by exists c'.
Qed.
Lemma ReleaseEntry_fewer h x y z b k e w : Inv h x y z b w → mRetransTable w !! k = Some e → wp (ReleaseEntry k) (fun _ => fewer w) w.
Proof.
  intros HI He. eapply wp_mono; [eapply wp_and; [by eapply ReleaseEntry_ok|]|intros r w' [_ H]; exact H].
  destruct (entry_exchange _ _ _ _ _ (inv_entry _ _ _ _ _ _ HI k e He)) as (c & Hc & _ & _).
  pose proof (ReleaseEntry_ok _ _ _ _ _ _ _ _ HI He) as Hok. unfold ReleaseEntry, SetMessageNotAcked in *. revert Hok. unfold wp.
  erewrite bind_ok by (unfold entry; by rewrite He). cbn [fst snd id]. erewrite bind_ok by done. cbn [fst snd id]. rewrite (set_pool_alter _ _ _ _ Hc).
  set (c1 := c <| kFlagMessageNotAcked := false |>). set (w1 := w <| mContextPool ::= _ |>). unfold mbind, CM_bind. rewrite !Release_eq.
  destruct (release_pool (ec e) (mContextPool w1)) as [p|] eqn:Ep; [|done]. cbn [mbind option_bind]. intros _. constructor; [| |done].
  - intros j c' Hj. destruct (release_pool_fewer _ _ _ Ep j c' Hj) as (c2 & Hc2 & Es & Ea). destruct (decide (j = ec e)) as [->|Hne].
    + unfold w1 in Hc2. cbn [update mContextPool] in Hc2. rewrite lookup_insert_eq in Hc2. injection Hc2 as <-. exists c. split_and!; [done..|]. by rewrite Ea.
    + unfold w1 in Hc2. cbn [update mContextPool] in Hc2. rewrite lookup_insert_ne in Hc2 by done. exists c2. split_and!; [done..|]. by rewrite Ea.
  - intros k' e' Hk. cbn [update mRetransTable] in Hk. apply lookup_delete_Some in Hk as [_ Hk]. by exists e'.
Qed.
Lemma ClearRetransTable_entry_fewer h x y z b b' k e w : Inv h x y z b w → mRetransTable w !! k = Some e →
  wp (ClearRetransTable_entry k) (fun r w' => r = inr tt ∧ Inv h x y z b' w' ∧ mRetransTable w' = delete k (mRetransTable w) ∧ fewer w w') w.
Proof.
  intros HI He. eapply wp_mono; [eapply (wp_and _ _ (fun _ => fewer w)); [by eapply (ClearRetransTable_entry_ok _ _ _ _ _ b')|]|].
  - unfold ClearRetransTable_entry. apply wp_bind. eapply wp_mono; [eapply wp_and; [by eapply ReleaseEntry_ok|by eapply ReleaseEntry_fewer]|].
    intros r w' [[-> _] Hf]. exact (fewer_trans _ _ _ Hf (set_timer_fewer w')).
  - intros r w' [(? & ? & ?) ?]. done.
Qed.

Lemma SendFromRetransTable_ok h k e w : Inv h None None None false w → mRetransTable w !! k = Some e →
  wp (SendFromRetransTable k) (fun r w' => r = inr tt ∧ Inv h None None None false w' ∧ fewer w w' ∧
    (mRetransTable w' = mRetransTable w ∨ mRetransTable w' = delete k (mRetransTable w))) w.
Proof.
  intros HI He. destruct (inv_entry _ _ _ _ _ _ HI k e He) as [_ _ Hb (c & Hc & _ & Hs)].
  destruct (Hb ltac:(done)) as [n Hn], (Hs ltac:(done)) as [s Hs']. unfold SendFromRetransTable. eapply wp_entry; [done|]. eapply wp_exchange; [done|].
  rewrite Hs', Hn. apply wp_bind. unfold wp at 1, layer. destruct (SendPreparedMessage s n (mSessionLayer w)) as [err d].
  set (w0 := w <| mSessionLayer := d |>). apply wp_bind. unfold wp at 1, note_event, modify.
  set (w1 := w0 <| mLog ::= _ |>). assert (Inv h None None None false w1) as HI1 by (by eapply inv_same; [..|exact HI]).
  assert (fewer w w1) as Hf by (by apply fewer_same). destruct (is_no_error (MapSendError err)); [split_and!; [done..|by left]|].
  eapply wp_mono; [by eapply (ClearRetransTable_entry_fewer _ _ _ _ _ false)|]. intros r w2 (-> & HI2 & Et & Hf2).
  split_and!; [done..|by eapply fewer_trans|by right].
Qed.

(** An entry that is due is sent once more, or given up. *)
Definition moved_on (t : Z) (k : nat) e w' : Prop :=
  nextRetransTime e ≤ t → ∀ e', mRetransTable w' !! k = Some e' → sendCount e < sendCount e'.
Definition entry_step h t k e w (r : CHIP_ERROR + unit) w' : Prop :=
  r = inr tt ∧ Inv h None None None false w' ∧ fewer w w' ∧ (∀ j, j ≠ k → mRetransTable w' !! j = mRetransTable w !! j) ∧ moved_on t k e w'.

(** The entry counts one more transmission and gets its next time. *)
Lemma retry_ok h t k e w : Inv h None None None false w → mRetransTable w !! k = Some e → sendCount e < CHIP_CONFIG_RMP_DEFAULT_MAX_RETRANS →
  wp (set_entry k (fun e => e <| sendCount ::= fun n => u8 (n + 1) |>);;
      next ← backoff_from_now e (u8 (sendCount e + 1));
      set_entry k (fun e => e <| nextRetransTime := next |>);;
      SendFromRetransTable k) (entry_step h t k e w) w.
Proof.
  intros HI He Hn. destruct (inv_entry _ _ _ _ _ _ HI k e He) as [_ Hcount Hb (c & Hc & _ & Hs)]. destruct (Hs ltac:(done)) as [s Hs'].
  unfold CHIP_CONFIG_RMP_DEFAULT_MAX_RETRANS in Hn. eapply wp_set_entry; [done|]. set (e1 := e <| sendCount ::= _ |>).
  assert (sendCount e1 = sendCount e + 1) as E1 by (unfold e1; cbn [update sendCount]; apply wrap_small; ulia).
  assert (Inv h None None None false (w <| mRetransTable ::= insert k e1 |>)) as HI1.
  { eapply inv_set_entry; [done|done|done|rewrite E1; unfold CHIP_CONFIG_RMP_DEFAULT_MAX_RETRANS; lia|exact Hb|done]. }
  set (w1 := w <| mRetransTable ::= insert k e1 |>) in *. assert (mRetransTable w1 !! k = Some e1) as He1 by apply lookup_insert_eq.
  apply wp_bind. eapply wp_mono; [eapply (backoff_ok e _ _ c s); done|]. intros r w2 (next & -> & Hsame).
  assert (Inv h None None None false w2) as HI2 by (destruct Hsame as (A1 & A2 & A3 & A4 & A5); by eapply inv_same; [..|exact HI1]).
  destruct Hsame as (Ep & Et & _ & _ & Ec). rewrite <- Et in He1. eapply wp_set_entry; [done|]. set (e2 := e1 <| nextRetransTime := next |>).
  set (w3 := w2 <| mRetransTable ::= insert k e2 |>). assert (mRetransTable w3 !! k = Some e2) as He3 by apply lookup_insert_eq.
  assert (∀ j, j ≠ k → mRetransTable w3 !! j = mRetransTable w !! j) as Hoff.
  { intros j Hj. unfold w3. cbn [update mRetransTable]. rewrite lookup_insert_ne by done. rewrite Et. by apply lookup_insert_ne. }
  assert (Inv h None None None false w3) as HI3.
  { eapply inv_set_entry; [exact HI2|exact He1|done|change (sendCount e2) with (sendCount e1); rewrite E1; unfold CHIP_CONFIG_RMP_DEFAULT_MAX_RETRANS; lia|exact Hb|done]. }
  assert (fewer w w3) as Hf.
  { constructor; [unfold w3; cbn [update mContextPool]; rewrite Ep; intros j c' ?; by exists c'| |exact Ec].
    intros j e' Hj. destruct (decide (j = k)) as [->|Hne]; [|rewrite Hoff in Hj by done; by exists e']. rewrite He3 in Hj. injection Hj as <-.
    exists e. split; [done|]. change (sendCount e2) with (sendCount e1). lia. }
  eapply wp_mono; [by eapply SendFromRetransTable_ok|]. intros r w4 (-> & HI4 & Hf4 & Ht4). unfold entry_step. split_and!; [done|done|by eapply fewer_trans| |].
  - intros j Hj. rewrite <- (Hoff j Hj). destruct Ht4 as [->| ->]; [done|]. by apply lookup_delete_ne.
  - intros _ e' He'. destruct Ht4 as [E4|E4]; rewrite E4 in He'; [|by rewrite lookup_delete_eq in He'].
    rewrite He3 in He'. injection He' as <-. change (sendCount e2) with (sendCount e1). lia.
Qed.

Lemma execute_entry_ok h t k e w : Inv h None None None false w → mRetransTable w !! k = Some e → wp (execute_entry t k) (entry_step h t k e w) w.
Proof.
  intros HI He. destruct (inv_entry _ _ _ _ _ _ HI k e He) as [_ Hcount Hb (c & Hc & _ & Hs)]. destruct (Hs ltac:(done)) as [s Hs'], (Hb ltac:(done)) as [n Hn].
  unfold execute_entry. eapply wp_entry; [done|]. destruct (Z.ltb_spec t (nextRetransTime e)) as [Hlt|Hle].
  { split_and!; [done|done|apply fewer_refl|done|]. intros Ht. lia. }
  apply wp_die_unless; [by rewrite Hn|]. destruct (Z.eqb_spec (sendCount e) CHIP_CONFIG_RMP_DEFAULT_MAX_RETRANS) as [E|Hne].
  - eapply wp_exchange; [done|]. unfold GetSessionHandle. rewrite Hs'. unfold wp at 1. erewrite bind_ok by done. cbn [fst snd id].
    set (m := ReleaseEntry k). change (wp ((if negb (kFlagResponseExpected c) then MarkAsDefunct_CASE s;; note_event (SessionHang s) else mret tt) ≫= fun _ => m)
      (entry_step h t k e w) w).
    assert (∀ w', same_state w w' → wp m (entry_step h t k e w) w') as Hend.
    { intros w' Hsame. assert (Inv h None None None false w') as HI' by (destruct Hsame as (A1 & A2 & A3 & A4 & A5); by eapply inv_same; [..|exact HI]).
      pose proof (fewer_same _ _ Hsame) as Hf. destruct Hsame as (_ & Et & _). rewrite <- Et in He.
      eapply wp_mono; [eapply (wp_and _ _ (fun _ => fewer w')); [by eapply ReleaseEntry_ok|by eapply ReleaseEntry_fewer]|].
      intros r w2 [(-> & HI2 & Et2) Hf2]. split_and!; [done|done|by eapply fewer_trans| |].
      - intros j Hj. rewrite Et2, <- Et. by apply lookup_delete_ne.
      - intros _ e' He'. rewrite Et2, lookup_delete_eq in He'. done. }
    destruct (negb (kFlagResponseExpected c)); [|by apply Hend]. pose proof (wp_hang h None None None false c (fun _ => m) (entry_step h t k e w) w HI) as Hh.
    rewrite Hs' in Hh. apply Hh. intros w' Hsame _. by apply Hend.
  - apply retry_ok; [done..|lia].
Qed.

(** ** The loops *)
Lemma for_each_ok {A} (P : list nat → World → Prop) (f : nat → XM A) slots w :
  (∀ i rest w, P (i :: rest) w → wp (f i) (fun r w' => (∃ a, r = inr a) ∧ P rest w') w) → P slots w →
  wp (for_each slots f) (fun r w' => r = inr tt ∧ P [] w') w.
Proof.
  intros Hf. revert w. induction slots as [|i slots IH]; intros w HP; [done|]. cbn [for_each]. apply wp_bind.
  eapply wp_mono; [by apply Hf|]. intros r w' [[a ->] HP']. by apply IH.
Qed.

Definition due_ack (t : Z) c : Prop := kFlagAckPending c = true ∧ mNextAckTime c ≤ t ∧ answerable c.
Definition ack_loop h t w0 (rest : list nat) w : Prop :=
  Inv h None None None false w ∧ NoDup rest ∧ fewer w0 w ∧ mRetransTable w = mRetransTable w0
  ∧ (∀ j, j ∈ rest → is_Some (mContextPool w0 !! j) ∧ mContextPool w !! j = mContextPool w0 !! j)
  ∧ ((∀ d, (NewBuffer d).1 = true) → ∀ j c, j ∉ rest → mContextPool w0 !! j = Some c → due_ack t c →
       ∃ c', mContextPool w !! j = Some c' ∧ kFlagAckPending c' = false).
Lemma ack_loop_step h t w0 i rest w : ack_loop h t w0 (i :: rest) w →
  wp (execute_ack t i) (fun r w' => (∃ a, r = inr a) ∧ ack_loop h t w0 rest w') w.
Proof.
  intros (HI & [Hi Hrest]%NoDup_cons & Hf & Et & Hpool & Hdone). destruct (Hpool i ltac:(by left)) as [[c Hc] Ei]. rewrite Hc in Ei.
  destruct (inv_exchange _ _ _ _ _ _ HI i c Ei) as [? ? ? ? ? Hperm Hvalid ? ? ?].
  eapply wp_mono; [eapply execute_ack_effect; [done|lia|done]|]. intros r w' (-> & v & Hp & Hv). split; [by eexists|].
  pose proof Hp as (Ep & Et' & Em & Er & Ec). unfold ack_loop. split_and!; [|done| | | |].
  - eapply inv_same; [| | | | |eapply (inv_same_core _ _ _ _ _ _ i c (acked v c)); [exact HI|exact Ei|by destruct v|by left; destruct v|by destruct v|done]].
    all: cbn [update mContextPool mRetransTable mTimer mResponseTimers mClock]; done.
  - eapply fewer_trans; [exact Hf|by eapply fewer_acked].
  - by rewrite Et'.
  - intros j Hj. destruct (Hpool j ltac:(by right)) as [? E]. split; [done|]. rewrite Ep, lookup_insert_ne; [done|]. by intros ->.
  - intros Hnb j c0 Hj Hc0 (Ha & Ht & Hans). destruct (decide (j = i)) as [->|Hne].
    + replace c0 with c in * by congruence. exists (acked v c). rewrite Ep, lookup_insert_eq. split; [done|].
      rewrite Hv; [done|done|done|apply Hnb|done|by apply Hvalid].
    + destruct (Hdone Hnb j c0) as (c' & Hc' & Hc''); [set_solver|done|done|]. exists c'. by rewrite Ep, lookup_insert_ne.
Qed.

Definition entry_loop h t w0 (rest : list nat) w : Prop :=
  Inv h None None None false w ∧ NoDup rest ∧ fewer w0 w
  ∧ (∀ k, k ∈ rest → is_Some (mRetransTable w0 !! k) ∧ mRetransTable w !! k = mRetransTable w0 !! k)
  ∧ (∀ k e, k ∉ rest → mRetransTable w0 !! k = Some e → moved_on t k e w).
Lemma entry_loop_step h t w0 k rest w : entry_loop h t w0 (k :: rest) w →
  wp (execute_entry t k) (fun r w' => (∃ a, r = inr a) ∧ entry_loop h t w0 rest w') w.
Proof.
  intros (HI & [Hk Hrest]%NoDup_cons & Hf & Htable & Hdone). destruct (Htable k ltac:(by left)) as [[e He] Ek]. rewrite He in Ek.
  eapply wp_mono; [by apply execute_entry_ok|]. intros r w' (-> & HI' & Hf' & Hoff & Hmoved). split; [by eexists|].
  split_and!; [done|done|by eapply fewer_trans| |].
  - intros j Hj. destruct (Htable j ltac:(by right)) as [? E]. split; [done|]. rewrite Hoff; [done|]. by intros ->.
  - intros j e0 Hj He0. destruct (decide (j = k)) as [->|Hne]; [by replace e0 with e in * by congruence|].
    intros Ht e' He'. rewrite Hoff in He' by done. apply (Hdone j e0); [set_solver|done..].
Qed.

(** ** One turn of the timer *)
Definition turn h w w' : Prop :=
  Inv h None None None false w' ∧ fewer w w' ∧ (∀ k e, mRetransTable w !! k = Some e → moved_on (mClock w) k e w')
  ∧ ((∀ d, (NewBuffer d).1 = true) → ∀ j c c', mContextPool w !! j = Some c → due_ack (mClock w) c → mContextPool w' !! j = Some c' → kFlagAckPending c' = false).

Lemma ExecuteActions_ok h w : Inv h None None None false w → wp ExecuteActions (fun r w' => r = inr tt ∧ turn h w w') w.
Proof.
  intros HI. unfold ExecuteActions, now, all_exchanges. apply wp_gets, wp_gets. set (slots := filter _ _). set (t := mClock w).
  assert (∀ j c, mContextPool w !! j = Some c → j ∈ slots) as Hall.
  { intros j c Hj. apply list_elem_of_filter. split; [by eexists|]. apply elem_of_seq. pose proof (exchange_slot _ _ _ _ _ _ (inv_exchange _ _ _ _ _ _ HI j c Hj)). lia. }
  apply wp_bind. eapply wp_mono.
  { apply (for_each_ok (ack_loop h t w)); [apply ack_loop_step|]. split_and!; [done|apply NoDup_filter, NoDup_seq|apply fewer_refl|done| |].
    - intros j Hj. by apply list_elem_of_filter in Hj as [? _].
    - intros _ j c Hj Hc. by apply Hall in Hc. }
  intros r w1 (-> & HI1 & _ & Hf1 & Et1 & _ & Hacks). unfold all_entries. apply wp_gets. set (entries := filter _ _).
  assert (∀ k e, mRetransTable w1 !! k = Some e → k ∈ entries) as Hall2.
  { intros k e Hk. apply list_elem_of_filter. split; [by eexists|]. apply elem_of_seq. pose proof (entry_slot _ _ _ _ _ (inv_entry _ _ _ _ _ _ HI1 k e Hk)). lia. }
  eapply wp_mono.
  { apply (for_each_ok (entry_loop h t w1)); [apply entry_loop_step|]. split_and!; [done|apply NoDup_filter, NoDup_seq|apply fewer_refl| |].
    - intros k Hk. by apply list_elem_of_filter in Hk as [? _].
    - intros k e Hk He. by apply Hall2 in He. }
  intros r w2 (-> & HI2 & _ & Hf2 & _ & Hmoved). split; [done|]. split_and!; [done|by eapply fewer_trans| |].
  - intros k e He. rewrite <- Et1 in He. apply Hmoved; [apply not_elem_of_nil|done].
  - intros Hnb j c c' Hc Hdue Hc'. destruct (Hacks Hnb j c ltac:(apply not_elem_of_nil) Hc Hdue) as (c1 & Hc1 & Hp).
    destruct (fewer_acks _ _ Hf2 j c' Hc') as (c1' & Hc1' & _ & Ha). replace c1' with c1 in * by congruence.
    destruct (kFlagAckPending c'); [|done]. rewrite Ha in Hp by done. done.
Qed.
Lemma Timeout_ok h b w : Inv h None None None b w →
  wp Timeout (fun r w' => r = inr tt ∧ ∃ w2, turn h w w2 ∧ w' = set_timer w2 ∧ Inv h None None None true w') w.
Proof.
  intros HI. unfold Timeout. apply wp_bind. eapply wp_mono; [by eapply ExecuteActions_ok, inv_behind|]. intros r w2 [-> Ht].
  unfold wp. rewrite StartTimer_eq. split; [done|]. exists w2. split_and!; [done..|]. destruct Ht as [HI2 _]. by eapply inv_set_timer.
Qed.

(** ** What is left to do *)
Definition retries_left w (k : nat) : Z := match mRetransTable w !! k with Some e => CHIP_CONFIG_RMP_DEFAULT_MAX_RETRANS + 1 - sendCount e | None => 0 end.
Definition acks_left w (i : nat) : Z := match mContextPool w !! i with Some c => if kFlagAckPending c then 1 else 0 | None => 0 end.
Definition work_left w : Z :=
  sum_by (retries_left w) (seq 0 CHIP_CONFIG_RMP_RETRANS_TABLE_SIZE) + sum_by (acks_left w) (seq 0 CHIP_CONFIG_MAX_EXCHANGE_CONTEXTS).

Lemma sum_by_mono (f g : nat → Z) l : (∀ i, f i ≤ g i) → sum_by f l ≤ sum_by g l.
Proof. intros H. induction l as [|i l IH]; [done|]. cbn [sum_by foldr]. specialize (H i). unfold sum_by in IH. lia. Qed.
Lemma sum_by_strict (f g : nat → Z) l i : (∀ i, f i ≤ g i) → i ∈ l → f i < g i → sum_by f l < sum_by g l.
Proof.
  intros H Hi Hlt. induction l as [|j l IH]; [by apply elem_of_nil in Hi|]. cbn [sum_by foldr]. pose proof (H j) as Hj.
  apply elem_of_cons in Hi as [->|Hi].
  - pose proof (sum_by_mono f g l H). unfold sum_by in *. lia.
  - specialize (IH Hi). unfold sum_by in IH. lia.
Qed.

Lemma sum_by_bounds (f : nat → Z) m l : (∀ i, 0 ≤ f i ≤ m) → 0 ≤ sum_by f l ≤ m * Z.of_nat (length l).
Proof. intros H. induction l as [|i l IH]; cbn [sum_by foldr length]; [lia|]. specialize (H i). unfold sum_by in IH. lia. Qed.

Lemma retries_left_mono h b w w' k : Inv h None None None b w → fewer w w' → retries_left w' k ≤ retries_left w k.
Proof.
  intros HI Hf. unfold retries_left. destruct (mRetransTable w' !! k) as [e'|] eqn:E'.
  - destruct (fewer_entries _ _ Hf k e' E') as (e & -> & ?). lia.
  - destruct (mRetransTable w !! k) as [e|] eqn:E; [|done]. pose proof (entry_count _ _ _ _ _ (inv_entry _ _ _ _ _ _ HI k e E)). lia.
Qed.
Lemma acks_left_mono w w' i : fewer w w' → acks_left w' i ≤ acks_left w i.
Proof.
  intros Hf. unfold acks_left. destruct (mContextPool w' !! i) as [c'|] eqn:E'; [|destruct (mContextPool w !! i) as [c|]; [destruct (kFlagAckPending c)|]; lia].
  destruct (fewer_acks _ _ Hf i c' E') as (c & -> & _ & Ha). destruct (kFlagAckPending c'); [rewrite Ha by done; lia|destruct (kFlagAckPending c); lia].
Qed.
Lemma work_left_mono h b w w' : Inv h None None None b w → fewer w w' → work_left w' ≤ work_left w.
Proof.
  intros HI Hf. unfold work_left. pose proof (sum_by_mono _ _ (seq 0 CHIP_CONFIG_RMP_RETRANS_TABLE_SIZE) (fun k => retries_left_mono h b w w' k HI Hf)).
  pose proof (sum_by_mono _ _ (seq 0 CHIP_CONFIG_MAX_EXCHANGE_CONTEXTS) (fun i => acks_left_mono w w' i Hf)). lia.
Qed.
Lemma work_left_bounds h b w : Inv h None None None b w → 0 ≤ work_left w ≤ 48.
Proof.
  intros HI. assert (∀ k, 0 ≤ retries_left w k ≤ 5) as H1.
  { intros k. unfold retries_left. destruct (mRetransTable w !! k) as [e|] eqn:E; [|lia].
    pose proof (entry_count _ _ _ _ _ (inv_entry _ _ _ _ _ _ HI k e E)). unfold CHIP_CONFIG_RMP_DEFAULT_MAX_RETRANS in *. lia. }
  assert (∀ i, 0 ≤ acks_left w i ≤ 1) as H2 by (intros i; unfold acks_left; destruct (mContextPool w !! i) as [c|]; [destruct (kFlagAckPending c)|]; lia).
  unfold work_left. pose proof (sum_by_bounds _ 5 (seq 0 CHIP_CONFIG_RMP_RETRANS_TABLE_SIZE) H1). pose proof (sum_by_bounds _ 1 (seq 0 CHIP_CONFIG_MAX_EXCHANGE_CONTEXTS) H2).
  rewrite !length_seq in *. unfold CHIP_CONFIG_RMP_RETRANS_TABLE_SIZE, CHIP_CONFIG_MAX_EXCHANGE_CONTEXTS in *. lia.
Qed.

(** ** The timer, fired until it stops *)
(** The clock reaches the time of the timer, which fires. *)
Definition fire w : option World :=
  match mTimer w with
  | None => Some w
  | Some tm => match Timeout (w <| mClock := Z.max (mClock w) tm |>) with Some (_, w') => Some w' | None => None end
  end.
Definition wake_is_exact w : Prop := mTimer w = match next_wake w with Some t => Some (Z.max t (mClock w)) | None => None end.
Definition all_answerable w : Prop := ∀ i c, mContextPool w !! i = Some c → kFlagAckPending c = true → answerable c.

Lemma earlier_in l n : foldr earlier None l = Some n → n ∈ l.
Proof.
  revert n. induction l as [|t l IH]; intros n Hn; [done|]. cbn [foldr] in Hn. unfold earlier in Hn at 1.
  destruct (foldr earlier None l) as [m|]; [|injection Hn as <-; by left]. injection Hn as <-. case_match; [by left|right; by apply IH].
Qed.
Lemma inv_later h x y z b w t : Inv h x y z b w → mClock w ≤ t → Inv h x y z b (w <| mClock := t |>).
Proof.
  intros [H1 H2 H3 H4 H5 H6] Ht. constructor; try done.
  - intros k e He. by destruct (H1 k e He).
  - intros i c Hc. by destruct (H2 i c Hc).
  - intros Hb. destruct (H6 Hb) as [Ha He]. constructor.
    + intros i c Hc Hp. destruct (Ha i c Hc Hp) as (tm & ? & ?). exists tm. cbn [update mTimer mClock]. split; [done|lia].
    + intros k e Hk. destruct (He k e Hk) as (tm & ? & ?). exists tm. cbn [update mTimer mClock]. split; [done|lia].
Qed.

Lemma fewer_answerable w w' : all_answerable w → fewer w w' → all_answerable w'.
Proof. intros Ha Hf i c' Hc Hp. destruct (fewer_acks _ _ Hf i c' Hc) as (c & Hc0 & Es & Hp0). destruct (Ha i c Hc0 (Hp0 Hp)) as (s & ? & ?). exists s. by rewrite Es. Qed.

(** What is due goes. *)
Lemma turn_lighter h b w w' : Inv h None None None b w → turn h w w' → (∀ d, (NewBuffer d).1 = true) → all_answerable w →
  (∃ t, t ≤ mClock w ∧ t ∈ ack_times w ++ retrans_times w) → work_left w' < work_left w.
Proof.
  intros HI (HI' & Hf & Hentries & Hacks) Hnb Hans (t & Ht & Hin). unfold work_left.
  pose proof (fun k => retries_left_mono h b w w' k HI Hf) as Hr. pose proof (fun i => acks_left_mono w w' i Hf) as Ha.
  pose proof (sum_by_mono _ _ (seq 0 CHIP_CONFIG_RMP_RETRANS_TABLE_SIZE) Hr). pose proof (sum_by_mono _ _ (seq 0 CHIP_CONFIG_MAX_EXCHANGE_CONTEXTS) Ha).
  apply elem_of_app in Hin as [Hin|Hin].
  - apply ack_times_spec in Hin as (i & c & Hc & Hp & <-). pose proof (exchange_slot _ _ _ _ _ _ (inv_exchange _ _ _ _ _ _ HI i c Hc)).
    assert (acks_left w' i < acks_left w i) as Hlt.
    { unfold acks_left. rewrite Hc, Hp. destruct (mContextPool w' !! i) as [c'|] eqn:E; [|lia].
      rewrite (Hacks Hnb i c c' Hc ltac:(split_and!; [done|done|by eapply Hans]) E). lia. }
    pose proof (sum_by_strict _ _ (seq 0 CHIP_CONFIG_MAX_EXCHANGE_CONTEXTS) i Ha ltac:(apply elem_of_seq; lia) Hlt). lia.
  - apply retrans_times_spec in Hin as (k & e & He & <-). pose proof (inv_entry _ _ _ _ _ _ HI k e He) as [Hslot Hcount _ _].
    assert (retries_left w' k < retries_left w k) as Hlt.
    { unfold retries_left. rewrite He. destruct (mRetransTable w' !! k) as [e'|] eqn:E; [specialize (Hentries k e He Ht e' E); lia|lia]. }
    pose proof (sum_by_strict _ _ (seq 0 CHIP_CONFIG_RMP_RETRANS_TABLE_SIZE) k Hr ltac:(apply elem_of_seq; lia) Hlt). lia.
Qed.

Lemma fire_step h w : Inv h None None None true w → (∀ d, (NewBuffer d).1 = true) → all_answerable w →
  ∃ w', fire w = Some w' ∧ Inv h None None None true w' ∧ all_answerable w'
    ∧ (mTimer w = None ∧ w' = w ∨ wake_is_exact w' ∧ work_left w' ≤ work_left w ∧ (wake_is_exact w → work_left w' < work_left w)).
Proof.
  intros HI Hnb Hans. unfold fire. destruct (mTimer w) as [tm|] eqn:Em; [|exists w; split_and!; [done..|by left]].
  set (w1 := w <| mClock := Z.max (mClock w) tm |>). assert (Inv h None None None true w1) as HI1 by (apply inv_later; [done|lia]).
  pose proof (Timeout_ok h true w1 HI1) as HT. apply wp_run in HT as (r & w' & E & -> & w2 & Hturn & -> & HI').
  rewrite E. exists (set_timer w2). pose proof Hturn as (_ & Hf & _). assert (all_answerable (set_timer w2)) as Hans2 by (apply (fewer_answerable w1); [exact Hans|exact (fewer_trans _ _ _ Hf (set_timer_fewer w2))]). split_and!; [done..|]. right.
  assert (work_left (set_timer w2) = work_left w2) as -> by done. assert (work_left w1 = work_left w) as <- by done.
  split_and!; [done|by eapply work_left_mono|]. intros Hexact. eapply turn_lighter; [done..|].
  unfold wake_is_exact in Hexact. rewrite Em in Hexact. unfold next_wake in Hexact.
  destruct (foldr earlier None _) as [t|] eqn:En; [|done]. injection Hexact as ->. apply earlier_in in En. exists t. split; [|exact En].
  unfold w1. cbn [update mClock]. lia.
Qed.

Lemma fire_idle n w : mTimer w = None → Nat.iter n (fun o => o ≫= fire) (Some w) = Some w.
Proof. intros E. induction n as [|n IH]; [done|]. cbn [Nat.iter nat_rect]. unfold Nat.iter in IH. rewrite IH. cbn [mbind option_bind]. unfold fire. by rewrite E. Qed.
Lemma fire_many h n w : Inv h None None None true w → (∀ d, (NewBuffer d).1 = true) → all_answerable w → wake_is_exact w → work_left w ≤ Z.of_nat n →
  ∃ w', Nat.iter n (fun o => o ≫= fire) (Some w) = Some w' ∧ Inv h None None None true w' ∧ mTimer w' = None.
Proof.
  intros HI Hnb. revert w HI. induction n as [|n IH]; intros w HI Hans Hexact Hload; destruct (fire_step h w HI Hnb Hans) as (w1 & E & HI1 & Hans1 & H1).
  - destruct H1 as [[Em _]|(_ & _ & Hlt)]; [by exists w|]. specialize (Hlt Hexact). pose proof (work_left_bounds _ _ _ HI1). lia.
  - destruct H1 as [[Em _]|(Hexact1 & _ & Hlt)]; [exists w; by rewrite fire_idle|]. specialize (Hlt Hexact).
    rewrite Nat.iter_succ_r. cbn [mbind option_bind]. rewrite E. apply IH; [done..|lia].
Qed.
End timer.
