(* ===== verification/ExchangeMgr.v ===== *)
(** * ExchangeMgr: which exchange gets a message

    [src/src/messaging/ExchangeMgr.cpp]: the table of handlers for unsolicited messages,
    the exchange a message belongs to, new exchanges, and the exchange that is only made to
    acknowledge a message nobody wants.  [CloseAllContextsForDelegate] compares delegates,
    which are not told apart here, and is left out. *)
From S2P Require Import Prelude ChipError MessageHeader StateError ReliableMessage.

Definition CHIP_CONFIG_MAX_UNSOLICITED_MESSAGE_HANDLERS : nat := 8.
Definition kAnyMessageType : Z := -1.
#[export] Instance ProtocolId_eq_dec : EqDecision ProtocolId.
Proof. solve_decision. Defined.

(** A handler is a number. *)
Record UnsolicitedMessageHandlerSlot := { umProtocolId : ProtocolId; umMessageType : Z; umHandler : option nat }.
#[export] Instance eta_slot : Eta UnsolicitedMessageHandlerSlot := fun s =>
  {| umProtocolId := umProtocolId s; umMessageType := umMessageType s; umHandler := umHandler s |}.
Definition IsInUse (s : UnsolicitedMessageHandlerSlot) : bool := match umHandler s with Some _ => true | None => false end.
Definition Matches (aProtocolId : ProtocolId) (aMessageType : Z) (s : UnsolicitedMessageHandlerSlot) : bool :=
  bool_decide (umProtocolId s = aProtocolId) && (umMessageType s =? aMessageType).
Definition ResetSlot (s : UnsolicitedMessageHandlerSlot) : UnsolicitedMessageHandlerSlot := s <| umHandler := None |>.

Record ExchangeManager (D : Type) :=
  { mNextExchangeId : Z; mInitialized : bool; UMHandlerPool : list UnsolicitedMessageHandlerSlot; mExchanges : Exchanges D }.
Arguments mNextExchangeId {D}. Arguments mInitialized {D}. Arguments UMHandlerPool {D}. Arguments mExchanges {D}.
#[export] Instance eta_manager D : Eta (ExchangeManager D) := fun g =>
  {| mNextExchangeId := mNextExchangeId g; mInitialized := mInitialized g; UMHandlerPool := UMHandlerPool g; mExchanges := mExchanges g |}.

(** ** The handlers *)
(** The loop of [RegisterUMH]: the slot that matches, or the first that is free *)
Fixpoint select_slot (protocolId : ProtocolId) (msgType : Z) (i : nat) (selected : option nat) (pool : list UnsolicitedMessageHandlerSlot) : option nat :=
  match pool with
  | [] => selected
  | s :: pool =>
      if negb (IsInUse s) then select_slot protocolId msgType (S i) (match selected with None => Some i | Some _ => selected end) pool
      else if Matches protocolId msgType s then Some i
      else select_slot protocolId msgType (S i) selected pool
  end.
Fixpoint used_slot (protocolId : ProtocolId) (msgType : Z) (i : nat) (pool : list UnsolicitedMessageHandlerSlot) : option nat :=
  match pool with
  | [] => None
  | s :: pool => if IsInUse s && Matches protocolId msgType s then Some i else used_slot protocolId msgType (S i) pool
  end.
(** The search of [OnMessageReceived]: the handler of the type, or the last for any type *)
Fixpoint matching_handler (header : PayloadHeader) (matchingUMH : option nat) (pool : list UnsolicitedMessageHandlerSlot) : option nat :=
  match pool with
  | [] => matchingUMH
  | s :: pool =>
      if IsInUse s && bool_decide (mProtocolID header = umProtocolId s) then
        if umMessageType s =? mMessageType header then umHandler s
        else matching_handler header (if umMessageType s =? kAnyMessageType then umHandler s else matchingUMH) pool
      else matching_handler header matchingUMH pool
  end.

(** The methods of the handlers; a delegate brings its dispatch. *)
Class UnsolicitedMessageHandlers : Type := {
  OnUnsolicitedMessageReceived : nat → PayloadHeader → CHIP_ERROR + option ExchangeMessageDispatch;
  delegates_answer : ∀ handler header dispatch, OnUnsolicitedMessageReceived handler header = inr (Some dispatch) →
    MessagePermitted dispatch SecureChannel MsgType_StandaloneAck = true ∧ is_Some (IsEncryptionRequired dispatch) }.

Section manager.
Context {D : Type} `{!SessionLayer D} `{!UnsolicitedMessageHandlers}.
#[local] Abbreviation GM := (CM (ExchangeManager D)).

Definition in_exchanges {A} (m : CM (Exchanges D) A) : GM A := fun g =>
  match m (mExchanges g) with Some (r, w) => Some (r, g <| mExchanges := w |>) | None => None end.

Definition RegisterUMH (protocolId : ProtocolId) (msgType : Z) (handler : nat) : GM unit :=
  pool ← gets UMHandlerPool;
  match select_slot protocolId msgType 0 None pool with
  | None => fail CHIP_ERROR_TOO_MANY_UNSOLICITED_MESSAGE_HANDLERS
  | Some i => modify (fun g => g <| UMHandlerPool ::= insert i {| umProtocolId := protocolId; umMessageType := msgType; umHandler := Some handler |} |>)
  end.
Definition UnregisterUMH (protocolId : ProtocolId) (msgType : Z) : GM unit :=
  pool ← gets UMHandlerPool;
  match used_slot protocolId msgType 0 pool with
  | None => fail CHIP_ERROR_NO_UNSOLICITED_MESSAGE_HANDLER
  | Some i => modify (fun g => g <| UMHandlerPool ::= alter ResetSlot i |>)
  end.
Definition RegisterUnsolicitedMessageHandlerForProtocol (protocolId : ProtocolId) (handler : nat) : GM unit := RegisterUMH protocolId kAnyMessageType handler.
Definition RegisterUnsolicitedMessageHandlerForType (protocolId : ProtocolId) (msgType : Z) (handler : nat) : GM unit := RegisterUMH protocolId msgType handler.
Definition UnregisterUnsolicitedMessageHandlerForProtocol (protocolId : ProtocolId) : GM unit := UnregisterUMH protocolId kAnyMessageType.
Definition UnregisterUnsolicitedMessageHandlerForType (protocolId : ProtocolId) (msgType : Z) : GM unit := UnregisterUMH protocolId msgType.

(** [random] is [GetRandU16()]. *)
Definition Init (random : Z) : GM unit :=
  initialized ← gets mInitialized;
  verify (negb initialized) CHIP_ERROR_INCORRECT_STATE;;
  modify (fun g => g <| mNextExchangeId := random |> <| UMHandlerPool ::= map ResetSlot |> <| mInitialized := true |>).
Definition Shutdown : GM unit :=
  initialized ← gets mInitialized;
  if initialized : bool then in_exchanges ReliableMessage.Shutdown;; modify (fun g => g <| mInitialized := false |>) else mret tt.

(** ** Exchanges *)
(** The result is the slot, or nothing. *)
Definition NewContext (session : nat) (delegate : option ExchangeMessageDispatch) (isInitiator : bool) : GM (option nat) :=
  active ← gets (fun g => IsActiveSession session (mSessionLayer (mExchanges g)));
  if active : bool then
    id ← gets mNextExchangeId;
    modify (fun g => g <| mNextExchangeId := u16 (id + 1) |>);;
    res ← attempt (in_exchanges (NewExchange id session isInitiator (match delegate with Some _ => true | None => false end) false
                                   (match delegate with Some dispatch => dispatch | None => ApplicationExchangeDispatch end)));
    mret (match res with inr i => Some i | inl _ => None end)
  else mret None.

(** [ExchangeContext::MatchExchange]; the conditions are tried in this order. *)
Definition MatchExchange (session : nat) (packetHeader : PacketHeader) (payloadHeader : PayloadHeader) (c : ExchangeContext) : option bool :=
  if (mExchangeId c =? mExchangeID payloadHeader) && bool_decide (mSession c = Some session) then
    match IsEncryptionRequired (mDispatch c) with
    | Some required => Some (eqb required (IsEncrypted packetHeader) && negb (eqb (IsInitiator payloadHeader) (kFlagInitiator c)))
    | None => None
    end
  else Some false.
Fixpoint first_match (session : nat) (packetHeader : PacketHeader) (payloadHeader : PayloadHeader) (slots : list nat) (w : Exchanges D) : option (option nat) :=
  match slots with
  | [] => Some None
  | i :: slots =>
      match mContextPool w !! i with
      | None => None
      | Some c =>
          match MatchExchange session packetHeader payloadHeader c with
          | None => None
          | Some true => Some (Some i)
          | Some false => first_match session packetHeader payloadHeader slots w
          end
      end
  end.
Definition find_exchange (session : nat) (packetHeader : PacketHeader) (payloadHeader : PayloadHeader) : CM (Exchanges D) (option nat) :=
  slots ← all_exchanges; lift (fun w => inr <$> first_match session packetHeader payloadHeader slots w).

Definition SendStandaloneAckIfNeeded (packetHeader : PacketHeader) (payloadHeader : PayloadHeader) (session : nat) (duplicate : bool) : CM (Exchanges D) unit :=
  if negb (NeedsAck payloadHeader) then mret tt
  else
    res ← attempt (NewExchange (mExchangeID payloadHeader) session (negb (IsInitiator payloadHeader)) false true ApplicationExchangeDispatch);
    match res with
    | inl _ => mret tt
    | inr i => attempt (HandleMessage i (mMessageCounter packetHeader) payloadHeader duplicate (mret tt));; mret tt
    end.

Definition encryption_required (i : nat) : CM (Exchanges D) bool :=
  c ← exchange i; match IsEncryptionRequired (mDispatch c) with Some required => mret required | None => stuck end.

(** The part of [OnMessageReceived] that makes an exchange for the handler *)
Definition deliver_unsolicited (handler : nat) (packetHeader : PacketHeader) (payloadHeader : PayloadHeader) (session : nat) (duplicate : bool)
    (OnMessageReceived : nat → CM (Exchanges D) unit) : CM (Exchanges D) unit :=
  match OnUnsolicitedMessageReceived handler payloadHeader with
  | inl _ => SendStandaloneAckIfNeeded packetHeader payloadHeader session duplicate
  | inr delegate =>
      res ← attempt (NewExchange (mExchangeID payloadHeader) session false (match delegate with Some _ => true | None => false end) false
                       (match delegate with Some dispatch => dispatch | None => ApplicationExchangeDispatch end));
      match res with
      | inl _ => match delegate with Some _ => note_event (ExchangeCreationFailed handler) | None => mret tt end
      | inr i =>
          required ← encryption_required i;
          if negb (eqb required (IsEncrypted packetHeader)) then
            Close i;; SendStandaloneAckIfNeeded packetHeader payloadHeader session duplicate
          else attempt (HandleMessage i (mMessageCounter packetHeader) payloadHeader duplicate (OnMessageReceived i));; mret tt
      end
  end.

(** [OnMessageReceived i] is the method of the delegate that the exchange [i] gets or has. *)
Definition OnMessageReceived (packetHeader : PacketHeader) (payloadHeader : PayloadHeader) (session : nat) (duplicate : bool)
    (OnMessageReceived : nat → CM (Exchanges D) unit) : GM unit :=
  found ← (if negb (MessageHeader.IsGroupSession packetHeader) then in_exchanges (find_exchange session packetHeader payloadHeader) else mret None);
  match found with
  | Some i => attempt (in_exchanges (HandleMessage i (mMessageCounter packetHeader) payloadHeader duplicate (OnMessageReceived i)));; mret tt
  | None =>
      active ← gets (fun g => IsActiveSession session (mSessionLayer (mExchanges g)));
      if negb active then mret tt
      else if negb duplicate && IsInitiator payloadHeader then
        pool ← gets UMHandlerPool;
        match matching_handler payloadHeader None pool with
        | Some handler => in_exchanges (deliver_unsolicited handler packetHeader payloadHeader session duplicate OnMessageReceived)
        | None => in_exchanges (SendStandaloneAckIfNeeded packetHeader payloadHeader session duplicate)
        end
      else if negb (NeedsAck payloadHeader) then mret tt
      else in_exchanges (SendStandaloneAckIfNeeded packetHeader payloadHeader session duplicate)
  end.
End manager.
