(* ===== verification/ExchangeMgrSafe.v ===== *)
(** * ExchangeMgrSafe: messages reach their exchange

    An exchange made only to acknowledge a message does not outlive the call, so that
    [MatchExchange] never asks it for its encryption, which dies; with that, handling any
    message keeps the exchanges sound. *)
From S2P Require Import Prelude ChipError MessageHeader StateError ReliableMessage ReliableMessageSafe ReliableMessageSteps ReliableMessageTimer ExchangeMgr.

Section manager_safe.
Context {D : Type} `{!SessionLayer D} `{!UnsolicitedMessageHandlers}.
#[local] Abbreviation World := (Exchanges D).
#[local] Abbreviation XM := (CM (Exchanges D)).
#[local] Abbreviation Lasting := (Inv (temporary := None)).
Implicit Types (w : World) (c : ExchangeContext) (e : RetransTableEntry) (h : nat → nat) (p : gmap nat ExchangeContext).

Definition nobody (i : nat) : nat := 0.

(** ** New exchanges *)
Lemma inv_some_temporary h x y z b i w : Lasting h x y z b w → Inv (temporary := Some i) h x y z b w.
Proof.
  intros [H1 H2 H3 H4 H5 H6]. constructor; try done. intros j c Hj. destruct (H2 j c Hj). constructor; auto.
Qed.
Lemma inv_no_temporary h x y z b i w : Inv (temporary := Some i) h x y z b w → mContextPool w !! i = None → Lasting h x y z b w.
Proof.
  intros [H1 H2 H3 H4 H5 H6] Hn. constructor; try done. intros j c Hj. destruct (H2 j c Hj) as [? ? ? ? ? ? ? Hl ? ?]. constructor; try done.
  intros _. apply Hl. intros [= ->]. congruence.
Qed.

Lemma inv_open {t : option nat} h x y z b i c w : Inv (temporary := t) h x y z b w → mContextPool w !! i = None →
  exchange_ok (temporary := t) w h y z i c → kFlagMessageNotAcked c = false → kFlagAckPending c = false →
  Inv (temporary := t) h x y z b (w <| mContextPool ::= insert i c |>).
Proof.
  intros [H1 H2 H3 H4 H5 H6] Hn Hok Hw Hp. assert (∀ j c0, mContextPool w !! j = Some c0 → <[i := c]> (mContextPool w) !! j = Some c0) as Hkeep.
  { intros j c0 Hj. rewrite lookup_insert_ne; [done|]. intros ->. congruence. }
  constructor; cbn [update mContextPool mRetransTable mResponseTimers]; try done.
  - intros k e He. destruct (H1 k e He) as [? ? ? (c0 & Hc0 & ? & ?)]. constructor; [done..|]. exists c0. split_and!; [by apply Hkeep|done..].
  - intros j c0 Hj. destruct (decide (j = i)) as [->|Hne]; [rewrite lookup_insert_eq in Hj; injection Hj as <-; by destruct Hok|].
    rewrite lookup_insert_ne in Hj by done. by destruct (H2 j c0 Hj).
  - intros j Hj. destruct (H4 j Hj) as [c0 Hc0]. exists c0. by apply Hkeep.
  - intros j t0 Ht. destruct (H5 j t0 Ht) as (c0 & Hc0 & ?). exists c0. split; [by apply Hkeep|done].
  - intros Hb. destruct (H6 Hb) as [Ha He]. constructor; [|done]. intros j c0 Hj Hp0. cbn [update mContextPool] in Hj.
    destruct (decide (j = i)) as [->|Hne]; [rewrite lookup_insert_eq in Hj; congruence|]. rewrite lookup_insert_ne in Hj by done. by apply (Ha j).
Qed.

(** A delegate's dispatch *)
Definition decent (dispatch : ExchangeMessageDispatch) : Prop :=
  MessagePermitted dispatch SecureChannel MsgType_StandaloneAck = true ∧ is_Some (IsEncryptionRequired dispatch).
Lemma NewExchange_value id s initiator delegate ephemeral dispatch w :
  wp (NewExchange id s initiator delegate ephemeral dispatch) (fun r w' => match r with
    | inl _ => w' = w
    | inr i => mContextPool w !! i = None ∧ (i < CHIP_CONFIG_MAX_EXCHANGE_CONTEXTS)%nat ∧
        ∃ group, w' = w <| mContextPool ::= insert i (new_context id s initiator delegate ephemeral dispatch group) |> end) w.
Proof.
  unfold NewExchange. apply wp_gets. destruct (free_slot _ _ _) as [i|] eqn:Ei; [|done]. apply inv_free_slot in Ei as [Hn Hlt].
  unfold session_is. apply wp_gets, wp_step. split_and!; [done|lia|by eexists].
Qed.
Lemma new_context_ok h b id s (initiator delegate ephemeral : bool) dispatch group i w : Lasting h None None None b w → mContextPool w !! i = None →
  (i < CHIP_CONFIG_MAX_EXCHANGE_CONTEXTS)%nat → decent dispatch →
  Inv (temporary := if ephemeral then Some i else None) h None None None b (w <| mContextPool ::= insert i (new_context id s initiator delegate ephemeral dispatch group) |>).
Proof.
  intros HI Hn Hlt [Hd1 Hd2]. apply inv_open; [destruct ephemeral; [by apply inv_some_temporary|done]|done| |done|done].
  assert (h i = 0%nat) as Hh.
  { destruct (decide (h i = 0%nat)) as [|Hne]; [done|]. destruct (inv_held _ _ _ _ _ _ HI i) as [c Hc]; [by left|congruence]. }
  constructor; cbn; try done; [unfold weight; cbn; lia|destruct ephemeral; [done|by destruct delegate]|].
  destruct ephemeral; [done|]. intros _. split; [done|]. destruct delegate; [done|by eexists].
Qed.
Lemma NewExchange_ok h b id s initiator delegate dispatch w : Lasting h None None None b w → decent dispatch →
  wp (NewExchange id s initiator delegate false dispatch) (fun r w' => Lasting h None None None b w' ∧
     match r with inl _ => True | inr i => ∃ c, mContextPool w' !! i = Some c ∧ kFlagClosed c = false ∧ is_Some (IsEncryptionRequired (mDispatch c)) end) w.
Proof.
  intros HI Hd. eapply wp_mono; [apply NewExchange_value|]. intros [err|i] w'; [by intros ->|]. intros (Hn & Hlt & group & ->).
  pose proof (new_context_ok h b id s initiator delegate false dispatch group i w HI Hn Hlt Hd) as HI'. split; [exact HI'|].
  eexists. split; [apply lookup_insert_eq|]. split; [done|]. cbn. destruct delegate; [apply Hd|by eexists].
Qed.

(** ** The exchange that only acknowledges *)
Record lonely (n : Z) (cl : bool) c : Prop := {
  lonely_refs : mRefCount c = n; lonely_closed : kFlagClosed c = cl; lonely_delegate : mDelegate c = false; lonely_send : kFlagWillSendMessage c = false;
  lonely_response : kFlagResponseExpected c = false; lonely_ephemeral : kFlagEphemeralExchange c = true;
  lonely_acks : MessagePermitted (mDispatch c) SecureChannel MsgType_StandaloneAck = true }.
(** [p] is the pool without it. *)
Definition lone p (i : nat) (n : Z) (cl : bool) w : Prop :=
  (∃ c, mContextPool w = <[i := c]> p ∧ lonely n cl c) ∧ ∀ k e, mRetransTable w !! k = Some e → ec e ≠ i.

Lemma lone_lookup p i n cl w : lone p i n cl w → ∃ c, mContextPool w !! i = Some c ∧ lonely n cl c.
Proof. intros [(c & Ep & Hc) _]. exists c. split; [|done]. by rewrite Ep, lookup_insert_eq. Qed.
Lemma lone_put p i n cl n' cl' c' w w' : lone p i n cl w → mContextPool w' = <[i := c']> (mContextPool w) → mRetransTable w' = mRetransTable w →
  lonely n' cl' c' → lone p i n' cl' w'.
Proof. intros [(c & Ep & _) Ht] Ep' Et Hc'. split; [exists c'; split; [by rewrite Ep', Ep, insert_insert_eq|done]|by rewrite Et]. Qed.
Lemma lone_set p i n cl n' cl' f w : lone p i n cl w → (∀ c, lonely n cl c → lonely n' cl' (f c)) →
  wp (set_exchange i f) (fun r w' => r = inr tt ∧ lone p i n' cl' w') w.
Proof.
  intros Hl Hf. destruct (lone_lookup _ _ _ _ _ Hl) as (c & Hc & Hlc). eapply wp_set_exchange_last; [done|]. split; [done|].
  eapply lone_put; [exact Hl|done|done|by apply Hf].
Qed.
Lemma lone_ack p i n cl w : lone p i n cl w → 0 < n → wp (SendStandaloneAckMessage i) (fun _ => lone p i n cl) w.
Proof.
  intros Hl Hn. destruct (lone_lookup _ _ _ _ _ Hl) as (c & Hc & Hlc). pose proof Hlc as [? ? ? ? ? ? ?].
  eapply wp_mono; [eapply SendStandaloneAckMessage_effect; [done|lia|done]|]. intros r w' (v & (Ep & Et & _) & _).
  eapply lone_put; [exact Hl|exact Ep|exact Et|]. by destruct v, Hlc; constructor.
Qed.
Lemma lone_flush p i n cl w : lone p i n cl w → 0 < n → wp (FlushAcks i) (fun _ => lone p i n cl) w.
Proof.
  intros Hl Hn. destruct (lone_lookup _ _ _ _ _ Hl) as (c & Hc & _). unfold FlushAcks. eapply wp_exchange; [done|].
  destruct (kFlagAckPending c); [by apply lone_ack|done].
Qed.
Ltac lonely_flags := intros ? []; constructor; done.
Lemma lone_needs_ack p i n cl m dup w : lone p i n cl w → 0 < n → wp (HandleNeedsAck i m dup) (fun _ => lone p i n cl) w.
Proof.
  intros Hl Hn. unfold HandleNeedsAck. apply wp_bind, wp_attempt. eapply (wp_mono _ (fun _ => lone p i n cl)).
  2: { intros err w' Hl'. exact Hl'. }
  destruct (lone_lookup _ _ _ _ _ Hl) as (c & Hc & _). unfold HandleNeedsAckInner. eapply wp_exchange; [done|]. destruct dup.
  - cbv zeta. apply wp_bind. eapply wp_mono; [eapply lone_set; [exact Hl|lonely_flags]|]. intros r w1 [-> Hl1]. apply wp_bind, wp_attempt.
    eapply wp_mono; [by apply lone_ack|]. intros err w2 Hl2. cbn beta in Hl2. apply wp_bind.
    eapply (wp_mono _ (fun r w' => r = inr tt ∧ lone p i n cl w')); [|by intros r w3 [-> Hl3]].
    destruct (_ && _); [eapply lone_set; [exact Hl2|lonely_flags]|]. destruct (kFlagAckMessageCounterIsValid c); [eapply lone_set; [exact Hl2|lonely_flags]|done].
  - apply wp_bind. eapply (wp_mono _ (fun _ => lone p i n cl)); [destruct (kFlagAckPending c); [by apply lone_ack|done]|].
    intros [err|[]] w1 Hl1; [done|]. apply wp_bind. eapply wp_mono; [eapply lone_set; [exact Hl1|lonely_flags]|]. intros r w2 [-> Hl2].
    unfold now. apply wp_gets. eapply wp_mono; [eapply lone_set; [exact Hl2|lonely_flags]|]. by intros r w3 [_ Hl3].
Qed.
Lemma lone_find {A} p i n cl (q : RetransTableEntry → bool) (k : option nat → XM A) Q w : lone p i n cl w → (∀ e, ec e ≠ i → q e = false) →
  wp (k None) Q w → wp (find_entry q ≫= k) Q w.
Proof.
  intros [_ Ht] Hq Hk. unfold find_entry, all_entries, wp, mbind, CM_bind, gets. set (slots := filter _ _).
  destruct (first_entry q slots w) as [m|] eqn:E; [|exact Hk]. apply first_entry_Some in E as (e & He & Hp & _).
  rewrite Hq in Hp; [done|by eapply Ht].
Qed.
Lemma lone_receive p i n m hd dup ack w : lone p i n false w → 0 < n → wp (receive i m hd dup ack) (fun r w' => lone p i n false w' ∧ r ≠ inr true) w.
Proof.
  intros Hl Hn. destruct (lone_lookup _ _ _ _ _ Hl) as (c & Hc & _). unfold receive. eapply wp_exchange; [done|]. apply wp_group. intros group.
  apply wp_bind. eapply (wp_mono _ (fun _ => lone p i n false)).
  { destruct (_ && _); [|done]. apply wp_bind. eapply (wp_mono _ (fun r w' => r = inr tt ∧ lone p i n false w')).
    - destruct (_ && _); [|done]. destruct (mAckMessageCounter hd) as [a|]; [|done]. unfold HandleRcvdAck, CheckAndRemRetransTable. apply wp_bind.
      eapply lone_find; [exact Hl| |done]. intros e He. by rewrite (proj2 (Nat.eqb_neq _ _)).
    - intros r w1 [-> Hl1]. destruct (NeedsAck hd); [|done]. apply wp_bind, wp_attempt. eapply wp_mono; [by apply lone_needs_ack|done]. }
  intros [err|[]] w1 Hl1; [done|]. destruct (lone_lookup _ _ _ _ _ Hl1) as (c1 & Hc1 & Hlc1). eapply wp_exchange; [done|]. apply wp_bind.
  eapply (wp_mono _ (fun _ => lone p i n false)); [destruct (_ && _); [by apply lone_flush|done]|]. intros [err|[]] w2 Hl2; [done|].
  rewrite (lonely_ephemeral _ _ _ Hlc1). by destruct ack, dup.
Qed.
Lemma lone_close p i n w : lone p i n false w → 0 < n → wp (DoClose i false) (fun r w' => r = inr tt ∧ lone p i n true w') w.
Proof.
  intros Hl Hn. destruct (lone_lookup _ _ _ _ _ Hl) as (c & Hc & Hlc). unfold DoClose. eapply wp_exchange; [done|].
  rewrite (lonely_closed _ _ _ Hlc), (lonely_delegate _ _ _ Hlc). apply wp_bind.
  eapply wp_mono; [eapply (lone_set _ _ _ _ n true); [exact Hl|lonely_flags]|]. intros r w1 [-> Hl1]. apply wp_bind. unfold wp at 1. cbn [mret CM_ret].
  apply wp_bind. eapply wp_mono; [eapply (lone_set _ _ _ _ n true); [exact Hl1|lonely_flags]|]. intros r w2 [-> Hl2].
  apply wp_bind, wp_attempt. eapply wp_mono; [by apply lone_flush|]. intros err w3 Hl3. cbn beta in Hl3. apply wp_bind. unfold wp at 1. cbn [mret CM_ret].
  destruct (lone_lookup _ _ _ _ _ Hl3) as (c3 & Hc3 & Hlc3). eapply wp_exchange; [done|]. by rewrite (lonely_response _ _ _ Hlc3).
Qed.
Lemma lone_release p i n w : lone p i (n + 1) true w → 0 < n → wp (Release i) (fun r w' => r = inr tt ∧ lone p i n true w') w.
Proof.
  intros Hl Hn. destruct (lone_lookup _ _ _ _ _ Hl) as (c & Hc & Hlc). unfold wp. rewrite Release_eq. unfold release_pool. rewrite Hc.
  cbn [mbind option_bind]. rewrite (lonely_refs _ _ _ Hlc). rewrite (proj2 (Z.ltb_lt _ _)) by lia. destruct (Z.eqb_spec (n + 1) 1); [lia|].
  split; [done|]. eapply lone_put; [exact Hl|done|done|]. destruct Hlc. constructor; try done. cbn [update mRefCount]. lia.
Qed.
(** It is gone when the message has been handled. *)
Lemma lone_handle p i m hd dup (body : XM unit) w : lone p i 1 false w → p !! i = None → wp (HandleMessage i m hd dup body) (fun _ w' => mContextPool w' = p) w.
Proof.
  intros Hl Hp. unfold HandleMessage. cbv zeta. set (ack := is_secure_channel _ && _). unfold with_ref, Retain.
  destruct (lone_lookup _ _ _ _ _ Hl) as (c & Hc & Hlc). apply wp_bind. eapply wp_exchange; [done|].
  apply wp_die_unless; [rewrite (lonely_refs _ _ _ Hlc); done|].
  eapply wp_mono; [eapply (lone_set _ _ _ _ 2 false); [exact Hl|]|].
  { intros c0 []. constructor; try done. cbn [update mRefCount]. lia. }
  intros r w1 [-> Hl1]. apply wp_bind, wp_attempt. eapply (wp_mono _ (fun _ => lone p i 1 true)).
  2: { intros res w2 Hl2. apply wp_bind. destruct (lone_lookup _ _ _ _ _ Hl2) as (c2 & Hc2 & Hlc2). unfold wp at 1. rewrite Release_eq.
    unfold release_pool. rewrite Hc2. cbn [mbind option_bind]. rewrite (lonely_refs _ _ _ Hlc2), (lonely_closed _ _ _ Hlc2). cbn [Z.ltb Z.eqb Z.compare Pos.eqb].
    destruct Hl2 as [(c3 & Ep & _) _]. unfold wp, returns. cbn [update mContextPool]. rewrite Ep. by apply delete_insert_id. }
  apply wp_bind, wp_attempt. eapply (wp_mono _ (fun _ => lone p i 2 false)).
  - apply wp_bind. eapply wp_mono; [by apply lone_receive|]. intros [err|[|]] w2 [Hl2 Hr]; done.
  - intros res w2 Hl2. destruct (lone_lookup _ _ _ _ _ Hl2) as (c2 & Hc2 & Hlc2). eapply wp_exchange; [done|]. rewrite (lonely_delegate _ _ _ Hlc2), andb_false_r.
    apply wp_bind. unfold MessageHandled. eapply wp_exchange; [done|].
    rewrite (lonely_closed _ _ _ Hlc2), (lonely_response _ _ _ Hlc2), (lonely_send _ _ _ Hlc2). unfold Close. cbn [orb]. eapply wp_exchange; [done|].
    apply wp_die_unless; [rewrite (lonely_refs _ _ _ Hlc2); done|]. apply wp_bind. eapply wp_mono; [by apply lone_close|]. intros r w3 [-> Hl3].
    eapply wp_mono; [by apply (lone_release p i 1)|]. by intros r w4 [-> Hl4].
Qed.

Lemma SendStandaloneAckIfNeeded_ok h b packet payload s dup w : Lasting h None None None b w →
  wp (SendStandaloneAckIfNeeded packet payload s dup) (fun r w' => r = inr tt ∧ Lasting h None None None b w') w.
Proof.
  intros HI. unfold SendStandaloneAckIfNeeded. destruct (negb (NeedsAck payload)); [done|]. apply wp_bind, wp_attempt.
  eapply wp_mono; [apply NewExchange_value|]. intros [err|i] w1; [by intros ->|]. intros (Hn & Hlt & group & ->).
  set (c := new_context _ _ _ _ _ _ _). set (w1 := w <| mContextPool ::= insert i c |>).
  pose proof (new_context_ok h b (mExchangeID payload) s (negb (IsInitiator payload)) false true ApplicationExchangeDispatch group i w HI Hn Hlt
    ltac:(split; [done|by eexists])) as HI1. fold c in HI1. fold w1 in HI1. cbn beta iota in HI1.
  assert (lone (mContextPool w) i 1 false w1) as Hl.
  { split; [exists c; split; [done|constructor; [done..|apply andb_false_r|done|done|done]]|]. intros k e He Ee. destruct (entry_exchange _ _ _ _ _ (inv_entry _ _ _ _ _ _ HI k e He)) as (c0 & Hc0 & _). congruence. }
  apply wp_bind, wp_attempt. eapply wp_mono; [eapply wp_and; [eapply HandleMessage_ok; [exact HI1|eexists; apply lookup_insert_eq|by intros w' HI']|by eapply lone_handle]|].
  intros r w2 [HI2 Ep]. split; [done|]. eapply inv_no_temporary; [exact HI2|by rewrite Ep].
Qed.

(** ** Messages *)
Lemma first_match_ok h b s packet payload slots w : Lasting h None None None b w → (∀ i, i ∈ slots → is_Some (mContextPool w !! i)) →
  ∃ found, first_match s packet payload slots w = Some found ∧ ∀ i, found = Some i → is_Some (mContextPool w !! i).
Proof.
  intros HI. induction slots as [|j slots IH]; intros Hin; [by exists None|]. cbn [first_match]. destruct (Hin j ltac:(by left)) as [c Hc]. rewrite Hc.
  destruct (exchange_lasting _ _ _ _ _ _ (inv_exchange _ _ _ _ _ _ HI j c Hc) ltac:(done)) as [_ [required Hr]]. unfold MatchExchange.
  destruct (_ && _); [rewrite Hr; destruct (_ && _); [by exists (Some j); split; [|intros i [= <-]; eexists]|]|]; apply IH; intros i Hi; apply Hin; by right.
Qed.
Lemma find_exchange_ok h b s packet payload w : Lasting h None None None b w →
  wp (find_exchange s packet payload) (fun r w' => w' = w ∧ ∃ found, r = inr found ∧ ∀ i, found = Some i → is_Some (mContextPool w !! i)) w.
Proof.
  intros HI. unfold find_exchange, all_exchanges. apply wp_gets. set (slots := filter _ _).
  destruct (first_match_ok h b s packet payload slots w HI) as (found & E & Hf); [intros i Hi; by apply list_elem_of_filter in Hi as [? _]|].
  unfold wp, lift. rewrite E. cbn. split; [done|by exists found].
Qed.

(** The handler of the application keeps the exchanges sound while its message is handled. *)
Definition handles b (handler : nat → XM unit) : Prop :=
  ∀ i w, Lasting (held nobody i) None None None b w → wp (handler i) (fun _ => Lasting (held nobody i) None None None b) w.

Lemma deliver_unsolicited_ok b n packet payload s dup handler w : Lasting nobody None None None b w → handles b handler →
  wp (deliver_unsolicited n packet payload s dup handler) (fun r w' => r = inr tt ∧ Lasting nobody None None None b w') w.
Proof.
  intros HI Hh. unfold deliver_unsolicited. destruct (OnUnsolicitedMessageReceived n payload) as [err|delegate] eqn:E; [by apply SendStandaloneAckIfNeeded_ok|].
  assert (decent (match delegate with Some dispatch => dispatch | None => ApplicationExchangeDispatch end)) as Hd.
  { destruct delegate as [dispatch|]; [by eapply delegates_answer|]. split; [done|by eexists]. }
  apply wp_bind, wp_attempt. eapply wp_mono; [by apply NewExchange_ok|]. intros [err|i] w1 [HI1 Hc1].
  - destruct delegate; [|done]. split; [done|]. by eapply inv_same; [..|exact HI1].
  - destruct Hc1 as (c & Hc & Ho & [required Hr]). unfold encryption_required. apply wp_bind. eapply wp_exchange; [done|]. rewrite Hr.
    unfold wp at 1. cbn [mret CM_ret]. destruct (negb _).
    + apply wp_bind. eapply wp_mono; [eapply Close_ok; [exact HI1|exact Hc|unfold may_close; by rewrite Ho]|]. intros r w2 [-> HI2].
      by apply SendStandaloneAckIfNeeded_ok.
    + apply wp_bind, wp_attempt. eapply wp_mono; [eapply HandleMessage_ok; [exact HI1|by eexists|by apply Hh]|]. by intros r w2 HI2.
Qed.

Lemma wp_in_exchanges {A B} (m : XM A) (k : A → CM (ExchangeManager D) B) Q g : wp m (fun r w => match r with
    | inl err => Q (inl err) (g <| mExchanges := w |>) | inr a => wp (k a) Q (g <| mExchanges := w |>) end) (mExchanges g) →
  wp (in_exchanges m ≫= k) Q g.
Proof. unfold wp, in_exchanges, mbind, CM_bind. destruct (m (mExchanges g)) as [[[err|a] w]|]; done. Qed.
Lemma wp_in_exchanges_last {A} (m : XM A) Q g : wp m (fun r w => Q r (g <| mExchanges := w |>)) (mExchanges g) → wp (in_exchanges m) Q g.
Proof. unfold wp, in_exchanges. destruct (m (mExchanges g)) as [[r w]|]; done. Qed.

Definition sound (g : ExchangeManager D) : Prop := Lasting nobody None None None true (mExchanges g).

Lemma OnMessageReceived_ok packet payload s dup handler g : sound g → handles true handler →
  wp (OnMessageReceived packet payload s dup handler) (fun r g' => r = inr tt ∧ sound g') g.
Proof.
  intros HI Hh. assert (∀ m : XM unit, (∀ w, Lasting nobody None None None true w → wp m (fun r w' => r = inr tt ∧ Lasting nobody None None None true w') w) →
    wp (in_exchanges m) (fun r g' => r = inr tt ∧ sound g') g) as Hin.
  { intros m Hm. apply wp_in_exchanges_last. eapply wp_mono; [by apply Hm|]. by intros r w [-> HI']. }
  unfold OnMessageReceived. apply wp_bind. eapply (wp_mono _ (fun r g' => g' = g ∧ ∃ found, r = inr found ∧ ∀ i, found = Some i → is_Some (mContextPool (mExchanges g) !! i))).
  { destruct (negb _); [|split; [done|by exists None]]. apply wp_in_exchanges_last. eapply wp_mono; [by eapply find_exchange_ok|]. intros r w [-> Hf]. by destruct g. }
  intros r g' (-> & found & -> & Hf). destruct found as [i|].
  - apply wp_bind, wp_attempt, wp_in_exchanges_last. eapply wp_mono; [eapply HandleMessage_ok; [exact HI|by apply Hf|by apply Hh]|]. by intros r w HI'.
  - apply wp_bind. unfold wp at 1, gets. destruct (negb _); [done|]. destruct (negb dup && IsInitiator payload).
    + apply wp_bind. unfold wp at 1, gets. destruct (matching_handler _ _ _) as [n|]; apply Hin; intros w HI'; [by apply deliver_unsolicited_ok|by apply SendStandaloneAckIfNeeded_ok].
    + destruct (negb (NeedsAck payload)); [done|]. apply Hin. intros w HI'. by apply SendStandaloneAckIfNeeded_ok.
Qed.
Lemma NewContext_ok s delegate initiator g : sound g → (∀ dispatch, delegate = Some dispatch → decent dispatch) →
  wp (NewContext s delegate initiator) (fun _ => sound) g.
Proof.
  intros HI Hd. unfold NewContext. apply wp_bind. unfold wp at 1, gets. destruct (IsActiveSession _ _); [|done]. apply wp_bind. unfold wp at 1, gets.
  apply wp_bind. unfold wp at 1, modify. apply wp_bind, wp_attempt, wp_in_exchanges_last. eapply wp_mono; [eapply NewExchange_ok; [exact HI|]|].
  - destruct delegate as [dispatch|]; [by apply Hd|split; [done|by eexists]].
  - by intros r w [HI' _].
Qed.
End manager_safe.
