(* ===== verification/ExchangeMgrTheorems.v ===== *)
(** * ExchangeMgrTheorems: the exchanges under any history

    An application, the peers and the clock act on the exchange manager in any order
    ([perform]): the state stays sound and the timer comes to rest.  The table of
    handlers for unsolicited messages as a map. *)
From S2P Require Import Prelude ChipError MessageHeader StateError ReliableMessage ReliableMessageSafe ReliableMessageSteps ReliableMessageTimer ExchangeMgr ExchangeMgrSafe.

(** ** What can happen *)
(** Calls of the application on an exchange, also from inside its handler *)
Inductive action :=
| ASend (i : nat) (protocol : ProtocolId) (type : Z) (noAutoRequestAck expectResponse : bool)
| AClose (i : nat) | AAbort (i : nat) | AWillSend (i : nat) | ASetDelegate (i : nat) (delegate : bool) | ASetTimeout (i : nat) (timeout : Z).

Inductive input :=
| IRegister (protocol : ProtocolId) (type : Z) (handler : nat) | IUnregister (protocol : ProtocolId) (type : Z)
| INewContext (session : nat) (delegate : option ExchangeMessageDispatch) (isInitiator : bool)
| IAct (a : action)
| IReceive (packet : PacketHeader) (payload : PayloadHeader) (session : nat) (duplicate : bool) (handler : nat → list action)
| ISessionReleased (i : nat)
| IResponseTimer (i : nat)
| ITimer
| ITick (ms : nat).

Section histories.
Context {D : Type} `{!SessionLayer D} `{!UnsolicitedMessageHandlers}.
#[local] Abbreviation World := (Exchanges D).
#[local] Abbreviation XM := (CM (Exchanges D)).
#[local] Abbreviation Lasting := (Inv (temporary := None)).
Implicit Types (w : World) (c : ExchangeContext) (e : RetransTableEntry) (h : nat → nat) (g : ExchangeManager D).

(** The rules of the interface: an owner closes its exchange once, and does not ask for
    an acknowledgement while it waits for one.  [h] counts the handles on the stack. *)
Definition at_exchange w (i : nat) (p : ExchangeContext → bool) : bool := match mContextPool w !! i with Some c => p c | None => false end.
Definition may h w (a : action) : bool :=
  match a with
  | ASend i _ _ noack expect => at_exchange w i (fun c => may_send c noack expect)
  | AClose i | AAbort i => at_exchange w i (fun c => may_close h c i)
  | AWillSend i | ASetDelegate i _ | ASetTimeout i _ => at_exchange w i (fun _ => true)
  end.
Definition act (a : action) : XM unit :=
  match a with
  | ASend i p t noack expect => SendMessage i p t noack expect
  | AClose i => Close i
  | AAbort i => Abort i
  | AWillSend i => WillSendMessage i
  | ASetDelegate i v => SetDelegate i v
  | ASetTimeout i t => SetResponseTimeout i t
  end.
(** What breaks the rules, or does not apply, is left out. *)
Definition guarded {St} (ok : St → bool) (m : CM St unit) : CM St unit :=
  v ← gets ok; if v : bool then attempt m;; mret tt else mret tt.
Fixpoint handle_actions h (l : list action) : XM unit :=
  match l with [] => mret tt | a :: l => guarded (fun w => may h w a) (act a);; handle_actions h l end.

Definition accepts g (n : input) : bool :=
  let w := mExchanges g in
  match n with
  | INewContext _ (Some dispatch) _ =>
      MessagePermitted dispatch SecureChannel MsgType_StandaloneAck && match IsEncryptionRequired dispatch with Some _ => true | None => false end
  | IAct a => may nobody w a
  | ISessionReleased i => at_exchange w i (fun _ => true)
  | IResponseTimer i => match mResponseTimers w !! i with Some t => t <=? mClock w | None => false end
  | ITimer => match mTimer w with Some t => t <=? mClock w | None => false end
  | _ => true
  end.
Definition step (n : input) : CM (ExchangeManager D) unit :=
  match n with
  | IRegister protocol type handler => RegisterUMH protocol type handler
  | IUnregister protocol type => UnregisterUMH protocol type
  | INewContext session delegate isInitiator => NewContext session delegate isInitiator;; mret tt
  | IAct a => in_exchanges (act a)
  | IReceive packet payload session duplicate handler => OnMessageReceived packet payload session duplicate (fun i => handle_actions (held nobody i) (handler i))
  | ISessionReleased i => in_exchanges (SessionReleased i)
  | IResponseTimer i => in_exchanges (HandleResponseTimeout i)
  | ITimer => in_exchanges Timeout
  | ITick ms => in_exchanges (modify (fun w => w <| mClock ::= fun t => t + Z.of_nat ms |>))
  end.
Fixpoint perform (l : list input) : CM (ExchangeManager D) unit :=
  match l with [] => mret tt | n :: l => guarded (fun g => accepts g n) (step n);; perform l end.

(** The manager before [Init] *)
Definition fresh (d : D) (clock : Z) : ExchangeManager D :=
  {| mNextExchangeId := 0; mInitialized := false;
     UMHandlerPool := replicate CHIP_CONFIG_MAX_UNSOLICITED_MESSAGE_HANDLERS {| umProtocolId := NotSpecified; umMessageType := 0; umHandler := None |};
     mExchanges := {| mContextPool := ∅; mRetransTable := ∅; mTimer := None; mResponseTimers := ∅; mClock := clock; mLog := []; mSessionLayer := d |} |}.
Definition live (random : Z) (l : list input) : CM (ExchangeManager D) unit := Init random;; perform l.

(** ** Each step *)
Lemma guarded_ok {St} ok (m : CM St unit) (P : St → Prop) s : P s → (ok s = true → wp m (fun _ => P) s) →
  wp (guarded ok m) (fun r s' => r = inr tt ∧ P s') s.
Proof.
  intros HP Hm. unfold guarded. apply wp_bind. unfold wp at 1, gets. destruct (ok s); [|done]. apply wp_bind, wp_attempt. eapply wp_mono; [by apply Hm|done].
Qed.

Lemma action_ok h b a w : Lasting h None None None b w → may h w a = true → wp (act a) (fun _ => Lasting h None None None b) w.
Proof.
  intros HI Hm. destruct a as [i p t noack expect|i|i|i|i v|i t]; cbn [may act] in *; unfold at_exchange in Hm;
    destruct (mContextPool w !! i) as [c|] eqn:Hc; try done.
  - by eapply SendMessage_ok.
  - eapply wp_mono; [by eapply Close_ok|]. by intros r w' [_ ?].
  - eapply wp_mono; [eapply Abort_ok; [done..|by left]|]. by intros r w' [_ ?].
  - eapply wp_mono; [by eapply set_flag_ok|]. by intros r w' (_ & ? & _).
  - eapply wp_mono; [by eapply set_flag_ok|]. by intros r w' (_ & ? & _).
  - eapply wp_mono; [by eapply set_flag_ok|]. by intros r w' (_ & ? & _).
Qed.
Lemma handle_actions_ok h b l w : Lasting h None None None b w → wp (handle_actions h l) (fun r w' => r = inr tt ∧ Lasting h None None None b w') w.
Proof.
  revert w. induction l as [|a l IH]; intros w HI; [done|]. cbn [handle_actions]. apply wp_bind.
  eapply wp_mono; [apply (guarded_ok _ _ (Lasting h None None None b)); [exact HI|by apply action_ok]|]. intros r w' [-> HI']. by apply IH.
Qed.

Lemma step_ok n g : sound g → accepts g n = true → wp (step n) (fun _ => sound) g.
Proof.
  intros HI Ha. assert (∀ m : XM unit, wp m (fun _ => Lasting nobody None None None true) (mExchanges g) → wp (in_exchanges m) (fun _ => sound) g) as Hin.
  { intros m Hm. by apply wp_in_exchanges_last. }
  destruct n as [protocol type handler|protocol type|s delegate initiator|a|packet payload s dup handler|i|i| |ms]; cbn [accepts step] in *.
  - unfold RegisterUMH. apply wp_bind. unfold wp at 1, gets. by destruct (select_slot _ _ _ _ _).
  - unfold UnregisterUMH. apply wp_bind. unfold wp at 1, gets. by destruct (used_slot _ _ _ _).
  - apply wp_bind. eapply wp_mono; [apply NewContext_ok; [exact HI|]|by intros [err|[i|]] g' HI']. intros dispatch ->.
    apply andb_true_iff in Ha as [H1 H2]. split; [done|]. by destruct (IsEncryptionRequired dispatch).
  - apply Hin. by apply action_ok.
  - eapply wp_mono; [apply OnMessageReceived_ok; [exact HI|]|by intros r g' [_ HI']]. intros i w HI'. eapply wp_mono; [by apply handle_actions_ok|]. by intros r w' [_ ?].
  - unfold at_exchange in Ha. apply Hin. eapply wp_mono; [eapply SessionReleased_ok; [exact HI|by destruct (mContextPool (mExchanges g) !! i)]|]. by intros r w' [_ HI'].
  - destruct (mResponseTimers (mExchanges g) !! i) as [t|] eqn:Ht; [|done]. destruct (inv_response _ _ _ _ _ _ HI i t Ht) as (c & Hc & _).
    apply Hin. unfold HandleResponseTimeout, CancelResponseTimer. apply wp_step.
    eapply wp_mono; [eapply (NotifyResponseTimeout_ok nobody None true i c true); [by apply inv_cancel_response|done|apply lookup_delete_eq|done]|].
    by intros r w' (_ & HI' & _).
  - apply Hin. eapply wp_mono; [by eapply Timeout_ok|]. by intros r w' (_ & w2 & _ & _ & HI').
  - apply Hin. unfold wp, modify. change (?w <| mClock ::= _ |>) with (w <| mClock := mClock w + Z.of_nat ms |>). apply inv_later; [done|lia].
Qed.
Lemma perform_ok l g : sound g → wp (perform l) (fun r g' => r = inr tt ∧ sound g') g.
Proof.
  revert g. induction l as [|n l IH]; intros g HI; [done|]. cbn [perform]. apply wp_bind.
  eapply wp_mono; [apply (guarded_ok _ _ sound); [exact HI|by apply step_ok]|]. intros r g' [-> HI']. by apply IH.
Qed.
Lemma fresh_ok d clock : sound (fresh d clock).
Proof.
  unfold sound. constructor; cbn [fresh mExchanges mContextPool mRetransTable mResponseTimers].
  - by intros k e ?%lookup_empty_Some.
  - by intros i c ?%lookup_empty_Some.
  - by intros k1 k2 e1 e2 ?%lookup_empty_Some.
  - by intros i [Hi|Hi].
  - by intros i t ?%lookup_empty_Some.
  - intros _. constructor; cbn [mContextPool mRetransTable]; [by intros i c ?%lookup_empty_Some|by intros k e ?%lookup_empty_Some].
Qed.
Lemma live_ok random l d clock : wp (live random l) (fun r g => r = inr tt ∧ sound g) (fresh d clock).
Proof. unfold live, Init. apply wp_bind. unfold wp at 1. erewrite bind_ok by done. cbn [fst snd id]. apply perform_ok, (fresh_ok d clock). Qed.

(** ** The claims *)
(** C6: whatever an application that holds to the rules of the interface, its peers, lost
    sessions and the clock do, in any order and through any session layer, no operation of
    the exchange manager, its exchanges and the reliability manager dies on a
    [VerifyOrDie], and the state stays sound: every entry of the retransmission table has
    its message and at most 4 retransmissions, belongs to a living exchange that is marked
    as waiting and has a session; no exchange waits for two acknowledgements; the references
    of an exchange cover its owner and its entry; a response timer runs only for an open
    exchange that expects a response; the manager's timer fires no later than the first
    acknowledgement or retransmission is due; and no exchange that was made only to
    acknowledge a message is left over. *)
Theorem exchanges_stay_sound (d : D) (clock random : Z) (history : list input) :
  ∃ g, live random history (fresh d clock) = Some (inr tt, g) ∧ Inv (temporary := None) nobody None None None true (mExchanges g).
Proof. pose proof (live_ok random history d clock) as Hl. apply wp_run in Hl as (r & g & E & -> & HI). by exists g. Qed.

(** C8: after any history, when buffers can be allocated and every exchange that owes an
    acknowledgement still has its session, firing the manager's timer 49 times and nothing
    else empties the retransmission table, leaves no acknowledgement pending and stops the
    timer: no message is retransmitted for ever. *)
Theorem retransmissions_end (d : D) (clock random : Z) (history : list input) g :
  live random history (fresh d clock) = Some (inr tt, g) → (∀ d', (NewBuffer d').1 = true) → all_answerable (mExchanges g) →
  ∃ w, Nat.iter 49 (fun o => o ≫= fire) (Some (mExchanges g)) = Some w ∧ mRetransTable w = ∅ ∧ mTimer w = None
    ∧ ∀ i c, mContextPool w !! i = Some c → kFlagAckPending c = false.
Proof.
  intros E Hnb Hans. pose proof (live_ok random history d clock) as Hl. unfold wp in Hl. rewrite E in Hl. destruct Hl as [_ HI].
  assert (∃ w, Nat.iter 49 (fun o => o ≫= fire) (Some (mExchanges g)) = Some w ∧ Lasting nobody None None None true w ∧ mTimer w = None) as (w & Ew & HI' & Em).
  { destruct (fire_step nobody (mExchanges g) HI Hnb Hans) as (w1 & E1 & HI1 & Hans1 & H1). change 49%nat with (S 48). rewrite Nat.iter_succ_r. cbn [mbind option_bind].
    rewrite E1. destruct H1 as [[Em ->]|(Hexact & _ & _)]; [exists (mExchanges g); by rewrite fire_idle|].
    apply (fire_many nobody); [done..|]. pose proof (work_left_bounds _ _ _ HI1). lia. }
  exists w. destruct (inv_wake _ _ _ _ _ _ HI' eq_refl) as [Ha He]. split_and!; [done| |done|].
  - apply map_eq. intros k. rewrite lookup_empty. destruct (mRetransTable w !! k) as [e|] eqn:Ek; [|done].
    destruct (He k e Ek) as (tm & ? & _). congruence.
  - intros i c Hc. destruct (kFlagAckPending c) eqn:Hp; [|done]. destruct (Ha i c Hc Hp) as (tm & ? & _). congruence.
Qed.
End histories.

(** ** The handlers as a map *)
Implicit Types (pool : list UnsolicitedMessageHandlerSlot) (s : UnsolicitedMessageHandlerSlot).

(** The handler that is registered for a protocol and a type *)
Fixpoint handler_of pool (protocol : ProtocolId) (type : Z) : option nat :=
  match pool with
  | [] => None
  | s :: pool => if IsInUse s && Matches protocol type s then umHandler s else handler_of pool protocol type
  end.
Definition distinct pool : Prop := ∀ i j s1 s2, pool !! i = Some s1 → pool !! j = Some s2 → IsInUse s1 = true → IsInUse s2 = true →
  umProtocolId s1 = umProtocolId s2 → umMessageType s1 = umMessageType s2 → i = j.
(** The slot [s] holds the handler [n] for the protocol and the type. *)
Definition holds s (protocol : ProtocolId) (type : Z) (n : nat) : Prop := umProtocolId s = protocol ∧ umMessageType s = type ∧ umHandler s = Some n.

Lemma Matches_true protocol type s : Matches protocol type s = true ↔ umProtocolId s = protocol ∧ umMessageType s = type.
Proof. unfold Matches. rewrite andb_true_iff, bool_decide_eq_true, Z.eqb_eq. done. Qed.
Lemma IsInUse_true s : IsInUse s = true ↔ ∃ n, umHandler s = Some n.
Proof. unfold IsInUse. destruct (umHandler s) as [n|]; [split; [by exists n|done]|]. split; [done|by intros [n ?]]. Qed.

Lemma handler_of_Some pool protocol type n : distinct pool →
  handler_of pool protocol type = Some n ↔ ∃ i s, pool !! i = Some s ∧ holds s protocol type n.
Proof.
  induction pool as [|s pool IH]; intros Hd; [split; [done|by intros (i & s & ? & _)]|]. cbn [handler_of].
  assert (distinct pool) as Hd' by (intros i j s1 s2 H1 H2 ? ? ? ?; by specialize (Hd (S i) (S j) s1 s2 H1 H2 ltac:(done) ltac:(done) ltac:(done) ltac:(done)); lia).
  destruct (IsInUse s && Matches protocol type s) eqn:E.
  - apply andb_true_iff in E as [Hu Hm]. pose proof Hm as Hm'. apply Matches_true in Hm' as [Hp Ht]. split; [intros Hn; by exists 0%nat, s|].
    intros (i & s' & Hi & Hp' & Ht' & Hn'). assert (0%nat = i) as <-.
    { apply (Hd 0%nat i s s'); [done..| |congruence|congruence]. apply IsInUse_true. by exists n. }
    cbn in Hi. congruence.
  - rewrite IH by done. split.
    + intros (i & s' & Hi & Hh). by exists (S i), s'.
    + intros ([|i] & s' & Hi & Hp' & Ht' & Hn'); [|by exists i, s'].
      cbn in Hi. injection Hi as <-. rewrite (proj2 (IsInUse_true s)), (proj2 (Matches_true _ _ _)) in E; [done|done|by exists n].
Qed.
Lemma handler_of_None pool protocol type : distinct pool → (∀ i s, pool !! i = Some s → IsInUse s = true → Matches protocol type s = false) → handler_of pool protocol type = None.
Proof.
  intros Hd Hn. destruct (handler_of pool protocol type) as [n|] eqn:E; [|done]. apply handler_of_Some in E as (i & s & Hi & Hp & Ht & Hh); [|done].
  specialize (Hn i s Hi ltac:(apply IsInUse_true; by exists n)). by rewrite (proj2 (Matches_true _ _ _)) in Hn.
Qed.

(** Where a registration goes *)
Definition no_match pool (protocol : ProtocolId) (type : Z) : Prop := ∀ i s, pool !! i = Some s → IsInUse s = true → Matches protocol type s = false.
Lemma no_match_cons pool protocol type s : no_match pool protocol type → (IsInUse s = true → Matches protocol type s = false) → no_match (s :: pool) protocol type.
Proof. intros Hn Hs [|i] s' Hi; [cbn in Hi; injection Hi as <-; done|by apply (Hn i)]. Qed.
Lemma select_slot_spec protocol type k sel pool : match select_slot protocol type k sel pool with
  | Some i => (∃ j s, i = (k + j)%nat ∧ pool !! j = Some s ∧ IsInUse s = true ∧ Matches protocol type s = true)
      ∨ no_match pool protocol type ∧ (sel = Some i ∨ ∃ j s, i = (k + j)%nat ∧ pool !! j = Some s ∧ IsInUse s = false)
  | None => sel = None ∧ no_match pool protocol type ∧ Forall (fun s => IsInUse s = true) pool
  end.
Proof.
  revert k sel. induction pool as [|s pool IH]; intros k sel; cbn [select_slot]; [destruct sel; [right; split; [done|by left]|done]|].
  destruct (IsInUse s) eqn:Hu; cbn [negb].
  - destruct (Matches protocol type s) eqn:Hm; [left; exists 0%nat, s; split_and!; [lia|done..]|]. specialize (IH (S k) sel).
    destruct (select_slot protocol type (S k) sel pool) as [i|].
    + destruct IH as [(j & s' & -> & ?)|[Hn IH]]; [left; exists (S j), s'; split; [lia|done]|right]. split; [by apply no_match_cons|].
      destruct IH as [|(j & s' & -> & ?)]; [by left|right; exists (S j), s'; split; [lia|done]].
    + destruct IH as (? & Hn & ?). split_and!; [done|by apply no_match_cons|by constructor].
  - specialize (IH (S k) (match sel with None => Some k | Some _ => sel end)).
    destruct (select_slot _ _ _ _ pool) as [i|]; [|by destruct sel, IH].
    destruct IH as [(j & s' & -> & ?)|[Hn IH]]; [left; exists (S j), s'; split; [lia|done]|right]. split; [apply no_match_cons; [done|congruence]|].
    destruct IH as [IH|(j & s' & -> & ?)]; [|right; exists (S j), s'; split; [lia|done]].
    destruct sel; [by left|right]. injection IH as <-. exists 0%nat, s. split_and!; [lia|done..].
Qed.
Lemma used_slot_spec protocol type k pool : match used_slot protocol type k pool with
  | Some i => ∃ j s, i = (k + j)%nat ∧ pool !! j = Some s ∧ IsInUse s = true ∧ Matches protocol type s = true
  | None => no_match pool protocol type
  end.
Proof.
  revert k. induction pool as [|s pool IH]; intros k; cbn [used_slot]; [done|]. destruct (IsInUse s && Matches protocol type s) eqn:E.
  - apply andb_true_iff in E as [? ?]. exists 0%nat, s. split_and!; [lia|done..].
  - specialize (IH (S k)). destruct (used_slot protocol type (S k) pool) as [i|].
    + destruct IH as (j & s' & -> & ?). exists (S j), s'. split; [lia|done].
    + apply no_match_cons; [done|]. intros Hu. by rewrite Hu in E.
Qed.

(** A slot that is free, or has the protocol and the type, is overwritten. *)
Lemma put_handler_slot pool i s s' protocol type : distinct pool → pool !! i = Some s → umProtocolId s' = protocol → umMessageType s' = type →
  (IsInUse s = true ∧ Matches protocol type s = true ∨ no_match pool protocol type ∧ IsInUse s = false) →
  distinct (<[i := s']> pool) ∧ ∀ p' t', handler_of (<[i := s']> pool) p' t' = if decide (p' = protocol ∧ t' = type) then umHandler s' else handler_of pool p' t'.
Proof.
  intros Hd Hi Hp Ht Hs. pose proof (lookup_lt_Some _ _ _ Hi) as Hlt.
  assert (∀ j s1, <[i := s']> pool !! j = Some s1 → j = i ∧ s1 = s' ∨ j ≠ i ∧ pool !! j = Some s1) as Hcase.
  { intros j s1 Hj. destruct (decide (j = i)) as [->|Hne]; [rewrite list_lookup_insert_eq in Hj by done; left; by split; congruence|].
    rewrite list_lookup_insert_ne in Hj by done. by right. }
  assert (∀ j s1, j ≠ i → pool !! j = Some s1 → IsInUse s1 = true → umProtocolId s1 = protocol → umMessageType s1 = type → False) as Hother.
  { intros j s1 Hne Hj Hu Hp1 Ht1. destruct Hs as [[Hu' Hm]|[Hn _]].
    - apply Matches_true in Hm as [? ?]. apply Hne. apply (Hd j i s1 s); [done..|congruence|congruence].
    - specialize (Hn j s1 Hj Hu). by rewrite (proj2 (Matches_true _ _ _)) in Hn. }
  assert (distinct (<[i := s']> pool)) as Hd'.
  { intros j1 j2 s1 s2 H1 H2 Hu1 Hu2 Ep Et. apply Hcase in H1 as [[-> ->]|[Hn1 H1]], H2 as [[-> ->]|[Hn2 H2]]; [done|..].
    - exfalso. apply (Hother j2 s2); congruence.
    - exfalso. apply (Hother j1 s1); congruence.
    - by apply (Hd j1 j2 s1 s2). }
  split; [done|]. intros p' t'. apply option_eq. intros n. rewrite handler_of_Some by done. case_decide as Hk.
  - destruct Hk as [-> ->]. split.
    + intros (j & s1 & Hj & Hp1 & Ht1 & Hn). apply Hcase in Hj as [[-> ->]|[Hne Hj]]; [done|]. exfalso. apply (Hother j s1); try done. apply IsInUse_true. by exists n.
    + intros Hn. exists i, s'. rewrite list_lookup_insert_eq by done. done.
  - rewrite handler_of_Some by done. split; intros (j & s1 & Hj & Hp1 & Ht1 & Hn).
    + apply Hcase in Hj as [[-> ->]|[Hne Hj]]; [exfalso; apply Hk; by split; congruence|by exists j, s1].
    + exists j, s1. assert (j ≠ i) as Hne.
      { intros ->. replace s1 with s in * by congruence. destruct Hs as [[_ Hm]|[_ Hu]]; [apply Matches_true in Hm as [? ?]; apply Hk; by split; congruence|].
        rewrite (proj2 (IsInUse_true s)) in Hu; [done|by exists n]. }
      rewrite list_lookup_insert_ne by done. done.
Qed.

Lemma distinct_tail s pool : distinct (s :: pool) → distinct pool.
Proof. intros Hd i j s1 s2 H1 H2 ? ? ? ?. by specialize (Hd (S i) (S j) s1 s2 H1 H2 ltac:(done) ltac:(done) ltac:(done) ltac:(done)); lia. Qed.
Lemma matching_handler_spec header sel pool : distinct pool → mMessageType header ≠ kAnyMessageType →
  matching_handler header sel pool = match handler_of pool (mProtocolID header) (mMessageType header) with
    | Some n => Some n
    | None => match handler_of pool (mProtocolID header) kAnyMessageType with Some n => Some n | None => sel end
    end.
Proof.
  intros Hd Ht. revert sel. induction pool as [|s pool IH]; intros sel; [done|]. specialize (IH (distinct_tail _ _ Hd)). cbn [matching_handler handler_of].
  destruct (IsInUse s) eqn:Hu; cbn [andb]; [|apply IH]. unfold Matches. rewrite (bool_decide_ext (umProtocolId s = mProtocolID header) (mProtocolID header = umProtocolId s)) by naive_solver.
  destruct (bool_decide_reflect (mProtocolID header = umProtocolId s)) as [Hp|Hp]; cbn [andb]; [|apply IH].
  pose proof Hu as Hu'. apply IsInUse_true in Hu' as [n Hn]. rewrite Hn. destruct (Z.eqb_spec (umMessageType s) (mMessageType header)) as [Em|Hne]; [done|].
  rewrite IH. destruct (handler_of pool (mProtocolID header) (mMessageType header)); [done|].
  destruct (Z.eqb_spec (umMessageType s) kAnyMessageType) as [Ea|Hna]; [|done].
  rewrite handler_of_None; [done|by eapply distinct_tail|]. intros i s1 Hi Hu1. apply not_true_iff_false. intros [Hp1 Ht1]%Matches_true.
  specialize (Hd 0%nat (S i) s s1 eq_refl Hi Hu Hu1 ltac:(congruence) ltac:(congruence)). lia.
Qed.

(** C18: the table of handlers for unsolicited messages is a map with 8 places: registering
    a handler changes the entry of its protocol and type and no other, and fails only when
    that entry is new and no place is free; unregistering removes exactly the entry, and
    fails only when there is none; a message goes to the handler of its protocol and type,
    and else to the handler of its protocol for any type. *)
Theorem unsolicited_handlers_refine {D : Type} (g : ExchangeManager D) (protocol : ProtocolId) (type : Z) (handler : nat) :
  distinct (UMHandlerPool g) →
  match RegisterUMH protocol type handler g with
  | Some (inr _, g') => distinct (UMHandlerPool g') ∧ length (UMHandlerPool g') = length (UMHandlerPool g)
      ∧ ∀ p' t', handler_of (UMHandlerPool g') p' t' = if decide (p' = protocol ∧ t' = type) then Some handler else handler_of (UMHandlerPool g) p' t'
  | Some (inl err, g') => err = CHIP_ERROR_TOO_MANY_UNSOLICITED_MESSAGE_HANDLERS ∧ g' = g ∧ handler_of (UMHandlerPool g) protocol type = None
      ∧ Forall (fun s => IsInUse s = true) (UMHandlerPool g)
  | None => False
  end ∧
  match UnregisterUMH protocol type g with
  | Some (inr _, g') => distinct (UMHandlerPool g') ∧ is_Some (handler_of (UMHandlerPool g) protocol type)
      ∧ ∀ p' t', handler_of (UMHandlerPool g') p' t' = if decide (p' = protocol ∧ t' = type) then None else handler_of (UMHandlerPool g) p' t'
  | Some (inl err, g') => err = CHIP_ERROR_NO_UNSOLICITED_MESSAGE_HANDLER ∧ g' = g ∧ handler_of (UMHandlerPool g) protocol type = None
  | None => False
  end ∧
  ∀ header, mMessageType header ≠ kAnyMessageType → matching_handler header None (UMHandlerPool g) =
    match handler_of (UMHandlerPool g) (mProtocolID header) (mMessageType header) with
    | Some n => Some n | None => handler_of (UMHandlerPool g) (mProtocolID header) kAnyMessageType end.
Proof.
  intros Hd. split_and!.
  - unfold RegisterUMH, mbind, CM_bind, gets. pose proof (select_slot_spec protocol type 0 None (UMHandlerPool g)) as Hs.
    destruct (select_slot protocol type 0 None (UMHandlerPool g)) as [i|]; [|destruct Hs as (_ & Hn & Hall); split_and!; [done|done|by apply handler_of_None|done]].
    assert (∃ s, UMHandlerPool g !! i = Some s ∧ (IsInUse s = true ∧ Matches protocol type s = true ∨ no_match (UMHandlerPool g) protocol type ∧ IsInUse s = false)) as (s & Hi & Hcase).
    { destruct Hs as [(j & s & -> & ? & ? & ?)|[Hn [[=]|(j & s & -> & ? & ?)]]]; exists s; (split; [done|]); [by left|by right]. }
    cbn [modify update UMHandlerPool]. set (s' := {| umProtocolId := protocol; umMessageType := type; umHandler := Some handler |}).
    destruct (put_handler_slot (UMHandlerPool g) i s s' protocol type Hd Hi eq_refl eq_refl Hcase) as [H1 H2]. split_and!; [done|apply length_insert|exact H2].
  - unfold UnregisterUMH, mbind, CM_bind, gets. pose proof (used_slot_spec protocol type 0 (UMHandlerPool g)) as Hs.
    destruct (used_slot protocol type 0 (UMHandlerPool g)) as [i|]; [|split_and!; [done|done|by apply handler_of_None]].
    destruct Hs as (j & s & -> & Hj & Hu & Hm). cbn [modify update UMHandlerPool Nat.add]. pose proof Hm as Hm'. apply Matches_true in Hm' as [Hp Ht].
    rewrite (alter_insert_lookup _ _ _ _ Hj). destruct (put_handler_slot (UMHandlerPool g) j s (ResetSlot s) protocol type Hd Hj Hp Ht (or_introl (conj Hu Hm))) as [H1 H2].
    split_and!; [done| |exact H2]. apply IsInUse_true in Hu as [n Hn]. exists n. apply handler_of_Some; [done|]. by exists j, s.
  - intros header Ht. rewrite matching_handler_spec by done. by repeat case_match.
Qed.
