(* ===== verification/ReliableMessageTheorems.v ===== *)
(** * ReliableMessageTheorems: the backoff, and duplicates

    The bounds of the time between retransmissions, and what a duplicate of a message
    does to the acknowledgements. *)
From S2P Require Import Prelude ChipError MessageHeader StateError ReliableMessage ReliableMessageSafe ReliableMessageSteps ReliableMessageTimer.

(** ** The backoff *)
(** The factors of 1.6 that the backoff has after [sendCount] transmissions: none for the
    first, one more for each after it, four at most. *)
Definition growths (sendCount : Z) : Z := Z.min 4 (Z.max 0 (sendCount - 1)).
(** The backoff before the jitter: [base * 1127 / 1024 * 1.6 ^ k], rounded down twice *)
Definition unjittered (base sendCount : Z) : Z := base * 1127 / 1024 * 16 ^ growths sendCount / 10 ^ growths sendCount.

Lemma backoff_exponent_growths n : backoff_exponent n = growths n.
Proof. unfold backoff_exponent, growths, MRP_BACKOFF_THRESHOLD. destruct (Z.ltb_spec (n - 1) 0), (Z.ltb_spec 4 (n - 1)); repeat case_match; lia. Qed.
Lemma growths_bounds n : 0 ≤ growths n ≤ 4.
Proof. unfold growths. lia. Qed.
Lemma growths_mono n n' : n ≤ n' → growths n ≤ growths n'.
Proof. unfold growths. lia. Qed.
Lemma slower_mono b k k' : 0 ≤ b → 0 ≤ k → k ≤ k' → b * 16 ^ k / 10 ^ k ≤ b * 16 ^ k' / 10 ^ k'.
Proof.
  intros Hb Hk Hle. replace k' with (k + (k' - k)) by lia. set (j := k' - k). assert (0 ≤ j) as Hj by lia. rewrite !Z.pow_add_r by lia.
  pose proof (Z.pow_pos_nonneg 10 k ltac:(lia) Hk). pose proof (Z.pow_pos_nonneg 16 k ltac:(lia) Hk).
  pose proof (Z.pow_pos_nonneg 10 j ltac:(lia) Hj). pose proof (Z.pow_le_mono_l 10 16 j ltac:(lia)).
  apply Z.div_le_lower_bound; [nia|]. pose proof (Z.mul_div_le (b * 16 ^ k) (10 ^ k) ltac:(lia)).
  transitivity (10 ^ k * (b * 16 ^ k / 10 ^ k) * 10 ^ j); [nia|]. transitivity (b * 16 ^ k * 10 ^ j); [nia|]. nia.
Qed.

Lemma GetBackoff_value base n j : in_u 32 base → in_u 8 j → GetBackoff base n j = unjittered base n * (1024 + j) / 1024.
Proof.
  intros Hb Hj. unfold GetBackoff, unjittered, MRP_BACKOFF_MARGIN_NUMERATOR, MRP_BACKOFF_MARGIN_DENOMINATOR, MRP_BACKOFF_BASE_NUMERATOR, MRP_BACKOFF_BASE_DENOMINATOR,
    MRP_BACKOFF_JITTER_BASE, CHIP_CONFIG_MRP_RETRY_INTERVAL_SENDER_BOOST.
  rewrite backoff_exponent_growths. pose proof (growths_bounds n) as Hk. set (k := growths n) in *. unfold in_u in *.
  rewrite (wrap_small 64 (base * 1127)) by (unfold in_u; lia). set (B := base * 1127 / 1024).
  assert (0 ≤ B < 2 ^ 33) as HB by (unfold B; Z.to_euclidean_division_equations; lia).
  assert (Nat.iter (Z.to_nat k) (fun '(num, denom) => (u32 (num * 16), u32 (denom * 10))) (1, 1) = (16 ^ k, 10 ^ k)
    ∧ 1 ≤ 16 ^ k ≤ 65536 ∧ 1 ≤ 10 ^ k) as (-> & H16 & H10).
  { assert (k = 0 ∨ k = 1 ∨ k = 2 ∨ k = 3 ∨ k = 4) as [->|[->|[->|[->| ->]]]] by lia; (split; [vm_compute; reflexivity|lia]). }
  rewrite (wrap_small 64 (B * 16 ^ k)) by (unfold in_u; nia). set (C := B * 16 ^ k / 10 ^ k).
  assert (0 ≤ C < 2 ^ 49) as HC.
  { split; [apply Z.div_pos; nia|]. apply Z.div_lt_upper_bound; nia. }
  rewrite (wrap_small 64 (C * (1024 + j))) by (unfold in_u; nia). rewrite Z.add_0_r. apply wrap_small. unfold in_u.
  Z.to_euclidean_division_equations; nia.
Qed.

(** C21: for a base interval of 32 bits the computation of [GetBackoff] wraps nowhere and
    gives the backoff of the specification: the base interval with its margin of
    1127/1024, times 1.6 for every transmission after the first, up to the fourth power,
    times 1 + j/1024 for the random byte j, each step rounded down.  So the jitter adds
    less than a quarter, [computeMaxPossible] gives the longest, and more transmissions
    never make the backoff before the jitter shorter. *)
Theorem backoff_bounds (base n n' j : Z) : in_u 32 base → in_u 8 j → n ≤ n' →
  GetBackoff base n j = unjittered base n * (1024 + j) / 1024
  ∧ unjittered base n ≤ GetBackoff base n j ≤ unjittered base n * 5 / 4
  ∧ GetBackoff base n j ≤ GetBackoff base n 255 ∧ GetBackoff base n 0 ≤ GetBackoff base n' 0
  ∧ GetBackoff base n 255 < 2 ^ 64.
Proof.
  intros Hb Hj Hn. assert (0 ≤ base * 1127 / 1024 < 2 ^ 33) as HB
    by (unfold in_u in *; Z.to_euclidean_division_equations; lia).
  pose proof (growths_bounds n) as Hk. pose proof (slower_mono _ _ _ (proj1 HB) (proj1 Hk) (growths_mono n n' Hn)) as Hm.
  assert (0 ≤ unjittered base n < 2 ^ 49) as Hu.
  { split; [apply Z.div_pos; [apply Z.mul_nonneg_nonneg; [lia|apply Z.pow_nonneg; lia]|apply Z.pow_pos_nonneg; lia]|].
    apply Z.div_lt_upper_bound; [apply Z.pow_pos_nonneg; lia|]. assert (16 ^ growths n ≤ 16 ^ 4) by (apply Z.pow_le_mono_r; lia).
    assert (1 ≤ 10 ^ growths n) by (apply (Z.pow_le_mono_r 10 0); lia). change (16 ^ 4) with 65536 in *. nia. }
  change (unjittered base n ≤ unjittered base n') in Hm. rewrite !GetBackoff_value by (done || ulia).
  set (u := unjittered base n) in *. set (u' := unjittered base n') in *. unfold in_u in *. clearbody u u'.
  split_and!; [lia|..]; Z.to_euclidean_division_equations; nia.
Qed.

(** ** Duplicates *)
Section duplicates.
Context {D : Type} `{!SessionLayer D}.
#[local] Abbreviation World := (Exchanges D).
Implicit Types (w : World) (c : ExchangeContext).

(** The header of a standalone acknowledgement of [counter] *)
Definition ack_header c (counter : Z) : PayloadHeader :=
  SetNeedsAck false (SetAckMessageCounter (Some counter)
    (SetInitiator (kFlagInitiator c) (SetMessageType SecureChannel MsgType_StandaloneAck (SetExchangeID (mExchangeId c) default_payload)))).

(** The session layer takes the acknowledgement that [c] owes. *)
Record goes_out w c (s : nat) (m : Z) (d3 : D) : Prop := {
  out_alive : 0 < mRefCount c; out_session : mSession c = Some s; out_valid : kFlagAckMessageCounterIsValid c = true;
  out_permitted : MessagePermitted (mDispatch c) SecureChannel MsgType_StandaloneAck = true;
  out_group : ∀ d, IsGroupSession s d = false;
  out_layer : ∃ d1 d2, NewBuffer (mSessionLayer w) = (true, d1)
    ∧ PrepareMessage s (ack_header c (mPendingPeerAckMessageCounter c)) d1 = (inr m, d2) ∧ SendPreparedMessage s m d2 = (CHIP_NO_ERROR, d3) }.

Lemma dispatch_ack_log i s c m d2 d3 w : mContextPool w !! i = Some c → kFlagAckMessageCounterIsValid c = true →
  MessagePermitted (mDispatch c) SecureChannel MsgType_StandaloneAck = true →
  PrepareMessage s (ack_header c (mPendingPeerAckMessageCounter c)) (mSessionLayer w) = (inr m, d2) → SendPreparedMessage s m d2 = (CHIP_NO_ERROR, d3) →
  wp (dispatch_SendMessage i s false SecureChannel MsgType_StandaloneAck)
    (fun r w' => r = inr tt ∧ mLog w' = mLog w ++ [Prepared s (ack_header c (mPendingPeerAckMessageCounter c)) m; Sent s m CHIP_NO_ERROR] ∧ mSessionLayer w' = d3) w.
Proof.
  intros Hc Hv Hp Hprep Hsend. unfold dispatch_SendMessage. eapply wp_exchange; [done|]. apply wp_verify; [intros _|by rewrite Hp]. cbv zeta.
  rewrite Hv, andb_false_r. apply wp_bind. eapply wp_take_exact; [done|]. unfold wp at 1. cbn [mret CM_ret].
  fold (ack_header c (mPendingPeerAckMessageCounter c)). set (hd := ack_header c _) in *. set (w1 := w <| mContextPool ::= _ |>).
  set (w2 := w1 <| mSessionLayer := d2 |> <| mLog ::= fun l => l ++ [Prepared s hd m] |>).
  assert (prepare s hd w1 = Some (inr m, w2)) as E2.
  { unfold prepare, mbind, CM_bind, layer. change (mSessionLayer w1) with (mSessionLayer w). by rewrite Hprep. }
  set (w3 := w2 <| mSessionLayer := d3 |> <| mLog ::= fun l => l ++ [Sent s m CHIP_NO_ERROR] |>).
  assert (send_prepared s m w2 = Some (inr CHIP_NO_ERROR, w3)) as E3.
  { unfold send_prepared, mbind, CM_bind, layer. change (mSessionLayer w2) with d2. by rewrite Hsend. }
  unfold wp. rewrite (bind_ok _ _ _ _ _ E2), (bind_ok _ _ _ _ _ E3). cbn [is_no_error mret CM_ret]. split_and!; [done| |done].
  unfold w3, w2, w1. cbn [update mLog]. by rewrite <- (assoc_L (++)).
Qed.

Lemma SendStandaloneAckMessage_log i s c m d3 w : mContextPool w !! i = Some c → goes_out w c s m d3 →
  wp (SendStandaloneAckMessage i)
    (fun r w' => r = inr tt ∧ mLog w' = mLog w ++ [Prepared s (ack_header c (mPendingPeerAckMessageCounter c)) m; Sent s m CHIP_NO_ERROR] ∧ mSessionLayer w' = d3) w.
Proof.
  intros Hc [Hr Hs Hv Hp Hg (d1 & d2 & Hnb & Hprep & Hsend)]. unfold SendStandaloneAckMessage. apply wp_bind. unfold wp at 1, layer. rewrite Hnb.
  set (w0 := w <| mSessionLayer := d1 |>). apply wp_verify; [intros _|done]. assert (mContextPool w0 !! i = Some c) as Hc0 by done.
  apply wp_bind, wp_attempt. eapply (wp_mono _ (fun r w' => r = inr tt ∧
    mLog w' = mLog w ++ [Prepared s (ack_header c (mPendingPeerAckMessageCounter c)) m; Sent s m CHIP_NO_ERROR] ∧ mSessionLayer w' = d3)).
  2: { intros r w' (-> & ? & ?). done. }
  unfold with_ref. pose (c1 := c <| mRefCount ::= Z.add 1 |>). pose (w1 := w0 <| mContextPool ::= insert i c1 |>).
  assert (Retain i w0 = Some (inr tt, w1)) as ER.
  { unfold Retain. erewrite bind_ok by (unfold exchange; by rewrite Hc0). cbn [fst snd id]. rewrite (proj2 (Z.ltb_lt _ _)) by done.
    unfold die_unless. erewrite bind_ok by done. cbn [fst snd id]. unfold set_exchange, modify. by rewrite (set_pool_alter _ _ _ _ Hc0). }
  unfold wp at 1. rewrite (bind_ok _ _ _ _ _ ER). assert (mContextPool w1 !! i = Some c1) as Hc1 by apply lookup_insert_eq.
  apply wp_bind, wp_attempt. eapply wp_mono; [eapply wp_and; [eapply (send_ack_effect i c1); [done|unfold c1; cbn [update mRefCount]; lia|done]|]|].
  - instantiate (1 := fun r w' => r = inr tt ∧ mLog w' = mLog w ++ [Prepared s (ack_header c (mPendingPeerAckMessageCounter c)) m; Sent s m CHIP_NO_ERROR] ∧ mSessionLayer w' = d3).
    unfold send_message. eapply wp_exchange; [done|]. change (mSession c1) with (mSession c). rewrite Hs.
    apply wp_die_unless; [apply Z.ltb_lt; unfold c1; cbn [update mRefCount]; lia|]. unfold IsGroupExchangeContext. change (mSession c1) with (mSession c).
    rewrite Hs. unfold session_is. apply wp_gets, wp_gets. change (mSessionLayer w1) with d1. rewrite Hg. cbv zeta. rewrite !andb_false_r. cbn [andb].
    unfold wp at 1. erewrite bind_ok by done. cbn [fst snd id]. rewrite bind_ok with (a := tt) (s' := w1) by done. cbn [fst snd id].
    change (wp (err ← attempt (dispatch_SendMessage i s false SecureChannel MsgType_StandaloneAck);
      match err with inl err => mret tt;; MarkAsDefunct_CASE s;; fail err | inr _ => mret tt end) (fun r w' => r = inr tt ∧
      mLog w' = mLog w ++ [Prepared s (ack_header c (mPendingPeerAckMessageCounter c)) m; Sent s m CHIP_NO_ERROR] ∧ mSessionLayer w' = d3) w1).
    apply wp_bind, wp_attempt. eapply wp_mono; [by eapply (dispatch_ack_log i s c1 m d2 d3 w1)|]. by intros r w' (-> & ? & ?).
  - intros r w2 [(v & (Ep & _) & _) (-> & El & Ed)]. apply wp_bind. unfold wp at 1. rewrite Release_eq. unfold release_pool. rewrite Ep, lookup_insert_eq.
    cbn [mbind option_bind]. assert (mRefCount (acked v c1) = mRefCount c + 1) as En1 by (unfold c1; destruct v; cbn [acked update mRefCount]; lia).
    rewrite En1, (proj2 (Z.ltb_lt _ _)) by lia. destruct (Z.eqb_spec (mRefCount c + 1) 1); [lia|]. done.
Qed.

(** What a duplicate leaves of the acknowledgement that [c] owes *)
Definition after_duplicate c (counter : Z) : ExchangeContext :=
  if kFlagAckPending c && negb (mPendingPeerAckMessageCounter c =? counter) then c <| kFlagAckMessageCounterIsValid := true |>
  else if kFlagAckMessageCounterIsValid c then c <| kFlagAckPending := false |>
  else c <| kFlagAckPending := false |> <| mPendingPeerAckMessageCounter := counter |> <| kFlagAckMessageCounterIsValid := true |>.
Definition owing c (counter : Z) : ExchangeContext :=
  c <| mPendingPeerAckMessageCounter := counter |> <| kFlagAckPending := true |> <| kFlagAckMessageCounterIsValid := true |>.

(** C19: a duplicate of a message that asks for an acknowledgement is acknowledged at once,
    by a standalone acknowledgement that carries its counter, even when the message itself
    was acknowledged before; an acknowledgement that is pending for another message stays
    pending, one for the same message is done with, and the retransmission table is
    untouched. *)
Theorem duplicate_acked_again w i c s counter m d3 : mContextPool w !! i = Some c → goes_out w (owing c counter) s m d3 →
  wp (HandleNeedsAck i counter true) (fun r w' => r = inr tt
    ∧ mLog w' = mLog w ++ [Prepared s (ack_header c counter) m; Sent s m CHIP_NO_ERROR]
    ∧ mContextPool w' = <[i := after_duplicate c counter]> (mContextPool w) ∧ mRetransTable w' = mRetransTable w) w.
Proof.
  intros Hc Ho. unfold HandleNeedsAck. apply wp_bind, wp_attempt. eapply (wp_mono _ (fun r w' => r = inr tt
    ∧ mLog w' = mLog w ++ [Prepared s (ack_header c counter) m; Sent s m CHIP_NO_ERROR]
    ∧ mContextPool w' = <[i := after_duplicate c counter]> (mContextPool w) ∧ mRetransTable w' = mRetransTable w)).
  2: { intros r w' (-> & ? & ? & ?). done. }
  unfold HandleNeedsAckInner. eapply wp_exchange; [done|]. cbv zeta. unfold SetPendingPeerAckMessageCounter at 1.
  eapply wp_set_exchange; [done|]. fold (owing c counter). set (c1 := owing c counter) in *. set (w1 := w <| mContextPool ::= insert i c1 |>).
  assert (mContextPool w1 !! i = Some c1) as Hc1 by apply lookup_insert_eq.
  assert (goes_out w1 c1 s m d3) as Ho1 by (destruct Ho; by constructor). apply wp_bind, wp_attempt. eapply wp_mono.
  { eapply wp_and; [by eapply (SendStandaloneAckMessage_log i s c1 m d3 w1)|]. destruct Ho. by eapply (SendStandaloneAckMessage_effect i c1 w1). }
  intros r w2 [(-> & El & _) (v & (Ep & Et & _) & Hv)]. rewrite Hv in Ep.
  2: { destruct Ho as [? ? ? ? ? (d1 & d2 & Hnb & _)]. change (mSessionLayer w1) with (mSessionLayer w). by rewrite Hnb. }
  2: { destruct Ho. by exists s. }
  2: { done. }
  assert (mContextPool w2 !! i = Some (acked true c1)) as Hc2 by (rewrite Ep; apply lookup_insert_eq).
  assert (∀ c', c' = after_duplicate c counter →
    mContextPool (w2 <| mContextPool ::= insert i c' |>) = <[i := after_duplicate c counter]> (mContextPool w)) as Hpool.
  { intros c' ->. cbn [update mContextPool]. rewrite Ep. unfold w1. cbn [update mContextPool]. by rewrite !insert_insert_eq. }
  unfold after_duplicate in *. destruct (kFlagAckPending c && negb (mPendingPeerAckMessageCounter c =? counter)) eqn:Epend.
  - apply andb_true_iff in Epend as [Epend _]. unfold SetPendingPeerAckMessageCounter. apply wp_bind. eapply wp_set_exchange_last; [done|].
    split_and!; [done|exact El|apply Hpool|exact Et]. unfold acked, c1, owing. destruct c. cbn in *. by subst.
  - destruct (kFlagAckMessageCounterIsValid c) eqn:Evalid.
    + apply wp_bind. eapply wp_set_exchange_last; [done|].
      split_and!; [done|exact El|apply Hpool|exact Et]. unfold acked, c1, owing. destruct c. cbn in *. by subst.
    + unfold wp at 1. cbn [mret CM_ret]. split_and!; [done|exact El| |exact Et]. rewrite Ep. unfold w1. cbn [update mContextPool].
      by rewrite insert_insert_eq.
Qed.
End duplicates.
