(* ===== verification/ReliableMessageDemo.v ===== *)
(** * ReliableMessageDemo: a session layer that always sends, and what it shows *)
From S2P Require Import Prelude ChipError MessageHeader StateError ReliableMessage ReliableMessageSafe ReliableMessageTimer ReliableMessageTheorems ExchangeMgr ExchangeMgrSafe ExchangeMgrTheorems.

(** The state is the next message counter. *)
#[local] Instance plain_sessions : SessionLayer Z := {
  PrepareMessage := fun _ _ d => (inr d, d + 1);
  SendPreparedMessage := fun _ _ d => (CHIP_NO_ERROR, d);
  NewBuffer := fun d => (true, d);
  GetRandU8 := fun d => (0, d);
  GetMRPBaseTimeout := fun _ _ => 300;
  IsGroupSession := fun _ _ => false;
  IsCASESession := fun _ _ => true;
  IsActiveSession := fun _ _ => true;
  RequireMRP := fun _ _ => true }.

Definition demo_protocol : ProtocolId := {| mVendorId := 0; mProtocolId := 1 |}.
(** The peer's request, which asks for an acknowledgement *)
Definition demo_request : PayloadHeader := SetNeedsAck true (SetInitiator true (SetMessageType demo_protocol 8 (SetExchangeID 7 default_payload))).

Definition demo_packet (counter : Z) : PacketHeader := default_packet <| MessageHeader.mMessageCounter := counter |> <| mSessionId := 1 |>.
(** One handler, with a plain delegate *)
#[local] Instance demo_handlers : UnsolicitedMessageHandlers.
Proof.
  refine {| OnUnsolicitedMessageReceived := fun _ _ => inr (Some ApplicationExchangeDispatch) |}.
  intros handler header dispatch [= <-]. split; [reflexivity|by eexists].
Defined.

(** Two requests are received; the first is answered and the peer falls silent. *)
Definition demo_history : list input :=
  [IRegister demo_protocol kAnyMessageType 0; IReceive (demo_packet 500) demo_request 0 false (fun i => [AWillSend i]); ITick 50;
   IAct (ASend 0 demo_protocol 9 false false); IReceive (demo_packet 501) (SetExchangeID 8 demo_request) 0 false (fun i => [AWillSend i])].

Definition answerable_so_far (w : Exchanges Z) : bool :=
  bool_decide (map_Forall (fun _ c => kFlagAckPending c = true → is_Some (mSession c)) (mContextPool w)).
Lemma answerable_sound w : answerable_so_far w = true → all_answerable w.
Proof. intros H%bool_decide_eq_true_1 i c Hc Hp. destruct (H i c Hc Hp) as [s Hs]. by exists s. Qed.

(** One message waits for its acknowledgement and one acknowledgement is pending; the
    timer sends both until nothing is left. *)
Lemma retransmissions_end_witness :
  ∃ g, live 1000 demo_history (fresh 100 0) = Some (inr tt, g) ∧ size (mRetransTable (mExchanges g)) = 1%nat ∧
  ∃ w, Nat.iter 49 (fun o => o ≫= fire) (Some (mExchanges g)) = Some w ∧ mRetransTable w = ∅ ∧ mTimer w = None
    ∧ ∀ i c, mContextPool w !! i = Some c → kFlagAckPending c = false.
Proof.
  assert (match live 1000 demo_history (fresh 100 0) with
          | Some (inr tt, g) => (size (mRetransTable (mExchanges g)) =? 1)%nat && answerable_so_far (mExchanges g) | _ => false end = true) as H by (vm_compute; reflexivity).
  destruct (live 1000 demo_history (fresh 100 0)) as [[[err|[]] g]|] eqn:E; [discriminate| |discriminate].
  apply andb_true_iff in H as [Hs Ha]. exists g. split; [reflexivity|]. split; [by apply Nat.eqb_eq|].
  apply (retransmissions_end 100 0 1000 demo_history g E); [by intros d'|by apply answerable_sound].
Defined.

Lemma backoff_bounds_witness : GetBackoff 300 1 10 = 333 ∧ GetBackoff 300 3 0 = 844 ∧ GetBackoff 300 4 0 ≤ GetBackoff 300 5 0.
Proof.
  destruct (backoff_bounds 300 1 1 10) as (E1 & _); [unfold in_u; lia|unfold in_u; lia|lia|].
  destruct (backoff_bounds 300 3 3 0) as (E2 & _); [unfold in_u; lia|unfold in_u; lia|lia|].
  destruct (backoff_bounds 300 4 5 10) as (_ & _ & _ & H & _); [unfold in_u; lia|unfold in_u; lia|lia|].
  split_and!; [rewrite E1; reflexivity|rewrite E2; reflexivity|exact H].
Defined.

(** An exchange that owes the acknowledgement of message 41 and gets message 40 again *)
Definition demo_context : ExchangeContext :=
  {| mExchangeId := 7; mSession := Some 0%nat; mDelegate := true; mDispatch := ApplicationExchangeDispatch; mResponseTimeout := 0; mRefCount := 2;
     mNextAckTime := 200; mPendingPeerAckMessageCounter := 41; kFlagInitiator := false; kFlagResponseExpected := false; kFlagAutoRequestAck := true;
     kFlagMessageNotAcked := false; kFlagAckPending := true; kFlagAckMessageCounterIsValid := true; kFlagWillSendMessage := true; kFlagClosed := false;
     kFlagEphemeralExchange := false; kFlagIgnoreSessionRelease := false |}.
Definition demo_world : Exchanges Z := (mExchanges (fresh 100 0)) <| mContextPool := {[0%nat := demo_context]} |>.
Lemma duplicate_acked_again_witness :
  wp (HandleNeedsAck 0 40 true) (fun r w' => r = inr tt
    ∧ mLog w' = [Prepared 0 (ack_header demo_context 40) 100; Sent 0 100 CHIP_NO_ERROR]
    ∧ mContextPool w' = <[0%nat := after_duplicate demo_context 40]> (mContextPool demo_world) ∧ mRetransTable w' = ∅) demo_world.
Proof.
  apply (duplicate_acked_again demo_world 0 demo_context 0 40 100 101); [reflexivity|].
  constructor; [reflexivity..|by intros d|]. exists 100, 101. split_and!; reflexivity.
Defined.

(** ** A lost session and an expected send *)
(** The handler will send later, and the session is released first: the acknowledgement
    that is pending cannot be sent, and nothing withdraws it. *)
Definition spinning_history : list input :=
  [IRegister demo_protocol kAnyMessageType 0; IReceive (demo_packet 500) demo_request 0 false (fun i => [AWillSend i]); ISessionReleased 0; ITick 200; ITimer].
Definition spinning_world : Exchanges Z :=
  mExchanges (match live 1000 spinning_history (fresh 100 0) with Some (_, g) => g | None => fresh 100 0 end).
(** The timer is armed without a delay for ever: a lost session with an acknowledgement
    pending on an exchange that is to send keeps the manager busy until the application
    lets go of the exchange. *)
Lemma released_session_ack_spins :
  (mExchanges ∘ snd <$> live 1000 spinning_history (fresh 100 0)) = Some spinning_world ∧ mTimer spinning_world = Some (mClock spinning_world)
  ∧ ∀ n, Nat.iter n (fun o => o ≫= fire) (Some spinning_world) = Some spinning_world.
Proof.
  split; [vm_compute; reflexivity|]. split; [vm_compute; reflexivity|]. assert (fire spinning_world = Some spinning_world) as E by (vm_compute; reflexivity).
  intros n. induction n as [|n IH]; [done|]. cbn [Nat.iter nat_rect]. unfold Nat.iter in IH. rewrite IH. exact E.
Qed.

(** A handler for any message of a protocol and one for a type of it *)
Definition demo_pool : list UnsolicitedMessageHandlerSlot :=
  [{| umProtocolId := demo_protocol; umMessageType := kAnyMessageType; umHandler := Some 3%nat |};
   {| umProtocolId := demo_protocol; umMessageType := 8; umHandler := Some 4%nat |};
   {| umProtocolId := NotSpecified; umMessageType := 0; umHandler := None |}].
Lemma demo_distinct : distinct demo_pool.
Proof.
  intros [|[|[|i]]] [|[|[|j]]] s1 s2 H1 H2; cbn in H1, H2; try done; injection H1 as <-; injection H2 as <-; done.
Qed.
Lemma unsolicited_handlers_refine_witness :
  handler_of demo_pool demo_protocol 8 = Some 4%nat ∧ matching_handler demo_request None demo_pool = Some 4%nat
  ∧ matching_handler (SetMessageType demo_protocol 9 demo_request) None demo_pool = Some 3%nat.
Proof.
  split; [reflexivity|]. pose (g := (fresh 100 0) <| UMHandlerPool := demo_pool |>).
  destruct (unsolicited_handlers_refine g demo_protocol 8 5 demo_distinct) as (_ & _ & H). split.
  - exact (H demo_request ltac:(done)).
  - exact (H (SetMessageType demo_protocol 9 demo_request) ltac:(done)).
Defined.
